(* ===== verification/_CoqProject ===== *)
-Q . S2P
Prelude.v
ProcessCore.v
RuntimeFs.v
RuntimeFsInv.v
RuntimeFsPath.v
RuntimeFsSteps.v
RuntimeFsSafety.v
RuntimeFsContents.v
RuntimeFsTree.v
RuntimeFsAccess.v
RuntimeFsImage.v
RuntimeFsImageBytes.v
RuntimeFsImageProofs.v
RuntimeFsImageValid.v
RuntimeFsImageTheorems.v
RuntimeFsImageImport.v
RuntimeFsImageSafety.v
RuntimeSyscall.v
RuntimeSyscallProofs.v
Kmem.v
KmemProofs.v
KernelObjects.v
SemaphoreProofs.v
KernelObjectsProofs.v
MailboxProofs.v
RuntimeUi.v
RuntimeShellPath.v
RuntimeLoader.v
RuntimeResource.v
RuntimeService.v
RuntimePolicy.v
RuntimeManage.v
RuntimeManageSpec.v
RuntimeManagePrint.v
RuntimeManageLine.v
ReadyQueue.v
ReadyQueueTree.v
ReadyQueueBalance.v
ReadyQueueInsert.v
ReadyQueueRemove.v
ReadyQueueSpec.v
Scheduler.v
SchedulerProofs.v
SchedulerOps.v
SchedulerCalls.v
SchedulerMachine.v
SchedulerTheorems.v
SchedulerLiveness.v
SchedulerInterface.v
DisplaySurface.v
DisplaySurfaceProofs.v
Freestanding.v
KernelSyscalls.v
KernelSyscallsFiles.v
KernelSyscallsProofs.v
KernelSyscallsTheorems.v
KernelFsStress.v
KernelFsStressProofs.v
KernelService.v
KernelServiceCalls.v
KernelServiceProofs.v
Soc.v
Gpio.v
Uart.v
UsbSerialJtag.v
Console.v
PanelGc9a01.v
PanelSpec.v
TouchCst816s.v
TouchProofs.v
SimDevice.v
ConsoleProofs.v
PanelFrames.v
PanelTheorems.v
TouchTheorems.v
DisplayDemo.v
DisplayDemoProofs.v
Interrupts.v
InterruptsProofs.v
KernelMain.v
