(* ===== verification/Prelude.v ===== *)
(** * TensorOS kernel: a verification development

    TensorOS is a freestanding kernel in C for the ESP32-C3, a RISC-V
    micro-controller: a table of processes with a scheduler, a kernel heap,
    blocking synchronisation objects, an in-memory file system with an image
    format, a system-call layer with a handle table, a management shell on a
    serial line, services for applications (UI events, sessions, resources,
    a display), and the drivers below them.  This library models the
    components function by function and proves what makes each correct.
    Names of definitions are the names of the C functions, structures and
    constants.

    ** The program and its model

    Processes and scheduling.
    - Process table ([kernel/process_core.c]): [ProcessCore.v].  Slots are a
      list of [process_runtime_state]; round-robin selection and wake-up are
      circular scans.
    - Ready queue (the red-black tree of [kernel/scheduler.c]):
      [ReadyQueue.v], array access by array access.  [ReadyQueueTree.v] says
      which tree the arrays hold, [ReadyQueueBalance.v] the red-black
      invariant, [ReadyQueueInsert.v] and [ReadyQueueRemove.v] follow the two
      operations, and [ReadyQueueSpec.v] shows that the queue is the ordered
      list of its slots.
    - Scheduler (the rest of [kernel/scheduler.c], the tick of
      [targets/esp32c3/src/timer.c]): [Scheduler.v].  [SchedulerProofs.v] has
      the invariant [sched_inv], [SchedulerOps.v] and [SchedulerCalls.v] that
      every function keeps it, [SchedulerMachine.v] the step relation of
      calls, switches and interrupts, [SchedulerTheorems.v] and
      [SchedulerLiveness.v] what holds of its runs, [SchedulerInterface.v]
      that the scheduler does what the kernel objects assume of it.
    - Spawn policy and preemption points ([kernel/runtime_policy.c],
      [preempt.c]): [RuntimePolicy.v].

    Memory and synchronisation.
    - Kernel heap ([kernel/kmem.c]): [Kmem.v], [KmemProofs.v].
    - Wait queues, events, semaphores, mutexes, mailboxes
      ([kernel/wait_queue.c], [event.c], [semaphore.c], [mutex.c],
      [mailbox.c]): [KernelObjects.v], over any heap of class [Allocator];
      [KernelObjectsProofs.v] shows that the kernel heap obeys
      [AllocatorLaws].  [SemaphoreProofs.v] and [MailboxProofs.v] treat
      interleaved executions.
    - Memory primitives ([kernel/freestanding.c]): [Freestanding.v].

    Files.
    - File system ([kernel/runtime_fs.c]): [RuntimeFs.v] has the node table,
      the open-file table and all operations; [RuntimeFsInv.v] the tree
      invariant [wf], which [runtime_fs_validate] decides; [RuntimeFsPath.v]
      the theory of paths; [RuntimeFsSteps.v] and [RuntimeFsSafety.v] that
      operations keep the invariant and stay within the tables;
      [RuntimeFsContents.v] read, write and seek as operations on byte lists;
      [RuntimeFsTree.v] the effect of mkdir, remove and rename on all paths;
      [RuntimeFsAccess.v] opening, listing and what goes wrong at the edges.
    - Images ([kernel/runtime_fs_image.c]): [RuntimeFsImage.v];
      [RuntimeFsImageBytes.v] and [RuntimeFsImageProofs.v] are about buffers
      and records, [RuntimeFsImageValid.v] and [RuntimeFsImageTheorems.v]
      about export and validation, [RuntimeFsImageImport.v] and
      [RuntimeFsImageSafety.v] about import.
    - Self-tests of the file system (in [kernel/kernel.c]):
      [KernelFsStress.v], [KernelFsStressProofs.v].

    System calls and services.
    - System calls ([kernel/runtime_syscall.c]): [RuntimeSyscall.v] has the
      handle table and one definition per case of the dispatcher, over any
      callbacks ([struct runtime_syscall_ops]); [RuntimeSyscallProofs.v].
    - Their wiring (the callbacks in [kernel/kernel.c]): [KernelSyscalls.v],
      over a memory of typed objects; [KernelSyscallsFiles.v],
      [KernelSyscallsProofs.v] and [KernelSyscallsTheorems.v] are about whole
      runs of system calls.
    - The accumulator service (server and client in [kernel/kernel.c]):
      [KernelService.v], a step relation of processes that make one kernel
      call at a time; [KernelServiceCalls.v], [KernelServiceProofs.v].
    - Service sessions ([kernel/runtime_service.c]): [RuntimeService.v].
    - Application records, process manifests, resource paths
      ([kernel/runtime_loader.c], [runtime_catalog.c], [runtime_resource.c]):
      [RuntimeLoader.v], [RuntimeResource.v].
    - UI events, timers, input ([kernel/runtime_ui.c], [runtime_input.c]):
      [RuntimeUi.v].
    - Management shell ([kernel/runtime_manage.c]) and its command lookup
      ([runtime_shell_path.c]): [RuntimeManage.v], [RuntimeShellPath.v].
      [RuntimeManageSpec.v] has the commands as data, their grammar and their
      meaning, [RuntimeManagePrint.v] a line for every command,
      [RuntimeManageLine.v] the line editor.

    Display and drivers.
    - Display surface and service ([kernel/display_surface.c],
      [runtime_display.c]): [DisplaySurface.v], [DisplaySurfaceProofs.v].
    - Display demonstration ([kernel/runtime_display_demo.c]):
      [DisplayDemo.v], [DisplayDemoProofs.v].
    - Registers ([targets/esp32c3/include/soc.h]): [Soc.v], with the monad of
      drivers and its logic [runs].
    - Pins ([gpio.c]), serial port ([drivers/uart.c]), USB console
      ([drivers/usb_serial_jtag.c]), console ([drivers/console.c]): [Gpio.v],
      [Uart.v], [UsbSerialJtag.v], [Console.v], [ConsoleProofs.v].
    - Panel ([panel_gc9a01.c]): [PanelGc9a01.v]; [PanelSpec.v] has the SPI
      controller and the panel, [PanelFrames.v] and [PanelTheorems.v] what
      the driver draws.
    - Touch controller ([touch_cst816s.c]): [TouchCst816s.v]; [TouchProofs.v]
      has the bus target, [TouchTheorems.v] what a read returns.
    - Interrupts, traps, timer, boot ([interrupt.c], [arch/riscv/trap.c],
      [drivers/systimer.c], [timer.c], [boot/boot.c]): [Interrupts.v],
      [InterruptsProofs.v].
    - [SimDevice.v] is a machine that has all devices of the drivers, with
      which the theorems about them are applied.

    The whole.  [kernel_main], the callbacks of the shell and the functions of
    the processes ([kernel/kernel.c]): [KernelMain.v], over the state of all
    components together.

    ** Conventions

    Unsigned C integers are [N] with the wrap-around written out ([u8], [u16],
    [u32], [sub32]); signed ones are [Z].  C strings are the list of their
    characters before the NUL.  An array is a list and an access outside it
    has no result: operations that index memory return an [option] whose
    [None] is undefined behaviour (or a loop that does not end), so a theorem
    that gives a result also says that the operation is defined.  Pointers
    that may be NULL are options, or a boolean where only their being NULL
    matters.  Compile-time choices are section variables.

    The hardware is a type with the operations of [Bus].  What a driver relies
    on is a class over it: [UartDevice], [UsbDevice], [SpiDevice],
    [TouchDevice], [Processor], [InterruptController], [TickDevice]; the ROM
    routine that routes an interrupt is the class [Rom].  Each class states
    the documented answer of the device to register accesses and has an
    instance on a concrete machine.  [Others] is what other processes do
    while a process is away from the processor.

    Calls that block are split where the process gives up the processor;
    interleavings are step relations whose steps are whole calls or the parts
    of a call between two such points.  In the scheduler's machine an
    interrupt is taken between two calls, in the waiting loop of
    [process_yield] and where it polls the timer, not between two
    instructions of a function; [SchedulerInterface.v] shows one consequence
    of a finer interleaving.  [kernel_main] runs without interrupts from
    [interrupts_enable] to the scheduler's first poll of the timer.

    ** Fuel

    Loops whose bound is not a counter carry fuel, and the theorems show that
    it suffices where the code's loop ends.  Paths: their length plus one,
    since each step passes a character.  Parent links of the file system and
    of images: [CHAIN_FUEL] and [WALK_FUEL], eighteen steps for a table of
    sixteen nodes.  Powers of two: [POW2_FUEL], 33 doublings of a 32-bit
    word.  The ready queue: [RB_FUEL], sixteen rounds where the ten slots of
    the table allow a depth of six.  The chunks of the self-test: [CHUNK_FUEL], 160
    chunks of the structure.  The digits of a number: ten; the console's ring:
    its 1024 places.  Waiting loops on hardware: [bus_patience], a number that
    belongs to the machine, of which the device classes say that it is
    enough; loops with a limit in the code have that limit.  The commands and
    tasks that loop for ever are given by the sequence of their rounds.

    ** What the theorems show

    Invariants: any sequence of file-system operations is defined and leaves
    a valid file system, within the bounds of [op_safe] (paths of mkdir long
    enough for its diagnostic reads, sizes of write that do not wrap, no
    removal or renaming of the root under another spelling); any run of the scheduler keeps its table, its ready
    queue and its current process in agreement.  Typing: any sequence of
    system calls with usable pointers, within the same bounds, is defined and every file handle names an open file of its
    owner.  Functional behaviour: remove, rename, allocation, release,
    drawing, printing, the programming of the interrupt controller, the
    choice of the next process, the start of the kernel.  Safety under
    interleaving: no lost wake-up for semaphores, mutual exclusion for
    mutexes, in-order delivery for mailboxes, images that cannot corrupt the
    tables.  Refinement: file contents to byte lists, the ready queue to an
    ordered list, the scheduler to the wait channels the objects use, the
    shell to its grammar, the line editor to a list of characters, the timer
    interrupt to a tick and a redirection, the service to an accumulator.
    Liveness and termination: a READY process gets the processor, a request
    is answered, every call of the scheduler and the self-test end.  Round
    trips: images, and the command lines of the shell.  Hardware: what a text
    puts on the panel, what a touch reading is, what the console prints.
    What the code does against its intention (sizes that wrap, wake-ups that
    come too early, handles that outlive their object) is stated as it is, in
    lemmas next to the component.

    ** Not modelled

    The assembly ([context_switch.S], [start.S]): a switch is the outcome of
    the function that asks for it.  [boot/app_desc.c] is data for the boot
    loader, and [bootloader_project] is part of another program.  Diagnostic
    registers are written by the functions of [KernelMain.v] and of the
    drivers, but not by those of [Scheduler.v], [KernelFsStress.v] and
    [KernelService.v], whose state has no hardware; their text output is
    recorded only where a theorem needs it.  The hook of [preempt_target.c],
    an empty function, is a parameter of [RuntimePolicy.v].  The prototypes in
    the headers have no content.  Services that [kernel.c] answers from within
    another process ([runtime_service_request_sync] in [KernelMain.v] and
    [KernelSyscalls.v]) are parameters there, and modelled in
    [KernelService.v].

    This file holds what all components share: machine integers, status codes,
    strings, arrays and loops over them, and the proof tactics. *)

From Stdlib Require Export Ascii Lia.
From stdpp Require Export base numbers strings gmap option list.

(** Notations of the development live in their own scope. *)
Declare Scope tensor_scope.
Delimit Scope tensor_scope with tensor.

Create HintDb tensor.
Create Rewrite HintDb tensor.

(** ** Machine integers

    Unsigned C integers are [N] with their wrap-around written out;
    [int32_t] values are [Z]. *)

Definition UINT32_MAX : N := 4294967295.
Definition u8 (n : N) : N := n mod 256.
Definition u16 (n : N) : N := n mod 65536.
Definition u32 (n : N) : N := n mod 4294967296.
Definition u64 (n : N) : N := n mod 18446744073709551616.

(** Unsigned 32-bit subtraction [a - b]. *)
Definition sub32 (a b : N) : N := u32 (a + 4294967296 - u32 b).

(** The cast [(int32_t)n] of an unsigned 32-bit value. *)
Definition i32 (n : N) : Z :=
  let w := u32 n in
  if (w <? 2147483648)%N then Z.of_N w else (Z.of_N w - 4294967296)%Z.

(** The cast [(uint32_t)z] (and [(uintptr_t)z] on the 32-bit target). *)
Definition u32_of_Z (z : Z) : N := Z.to_N (z mod 4294967296).

Lemma u32_small n : (n < 4294967296)%N → u32 n = n.
Proof. intros. unfold u32. by apply N.mod_small. Qed.

Lemma u32_lt n : (u32 n < 4294967296)%N.
Proof. unfold u32. by apply N.mod_lt. Qed.

Lemma u16_small n : (n < 65536)%N → u16 n = n.
Proof. intros. unfold u16. by apply N.mod_small. Qed.

Lemma u16_lt n : (u16 n < 65536)%N.
Proof. unfold u16. by apply N.mod_lt. Qed.

Lemma i32_small n : (n < 2147483648)%N → i32 n = Z.of_N n.
Proof.
  intros H. unfold i32. rewrite u32_small by lia.
  destruct (N.ltb_spec n 2147483648); [done|lia].
Qed.

Lemma i32_u32_of_Z z : (-2147483648 ≤ z < 2147483648)%Z → i32 (u32_of_Z z) = z.
Proof.
  intros H. unfold i32, u32_of_Z.
  pose proof (Z.mod_pos_bound z 4294967296 ltac:(lia)).
  rewrite u32_small by lia.
  destruct (N.ltb_spec (Z.to_N (z mod 4294967296)) 2147483648); rewrite Z2N.id by lia;
    destruct (Z.ltb_spec z 0).
  - exfalso. rewrite <-(Z.mod_add z 1 4294967296) in * by lia.
    rewrite Z.mod_small in * by lia. lia.
  - rewrite Z.mod_small; lia.
  - rewrite <-(Z.mod_add z 1 4294967296) by lia. rewrite Z.mod_small; lia.
  - exfalso. rewrite Z.mod_small in * by lia. lia.
Qed.

(** ** Status codes ([include/runtime_syscall.h]) *)

Definition RUNTIME_SYSCALL_STATUS_OK : Z := 0.
Definition RUNTIME_SYSCALL_STATUS_ENOENT : Z := -2.
Definition RUNTIME_SYSCALL_STATUS_ESRCH : Z := -3.
Definition RUNTIME_SYSCALL_STATUS_EBADF : Z := -9.
Definition RUNTIME_SYSCALL_STATUS_EACCES : Z := -13.
Definition RUNTIME_SYSCALL_STATUS_ENOMEM : Z := -12.
Definition RUNTIME_SYSCALL_STATUS_EEXIST : Z := -17.
Definition RUNTIME_SYSCALL_STATUS_EBUSY : Z := -16.
Definition RUNTIME_SYSCALL_STATUS_ENOTDIR : Z := -20.
Definition RUNTIME_SYSCALL_STATUS_EISDIR : Z := -21.
Definition RUNTIME_SYSCALL_STATUS_EINVAL : Z := -22.
Definition RUNTIME_SYSCALL_STATUS_ENOSPC : Z := -28.
Definition RUNTIME_SYSCALL_STATUS_ENOTEMPTY : Z := -39.
Definition RUNTIME_SYSCALL_STATUS_ENOSYS : Z := -38.
Definition RUNTIME_SYSCALL_STATUS_ENOTSUP : Z := -95.

(** ** Truth values, strings, arrays

    A C truth value: non-zero is true. *)
Definition nz (n : N) : bool := negb (n =? 0)%N.
Lemma nz_true n : nz n = true ↔ n ≠ 0%N.
Proof. unfold nz. destruct (N.eqb_spec n 0); naive_solver. Qed.
Lemma nz_false n : nz n = false ↔ n = 0%N.
Proof. unfold nz. destruct (N.eqb_spec n 0); naive_solver. Qed.

(** ** Characters and NUL-terminated strings

    A C string is the list of its characters before the terminating NUL. *)
Abbreviation cstr := (list ascii).
Definition cs (s : string) : cstr := String.list_ascii_of_string s.
Definition code (c : ascii) : N := N_of_ascii c.
Definition chr_eqb (a b : ascii) : bool := bool_decide (a = b).
Definition str_eqb (a b : cstr) : bool := bool_decide (a = b).

(** The loops [while (a[i] && b[i]) { if (a[i] != b[i]) return 0; ++i }
    return a[i] == 0 && b[i] == 0] that the components repeat. *)
Fixpoint cstr_equals (a b : cstr) : bool :=
  match a, b with
  | x :: a', y :: b' => if chr_eqb x y then cstr_equals a' b' else false
  | [], [] => true
  | _, _ => false
  end.

Lemma cstr_equals_eq a b : cstr_equals a b = true ↔ a = b.
Proof.
  revert b. induction a as [|x a IH]; intros [|y b]; simpl; try done.
  unfold chr_eqb. case_bool_decide as Hxy; [rewrite IH|]; split; congruence.
Qed.

Lemma cstr_equals_refl a : cstr_equals a a = true.
Proof. by apply cstr_equals_eq. Qed.

Lemma cstr_equals_neq a b : cstr_equals a b = false ↔ a ≠ b.
Proof. rewrite <-cstr_equals_eq. by destruct (cstr_equals a b). Qed.

(** ** Arrays indexed by unsigned integers

    [aget] and [aset] are [None] exactly when the C access is out of bounds. *)
Definition aget {A} (l : list A) (i : N) : option A :=
  if (i <? N.of_nat (length l))%N then l !! N.to_nat i else None.
Definition aset {A} (l : list A) (i : N) (x : A) : option (list A) :=
  if (i <? N.of_nat (length l))%N then Some (<[N.to_nat i := x]> l) else None.

(** In-place modification of one element; an index in range is the caller's
    obligation. *)
Definition aupd {A} (l : list A) (i : N) (f : A → A) : list A := alter f (N.to_nat i) l.

Lemma aget_lookup {A} (l : list A) i : aget l i = l !! N.to_nat i.
Proof.
  unfold aget. destruct (N.ltb_spec i (N.of_nat (length l))); [done|].
  symmetry. apply lookup_ge_None. lia.
Qed.

Lemma aget_Some_lt {A} (l : list A) i x : aget l i = Some x → (i < N.of_nat (length l))%N.
Proof. unfold aget. destruct (N.ltb_spec i (N.of_nat (length l))); naive_solver. Qed.

Lemma aget_is_Some {A} (l : list A) i : (i < N.of_nat (length l))%N → is_Some (aget l i).
Proof. intros. rewrite aget_lookup. apply lookup_lt_is_Some. lia. Qed.

Lemma aget_None {A} (l : list A) i : aget l i = None ↔ (N.of_nat (length l) ≤ i)%N.
Proof. rewrite aget_lookup, lookup_ge_None. lia. Qed.

Lemma aset_Some {A} (l : list A) i x :
  (i < N.of_nat (length l))%N → aset l i x = Some (<[N.to_nat i := x]> l).
Proof. unfold aset. by destruct (N.ltb_spec i (N.of_nat (length l))); [|lia]. Qed.

Lemma length_aupd {A} (l : list A) i f : length (aupd l i f) = length l.
Proof. apply length_alter. Qed.

Lemma aget_aupd_eq {A} (l : list A) i f : aget (aupd l i f) i = f <$> aget l i.
Proof. unfold aupd. rewrite !aget_lookup. apply list_lookup_alter_eq. Qed.

Lemma aget_aupd_ne {A} (l : list A) i j f : i ≠ j → aget (aupd l i f) j = aget l j.
Proof. intros. unfold aupd. rewrite !aget_lookup. apply list_lookup_alter_ne. lia. Qed.

Lemma aget_aupd {A} (l : list A) i j f :
  aget (aupd l i f) j = if decide (i = j) then f <$> aget l j else aget l j.
Proof. case_decide; [subst; apply aget_aupd_eq | by apply aget_aupd_ne]. Qed.

#[export] Hint Rewrite @length_aupd : tensor.

(** [apply_aget] turns array accesses into stdpp's list lookups. *)
Ltac lookups := rewrite ?aget_lookup in *.

(** ** Searching loops

    [for (index = k; ...; ++index) if (f(index, l[index])) return index;]
    with [None] for the loop that falls through. *)
Fixpoint find_from {A} (f : N → A → bool) (k : N) (l : list A) : option N :=
  match l with
  | [] => None
  | x :: l' => if f k x then Some k else find_from f (k + 1) l'
  end.
Definition find_idx {A} (f : N → A → bool) (l : list A) : option N := find_from f 0 l.

Lemma find_from_Some {A} (f : N → A → bool) k l i :
  find_from f k l = Some i ↔
    ∃ j x, i = (k + j)%N ∧ aget l j = Some x ∧ f i x = true ∧
           ∀ j' y, (j' < j)%N → aget l j' = Some y → f (k + j')%N y = false.
Proof.
  revert k. induction l as [|x l IH]; intros k; simpl.
  - split; [done|]. intros (j & y & _ & H & _). lookups. by rewrite lookup_nil in H.
  - destruct (f k x) eqn:Hf.
    + split.
      * intros [= <-]. exists 0%N, x. rewrite N.add_0_r.
        split_and!; [done|done|done|lia].
      * intros (j & y & -> & Hj & Hfy & Hlt). destruct (decide (j = 0%N)) as [->|Hne].
        { f_equal. lia. }
        specialize (Hlt 0%N x ltac:(lia) eq_refl). rewrite N.add_0_r in Hlt. congruence.
    + rewrite IH. split.
      * intros (j & y & -> & Hj & Hfy & Hlt). exists (j + 1)%N, y. split_and!.
        { lia. }
        { lookups. replace (N.to_nat (j + 1)) with (S (N.to_nat j)) by lia. done. }
        { done. }
        intros j' z Hj' Hz. destruct (decide (j' = 0%N)) as [->|Hne].
        { rewrite N.add_0_r. lookups. simpl in Hz. by simplify_eq. }
        replace (k + j')%N with (k + 1 + (j' - 1))%N by lia. apply (Hlt (j' - 1)%N); [lia|].
        lookups. replace (N.to_nat j') with (S (N.to_nat (j' - 1))) in Hz by lia. done.
      * intros (j & y & -> & Hj & Hfy & Hlt). destruct (decide (j = 0%N)) as [->|Hne].
        { rewrite N.add_0_r in Hfy. lookups. simpl in Hj. congruence. }
        exists (j - 1)%N, y. split_and!; [lia| | |].
        { lookups. replace (N.to_nat j) with (S (N.to_nat (j - 1))) in Hj by lia. done. }
        { done. }
        intros j' z Hj' Hz. replace (k + 1 + j')%N with (k + (j' + 1))%N by lia.
        apply (Hlt (j' + 1)%N); [lia|]. lookups.
        replace (N.to_nat (j' + 1)) with (S (N.to_nat j')) by lia. done.
Qed.

Lemma find_idx_Some {A} (f : N → A → bool) l i :
  find_idx f l = Some i ↔
    ∃ x, aget l i = Some x ∧ f i x = true ∧
         ∀ j y, (j < i)%N → aget l j = Some y → f j y = false.
Proof.
  unfold find_idx. rewrite find_from_Some. split.
  - intros (j & x & -> & ?). rewrite N.add_0_l in *. exists x. naive_solver.
  - intros (x & ?). exists i, x. rewrite N.add_0_l. naive_solver.
Qed.

Lemma find_from_None {A} (f : N → A → bool) k l :
  find_from f k l = None ↔ ∀ j x, aget l j = Some x → f (k + j)%N x = false.
Proof.
  split.
  - intros H j x Hj. destruct (f (k + j)%N x) eqn:Hf; [|done]. exfalso.
    revert k j Hj Hf H. induction l as [|y l IH]; intros k j Hj Hf H.
    { lookups. by rewrite lookup_nil in Hj. }
    simpl in H. destruct (f k y) eqn:?; [done|].
    destruct (decide (j = 0%N)) as [->|].
    { rewrite N.add_0_r in Hf. lookups. simpl in Hj. congruence. }
    apply (IH (k + 1)%N (j - 1)%N); [| |done].
    { lookups. by replace (N.to_nat j) with (S (N.to_nat (j - 1))) in Hj by lia. }
    by replace (k + 1 + (j - 1))%N with (k + j)%N by lia.
  - intros H. destruct (find_from f k l) as [i|] eqn:Hi; [|done].
    apply find_from_Some in Hi as (j & x & -> & Hj & Hf & _).
    rewrite (H j x Hj) in Hf. done.
Qed.

Lemma find_idx_None {A} (f : N → A → bool) l :
  find_idx f l = None ↔ ∀ j x, aget l j = Some x → f j x = false.
Proof. unfold find_idx. rewrite find_from_None. setoid_rewrite N.add_0_l. done. Qed.

(** An update that the test does not observe does not change the search. *)
Lemma find_idx_aupd {A} (f : N → A → bool) l i g :
  (∀ k x, f k (g x) = f k x) → find_idx f (aupd l i g) = find_idx f l.
Proof.
  intros Hg. unfold find_idx, aupd. generalize 0%N, (N.to_nat i). clear i.
  induction l as [|x l IH]; intros k i; [done|]. destruct i as [|i]; csimpl; [by rewrite Hg|].
  by destruct (f k x).
Qed.

(** Existence of an element satisfying a test: the loops that only return 1. *)
Definition exists_idx {A} (f : N → A → bool) (l : list A) : bool :=
  match find_idx f l with Some _ => true | None => false end.

Lemma exists_idx_true {A} (f : N → A → bool) l :
  exists_idx f l = true ↔ ∃ i x, aget l i = Some x ∧ f i x = true.
Proof.
  unfold exists_idx. destruct (find_idx f l) as [i|] eqn:Hi.
  - apply find_idx_Some in Hi as (x & ? & ? & _). split; [eauto|done].
  - rewrite find_idx_None in Hi. split; [done|]. intros (i & x & Hx & Hf).
    rewrite (Hi i x Hx) in Hf. done.
Qed.

Lemma exists_idx_false {A} (f : N → A → bool) l :
  exists_idx f l = false ↔ ∀ i x, aget l i = Some x → f i x = false.
Proof.
  unfold exists_idx. destruct (find_idx f l) as [i|] eqn:Hi.
  - apply find_idx_Some in Hi as (x & Hx & Hf & _). split; [done|]. intros H.
    rewrite (H i x Hx) in Hf. done.
  - rewrite find_idx_None in Hi. done.
Qed.

(** Counting loops: [for (...) if (f(l[index])) ++count;]. *)
Fixpoint count_if {A} (f : A → bool) (l : list A) : N :=
  match l with
  | [] => 0
  | x :: l' => (if f x then 1 else 0) + count_if f l'
  end.

(** Updating loops: every element satisfying [p] is replaced by [g], and the
    number of replacements is returned. *)
Fixpoint update_where {A} (p : A → bool) (g : A → A) (l : list A) : list A * N :=
  match l with
  | [] => ([], 0%N)
  | x :: l' =>
      let '(r, n) := update_where p g l' in
      if p x then (g x :: r, (1 + n)%N) else (x :: r, n)
  end.

Lemma update_where_fst {A} (p : A → bool) g (l : list A) :
  (update_where p g l).1 = (λ x, if p x then g x else x) <$> l.
Proof.
  induction l as [|x l IH]; [done|]. simpl. destruct (update_where p g l) as [r n].
  simpl in *. subst. by destruct (p x).
Qed.

Lemma update_where_snd {A} (p : A → bool) g (l : list A) :
  (update_where p g l).2 = count_if p l.
Proof.
  induction l as [|x l IH]; [done|]. simpl. destruct (update_where p g l) as [r n].
  simpl in *. subst. by destruct (p x).
Qed.

Lemma count_if_zero {A} (f : A → bool) l :
  count_if f l = 0%N ↔ ∀ x, x ∈ l → f x = false.
Proof.
  induction l as [|x l IH]; simpl; [split; [|done]; intros _ x Hx; by apply not_elem_of_nil in Hx|].
  destruct (f x) eqn:Hf.
  - split; [lia|]. intros H. specialize (H x ltac:(left)). congruence.
  - rewrite N.add_0_l, IH. setoid_rewrite elem_of_cons. naive_solver.
Qed.

Lemma count_if_le {A} (f : A → bool) (l : list A) : (count_if f l ≤ N.of_nat (length l))%N.
Proof. induction l as [|x l IH]; simpl; [lia|]. destruct (f x); lia. Qed.

(** Case analysis on the first [if]/[match] of the goal or a hypothesis. *)
Ltac case_if :=
  match goal with
  | |- context [if ?b then _ else _] => destruct b eqn:?
  | H : context [if ?b then _ else _] |- _ => destruct b eqn:?
  end.

(** Boolean tests of the code as propositions. *)
Ltac bools :=
  repeat match goal with
  | H : (_ && _)%bool = true |- _ => apply andb_true_iff in H as [? ?]
  | H : (_ || _)%bool = false |- _ => apply orb_false_iff in H as [? ?]
  | H : negb _ = true |- _ => apply negb_true_iff in H
  | H : negb _ = false |- _ => apply negb_false_iff in H
  | H : (_ =? _)%N = true |- _ => apply N.eqb_eq in H
  | H : (_ =? _)%N = false |- _ => apply N.eqb_neq in H
  | H : (_ <? _)%N = true |- _ => apply N.ltb_lt in H
  | H : (_ <? _)%N = false |- _ => apply N.ltb_ge in H
  | H : (_ <=? _)%N = true |- _ => apply N.leb_le in H
  | H : (_ <=? _)%N = false |- _ => apply N.leb_gt in H
  | H : nz _ = true |- _ => apply nz_true in H
  | H : nz _ = false |- _ => apply nz_false in H
  | H : bool_decide _ = true |- _ => apply bool_decide_eq_true in H
  | H : bool_decide _ = false |- _ => apply bool_decide_eq_false in H
  | H : cstr_equals _ _ = true |- _ => apply cstr_equals_eq in H
  | H : cstr_equals _ _ = false |- _ => apply cstr_equals_neq in H
  end.

(** Case analysis on every comparison of the goal and the context. *)
Ltac case_N :=
  repeat match goal with
  | |- context [N.ltb ?a ?b] => destruct (N.ltb_spec a b)
  | |- context [N.leb ?a ?b] => destruct (N.leb_spec a b)
  | |- context [N.eqb ?a ?b] => destruct (N.eqb_spec a b)
  | H : context [N.ltb ?a ?b] |- _ => destruct (N.ltb_spec a b)
  | H : context [N.leb ?a ?b] |- _ => destruct (N.leb_spec a b)
  | H : context [N.eqb ?a ?b] |- _ => destruct (N.eqb_spec a b)
  end.

(** Reduces [x ← Some v; k] and [x ← None; k] only. *)
Ltac cbind := cbn [mbind option_bind].
Ltac cbind_in H := cbn [mbind option_bind] in H.
