(* ===== verification/ProcessCore.v ===== *)
(** * Process table core ([kernel/process_core.c], [include/process_model.h])

    The process record, the searches over the process table and the state
    transitions that block and wake processes.  [processes] with its
    [capacity] is a list; an index result is [UINT32_MAX] when the search
    fails, as in the code. *)

From S2P Require Import Prelude.

Local Open Scope N_scope.

Inductive process_state :=
  | PROCESS_STATE_UNUSED | PROCESS_STATE_READY | PROCESS_STATE_RUNNING
  | PROCESS_STATE_BLOCKED | PROCESS_STATE_ZOMBIE.
#[export] Instance process_state_eq_dec : EqDecision process_state.
Proof. solve_decision. Defined.

Inductive process_wait_reason :=
  | PROCESS_WAIT_NONE | PROCESS_WAIT_SLEEP_TICKS | PROCESS_WAIT_MANUAL
  | PROCESS_WAIT_CHILD | PROCESS_WAIT_EVENT_CHANNEL.
#[export] Instance process_wait_reason_eq_dec : EqDecision process_wait_reason.
Proof. solve_decision. Defined.

Definition RUNTIME_PROCESS_ROLE_NONE : N := 0.
Definition RUNTIME_PROCESS_ROLE_SYSTEM : N := 1.
Definition RUNTIME_PROCESS_ROLE_FOREGROUND_APP : N := 2.
Definition RUNTIME_PROCESS_ROLE_BACKGROUND_APP : N := 3.
Definition RUNTIME_PROCESS_ROLE_LIVE_ACTIVITY : N := 4.

Record process_runtime_state := Process {
  p_pid : N;
  p_parent_pid : N;
  p_name : option cstr;
  p_role : N;
  p_state : process_state;
  p_exit_code : Z;
  p_switch_count : N;
  p_yield_count : N;
  p_wake_tick : N;
  p_wait_target_pid : N;
  p_wait_reason : process_wait_reason;
  p_wait_channel : N
}.

(** The entry [process_snapshot] copies out. *)
Record process_info := ProcessInfo {
  pi_pid : N;
  pi_parent_pid : N;
  pi_name : option cstr;
  pi_role : N;
  pi_state : process_state;
  pi_exit_code : Z;
  pi_switch_count : N;
  pi_yield_count : N;
  pi_wake_tick : N;
  pi_wait_reason : process_wait_reason;
  pi_wait_channel : N
}.

(** Assignments to one field. *)
Definition set_state (v : process_state) (p : process_runtime_state) : process_runtime_state :=
  let 'Process a b c d _ f g h i j k l := p in Process a b c d v f g h i j k l.
Definition set_exit_code (v : Z) (p : process_runtime_state) : process_runtime_state :=
  let 'Process a b c d e _ g h i j k l := p in Process a b c d e v g h i j k l.
Definition set_switch_count (v : N) (p : process_runtime_state) : process_runtime_state :=
  let 'Process a b c d e f _ h i j k l := p in Process a b c d e f v h i j k l.
Definition set_yield_count (v : N) (p : process_runtime_state) : process_runtime_state :=
  let 'Process a b c d e f g _ i j k l := p in Process a b c d e f g v i j k l.
Definition set_wake_tick (v : N) (p : process_runtime_state) : process_runtime_state :=
  let 'Process a b c d e f g h _ j k l := p in Process a b c d e f g h v j k l.
Definition set_wait_target_pid (v : N) (p : process_runtime_state) : process_runtime_state :=
  let 'Process a b c d e f g h i _ k l := p in Process a b c d e f g h i v k l.
Definition set_wait_reason (v : process_wait_reason) (p : process_runtime_state)
  : process_runtime_state :=
  let 'Process a b c d e f g h i j _ l := p in Process a b c d e f g h i j v l.
Definition set_wait_channel (v : N) (p : process_runtime_state) : process_runtime_state :=
  let 'Process a b c d e f g h i j k _ := p in Process a b c d e f g h i j k v.

Definition in_state (s : process_state) (p : process_runtime_state) : bool :=
  bool_decide (p_state p = s).
Definition waits_for (r : process_wait_reason) (p : process_runtime_state) : bool :=
  bool_decide (p_wait_reason p = r).

(** ** Operations *)

Definition process_core_find_free_slot (processes : list process_runtime_state) : N :=
  default UINT32_MAX (find_idx (λ _ p, in_state PROCESS_STATE_UNUSED p) processes).

Definition process_core_find_index_by_pid (processes : list process_runtime_state) (pid : N) : N :=
  if pid =? 0 then UINT32_MAX
  else default UINT32_MAX
         (find_idx (λ _ p, negb (in_state PROCESS_STATE_UNUSED p) && (p_pid p =? pid)) processes).

(** [for (offset = 0; offset < capacity; ++offset)] over the positions
    [(start + offset) % capacity]. *)
Fixpoint circular_scan {A} (f : A → bool) (l : list A) (start offset : N) (fuel : nat) : option N :=
  match fuel with
  | O => None
  | S fuel' =>
      let index := u32 (start + offset) mod N.of_nat (length l) in
      match aget l index with
      | Some x => if f x then Some index else circular_scan f l start (offset + 1) fuel'
      | None => None
      end
  end.

Definition scan_start (current_index : N) : N :=
  if current_index =? UINT32_MAX then 0 else u32 (current_index + 1).

Definition process_core_find_next_runnable (processes : list process_runtime_state)
    (current_index : N) : N :=
  default UINT32_MAX
    (circular_scan (in_state PROCESS_STATE_READY) processes (scan_start current_index) 0
       (length processes)).

Definition process_core_count_blocked_sleepers (processes : list process_runtime_state) : N :=
  count_if (λ p, in_state PROCESS_STATE_BLOCKED p && waits_for PROCESS_WAIT_SLEEP_TICKS p) processes.

Definition process_core_reset_slot (process : process_runtime_state) : process_runtime_state :=
  Process 0 0 None RUNTIME_PROCESS_ROLE_NONE PROCESS_STATE_UNUSED 0 0 0 0 0 PROCESS_WAIT_NONE 0.

Definition process_core_make_ready (process : process_runtime_state) : process_runtime_state :=
  if in_state PROCESS_STATE_BLOCKED process then
    set_wait_channel 0 (set_wait_reason PROCESS_WAIT_NONE (set_wait_target_pid 0
      (set_wake_tick 0 (set_state PROCESS_STATE_READY process))))
  else process.

Definition process_core_block (wait_reason : process_wait_reason) (wait_channel wake_tick
    wait_target_pid : N) (process : process_runtime_state) : process_runtime_state :=
  set_wait_target_pid wait_target_pid (set_wake_tick wake_tick (set_wait_channel wait_channel
    (set_wait_reason wait_reason (set_state PROCESS_STATE_BLOCKED process)))).

Definition process_core_is_child_of (parent_pid : N) (child : process_runtime_state) : bool :=
  nz parent_pid && (p_parent_pid child =? parent_pid).

(** The bodies of the two child-search loops. *)
Definition waitable_child (parent_pid target_pid : N) (p : process_runtime_state) : bool :=
  if in_state PROCESS_STATE_UNUSED p then false
  else if negb (process_core_is_child_of parent_pid p) then false
  else if nz target_pid && negb (p_pid p =? target_pid) then false
  else in_state PROCESS_STATE_ZOMBIE p.

Definition counted_child (parent_pid target_pid : N) (p : process_runtime_state) : bool :=
  if in_state PROCESS_STATE_UNUSED p then false
  else if negb (process_core_is_child_of parent_pid p) then false
  else (target_pid =? 0) || (p_pid p =? target_pid).

Definition process_core_find_waitable_child (processes : list process_runtime_state)
    (parent_pid target_pid : N) : N :=
  default UINT32_MAX (find_idx (λ _ p, waitable_child parent_pid target_pid p) processes).

Definition process_core_has_child (processes : list process_runtime_state)
    (parent_pid target_pid : N) : bool :=
  exists_idx (λ _ p, counted_child parent_pid target_pid p) processes.

Definition process_core_wake_waiting_parent (processes : list process_runtime_state)
    (child_pid : N) : list process_runtime_state * N :=
  update_where (λ p,
    if negb (in_state PROCESS_STATE_BLOCKED p) || negb (waits_for PROCESS_WAIT_CHILD p) then false
    else (p_wait_target_pid p =? 0) || (p_wait_target_pid p =? child_pid))
    process_core_make_ready processes.

(** A sleeper whose deadline has passed at [tick_count]. *)
Definition sleeper_due (tick_count : N) (p : process_runtime_state) : bool :=
  in_state PROCESS_STATE_BLOCKED p && waits_for PROCESS_WAIT_SLEEP_TICKS p &&
  (p_wake_tick p <=? tick_count).

Definition process_core_wake_sleepers (processes : list process_runtime_state) (tick_count : N)
  : list process_runtime_state * N :=
  update_where (sleeper_due tick_count) process_core_make_ready processes.

(** A process blocked on event channel [channel]. *)
Definition waits_on_channel (channel : N) (p : process_runtime_state) : bool :=
  in_state PROCESS_STATE_BLOCKED p && waits_for PROCESS_WAIT_EVENT_CHANNEL p &&
  (p_wait_channel p =? channel).

Definition process_core_wake_channel (processes : list process_runtime_state) (channel : N)
  : list process_runtime_state * N :=
  update_where (waits_on_channel channel) process_core_make_ready processes.

Definition process_core_wake_first_channel (processes : list process_runtime_state)
    (channel current_index : N) : list process_runtime_state * N :=
  if N.of_nat (length processes) =? 0 then (processes, 0)
  else match circular_scan (waits_on_channel channel) processes (scan_start current_index) 0
               (length processes) with
       | Some index => (aupd processes index process_core_make_ready, 1)
       | None => (processes, 0)
       end.

Definition info_of (p : process_runtime_state) : process_info :=
  ProcessInfo (p_pid p) (p_parent_pid p) (p_name p) (p_role p) (p_state p) (p_exit_code p)
    (p_switch_count p) (p_yield_count p) (p_wake_tick p) (p_wait_reason p) (p_wait_channel p).

(** The loop of [process_core_snapshot]: the entries stored into [buffer]
    (absent when it is NULL) and the final value of [written]. *)
Fixpoint snapshot_loop (processes : list process_runtime_state) (buffer : bool)
    (buffer_capacity written : N) : list process_info * N :=
  match processes with
  | [] => ([], written)
  | p :: rest =>
      if in_state PROCESS_STATE_UNUSED p then snapshot_loop rest buffer buffer_capacity written
      else
        let '(entries, n) := snapshot_loop rest buffer buffer_capacity (written + 1) in
        if buffer && (written <? buffer_capacity) then (info_of p :: entries, n) else (entries, n)
  end.

Definition process_core_snapshot (processes : list process_runtime_state) (buffer : bool)
    (buffer_capacity : N) : list process_info * N :=
  snapshot_loop processes buffer buffer_capacity 0.

(** ** The circular scan *)

Lemma circular_scan_gen {A} (f : A → bool) (l : list A) start offset fuel i :
  start + N.of_nat (length l) ≤ 4294967296 →
  offset + N.of_nat fuel ≤ N.of_nat (length l) →
  circular_scan f l start offset fuel = Some i ↔
  ∃ k x, offset ≤ k < offset + N.of_nat fuel ∧ i = (start + k) mod N.of_nat (length l) ∧
    aget l i = Some x ∧ f x = true ∧
    ∀ k' y, offset ≤ k' < k → aget l ((start + k') mod N.of_nat (length l)) = Some y → f y = false.
Proof.
  intros Hs. revert offset. induction fuel as [|fuel IH]; intros offset Ho; simpl.
  { split; [done|]. intros (k & x & ? & _). lia. }
  rewrite u32_small by lia.
  assert ((start + offset) mod N.of_nat (length l) < N.of_nat (length l)) as Hlt
    by (apply N.mod_lt; lia).
  destruct (aget_is_Some l _ Hlt) as [x Hx]. rewrite Hx.
  destruct (f x) eqn:Hf.
  - split.
    + intros [= <-]. exists offset, x. split_and!; [lia|lia|done|done|done|lia].
    + intros (k & y & Hk & -> & Hy & Hfy & Hmin).
      destruct (decide (k = offset)) as [->|]; [done|].
      specialize (Hmin offset x ltac:(lia) Hx). congruence.
  - rewrite IH by lia. split.
    + intros (k & y & Hk & -> & Hy & Hfy & Hmin). exists k, y. split_and!; [lia|lia|done|done|done|].
      intros k' z Hk' Hz. destruct (decide (k' = offset)) as [->|]; [congruence|].
      apply (Hmin k'); [lia|done].
    + intros (k & y & Hk & -> & Hy & Hfy & Hmin).
      destruct (decide (k = offset)) as [->|]; [congruence|].
      exists k, y. split_and!; [lia|lia|done|done|done|]. intros k' z Hk'. apply Hmin. lia.
Qed.

(** Every position of the array is one of the scanned positions. *)
Lemma scan_position n start j :
  j < n → ∃ k, k < n ∧ (start + k) mod n = j.
Proof.
  intros Hj. assert (n ≠ 0) as Hn by lia.
  exists ((j + n - start mod n) mod n). split; [by apply N.mod_lt|].
  rewrite N.Div0.add_mod_idemp_r.
  pose proof (N.mod_lt start n Hn) as Hm. pose proof (N.div_mod start n Hn) as Hd.
  replace (start + (j + n - start mod n)) with (j + (1 + start / n) * n) by lia.
  rewrite N.Div0.mod_add. by apply N.mod_small.
Qed.

Lemma circular_scan_None {A} (f : A → bool) (l : list A) start :
  start + N.of_nat (length l) ≤ 4294967296 →
  circular_scan f l start 0 (length l) = None ↔ ∀ x, x ∈ l → f x = false.
Proof.
  intros Hs. split.
  - intros Hnone x Hx. destruct (f x) eqn:Hf; [|done]. exfalso.
    apply list_elem_of_lookup in Hx as [j Hj].
    assert (N.of_nat j < N.of_nat (length l)) as Hjl by (apply lookup_lt_Some in Hj; lia).
    destruct (scan_position _ start _ Hjl) as (k & Hk & Hkj).
    (* the first successful offset *)
    destruct (find_idx (λ o _, match aget l ((start + o) mod N.of_nat (length l)) with
                               | Some y => f y | None => false end) l) as [o|] eqn:Ho.
    + apply find_idx_Some in Ho as (z & Hz & Hfz & Hmin).
      destruct (aget l ((start + o) mod N.of_nat (length l))) as [y|] eqn:Hy; [|done].
      assert (circular_scan f l start 0 (length l) = Some ((start + o) mod N.of_nat (length l))).
      { apply circular_scan_gen; [done|lia|]. apply aget_Some_lt in Hz.
        exists o, y. split_and!; [lia|lia|done|done|done|]. intros k' w Hk' Hw.
        destruct (aget_is_Some l k' ltac:(lia)) as [v Hv].
        specialize (Hmin k' v ltac:(lia) Hv). by rewrite Hw in Hmin. }
      congruence.
    + rewrite find_idx_None in Ho. destruct (aget_is_Some l k Hk) as [v Hv].
      specialize (Ho k v Hv). rewrite Hkj, aget_lookup, Nat2N.id, Hj in Ho. congruence.
  - intros Hall. destruct (circular_scan f l start 0 (length l)) as [i|] eqn:Hi; [|done].
    apply circular_scan_gen in Hi; [|done|lia].
    destruct Hi as (k & x & _ & _ & Hx & Hf & _). rewrite (Hall x) in Hf; [done|].
    rewrite aget_lookup in Hx. by eapply list_elem_of_lookup_2.
Qed.

Lemma circular_scan_Some {A} (f : A → bool) (l : list A) start i :
  start + N.of_nat (length l) ≤ 4294967296 →
  circular_scan f l start 0 (length l) = Some i ↔
  ∃ k x, k < N.of_nat (length l) ∧ i = (start + k) mod N.of_nat (length l) ∧
    aget l i = Some x ∧ f x = true ∧
    ∀ k' y, k' < k → aget l ((start + k') mod N.of_nat (length l)) = Some y → f y = false.
Proof.
  intros Hs. rewrite circular_scan_gen by lia. split; intros (k & x & H1 & H2 & H3 & H4 & H5);
    exists k, x; split_and!; try done; try lia; intros k' y Hk'; apply H5; lia.
Qed.

Lemma mod_double n a : n ≠ 0 → a < 2 * n → a mod n = if a <? n then a else a - n.
Proof.
  intros Hn Ha. destruct (N.ltb_spec a n); [by apply N.mod_small|].
  replace a with (a - n + 1 * n) at 1 by lia. rewrite N.Div0.mod_add. apply N.mod_small. lia.
Qed.

Lemma scan_start_lt current n :
  current = UINT32_MAX ∨ current < n → n < UINT32_MAX → 0 < n → scan_start current ≤ n.
Proof.
  unfold scan_start, UINT32_MAX. intros Hc Hn ?.
  destruct (N.eqb_spec current 4294967295); [lia|]. rewrite u32_small by lia. lia.
Qed.

(** ** Round-robin fairness *)

(** [rounds k current] is the slot chosen by the [k]-th of a series of
    selections that each start from the previous one. *)
Fixpoint rounds (processes : list process_runtime_state) (k : nat) (current : N) : N :=
  match k with
  | O => current
  | S k' => rounds processes k' (process_core_find_next_runnable processes current)
  end.

Definition is_ready (processes : list process_runtime_state) (i : N) : Prop :=
  ∃ p, aget processes i = Some p ∧ p_state p = PROCESS_STATE_READY.

(** Steps a circular walk over [n] slots takes from [c] to [j]. *)
Definition cyclic_distance (n c j : N) : N := if c <? j then j - c else n + j - c.

Lemma next_runnable_spec processes current i :
  N.of_nat (length processes) < 2147483648 → current < N.of_nat (length processes) →
  is_ready processes i →
  ∃ j, process_core_find_next_runnable processes current = j ∧ is_ready processes j ∧
       0 < cyclic_distance (N.of_nat (length processes)) current j ≤
         cyclic_distance (N.of_nat (length processes)) current i.
Proof.
  intros Hn Hc (p & Hp & Hr). pose proof (aget_Some_lt _ _ _ Hp) as Hi.
  unfold process_core_find_next_runnable, scan_start, cyclic_distance.
  destruct (N.eqb_spec current UINT32_MAX); [unfold UINT32_MAX in *; lia|].
  rewrite u32_small by lia.
  destruct (circular_scan _ _ _ _ _) as [j|] eqn:Hj.
  - apply circular_scan_Some in Hj; [|lia]. destruct Hj as (k & x & Hk & Hjk & Hx & Hf & Hmin).
    unfold in_state in Hf. bools.
    exists j. split_and!; [done|by exists x| |].
    all: rewrite mod_double in Hjk by lia.
    { clear Hmin. case_N; lia. }
    destruct (decide (cyclic_distance (N.of_nat (length processes)) current i ≤ k)) as [Hdk|];
      unfold cyclic_distance in *.
    { exfalso. pose (o := (cyclic_distance (N.of_nat (length processes)) current i) - 1).
      unfold cyclic_distance in o.
      assert (aget processes ((current + 1 + o) mod N.of_nat (length processes)) = Some p) as Ho.
      { rewrite mod_double by (subst o; destruct (N.ltb_spec current i); lia).
        rewrite <-Hp. f_equal. subst o. clear Hmin. case_N; lia. }
      apply Hmin in Ho; [|subst o; destruct (N.ltb_spec current i); lia].
      unfold in_state in Ho. by bools. }
    clear Hmin. case_N; lia.
  - exfalso. rewrite circular_scan_None in Hj by lia. specialize (Hj p).
    rewrite aget_lookup in Hp. apply list_elem_of_lookup_2, Hj in Hp.
    unfold in_state in Hp. by bools.
Qed.

Lemma rounds_reach processes m : ∀ current i,
  N.of_nat (length processes) < 2147483648 → current < N.of_nat (length processes) →
  is_ready processes i →
  cyclic_distance (N.of_nat (length processes)) current i ≤ N.of_nat m →
  ∃ k, (1 ≤ k ≤ m)%nat ∧ rounds processes k current = i.
Proof.
  induction m as [|m IH]; intros current i Hn Hc Hi Hd.
  { destruct (next_runnable_spec _ _ _ Hn Hc Hi) as (j & _ & _ & ?). lia. }
  destruct (next_runnable_spec _ _ _ Hn Hc Hi) as (j & Hj & Hrj & Hpos & Hle).
  assert (j < N.of_nat (length processes)) as Hjn
    by (destruct Hrj as (? & H & _); by apply aget_Some_lt in H).
  assert (i < N.of_nat (length processes)) as Hin
    by (destruct Hi as (? & H & _); by apply aget_Some_lt in H).
  destruct (decide (j = i)) as [<-|Hne].
  { exists 1%nat. split; [lia|]. simpl. done. }
  destruct (IH j i) as (k & Hk & Hr); [done|done|done| |].
  { unfold cyclic_distance in *. case_N; lia. }
  exists (S k). split; [lia|]. simpl. by rewrite Hj.
Qed.

(** The round-robin selection [process_core_find_next_runnable] starves
    nobody: in a series of selections that each start from the slot selected
    before, every READY slot is reached within as many selections as there
    are slots. *)
Theorem round_robin_no_starvation processes current i :
  N.of_nat (length processes) < 2147483648 → current < N.of_nat (length processes) →
  is_ready processes i →
  ∃ k, (1 ≤ k ≤ length processes)%nat ∧ rounds processes k current = i.
Proof.
  intros Hn Hc Hi. apply rounds_reach; [done..|].
  destruct Hi as (? & H & _). apply aget_Some_lt in H.
  unfold cyclic_distance. case_N; lia.
Qed.

Definition demo_process (pid : N) (s : process_state) : process_runtime_state :=
  Process pid 0 (Some (cs "demo")) 1 s 0 0 0 0 0 PROCESS_WAIT_NONE 0.

Lemma round_robin_no_starvation_witness :
  let table := [demo_process 1 PROCESS_STATE_READY; demo_process 2 PROCESS_STATE_BLOCKED;
                demo_process 3 PROCESS_STATE_READY] in
  ∃ k, (1 ≤ k ≤ 3)%nat ∧ rounds table k 0 = 2.
Proof.
  apply (round_robin_no_starvation
           [demo_process 1 PROCESS_STATE_READY; demo_process 2 PROCESS_STATE_BLOCKED;
            demo_process 3 PROCESS_STATE_READY] 0 2).
  - vm_compute. reflexivity.
  - vm_compute. reflexivity.
  - exists (demo_process 3 PROCESS_STATE_READY). split; reflexivity.
Defined.

(** ** Waking *)

Lemma make_ready_state p :
  p_state (process_core_make_ready p) =
    if in_state PROCESS_STATE_BLOCKED p then PROCESS_STATE_READY else p_state p.
Proof. unfold process_core_make_ready. by destruct p, (in_state _ _). Qed.

Lemma make_ready_not_blocked p : in_state PROCESS_STATE_BLOCKED (process_core_make_ready p) = false.
Proof.
  unfold process_core_make_ready. destruct (in_state _ p) eqn:H; [by destruct p|done].
Qed.

Lemma make_ready_not_waiting channel p :
  waits_on_channel channel (process_core_make_ready p) = false.
Proof. unfold waits_on_channel. by rewrite make_ready_not_blocked. Qed.

(** Waking some of the blocked sleepers removes exactly those from the count. *)
Lemma sleepers_after_wake (q : process_runtime_state → bool) processes :
  (∀ p, q p = true → in_state PROCESS_STATE_BLOCKED p && waits_for PROCESS_WAIT_SLEEP_TICKS p = true) →
  process_core_count_blocked_sleepers processes =
    process_core_count_blocked_sleepers (update_where q process_core_make_ready processes).1 +
    (update_where q process_core_make_ready processes).2.
Proof.
  intros Hq. unfold process_core_count_blocked_sleepers.
  rewrite update_where_fst, update_where_snd.
  induction processes as [|p l IH]; [done|]. csimpl. rewrite IH. clear IH.
  destruct (q p) eqn:Hp.
  - rewrite (Hq p Hp). rewrite make_ready_not_blocked. csimpl. lia.
  - lia.
Qed.

(** [process_core_wake_sleepers] makes exactly the sleepers whose deadline
    has passed READY, leaves every other slot alone, returns their number and
    leaves no due sleeper behind. *)
Theorem wake_sleepers_correct processes tick :
  let '(processes', woke) := process_core_wake_sleepers processes tick in
  (∀ i p, aget processes i = Some p →
     aget processes' i =
       Some (if sleeper_due tick p then process_core_make_ready p else p)) ∧
  length processes' = length processes ∧
  (∀ p, p ∈ processes' → sleeper_due tick p = false) ∧
  process_core_count_blocked_sleepers processes =
    process_core_count_blocked_sleepers processes' + woke.
Proof.
  unfold process_core_wake_sleepers.
  pose proof (sleepers_after_wake (sleeper_due tick) processes) as Hcount.
  pose proof (update_where_fst (sleeper_due tick) process_core_make_ready processes) as Hfst.
  destruct (update_where _ _ _) as [l' woke]. simpl in *. subst l'. split_and!.
  - intros i p Hp. rewrite aget_lookup, list_lookup_fmap in *. by rewrite Hp.
  - apply length_fmap.
  - intros p (p' & -> & _)%list_elem_of_fmap. unfold sleeper_due at 1.
    destruct (sleeper_due tick p') eqn:Hd; [|done]. by rewrite make_ready_not_blocked.
  - apply Hcount. intros p H. unfold sleeper_due in H. bools. by apply andb_true_iff.
Qed.

Lemma wake_first_channel_cases processes channel current :
  current = UINT32_MAX ∨ current < N.of_nat (length processes) →
  0 < N.of_nat (length processes) < 2147483648 →
  let '(processes', woke) := process_core_wake_first_channel processes channel current in
  (woke = 0 ∧ processes' = processes ∧ ∀ p, p ∈ processes → waits_on_channel channel p = false) ∨
  (∃ i p, woke = 1 ∧ aget processes i = Some p ∧ waits_on_channel channel p = true ∧
     p_state (process_core_make_ready p) = PROCESS_STATE_READY ∧
     processes' = aupd processes i process_core_make_ready ∧
     count_if (waits_on_channel channel) processes =
       1 + count_if (waits_on_channel channel) processes').
Proof.
  intros Hc Hn. unfold process_core_wake_first_channel.
  destruct (N.eqb_spec (N.of_nat (length processes)) 0); [lia|].
  pose proof (scan_start_lt current (N.of_nat (length processes)) Hc
                ltac:(unfold UINT32_MAX; lia) ltac:(lia)) as Hs.
  destruct (circular_scan _ _ _ _ _) as [i|] eqn:Hi; [right|left].
  - apply circular_scan_Some in Hi as (k & p & Hk & -> & Hp & Hf & _); [|lia].
    exists ((scan_start current + k) mod N.of_nat (length processes)), p.
    split_and!; [done..| | |].
    + rewrite make_ready_state. unfold waits_on_channel in Hf. bools. by case_if.
    + done.
    + revert Hp Hf. generalize ((scan_start current + k) mod N.of_nat (length processes)).
      intros i Hp Hf. rewrite aget_lookup in Hp. unfold aupd. revert Hp.
      generalize (N.to_nat i). clear -Hf. induction processes as [|q l IH]; intros [|j] Hj;
        simplify_eq/=.
      * by rewrite Hf, make_ready_not_waiting.
      * rewrite (IH _ Hj). lia.
  - split_and!; [done..|]. rewrite circular_scan_None in Hi by lia. done.
Qed.

(** [process_core_wake_first_channel] wakes one waiter of the channel when
    there is one (and reports 1), and touches nothing otherwise. *)
Theorem wake_first_channel_correct processes channel current :
  current = UINT32_MAX ∨ current < N.of_nat (length processes) →
  0 < N.of_nat (length processes) < 2147483648 →
  let '(processes', woke) := process_core_wake_first_channel processes channel current in
  (woke = 0 ∧ processes' = processes ∧ ∀ p, p ∈ processes → waits_on_channel channel p = false) ∨
  (∃ i p, woke = 1 ∧ aget processes i = Some p ∧ waits_on_channel channel p = true ∧
     p_state (process_core_make_ready p) = PROCESS_STATE_READY ∧
     processes' = aupd processes i process_core_make_ready ∧
     count_if (waits_on_channel channel) processes =
       1 + count_if (waits_on_channel channel) processes').
Proof. apply wake_first_channel_cases. Qed.

Lemma wake_first_channel_correct_witness :
  let sleeping := process_core_block PROCESS_WAIT_EVENT_CHANNEL 4096 0 0
                    (demo_process 2 PROCESS_STATE_RUNNING) in
  (process_core_wake_first_channel [demo_process 1 PROCESS_STATE_READY; sleeping] 4096 0).2 = 1 ∧
  let '(processes', woke) :=
    process_core_wake_first_channel [demo_process 1 PROCESS_STATE_READY; sleeping] 4096 0 in
  (woke = 0 ∧ processes' = [demo_process 1 PROCESS_STATE_READY; sleeping] ∧
     ∀ p, p ∈ [demo_process 1 PROCESS_STATE_READY; sleeping] → waits_on_channel 4096 p = false) ∨
  (∃ i p, woke = 1 ∧ aget [demo_process 1 PROCESS_STATE_READY; sleeping] i = Some p ∧
     waits_on_channel 4096 p = true ∧
     p_state (process_core_make_ready p) = PROCESS_STATE_READY ∧
     processes' = aupd [demo_process 1 PROCESS_STATE_READY; sleeping] i process_core_make_ready ∧
     count_if (waits_on_channel 4096) [demo_process 1 PROCESS_STATE_READY; sleeping] =
       1 + count_if (waits_on_channel 4096) processes').
Proof.
  split; [vm_compute; reflexivity|].
  apply (wake_first_channel_correct
           [demo_process 1 PROCESS_STATE_READY;
            process_core_block PROCESS_WAIT_EVENT_CHANNEL 4096 0 0
              (demo_process 2 PROCESS_STATE_RUNNING)] 4096 0).
  - right. vm_compute. reflexivity.
  - split; vm_compute; reflexivity.
Defined.

(** ** Searches *)

(** Process identifiers are non-zero and distinct on the used slots. *)
Definition pids_unique (processes : list process_runtime_state) : Prop :=
  ∀ i j p q, aget processes i = Some p → aget processes j = Some q →
    p_state p ≠ PROCESS_STATE_UNUSED → p_state q ≠ PROCESS_STATE_UNUSED →
    p_pid p ≠ 0 ∧ (p_pid p = p_pid q → i = j).

Lemma find_index_by_pid_used processes i p :
  pids_unique processes → aget processes i = Some p → p_state p ≠ PROCESS_STATE_UNUSED →
  process_core_find_index_by_pid processes (p_pid p) = i.
Proof.
  intros Huniq Hp Hu. unfold process_core_find_index_by_pid.
  destruct (Huniq i i p p Hp Hp Hu Hu) as [Hpid _].
  destruct (N.eqb_spec (p_pid p) 0); [done|].
  destruct (find_idx _ processes) as [j|] eqn:Hj; simpl.
  - apply find_idx_Some in Hj as (q & Hq & Hf & _). unfold in_state in Hf. bools.
    symmetry. by apply (Huniq i j p q).
  - rewrite find_idx_None in Hj. specialize (Hj i p Hp). rewrite N.eqb_refl, andb_true_r in Hj.
    unfold in_state in Hj. by bools.
Qed.

Lemma find_index_by_pid_inv processes pid i :
  process_core_find_index_by_pid processes pid = i → i ≠ UINT32_MAX →
  ∃ p, aget processes i = Some p ∧ p_pid p = pid ∧ pid ≠ 0 ∧ p_state p ≠ PROCESS_STATE_UNUSED.
Proof.
  unfold process_core_find_index_by_pid. destruct (N.eqb_spec pid 0); [congruence|].
  destruct (find_idx _ processes) as [j|] eqn:Hj; simpl; [|congruence].
  intros -> _. apply find_idx_Some in Hj as (p & Hp & Hf & _). unfold in_state in Hf. bools.
  by exists p.
Qed.

(** A child of [parent] that a wait for [target] is about. *)
Definition matching_child (parent target : N) (p : process_runtime_state) : Prop :=
  p_state p ≠ PROCESS_STATE_UNUSED ∧ parent ≠ 0 ∧ p_parent_pid p = parent ∧
  (target = 0 ∨ p_pid p = target).

Lemma counted_child_iff parent target p :
  counted_child parent target p = true ↔ matching_child parent target p.
Proof.
  unfold counted_child, matching_child, process_core_is_child_of, in_state, nz.
  case_bool_decide; [naive_solver|]. case_N; simpl; naive_solver.
Qed.

Lemma waitable_child_iff parent target p :
  waitable_child parent target p = true ↔
    matching_child parent target p ∧ p_state p = PROCESS_STATE_ZOMBIE.
Proof.
  unfold waitable_child, matching_child, process_core_is_child_of, in_state, nz.
  case_bool_decide; [naive_solver|]. case_N; case_bool_decide; simpl; naive_solver.
Qed.

(** The three outcomes of the [process_waitpid] loop are exactly right:
    an index is returned only for a zombie child that matches, [UINT32_MAX]
    only when no matching child is a zombie, and [has_child] tells whether a
    matching child exists at all. *)
Lemma waitable_child_cases processes parent target :
  N.of_nat (length processes) < UINT32_MAX →
  let index := process_core_find_waitable_child processes parent target in
  (index ≠ UINT32_MAX →
     ∃ p, aget processes index = Some p ∧ matching_child parent target p ∧
          p_state p = PROCESS_STATE_ZOMBIE) ∧
  (index = UINT32_MAX →
     ∀ i p, aget processes i = Some p → matching_child parent target p →
       p_state p ≠ PROCESS_STATE_ZOMBIE) ∧
  (process_core_has_child processes parent target = true ↔
     ∃ i p, aget processes i = Some p ∧ matching_child parent target p).
Proof.
  intros Hn. unfold process_core_find_waitable_child, process_core_has_child.
  split_and!.
  - destruct (find_idx _ processes) as [i|] eqn:Hi; simpl; [|done]. intros _.
    apply find_idx_Some in Hi as (p & Hp & Hf & _). exists p.
    by apply waitable_child_iff in Hf as [? ?].
  - destruct (find_idx _ processes) as [i|] eqn:Hi; simpl.
    { apply find_idx_Some in Hi as (p & Hp & _). apply aget_Some_lt in Hp. lia. }
    intros _ j p Hp Hm Hz. rewrite find_idx_None in Hi. specialize (Hi j p Hp). simpl in Hi.
    assert (waitable_child parent target p = true) by (by apply waitable_child_iff). congruence.
  - rewrite exists_idx_true. by setoid_rewrite counted_child_iff.
Qed.

Lemma waitable_child_cases_witness :
  let child := Process 7 3 None 1 PROCESS_STATE_ZOMBIE 5 0 0 0 0 PROCESS_WAIT_NONE 0 in
  process_core_find_waitable_child [child] 3 0 = 0 ∧
  ∃ p, aget [child] (process_core_find_waitable_child [child] 3 0) = Some p ∧
       matching_child 3 0 p ∧ p_state p = PROCESS_STATE_ZOMBIE.
Proof.
  split; [reflexivity|].
  apply (waitable_child_cases
           [Process 7 3 None 1 PROCESS_STATE_ZOMBIE 5 0 0 0 0 PROCESS_WAIT_NONE 0] 3 0);
    vm_compute; [reflexivity|discriminate].
Defined.

(** ** The snapshot *)

Lemma snapshot_loop_spec processes buffer cap written :
  snapshot_loop processes buffer cap written =
    let used := filter (λ p, p_state p ≠ PROCESS_STATE_UNUSED) processes in
    (if buffer then info_of <$> take (N.to_nat (cap - written)) used else [],
     written + N.of_nat (length used)).
Proof.
  revert written. induction processes as [|p l IH]; intros written; simpl.
  { destruct (N.to_nat (cap - written)), buffer; simpl; f_equal; lia. }
  unfold in_state. rewrite filter_cons. case_bool_decide as Hu.
  - rewrite decide_False by naive_solver. apply IH.
  - rewrite decide_True by done. rewrite IH. destruct buffer; simpl; [|f_equal; lia].
    destruct (N.ltb_spec written cap).
    + replace (N.to_nat (cap - written)) with (S (N.to_nat (cap - (written + 1)))) by lia.
      csimpl. f_equal. lia.
    + replace (N.to_nat (cap - written)) with 0%nat by lia.
      replace (N.to_nat (cap - (written + 1))) with 0%nat by lia. rewrite !take_0. f_equal. lia.
Qed.
