(* ===== verification/RuntimeFs.v ===== *)
(** * The in-memory file system: data and operations ([kernel/runtime_fs.c])

    A file system is a table of sixteen nodes and a table of eight open
    files.  An operation is a function of the state; it returns [None]
    exactly when the C code has no defined result (an array access out of
    bounds, or a walk up the tree that never ends).  Pointers that callers
    may pass as NULL are [option]s; the file system itself is a static object
    of the kernel whose pointer is never NULL, so the tests [fs == NULL] have no
    counterpart.  The diagnostic variables that
    [runtime_fs_validate] and [runtime_fs_mkdir] leave behind are represented
    by their code, which is returned with the status. *)

From S2P Require Import Prelude.

Local Open Scope N_scope.

(** ** Flags and sizes ([include/runtime_syscall.h], [include/runtime_fs.h]) *)

Definition RUNTIME_FILE_OPEN_READ : N := 1.
Definition RUNTIME_FILE_OPEN_WRITE : N := 2.
Definition RUNTIME_FILE_OPEN_CREATE : N := 4.
Definition RUNTIME_FILE_OPEN_TRUNCATE : N := 8.

Definition RUNTIME_FILE_SEEK_SET : N := 0.
Definition RUNTIME_FILE_SEEK_CUR : N := 1.
Definition RUNTIME_FILE_SEEK_END : N := 2.

Definition RUNTIME_FILE_TYPE_UNKNOWN : N := 0.
Definition RUNTIME_FILE_TYPE_REGULAR : N := 1.
Definition RUNTIME_FILE_TYPE_DIRECTORY : N := 2.

Definition RUNTIME_FS_MAX_NODES : N := 16.
Definition RUNTIME_FS_MAX_OPEN_FILES : N := 8.
Definition RUNTIME_FS_NAME_CAPACITY : N := 16.
Definition RUNTIME_FS_FILE_CAPACITY : N := 256.

(** ** State *)

(** The [name] array is the string it holds. *)
Record runtime_fs_node := Node {
  n_used : N;
  n_type : N;
  n_parent_index : N;
  n_owner_pid : N;
  n_mode : N;
  n_size_bytes : N;
  n_name : cstr;
  n_data : list N
}.

Record runtime_fs_open_file := OpenFile {
  of_used : N;
  of_node_index : N;
  of_owner_pid : N;
  of_flags : N;
  of_offset : N;
  of_dir_cursor : N
}.

Record runtime_fs := Fs {
  nodes : list runtime_fs_node;
  open_files : list runtime_fs_open_file
}.

Record runtime_file_stat := FileStat { st_type : N; st_mode : N; st_size_bytes : N }.
Record runtime_dir_entry := DirEntry { de_type : N; de_name : cstr }.

(** Field assignments. *)
Definition set_nodes (v : list runtime_fs_node) (fs : runtime_fs) : runtime_fs :=
  Fs v (open_files fs).
Definition set_open_files (v : list runtime_fs_open_file) (fs : runtime_fs) : runtime_fs :=
  Fs (nodes fs) v.
Definition upd_node (i : N) (f : runtime_fs_node → runtime_fs_node) (fs : runtime_fs) : runtime_fs :=
  set_nodes (aupd (nodes fs) i f) fs.
Definition upd_file (i : N) (f : runtime_fs_open_file → runtime_fs_open_file) (fs : runtime_fs)
  : runtime_fs :=
  set_open_files (aupd (open_files fs) i f) fs.
Definition set_data (v : list N) (n : runtime_fs_node) : runtime_fs_node :=
  let 'Node a b c d e f g _ := n in Node a b c d e f g v.
Definition set_size_bytes (v : N) (n : runtime_fs_node) : runtime_fs_node :=
  let 'Node a b c d e _ g h := n in Node a b c d e v g h.
Definition set_parent_name (p : N) (name : cstr) (n : runtime_fs_node) : runtime_fs_node :=
  let 'Node a b _ d e f _ h := n in Node a b p d e f name h.
Definition set_file_owner (v : N) (o : runtime_fs_open_file) : runtime_fs_open_file :=
  let 'OpenFile a b _ d e f := o in OpenFile a b v d e f.
Definition set_offset (v : N) (o : runtime_fs_open_file) : runtime_fs_open_file :=
  let 'OpenFile a b c d _ f := o in OpenFile a b c d v f.
Definition set_dir_cursor (v : N) (o : runtime_fs_open_file) : runtime_fs_open_file :=
  let 'OpenFile a b c d e _ := o in OpenFile a b c d e v.

Definition is_type (t : N) (n : runtime_fs_node) : bool := n_type n =? t.
Definition has_flag (flags bit : N) : bool := nz (N.land flags bit).

(** ** Names and paths *)

Definition name_equals (a b : cstr) : bool := cstr_equals a b.

(** [copy_name] keeps the first [RUNTIME_FS_NAME_CAPACITY - 1] characters. *)
Fixpoint copy_name_from (index : N) (src : cstr) : cstr :=
  match src with
  | [] => []
  | c :: src' => if index + 1 <? RUNTIME_FS_NAME_CAPACITY then c :: copy_name_from (index + 1) src'
                 else []
  end.
Definition copy_name (src : cstr) : cstr := copy_name_from 0 src.

(** [fs_zero_range]: the bytes [start .. end) of a file, clipped to its capacity. *)
Definition fs_zero_range (data : list N) (start end_ : N) : list N :=
  if (end_ <=? start) || (RUNTIME_FS_FILE_CAPACITY <=? start) then data
  else
    let end' := if RUNTIME_FS_FILE_CAPACITY <? end_ then RUNTIME_FS_FILE_CAPACITY else end_ in
    imap (λ index b, if (start <=? N.of_nat index) && (N.of_nat index <? end') then 0 else b) data.

(** One step of the tokenizer: 0 (no token left), -1 (a token that does not
    fit) or 1 with the token; the cursor is the rest of the path. *)
Inductive token_result := TokenEnd | TokenTooLong | Token (token : cstr) (cursor : cstr).

Fixpoint skip_slashes (scan : cstr) : cstr :=
  match scan with
  | c :: scan' => if chr_eqb c "/"%char then skip_slashes scan' else scan
  | [] => []
  end.

Fixpoint token_chars (length : N) (scan : cstr) : token_result :=
  match scan with
  | [] => Token [] []
  | c :: scan' =>
      if chr_eqb c "/"%char then Token [] scan
      else if RUNTIME_FS_NAME_CAPACITY <=? length + 1 then TokenTooLong
      else match token_chars (length + 1) scan' with
           | Token token cursor => Token (c :: token) cursor
           | r => r
           end
  end.

Definition fs_token_next (cursor : cstr) : token_result :=
  match skip_slashes cursor with
  | [] => TokenEnd
  | scan => token_chars 0 scan
  end.

Definition fs_find_child (fs : runtime_fs) (parent_index : N) (name : cstr) : option N :=
  find_idx (λ _ n, nz (n_used n) && (n_parent_index n =? parent_index) &&
                   name_equals (n_name n) name) (nodes fs).

Definition fs_path_is_root (path : cstr) : bool := cstr_equals path ["/"%char].

Definition starts_with_slash (path : cstr) : bool :=
  match path with c :: _ => chr_eqb c "/"%char | [] => false end.

Definition fs_path_is_absolute_non_root (path : option cstr) : bool :=
  match path with
  | Some (c :: _ :: _) => chr_eqb c "/"%char
  | _ => false
  end.

(** ** Node and open-file tables *)

Definition zero_data : list N := replicate (N.to_nat RUNTIME_FS_FILE_CAPACITY) 0.
Definition cleared_node : runtime_fs_node := Node 0 RUNTIME_FILE_TYPE_UNKNOWN 0 0 0 0 [] zero_data.
Definition cleared_file : runtime_fs_open_file := OpenFile 0 0 0 0 0 0.

(** The slot [fs_alloc_node] hands out, as it leaves it. *)
Definition fresh_node (n : runtime_fs_node) : runtime_fs_node :=
  Node 1 RUNTIME_FILE_TYPE_UNKNOWN 0 0 0 0 []
    (fs_zero_range (n_data n) 0 RUNTIME_FS_FILE_CAPACITY).

Definition fs_alloc_node (fs : runtime_fs) : option (N * runtime_fs) :=
  match find_idx (λ index n, (1 <=? index) && (n_used n =? 0)) (nodes fs) with
  | Some index => Some (index, upd_node index fresh_node fs)
  | None => None
  end.

(** The resolution loop over the tokens of a path; [fuel] bounds the number
    of tokens by the length of the path. *)
Fixpoint resolve_loop (fuel : nat) (fs : runtime_fs) (current : N) (cursor : cstr) : option N :=
  match fuel with
  | O => None
  | S fuel' =>
      match fs_token_next cursor with
      | TokenEnd => Some current
      | TokenTooLong => None
      | Token token cursor' =>
          match fs_find_child fs current token with
          | None => None
          | Some child => resolve_loop fuel' fs child cursor'
          end
      end
  end.

Definition fs_resolve_path (fs : runtime_fs) (path : cstr) : option N :=
  if negb (starts_with_slash path) then None
  else if fs_path_is_root path then Some 0
  else resolve_loop (S (length path)) fs 0 path.

(** The slot index plus one, or [ENOSPC]. *)
Definition fs_open_slot_alloc (fs : runtime_fs) (node_index flags : N) : Z * runtime_fs :=
  match find_idx (λ _ o, of_used o =? 0) (open_files fs) with
  | Some index =>
      (Z.of_N (index + 1), upd_file index (λ _, OpenFile 1 node_index 0 flags 0 0) fs)
  | None => (RUNTIME_SYSCALL_STATUS_ENOSPC, fs)
  end.

Definition fs_open_file_lookup (fs : runtime_fs) (file_object : N) : option runtime_fs_open_file :=
  if (file_object =? 0) || (RUNTIME_FS_MAX_OPEN_FILES <? file_object) then None
  else match aget (open_files fs) (file_object - 1) with
       | Some o => if of_used o =? 0 then None else Some o
       | None => None
       end.

Definition fs_clear_node (n : runtime_fs_node) : runtime_fs_node :=
  Node 0 RUNTIME_FILE_TYPE_UNKNOWN 0 0 0 0 [] ((λ _, 0) <$> n_data n).

Definition fs_node_has_children (fs : runtime_fs) (node_index : N) : bool :=
  exists_idx (λ index n, nz (n_used n) && (n_parent_index n =? node_index) &&
                         negb (index =? node_index)) (nodes fs).

Definition fs_node_is_open (fs : runtime_fs) (node_index : N) : bool :=
  exists_idx (λ _ o, nz (of_used o) && (of_node_index o =? node_index)) (open_files fs).

Definition fs_node_owner_allows (node : runtime_fs_node) (current_pid : N) : bool :=
  (n_owner_pid node =? 0) || (current_pid =? 0) || (n_owner_pid node =? current_pid).

Definition fs_node_has_open_writer (fs : runtime_fs) (node_index : N) : bool :=
  exists_idx (λ _ o, nz (of_used o) && (of_node_index o =? node_index) &&
                     has_flag (of_flags o) RUNTIME_FILE_OPEN_WRITE) (open_files fs).

(** The walk up the parent links: [None] when it leaves the table or does not
    end within [fuel] links. *)
Fixpoint parent_chain_walk (fuel : nat) (fs : runtime_fs) (current candidate_ancestor : N)
  : option bool :=
  match fuel with
  | O => None
  | S fuel' =>
      if current =? 0 then Some false
      else if current =? candidate_ancestor then Some true
      else n ← aget (nodes fs) current;
           parent_chain_walk fuel' fs (n_parent_index n) candidate_ancestor
  end.

(** A walk of more than sixteen links repeats a node and never ends. *)
Definition CHAIN_FUEL : nat := 18.

Definition fs_parent_chain_contains (fs : runtime_fs) (start_index candidate_ancestor : N)
  : option bool :=
  parent_chain_walk CHAIN_FUEL fs start_index candidate_ancestor.

Definition fs_name_is_empty (name : cstr) : bool :=
  match name with [] => true | _ => false end.

(** ** Path resolution with a status *)

Definition fs_resolve_existing_path (fs : runtime_fs) (path : cstr) : Z + N :=
  if negb (starts_with_slash path) then inl RUNTIME_SYSCALL_STATUS_EINVAL
  else match fs_resolve_path fs path with
       | None => inl RUNTIME_SYSCALL_STATUS_ENOENT
       | Some index => inr index
       end.

(** The walk that keeps the last token as the leaf; the result is the parent
    index and the leaf name. *)
Fixpoint parent_loop (fuel : nat) (fs : runtime_fs) (current : N) (token cursor : cstr)
  : option (Z + N * cstr) :=
  match fuel with
  | O => None
  | S fuel' =>
      match fs_token_next cursor with
      | TokenEnd => Some (inr (current, copy_name token))
      | TokenTooLong => Some (inl RUNTIME_SYSCALL_STATUS_EINVAL)
      | Token next_token peek =>
          match fs_find_child fs current token with
          | None => Some (inl RUNTIME_SYSCALL_STATUS_ENOENT)
          | Some child =>
              node ← aget (nodes fs) child;
              if negb (is_type RUNTIME_FILE_TYPE_DIRECTORY node)
              then Some (inl RUNTIME_SYSCALL_STATUS_ENOTDIR)
              else parent_loop fuel' fs child (copy_name next_token) peek
          end
      end
  end.

Definition fs_resolve_parent_path (fs : runtime_fs) (path : cstr) : option (Z + N * cstr) :=
  if negb (fs_path_is_absolute_non_root (Some path)) then Some (inl RUNTIME_SYSCALL_STATUS_EINVAL)
  else match fs_token_next path with
       | Token token cursor => parent_loop (S (length cursor)) fs 0 token cursor
       | _ => Some (inl RUNTIME_SYSCALL_STATUS_EINVAL)
       end.

(** ** The interface of the file system *)

Definition root_node : runtime_fs_node :=
  Node 1 RUNTIME_FILE_TYPE_DIRECTORY 0 0 493 0 ["/"%char] zero_data.

Definition runtime_fs_init : runtime_fs :=
  Fs (root_node :: replicate 15 cleared_node)
     (replicate (N.to_nat RUNTIME_FS_MAX_OPEN_FILES) cleared_file).

(** The node a creation fills in. *)
Definition created_node (type parent_index owner_pid mode : N) (name : cstr)
    (n : runtime_fs_node) : runtime_fs_node :=
  Node (n_used n) type parent_index owner_pid mode (n_size_bytes n) (copy_name name) (n_data n).

(** The diagnostic word [path[i] | path[i + 1] << 8]; the two characters must
    lie inside the string, its terminating NUL included. *)
Definition path_word (path : cstr) (i : N) : option N :=
  low ← aget (path ++ ["000"%char]) i;
  high ← aget (path ++ ["000"%char]) (i + 1);
  Some (N.lor (code low) (N.shiftl (code high) 8)).

(** Result: the new state, the diagnostic code and the status.  The path's
    characters are read for the diagnostic words whatever its length. *)
Definition runtime_fs_mkdir (fs : runtime_fs) (current_pid : N) (path : option cstr) (mode : N)
  : option (runtime_fs * N * Z) :=
  match path with
  | None => Some (fs, 0xB200, RUNTIME_SYSCALL_STATUS_EINVAL)
  | Some path =>
      if negb (fs_path_is_absolute_non_root (Some path))
      then _ ← path_word path 0; Some (fs, 0xB200, RUNTIME_SYSCALL_STATUS_EINVAL)
      else match fs_resolve_path fs path with
      | Some _ => Some (fs, 0xB201, RUNTIME_SYSCALL_STATUS_EEXIST)
      | None =>
          _ ← path_word path 1;
          _ ← path_word path 3;
          parent ← fs_resolve_parent_path fs path;
          match parent with
          | inl status => Some (fs, 0xB202, status)
          | inr (parent_index, leaf_name) =>
              parent_node ← aget (nodes fs) parent_index;
              if negb (fs_node_owner_allows parent_node current_pid)
              then Some (fs, 0xB203, RUNTIME_SYSCALL_STATUS_EACCES)
              else match fs_alloc_node fs with
              | None => Some (fs, 0xB204, RUNTIME_SYSCALL_STATUS_ENOSPC)
              | Some (node_index, fs') =>
                  Some (upd_node node_index
                          (created_node RUNTIME_FILE_TYPE_DIRECTORY parent_index current_pid mode
                             leaf_name) fs',
                        0xB2FF, RUNTIME_SYSCALL_STATUS_OK)
              end
          end
      end
  end.

(** The node [runtime_fs_open] works on: found, created, or an error. *)
Definition open_target (fs : runtime_fs) (current_pid : N) (path : cstr) (flags : N)
  : option (runtime_fs * (Z + N)) :=
  match fs_resolve_path fs path with
  | Some node_index => Some (fs, inr node_index)
  | None =>
      if negb (has_flag flags RUNTIME_FILE_OPEN_CREATE)
      then Some (fs, inl RUNTIME_SYSCALL_STATUS_ENOENT)
      else
        parent ← fs_resolve_parent_path fs path;
        match parent with
        | inl status => Some (fs, inl status)
        | inr (parent_index, leaf_name) =>
            parent_node ← aget (nodes fs) parent_index;
            if negb (fs_node_owner_allows parent_node current_pid)
            then Some (fs, inl RUNTIME_SYSCALL_STATUS_EACCES)
            else match fs_alloc_node fs with
            | None => Some (fs, inl RUNTIME_SYSCALL_STATUS_ENOSPC)
            | Some (node_index, fs') =>
                Some (upd_node node_index
                        (created_node RUNTIME_FILE_TYPE_REGULAR parent_index current_pid 420
                           leaf_name) fs', inr node_index)
            end
        end
  end.

(** The type and mode checks of [runtime_fs_open]. *)
Definition open_mode_status (node : runtime_fs_node) (flags : N) : Z :=
  if is_type RUNTIME_FILE_TYPE_DIRECTORY node && has_flag flags RUNTIME_FILE_OPEN_WRITE
  then RUNTIME_SYSCALL_STATUS_EISDIR
  else if negb (is_type RUNTIME_FILE_TYPE_DIRECTORY node) &&
          negb (is_type RUNTIME_FILE_TYPE_REGULAR node)
  then RUNTIME_SYSCALL_STATUS_ENOTSUP
  else if has_flag flags RUNTIME_FILE_OPEN_WRITE && negb (has_flag (n_mode node) 146)
  then RUNTIME_SYSCALL_STATUS_EBADF
  else if has_flag flags RUNTIME_FILE_OPEN_READ && negb (has_flag (n_mode node) 292)
  then RUNTIME_SYSCALL_STATUS_EBADF
  else RUNTIME_SYSCALL_STATUS_OK.

Definition truncate_node (n : runtime_fs_node) : runtime_fs_node :=
  set_data (fs_zero_range (n_data n) 0 RUNTIME_FS_FILE_CAPACITY) (set_size_bytes 0 n).

(** Everything after the node is known.  The second component is what is
    stored through [file_object] (nothing when the call fails earlier). *)
Definition open_node (fs : runtime_fs) (current_pid node_index flags : N)
  : option (runtime_fs * option N * Z) :=
  node ← aget (nodes fs) node_index;
  let status := open_mode_status node flags in
  if negb (bool_decide (status = RUNTIME_SYSCALL_STATUS_OK)) then Some (fs, None, status)
  else
    let fs1 := if has_flag flags RUNTIME_FILE_OPEN_TRUNCATE &&
                  is_type RUNTIME_FILE_TYPE_REGULAR node
               then upd_node node_index truncate_node fs else fs in
    if has_flag flags RUNTIME_FILE_OPEN_WRITE && fs_node_has_open_writer fs1 node_index
    then Some (fs1, None, RUNTIME_SYSCALL_STATUS_EBUSY)
    else if has_flag flags (N.lor RUNTIME_FILE_OPEN_WRITE RUNTIME_FILE_OPEN_TRUNCATE) &&
            negb (fs_node_owner_allows node current_pid)
    then Some (fs1, None, RUNTIME_SYSCALL_STATUS_EACCES)
    else
      let '(slot, fs2) := fs_open_slot_alloc fs1 node_index flags in
      let file_object := u32_of_Z slot in
      if (i32 file_object <? 0)%Z then Some (fs2, Some file_object, i32 file_object)
      else Some (upd_file (file_object - 1) (set_file_owner current_pid) fs2, Some file_object,
                 RUNTIME_SYSCALL_STATUS_OK).

(** [out] tells whether the [file_object] pointer is not NULL. *)
Definition runtime_fs_open (fs : runtime_fs) (current_pid : N) (path : option cstr) (flags : N)
    (out : bool) : option (runtime_fs * option N * Z) :=
  match path with
  | None => Some (fs, None, RUNTIME_SYSCALL_STATUS_EINVAL)
  | Some path =>
      if negb out || negb (starts_with_slash path)
      then Some (fs, None, RUNTIME_SYSCALL_STATUS_EINVAL)
      else
        target ← open_target fs current_pid path flags;
        match target with
        | (fs', inl status) => Some (fs', None, status)
        | (fs', inr node_index) => open_node fs' current_pid node_index flags
        end
  end.

(** The status of an operation on a node that is not a regular file. *)
Definition not_regular_status (node : runtime_fs_node) : Z :=
  if is_type RUNTIME_FILE_TYPE_DIRECTORY node then RUNTIME_SYSCALL_STATUS_EISDIR
  else RUNTIME_SYSCALL_STATUS_ENOTSUP.

(** [for (index = 0; index < count; ++index) ... = data[offset + index]]. *)
Fixpoint load_bytes (count : nat) (data : list N) (offset : N) : option (list N) :=
  match count with
  | O => Some []
  | S count' => b ← aget data offset; rest ← load_bytes count' data (offset + 1); Some (b :: rest)
  end.

(** [for (index = 0; index < size; ++index) data[offset + index] = bytes[index]]. *)
Fixpoint store_bytes (data : list N) (offset : N) (bytes : list N) : option (list N) :=
  match bytes with
  | [] => Some data
  | b :: bytes' => data' ← aset data offset b; store_bytes data' (offset + 1) bytes'
  end.

(** The result lists the bytes stored into the caller's buffer. *)
Definition runtime_fs_read (fs : runtime_fs) (file_object : N) (buffer : bool) (size : N)
  : option (runtime_fs * list N * Z) :=
  if negb buffer then Some (fs, [], RUNTIME_SYSCALL_STATUS_EBADF)
  else match fs_open_file_lookup fs file_object with
  | None => Some (fs, [], RUNTIME_SYSCALL_STATUS_EBADF)
  | Some open_file =>
      if negb (has_flag (of_flags open_file) RUNTIME_FILE_OPEN_READ)
      then Some (fs, [], RUNTIME_SYSCALL_STATUS_EBADF)
      else
        node ← aget (nodes fs) (of_node_index open_file);
        if negb (is_type RUNTIME_FILE_TYPE_REGULAR node) then Some (fs, [], not_regular_status node)
        else if n_size_bytes node <=? of_offset open_file then Some (fs, [], 0%Z)
        else
          let remaining := n_size_bytes node - of_offset open_file in
          let count := if size <? remaining then size else remaining in
          bytes ← load_bytes (N.to_nat count) (n_data node) (of_offset open_file);
          Some (upd_file (file_object - 1) (λ o, set_offset (u32 (of_offset o + count)) o) fs,
                bytes, i32 count)
  end.

(** [buffer] holds the bytes the caller makes readable; a [size] beyond its
    length reads past it. *)
Definition runtime_fs_write (fs : runtime_fs) (file_object : N) (buffer : option (list N)) (size : N)
  : option (runtime_fs * Z) :=
  match buffer with
  | None => Some (fs, RUNTIME_SYSCALL_STATUS_EBADF)
  | Some bytes =>
      match fs_open_file_lookup fs file_object with
      | None => Some (fs, RUNTIME_SYSCALL_STATUS_EBADF)
      | Some open_file =>
          if negb (has_flag (of_flags open_file) RUNTIME_FILE_OPEN_WRITE)
          then Some (fs, RUNTIME_SYSCALL_STATUS_EBADF)
          else
            node ← aget (nodes fs) (of_node_index open_file);
            if negb (is_type RUNTIME_FILE_TYPE_REGULAR node)
            then Some (fs, not_regular_status node)
            else
              let end_offset := u32 (of_offset open_file + size) in
              if RUNTIME_FS_FILE_CAPACITY <? end_offset
              then Some (fs, RUNTIME_SYSCALL_STATUS_ENOSPC)
              else
                let data := if n_size_bytes node <? of_offset open_file
                            then fs_zero_range (n_data node) (n_size_bytes node)
                                   (of_offset open_file)
                            else n_data node in
                if N.of_nat (length bytes) <? size then None
                else
                  data' ← store_bytes data (of_offset open_file) (take (N.to_nat size) bytes);
                  let size' := if n_size_bytes node <? end_offset then end_offset
                               else n_size_bytes node in
                  Some (upd_node (of_node_index open_file)
                          (λ n, set_data data' (set_size_bytes size' n))
                          (upd_file (file_object - 1) (set_offset end_offset) fs), i32 size)
      end
  end.

Definition runtime_fs_close (fs : runtime_fs) (file_object : N) : runtime_fs * Z :=
  match fs_open_file_lookup fs file_object with
  | None => (fs, RUNTIME_SYSCALL_STATUS_EBADF)
  | Some _ => (upd_file (file_object - 1) (λ _, cleared_file) fs, RUNTIME_SYSCALL_STATUS_OK)
  end.

Definition runtime_fs_stat (fs : runtime_fs) (file_object : N) (stat : bool)
  : option (option runtime_file_stat * Z) :=
  if negb stat then Some (None, RUNTIME_SYSCALL_STATUS_EBADF)
  else match fs_open_file_lookup fs file_object with
  | None => Some (None, RUNTIME_SYSCALL_STATUS_EBADF)
  | Some open_file =>
      node ← aget (nodes fs) (of_node_index open_file);
      Some (Some (FileStat (n_type node) (n_mode node) (n_size_bytes node)),
            RUNTIME_SYSCALL_STATUS_OK)
  end.

Definition runtime_fs_readdir (fs : runtime_fs) (file_object : N) (entry : bool)
  : option (runtime_fs * option runtime_dir_entry * Z) :=
  if negb entry then Some (fs, None, RUNTIME_SYSCALL_STATUS_EBADF)
  else match fs_open_file_lookup fs file_object with
  | None => Some (fs, None, RUNTIME_SYSCALL_STATUS_EBADF)
  | Some open_file =>
      if negb (has_flag (of_flags open_file) RUNTIME_FILE_OPEN_READ)
      then Some (fs, None, RUNTIME_SYSCALL_STATUS_EBADF)
      else
        node ← aget (nodes fs) (of_node_index open_file);
        if negb (is_type RUNTIME_FILE_TYPE_DIRECTORY node)
        then Some (fs, None, if is_type RUNTIME_FILE_TYPE_REGULAR node
                             then RUNTIME_SYSCALL_STATUS_ENOTDIR
                             else RUNTIME_SYSCALL_STATUS_ENOTSUP)
        else match find_idx (λ index n, (of_dir_cursor open_file <=? index) && nz (n_used n) &&
                                        (n_parent_index n =? of_node_index open_file)) (nodes fs) with
        | None => Some (fs, None, 0%Z)
        | Some index =>
            candidate ← aget (nodes fs) index;
            Some (upd_file (file_object - 1) (set_dir_cursor (u32 (index + 1))) fs,
                  Some (DirEntry (n_type candidate) (copy_name (n_name candidate))), 1%Z)
        end
  end.

Definition runtime_fs_seek (fs : runtime_fs) (file_object : N) (offset : Z) (whence : N)
  : option (runtime_fs * Z) :=
  match fs_open_file_lookup fs file_object with
  | None => Some (fs, RUNTIME_SYSCALL_STATUS_EBADF)
  | Some open_file =>
      node ← aget (nodes fs) (of_node_index open_file);
      if negb (is_type RUNTIME_FILE_TYPE_REGULAR node) then Some (fs, not_regular_status node)
      else
        let base := if whence =? RUNTIME_FILE_SEEK_SET then Some 0%Z
                    else if whence =? RUNTIME_FILE_SEEK_CUR then Some (Z.of_N (of_offset open_file))
                    else if whence =? RUNTIME_FILE_SEEK_END then Some (Z.of_N (n_size_bytes node))
                    else None in
        match base with
        | None => Some (fs, RUNTIME_SYSCALL_STATUS_EINVAL)
        | Some base =>
            let next_offset := (base + offset)%Z in
            if (next_offset <? 0)%Z || (Z.of_N RUNTIME_FS_FILE_CAPACITY <? next_offset)%Z ||
               (2147483647 <? next_offset)%Z
            then Some (fs, RUNTIME_SYSCALL_STATUS_EINVAL)
            else Some (upd_file (file_object - 1) (set_offset (u32_of_Z next_offset)) fs,
                       i32 (u32_of_Z next_offset))
        end
  end.

Definition runtime_fs_remove (fs : runtime_fs) (current_pid : N) (path : option cstr)
  : option (runtime_fs * Z) :=
  match path with
  | None => Some (fs, RUNTIME_SYSCALL_STATUS_EINVAL)
  | Some path =>
      if negb (starts_with_slash path) then Some (fs, RUNTIME_SYSCALL_STATUS_EINVAL)
      else if fs_path_is_root path then Some (fs, RUNTIME_SYSCALL_STATUS_EBUSY)
      else match fs_resolve_existing_path fs path with
      | inl status => Some (fs, status)
      | inr node_index =>
          node ← aget (nodes fs) node_index;
          if negb (fs_node_owner_allows node current_pid)
          then Some (fs, RUNTIME_SYSCALL_STATUS_EACCES)
          else
            parent ← aget (nodes fs) (n_parent_index node);
            if negb (fs_node_owner_allows parent current_pid)
            then Some (fs, RUNTIME_SYSCALL_STATUS_EACCES)
            else if fs_node_is_open fs node_index then Some (fs, RUNTIME_SYSCALL_STATUS_EBUSY)
            else if is_type RUNTIME_FILE_TYPE_DIRECTORY node && fs_node_has_children fs node_index
            then Some (fs, RUNTIME_SYSCALL_STATUS_ENOTEMPTY)
            else Some (upd_node node_index fs_clear_node fs, RUNTIME_SYSCALL_STATUS_OK)
      end
  end.

(** The part of [runtime_fs_rename] after both paths have been resolved. *)
Definition rename_node (fs : runtime_fs) (current_pid node_index parent_index : N)
    (leaf_name : cstr) : option (runtime_fs * Z) :=
  node ← aget (nodes fs) node_index;
  if negb (fs_node_owner_allows node current_pid) then Some (fs, RUNTIME_SYSCALL_STATUS_EACCES)
  else
    old_parent ← aget (nodes fs) (n_parent_index node);
    if negb (fs_node_owner_allows old_parent current_pid)
    then Some (fs, RUNTIME_SYSCALL_STATUS_EACCES)
    else
      new_parent ← aget (nodes fs) parent_index;
      if negb (fs_node_owner_allows new_parent current_pid)
      then Some (fs, RUNTIME_SYSCALL_STATUS_EACCES)
      else
        inside ← (if is_type RUNTIME_FILE_TYPE_DIRECTORY node
                  then fs_parent_chain_contains fs parent_index node_index
                  else Some false);
        if (inside : bool) then Some (fs, RUNTIME_SYSCALL_STATUS_EINVAL)
        else Some (upd_node node_index (set_parent_name parent_index (copy_name leaf_name)) fs,
                   RUNTIME_SYSCALL_STATUS_OK).

Definition runtime_fs_rename (fs : runtime_fs) (current_pid : N) (old_path new_path : option cstr)
  : option (runtime_fs * Z) :=
  match old_path, new_path with
  | Some old_path, Some new_path =>
      if negb (starts_with_slash old_path) || negb (starts_with_slash new_path)
      then Some (fs, RUNTIME_SYSCALL_STATUS_EINVAL)
      else if name_equals old_path new_path then Some (fs, RUNTIME_SYSCALL_STATUS_OK)
      else if fs_path_is_root old_path || fs_path_is_root new_path
      then Some (fs, RUNTIME_SYSCALL_STATUS_EBUSY)
      else match fs_resolve_existing_path fs old_path with
      | inl status => Some (fs, status)
      | inr node_index =>
          match fs_resolve_path fs new_path with
          | Some _ => Some (fs, RUNTIME_SYSCALL_STATUS_EEXIST)
          | None =>
              parent ← fs_resolve_parent_path fs new_path;
              match parent with
              | inl status => Some (fs, status)
              | inr (parent_index, leaf_name) =>
                  rename_node fs current_pid node_index parent_index leaf_name
              end
          end
      end
  | _, _ => Some (fs, RUNTIME_SYSCALL_STATUS_EINVAL)
  end.

(** ** [runtime_fs_validate] *)

(** [Some (code, status)] is a failing check, [None] a passing one; the outer
    [option] is the out-of-bounds access. *)
Fixpoint validate_chain (fuel : nat) (fs : runtime_fs) (index current depth : N)
  : option (option (N * Z)) :=
  match fuel with
  | O => None
  | S fuel' =>
      if current =? 0 then Some None
      else
        n ← aget (nodes fs) current;
        let current' := n_parent_index n in
        let depth' := depth + 1 in
        if RUNTIME_FS_MAX_NODES <? depth'
        then Some (Some (N.lor 0xD600 index, RUNTIME_SYSCALL_STATUS_EINVAL))
        else
          m ← aget (nodes fs) current';
          if n_used m =? 0
          then Some (Some (N.lor 0xD700 index, RUNTIME_SYSCALL_STATUS_EINVAL))
          else validate_chain fuel' fs index current' depth'
  end.

Definition duplicate_sibling (fs : runtime_fs) (index : N) (node : runtime_fs_node) : bool :=
  exists_idx (λ other peer, (index + 1 <=? other) && nz (n_used peer) &&
                            (n_parent_index peer =? n_parent_index node) &&
                            name_equals (n_name peer) (n_name node)) (nodes fs).

Definition validate_node (fs : runtime_fs) (index : N) (node : runtime_fs_node)
  : option (option (N * Z)) :=
  if n_used node =? 0 then Some None
  else if negb (is_type RUNTIME_FILE_TYPE_DIRECTORY node) &&
          negb (is_type RUNTIME_FILE_TYPE_REGULAR node)
  then Some (Some (N.lor 0xD100 index, RUNTIME_SYSCALL_STATUS_EINVAL))
  else if fs_name_is_empty (n_name node)
  then Some (Some (N.lor 0xD200 index, RUNTIME_SYSCALL_STATUS_EINVAL))
  else if RUNTIME_FS_MAX_NODES <=? n_parent_index node
  then Some (Some (N.lor 0xD300 index, RUNTIME_SYSCALL_STATUS_EINVAL))
  else
    parent ← aget (nodes fs) (n_parent_index node);
    if (n_used parent =? 0) || negb (is_type RUNTIME_FILE_TYPE_DIRECTORY parent)
    then Some (Some (N.lor 0xD400 index, RUNTIME_SYSCALL_STATUS_EINVAL))
    else if RUNTIME_FS_FILE_CAPACITY <? n_size_bytes node
    then Some (Some (N.lor 0xD500 index, RUNTIME_SYSCALL_STATUS_EINVAL))
    else
      chain ← validate_chain CHAIN_FUEL fs index index 0;
      match chain with
      | Some failure => Some (Some failure)
      | None =>
          if duplicate_sibling fs index node
          then Some (Some (N.lor 0xD800 index, RUNTIME_SYSCALL_STATUS_EEXIST))
          else Some None
      end.

Fixpoint validate_nodes (fs : runtime_fs) (index : N) (l : list runtime_fs_node)
  : option (option (N * Z)) :=
  match l with
  | [] => Some None
  | node :: l' =>
      result ← validate_node fs index node;
      match result with
      | Some failure => Some (Some failure)
      | None => validate_nodes fs (index + 1) l'
      end
  end.

Definition validate_open_file (fs : runtime_fs) (index : N) (o : runtime_fs_open_file)
  : option (option (N * Z)) :=
  if of_used o =? 0 then Some None
  else if RUNTIME_FS_MAX_NODES <=? of_node_index o
  then Some (Some (N.lor 0xD900 index, RUNTIME_SYSCALL_STATUS_EBADF))
  else
    node ← aget (nodes fs) (of_node_index o);
    if n_used node =? 0 then Some (Some (N.lor 0xDA00 index, RUNTIME_SYSCALL_STATUS_EBADF))
    else if is_type RUNTIME_FILE_TYPE_REGULAR node && (RUNTIME_FS_FILE_CAPACITY <? of_offset o)
    then Some (Some (N.lor 0xDB00 index, RUNTIME_SYSCALL_STATUS_EINVAL))
    else if is_type RUNTIME_FILE_TYPE_DIRECTORY node && has_flag (of_flags o) RUNTIME_FILE_OPEN_WRITE
    then Some (Some (N.lor 0xDC00 index, RUNTIME_SYSCALL_STATUS_EISDIR))
    else Some None.

Fixpoint validate_open_files (fs : runtime_fs) (index : N) (l : list runtime_fs_open_file)
  : option (option (N * Z)) :=
  match l with
  | [] => Some None
  | o :: l' =>
      result ← validate_open_file fs index o;
      match result with
      | Some failure => Some (Some failure)
      | None => validate_open_files fs (index + 1) l'
      end
  end.

Definition root_is_valid (root : runtime_fs_node) : bool :=
  nz (n_used root) && is_type RUNTIME_FILE_TYPE_DIRECTORY root && (n_parent_index root =? 0) &&
  name_equals (n_name root) ["/"%char].

(** Result: the diagnostic code left behind and the status. *)
Definition runtime_fs_validate (fs : runtime_fs) : option (N * Z) :=
  root ← aget (nodes fs) 0;
  if negb (root_is_valid root) then Some (0xD001, RUNTIME_SYSCALL_STATUS_EINVAL)
  else
    result ← validate_nodes fs 1 (tail (nodes fs));
    match result with
    | Some failure => Some failure
    | None =>
        result' ← validate_open_files fs 0 (open_files fs);
        match result' with
        | Some failure => Some failure
        | None => Some (0xDFFF, RUNTIME_SYSCALL_STATUS_OK)
        end
    end.

(** ** Sanity checks on concrete inputs *)

Definition fs_run_ok {A} (r : option (A * Z)) : option Z := snd <$> r.

Definition demo_fs : runtime_fs :=
  match runtime_fs_mkdir runtime_fs_init 1 (Some (cs "/a//")) 493 with
  | Some (fs, _, _) =>
      match runtime_fs_open fs 1 (Some (cs "/a/f")) 7 true with
      | Some (fs', _, _) => fs'
      | None => fs
      end
  | None => runtime_fs_init
  end.

Example demo_validates : runtime_fs_validate demo_fs = Some (0xDFFF, 0%Z).
Proof. vm_compute. reflexivity. Qed.

Example demo_write_read :
  (r ← runtime_fs_write demo_fs 1 (Some [1; 2; 3; 4]) 4;
   r' ← runtime_fs_seek r.1 1 1%Z RUNTIME_FILE_SEEK_SET;
   q ← runtime_fs_read r'.1 1 true 100;
   Some (q.1.2, q.2)) = Some ([2; 3; 4], 3%Z).
Proof. vm_compute. reflexivity. Qed.

Example demo_root_listing :
  (o ← runtime_fs_open demo_fs 1 (Some (cs "/")) RUNTIME_FILE_OPEN_READ true;
   e ← runtime_fs_readdir o.1.1 2 true;
   Some e.1.2) = Some (Some (DirEntry 2 (cs "/"))).
Proof. vm_compute. reflexivity. Qed.

Example demo_remove_slashes :
  (r ← runtime_fs_remove runtime_fs_init 1 (Some (cs "//"));
   v ← runtime_fs_validate r.1; Some (r.2, v.2)) = Some (0%Z, (-22)%Z).
Proof. vm_compute. reflexivity. Qed.
