(* ===== verification/RuntimeFsInv.v ===== *)
(** * The invariant of the file system

    [wf] is the declarative statement of what [runtime_fs_validate] checks: a
    tree of used nodes rooted at node 0, with directories inside, distinct
    names among siblings, and open files that refer to used nodes.  The
    validator decides it ([validate_decides_wf]). *)

From S2P Require Import Prelude RuntimeFs.

Local Open Scope N_scope.

(** The sizes the C types guarantee. *)
Record typed (fs : runtime_fs) : Prop := {
  typed_nodes : length (nodes fs) = 16%nat;
  typed_files : length (open_files fs) = 8%nat;
  typed_data : ∀ i n, aget (nodes fs) i = Some n → length (n_data n) = 256%nat
}.

(** [reach fs k i]: following the parent links from [i] arrives at the root
    after exactly [k] steps, through used nodes. *)
Inductive reach (fs : runtime_fs) : nat → N → Prop :=
  | reach_root : reach fs 0 0
  | reach_step k i n :
      i ≠ 0 → aget (nodes fs) i = Some n → n_used n ≠ 0 →
      reach fs k (n_parent_index n) → reach fs (S k) i.

Definition is_dir (fs : runtime_fs) (i : N) : Prop :=
  ∃ n, aget (nodes fs) i = Some n ∧ n_used n ≠ 0 ∧ n_type n = RUNTIME_FILE_TYPE_DIRECTORY.

Record node_wf (fs : runtime_fs) (i : N) (n : runtime_fs_node) : Prop := {
  node_type : n_type n = RUNTIME_FILE_TYPE_DIRECTORY ∨ n_type n = RUNTIME_FILE_TYPE_REGULAR;
  node_name : n_name n ≠ [];
  node_parent : is_dir fs (n_parent_index n);
  node_size : n_size_bytes n ≤ RUNTIME_FS_FILE_CAPACITY;
  node_reach : ∃ k, reach fs k i
}.

Record file_wf (fs : runtime_fs) (o : runtime_fs_open_file) : Prop := {
  file_node : ∃ n, aget (nodes fs) (of_node_index o) = Some n ∧ n_used n ≠ 0 ∧
    (n_type n = RUNTIME_FILE_TYPE_REGULAR → of_offset o ≤ RUNTIME_FS_FILE_CAPACITY) ∧
    (n_type n = RUNTIME_FILE_TYPE_DIRECTORY →
       has_flag (of_flags o) RUNTIME_FILE_OPEN_WRITE = false)
}.

Record wf (fs : runtime_fs) : Prop := {
  wf_root : ∃ r, aget (nodes fs) 0 = Some r ∧ root_is_valid r = true;
  wf_node : ∀ i n, i ≠ 0 → aget (nodes fs) i = Some n → n_used n ≠ 0 → node_wf fs i n;
  wf_unique : ∀ i j n m, i ≠ 0 → j ≠ 0 → aget (nodes fs) i = Some n → aget (nodes fs) j = Some m →
    n_used n ≠ 0 → n_used m ≠ 0 → n_parent_index n = n_parent_index m → n_name n = n_name m → i = j;
  wf_files : ∀ i o, aget (open_files fs) i = Some o → of_used o ≠ 0 → file_wf fs o
}.

(** ** Depth *)

Lemma reach_det fs k k' i : reach fs k i → reach fs k' i → k = k'.
Proof.
  intros H. revert k'. induction H as [|k i n Hi Hn Hu Hr IH]; intros k' H'.
  - by inversion H'.
  - inversion H' as [|k'' ? m ? Hm]; subst; [done|]. f_equal. apply IH. congruence.
Qed.

Lemma reach_lt fs k i : typed fs → reach fs k i → i < 16.
Proof. intros [Ht _ _] H. inversion H as [|???? Hn]; [lia|]. apply aget_Some_lt in Hn. lia. Qed.

Lemma reach_path fs k i : typed fs → reach fs k i →
  ∃ l, length l = S k ∧ NoDup l ∧ ∀ x, x ∈ l → x < 16 ∧ ∃ j, (j ≤ k)%nat ∧ reach fs j x.
Proof.
  intros Ht H. induction H as [|k i n Hi Hn Hu Hr IH].
  - exists [0]. split_and!; [done|apply NoDup_singleton|].
    intros x ->%list_elem_of_singleton. split; [lia|]. exists 0%nat. split; [lia|constructor].
  - destruct IH as (l & Hlen & Hnd & Hl). exists (i :: l). split_and!.
    + simpl. lia.
    + apply NoDup_cons. split; [|done]. intros (_ & j & Hj & Hrj)%Hl.
      assert (reach fs (S k) i) as Hri by by econstructor.
      pose proof (reach_det _ _ _ _ Hrj Hri). lia.
    + intros x [->|(? & j & ? & ?)%Hl]%elem_of_cons.
      * assert (reach fs (S k) i) as Hri by by econstructor.
        split; [by eapply reach_lt|]. exists (S k). split; [lia|done].
      * split; [done|]. exists j. split; [lia|done].
Qed.

(** Sixteen nodes: no chain is longer than fifteen links. *)
Lemma reach_bound fs k i : typed fs → reach fs k i → (k ≤ 15)%nat.
Proof.
  intros Ht H. destruct (reach_path fs k i Ht H) as (l & Hlen & Hnd & Hl).
  assert (l ⊆+ (N.of_nat <$> seq 0 16)) as Hsub.
  { apply NoDup_submseteq; [done|]. intros x Hx. destruct (Hl x Hx) as [Hlt _].
    apply list_elem_of_fmap. exists (N.to_nat x). split; [lia|]. apply elem_of_seq. lia. }
  apply submseteq_length in Hsub. rewrite length_fmap, length_seq in Hsub. lia.
Qed.

(** [reach] depends only on the [used] and [parent_index] fields. *)
Lemma reach_ext fs fs' k i :
  (∀ j n, aget (nodes fs) j = Some n → n_used n ≠ 0 →
     ∃ n', aget (nodes fs') j = Some n' ∧ n_used n' ≠ 0 ∧ n_parent_index n' = n_parent_index n) →
  reach fs k i → reach fs' k i.
Proof.
  intros Hext H. induction H as [|k i n Hi Hn Hu Hr IH]; [constructor|].
  destruct (Hext i n Hn Hu) as (n' & Hn' & Hu' & Hp). rewrite <-Hp in IH. by econstructor.
Qed.

(** ** The parent-chain loops *)

Lemma reach_inv fs k i n :
  i ≠ 0 → aget (nodes fs) i = Some n → reach fs k i →
  ∃ k', k = S k' ∧ reach fs k' (n_parent_index n) ∧ n_used n ≠ 0.
Proof.
  intros Hi Hn Hk. inversion Hk as [|k' ? m ? Hm]; subst; [done|]. simplify_eq. eauto.
Qed.

Lemma reach_used fs k i :
  (∃ r, aget (nodes fs) 0 = Some r ∧ n_used r ≠ 0) → reach fs k i →
  ∃ n, aget (nodes fs) i = Some n ∧ n_used n ≠ 0.
Proof. intros Hr H. inversion H; subst; eauto. Qed.

Lemma validate_chain_ok fs index :
  typed fs → (∃ r, aget (nodes fs) 0 = Some r ∧ n_used r ≠ 0) → ∀ fuel cur depth,
  (fuel + N.to_nat depth = 18)%nat → depth ≤ 16 →
  (∃ n, aget (nodes fs) cur = Some n ∧ n_used n ≠ 0) →
  (validate_chain fuel fs index cur depth = Some None ↔
     ∃ k, reach fs k cur ∧ N.of_nat k + depth ≤ 16).
Proof.
  intros Ht Hroot fuel. induction fuel as [|fuel IH]; intros cur depth Hf Hd (n & Hn & Hu); [lia|].
  simpl. destruct (N.eqb_spec cur 0) as [->|Hc].
  { split; [|done]. intros _. exists 0%nat. split; [constructor|lia]. }
  rewrite Hn. simpl. unfold RUNTIME_FS_MAX_NODES. destruct (N.ltb_spec 16 (depth + 1)).
  { split; [done|]. intros (k & (k' & -> & _)%(reach_inv _ _ _ _ Hc Hn) & ?). lia. }
  destruct (aget (nodes fs) (n_parent_index n)) as [m|] eqn:Hm; simpl.
  - destruct (N.eqb_spec (n_used m) 0) as [Hum|Hum].
    + split; [done|]. intros (k & (k' & -> & Hk' & _)%(reach_inv _ _ _ _ Hc Hn) & ?).
      destruct (reach_used _ _ _ Hroot Hk') as (? & ? & ?). congruence.
    + rewrite IH; [|lia|lia|eauto]. split.
      * intros (k & Hk & ?). exists (S k). split; [by econstructor|lia].
      * intros (k & (k' & -> & Hk' & _)%(reach_inv _ _ _ _ Hc Hn) & ?).
        exists k'. split; [done|lia].
  - split; [done|]. intros (k & (k' & -> & Hk' & _)%(reach_inv _ _ _ _ Hc Hn) & ?).
    destruct (reach_used _ _ _ Hroot Hk') as (? & ? & ?). congruence.
Qed.

Lemma validate_chain_reach fs index n :
  typed fs → (∃ r, aget (nodes fs) 0 = Some r ∧ n_used r ≠ 0) →
  aget (nodes fs) index = Some n → n_used n ≠ 0 →
  (validate_chain CHAIN_FUEL fs index index 0 = Some None ↔ ∃ k, reach fs k index).
Proof.
  intros Ht Hroot Hn Hu. rewrite validate_chain_ok; [|done|done|done|lia|eauto].
  split; intros (k & Hk); [naive_solver|]. exists k. split; [done|].
  pose proof (reach_bound _ _ _ Ht Hk). lia.
Qed.

(** ** The validator decides [wf] *)

Lemma root_is_valid_iff r :
  root_is_valid r = true ↔
    n_used r ≠ 0 ∧ n_type r = RUNTIME_FILE_TYPE_DIRECTORY ∧ n_parent_index r = 0 ∧
    n_name r = ["/"%char].
Proof.
  unfold root_is_valid, is_type, name_equals.
  rewrite !andb_true_iff, nz_true, !N.eqb_eq, cstr_equals_eq. tauto.
Qed.

Definition no_duplicate (fs : runtime_fs) (i : N) (n : runtime_fs_node) : Prop :=
  ∀ j m, i < j → aget (nodes fs) j = Some m → n_used m ≠ 0 →
    n_parent_index m = n_parent_index n → n_name m = n_name n → False.

Lemma duplicate_sibling_false fs i n :
  duplicate_sibling fs i n = false ↔ no_duplicate fs i n.
Proof.
  unfold duplicate_sibling, no_duplicate, name_equals. rewrite exists_idx_false. split.
  - intros H j m Hij Hm Hu Hp Hnm. specialize (H j m Hm).
    rewrite Hp, Hnm, N.eqb_refl, cstr_equals_refl in H.
    apply nz_true in Hu. rewrite Hu in H.
    destruct (N.leb_spec (i + 1) j); [done|lia].
  - intros H j m Hm. destruct (N.leb_spec (i + 1) j); [simpl|done].
    destruct (nz (n_used m)) eqn:Hu; [simpl|done].
    destruct (N.eqb_spec (n_parent_index m) (n_parent_index n)); [simpl|done].
    apply cstr_equals_neq. intros ?. bools. by eapply (H j m); [lia|..].
Qed.

Lemma validate_node_ok fs i n :
  typed fs → (∃ r, aget (nodes fs) 0 = Some r ∧ n_used r ≠ 0) → aget (nodes fs) i = Some n →
  (validate_node fs i n = Some None ↔
     (n_used n ≠ 0 → node_wf fs i n ∧ no_duplicate fs i n)).
Proof.
  intros Ht Hroot Hn. unfold validate_node.
  destruct (N.eqb_spec (n_used n) 0) as [Hu|Hu]; [naive_solver|].
  unfold is_type, RUNTIME_FILE_TYPE_DIRECTORY, RUNTIME_FILE_TYPE_REGULAR.
  destruct (negb (n_type n =? 2) && negb (n_type n =? 1)) eqn:Hty.
  { bools. split; [done|]. intros Hw. destruct (Hw Hu) as [[[?|?] _ _ _ _] _]; done. }
  apply andb_false_iff in Hty.
  assert (n_type n = 2 ∨ n_type n = 1) as Hty' by (destruct Hty; bools; auto). clear Hty.
  destruct (n_name n) as [|c name] eqn:Hname; cbn [fs_name_is_empty].
  { split; [done|]. intros Hw. destruct (Hw Hu) as [[] _]. done. }
  unfold RUNTIME_FS_MAX_NODES. destruct (N.leb_spec 16 (n_parent_index n)) as [Hp|Hp].
  { split; [done|]. intros Hw. destruct (Hw Hu) as [[_ _ (m & Hm & _) _ _] _].
    apply aget_Some_lt in Hm. rewrite (typed_nodes _ Ht) in Hm. lia. }
  destruct (aget_is_Some (nodes fs) (n_parent_index n)) as [m Hm].
  { rewrite (typed_nodes _ Ht). lia. }
  rewrite Hm. cbind.
  destruct ((n_used m =? 0) || negb (n_type m =? 2)) eqn:Hdir.
  { split; [done|]. intros Hw. destruct (Hw Hu) as [[_ _ (m' & Hm' & Hu' & Ht') _ _] _].
    simplify_eq. apply orb_true_iff in Hdir. destruct Hdir; bools; done. }
  apply orb_false_iff in Hdir as [Hmu Hmt].
  unfold RUNTIME_FS_FILE_CAPACITY. destruct (N.ltb_spec 256 (n_size_bytes n)) as [Hs|Hs].
  { split; [done|]. intros Hw. destruct (Hw Hu) as [[_ _ _ Hsz _] _].
    unfold RUNTIME_FS_FILE_CAPACITY in Hsz. lia. }
  pose proof (validate_chain_reach fs i n Ht Hroot Hn Hu) as Hchain.
  destruct (validate_chain _ _ _ _ _) as [[failure|]|]; cbind.
  - split; [done|]. intros Hw. destruct (Hw Hu) as [[_ _ _ _ Hr] _].
    apply Hchain in Hr. done.
  - destruct (duplicate_sibling fs i n) eqn:Hdup.
    + split; [done|]. intros Hw. destruct (Hw Hu) as [_ Hd%duplicate_sibling_false]. congruence.
    + apply duplicate_sibling_false in Hdup. split; [|done]. intros _ _. split; [|done].
      bools. split; [done|congruence|by exists m|done|by apply Hchain].
  - split; [done|]. intros Hw. destruct (Hw Hu) as [[_ _ _ _ Hr] _].
    apply Hchain in Hr. done.
Qed.

Lemma aget_tail {A} (l : list A) i : i ≠ 0 → aget (tail l) (i - 1) = aget l i.
Proof.
  intros Hi. lookups. destruct l as [|x l]; [done|]. simpl.
  by replace (N.to_nat i) with (S (N.to_nat (i - 1))) by lia.
Qed.

(** The two loops succeed when every entry passes. *)
Lemma validate_nodes_ok fs l k :
  validate_nodes fs k l = Some None ↔
  ∀ i n, aget l i = Some n → validate_node fs (k + i) n = Some None.
Proof.
  revert k. induction l as [|x l IH]; intros k.
  { split; [|done]. intros _ i n Hn. lookups. by rewrite lookup_nil in Hn. }
  cbn [validate_nodes]. split.
  - intros H i n Hn. destruct (validate_node fs k x) as [[failure|]|] eqn:Hx; cbind_in H; try done.
    destruct (decide (i = 0)) as [->|Hi].
    + rewrite N.add_0_r. lookups. simpl in Hn. congruence.
    + replace (k + i) with (k + 1 + (i - 1)) by lia. apply IH; [done|].
      by rewrite <-(aget_tail (x :: l)) in Hn.
  - intros H. pose proof (H 0 x eq_refl) as Hx. rewrite N.add_0_r in Hx. rewrite Hx. cbind.
    apply IH. intros i n Hn. replace (k + 1 + i) with (k + (i + 1)) by lia. apply H.
    rewrite <-(aget_tail (x :: l)) by lia. simpl. by replace (i + 1 - 1) with i by lia.
Qed.

Lemma validate_open_files_ok fs l k :
  validate_open_files fs k l = Some None ↔
  ∀ i o, aget l i = Some o → validate_open_file fs (k + i) o = Some None.
Proof.
  revert k. induction l as [|x l IH]; intros k.
  { split; [|done]. intros _ i n Hn. lookups. by rewrite lookup_nil in Hn. }
  cbn [validate_open_files]. split.
  - intros H i n Hn.
    destruct (validate_open_file fs k x) as [[failure|]|] eqn:Hx; cbind_in H; try done.
    destruct (decide (i = 0)) as [->|Hi].
    + rewrite N.add_0_r. lookups. simpl in Hn. congruence.
    + replace (k + i) with (k + 1 + (i - 1)) by lia. apply IH; [done|].
      by rewrite <-(aget_tail (x :: l)) in Hn.
  - intros H. pose proof (H 0 x eq_refl) as Hx. rewrite N.add_0_r in Hx. rewrite Hx. cbind.
    apply IH. intros i n Hn. replace (k + 1 + i) with (k + (i + 1)) by lia. apply H.
    rewrite <-(aget_tail (x :: l)) by lia. simpl. by replace (i + 1 - 1) with i by lia.
Qed.

Lemma validate_open_file_ok fs i o :
  typed fs →
  (validate_open_file fs i o = Some None ↔ (of_used o ≠ 0 → file_wf fs o)).
Proof.
  intros Ht. unfold validate_open_file.
  destruct (N.eqb_spec (of_used o) 0) as [Hu|Hu]; [naive_solver|].
  unfold RUNTIME_FS_MAX_NODES, is_type, RUNTIME_FILE_TYPE_DIRECTORY, RUNTIME_FILE_TYPE_REGULAR.
  destruct (N.leb_spec 16 (of_node_index o)) as [Hlt|Hlt].
  { split; [done|]. intros Hw. destruct (Hw Hu) as [(n & Hn & _)].
    apply aget_Some_lt in Hn. rewrite (typed_nodes _ Ht) in Hn. lia. }
  destruct (aget_is_Some (nodes fs) (of_node_index o)) as [n Hn].
  { rewrite (typed_nodes _ Ht). lia. }
  rewrite Hn. cbind.
  assert (∀ P, ((of_used o ≠ 0 → file_wf fs o) ↔ P) ↔ (file_wf fs o ↔ P)) as Hstrip by tauto.
  symmetry. apply Hstrip. clear Hstrip.
  transitivity (n_used n ≠ 0 ∧ (n_type n = 1 → of_offset o ≤ RUNTIME_FS_FILE_CAPACITY) ∧
                (n_type n = 2 → has_flag (of_flags o) RUNTIME_FILE_OPEN_WRITE = false)).
  { split.
    - intros [(m & Hm & ?)]. simplify_eq. done.
    - intros ?. split. by exists n. }
  unfold RUNTIME_FS_FILE_CAPACITY.
  case_N; destruct (has_flag (of_flags o) RUNTIME_FILE_OPEN_WRITE); simpl; simplify_eq;
    naive_solver lia.
Qed.

(** A failing check reports a failing status. *)
Lemma validate_chain_failure fs index fuel cur depth c s :
  validate_chain fuel fs index cur depth = Some (Some (c, s)) → s ≠ RUNTIME_SYSCALL_STATUS_OK.
Proof.
  revert cur depth. induction fuel as [|fuel IH]; intros cur depth; [done|]. cbn [validate_chain].
  destruct (cur =? 0); [done|]. destruct (aget (nodes fs) cur) as [n|]; cbind; [|done].
  case_if; [naive_solver|]. destruct (aget _ _); cbind; [|done].
  case_if; [naive_solver|]. apply IH.
Qed.

Lemma validate_nodes_failure fs l k c s :
  validate_nodes fs k l = Some (Some (c, s)) → s ≠ RUNTIME_SYSCALL_STATUS_OK.
Proof.
  revert k. induction l as [|n l IH]; intros k; [done|]. cbn [validate_nodes].
  destruct (validate_node fs k n) as [[f|]|] eqn:Hv; cbind; [|apply IH|done].
  intros [= ->]. revert Hv. unfold validate_node.
  repeat (case_if; [naive_solver|]). destruct (aget _ _); cbind; [|done].
  repeat (case_if; [naive_solver|]).
  destruct (validate_chain _ _ _ _ _) as [[[? ?]|]|] eqn:Hc; cbind; [| |done].
  - intros [= -> ->]. by eapply validate_chain_failure.
  - case_if; naive_solver.
Qed.

Lemma validate_open_files_failure fs l k c s :
  validate_open_files fs k l = Some (Some (c, s)) → s ≠ RUNTIME_SYSCALL_STATUS_OK.
Proof.
  revert k. induction l as [|o l IH]; intros k; [done|]. cbn [validate_open_files].
  destruct (validate_open_file fs k o) as [[f|]|] eqn:Hv; cbind; [|apply IH|done].
  intros [= ->]. revert Hv. unfold validate_open_file.
  repeat (case_if; [naive_solver|]). destruct (aget _ _); cbind; [|done].
  repeat (case_if; [naive_solver|]). done.
Qed.

Lemma validate_ok_wf fs :
  typed fs → (runtime_fs_validate fs = Some (0xDFFF, RUNTIME_SYSCALL_STATUS_OK) ↔ wf fs).
Proof.
  intros Ht. unfold runtime_fs_validate.
  destruct (aget_is_Some (nodes fs) 0) as [r Hr]; [rewrite (typed_nodes _ Ht); lia|].
  rewrite Hr. cbind. destruct (root_is_valid r) eqn:Hroot; cbn [negb].
  2:{ split; [done|]. intros [(r' & Hr' & ?) _ _ _]. congruence. }
  assert (∃ r, aget (nodes fs) 0 = Some r ∧ n_used r ≠ 0) as Hr0.
  { exists r. split; [done|]. by apply root_is_valid_iff in Hroot as []. }
  assert (validate_nodes fs 1 (tail (nodes fs)) = Some None ↔
          ∀ i n, i ≠ 0 → aget (nodes fs) i = Some n → n_used n ≠ 0 →
                 node_wf fs i n ∧ no_duplicate fs i n) as Hnodes.
  { rewrite validate_nodes_ok. split.
    - intros H i n Hi Hn. apply (validate_node_ok fs i n Ht Hr0 Hn).
      replace i with (1 + (i - 1)) by lia. apply H. by rewrite aget_tail.
    - intros H i n Hn. replace i with (1 + i - 1) in Hn by lia. rewrite aget_tail in Hn by lia.
      apply validate_node_ok; [done..|]. intros Hu. by apply H; [lia|..]. }
  assert (validate_open_files fs 0 (open_files fs) = Some None ↔
          ∀ i o, aget (open_files fs) i = Some o → of_used o ≠ 0 → file_wf fs o) as Hfiles.
  { rewrite validate_open_files_ok. split.
    - intros H i o Ho. apply (validate_open_file_ok fs (0 + i) o Ht). by apply H.
    - intros H i o Ho. apply validate_open_file_ok; [done|]. by apply (H i). }
  transitivity (validate_nodes fs 1 (tail (nodes fs)) = Some None ∧
                validate_open_files fs 0 (open_files fs) = Some None).
  { destruct (validate_nodes _ _ _) as [[[? ?]|]|] eqn:Hv; cbind.
    - split; [|naive_solver]. intros [= -> ->]. by apply validate_nodes_failure in Hv.
    - destruct (validate_open_files _ _ _) as [[[? ?]|]|] eqn:Ho; cbind; [|naive_solver..].
      split; [|naive_solver]. intros [= -> ->]. by apply validate_open_files_failure in Ho.
    - naive_solver. }
  rewrite Hnodes, Hfiles. split.
  - intros [Hn Hf]. split; [by exists r|by apply Hn| |done].
    intros i j n m Hi Hj Hin Hjm Hun Hum Hp Hnm.
    destruct (N.lt_trichotomy i j) as [|[|]]; [|done|]; exfalso.
    + by apply (proj2 (Hn i n Hi Hin Hun) j m).
    + by apply (proj2 (Hn j m Hj Hjm Hum) i n).
  - intros [_ Hn Hd Hf]. split; [|done]. intros i n Hi Hin Hun. split; [by apply Hn|].
    intros j m Hij Hjm Hum Hp Hnm. assert (i = j) by (apply (Hd i j n m); done || lia). lia.
Qed.

(** C22: the validator decides the tree invariant: on tables of the declared
    sizes it returns [OK] exactly when every used node is a named file or
    directory below the root, siblings have distinct names and every open
    file refers to a used node within its bounds. *)
Theorem validate_decides_wf fs :
  typed fs → (runtime_fs_validate fs = Some (0xDFFF, RUNTIME_SYSCALL_STATUS_OK) ↔ wf fs).
Proof. apply validate_ok_wf. Qed.
