(* ===== verification/RuntimeFsPath.v ===== *)
(** * Path resolution of the file system against a declarative reading

    [components] splits a path at its slashes and [walk] follows names down
    the tree.  The tokenizer loops of [kernel/runtime_fs.c] are shown to
    compute them ([fs_resolve_path_spec], [fs_resolve_parent_path_spec]). *)

From S2P Require Import Prelude RuntimeFs.

Local Open Scope N_scope.

Abbreviation slash := "/"%char.

(** The non-empty components of a path, in order. *)
Fixpoint components (path : cstr) : list cstr :=
  match path with
  | [] => []
  | c :: path' =>
      if chr_eqb c slash then components path'
      else match path' with
           | [] => [[c]]
           | d :: _ => if chr_eqb d slash then [c] :: components path'
                       else match components path' with
                            | w :: ws => (c :: w) :: ws
                            | [] => [[c]]
                            end
           end
  end.

(** A component the name arrays can hold. *)
Definition short_name (w : cstr) : bool := N.of_nat (length w) <? RUNTIME_FS_NAME_CAPACITY.

Definition good_name (w : cstr) : Prop :=
  w ≠ [] ∧ short_name w = true ∧ (slash ∉ w).

Fixpoint walk (fs : runtime_fs) (current : N) (ws : list cstr) : option N :=
  match ws with
  | [] => Some current
  | w :: ws' => child ← fs_find_child fs current w; walk fs child ws'
  end.

(** The same walk that insists on directories. *)
Fixpoint walk_dirs (fs : runtime_fs) (current : N) (ws : list cstr) : option N :=
  match ws with
  | [] => Some current
  | w :: ws' =>
      child ← fs_find_child fs current w;
      node ← aget (nodes fs) child;
      if is_type RUNTIME_FILE_TYPE_DIRECTORY node then walk_dirs fs child ws' else None
  end.

Lemma walk_app fs current ws ws' :
  walk fs current (ws ++ ws') = (c ← walk fs current ws; walk fs c ws').
Proof.
  revert current. induction ws as [|w ws IH]; intros current; [done|]. simpl.
  destruct (fs_find_child fs current w); [apply IH|done].
Qed.

Lemma walk_dirs_walk fs current ws p : walk_dirs fs current ws = Some p → walk fs current ws = Some p.
Proof.
  revert current. induction ws as [|w ws IH]; intros current; [done|]. simpl.
  destruct (fs_find_child fs current w) as [child|]; [simpl|done].
  destruct (aget (nodes fs) child) as [node|]; [simpl|done].
  destruct (is_type _ node); [apply IH|done].
Qed.

(** ** The tokenizer *)

Definition ends_token (rest : cstr) : Prop := ∀ c rest', rest = c :: rest' → c = slash.

Lemma components_token w rest :
  w ≠ [] → slash ∉ w → ends_token rest → components (w ++ rest) = w :: components rest.
Proof.
  intros Hne Hno He. induction w as [|c w IH]; [done|]. clear Hne.
  apply not_elem_of_cons in Hno as [Hc Hno]. simpl. unfold chr_eqb at 1.
  rewrite bool_decide_false by congruence. destruct w as [|d w].
  - simpl. destruct rest as [|d rest]; [done|]. rewrite (He d rest eq_refl). done.
  - simpl app in *. apply not_elem_of_cons in Hno as Hd. unfold chr_eqb.
    rewrite bool_decide_false by (destruct Hd; congruence). rewrite IH; [done..|].
    done.
Qed.

Lemma components_skip path : components (skip_slashes path) = components path.
Proof.
  induction path as [|c path IH]; [done|]. cbn [skip_slashes components].
  destruct (chr_eqb c slash) eqn:Hc; [done|]. cbn [components]. by rewrite Hc.
Qed.

Lemma skip_slashes_length path : (length (skip_slashes path) ≤ length path)%nat.
Proof. induction path as [|c path IH]; simpl; [lia|]. destruct (chr_eqb c slash); simpl; lia. Qed.

Lemma skip_slashes_head path c rest : skip_slashes path = c :: rest → ¬ c = slash.
Proof.
  induction path as [|d path IH]; [done|]. simpl. destruct (chr_eqb d slash) eqn:Hd; [done|].
  intros [= -> ->]. unfold chr_eqb in Hd. by apply bool_decide_eq_false in Hd.
Qed.

Lemma token_chars_spec k scan :
  k < RUNTIME_FS_NAME_CAPACITY →
  match token_chars k scan with
  | TokenEnd => False
  | TokenTooLong => ∃ w rest, scan = w ++ rest ∧ (slash ∉ w) ∧ ends_token rest ∧
                      RUNTIME_FS_NAME_CAPACITY ≤ k + N.of_nat (length w)
  | Token w rest => scan = w ++ rest ∧ (slash ∉ w) ∧ ends_token rest ∧
                      k + N.of_nat (length w) < RUNTIME_FS_NAME_CAPACITY
  end.
Proof.
  revert k. induction scan as [|c scan IH]; intros k Hk; cbn [token_chars].
  { split_and!; [done|by apply not_elem_of_nil|by intros ?|simpl; lia]. }
  unfold chr_eqb. case_bool_decide as Hc.
  { split_and!; [done|by apply not_elem_of_nil|by intros ?? [= <- <-]|simpl; lia]. }
  destruct (N.leb_spec RUNTIME_FS_NAME_CAPACITY (k + 1)) as [Hcap|Hcap].
  - assert (∃ w rest, scan = w ++ rest ∧ (slash ∉ w) ∧ ends_token rest) as (w & rest & -> & Hw & Hr).
    { clear. induction scan as [|d scan (w & rest & -> & Hw & Hr)].
      - exists [], []. split_and!; [done|apply not_elem_of_nil|by intros ?].
      - destruct (decide (d = slash)) as [->|].
        + exists [], (slash :: w ++ rest). split_and!; [done|apply not_elem_of_nil|by intros ?? [= <- <-]].
        + exists (d :: w), rest. split_and!; [done|by apply not_elem_of_cons|done]. }
    exists (c :: w), rest. split_and!; [done|by apply not_elem_of_cons|done|simpl; lia].
  - specialize (IH (k + 1) Hcap). destruct (token_chars (k + 1) scan) as [| |w rest]; [done|..].
    + destruct IH as (w & rest & -> & Hw & Hr & Hlen). exists (c :: w), rest.
      split_and!; [done|by apply not_elem_of_cons|done|simpl; lia].
    + destruct IH as (-> & Hw & Hr & Hlen).
      split_and!; [done|by apply not_elem_of_cons|done|simpl; lia].
Qed.

Lemma fs_token_next_spec cursor :
  match fs_token_next cursor with
  | TokenEnd => components cursor = []
  | TokenTooLong => ∃ w ws, components cursor = w :: ws ∧ short_name w = false
  | Token w rest => components cursor = w :: components rest ∧ good_name w ∧
                      (length rest < length cursor)%nat
  end.
Proof.
  unfold fs_token_next. rewrite <-(components_skip cursor). pose proof (skip_slashes_length cursor) as Hl.
  destruct (skip_slashes cursor) as [|c scan] eqn:Hs; [done|].
  pose proof (skip_slashes_head _ _ _ Hs) as Hc.
  pose proof (token_chars_spec 0 (c :: scan) ltac:(done)) as Ht.
  assert (∀ w rest : cstr, c :: scan = w ++ rest → ends_token rest → w ≠ []) as Hne.
  { intros w rest Heq He ->. simpl in Heq. subst rest. by apply Hc, (He c scan). }
  destruct (token_chars 0 (c :: scan)) as [| |w rest]; [done|..].
  - destruct Ht as (w & rest & Heq & Hw & Hr & Hlen). rewrite Heq. exists w, (components rest).
    rewrite components_token; [|by eapply Hne|done|done]. split; [done|].
    unfold short_name. apply N.ltb_ge. lia.
  - destruct Ht as (Heq & Hw & Hr & Hlen). pose proof (Hne w rest Heq Hr) as Hwne.
    rewrite Heq. rewrite components_token by done. split_and!; [done| |].
    + split_and!; [done| |done]. unfold short_name. apply N.ltb_lt. lia.
    + rewrite Heq, length_app in Hl. destruct w; [done|]. simpl in Hl. lia.
Qed.

(** ** Resolution *)

Lemma resolve_loop_spec fs fuel current cursor :
  (length cursor < fuel)%nat →
  resolve_loop fuel fs current cursor =
    if forallb short_name (components cursor) then walk fs current (components cursor) else None.
Proof.
  revert current cursor. induction fuel as [|fuel IH]; intros current cursor Hf; [lia|].
  cbn [resolve_loop]. pose proof (fs_token_next_spec cursor) as Ht.
  destruct (fs_token_next cursor) as [| |w rest].
  - by rewrite Ht.
  - destruct Ht as (w & ws & -> & Hw). simpl. by rewrite Hw.
  - destruct Ht as (-> & (_ & Hw & _) & Hl). simpl. rewrite Hw. simpl.
    destruct (fs_find_child fs current w) as [child|]; cbind; [|by destruct (forallb _ _)].
    apply IH. lia.
Qed.

(** The path resolver follows the components of an absolute path from the
    root; a component of sixteen characters or more resolves to nothing. *)
Lemma fs_resolve_path_spec fs path :
  fs_resolve_path fs path =
    if starts_with_slash path && forallb short_name (components path)
    then walk fs 0 (components path) else None.
Proof.
  unfold fs_resolve_path. destruct (starts_with_slash path) eqn:Hs; cbn [negb andb]; [|done].
  destruct (fs_path_is_root path) eqn:Hr.
  - apply cstr_equals_eq in Hr as ->. done.
  - apply resolve_loop_spec. lia.
Qed.

Lemma copy_name_from_short k w :
  k + N.of_nat (length w) < RUNTIME_FS_NAME_CAPACITY → copy_name_from k w = w.
Proof.
  revert k. induction w as [|c w IH]; intros k Hk; [done|]. cbn [copy_name_from].
  simpl in Hk. destruct (N.ltb_spec (k + 1) RUNTIME_FS_NAME_CAPACITY); [|lia].
  f_equal. apply IH. lia.
Qed.

Lemma copy_name_short w : short_name w = true → copy_name w = w.
Proof. intros H. unfold short_name in H. bools. by apply copy_name_from_short. Qed.

Lemma fs_find_child_Some fs p w i :
  fs_find_child fs p w = Some i →
  ∃ n, aget (nodes fs) i = Some n ∧ n_used n ≠ 0 ∧ n_parent_index n = p ∧ n_name n = w.
Proof.
  unfold fs_find_child, name_equals. intros (n & Hn & Hf & _)%find_idx_Some. bools. by exists n.
Qed.

Lemma fs_find_child_None fs p w :
  fs_find_child fs p w = None ↔
  ∀ i n, aget (nodes fs) i = Some n → n_used n ≠ 0 → n_parent_index n = p → n_name n = w → False.
Proof.
  unfold fs_find_child, name_equals. rewrite find_idx_None. split.
  - intros H i n Hn Hu <- <-. specialize (H i n Hn).
    rewrite N.eqb_refl, cstr_equals_refl in H. apply nz_true in Hu. by rewrite Hu in H.
  - intros H i n Hn. apply not_true_is_false. intros ?. bools. by eapply H.
Qed.

Lemma parent_loop_spec fs fuel current token cursor :
  (length cursor < fuel)%nat → good_name token →
  ∃ r, parent_loop fuel fs current token cursor = Some r ∧
  ∀ p leaf, r = inr (p, leaf) ↔
    ∃ init, token :: components cursor = init ++ [leaf] ∧
            forallb short_name (components cursor) = true ∧
            walk_dirs fs current init = Some p.
Proof.
  revert current token cursor.
  induction fuel as [|fuel IH]; intros current token cursor Hf Htok; [lia|].
  cbn [parent_loop]. pose proof (fs_token_next_spec cursor) as Ht.
  destruct (fs_token_next cursor) as [| |w rest].
  - rewrite Ht. eexists. split; [done|]. intros p leaf.
    rewrite copy_name_short by apply Htok. split.
    + intros [= <- <-]. by exists [].
    + intros (init & Heq & _ & Hw). destruct init as [|? [|??]]; simpl in *; simplify_eq. done.
  - destruct Ht as (w & ws & -> & Hw). eexists. split; [done|]. intros p leaf.
    split; [done|]. intros (init & _ & Hs & _). simpl in Hs. by rewrite Hw in Hs.
  - destruct Ht as (-> & Hw & Hl).
    destruct (fs_find_child fs current token) as [child|] eqn:Hc.
    2:{ eexists. split; [done|]. intros p leaf. split; [done|]. intros (init & Heq & _ & Hd).
        destruct init as [|? init]; simplify_eq/=. by rewrite Hc in Hd. }
    destruct (fs_find_child_Some _ _ _ _ Hc) as (n & Hn & _). rewrite Hn. cbind.
    destruct (is_type RUNTIME_FILE_TYPE_DIRECTORY n) eqn:Hd; cbn [negb].
    2:{ eexists. split; [done|]. intros p leaf. split; [done|]. intros (init & Heq & _ & Hdd).
        destruct init as [|? init]; simplify_eq/=. rewrite Hc in Hdd. simpl in Hdd.
        rewrite Hn in Hdd. simpl in Hdd. by rewrite Hd in Hdd. }
    rewrite copy_name_short by apply Hw.
    destruct (IH child w rest ltac:(lia) Hw) as (r & -> & Hr). exists r. split; [done|].
    intros p leaf. rewrite Hr. assert (short_name w = true) as Hws by apply Hw. split.
    + intros (init & Heq & Hs & Hdd). exists (token :: init). split_and!.
      * by rewrite Heq.
      * simpl. by rewrite Hws.
      * simpl. rewrite Hc. simpl. rewrite Hn. simpl. by rewrite Hd.
    + intros (init & Heq & Hs & Hdd). destruct init as [|? init]; simplify_eq/=.
      exists init. rewrite Hc in Hdd. simpl in Hdd. rewrite Hn in Hdd. simpl in Hdd.
      rewrite Hd in Hdd. simpl in Hs. rewrite Hws in Hs. done.
Qed.

Lemma components_good path w :
  forallb short_name (components path) = true → w ∈ components path → good_name w.
Proof.
  remember (length path) as n eqn:Hn. revert path Hn.
  induction n as [n IH] using lt_wf_ind. intros path -> Hs Hw.
  pose proof (fs_token_next_spec path) as Ht. destruct (fs_token_next path) as [| |t rest].
  - rewrite Ht in Hw. by apply not_elem_of_nil in Hw.
  - destruct Ht as (v & vs & Heq & Hv). rewrite Heq in Hs. simpl in Hs. by rewrite Hv in Hs.
  - destruct Ht as (Heq & Hg & Hl). rewrite Heq in Hs, Hw. simpl in Hs.
    apply andb_true_iff in Hs as [_ Hs]. apply elem_of_cons in Hw as [->|Hw]; [done|].
    by apply (IH (length rest) ltac:(done) rest).
Qed.

(** The parent resolver always returns; it succeeds with the directory that
    the components but the last lead to and the last component, exactly. *)
Lemma fs_resolve_parent_path_spec fs path :
  ∃ r, fs_resolve_parent_path fs path = Some r ∧
  ∀ p leaf, r = inr (p, leaf) ↔
    starts_with_slash path = true ∧
    ∃ init, components path = init ++ [leaf] ∧ forallb short_name (components path) = true ∧
            walk_dirs fs 0 init = Some p.
Proof.
  unfold fs_resolve_parent_path.
  assert (fs_path_is_absolute_non_root (Some path) = false →
          starts_with_slash path = true → components path = []) as Habs.
  { destruct path as [|c [|d path]]; [done| |]; simpl; [|congruence]. intros _ ->. done. }
  destruct (fs_path_is_absolute_non_root (Some path)) eqn:Ha; cbn [negb].
  2:{ eexists. split; [done|]. intros p leaf. split; [done|]. intros (Hs & init & Heq & _).
      rewrite Habs in Heq by done. by destruct init. }
  assert (starts_with_slash path = true) as Hs by (destruct path as [|? [|??]]; done).
  pose proof (fs_token_next_spec path) as Ht. destruct (fs_token_next path) as [| |t rest].
  - eexists. split; [done|]. intros p leaf. split; [done|]. intros (_ & init & Heq & _).
    rewrite Ht in Heq. by destruct init.
  - destruct Ht as (w & ws & Heq & Hw). eexists. split; [done|]. intros p leaf. split; [done|].
    intros (_ & init & _ & Hf & _). rewrite Heq in Hf. simpl in Hf. by rewrite Hw in Hf.
  - destruct Ht as (Heq & Hg & Hl).
    destruct (parent_loop_spec fs (S (length rest)) 0 t rest ltac:(lia) Hg) as (r & -> & Hr).
    exists r. split; [done|]. intros p leaf. rewrite Hr, Heq.
    assert (short_name t = true) as Hts by apply Hg. simpl. rewrite Hts. simpl. naive_solver.
Qed.

(** What a successful parent resolution gives. *)
Lemma parent_path_inr fs path p leaf :
  fs_resolve_parent_path fs path = Some (inr (p, leaf)) →
  ∃ init, starts_with_slash path = true ∧ components path = init ++ [leaf] ∧
    forallb short_name (components path) = true ∧ walk_dirs fs 0 init = Some p ∧ good_name leaf.
Proof.
  intros H. destruct (fs_resolve_parent_path_spec fs path) as (r & Hr & Hspec).
  assert (r = inr (p, leaf)) as Hinr by congruence.
  apply Hspec in Hinr as (Hs & init & Heq & Hf & Hw).
  exists init. split_and!; try done. apply (components_good path); [done|].
  rewrite Heq. apply elem_of_app. right. by apply list_elem_of_singleton.
Qed.

(** A path that resolves to nothing while its parent resolves names no child. *)
Lemma parent_path_no_child fs path p leaf :
  fs_resolve_path fs path = None → fs_resolve_parent_path fs path = Some (inr (p, leaf)) →
  fs_find_child fs p leaf = None.
Proof.
  intros Hnone (init & Hs & Heq & Hf & Hw & _)%parent_path_inr.
  rewrite fs_resolve_path_spec, Hs, Hf, Heq in Hnone.
  cbn [andb] in Hnone. rewrite walk_app, (walk_dirs_walk _ _ _ _ Hw) in Hnone. simpl in Hnone.
  by destruct (fs_find_child fs p leaf).
Qed.
