(* ===== verification/RuntimeFsSteps.v ===== *)
(** * How the file-system state changes, and what the invariant survives

    Every operation of [kernel/runtime_fs.c] changes the tables in one of
    five ways: an open-file entry, the contents of a node, a new node, a
    cleared node, a moved node.  One lemma per way shows that [typed] and
    [wf] are preserved. *)

From S2P Require Import Prelude RuntimeFs RuntimeFsInv RuntimeFsPath.

Local Open Scope N_scope.

(** ** Lookups after an update *)

Lemma aget_upd_node fs i f j :
  aget (nodes (upd_node i f fs)) j =
    if decide (i = j) then f <$> aget (nodes fs) j else aget (nodes fs) j.
Proof. unfold upd_node, set_nodes. apply aget_aupd. Qed.

Lemma aget_upd_node_eq fs i f n :
  aget (nodes fs) i = Some n → aget (nodes (upd_node i f fs)) i = Some (f n).
Proof. intros Hn. rewrite aget_upd_node, decide_True, Hn by done. done. Qed.

Lemma aget_upd_node_ne fs i f j :
  i ≠ j → aget (nodes (upd_node i f fs)) j = aget (nodes fs) j.
Proof. intros Hij. by rewrite aget_upd_node, decide_False. Qed.

Lemma aget_upd_file fs i f j :
  aget (open_files (upd_file i f fs)) j =
    if decide (i = j) then f <$> aget (open_files fs) j else aget (open_files fs) j.
Proof. unfold upd_file, set_open_files. apply aget_aupd. Qed.

Lemma upd_node_compose fs i f g : upd_node i g (upd_node i f fs) = upd_node i (g ∘ f) fs.
Proof. unfold upd_node, set_nodes, aupd. simpl. by rewrite list_alter_alter_eq. Qed.

Lemma upd_file_compose fs i f g : upd_file i g (upd_file i f fs) = upd_file i (g ∘ f) fs.
Proof. unfold upd_file, set_open_files, aupd. simpl. by rewrite list_alter_alter_eq. Qed.

(** ** Open files *)

Lemma typed_upd_file fs i f : typed fs → typed (upd_file i f fs).
Proof.
  intros [Hn Hf Hd]. split; [done| |done]. unfold upd_file. simpl. by rewrite length_aupd.
Qed.

Lemma reach_upd_file fs i f k j : reach (upd_file i f fs) k j ↔ reach fs k j.
Proof. split; apply reach_ext; simpl; eauto. Qed.

Lemma node_wf_upd_file fs i f j n : node_wf fs j n → node_wf (upd_file i f fs) j n.
Proof. intros [? ? ? ? [k ?]]. split; try done. exists k. by apply reach_upd_file. Qed.

Lemma file_wf_nodes fs fs' o : nodes fs' = nodes fs → file_wf fs o → file_wf fs' o.
Proof. intros He [(n & ?)]. split. exists n. by rewrite He. Qed.

Lemma wf_upd_file fs i f :
  wf fs → (∀ o, aget (open_files fs) i = Some o → of_used (f o) ≠ 0 → file_wf fs (f o)) →
  wf (upd_file i f fs).
Proof.
  intros [Hr Hn Hu Hf] Hnew. split; [done| |done|].
  - intros j n Hj Hjn Hun. apply node_wf_upd_file. by apply Hn.
  - intros j o Ho Huo. apply (file_wf_nodes fs); [done|]. rewrite aget_upd_file in Ho.
    case_decide as Hij; [subst|by eapply Hf]. apply fmap_Some in Ho as (o' & Ho' & ->). by apply Hnew.
Qed.

(** ** Contents of a node *)

(** Everything but the contents and the size. *)
Definition same_shape (n n' : runtime_fs_node) : Prop :=
  n_used n' = n_used n ∧ n_type n' = n_type n ∧ n_parent_index n' = n_parent_index n ∧
  n_name n' = n_name n.

#[export] Instance same_shape_refl : Reflexive same_shape.
Proof. by intros n. Qed.

Lemma typed_upd_node fs i f :
  typed fs → (∀ n, aget (nodes fs) i = Some n → length (n_data n) = 256%nat →
                   length (n_data (f n)) = 256%nat) → typed (upd_node i f fs).
Proof.
  intros [Hn Hf Hd] Hnew. split; [by unfold upd_node; simpl; rewrite length_aupd|done|].
  intros j n. rewrite aget_upd_node. case_decide as Hij; [subst|by apply Hd].
  intros (n' & Hn' & ->)%fmap_Some. eauto.
Qed.

Lemma node_upd_shape fs i f j n :
  (∀ n, same_shape n (f n)) → aget (nodes (upd_node i f fs)) j = Some n →
  ∃ n0, aget (nodes fs) j = Some n0 ∧ same_shape n0 n.
Proof.
  intros Hs. rewrite aget_upd_node. case_decide; [|intros; by exists n].
  intros (n' & Hn' & ->)%fmap_Some. eauto.
Qed.

Lemma node_shape_upd fs i f j n0 :
  (∀ n, same_shape n (f n)) → aget (nodes fs) j = Some n0 →
  ∃ n, aget (nodes (upd_node i f fs)) j = Some n ∧ same_shape n0 n.
Proof.
  intros Hs Hn. rewrite aget_upd_node, Hn. case_decide; csimpl; [by exists (f n0)|by exists n0].
Qed.

Lemma is_dir_upd_shape fs i f p :
  (∀ n, same_shape n (f n)) → is_dir fs p → is_dir (upd_node i f fs) p.
Proof.
  intros Hs (n & Hn & Hu & Ht). destruct (node_shape_upd fs i f p n Hs Hn) as (n' & Hn' & S).
  destruct S as (Hu' & Ht' & _). exists n'. by rewrite Hu', Ht'.
Qed.

Lemma wf_upd_contents fs i f :
  (∀ n, same_shape n (f n)) →
  (∀ n, aget (nodes fs) i = Some n → n_size_bytes n ≤ RUNTIME_FS_FILE_CAPACITY →
        n_size_bytes (f n) ≤ RUNTIME_FS_FILE_CAPACITY) →
  wf fs → wf (upd_node i f fs).
Proof.
  intros Hs Hsize [Hr Hn Hu Hf]. split.
  - destruct Hr as (r & Hr & Hv). destruct (node_shape_upd fs i f 0 r Hs Hr) as (r' & Hr' & S).
    exists r'. split; [done|]. apply root_is_valid_iff in Hv. apply root_is_valid_iff.
    destruct S as (-> & -> & -> & ->). done.
  - intros j n Hj Hjn Hun. destruct (node_upd_shape fs i f j n Hs Hjn) as (n0 & Hn0 & S).
    destruct S as (Eu & Et & Ep & En). rewrite Eu in Hun.
    destruct (Hn j n0 Hj Hn0 Hun) as [? ? ? Hsz [k Hk]]. split.
    + by rewrite Et.
    + by rewrite En.
    + rewrite Ep. by apply is_dir_upd_shape.
    + rewrite aget_upd_node, Hn0 in Hjn. case_decide; simplify_eq/=; eauto.
    + exists k. eapply reach_ext, Hk. intros l m Hm Hum.
      destruct (node_shape_upd fs i f l m Hs Hm) as (m' & Hm' & E1 & E2 & E3 & E4).
      exists m'. by rewrite E1.
  - intros a b n m Ha Hb Han Hbm Hun Hum Hp Hname.
    destruct (node_upd_shape fs i f a n Hs Han) as (n0 & Hn0 & E1 & E2 & E3 & E4).
    destruct (node_upd_shape fs i f b m Hs Hbm) as (m0 & Hm0 & F1 & F2 & F3 & F4).
    apply (Hu a b n0 m0); congruence.
  - intros j o Ho Huo. destruct (Hf j o Ho Huo) as [(n & Hn' & ?)].
    destruct (node_shape_upd fs i f _ n Hs Hn') as (n' & Hn0 & E1 & E2 & E3 & E4).
    split. exists n'. by rewrite E1, E2.
Qed.

(** ** The tree *)

Lemma wf_root_used fs : wf fs → ∃ r, aget (nodes fs) 0 = Some r ∧ n_used r ≠ 0.
Proof. intros [(r & Hr & Hv) _ _ _]. exists r. by apply root_is_valid_iff in Hv as []. Qed.

Lemma wf_root_dir fs : wf fs → is_dir fs 0.
Proof. intros [(r & Hr & Hv) _ _ _]. exists r. apply root_is_valid_iff in Hv. naive_solver. Qed.

Lemma used_reach fs i n :
  wf fs → aget (nodes fs) i = Some n → n_used n ≠ 0 → ∃ k, reach fs k i.
Proof.
  intros Hwf Hn Hu. destruct (decide (i = 0)) as [->|Hi]; [exists 0%nat; constructor|].
  by destruct (wf_node _ Hwf i n Hi Hn Hu).
Qed.

Lemma is_dir_reach fs p : wf fs → is_dir fs p → ∃ k, reach fs k p.
Proof. intros Hwf (n & Hn & Hu & _). by eapply used_reach. Qed.

Lemma used_parent_dir fs i n :
  wf fs → aget (nodes fs) i = Some n → n_used n ≠ 0 → is_dir fs (n_parent_index n).
Proof.
  intros Hwf Hn Hu. destruct (decide (i = 0)) as [->|Hi].
  - destruct (wf_root _ Hwf) as (r & Hr & Hv). apply root_is_valid_iff in Hv as (? & ? & Hp & _).
    simplify_eq. rewrite Hp. by apply wf_root_dir.
  - by destruct (wf_node _ Hwf i n Hi Hn Hu).
Qed.

Lemma used_type fs i n :
  wf fs → aget (nodes fs) i = Some n → n_used n ≠ 0 →
  n_type n = RUNTIME_FILE_TYPE_DIRECTORY ∨ n_type n = RUNTIME_FILE_TYPE_REGULAR.
Proof.
  intros Hwf Hn Hu. destruct (decide (i = 0)) as [->|Hi].
  - destruct (wf_root _ Hwf) as (r & Hr & Hv). apply root_is_valid_iff in Hv as (? & ? & _).
    simplify_eq. by left.
  - by destruct (wf_node _ Hwf i n Hi Hn Hu).
Qed.

(** A node that is not its own ancestor. *)
Lemma used_parent_ne fs i n :
  wf fs → i ≠ 0 → aget (nodes fs) i = Some n → n_used n ≠ 0 → n_parent_index n ≠ i.
Proof.
  intros Hwf Hi Hn Hu Hp. destruct (wf_node _ Hwf i n Hi Hn Hu) as [_ _ _ _ [k Hk]].
  destruct (reach_inv _ _ _ _ Hi Hn Hk) as (k' & -> & Hk' & _). rewrite Hp in Hk'.
  pose proof (reach_det _ _ _ _ Hk Hk'). lia.
Qed.

(** ** A new node *)

Lemma reach_upd_unused fs i f k j n :
  aget (nodes fs) i = Some n → n_used n = 0 → reach fs k j → reach (upd_node i f fs) k j.
Proof.
  intros Hn Hu. apply reach_ext. intros l m Hm Hum. exists m. split; [|done].
  rewrite aget_upd_node_ne; [done|]. intros <-. congruence.
Qed.

Lemma is_dir_upd_unused fs i f p n :
  aget (nodes fs) i = Some n → n_used n = 0 → is_dir fs p → is_dir (upd_node i f fs) p.
Proof.
  intros Hn Hu (m & Hm & Hum & Ht). exists m. rewrite aget_upd_node_ne; [done|].
  intros <-. congruence.
Qed.

Lemma wf_create fs i n n' :
  wf fs → i ≠ 0 → aget (nodes fs) i = Some n → n_used n = 0 →
  n_used n' ≠ 0 → (n_type n' = RUNTIME_FILE_TYPE_DIRECTORY ∨ n_type n' = RUNTIME_FILE_TYPE_REGULAR) →
  n_name n' ≠ [] → is_dir fs (n_parent_index n') → n_size_bytes n' ≤ RUNTIME_FS_FILE_CAPACITY →
  fs_find_child fs (n_parent_index n') (n_name n') = None →
  wf (upd_node i (λ _, n') fs).
Proof.
  intros Hwf Hi Hn Hfree Hu' Ht' Hname' Hp' Hsz' Hnone.
  assert (∀ j m, aget (nodes (upd_node i (λ _, n') fs)) j = Some m →
            (j = i ∧ m = n') ∨ (j ≠ i ∧ aget (nodes fs) j = Some m)) as Hget.
  { intros j m. destruct (decide (i = j)) as [<-|].
    - rewrite (aget_upd_node_eq _ _ _ _ Hn). intros [= <-]. by left.
    - rewrite aget_upd_node_ne by done. auto. }
  split.
  - destruct (wf_root _ Hwf) as (r & ? & ?). exists r. by rewrite aget_upd_node_ne.
  - intros j m Hj Hjm Hum. destruct (Hget j m Hjm) as [[-> ->]|[Hji Hm]].
    + split; try done; [by eapply is_dir_upd_unused|].
      destruct (is_dir_reach _ _ Hwf Hp') as [k Hk]. exists (S k). econstructor; [done..|].
      by eapply reach_upd_unused.
    + destruct (wf_node _ Hwf j m Hj Hm Hum) as [? ? Hpd ? [k Hk]].
      split; try done; [by eapply is_dir_upd_unused|]. exists k. by eapply reach_upd_unused.
  - rewrite fs_find_child_None in Hnone.
    intros a b x y Ha Hb Hax Hby Hux Huy Hp Hname.
    destruct (Hget a x Hax) as [[-> ->]|[? Hx]], (Hget b y Hby) as [[-> ->]|[? Hy]].
    + done.
    + exfalso. by apply (Hnone b y).
    + exfalso. by apply (Hnone a x).
    + by apply (wf_unique _ Hwf a b x y).
  - intros j o Ho Huo. destruct (wf_files _ Hwf j o Ho Huo) as [(m & Hm & Hum & ?)].
    split. exists m. rewrite aget_upd_node_ne; [done|]. intros Heq. congruence.
Qed.

(** ** A cleared node *)

Lemma no_children fs i :
  fs_node_has_children fs i = false ↔
  ∀ j m, aget (nodes fs) j = Some m → n_used m ≠ 0 → n_parent_index m = i → j = i.
Proof.
  unfold fs_node_has_children. rewrite exists_idx_false. split.
  - intros H j m Hm Hu Hp. specialize (H j m Hm). apply nz_true in Hu. rewrite Hu in H.
    apply N.eqb_eq in Hp. rewrite Hp in H. simpl in H. by bools.
  - intros H j m Hm. apply not_true_is_false. intros ?. bools. naive_solver.
Qed.

Lemma not_open fs i :
  fs_node_is_open fs i = false ↔
  ∀ j o, aget (open_files fs) j = Some o → of_used o ≠ 0 → of_node_index o ≠ i.
Proof.
  unfold fs_node_is_open. rewrite exists_idx_false. split.
  - intros H j o Ho Hu Hp. specialize (H j o Ho). apply nz_true in Hu. rewrite Hu in H.
    simpl in H. by bools.
  - intros H j m Hm. apply not_true_is_false. intros ?. bools. by eapply H.
Qed.

(** A regular file is nobody's parent. *)
Lemma regular_no_children fs i n :
  wf fs → aget (nodes fs) i = Some n → n_type n ≠ RUNTIME_FILE_TYPE_DIRECTORY →
  fs_node_has_children fs i = false.
Proof.
  intros Hwf Hn Ht. apply no_children. intros j m Hm Hu Hp.
  destruct (used_parent_dir _ _ _ Hwf Hm Hu) as (d & Hd & _ & Hdt). congruence.
Qed.

Lemma reach_upd_leaf fs i f k j :
  fs_node_has_children fs i = false → reach fs k j → j ≠ i → reach (upd_node i f fs) k j.
Proof.
  rewrite no_children. intros Hleaf H.
  induction H as [|k j m Hj Hm Hu Hr IH]; intros Hji; [constructor|].
  econstructor; [done|by rewrite aget_upd_node_ne|done|]. apply IH. intros Hp.
  apply Hji. by eapply Hleaf.
Qed.

Lemma wf_clear fs i n :
  wf fs → i ≠ 0 → aget (nodes fs) i = Some n → fs_node_has_children fs i = false →
  fs_node_is_open fs i = false → wf (upd_node i fs_clear_node fs).
Proof.
  intros Hwf Hi Hn Hleaf Hopen.
  assert (∀ j m, aget (nodes (upd_node i fs_clear_node fs)) j = Some m → n_used m ≠ 0 →
            j ≠ i ∧ aget (nodes fs) j = Some m) as Hget.
  { intros j m. destruct (decide (i = j)) as [<-|].
    - rewrite (aget_upd_node_eq _ _ _ _ Hn). by intros [= <-].
    - rewrite aget_upd_node_ne by done. auto. }
  split.
  - destruct (wf_root _ Hwf) as (r & ? & ?). exists r. by rewrite aget_upd_node_ne.
  - intros j m Hj Hjm Hum. destruct (Hget j m Hjm Hum) as [Hji Hm].
    destruct (wf_node _ Hwf j m Hj Hm Hum) as [? ? Hpd ? [k Hk]]. split; try done.
    + destruct Hpd as (d & Hd & ? & ?). exists d. rewrite aget_upd_node_ne; [done|].
      intros Hp. apply Hji. by apply (proj1 (no_children fs i) Hleaf j m).
    + exists k. by apply reach_upd_leaf.
  - intros a b x y Ha Hb Hax Hby Hux Huy.
    destruct (Hget a x Hax Hux) as [? Hx], (Hget b y Hby Huy) as [? Hy].
    by apply (wf_unique _ Hwf a b x y).
  - intros j o Ho Huo. destruct (wf_files _ Hwf j o Ho Huo) as [(m & Hm & Hum & ?)].
    split. exists m. rewrite aget_upd_node_ne; [done|]. intros Heq.
    by apply (proj1 (not_open fs i) Hopen j o).
Qed.

(** ** A moved node *)

Lemma parent_chain_walk_total fs k p i fuel :
  reach fs k p → (k < fuel)%nat → is_Some (parent_chain_walk fuel fs p i).
Proof.
  intros H. revert fuel. induction H as [|k p n Hp Hn Hu Hr IH]; intros [|fuel] Hf; [lia|done|lia|].
  simpl. case_if; [by bools|]. case_if; [done|]. rewrite Hn. simpl. apply IH. lia.
Qed.

Lemma reach_upd_chain fs i f fuel p k :
  parent_chain_walk fuel fs p i = Some false → reach fs k p → reach (upd_node i f fs) k p.
Proof.
  revert p k. induction fuel as [|fuel IH]; intros p k; [done|]. simpl.
  destruct (N.eqb_spec p 0) as [->|Hp].
  { intros _ H. inversion H; subst; [constructor|done]. }
  destruct (N.eqb_spec p i) as [|Hpi]; [done|]. intros Hw Hk.
  inversion Hk as [|k' ? n ? Hn Hu Hr]; subst; [done|]. rewrite Hn in Hw. simpl in Hw.
  econstructor; [done|by rewrite aget_upd_node_ne|done|]. by apply IH.
Qed.

Lemma wf_move fs i n p w :
  wf fs → i ≠ 0 → aget (nodes fs) i = Some n → n_used n ≠ 0 →
  is_dir fs p → p ≠ i → w ≠ [] → fs_find_child fs p w = None →
  (∃ k, reach (upd_node i (set_parent_name p w) fs) k p) →
  wf (upd_node i (set_parent_name p w) fs).
Proof.
  intros Hwf Hi Hn Hun Hp Hpi Hw Hnone [kp Hkp]. set (f := set_parent_name p w) in *.
  assert (n_used (f n) = n_used n ∧ n_type (f n) = n_type n ∧ n_size_bytes (f n) = n_size_bytes n ∧
          n_parent_index (f n) = p ∧ n_name (f n) = w) as (Eu & Et & Es & Ep & En) by (by destruct n).
  assert (∀ j m, aget (nodes (upd_node i f fs)) j = Some m →
            (j = i ∧ m = f n) ∨ (j ≠ i ∧ aget (nodes fs) j = Some m)) as Hget.
  { intros j m. destruct (decide (i = j)) as [<-|].
    - rewrite (aget_upd_node_eq _ _ _ _ Hn). intros [= <-]. by left.
    - rewrite aget_upd_node_ne by done. auto. }
  assert (∀ q, is_dir fs q → is_dir (upd_node i f fs) q) as Hdir.
  { intros q (d & Hd & ? & ?). destruct (decide (i = q)) as [<-|].
    - simplify_eq. exists (f n). rewrite Eu, Et. by rewrite (aget_upd_node_eq _ _ _ _ Hn).
    - exists d. by rewrite aget_upd_node_ne. }
  assert (reach (upd_node i f fs) (S kp) i) as Hreach_i.
  { eapply reach_step; [done|by apply aget_upd_node_eq|by rewrite Eu|by rewrite Ep]. }
  assert (∀ k j, reach fs k j → ∃ k', reach (upd_node i f fs) k' j) as Hreach.
  { intros k j H. induction H as [|k j m Hj Hm Hum Hr [k' IH]]; [exists 0%nat; constructor|].
    destruct (decide (i = j)) as [<-|]; [by exists (S kp)|]. exists (S k').
    econstructor; [done|by rewrite aget_upd_node_ne|done..]. }
  split.
  - destruct (wf_root _ Hwf) as (r & ? & ?). exists r. by rewrite aget_upd_node_ne.
  - intros j m Hj Hjm Hum. destruct (Hget j m Hjm) as [[-> ->]|[Hji Hm]].
    + destruct (wf_node _ Hwf i n Hi Hn Hun) as [? ? ? ? _].
      split; [by rewrite Et|by rewrite En|rewrite Ep; by apply Hdir|by rewrite Es|by exists (S kp)].
    + destruct (wf_node _ Hwf j m Hj Hm Hum) as [? ? Hpd ? [k Hk]].
      split; try done; [by apply Hdir|by eapply Hreach].
  - rewrite fs_find_child_None in Hnone.
    intros a b x y Ha Hb Hax Hby Hux Huy Hpp Hname.
    destruct (Hget a x Hax) as [[-> ->]|[? Hx]], (Hget b y Hby) as [[-> ->]|[? Hy]].
    + done.
    + exfalso. by apply (Hnone b y); congruence.
    + exfalso. by apply (Hnone a x); congruence.
    + by apply (wf_unique _ Hwf a b x y).
  - intros j o Ho Huo. destruct (wf_files _ Hwf j o Ho Huo) as [(m & Hm & Hum & ?)].
    split. destruct (decide (i = of_node_index o)) as [Heq|].
    + exists (f n). rewrite <-Heq, (aget_upd_node_eq _ _ _ _ Hn), Eu, Et.
      rewrite Heq in Hn. by simplify_eq.
    + exists m. by rewrite aget_upd_node_ne.
Qed.
