(* ===== verification/RuntimeFsSafety.v ===== *)
(** * Safety of the file system

    The operations of [kernel/runtime_fs.c] as a labelled step function and
    the invariant [inv] that every safe operation preserves: the tree that
    [runtime_fs_validate] checks, names the name arrays hold, and at most one
    writer per node.  A safe operation always has a defined result. *)

From S2P Require Import Prelude RuntimeFs RuntimeFsInv RuntimeFsPath RuntimeFsSteps.

Local Open Scope N_scope.

(** ** The invariant *)

Definition writes_to (o : runtime_fs_open_file) (node_index : N) : Prop :=
  of_used o ≠ 0 ∧ of_node_index o = node_index ∧ has_flag (of_flags o) RUNTIME_FILE_OPEN_WRITE = true.

Definition single_writer (fs : runtime_fs) : Prop :=
  ∀ i j o o' k, aget (open_files fs) i = Some o → aget (open_files fs) j = Some o' →
    writes_to o k → writes_to o' k → i = j.

Record inv (fs : runtime_fs) : Prop := {
  inv_typed : typed fs;
  inv_wf : wf fs;
  inv_names : ∀ i n, i ≠ 0 → aget (nodes fs) i = Some n → n_used n ≠ 0 → good_name (n_name n);
  inv_writer : single_writer fs
}.

Lemma no_writer fs k :
  fs_node_has_open_writer fs k = false ↔
  ∀ j o, aget (open_files fs) j = Some o → ¬ writes_to o k.
Proof.
  unfold fs_node_has_open_writer, writes_to. rewrite exists_idx_false. split.
  - intros H j o Ho (Hu & Hn & Hw). specialize (H j o Ho). apply nz_true in Hu.
    rewrite Hu, Hw, Hn, N.eqb_refl in H. done.
  - intros H j o Ho. apply not_true_is_false. intros ?. bools. naive_solver.
Qed.

Lemma inv_upd_file fs i f :
  inv fs →
  (∀ o, aget (open_files fs) i = Some o → of_used (f o) ≠ 0 →
     file_wf fs (f o) ∧
     ∀ k, writes_to (f o) k → writes_to o k ∨ fs_node_has_open_writer fs k = false) →
  inv (upd_file i f fs).
Proof.
  intros [Ht Hw Hn Hs] Hf. split; [by apply typed_upd_file| |done|].
  - apply wf_upd_file; [done|]. intros o Ho Hu. by apply Hf.
  - assert (∀ j o k, aget (open_files (upd_file i f fs)) j = Some o → writes_to o k →
      (∃ o0, aget (open_files fs) j = Some o0 ∧ writes_to o0 k) ∨
      (j = i ∧ fs_node_has_open_writer fs k = false)) as Hcase.
    { intros j o k. rewrite aget_upd_file. case_decide as Hij; [subst|by eauto].
      intros (o0 & Ho & ->)%fmap_Some Hwo. destruct (Hf o0 Ho) as [_ Hk]; [apply Hwo|].
      destruct (Hk k Hwo); eauto. }
    intros a b o o' k Ha Hb Hoa Hob.
    destruct (Hcase a o k Ha Hoa) as [(x & Hx & Hxk)|[-> Hka]],
             (Hcase b o' k Hb Hob) as [(y & Hy & Hyk)|[-> Hkb]]; [|exfalso..|done].
    + by eapply Hs.
    + rewrite no_writer in Hkb. by apply (Hkb a x).
    + rewrite no_writer in Hka. by apply (Hka b y).
Qed.

Lemma inv_upd_contents fs i f :
  (∀ n, same_shape n (f n)) →
  (∀ n, aget (nodes fs) i = Some n → length (n_data n) = 256%nat → length (n_data (f n)) = 256%nat) →
  (∀ n, aget (nodes fs) i = Some n → n_size_bytes n ≤ RUNTIME_FS_FILE_CAPACITY →
     n_size_bytes (f n) ≤ RUNTIME_FS_FILE_CAPACITY) →
  inv fs → inv (upd_node i f fs).
Proof.
  intros Hs Hd Hz [Ht Hw Hn Hsw]. split; [by apply typed_upd_node|by apply wf_upd_contents| |done].
  intros j n Hj Hjn Hu. destruct (node_upd_shape fs i f j n Hs Hjn) as (n0 & Hn0 & E1 & _ & _ & ->).
  apply (Hn j n0); [done|done|congruence].
Qed.

Lemma inv_create fs i n n' :
  inv fs → i ≠ 0 → aget (nodes fs) i = Some n → n_used n = 0 →
  n_used n' ≠ 0 → (n_type n' = RUNTIME_FILE_TYPE_DIRECTORY ∨ n_type n' = RUNTIME_FILE_TYPE_REGULAR) →
  good_name (n_name n') → is_dir fs (n_parent_index n') → n_size_bytes n' ≤ RUNTIME_FS_FILE_CAPACITY →
  length (n_data n') = 256%nat →
  fs_find_child fs (n_parent_index n') (n_name n') = None →
  inv (upd_node i (λ _, n') fs).
Proof.
  intros [Ht Hw Hn Hsw] Hi Hin Hfree Hu Hty Hg Hp Hsz Hlen Hnone. split.
  - by apply typed_upd_node.
  - eapply wf_create; try done. apply Hg.
  - intros j m Hj. rewrite aget_upd_node. case_decide as Hij; [|by apply Hn].
    subst. rewrite Hin. by intros [= <-].
  - done.
Qed.

Lemma inv_clear fs i n :
  inv fs → i ≠ 0 → aget (nodes fs) i = Some n → fs_node_has_children fs i = false →
  fs_node_is_open fs i = false → inv (upd_node i fs_clear_node fs).
Proof.
  intros [Ht Hw Hn Hsw] Hi Hin Hc Ho. split; [|by eapply wf_clear| |done].
  - apply typed_upd_node; [done|]. intros m _ Hm. simpl. by rewrite length_fmap.
  - intros j m Hj. rewrite aget_upd_node. case_decide as Hij; [|by apply Hn].
    subst. rewrite Hin. by intros [= <-].
Qed.

Lemma inv_move fs i n p w :
  inv fs → i ≠ 0 → aget (nodes fs) i = Some n → n_used n ≠ 0 →
  is_dir fs p → p ≠ i → good_name w → fs_find_child fs p w = None →
  (∃ k, reach (upd_node i (set_parent_name p w) fs) k p) →
  inv (upd_node i (set_parent_name p w) fs).
Proof.
  intros [Ht Hw Hn Hsw] Hi Hin Hu Hp Hpi Hg Hnone Hr. split.
  - apply typed_upd_node; [done|]. by intros [] _.
  - eapply wf_move; try done. apply Hg.
  - intros j m Hj. rewrite aget_upd_node. case_decide as Hij; [|by apply Hn].
    subst. rewrite Hin. intros [= <-] _. by destruct n.
  - done.
Qed.

(** ** Reading the tables under the invariant *)

Lemma find_child_is_Some fs p w i :
  fs_find_child fs p w = Some i → is_Some (aget (nodes fs) i).
Proof. intros (n & -> & _)%fs_find_child_Some. by eexists. Qed.

Lemma walk_used fs current ws i :
  (∃ n, aget (nodes fs) current = Some n ∧ n_used n ≠ 0) → walk fs current ws = Some i →
  ∃ n, aget (nodes fs) i = Some n ∧ n_used n ≠ 0.
Proof.
  revert current. induction ws as [|w ws IH]; intros current Hc; simpl; [by intros [= <-]|].
  destruct (fs_find_child fs current w) as [child|] eqn:Hf; [simpl|done]. apply IH.
  apply fs_find_child_Some in Hf as (n & ? & ? & _). eauto.
Qed.

Lemma resolve_used fs path i :
  wf fs → fs_resolve_path fs path = Some i → ∃ n, aget (nodes fs) i = Some n ∧ n_used n ≠ 0.
Proof.
  intros Hw. rewrite fs_resolve_path_spec. case_if; [|done]. apply walk_used.
  by apply wf_root_used.
Qed.

Lemma walk_dirs_is_dir fs current ws p :
  is_dir fs current → walk_dirs fs current ws = Some p → is_dir fs p.
Proof.
  revert current. induction ws as [|w ws IH]; intros current Hc; simpl; [by intros [= <-]|].
  destruct (fs_find_child fs current w) as [child|] eqn:Hf; [simpl|done].
  apply fs_find_child_Some in Hf as (n & Hn & Hu & _). rewrite Hn. simpl.
  destruct (is_type _ n) eqn:Ht; [|done]. apply IH. exists n. unfold is_type in Ht. by bools.
Qed.

Lemma parent_path_is_dir fs path p leaf :
  wf fs → fs_resolve_parent_path fs path = Some (inr (p, leaf)) → is_dir fs p ∧ good_name leaf.
Proof.
  intros Hw (init & _ & _ & _ & Hd & Hg)%parent_path_inr. split; [|done].
  eapply walk_dirs_is_dir; [|done]. by apply wf_root_dir.
Qed.

Lemma alloc_node_Some fs i fs' :
  fs_alloc_node fs = Some (i, fs') →
  i ≠ 0 ∧ fs' = upd_node i fresh_node fs ∧ ∃ n, aget (nodes fs) i = Some n ∧ n_used n = 0.
Proof.
  unfold fs_alloc_node. destruct (find_idx _ _) as [j|] eqn:Hj; [|done]. intros [= -> <-].
  apply find_idx_Some in Hj as (n & Hn & Hf & _). bools. split_and!; [lia|done|by exists n].
Qed.

Lemma alloc_node_None fs :
  fs_alloc_node fs = None ↔ ∀ i n, i ≠ 0 → aget (nodes fs) i = Some n → n_used n ≠ 0.
Proof.
  unfold fs_alloc_node. destruct (find_idx _ _) as [j|] eqn:Hj.
  - split; [done|]. intros H. exfalso. apply find_idx_Some in Hj as (n & Hn & Hf & _). bools.
    apply (H j n); [lia|done|done].
  - split; [|done]. intros _. rewrite find_idx_None in Hj. intros i n Hi Hn.
    specialize (Hj i n Hn). intros Hu. rewrite Hu in Hj. destruct (N.leb_spec 1 i); [done|lia].
Qed.

Lemma fs_zero_range_length data a b : length (fs_zero_range data a b) = length data.
Proof. unfold fs_zero_range. case_if; [done|]. by rewrite length_imap. Qed.

(** Creating a node below a directory that has no child of that name. *)
Lemma create_inv fs i fs' type p pid mode leaf :
  inv fs → fs_alloc_node fs = Some (i, fs') →
  (type = RUNTIME_FILE_TYPE_DIRECTORY ∨ type = RUNTIME_FILE_TYPE_REGULAR) →
  is_dir fs p → good_name leaf → fs_find_child fs p leaf = None →
  inv (upd_node i (created_node type p pid mode leaf) fs').
Proof.
  intros Hi (Hi0 & -> & n & Hn & Hu)%alloc_node_Some Hty Hp Hg Hnone.
  rewrite upd_node_compose.
  assert (copy_name leaf = leaf) as Hleaf by (apply copy_name_short, Hg).
  replace (upd_node i (created_node type p pid mode leaf ∘ fresh_node) fs) with
    (upd_node i (λ _, created_node type p pid mode leaf (fresh_node n)) fs).
  - eapply inv_create; try done; simpl; rewrite ?Hleaf; try done.
    rewrite fs_zero_range_length. by eapply (typed_data _ (inv_typed _ Hi)).
  - unfold upd_node, aupd. f_equal. apply list_eq. intros k.
    destruct (decide (k = N.to_nat i)) as [->|].
    + rewrite !list_lookup_alter_eq. lookups. by rewrite Hn.
    + by rewrite !list_lookup_alter_ne.
Qed.

(** ** Each operation *)

Lemma root_alias_components path :
  starts_with_slash path = true → components path ≠ [] → fs_path_is_root path = false.
Proof.
  intros Hs Hc. unfold fs_path_is_root. apply cstr_equals_neq. by intros ->.
Qed.

Lemma open_file_lookup_Some fs obj o :
  fs_open_file_lookup fs obj = Some o →
  aget (open_files fs) (obj - 1) = Some o ∧ of_used o ≠ 0 ∧ 1 ≤ obj ≤ 8.
Proof.
  unfold fs_open_file_lookup, RUNTIME_FS_MAX_OPEN_FILES. case_if; [done|]. bools.
  destruct (aget _ _) as [o'|]; [|done]. case_if; [done|]. intros [= ->]. bools.
  split_and!; [done|done|lia|lia].
Qed.

Lemma open_file_lookup_upd fs obj o f :
  fs_open_file_lookup fs obj = Some o → of_used (f o) = of_used o →
  fs_open_file_lookup (upd_file (obj - 1) f fs) obj = Some (f o).
Proof.
  intros (Ho & Hu & Hb)%open_file_lookup_Some Hf. unfold fs_open_file_lookup, RUNTIME_FS_MAX_OPEN_FILES.
  rewrite aget_upd_file, decide_True, Ho by done. cbn. rewrite Hf.
  destruct (N.eqb_spec obj 0), (N.ltb_spec 8 obj), (N.eqb_spec (of_used o) 0); simpl; lia || done.
Qed.

Lemma open_file_node fs obj o :
  wf fs → fs_open_file_lookup fs obj = Some o →
  ∃ n, aget (nodes fs) (of_node_index o) = Some n ∧ n_used n ≠ 0 ∧
    (n_type n = RUNTIME_FILE_TYPE_REGULAR → of_offset o ≤ RUNTIME_FS_FILE_CAPACITY) ∧
    (n_type n = RUNTIME_FILE_TYPE_DIRECTORY →
       has_flag (of_flags o) RUNTIME_FILE_OPEN_WRITE = false).
Proof.
  intros Hw (Ho & Hu & _)%open_file_lookup_Some. by destruct (wf_files _ Hw _ _ Ho Hu).
Qed.

(** A regular file's size is bounded. *)
Lemma regular_size fs i n :
  wf fs → aget (nodes fs) i = Some n → n_used n ≠ 0 → n_type n = RUNTIME_FILE_TYPE_REGULAR →
  i ≠ 0 ∧ n_size_bytes n ≤ RUNTIME_FS_FILE_CAPACITY.
Proof.
  intros Hw Hn Hu Ht. assert (i ≠ 0) as Hi.
  { intros ->. destruct (wf_root _ Hw) as (r & Hr & Hv). apply root_is_valid_iff in Hv as (_ & Hd & _).
    simplify_eq. rewrite Ht in Hd. done. }
  split; [done|]. by destruct (wf_node _ Hw i n Hi Hn Hu).
Qed.

(** Moving the cursors of an open file. *)
Lemma inv_cursor fs obj o f :
  inv fs → fs_open_file_lookup fs obj = Some o →
  (∀ o, of_used (f o) = of_used o ∧ of_node_index (f o) = of_node_index o ∧
        of_flags (f o) = of_flags o) →
  (∀ n, aget (nodes fs) (of_node_index o) = Some n → n_type n = RUNTIME_FILE_TYPE_REGULAR →
        of_offset (f o) ≤ RUNTIME_FS_FILE_CAPACITY) →
  inv (upd_file (obj - 1) f fs).
Proof.
  intros Hi Ho Hf Hoff. apply inv_upd_file; [done|]. intros o' Ho' Hu.
  assert (o' = o) as -> by (apply open_file_lookup_Some in Ho as (? & _); congruence).
  destruct (Hf o) as (E1 & E2 & E3). split.
  - destruct (open_file_node fs obj o (inv_wf _ Hi) Ho) as (n & Hn & Hun & Hr & Hd).
    split. exists n. rewrite E2, E3. split_and!; try done. by apply Hoff.
  - intros k (H1 & H2 & H3). left. split_and!; congruence.
Qed.

Lemma load_bytes_Some count data offset :
  (N.to_nat offset + count ≤ length data)%nat →
  load_bytes count data offset = Some (take count (drop (N.to_nat offset) data)).
Proof.
  revert offset. induction count as [|count IH]; intros offset H; [done|]. cbn [load_bytes].
  destruct (aget_is_Some data offset ltac:(lia)) as [b Hb]. rewrite Hb. cbind.
  rewrite IH by lia. cbind. lookups.
  rewrite (drop_S data b (N.to_nat offset)) by exact Hb. by rewrite N2Nat.inj_add, Nat.add_1_r.
Qed.

Lemma store_bytes_Some data offset bytes :
  (N.to_nat offset + length bytes ≤ length data)%nat →
  ∃ data', store_bytes data offset bytes = Some data' ∧ length data' = length data ∧
    ∀ i, data' !! i = if decide (N.to_nat offset ≤ i < N.to_nat offset + length bytes)%nat
                      then bytes !! (i - N.to_nat offset)%nat else data !! i.
Proof.
  revert data offset. induction bytes as [|b bytes IH]; intros data offset H; cbn [store_bytes].
  { exists data. split_and!; [done|done|]. intros i. case_decide; simpl in *; [lia|done]. }
  simpl in H. rewrite aset_Some by lia. cbind.
  destruct (IH (<[N.to_nat offset:=b]> data) (offset + 1)) as (data' & -> & Hlen & Hget).
  { rewrite length_insert. lia. }
  exists data'. split_and!; [done|by rewrite Hlen, length_insert|]. intros i. rewrite Hget.
  rewrite N2Nat.inj_add, Nat.add_1_r. simpl length.
  destruct (decide (i = N.to_nat offset)) as [->|].
  - rewrite decide_False by lia. rewrite decide_True by lia.
    rewrite Nat.sub_diag, list_lookup_insert_eq by lia. done.
  - rewrite list_lookup_insert_ne by done. repeat case_decide; try lia; [|done].
    replace (i - N.to_nat offset)%nat with (S (i - S (N.to_nat offset))) by lia. done.
Qed.

(** Walks through a definition of the file system to its results. *)
Ltac fs_cases H :=
  repeat (cbv zeta in H; lazymatch type of H with
  | mbind _ ?x = _ => let E := fresh "E" in destruct x eqn:E; cbn [mbind option_bind] in H; [|discriminate H]
  | match ?x with _ => _ end = _ => let E := fresh "E" in destruct x eqn:E; try discriminate H
  end).

(** The paths [runtime_fs_mkdir] reads inside their bounds: not empty, and
    of at least four characters when absolute and not ["/"]. *)
Definition mkdir_path_ok (path : option cstr) : Prop :=
  ∀ p, path = Some p → p ≠ [] ∧ (fs_path_is_absolute_non_root (Some p) = true → (4 ≤ length p)%nat).

Lemma path_word_defined path i : i < N.of_nat (length path) → is_Some (path_word path i).
Proof.
  intros H. unfold path_word.
  destruct (aget_is_Some (path ++ ["000"%char]) i) as [low ->]; [rewrite length_app; simpl; lia|].
  destruct (aget_is_Some (path ++ ["000"%char]) (i + 1)) as [high ->]; [rewrite length_app; simpl; lia|].
  by eexists.
Qed.

Lemma mkdir_safe fs pid path mode :
  inv fs → mkdir_path_ok path → ∃ fs' code z, runtime_fs_mkdir fs pid path mode = Some (fs', code, z) ∧ inv fs'.
Proof.
  intros Hi Hpath. unfold runtime_fs_mkdir. destruct path as [path|]; [|by eauto].
  destruct (Hpath path eq_refl) as [Hne Hlen].
  assert (∀ i, i < N.of_nat (length path) → is_Some (path_word path i)) as Hw by (intros; by apply path_word_defined).
  case_if; bools.
  { destruct (Hw 0) as [word ->]; [destruct path; [done|cbn; lia]|]. cbind. by eauto. }
  destruct (fs_resolve_path fs path) eqn:Hres; [by eauto|]. specialize (Hlen ltac:(done)).
  destruct (Hw 1) as [word ->]; [lia|]. destruct (Hw 3) as [word' ->]; [lia|]. cbind.
  destruct (fs_resolve_parent_path_spec fs path) as (r & Hr & _). rewrite Hr. cbind.
  destruct r as [z|[p leaf]]; [by eauto|].
  destruct (parent_path_is_dir _ _ _ _ (inv_wf _ Hi) Hr) as [Hd Hg].
  pose proof Hd as (n & Hn & _). rewrite Hn. cbind. case_if; [by eauto|].
  destruct (fs_alloc_node fs) as [[i fs']|] eqn:Ha; [|by eauto].
  eexists _, _, _. split; [done|]. eapply create_inv; try done; [by left|].
  by eapply parent_path_no_child.
Qed.

Lemma open_target_safe fs pid path flags :
  inv fs → ∃ fs' r, open_target fs pid path flags = Some (fs', r) ∧ inv fs' ∧
    ∀ i, r = inr i → ∃ n, aget (nodes fs') i = Some n ∧ n_used n ≠ 0.
Proof.
  intros Hi. unfold open_target. destruct (fs_resolve_path fs path) as [i|] eqn:Hres.
  { eexists _, _. split_and!; [done|done|]. intros ? [= <-]. eapply resolve_used; [apply Hi|done]. }
  case_if; [by eexists _, _|].
  destruct (fs_resolve_parent_path_spec fs path) as (r & Hr & _). rewrite Hr. cbind.
  destruct r as [z|[p leaf]]; [by eexists _, _|].
  destruct (parent_path_is_dir _ _ _ _ (inv_wf _ Hi) Hr) as [Hd Hg].
  pose proof Hd as (n & Hn & _). rewrite Hn. cbind. case_if; [by eexists _, _|].
  destruct (fs_alloc_node fs) as [[i fs']|] eqn:Ha; [|by eexists _, _].
  eexists _, _. split_and!; [done| |].
  - eapply create_inv; try done; [by right|]. by eapply parent_path_no_child.
  - intros ? [= <-]. apply alloc_node_Some in Ha as (_ & -> & m & Hm & Hu).
    eexists. rewrite upd_node_compose, (aget_upd_node_eq _ _ _ _ Hm). done.
Qed.

(** The status of a slot allocation survives the conversion to [uint32_t]. *)
Lemma slot_cast i : i < 8 → u32_of_Z (Z.of_N (i + 1)) = i + 1 ∧ i32 (i + 1) = Z.of_N (i + 1).
Proof.
  intros H. split; [|apply i32_small; lia]. unfold u32_of_Z. rewrite Z.mod_small by lia. lia.
Qed.

(** [open_node]'s allocation, in one update. *)
Lemma open_slot_alloc_cases fs i flags :
  typed fs →
  (fs_open_slot_alloc fs i flags = (RUNTIME_SYSCALL_STATUS_ENOSPC, fs) ∧
     ∀ j o, aget (open_files fs) j = Some o → of_used o ≠ 0) ∨
  (∃ j o, fs_open_slot_alloc fs i flags =
            (Z.of_N (j + 1), upd_file j (λ _, OpenFile 1 i 0 flags 0 0) fs) ∧
          j < 8 ∧ aget (open_files fs) j = Some o ∧ of_used o = 0).
Proof.
  intros Ht. unfold fs_open_slot_alloc. destruct (find_idx _ _) as [j|] eqn:Hj.
  - right. apply find_idx_Some in Hj as (o & Ho & Hu & _). bools. exists j, o.
    pose proof (aget_Some_lt _ _ _ Ho) as Hlt. rewrite (typed_files _ Ht) in Hlt.
    split_and!; [done|lia|done|done].
  - left. split; [done|]. rewrite find_idx_None in Hj. intros j o Ho. specialize (Hj j o Ho). by bools.
Qed.

Lemma truncate_inv fs i : inv fs → inv (upd_node i truncate_node fs).
Proof.
  intros Hi. apply inv_upd_contents; [by intros []|..|done].
  - intros [] _. simpl. by rewrite fs_zero_range_length.
  - intros [] _ _. simpl. unfold RUNTIME_FS_FILE_CAPACITY. lia.
Qed.

Lemma open_node_safe fs pid i flags :
  inv fs → (∃ n, aget (nodes fs) i = Some n ∧ n_used n ≠ 0) →
  ∃ fs' obj z, open_node fs pid i flags = Some (fs', obj, z) ∧ inv fs'.
Proof.
  intros Hi (n & Hn & Hu). unfold open_node. rewrite Hn. cbind. case_if; [by eauto|].
  match goal with |- context [if ?b then upd_node i truncate_node fs else fs] =>
    set (fs1 := if b then upd_node i truncate_node fs else fs) end.
  assert (inv fs1) as Hi1 by (unfold fs1; case_if; [by apply truncate_inv|done]).
  assert (∃ n1, aget (nodes fs1) i = Some n1 ∧ same_shape n n1) as (n1 & Hn1 & E1 & E2 & _).
  { unfold fs1. case_if; [|by exists n]. rewrite (aget_upd_node_eq _ _ _ _ Hn).
    eexists. split; [done|]. by destruct n. }
  clearbody fs1. bools. unfold open_mode_status in Heqb.
  destruct (is_type RUNTIME_FILE_TYPE_DIRECTORY n && _) eqn:Hdw; [done|].
  case_if; [by eauto|]. case_if; [by eauto|].
  destruct (open_slot_alloc_cases fs1 i flags (inv_typed _ Hi1)) as [[-> _]|(j & o & -> & Hj & Ho & _)].
  { cbn. by eauto. }
  destruct (slot_cast j Hj) as [-> ->]. destruct (Z.ltb_spec (Z.of_N (j + 1)) 0); [lia|].
  replace (j + 1 - 1) with j by lia. rewrite upd_file_compose. eexists _, _, _. split; [done|].
  apply inv_upd_file; [done|]. intros o' _ _. split.
  - split. exists n1. simpl. rewrite E1, E2. split_and!; [done|done| |].
    + intros _. unfold RUNTIME_FS_FILE_CAPACITY. lia.
    + intros Hd. unfold is_type in Hdw. rewrite Hd in Hdw. by destruct (has_flag flags _).
  - intros k (_ & <- & Hw). simpl in *. rewrite Hw in *. simpl in *. by right.
Qed.

Lemma open_safe fs pid path flags out :
  inv fs → ∃ fs' obj z, runtime_fs_open fs pid path flags out = Some (fs', obj, z) ∧ inv fs'.
Proof.
  intros Hi. unfold runtime_fs_open. destruct path as [path|]; [|by eauto].
  case_if; [by eauto|].
  destruct (open_target_safe fs pid path flags Hi) as (fs' & r & -> & Hi' & Hr). cbind.
  destruct r as [z|i]; [by eauto|]. by apply open_node_safe; [|apply Hr].
Qed.

Lemma read_safe fs obj buffer size :
  inv fs → ∃ fs' bytes z, runtime_fs_read fs obj buffer size = Some (fs', bytes, z) ∧ inv fs'.
Proof.
  intros Hi. unfold runtime_fs_read. destruct buffer; [cbn [negb]|by eauto].
  destruct (fs_open_file_lookup fs obj) as [o|] eqn:Ho; [|by eauto]. case_if; [by eauto|].
  destruct (open_file_node fs obj o (inv_wf _ Hi) Ho) as (n & Hn & Hu & Hr & _). rewrite Hn. cbind.
  destruct (is_type RUNTIME_FILE_TYPE_REGULAR n) eqn:Hty; cbn [negb]; [|by eauto].
  unfold is_type in Hty. bools. case_if; [by eauto|]. bools.
  destruct (regular_size fs _ n (inv_wf _ Hi) Hn Hu Hty) as [_ Hsz].
  pose proof (typed_data _ (inv_typed _ Hi) _ _ Hn) as Hlen. unfold RUNTIME_FS_FILE_CAPACITY in Hsz.
  rewrite load_bytes_Some by (case_N; lia). cbind. eexists _, _, _. split; [done|].
  eapply inv_cursor; [done..|by intros []|]. intros m Hm _. simpl.
  replace (of_offset (set_offset _ o)) with
    (u32 (of_offset o + (if size <? n_size_bytes n - of_offset o then size
                         else n_size_bytes n - of_offset o))) by (by destruct o).
  rewrite u32_small by (case_N; lia). unfold RUNTIME_FS_FILE_CAPACITY. case_N; lia.
Qed.

Lemma write_safe fs obj buffer size :
  inv fs → size < 4294967040 →
  (∀ bytes, buffer = Some bytes → size ≤ N.of_nat (length bytes)) →
  ∃ fs' z, runtime_fs_write fs obj buffer size = Some (fs', z) ∧ inv fs'.
Proof.
  intros Hi Hsize Hbuf. unfold runtime_fs_write. destruct buffer as [bytes|]; [|by eauto].
  specialize (Hbuf bytes eq_refl).
  destruct (fs_open_file_lookup fs obj) as [o|] eqn:Ho; [|by eauto]. case_if; [by eauto|].
  destruct (open_file_node fs obj o (inv_wf _ Hi) Ho) as (n & Hn & Hu & Hr & _). rewrite Hn. cbind.
  destruct (is_type RUNTIME_FILE_TYPE_REGULAR n) eqn:Hty; cbn [negb]; [|by eauto].
  unfold is_type in Hty. bools. specialize (Hr Hty). unfold RUNTIME_FS_FILE_CAPACITY in *.
  rewrite u32_small by lia. case_if; [by eauto|]. bools.
  destruct (N.ltb_spec (N.of_nat (length bytes)) size); [lia|].
  match goal with |- context [store_bytes ?d _ _] => set (data := d) end.
  assert (length data = 256%nat) as Hlen.
  { unfold data. case_if; rewrite ?fs_zero_range_length; by eapply (typed_data _ (inv_typed _ Hi)). }
  clearbody data.
  destruct (store_bytes_Some data (of_offset o) (take (N.to_nat size) bytes)) as (d & -> & Hd & _).
  { rewrite length_take. lia. }
  cbind. eexists _, _. split; [done|]. apply inv_upd_contents.
  - by intros [].
  - intros [] _ _. simpl. congruence.
  - intros m _. destruct m; simpl. case_if; [done|].
    intros _. by apply (regular_size fs _ n (inv_wf _ Hi) Hn Hu Hty).
  - eapply inv_cursor; [done..|by intros []|]. intros _ _ _. by destruct o.
Qed.

Lemma close_safe fs obj : inv fs → inv (runtime_fs_close fs obj).1.
Proof.
  intros Hi. unfold runtime_fs_close. destruct (fs_open_file_lookup fs obj); [|done].
  by apply inv_upd_file.
Qed.

Lemma stat_safe fs obj out :
  inv fs → ∃ st z, runtime_fs_stat fs obj out = Some (st, z).
Proof.
  intros Hi. unfold runtime_fs_stat. case_if; [by eauto|].
  destruct (fs_open_file_lookup fs obj) as [o|] eqn:Ho; [|by eauto].
  destruct (open_file_node fs obj o (inv_wf _ Hi) Ho) as (n & Hn & _). rewrite Hn. by eexists _, _.
Qed.

Lemma readdir_safe fs obj out :
  inv fs → ∃ fs' e z, runtime_fs_readdir fs obj out = Some (fs', e, z) ∧ inv fs'.
Proof.
  intros Hi. unfold runtime_fs_readdir. case_if; [by eauto|].
  destruct (fs_open_file_lookup fs obj) as [o|] eqn:Ho; [|by eauto]. case_if; [by eauto|].
  destruct (open_file_node fs obj o (inv_wf _ Hi) Ho) as (n & Hn & _). rewrite Hn. cbind.
  case_if; [by eauto|]. destruct (find_idx _ _) as [i|] eqn:Hf; [|by eauto].
  apply find_idx_Some in Hf as (m & Hm & _). rewrite Hm. cbind. eexists _, _, _. split; [done|].
  eapply inv_cursor; [done..|by intros []|]. intros m' Hm' Hreg. simplify_eq. bools.
  unfold is_type in *. bools. unfold RUNTIME_FILE_TYPE_DIRECTORY, RUNTIME_FILE_TYPE_REGULAR in *. lia.
Qed.

Lemma seek_safe fs obj offset whence :
  inv fs → ∃ fs' z, runtime_fs_seek fs obj offset whence = Some (fs', z) ∧ inv fs'.
Proof.
  intros Hi. unfold runtime_fs_seek.
  destruct (fs_open_file_lookup fs obj) as [o|] eqn:Ho; [|by eauto].
  destruct (open_file_node fs obj o (inv_wf _ Hi) Ho) as (n & Hn & _). rewrite Hn. cbind.
  case_if; [by eauto|]. match goal with |- context [match ?b with Some _ => _ | None => _ end] =>
    destruct b as [base|]; [|by eauto] end.
  case_if; [by eauto|]. eexists _, _. split; [done|].
  apply orb_false_iff in Heqb0 as [[H1%Z.ltb_ge H2%Z.ltb_ge]%orb_false_iff _].
  unfold RUNTIME_FS_FILE_CAPACITY in *.
  eapply inv_cursor; [done..|by intros []|]. intros _ _ _.
  replace (of_offset (set_offset _ o)) with (u32_of_Z (base + offset)) by (by destruct o).
  unfold u32_of_Z, RUNTIME_FS_FILE_CAPACITY. rewrite Z.mod_small by lia. lia.
Qed.

(** A path with at least one component never resolves to the root. *)
Lemma resolve_ne_root fs path i :
  inv fs → components path ≠ [] → fs_resolve_path fs path = Some i → i ≠ 0.
Proof.
  intros Hi Hc. rewrite fs_resolve_path_spec.
  destruct (starts_with_slash path && forallb short_name (components path)) eqn:Hs; [|done].
  apply andb_true_iff in Hs as [_ Hs].
  destruct (exists_last Hc) as (init & leaf & Heq). rewrite Heq, walk_app. intros Hw ->.
  assert (good_name leaf) as (_ & _ & Hg).
  { apply (components_good path); [done|]. rewrite Heq. apply elem_of_app. right.
    by apply list_elem_of_singleton. }
  destruct (walk fs 0 init) as [c|]; [simpl in Hw|done].
  destruct (fs_find_child fs c leaf) as [j|] eqn:Hf; [simpl in Hw|done]. injection Hw as ->.
  apply fs_find_child_Some in Hf as (r & Hr & _ & _ & Hname).
  destruct (wf_root _ (inv_wf _ Hi)) as (r' & Hr' & (_ & _ & _ & Hrn)%root_is_valid_iff).
  simplify_eq. apply Hg. rewrite Hrn. by apply list_elem_of_singleton.
Qed.

(** A spelling of the root other than ["/"]. *)
Definition root_alias (path : option cstr) : Prop :=
  match path with
  | Some path => starts_with_slash path = true ∧ path ≠ [slash] ∧ components path = []
  | None => False
  end.

Lemma not_root_alias path :
  ¬ root_alias (Some path) → starts_with_slash path = true → fs_path_is_root path = false →
  components path ≠ [].
Proof. intros Hn Hs Hr Hc. apply cstr_equals_neq in Hr. by apply Hn. Qed.

Lemma resolve_existing_inr fs path i :
  fs_resolve_existing_path fs path = inr i →
  starts_with_slash path = true ∧ fs_resolve_path fs path = Some i.
Proof.
  unfold fs_resolve_existing_path. destruct (starts_with_slash path); [simpl|done].
  destruct (fs_resolve_path fs path); naive_solver.
Qed.

Lemma remove_safe fs pid path :
  inv fs → ¬ root_alias path →
  ∃ fs' z, runtime_fs_remove fs pid path = Some (fs', z) ∧ inv fs'.
Proof.
  intros Hi Ha. unfold runtime_fs_remove. destruct path as [path|]; [|by eauto].
  destruct (starts_with_slash path) eqn:Hs; cbn [negb]; [|by eauto].
  destruct (fs_path_is_root path) eqn:Hroot; [by eauto|].
  destruct (fs_resolve_existing_path fs path) as [z|i] eqn:Hres; [by eauto|].
  apply resolve_existing_inr in Hres as [_ Hres].
  pose proof (resolve_ne_root fs path i Hi (not_root_alias path Ha Hs Hroot) Hres) as Hi0.
  destruct (resolve_used _ _ _ (inv_wf _ Hi) Hres) as (n & Hn & Hu). rewrite Hn. cbind.
  case_if; [by eauto|].
  destruct (used_parent_dir _ _ _ (inv_wf _ Hi) Hn Hu) as (p & Hp & _). rewrite Hp. cbind.
  case_if; [by eauto|]. case_if; [by eauto|]. case_if; [by eauto|].
  eexists _, _. split; [done|]. eapply inv_clear; try done.
  match goal with H : (_ && _)%bool = false |- _ => apply andb_false_iff in H as [Hd|] end; [|done].
  eapply regular_no_children; [apply Hi|done|]. unfold is_type in Hd. by bools.
Qed.

Lemma rename_node_safe fs pid i p leaf :
  inv fs → i ≠ 0 → (∃ n, aget (nodes fs) i = Some n ∧ n_used n ≠ 0) → is_dir fs p →
  good_name leaf → fs_find_child fs p leaf = None →
  ∃ fs' z, rename_node fs pid i p leaf = Some (fs', z) ∧ inv fs'.
Proof.
  intros Hi Hi0 (n & Hn & Hu) Hp Hg Hnone. unfold rename_node. rewrite Hn. cbind.
  case_if; [by eauto|].
  destruct (used_parent_dir _ _ _ (inv_wf _ Hi) Hn Hu) as (q & Hq & _). rewrite Hq. cbind.
  case_if; [by eauto|]. pose proof Hp as (d & Hd & Hdu & Hdt). rewrite Hd. cbind.
  case_if; [by eauto|]. destruct (is_dir_reach _ _ (inv_wf _ Hi) Hp) as [k Hk].
  rewrite copy_name_short by apply Hg.
  destruct (is_type RUNTIME_FILE_TYPE_DIRECTORY n) eqn:Hty; cbind.
  - unfold fs_parent_chain_contains.
    pose proof (reach_bound _ _ _ (inv_typed _ Hi) Hk) as Hb.
    destruct (parent_chain_walk_total fs k p i CHAIN_FUEL Hk) as [b Hwalk]; [unfold CHAIN_FUEL; lia|].
    rewrite Hwalk. cbind. destruct b; [by eauto|]. eexists _, _. split; [done|].
    eapply inv_move; try done.
    + intros ->. unfold CHAIN_FUEL in Hwalk. cbn [parent_chain_walk] in Hwalk.
      rewrite N.eqb_refl in Hwalk. destruct (N.eqb_spec i 0); done.
    + exists k. by eapply reach_upd_chain.
  - unfold is_type in Hty. bools. eexists _, _. split; [done|].
    assert (p ≠ i) by (intros ->; congruence). eapply inv_move; try done.
    exists k. eapply reach_upd_leaf; [|done|done]. eapply regular_no_children; [apply Hi|done|done].
Qed.

Lemma rename_safe fs pid old_path new_path :
  inv fs → ¬ root_alias old_path →
  ∃ fs' z, runtime_fs_rename fs pid old_path new_path = Some (fs', z) ∧ inv fs'.
Proof.
  intros Hi Ha. unfold runtime_fs_rename. destruct old_path as [old|]; [|by eauto].
  destruct new_path as [new|]; [|by eauto].
  destruct (starts_with_slash old) eqn:Hs; cbn [negb orb]; [|by eauto]. case_if; [by eauto|].
  case_if; [by eauto|]. destruct (fs_path_is_root old) eqn:Hroot; cbn [orb]; [by eauto|].
  case_if; [by eauto|].
  destruct (fs_resolve_existing_path fs old) as [z|i] eqn:Hres; [by eauto|].
  apply resolve_existing_inr in Hres as [_ Hres].
  destruct (fs_resolve_path fs new) eqn:Hnew; [by eauto|].
  destruct (fs_resolve_parent_path_spec fs new) as (r & Hr & _). rewrite Hr. cbind.
  destruct r as [z|[p leaf]]; [by eauto|].
  destruct (parent_path_is_dir _ _ _ _ (inv_wf _ Hi) Hr) as [Hd Hg].
  apply rename_node_safe; try done.
  - by apply (resolve_ne_root fs old i Hi (not_root_alias old Ha Hs Hroot)).
  - by eapply resolve_used; [apply Hi|].
  - by eapply parent_path_no_child.
Qed.

(** ** Runs of operations *)

Inductive fs_op :=
  | OpMkdir (current_pid : N) (path : option cstr) (mode : N)
  | OpOpen (current_pid : N) (path : option cstr) (flags : N) (out : bool)
  | OpRead (file_object : N) (buffer : bool) (size : N)
  | OpWrite (file_object : N) (buffer : option (list N)) (size : N)
  | OpClose (file_object : N)
  | OpStat (file_object : N) (out : bool)
  | OpReaddir (file_object : N) (out : bool)
  | OpSeek (file_object : N) (offset : Z) (whence : N)
  | OpRemove (current_pid : N) (path : option cstr)
  | OpRename (current_pid : N) (old_path new_path : option cstr).

Definition run_op (fs : runtime_fs) (op : fs_op) : option (runtime_fs * Z) :=
  match op with
  | OpMkdir pid path mode => '(fs', _, z) ← runtime_fs_mkdir fs pid path mode; Some (fs', z)
  | OpOpen pid path flags out => '(fs', _, z) ← runtime_fs_open fs pid path flags out; Some (fs', z)
  | OpRead obj buffer size => '(fs', _, z) ← runtime_fs_read fs obj buffer size; Some (fs', z)
  | OpWrite obj buffer size => runtime_fs_write fs obj buffer size
  | OpClose obj => Some (runtime_fs_close fs obj)
  | OpStat obj out => '(_, z) ← runtime_fs_stat fs obj out; Some (fs, z)
  | OpReaddir obj out => '(fs', _, z) ← runtime_fs_readdir fs obj out; Some (fs', z)
  | OpSeek obj offset whence => runtime_fs_seek fs obj offset whence
  | OpRemove pid path => runtime_fs_remove fs pid path
  | OpRename pid old new => runtime_fs_rename fs pid old new
  end.

Fixpoint run_ops (fs : runtime_fs) (ops : list fs_op) : option (runtime_fs * list Z) :=
  match ops with
  | [] => Some (fs, [])
  | op :: ops' =>
      '(fs', z) ← run_op fs op;
      '(fs'', zs) ← run_ops fs' ops';
      Some (fs'', z :: zs)
  end.

(** The uses the code supports: a directory path that [runtime_fs_mkdir]
    reads inside its bounds, a buffer as long as the size says, a size that
    does not wrap the 32-bit end offset, and no removal or renaming of the
    root under another spelling. *)
Definition op_safe (op : fs_op) : Prop :=
  match op with
  | OpMkdir _ path _ => mkdir_path_ok path
  | OpWrite _ buffer size =>
      size < 4294967040 ∧ ∀ bytes, buffer = Some bytes → size ≤ N.of_nat (length bytes)
  | OpRemove _ path => ¬ root_alias path
  | OpRename _ old_path _ => ¬ root_alias old_path
  | _ => True
  end.

Lemma run_op_safe fs op :
  inv fs → op_safe op → ∃ fs' z, run_op fs op = Some (fs', z) ∧ inv fs'.
Proof.
  intros Hi Hs. destruct op; simpl in *.
  - destruct (mkdir_safe fs current_pid path mode Hi Hs) as (? & ? & ? & -> & ?). by eexists _, _.
  - destruct (open_safe fs current_pid path flags out Hi) as (? & ? & ? & -> & ?). by eexists _, _.
  - destruct (read_safe fs file_object buffer size Hi) as (? & ? & ? & -> & ?). by eexists _, _.
  - destruct Hs. by apply write_safe.
  - eexists _, _. split; [by rewrite <-surjective_pairing|]. by apply close_safe.
  - destruct (stat_safe fs file_object out Hi) as (? & ? & ->). by eexists _, _.
  - destruct (readdir_safe fs file_object out Hi) as (? & ? & ? & -> & ?). by eexists _, _.
  - by apply seek_safe.
  - by apply remove_safe.
  - by apply rename_safe.
Qed.

Lemma init_typed : typed runtime_fs_init.
Proof.
  split; [done|done|]. intros i n Hn. rewrite aget_lookup in Hn.
  assert (n = root_node ∨ n = cleared_node) as [-> | ->]; [|by vm_compute..].
  apply list_elem_of_lookup_2, elem_of_cons in Hn as [->|Hn]; [by left|right].
  by apply elem_of_replicate_inv in Hn.
Qed.

Lemma init_inv : inv runtime_fs_init.
Proof.
  pose proof init_typed as Ht.
  assert (∀ i n, i ≠ 0 → aget (nodes runtime_fs_init) i = Some n → n = cleared_node) as Hn.
  { intros i n Hi Hn. lookups. replace (N.to_nat i) with (S (N.to_nat (i - 1))) in Hn by lia.
    change (replicate 15 cleared_node !! N.to_nat (i - 1) = Some n) in Hn.
    by apply list_elem_of_lookup_2, elem_of_replicate_inv in Hn. }
  assert (∀ i o, aget (open_files runtime_fs_init) i = Some o → o = cleared_file) as Ho.
  { intros i o Ho. lookups. change (replicate 8 cleared_file !! N.to_nat i = Some o) in Ho.
    by apply list_elem_of_lookup_2, elem_of_replicate_inv in Ho. }
  split; [done| | |].
  - split; [by exists root_node|..].
    + intros i n Hi Hin. by rewrite (Hn i n Hi Hin).
    + intros i j n m Hi _ Hin _. by rewrite (Hn i n Hi Hin).
    + intros i o Hio. by rewrite (Ho i o Hio).
  - intros i n Hi Hin. by rewrite (Hn i n Hi Hin).
  - intros i j o o' k Hi _. rewrite (Ho i o Hi). by intros [].
Qed.

Lemma run_ops_inv fs ops :
  inv fs → Forall op_safe ops → ∃ fs' zs, run_ops fs ops = Some (fs', zs) ∧ inv fs'.
Proof.
  intros Hi H. revert fs Hi. induction H as [|op ops Hop Hops IH]; intros fs Hi; [by eexists _, _|].
  simpl. destruct (run_op_safe fs op Hi Hop) as (fs1 & z & -> & Hi1). cbind.
  destruct (IH fs1 Hi1) as (fs2 & zs & -> & Hi2). by eexists _, _.
Qed.

(** C1: from the initial file system, any sequence of operations within the
    following bounds, by any processes and interleaved in any way, has a
    defined result (no access out of bounds, every loop ends) and leaves a
    file system that [runtime_fs_validate] accepts.  The bounds ([op_safe]):
    a path given to [runtime_fs_mkdir] is NULL, or not empty and, when it is
    absolute and not the root, at least four characters long (on a shorter
    one the function reads past the end of the string); the size given to
    [runtime_fs_write] is below 4294967040 (2^32 - 256) and its buffer is
    that long; [runtime_fs_remove] and [runtime_fs_rename] are not given the
    root under another spelling, such as "//". *)
Theorem operations_stay_valid ops :
  Forall op_safe ops →
  ∃ fs zs, run_ops runtime_fs_init ops = Some (fs, zs) ∧
           runtime_fs_validate fs = Some (0xDFFF, RUNTIME_SYSCALL_STATUS_OK).
Proof.
  intros Hs. destruct (run_ops_inv _ ops init_inv Hs) as (fs & zs & Hrun & Hi).
  exists fs, zs. split; [done|]. apply validate_ok_wf; apply Hi.
Qed.
