(* ===== verification/RuntimeFsContents.v ===== *)
(** * File contents: reading, writing and seeking against byte strings

    The contents of a regular file are the first [size_bytes] bytes of its
    array.  [runtime_fs_write] and [runtime_fs_read] refine the usual
    operations on a byte string with a file offset. *)

From S2P Require Import Prelude RuntimeFs RuntimeFsInv RuntimeFsPath RuntimeFsSteps.
From S2P Require Import RuntimeFsSafety.

Local Open Scope N_scope.

(** ** Specification *)

Definition contents (n : runtime_fs_node) : list N := take (N.to_nat (n_size_bytes n)) (n_data n).

(** [bytes] stored at [offset]: a gap after the old end reads as zeros. *)
Definition overwrite (content : list N) (offset : nat) (bytes : list N) : list N :=
  take offset (content ++ replicate (offset - length content) 0) ++ bytes ++
  drop (offset + length bytes) content.

Definition slice (content : list N) (offset count : nat) : list N :=
  take count (drop offset content).

Definition open_node_of (fs : runtime_fs) (obj : N) : option (runtime_fs_open_file * runtime_fs_node) :=
  o ← fs_open_file_lookup fs obj; n ← aget (nodes fs) (of_node_index o); Some (o, n).

Lemma open_node_of_Some fs obj o n :
  open_node_of fs obj = Some (o, n) ↔
  fs_open_file_lookup fs obj = Some o ∧ aget (nodes fs) (of_node_index o) = Some n.
Proof.
  unfold open_node_of. destruct (fs_open_file_lookup fs obj) as [o'|]; cbn; [|naive_solver].
  destruct (aget (nodes fs) (of_node_index o')) eqn:?; cbn; naive_solver.
Qed.

Lemma lookup_overwrite content offset bytes i :
  overwrite content offset bytes !! i =
    if decide (i < offset)%nat then (content ++ replicate (offset - length content) 0) !! i
    else if decide (i < offset + length bytes)%nat then bytes !! (i - offset)%nat
    else content !! i.
Proof.
  unfold overwrite.
  assert (length (take offset (content ++ replicate (offset - length content) 0)) = offset) as Hl.
  { rewrite length_take, length_app, length_replicate. lia. }
  case_decide; [|case_decide].
  - rewrite lookup_app_l by lia. by apply lookup_take_lt.
  - rewrite lookup_app_r by lia. rewrite Hl. apply lookup_app_l. lia.
  - rewrite lookup_app_r by lia. rewrite Hl, lookup_app_r by lia. rewrite lookup_drop.
    f_equal. lia.
Qed.

Lemma lookup_zero_range data a b i :
  fs_zero_range data a b !! i =
    if decide (N.to_nat a ≤ i < N.to_nat (N.min b RUNTIME_FS_FILE_CAPACITY))%nat
    then (λ _, 0) <$> data !! i else data !! i.
Proof.
  unfold fs_zero_range, RUNTIME_FS_FILE_CAPACITY. case_if.
  - rewrite decide_False; [done|]. apply orb_true_iff in Heqb0. destruct Heqb0; bools; lia.
  - rewrite list_lookup_imap. bools. destruct (data !! i); simpl; [|by case_decide].
    case_decide; case_N; simpl; f_equal; lia.
Qed.

Lemma lookup_contents n i :
  contents n !! i = if decide (i < N.to_nat (n_size_bytes n))%nat then n_data n !! i else None.
Proof.
  unfold contents. case_decide; [by apply lookup_take_lt|]. apply lookup_take_ge. lia.
Qed.

Lemma length_contents n :
  n_size_bytes n ≤ 256 → length (n_data n) = 256%nat → length (contents n) = N.to_nat (n_size_bytes n).
Proof. intros. unfold contents. rewrite length_take. lia. Qed.

(** The arrays before and after a write represent the contents before and
    after [overwrite]. *)
Lemma overwrite_data n offset bytes data data' size' :
  n_size_bytes n ≤ 256 → length (n_data n) = 256%nat → offset + N.of_nat (length bytes) ≤ 256 →
  data = (if n_size_bytes n <? offset then fs_zero_range (n_data n) (n_size_bytes n) offset
          else n_data n) →
  (∀ i, data' !! i = if decide (N.to_nat offset ≤ i < N.to_nat offset + length bytes)%nat
                     then bytes !! (i - N.to_nat offset)%nat else data !! i) →
  size' = (if n_size_bytes n <? offset + N.of_nat (length bytes)
           then offset + N.of_nat (length bytes) else n_size_bytes n) →
  take (N.to_nat size') data' = overwrite (contents n) (N.to_nat offset) bytes.
Proof.
  intros Hsz Hlen Hend -> Hget ->. apply list_eq. intros i.
  rewrite lookup_overwrite, length_contents by done.
  destruct (decide (i < N.to_nat (if n_size_bytes n <? offset + N.of_nat (length bytes)
              then offset + N.of_nat (length bytes) else n_size_bytes n)%N)%nat) as [Hi|Hi].
  - rewrite lookup_take_lt by done. rewrite Hget.
    destruct (decide (N.to_nat offset ≤ i < N.to_nat offset + length bytes)%nat).
    { rewrite decide_False, decide_True by lia. done. }
    destruct (decide (i < N.to_nat offset)%nat) as [Hlt|Hge].
    + destruct (N.ltb_spec (n_size_bytes n) offset) as [Hgap|Hgap].
      * rewrite lookup_zero_range. unfold RUNTIME_FS_FILE_CAPACITY.
        destruct (decide (i < N.to_nat (n_size_bytes n))%nat).
        { rewrite decide_False by lia. rewrite lookup_app_l by (rewrite length_contents; lia).
          by rewrite lookup_contents, decide_True. }
        rewrite decide_True by lia. rewrite lookup_app_r by (rewrite length_contents; lia).
        rewrite length_contents by lia. rewrite lookup_replicate_2 by lia.
        destruct (lookup_lt_is_Some_2 (n_data n) i) as [x Hx]; [lia|]. by rewrite Hx.
      * rewrite lookup_app_l by (rewrite length_contents; lia).
        by rewrite lookup_contents, decide_True by lia.
    + rewrite decide_False by lia.
      destruct (N.ltb_spec (n_size_bytes n) (offset + N.of_nat (length bytes))); [lia|].
      destruct (N.ltb_spec (n_size_bytes n) offset); [lia|].
      by rewrite lookup_contents, decide_True.
  - rewrite lookup_take_ge by lia. revert Hi.
    case_N; intros Hi; (rewrite decide_False by lia); (rewrite decide_False by lia);
      by rewrite lookup_contents, decide_False by lia.
Qed.

(** ** Writing *)

(** A descriptor open for writing refers to a regular file. *)
Lemma writable_regular fs obj o n :
  inv fs → open_node_of fs obj = Some (o, n) →
  has_flag (of_flags o) RUNTIME_FILE_OPEN_WRITE = true → n_type n = RUNTIME_FILE_TYPE_REGULAR.
Proof.
  intros Hi [Ho Hn]%open_node_of_Some Hwr.
  destruct (open_file_node fs obj o (inv_wf _ Hi) Ho) as (n_ & Hn_ & Hu & _ & Hd). simplify_eq.
  destruct (used_type fs _ n (inv_wf _ Hi) Hn Hu) as [Hdir|]; [|done]. rewrite Hd in Hwr; done.
Qed.

Lemma write_spec fs obj o n bytes :
  inv fs → open_node_of fs obj = Some (o, n) →
  has_flag (of_flags o) RUNTIME_FILE_OPEN_WRITE = true →
  N.of_nat (length bytes) < 4294967040 →
  let end_offset := of_offset o + N.of_nat (length bytes) in
  let write := runtime_fs_write fs obj (Some bytes) (N.of_nat (length bytes)) in
  if RUNTIME_FS_FILE_CAPACITY <? end_offset
  then write = Some (fs, RUNTIME_SYSCALL_STATUS_ENOSPC)
  else ∃ fs' n', write = Some (fs', Z.of_nat (length bytes)) ∧
       open_node_of fs' obj = Some (set_offset end_offset o, n') ∧
       contents n' = overwrite (contents n) (N.to_nat (of_offset o)) bytes ∧
       n_size_bytes n' = N.of_nat (length (contents n')) ∧
       ∀ j, j ≠ of_node_index o → aget (nodes fs') j = aget (nodes fs) j.
Proof.
  intros Hi Hon Hwr Hlen. cbv zeta. pose proof (writable_regular _ _ _ _ Hi Hon Hwr) as Ht. apply open_node_of_Some in Hon as [Ho Hn].
  destruct (open_file_node fs obj o (inv_wf _ Hi) Ho) as (n_ & Hn_ & Hu & Hoff & Hd). simplify_eq.
  specialize (Hoff Ht). destruct (regular_size fs _ n (inv_wf _ Hi) Hn Hu Ht) as [_ Hsz].
  pose proof (typed_data _ (inv_typed _ Hi) _ _ Hn) as Hdl.
  unfold runtime_fs_write. rewrite Ho, Hwr, Hn. cbn [negb]. cbind.
  unfold is_type. rewrite Ht, N.eqb_refl. cbn [negb]. unfold RUNTIME_FS_FILE_CAPACITY in *.
  rewrite u32_small by lia. case_if; [done|]. bools. rewrite N.ltb_irrefl.
  rewrite Nat2N.id, take_ge by lia.
  match goal with |- context [store_bytes ?d _ _] => remember d as data eqn:Hdata end.
  destruct (store_bytes_Some data (of_offset o) bytes) as (data' & -> & Hdl' & Hget).
  { subst data. case_if; rewrite ?fs_zero_range_length; lia. }
  cbind. rewrite i32_small, nat_N_Z by lia.
  match goal with |- context [set_size_bytes ?s] => remember s as size' eqn:Hsize end.
  assert (contents (set_data data' (set_size_bytes size' n)) =
          overwrite (contents n) (N.to_nat (of_offset o)) bytes) as Hc.
  { rewrite <-(overwrite_data n (of_offset o) bytes data data' size'); [by destruct n|done..]. }
  eexists _, (set_data data' (set_size_bytes size' n)). split_and!; [done| |done| |].
  - apply open_node_of_Some. split.
    + apply (open_file_lookup_upd fs obj o (set_offset _)); [done|by destruct o].
    + replace (of_node_index (set_offset _ o)) with (of_node_index o) by (by destruct o).
      by rewrite (aget_upd_node_eq _ _ _ n).
  - assert (n_size_bytes (set_data data' (set_size_bytes size' n)) = size') as -> by (by destruct n).
    rewrite Hc, <-(overwrite_data n (of_offset o) bytes data data' size') by done.
    rewrite length_take, Hdl', Hdata. case_if; rewrite ?fs_zero_range_length, Hdl; case_N; lia.
  - intros j Hj. by rewrite aget_upd_node_ne.
Qed.

(** ** Reading *)

Lemma read_spec fs obj o n size :
  inv fs → open_node_of fs obj = Some (o, n) →
  has_flag (of_flags o) RUNTIME_FILE_OPEN_READ = true → n_type n = RUNTIME_FILE_TYPE_REGULAR →
  let bytes := slice (contents n) (N.to_nat (of_offset o)) (N.to_nat size) in
  ∃ fs', runtime_fs_read fs obj true size = Some (fs', bytes, Z.of_nat (length bytes)) ∧
    nodes fs' = nodes fs ∧
    open_node_of fs' obj = Some (set_offset (of_offset o + N.of_nat (length bytes)) o, n).
Proof.
  intros Hi Hon Hrd Ht. cbv zeta. apply open_node_of_Some in Hon as [Ho Hn].
  destruct (open_file_node fs obj o (inv_wf _ Hi) Ho) as (n_ & Hn_ & Hu & Hoff & _). simplify_eq.
  specialize (Hoff Ht). destruct (regular_size fs _ n (inv_wf _ Hi) Hn Hu Ht) as [_ Hsz].
  pose proof (typed_data _ (inv_typed _ Hi) _ _ Hn) as Hdl. unfold RUNTIME_FS_FILE_CAPACITY in *.
  unfold runtime_fs_read. cbn [negb]. rewrite Ho, Hrd, Hn. cbn [negb]. cbind.
  unfold is_type. rewrite Ht, N.eqb_refl. cbn [negb].
  assert (length (slice (contents n) (N.to_nat (of_offset o)) (N.to_nat size)) =
          N.to_nat (N.min size (n_size_bytes n - of_offset o))) as Hlen.
  { unfold slice. rewrite length_take, length_drop, length_contents by done. lia. }
  destruct (N.leb_spec (n_size_bytes n) (of_offset o)) as [Hle|Hlt].
  - assert (slice (contents n) (N.to_nat (of_offset o)) (N.to_nat size) = []) as ->.
    { apply nil_length_inv. lia. }
    exists fs. split_and!; [done|done|]. rewrite N.add_0_r. apply open_node_of_Some.
    by replace (set_offset (of_offset o) o) with o by (by destruct o).
  - rewrite load_bytes_Some by (case_N; lia). cbind.
    set (count := if size <? n_size_bytes n - of_offset o then size else n_size_bytes n - of_offset o).
    assert (count = N.min size (n_size_bytes n - of_offset o)) as Hcount by (unfold count; case_N; lia).
    clearbody count. exists (upd_file (obj - 1) (λ o, set_offset (u32 (of_offset o + count)) o) fs).
    assert (take (N.to_nat count) (drop (N.to_nat (of_offset o)) (n_data n)) =
            slice (contents n) (N.to_nat (of_offset o)) (N.to_nat size)) as ->.
    { unfold slice, contents. rewrite skipn_firstn_comm, take_take. f_equal. lia. }
    split_and!; [|done|].
    + rewrite Hlen, i32_small by lia. do 2 f_equal. lia.
    + apply open_node_of_Some. split.
      * rewrite (open_file_lookup_upd fs obj o); [|done|by destruct o].
        by rewrite Hlen, N2Nat.id, <-Hcount, u32_small by lia.
      * by destruct o.
Qed.

(** ** Seeking *)

(** The position [whence] and [offset] name, if any. *)
Definition seek_target (o : runtime_fs_open_file) (n : runtime_fs_node) (offset : Z) (whence : N)
  : option Z :=
  let position :=
    if whence =? RUNTIME_FILE_SEEK_SET then Some offset
    else if whence =? RUNTIME_FILE_SEEK_CUR then Some (Z.of_N (of_offset o) + offset)%Z
    else if whence =? RUNTIME_FILE_SEEK_END then Some (Z.of_N (n_size_bytes n) + offset)%Z
    else None in
  match position with
  | Some z => if bool_decide (0 ≤ z ≤ 256)%Z then Some z else None
  | None => None
  end.

Lemma seek_spec fs obj o n offset whence :
  open_node_of fs obj = Some (o, n) → n_type n = RUNTIME_FILE_TYPE_REGULAR →
  match seek_target o n offset whence with
  | None => runtime_fs_seek fs obj offset whence = Some (fs, RUNTIME_SYSCALL_STATUS_EINVAL)
  | Some z => ∃ fs', runtime_fs_seek fs obj offset whence = Some (fs', z) ∧ nodes fs' = nodes fs ∧
                open_node_of fs' obj = Some (set_offset (Z.to_N z) o, n)
  end.
Proof.
  intros [Ho Hn]%open_node_of_Some Ht. unfold runtime_fs_seek. rewrite Ho, Hn. cbind.
  unfold is_type. rewrite Ht, N.eqb_refl. cbn [negb]. unfold seek_target.
  match goal with |- context [match ?b with Some base => _ | None => Some (fs, _) end] =>
    remember b as base eqn:Hbase end.
  match goal with |- context [match ?b with Some z => if _ then _ else _ | None => None end] =>
    replace b with ((λ y, (y + offset)%Z) <$> base) by (subst base; case_N; done) end.
  clear Hbase. destruct base as [base|]; cbn; [|done].
  case_bool_decide as Hz.
  - destruct (Z.ltb_spec (base + offset) 0), (Z.ltb_spec 256 (base + offset)),
      (Z.ltb_spec 2147483647 (base + offset)); try lia. cbn.
    assert (u32_of_Z (base + offset) = Z.to_N (base + offset)) as ->.
    { unfold u32_of_Z. by rewrite Z.mod_small by lia. }
    rewrite i32_small, Z2N.id by lia. eexists. split_and!; [done|done|].
    apply open_node_of_Some. split; [|by destruct o].
    by rewrite (open_file_lookup_upd fs obj o); [|done|destruct o].
  - destruct (Z.ltb_spec (base + offset) 0), (Z.ltb_spec 256 (base + offset)); try lia; done.
Qed.

Lemma slice_overwrite content offset bytes :
  slice (overwrite content offset bytes) offset (length bytes) = bytes.
Proof.
  unfold slice, overwrite. rewrite drop_app_length'.
  - by rewrite take_app_length.
  - rewrite length_take, length_app, length_replicate. lia.
Qed.

(** ** The properties *)

(** C25: a write through a file opened for writing either fails with [ENOSPC]
    and changes nothing (the end would pass the 256-byte capacity) or stores
    exactly the bytes: the new contents are the old ones overwritten at the
    offset, a gap after the old end reads as zeros, the offset moves to the
    end of the written bytes, and no other node changes. *)
Theorem runtime_fs_write_refines fs obj o n bytes :
  inv fs → open_node_of fs obj = Some (o, n) →
  has_flag (of_flags o) RUNTIME_FILE_OPEN_WRITE = true →
  N.of_nat (length bytes) < 4294967040 →
  let end_offset := of_offset o + N.of_nat (length bytes) in
  let write := runtime_fs_write fs obj (Some bytes) (N.of_nat (length bytes)) in
  if RUNTIME_FS_FILE_CAPACITY <? end_offset
  then write = Some (fs, RUNTIME_SYSCALL_STATUS_ENOSPC)
  else ∃ fs' n', write = Some (fs', Z.of_nat (length bytes)) ∧
       open_node_of fs' obj = Some (set_offset end_offset o, n') ∧
       contents n' = overwrite (contents n) (N.to_nat (of_offset o)) bytes ∧
       n_size_bytes n' = N.of_nat (length (contents n')) ∧
       ∀ j, j ≠ of_node_index o → aget (nodes fs') j = aget (nodes fs) j.
Proof. apply write_spec. Qed.

(** C26: a read through a file opened for reading returns exactly the slice
    of the contents at the offset, clipped at the end of the file, with its
    length as the status, and advances the offset past it. *)
Theorem runtime_fs_read_refines fs obj o n size :
  inv fs → open_node_of fs obj = Some (o, n) →
  has_flag (of_flags o) RUNTIME_FILE_OPEN_READ = true → n_type n = RUNTIME_FILE_TYPE_REGULAR →
  let bytes := slice (contents n) (N.to_nat (of_offset o)) (N.to_nat size) in
  ∃ fs', runtime_fs_read fs obj true size = Some (fs', bytes, Z.of_nat (length bytes)) ∧
    nodes fs' = nodes fs ∧
    open_node_of fs' obj = Some (set_offset (of_offset o + N.of_nat (length bytes)) o, n).
Proof. apply read_spec. Qed.

(** Seeking in a regular file moves the offset to the named position and
    returns it when it lies within 0..256, and otherwise fails with [EINVAL]
    and changes nothing. *)
Theorem runtime_fs_seek_position fs obj o n offset whence :
  open_node_of fs obj = Some (o, n) → n_type n = RUNTIME_FILE_TYPE_REGULAR →
  match seek_target o n offset whence with
  | None => runtime_fs_seek fs obj offset whence = Some (fs, RUNTIME_SYSCALL_STATUS_EINVAL)
  | Some z => ∃ fs', runtime_fs_seek fs obj offset whence = Some (fs', z) ∧ nodes fs' = nodes fs ∧
                open_node_of fs' obj = Some (set_offset (Z.to_N z) o, n)
  end.
Proof. apply seek_spec. Qed.

(** Bytes written through a descriptor open for reading and writing are
    read back: after a successful write, seeking to the offset it started at
    and reading as many bytes returns exactly the bytes written. *)
Theorem write_seek_read_roundtrip fs obj o n bytes :
  inv fs → open_node_of fs obj = Some (o, n) →
  has_flag (of_flags o) RUNTIME_FILE_OPEN_WRITE = true →
  has_flag (of_flags o) RUNTIME_FILE_OPEN_READ = true →
  of_offset o + N.of_nat (length bytes) ≤ RUNTIME_FS_FILE_CAPACITY →
  ∃ fs1 fs2 fs3,
    runtime_fs_write fs obj (Some bytes) (N.of_nat (length bytes)) =
      Some (fs1, Z.of_nat (length bytes)) ∧
    runtime_fs_seek fs1 obj (Z.of_N (of_offset o)) RUNTIME_FILE_SEEK_SET =
      Some (fs2, Z.of_N (of_offset o)) ∧
    runtime_fs_read fs2 obj true (N.of_nat (length bytes)) =
      Some (fs3, bytes, Z.of_nat (length bytes)).
Proof.
  intros Hi Hon Hwr Hrd Hcap. unfold RUNTIME_FS_FILE_CAPACITY in Hcap.
  pose proof (write_spec fs obj o n bytes Hi Hon Hwr ltac:(lia)) as Hw. cbv zeta in Hw.
  unfold RUNTIME_FS_FILE_CAPACITY in Hw. rewrite (proj2 (N.ltb_ge _ _) Hcap) in Hw.
  destruct Hw as (fs1 & n1 & Hw & Hon1 & Hc & _).
  destruct (write_safe fs obj (Some bytes) (N.of_nat (length bytes)) Hi) as (? & ? & Hw' & Hi1);
    [lia|by intros ? [= <-]|]. simplify_eq.
  assert (n_type n1 = RUNTIME_FILE_TYPE_REGULAR) as Ht1.
  { eapply writable_regular; [exact Hi1|exact Hon1|by destruct o]. }
  pose proof (seek_spec fs1 obj _ n1 (Z.of_N (of_offset o)) RUNTIME_FILE_SEEK_SET Hon1 Ht1) as Hs.
  unfold seek_target in Hs. cbn in Hs. rewrite bool_decide_true in Hs by lia.
  destruct Hs as (fs2 & Hs & _ & Hon2). rewrite N2Z.id in Hon2.
  destruct (seek_safe fs1 obj (Z.of_N (of_offset o)) RUNTIME_FILE_SEEK_SET Hi1)
    as (? & ? & Hs' & Hi2). simplify_eq.
  destruct (read_spec fs2 obj _ n1 (N.of_nat (length bytes)) Hi2 Hon2) as (fs3 & Hr & _);
    [by destruct o|done|].
  replace (of_offset (set_offset (of_offset o) (set_offset _ o))) with (of_offset o) in Hr
    by (by destruct o).
  rewrite Hc, Nat2N.id, slice_overwrite in Hr. by exists fs1, fs2, fs3.
Qed.
