(* ===== verification/RuntimeFsTree.v ===== *)
(** * The tree operations as changes of the path map

    What [runtime_fs_mkdir], the creating [runtime_fs_open],
    [runtime_fs_remove] and [runtime_fs_rename] do to the resolution of every
    path. *)

From S2P Require Import Prelude RuntimeFs RuntimeFsInv RuntimeFsPath RuntimeFsSteps.
From S2P Require Import RuntimeFsSafety.

Local Open Scope N_scope.

(** ** Children under the invariant *)

(** Names are unique, so the first match is the only one. *)
Lemma find_child_iff fs c v j :
  inv fs → good_name v →
  fs_find_child fs c v = Some j ↔
    ∃ n, aget (nodes fs) j = Some n ∧ n_used n ≠ 0 ∧ n_parent_index n = c ∧ n_name n = v.
Proof.
  intros Hi Hv. split; [apply fs_find_child_Some|]. intros (n & Hn & Hu & Hp & Hname).
  destruct (fs_find_child fs c v) as [k|] eqn:Hk.
  - apply fs_find_child_Some in Hk as (m & Hm & Hum & Hpm & Hnm). f_equal.
    assert (∀ a x, aget (nodes fs) a = Some x → n_name x = v → a ≠ 0) as Hne.
    { intros a x Hx Hxn ->. destruct (wf_root _ (inv_wf _ Hi)) as (r & Hr & Hrv).
      apply root_is_valid_iff in Hrv as (_ & _ & _ & Hrn). destruct Hv as (_ & _ & Hs).
      assert (v = [slash]) as -> by congruence. apply Hs. by apply list_elem_of_singleton. }
    apply (wf_unique _ (inv_wf _ Hi) k j m n); eauto; congruence.
  - exfalso. rewrite fs_find_child_None in Hk. by eapply Hk.
Qed.

Lemma find_child_ne_root fs c v : inv fs → good_name v → fs_find_child fs c v ≠ Some 0.
Proof.
  intros Hi (_ & _ & Hs) (r & Hr & _ & _ & Hname)%fs_find_child_Some.
  destruct (wf_root _ (inv_wf _ Hi)) as (r' & Hr' & (_ & _ & _ & Hrn)%root_is_valid_iff).
  assert (v = [slash]) as -> by congruence. apply Hs. by apply list_elem_of_singleton.
Qed.

Lemma walk_snoc fs c ws v : walk fs c (ws ++ [v]) = (d ← walk fs c ws; fs_find_child fs d v).
Proof.
  rewrite walk_app. destruct (walk fs c ws) as [d|]; [|done]. cbn.
  by destruct (fs_find_child fs d v).
Qed.

(** A node has one path from the root. *)
Lemma walk_inj fs ws ws' k :
  inv fs → Forall good_name ws → Forall good_name ws' →
  walk fs 0 ws = Some k → walk fs 0 ws' = Some k → ws = ws'.
Proof.
  intros Hi. revert ws' k. induction ws as [|v ws IH] using rev_ind; intros ws' k Hg Hg' Hw Hw'.
  - destruct ws' as [|v' ws' _] using rev_ind; [done|]. simplify_eq/=.
    apply Forall_app in Hg' as [_ [Hv' _]%Forall_cons]. rewrite walk_snoc in Hw'.
    destruct (walk fs 0 ws'); [cbn in Hw'|done]. by apply find_child_ne_root in Hw'.
  - apply Forall_app in Hg as [Hg [Hv _]%Forall_cons]. rewrite walk_snoc in Hw.
    destruct (walk fs 0 ws) as [c|] eqn:Hc; [cbn in Hw|done].
    destruct ws' as [|v' ws' _] using rev_ind.
    { simplify_eq/=. by apply find_child_ne_root in Hw. }
    apply Forall_app in Hg' as [Hg' [Hv' _]%Forall_cons]. rewrite walk_snoc in Hw'.
    destruct (walk fs 0 ws') as [c'|] eqn:Hc'; [cbn in Hw'|done].
    apply fs_find_child_Some in Hw as (n & Hn & _ & Hp & Hnm),
      Hw' as (n' & Hn' & _ & Hp' & Hnm').
    simplify_eq. f_equal. by apply (IH ws' (n_parent_index n)).
Qed.

Lemma walk0_used fs ws i :
  inv fs → walk fs 0 ws = Some i → ∃ n, aget (nodes fs) i = Some n ∧ n_used n ≠ 0.
Proof. intros Hi. apply walk_used, wf_root_used, Hi. Qed.

(** Resolution as a walk over well-formed components. *)
Lemma resolve_walk fs path :
  starts_with_slash path = true → forallb short_name (components path) = true →
  fs_resolve_path fs path = walk fs 0 (components path) ∧ Forall good_name (components path).
Proof.
  intros Hs Hf. rewrite fs_resolve_path_spec, Hs, Hf. split; [done|].
  apply Forall_forall. intros w. by apply components_good.
Qed.

(** A statement about walks lifts to paths. *)
Lemma resolve_lift fs' (F : list cstr → option N) :
  (∀ ws, Forall good_name ws → walk fs' 0 ws = F ws) →
  ∀ q, starts_with_slash q = true → forallb short_name (components q) = true →
  fs_resolve_path fs' q = F (components q).
Proof. intros H q Hs Hf. destruct (resolve_walk fs' q Hs Hf) as [-> Hg]. by apply H. Qed.

Lemma resolve_long (fs : runtime_fs) q :
  forallb short_name (components q) = false → fs_resolve_path fs q = None.
Proof. intros Hf. rewrite fs_resolve_path_spec, Hf. by rewrite andb_false_r. Qed.

(** ** Creation *)

Lemma walk_create fs i n' init w p :
  inv fs → inv (upd_node i (λ _, n') fs) →
  (∃ n, aget (nodes fs) i = Some n ∧ n_used n = 0) →
  n_used n' ≠ 0 → n_parent_index n' = p → n_name n' = w →
  Forall good_name (init ++ [w]) → walk fs 0 init = Some p → walk fs 0 (init ++ [w]) = None →
  ∀ ws, Forall good_name ws →
  walk (upd_node i (λ _, n') fs) 0 ws =
    if decide (ws = init ++ [w]) then Some i else walk fs 0 ws.
Proof.
  intros Hi Hi' (n & Hn & Hfree) Hu Hp Hw Hgp Hinit Hnone ws.
  set (fs' := upd_node i (λ _, n') fs) in *.
  assert (∀ j m, aget (nodes fs') j = Some m ↔
            (j = i ∧ m = n') ∨ (j ≠ i ∧ aget (nodes fs) j = Some m)) as Hget.
  { intros j m. unfold fs'. destruct (decide (i = j)) as [<-|].
    - rewrite (aget_upd_node_eq _ _ _ _ Hn). naive_solver.
    - rewrite aget_upd_node_ne by done. naive_solver. }
  clearbody fs'. assert (p ≠ i) as Hpi.
  { intros ->. destruct (walk0_used _ _ _ Hi Hinit) as (? & ? & ?). congruence. }
  assert (∀ v, good_name v → fs_find_child fs i v = None) as Hleaf.
  { intros v Hv. apply fs_find_child_None. intros j m Hm Hum Hpm _.
    destruct (used_parent_dir _ _ _ (inv_wf _ Hi) Hm Hum) as (d & Hd & ? & _). congruence. }
  assert (∀ c v, good_name v → c ≠ i → fs_find_child fs' c v =
            if decide (c = p ∧ v = w) then Some i else fs_find_child fs c v) as Hchild.
  { intros c v Hv Hc. apply option_eq. intros j. rewrite (find_child_iff fs') by done.
    case_decide as Hcv.
    - destruct Hcv as [-> ->]. split.
      + intros (m & [[-> ->]|[Hj Hm]]%Hget & Hum & Hpm & Hnm); [done|]. exfalso.
        rewrite walk_snoc, Hinit in Hnone. cbn in Hnone. rewrite fs_find_child_None in Hnone.
        by eapply Hnone.
      + intros [= <-]. exists n'. split; [|done]. apply Hget. by left.
    - rewrite (find_child_iff fs) by done. split; intros (m & Hm & Hum & Hpm & Hnm); exists m.
      + apply Hget in Hm as [[-> ->]|[? ?]]; [|done]. exfalso. apply Hcv. by rewrite <-Hpm, <-Hnm.
      + split; [|done]. apply Hget. right. split; [|done]. intros ->. congruence. }
  induction ws as [|v ws IH] using rev_ind; intros Hg.
  { rewrite decide_False; [done|]. by destruct init. }
  apply Forall_app in Hg as [Hg [Hv _]%Forall_cons]. rewrite !walk_snoc, IH by done.
  destruct (decide (ws = init ++ [w])) as [->|Hws].
  - rewrite decide_False, Hnone.
    2:{ intros Heq. apply (f_equal length) in Heq. rewrite !length_app in Heq. simpl in Heq. lia. }
    cbn. apply fs_find_child_None. intros j m Hm Hum Hpm Hnm.
    apply Hget in Hm as [[-> ->]|[_ Hm]]; [congruence|].
    specialize (Hleaf v Hv). rewrite fs_find_child_None in Hleaf. by eapply Hleaf.
  - destruct (walk fs 0 ws) as [c|] eqn:Hc; cbn.
    + assert (c ≠ i).
      { intros ->. destruct (walk0_used _ _ _ Hi Hc) as (? & ? & ?). congruence. }
      rewrite Hchild by done. apply Forall_app in Hgp as [Hginit _].
      destruct (decide (c = p ∧ v = w)) as [[-> ->]|Hcv].
      * rewrite decide_True; [done|]. f_equal. by apply (walk_inj fs _ _ p).
      * rewrite decide_False; [done|]. intros [-> ->]%app_inj_tail. apply Hcv. naive_solver.
    + rewrite decide_False; [done|]. intros [-> ->]%app_inj_tail. congruence.
Qed.

(** Creating through [fs_alloc_node] adds exactly one path. *)
Lemma create_adds_path fs fs' path i p leaf type pid mode :
  inv fs → fs_resolve_path fs path = None →
  fs_resolve_parent_path fs path = Some (inr (p, leaf)) → fs_alloc_node fs = Some (i, fs') →
  (type = RUNTIME_FILE_TYPE_DIRECTORY ∨ type = RUNTIME_FILE_TYPE_REGULAR) →
  let fs2 := upd_node i (created_node type p pid mode leaf) fs' in
  ∀ q, starts_with_slash q = true →
  fs_resolve_path fs2 q = if decide (components q = components path) then Some i
                          else fs_resolve_path fs q.
Proof.
  intros Hi Hnone Hpar Ha Hty fs2.
  pose proof (parent_path_no_child _ _ _ _ Hnone Hpar) as Hnc.
  destruct (parent_path_is_dir _ _ _ _ (inv_wf _ Hi) Hpar) as [Hd Hg].
  pose proof (create_inv fs i fs' type p pid mode leaf Hi Ha Hty Hd Hg Hnc) as Hi2.
  apply parent_path_inr in Hpar as (init & Hs & Heq & Hf & Hw & _).
  apply alloc_node_Some in Ha as (Hi0 & -> & n & Hn & Hu).
  set (n' := created_node type p pid mode leaf (fresh_node n)).
  assert (fs2 = upd_node i (λ _, n') fs) as Hfs2.
  { unfold fs2. rewrite upd_node_compose. unfold upd_node, aupd. f_equal. apply list_eq. intros k.
    destruct (decide (k = N.to_nat i)) as [->|]; [|by rewrite !list_lookup_alter_ne].
    rewrite !list_lookup_alter_eq. lookups. by rewrite Hn. }
  fold fs2 in Hi2. clearbody fs2. subst fs2. intros q Hqs.
  destruct (resolve_walk fs path Hs Hf) as [Hpath Hgood]. rewrite Heq in *.
  destruct (forallb short_name (components q)) eqn:Hqf.
  - rewrite (resolve_lift _ (λ ws, if decide (ws = init ++ [leaf]) then Some i else walk fs 0 ws)).
    2:{ apply (walk_create fs i n' init leaf p); try done; [by eauto| | |congruence].
        - by apply copy_name_short, Hg.
        - by apply walk_dirs_walk. }
    2-3: done.
    case_decide; [done|]. by destruct (resolve_walk fs q Hqs Hqf) as [-> _].
  - rewrite !resolve_long by done. rewrite decide_False; [done|]. intros Hq. congruence.
Qed.

(** ** Removal *)

Lemma walk_remove fs i path :
  inv fs → inv (upd_node i fs_clear_node fs) → Forall good_name path →
  walk fs 0 path = Some i → i ≠ 0 → fs_node_has_children fs i = false →
  ∀ ws, Forall good_name ws →
  walk (upd_node i fs_clear_node fs) 0 ws = if decide (ws = path) then None else walk fs 0 ws.
Proof.
  intros Hi Hi' Hgp Hpath Hi0 Hleaf ws. set (fs' := upd_node i fs_clear_node fs) in *.
  destruct (walk0_used _ _ _ Hi Hpath) as (n & Hn & Hu).
  assert (∀ j m, aget (nodes fs') j = Some m → n_used m ≠ 0 →
            j ≠ i ∧ aget (nodes fs) j = Some m) as Hget.
  { intros j m. unfold fs'. destruct (decide (i = j)) as [<-|].
    - rewrite (aget_upd_node_eq _ _ _ _ Hn). naive_solver.
    - rewrite aget_upd_node_ne by done. naive_solver. }
  assert (∀ j, i ≠ j → aget (nodes fs') j = aget (nodes fs) j) as Hother
    by (intros j; apply aget_upd_node_ne).
  clearbody fs'. assert (∀ c v, good_name v → fs_find_child fs' c v =
            if decide (fs_find_child fs c v = Some i) then None else fs_find_child fs c v) as Hchild.
  { intros c v Hv. apply option_eq. intros j. rewrite (find_child_iff fs') by done.
    case_decide as Hcv.
    - split; [|done]. intros (m & Hm & Hum & Hpm & Hnm). exfalso.
      destruct (Hget j m Hm Hum) as [Hj Hjm]. apply Hj.
      assert (fs_find_child fs c v = Some j) by (apply find_child_iff; eauto). congruence.
    - rewrite (find_child_iff fs) by done. split; intros (m & Hm & Hum & Hpm & Hnm); exists m.
      + apply Hget in Hm as [? ?]; [|done]. done.
      + split; [|done]. rewrite Hother; [done|]. intros <-. apply Hcv.
        apply find_child_iff; eauto. }
  induction ws as [|v ws IH] using rev_ind; intros Hg.
  { rewrite decide_False; [done|]. intros <-. simplify_eq/=. }
  apply Forall_app in Hg as Hg'. destruct Hg' as [Hgws [Hv _]%Forall_cons].
  rewrite !walk_snoc, IH by done.
  destruct (decide (ws = path)) as [->|Hws].
  - rewrite decide_False, Hpath.
    2:{ intros Heq. apply (f_equal length) in Heq. rewrite length_app in Heq. simpl in Heq. lia. }
    cbn. symmetry. apply fs_find_child_None. intros j m Hm Hum Hpm _.
    rewrite no_children in Hleaf. rewrite (Hleaf j m Hm Hum Hpm) in Hm.
    by apply (used_parent_ne _ i m (inv_wf _ Hi) Hi0 Hm Hum).
  - destruct (walk fs 0 ws) as [c|] eqn:Hc; cbn; [|by case_decide].
    rewrite Hchild by done. destruct (decide (fs_find_child fs c v = Some i)) as [Hcv|Hcv].
    + rewrite decide_True; [done|]. apply (walk_inj fs _ _ i); try done.
      by rewrite walk_snoc, Hc.
    + rewrite decide_False; [done|]. intros <-. rewrite walk_snoc, Hc in Hpath. done.
Qed.

(** ** Renaming *)

Fixpoint strip_prefix (prefix ws : list cstr) : option (list cstr) :=
  match prefix, ws with
  | [], _ => Some ws
  | x :: prefix', y :: ws' => if decide (x = y) then strip_prefix prefix' ws' else None
  | _ :: _, [] => None
  end.

Lemma strip_prefix_Some prefix ws rest :
  strip_prefix prefix ws = Some rest ↔ ws = prefix ++ rest.
Proof.
  revert ws. induction prefix as [|x prefix IH]; intros ws; simpl; [naive_solver|].
  destruct ws as [|y ws]; [naive_solver|]. case_decide; [rewrite IH|]; naive_solver.
Qed.

Lemma strip_prefix_None prefix ws :
  strip_prefix prefix ws = None ↔ ∀ rest, ws ≠ prefix ++ rest.
Proof.
  rewrite eq_None_not_Some. split.
  - intros H rest Heq. apply H. exists rest. by apply strip_prefix_Some.
  - intros H [rest Hr%strip_prefix_Some]. by apply (H rest).
Qed.

Lemma strip_prefix_snoc prefix ws v :
  strip_prefix prefix (ws ++ [v]) =
    match strip_prefix prefix ws with
    | Some rest => Some (rest ++ [v])
    | None => if decide (ws ++ [v] = prefix) then Some [] else None
    end.
Proof.
  destruct (strip_prefix prefix ws) as [rest|] eqn:Hr.
  - apply strip_prefix_Some in Hr as ->. apply strip_prefix_Some. by rewrite app_assoc.
  - rewrite strip_prefix_None in Hr. case_decide as Heq.
    + apply strip_prefix_Some. by rewrite app_nil_r.
    + apply strip_prefix_None. intros rest Hrest. destruct rest as [|x rest _] using rev_ind.
      * apply Heq. by rewrite app_nil_r in Hrest.
      * rewrite app_assoc in Hrest. apply app_inj_tail in Hrest as [-> _]. by eapply Hr.
Qed.

(** The paths after moving [old] to [new]: what was below [old] is below
    [new]. *)
Definition moved (old new : list cstr) (resolve : list cstr → option N) (ws : list cstr) : option N :=
  match strip_prefix new ws with
  | Some rest => resolve (old ++ rest)
  | None => match strip_prefix old ws with Some _ => None | None => resolve ws end
  end.

(** Nodes below [i] have [i] on their chain of parents. *)
Lemma walk_below fs i ws c fuel :
  inv fs → i ≠ 0 → Forall good_name ws → walk fs i ws = Some c →
  parent_chain_walk fuel fs c i ≠ Some false.
Proof.
  intros Hi Hi0 Hg. revert c fuel. induction ws as [|v ws IH] using rev_ind; intros c fuel.
  - intros [= <-]. destruct fuel as [|fuel]; [done|]. cbn [parent_chain_walk].
    rewrite N.eqb_refl. by destruct (N.eqb_spec i 0).
  - apply Forall_app in Hg as [Hg [Hv _]%Forall_cons]. rewrite walk_snoc. intros Hw.
    destruct (walk fs i ws) as [d|] eqn:Hd; [cbn in Hw|done].
    assert (c ≠ 0) by (intros ->; by apply find_child_ne_root in Hw).
    apply fs_find_child_Some in Hw as (n & Hn & Hu & Hp & _).
    destruct fuel as [|fuel]; [done|]. cbn [parent_chain_walk]. rewrite Hn. cbind. rewrite Hp.
    destruct (N.eqb_spec c 0); [done|]. destruct (N.eqb_spec c i); [done|]. by apply IH.
Qed.

Section rename.
Context (fs : runtime_fs) (i p : N) (leaf : cstr) (old init : list cstr).
Let fs' := upd_node i (set_parent_name p leaf) fs.
Let new := init ++ [leaf].

Hypothesis Hinv : inv fs.
Hypothesis Hinv' : inv fs'.
Hypothesis Hi0 : i ≠ 0.
Hypothesis Hold_good : Forall good_name old.
Hypothesis Hnew_good : Forall good_name new.
Hypothesis Hold : walk fs 0 old = Some i.
Hypothesis Hinit : walk fs 0 init = Some p.
Hypothesis Hnew : walk fs 0 new = None.
(** The new parent is not below the moved node. *)
Hypothesis Hoff : ∀ ws, Forall good_name ws → walk fs i ws ≠ Some p.

(** In the new tree only the moved node has a different parent and name. *)
Lemma moved_child c v :
  good_name v →
  fs_find_child fs' c v =
    if decide (c = p ∧ v = leaf) then Some i
    else if decide (fs_find_child fs c v = Some i) then None else fs_find_child fs c v.
Proof.
  intros Hv. destruct (walk0_used _ _ _ Hinv Hold) as (n & Hn & Hu).
  assert (∀ j m, aget (nodes fs') j = Some m ↔
            (j = i ∧ m = set_parent_name p leaf n) ∨ (j ≠ i ∧ aget (nodes fs) j = Some m)) as Hget.
  { intros j m. unfold fs'. destruct (decide (i = j)) as [<-|].
    - rewrite (aget_upd_node_eq _ _ _ _ Hn). naive_solver.
    - rewrite aget_upd_node_ne by done. naive_solver. }
  assert (n_used (set_parent_name p leaf n) = n_used n ∧
          n_parent_index (set_parent_name p leaf n) = p ∧
          n_name (set_parent_name p leaf n) = leaf) as (Eu & Ep & En) by (by destruct n).
  assert (fs_find_child fs p leaf = None) as Hnone.
  { unfold new in Hnew. rewrite walk_snoc, Hinit in Hnew. done. }
  apply option_eq. intros j. rewrite (find_child_iff fs') by done. case_decide as Hcv.
  - destruct Hcv as [-> ->]. split.
    + intros (m & Hm & Hum & Hpm & Hnm). apply Hget in Hm as [[-> ->]|[_ Hm]]; [done|].
      exfalso. rewrite fs_find_child_None in Hnone. by eapply Hnone.
    + intros [= <-]. exists (set_parent_name p leaf n). rewrite Eu, Ep, En.
      split; [|done]. apply Hget. by left.
  - assert (∀ j m, aget (nodes fs') j = Some m → n_parent_index m = c → n_name m = v →
              j ≠ i ∧ aget (nodes fs) j = Some m) as Hother.
    { intros j' m Hm Hpm Hnm. apply Hget in Hm as [[-> ->]|[? ?]]; [|done].
      exfalso. apply Hcv. split; congruence. }
    case_decide as Hci.
    + split; [|done]. intros (m & Hm & Hum & Hpm & Hnm).
      destruct (Hother j m Hm Hpm Hnm) as [Hj Hjm]. exfalso. apply Hj.
      assert (fs_find_child fs c v = Some j) by (apply find_child_iff; eauto). congruence.
    + rewrite (find_child_iff fs) by done. split; intros (m & Hm & Hum & Hpm & Hnm); exists m.
      * by destruct (Hother j m Hm Hpm Hnm).
      * split; [|done]. apply Hget. right. split; [|done]. intros ->. apply Hci.
        apply find_child_iff; eauto.
Qed.

(** Below the moved node nothing changes. *)
Lemma moved_below c v rest :
  good_name v → Forall good_name rest → walk fs i rest = Some c →
  fs_find_child fs' c v = fs_find_child fs c v.
Proof.
  intros Hv Hr Hc. rewrite moved_child by done. rewrite decide_False.
  2:{ intros [-> _]. by apply (Hoff rest). }
  rewrite decide_False; [done|]. intros Hci.
  assert (walk fs 0 (old ++ rest ++ [v]) = Some i) as Hloop.
  { rewrite walk_app, Hold. cbn. by rewrite walk_snoc, Hc. }
  assert (old ++ rest ++ [v] = old) as Heq.
  { apply (walk_inj fs _ _ i Hinv); try done. rewrite !Forall_app. by rewrite Forall_singleton. }
  apply (f_equal length) in Heq. rewrite !length_app in Heq. simpl in Heq. lia.
Qed.

Lemma walk_moved ws : Forall good_name ws → walk fs' 0 ws = moved old new (walk fs 0) ws.
Proof.
  induction ws as [|v ws IH] using rev_ind; intros Hg.
  { unfold moved, new. destruct init; simpl.
    all: destruct old; [by simplify_eq/=|done]. }
  apply Forall_app in Hg as [Hg [Hv _]%Forall_cons]. rewrite walk_snoc, IH by done.
  unfold moved at 1 2. rewrite strip_prefix_snoc.
  destruct (strip_prefix new ws) as [rest|] eqn:Hsn.
  { rewrite app_assoc, walk_snoc. rewrite walk_app, Hold. cbind.
    destruct (walk fs i rest) as [c|] eqn:Hc; [|done]. cbind. apply (moved_below c v rest); [done| |done].
    apply strip_prefix_Some in Hsn as ->. by apply Forall_app in Hg as [_ ?]. }
  assert (Forall good_name init) as Hginit by (by apply Forall_app in Hnew_good as [? _]).
  destruct (decide (ws ++ [v] = new)) as [Heq|Hne].
  { apply app_inj_tail in Heq as [-> ->]. rewrite app_nil_r, Hold.
    destruct (strip_prefix old init) as [rest|] eqn:Hso.
    - apply strip_prefix_Some in Hso. subst init. exfalso. apply Forall_app in Hginit as [_ Hgr].
      apply (Hoff rest Hgr). rewrite walk_app, Hold in Hinit. done.
    - rewrite Hinit. cbind. rewrite moved_child, decide_True by done. done. }
  rewrite strip_prefix_snoc. destruct (strip_prefix old ws) as [rest|]; [done|].
  rewrite walk_snoc. destruct (walk fs 0 ws) as [c|] eqn:Hc; cbind; [|by case_decide].
  rewrite moved_child by done.
  assert (¬ (c = p ∧ v = leaf)) as Hcv.
  { intros [-> ->]. apply Hne. unfold new. f_equal. by apply (walk_inj fs _ _ p). }
  rewrite decide_False by done.
  assert (fs_find_child fs c v = Some i ↔ ws ++ [v] = old) as Hiff.
  { split.
    - intros Hci. apply (walk_inj fs _ _ i Hinv); try done.
      + rewrite Forall_app, Forall_singleton. done.
      + by rewrite walk_snoc, Hc.
    - intros Heq. rewrite <-Heq, walk_snoc, Hc in Hold. done. }
  destruct (decide (fs_find_child fs c v = Some i)) as [Hci|Hci].
  - by rewrite decide_True by tauto.
  - by rewrite decide_False by tauto.
Qed.
End rename.

(** ** The operations *)

(** An error of the parent resolver is never the status [OK]. *)
Lemma parent_loop_error fs fuel current token cursor z :
  parent_loop fuel fs current token cursor = Some (inl z) → z ≠ RUNTIME_SYSCALL_STATUS_OK.
Proof.
  revert current token cursor. induction fuel as [|fuel IH]; intros current t cursor; [done|].
  cbn [parent_loop]. destruct (fs_token_next cursor); [naive_solver..|].
  destruct (fs_find_child _ _ _) as [child|]; [|naive_solver].
  destruct (aget (nodes fs) child); cbind; [|done]. case_if; [naive_solver|]. apply IH.
Qed.

Lemma parent_path_error fs path z :
  fs_resolve_parent_path fs path = Some (inl z) → z ≠ RUNTIME_SYSCALL_STATUS_OK.
Proof.
  unfold fs_resolve_parent_path. case_if; [naive_solver|].
  destruct (fs_token_next path); [naive_solver..|]. apply parent_loop_error.
Qed.

Lemma mkdir_ok_inv fs pid path mode fs' code :
  runtime_fs_mkdir fs pid (Some path) mode = Some (fs', code, RUNTIME_SYSCALL_STATUS_OK) →
  fs_resolve_path fs path = None ∧
  ∃ p leaf d i fs1, fs_resolve_parent_path fs path = Some (inr (p, leaf)) ∧
    aget (nodes fs) p = Some d ∧ fs_node_owner_allows d pid = true ∧
    fs_alloc_node fs = Some (i, fs1) ∧
    fs' = upd_node i (created_node RUNTIME_FILE_TYPE_DIRECTORY p pid mode leaf) fs1.
Proof.
  unfold runtime_fs_mkdir. case_if; [by destruct (path_word path 0); cbind|].
  destruct (fs_resolve_path fs path); [done|].
  destruct (path_word path 1); cbind; [|done]. destruct (path_word path 3); cbind; [|done].
  destruct (fs_resolve_parent_path fs path) as [[z|[p leaf]]|] eqn:Hr; cbind; [|..|done].
  { intros [= <- <- Hz]. by apply parent_path_error in Hr. }
  destruct (aget (nodes fs) p) as [d|] eqn:Hd; cbind; [|done]. case_if; [done|]. bools.
  destruct (fs_alloc_node fs) as [[i fs1]|] eqn:Ha; [|done]. intros [= <- <-].
  split; [done|]. by exists p, leaf, d, i, fs1.
Qed.

Lemma remove_ok_inv fs pid path fs' :
  runtime_fs_remove fs pid (Some path) = Some (fs', RUNTIME_SYSCALL_STATUS_OK) →
  ∃ i n d, fs_path_is_root path = false ∧ fs_resolve_path fs path = Some i ∧
    starts_with_slash path = true ∧ aget (nodes fs) i = Some n ∧
    aget (nodes fs) (n_parent_index n) = Some d ∧
    fs_node_owner_allows n pid = true ∧ fs_node_owner_allows d pid = true ∧
    fs_node_is_open fs i = false ∧
    (is_type RUNTIME_FILE_TYPE_DIRECTORY n && fs_node_has_children fs i) = false ∧
    fs' = upd_node i fs_clear_node fs.
Proof.
  unfold runtime_fs_remove. case_if; [done|]. case_if; [done|].
  unfold fs_resolve_existing_path. case_if; [done|].
  destruct (fs_resolve_path fs path) as [i|] eqn:Hres; [|done].
  destruct (aget (nodes fs) i) as [n|] eqn:Hn; cbind; [|done]. case_if; [done|].
  destruct (aget (nodes fs) (n_parent_index n)) as [d|] eqn:Hd; cbind; [|done].
  case_if; [done|]. case_if; [done|]. case_if; [done|]. intros [= <-]. bools.
  by exists i, n, d.
Qed.

Lemma rename_ok_inv fs pid old new fs' :
  runtime_fs_rename fs pid (Some old) (Some new) = Some (fs', RUNTIME_SYSCALL_STATUS_OK) →
  old ≠ new →
  ∃ i n p leaf, fs_path_is_root old = false ∧ starts_with_slash old = true ∧
    fs_resolve_path fs old = Some i ∧ fs_resolve_path fs new = None ∧
    fs_resolve_parent_path fs new = Some (inr (p, leaf)) ∧ aget (nodes fs) i = Some n ∧
    (n_type n = RUNTIME_FILE_TYPE_DIRECTORY → fs_parent_chain_contains fs p i = Some false) ∧
    fs' = upd_node i (set_parent_name p (copy_name leaf)) fs.
Proof.
  unfold runtime_fs_rename. intros H Hne. revert H. case_if; [done|].
  destruct (name_equals old new) eqn:He; [by apply cstr_equals_eq in He|]. case_if; [done|].
  unfold fs_resolve_existing_path. destruct (starts_with_slash old) eqn:Hs; [cbn [negb]|done].
  destruct (fs_resolve_path fs old) as [i|] eqn:Hold; [|done].
  destruct (fs_resolve_path fs new) eqn:Hnew; [done|].
  destruct (fs_resolve_parent_path fs new) as [[z|[p leaf]]|] eqn:Hr; cbind; [|..|done].
  { intros [= _ Hz]. by apply parent_path_error in Hr. }
  unfold rename_node. destruct (aget (nodes fs) i) as [n|] eqn:Hn; cbind; [|done]. case_if; [done|].
  destruct (aget _ (n_parent_index n)); cbind; [|done]. case_if; [done|].
  destruct (aget _ p); cbind; [|done]. case_if; [done|].
  destruct (if is_type RUNTIME_FILE_TYPE_DIRECTORY n then _ else _) as [[]|] eqn:Hin; cbind; [done| |done].
  intros [= <-]. bools. exists i, n, p, leaf. split_and!; try done. intros Ht.
  unfold is_type in Hin. by rewrite Ht in Hin.
Qed.

(** A successful [runtime_fs_mkdir] adds exactly one path: the new path
    did not resolve before, it now resolves to a directory owned by the
    caller with the given mode, the owner of its parent admits the caller,
    and every other path resolves as before. *)
Theorem runtime_fs_mkdir_adds_path fs pid path mode fs' code :
  inv fs → runtime_fs_mkdir fs pid (Some path) mode = Some (fs', code, RUNTIME_SYSCALL_STATUS_OK) →
  fs_resolve_path fs path = None ∧
  ∃ i n d, aget (nodes fs') i = Some n ∧ n_type n = RUNTIME_FILE_TYPE_DIRECTORY ∧
    n_owner_pid n = pid ∧ n_mode n = mode ∧
    aget (nodes fs) (n_parent_index n) = Some d ∧ fs_node_owner_allows d pid = true ∧
    ∀ q, starts_with_slash q = true →
      fs_resolve_path fs' q = if decide (components q = components path) then Some i
                              else fs_resolve_path fs q.
Proof.
  intros Hi (Hnone & p & leaf & d & i & fs1 & Hpar & Hd & Hown & Ha & ->)%mkdir_ok_inv.
  split; [done|]. pose proof Ha as (_ & -> & n & Hn & _)%alloc_node_Some.
  exists i. eexists _, d. rewrite upd_node_compose, (aget_upd_node_eq _ _ _ _ Hn).
  split_and!; [done..|]. rewrite <-upd_node_compose. by eapply create_adds_path; [..|left].
Qed.

(** C21: in a file system that satisfies the invariant [inv], on a path
    that is not another spelling of the root such as "//" ([root_alias];
    the code refuses only "/" itself), a successful [runtime_fs_remove]
    takes away exactly one path: the node was not open, had no children
    and the owners of it and of its parent admit the caller; afterwards
    every spelling of the path resolves to nothing and every other
    absolute path resolves as before. *)
Theorem runtime_fs_remove_removes_path fs pid path fs' :
  inv fs → ¬ root_alias (Some path) →
  runtime_fs_remove fs pid (Some path) = Some (fs', RUNTIME_SYSCALL_STATUS_OK) →
  ∃ i n d, fs_resolve_path fs path = Some i ∧ aget (nodes fs) i = Some n ∧
    aget (nodes fs) (n_parent_index n) = Some d ∧
    fs_node_owner_allows n pid = true ∧ fs_node_owner_allows d pid = true ∧
    fs_node_is_open fs i = false ∧ fs_node_has_children fs i = false ∧
    ∀ q, starts_with_slash q = true →
      fs_resolve_path fs' q = if decide (components q = components path) then None
                              else fs_resolve_path fs q.
Proof.
  intros Hi Ha Hok. destruct (remove_safe fs pid (Some path) Hi Ha) as (? & ? & Hok' & Hi').
  rewrite Hok in Hok'. injection Hok' as <- <-.
  apply remove_ok_inv in Hok as (i & n & d & Hroot & Hres & Hs & Hn & Hd & Ho1 & Ho2 & Hopen & Hc & ->).
  assert (fs_node_has_children fs i = false) as Hleaf.
  { apply andb_false_iff in Hc as [Hty|]; [|done]. eapply regular_no_children; [apply Hi|done|].
    unfold is_type in Hty. by bools. }
  exists i, n, d. split_and!; try done. intros q Hqs.
  pose proof (resolve_ne_root fs path i Hi (not_root_alias path Ha Hs Hroot) Hres) as Hi0.
  assert (forallb short_name (components path) = true) as Hf.
  { destruct (forallb _ _) eqn:Hf; [done|]. by rewrite resolve_long in Hres. }
  destruct (resolve_walk fs path Hs Hf) as [Hw Hg]. rewrite Hw in Hres.
  destruct (forallb short_name (components q)) eqn:Hqf.
  - rewrite (resolve_lift _ (λ ws, if decide (ws = components path) then None else walk fs 0 ws));
      [|by apply walk_remove|done|done].
    case_decide; [done|]. by destruct (resolve_walk fs q Hqs Hqf) as [-> _].
  - rewrite !resolve_long by done. by case_decide.
Qed.

Lemma rename_same fs pid path fs' z :
  runtime_fs_rename fs pid (Some path) (Some path) = Some (fs', z) → fs' = fs.
Proof.
  unfold runtime_fs_rename. case_if; [by intros [= <-]|].
  assert (name_equals path path = true) as -> by by apply cstr_equals_eq. by intros [= <-].
Qed.

(** C20: in a file system that satisfies the invariant [inv], a successful
    [runtime_fs_rename] of a path that is not another spelling of the root
    such as "//" ([root_alias]; the code refuses only "/" itself): with
    the same old and new path nothing changes; otherwise it moves the
    subtree: an absolute path below the new name resolves to what the
    corresponding path below the old name resolved to, nothing remains
    below the old name, and every other absolute path resolves as before;
    a path with a component of more than 15 characters resolves to
    nothing, before and after; nodes keep their type, owner, mode and
    contents. *)
Theorem runtime_fs_rename_moves_subtree fs pid old new fs' :
  inv fs → ¬ root_alias (Some old) →
  runtime_fs_rename fs pid (Some old) (Some new) = Some (fs', RUNTIME_SYSCALL_STATUS_OK) →
  (old = new → fs' = fs) ∧
  (old ≠ new →
     (∀ q, starts_with_slash q = true → forallb short_name (components q) = true →
        fs_resolve_path fs' q = moved (components old) (components new) (walk fs 0) (components q)) ∧
     (∀ q, forallb short_name (components q) = false →
        fs_resolve_path fs' q = None ∧ fs_resolve_path fs q = None) ∧
     ∀ j n, aget (nodes fs) j = Some n → ∃ n', aget (nodes fs') j = Some n' ∧
       n_type n' = n_type n ∧ n_owner_pid n' = n_owner_pid n ∧ n_mode n' = n_mode n ∧
       n_size_bytes n' = n_size_bytes n ∧ n_data n' = n_data n).
Proof.
  intros Hi Ha Hok. split.
  { intros <-. by eapply rename_same. }
  intros Hne. destruct (rename_safe fs pid (Some old) (Some new) Hi Ha) as (? & ? & Hok' & Hi').
  rewrite Hok in Hok'. injection Hok' as <- <-.
  apply rename_ok_inv in Hok as (i & n & p & leaf & Hroot & Hs & Hold & Hnone & Hpar & Hn & Hchain & ->);
    [|done].
  destruct (parent_path_is_dir _ _ _ _ (inv_wf _ Hi) Hpar) as [Hd Hg].
  rewrite copy_name_short in * by apply Hg. split; [|split; [by split; apply resolve_long|]].
  - pose proof (resolve_ne_root fs old i Hi (not_root_alias old Ha Hs Hroot) Hold) as Hi0.
    apply parent_path_inr in Hpar as (init & Hns & Heq & Hnf & Hw%walk_dirs_walk & _).
    assert (forallb short_name (components old) = true) as Hf.
    { destruct (forallb short_name (components old)) eqn:Hf; [done|]. by rewrite resolve_long in Hold. }
    destruct (resolve_walk fs old Hs Hf) as [Hwo Hgo]. rewrite Hwo in Hold.
    destruct (resolve_walk fs new Hns Hnf) as [Hwn Hgn]. rewrite Hwn in Hnone. rewrite Heq in *.
    apply resolve_lift, walk_moved; try done. intros ws Hgw Hws.
    destruct (decide (n_type n = RUNTIME_FILE_TYPE_DIRECTORY)) as [Hty|Hty].
    + by apply (walk_below fs i ws p CHAIN_FUEL Hi Hi0 Hgw Hws), Hchain.
    + destruct Hd as (d & Hd & Hud & Htd). destruct ws as [|v ws]; [simplify_eq/=; congruence|].
      cbn [walk] in Hws. destruct (fs_find_child fs i v) as [c|] eqn:Hc; [|done].
      apply fs_find_child_Some in Hc as (m & Hm & Hum & Hpm & _).
      destruct (used_parent_dir _ _ _ (inv_wf _ Hi) Hm Hum) as (e & He & _ & Hte). congruence.
  - intros j m Hm. rewrite aget_upd_node, Hm. case_decide; [|by exists m].
    eexists. split; [done|]. by destruct m.
Qed.

(** [runtime_fs_mkdir], [runtime_fs_remove] and [runtime_fs_rename] are
    atomic: a call that reports an error changes nothing. *)
Theorem failed_tree_operation_changes_nothing fs fs' pid path new_path mode :
  (∀ code z, runtime_fs_mkdir fs pid path mode = Some (fs', code, z) →
             z ≠ RUNTIME_SYSCALL_STATUS_OK → fs' = fs) ∧
  (∀ z, runtime_fs_remove fs pid path = Some (fs', z) → z ≠ RUNTIME_SYSCALL_STATUS_OK → fs' = fs) ∧
  (∀ z, runtime_fs_rename fs pid path new_path = Some (fs', z) →
        z ≠ RUNTIME_SYSCALL_STATUS_OK → fs' = fs).
Proof.
  split_and!.
  - intros code z. unfold runtime_fs_mkdir. destruct path as [path|]; [|naive_solver].
    case_if; [destruct (path_word path 0); cbind; naive_solver|].
    destruct (fs_resolve_path fs path); [naive_solver|].
    destruct (path_word path 1); cbind; [|done]. destruct (path_word path 3); cbind; [|done].
    destruct (fs_resolve_parent_path fs path) as [[|[p leaf]]|]; cbind; [naive_solver| |done].
    destruct (aget (nodes fs) p); cbind; [|done]. case_if; [naive_solver|].
    destruct (fs_alloc_node fs) as [[??]|]; naive_solver.
  - intros z. unfold runtime_fs_remove. destruct path as [path|]; [|naive_solver].
    repeat (case_if; [naive_solver|]). destruct (fs_resolve_existing_path fs path); [naive_solver|].
    do 2 (destruct (aget _ _); cbind; [|done]; case_if; [naive_solver|]).
    repeat (case_if; [naive_solver|]). naive_solver.
  - intros z. unfold runtime_fs_rename. destruct path as [path|], new_path as [new|];
      [|naive_solver..].
    repeat (case_if; [naive_solver|]). destruct (fs_resolve_existing_path fs path); [naive_solver|].
    destruct (fs_resolve_path fs new); [naive_solver|].
    destruct (fs_resolve_parent_path fs new) as [[|[p leaf]]|]; cbind; [naive_solver| |done].
    unfold rename_node. destruct (aget (nodes fs) n) as [node|]; cbind; [|done].
    case_if; [naive_solver|].
    destruct (aget (nodes fs) (n_parent_index node)); cbind; [|done]. case_if; [naive_solver|].
    destruct (aget (nodes fs) p); cbind; [|done]. case_if; [naive_solver|].
    destruct (if is_type _ _ then _ else _) as [[]|]; cbind; naive_solver.
Qed.
