(* ===== verification/RuntimeFsAccess.v ===== *)
(** * Opening files and listing directories

    What a successful [runtime_fs_open] guarantees, what [runtime_fs_readdir]
    enumerates, and the two places where the checks of the code come too late
    or wrap around. *)

From S2P Require Import Prelude RuntimeFs RuntimeFsInv RuntimeFsPath RuntimeFsSteps RuntimeFsSafety RuntimeFsTree RuntimeFsContents.

Local Open Scope N_scope.

(** ** Resolution and the open-file table *)

Lemma walk_shape fs i f c ws :
  (∀ n, same_shape n (f n)) → walk (upd_node i f fs) c ws = walk fs c ws.
Proof.
  intros Hs. revert c. induction ws as [|w ws IH]; intros c; [done|]. cbn [walk].
  assert (fs_find_child (upd_node i f fs) c w = fs_find_child fs c w) as ->.
  { unfold fs_find_child, upd_node, set_nodes. cbn [nodes]. apply find_idx_aupd. intros _ n.
    destruct (Hs n) as (-> & _ & -> & ->). done. }
  destruct (fs_find_child fs c w); cbind; [apply IH|done].
Qed.

Lemma resolve_shape fs i f q :
  (∀ n, same_shape n (f n)) → fs_resolve_path (upd_node i f fs) q = fs_resolve_path fs q.
Proof. intros Hs. rewrite !fs_resolve_path_spec. by rewrite walk_shape. Qed.

Lemma walk_upd_file fs i f c ws : walk (upd_file i f fs) c ws = walk fs c ws.
Proof. 
  revert c. induction ws as [|w ws IH]; intros c; [done|]. cbn [walk].
  assert (fs_find_child (upd_file i f fs) c w = fs_find_child fs c w) as -> by done.
  destruct (fs_find_child fs c w); cbind; [apply IH|done].
Qed.

Lemma resolve_upd_file fs i f q : fs_resolve_path (upd_file i f fs) q = fs_resolve_path fs q.
Proof. rewrite !fs_resolve_path_spec. by rewrite walk_upd_file. Qed.

(** ** Opening *)

Lemma open_slot_lookup fs obj o :
  length (open_files fs) = 8%nat → 1 ≤ obj ≤ 8 → of_used o ≠ 0 →
  fs_open_file_lookup (upd_file (obj - 1) (λ _, o) fs) obj = Some o.
Proof.
  intros Hl Hb Hu. unfold fs_open_file_lookup, RUNTIME_FS_MAX_OPEN_FILES.
  destruct (aget_is_Some (open_files fs) (obj - 1)) as [x Hx]; [lia|].
  rewrite aget_upd_file, decide_True, Hx by done. cbn.
  destruct (N.eqb_spec obj 0), (N.ltb_spec 8 obj), (N.eqb_spec (of_used o) 0); simpl; lia || done.
Qed.

(** What the first half of [runtime_fs_open] establishes. *)
Lemma open_target_ok fs pid path flags fs' i :
  inv fs → starts_with_slash path = true → open_target fs pid path flags = Some (fs', inr i) →
  open_files fs' = open_files fs ∧
  ∀ q, starts_with_slash q = true →
    fs_resolve_path fs' q = if decide (components q = components path) then Some i
                            else fs_resolve_path fs q.
Proof.
  intros Hi Hs. unfold open_target. destruct (fs_resolve_path fs path) as [j|] eqn:Hres.
  { intros [= <- <-]. split; [done|]. intros q Hq. case_decide as Hc; [|done].
    rewrite fs_resolve_path_spec, Hq, Hc. by rewrite fs_resolve_path_spec, Hs in Hres. }
  case_if; [done|].
  destruct (fs_resolve_parent_path fs path) as [[z|[p leaf]]|] eqn:Hpar; cbind; [done| |done].
  destruct (aget (nodes fs) p) as [d|]; cbind; [|done]. case_if; [done|].
  destruct (fs_alloc_node fs) as [[j fs1]|] eqn:Ha; [|done]. intros [= <- <-]. split.
  - by apply alloc_node_Some in Ha as (_ & -> & _).
  - eapply create_adds_path; try done. by right.
Qed.

(** The second half, when it succeeds. *)
Lemma open_node_ok fs pid i flags fs' obj :
  inv fs → open_node fs pid i flags = Some (fs', Some obj, RUNTIME_SYSCALL_STATUS_OK) →
  ∃ n fs1, aget (nodes fs) i = Some n ∧
    fs1 = (if has_flag flags RUNTIME_FILE_OPEN_TRUNCATE && is_type RUNTIME_FILE_TYPE_REGULAR n
           then upd_node i truncate_node fs else fs) ∧
    open_mode_status n flags = RUNTIME_SYSCALL_STATUS_OK ∧
    (has_flag flags RUNTIME_FILE_OPEN_WRITE = true → fs_node_has_open_writer fs i = false) ∧
    (has_flag flags (N.lor RUNTIME_FILE_OPEN_WRITE RUNTIME_FILE_OPEN_TRUNCATE) = true →
       fs_node_owner_allows n pid = true) ∧
    1 ≤ obj ≤ 8 ∧ fs_open_file_lookup fs obj = None ∧
    fs' = upd_file (obj - 1) (λ _, OpenFile 1 i pid flags 0 0) fs1.
Proof.
  intros Hi. unfold open_node. destruct (aget (nodes fs) i) as [n|]; cbind; [|done]. case_if; [done|].
  match goal with |- context [if ?b then upd_node i truncate_node fs else fs] =>
    remember (if b then upd_node i truncate_node fs else fs) as fs1 eqn:Hfs1 end.
  assert (open_files fs1 = open_files fs) as Hof by (subst fs1; by case_if).
  assert (typed fs1) as Ht.
  { subst fs1. case_if; [apply inv_typed, truncate_inv|apply inv_typed]; done. }
  assert (fs_node_has_open_writer fs1 i = fs_node_has_open_writer fs i) as ->
    by (unfold fs_node_has_open_writer; by rewrite Hof).
  case_if; [done|]. case_if; [done|]. bools.
  destruct (open_slot_alloc_cases fs1 i flags Ht) as [[-> _]|(j & o & -> & Hj & Ho & Hu)]; [done|].
  destruct (slot_cast j Hj) as [-> ->]. destruct (Z.ltb_spec (Z.of_N (j + 1)) 0); [lia|].
  intros [= <- <-]. exists n, fs1. split_and!; try done; try lia.
  - intros Hw. rewrite Hw in *. done.
  - intros Hw. rewrite Hw in *. simpl in *. by bools.
  - unfold fs_open_file_lookup. rewrite <-Hof. replace (j + 1 - 1) with j by lia. rewrite Ho, Hu.
    by case_if.
  - replace (j + 1 - 1) with j by lia. by rewrite upd_file_compose.
Qed.

(** A successful [runtime_fs_open] yields a descriptor that was free and
    now refers, with the given flags and the caller as owner, to the node the
    path resolves to; no other path changes its meaning.  Write access
    implies a writable regular file with no other writer, read access a
    readable node, and write or truncate access that the owner of the node
    admits the caller. *)
Theorem runtime_fs_open_grants fs pid path flags fs' obj :
  inv fs →
  runtime_fs_open fs pid (Some path) flags true = Some (fs', Some obj, RUNTIME_SYSCALL_STATUS_OK) →
  fs_open_file_lookup fs obj = None ∧
  ∃ i n, open_node_of fs' obj = Some (OpenFile 1 i pid flags 0 0, n) ∧
    (∀ q, starts_with_slash q = true →
       fs_resolve_path fs' q = if decide (components q = components path) then Some i
                               else fs_resolve_path fs q) ∧
    (has_flag flags RUNTIME_FILE_OPEN_WRITE = true →
       n_type n = RUNTIME_FILE_TYPE_REGULAR ∧ has_flag (n_mode n) 146 = true ∧
       fs_node_has_open_writer fs i = false) ∧
    (has_flag flags RUNTIME_FILE_OPEN_READ = true → has_flag (n_mode n) 292 = true) ∧
    (has_flag flags (N.lor RUNTIME_FILE_OPEN_WRITE RUNTIME_FILE_OPEN_TRUNCATE) = true →
       fs_node_owner_allows n pid = true).
Proof.
  intros Hi. unfold runtime_fs_open. destruct (starts_with_slash path) eqn:Hs; [cbn [negb orb]|done].
  destruct (open_target_safe fs pid path flags Hi) as (fs0 & r & Ht & Hi0 & _). rewrite Ht. cbind.
  destruct r as [z|i]; [done|]. intros Hok.
  destruct (open_target_ok fs pid path flags fs0 i Hi Hs Ht) as [Hof Hq].
  apply open_node_ok in Hok as (n & fs1 & Hn & Hfs1 & Hst & Hw & Hown & Hb & Hfree & ->); [|done].
  assert (fs_open_file_lookup fs obj = None) as Hfree'
    by (unfold fs_open_file_lookup in *; by rewrite <-Hof).
  split; [done|].
  assert (∃ n1, aget (nodes fs1) i = Some n1 ∧ n_type n1 = n_type n ∧ n_mode n1 = n_mode n ∧
            n_owner_pid n1 = n_owner_pid n) as (n1 & Hn1 & Et & Em & Eo).
  { subst fs1. case_if; [|by exists n]. exists (truncate_node n). split; [by apply aget_upd_node_eq|].
    by destruct n. }
  exists i, n1. split_and!.
  - apply open_node_of_Some. split; [|done]. apply open_slot_lookup; [|done|done]. subst fs1.
    case_if; [apply typed_files, inv_typed, truncate_inv|apply typed_files, inv_typed]; done.
  - intros q Hqs. rewrite resolve_upd_file. subst fs1.
    case_if; [rewrite resolve_shape by (by intros [])|]; by apply Hq.
  - intros Hwr. unfold open_mode_status in Hst. rewrite Hwr, Et, Em in *. simpl in Hst.
    unfold is_type, fs_node_has_open_writer in *. rewrite Hof in Hw.
    destruct (N.eqb_spec (n_type n) RUNTIME_FILE_TYPE_DIRECTORY); [done|].
    destruct (N.eqb_spec (n_type n) RUNTIME_FILE_TYPE_REGULAR); [|done]. simpl in Hst.
    split_and!; [done| |by apply Hw]. by destruct (has_flag (n_mode n) 146).
  - intros Hrd. unfold open_mode_status in Hst. rewrite Hrd, Em in *.
    destruct (has_flag (n_mode n) 292); [done|]. simpl in Hst. by repeat case_if.
  - unfold fs_node_owner_allows in *. by rewrite Eo.
Qed.

(** ** Listing a directory *)

(** The entries below directory [d] from slot [k] on: one per used node. *)
Fixpoint entries (d k : N) (l : list runtime_fs_node) (cursor : N) : list runtime_dir_entry :=
  match l with
  | [] => []
  | n :: l' =>
      if (cursor <=? k) && nz (n_used n) && (n_parent_index n =? d)
      then DirEntry (n_type n) (n_name n) :: entries d (k + 1) l' cursor
      else entries d (k + 1) l' cursor
  end.

(** Calling [runtime_fs_readdir] until it reports the end. *)
Fixpoint readdir_all (fuel : nat) (fs : runtime_fs) (obj : N) : option (list runtime_dir_entry) :=
  match fuel with
  | O => None
  | S fuel' =>
      r ← runtime_fs_readdir fs obj true;
      match r with
      | (fs', Some e, _) => rest ← readdir_all fuel' fs' obj; Some (e :: rest)
      | (_, None, z) => if bool_decide (z = 0%Z) then Some [] else None
      end
  end.

Lemma entries_find d k l c :
  entries d k l c =
    match find_from (λ i n, (c <=? i) && nz (n_used n) && (n_parent_index n =? d)) k l with
    | None => []
    | Some i => match aget l (i - k) with
                | Some n => DirEntry (n_type n) (n_name n) :: entries d k l (i + 1)
                | None => []
                end
    end.
Proof.
  assert (∀ l k c c', c ≤ k → c' ≤ k → entries d k l c = entries d k l c') as Hirr.
  { clear. induction l as [|n l IH]; intros k c c' H H'; [done|]. cbn [entries].
    destruct (N.leb_spec c k), (N.leb_spec c' k); try lia. by rewrite (IH _ c c') by lia. }
  revert k. induction l as [|n l IH]; intros k; [done|]. cbn [entries find_from].
  destruct ((c <=? k) && nz (n_used n) && (n_parent_index n =? d)) eqn:Hn.
  - rewrite N.sub_diag. lookups. cbn [lookup list_lookup N.to_nat]. csimpl. bools.
    destruct (N.leb_spec (k + 1) k); [lia|]. simpl. f_equal. apply Hirr; lia.
  - rewrite IH. destruct (find_from _ (k + 1) l) as [i|] eqn:Hi; [|done].
    apply find_from_Some in Hi as (j & x & -> & Hx & _). replace (k + 1 + j - (k + 1)) with j by lia.
    replace (k + 1 + j - k) with (j + 1) by lia. rewrite <-(aget_tail (n :: l)) by lia. simpl tail.
    replace (j + 1 - 1) with j by lia. rewrite Hx.
    destruct (N.leb_spec (k + 1 + j + 1) k); [lia|]. done.
Qed.

Lemma readdir_all_spec fuel fs obj o n :
  inv fs → open_node_of fs obj = Some (o, n) →
  has_flag (of_flags o) RUNTIME_FILE_OPEN_READ = true → n_type n = RUNTIME_FILE_TYPE_DIRECTORY →
  of_dir_cursor o ≤ 16 → (16 < fuel + N.to_nat (of_dir_cursor o))%nat →
  readdir_all fuel fs obj = Some (entries (of_node_index o) 0 (nodes fs) (of_dir_cursor o)).
Proof.
  revert fs o. induction fuel as [|fuel IH]; intros fs o Hi Hon Hrd Ht Hc Hf; [lia|].
  pose proof Hon as [Ho Hn]%open_node_of_Some. cbn [readdir_all].
  unfold runtime_fs_readdir at 1. cbn [negb]. rewrite Ho, Hrd, Hn. cbn [negb]. cbind.
  unfold is_type. rewrite Ht, N.eqb_refl. cbn [negb]. rewrite entries_find.
  unfold find_idx. destruct (find_from _ 0 (nodes fs)) as [i|] eqn:Hi0; [|done].
  rewrite N.sub_0_r. pose proof Hi0 as (j & m & -> & Hm & Hfm & _)%find_from_Some.
  rewrite N.add_0_l in *. rewrite Hm. cbind. bools.
  pose proof (aget_Some_lt _ _ _ Hm) as Hlt. rewrite (typed_nodes _ (inv_typed _ Hi)) in Hlt.
  assert (copy_name (n_name m) = n_name m) as ->.
  { destruct (decide (j = 0)) as [->|Hj].
    - destruct (wf_root _ (inv_wf _ Hi)) as (r & Hr & (_ & _ & _ & Hrn)%root_is_valid_iff).
      simplify_eq. by rewrite Hrn.
    - apply copy_name_short. by destruct (inv_names _ Hi j m Hj Hm ltac:(done)) as (_ & ? & _). }
  rewrite u32_small by lia.
  destruct (readdir_safe fs obj true Hi) as (fs1 & e & z & Hsafe & Hi1).
  assert (inv (upd_file (obj - 1) (set_dir_cursor (j + 1)) fs)) as Hi2.
  { eapply inv_cursor; [done..|by intros []|]. intros m' Hm' Hreg. simplify_eq.
    unfold RUNTIME_FILE_TYPE_DIRECTORY, RUNTIME_FILE_TYPE_REGULAR in *. lia. }
  rewrite (IH _ (set_dir_cursor (j + 1) o) Hi2); [by destruct o| |by destruct o|done|destruct o; simpl; lia..].
  apply open_node_of_Some. split; [|by destruct o].
  by rewrite (open_file_lookup_upd fs obj o); [|done|destruct o].
Qed.

(** Reading a freshly opened directory to its end lists every used node
    whose parent is the directory, each exactly once and in slot order, and
    then reports the end; seventeen calls always suffice. *)
Theorem readdir_lists_children fs obj o n :
  inv fs → open_node_of fs obj = Some (o, n) →
  has_flag (of_flags o) RUNTIME_FILE_OPEN_READ = true → n_type n = RUNTIME_FILE_TYPE_DIRECTORY →
  of_dir_cursor o = 0 →
  readdir_all 17 fs obj = Some (entries (of_node_index o) 0 (nodes fs) 0).
Proof. intros. rewrite (readdir_all_spec 17 fs obj o n) by (done || lia). congruence. Qed.

(** ** Where the checks fail *)

(** Opening with the truncate flag empties a regular file before the
    owner check: a process the owner does not admit gets [EACCES] and the
    contents are gone. *)
Theorem denied_open_still_truncates fs pid path i n :
  fs_resolve_path fs path = Some i → starts_with_slash path = true →
  aget (nodes fs) i = Some n → n_type n = RUNTIME_FILE_TYPE_REGULAR →
  fs_node_owner_allows n pid = false →
  runtime_fs_open fs pid (Some path) RUNTIME_FILE_OPEN_TRUNCATE true =
    Some (upd_node i truncate_node fs, None, RUNTIME_SYSCALL_STATUS_EACCES) ∧
  ∃ n', aget (nodes (upd_node i truncate_node fs)) i = Some n' ∧ n_size_bytes n' = 0.
Proof.
  intros Hres Hs Hn Ht Hown. unfold runtime_fs_open, open_target. rewrite Hs, Hres. cbn [negb orb].
  cbind. unfold open_node. rewrite Hn. cbind. unfold open_mode_status, is_type. rewrite Ht, Hown.
  cbn. split; [done|]. exists (truncate_node n). split; [by apply aget_upd_node_eq|by destruct n].
Qed.

Lemma store_bytes_overrun data offset bytes :
  (length data < N.to_nat offset + length bytes)%nat → bytes ≠ [] →
  store_bytes data offset bytes = None.
Proof.
  revert data offset. induction bytes as [|b bytes IH]; intros data offset H Hne; [done|].
  cbn [store_bytes]. simpl in H. destruct (decide (N.to_nat offset < length data)%nat).
  - rewrite aset_Some by lia. cbind. apply IH; [rewrite length_insert; lia|].
    intros ->. simpl in H. lia.
  - unfold aset. destruct (N.ltb_spec offset (N.of_nat (length data))); [lia|done].
Qed.

(** The capacity check of [runtime_fs_write] adds offset and size in 32
    bits: through a descriptor whose offset is not 0, a size that makes the
    sum wrap to at most the capacity passes the check, and the write runs
    past the 256-byte array. *)
Theorem write_size_wraps fs obj o n bytes size :
  inv fs → open_node_of fs obj = Some (o, n) →
  has_flag (of_flags o) RUNTIME_FILE_OPEN_WRITE = true →
  size < 4294967296 → 4294967296 ≤ of_offset o + size →
  RUNTIME_FS_FILE_CAPACITY <? u32 (of_offset o + size) = false ∧
  runtime_fs_write fs obj (Some bytes) size = None.
Proof.
  intros Hi Hon Hwr Hsz Hwrap. pose proof (writable_regular _ _ _ _ Hi Hon Hwr) as Ht.
  apply open_node_of_Some in Hon as [Ho Hn].
  destruct (open_file_node fs obj o (inv_wf _ Hi) Ho) as (n_ & Hn_ & _ & Hoff & _). simplify_eq.
  specialize (Hoff Ht). unfold RUNTIME_FS_FILE_CAPACITY in *.
  assert (u32 (of_offset o + size) = of_offset o + size - 4294967296) as Hu.
  { unfold u32. replace (of_offset o + size) with (of_offset o + size - 4294967296 + 1 * 4294967296)
      at 1 by lia. rewrite N.Div0.mod_add. apply N.mod_small. lia. }
  assert (256 <? u32 (of_offset o + size) = false) as Hpass by (apply N.ltb_ge; lia).
  split; [done|]. unfold runtime_fs_write, RUNTIME_FS_FILE_CAPACITY. rewrite Ho, Hwr, Hn. cbn [negb].
  cbind. unfold is_type. rewrite Ht, N.eqb_refl. cbn [negb]. rewrite Hpass.
  destruct (N.ltb_spec (N.of_nat (length bytes)) size) as [|Hlen]; [done|].
  rewrite store_bytes_overrun; [done|..].
  - rewrite length_take. pose proof (typed_data _ (inv_typed _ Hi) _ _ Hn).
    assert (length (if n_size_bytes n <? of_offset o
              then fs_zero_range (n_data n) (n_size_bytes n) (of_offset o) else n_data n) = 256%nat)
      as -> by (case_if; by rewrite ?fs_zero_range_length). lia.
  - intros Hnil. apply (f_equal length) in Hnil. rewrite length_take in Hnil. simpl in Hnil. lia.
Qed.

(** The guard of [runtime_fs_remove] knows only one spelling of the root:
    removing ["//"] from an empty file system succeeds, and the result is no
    file system any more. *)
Lemma remove_accepts_root_alias :
  ∃ fs, runtime_fs_remove runtime_fs_init 1 (Some (cs "//")) = Some (fs, RUNTIME_SYSCALL_STATUS_OK) ∧
        runtime_fs_validate fs = Some (0xD001, RUNTIME_SYSCALL_STATUS_EINVAL).
Proof. eexists. split; vm_compute; reflexivity. Qed.

(** * Concrete runs of the file system

    A file system built by running operations, and the theorems of the
    [RuntimeFs*] files applied to it. *)

(** A directory [/a] with a file [/a/f] held open read-write (descriptor 1)
    at offset 2 of its three bytes, and [/a] open for reading (descriptor 2);
    both belong to process 1. *)
Definition demo_ops : list fs_op :=
  [OpMkdir 1 (Some (cs "/a//")) 493; OpOpen 1 (Some (cs "/a/f")) 7 true;
   OpWrite 1 (Some [5; 6; 7]) 3; OpSeek 1 2 RUNTIME_FILE_SEEK_SET;
   OpOpen 1 (Some (cs "/a")) 1 true].

Definition demo : runtime_fs :=
  match run_ops runtime_fs_init demo_ops with Some (fs, _) => fs | None => runtime_fs_init end.

Definition demo_file : runtime_fs_open_file := OpenFile 1 2 1 7 2 0.
Definition demo_dir : runtime_fs_open_file := OpenFile 1 1 1 1 0 0.
Definition demo_node (i : nat) : runtime_fs_node := nth i (nodes demo) cleared_node.

Lemma not_alias path w ws : components path = w :: ws → ¬ root_alias (Some path).
Proof. intros H (_ & _ & Hc). congruence. Qed.

Lemma demo_ops_safe : Forall op_safe demo_ops.
Proof.
  repeat (apply Forall_cons; split; [try done|]); [| |by apply Forall_nil].
  - intros p [= <-]. split; [done|]. intros _. cbn. lia.
  - split; [lia|by intros ? [= <-]].
Qed.

(** On a path of two characters [runtime_fs_mkdir] reads past the end. *)
Lemma mkdir_reads_past_short_paths :
  runtime_fs_mkdir runtime_fs_init 1 (Some (cs "/a")) 493 = None.
Proof. vm_compute. reflexivity. Qed.

Lemma demo_inv : inv demo.
Proof.
  destruct (run_ops_inv _ _ init_inv demo_ops_safe) as (fs & zs & Hrun & Hi).
  unfold demo. by rewrite Hrun.
Qed.

Lemma validate_decides_wf_witness :
  runtime_fs_validate demo = Some (0xDFFF, RUNTIME_SYSCALL_STATUS_OK) ∧ wf demo.
Proof.
  assert (runtime_fs_validate demo = Some (0xDFFF, RUNTIME_SYSCALL_STATUS_OK)) as H
    by (vm_compute; reflexivity).
  split; [exact H|]. apply (validate_decides_wf demo (inv_typed _ demo_inv)). exact H.
Defined.

Lemma operations_stay_valid_witness :
  ∃ fs zs, run_ops runtime_fs_init demo_ops = Some (fs, zs) ∧
           runtime_fs_validate fs = Some (0xDFFF, RUNTIME_SYSCALL_STATUS_OK).
Proof. apply (operations_stay_valid demo_ops demo_ops_safe). Defined.

Lemma runtime_fs_write_refines_witness :
  ∃ fs' n', runtime_fs_write demo 1 (Some [8; 9]) 2 = Some (fs', 2%Z) ∧ contents n' = [5; 6; 8; 9] ∧
    open_node_of fs' 1 = Some (set_offset 4 demo_file, n').
Proof.
  destruct (runtime_fs_write_refines demo 1 demo_file (demo_node 2) [8; 9] demo_inv)
    as (fs' & n' & Hw & Ho & Hc & _); [vm_compute; reflexivity..|].
  exists fs', n'. split; [exact Hw|]. split; [rewrite Hc; vm_compute; reflexivity|exact Ho].
Defined.

Lemma runtime_fs_read_refines_witness :
  ∃ fs', runtime_fs_read demo 1 true 10 = Some (fs', [7], 1%Z).
Proof.
  destruct (runtime_fs_read_refines demo 1 demo_file (demo_node 2) 10 demo_inv)
    as (fs' & Hr & _); [vm_compute; reflexivity..|].
  exists fs'. exact Hr.
Defined.

Lemma runtime_fs_seek_position_witness :
  ∃ fs', runtime_fs_seek demo 1 (-1) RUNTIME_FILE_SEEK_END = Some (fs', 2%Z).
Proof.
  destruct (runtime_fs_seek_position demo 1 demo_file (demo_node 2) (-1) RUNTIME_FILE_SEEK_END)
    as (fs' & Hs & _); [vm_compute; reflexivity..|].
  exists fs'. exact Hs.
Defined.

Lemma write_seek_read_roundtrip_witness :
  ∃ fs1 fs2 fs3,
    runtime_fs_write demo 1 (Some [8; 9]) 2 = Some (fs1, 2%Z) ∧
    runtime_fs_seek fs1 1 2 RUNTIME_FILE_SEEK_SET = Some (fs2, 2%Z) ∧
    runtime_fs_read fs2 1 true 2 = Some (fs3, [8; 9], 2%Z).
Proof.
  apply (write_seek_read_roundtrip demo 1 demo_file (demo_node 2) [8; 9] demo_inv);
    vm_compute; try reflexivity; intros [=].
Defined.

Lemma runtime_fs_mkdir_adds_path_witness :
  ∃ fs' code i, runtime_fs_mkdir demo 1 (Some (cs "/a/b")) 493 =
                  Some (fs', code, RUNTIME_SYSCALL_STATUS_OK) ∧
    fs_resolve_path demo (cs "/a/b") = None ∧ fs_resolve_path fs' (cs "//a/b/") = Some i.
Proof.
  destruct (runtime_fs_mkdir demo 1 (Some (cs "/a/b")) 493) as [[[fs' code] z]|] eqn:H;
    [|vm_compute in H; discriminate].
  assert (z = RUNTIME_SYSCALL_STATUS_OK) as -> by (vm_compute in H; by simplify_eq).
  destruct (runtime_fs_mkdir_adds_path demo 1 (cs "/a/b") 493 fs' code demo_inv H)
    as (Hnone & i & _ & _ & _ & _ & _ & _ & _ & _ & Hq).
  exists fs', code, i. split; [reflexivity|]. split; [exact Hnone|].
  rewrite (Hq (cs "//a/b/") eq_refl). vm_compute. reflexivity.
Defined.

Lemma runtime_fs_remove_removes_path_witness :
  ∃ fs fs', run_ops demo [OpClose 1] = Some (fs, [0%Z]) ∧
    runtime_fs_remove fs 1 (Some (cs "/a/f")) = Some (fs', RUNTIME_SYSCALL_STATUS_OK) ∧
    fs_resolve_path fs' (cs "/a/f") = None ∧
    fs_resolve_path fs' (cs "/a") = fs_resolve_path fs (cs "/a").
Proof.
  destruct (run_ops_inv demo [OpClose 1] demo_inv (Forall_cons_2 op_safe (OpClose 1) [] I (Forall_nil_2 _)))
    as (fs & zs & Hrun & Hi).
  destruct (runtime_fs_remove fs 1 (Some (cs "/a/f"))) as [[fs' z]|] eqn:H;
    [|vm_compute in Hrun; injection Hrun as <- <-; vm_compute in H; discriminate].
  assert (z = RUNTIME_SYSCALL_STATUS_OK) as ->
    by (vm_compute in Hrun; injection Hrun as <- <-; vm_compute in H; by simplify_eq).
  exists fs, fs'. split; [rewrite Hrun; vm_compute in Hrun; congruence|]. split; [exact H|].
  destruct (runtime_fs_remove_removes_path fs 1 (cs "/a/f") fs' Hi
              (not_alias (cs "/a/f") _ _ eq_refl) H) as (i & _ & _ & _ & _ & _ & _ & _ & _ & _ & Hq).
  split; [exact (Hq (cs "/a/f") eq_refl)|exact (Hq (cs "/a") eq_refl)].
Defined.

Lemma runtime_fs_rename_moves_subtree_witness :
  ∃ fs', runtime_fs_rename demo 1 (Some (cs "/a")) (Some (cs "/b")) =
           Some (fs', RUNTIME_SYSCALL_STATUS_OK) ∧
    fs_resolve_path fs' (cs "/b/f") = Some 2 ∧ fs_resolve_path fs' (cs "/a/f") = None.
Proof.
  destruct (runtime_fs_rename demo 1 (Some (cs "/a")) (Some (cs "/b"))) as [[fs' z]|] eqn:H;
    [|vm_compute in H; discriminate].
  assert (z = RUNTIME_SYSCALL_STATUS_OK) as -> by (vm_compute in H; by simplify_eq).
  destruct (runtime_fs_rename_moves_subtree demo 1 (cs "/a") (cs "/b") fs' demo_inv
    (not_alias (cs "/a") _ _ eq_refl) H) as [_ Hmoved].
  destruct (Hmoved ltac:(discriminate)) as [Hq _].
  exists fs'. split; [reflexivity|]. split.
  - rewrite (Hq (cs "/b/f") eq_refl eq_refl). vm_compute. reflexivity.
  - rewrite (Hq (cs "/a/f") eq_refl eq_refl). vm_compute. reflexivity.
Defined.

Lemma runtime_fs_open_grants_witness :
  ∃ fs' obj i n, runtime_fs_open demo 1 (Some (cs "/a/g")) 6 true =
                   Some (fs', Some obj, RUNTIME_SYSCALL_STATUS_OK) ∧
    open_node_of fs' obj = Some (OpenFile 1 i 1 6 0 0, n) ∧ fs_node_owner_allows n 1 = true.
Proof.
  destruct (runtime_fs_open demo 1 (Some (cs "/a/g")) 6 true) as [[[fs' [obj|]] z]|] eqn:H;
    [|vm_compute in H; discriminate..].
  assert (z = RUNTIME_SYSCALL_STATUS_OK) as -> by (vm_compute in H; by simplify_eq).
  destruct (runtime_fs_open_grants demo 1 (cs "/a/g") 6 fs' obj demo_inv H)
    as (_ & i & n & Hn & _ & _ & _ & Hown).
  exists fs', obj, i, n. split; [reflexivity|]. split; [exact Hn|apply Hown; vm_compute; reflexivity].
Defined.

Lemma readdir_lists_children_witness :
  readdir_all 17 demo 2 = Some [DirEntry RUNTIME_FILE_TYPE_REGULAR (cs "f")].
Proof.
  rewrite (readdir_lists_children demo 2 demo_dir (demo_node 1) demo_inv) by (vm_compute; reflexivity).
  vm_compute. reflexivity.
Defined.

Lemma denied_open_still_truncates_witness :
  ∃ fs', runtime_fs_open demo 9 (Some (cs "/a/f")) RUNTIME_FILE_OPEN_TRUNCATE true =
           Some (fs', None, RUNTIME_SYSCALL_STATUS_EACCES) ∧
         n_size_bytes (nth 2 (nodes fs') cleared_node) = 0.
Proof.
  destruct (denied_open_still_truncates demo 9 (cs "/a/f") 2 (demo_node 2)) as [H _];
    [vm_compute; reflexivity..|].
  eexists. split; [exact H|vm_compute; reflexivity].
Defined.

Lemma write_size_wraps_witness :
  runtime_fs_write demo 1 (Some [1]) 4294967294 = None.
Proof.
  apply (write_size_wraps demo 1 demo_file (demo_node 2) [1] 4294967294 demo_inv);
    vm_compute; try reflexivity; intros [=].
Defined.
