(* ===== verification/RuntimeFsImage.v ===== *)
(** * File-system images ([kernel/runtime_fs_image.c])

    An image is a header, a record for each used node, a hash tree over the
    records, and the contents of the files.  A buffer is the list of its bytes;
    [None] is an access outside it or a shift by the width of the word.  The
    file system and the buffers may be NULL ([None] of an argument), except the
    file system, which is a static object of the kernel. *)

From S2P Require Import Prelude RuntimeFs.

Local Open Scope N_scope.

(** ** Constants ([include/runtime_fs_image.h]) *)

Definition RUNTIME_FS_IMAGE_MAGIC : N := 0x31465354.
Definition RUNTIME_FS_IMAGE_VERSION : N := 1.
Definition RUNTIME_FS_IMAGE_HEADER_WORDS : N := 10.
Definition RUNTIME_FS_IMAGE_HEADER_BYTES : N := RUNTIME_FS_IMAGE_HEADER_WORDS * 4.
Definition RUNTIME_FS_IMAGE_RECORD_WORDS : N := 10.
Definition RUNTIME_FS_IMAGE_RECORD_BYTES : N := RUNTIME_FS_IMAGE_RECORD_WORDS * 4 + RUNTIME_FS_NAME_CAPACITY.
Definition RUNTIME_FS_IMAGE_MAX_TREE_LEAVES : N := RUNTIME_FS_MAX_NODES.
Definition RUNTIME_FS_IMAGE_MAX_TREE_HASHES : N := RUNTIME_FS_IMAGE_MAX_TREE_LEAVES * 2 - 1.
Definition RUNTIME_FS_IMAGE_MAX_BYTES : N :=
  RUNTIME_FS_IMAGE_HEADER_BYTES + RUNTIME_FS_MAX_NODES * RUNTIME_FS_IMAGE_RECORD_BYTES +
  RUNTIME_FS_IMAGE_MAX_TREE_HASHES * 4 + RUNTIME_FS_MAX_NODES * RUNTIME_FS_FILE_CAPACITY.
Definition RUNTIME_FS_IMAGE_HASH_EMPTY : N := 0x811C9DC5.

(** ** Data *)

Record runtime_fs_image_layout := Layout {
  il_record_count : N;
  il_tree_leaf_count : N;
  il_tree_hash_count : N;
  il_data_bytes : N;
  il_image_bytes : N;
  il_root_hash : N
}.

Record runtime_fs_image_header := Header {
  ih_magic : N;
  ih_version : N;
  ih_header_bytes : N;
  ih_record_count : N;
  ih_record_bytes : N;
  ih_tree_leaf_count : N;
  ih_tree_hash_count : N;
  ih_data_bytes : N;
  ih_root_hash : N;
  ih_image_bytes : N
}.

(** The [name] is the array of [RUNTIME_FS_NAME_CAPACITY] bytes. *)
Record runtime_fs_image_record := ImageRecord {
  ir_node_index : N;
  ir_type : N;
  ir_parent_index : N;
  ir_owner_pid : N;
  ir_mode : N;
  ir_size_bytes : N;
  ir_data_offset : N;
  ir_data_size : N;
  ir_data_hash : N;
  ir_object_hash : N;
  ir_name : list N
}.

(** ** Bytes *)

Definition runtime_fs_image_load_u32 (buffer : list N) (cursor : N) : option N :=
  b0 ← aget buffer cursor;
  b1 ← aget buffer (cursor + 1);
  b2 ← aget buffer (cursor + 2);
  b3 ← aget buffer (cursor + 3);
  Some (N.lor (N.lor (N.lor b0 (N.shiftl b1 8)) (N.shiftl b2 16)) (N.shiftl b3 24)).

(** The byte at [shift] of a word. *)
Definition byte_of (value shift : N) : N := N.land (N.shiftr value shift) 0xFF.

Definition runtime_fs_image_store_u32 (cursor value : N) (buffer : list N) : option (list N) :=
  buffer ← aset buffer cursor (N.land value 0xFF);
  buffer ← aset buffer (cursor + 1) (byte_of value 8);
  buffer ← aset buffer (cursor + 2) (byte_of value 16);
  aset buffer (cursor + 3) (byte_of value 24).

(** The characters that are copied; a string ends in a 0 byte. *)
Fixpoint image_copy_loop (index : N) (src : list N) : option (list N) :=
  match src with
  | [] => None
  | c :: src' =>
      if c =? 0 then Some []
      else if index + 1 <? RUNTIME_FS_NAME_CAPACITY then
        rest ← image_copy_loop (index + 1) src'; Some (c :: rest)
      else Some []
  end.

Definition runtime_fs_image_copy_name (src : list N) : option (list N) :=
  chars ← image_copy_loop 0 src;
  Some (chars ++ replicate (N.to_nat RUNTIME_FS_NAME_CAPACITY - length chars) 0).

(** A string in memory, and the string in an array of bytes. *)
Definition string_bytes (s : cstr) : list N := (code <$> s) ++ [0].
Fixpoint bytes_string (l : list N) : cstr :=
  match l with
  | [] => []
  | b :: l' => if b =? 0 then [] else ascii_of_N b :: bytes_string l'
  end.

Fixpoint equals_loop (index left_capacity : N) (left right : list N) : option bool :=
  let finish :=
    r ← head right;
    if nz r then Some false
    else if index <? left_capacity then l ← head left; Some (l =? 0)
    else Some false in
  if index <? left_capacity then
    match left with
    | [] => None
    | l :: left' =>
        if nz l then
          match right with
          | [] => None
          | r :: right' =>
              if nz r then
                if negb (l =? r) then Some false
                else equals_loop (index + 1) left_capacity left' right'
              else finish
          end
        else finish
    end
  else finish.

Definition runtime_fs_image_name_equals_bounded (left : list N) (left_capacity : N) (right : list N)
  : option bool := equals_loop 0 left_capacity left right.

(** ** Hashes *)

Definition runtime_fs_image_hash_mix (hash value : N) : N := u32 (N.lxor hash value * 16777619).

Fixpoint hash_loop (count : nat) (data : list N) (cursor hash : N) : option N :=
  match count with
  | O => Some hash
  | S count' =>
      b ← aget data cursor;
      hash_loop count' data (cursor + 1) (runtime_fs_image_hash_mix hash b)
  end.

(** [size] bytes from position [cursor] of [data]. *)
Definition runtime_fs_image_hash_bytes (data : list N) (cursor size : N) : option N :=
  hash_loop (N.to_nat size) data cursor RUNTIME_FS_IMAGE_HASH_EMPTY.

Definition runtime_fs_image_hash_u32 (hash value : N) : N :=
  let hash := runtime_fs_image_hash_mix hash (N.land value 0xFF) in
  let hash := runtime_fs_image_hash_mix hash (byte_of value 8) in
  let hash := runtime_fs_image_hash_mix hash (byte_of value 16) in
  runtime_fs_image_hash_mix hash (byte_of value 24).

Definition runtime_fs_image_object_hash (record : runtime_fs_image_record) : N :=
  let hash := runtime_fs_image_hash_u32 RUNTIME_FS_IMAGE_HASH_EMPTY (ir_node_index record) in
  let hash := runtime_fs_image_hash_u32 hash (ir_type record) in
  let hash := runtime_fs_image_hash_u32 hash (ir_parent_index record) in
  let hash := runtime_fs_image_hash_u32 hash (ir_owner_pid record) in
  let hash := runtime_fs_image_hash_u32 hash (ir_mode record) in
  let hash := runtime_fs_image_hash_u32 hash (ir_size_bytes record) in
  let hash := runtime_fs_image_hash_u32 hash (ir_data_offset record) in
  let hash := runtime_fs_image_hash_u32 hash (ir_data_size record) in
  let hash := runtime_fs_image_hash_u32 hash (ir_data_hash record) in
  foldl runtime_fs_image_hash_mix hash (ir_name record).

Definition runtime_fs_image_tree_hash (left right : N) : N :=
  runtime_fs_image_hash_u32 (runtime_fs_image_hash_u32 RUNTIME_FS_IMAGE_HASH_EMPTY left) right.

(** [while (result < value) result <<= 1]; a value above 2^31 never ends. *)
Fixpoint next_pow2_loop (fuel : nat) (value result : N) : option N :=
  match fuel with
  | O => None
  | S fuel' =>
      if result <? value then next_pow2_loop fuel' value (u32 (N.shiftl result 1)) else Some result
  end.

Definition POW2_FUEL : nat := 33.
Definition runtime_fs_image_next_pow2 (value : N) : option N := next_pow2_loop POW2_FUEL value 1.

(** ** Measuring a file system *)

Definition runtime_fs_image_has_open_files (fs : runtime_fs) : bool :=
  exists_idx (λ _ o, nz (of_used o)) (open_files fs).

Definition runtime_fs_image_record_count (fs : runtime_fs) : N :=
  count_if (λ n, nz (n_used n)) (nodes fs).

Definition runtime_fs_image_data_bytes (fs : runtime_fs) : N :=
  foldl (λ total n,
    if nz (n_used n) && is_type RUNTIME_FILE_TYPE_REGULAR n then u32 (total + n_size_bytes n) else total)
    0 (nodes fs).

(** ** Header and records *)

Definition header_accepted (h : runtime_fs_image_header) (size : N) : option bool :=
  if negb (ih_magic h =? RUNTIME_FS_IMAGE_MAGIC) || negb (ih_version h =? RUNTIME_FS_IMAGE_VERSION) ||
     negb (ih_header_bytes h =? RUNTIME_FS_IMAGE_HEADER_BYTES) ||
     negb (ih_record_bytes h =? RUNTIME_FS_IMAGE_RECORD_BYTES) || (ih_record_count h =? 0) ||
     (RUNTIME_FS_MAX_NODES <? ih_record_count h) || (ih_tree_leaf_count h =? 0) ||
     (RUNTIME_FS_IMAGE_MAX_TREE_LEAVES <? ih_tree_leaf_count h) ||
     negb (ih_tree_hash_count h =? ih_tree_leaf_count h * 2 - 1) ||
     (ih_tree_leaf_count h <? ih_record_count h)
  then Some false
  else
    pow2 ← runtime_fs_image_next_pow2 (ih_tree_leaf_count h);
    if negb (pow2 =? ih_tree_leaf_count h) then Some false
    else if negb (ih_image_bytes h =?
                  u32 (ih_header_bytes h + ih_record_count h * ih_record_bytes h +
                       ih_tree_hash_count h * 4 + ih_data_bytes h)) then Some false
    else Some (ih_image_bytes h =? size).

Definition runtime_fs_image_parse_header (buffer : option (list N)) (size : N)
  : option (option runtime_fs_image_header) :=
  match buffer with
  | None => Some None
  | Some buffer =>
      if size <? RUNTIME_FS_IMAGE_HEADER_BYTES then Some None
      else
        magic ← runtime_fs_image_load_u32 buffer 0;
        version ← runtime_fs_image_load_u32 buffer 4;
        header_bytes ← runtime_fs_image_load_u32 buffer 8;
        record_count ← runtime_fs_image_load_u32 buffer 12;
        record_bytes ← runtime_fs_image_load_u32 buffer 16;
        tree_leaf_count ← runtime_fs_image_load_u32 buffer 20;
        tree_hash_count ← runtime_fs_image_load_u32 buffer 24;
        data_bytes ← runtime_fs_image_load_u32 buffer 28;
        root_hash ← runtime_fs_image_load_u32 buffer 32;
        image_bytes ← runtime_fs_image_load_u32 buffer 36;
        let h := Header magic version header_bytes record_count record_bytes tree_leaf_count
                   tree_hash_count data_bytes root_hash image_bytes in
        ok ← header_accepted h size;
        Some (if ok : bool then Some h else None)
  end.

Definition runtime_fs_image_read_record (buffer : list N) (offset : N) : option runtime_fs_image_record :=
  node_index ← runtime_fs_image_load_u32 buffer (offset + 0);
  type ← runtime_fs_image_load_u32 buffer (offset + 4);
  parent_index ← runtime_fs_image_load_u32 buffer (offset + 8);
  owner_pid ← runtime_fs_image_load_u32 buffer (offset + 12);
  mode ← runtime_fs_image_load_u32 buffer (offset + 16);
  size_bytes ← runtime_fs_image_load_u32 buffer (offset + 20);
  data_offset ← runtime_fs_image_load_u32 buffer (offset + 24);
  data_size ← runtime_fs_image_load_u32 buffer (offset + 28);
  data_hash ← runtime_fs_image_load_u32 buffer (offset + 32);
  object_hash ← runtime_fs_image_load_u32 buffer (offset + 36);
  name ← load_bytes (N.to_nat RUNTIME_FS_NAME_CAPACITY) buffer (offset + 40);
  Some (ImageRecord node_index type parent_index owner_pid mode size_bytes data_offset data_size
          data_hash object_hash name).

(** Consecutive words. *)
Fixpoint store_words (buffer : list N) (cursor : N) (words : list N) : option (list N) :=
  match words with
  | [] => Some buffer
  | w :: words' => buffer ← runtime_fs_image_store_u32 cursor w buffer; store_words buffer (cursor + 4) words'
  end.

Definition record_words (r : runtime_fs_image_record) : list N :=
  [ir_node_index r; ir_type r; ir_parent_index r; ir_owner_pid r; ir_mode r; ir_size_bytes r;
   ir_data_offset r; ir_data_size r; ir_data_hash r; ir_object_hash r].

Definition runtime_fs_image_write_record (buffer : list N) (offset : N) (record : runtime_fs_image_record)
  : option (list N) :=
  buffer ← store_words buffer offset (record_words record);
  store_bytes buffer (offset + 40) (ir_name record).

Definition runtime_fs_image_find_record (records : list runtime_fs_image_record) (node_index : N)
  : option (N * runtime_fs_image_record) :=
  match find_idx (λ _ r, ir_node_index r =? node_index) records with
  | Some index => match aget records index with Some r => Some (index, r) | None => None end
  | None => None
  end.

Definition runtime_fs_image_required_bytes (fs : runtime_fs) : option N :=
  '(_, status) ← runtime_fs_validate fs;
  if negb (status =? RUNTIME_SYSCALL_STATUS_OK)%Z then Some 0
  else
    let record_count := runtime_fs_image_record_count fs in
    if record_count =? 0 then Some 0
    else
      tree_leaf_count ← runtime_fs_image_next_pow2 record_count;
      Some (u32 (RUNTIME_FS_IMAGE_HEADER_BYTES + record_count * RUNTIME_FS_IMAGE_RECORD_BYTES +
                 (tree_leaf_count * 2 - 1) * 4 + runtime_fs_image_data_bytes fs)).

(** ** Export *)

(** The record of a node; [payload_cursor] is where its contents go. *)
Definition image_record_of (node_index payload_cursor : N) (node : runtime_fs_node)
  : option runtime_fs_image_record :=
  let data_size := if is_type RUNTIME_FILE_TYPE_REGULAR node then n_size_bytes node else 0 in
  data_hash ← runtime_fs_image_hash_bytes (n_data node) 0 data_size;
  name ← runtime_fs_image_copy_name (string_bytes (n_name node));
  let record := ImageRecord node_index (n_type node) (n_parent_index node) (n_owner_pid node)
                  (n_mode node) (n_size_bytes node) payload_cursor data_size data_hash 0 name in
  Some (ImageRecord node_index (n_type node) (n_parent_index node) (n_owner_pid node)
          (n_mode node) (n_size_bytes node) payload_cursor data_size data_hash
          (runtime_fs_image_object_hash record) name).

(** The loop over the nodes: the buffer, the object hashes so far, where the
    next record goes and where the next contents go. *)
Fixpoint export_nodes (l : list runtime_fs_node) (node_index data_offset record_offset payload_cursor : N)
    (bytes : list N) (object_hashes : list N) : option (list N * list N) :=
  match l with
  | [] => Some (bytes, object_hashes)
  | node :: l' =>
      if n_used node =? 0 then
        export_nodes l' (node_index + 1) data_offset record_offset payload_cursor bytes object_hashes
      else
        record ← image_record_of node_index payload_cursor node;
        bytes ← runtime_fs_image_write_record bytes record_offset record;
        contents ← load_bytes (N.to_nat (ir_data_size record)) (n_data node) 0;
        bytes ← store_bytes bytes (data_offset + payload_cursor) contents;
        export_nodes l' (node_index + 1) data_offset (record_offset + RUNTIME_FS_IMAGE_RECORD_BYTES)
          (u32 (payload_cursor + ir_data_size record)) bytes (object_hashes ++ [ir_object_hash record])
  end.

(** The leaves of the tree, from [index] on. *)
Fixpoint tree_leaves (count : nat) (first index : N) (object_hashes tree_hashes : list N)
  : option (list N) :=
  match count with
  | O => Some tree_hashes
  | S count' =>
      let value := default RUNTIME_FS_IMAGE_HASH_EMPTY (aget object_hashes index) in
      tree_hashes ← aset tree_hashes (first + index) value;
      tree_leaves count' first (index + 1) object_hashes tree_hashes
  end.

(** The inner hashes, from the last parent to the root. *)
Fixpoint tree_parents (index : nat) (tree_hashes : list N) : option (list N) :=
  match index with
  | O => Some tree_hashes
  | S previous =>
      let parent := N.of_nat previous in
      left ← aget tree_hashes (parent * 2 + 1);
      right ← aget tree_hashes (parent * 2 + 2);
      tree_hashes ← aset tree_hashes parent (runtime_fs_image_tree_hash left right);
      tree_parents previous tree_hashes
  end.

Definition header_words (h : runtime_fs_image_header) : list N :=
  [ih_magic h; ih_version h; ih_header_bytes h; ih_record_count h; ih_record_bytes h;
   ih_tree_leaf_count h; ih_tree_hash_count h; ih_data_bytes h; ih_root_hash h; ih_image_bytes h].

Definition layout_of (h : runtime_fs_image_header) : runtime_fs_image_layout :=
  Layout (ih_record_count h) (ih_tree_leaf_count h) (ih_tree_hash_count h) (ih_data_bytes h)
    (ih_image_bytes h) (ih_root_hash h).

(** What the pointers [buffer], [bytes_written] and [layout] receive; [None]
    when nothing is stored. *)
Inductive export_result :=
  | ExportFails (status : Z)
  | Exports (buffer : list N) (bytes_written : N) (layout : runtime_fs_image_layout).

Definition runtime_fs_image_export (fs : runtime_fs) (buffer : option (list N)) (capacity : N)
    (bytes_written : bool) : option export_result :=
  match buffer, bytes_written with
  | Some bytes, true =>
      '(_, status) ← runtime_fs_validate fs;
      if negb (status =? RUNTIME_SYSCALL_STATUS_OK)%Z then Some (ExportFails RUNTIME_SYSCALL_STATUS_EINVAL)
      else if runtime_fs_image_has_open_files fs then Some (ExportFails RUNTIME_SYSCALL_STATUS_EBUSY)
      else
        let record_count := runtime_fs_image_record_count fs in
        if record_count =? 0 then Some (ExportFails RUNTIME_SYSCALL_STATUS_EINVAL)
        else
          tree_leaf_count ← runtime_fs_image_next_pow2 record_count;
          let tree_hash_count := tree_leaf_count * 2 - 1 in
          let data_bytes := runtime_fs_image_data_bytes fs in
          let image_bytes := u32 (RUNTIME_FS_IMAGE_HEADER_BYTES +
            record_count * RUNTIME_FS_IMAGE_RECORD_BYTES + tree_hash_count * 4 + data_bytes) in
          if capacity <? image_bytes then Some (ExportFails RUNTIME_SYSCALL_STATUS_ENOSPC)
          else
            let tree_offset := RUNTIME_FS_IMAGE_HEADER_BYTES + record_count * RUNTIME_FS_IMAGE_RECORD_BYTES in
            let data_offset := tree_offset + tree_hash_count * 4 in
            '(bytes, object_hashes) ←
              export_nodes (nodes fs) 0 data_offset RUNTIME_FS_IMAGE_HEADER_BYTES 0 bytes [];
            tree_hashes ← tree_leaves (N.to_nat tree_leaf_count) (tree_hash_count - tree_leaf_count) 0
              object_hashes (replicate (N.to_nat tree_hash_count) RUNTIME_FS_IMAGE_HASH_EMPTY);
            tree_hashes ← tree_parents (N.to_nat (tree_hash_count - tree_leaf_count)) tree_hashes;
            bytes ← store_words bytes tree_offset tree_hashes;
            root_hash ← aget tree_hashes 0;
            let h := Header RUNTIME_FS_IMAGE_MAGIC RUNTIME_FS_IMAGE_VERSION RUNTIME_FS_IMAGE_HEADER_BYTES
              record_count RUNTIME_FS_IMAGE_RECORD_BYTES tree_leaf_count tree_hash_count data_bytes
              root_hash image_bytes in
            bytes ← store_words bytes 0 (header_words h);
            Some (Exports bytes image_bytes (layout_of h))
  | _, _ => Some (ExportFails RUNTIME_SYSCALL_STATUS_EINVAL)
  end.

(** ** Validation *)

(** The three diagnostic variables. *)
Record image_diagnostics := ImageDiag { dg_code : N; dg_arg0 : N; dg_arg1 : N }.

Abbreviation image_failure := (image_diagnostics * Z)%type.

Definition runtime_fs_image_validate_fail (code arg0 arg1 : N) (status : Z) : image_failure :=
  (ImageDiag code arg0 arg1, status).

Definition name_byte (r : runtime_fs_image_record) (i : N) : N := default 0 (aget (ir_name r) i).

(** The checks of one record that need no contents. *)
Definition record_fields_failure (h : runtime_fs_image_header) (index : N)
    (previous : option runtime_fs_image_record) (present_mask expected_payload_offset : N)
    (r : runtime_fs_image_record) : option image_failure :=
  let fail := runtime_fs_image_validate_fail in
  let EINVAL := RUNTIME_SYSCALL_STATUS_EINVAL in
  if RUNTIME_FS_MAX_NODES <=? ir_node_index r then Some (fail 0xC110 index (ir_node_index r) EINVAL)
  else if nz (N.land (N.shiftr present_mask (ir_node_index r)) 1) then
    Some (fail 0xC111 index (ir_node_index r) RUNTIME_SYSCALL_STATUS_EEXIST)
  else if (index =? 0) && nz (ir_node_index r) then Some (fail 0xC112 index (ir_node_index r) EINVAL)
  else if match previous with Some p => ir_node_index r <=? ir_node_index p | None => false end then
    Some (fail 0xC113 index (ir_node_index r) EINVAL)
  else if negb (ir_type r =? RUNTIME_FILE_TYPE_DIRECTORY) && negb (ir_type r =? RUNTIME_FILE_TYPE_REGULAR)
  then Some (fail 0xC114 index (ir_type r) EINVAL)
  else if (ir_type r =? RUNTIME_FILE_TYPE_DIRECTORY) && nz (ir_data_size r) then
    Some (fail 0xC115 index (ir_data_size r) EINVAL)
  else if (ir_type r =? RUNTIME_FILE_TYPE_REGULAR) && negb (ir_data_size r =? ir_size_bytes r) then
    Some (fail 0xC116 index
      (N.lor (u32 (N.shiftl (ir_data_size r) 16)) (N.land (ir_size_bytes r) 0xFFFF)) EINVAL)
  else if RUNTIME_FS_FILE_CAPACITY <? ir_size_bytes r then
    Some (fail 0xC117 index (ir_size_bytes r) RUNTIME_SYSCALL_STATUS_ENOSPC)
  else if negb (ir_data_offset r =? expected_payload_offset) then
    Some (fail 0xC118 index
      (N.lor (u32 (N.shiftl (ir_data_offset r) 16)) (N.land expected_payload_offset 0xFFFF)) EINVAL)
  else if ih_data_bytes h <? u32 (ir_data_offset r + ir_data_size r) then
    Some (fail 0xC119 index (ih_data_bytes h) EINVAL)
  else if (index =? 0) && nz (ir_parent_index r) then Some (fail 0xC11A index (ir_parent_index r) EINVAL)
  else if (index =? 0) && negb (ir_type r =? RUNTIME_FILE_TYPE_DIRECTORY) then
    Some (fail 0xC11E index (ir_type r) EINVAL)
  else if (index =? 0) && (negb (name_byte r 0 =? 47) || negb (name_byte r 1 =? 0)) then
    Some (fail 0xC11F (N.lor (name_byte r 0) (N.shiftl (name_byte r 1) 8))
            (N.lor (name_byte r 2) (N.shiftl (name_byte r 3) 8)) EINVAL)
  else if nz index && ((name_byte r 0 =? 0) || (name_byte r 0 =? 47) && (name_byte r 1 =? 0)) then
    Some (fail 0xC11B index (name_byte r 0) EINVAL)
  else None.

(** The first loop, from record [index] on; it returns the records. *)
Fixpoint validate_records (count : nat) (h : runtime_fs_image_header) (bytes : list N)
    (data_offset index : N) (previous : option runtime_fs_image_record)
    (present_mask expected_payload_offset : N)
  : option (image_failure + list runtime_fs_image_record * N * N) :=
  match count with
  | O => Some (inr ([], present_mask, expected_payload_offset))
  | S count' =>
      r ← runtime_fs_image_read_record bytes (ih_header_bytes h + index * ih_record_bytes h);
      match record_fields_failure h index previous present_mask expected_payload_offset r with
      | Some failure => Some (inl failure)
      | None =>
          data_hash ← runtime_fs_image_hash_bytes bytes (data_offset + ir_data_offset r) (ir_data_size r);
          if negb (data_hash =? ir_data_hash r) then
            Some (inl (runtime_fs_image_validate_fail 0xC11C index data_hash RUNTIME_SYSCALL_STATUS_EINVAL))
          else if negb (runtime_fs_image_object_hash r =? ir_object_hash r) then
            Some (inl (runtime_fs_image_validate_fail 0xC11D index (ir_object_hash r)
                         RUNTIME_SYSCALL_STATUS_EINVAL))
          else
            rest ← validate_records count' h bytes data_offset (index + 1) (Some r)
              (N.lor present_mask (N.shiftl 1 (ir_node_index r)))
              (u32 (expected_payload_offset + ir_data_size r));
            Some (match rest with
                  | inl failure => inl failure
                  | inr (records, mask, payload) => inr (r :: records, mask, payload)
                  end)
      end
  end.

(** The walk from a record to the root: [Some (code, arg)] is a failure. *)
Fixpoint validate_walk (fuel : nat) (records : list runtime_fs_image_record) (current depth : N)
  : option (option (N * N)) :=
  match fuel with
  | O => None
  | S fuel' =>
      if current =? 0 then Some None
      else
        match runtime_fs_image_find_record records current with
        | None => Some (Some (0xC124, current))
        | Some (_, node) =>
            let depth := depth + 1 in
            if RUNTIME_FS_MAX_NODES <? depth then Some (Some (0xC125, depth))
            else validate_walk fuel' records (ir_parent_index node) depth
        end
  end.

Definition WALK_FUEL : nat := 18.

(** A shift of the 32-bit mask by 32 or more is not defined. *)
Definition validate_parent (records : list runtime_fs_image_record) (present_mask index : N)
    (r : runtime_fs_image_record) : option (option image_failure) :=
  let fail code arg := Some (Some (runtime_fs_image_validate_fail code index arg
                                     RUNTIME_SYSCALL_STATUS_EINVAL)) in
  missing ← (if ir_node_index r =? 0 then Some false
             else if 32 <=? ir_parent_index r then None
             else Some (N.land (N.shiftr present_mask (ir_parent_index r)) 1 =? 0));
  if missing : bool then fail 0xC121 (ir_parent_index r)
  else
    let parent := runtime_fs_image_find_record records (ir_parent_index r) in
    if (ir_node_index r =? 0) && match parent with Some (i, _) => negb (i =? 0) | None => true end
    then fail 0xC122 (ir_parent_index r)
    else if nz (ir_node_index r) &&
            match parent with
            | Some (_, p) => negb (ir_type p =? RUNTIME_FILE_TYPE_DIRECTORY)
            | None => true
            end
    then fail 0xC123 (ir_parent_index r)
    else
      walk ← validate_walk WALK_FUEL records (ir_node_index r) 0;
      match walk with
      | Some (code, arg) => fail code arg
      | None => Some None
      end.

Fixpoint validate_parents (all : list runtime_fs_image_record) (present_mask index : N)
    (records : list runtime_fs_image_record) : option (option image_failure) :=
  match records with
  | [] => Some None
  | r :: rest =>
      failure ← validate_parent all present_mask index r;
      match failure with
      | Some failure => Some (Some failure)
      | None => validate_parents all present_mask (index + 1) rest
      end
  end.

(** The later records, from [other] on, that are called like [r]. *)
Fixpoint duplicate_record (r : runtime_fs_image_record) (other : N)
    (records : list runtime_fs_image_record) : option (option N) :=
  match records with
  | [] => Some None
  | peer :: rest =>
      same ← (if ir_parent_index r =? ir_parent_index peer then
                runtime_fs_image_name_equals_bounded (ir_name r) RUNTIME_FS_NAME_CAPACITY (ir_name peer)
              else Some false);
      if same : bool then Some (Some other) else duplicate_record r (other + 1) rest
  end.

Fixpoint validate_names (index : N) (records : list runtime_fs_image_record)
  : option (option image_failure) :=
  match records with
  | [] => Some None
  | r :: rest =>
      duplicate ← duplicate_record r (index + 1) rest;
      match duplicate with
      | Some other => Some (Some (runtime_fs_image_validate_fail 0xC126 index other
                                    RUNTIME_SYSCALL_STATUS_EEXIST))
      | None => validate_names (index + 1) rest
      end
  end.

Fixpoint load_words (count : nat) (buffer : list N) (cursor : N) : option (list N) :=
  match count with
  | O => Some []
  | S count' =>
      w ← runtime_fs_image_load_u32 buffer cursor;
      rest ← load_words count' buffer (cursor + 4);
      Some (w :: rest)
  end.

Fixpoint validate_leaves (count : nat) (first index : N) (records : list runtime_fs_image_record)
    (tree_hashes : list N) : option (option image_failure) :=
  match count with
  | O => Some None
  | S count' =>
      let expected_hash := match aget records index with
                           | Some r => ir_object_hash r
                           | None => RUNTIME_FS_IMAGE_HASH_EMPTY
                           end in
      hash ← aget tree_hashes (first + index);
      if negb (hash =? expected_hash) then
        Some (Some (runtime_fs_image_validate_fail 0xC127 index expected_hash RUNTIME_SYSCALL_STATUS_EINVAL))
      else validate_leaves count' first (index + 1) records tree_hashes
  end.

Fixpoint validate_inner (index : nat) (tree_hashes : list N) : option (option image_failure) :=
  match index with
  | O => Some None
  | S previous =>
      let parent := N.of_nat previous in
      left ← aget tree_hashes (parent * 2 + 1);
      right ← aget tree_hashes (parent * 2 + 2);
      hash ← aget tree_hashes parent;
      let expected_hash := runtime_fs_image_tree_hash left right in
      if negb (hash =? expected_hash) then
        Some (Some (runtime_fs_image_validate_fail 0xC128 parent expected_hash RUNTIME_SYSCALL_STATUS_EINVAL))
      else validate_inner previous tree_hashes
  end.

Definition validate_tree (h : runtime_fs_image_header) (records : list runtime_fs_image_record)
    (tree_hashes : list N) : option (option image_failure) :=
  let first := ih_tree_hash_count h - ih_tree_leaf_count h in
  leaves ← validate_leaves (N.to_nat (ih_tree_leaf_count h)) first 0 records tree_hashes;
  match leaves with
  | Some failure => Some (Some failure)
  | None =>
      inner ← validate_inner (N.to_nat first) tree_hashes;
      match inner with
      | Some failure => Some (Some failure)
      | None =>
          root ← aget tree_hashes 0;
          Some (if negb (root =? ih_root_hash h)
                then Some (runtime_fs_image_validate_fail 0xC129 root (ih_root_hash h)
                             RUNTIME_SYSCALL_STATUS_EINVAL)
                else None)
      end
  end.

(** The offsets of the hash tree and of the contents. *)
Definition image_tree_offset (h : runtime_fs_image_header) : N :=
  u32 (ih_header_bytes h + ih_record_count h * ih_record_bytes h).
Definition image_data_offset (h : runtime_fs_image_header) : N :=
  u32 (image_tree_offset h + ih_tree_hash_count h * 4).

Definition validate_image (h : runtime_fs_image_header) (bytes : list N)
  : option (image_failure + runtime_fs_image_layout) :=
  result ← validate_records (N.to_nat (ih_record_count h)) h bytes (image_data_offset h) 0 None 0 0;
  match result with
  | inl failure => Some (inl failure)
  | inr (records, present_mask, payload) =>
      if negb (payload =? ih_data_bytes h) then
        Some (inl (runtime_fs_image_validate_fail 0xC120 payload (ih_data_bytes h)
                     RUNTIME_SYSCALL_STATUS_EINVAL))
      else
        parents ← validate_parents records present_mask 0 records;
        match parents with
        | Some failure => Some (inl failure)
        | None =>
            names ← validate_names 0 records;
            match names with
            | Some failure => Some (inl failure)
            | None =>
                tree_hashes ← load_words (N.to_nat (ih_tree_hash_count h)) bytes (image_tree_offset h);
                tree ← validate_tree h records tree_hashes;
                Some (match tree with
                      | Some failure => inl failure
                      | None => inr (layout_of h)
                      end)
            end
        end
  end.

(** The diagnostics, the status, and the layout when it is stored. *)
Definition runtime_fs_image_validate (buffer : option (list N)) (size : N)
  : option (image_diagnostics * Z * option runtime_fs_image_layout) :=
  parsed ← runtime_fs_image_parse_header buffer size;
  match buffer, parsed with
  | Some bytes, Some h =>
      result ← validate_image h bytes;
      Some (match result with
            | inl (diag, status) => (diag, status, None)
            | inr layout => (ImageDiag 0xC1FF 0 0, RUNTIME_SYSCALL_STATUS_OK, Some layout)
            end)
  | _, _ => Some (runtime_fs_image_validate_fail 0xC100 size 0 RUNTIME_SYSCALL_STATUS_EINVAL, None)
  end.

(** ** Import *)

(** The tables after they have been cleared. *)
Definition cleared_fs : runtime_fs :=
  Fs ((λ n, Node 0 RUNTIME_FILE_TYPE_UNKNOWN 0 0 0 0 [] ((λ _, 0) <$> n_data n)) <$> nodes runtime_fs_init)
     ((λ _, cleared_file) <$> open_files runtime_fs_init).

Definition import_record (r : runtime_fs_image_record) (bytes : list N) (data_offset : N)
    (fs : runtime_fs) : option runtime_fs :=
  node ← aget (nodes fs) (ir_node_index r);
  name ← runtime_fs_image_copy_name (ir_name r);
  contents ← load_bytes (N.to_nat (ir_data_size r)) bytes (data_offset + ir_data_offset r);
  data ← store_bytes (n_data node) 0 contents;
  Some (upd_node (ir_node_index r) (λ _,
    Node 1 (ir_type r) (ir_parent_index r) (ir_owner_pid r) (ir_mode r) (ir_size_bytes r)
      (bytes_string name) data) fs).

Fixpoint import_records (count : nat) (h : runtime_fs_image_header) (bytes : list N) (index : N)
    (fs : runtime_fs) : option runtime_fs :=
  match count with
  | O => Some fs
  | S count' =>
      r ← runtime_fs_image_read_record bytes (ih_header_bytes h + index * ih_record_bytes h);
      fs ← import_record r bytes (image_data_offset h) fs;
      import_records count' h bytes (index + 1) fs
  end.

(** The file system, the status, and the layout when the validation stored
    it; the diagnostics are those of [runtime_fs_image_validate]. *)
Definition runtime_fs_image_import (fs : runtime_fs) (buffer : option (list N)) (size : N)
  : option (runtime_fs * Z * option runtime_fs_image_layout) :=
  match buffer with
  | None => Some (fs, RUNTIME_SYSCALL_STATUS_EINVAL, None)
  | Some bytes =>
      '(_, status, layout) ← runtime_fs_image_validate buffer size;
      if negb (status =? RUNTIME_SYSCALL_STATUS_OK)%Z then
        Some (fs, RUNTIME_SYSCALL_STATUS_EINVAL, layout)
      else
        parsed ← runtime_fs_image_parse_header buffer size;
        match parsed with
        | None => Some (fs, RUNTIME_SYSCALL_STATUS_EINVAL, layout)
        | Some h =>
            fs ← import_records (N.to_nat (ih_record_count h)) h bytes 0 cleared_fs;
            '(_, status) ← runtime_fs_validate fs;
            Some (fs, status, layout)
        end
  end.

(** ** Sanity checks on concrete inputs *)

(** [/a] and the file [/a/f] with four bytes, all closed. *)
Definition demo_closed : runtime_fs :=
  match runtime_fs_write demo_fs 1 (Some [1; 2; 3; 4]) 4 with
  | Some (fs, _) => (runtime_fs_close fs 1).1
  | None => demo_fs
  end.

Definition demo_image : list N :=
  match runtime_fs_image_export demo_closed (Some (replicate 4096 0)) 4096 true with
  | Some (Exports bytes n _) => take (N.to_nat n) bytes
  | _ => []
  end.

Example demo_image_valid :
  (λ r, snd (fst r)) <$> runtime_fs_image_validate (Some demo_image) (N.of_nat (length demo_image)) = Some 0%Z.
Proof. vm_compute. reflexivity. Qed.

Example demo_image_imports :
  fst <$> runtime_fs_image_import runtime_fs_init (Some demo_image) (N.of_nat (length demo_image))
    = Some (demo_closed, 0%Z).
Proof. vm_compute. reflexivity. Qed.

(** A changed byte of the contents is found. *)
Example demo_image_damaged :
  (λ r, (dg_code (fst (fst r)), snd (fst r))) <$>
    runtime_fs_image_validate (Some (<[239%nat := 9]> demo_image)) (N.of_nat (length demo_image))
    = Some (0xC11C, (-22)%Z).
Proof. vm_compute. reflexivity. Qed.
