(* ===== verification/RuntimeFsImageBytes.v ===== *)
(** * Bytes, words and records in a buffer

    [holds_at buffer offset bytes]: the buffer has these bytes at the offset.
    Loads read what is held; stores establish it and keep it elsewhere. *)

From S2P Require Import Prelude RuntimeFs RuntimeFsImage.

Local Open Scope N_scope.

Definition holds_at (buffer : list N) (offset : N) (bytes : list N) : Prop :=
  ∀ i b, bytes !! i = Some b → buffer !! (N.to_nat offset + i)%nat = Some b.

Lemma holds_at_app buffer offset a b :
  holds_at buffer offset (a ++ b) ↔
  holds_at buffer offset a ∧ holds_at buffer (offset + N.of_nat (length a)) b.
Proof.
  unfold holds_at. split.
  - intros H. split; intros i x Hi.
    + apply H. by apply lookup_app_l_Some.
    + replace (N.to_nat (offset + N.of_nat (length a)) + i)%nat
        with (N.to_nat offset + (length a + i))%nat by lia.
      apply H. rewrite lookup_app_r by lia. by replace (length a + i - length a)%nat with i by lia.
  - intros [Ha Hb] i x Hi. apply lookup_app_Some in Hi as [Hi|[Hle Hi]]; [by apply Ha|].
    apply Hb in Hi. rewrite <-Hi. f_equal. lia.
Qed.

Lemma holds_at_nil buffer offset : holds_at buffer offset [].
Proof. intros i b Hi. by rewrite lookup_nil in Hi. Qed.

Lemma holds_at_cons buffer offset b bytes :
  holds_at buffer offset (b :: bytes) ↔
  aget buffer offset = Some b ∧ holds_at buffer (offset + 1) bytes.
Proof.
  change (b :: bytes) with ([b] ++ bytes). rewrite holds_at_app.
  assert (holds_at buffer offset [b] ↔ aget buffer offset = Some b) as ->; [|done].
  rewrite aget_lookup. unfold holds_at. split.
  - intros H. specialize (H 0%nat b eq_refl). by rewrite Nat.add_0_r in H.
  - intros H [|i] x Hx; [|done]. injection Hx as <-. by rewrite Nat.add_0_r.
Qed.

Lemma holds_at_all bytes : holds_at bytes 0 bytes.
Proof. intros i b Hi. done. Qed.

Lemma holds_at_length buffer offset bytes :
  bytes ≠ [] → holds_at buffer offset bytes → offset + N.of_nat (length bytes) ≤ N.of_nat (length buffer).
Proof.
  intros Hne H. destruct (lookup_lt_is_Some_2 bytes (length bytes - 1)) as [b Hb].
  { destruct bytes; [done|simpl; lia]. }
  apply H, lookup_lt_Some in Hb. destruct bytes; [done|]. simpl in *. lia.
Qed.

(** ** Little-endian words *)

Definition le32 (w : N) : list N := [N.land w 0xFF; byte_of w 8; byte_of w 16; byte_of w 24].

Definition word (w : N) : Prop := w < 4294967296.

Lemma le32_join w :
  word w →
  N.lor (N.lor (N.lor (N.land w 0xFF) (N.shiftl (byte_of w 8) 8)) (N.shiftl (byte_of w 16) 16))
    (N.shiftl (byte_of w 24) 24) = w.
Proof.
  intros Hw. apply N.bits_inj. intros i. unfold byte_of. change 0xFF with (N.ones 8).
  rewrite !N.lor_spec, N.land_spec.
  assert (∀ k, N.testbit (N.shiftl (N.land (N.shiftr w k) (N.ones 8)) k) i =
    (k <=? i) && (i <? k + 8) && N.testbit w i) as Hb.
  { intros k. destruct (N.leb_spec k i) as [Hki|Hki]; [|by rewrite N.shiftl_spec_low].
    rewrite N.shiftl_spec_high' by done. rewrite N.land_spec, N.shiftr_spec' .
    replace (i - k + k) with i by lia. destruct (N.ltb_spec i (k + 8)).
    - rewrite N.ones_spec_low by lia. by rewrite andb_true_r.
    - rewrite N.ones_spec_high by lia. by rewrite andb_false_r. }
  rewrite !Hb. destruct (N.ltb_spec i 8).
  { rewrite N.ones_spec_low by done. rewrite andb_true_r.
    destruct (N.testbit w i); [done|]. by rewrite !andb_false_r. }
  rewrite N.ones_spec_high, andb_false_r by done. cbn [orb].
  destruct (decide (i < 32)) as [Hi|Hi].
  - destruct (N.testbit w i); rewrite ?andb_false_r, ?andb_true_r; [|done].
    case_N; simpl; first [done|lia].
  - assert (N.testbit w i = false) as ->; [|by rewrite !andb_false_r].
    destruct (decide (w = 0)) as [->|]; [apply N.bits_0|]. apply N.bits_above_log2.
    apply N.log2_lt_pow2; [lia|]. apply N.lt_le_trans with (2 ^ 32); [done|].
    apply N.pow_le_mono_r; lia.
Qed.

Lemma load_u32_holds buffer cursor w :
  word w → holds_at buffer cursor (le32 w) → runtime_fs_image_load_u32 buffer cursor = Some w.
Proof.
  intros Hw H. unfold le32 in H. rewrite !holds_at_cons in H.
  destruct H as (H0 & H1 & H2 & H3 & _). unfold runtime_fs_image_load_u32.
  replace (cursor + 2) with (cursor + 1 + 1) by lia.
  replace (cursor + 3) with (cursor + 1 + 1 + 1) by lia.
  rewrite H0, H1, H2, H3. cbind. f_equal. by apply le32_join.
Qed.

Definition words_bytes (ws : list N) : list N := concat (le32 <$> ws).

Lemma length_words ws : length (words_bytes ws) = (4 * length ws)%nat.
Proof.
  unfold words_bytes. induction ws as [|w ws IH]; [done|]. cbn [fmap list_fmap concat].
  rewrite length_app, IH. simpl. lia.
Qed.

Lemma load_words_holds buffer ws : ∀ cursor,
  Forall word ws → holds_at buffer cursor (words_bytes ws) →
  load_words (length ws) buffer cursor = Some ws.
Proof.
  induction ws as [|w ws IH]; intros cursor Hw H; [done|].
  inversion Hw as [|? ? Hw0 Hws]; subst. unfold words_bytes in H. cbn [fmap list_fmap concat] in H.
  apply holds_at_app in H as [H0 H1]. cbn [length load_words].
  rewrite (load_u32_holds _ _ w Hw0 H0). cbind. rewrite (IH (cursor + 4) Hws); [done|]. exact H1.
Qed.

Lemma load_bytes_holds buffer bytes : ∀ cursor,
  holds_at buffer cursor bytes → load_bytes (length bytes) buffer cursor = Some bytes.
Proof.
  induction bytes as [|b bytes IH]; intros cursor H; [done|].
  apply holds_at_cons in H as [H0 H1]. cbn [length load_bytes]. rewrite H0. cbind.
  by rewrite (IH _ H1).
Qed.

(** ** Stores *)

(** [buffer'] is [buffer] with [bytes] written at [offset]. *)
Definition written (buffer : list N) (offset : N) (bytes buffer' : list N) : Prop :=
  length buffer' = length buffer ∧ holds_at buffer' offset bytes ∧
  ∀ j, (j < N.to_nat offset ∨ N.to_nat offset + length bytes ≤ j)%nat → buffer' !! j = buffer !! j.

Lemma store_bytes_written bytes : ∀ buffer offset,
  offset + N.of_nat (length bytes) ≤ N.of_nat (length buffer) →
  ∃ buffer', store_bytes buffer offset bytes = Some buffer' ∧ written buffer offset bytes buffer'.
Proof.
  induction bytes as [|b bytes IH]; intros buffer offset Hlen.
  - exists buffer. split; [done|]. split_and!; [done|apply holds_at_nil|done].
  - cbn [store_bytes length] in *. rewrite aset_Some by lia. cbind.
    destruct (IH (<[N.to_nat offset := b]> buffer) (offset + 1)) as (buffer' & -> & Hl & Hh & Ho).
    { rewrite length_insert. lia. }
    exists buffer'. split; [done|]. rewrite length_insert in Hl. split_and!; [done| |].
    + apply holds_at_cons. split; [|done]. rewrite aget_lookup, Ho by lia.
      apply list_lookup_insert_eq. lia.
    + intros j Hj. rewrite Ho by (simpl in Hj; lia). apply list_lookup_insert_ne. simpl in Hj. lia.
Qed.

Lemma store_bytes_app a b buffer offset :
  store_bytes buffer offset (a ++ b) =
  (buffer ← store_bytes buffer offset a; store_bytes buffer (offset + N.of_nat (length a)) b).
Proof.
  revert buffer offset. induction a as [|x a IH]; intros buffer offset.
  - simpl. by rewrite N.add_0_r.
  - cbn [app store_bytes length]. destruct (aset buffer offset x) as [buffer'|]; [|done]. cbind.
    rewrite IH. by replace (offset + 1 + N.of_nat (length a)) with (offset + N.of_nat (S (length a))) by lia.
Qed.

Lemma store_words_bytes ws : ∀ buffer cursor,
  store_words buffer cursor ws = store_bytes buffer cursor (words_bytes ws).
Proof.
  induction ws as [|w ws IH]; intros buffer cursor; [done|].
  unfold words_bytes. cbn [fmap list_fmap concat store_words]. rewrite store_bytes_app.
  assert (runtime_fs_image_store_u32 cursor w buffer = store_bytes buffer cursor (le32 w)) as ->.
  { unfold runtime_fs_image_store_u32, le32. cbn [store_bytes].
    destruct (aset buffer cursor (N.land w 255)) as [b1|]; [|done]. cbind.
    destruct (aset b1 (cursor + 1) (byte_of w 8)) as [b2|]; [|done]. cbind.
    replace (cursor + 1 + 1) with (cursor + 2) by lia.
    destruct (aset b2 (cursor + 2) (byte_of w 16)) as [b3|]; [|done]. cbind.
    replace (cursor + 2 + 1) with (cursor + 3) by lia.
    by destruct (aset b3 (cursor + 3) (byte_of w 24)). }
  destruct (store_bytes buffer cursor (le32 w)) as [b|]; [|done]. cbind. apply IH.
Qed.

(** What is held elsewhere stays. *)
Lemma written_keeps buffer offset bytes buffer' o bs :
  written buffer offset bytes buffer' → holds_at buffer o bs →
  o + N.of_nat (length bs) ≤ offset ∨ offset + N.of_nat (length bytes) ≤ o →
  holds_at buffer' o bs.
Proof.
  intros (_ & _ & Ho) H Hd i b Hi. rewrite Ho; [by apply H|].
  apply lookup_lt_Some in Hi. lia.
Qed.

(** ** Records *)

Definition record_bytes (r : runtime_fs_image_record) : list N :=
  words_bytes (record_words r) ++ ir_name r.

(** The field widths of the C struct. *)
Definition record_ok (r : runtime_fs_image_record) : Prop :=
  Forall word (record_words r) ∧ length (ir_name r) = 16%nat.

Lemma length_record_bytes r : record_ok r → length (record_bytes r) = 56%nat.
Proof. intros [_ H]. unfold record_bytes. rewrite length_app, length_words, H. done. Qed.

Lemma read_record_holds buffer offset r :
  record_ok r → holds_at buffer offset (record_bytes r) →
  runtime_fs_image_read_record buffer offset = Some r.
Proof.
  intros [Hw Hn] H. apply holds_at_app in H as [Hws Hname]. rewrite length_words in Hname.
  destruct r as [a b c d e f g h i j name]. unfold record_words in *. cbn in Hw, Hn.
  unfold words_bytes in Hws. cbn [fmap list_fmap concat ir_node_index ir_type ir_parent_index
    ir_owner_pid ir_mode ir_size_bytes ir_data_offset ir_data_size ir_data_hash ir_object_hash] in Hws.
  rewrite !holds_at_app in Hws. change (length (le32 _)) with 4%nat in Hws.
  change (N.of_nat 4) with 4 in Hws. rewrite <-!N.add_assoc in Hws.
  destruct Hws as (H0 & H1 & H2 & H3 & H4 & H5 & H6 & H7 & H8 & H9 & _).
  repeat match goal with H : Forall word (_ :: _) |- _ => inversion H; clear H; subst end.
  unfold runtime_fs_image_read_record. rewrite N.add_0_r, (load_u32_holds _ offset a) by done. cbind.
  assert (∀ c w, holds_at buffer c (le32 w) → word w → runtime_fs_image_load_u32 buffer c = Some w) as Hload
    by (intros; by apply load_u32_holds).
  repeat (erewrite Hload; [|eassumption|eassumption]; cbind).
  replace (N.to_nat RUNTIME_FS_NAME_CAPACITY) with (length name) by by rewrite Hn.
  rewrite (load_bytes_holds buffer name); [done|]. exact Hname.
Qed.

Lemma write_record_written buffer offset r :
  record_ok r → offset + 56 ≤ N.of_nat (length buffer) →
  ∃ buffer', runtime_fs_image_write_record buffer offset r = Some buffer' ∧
    written buffer offset (record_bytes r) buffer'.
Proof.
  intros Hr Hlen. unfold runtime_fs_image_write_record. rewrite store_words_bytes.
  pose proof (length_record_bytes r Hr) as Hl.
  destruct (store_bytes_written (record_bytes r) buffer offset) as (buffer' & E & Hw); [lia|].
  exists buffer'. split; [|done]. unfold record_bytes in E. rewrite store_bytes_app in E.
  rewrite length_words in E. exact E.
Qed.

(** ** The hash tree *)

Definition leaf_of (hashes : list N) (i : N) : N := default RUNTIME_FS_IMAGE_HASH_EMPTY (aget hashes i).

(** [l] leaves over [hashes], as a heap. *)
Record tree_ok (l : nat) (hashes tree : list N) : Prop := {
  tree_length : length tree = (2 * l - 1)%nat;
  tree_leaf : ∀ i, (i < l)%nat → tree !! (l - 1 + i)%nat = Some (leaf_of hashes (N.of_nat i));
  tree_inner : ∀ p, (p < l - 1)%nat → ∃ a b, tree !! (2 * p + 1)%nat = Some a ∧
    tree !! (2 * p + 2)%nat = Some b ∧ tree !! p = Some (runtime_fs_image_tree_hash a b);
  tree_words : Forall word tree
}.

Lemma u32_word n : word (u32 n).
Proof. apply u32_lt. Qed.

Lemma hash_mix_word h b : word (runtime_fs_image_hash_mix h b).
Proof. apply u32_word. Qed.

Lemma tree_hash_word a b : word (runtime_fs_image_tree_hash a b).
Proof. apply u32_word. Qed.

Lemma hash_u32_word h v : word (runtime_fs_image_hash_u32 h v).
Proof. apply u32_word. Qed.

Lemma foldl_mix_word l : ∀ h, word h → word (foldl runtime_fs_image_hash_mix h l).
Proof. induction l as [|b l IH]; intros h Hh; [done|]. apply IH, hash_mix_word. Qed.

Lemma object_hash_word r : word (runtime_fs_image_object_hash r).
Proof. apply foldl_mix_word, hash_u32_word. Qed.

Lemma hash_loop_word count data : ∀ cursor hash h,
  word hash → hash_loop count data cursor hash = Some h → word h.
Proof.
  induction count as [|count IH]; intros cursor hash h Hh E; simpl in E; [by simplify_eq|].
  destruct (aget data cursor); [|done]. cbind_in E. eapply IH; [apply hash_mix_word|done].
Qed.

Lemma tree_leaves_spec hashes first : ∀ count index tree,
  (N.to_nat first + N.to_nat index + count ≤ length tree)%nat →
  ∃ tree', tree_leaves count first index hashes tree = Some tree' ∧ length tree' = length tree ∧
    (∀ i, (i < count)%nat → tree' !! (N.to_nat first + N.to_nat index + i)%nat =
      Some (leaf_of hashes (index + N.of_nat i))) ∧
    ∀ j, (j < N.to_nat first + N.to_nat index ∨ N.to_nat first + N.to_nat index + count ≤ j)%nat →
      tree' !! j = tree !! j.
Proof.
  induction count as [|count IH]; intros index tree Hlen.
  { exists tree. split_and!; [done|done|lia|done]. }
  cbn [tree_leaves]. fold (leaf_of hashes index). rewrite aset_Some by lia. cbind.
  destruct (IH (index + 1) (<[N.to_nat (first + index) := leaf_of hashes index]> tree)) as
    (tree' & -> & Hl & Hin & Hout); [rewrite length_insert; lia|].
  rewrite length_insert in Hl. exists tree'. split_and!; [done|done| |].
  - intros [|i] Hi.
    + rewrite Hout by lia. replace (N.to_nat first + N.to_nat index + 0)%nat with (N.to_nat (first + index)) by lia.
      rewrite list_lookup_insert_eq by lia. by rewrite N.add_0_r.
    + replace (N.to_nat first + N.to_nat index + S i)%nat
        with (N.to_nat first + N.to_nat (index + 1) + i)%nat by lia.
      rewrite Hin by lia. do 2 f_equal. lia.
  - intros j Hj. rewrite Hout by lia. apply list_lookup_insert_ne. lia.
Qed.

Lemma tree_parents_spec : ∀ index tree,
  (2 * index ≤ length tree)%nat → (index = 0 ∨ 2 * index < length tree)%nat →
  ∃ tree', tree_parents index tree = Some tree' ∧ length tree' = length tree ∧
    (∀ j, (index ≤ j)%nat → tree' !! j = tree !! j) ∧
    ∀ p, (p < index)%nat → ∃ a b, tree' !! (2 * p + 1)%nat = Some a ∧
      tree' !! (2 * p + 2)%nat = Some b ∧ tree' !! p = Some (runtime_fs_image_tree_hash a b).
Proof.
  induction index as [|index IH]; intros tree Hlen Hlen'.
  { exists tree. split_and!; [done|done|done|lia]. }
  cbn [tree_parents].
  destruct (aget_is_Some tree (N.of_nat index * 2 + 1)) as [a Ha]; [lia|].
  destruct (aget_is_Some tree (N.of_nat index * 2 + 2)) as [b Hb]; [lia|].
  rewrite Ha, Hb. cbind. rewrite aset_Some by lia. cbind. rewrite Nat2N.id.
  set (h := runtime_fs_image_tree_hash a b).
  destruct (IH (<[index := h]> tree)) as (tree' & -> & Hl & Hout & Hin); [rewrite length_insert; lia..|].
  rewrite length_insert in Hl. rewrite aget_lookup in Ha, Hb.
  replace (N.to_nat (N.of_nat index * 2 + 1)) with (2 * index + 1)%nat in Ha by lia.
  replace (N.to_nat (N.of_nat index * 2 + 2)) with (2 * index + 2)%nat in Hb by lia.
  exists tree'. split_and!; [done|done| |].
  - intros j Hj. rewrite Hout by lia. apply list_lookup_insert_ne. lia.
  - intros p Hp. destruct (decide (p = index)) as [->|Hne]; [|apply Hin; lia].
    exists a, b. rewrite !Hout by lia. rewrite !list_lookup_insert_ne by lia.
    by rewrite list_lookup_insert_eq by lia.
Qed.

Lemma build_tree l hashes :
  (0 < l)%nat → Forall word hashes →
  ∃ tree, (tree ← tree_leaves l (N.of_nat (2 * l - 1) - N.of_nat l) 0 hashes
             (replicate (2 * l - 1) RUNTIME_FS_IMAGE_HASH_EMPTY);
           tree_parents (N.to_nat (N.of_nat (2 * l - 1) - N.of_nat l)) tree) = Some tree ∧
    tree_ok l hashes tree.
Proof.
  intros Hl Hw. set (first := N.of_nat (2 * l - 1) - N.of_nat l).
  assert (N.to_nat first = (l - 1)%nat) as Hf by lia.
  destruct (tree_leaves_spec hashes first l 0 (replicate (2 * l - 1) RUNTIME_FS_IMAGE_HASH_EMPTY))
    as (t1 & -> & Hl1 & Hin1 & Hout1); [rewrite length_replicate; lia|]. rewrite length_replicate in Hl1. cbind.
  destruct (tree_parents_spec (N.to_nat first) t1) as (t2 & -> & Hl2 & Hout2 & Hin2); [lia|lia|].
  exists t2. split; [done|].
  assert (∀ i, (i < l)%nat → t2 !! (l - 1 + i)%nat = Some (leaf_of hashes (N.of_nat i))) as Hleaf.
  { intros i Hi. rewrite Hout2 by lia. rewrite <-Hf. specialize (Hin1 i Hi).
    rewrite Nat.add_0_r in Hin1. by rewrite Hin1. }
  split; [lia|done| |].
  - intros p Hp. apply Hin2. lia.
  - apply Forall_lookup_2. intros i x Hx. destruct (decide (i < l - 1)%nat) as [Hi|Hi].
    + destruct (Hin2 i) as (a & b & _ & _ & Hab); [lia|]. rewrite Hab in Hx. simplify_eq. apply tree_hash_word.
    + pose proof (lookup_lt_Some _ _ _ Hx). specialize (Hleaf (i - (l - 1))%nat ltac:(lia)).
      replace (l - 1 + (i - (l - 1)))%nat with i in Hleaf by lia. rewrite Hleaf in Hx. simplify_eq.
      unfold leaf_of. destruct (aget hashes _) as [h|] eqn:Hh; [|done]. simpl.
      rewrite aget_lookup in Hh. by eapply Forall_lookup_1.
Qed.

(** The tree passes the checks. *)
Lemma validate_leaves_ok records tree first : ∀ count index,
  (∀ i, (i < count)%nat → tree !! (N.to_nat first + N.to_nat index + i)%nat =
     Some (leaf_of (ir_object_hash <$> records) (index + N.of_nat i))) →
  validate_leaves count first index records tree = Some None.
Proof.
  induction count as [|count IH]; intros index H; [done|]. cbn [validate_leaves].
  pose proof (H 0%nat ltac:(lia)) as H0. rewrite Nat.add_0_r, N.add_0_r in H0.
  assert (aget tree (first + index) = Some (leaf_of (ir_object_hash <$> records) index)) as ->
    by (rewrite aget_lookup, <-H0; f_equal; lia).
  cbind.
  assert (leaf_of (ir_object_hash <$> records) index =
    match aget records index with Some r => ir_object_hash r | None => RUNTIME_FS_IMAGE_HASH_EMPTY end) as ->.
  { unfold leaf_of. rewrite !aget_lookup, list_lookup_fmap. by destruct (records !! N.to_nat index). }
  rewrite N.eqb_refl. cbn [negb]. apply IH. intros i Hi. specialize (H (S i) ltac:(lia)).
  replace (N.to_nat first + N.to_nat (index + 1) + i)%nat
    with (N.to_nat first + N.to_nat index + S i)%nat by lia.
  rewrite H. do 2 f_equal. lia.
Qed.

Lemma validate_inner_ok tree : ∀ index,
  (∀ p, (p < index)%nat → ∃ a b, tree !! (2 * p + 1)%nat = Some a ∧ tree !! (2 * p + 2)%nat = Some b ∧
     tree !! p = Some (runtime_fs_image_tree_hash a b)) →
  validate_inner index tree = Some None.
Proof.
  induction index as [|index IH]; intros H; [done|]. cbn [validate_inner].
  destruct (H index) as (a & b & Ha & Hb & Hp); [lia|]. rewrite !aget_lookup.
  replace (N.to_nat (N.of_nat index * 2 + 1)) with (2 * index + 1)%nat by lia.
  replace (N.to_nat (N.of_nat index * 2 + 2)) with (2 * index + 2)%nat by lia.
  rewrite Nat2N.id, Ha, Hb, Hp. cbind. rewrite N.eqb_refl. cbn [negb]. apply IH. intros p Hlt. apply H. lia.
Qed.
