(* ===== verification/RuntimeFsImageProofs.v ===== *)
(** * Exported images are valid and import to the same file system *)

From S2P Require Import Prelude RuntimeFs RuntimeFsInv RuntimeFsImage RuntimeFsImageBytes.

Local Open Scope N_scope.

(** ** Names in records *)

Definition no_nul (name : cstr) : Prop := ∀ c, c ∈ name → code c ≠ 0.

Definition padded_name (name : cstr) : list N := (code <$> name) ++ replicate (16 - length name) 0.

Lemma length_padded name : (length name ≤ 15)%nat → length (padded_name name) = 16%nat.
Proof. intros H. unfold padded_name. rewrite length_app, length_fmap, length_replicate. lia. Qed.

Lemma copy_loop_string name tail : ∀ index,
  (N.to_nat index + length name ≤ 15)%nat → no_nul name →
  image_copy_loop index ((code <$> name) ++ 0 :: tail) = Some (code <$> name).
Proof.
  induction name as [|c name IH]; intros index Hlen Hn; [done|].
  cbn [fmap list_fmap app image_copy_loop length] in *.
  destruct (N.eqb_spec (code c) 0) as [E|_]; [by destruct (Hn c ltac:(by left))|].
  assert ((index + 1 <? RUNTIME_FS_NAME_CAPACITY) = true) as ->
    by (apply N.ltb_lt; unfold RUNTIME_FS_NAME_CAPACITY; lia).
  rewrite IH; [done|lia|]. intros d Hd. apply Hn. by right.
Qed.

Lemma copy_name_padded name tail :
  (length name ≤ 15)%nat → no_nul name →
  runtime_fs_image_copy_name ((code <$> name) ++ 0 :: tail) = Some (padded_name name).
Proof.
  intros Hlen Hn. unfold runtime_fs_image_copy_name. rewrite copy_loop_string by (done || lia). cbind.
  unfold padded_name. by rewrite length_fmap.
Qed.

Lemma padded_split name :
  (length name ≤ 15)%nat → ∃ tail, padded_name name = (code <$> name) ++ 0 :: tail.
Proof.
  intros H. unfold padded_name. destruct (16 - length name)%nat as [|k] eqn:E; [lia|]. by exists (replicate k 0).
Qed.

Lemma ascii_code c : ascii_of_N (code c) = c.
Proof. apply ascii_N_embedding. Qed.

Lemma bytes_string_codes name tail : no_nul name → bytes_string ((code <$> name) ++ 0 :: tail) = name.
Proof.
  induction name as [|c name IH]; intros Hn; [done|]. cbn [fmap list_fmap app bytes_string].
  destruct (N.eqb_spec (code c) 0) as [E|_]; [by destruct (Hn c ltac:(by left))|].
  rewrite ascii_code, IH; [done|]. intros d Hd. apply Hn. by right.
Qed.

Lemma code_inj a b : code a = code b → a = b.
Proof. intros H. by rewrite <-(ascii_code a), <-(ascii_code b), H. Qed.

Lemma equals_loop_codes x : ∀ y s t index,
  (N.to_nat index + length x ≤ 15)%nat → no_nul x → no_nul y →
  equals_loop index 16 ((code <$> x) ++ 0 :: s) ((code <$> y) ++ 0 :: t) = Some (bool_decide (x = y)).
Proof.
  induction x as [|a x IH]; intros y s t index Hlen Hx Hy.
  - cbn [fmap list_fmap app equals_loop]. assert ((index <? 16) = true) as -> by (apply N.ltb_lt; simpl in Hlen; lia).
    cbn [nz N.eqb negb]. destruct y as [|b y]; cbn [fmap list_fmap app head]; cbind; [done|].
    assert (nz (code b) = true) as -> by (apply nz_true, Hy; by left). done.
  - cbn [fmap list_fmap app equals_loop length] in *.
    assert ((index <? 16) = true) as -> by (apply N.ltb_lt; lia).
    assert (nz (code a) = true) as -> by (apply nz_true, Hx; by left).
    destruct y as [|b y]; cbn [fmap list_fmap app head].
    { cbn [nz N.eqb negb]. cbind. cbn [nz N.eqb negb].
      assert (nz (code a) = true) as Ha by (apply nz_true, Hx; by left).
      f_equal. unfold nz in Ha. by destruct (code a =? 0). }
    assert (nz (code b) = true) as -> by (apply nz_true, Hy; by left).
    destruct (N.eqb_spec (code a) (code b)) as [E|Hne]; cbn [negb].
    + apply code_inj in E as ->.
      rewrite IH; [|lia|intros d Hd; apply Hx; by right|intros d Hd; apply Hy; by right].
      f_equal. apply bool_decide_ext. naive_solver.
    + f_equal. symmetry. apply bool_decide_eq_false_2. intros [= -> ->]. done.
Qed.

Lemma padded_names_equal x y :
  (length x ≤ 15)%nat → (length y ≤ 15)%nat → no_nul x → no_nul y →
  runtime_fs_image_name_equals_bounded (padded_name x) RUNTIME_FS_NAME_CAPACITY (padded_name y) =
    Some (bool_decide (x = y)).
Proof.
  intros Hx Hy Hnx Hny. destruct (padded_split x Hx) as [s ->], (padded_split y Hy) as [t ->].
  apply equals_loop_codes; [lia|done|done].
Qed.

(** ** The records of a file system *)

Definition data_size (n : runtime_fs_node) : N :=
  if is_type RUNTIME_FILE_TYPE_REGULAR n then n_size_bytes n else 0.
Definition payload (n : runtime_fs_node) : list N := take (N.to_nat (data_size n)) (n_data n).

Definition node_hash (n : runtime_fs_node) : N :=
  default 0 (runtime_fs_image_hash_bytes (n_data n) 0 (data_size n)).

Definition unhashed_record (j cursor : N) (n : runtime_fs_node) (hash : N) : runtime_fs_image_record :=
  ImageRecord j (n_type n) (n_parent_index n) (n_owner_pid n) (n_mode n) (n_size_bytes n) cursor
    (data_size n) (node_hash n) hash (padded_name (n_name n)).

Definition node_record (j cursor : N) (n : runtime_fs_node) : runtime_fs_image_record :=
  unhashed_record j cursor n (runtime_fs_image_object_hash (unhashed_record j cursor n 0)).

(** What the C types and [runtime_fs_validate] give for a node in use. *)
Record node_fits (n : runtime_fs_node) : Prop := {
  fits_size : n_size_bytes n ≤ 256;
  fits_data : length (n_data n) = 256%nat;
  fits_name : (length (n_name n) ≤ 15)%nat;
  fits_nul : no_nul (n_name n);
  fits_type : n_type n = RUNTIME_FILE_TYPE_DIRECTORY ∨ n_type n = RUNTIME_FILE_TYPE_REGULAR;
  fits_parent : n_parent_index n < 16;
  fits_owner : word (n_owner_pid n);
  fits_mode : word (n_mode n)
}.

Lemma data_size_le n : node_fits n → data_size n ≤ 256.
Proof. intros [H]. unfold data_size. case_match; lia. Qed.

Lemma length_payload n : node_fits n → length (payload n) = N.to_nat (data_size n).
Proof.
  intros H. pose proof (data_size_le n H). unfold payload. rewrite length_take, (fits_data _ H). lia.
Qed.

Lemma hash_loop_defined count data : ∀ cursor hash,
  (N.to_nat cursor + count ≤ length data)%nat → is_Some (hash_loop count data cursor hash).
Proof.
  induction count as [|count IH]; intros cursor hash H; [done|]. cbn [hash_loop].
  destruct (aget_is_Some data cursor) as [b ->]; [lia|]. cbind. apply IH. lia.
Qed.

Lemma node_hash_ok n :
  node_fits n → runtime_fs_image_hash_bytes (n_data n) 0 (data_size n) = Some (node_hash n) ∧ word (node_hash n).
Proof.
  intros H. pose proof (data_size_le n H). unfold node_hash, runtime_fs_image_hash_bytes.
  destruct (hash_loop_defined (N.to_nat (data_size n)) (n_data n) 0 RUNTIME_FS_IMAGE_HASH_EMPTY) as [h E].
  { rewrite (fits_data _ H). lia. }
  rewrite E. split; [done|]. simpl. eapply hash_loop_word; [|exact E]. done.
Qed.

Lemma image_record_of_node j cursor n :
  node_fits n → image_record_of j cursor n = Some (node_record j cursor n).
Proof.
  intros H. unfold image_record_of. fold (data_size n).
  rewrite (proj1 (node_hash_ok n H)). cbind. unfold string_bytes.
  by rewrite copy_name_padded by apply H.
Qed.

Lemma node_record_ok j cursor n : node_fits n → j < 16 → word cursor → record_ok (node_record j cursor n).
Proof.
  intros H Hj Hc. pose proof (data_size_le n H). pose proof (node_hash_ok n H) as [_ Hh].
  destruct H as [H1 H2 H3 H4 H5 H6 H7 H8].
  assert (word (n_type n)) by by destruct H5 as [-> | ->].
  split; [|by apply length_padded].
  assert (∀ x, x ≤ 256 → word x) as Hw by (intros; unfold word; lia).
  unfold record_words, node_record. cbn [ir_node_index ir_type ir_parent_index ir_owner_pid ir_mode
    ir_size_bytes ir_data_offset ir_data_size ir_data_hash ir_object_hash unhashed_record].
  rewrite !Forall_cons. split_and!; first [done|apply Hw; lia|apply object_hash_word].
Qed.

(** The records and the contents, in the order of the nodes. *)
Fixpoint node_records (l : list runtime_fs_node) (j cursor : N) : list runtime_fs_image_record :=
  match l with
  | [] => []
  | n :: l' =>
      if n_used n =? 0 then node_records l' (j + 1) cursor
      else node_record j cursor n :: node_records l' (j + 1) (cursor + data_size n)
  end.

Fixpoint all_contents (l : list runtime_fs_node) : list N :=
  match l with
  | [] => []
  | n :: l' => if n_used n =? 0 then all_contents l' else payload n ++ all_contents l'
  end.

Definition used_fit (l : list runtime_fs_node) : Prop := ∀ n, n ∈ l → n_used n ≠ 0 → node_fits n.

Lemma used_fit_cons n l : used_fit (n :: l) → (n_used n ≠ 0 → node_fits n) ∧ used_fit l.
Proof. intros H. split; [intros Hu; apply H; [by left|done]|]. intros m Hm. apply H. by right. Qed.

Lemma used_count l j cursor : length (node_records l j cursor) = N.to_nat (count_if (λ n, nz (n_used n)) l).
Proof.
  revert j cursor. induction l as [|n l IH]; intros j cursor; [done|]. cbn [node_records count_if].
  unfold nz at 1. destruct (n_used n =? 0); cbn [negb length]; rewrite IH; lia.
Qed.

Lemma length_all_contents l : used_fit l → (length (all_contents l) ≤ 256 * length l)%nat.
Proof.
  induction l as [|n l IH]; intros H; [done|]. apply used_fit_cons in H as [Hn Hl]. specialize (IH Hl).
  simpl. destruct (N.eqb_spec (n_used n) 0) as [|Hu]; [lia|].
  rewrite length_app, length_payload by by apply Hn. pose proof (data_size_le n (Hn Hu)). lia.
Qed.

Lemma data_bytes_fold l : ∀ total,
  used_fit l → total + N.of_nat (length (all_contents l)) < 4294967296 →
  foldl (λ total n, if nz (n_used n) && is_type RUNTIME_FILE_TYPE_REGULAR n
                    then u32 (total + n_size_bytes n) else total) total l =
    total + N.of_nat (length (all_contents l)).
Proof.
  induction l as [|n l IH]; intros total H Hlt; simpl in *; [lia|].
  apply used_fit_cons in H as [Hn Hl]. unfold nz at 2. destruct (N.eqb_spec (n_used n) 0) as [|Hu].
  - cbn [negb andb]. by apply IH.
  - rewrite length_app, length_payload in * by by apply Hn. cbn [negb andb].
    unfold data_size in *. destruct (is_type RUNTIME_FILE_TYPE_REGULAR n); [|by rewrite IH].
    rewrite u32_small by lia. rewrite IH by (done || lia). lia.
Qed.

Lemma node_records_fit l : ∀ j cursor,
  used_fit l → j + N.of_nat (length l) ≤ 16 → cursor + N.of_nat (length (all_contents l)) < 4294967296 →
  Forall record_ok (node_records l j cursor).
Proof.
  induction l as [|n l IH]; intros j cursor H Hj Hc; simpl; [constructor|].
  apply used_fit_cons in H as [Hn Hl]. simpl in *. destruct (N.eqb_spec (n_used n) 0) as [|Hu].
  - apply IH; [done|lia|done].
  - rewrite length_app, length_payload in Hc by by apply Hn. constructor.
    + apply node_record_ok; [by apply Hn|lia|unfold word; lia].
    + apply IH; [done|lia|lia].
Qed.

Lemma length_records_bytes rs : Forall record_ok rs → length (concat (record_bytes <$> rs)) = (56 * length rs)%nat.
Proof.
  induction 1 as [|r rs Hr _ IH]; [done|]. cbn [fmap list_fmap concat].
  rewrite length_app, length_record_bytes by done. cbn [length]. change (list_fmap _ _ record_bytes rs) with (record_bytes <$> rs). lia.
Qed.

(** ** The export loop *)

Lemma load_payload n : node_fits n → load_bytes (N.to_nat (data_size n)) (n_data n) 0 = Some (payload n).
Proof.
  intros H. rewrite <-(length_payload n H). apply load_bytes_holds.
  intros i b Hi. unfold payload in Hi. simpl. by apply lookup_take_Some in Hi as [Hi _].
Qed.

Lemma export_nodes_spec l : ∀ j data_offset record_offset cursor bytes hashes,
  used_fit l → j + N.of_nat (length l) ≤ 16 →
  record_offset + 56 * N.of_nat (length (node_records l j cursor)) ≤ data_offset →
  data_offset + cursor + N.of_nat (length (all_contents l)) ≤ N.of_nat (length bytes) →
  cursor + N.of_nat (length (all_contents l)) < 4294967296 →
  ∃ bytes', export_nodes l j data_offset record_offset cursor bytes hashes =
      Some (bytes', hashes ++ (ir_object_hash <$> node_records l j cursor)) ∧
    length bytes' = length bytes ∧
    holds_at bytes' record_offset (concat (record_bytes <$> node_records l j cursor)) ∧
    holds_at bytes' (data_offset + cursor) (all_contents l) ∧
    ∀ k, (k < N.to_nat record_offset ∨
          N.to_nat record_offset + 56 * length (node_records l j cursor) ≤ k < N.to_nat (data_offset + cursor))%nat →
      bytes' !! k = bytes !! k.
Proof.
  induction l as [|n l IH]; intros j doff roff cursor bytes hashes Hf Hj Hr Hd Hc.
  { exists bytes. simpl. rewrite app_nil_r. split_and!; [done|done|apply holds_at_nil|apply holds_at_nil|done]. }
  apply used_fit_cons in Hf as [Hn Hl]. cbn [export_nodes node_records all_contents length] in *.
  destruct (N.eqb_spec (n_used n) 0) as [|Hu]; [apply IH; (done || lia)|].
  specialize (Hn Hu). rewrite length_app, (length_payload n Hn) in Hd, Hc. cbn [length] in Hr.
  rewrite (image_record_of_node j cursor n Hn). cbind.
  pose proof (node_record_ok j cursor n Hn ltac:(lia) ltac:(unfold word; lia)) as Hok.
  destruct (write_record_written bytes roff (node_record j cursor n) Hok) as (b1 & -> & Hw1); [lia|]. cbind.
  cbn [ir_data_size node_record unhashed_record ir_object_hash]. rewrite (load_payload n Hn). cbind.
  pose proof Hw1 as (Hl1 & Hh1 & Ho1). rewrite (length_record_bytes _ Hok) in Ho1.
  destruct (store_bytes_written (payload n) b1 (doff + cursor)) as (b2 & -> & Hw2);
    [rewrite (length_payload n Hn); lia|]. cbind.
  pose proof Hw2 as (Hl2 & Hh2 & Ho2). rewrite (length_payload n Hn) in Ho2. rewrite u32_small by lia.
  destruct (IH (j + 1) doff (roff + RUNTIME_FS_IMAGE_RECORD_BYTES) (cursor + data_size n) b2
    (hashes ++ [runtime_fs_image_object_hash (unhashed_record j cursor n 0)])) as (b3 & -> & Hl3 & Hrec & Hdat & Ho3);
    [done|lia|change RUNTIME_FS_IMAGE_RECORD_BYTES with 56; lia|lia|lia|].
  change RUNTIME_FS_IMAGE_RECORD_BYTES with 56 in *.
  exists b3. rewrite <-app_assoc. split; [done|]. split; [congruence|]. cbn [fmap list_fmap concat].
  split_and!.
  - apply holds_at_app. rewrite (length_record_bytes _ Hok). split; [|exact Hrec].
    intros i b Hi. pose proof (lookup_lt_Some _ _ _ Hi) as Hlt. rewrite (length_record_bytes _ Hok) in Hlt.
    rewrite Ho3 by lia. rewrite Ho2 by lia. by apply Hh1.
  - apply holds_at_app. rewrite (length_payload n Hn), N2Nat.id. split.
    2:{ by rewrite <-N.add_assoc. }
    intros i b Hi. pose proof (lookup_lt_Some _ _ _ Hi) as Hlt. rewrite (length_payload n Hn) in Hlt.
    rewrite Ho3 by lia. by apply Hh2.
  - intros k Hk. cbn [length] in Hk. rewrite Ho3 by lia. rewrite Ho2 by lia. apply Ho1. lia.
Qed.
