(* ===== verification/RuntimeFsImageValid.v ===== *)
(** * What the validation of an image accepts

    The records that [runtime_fs_image_export] writes for the nodes of a
    file system pass the checks of [runtime_fs_image_validate]: their fields,
    their order and contents, the links to the parents, and the names. *)

From S2P Require Import Prelude RuntimeFs RuntimeFsInv RuntimeFsImage RuntimeFsImageBytes RuntimeFsImageProofs.

Local Open Scope N_scope.

(** ** Hashes of what a buffer holds *)

Lemma hash_loop_holds l : ∀ a b c d h,
  holds_at a c l → holds_at b d l → hash_loop (length l) a c h = hash_loop (length l) b d h.
Proof.
  induction l as [|x l IH]; intros a b c d h Ha Hb; [done|].
  apply holds_at_cons in Ha as [Ha Ha'], Hb as [Hb Hb']. cbn [length hash_loop]. rewrite Ha, Hb. cbind.
  by apply IH.
Qed.

Lemma hash_payload bytes offset n :
  node_fits n → holds_at bytes offset (payload n) →
  runtime_fs_image_hash_bytes bytes offset (data_size n) = Some (node_hash n).
Proof.
  intros Hn H. rewrite <-(proj1 (node_hash_ok n Hn)). unfold runtime_fs_image_hash_bytes.
  rewrite <-(length_payload n Hn). apply hash_loop_holds; [done|].
  intros i b Hi. by apply lookup_take_Some in Hi as [Hi _].
Qed.

Lemma testbit_shift mask j : N.land (N.shiftr mask j) 1 = N.b2n (N.testbit mask j).
Proof.
  change 1 with (N.ones 1). rewrite N.land_ones. change (2 ^ 1) with 2. rewrite <-N.bit0_mod.
  by rewrite N.shiftr_spec', N.add_0_l.
Qed.

Lemma testbit_mark mask j i : N.testbit (N.lor mask (N.shiftl 1 j)) i = N.testbit mask i || (i =? j).
Proof.
  rewrite N.lor_spec, N.shiftl_1_l, N.pow2_bits_eqb. by rewrite (N.eqb_sym j i).
Qed.

(** ** The fields of a record *)

(** What [runtime_fs_image_validate] asks of the name in a record. *)
Definition place_ok (index : N) (n : runtime_fs_node) : Prop :=
  if index =? 0 then
    n_type n = RUNTIME_FILE_TYPE_DIRECTORY ∧ n_parent_index n = 0 ∧ n_name n = ["/"%char]
  else n_name n ≠ [] ∧ n_name n ≠ ["/"%char].

Lemma name_check_other n :
  node_fits n → n_name n ≠ [] → n_name n ≠ ["/"%char] →
  (default 0 (aget (padded_name (n_name n)) 0) =? 0) ||
  (default 0 (aget (padded_name (n_name n)) 0) =? 47) && (default 0 (aget (padded_name (n_name n)) 1) =? 0) = false.
Proof.
  intros [_ _ Hlen Hnul _ _ _ _]. rewrite !aget_lookup. change (N.to_nat 0) with 0%nat.
  change (N.to_nat 1) with 1%nat. destruct (n_name n) as [|c [|d name]]; [done| |]; intros _ Hne; cbn.
  - destruct (N.eqb_spec (code c) 0) as [Hc|_]; [by destruct (Hnul c ltac:(by left))|].
    destruct (N.eqb_spec (code c) 47) as [Hc|_]; [|done]. exfalso. apply Hne. f_equal.
    by rewrite <-(ascii_code c), Hc.
  - destruct (N.eqb_spec (code c) 0) as [Hc|_]; [by destruct (Hnul c ltac:(by left))|].
    destruct (N.eqb_spec (code d) 0) as [Hd|_]; [by destruct (Hnul d ltac:(right; by left))|].
    by destruct (code c =? 47).
Qed.

Lemma fields_pass h index previous mask cursor j n :
  node_fits n → place_ok index n → (index = 0 ↔ j = 0) → j < 16 → N.testbit mask j = false →
  match previous with Some p => ir_node_index p < j | None => True end →
  cursor + data_size n ≤ ih_data_bytes h → word (ih_data_bytes h) →
  record_fields_failure h index previous mask cursor (node_record j cursor n) = None.
Proof.
  intros Hn Hplace Hj Hlt Hbit Hprev Hc Hw. pose proof (data_size_le n Hn) as Hds.
  unfold record_fields_failure, name_byte, node_record. cbn [ir_node_index ir_type ir_parent_index ir_owner_pid
    ir_mode ir_size_bytes ir_data_offset ir_data_size ir_data_hash ir_object_hash ir_name unhashed_record].
  assert ((RUNTIME_FS_MAX_NODES <=? j) = false) as -> by (apply N.leb_gt; exact Hlt).
  rewrite testbit_shift, Hbit. cbn [N.b2n nz N.eqb negb].
  assert ((index =? 0) && nz j = false) as ->.
  { destruct (N.eqb_spec index 0) as [E|]; [|done]. by rewrite (proj1 Hj E). }
  assert (match previous with Some p => j <=? ir_node_index p | None => false end = false) as ->.
  { destruct previous; [by apply N.leb_gt|done]. }
  assert (negb (n_type n =? RUNTIME_FILE_TYPE_DIRECTORY) && negb (n_type n =? RUNTIME_FILE_TYPE_REGULAR) = false) as ->.
  { by destruct (fits_type _ Hn) as [-> | ->]. }
  assert ((n_type n =? RUNTIME_FILE_TYPE_DIRECTORY) && nz (data_size n) = false) as ->.
  { unfold data_size, is_type. by destruct (fits_type _ Hn) as [-> | ->]. }
  assert ((n_type n =? RUNTIME_FILE_TYPE_REGULAR) && negb (data_size n =? n_size_bytes n) = false) as ->.
  { unfold data_size, is_type. destruct (n_type n =? RUNTIME_FILE_TYPE_REGULAR); [by rewrite N.eqb_refl|done]. }
  assert ((RUNTIME_FS_FILE_CAPACITY <? n_size_bytes n) = false) as -> by (apply N.ltb_ge, Hn).
  rewrite N.eqb_refl. cbn [negb]. unfold word in Hw.
  assert ((ih_data_bytes h <? u32 (cursor + data_size n)) = false) as ->.
  { rewrite u32_small by lia. by apply N.ltb_ge. }
  unfold place_ok in Hplace. unfold nz. destruct (N.eqb_spec index 0) as [->|Hi]; cbn [negb andb].
  - destruct Hplace as (-> & -> & ->). done.
  - destruct Hplace as [H1 H2]. by rewrite (name_check_other n Hn H1 H2).
Qed.

(** ** The loop over the records *)

(** Each node in use from index [j] on fits, and only the first is the root. *)
Definition nodes_ok (l : list runtime_fs_node) : Prop :=
  used_fit l ∧ ∀ n, n ∈ l → n_used n ≠ 0 → n_name n ≠ [] ∧ n_name n ≠ ["/"%char].

Lemma nodes_ok_cons n l : nodes_ok (n :: l) → (n_used n ≠ 0 → node_fits n ∧ place_ok 1 n) ∧ nodes_ok l.
Proof.
  intros [Hf Hp]. apply used_fit_cons in Hf as [Hf Hl]. split; [intros Hu; split|split].
  - by apply Hf.
  - apply Hp; [by left|done].
  - done.
  - intros m Hm. apply Hp. by right.
Qed.

Definition mask_of (records : list runtime_fs_image_record) (mask mask' : N) : Prop :=
  ∀ i, N.testbit mask' i = N.testbit mask i || existsb (λ r, i =? ir_node_index r) records.

Lemma place_nonzero index n : index ≠ 0 → place_ok 1 n → place_ok index n.
Proof. unfold place_ok. by case_N. Qed.

Lemma record_step h bytes doff index previous mask j n count cursor :
  node_fits n → place_ok index n → (index = 0 ↔ j = 0) → j < 16 → N.testbit mask j = false →
  match previous with Some p => ir_node_index p < j | None => True end →
  cursor + data_size n ≤ ih_data_bytes h → word (ih_data_bytes h) → word cursor →
  holds_at bytes (ih_header_bytes h + index * ih_record_bytes h) (record_bytes (node_record j cursor n)) →
  holds_at bytes (doff + cursor) (payload n) →
  validate_records (S count) h bytes doff index previous mask cursor =
    (rest ← validate_records count h bytes doff (index + 1) (Some (node_record j cursor n))
              (N.lor mask (N.shiftl 1 j)) (cursor + data_size n);
     Some (match rest with
           | inl failure => inl failure
           | inr (records, mask, payload) => inr (node_record j cursor n :: records, mask, payload)
           end)).
Proof.
  intros Hn Hp Hj Hlt Hb Hprev Hc Hw Hwc Hr Hd. cbn [validate_records].
  rewrite (read_record_holds _ _ _ (node_record_ok j cursor n Hn Hlt Hwc) Hr). cbind.
  rewrite (fields_pass h index previous mask cursor j n) by done.
  cbn [ir_data_offset ir_data_size node_record unhashed_record ir_data_hash ir_object_hash ir_node_index].
  rewrite (hash_payload bytes (doff + cursor) n Hn Hd). cbind. rewrite N.eqb_refl. cbn [negb].
  assert (runtime_fs_image_object_hash (node_record j cursor n) =
    runtime_fs_image_object_hash (unhashed_record j cursor n 0)) as Hoh by reflexivity.
  unfold node_record, unhashed_record in Hoh |- *. rewrite Hoh, N.eqb_refl. cbn [negb].
  unfold word in Hw. by rewrite u32_small by lia.
Qed.

Lemma records_loop h bytes doff l : ∀ index j cursor previous mask,
  nodes_ok l → index ≠ 0 → j ≠ 0 → j + N.of_nat (length l) ≤ 16 →
  (∀ i, j ≤ i → N.testbit mask i = false) →
  match previous with Some p => ir_node_index p < j | None => True end →
  cursor + N.of_nat (length (all_contents l)) ≤ ih_data_bytes h → word (ih_data_bytes h) →
  ih_record_bytes h = 56 →
  holds_at bytes (ih_header_bytes h + index * 56) (concat (record_bytes <$> node_records l j cursor)) →
  holds_at bytes (doff + cursor) (all_contents l) →
  ∃ mask', validate_records (length (node_records l j cursor)) h bytes doff index previous mask cursor =
      Some (inr (node_records l j cursor, mask', cursor + N.of_nat (length (all_contents l)))) ∧
    mask_of (node_records l j cursor) mask mask'.
Proof.
  induction l as [|n l IH]; intros index j cursor previous mask Hok Hi Hj Hlen Hbits Hprev Hc Hw Hrb Hr Hd.
  { exists mask. cbn. rewrite N.add_0_r. split; [done|]. intros i. simpl. by rewrite orb_false_r. }
  apply nodes_ok_cons in Hok as [Hn Hl]. cbn [node_records all_contents length] in *.
  destruct (N.eqb_spec (n_used n) 0) as [|Hu].
  { apply (IH index (j + 1)); try done; [lia|lia|intros i Hij; apply Hbits; lia|].
    destruct previous; [lia|done]. }
  destruct (Hn Hu) as [Hfit Hp]. rewrite length_app, (length_payload n Hfit) in *.
  cbn [fmap list_fmap concat] in Hr. apply holds_at_app in Hr as [Hr0 Hr1], Hd as [Hd0 Hd1].
  assert (word cursor) as Hwc by (unfold word in *; lia).
  rewrite (length_record_bytes _ (node_record_ok j cursor n Hfit ltac:(lia) Hwc)) in Hr1.
  rewrite (length_payload n Hfit), N2Nat.id in Hd1. cbn [length].
  rewrite (record_step h bytes doff index previous mask j n); try done; first last.
  { by rewrite Hrb. } { lia. } { apply Hbits. lia. } { lia. } { by apply place_nonzero. }
  destruct (IH (index + 1) (j + 1) (cursor + data_size n) (Some (node_record j cursor n))
              (N.lor mask (N.shiftl 1 j))) as (mask' & -> & Hm); try done; try lia.
  { intros i Hij. rewrite testbit_mark, Hbits by lia. apply N.eqb_neq. lia. }
  { cbn [ir_node_index node_record unhashed_record]. lia. }
  { by replace (ih_header_bytes h + (index + 1) * 56) with (ih_header_bytes h + index * 56 + N.of_nat 56) by lia. }
  { by rewrite N.add_assoc. }
  cbind. exists mask'. split; [do 3 f_equal; lia|].
  intros i. rewrite Hm, testbit_mark. cbn [existsb ir_node_index node_record unhashed_record].
  by rewrite orb_assoc.
Qed.

(** ** Finding records *)

Lemma find_record_cons r rs i :
  runtime_fs_image_find_record (r :: rs) i =
    if ir_node_index r =? i then Some (0, r)
    else '(k, r') ← runtime_fs_image_find_record rs i; Some (k + 1, r').
Proof.
  unfold runtime_fs_image_find_record. destruct (N.eqb_spec (ir_node_index r) i) as [E|Hne].
  - assert (find_idx (λ _ r, ir_node_index r =? i) (r :: rs) = Some 0) as ->; [|done].
    apply find_idx_Some. exists r. split_and!; [done|by apply N.eqb_eq|]. lia.
  - destruct (find_idx (λ _ r, ir_node_index r =? i) rs) as [k|] eqn:Hk.
    + apply find_idx_Some in Hk as (x & Hx & Hxi & Hlt).
      assert (find_idx (λ _ r, ir_node_index r =? i) (r :: rs) = Some (k + 1)) as ->.
      { apply find_idx_Some. exists x. rewrite aget_lookup in Hx |- *.
        replace (N.to_nat (k + 1)) with (S (N.to_nat k)) by lia. split_and!; [done|done|].
        intros j y Hj Hy. destruct (decide (j = 0)) as [->|Hj0].
        - injection Hy as <-. by apply N.eqb_neq.
        - apply (Hlt (j - 1)); [lia|]. rewrite aget_lookup in Hy |- *.
          by replace (N.to_nat j) with (S (N.to_nat (j - 1))) in Hy by lia. }
      rewrite !aget_lookup in *. replace (N.to_nat (k + 1)) with (S (N.to_nat k)) by lia. rewrite lookup_cons_ne_0 by lia.
      by rewrite Nat.pred_succ, Hx.
    + assert (find_idx (λ _ r, ir_node_index r =? i) (r :: rs) = None) as ->; [|done].
      apply find_idx_None. intros j y Hy. rewrite find_idx_None in Hk.
      destruct (decide (j = 0)) as [->|Hj0]; [injection Hy as <-; by apply N.eqb_neq|].
      apply (Hk (j - 1)). rewrite aget_lookup in Hy |- *.
      by replace (N.to_nat j) with (S (N.to_nat (j - 1))) in Hy by lia.
Qed.

Lemma find_node_record l : ∀ j cursor i n,
  l !! i = Some n → n_used n ≠ 0 →
  ∃ k c, runtime_fs_image_find_record (node_records l j cursor) (j + N.of_nat i) =
    Some (k, node_record (j + N.of_nat i) c n) ∧ (i = 0%nat → k = 0).
Proof.
  induction l as [|m l IH]; intros j cursor i n Hi Hu; [done|]. cbn [node_records].
  destruct i as [|i]; cbn in Hi.
  - injection Hi as ->. destruct (N.eqb_spec (n_used n) 0); [done|]. exists 0, cursor.
    rewrite find_record_cons, N.add_0_r. cbn [ir_node_index node_record unhashed_record].
    by rewrite N.eqb_refl.
  - replace (j + N.of_nat (S i)) with (j + 1 + N.of_nat i) by lia.
    destruct (N.eqb_spec (n_used m) 0) as [|Hum].
    + destruct (IH (j + 1) cursor i n Hi Hu) as (k & c & E & _). by exists k, c.
    + destruct (IH (j + 1) (cursor + data_size m) i n Hi Hu) as (k & c & E & _).
      exists (k + 1), c. split; [|done]. rewrite find_record_cons.
      cbn [ir_node_index node_record unhashed_record].
      destruct (N.eqb_spec j (j + 1 + N.of_nat i)); [lia|]. by rewrite E.
Qed.

Lemma elem_node_records l : ∀ j cursor r,
  r ∈ node_records l j cursor →
  ∃ i n c, l !! i = Some n ∧ n_used n ≠ 0 ∧ r = node_record (j + N.of_nat i) c n.
Proof.
  induction l as [|m l IH]; intros j cursor r Hr; cbn [node_records] in Hr; [by apply elem_of_nil in Hr|].
  assert (∀ cursor', r ∈ node_records l (j + 1) cursor' →
    ∃ i n c, (m :: l) !! i = Some n ∧ n_used n ≠ 0 ∧ r = node_record (j + N.of_nat i) c n) as Htail.
  { intros c' Hr'. destruct (IH _ _ _ Hr') as (i & n & c & Hi & Hu & ->). exists (S i), n, c.
    split_and!; [done|done|]. f_equal. lia. }
  destruct (N.eqb_spec (n_used m) 0) as [|Hu]; [by eapply Htail|].
  apply elem_of_cons in Hr as [->|Hr]; [|by eapply Htail].
  exists 0%nat, m, cursor. by rewrite N.add_0_r.
Qed.

Lemma mask_has l j cursor mask mask' i n :
  mask_of (node_records l j cursor) mask mask' → l !! i = Some n → n_used n ≠ 0 →
  N.testbit mask' (j + N.of_nat i) = true.
Proof.
  intros Hm Hi Hu. rewrite Hm. apply orb_true_intro. right. apply existsb_exists.
  destruct (find_node_record l j cursor i n Hi Hu) as (k & c & E & _).
  unfold runtime_fs_image_find_record in E. destruct (find_idx _ _) as [p|] eqn:Hp; [|done].
  destruct (aget (node_records l j cursor) p) as [r|] eqn:Hr; [|done]. injection E as _ ->.
  rewrite aget_lookup in Hr. exists (node_record (j + N.of_nat i) c n). split.
  - by eapply list_elem_of_In, list_elem_of_lookup_2.
  - by apply N.eqb_eq.
Qed.

(** ** The links to the parents and the names *)

Section Links.
Context (fs : runtime_fs) (Ht : typed fs) (Hwf : wf fs).

Lemma record_found i n :
  aget (nodes fs) i = Some n → n_used n ≠ 0 →
  ∃ k c, runtime_fs_image_find_record (node_records (nodes fs) 0 0) i = Some (k, node_record i c n) ∧ (i = 0 → k = 0).
Proof.
  intros Hi Hu. rewrite aget_lookup in Hi.
  destruct (find_node_record (nodes fs) 0 0 (N.to_nat i) n Hi Hu) as (k & c & E & H0).
  rewrite N.add_0_l, N2Nat.id in E. exists k, c. split; [done|]. intros ->. by apply H0.
Qed.

Lemma walk_ends fuel : ∀ k i depth,
  reach fs k i → (k < fuel)%nat → depth + N.of_nat k ≤ 16 → validate_walk fuel (node_records (nodes fs) 0 0) i depth = Some None.
Proof.
  induction fuel as [|fuel IH]; intros k i depth Hr Hk Hd; [lia|]. cbn [validate_walk].
  inversion Hr as [|k' i' n Hi Hn Hu Hr']; subst; [done|].
  destruct (N.eqb_spec i 0); [done|]. destruct (record_found i n Hn Hu) as (p & c & -> & _).
  assert ((RUNTIME_FS_MAX_NODES <? depth + 1) = false) as -> by (apply N.ltb_ge; unfold RUNTIME_FS_MAX_NODES; lia).
  cbn [ir_parent_index node_record unhashed_record]. apply (IH k'); [done|lia|lia].
Qed.

Lemma root_facts : ∃ r, aget (nodes fs) 0 = Some r ∧ n_used r ≠ 0 ∧ n_type r = RUNTIME_FILE_TYPE_DIRECTORY ∧
  n_parent_index r = 0 ∧ n_name r = ["/"%char].
Proof.
  destruct (wf_root _ Hwf) as (r & Hr & Hv). exists r. split; [done|].
  apply root_is_valid_iff in Hv as (H1 & H2 & H3 & H4). done.
Qed.

Lemma used_parent i n :
  aget (nodes fs) i = Some n → n_used n ≠ 0 → is_dir fs (n_parent_index n) ∧ ∃ k, reach fs k i.
Proof.
  intros Hi Hu. destruct (decide (i = 0)) as [->|Hne].
  - destruct root_facts as (r & Hr & Hur & Htr & Hp & _). rewrite Hr in Hi. injection Hi as ->.
    split; [|exists 0%nat; constructor]. exists n. by rewrite Hp.
  - destruct (wf_node _ Hwf i n Hne Hi Hu) as [_ _ Hp _ Hk]. done.
Qed.

Lemma parent_accepted mask' index i c n :
  mask_of (node_records (nodes fs) 0 0) 0 mask' → aget (nodes fs) i = Some n → n_used n ≠ 0 →
  validate_parent (node_records (nodes fs) 0 0) mask' index (node_record i c n) = Some None.
Proof.
  intros Hm Hi Hu. destruct (used_parent i n Hi Hu) as [(p & Hp & Hup & Htp) (k & Hk)].
  destruct (record_found _ p Hp Hup) as (q & c' & Hq & Hq0).
  assert (n_parent_index n < 16) as Hlt.
  { apply aget_Some_lt in Hp. rewrite (typed_nodes _ Ht) in Hp. lia. }
  unfold validate_parent. cbn [ir_node_index ir_parent_index node_record unhashed_record]. rewrite Hq.
  assert ((if i =? 0 then Some false
           else if 32 <=? n_parent_index n then None
           else Some (N.land (N.shiftr mask' (n_parent_index n)) 1 =? 0)) = Some false) as ->.
  { destruct (i =? 0); [done|]. assert ((32 <=? n_parent_index n) = false) as -> by (apply N.leb_gt; lia).
    rewrite testbit_shift. rewrite aget_lookup in Hp.
    pose proof (mask_has _ 0 0 0 mask' (N.to_nat (n_parent_index n)) p Hm Hp Hup) as Hb.
    rewrite N.add_0_l, N2Nat.id in Hb. by rewrite Hb. }
  cbind. cbn [ir_type node_record unhashed_record]. rewrite Htp.
  assert ((i =? 0) && negb (q =? 0) = false) as ->.
  { destruct (N.eqb_spec i 0) as [->|]; [|done]. destruct root_facts as (r & Hr & _ & _ & Hpr & _).
    rewrite Hr in Hi. injection Hi as ->. by rewrite (Hq0 Hpr). }
  rewrite N.eqb_refl, andb_false_r. rewrite (walk_ends WALK_FUEL k i 0 Hk); [done| |];
    pose proof (reach_bound _ _ _ Ht Hk); unfold WALK_FUEL; lia.
Qed.

Lemma parents_accepted mask' : mask_of (node_records (nodes fs) 0 0) 0 mask' → ∀ rs index,
  (∀ r, r ∈ rs → r ∈ (node_records (nodes fs) 0 0)) → validate_parents (node_records (nodes fs) 0 0) mask' index rs = Some None.
Proof.
  intros Hm. induction rs as [|r rs IH]; intros index Hrs; [done|]. cbn [validate_parents].
  destruct (elem_node_records _ _ _ _ (Hrs r ltac:(by left))) as (i & n & c & Hi & Hu & ->).
  rewrite N.add_0_l, parent_accepted; [|done|by rewrite aget_lookup, Nat2N.id|done]. cbind.
  apply IH. intros r Hr. apply Hrs. by right.
Qed.

End Links.

Definition names_differ (n m : runtime_fs_node) : Prop :=
  n_used m ≠ 0 → n_parent_index n = n_parent_index m → n_name n ≠ n_name m.

Lemma no_duplicate_record j c n l : ∀ i cursor other,
  node_fits n → used_fit l → (∀ m, m ∈ l → names_differ n m) →
  duplicate_record (node_record j c n) other (node_records l i cursor) = Some None.
Proof.
  induction l as [|m l IH]; intros i cursor other Hn Hf Hd; [done|]. cbn [node_records].
  apply used_fit_cons in Hf as [Hm Hl].
  assert (∀ m, m ∈ l → names_differ n m) as Hd' by (intros; apply Hd; by right).
  destruct (N.eqb_spec (n_used m) 0) as [|Hu]; [by apply IH|].
  cbn [duplicate_record ir_parent_index ir_name node_record unhashed_record].
  destruct (N.eqb_spec (n_parent_index n) (n_parent_index m)) as [E|]; cbind; [|by apply IH].
  specialize (Hm Hu). rewrite padded_names_equal by (apply Hn || apply Hm). cbind.
  rewrite bool_decide_eq_false_2 by (apply Hd; [by left|done|done]). by apply IH.
Qed.

Lemma names_accepted l : ∀ index j cursor,
  used_fit l →
  (∀ a b n m, (a < b)%nat → l !! a = Some n → l !! b = Some m → n_used n ≠ 0 → names_differ n m) →
  validate_names index (node_records l j cursor) = Some None.
Proof.
  induction l as [|n l IH]; intros index j cursor Hf Hd; [done|]. cbn [node_records].
  apply used_fit_cons in Hf as [Hn Hl].
  assert (∀ a b n m, (a < b)%nat → l !! a = Some n → l !! b = Some m → n_used n ≠ 0 → names_differ n m) as Hd'
    by (intros a b x y Hab Ha Hb; apply (Hd (S a) (S b)); [lia|done..]).
  destruct (N.eqb_spec (n_used n) 0) as [|Hu]; [by apply IH|]. cbn [validate_names].
  rewrite no_duplicate_record; [cbind; by apply IH|by apply Hn|done|].
  intros m Hm. apply list_elem_of_lookup in Hm as [i Hi]. apply (Hd 0%nat (S i)); [lia|done..].
Qed.
