(* ===== verification/RuntimeFsImageTheorems.v ===== *)
(** * Images of a file system: export, validation and import

    [exportable] states what a file system must satisfy for an export to
    succeed.  [image_of fs bytes] is the layout of an exported image; an
    export produces it, the validation accepts it, and an import of it gives
    back the nodes of the file system. *)

From S2P Require Import Prelude RuntimeFs RuntimeFsInv RuntimeFsImage RuntimeFsImageBytes RuntimeFsImageProofs RuntimeFsImageValid.

Local Open Scope N_scope.

(** A tree that [runtime_fs_validate] accepts, without open files, in which
    the fields have their C types, names end inside their arrays and no
    name below the root is the name of the root. *)
Record exportable (fs : runtime_fs) : Prop := {
  ex_typed : typed fs;
  ex_wf : wf fs;
  ex_closed : ∀ o, o ∈ open_files fs → of_used o = 0;
  ex_names : ∀ i n, aget (nodes fs) i = Some n → n_used n ≠ 0 →
    (length (n_name n) ≤ 15)%nat ∧ no_nul (n_name n) ∧ (i ≠ 0 → n_name n ≠ ["/"%char]);
  ex_words : ∀ n, n ∈ nodes fs → n_used n ≠ 0 → word (n_owner_pid n) ∧ word (n_mode n);
  ex_root : ∀ n, aget (nodes fs) 0 = Some n → n_size_bytes n ≤ RUNTIME_FS_FILE_CAPACITY
}.

Lemma exportable_fit fs : exportable fs → used_fit (nodes fs).
Proof.
  intros [Ht Hw _ Hn Hb Hr] n Hin Hu. destruct (Hb n Hin Hu) as [Ho Hm].
  apply list_elem_of_lookup in Hin as [i Hi].
  assert (aget (nodes fs) (N.of_nat i) = Some n) as Ha by by rewrite aget_lookup, Nat2N.id.
  destruct (Hn _ n Ha Hu) as (Hlen & Hnul & _).
  destruct (used_parent fs Hw _ n Ha Hu) as [(p & Hp & _) _].
  apply aget_Some_lt in Hp. rewrite (typed_nodes _ Ht) in Hp.
  split; [|by apply (typed_data _ Ht (N.of_nat i))|done|done| |lia|done|done]; destruct (decide (N.of_nat i = 0)) as [E|Hne].
  - rewrite E in Ha. by apply Hr.
  - by apply (node_size _ _ _ (wf_node _ Hw _ n Hne Ha Hu)).
  - rewrite E in Ha. destruct (root_facts fs Hw) as (r & Hr' & _ & Htr & _). left. congruence.
  - by apply (node_type _ _ _ (wf_node _ Hw _ n Hne Ha Hu)).
Qed.

Lemma exportable_split fs :
  exportable fs → ∃ r l, nodes fs = r :: l ∧ n_used r ≠ 0 ∧ place_ok 0 r ∧ length l = 15%nat ∧ nodes_ok l.
Proof.
  intros Hx. pose proof (exportable_fit fs Hx) as Hf. destruct Hx as [Ht Hw _ Hn _ _].
  pose proof (typed_nodes _ Ht) as Hlen. destruct (root_facts fs Hw) as (r & Hr & Hu & Htr & Hpr & Hnr).
  destruct (nodes fs) as [|r' l] eqn:Hl; [done|]. injection Hr as ->. exists r, l.
  split_and!; [done|done|done| |].
  - by injection Hlen.
  - apply used_fit_cons in Hf as [_ Hf]. split; [done|]. intros n Hin Hun.
    apply list_elem_of_lookup in Hin as [i Hi].
    assert (aget (nodes fs) (N.of_nat (S i)) = Some n) as Ha by by rewrite aget_lookup, Nat2N.id, Hl.
    rewrite Hl in Ha. split; [|apply (Hn _ n Ha Hun); lia]. rewrite <-Hl in Ha.
    by apply (node_name _ _ _ (wf_node _ Hw (N.of_nat (S i)) n ltac:(lia) Ha Hun)).
Qed.

(** ** The layout *)

Definition image_records (fs : runtime_fs) : list runtime_fs_image_record := node_records (nodes fs) 0 0.
Definition records_count (fs : runtime_fs) : N := N.of_nat (length (image_records fs)).
Definition contents_size (fs : runtime_fs) : N := N.of_nat (length (all_contents (nodes fs))).
Definition tree_at (fs : runtime_fs) : N := 40 + records_count fs * 56.
Definition contents_at (fs : runtime_fs) (leaves : nat) : N := tree_at fs + N.of_nat (2 * leaves - 1) * 4.

Definition image_header (fs : runtime_fs) (leaves : nat) (root : N) : runtime_fs_image_header :=
  Header RUNTIME_FS_IMAGE_MAGIC RUNTIME_FS_IMAGE_VERSION 40 (records_count fs) 56
    (N.of_nat leaves) (N.of_nat (2 * leaves - 1)) (contents_size fs) root
    (contents_at fs leaves + contents_size fs).

Record image_of (fs : runtime_fs) (leaves : nat) (tree : list N) (root : N) (bytes : list N) : Prop := {
  io_leaves : runtime_fs_image_next_pow2 (records_count fs) = Some (N.of_nat leaves);
  io_tree : tree_ok leaves (ir_object_hash <$> image_records fs) tree;
  io_root : tree !! 0%nat = Some root;
  io_header : holds_at bytes 0 (words_bytes (header_words (image_header fs leaves root)));
  io_records : holds_at bytes 40 (concat (record_bytes <$> image_records fs));
  io_hashes : holds_at bytes (tree_at fs) (words_bytes tree);
  io_contents : holds_at bytes (contents_at fs leaves) (all_contents (nodes fs))
}.

Lemma next_pow2_spec c :
  0 < c → c ≤ 16 → ∃ l, runtime_fs_image_next_pow2 c = Some (N.of_nat l) ∧ c ≤ N.of_nat l ∧ (0 < l ≤ 16)%nat ∧
    runtime_fs_image_next_pow2 (N.of_nat l) = Some (N.of_nat l).
Proof.
  intros H0 H16.
  assert (c ∈ (N.of_nat <$> seq 1 16)) as Hin.
  { apply list_elem_of_fmap. exists (N.to_nat c). split; [lia|]. apply elem_of_seq. lia. }
  cbn in Hin. repeat (apply elem_of_cons in Hin as [->|Hin];
    [first [exists 1%nat; split; [reflexivity|split; [lia|split; [lia|reflexivity]]]
           |exists 2%nat; split; [reflexivity|split; [lia|split; [lia|reflexivity]]]
           |exists 4%nat; split; [reflexivity|split; [lia|split; [lia|reflexivity]]]
           |exists 8%nat; split; [reflexivity|split; [lia|split; [lia|reflexivity]]]
           |exists 16%nat; split; [reflexivity|split; [lia|split; [lia|reflexivity]]]]|]).
  by apply elem_of_nil in Hin.
Qed.

Lemma count_le l j cursor : (length (node_records l j cursor) ≤ length l)%nat.
Proof.
  revert j cursor. induction l as [|n l IH]; intros j cursor; [done|]. cbn [node_records].
  destruct (n_used n =? 0); [pose proof (IH (j + 1) cursor)|pose proof (IH (j + 1) (cursor + data_size n))]; simpl; lia.
Qed.

(** The bounds that keep every sum below 2^32. *)
Lemma sizes fs : exportable fs →
  0 < records_count fs ∧ records_count fs ≤ 16 ∧ contents_size fs ≤ 4096 ∧
  runtime_fs_image_record_count fs = records_count fs ∧ runtime_fs_image_data_bytes fs = contents_size fs.
Proof.
  intros Hx. pose proof (exportable_fit fs Hx) as Hf. destruct (exportable_split fs Hx) as (r & l & Hl & Hu & _ & Hlen & _).
  pose proof (length_all_contents _ Hf) as Hc. pose proof (count_le (nodes fs) 0 0) as Hn.
  rewrite (typed_nodes _ (ex_typed _ Hx)) in Hc, Hn.
  unfold records_count, contents_size, image_records. split_and!; [|lia|lia| |].
  - rewrite Hl. cbn [node_records]. apply N.eqb_neq in Hu. rewrite Hu. simpl. lia.
  - unfold runtime_fs_image_record_count. rewrite used_count. lia.
  - unfold runtime_fs_image_data_bytes. rewrite data_bytes_fold by (done || lia). lia.
Qed.

(** ** The validation accepts the layout *)

Lemma header_words_ok fs leaves root :
  exportable fs → (leaves ≤ 16)%nat → word root → Forall word (header_words (image_header fs leaves root)).
Proof.
  intros Hx Hl Hr. destruct (sizes fs Hx) as (_ & Hc & Hd & _).
  unfold header_words, image_header, contents_at, tree_at. cbn [ih_magic ih_version ih_header_bytes ih_record_count
    ih_record_bytes ih_tree_leaf_count ih_tree_hash_count ih_data_bytes ih_root_hash ih_image_bytes].
  rewrite !Forall_cons. unfold word in *. split_and!; first [done|lia|constructor].
Qed.

Lemma leaves_spec fs leaves :
  exportable fs → runtime_fs_image_next_pow2 (records_count fs) = Some (N.of_nat leaves) →
  records_count fs ≤ N.of_nat leaves ∧ (0 < leaves ≤ 16)%nat ∧
  runtime_fs_image_next_pow2 (N.of_nat leaves) = Some (N.of_nat leaves).
Proof.
  intros Hx E. destruct (sizes fs Hx) as (H0 & H16 & _).
  destruct (next_pow2_spec _ H0 H16) as (l & E' & H). rewrite E in E'. injection E' as E'.
  by replace leaves with l by lia.
Qed.

Lemma parse_image fs leaves tree root bytes :
  exportable fs → image_of fs leaves tree root bytes →
  let h := image_header fs leaves root in
  runtime_fs_image_parse_header (Some bytes) (ih_image_bytes h) = Some (Some h).
Proof.
  intros Hx [Hp Ht Hroot Hh _ _ _] h. destruct (leaves_spec fs leaves Hx Hp) as (Hle & Hl & Hpow).
  destruct (sizes fs Hx) as (H0 & H16 & Hd & _).
  pose proof (header_words_ok fs leaves root Hx ltac:(lia) ltac:(by eapply Forall_lookup_1; [apply Ht|])) as Hw.
  fold h in Hh, Hw. unfold words_bytes in Hh. unfold header_words in Hh, Hw. cbn [fmap list_fmap concat] in Hh.
  rewrite !holds_at_app in Hh. change (length (le32 _)) with 4%nat in Hh. change (N.of_nat 4) with 4 in Hh.
  rewrite <-!N.add_assoc in Hh. destruct Hh as (W0 & W1 & W2 & W3 & W4 & W5 & W6 & W7 & W8 & W9 & _).
  rewrite !Forall_cons in Hw. destruct Hw as (V0 & V1 & V2 & V3 & V4 & V5 & V6 & V7 & V8 & V9 & _).
  unfold runtime_fs_image_parse_header.
  assert ((ih_image_bytes h <? RUNTIME_FS_IMAGE_HEADER_BYTES) = false) as ->.
  { apply N.ltb_ge. unfold h, image_header, contents_at, tree_at. cbn [ih_image_bytes].
    change RUNTIME_FS_IMAGE_HEADER_BYTES with 40. lia. }
  change (0 + (4 + 4)) with 8 in *.
  assert (∀ c w, holds_at bytes c (le32 w) → word w → runtime_fs_image_load_u32 bytes c = Some w) as Hload
    by (intros; by apply load_u32_holds).
  rewrite (Hload 0 _ W0 V0), (Hload 4 _ W1 V1), (Hload 8 _ W2 V2), (Hload 12 _ W3 V3), (Hload 16 _ W4 V4),
    (Hload 20 _ W5 V5), (Hload 24 _ W6 V6), (Hload 28 _ W7 V7), (Hload 32 _ W8 V8), (Hload 36 _ W9 V9). cbind.
  change (Header _ _ _ _ _ _ _ _ _ _) with h.
  assert (header_accepted h (ih_image_bytes h) = Some true) as ->; [|done].
  unfold header_accepted, h, image_header. cbn [ih_magic ih_version ih_header_bytes ih_record_count
    ih_record_bytes ih_tree_leaf_count ih_tree_hash_count ih_data_bytes ih_root_hash ih_image_bytes].
  rewrite Hpow. cbind. rewrite !N.eqb_refl. change RUNTIME_FS_IMAGE_HEADER_BYTES with 40.
  change RUNTIME_FS_IMAGE_RECORD_BYTES with 56. cbn [negb orb N.eqb Pos.eqb].
  assert ((records_count fs =? 0) = false) as -> by (apply N.eqb_neq; lia).
  assert ((RUNTIME_FS_MAX_NODES <? records_count fs) = false) as -> by (apply N.ltb_ge; exact H16).
  assert ((N.of_nat leaves =? 0) = false) as -> by (apply N.eqb_neq; lia).
  assert ((RUNTIME_FS_IMAGE_MAX_TREE_LEAVES <? N.of_nat leaves) = false) as ->
    by (apply N.ltb_ge; unfold RUNTIME_FS_IMAGE_MAX_TREE_LEAVES, RUNTIME_FS_MAX_NODES; lia).
  assert ((N.of_nat (2 * leaves - 1) =? N.of_nat leaves * 2 - 1) = true) as -> by (apply N.eqb_eq; lia).
  assert ((N.of_nat leaves <? records_count fs) = false) as -> by (apply N.ltb_ge; lia).
  cbn [negb orb]. unfold contents_at, tree_at. rewrite u32_small by lia. by rewrite N.eqb_refl.
Qed.

Lemma image_offsets fs leaves root :
  exportable fs → (leaves ≤ 16)%nat →
  let h := image_header fs leaves root in
  image_tree_offset h = tree_at fs ∧ image_data_offset h = contents_at fs leaves.
Proof.
  intros Hx Hl h. destruct (sizes fs Hx) as (H0 & H16 & Hd & _).
  assert (image_tree_offset h = tree_at fs) as Eto.
  { unfold image_tree_offset, h, image_header, tree_at. cbn [ih_header_bytes ih_record_count ih_record_bytes].
    by rewrite u32_small by lia. }
  split; [done|]. unfold image_data_offset. rewrite Eto. unfold h, image_header, contents_at, tree_at.
  cbn [ih_tree_hash_count]. by rewrite u32_small by lia.
Qed.

Lemma records_accepted fs leaves root bytes :
  exportable fs →
  holds_at bytes 40 (concat (record_bytes <$> image_records fs)) →
  holds_at bytes (contents_at fs leaves) (all_contents (nodes fs)) →
  let h := image_header fs leaves root in
  ∃ mask', validate_records (N.to_nat (ih_record_count h)) h bytes (contents_at fs leaves) 0 None 0 0 =
      Some (inr (image_records fs, mask', contents_size fs)) ∧
    mask_of (image_records fs) 0 mask'.
Proof.
  intros Hx Hr Hc h. destruct (sizes fs Hx) as (_ & _ & Hd & _). pose proof (exportable_fit fs Hx) as Hf.
  destruct (exportable_split fs Hx) as (r & l & Hnl & Hu & Hpl & Hlen & Hok).
  assert (node_fits r) as Hfr by (apply Hf; [rewrite Hnl; by left|done]). pose proof (data_size_le r Hfr).
  assert (ih_data_bytes h = contents_size fs ∧ ih_header_bytes h = 40 ∧ ih_record_bytes h = 56)
    as (Hdb & Hhb & Hrb) by done.
  assert (N.to_nat (ih_record_count h) = length (image_records fs)) as -> by apply Nat2N.id.
  assert (image_records fs = node_record 0 0 r :: node_records l 1 (data_size r)) as Er.
  { unfold image_records. rewrite Hnl. cbn [node_records]. apply N.eqb_neq in Hu. by rewrite Hu. }
  assert (all_contents (nodes fs) = payload r ++ all_contents l) as Ec.
  { rewrite Hnl. cbn [all_contents]. apply N.eqb_neq in Hu. by rewrite Hu. }
  assert (contents_size fs = data_size r + N.of_nat (length (all_contents l))) as Es.
  { unfold contents_size. rewrite Ec, length_app, (length_payload r Hfr). lia. }
  rewrite Er in *. rewrite Ec in Hc. clearbody h.
  cbn [fmap list_fmap concat] in Hr. apply holds_at_app in Hr as [Hr0 Hr1], Hc as [Hc0 Hc1].
  rewrite (length_record_bytes _ (node_record_ok 0 0 r Hfr ltac:(lia) ltac:(done))) in Hr1.
  rewrite (length_payload r Hfr), N2Nat.id in Hc1. cbn [length].
  rewrite (record_step h bytes (contents_at fs leaves) 0 None 0 0 r);
    [|done|done|done|done|apply N.bits_0|done|lia|unfold word; lia|done|by rewrite Hhb|by rewrite N.add_0_r].
  rewrite !N.add_0_l.
  destruct (records_loop h bytes (contents_at fs leaves) l 1 1 (data_size r) (Some (node_record 0 0 r))
    (N.lor 0 (N.shiftl 1 0))) as (mask' & -> & Hm);
    [done|done|done|lia| |done|lia|unfold word; lia|done|by rewrite Hhb|done|].
  { intros i Hi. rewrite testbit_mark, N.bits_0. apply N.eqb_neq. lia. }
  cbind. exists mask'. split; [do 3 f_equal; lia|].
  intros i. rewrite Hm, testbit_mark. cbn [existsb ir_node_index node_record unhashed_record].
  by rewrite orb_assoc.
Qed.

Lemma validate_the_image fs leaves tree root bytes :
  exportable fs → image_of fs leaves tree root bytes →
  let h := image_header fs leaves root in validate_image h bytes = Some (inr (layout_of h)).
Proof.
  intros Hx [Hp Ht Hroot _ Hr Hh Hc] h. destruct (leaves_spec fs leaves Hx Hp) as (Hle & Hl & _).
  destruct (image_offsets fs leaves root Hx ltac:(lia)) as [Eto Edo]. fold h in Eto, Edo.
  destruct (records_accepted fs leaves root bytes Hx Hr Hc) as (mask' & Hv & Hm). fold h in Hv.
  unfold validate_image. rewrite Edo, Hv. cbind. cbn [ih_data_bytes h image_header].
  rewrite N.eqb_refl. cbn [negb]. unfold image_records in *.
  rewrite (parents_accepted fs (ex_typed _ Hx) (ex_wf _ Hx) mask' Hm) by done. cbind.
  rewrite names_accepted; [cbind|by apply exportable_fit|].
  2:{ intros a b n m Hab Ha Hb Hun Hum Epar Enm. pose proof (ex_wf _ Hx) as Hw.
      assert (aget (nodes fs) (N.of_nat a) = Some n) as Ha' by by rewrite aget_lookup, Nat2N.id.
      assert (aget (nodes fs) (N.of_nat b) = Some m) as Hb' by by rewrite aget_lookup, Nat2N.id.
      destruct (decide (a = 0%nat)) as [->|Ha0].
      - destruct (root_facts fs Hw) as (r & Hr0 & _ & _ & _ & Hnr).
        change (N.of_nat 0) with 0 in Ha'. rewrite Hr0 in Ha'. injection Ha' as ->.
        apply (ex_names _ Hx _ m Hb' Hum); [lia|congruence].
      - assert (N.of_nat a = N.of_nat b) by (apply (wf_unique _ Hw _ _ n m); done || lia). lia. }
  rewrite Eto. fold h. assert (N.to_nat (ih_tree_hash_count h) = length tree) as ->.
  { cbn [ih_tree_hash_count h image_header]. rewrite Nat2N.id. symmetry. apply Ht. }
  rewrite (load_words_holds bytes tree (tree_at fs) (tree_words _ _ _ Ht) Hh). cbind.
  unfold validate_tree. cbn [ih_tree_hash_count ih_tree_leaf_count ih_root_hash h image_header].
  rewrite Nat2N.id.
  assert (N.to_nat (N.of_nat (2 * leaves - 1) - N.of_nat leaves) = (leaves - 1)%nat) as Ef by lia.
  rewrite validate_leaves_ok.
  2:{ intros i Hi. rewrite Ef, Nat.add_0_r. by apply (tree_leaf _ _ _ Ht). }
  cbind. rewrite Ef, (validate_inner_ok tree (leaves - 1)) by apply Ht. cbind.
  rewrite aget_lookup. change (N.to_nat 0) with 0%nat. rewrite Hroot. cbind. by rewrite N.eqb_refl.
Qed.

(** ** The export produces the layout *)

Lemma no_open_files fs : exportable fs → runtime_fs_image_has_open_files fs = false.
Proof.
  intros Hx. apply exists_idx_false. intros i o Ho. apply nz_false. apply (ex_closed _ Hx).
  rewrite aget_lookup in Ho. by eapply list_elem_of_lookup_2.
Qed.

Lemma records_and_contents fs leaves bytes :
  exportable fs → (0 < leaves ≤ 16)%nat → contents_at fs leaves + contents_size fs ≤ N.of_nat (length bytes) →
  ∃ bytes', export_nodes (nodes fs) 0 (contents_at fs leaves) 40 0 bytes [] =
      Some (bytes', ir_object_hash <$> image_records fs) ∧ length bytes' = length bytes ∧
    holds_at bytes' 40 (concat (record_bytes <$> image_records fs)) ∧
    holds_at bytes' (contents_at fs leaves) (all_contents (nodes fs)).
Proof.
  intros Hx Hl Hlen. destruct (sizes fs Hx) as (_ & Hc & Hd & _).
  destruct (export_nodes_spec (nodes fs) 0 (contents_at fs leaves) 40 0 bytes []) as (bytes' & E & Hl' & Hr & Hh & _).
  - by apply exportable_fit.
  - rewrite (typed_nodes _ (ex_typed _ Hx)). lia.
  - unfold contents_at, tree_at, records_count, image_records. lia.
  - unfold contents_size in *. lia.
  - unfold contents_size in *. lia.
  - rewrite N.add_0_r in Hh. by exists bytes'.
Qed.

Lemma object_hashes_words fs : exportable fs → Forall word (ir_object_hash <$> image_records fs).
Proof.
  intros Hx. destruct (sizes fs Hx) as (_ & _ & Hd & _).
  apply Forall_fmap. eapply Forall_impl; [apply (node_records_fit (nodes fs) 0 0)|].
  - by apply exportable_fit.
  - rewrite (typed_nodes _ (ex_typed _ Hx)). lia.
  - unfold contents_size in Hd. lia.
  - intros r [Hw _]. unfold record_words in Hw. rewrite !Forall_cons in Hw. apply Hw.
Qed.

Lemma length_image_records fs :
  exportable fs → N.of_nat (length (concat (record_bytes <$> image_records fs))) = records_count fs * 56.
Proof.
  intros Hx. destruct (sizes fs Hx) as (_ & _ & Hd & _). rewrite length_records_bytes.
  - unfold records_count. lia.
  - apply node_records_fit; [by apply exportable_fit| |unfold contents_size in Hd; lia].
    rewrite (typed_nodes _ (ex_typed _ Hx)). lia.
Qed.

(** The stores of an export, one after the other. *)
Lemma image_stored fs bytes leaves tree root :
  exportable fs → runtime_fs_image_next_pow2 (records_count fs) = Some (N.of_nat leaves) →
  tree_ok leaves (ir_object_hash <$> image_records fs) tree → tree !! 0%nat = Some root →
  contents_at fs leaves + contents_size fs ≤ N.of_nat (length bytes) →
  ∃ b1 b2 b3,
    export_nodes (nodes fs) 0 (contents_at fs leaves) 40 0 bytes [] =
      Some (b1, ir_object_hash <$> image_records fs) ∧
    store_words b1 (tree_at fs) tree = Some b2 ∧
    store_words b2 0 (header_words (image_header fs leaves root)) = Some b3 ∧
    length b3 = length bytes ∧ image_of fs leaves tree root b3.
Proof.
  intros Hx Hp Htree Hroot Hlen. destruct (leaves_spec fs leaves Hx Hp) as (_ & Hl & _).
  destruct (records_and_contents fs leaves bytes Hx Hl ltac:(lia)) as (b1 & E1 & Hl1 & Hr1 & Hc1).
  pose proof (tree_length _ _ _ Htree) as Htl.
  destruct (store_bytes_written (words_bytes tree) b1 (tree_at fs)) as (b2 & E2 & Hw2).
  { rewrite length_words, Htl. unfold contents_at in *. lia. }
  set (h := image_header fs leaves root).
  assert (length (words_bytes (header_words h)) = 40%nat) as Hhl by by rewrite length_words.
  destruct (store_bytes_written (words_bytes (header_words h)) b2 0) as (b3 & E3 & Hw3).
  { rewrite Hhl. destruct Hw2 as [Hl2 _]. unfold contents_at, tree_at in *. lia. }
  exists b1, b2, b3. rewrite !store_words_bytes.
  assert (∀ o bs, 40 ≤ o → holds_at b2 o bs → holds_at b3 o bs) as Hk3.
  { intros o bs Ho H. eapply written_keeps; [exact Hw3|exact H|rewrite Hhl; lia]. }
  split; [done|]. split; [done|]. split; [done|]. split; [destruct Hw2 as [? _], Hw3 as [? _]; lia|].
  split; [done|done|done|apply Hw3| | |].
  - apply Hk3; [lia|]. eapply written_keeps; [exact Hw2|exact Hr1|]. left.
    rewrite (length_image_records fs Hx). unfold tree_at. lia.
  - apply Hk3; [unfold tree_at; lia|apply Hw2].
  - apply Hk3; [unfold contents_at, tree_at; lia|]. eapply written_keeps; [exact Hw2|exact Hc1|]. right.
    rewrite length_words, Htl. unfold contents_at. lia.
Qed.

Lemma required_bytes fs leaves :
  exportable fs → runtime_fs_image_next_pow2 (records_count fs) = Some (N.of_nat leaves) →
  runtime_fs_image_required_bytes fs = Some (contents_at fs leaves + contents_size fs).
Proof.
  intros Hx Hp. destruct (leaves_spec fs leaves Hx Hp) as (_ & Hl & _).
  destruct (sizes fs Hx) as (H0 & H16 & Hd & Erc & Edb). unfold runtime_fs_image_required_bytes.
  rewrite (proj2 (validate_ok_wf fs (ex_typed _ Hx)) (ex_wf _ Hx)). cbind. rewrite Z.eqb_refl, Erc. cbn [negb].
  assert ((records_count fs =? 0) = false) as -> by (apply N.eqb_neq; lia). rewrite Hp. cbind. f_equal.
  rewrite Edb. change RUNTIME_FS_IMAGE_HEADER_BYTES with 40. change RUNTIME_FS_IMAGE_RECORD_BYTES with 56.
  unfold contents_at, tree_at. rewrite u32_small by lia. lia.
Qed.

Lemma export_too_small fs bytes capacity size :
  exportable fs → runtime_fs_image_required_bytes fs = Some size → capacity < size →
  runtime_fs_image_export fs (Some bytes) capacity true = Some (ExportFails RUNTIME_SYSCALL_STATUS_ENOSPC).
Proof.
  intros Hx Hr Hlt. unfold runtime_fs_image_required_bytes in Hr. unfold runtime_fs_image_export.
  rewrite (proj2 (validate_ok_wf fs (ex_typed _ Hx)) (ex_wf _ Hx)) in *. cbind. cbind_in Hr.
  rewrite Z.eqb_refl, (no_open_files fs Hx) in *. cbn [negb] in *.
  destruct (runtime_fs_image_record_count fs =? 0); [by injection Hr as <-; lia|].
  destruct (runtime_fs_image_next_pow2 _) as [l|]; [|done]. cbind. cbind_in Hr. injection Hr as <-.
  by apply N.ltb_lt in Hlt as ->.
Qed.

Lemma export_image fs bytes capacity leaves :
  exportable fs → runtime_fs_image_next_pow2 (records_count fs) = Some (N.of_nat leaves) →
  contents_at fs leaves + contents_size fs ≤ capacity → capacity ≤ N.of_nat (length bytes) →
  ∃ bytes' tree root, image_of fs leaves tree root bytes' ∧ length bytes' = length bytes ∧
    runtime_fs_image_export fs (Some bytes) capacity true =
      Some (Exports bytes' (contents_at fs leaves + contents_size fs) (layout_of (image_header fs leaves root))).
Proof.
  intros Hx Hp Hcap Hlen. destruct (leaves_spec fs leaves Hx Hp) as (Hle & Hl & _).
  destruct (sizes fs Hx) as (H0 & H16 & Hd & Erc & Edb).
  destruct (build_tree leaves _ ltac:(lia) (object_hashes_words fs Hx)) as (tree & Etree & Htree).
  destruct (lookup_lt_is_Some_2 tree 0) as [root Hroot]; [rewrite (tree_length _ _ _ Htree); lia|].
  destruct (image_stored fs bytes leaves tree root Hx Hp Htree Hroot) as (b1 & b2 & b3 & E1 & E2 & E3 & Hl3 & Him);
    [lia|]. exists b3, tree, root. split; [done|]. split; [done|].
  unfold runtime_fs_image_export. rewrite (proj2 (validate_ok_wf fs (ex_typed _ Hx)) (ex_wf _ Hx)). cbind.
  rewrite Z.eqb_refl, (no_open_files fs Hx), Erc. cbn [negb].
  assert ((records_count fs =? 0) = false) as -> by (apply N.eqb_neq; lia).
  rewrite Hp. cbind. rewrite Edb. change RUNTIME_FS_IMAGE_HEADER_BYTES with 40.
  change RUNTIME_FS_IMAGE_RECORD_BYTES with 56. fold (tree_at fs).
  replace (N.of_nat leaves * 2 - 1) with (N.of_nat (2 * leaves - 1)) by lia. fold (contents_at fs leaves).
  rewrite u32_small by (unfold contents_at, tree_at; lia).
  assert ((capacity <? contents_at fs leaves + contents_size fs) = false) as -> by (by apply N.ltb_ge).
  rewrite E1. cbind. rewrite !Nat2N.id.
  destruct (tree_leaves leaves _ 0 _ _) as [t1|] eqn:Et1; [|done]. cbind. cbind_in Etree. rewrite Etree. cbind.
  rewrite E2. cbind. rewrite aget_lookup. change (N.to_nat 0) with 0%nat. rewrite Hroot. cbind.
  unfold image_header in E3. rewrite E3. cbind. done.
Qed.
