(* ===== verification/RuntimeFsImageImport.v ===== *)
(** * Import of an image

    An import of the image of a file system gives back its nodes, with the
    contents of the files, and no open file. *)

From S2P Require Import Prelude RuntimeFs RuntimeFsInv RuntimeFsPath RuntimeFsSafety RuntimeFsImage RuntimeFsImageBytes RuntimeFsImageProofs RuntimeFsImageValid RuntimeFsImageTheorems.

Local Open Scope N_scope.

(** ** The nodes after the import *)

Definition restored_node (n : runtime_fs_node) : runtime_fs_node :=
  if n_used n =? 0 then cleared_node
  else Node 1 (n_type n) (n_parent_index n) (n_owner_pid n) (n_mode n) (n_size_bytes n) (n_name n)
         (payload n ++ replicate (256 - N.to_nat (data_size n)) 0).

(** The file system with the same tree, and nothing open. *)
Definition restored_fs (fs : runtime_fs) : runtime_fs :=
  Fs (restored_node <$> nodes fs) (replicate 8 cleared_file).

Lemma cleared_fs_eq : cleared_fs = Fs (replicate 16 cleared_node) (replicate 8 cleared_file).
Proof. reflexivity. Qed.

Lemma store_bytes_zeros bytes k :
  (length bytes ≤ k)%nat →
  store_bytes (replicate k 0) 0 bytes = Some (bytes ++ replicate (k - length bytes) 0).
Proof.
  intros Hlen. destruct (store_bytes_written bytes (replicate k 0) 0) as (b & -> & Hl & Hh & Ho);
    [rewrite length_replicate; lia|]. f_equal. rewrite length_replicate in Hl.
  apply list_eq. intros i. destruct (decide (i < length bytes)%nat) as [Hi|Hi].
  - rewrite lookup_app_l by done. destruct (lookup_lt_is_Some_2 bytes i Hi) as [x Hx]. rewrite Hx. by apply Hh.
  - rewrite Ho, lookup_app_r by (simpl; lia). destruct (decide (i < k)%nat).
    + by rewrite !lookup_replicate_2 by lia.
    + transitivity (@None N); [|symmetry]; apply lookup_ge_None; rewrite length_replicate; lia.
Qed.

Lemma upd_next pre m rest files f :
  upd_node (N.of_nat (length pre)) f (Fs (pre ++ m :: rest) files) = Fs (pre ++ f m :: rest) files.
Proof.
  unfold upd_node, aupd. cbn [nodes set_nodes open_files]. f_equal. rewrite Nat2N.id.
  replace (length pre) with (length pre + 0)%nat by lia. by rewrite alter_app_r.
Qed.

Lemma import_one n bytes doff cursor pre rest files :
  node_fits n → n_used n ≠ 0 → holds_at bytes (doff + cursor) (payload n) →
  import_record (node_record (N.of_nat (length pre)) cursor n) bytes doff
    (Fs (pre ++ cleared_node :: rest) files) = Some (Fs (pre ++ restored_node n :: rest) files).
Proof.
  intros Hn Hu Hc. unfold import_record. cbn [nodes ir_node_index ir_name ir_data_size ir_data_offset ir_type
    ir_parent_index ir_owner_pid ir_mode ir_size_bytes node_record unhashed_record].
  assert (aget (pre ++ cleared_node :: rest) (N.of_nat (length pre)) = Some cleared_node) as ->
    by by rewrite aget_lookup, Nat2N.id, list_lookup_middle.
  cbind. destruct (padded_split (n_name n) (fits_name _ Hn)) as [tail Hsplit].
  assert (runtime_fs_image_copy_name (padded_name (n_name n)) = Some (padded_name (n_name n))) as ->.
  { rewrite Hsplit at 1. apply copy_name_padded; apply Hn. }
  cbind. rewrite <-(length_payload n Hn), (load_bytes_holds bytes (payload n)) by done. cbind.
  change (n_data cleared_node) with (replicate 256 0). pose proof (data_size_le n Hn).
  rewrite store_bytes_zeros by (rewrite (length_payload n Hn); lia). cbind. rewrite upd_next.
  unfold restored_node. apply N.eqb_neq in Hu. rewrite Hu. rewrite Hsplit, bytes_string_codes by apply Hn.
  by rewrite (length_payload n Hn).
Qed.

Lemma import_loop h bytes l : ∀ index cursor pre files,
  used_fit l → N.of_nat (length pre) + N.of_nat (length l) ≤ 16 →
  cursor + N.of_nat (length (all_contents l)) < 4294967296 →
  ih_record_bytes h = 56 →
  holds_at bytes (ih_header_bytes h + index * 56)
    (concat (record_bytes <$> node_records l (N.of_nat (length pre)) cursor)) →
  holds_at bytes (image_data_offset h + cursor) (all_contents l) →
  import_records (length (node_records l (N.of_nat (length pre)) cursor)) h bytes index
    (Fs (pre ++ replicate (length l) cleared_node) files) = Some (Fs (pre ++ (restored_node <$> l)) files).
Proof.
  induction l as [|n l IH]; intros index cursor pre files Hf Hj Hc Hrb Hr Hd; [done|].
  apply used_fit_cons in Hf as [Hn Hl]. cbn [node_records all_contents length replicate fmap list_fmap] in *.
  assert (∀ m, N.of_nat (length pre) + 1 = N.of_nat (length (pre ++ [m : runtime_fs_node]))) as Hlen
    by (intros; rewrite length_app; simpl; lia).
  destruct (N.eqb_spec (n_used n) 0) as [E|Hu].
  { specialize (IH index cursor (pre ++ [cleared_node]) files). rewrite <-Hlen, <-!app_assoc in IH.
    unfold restored_node at 1. rewrite E. cbn [N.eqb]. apply IH; done || lia. }
  specialize (Hn Hu). cbn [fmap list_fmap concat] in Hr. apply holds_at_app in Hr as [Hr0 Hr1], Hd as [Hd0 Hd1].
  rewrite length_app, (length_payload n Hn) in *. rewrite N2Nat.id in Hd1.
  pose proof (node_record_ok (N.of_nat (length pre)) cursor n Hn ltac:(lia) ltac:(unfold word; lia)) as Hok.
  rewrite (length_record_bytes _ Hok) in Hr1. cbn [length import_records].
  rewrite Hrb, (read_record_holds _ _ _ Hok Hr0). cbind. rewrite import_one by done. cbind.
  specialize (IH (index + 1) (cursor + data_size n) (pre ++ [restored_node n]) files).
  rewrite <-Hlen, <-!app_assoc in IH. apply IH; [done|lia|lia|done| |by rewrite N.add_assoc].
  by replace (ih_header_bytes h + (index + 1) * 56) with (ih_header_bytes h + index * 56 + N.of_nat 56) by lia.
Qed.

(** ** The restored tree is valid *)

Lemma restored_lookup fs i n :
  aget (nodes (restored_fs fs)) i = Some n ↔ ∃ m, aget (nodes fs) i = Some m ∧ n = restored_node m.
Proof.
  rewrite !aget_lookup. unfold restored_fs. cbn [nodes]. rewrite list_lookup_fmap.
  destruct (nodes fs !! N.to_nat i); simpl; naive_solver.
Qed.

Lemma restored_used m : n_used (restored_node m) ≠ 0 ↔ n_used m ≠ 0.
Proof. unfold restored_node. destruct (N.eqb_spec (n_used m) 0); simpl; naive_solver. Qed.

Lemma restored_fields m : n_used m ≠ 0 →
  n_type (restored_node m) = n_type m ∧ n_parent_index (restored_node m) = n_parent_index m ∧
  n_name (restored_node m) = n_name m ∧ n_size_bytes (restored_node m) = n_size_bytes m.
Proof. intros Hu. unfold restored_node. apply N.eqb_neq in Hu. by rewrite Hu. Qed.

Lemma restored_reach fs k i : reach fs k i → reach (restored_fs fs) k i.
Proof.
  induction 1 as [|k i n Hi Hn Hu Hr IH]; [constructor|].
  apply (reach_step _ k i (restored_node n)); [done| |by apply restored_used|].
  - apply restored_lookup. by exists n.
  - destruct (restored_fields n Hu) as (_ & -> & _). done.
Qed.

Lemma restored_dir fs i : is_dir fs i → is_dir (restored_fs fs) i.
Proof.
  intros (n & Hn & Hu & Ht). exists (restored_node n). split; [apply restored_lookup; by exists n|].
  split; [by apply restored_used|]. by destruct (restored_fields n Hu) as (-> & _).
Qed.

Lemma restored_valid fs :
  exportable fs → runtime_fs_validate (restored_fs fs) = Some (0xDFFF, RUNTIME_SYSCALL_STATUS_OK).
Proof.
  intros Hx. pose proof (exportable_fit fs Hx) as Hf. destruct Hx as [Ht Hw _ _ _ _]. apply validate_ok_wf.
  - split; [cbn [nodes restored_fs]; by rewrite length_fmap, (typed_nodes _ Ht)|done|].
    intros i n Hn. apply restored_lookup in Hn as (m & Hm & ->). unfold restored_node.
    destruct (N.eqb_spec (n_used m) 0) as [|Hu]; [done|]. cbn [n_data].
    assert (node_fits m) as Hm' by (rewrite aget_lookup in Hm; apply Hf; [by eapply list_elem_of_lookup_2|done]).
    pose proof (data_size_le m Hm'). rewrite length_app, (length_payload m Hm'), length_replicate. lia.
  - split.
    + destruct (root_facts fs Hw) as (r & Hr & Hu & H1 & H2 & H3). exists (restored_node r).
      split; [apply restored_lookup; by exists r|]. apply root_is_valid_iff.
      destruct (restored_fields r Hu) as (-> & -> & -> & _). split; [by apply restored_used|done].
    + intros i n Hi Hn Hu. apply restored_lookup in Hn as (m & Hm & ->). apply (proj1 (restored_used m)) in Hu.
      destruct (wf_node _ Hw i m Hi Hm Hu) as [H1 H2 H3 H4 (k & H5)].
      destruct (restored_fields m Hu) as (E1 & E2 & E3 & E4). split; rewrite ?E1, ?E2, ?E3, ?E4; try done.
      * by apply restored_dir.
      * exists k. by apply restored_reach.
    + intros i j n m Hi Hj Hn Hm Hun Hum.
      apply restored_lookup in Hn as (n' & Hn & ->), Hm as (m' & Hm & ->). apply (proj1 (restored_used _)) in Hun, Hum.
      destruct (restored_fields n' Hun) as (_ & -> & -> & _), (restored_fields m' Hum) as (_ & -> & -> & _).
      by apply (wf_unique _ Hw).
    + intros i o Ho Hu. rewrite aget_lookup in Ho. cbn [open_files restored_fs] in Ho.
      apply lookup_replicate in Ho as [-> _]. done.
Qed.

Lemma import_image fs leaves tree root bytes :
  exportable fs → image_of fs leaves tree root bytes →
  import_records (N.to_nat (records_count fs)) (image_header fs leaves root) bytes 0 cleared_fs =
    Some (restored_fs fs).
Proof.
  intros Hx [Hp _ _ _ Hr _ Hc]. destruct (leaves_spec fs leaves Hx Hp) as (_ & Hl & _).
  destruct (image_offsets fs leaves root Hx ltac:(lia)) as [_ Edo].
  destruct (sizes fs Hx) as (_ & _ & Hd & _). pose proof (typed_nodes _ (ex_typed _ Hx)) as H16.
  rewrite cleared_fs_eq. change (replicate 16 cleared_node) with ([] ++ replicate 16 cleared_node).
  rewrite <-H16 at 1. unfold records_count. rewrite Nat2N.id. unfold image_records in *.
  unfold contents_size in Hd. unfold restored_fs.
  apply (import_loop (image_header fs leaves root) bytes (nodes fs) 0 0 []).
  - by apply exportable_fit.
  - rewrite H16. simpl. lia.
  - lia.
  - done.
  - exact Hr.
  - by rewrite Edo, N.add_0_r.
Qed.

Lemma validate_of_image fs leaves tree root image :
  exportable fs → image_of fs leaves tree root image →
  runtime_fs_image_validate (Some image) (contents_at fs leaves + contents_size fs) =
    Some (ImageDiag 0xC1FF 0 0, RUNTIME_SYSCALL_STATUS_OK, Some (layout_of (image_header fs leaves root))).
Proof.
  intros Hx Him. pose proof (parse_image fs leaves tree root image Hx Him) as Hparse.
  cbn [ih_image_bytes image_header] in Hparse. unfold runtime_fs_image_validate. rewrite Hparse. cbind.
  by rewrite (validate_the_image fs leaves tree root image Hx Him).
Qed.

Lemma import_of_image fs leaves tree root image before :
  exportable fs → image_of fs leaves tree root image →
  runtime_fs_image_import before (Some image) (contents_at fs leaves + contents_size fs) =
    Some (restored_fs fs, RUNTIME_SYSCALL_STATUS_OK, Some (layout_of (image_header fs leaves root))).
Proof.
  intros Hx Him. pose proof (parse_image fs leaves tree root image Hx Him) as Hparse.
  cbn [ih_image_bytes image_header] in Hparse. unfold runtime_fs_image_import.
  rewrite (validate_of_image fs leaves tree root image Hx Him). cbind. rewrite Z.eqb_refl. cbn [negb].
  rewrite Hparse. cbind. cbn [ih_record_count image_header].
  rewrite (import_image fs leaves tree root image Hx Him). cbind. by rewrite restored_valid.
Qed.

(** ** The round trip *)

(** C23: export, validation and import fit together.  Let a file system be
    [exportable]: [runtime_fs_validate] accepts it, it has no open file, its
    fields have their C types, its names are C strings of at most 15
    characters, no node below the root is named "/", and the size of the root
    is at most 256.  (By [reached_exportable], every state without open files
    that operations within the bounds of [op_safe] lead to is one, when ids
    and modes are 32-bit words and paths are C strings.)  It needs
    [runtime_fs_image_required_bytes] bytes, at most
    [RUNTIME_FS_IMAGE_MAX_BYTES].  A smaller buffer is refused; into any other
    the export succeeds, the validation accepts what it wrote, with the layout
    it reported, and an import of it, whatever the file system was before,
    gives back every node with its name, its place in the tree, its
    attributes and its contents. *)
Theorem image_roundtrip fs :
  exportable fs →
  ∃ size, runtime_fs_image_required_bytes fs = Some size ∧ size ≤ RUNTIME_FS_IMAGE_MAX_BYTES ∧
    ∀ bytes capacity, capacity ≤ N.of_nat (length bytes) →
      (capacity < size →
         runtime_fs_image_export fs (Some bytes) capacity true =
           Some (ExportFails RUNTIME_SYSCALL_STATUS_ENOSPC)) ∧
      (size ≤ capacity → ∃ image layout,
         runtime_fs_image_export fs (Some bytes) capacity true = Some (Exports image size layout) ∧
         runtime_fs_image_validate (Some image) size =
           Some (ImageDiag 0xC1FF 0 0, RUNTIME_SYSCALL_STATUS_OK, Some layout) ∧
         ∀ before, runtime_fs_image_import before (Some image) size =
           Some (restored_fs fs, RUNTIME_SYSCALL_STATUS_OK, Some layout)).
Proof.
  intros Hx. destruct (sizes fs Hx) as (H0 & H16 & Hd & _).
  destruct (next_pow2_spec _ H0 H16) as (leaves & Hp & _ & Hl & _).
  pose proof (required_bytes fs leaves Hx Hp) as Hreq. eexists. split; [exact Hreq|]. split.
  { change RUNTIME_FS_IMAGE_MAX_BYTES with 5156. unfold contents_at, tree_at. lia. }
  intros bytes capacity Hlen. split; [by apply export_too_small|]. intros Hcap.
  destruct (export_image fs bytes capacity leaves Hx Hp Hcap Hlen) as (image & tree & root & Him & _ & Ex).
  exists image, (layout_of (image_header fs leaves root)). split; [exact Ex|].
  split; [by apply (validate_of_image fs leaves tree root)|].
  intros before. by apply (import_of_image fs leaves tree root image).
Qed.

(** ** The states that operations lead to

    The names, owners, modes and sizes of the nodes: with these the invariant
    of the operations makes a file system without open files [exportable]. *)

Definition sound_node (n : runtime_fs_node) : Prop :=
  no_nul (n_name n) ∧ word (n_owner_pid n) ∧ word (n_mode n) ∧ n_size_bytes n ≤ RUNTIME_FS_FILE_CAPACITY.

Definition sound (fs : runtime_fs) : Prop := Forall sound_node (nodes fs).

(** Ids and modes that fit their type, paths that are C strings. *)
Definition op_words (op : fs_op) : Prop :=
  match op with
  | OpMkdir pid path mode => word pid ∧ word mode ∧ ∀ p, path = Some p → no_nul p
  | OpOpen pid path _ _ => word pid ∧ ∀ p, path = Some p → no_nul p
  | OpRename _ _ new => ∀ p, new = Some p → no_nul p
  | _ => True
  end.

Lemma sound_upd_node i f fs : sound fs → (∀ n, sound_node n → sound_node (f n)) → sound (upd_node i f fs).
Proof. intros Hs Hf. apply Forall_alter; [done|]. intros n _. apply Hf. Qed.

Lemma copy_name_no_nul name : no_nul name → no_nul (copy_name name).
Proof.
  unfold copy_name. generalize 0. induction name as [|c name IH]; intros i Hn; [done|]. cbn [copy_name_from].
  case_if; [|by intros ? ?%not_elem_of_nil]. intros d [->|Hd]%elem_of_cons; [apply Hn; by left|].
  eapply IH; [|done]. intros e He. apply Hn. by right.
Qed.

Lemma components_elem path w c : w ∈ components path → c ∈ w → c ∈ path.
Proof.
  revert w. induction path as [|d path IH]; intros w; cbn [components]; [by intros ?%not_elem_of_nil|].
  assert (∀ w, w ∈ components path → c ∈ w → c ∈ d :: path) as Htail.
  { intros v Hv Hc. apply elem_of_cons. right. by eapply IH. }
  destruct (chr_eqb d slash); [by apply Htail|]. destruct path as [|e path].
  { intros ->%list_elem_of_singleton. done. }
  destruct (chr_eqb e slash).
  - intros [->|Hw]%elem_of_cons; [|by apply Htail]. intros ->%list_elem_of_singleton. by left.
  - destruct (components (e :: path)) as [|v vs] eqn:E.
    + intros ->%list_elem_of_singleton ->%list_elem_of_singleton. by left.
    + intros [->|Hw]%elem_of_cons; [|apply Htail; by right].
      intros [->|Hc]%elem_of_cons; [by left|]. apply (Htail v); [by left|done].
Qed.

Lemma components_no_nul path w : no_nul path → w ∈ components path → no_nul w.
Proof. intros Hn Hw c Hc. apply Hn. by eapply components_elem. Qed.

Lemma leaf_no_nul fs path p leaf :
  no_nul path → fs_resolve_parent_path fs path = Some (inr (p, leaf)) → no_nul (copy_name leaf).
Proof.
  intros Hn (init & _ & Hc & _)%parent_path_inr. apply copy_name_no_nul, (components_no_nul path); [done|].
  rewrite Hc. apply elem_of_app. right. by left.
Qed.

Lemma cleared_sound : sound_node cleared_node.
Proof. split_and!; [by intros ? ?%not_elem_of_nil|by vm_compute..]. Qed.

Lemma alloc_sound fs i fs' : sound fs → fs_alloc_node fs = Some (i, fs') → sound fs'.
Proof.
  unfold fs_alloc_node. intros Hs H. fs_cases H. simplify_eq. apply sound_upd_node; [done|].
  intros n _. split_and!; [by intros ? ?%not_elem_of_nil|by vm_compute..].
Qed.

Lemma created_sound type p pid mode leaf i fs :
  sound fs → word pid → word mode → no_nul (copy_name leaf) →
  sound (upd_node i (created_node type p pid mode leaf) fs).
Proof. intros Hs Hp Hm Hl. apply sound_upd_node; [done|]. intros n (_ & _ & _ & H). by split_and!. Qed.

Lemma open_node_sound fs pid i flags fs' r z :
  sound fs → open_node fs pid i flags = Some (fs', r, z) → sound fs'.
Proof.
  intros Hs. unfold open_node. destruct (aget (nodes fs) i) as [node|]; [|done]. cbind. cbv zeta.
  case_if; [by intros [= <- _ _]|]. set (fs1 := if (_ && _)%bool then upd_node i truncate_node fs else fs).
  assert (sound fs1) as Hs1.
  { unfold fs1. case_if; [|done]. apply sound_upd_node; [done|]. intros [] (? & ? & ? & _). by split_and!. }
  clearbody fs1. case_if; [by intros [= <- _ _]|]. case_if; [by intros [= <- _ _]|].
  destruct (fs_open_slot_alloc fs1 i flags) as [slot fs2] eqn:Ea.
  assert (sound fs2) as Hs2 by (unfold fs_open_slot_alloc in Ea; case_match; by simplify_eq).
  case_if; by intros [= <- _ _].
Qed.

Lemma open_sound fs pid path flags out fs' r z :
  sound fs → word pid → (∀ p, path = Some p → no_nul p) →
  runtime_fs_open fs pid path flags out = Some (fs', r, z) → sound fs'.
Proof.
  intros Hs Hp Hn H. unfold runtime_fs_open in H. destruct path as [path|]; [|by simplify_eq].
  destruct (_ || _); [by simplify_eq|]. destruct (open_target fs pid path flags) as [[fs1 t]|] eqn:Et; [|done].
  cbn [mbind option_bind] in H. assert (sound fs1) as Hs1.
  { unfold open_target in Et. fs_cases Et; simplify_eq; try done.
    apply created_sound; [by eapply alloc_sound|done|done|by eapply leaf_no_nul; [apply Hn|]]. }
  destruct t as [z'|i]; [by simplify_eq|]. by eapply open_node_sound.
Qed.

Lemma mkdir_sound fs pid path mode fs' code z :
  sound fs → word pid → word mode → (∀ p, path = Some p → no_nul p) →
  runtime_fs_mkdir fs pid path mode = Some (fs', code, z) → sound fs'.
Proof.
  intros Hs Hp Hm Hn H. unfold runtime_fs_mkdir in H. fs_cases H; simplify_eq; try done.
  apply created_sound; [by eapply alloc_sound|done|done|by eapply leaf_no_nul; [apply Hn|]].
Qed.

Lemma write_sound fs object buffer size fs' z :
  sound fs → runtime_fs_write fs object buffer size = Some (fs', z) → sound fs'.
Proof.
  intros Hs H. unfold runtime_fs_write in H. fs_cases H; simplify_eq; try done; bools;
    (apply sound_upd_node; [done|]; intros [] (? & ? & ? & ?); split_and!; [done..|]; cbn; case_N; try lia).
  all: match goal with Hn : aget (nodes _) _ = Some ?n |- _ =>
    rewrite aget_lookup in Hn; by destruct (Forall_lookup_1 _ _ _ _ Hs Hn) as (_ & _ & _ & ?) end.
Qed.

Lemma rename_sound fs pid old new fs' z :
  sound fs → (∀ p, new = Some p → no_nul p) → runtime_fs_rename fs pid old new = Some (fs', z) → sound fs'.
Proof.
  intros Hs Hn H. unfold runtime_fs_rename, rename_node in H. fs_cases H; simplify_eq; try done.
  all: apply sound_upd_node; [done|]; intros [] (_ & ? & ? & ?); split_and!; [|done..].
  all: by eapply leaf_no_nul; [apply Hn|].
Qed.

(** Walks through an operation that changes no node. *)
Ltac same_nodes H := fs_cases H; simplify_eq; assumption.

Lemma run_op_sound fs op fs' z :
  sound fs → op_words op → run_op fs op = Some (fs', z) → sound fs'.
Proof.
  intros Hs Hw H. destruct op; cbn [run_op op_words] in *.
  - fs_cases H. simplify_eq. destruct Hw as (? & ? & ?). eapply (mkdir_sound fs current_pid path mode); eassumption.
  - fs_cases H. simplify_eq. destruct Hw. eapply (open_sound fs current_pid path); eassumption.
  - destruct (runtime_fs_read fs file_object buffer size) as [[[fs1 bs] z1]|] eqn:E; [|done].
    cbind_in H. simplify_eq. unfold runtime_fs_read in E. same_nodes E.
  - by eapply write_sound.
  - injection H as H. unfold runtime_fs_close in H. case_match; by simplify_eq.
  - same_nodes H.
  - destruct (runtime_fs_readdir fs file_object out) as [[[fs1 e] z1]|] eqn:E; [|done].
    cbind_in H. simplify_eq. unfold runtime_fs_readdir in E. same_nodes E.
  - unfold runtime_fs_seek in H. same_nodes H.
  - unfold runtime_fs_remove in H. fs_cases H; simplify_eq; try done.
    apply sound_upd_node; [done|]. intros m _. split_and!; [by intros ? ?%not_elem_of_nil|by vm_compute..].
  - by eapply rename_sound.
Qed.

Lemma init_sound : sound runtime_fs_init.
Proof.
  apply Forall_cons. split.
  - split_and!; [|by vm_compute..]. intros c ->%list_elem_of_singleton. done.
  - apply Forall_replicate, cleared_sound.
Qed.

Lemma run_ops_sound fs ops fs' zs :
  sound fs → Forall op_words ops → run_ops fs ops = Some (fs', zs) → sound fs'.
Proof.
  intros Hs Hw. revert fs zs Hs. induction Hw as [|op ops Hop Hw IH]; intros fs zs Hs H; cbn [run_ops] in H.
  { by simplify_eq. }
  destruct (run_op fs op) as [[fs1 z]|] eqn:E1; [|done]. cbind_in H.
  destruct (run_ops fs1 ops) as [[fs2 zs2]|] eqn:E2; [|done]. cbind_in H. simplify_eq.
  eapply IH; [|exact E2]. by eapply run_op_sound.
Qed.

(** Every state without open files that safe operations lead to. *)
Lemma reached_exportable ops fs zs :
  Forall op_safe ops → Forall op_words ops → run_ops runtime_fs_init ops = Some (fs, zs) →
  (∀ o, o ∈ open_files fs → of_used o = 0) → exportable fs.
Proof.
  intros Hsafe Hw Hrun Hclosed.
  destruct (run_ops_inv _ ops init_inv Hsafe) as (fs1 & zs1 & Hrun1 & [Ht Hwf Hnames _]).
  rewrite Hrun in Hrun1. injection Hrun1 as <- <-.
  pose proof (run_ops_sound _ _ _ _ init_sound Hw Hrun) as Hs.
  assert (∀ i n, aget (nodes fs) i = Some n → sound_node n) as Hsn.
  { intros i n Hi. rewrite aget_lookup in Hi. by apply (Forall_lookup_1 _ _ _ _ Hs Hi). }
  split; [done|done|done| | |].
  - intros i n Hi Hu. destruct (Hsn i n Hi) as (Hnul & _). destruct (decide (i = 0)) as [->|Hi0].
    + destruct (root_facts fs Hwf) as (r & Hr & _ & _ & _ & Hn). rewrite Hi in Hr. injection Hr as <-.
      rewrite Hn. split_and!; [cbn; lia| |done]. by rewrite Hn in Hnul.
    + destruct (Hnames i n Hi0 Hi Hu) as (_ & Hshort & Hslash). split_and!; [|done|].
      * unfold short_name, RUNTIME_FS_NAME_CAPACITY in Hshort. bools. lia.
      * intros _ E. rewrite E in Hslash. apply Hslash. by left.
  - intros n Hin _. by destruct (proj1 (Forall_forall _ _) Hs n Hin) as (_ & ? & ? & _).
  - intros n Hi. by destruct (Hsn 0 n Hi) as (_ & _ & _ & ?).
Qed.

(** The hypothesis can be evaluated on a concrete file system. *)
Definition node_exports (n : runtime_fs_node) : Prop :=
  n_used n ≠ 0 → (length (n_name n) ≤ 15)%nat ∧ Forall (λ c, code c ≠ 0) (n_name n) ∧
    n_owner_pid n < 4294967296 ∧ n_mode n < 4294967296.

#[export] Instance node_exports_dec n : Decision (node_exports n).
Proof. unfold node_exports. apply _. Defined.

Lemma exportable_intro fs :
  length (nodes fs) = 16%nat → length (open_files fs) = 8%nat →
  Forall (λ n, length (n_data n) = 256%nat) (nodes fs) →
  runtime_fs_validate fs = Some (0xDFFF, RUNTIME_SYSCALL_STATUS_OK) →
  Forall (λ o, of_used o = 0) (open_files fs) → Forall node_exports (nodes fs) →
  Forall (λ n, n_name n ≠ ["/"%char]) (tail (nodes fs)) →
  Forall (λ n, n_size_bytes n ≤ RUNTIME_FS_FILE_CAPACITY) (take 1 (nodes fs)) → exportable fs.
Proof.
  intros Hn Hf Hd Hv Ho He Hr Hs. rewrite Forall_forall in Ho.
  assert (typed fs) as Ht.
  { split; [done|done|]. intros i n Hi. rewrite aget_lookup in Hi. by apply (Forall_lookup_1 _ _ _ _ Hd Hi). }
  split; [done|by apply validate_ok_wf|done| | |].
  - intros i n Hi Hu. rewrite aget_lookup in Hi.
    destruct (Forall_lookup_1 _ _ _ _ He Hi Hu) as (H1 & H2 & _). split_and!; [done| |].
    + intros c Hc. by apply (proj1 (Forall_forall _ _) H2).
    + intros Hne. apply (Forall_lookup_1 _ _ (N.to_nat (i - 1)) _ Hr). rewrite <-Hi.
      destruct (nodes fs); [done|]. replace (N.to_nat i) with (S (N.to_nat (i - 1))) by lia. done.
  - intros n Hin Hu. rewrite Forall_forall in He. destruct (He n Hin Hu) as (_ & _ & H1 & H2). done.
  - intros n Hi. rewrite aget_lookup in Hi. destruct (nodes fs) as [|r l]; [done|]. injection Hi as ->.
    by inversion Hs.
Qed.

Lemma demo_exportable : exportable demo_closed.
Proof.
  apply exportable_intro; [vm_compute; reflexivity|vm_compute; reflexivity| |vm_compute; reflexivity| | | |].
  all: apply (bool_decide_eq_true_1 _); vm_compute; reflexivity.
Qed.

Lemma image_roundtrip_witness :
  runtime_fs_image_required_bytes demo_closed = Some 240 ∧ 
  ∃ image layout,
    runtime_fs_image_export demo_closed (Some (replicate 4096 0)) 4096 true = Some (Exports image 240 layout) ∧
    runtime_fs_image_import runtime_fs_init (Some image) 240 =
      Some (restored_fs demo_closed, RUNTIME_SYSCALL_STATUS_OK, Some layout).
Proof.
  destruct (image_roundtrip demo_closed demo_exportable) as (size & Hs & _ & H).
  assert (runtime_fs_image_required_bytes demo_closed = Some 240) as E by (vm_compute; reflexivity).
  rewrite E in Hs. injection Hs as <-. split; [exact E|].
  destruct (H (replicate 4096 0) 4096) as [_ H2]; [rewrite length_replicate; lia|].
  destruct H2 as (image & layout & Hx & _ & Hi); [lia|]. exists image, layout. split; [exact Hx|apply Hi].
Defined.

(** A child of the root that is named "/" passes [runtime_fs_validate] and is
    exported, but [runtime_fs_image_validate] refuses the image.  No
    operation creates such a node. *)
Definition slash_child : runtime_fs :=
  Fs (root_node :: Node 1 RUNTIME_FILE_TYPE_DIRECTORY 0 0 493 0 (cs "/") zero_data :: replicate 14 cleared_node)
     (replicate 8 cleared_file).

Lemma slash_child_is_refused :
  runtime_fs_validate slash_child = Some (0xDFFF, RUNTIME_SYSCALL_STATUS_OK) ∧
  ∃ image size layout,
    runtime_fs_image_export slash_child (Some (replicate 4096 0)) 4096 true = Some (Exports image size layout) ∧
    (λ r, (dg_code r.1.1, r.1.2)) <$> runtime_fs_image_validate (Some image) size =
      Some (0xC11B, RUNTIME_SYSCALL_STATUS_EINVAL).
Proof.
  split; [by vm_compute|].
  destruct (runtime_fs_image_export slash_child (Some (replicate 4096 0)) 4096 true) as [[z|image size layout]|] eqn:E;
    [by vm_compute in E| |by vm_compute in E].
  exists image, size, layout. split; [done|]. vm_compute in E. injection E as <- <- <-. by vm_compute.
Qed.
