(* ===== verification/RuntimeFsImageSafety.v ===== *)
(** * An import of an accepted image is defined

    When [runtime_fs_image_validate] accepts a buffer, the import that follows
    reads only inside the buffer, writes only inside the tables, and ends
    with a defined verdict of [runtime_fs_validate] on the new tree. *)

From S2P Require Import Prelude RuntimeFs RuntimeFsInv RuntimeFsSteps RuntimeFsImage RuntimeFsImageBytes RuntimeFsImageProofs.

Local Open Scope N_scope.

(** ** What the accepted records satisfy *)

Record record_safe (bytes : list N) (doff : N) (r : runtime_fs_image_record) : Prop := {
  safe_index : ir_node_index r < 16;
  safe_size : ir_data_size r ≤ 256;
  safe_name : length (ir_name r) = 16%nat;
  safe_data : is_Some (load_bytes (N.to_nat (ir_data_size r)) bytes (doff + ir_data_offset r))
}.

Lemma load_of_hash count data : ∀ cursor hash h,
  hash_loop count data cursor hash = Some h → is_Some (load_bytes count data cursor).
Proof.
  induction count as [|count IH]; intros cursor hash h H; [done|]. cbn [hash_loop load_bytes] in *.
  destruct (aget data cursor) as [b|]; [|done]. cbind. cbind_in H.
  destruct (IH _ _ _ H) as [l ->]. by cbind.
Qed.

Lemma length_load count data : ∀ cursor l, load_bytes count data cursor = Some l → length l = count.
Proof.
  induction count as [|count IH]; intros cursor l H; cbn [load_bytes] in H; [by injection H as <-|].
  destruct (aget data cursor) as [b|]; [|done]. cbind_in H.
  destruct (load_bytes count data (cursor + 1)) as [l'|] eqn:E; [|done]. cbind_in H. injection H as <-.
  simpl. f_equal. by eapply IH.
Qed.

Lemma read_record_name bytes offset r :
  runtime_fs_image_read_record bytes offset = Some r → length (ir_name r) = 16%nat.
Proof.
  unfold runtime_fs_image_read_record. intros H.
  repeat match type of H with
  | (mbind _ (runtime_fs_image_load_u32 ?b ?c)) = _ =>
      destruct (runtime_fs_image_load_u32 b c); [cbind_in H|done]
  end.
  destruct (load_bytes _ _ _) as [name|] eqn:E; [|done]. cbind_in H. injection H as <-.
  by apply length_load in E.
Qed.

Lemma fields_safe h index previous mask payload r :
  record_fields_failure h index previous mask payload r = None →
  ir_node_index r < 16 ∧ ir_data_size r ≤ 256.
Proof.
  unfold record_fields_failure, RUNTIME_FS_MAX_NODES, RUNTIME_FS_FILE_CAPACITY,
    RUNTIME_FILE_TYPE_DIRECTORY, RUNTIME_FILE_TYPE_REGULAR.
  destruct (N.leb_spec 16 (ir_node_index r)); [done|].
  do 3 (case_if; [done|]). destruct (N.eqb_spec (ir_type r) 2) as [->|Hd].
  - cbn [negb andb]. unfold nz. destruct (N.eqb_spec (ir_data_size r) 0); [lia|done].
  - destruct (N.eqb_spec (ir_type r) 1) as [->|]; [|done]. cbn [negb andb].
    destruct (N.eqb_spec (ir_data_size r) (ir_size_bytes r)) as [->|]; [|done]. cbn [negb andb N.eqb].
    destruct (N.ltb_spec 256 (ir_size_bytes r)); [done|lia].
Qed.

Lemma validated_records h bytes doff count : ∀ index previous mask payload rs mask' payload',
  validate_records count h bytes doff index previous mask payload = Some (inr (rs, mask', payload')) →
  length rs = count ∧ ∀ k r, rs !! k = Some r →
    runtime_fs_image_read_record bytes (ih_header_bytes h + (index + N.of_nat k) * ih_record_bytes h) = Some r ∧
    record_safe bytes doff r.
Proof.
  induction count as [|count IH]; intros index previous mask payload rs mask' payload' H.
  { cbn in H. injection H as <- _ _. done. }
  cbn [validate_records] in H.
  destruct (runtime_fs_image_read_record _ _) as [r|] eqn:Hr; [|done]. cbind_in H.
  destruct (record_fields_failure _ _ _ _ _ r) eqn:Hf; [done|].
  destruct (runtime_fs_image_hash_bytes _ _ _) as [dh|] eqn:Hh; [|done]. cbind_in H.
  case_if; [done|]. case_if; [done|].
  destruct (validate_records count _ _ _ _ _ _ _) as [[failure|[[rs' m'] p']]|] eqn:Hrest; cbind_in H; try done.
  injection H as <- _ _. destruct (IH _ _ _ _ _ _ _ Hrest) as [Hlen Hall]. split; [simpl; lia|].
  intros [|k] r' Hk.
  - injection Hk as <-. rewrite N.add_0_r. split; [done|]. destruct (fields_safe _ _ _ _ _ _ Hf).
    split; [done|done|by eapply read_record_name|by eapply load_of_hash].
  - replace (index + N.of_nat (S k)) with (index + 1 + N.of_nat k) by lia. by apply Hall.
Qed.

Lemma find_record_index rs i k r :
  runtime_fs_image_find_record rs i = Some (k, r) → r ∈ rs ∧ ir_node_index r = i.
Proof.
  unfold runtime_fs_image_find_record. destruct (find_idx _ rs) as [p|] eqn:Hp; [|done].
  apply find_idx_Some in Hp as (x & Hx & Hi & _). rewrite Hx. intros [= -> ->]. apply N.eqb_eq in Hi.
  rewrite aget_lookup in Hx. by split; [eapply list_elem_of_lookup_2|].
Qed.

Lemma validated_parents all mask rs : ∀ index,
  validate_parents all mask index rs = Some None →
  ∀ r, r ∈ rs → ∃ k p, runtime_fs_image_find_record all (ir_parent_index r) = Some (k, p).
Proof.
  induction rs as [|r rs IH]; intros index H r' Hr; [by apply elem_of_nil in Hr|].
  cbn [validate_parents] in H. destruct (validate_parent all mask index r) as [[f|]|] eqn:Hp; cbind_in H; try done.
  apply elem_of_cons in Hr as [->|Hr]; [|by eapply IH]. unfold validate_parent in Hp.
  destruct (if ir_node_index r =? 0 then _ else _) as [[]|]; cbind_in Hp; try done.
  destruct (runtime_fs_image_find_record all (ir_parent_index r)) as [[k p]|]; [by exists k, p|].
  unfold nz in Hp. by destruct (ir_node_index r =? 0).
Qed.

(** ** The import loop *)

(** Tables of the declared sizes, links inside the table, nothing open. *)
Record links_inside (fs : runtime_fs) : Prop := {
  li_typed : typed fs;
  li_parent : ∀ i n, aget (nodes fs) i = Some n → n_parent_index n < 16;
  li_closed : ∀ i o, aget (open_files fs) i = Some o → of_used o = 0
}.

Lemma cleared_links : links_inside cleared_fs.
Proof.
  assert (∀ i n, aget (nodes cleared_fs) i = Some n → n = cleared_node) as Hn.
  { intros i n H. rewrite aget_lookup in H. change (nodes cleared_fs) with (replicate 16 cleared_node) in H.
    by apply lookup_replicate in H as [-> _]. }
  split; [split; [done|done|]| |].
  - intros i n H. by rewrite (Hn i n H).
  - intros i n H. by rewrite (Hn i n H).
  - intros i o H. rewrite aget_lookup in H. change (open_files cleared_fs) with (replicate 8 cleared_file) in H.
    by apply lookup_replicate in H as [-> _].
Qed.

Lemma copy_loop_defined src : ∀ index,
  16 ≤ index + N.of_nat (length src) → index < 16 → is_Some (image_copy_loop index src).
Proof.
  induction src as [|c src IH]; intros index Hlen Hi; simpl in Hlen; [lia|]. cbn [image_copy_loop].
  case_if; [done|]. unfold RUNTIME_FS_NAME_CAPACITY in *. destruct (N.ltb_spec (index + 1) 16); [|done].
  destruct (IH (index + 1)) as [l ->]; [lia|lia|]. by cbind.
Qed.

Lemma import_record_defined bytes doff r fs :
  record_safe bytes doff r → ir_parent_index r < 16 → links_inside fs →
  ∃ fs', import_record r bytes doff fs = Some fs' ∧ links_inside fs'.
Proof.
  intros [Hi Hs Hn [l Hl]] Hp [Ht Hpar Ho]. unfold import_record.
  destruct (aget_is_Some (nodes fs) (ir_node_index r)) as [node Hnode]; [rewrite (typed_nodes _ Ht); lia|].
  rewrite Hnode. cbind. unfold runtime_fs_image_copy_name.
  destruct (copy_loop_defined (ir_name r) 0) as [chars ->]; [rewrite Hn; lia|done|]. cbind. rewrite Hl. cbind.
  pose proof (length_load _ _ _ _ Hl) as Hll. pose proof (typed_data _ Ht _ _ Hnode) as Hd.
  destruct (store_bytes_written l (n_data node) 0) as (data & -> & Hdl & _); [rewrite Hd; lia|]. cbind.
  eexists. split; [done|]. split.
  - apply typed_upd_node; [done|]. intros m _ _. simpl. congruence.
  - intros i n. rewrite aget_upd_node. case_decide as Hij; [|apply Hpar].
    intros (m & _ & ->)%fmap_Some. done.
  - exact Ho.
Qed.

Lemma import_loop_defined h bytes count : ∀ index fs,
  (∀ k, (k < count)%nat → ∃ r,
     runtime_fs_image_read_record bytes (ih_header_bytes h + (index + N.of_nat k) * ih_record_bytes h) = Some r ∧
     record_safe bytes (image_data_offset h) r ∧ ir_parent_index r < 16) →
  links_inside fs → ∃ fs', import_records count h bytes index fs = Some fs' ∧ links_inside fs'.
Proof.
  induction count as [|count IH]; intros index fs H Hfs; [by exists fs|]. cbn [import_records].
  destruct (H 0%nat) as (r & Hr & Hs & Hp); [lia|]. rewrite N.add_0_r in Hr. rewrite Hr. cbind.
  destruct (import_record_defined bytes _ r fs Hs Hp Hfs) as (fs1 & -> & Hfs1). cbind.
  apply IH; [|done]. intros k Hk. destruct (H (S k)) as (r' & Hr' & ?); [lia|].
  exists r'. by replace (index + 1 + N.of_nat k) with (index + N.of_nat (S k)) by lia.
Qed.

(** ** The final check is defined *)

Lemma chain_defined fs index fuel : ∀ cur depth,
  links_inside fs → cur < 16 → depth ≤ 16 → (fuel + N.to_nat depth = 18)%nat →
  is_Some (validate_chain fuel fs index cur depth).
Proof.
  induction fuel as [|fuel IH]; intros cur depth Hfs Hc Hd Hf; [lia|]. cbn [validate_chain].
  case_if; [done|]. pose proof (typed_nodes _ (li_typed _ Hfs)) as Hn.
  destruct (aget_is_Some (nodes fs) cur) as [n En]; [lia|]. rewrite En. cbind. unfold RUNTIME_FS_MAX_NODES.
  destruct (N.ltb_spec 16 (depth + 1)); [done|]. pose proof (li_parent _ Hfs _ _ En).
  destruct (aget_is_Some (nodes fs) (n_parent_index n)) as [m ->]; [lia|]. cbind.
  case_if; [done|]. apply IH; [done|done|lia|lia].
Qed.

Lemma validate_defined fs : links_inside fs → ∃ code status, runtime_fs_validate fs = Some (code, status).
Proof.
  intros Hfs. pose proof (typed_nodes _ (li_typed _ Hfs)) as Hn. unfold runtime_fs_validate.
  destruct (aget_is_Some (nodes fs) 0) as [root ->]; [lia|]. cbind. case_if; [by eauto|].
  assert (∀ l k, (∀ i n, aget l i = Some n → aget (nodes fs) (k + i) = Some n) → is_Some (validate_nodes fs k l)) as Hl.
  { induction l as [|n l IH]; intros k Hk; [done|]. cbn [validate_nodes].
    assert (aget (nodes fs) k = Some n) as En by (rewrite <-(N.add_0_r k); by apply Hk).
    assert (is_Some (validate_node fs k n)) as [[failure|] ->]; cbind; [|done|].
    - unfold validate_node. do 3 (case_if; [done|]). case_if; [done|].
      destruct (aget_is_Some (nodes fs) (n_parent_index n)) as [p ->];
        [rewrite Hn; apply (li_parent _ Hfs _ _ En)|]. cbind. do 2 (case_if; [done|]).
      pose proof (aget_Some_lt _ _ _ En).
      destruct (chain_defined fs k CHAIN_FUEL k 0 Hfs) as [[failure|] ->]; [lia|lia|done|done|]. cbind. by case_if.
    - apply IH. intros i m Hi. replace (k + 1 + i) with (k + (i + 1)) by lia. apply Hk.
      rewrite <-(aget_tail (n :: l)) by lia. simpl. by replace (i + 1 - 1) with i by lia. }
  destruct (Hl (tail (nodes fs)) 1) as [[failure|] ->]; cbind; [|by destruct failure; eauto|].
  - intros i n Hi. rewrite <-(aget_tail (nodes fs)) by lia. by replace (1 + i - 1) with i by lia.
  - assert (validate_open_files fs 0 (open_files fs) = Some None) as ->; [|cbind; by eauto].
    apply validate_open_files_ok. intros i o Ho. unfold validate_open_file. by rewrite (li_closed _ Hfs _ _ Ho).
Qed.

(** ** Validation, then import *)

Lemma validated_image h bytes layout :
  validate_image h bytes = Some (inr layout) →
  ∃ fs', import_records (N.to_nat (ih_record_count h)) h bytes 0 cleared_fs = Some fs' ∧ links_inside fs'.
Proof.
  unfold validate_image. intros H.
  destruct (validate_records _ _ _ _ _ _ _ _) as [[failure|[[rs mask] payload]]|] eqn:Hrs; cbind_in H; try done.
  case_if; [done|]. destruct (validate_parents rs mask 0 rs) as [[failure|]|] eqn:Hps; cbind_in H; try done.
  destruct (validated_records _ _ _ _ _ _ _ _ _ _ _ Hrs) as [Hlen Hall]. apply import_loop_defined; [|apply cleared_links].
  intros k Hk. destruct (lookup_lt_is_Some_2 rs k) as [r Hr]; [lia|]. exists r.
  destruct (Hall k r Hr) as [Hread Hsafe]. split; [exact Hread|]. split; [done|].
  destruct (validated_parents _ _ _ _ Hps r) as (j & p & Hp); [by eapply list_elem_of_lookup_2|].
  apply find_record_index in Hp as [Hin <-]. apply list_elem_of_lookup in Hin as [j' Hj'].
  by apply (Hall j' p Hj').
Qed.

(** A failure has a failing status. *)
Definition failing (failure : image_failure) : Prop := snd failure ≠ RUNTIME_SYSCALL_STATUS_OK.

Lemma fields_failing h index previous mask payload r failure :
  record_fields_failure h index previous mask payload r = Some failure → failing failure.
Proof.
  unfold record_fields_failure, failing.
  repeat (match goal with |- (if ?b then _ else _) = _ → _ => destruct b end; [by intros [= <-]|]). done.
Qed.

Lemma records_failing h bytes doff count : ∀ index previous mask payload failure,
  validate_records count h bytes doff index previous mask payload = Some (inl failure) → failing failure.
Proof.
  induction count as [|count IH]; intros index previous mask payload failure H; [done|]. cbn [validate_records] in H.
  destruct (runtime_fs_image_read_record _ _) as [r|]; [|done]. cbind_in H.
  destruct (record_fields_failure _ _ _ _ _ r) as [f|] eqn:Hf; [injection H as <-; by eapply fields_failing|].
  destruct (runtime_fs_image_hash_bytes _ _ _); [|done]. cbind_in H.
  case_if; [by injection H as <-|]. case_if; [by injection H as <-|].
  destruct (validate_records count _ _ _ _ _ _ _) as [[f|[[? ?] ?]]|] eqn:Hrest; cbind_in H; try done.
  injection H as <-. by eapply IH.
Qed.

Lemma parents_failing all mask rs : ∀ index failure,
  validate_parents all mask index rs = Some (Some failure) → failing failure.
Proof.
  induction rs as [|r rs IH]; intros index failure H; [done|]. cbn [validate_parents] in H.
  destruct (validate_parent all mask index r) as [[f|]|] eqn:Hp; cbind_in H; [|by eapply IH|done].
  injection H as <-. unfold validate_parent in Hp.
  destruct (if ir_node_index r =? 0 then _ else _) as [[]|]; cbind_in Hp; [by injection Hp as <-| |done].
  case_if; [by injection Hp as <-|]. case_if; [by injection Hp as <-|].
  destruct (validate_walk _ _ _ _) as [[[code arg]|]|]; cbind_in Hp; [by injection Hp as <-|done..].
Qed.

Lemma names_failing rs : ∀ index failure, validate_names index rs = Some (Some failure) → failing failure.
Proof.
  induction rs as [|r rs IH]; intros index failure H; [done|]. cbn [validate_names] in H.
  destruct (duplicate_record _ _ _) as [[o|]|]; cbind_in H; [by injection H as <-|by eapply IH|done].
Qed.

Lemma leaves_failing first rs tree count : ∀ index failure,
  validate_leaves count first index rs tree = Some (Some failure) → failing failure.
Proof.
  induction count as [|count IH]; intros index failure H; [done|]. cbn [validate_leaves] in H.
  destruct (aget tree _); [|done]. cbind_in H. case_if; [by injection H as <-|by eapply IH].
Qed.

Lemma inner_failing tree count : ∀ failure,
  validate_inner count tree = Some (Some failure) → failing failure.
Proof.
  induction count as [|count IH]; intros failure H; [done|]. cbn [validate_inner] in H.
  destruct (aget tree (N.of_nat count * 2 + 1)); [cbind_in H|done].
  destruct (aget tree (N.of_nat count * 2 + 2)); [cbind_in H|done].
  destruct (aget tree (N.of_nat count)); [cbind_in H|done]. case_if; [by injection H as <-|by eapply IH].
Qed.

Lemma tree_failing h rs tree failure : validate_tree h rs tree = Some (Some failure) → failing failure.
Proof.
  unfold validate_tree. intros H.
  destruct (validate_leaves _ _ _ _ _) as [[f|]|] eqn:Hl; cbind_in H;
    [injection H as <-; by eapply leaves_failing| |done].
  destruct (validate_inner _ _) as [[f|]|] eqn:Hi; cbind_in H; [injection H as <-; by eapply inner_failing| |done].
  destruct (aget tree 0); [|done]. cbind_in H. case_if; [by injection H as <-|done].
Qed.

Lemma validate_image_fails h bytes failure : validate_image h bytes = Some (inl failure) → failing failure.
Proof.
  unfold validate_image. intros H.
  destruct (validate_records _ _ _ _ _ _ _ _) as [[f|[[rs mask] payload]]|] eqn:Hrs; cbind_in H;
    [injection H as <-; by eapply records_failing| |done].
  case_if; [by injection H as <-|].
  destruct (validate_parents _ _ _ _) as [[f|]|] eqn:Hps; cbind_in H; [injection H as <-; by eapply parents_failing| |done].
  destruct (validate_names _ _) as [[f|]|] eqn:Hns; cbind_in H; [injection H as <-; by eapply names_failing| |done].
  destruct (load_words _ _ _); [|done]. cbind_in H.
  destruct (validate_tree _ _ _) as [[f|]|] eqn:Ht; cbind_in H; [injection H as <-; by eapply tree_failing|done..].
Qed.

Lemma validate_ok_code fs code : runtime_fs_validate fs = Some (code, RUNTIME_SYSCALL_STATUS_OK) → code = 0xDFFF.
Proof.
  unfold runtime_fs_validate. destruct (aget (nodes fs) 0); [|done]. cbind. case_if; [done|].
  destruct (validate_nodes _ _ _) as [[[? ?]|]|] eqn:Hv; cbind; [|
    destruct (validate_open_files _ _ _) as [[[? ?]|]|] eqn:Ho; cbind; [|naive_solver..]|done].
  - intros [= -> ->]. by apply validate_nodes_failure in Hv.
  - intros [= -> ->]. by apply validate_open_files_failure in Ho.
Qed.

(** C24: a buffer that [runtime_fs_image_validate] has judged can be imported:
    the import has a defined result.  A refused buffer leaves the file system
    as it was; an accepted one gives tables of the declared sizes, with every
    link inside the table and no open file, and the status [OK] means that the
    new tree is well formed. *)
Theorem import_safe fs bytes size diag status layout :
  runtime_fs_image_validate (Some bytes) size = Some (diag, status, layout) →
  ∃ fs' status', runtime_fs_image_import fs (Some bytes) size = Some (fs', status', layout) ∧
    (status ≠ RUNTIME_SYSCALL_STATUS_OK → fs' = fs ∧ status' = RUNTIME_SYSCALL_STATUS_EINVAL) ∧
    (status = RUNTIME_SYSCALL_STATUS_OK →
       links_inside fs' ∧ (status' = RUNTIME_SYSCALL_STATUS_OK → wf fs')).
Proof.
  intros Hv. unfold runtime_fs_image_import. rewrite Hv. cbind.
  destruct (Z.eqb_spec status RUNTIME_SYSCALL_STATUS_OK) as [->|Hne]; cbn [negb];
    [|by eexists _, _; split; [done|]].
  unfold runtime_fs_image_validate in Hv.
  destruct (runtime_fs_image_parse_header (Some bytes) size) as [[h|]|] eqn:Hh; cbind_in Hv; [|done|done].
  cbind. destruct (validate_image h bytes) as [[[d s]|l]|] eqn:Himg; cbind_in Hv; [|injection Hv as <- <-|done].
  { injection Hv as -> -> <-. by destruct (validate_image_fails _ _ _ Himg). }
  destruct (validated_image h bytes l Himg) as (fs' & -> & Hl). cbind.
  destruct (validate_defined fs' Hl) as (code & status & E). rewrite E. cbind.
  eexists _, _. split; [done|]. split; [done|]. intros _. split; [done|]. intros ->.
  apply validate_ok_wf; [apply Hl|]. rewrite E. by rewrite (validate_ok_code _ _ E).
Qed.

Lemma import_safe_witness :
  ∃ fs' status', runtime_fs_image_import runtime_fs_init (Some demo_image) 240 =
    Some (fs', status', Some (Layout 3 4 7 4 240 84971182)) ∧ links_inside fs'.
Proof.
  destruct (import_safe runtime_fs_init demo_image 240 (ImageDiag 0xC1FF 0 0) RUNTIME_SYSCALL_STATUS_OK
              (Some (Layout 3 4 7 4 240 84971182))) as (fs' & status' & E & _ & H); [vm_compute; reflexivity|].
  exists fs', status'. split; [exact E|]. by apply H.
Defined.

(** * Images that the validation does not refuse

    Images made by hand on which [runtime_fs_image_validate] reads outside the
    buffer or outside a record, or which pass it and are refused only after
    the file system has been cleared. *)

(** A record of a directory with its hashes. *)
Definition directory_record (node_index parent_index : N) (name : list N) : runtime_fs_image_record :=
  let r := ImageRecord node_index RUNTIME_FILE_TYPE_DIRECTORY parent_index 0 493 0 0 0
             RUNTIME_FS_IMAGE_HASH_EMPTY 0 (name ++ replicate (16 - length name) 0) in
  ImageRecord node_index RUNTIME_FILE_TYPE_DIRECTORY parent_index 0 493 0 0 0
    RUNTIME_FS_IMAGE_HASH_EMPTY (runtime_fs_image_object_hash r) (ir_name r).

(** The image of directories, with a correct hash tree. *)
Definition directories_image (records : list runtime_fs_image_record) : list N :=
  let count := N.of_nat (length records) in
  let leaves := default 0 (runtime_fs_image_next_pow2 count) in
  let hashes := leaves * 2 - 1 in
  let tree := default [] (
    t ← tree_leaves (N.to_nat leaves) (hashes - leaves) 0 (ir_object_hash <$> records)
          (replicate (N.to_nat hashes) RUNTIME_FS_IMAGE_HASH_EMPTY);
    tree_parents (N.to_nat (hashes - leaves)) t) in
  words_bytes (header_words (Header RUNTIME_FS_IMAGE_MAGIC RUNTIME_FS_IMAGE_VERSION 40 count 56 leaves hashes
    0 (default 0 (aget tree 0)) (40 + count * 56 + hashes * 4))) ++
  concat (record_bytes <$> records) ++ words_bytes tree.

Definition validate_all (bytes : list N) : option (image_diagnostics * Z * option runtime_fs_image_layout) :=
  runtime_fs_image_validate (Some bytes) (N.of_nat (length bytes)).

(** The sum of the sizes wraps: a header alone, of 40 bytes, is accepted as
    an image with one record, and the record is read after its end. *)
Definition wrapped_header : runtime_fs_image_header :=
  Header RUNTIME_FS_IMAGE_MAGIC RUNTIME_FS_IMAGE_VERSION 40 1 56 1 1 4294967236 0 40.

Lemma wrapped_size_reads_past_the_buffer :
  let bytes := words_bytes (header_words wrapped_header) in
  length bytes = 40%nat ∧
  runtime_fs_image_parse_header (Some bytes) 40 = Some (Some wrapped_header) ∧
  validate_all bytes = None.
Proof. vm_compute. split_and!; reflexivity. Qed.

(** The mask is shifted by the parent index before that has been bounded. *)
Lemma parent_index_shifts_too_far :
  validate_all (directories_image [directory_record 0 0 [47]; directory_record 1 32 [97]]) = None.
Proof. vm_compute. reflexivity. Qed.

(** Two equal names of 16 characters: the comparison reads the byte after
    the second one. *)
Definition long_name (last : N) : list N := replicate 15 97 ++ [last].

Lemma full_names_read_past_the_record :
  runtime_fs_image_name_equals_bounded (long_name 98) RUNTIME_FS_NAME_CAPACITY (long_name 98) = None ∧
  validate_all (directories_image [directory_record 0 0 [47]; directory_record 1 0 (long_name 98);
                                   directory_record 2 0 (long_name 98)]) = None.
Proof. vm_compute. split; reflexivity. Qed.

(** Two names that differ only in their 16th character pass the validation;
    the import clears the live tree, stores both names cut to 15 characters and
    only then finds them equal. *)
Lemma refused_import_has_cleared_the_tree :
  let bytes := directories_image [directory_record 0 0 [47]; directory_record 1 0 (long_name 98);
                                  directory_record 2 0 (long_name 99)] in
  (λ r, snd (fst r)) <$> validate_all bytes = Some RUNTIME_SYSCALL_STATUS_OK ∧
  ∃ fs layout, runtime_fs_image_import demo_closed (Some bytes) (N.of_nat (length bytes)) =
    Some (fs, RUNTIME_SYSCALL_STATUS_EEXIST, layout) ∧
    fs_resolve_path demo_closed (cs "/a/f") = Some 2 ∧ fs_resolve_path fs (cs "/a/f") = None.
Proof.
  split; [vm_compute; reflexivity|]. eexists _, _. split; [vm_compute; reflexivity|].
  split; vm_compute; reflexivity.
Qed.
