(* ===== verification/RuntimeSyscall.v ===== *)
(** * The system-call layer ([kernel/runtime_syscall.c])

    The handle table and the dispatcher.  The operations behind the calls are
    the callbacks of [struct runtime_syscall_ops], a parameter: each may
    change anything in the [system], the handle table included (killing a
    process releases its handles), and a callback that is a NULL pointer is
    [None].  [process_current_pid] only reads. *)

From S2P Require Import Prelude RuntimeFs.

Local Open Scope N_scope.

(** ** Handles *)

Definition RUNTIME_HANDLE_TYPE_NONE : N := 0.
Definition RUNTIME_HANDLE_TYPE_PROCESS : N := 1.
Definition RUNTIME_HANDLE_TYPE_EVENT : N := 2.
Definition RUNTIME_HANDLE_TYPE_MAILBOX : N := 3.
Definition RUNTIME_HANDLE_TYPE_FILE : N := 4.
Definition RUNTIME_HANDLE_TYPE_SERVICE : N := 5.
Definition RUNTIME_SYSCALL_MAX_HANDLES : N := 16.

Record runtime_handle_info := HandleInfo {
  h_handle : N;
  h_owner_pid : N;
  h_type : N;
  h_object : N
}.
#[export] Instance runtime_handle_info_eq_dec : EqDecision runtime_handle_info.
Proof. solve_decision. Defined.

Record runtime_syscall_args := Args { arg0 : N; arg1 : N; arg2 : N; arg3 : N }.

Definition cleared_handle : runtime_handle_info := HandleInfo 0 0 RUNTIME_HANDLE_TYPE_NONE 0.

Abbreviation handle_table := (list runtime_handle_info).

(** The state a system call works on; [sys_table] is [None] when the table
    pointer is NULL. *)
Record system (X : Type) := System { sys_table : option handle_table; sys_context : X }.
Arguments System {X}.
Arguments sys_table {X}.
Arguments sys_context {X}.

Definition set_table {X} (t : option handle_table) (s : system X) : system X :=
  System t (sys_context s).

(** A callback: it maps the state to the new state and its result. *)
Definition callback (X R : Type) : Type := system X → system X * R.

Record runtime_syscall_file_ops (X : Type) := FileOps {
  fop_open : option (N → N → callback X (N * Z));
  fop_read : option (N → N → N → callback X Z);
  fop_write : option (N → N → N → callback X Z);
  fop_close : option (N → callback X Z);
  fop_stat : option (N → N → callback X Z);
  fop_readdir : option (N → N → callback X Z);
  fop_seek : option (N → Z → N → callback X Z);
  fop_remove : option (N → callback X Z);
  fop_rename : option (N → N → callback X Z)
}.
Arguments FileOps {X}.
Arguments fop_open {X}.
Arguments fop_read {X}.
Arguments fop_write {X}.
Arguments fop_close {X}.
Arguments fop_stat {X}.
Arguments fop_readdir {X}.
Arguments fop_seek {X}.
Arguments fop_remove {X}.
Arguments fop_rename {X}.

(** [op_open]-style callbacks with an output pointer return the stored value
    with the status; a status or count is [Z] or [N] as in the code, a boolean
    [int] is [bool]. *)
Record runtime_syscall_ops (X : Type) := Ops {
  op_process_current_pid : option (system X → N);
  op_process_sleep : option (N → callback X unit);
  op_process_kill : option (N → Z → callback X bool);
  op_process_info : option (N → N → callback X Z);
  op_process_spawn_named : option (N → N → callback X N);
  op_process_spawnable_count : option (callback X N);
  op_process_spawnable_info : option (N → N → callback X Z);
  op_service_count : option (callback X N);
  op_service_info : option (N → N → callback X Z);
  op_service_open : option (N → callback X (N * Z));
  op_service_close : option (N → callback X Z);
  op_service_request : option (N → N → N → callback X Z);
  op_app_count : option (callback X N);
  op_app_info : option (N → N → callback X Z);
  op_app_launch : option (N → callback X N);
  op_event_create : option (callback X N);
  op_event_destroy : option (N → callback X bool);
  op_event_signal : option (N → callback X N);
  op_mailbox_create : option (callback X N);
  op_mailbox_destroy : option (N → callback X bool);
  op_mailbox_send : option (N → N → callback X bool);
  op_mailbox_receive : option (N → N → callback X bool);
  op_fs_mkdir : option (N → N → callback X Z);
  op_file_ops : option (runtime_syscall_file_ops X)
}.
Arguments op_process_current_pid {X}.
Arguments op_process_sleep {X}.
Arguments op_process_kill {X}.
Arguments op_process_info {X}.
Arguments op_process_spawn_named {X}.
Arguments op_process_spawnable_count {X}.
Arguments op_process_spawnable_info {X}.
Arguments op_service_count {X}.
Arguments op_service_info {X}.
Arguments op_service_open {X}.
Arguments op_service_close {X}.
Arguments op_service_request {X}.
Arguments op_app_count {X}.
Arguments op_app_info {X}.
Arguments op_app_launch {X}.
Arguments op_event_create {X}.
Arguments op_event_destroy {X}.
Arguments op_event_signal {X}.
Arguments op_mailbox_create {X}.
Arguments op_mailbox_destroy {X}.
Arguments op_mailbox_send {X}.
Arguments op_mailbox_receive {X}.
Arguments op_fs_mkdir {X}.
Arguments op_file_ops {X}.
Arguments Ops {X}.

(** ** The handle table *)

(** The new handle, 0 when the table is NULL or full. *)
Definition runtime_syscall_alloc_handle (table : option handle_table) (owner_pid type object : N)
  : option handle_table * N :=
  match table with
  | None => (None, 0)
  | Some t =>
      match find_idx (λ _ h, h_type h =? RUNTIME_HANDLE_TYPE_NONE) t with
      | Some index =>
          (Some (aupd t index (λ _, HandleInfo (index + 1) owner_pid type object)), index + 1)
      | None => (Some t, 0)
      end
  end.

Definition runtime_syscall_lookup_handle (table : option handle_table) (handle : N)
  : option runtime_handle_info :=
  match table with
  | None => None
  | Some t =>
      if (handle =? 0) || (RUNTIME_SYSCALL_MAX_HANDLES <? handle) then None
      else match aget t (handle - 1) with
           | Some h => if h_type h =? RUNTIME_HANDLE_TYPE_NONE then None else Some h
           | None => None
           end
  end.

(** [runtime_syscall_clear_handle(&table->handles[index])]. *)
Definition runtime_syscall_clear_handle (table : option handle_table) (index : N)
  : option handle_table :=
  (λ t, aupd t index (λ _, cleared_handle)) <$> table.

Definition same_object (handle candidate : runtime_handle_info) : bool :=
  (h_type candidate =? h_type handle) && (h_owner_pid candidate =? h_owner_pid handle) &&
  (h_object candidate =? h_object handle).

Definition runtime_syscall_handle_alias_count (table : option handle_table)
    (handle : runtime_handle_info) : N :=
  match table with
  | None => 0
  | Some t => count_if (same_object handle) t
  end.

Section dispatch.
Context {X : Type}.
Implicit Types (s : system X) (ops : runtime_syscall_ops X).

Definition clear_at (index : N) s : system X :=
  set_table (runtime_syscall_clear_handle (sys_table s) index) s.

Definition runtime_syscall_check_handle_access (handle : runtime_handle_info) ops s : Z :=
  match op_process_current_pid ops with
  | None => RUNTIME_SYSCALL_STATUS_EINVAL
  | Some current =>
      if nz (h_owner_pid handle) && negb (h_owner_pid handle =? current s)
      then RUNTIME_SYSCALL_STATUS_EBADF else RUNTIME_SYSCALL_STATUS_OK
  end.

(** [destroy] in the event and mailbox cases of [runtime_syscall_close_handle]. *)
Definition close_destroyed (destroy : option (N → callback X bool)) (index : N)
    (handle : runtime_handle_info) s : system X * Z :=
  match destroy with
  | None => (s, RUNTIME_SYSCALL_STATUS_ENOSYS)
  | Some destroy =>
      let '(s', result) := destroy (h_object handle) s in
      if result then (clear_at index s', RUNTIME_SYSCALL_STATUS_OK)
      else (s', RUNTIME_SYSCALL_STATUS_EBUSY)
  end.

Definition close_file ops (index : N) (handle : runtime_handle_info) s : system X * Z :=
  match op_file_ops ops ≫= fop_close with
  | None => (s, RUNTIME_SYSCALL_STATUS_ENOSYS)
  | Some close =>
      let '(s', status) := close (h_object handle) s in
      if (status <? 0)%Z then (s', RUNTIME_SYSCALL_STATUS_EBADF)
      else (clear_at index s', RUNTIME_SYSCALL_STATUS_OK)
  end.

Definition close_service ops (index : N) (handle : runtime_handle_info) s : system X * Z :=
  match op_service_close ops with
  | None => (clear_at index s, RUNTIME_SYSCALL_STATUS_OK)
  | Some close =>
      let '(s', status) := close (h_object handle) s in
      if (status <? 0)%Z then (s', RUNTIME_SYSCALL_STATUS_EBADF)
      else (clear_at index s', RUNTIME_SYSCALL_STATUS_OK)
  end.

(** [handle] is the entry at [index] when the call is made. *)
Definition runtime_syscall_close_handle (index : N) (handle : runtime_handle_info) ops s
    (enforce_access : bool) : system X * Z :=
  let access_status := if enforce_access then runtime_syscall_check_handle_access handle ops s
                       else RUNTIME_SYSCALL_STATUS_OK in
  if negb (bool_decide (access_status = RUNTIME_SYSCALL_STATUS_OK)) then (s, access_status)
  else
    let alias_count := runtime_syscall_handle_alias_count (sys_table s) handle in
    if h_type handle =? RUNTIME_HANDLE_TYPE_PROCESS
    then (clear_at index s, RUNTIME_SYSCALL_STATUS_OK)
    else if negb ((2 <=? h_type handle) && (h_type handle <=? 5))
    then (s, RUNTIME_SYSCALL_STATUS_EBADF)
    else if 1 <? alias_count then (clear_at index s, RUNTIME_SYSCALL_STATUS_OK)
    else if h_type handle =? RUNTIME_HANDLE_TYPE_EVENT
    then close_destroyed (op_event_destroy ops) index handle s
    else if h_type handle =? RUNTIME_HANDLE_TYPE_MAILBOX
    then close_destroyed (op_mailbox_destroy ops) index handle s
    else if h_type handle =? RUNTIME_HANDLE_TYPE_FILE
    then close_file ops index handle s
    else close_service ops index handle s.

(** Allocation in the state, and the value a call returns for a handle. *)
Definition alloc (owner_pid type object : N) s : system X * N :=
  let '(t, handle_id) := runtime_syscall_alloc_handle (sys_table s) owner_pid type object in
  (set_table t s, handle_id).

Definition return_handle (r : system X * N) : system X * Z :=
  let '(s, handle_id) := r in
  if handle_id =? 0 then (s, RUNTIME_SYSCALL_STATUS_ENOSPC) else (s, i32 handle_id).

(** The three guards that open every case taking a handle of one type. *)
Definition with_handle (type handle_id : N) ops s
    (k : runtime_handle_info → system X * Z) : system X * Z :=
  match runtime_syscall_lookup_handle (sys_table s) handle_id with
  | None => (s, RUNTIME_SYSCALL_STATUS_EBADF)
  | Some handle =>
      if negb (h_type handle =? type) then (s, RUNTIME_SYSCALL_STATUS_EBADF)
      else
        let status := runtime_syscall_check_handle_access handle ops s in
        if negb (bool_decide (status = RUNTIME_SYSCALL_STATUS_OK)) then (s, status)
        else k handle
  end.

(** ** One definition per system call *)

Definition sys_getpid ops s : system X * Z :=
  match op_process_current_pid ops with
  | None => (s, RUNTIME_SYSCALL_STATUS_ENOSYS)
  | Some current => (s, i32 (current s))
  end.

Definition sys_sleep (args : runtime_syscall_args) ops s : system X * Z :=
  match op_process_sleep ops with
  | None => (s, RUNTIME_SYSCALL_STATUS_ENOSYS)
  | Some sleep => let '(s', _) := sleep (arg0 args) s in (s', RUNTIME_SYSCALL_STATUS_OK)
  end.

Definition kill (pid : N) (exit_code : N) ops s : system X * Z :=
  match op_process_kill ops with
  | None => (s, RUNTIME_SYSCALL_STATUS_ENOSYS)
  | Some kill =>
      let '(s', ok) := kill pid (i32 exit_code) s in
      (s', if (ok : bool) then RUNTIME_SYSCALL_STATUS_OK else RUNTIME_SYSCALL_STATUS_ESRCH)
  end.

Definition sys_kill (args : runtime_syscall_args) ops s : system X * Z :=
  kill (arg0 args) (arg1 args) ops s.

Definition sys_handle_close (args : runtime_syscall_args) ops s : system X * Z :=
  match runtime_syscall_lookup_handle (sys_table s) (arg0 args) with
  | None => (s, RUNTIME_SYSCALL_STATUS_EBADF)
  | Some handle => runtime_syscall_close_handle (arg0 args - 1) handle ops s true
  end.

Definition sys_process_self (current_pid : N) ops s : system X * Z :=
  match op_process_current_pid ops with
  | None => (s, RUNTIME_SYSCALL_STATUS_ENOSYS)
  | Some current => return_handle (alloc current_pid RUNTIME_HANDLE_TYPE_PROCESS (current s) s)
  end.

Definition sys_process_info (args : runtime_syscall_args) ops s : system X * Z :=
  with_handle RUNTIME_HANDLE_TYPE_PROCESS (arg0 args) ops s (λ handle,
    match op_process_info ops with
    | Some info => if arg1 args =? 0 then (s, RUNTIME_SYSCALL_STATUS_ENOSYS)
                   else info (h_object handle) (arg1 args) s
    | None => (s, RUNTIME_SYSCALL_STATUS_ENOSYS)
    end).

Definition sys_process_terminate (args : runtime_syscall_args) ops s : system X * Z :=
  with_handle RUNTIME_HANDLE_TYPE_PROCESS (arg0 args) ops s (λ handle,
    kill (h_object handle) (arg1 args) ops s).

(** Creating an event or a mailbox: the object is created first, and a NULL
    object gives the slot back. *)
Definition create_object (create : option (callback X N)) (type current_pid : N) s
  : system X * Z :=
  match create with
  | None => (s, RUNTIME_SYSCALL_STATUS_ENOSYS)
  | Some create =>
      let '(s1, object) := create s in
      let '(s2, handle_id) := alloc current_pid type object s1 in
      if handle_id =? 0 then (s2, RUNTIME_SYSCALL_STATUS_ENOSPC)
      else if object =? 0 then (clear_at (handle_id - 1) s2, RUNTIME_SYSCALL_STATUS_ENOMEM)
      else (s2, i32 handle_id)
  end.

Definition sys_event_create (current_pid : N) ops s : system X * Z :=
  create_object (op_event_create ops) RUNTIME_HANDLE_TYPE_EVENT current_pid s.

(** A new process under a handle, or [ENOENT]. *)
Definition return_process (current_pid : N) (r : system X * N) : system X * Z :=
  let '(s, pid) := r in
  if pid =? 0 then (s, RUNTIME_SYSCALL_STATUS_ENOENT)
  else return_handle (alloc current_pid RUNTIME_HANDLE_TYPE_PROCESS pid s).

Definition sys_process_spawn (args : runtime_syscall_args) (current_pid : N) ops s
  : system X * Z :=
  match op_process_spawn_named ops with
  | Some spawn => if arg0 args =? 0 then (s, RUNTIME_SYSCALL_STATUS_ENOSYS)
                  else return_process current_pid (spawn (arg0 args) (arg1 args) s)
  | None => (s, RUNTIME_SYSCALL_STATUS_ENOSYS)
  end.

(** The three counting calls. *)
Definition count (counter : option (callback X N)) s : system X * Z :=
  match counter with
  | None => (s, RUNTIME_SYSCALL_STATUS_ENOSYS)
  | Some counter => let '(s', n) := counter s in (s', i32 n)
  end.

Definition sys_process_spawnable_count ops s : system X * Z :=
  count (op_process_spawnable_count ops) s.
Definition sys_service_count ops s : system X * Z := count (op_service_count ops) s.
Definition sys_app_count ops s : system X * Z := count (op_app_count ops) s.

(** The three calls that fill in a description by index. *)
Definition describe (info : option (N → N → callback X Z)) (args : runtime_syscall_args) s
  : system X * Z :=
  match info with
  | Some info => if arg1 args =? 0 then (s, RUNTIME_SYSCALL_STATUS_ENOSYS)
                 else info (arg0 args) (arg1 args) s
  | None => (s, RUNTIME_SYSCALL_STATUS_ENOSYS)
  end.

Definition sys_process_spawnable_info (args : runtime_syscall_args) ops s : system X * Z :=
  describe (op_process_spawnable_info ops) args s.
Definition sys_service_info (args : runtime_syscall_args) ops s : system X * Z :=
  describe (op_service_info ops) args s.
Definition sys_app_info (args : runtime_syscall_args) ops s : system X * Z :=
  describe (op_app_info ops) args s.

Definition sys_service_open (args : runtime_syscall_args) (current_pid : N) ops s
  : system X * Z :=
  match op_service_open ops with
  | Some open =>
      if arg0 args =? 0 then (s, RUNTIME_SYSCALL_STATUS_ENOSYS)
      else
        let '(s1, (object, status)) := open (arg0 args) s in
        if (status <? 0)%Z then (s1, status)
        else
          let '(s2, handle_id) := alloc current_pid RUNTIME_HANDLE_TYPE_SERVICE object s1 in
          if handle_id =? 0
          then match op_service_close ops with
               | Some close => let '(s3, _) := close object s2 in
                               (s3, RUNTIME_SYSCALL_STATUS_ENOSPC)
               | None => (s2, RUNTIME_SYSCALL_STATUS_ENOSPC)
               end
          else (s2, i32 handle_id)
  | None => (s, RUNTIME_SYSCALL_STATUS_ENOSYS)
  end.

Definition sys_service_request (args : runtime_syscall_args) ops s : system X * Z :=
  with_handle RUNTIME_HANDLE_TYPE_SERVICE (arg0 args) ops s (λ handle,
    match op_service_request ops with
    | Some request => if arg2 args =? 0 then (s, RUNTIME_SYSCALL_STATUS_ENOSYS)
                      else request (h_object handle) (arg1 args) (arg2 args) s
    | None => (s, RUNTIME_SYSCALL_STATUS_ENOSYS)
    end).

Definition sys_app_launch (args : runtime_syscall_args) (current_pid : N) ops s : system X * Z :=
  match op_app_launch ops with
  | Some launch => if arg0 args =? 0 then (s, RUNTIME_SYSCALL_STATUS_ENOSYS)
                   else return_process current_pid (launch (arg0 args) s)
  | None => (s, RUNTIME_SYSCALL_STATUS_ENOSYS)
  end.

Definition sys_mailbox_create (current_pid : N) ops s : system X * Z :=
  create_object (op_mailbox_create ops) RUNTIME_HANDLE_TYPE_MAILBOX current_pid s.

Definition sys_file_open (args : runtime_syscall_args) (current_pid : N) ops s : system X * Z :=
  match op_file_ops ops ≫= fop_open with
  | None => (s, RUNTIME_SYSCALL_STATUS_ENOSYS)
  | Some open =>
      let '(s1, (object, status)) := open (arg0 args) (arg1 args) s in
      if (status <? 0)%Z then (s1, status)
      else
        let '(s2, handle_id) := alloc current_pid RUNTIME_HANDLE_TYPE_FILE object s1 in
        if handle_id =? 0
        then match op_file_ops ops ≫= fop_close with
             | Some close => let '(s3, _) := close object s2 in
                             (s3, RUNTIME_SYSCALL_STATUS_ENOSPC)
             | None => (s2, RUNTIME_SYSCALL_STATUS_ENOSPC)
             end
        else (s2, i32 handle_id)
  end.

(** A file operation behind a file handle; [guard] is an additional
    condition for [ENOSYS]. *)
Definition file_call {A} (args : runtime_syscall_args) ops
    (op : runtime_syscall_file_ops X → option A) (guard : bool)
    (call : A → N → callback X Z) s : system X * Z :=
  with_handle RUNTIME_HANDLE_TYPE_FILE (arg0 args) ops s (λ handle,
    match op_file_ops ops ≫= op with
    | Some f => if guard then (s, RUNTIME_SYSCALL_STATUS_ENOSYS) else call f (h_object handle) s
    | None => (s, RUNTIME_SYSCALL_STATUS_ENOSYS)
    end).

Definition sys_file_read (args : runtime_syscall_args) ops s : system X * Z :=
  file_call args ops fop_read false (λ read object, read object (arg1 args) (arg2 args)) s.
Definition sys_file_write (args : runtime_syscall_args) ops s : system X * Z :=
  file_call args ops fop_write false (λ write object, write object (arg1 args) (arg2 args)) s.

Definition sys_event_signal (args : runtime_syscall_args) ops s : system X * Z :=
  with_handle RUNTIME_HANDLE_TYPE_EVENT (arg0 args) ops s (λ handle,
    match op_event_signal ops with
    | None => (s, RUNTIME_SYSCALL_STATUS_ENOSYS)
    | Some signal => let '(s', n) := signal (h_object handle) s in (s', i32 n)
    end).

(** Sending to or receiving from a mailbox. *)
Definition mailbox_call (args : runtime_syscall_args) ops
    (op : option (N → N → callback X bool)) s : system X * Z :=
  with_handle RUNTIME_HANDLE_TYPE_MAILBOX (arg0 args) ops s (λ handle,
    match op with
    | None => (s, RUNTIME_SYSCALL_STATUS_ENOSYS)
    | Some f =>
        let '(s', ok) := f (h_object handle) (arg1 args) s in
        (s', if (ok : bool) then RUNTIME_SYSCALL_STATUS_OK else RUNTIME_SYSCALL_STATUS_EBUSY)
    end).

Definition sys_mailbox_send (args : runtime_syscall_args) ops s : system X * Z :=
  mailbox_call args ops (op_mailbox_send ops) s.
Definition sys_mailbox_receive (args : runtime_syscall_args) ops s : system X * Z :=
  mailbox_call args ops (op_mailbox_receive ops) s.

Definition sys_handle_dup (args : runtime_syscall_args) ops s : system X * Z :=
  match runtime_syscall_lookup_handle (sys_table s) (arg0 args) with
  | None => (s, RUNTIME_SYSCALL_STATUS_EBADF)
  | Some handle =>
      let status := runtime_syscall_check_handle_access handle ops s in
      if negb (bool_decide (status = RUNTIME_SYSCALL_STATUS_OK)) then (s, status)
      else return_handle (alloc (h_owner_pid handle) (h_type handle) (h_object handle) s)
  end.

(** The entry copied to the caller's buffer comes with the result. *)
Definition sys_handle_info (args : runtime_syscall_args) ops s
  : option runtime_handle_info * Z :=
  match runtime_syscall_lookup_handle (sys_table s) (arg0 args) with
  | None => (None, RUNTIME_SYSCALL_STATUS_EBADF)
  | Some handle =>
      if arg1 args =? 0 then (None, RUNTIME_SYSCALL_STATUS_EBADF)
      else
        let status := runtime_syscall_check_handle_access handle ops s in
        if negb (bool_decide (status = RUNTIME_SYSCALL_STATUS_OK)) then (None, status)
        else (Some handle, RUNTIME_SYSCALL_STATUS_OK)
  end.

Definition sys_file_stat (args : runtime_syscall_args) ops s : system X * Z :=
  file_call args ops fop_stat (arg1 args =? 0) (λ stat object, stat object (arg1 args)) s.

Definition sys_mkdir (args : runtime_syscall_args) ops s : system X * Z :=
  match op_fs_mkdir ops with
  | None => (s, RUNTIME_SYSCALL_STATUS_ENOSYS)
  | Some mkdir => mkdir (arg0 args) (arg1 args) s
  end.

Definition sys_file_readdir (args : runtime_syscall_args) ops s : system X * Z :=
  file_call args ops fop_readdir (arg1 args =? 0) (λ readdir object, readdir object (arg1 args)) s.
Definition sys_file_seek (args : runtime_syscall_args) ops s : system X * Z :=
  file_call args ops fop_seek false (λ seek object, seek object (i32 (arg1 args)) (arg2 args)) s.

Definition sys_file_remove (args : runtime_syscall_args) ops s : system X * Z :=
  match op_file_ops ops ≫= fop_remove with
  | Some remove => if arg0 args =? 0 then (s, RUNTIME_SYSCALL_STATUS_ENOSYS)
                   else remove (arg0 args) s
  | None => (s, RUNTIME_SYSCALL_STATUS_ENOSYS)
  end.

Definition sys_file_rename (args : runtime_syscall_args) ops s : system X * Z :=
  match op_file_ops ops ≫= fop_rename with
  | Some rename => if (arg0 args =? 0) || (arg1 args =? 0)
                   then (s, RUNTIME_SYSCALL_STATUS_ENOSYS)
                   else rename (arg0 args) (arg1 args) s
  | None => (s, RUNTIME_SYSCALL_STATUS_ENOSYS)
  end.

(** ** The dispatcher *)

Definition dispatch_known (syscall_number : N) (args : runtime_syscall_args) (current_pid : N)
    ops s : system X * option runtime_handle_info * Z :=
  let plain (r : system X * Z) := (r.1, None, r.2) in
  match syscall_number with
  | 0 => plain (sys_getpid ops s)
  | 1 => plain (sys_sleep args ops s)
  | 2 => plain (sys_kill args ops s)
  | 3 => plain (sys_handle_close args ops s)
  | 4 => plain (sys_process_self current_pid ops s)
  | 5 => plain (sys_event_create current_pid ops s)
  | 6 => plain (sys_mailbox_create current_pid ops s)
  | 7 => plain (sys_file_open args current_pid ops s)
  | 8 => plain (sys_file_read args ops s)
  | 9 => plain (sys_file_write args ops s)
  | 10 => plain (sys_event_signal args ops s)
  | 11 => plain (sys_mailbox_send args ops s)
  | 12 => plain (sys_mailbox_receive args ops s)
  | 13 => plain (sys_handle_dup args ops s)
  | 14 => let '(info, status) := sys_handle_info args ops s in (s, info, status)
  | 15 => plain (sys_file_stat args ops s)
  | 16 => plain (sys_mkdir args ops s)
  | 17 => plain (sys_file_readdir args ops s)
  | 18 => plain (sys_file_seek args ops s)
  | 19 => plain (sys_file_remove args ops s)
  | 20 => plain (sys_file_rename args ops s)
  | 21 => plain (sys_process_spawn args current_pid ops s)
  | 22 => plain (sys_process_spawnable_count ops s)
  | 23 => plain (sys_process_spawnable_info args ops s)
  | 24 => plain (sys_service_count ops s)
  | 25 => plain (sys_service_info args ops s)
  | 26 => plain (sys_service_open args current_pid ops s)
  | 27 => plain (sys_service_request args ops s)
  | 28 => plain (sys_app_count ops s)
  | 29 => plain (sys_app_info args ops s)
  | 30 => plain (sys_app_launch args current_pid ops s)
  | 31 => plain (sys_process_info args ops s)
  | 32 => plain (sys_process_terminate args ops s)
  | _ => (s, None, RUNTIME_SYSCALL_STATUS_ENOSYS)
  end.

(** Result: the state, the entry stored by [HANDLE_INFO], and the status. *)
Definition runtime_syscall_dispatch (syscall_number : N) (args : option runtime_syscall_args)
    (ops : option (runtime_syscall_ops X)) s : system X * option runtime_handle_info * Z :=
  match args, ops with
  | Some args, Some ops =>
      let current_pid := match op_process_current_pid ops with
                         | Some current => current s | None => 0 end in
      dispatch_known syscall_number args current_pid ops s
  | _, _ => (s, None, RUNTIME_SYSCALL_STATUS_EINVAL)
  end.

(** The body of the loop of [runtime_syscall_release_owner_handles]. *)
Definition release_step (owner_pid : N) ops (acc : system X * N) (index : N) : system X * N :=
  let '(s, released) := acc in
  match t ← sys_table s; aget t index with
  | None => (s, released)
  | Some handle =>
      if (h_type handle =? RUNTIME_HANDLE_TYPE_NONE) || negb (h_owner_pid handle =? owner_pid)
      then (s, released)
      else
        let '(s', status) := runtime_syscall_close_handle index handle ops s false in
        (s', if bool_decide (status = RUNTIME_SYSCALL_STATUS_OK) then released + 1 else released)
  end.

Definition handle_indices : list N := N.of_nat <$> seq 0 16.

Definition runtime_syscall_release_owner_handles (owner_pid : N)
    (ops : option (runtime_syscall_ops X)) s : system X * N :=
  match sys_table s, ops with
  | Some _, Some ops =>
      if owner_pid =? 0 then (s, 0)
      else foldl (release_step owner_pid ops) (s, 0) handle_indices
  | _, _ => (s, 0)
  end.
End dispatch.

Definition runtime_syscall_table_init : handle_table := replicate 16 cleared_handle.

Definition runtime_syscall_query_handle (table : option handle_table) (handle : N) (info : bool)
  : option runtime_handle_info * bool :=
  match runtime_syscall_lookup_handle table handle with
  | Some entry => if info then (Some entry, true) else (None, false)
  | None => (None, false)
  end.

Definition runtime_syscall_status_name (status : Z) : string :=
  match status with
  | 0 => "ok" | -2 => "enoent" | -3 => "esrch" | -9 => "ebadf" | -13 => "eacces"
  | -12 => "enomem" | -17 => "eexist" | -16 => "ebusy" | -20 => "enotdir" | -21 => "eisdir"
  | -22 => "einval" | -28 => "enospc" | -39 => "enotempty" | -38 => "enosys" | -95 => "enotsup"
  | _ => "unknown"
  end%Z.
