(* ===== verification/RuntimeSyscallProofs.v ===== *)
(** * Properties of the system-call layer

    Ownership of handles, the table invariant across calls whose callbacks
    keep it, the reference counting of closes, and the release of a process's
    handles when it ends. *)

From S2P Require Import Prelude RuntimeFs RuntimeSyscall.

Local Open Scope N_scope.

(** ** The table invariant *)

Definition entry_wf (i : N) (h : runtime_handle_info) : Prop :=
  h = cleared_handle ∨ (1 ≤ h_type h ≤ 5 ∧ h_handle h = i + 1).

Record table_wf (t : handle_table) : Prop := {
  table_length : length t = 16%nat;
  table_entry : ∀ i h, aget t i = Some h → entry_wf i h
}.

Definition system_wf {X} (s : system X) : Prop := ∃ t, sys_table s = Some t ∧ table_wf t.

Lemma lookup_handle_Some t id h :
  runtime_syscall_lookup_handle (Some t) id = Some h ↔
  1 ≤ id ≤ 16 ∧ aget t (id - 1) = Some h ∧ h_type h ≠ RUNTIME_HANDLE_TYPE_NONE.
Proof.
  unfold runtime_syscall_lookup_handle, RUNTIME_SYSCALL_MAX_HANDLES.
  destruct (N.eqb_spec id 0), (N.ltb_spec 16 id); simpl; try (split; [done|lia]).
  destruct (aget t (id - 1)) as [h'|]; [|naive_solver].
  destruct (N.eqb_spec (h_type h') RUNTIME_HANDLE_TYPE_NONE); naive_solver lia.
Qed.

Lemma alloc_handle_cases t owner type object :
  table_wf t →
  (runtime_syscall_alloc_handle (Some t) owner type object = (Some t, 0) ∧
     ∀ i h, aget t i = Some h → h_type h ≠ RUNTIME_HANDLE_TYPE_NONE) ∨
  (∃ i h, runtime_syscall_alloc_handle (Some t) owner type object =
       (Some (aupd t i (λ _, HandleInfo (i + 1) owner type object)), i + 1) ∧
     i < 16 ∧ aget t i = Some h ∧ h_type h = RUNTIME_HANDLE_TYPE_NONE).
Proof.
  intros [Hl _]. unfold runtime_syscall_alloc_handle. destruct (find_idx _ _) as [i|] eqn:Hi.
  - right. apply find_idx_Some in Hi as (h & Hh & Ht & _). bools. exists i, h.
    apply aget_Some_lt in Hh as Hlt. rewrite Hl in Hlt. split_and!; [done|lia|done|done].
  - left. split; [done|]. rewrite find_idx_None in Hi. intros i h Hh. specialize (Hi i h Hh). by bools.
Qed.

Lemma table_wf_clear t i : table_wf t → table_wf (aupd t i (λ _, cleared_handle)).
Proof.
  intros [Hl He]. split; [by rewrite length_aupd|]. intros j h. rewrite aget_aupd.
  case_decide; [|by apply He]. intros (h' & _ & ->)%fmap_Some. by left.
Qed.

Lemma table_wf_set t i owner type object :
  table_wf t → 1 ≤ type ≤ 5 → table_wf (aupd t i (λ _, HandleInfo (i + 1) owner type object)).
Proof.
  intros [Hl He] Ht. split; [by rewrite length_aupd|]. intros j h. rewrite aget_aupd.
  case_decide as Hij; [|by apply He]. intros (h' & _ & ->)%fmap_Some. subst. by right.
Qed.

Lemma system_wf_clear {X} (s : system X) i : system_wf s → system_wf (clear_at i s).
Proof.
  intros (t & Ht & Hwf). unfold clear_at. rewrite Ht. eexists. split; [done|]. by apply table_wf_clear.
Qed.

Lemma system_wf_alloc {X} (s : system X) owner type object :
  system_wf s → 1 ≤ type ≤ 5 → system_wf (alloc owner type object s).1.
Proof.
  intros (t & Ht & Hwf) Hty. unfold alloc. rewrite Ht.
  destruct (alloc_handle_cases t owner type object Hwf) as [[-> _]|(i & h & -> & _)]; cbn.
  - by exists t.
  - eexists. split; [done|]. by apply table_wf_set.
Qed.

(** ** What the dispatcher needs of the operations behind it *)

Definition preserves {X R} (P : system X → Prop) (f : callback X R) : Prop :=
  ∀ s, P s → P (f s).1.

(** The contract of the callbacks: each keeps [P]. *)
Class OpsPreserve {X} (P : system X → Prop) (ops : runtime_syscall_ops X) : Prop := {
  pres_sleep f n : op_process_sleep ops = Some f → preserves P (f n);
  pres_kill f n z : op_process_kill ops = Some f → preserves P (f n z);
  pres_info f n p : op_process_info ops = Some f → preserves P (f n p);
  pres_spawn f k r : op_process_spawn_named ops = Some f → preserves P (f k r);
  pres_spawnable_count f : op_process_spawnable_count ops = Some f → preserves P f;
  pres_spawnable_info f n p : op_process_spawnable_info ops = Some f → preserves P (f n p);
  pres_service_count f : op_service_count ops = Some f → preserves P f;
  pres_service_info f n p : op_service_info ops = Some f → preserves P (f n p);
  pres_service_open f k : op_service_open ops = Some f → preserves P (f k);
  pres_service_close f o : op_service_close ops = Some f → preserves P (f o);
  pres_service_request f o r p : op_service_request ops = Some f → preserves P (f o r p);
  pres_app_count f : op_app_count ops = Some f → preserves P f;
  pres_app_info f n p : op_app_info ops = Some f → preserves P (f n p);
  pres_app_launch f k : op_app_launch ops = Some f → preserves P (f k);
  pres_event_create f : op_event_create ops = Some f → preserves P f;
  pres_event_destroy f o : op_event_destroy ops = Some f → preserves P (f o);
  pres_event_signal f o : op_event_signal ops = Some f → preserves P (f o);
  pres_mailbox_create f : op_mailbox_create ops = Some f → preserves P f;
  pres_mailbox_destroy f o : op_mailbox_destroy ops = Some f → preserves P (f o);
  pres_mailbox_send f o m : op_mailbox_send ops = Some f → preserves P (f o m);
  pres_mailbox_receive f o p : op_mailbox_receive ops = Some f → preserves P (f o p);
  pres_mkdir f p m : op_fs_mkdir ops = Some f → preserves P (f p m);
  pres_open f p g : op_file_ops ops ≫= fop_open = Some f → preserves P (f p g);
  pres_read f o b n : op_file_ops ops ≫= fop_read = Some f → preserves P (f o b n);
  pres_write f o b n : op_file_ops ops ≫= fop_write = Some f → preserves P (f o b n);
  pres_close f o : op_file_ops ops ≫= fop_close = Some f → preserves P (f o);
  pres_stat f o p : op_file_ops ops ≫= fop_stat = Some f → preserves P (f o p);
  pres_readdir f o p : op_file_ops ops ≫= fop_readdir = Some f → preserves P (f o p);
  pres_seek f o z w : op_file_ops ops ≫= fop_seek = Some f → preserves P (f o z w);
  pres_remove f p : op_file_ops ops ≫= fop_remove = Some f → preserves P (f p);
  pres_rename f p q : op_file_ops ops ≫= fop_rename = Some f → preserves P (f p q)
}.

Section preservation.
Context {X : Type} (ops : runtime_syscall_ops X) `{!OpsPreserve system_wf ops}.
Implicit Types s : system X.

Lemma call_wf {R} (f : callback X R) (k : system X → R → system X * Z) s :
  preserves system_wf f → (∀ s' r, system_wf s' → system_wf (k s' r).1) → system_wf s →
  system_wf (let '(s', r) := f s in k s' r).1.
Proof. intros Hf Hk Hs. specialize (Hf s Hs). destruct (f s) as [s' r]. by apply Hk. Qed.

Lemma return_handle_wf (r : system X * N) : system_wf r.1 → system_wf (return_handle r).1.
Proof. destruct r as [s n]. unfold return_handle. by case_if. Qed.

Lemma with_handle_wf type id s k :
  system_wf s → (∀ h, system_wf (k h).1) → system_wf (with_handle type id ops s k).1.
Proof.
  intros Hs Hk. unfold with_handle. destruct (runtime_syscall_lookup_handle _ _); [|done].
  case_if; [done|]. cbv zeta. by case_if.
Qed.

Lemma close_handle_wf i h s b :
  system_wf s → system_wf (runtime_syscall_close_handle i h ops s b).1.
Proof.
  intros Hs. unfold runtime_syscall_close_handle. cbv zeta.
  do 2 (case_if; [solve [done | by apply system_wf_clear]|]).
  do 2 (case_if; [solve [done | by apply system_wf_clear]|]).
  assert (∀ f, (∀ d o, f = Some d → preserves system_wf (d o)) →
            system_wf (close_destroyed f i h s).1) as Hd.
  { intros [d|] Hd; [|done]. apply call_wf; [by apply (Hd d)| |done]. intros s' [] Hs'; [|done].
    by apply system_wf_clear. }
  case_if; [apply Hd; intros d o; apply pres_event_destroy|].
  case_if; [apply Hd; intros d o; apply pres_mailbox_destroy|].
  case_if.
  - unfold close_file. destruct (op_file_ops ops ≫= fop_close) eqn:Hc; [|done].
    apply call_wf; [by eapply pres_close| |done]. intros s' z Hs'. case_if; [done|].
    by apply system_wf_clear.
  - unfold close_service. destruct (op_service_close ops) eqn:Hc; [|by apply system_wf_clear].
    apply call_wf; [by eapply pres_service_close| |done]. intros s' z Hs'. case_if; [done|].
    by apply system_wf_clear.
Qed.

Lemma create_object_wf f type pid s :
  (∀ g, f = Some g → preserves system_wf g) → 1 ≤ type ≤ 5 → system_wf s →
  system_wf (create_object f type pid s).1.
Proof.
  intros Hf Ht Hs. unfold create_object. destruct f as [g|]; [|done].
  apply call_wf; [by apply Hf| |done]. intros s1 o Hs1.
  pose proof (system_wf_alloc s1 pid type o Hs1 Ht) as Hw. destruct (alloc pid type o s1) as [s2 id].
  case_if; [done|]. case_if; [by apply system_wf_clear|done].
Qed.

Lemma return_process_wf pid (r : system X * N) :
  system_wf r.1 → system_wf (return_process pid r).1.
Proof.
  destruct r as [s n]. unfold return_process. case_if; [done|]. intros Hs.
  apply return_handle_wf, system_wf_alloc; [done|]. unfold RUNTIME_HANDLE_TYPE_PROCESS. lia.
Qed.

(** Opening a file or a service and closing it again when the table is full. *)
Lemma open_object_wf (f : callback X (N * Z)) (close : option (N → callback X Z)) type pid s :
  preserves system_wf f → (∀ g o, close = Some g → preserves system_wf (g o)) → 1 ≤ type ≤ 5 →
  system_wf s →
  system_wf (let '(s1, (object, status)) := f s in
    if (status <? 0)%Z then (s1, status)
    else
      let '(s2, handle_id) := alloc pid type object s1 in
      if handle_id =? 0
      then match close with
           | Some g => let '(s3, _) := g object s2 in (s3, RUNTIME_SYSCALL_STATUS_ENOSPC)
           | None => (s2, RUNTIME_SYSCALL_STATUS_ENOSPC)
           end
      else (s2, i32 handle_id)).1.
Proof.
  intros Hf Hc Ht Hs. specialize (Hf s Hs). destruct (f s) as [s1 [o z]]. case_if; [done|].
  pose proof (system_wf_alloc s1 pid type o Hf Ht) as Hw. destruct (alloc pid type o s1) as [s2 id].
  case_if; [|done]. destruct close as [g|]; [|done]. apply call_wf; [by apply Hc|done|done].
Qed.

Lemma kill_wf pid code s : system_wf s → system_wf (kill pid code ops s).1.
Proof.
  intros Hs. unfold kill. destruct (op_process_kill ops) eqn:Hk; [|done].
  apply call_wf; [by eapply pres_kill|done|done].
Qed.

Lemma file_call_wf {A} args (op : runtime_syscall_file_ops X → option A) guard call s :
  (∀ f o, op_file_ops ops ≫= op = Some f → preserves system_wf (call f o)) →
  system_wf s → system_wf (file_call args ops op guard call s).1.
Proof.
  intros Hf Hs. unfold file_call. apply with_handle_wf; [done|]. intros h.
  destruct (op_file_ops ops ≫= op) as [f|] eqn:Ho; [|done]. destruct guard; [done|].
  by apply Hf.
Qed.

Lemma handle_dup_wf args s : system_wf s → system_wf (sys_handle_dup args ops s).1.
Proof.
  intros Hs. unfold sys_handle_dup. pose proof Hs as (t & Ht & Hwf). rewrite Ht.
  destruct (runtime_syscall_lookup_handle (Some t) (arg0 args)) as [h|] eqn:Hh; [|done].
  cbv zeta. case_if; [done|]. apply return_handle_wf, system_wf_alloc; [done|].
  apply lookup_handle_Some in Hh as (_ & Hh & Hty).
  destruct (table_entry _ Hwf _ _ Hh) as [->|[? _]]; done.
Qed.

(** A callback that the call runs as its last step. *)
Lemma tail_call_wf {A} (f : option A) (call : A → callback X Z) (guard : bool) status s :
  (∀ g, f = Some g → preserves system_wf (call g)) → system_wf s →
  system_wf (match f with
             | Some g => if guard then (s, status) else call g s
             | None => (s, status)
             end).1.
Proof. intros Hf Hs. destruct f as [g|]; [|done]. destruct guard; [done|]. by apply Hf. Qed.

Lemma count_wf f s : (∀ g, f = Some g → preserves system_wf g) → system_wf s → system_wf (count f s).1.
Proof. intros Hf Hs. destruct f as [g|]; [|done]. apply call_wf; [by apply Hf|done|done]. Qed.

Lemma process_call_wf pid {A} (f : option A) (call : A → callback X N) (guard : bool) s :
  (∀ g, f = Some g → preserves system_wf (call g)) → system_wf s →
  system_wf (match f with
             | Some g => if guard then (s, RUNTIME_SYSCALL_STATUS_ENOSYS)
                         else return_process pid (call g s)
             | None => (s, RUNTIME_SYSCALL_STATUS_ENOSYS)
             end).1.
Proof.
  intros Hf Hs. destruct f as [g|]; [|done]. destruct guard; [done|].
  apply return_process_wf. by apply Hf.
Qed.

Lemma simple_calls_wf args pid s :
  system_wf s →
  Forall (λ r : system X * Z, system_wf r.1)
    [sys_getpid ops s; sys_sleep args ops s; sys_handle_close args ops s;
     sys_process_self pid ops s; sys_event_signal args ops s;
     sys_mailbox_send args ops s; sys_mailbox_receive args ops s; sys_mkdir args ops s].
Proof.
  intros Hs. rewrite !Forall_cons. split_and!; [..|by apply Forall_nil].
  - unfold sys_getpid. by destruct (op_process_current_pid ops).
  - unfold sys_sleep. destruct (op_process_sleep ops) eqn:H; [|done].
    apply call_wf; [by eapply pres_sleep|done|done].
  - unfold sys_handle_close. destruct (runtime_syscall_lookup_handle _ _); [|done].
    by apply close_handle_wf.
  - unfold sys_process_self. destruct (op_process_current_pid ops); [|done].
    apply return_handle_wf, system_wf_alloc; [done|]. unfold RUNTIME_HANDLE_TYPE_PROCESS. lia.
  - apply with_handle_wf; [done|]. intros h. destruct (op_event_signal ops) eqn:H; [|done].
    apply call_wf; [by eapply pres_event_signal|done|done].
  - apply with_handle_wf; [done|]. intros h. destruct (op_mailbox_send ops) eqn:H; [|done].
    apply call_wf; [by eapply pres_mailbox_send|done|done].
  - apply with_handle_wf; [done|]. intros h. destruct (op_mailbox_receive ops) eqn:H; [|done].
    apply call_wf; [by eapply pres_mailbox_receive|done|done].
  - unfold sys_mkdir. destruct (op_fs_mkdir ops) eqn:H; [|done]. by eapply pres_mkdir.
Qed.

Lemma object_calls_wf args pid s :
  system_wf s →
  Forall (λ r : system X * Z, system_wf r.1)
    [sys_event_create pid ops s; sys_mailbox_create pid ops s; sys_file_open args pid ops s;
     sys_service_open args pid ops s; sys_process_spawn args pid ops s;
     sys_app_launch args pid ops s].
Proof.
  intros Hs. rewrite !Forall_cons. split_and!; [..|by apply Forall_nil].
  - apply create_object_wf; [apply pres_event_create|done|done].
  - apply create_object_wf; [apply pres_mailbox_create|done|done].
  - unfold sys_file_open. destruct (op_file_ops ops ≫= fop_open) eqn:H; [|done].
    apply open_object_wf; [by eapply pres_open|intros; by eapply pres_close|done|done].
  - unfold sys_service_open. destruct (op_service_open ops) eqn:H; [|done]. case_if; [done|].
    apply open_object_wf; [by eapply pres_service_open|intros; by eapply pres_service_close|done|done].
  - apply (process_call_wf pid _ (λ g, g (arg0 args) (arg1 args))); [|done].
    intros g. apply pres_spawn.
  - apply (process_call_wf pid _ (λ g, g (arg0 args))); [|done]. intros g. apply pres_app_launch.
Qed.

Lemma info_calls_wf args s :
  system_wf s →
  Forall (λ r : system X * Z, system_wf r.1)
    [sys_process_spawnable_count ops s; sys_service_count ops s; sys_app_count ops s;
     sys_process_spawnable_info args ops s; sys_service_info args ops s; sys_app_info args ops s;
     sys_process_info args ops s; sys_service_request args ops s;
     sys_file_remove args ops s; sys_file_rename args ops s].
Proof.
  intros Hs. rewrite !Forall_cons. split_and!; [..|by apply Forall_nil].
  - apply count_wf; [apply pres_spawnable_count|done].
  - apply count_wf; [apply pres_service_count|done].
  - apply count_wf; [apply pres_app_count|done].
  - apply (tail_call_wf _ (λ g, g (arg0 args) (arg1 args))); [intros g; apply pres_spawnable_info|done].
  - apply (tail_call_wf _ (λ g, g (arg0 args) (arg1 args))); [intros g; apply pres_service_info|done].
  - apply (tail_call_wf _ (λ g, g (arg0 args) (arg1 args))); [intros g; apply pres_app_info|done].
  - apply with_handle_wf; [done|]. intros h.
    apply (tail_call_wf _ (λ g, g (h_object h) (arg1 args))); [intros g; apply pres_info|done].
  - apply with_handle_wf; [done|]. intros h.
    apply (tail_call_wf _ (λ g, g (h_object h) (arg1 args) (arg2 args)));
      [intros g; apply pres_service_request|done].
  - apply (tail_call_wf _ (λ g, g (arg0 args))); [intros g; apply pres_remove|done].
  - apply (tail_call_wf _ (λ g, g (arg0 args) (arg1 args))); [intros g; apply pres_rename|done].
Qed.

Lemma file_calls_wf args s :
  system_wf s →
  Forall (λ r : system X * Z, system_wf r.1)
    [sys_file_read args ops s; sys_file_write args ops s; sys_file_stat args ops s;
     sys_file_readdir args ops s; sys_file_seek args ops s].
Proof.
  intros Hs. rewrite !Forall_cons. split_and!; [..|by apply Forall_nil];
    apply file_call_wf; try done; intros f o.
  - apply pres_read.
  - apply pres_write.
  - apply pres_stat.
  - apply pres_readdir.
  - apply pres_seek.
Qed.

Lemma dispatch_wf n args s :
  system_wf s → system_wf (runtime_syscall_dispatch n args (Some ops) s).1.1.
Proof.
  intros Hs. unfold runtime_syscall_dispatch. destruct args as [args|]; [|done]. cbv zeta.
  match goal with |- context [dispatch_known _ _ ?p] => generalize p as pid; intros pid end.
  pose proof (simple_calls_wf args pid s Hs) as H1. pose proof (object_calls_wf args pid s Hs) as H2.
  pose proof (info_calls_wf args s Hs) as H3. pose proof (file_calls_wf args s Hs) as H4.
  repeat match goal with H : Forall _ (_ :: _) |- _ => apply Forall_cons in H as [? H] end.
  unfold dispatch_known.
  repeat case_match; simplify_eq/=; try done; try tauto; try (by apply kill_wf).
  - by apply handle_dup_wf.
  - by apply with_handle_wf; [|intros h; apply kill_wf].
Qed.
End preservation.

(** ** Runs of calls *)

Fixpoint run_calls {X} (ops : runtime_syscall_ops X) (s : system X)
    (calls : list (N * runtime_syscall_args)) : system X :=
  match calls with
  | [] => s
  | (n, args) :: calls' =>
      run_calls ops (runtime_syscall_dispatch n (Some args) (Some ops) s).1.1 calls'
  end.

Lemma init_table_wf : table_wf runtime_syscall_table_init.
Proof.
  split; [done|]. intros i h Hh. left. lookups. unfold runtime_syscall_table_init in Hh.
  by apply list_elem_of_lookup_2, elem_of_replicate_inv in Hh.
Qed.

Lemma run_calls_wf {X} (ops : runtime_syscall_ops X) `{!OpsPreserve system_wf ops} s calls :
  system_wf s → system_wf (run_calls ops s calls).
Proof.
  revert s. induction calls as [|[n args] calls IH]; intros s Hs; [done|]. apply IH.
  by apply dispatch_wf.
Qed.

(** ** Ownership *)

Lemma check_access_denied {X} (ops : runtime_syscall_ops X) s h current :
  op_process_current_pid ops = Some current → h_owner_pid h ≠ 0 → h_owner_pid h ≠ current s →
  runtime_syscall_check_handle_access h ops s = RUNTIME_SYSCALL_STATUS_EBADF.
Proof.
  intros Hc Hn Ho. unfold runtime_syscall_check_handle_access. rewrite Hc.
  apply nz_true in Hn. rewrite Hn. by destruct (N.eqb_spec (h_owner_pid h) (current s)).
Qed.

Lemma with_handle_denied {X} (ops : runtime_syscall_ops X) type id s h current k :
  op_process_current_pid ops = Some current → runtime_syscall_lookup_handle (sys_table s) id = Some h →
  h_owner_pid h ≠ 0 → h_owner_pid h ≠ current s →
  with_handle type id ops s k = (s, RUNTIME_SYSCALL_STATUS_EBADF).
Proof.
  intros Hc Hl Hn Ho. unfold with_handle. rewrite Hl. case_if; [done|].
  by rewrite (check_access_denied ops s h current).
Qed.

(** The calls that take a handle. *)
Definition handle_calls : list N := [3; 8; 9; 10; 11; 12; 13; 14; 15; 17; 18; 27; 31; 32].

(** C36: a handle admits only its owner: every call that takes a handle, made
    by a process other than the one that owns the handle, returns [EBADF],
    stores nothing and changes nothing, and no callback runs. *)
Theorem foreign_handle_rejected {X} (ops : runtime_syscall_ops X) current n args s h :
  n ∈ handle_calls → op_process_current_pid ops = Some current →
  runtime_syscall_lookup_handle (sys_table s) (arg0 args) = Some h →
  h_owner_pid h ≠ 0 → h_owner_pid h ≠ current s →
  runtime_syscall_dispatch n (Some args) (Some ops) s = (s, None, RUNTIME_SYSCALL_STATUS_EBADF).
Proof.
  intros Hn Hc Hl Ho Hne.
  pose proof (λ type k, with_handle_denied ops type _ s h current k Hc Hl Ho Hne) as Hw.
  pose proof (check_access_denied ops s h current Hc Ho Hne) as Ha.
  unfold handle_calls in Hn. rewrite !elem_of_cons, elem_of_nil in Hn.
  unfold runtime_syscall_dispatch, dispatch_known.
  destruct_or? Hn; subst n; try done; cbv beta zeta iota;
    unfold sys_handle_close, sys_handle_dup, sys_handle_info, sys_file_read, sys_file_write,
      sys_event_signal, sys_mailbox_send, sys_mailbox_receive, mailbox_call, sys_file_stat,
      sys_file_readdir, sys_file_seek, sys_service_request, sys_process_info,
      sys_process_terminate, file_call; rewrite ?Hw, ?Hl; try done.
  - unfold runtime_syscall_close_handle. rewrite Ha. done.
  - rewrite Ha. done.
  - case_if; [done|]. rewrite Ha. done.
Qed.

(** ** Closing *)

Lemma lookup_clear_ne {X} (s : system X) t id id' :
  sys_table s = Some t → 1 ≤ id → id' ≠ id →
  runtime_syscall_lookup_handle (sys_table (clear_at (id - 1) s)) id' =
  runtime_syscall_lookup_handle (Some t) id'.
Proof.
  intros Ht H1 Hne. unfold clear_at. rewrite Ht. cbn. unfold runtime_syscall_lookup_handle.
  destruct (N.eqb_spec id' 0); [done|]. cbn. case_if; [done|]. rewrite aget_aupd_ne by lia. done.
Qed.

Lemma lookup_clear_eq {X} (s : system X) t id :
  sys_table s = Some t → runtime_syscall_lookup_handle (sys_table (clear_at (id - 1) s)) id = None.
Proof.
  intros Ht. unfold clear_at. rewrite Ht. cbn. unfold runtime_syscall_lookup_handle. case_if; [done|].
  rewrite aget_aupd_eq. by destruct (aget t (id - 1)).
Qed.

Lemma access_ok {X} (ops : runtime_syscall_ops X) s h current :
  op_process_current_pid ops = Some current → h_owner_pid h = current s →
  runtime_syscall_check_handle_access h ops s = RUNTIME_SYSCALL_STATUS_OK.
Proof.
  intros Hc Ho. unfold runtime_syscall_check_handle_access. rewrite Hc, Ho, N.eqb_refl.
  by rewrite andb_false_r.
Qed.

Lemma close_alias {X} (ops : runtime_syscall_ops X) s t id h current b :
  op_process_current_pid ops = Some current → sys_table s = Some t → table_wf t →
  runtime_syscall_lookup_handle (Some t) id = Some h → h_owner_pid h = current s →
  h_type h = RUNTIME_HANDLE_TYPE_PROCESS ∨ 1 < count_if (same_object h) t →
  runtime_syscall_close_handle (id - 1) h ops s b = (clear_at (id - 1) s, RUNTIME_SYSCALL_STATUS_OK).
Proof.
  intros Hc Ht Hwf (Hb & Hh & Hty)%lookup_handle_Some Ho Hal.
  unfold runtime_syscall_close_handle. rewrite (access_ok ops s h current Hc Ho).
  replace (if b then RUNTIME_SYSCALL_STATUS_OK else RUNTIME_SYSCALL_STATUS_OK)
    with RUNTIME_SYSCALL_STATUS_OK by (by destruct b).
  rewrite bool_decide_true by done. cbn [negb]. rewrite Ht. cbn [runtime_syscall_handle_alias_count].
  destruct (N.eqb_spec (h_type h) RUNTIME_HANDLE_TYPE_PROCESS) as [|Hnp]; [done|].
  destruct Hal as [|Hal]; [done|]. destruct (table_entry _ Hwf _ _ Hh) as [->|[Hr _]]; [done|].
  unfold RUNTIME_HANDLE_TYPE_PROCESS in Hnp.
  destruct (N.leb_spec 2 (h_type h)); [|lia]. destruct (N.leb_spec (h_type h) 5); [|lia].
  destruct (N.ltb_spec 1 (count_if (same_object h) t)); [done|lia].
Qed.

(** Closing counts references: while the table holds another handle of
    the same owner to the same object, closing frees only the slot and runs
    no callback; closing the last handle of an event runs its destructor
    exactly once, and keeps the handle when the destructor reports that the
    event is in use. *)
Theorem handle_close_counts_references {X} (ops : runtime_syscall_ops X) s t args h current :
  op_process_current_pid ops = Some current → sys_table s = Some t → table_wf t →
  runtime_syscall_lookup_handle (Some t) (arg0 args) = Some h → h_owner_pid h = current s →
  (1 < count_if (same_object h) t →
     runtime_syscall_dispatch 3 (Some args) (Some ops) s =
       (clear_at (arg0 args - 1) s, None, RUNTIME_SYSCALL_STATUS_OK)) ∧
  (count_if (same_object h) t ≤ 1 → h_type h = RUNTIME_HANDLE_TYPE_EVENT → ∀ destroy,
     op_event_destroy ops = Some destroy →
     runtime_syscall_dispatch 3 (Some args) (Some ops) s =
       let '(s', destroyed) := destroy (h_object h) s in
       if destroyed then (clear_at (arg0 args - 1) s', None, RUNTIME_SYSCALL_STATUS_OK)
       else (s', None, RUNTIME_SYSCALL_STATUS_EBUSY)) ∧
  ∀ id, id ≠ arg0 args →
    runtime_syscall_lookup_handle (sys_table (clear_at (arg0 args - 1) s)) id =
    runtime_syscall_lookup_handle (Some t) id.
Proof.
  intros Hc Ht Hwf Hl Ho. split_and!.
  - intros Hal. unfold runtime_syscall_dispatch, dispatch_known, sys_handle_close. rewrite Ht, Hl.
    rewrite (close_alias ops s t (arg0 args) h current true Hc Ht Hwf Hl Ho) by auto. done.
  - intros Hal Hty destroy Hd.
    unfold runtime_syscall_dispatch, dispatch_known, sys_handle_close. rewrite Ht, Hl.
    unfold runtime_syscall_close_handle. rewrite (access_ok ops s h current Hc Ho).
    rewrite bool_decide_true by done. cbn [negb]. rewrite Ht. cbn [runtime_syscall_handle_alias_count].
    rewrite Hty. cbn. destruct (N.ltb_spec 1 (count_if (same_object h) t)); [lia|].
    unfold close_destroyed. rewrite Hd. by destruct (destroy (h_object h) s) as [s' []].
  - intros id Hne. apply lookup_handle_Some in Hl as (Hb & _). by apply lookup_clear_ne; [|lia|].
Qed.

(** ** Duplicating *)

Lemma count_if_aupd {A} (f : A → bool) l i x y :
  aget l i = Some x →
  count_if f (aupd l i (λ _, y)) + (if f x then 1 else 0) = count_if f l + (if f y then 1 else 0).
Proof.
  unfold aupd. rewrite aget_lookup. generalize (N.to_nat i). clear i.
  induction l as [|z l IH]; intros i Hi; [done|]. destruct i as [|i]; csimpl in *; [simplify_eq; lia|].
  specialize (IH i Hi). lia.
Qed.

(** [HANDLE_DUP] makes a second reference: the new handle has the owner,
    type and object of the old one, closing the old handle afterwards runs no
    callback, and the new handle still refers to the object. *)
Theorem handle_dup_makes_reference {X} (ops : runtime_syscall_ops X) s t args h current i0 :
  op_process_current_pid ops = Some current → sys_table s = Some t → table_wf t →
  runtime_syscall_lookup_handle (Some t) (arg0 args) = Some h → h_owner_pid h = current s →
  (∀ t', current (set_table t' s) = current s) → aget t i0 = Some cleared_handle →
  ∃ s1 id, runtime_syscall_dispatch 13 (Some args) (Some ops) s = (s1, None, Z.of_N id) ∧
    sys_context s1 = sys_context s ∧ id ≠ arg0 args ∧
    runtime_syscall_lookup_handle (sys_table s1) id =
      Some (HandleInfo id (h_owner_pid h) (h_type h) (h_object h)) ∧
    runtime_syscall_dispatch 3 (Some args) (Some ops) s1 =
      (clear_at (arg0 args - 1) s1, None, RUNTIME_SYSCALL_STATUS_OK) ∧
    runtime_syscall_lookup_handle (sys_table (clear_at (arg0 args - 1) s1)) id =
      Some (HandleInfo id (h_owner_pid h) (h_type h) (h_object h)).
Proof.
  intros Hc Ht Hwf Hl Ho Hcur Hfree. pose proof Hl as (Hb & Hh & Hty)%lookup_handle_Some.
  assert (1 ≤ h_type h ≤ 5) as Hrange.
  { destruct (table_entry _ Hwf _ _ Hh) as [->|[? _]]; [done|done]. }
  destruct (alloc_handle_cases t (h_owner_pid h) (h_type h) (h_object h) Hwf)
    as [[_ Hfull]|(i & h0 & Halloc & Hi & Hi0 & Hnone)].
  { exfalso. by apply (Hfull i0 cleared_handle). }
  set (h' := HandleInfo (i + 1) (h_owner_pid h) (h_type h) (h_object h)) in *.
  set (t1 := aupd t i (λ _, h')) in *. set (s1 := set_table (Some t1) s).
  assert (i ≠ arg0 args - 1) as Hne by (intros ->; congruence).
  assert (table_wf t1) as Hwf1 by (by apply table_wf_set).
  assert (runtime_syscall_lookup_handle (Some t1) (arg0 args) = Some h) as Hl1.
  { apply lookup_handle_Some. unfold t1. by rewrite aget_aupd_ne. }
  assert (runtime_syscall_lookup_handle (Some t1) (i + 1) = Some h') as Hnew.
  { apply lookup_handle_Some. unfold t1. replace (i + 1 - 1) with i by lia.
    rewrite aget_aupd_eq, Hi0. split_and!; [lia|lia|done|done]. }
  assert (1 < count_if (same_object h) t1) as Hal.
  { pose proof (count_if_aupd (same_object h) t i h0 h' Hi0) as Hcount. fold t1 in Hcount.
    assert (same_object h h' = true) as Hs' by (unfold same_object; simpl; by rewrite !N.eqb_refl).
    assert (same_object h h0 = false) as Hs0.
    { unfold same_object. rewrite Hnone. by destruct (N.eqb_spec RUNTIME_HANDLE_TYPE_NONE (h_type h)). }
    rewrite Hs', Hs0 in Hcount.
    assert (count_if (same_object h) t ≠ 0) as Hpos; [|lia].
    rewrite count_if_zero. intros Hz. rewrite aget_lookup in Hh. apply list_elem_of_lookup_2 in Hh.
    specialize (Hz h Hh). unfold same_object in Hz. by rewrite !N.eqb_refl in Hz. }
  assert (h_owner_pid h = current s1) as Ho1 by (by rewrite Ho; symmetry; apply Hcur).
  exists s1, (i + 1). split_and!.
  - unfold runtime_syscall_dispatch, dispatch_known, sys_handle_dup. rewrite Ht, Hl.
    rewrite (access_ok ops s h current Hc Ho), bool_decide_true by done. cbn [negb].
    unfold alloc. rewrite Ht, Halloc. unfold return_handle.
    destruct (N.eqb_spec (i + 1) 0); [lia|]. by rewrite i32_small by lia.
  - done.
  - lia.
  - done.
  - unfold runtime_syscall_dispatch, dispatch_known, sys_handle_close.
    change (sys_table s1) with (Some t1). rewrite Hl1.
    rewrite (close_alias ops s1 t1 (arg0 args) h current true Hc eq_refl Hwf1 Hl1 Ho1) by auto. done.
  - rewrite (lookup_clear_ne s1 t1); [done|done|lia|lia].
Qed.

(** ** Releasing the handles of a process *)

(** The destructors succeed and leave the handle table alone. *)
Class CloseSucceeds {X} (ops : runtime_syscall_ops X) : Prop := {
  cs_event : ∃ f, op_event_destroy ops = Some f ∧
    ∀ o s, (f o s).2 = true ∧ sys_table (f o s).1 = sys_table s;
  cs_mailbox : ∃ f, op_mailbox_destroy ops = Some f ∧
    ∀ o s, (f o s).2 = true ∧ sys_table (f o s).1 = sys_table s;
  cs_file : ∃ f : N → callback X Z, op_file_ops ops ≫= fop_close = Some f ∧
    ∀ o s, (0 ≤ (f o s).2)%Z ∧ sys_table (f o s).1 = sys_table s;
  cs_service f o s : op_service_close ops = Some f →
    (0 ≤ (f o s).2)%Z ∧ sys_table (f o s).1 = sys_table s
}.

Definition owned_by (pid : N) (h : runtime_handle_info) : bool :=
  negb (h_type h =? RUNTIME_HANDLE_TYPE_NONE) && (h_owner_pid h =? pid).

Lemma close_handle_succeeds {X} (ops : runtime_syscall_ops X) `{!CloseSucceeds ops} i h s t :
  sys_table s = Some t → 1 ≤ h_type h ≤ 5 →
  ∃ s', runtime_syscall_close_handle i h ops s false = (s', RUNTIME_SYSCALL_STATUS_OK) ∧
    sys_table s' = Some (aupd t i (λ _, cleared_handle)).
Proof.
  intros Ht Hty. unfold runtime_syscall_close_handle. rewrite bool_decide_true by done. cbn [negb].
  assert (∀ s' : system X, sys_table s' = sys_table s →
            sys_table (clear_at i s') = Some (aupd t i (λ _, cleared_handle))) as Hclear.
  { intros s' Hs'. unfold clear_at. by rewrite Hs', Ht. }
  assert (∀ s' : system X, sys_table s' = sys_table s → ∃ s'',
            (clear_at i s', RUNTIME_SYSCALL_STATUS_OK) = (s'', RUNTIME_SYSCALL_STATUS_OK) ∧
            sys_table s'' = Some (aupd t i (λ _, cleared_handle))) as Hdone by eauto.
  destruct (N.eqb_spec (h_type h) RUNTIME_HANDLE_TYPE_PROCESS) as [|Hnp]; [by apply Hdone|].
  unfold RUNTIME_HANDLE_TYPE_PROCESS in Hnp.
  destruct (N.leb_spec 2 (h_type h)); [|lia]. destruct (N.leb_spec (h_type h) 5); [cbn [negb andb]|lia].
  case_if; [by apply Hdone|]. unfold close_destroyed, close_file, close_service.
  case_if.
  { destruct cs_event as (f & -> & Hf). destruct (Hf (h_object h) s) as [Hok Htab].
    destruct (f (h_object h) s) as [s' r]. simpl in *. subst r. by apply Hdone. }
  case_if.
  { destruct cs_mailbox as (f & -> & Hf). destruct (Hf (h_object h) s) as [Hok Htab].
    destruct (f (h_object h) s) as [s' r]. simpl in *. subst r. by apply Hdone. }
  case_if.
  { destruct cs_file as (f & -> & Hf). destruct (Hf (h_object h) s) as [Hok Htab].
    destruct (f (h_object h) s) as [s' r]. simpl in *. destruct (Z.ltb_spec r 0); [lia|]. by apply Hdone. }
  destruct (op_service_close ops) as [f|] eqn:Hf; [|by apply Hdone].
  destruct (cs_service f (h_object h) s Hf) as [Hok Htab].
  destruct (f (h_object h) s) as [s' r]. simpl in *. destruct (Z.ltb_spec r 0); [lia|]. by apply Hdone.
Qed.

Definition release_entry (pid : N) (h : runtime_handle_info) : runtime_handle_info :=
  if owned_by pid h then cleared_handle else h.

Lemma release_step_spec {X} (ops : runtime_syscall_ops X) `{!CloseSucceeds ops} pid s t r i h :
  sys_table s = Some t → table_wf t → aget t i = Some h →
  ∃ s' t', release_step pid ops (s, r) i = (s', r + if owned_by pid h then 1 else 0) ∧
    sys_table s' = Some t' ∧ table_wf t' ∧
    ∀ j, aget t' j = if decide (i = j) then release_entry pid <$> aget t j else aget t j.
Proof.
  intros Ht Hwf Hh. unfold release_step. rewrite Ht. cbind. rewrite Hh.
  destruct (owned_by pid h) eqn:Hown; unfold owned_by in Hown.
  - bools. destruct (N.eqb_spec (h_type h) RUNTIME_HANDLE_TYPE_NONE) as [|Hn]; [done|].
    destruct (N.eqb_spec (h_owner_pid h) pid) as [Hp|]; [cbn [negb orb]|done].
    assert (1 ≤ h_type h ≤ 5) as Hty by (destruct (table_entry _ Hwf _ _ Hh) as [->|[? _]]; done).
    destruct (close_handle_succeeds ops i h s t Ht Hty) as (s' & -> & Hs').
    rewrite bool_decide_true by done. eexists s', _. split_and!; [done|done|by apply table_wf_clear|].
    intros j. rewrite aget_aupd. case_decide as Hij; [subst|done]. rewrite Hh. csimpl.
    unfold release_entry, owned_by.
    destruct (N.eqb_spec (h_type h) RUNTIME_HANDLE_TYPE_NONE); [done|]. by rewrite N.eqb_refl.
  - exists s, t. rewrite N.add_0_r. split_and!; [|done|done|].
    + destruct (h_type h =? RUNTIME_HANDLE_TYPE_NONE); [done|]. simpl in *. by rewrite Hown.
    + intros j. case_decide; [subst|done]. rewrite Hh. csimpl. unfold release_entry, owned_by.
      by rewrite Hown.
Qed.

Lemma release_loop_spec {X} (ops : runtime_syscall_ops X) `{!CloseSucceeds ops} pid k m s t r :
  sys_table s = Some t → table_wf t → (k + m ≤ 16)%nat →
  ∃ s' t', foldl (release_step pid ops) (s, r) (N.of_nat <$> seq k m) =
      (s', r + count_if (owned_by pid) (take m (drop k t))) ∧
    sys_table s' = Some t' ∧
    ∀ j, aget t' j = if decide (N.of_nat k ≤ j ∧ j < N.of_nat (k + m))
                     then release_entry pid <$> aget t j else aget t j.
Proof.
  revert k s t r. induction m as [|m IH]; intros k s t r Ht Hwf Hkm.
  - exists s, t. simpl. rewrite N.add_0_r. split_and!; [done|done|]. intros j. by rewrite decide_False by lia.
  - destruct (aget_is_Some t (N.of_nat k)) as [h Hh]; [rewrite (table_length _ Hwf); lia|].
    destruct (release_step_spec ops pid s t r (N.of_nat k) h Ht Hwf Hh)
      as (s1 & t1 & Hstep & Ht1 & Hwf1 & Hget1).
    change (N.of_nat <$> seq k (S m)) with (N.of_nat k :: (N.of_nat <$> seq (S k) m)).
    cbn [foldl]. rewrite Hstep.
    destruct (IH (S k) s1 t1 (r + if owned_by pid h then 1 else 0) Ht1 Hwf1 ltac:(lia))
      as (s2 & t2 & Hloop & Ht2 & Hget2).
    exists s2, t2. split_and!; [|done|].
    + rewrite Hloop. f_equal. rewrite <-N.add_assoc. f_equal.
      rewrite aget_lookup, Nat2N.id in Hh. rewrite (drop_S t h k) by done. simpl. f_equal. f_equal.
      f_equal. apply list_eq. intros i. rewrite !lookup_drop.
      pose proof (Hget1 (N.of_nat (S k + i))) as Hi. rewrite decide_False in Hi by lia.
      rewrite !aget_lookup, Nat2N.id in Hi. done.
    + intros j. rewrite Hget2, Hget1. repeat case_decide; try lia; try done.
Qed.

(** C35: when a process ends, releasing its handles empties exactly the slots
    it owns, aliases included, leaves every other slot untouched and returns
    the number of handles released, provided the destructors succeed and do
    not touch the handle table. *)
Theorem release_owner_handles_complete {X} (ops : runtime_syscall_ops X) `{!CloseSucceeds ops}
    pid s t :
  sys_table s = Some t → table_wf t → pid ≠ 0 →
  ∃ s', runtime_syscall_release_owner_handles pid (Some ops) s =
      (s', count_if (owned_by pid) t) ∧
    sys_table s' = Some (release_entry pid <$> t) ∧
    ∀ id h, runtime_syscall_lookup_handle (sys_table s') id = Some h → h_owner_pid h ≠ pid.
Proof.
  intros Ht Hwf Hpid. unfold runtime_syscall_release_owner_handles. rewrite Ht.
  destruct (N.eqb_spec pid 0); [done|].
  destruct (release_loop_spec ops pid 0 16 s t 0 Ht Hwf ltac:(lia)) as (s' & t' & Hloop & Ht' & Hget).
  assert (t' = release_entry pid <$> t) as ->.
  { apply list_eq. intros i. rewrite list_lookup_fmap. specialize (Hget (N.of_nat i)).
    rewrite !aget_lookup, Nat2N.id in Hget. rewrite Hget. case_decide; [done|].
    rewrite (lookup_ge_None_2 t i); [done|]. rewrite (table_length _ Hwf). lia. }
  exists s'. split_and!; [|done|].
  - unfold handle_indices. rewrite Hloop. f_equal. rewrite N.add_0_l. f_equal. rewrite drop_0.
    apply take_ge. rewrite (table_length _ Hwf). lia.
  - intros id h. rewrite Ht'. intros (_ & Hh & Hty)%lookup_handle_Some Ho.
    rewrite aget_lookup, list_lookup_fmap in Hh. apply fmap_Some in Hh as (h0 & _ & ->).
    unfold release_entry in *. destruct (owned_by pid h0) eqn:Hown; [done|]. unfold owned_by in Hown.
    destruct (N.eqb_spec (h_type h0) RUNTIME_HANDLE_TYPE_NONE); [done|].
    by destruct (N.eqb_spec (h_owner_pid h0) pid).
Qed.

(** Over any sequence of system calls, starting from an initialised
    table, the handle table keeps its shape: every slot is free and zeroed or
    holds one of the five types under its own handle number, provided the
    operations behind the calls keep it. *)
Theorem handle_table_stays_wf {X} (ops : runtime_syscall_ops X) `{!OpsPreserve system_wf ops}
    (context : X) calls :
  system_wf (run_calls ops (System (Some runtime_syscall_table_init) context) calls).
Proof.
  apply run_calls_wf; [done|]. exists runtime_syscall_table_init. split; [done|apply init_table_wf].
Qed.

(** With a full handle table, [EVENT_CREATE] (like [MAILBOX_CREATE])
    creates the object first and then returns [ENOSPC]: no handle refers to
    the new object and no destructor is called, so the object is lost. *)
Theorem create_on_full_table_leaks {X} (ops : runtime_syscall_ops X) create args s t :
  op_event_create ops = Some create → (∀ h, h ∈ t → h_type h ≠ RUNTIME_HANDLE_TYPE_NONE) →
  sys_table (create s).1 = Some t →
  runtime_syscall_dispatch 5 (Some args) (Some ops) s =
    ((create s).1, None, RUNTIME_SYSCALL_STATUS_ENOSPC).
Proof.
  intros Hc Hfull Ht. unfold runtime_syscall_dispatch, dispatch_known, sys_event_create, create_object.
  rewrite Hc. destruct (create s) as [s1 o]. simpl in Ht. unfold alloc. rewrite Ht.
  unfold runtime_syscall_alloc_handle. destruct (find_idx _ t) as [i|] eqn:Hi.
  - exfalso. apply find_idx_Some in Hi as (h & Hh & Hty & _). bools. rewrite aget_lookup in Hh.
    apply list_elem_of_lookup_2 in Hh. by apply (Hfull h).
  - cbn. unfold set_table. rewrite <-Ht. by destruct s1.
Qed.

(** * Concrete runs of the system-call layer

    Callbacks that log the objects they destroy, and the theorems of
    [RuntimeSyscallProofs] applied to them. *)

(** The context is the log of destroyed objects; process 1 is running and a
    new event or mailbox is object 7. *)
Abbreviation log := (list N).

Definition log_object {R} (r : R) (o : N) : callback log R :=
  λ s, (System (sys_table s) (o :: sys_context s), r).

Definition demo_file_ops : runtime_syscall_file_ops log :=
  FileOps (Some (λ _ _ s, (s, (3, 0%Z)))) None None (Some (log_object 0%Z)) None None None None None.

Definition demo_ops : runtime_syscall_ops log :=
  Ops (Some (λ _, 1)) None None None None None None None None None None None None None None
    (Some (λ s, (s, 7))) (Some (log_object true)) None (Some (λ s, (s, 7)))
    (Some (log_object true)) None None None (Some demo_file_ops).

#[export] Instance demo_ops_preserve : OpsPreserve system_wf demo_ops.
Proof.
  split; simpl; try done; intros; simplify_eq/=; intros s Hs; try exact Hs;
    by destruct Hs as (t & ? & ?); exists t.
Qed.

#[export] Instance demo_close_succeeds : CloseSucceeds demo_ops.
Proof.
  split.
  - exists (log_object true). by split.
  - exists (log_object true). by split.
  - exists (log_object 0%Z). by split.
  - done.
Qed.

Definition call (n a0 a1 : N) : N * runtime_syscall_args := (n, Args a0 a1 0 0).

(** Process 1 creates an event, duplicates its handle and opens a file. *)
Definition demo_calls : list (N * runtime_syscall_args) := [call 5 0 0; call 13 1 0; call 7 1 1].
Definition demo_state : system log :=
  run_calls demo_ops (System (Some runtime_syscall_table_init) []) demo_calls.
Definition demo_table : handle_table := default [] (sys_table demo_state).

Lemma handle_table_stays_wf_witness : system_wf demo_state.
Proof. apply (handle_table_stays_wf demo_ops [] demo_calls). Defined.

Lemma demo_table_wf : table_wf demo_table.
Proof.
  destruct (run_calls_wf demo_ops (System (Some runtime_syscall_table_init) []) demo_calls)
    as (t & Ht & Hwf).
  { exists runtime_syscall_table_init. split; [done|apply init_table_wf]. }
  unfold demo_table, demo_state. by rewrite Ht.
Qed.

Definition other_pid_ops : runtime_syscall_ops log :=
  Ops (Some (λ _, 2)) None None None None None None None None None None None None None None
    None (Some (log_object true)) None None None None None None None.

Lemma foreign_handle_rejected_witness :
  runtime_syscall_dispatch 3 (Some (Args 1 0 0 0)) (Some other_pid_ops) demo_state =
    (demo_state, None, RUNTIME_SYSCALL_STATUS_EBADF).
Proof.
  apply (foreign_handle_rejected other_pid_ops (λ _, 2) 3 (Args 1 0 0 0) demo_state
           (HandleInfo 1 1 RUNTIME_HANDLE_TYPE_EVENT 7)); [by left|done|vm_compute; reflexivity|done|done].
Defined.

Lemma handle_close_counts_references_witness :
  runtime_syscall_dispatch 3 (Some (Args 1 0 0 0)) (Some demo_ops) demo_state =
    (clear_at 0 demo_state, None, RUNTIME_SYSCALL_STATUS_OK).
Proof.
  destruct (handle_close_counts_references demo_ops demo_state demo_table (Args 1 0 0 0)
              (HandleInfo 1 1 RUNTIME_HANDLE_TYPE_EVENT 7) (λ _, 1) eq_refl) as [H _];
    [vm_compute; reflexivity|apply demo_table_wf|vm_compute; reflexivity|reflexivity|].
  apply H. vm_compute. reflexivity.
Defined.

Lemma handle_dup_makes_reference_witness :
  ∃ s1 id, runtime_syscall_dispatch 13 (Some (Args 3 0 0 0)) (Some demo_ops) demo_state =
             (s1, None, Z.of_N id) ∧
    runtime_syscall_dispatch 3 (Some (Args 3 0 0 0)) (Some demo_ops) s1 =
      (clear_at 2 s1, None, RUNTIME_SYSCALL_STATUS_OK).
Proof.
  destruct (handle_dup_makes_reference demo_ops demo_state demo_table (Args 3 0 0 0)
              (HandleInfo 3 1 RUNTIME_HANDLE_TYPE_FILE 3) (λ _, 1) 5 eq_refl)
    as (s1 & id & Hdup & _ & _ & _ & Hclose & _);
    [vm_compute; reflexivity|apply demo_table_wf|vm_compute; reflexivity|reflexivity|
     reflexivity|vm_compute; reflexivity|].
  exists s1, id. split; [exact Hdup|exact Hclose].
Defined.

Lemma release_owner_handles_complete_witness :
  ∃ s', runtime_syscall_release_owner_handles 1 (Some demo_ops) demo_state = (s', 3).
Proof.
  destruct (release_owner_handles_complete demo_ops 1 demo_state demo_table)
    as (s' & H & _); [vm_compute; reflexivity|apply demo_table_wf|done|].
  exists s'. exact H.
Defined.

Definition full_table : handle_table :=
  imap (λ i _, HandleInfo (N.of_nat i + 1) 1 RUNTIME_HANDLE_TYPE_EVENT (N.of_nat i + 20))
    (replicate 16 tt).

Lemma create_on_full_table_leaks_witness :
  runtime_syscall_dispatch 5 (Some (Args 0 0 0 0)) (Some demo_ops) (System (Some full_table) []) =
    (System (Some full_table) [], None, RUNTIME_SYSCALL_STATUS_ENOSPC).
Proof.
  apply (create_on_full_table_leaks demo_ops (λ s, (s, 7)) (Args 0 0 0 0)
           (System (Some full_table) []) full_table); [reflexivity| |reflexivity].
  intros h Hh. apply list_elem_of_lookup in Hh as [i Hi]. unfold full_table in Hi.
  rewrite list_lookup_imap in Hi. apply fmap_Some in Hi as (? & _ & ->). done.
Defined.
