(* ===== verification/Kmem.v ===== *)
(** * The kernel heap ([kernel/kmem.c])

    The arena's block list.  A block is its header: [k_addr] is the offset of
    the header in the arena, its payload is the [k_size] bytes after the
    twelve bytes of the header.  The [next] pointers are the order of the
    list.  A pointer handed out is the offset of a payload; NULL is [None]. *)

From S2P Require Import Prelude.

Local Open Scope N_scope.

Definition KMEM_ALIGNMENT : N := 8.
Definition KMEM_ARENA_SIZE : N := 4096.
(** [sizeof(struct kmem_block)] on the 32-bit target. *)
Definition SIZEOF_BLOCK : N := 12.

Record kmem_block := Block { k_addr : N; k_size : N; k_used : N }.

Record kmem := Kmem {
  k_blocks : list kmem_block;
  k_initialized : N;
  k_bytes_in_use : N;
  k_peak_bytes_in_use : N;
  k_allocation_count : N;
  k_free_count : N;
  k_allocation_fail_count : N;
  k_live_allocations : N;
  k_peak_live_allocations : N
}.

Record kmem_stats := KmemStats {
  ks_arena_capacity_bytes : N;
  ks_free_bytes : N;
  ks_largest_free_block : N;
  ks_bytes_in_use : N;
  ks_peak_bytes_in_use : N;
  ks_allocation_count : N;
  ks_free_count : N;
  ks_allocation_fail_count : N;
  ks_live_allocations : N;
  ks_peak_live_allocations : N;
  ks_block_count : N;
  ks_free_block_count : N;
  ks_used_block_count : N
}.

(** The zero-initialised statics before [kmem_init]. *)
Definition kmem_reset : kmem := Kmem [] 0 0 0 0 0 0 0 0.

(** [(value + 7u) & ~7u] in 32 bits. *)
Definition kmem_align_up (value : N) : N :=
  N.land (u32 (value + (KMEM_ALIGNMENT - 1))) 4294967288.

Definition kmem_init (k : kmem) : kmem :=
  if nz (k_initialized k) then k
  else Kmem [Block 0 (KMEM_ARENA_SIZE - SIZEOF_BLOCK) 0] 1 0 0 0 0 0 0 0.

(** The block and, when it is split, the free block behind it. *)
Definition kmem_split_block (block : kmem_block) (size : N) : list kmem_block :=
  let remaining := sub32 (k_size block) size in
  if remaining <=? SIZEOF_BLOCK + KMEM_ALIGNMENT then [block]
  else [Block (k_addr block) size (k_used block);
        Block (k_addr block + SIZEOF_BLOCK + size) (remaining - SIZEOF_BLOCK) 0].

Definition is_free (block : kmem_block) : bool := k_used block =? 0.
Definition mark_used (block : kmem_block) : kmem_block := Block (k_addr block) (k_size block) 1.
Definition payload (block : kmem_block) : N := k_addr block + SIZEOF_BLOCK.

(** First fit: the new list and the block handed out. *)
Fixpoint alloc_scan (aligned_size : N) (blocks : list kmem_block)
  : option (list kmem_block * kmem_block) :=
  match blocks with
  | [] => None
  | block :: rest =>
      if is_free block && (aligned_size <=? k_size block)
      then match kmem_split_block block aligned_size with
           | first :: behind => Some (mark_used first :: behind ++ rest, mark_used first)
           | [] => None
           end
      else match alloc_scan aligned_size rest with
           | Some (rest', found) => Some (block :: rest', found)
           | None => None
           end
  end.

Definition kmem_alloc_failed (k : kmem) : kmem :=
  Kmem (k_blocks k) (k_initialized k) (k_bytes_in_use k) (k_peak_bytes_in_use k)
    (k_allocation_count k) (k_free_count k) (u32 (k_allocation_fail_count k + 1))
    (k_live_allocations k) (k_peak_live_allocations k).

Definition kmem_alloc_done (k : kmem) (blocks : list kmem_block) (size : N) : kmem :=
  let in_use := u32 (k_bytes_in_use k + size) in
  let live := u32 (k_live_allocations k + 1) in
  Kmem blocks (k_initialized k) in_use
    (if k_peak_bytes_in_use k <? in_use then in_use else k_peak_bytes_in_use k)
    (u32 (k_allocation_count k + 1)) (k_free_count k) (k_allocation_fail_count k) live
    (if k_peak_live_allocations k <? live then live else k_peak_live_allocations k).

Definition kmem_alloc (k : kmem) (size : N) : kmem * option N :=
  let k := kmem_init k in
  if size =? 0 then (kmem_alloc_failed k, None)
  else match alloc_scan (kmem_align_up size) (k_blocks k) with
       | Some (blocks, block) => (kmem_alloc_done k blocks (k_size block), Some (payload block))
       | None => (kmem_alloc_failed k, None)
       end.

(** The merging walk: [block] absorbs its free successors while it is free. *)
Fixpoint coalesce_from (block : kmem_block) (rest : list kmem_block) : list kmem_block :=
  match rest with
  | [] => [block]
  | next :: rest' =>
      if is_free block && is_free next
      then coalesce_from (Block (k_addr block) (u32 (k_size block + (SIZEOF_BLOCK + k_size next)))
                            (k_used block)) rest'
      else block :: coalesce_from next rest'
  end.

Definition kmem_coalesce (blocks : list kmem_block) : list kmem_block :=
  match blocks with
  | [] => []
  | block :: rest => coalesce_from block rest
  end.

Definition block_at (ptr : N) (block : kmem_block) : bool := payload block =? ptr.

Definition free_block (ptr : N) (block : kmem_block) : kmem_block :=
  if block_at ptr block then Block (k_addr block) (k_size block) 0 else block.

(** [None]: the pointer is not the payload of a block of the list, and the
    header the code would read is whatever memory holds there. *)
Definition kmem_free (k : kmem) (ptr : option N) : option kmem :=
  match ptr with
  | None => Some k
  | Some p =>
      match List.find (block_at p) (k_blocks k) with
      | None => None
      | Some block =>
          if is_free block then Some k
          else Some (Kmem (kmem_coalesce (free_block p <$> k_blocks k)) (k_initialized k)
                 (if k_size block <=? k_bytes_in_use k then k_bytes_in_use k - k_size block else 0)
                 (k_peak_bytes_in_use k) (k_allocation_count k) (u32 (k_free_count k + 1))
                 (k_allocation_fail_count k)
                 (if k_live_allocations k =? 0 then 0 else k_live_allocations k - 1)
                 (k_peak_live_allocations k))
      end
  end.

(** ** The counters *)

Fixpoint free_bytes_loop (total : N) (blocks : list kmem_block) : N :=
  match blocks with
  | [] => total
  | block :: rest =>
      free_bytes_loop (if is_free block then u32 (total + k_size block) else total) rest
  end.

Fixpoint largest_loop (largest : N) (blocks : list kmem_block) : N :=
  match blocks with
  | [] => largest
  | block :: rest =>
      largest_loop (if is_free block && (largest <? k_size block) then k_size block else largest) rest
  end.

Definition kmem_free_bytes (k : kmem) : kmem * N :=
  let k := kmem_init k in (k, free_bytes_loop 0 (k_blocks k)).
Definition kmem_largest_free_block (k : kmem) : kmem * N :=
  let k := kmem_init k in (k, largest_loop 0 (k_blocks k)).
Definition kmem_bytes_in_use (k : kmem) : kmem * N :=
  let k := kmem_init k in (k, k_bytes_in_use k).
Definition kmem_peak_bytes_in_use (k : kmem) : kmem * N :=
  let k := kmem_init k in (k, k_peak_bytes_in_use k).
Definition kmem_allocation_count (k : kmem) : kmem * N :=
  let k := kmem_init k in (k, k_allocation_count k).
Definition kmem_free_count (k : kmem) : kmem * N :=
  let k := kmem_init k in (k, k_free_count k).
Definition kmem_allocation_fail_count (k : kmem) : kmem * N :=
  let k := kmem_init k in (k, k_allocation_fail_count k).
Definition kmem_live_allocations (k : kmem) : kmem * N :=
  let k := kmem_init k in (k, k_live_allocations k).
Definition kmem_peak_live_allocations (k : kmem) : kmem * N :=
  let k := kmem_init k in (k, k_peak_live_allocations k).

Definition kmem_stats_snapshot (k : kmem) (stats : bool) : kmem * option kmem_stats :=
  let k := kmem_init k in
  if negb stats then (k, None)
  else (k, Some (KmemStats (KMEM_ARENA_SIZE - SIZEOF_BLOCK) (free_bytes_loop 0 (k_blocks k))
              (largest_loop 0 (k_blocks k)) (k_bytes_in_use k) (k_peak_bytes_in_use k)
              (k_allocation_count k) (k_free_count k) (k_allocation_fail_count k)
              (k_live_allocations k) (k_peak_live_allocations k)
              (u32 (N.of_nat (length (k_blocks k)))) (count_if is_free (k_blocks k))
              (count_if (λ b, negb (is_free b)) (k_blocks k)))).

Example demo_alloc : snd (kmem_alloc kmem_reset 10) = Some 12.
Proof. vm_compute. reflexivity. Qed.
Example demo_alloc_blocks :
  k_blocks (fst (kmem_alloc kmem_reset 10)) = [Block 0 16 1; Block 28 4056 0].
Proof. vm_compute. reflexivity. Qed.
Example demo_alloc_free :
  (k_blocks <$> kmem_free (fst (kmem_alloc kmem_reset 10)) (Some 12)) = Some [Block 0 4084 0].
Proof. vm_compute. reflexivity. Qed.
