(* ===== verification/KmemProofs.v ===== *)
(** * Correctness of the kernel heap

    The invariant [kmem_ok]: the blocks tile the arena, no two free blocks
    are adjacent, and the counters agree with the blocks.  Allocation and
    release keep it and act on the set of live payloads as an allocator
    should; a release directly after an allocation restores the heap. *)

From S2P Require Import Prelude Kmem.

Local Open Scope N_scope.

(** ** The invariant *)

(** The blocks cover the bytes from [a] to [c] without gaps. *)
Fixpoint tiles (a : N) (l : list kmem_block) (c : N) : Prop :=
  match l with
  | [] => a = c
  | b :: l' => k_addr b = a ∧ tiles (a + SIZEOF_BLOCK + k_size b) l' c
  end.

Fixpoint separated (l : list kmem_block) : Prop :=
  match l with
  | b1 :: (b2 :: _) as l' => ¬ (is_free b1 = true ∧ is_free b2 = true) ∧ separated l'
  | _ => True
  end.

Fixpoint used_bytes (l : list kmem_block) : N :=
  match l with
  | [] => 0
  | b :: l' => (if is_free b then 0 else k_size b) + used_bytes l'
  end.

Definition in_use (b : kmem_block) : bool := negb (is_free b).

Record kmem_ok (k : kmem) : Prop := {
  ok_init : k_initialized k ≠ 0;
  ok_tiles : tiles 0 (k_blocks k) KMEM_ARENA_SIZE;
  ok_separated : separated (k_blocks k);
  ok_bytes : k_bytes_in_use k = used_bytes (k_blocks k);
  ok_live : k_live_allocations k = count_if in_use (k_blocks k)
}.

(** The allocation of [size] bytes at [p] is live. *)
Definition live (k : kmem) (p size : N) : Prop :=
  ∃ b, b ∈ k_blocks k ∧ is_free b = false ∧ payload b = p ∧ k_size b = size.

(** ** Tilings *)

Lemma tiles_le a l c : tiles a l c → a ≤ c.
Proof.
  revert a. induction l as [|b l IH]; intros a; simpl; [by intros ->; lia|].
  intros [_ H%IH]. lia.
Qed.

Lemma tiles_bounds a l c b : tiles a l c → b ∈ l → a ≤ k_addr b ∧ payload b + k_size b ≤ c.
Proof.
  revert a. induction l as [|x l IH]; intros a; [by intros _ ?%elem_of_nil|].
  intros [Hx Ht] [->|Hb]%elem_of_cons.
  - apply tiles_le in Ht. unfold payload. lia.
  - specialize (IH _ Ht Hb). lia.
Qed.

(** Distinct blocks do not overlap, headers included. *)
Lemma tiles_disjoint a l c b1 b2 :
  tiles a l c → b1 ∈ l → b2 ∈ l → k_addr b1 ≠ k_addr b2 →
  payload b1 + k_size b1 ≤ k_addr b2 ∨ payload b2 + k_size b2 ≤ k_addr b1.
Proof.
  revert a. induction l as [|x l IH]; intros a; [by intros _ ?%elem_of_nil|].
  intros [Hx Ht] [->|H1]%elem_of_cons [->|H2]%elem_of_cons Hne; [done|..].
  - left. apply (tiles_bounds _ _ _ _ Ht) in H2. unfold payload. lia.
  - right. apply (tiles_bounds _ _ _ _ Ht) in H1. unfold payload. lia.
  - by eapply IH.
Qed.

(** A block is determined by its address. *)
Lemma tiles_inj a l c b1 b2 :
  tiles a l c → b1 ∈ l → b2 ∈ l → k_addr b1 = k_addr b2 → b1 = b2.
Proof.
  revert a. induction l as [|x l IH]; intros a; [by intros _ ?%elem_of_nil|].
  intros [Hx Ht] [->|H1]%elem_of_cons [->|H2]%elem_of_cons Heq; [done|..].
  - apply (tiles_bounds _ _ _ _ Ht) in H2. unfold SIZEOF_BLOCK in *. lia.
  - apply (tiles_bounds _ _ _ _ Ht) in H1. unfold SIZEOF_BLOCK in *. lia.
  - by eapply IH.
Qed.

Lemma payload_inj a l c b1 b2 :
  tiles a l c → b1 ∈ l → b2 ∈ l → payload b1 = payload b2 → b1 = b2.
Proof. intros Ht H1 H2 Hp. eapply tiles_inj; [done..|]. unfold payload in Hp. lia. Qed.

(** ** Sizes *)

Lemma align_up_spec value :
  value + 7 < 4294967296 → value ≤ kmem_align_up value ∧ kmem_align_up value < value + 8.
Proof.
  intros Hv. unfold kmem_align_up, KMEM_ALIGNMENT. rewrite u32_small by lia.
  change (8 - 1) with 7.
  assert (N.land (value + 7) 4294967288 = (value + 7) / 8 * 8) as ->.
  { apply N.bits_inj_iff. intros i. rewrite N.land_spec.
    change 8 with (2 ^ 3) at 1. change 8 with (2 ^ 3) at 1. rewrite <-N.shiftr_div_pow2.
    change (2 ^ 3) with (2 ^ 3). rewrite <-N.shiftl_mul_pow2.
    destruct (N.ltb_spec i 3) as [Hi|Hi].
    - rewrite N.shiftl_spec_low by done.
      assert (N.testbit 4294967288 i = false) as ->; [|by rewrite andb_false_r].
      assert (i = 0 ∨ i = 1 ∨ i = 2) as [-> | [-> | ->]] by lia; done.
    - rewrite N.shiftl_spec_high' by lia. rewrite N.shiftr_spec'.
      replace (i - 3 + 3) with i by lia. destruct (N.ltb_spec i 32) as [Hi32|Hi32].
      + assert (N.testbit 4294967288 i = true) as ->; [|by rewrite andb_true_r].
        replace 4294967288 with (N.shiftl (N.ones 29) 3) by done.
        rewrite N.shiftl_spec_high' by lia. apply N.ones_spec_low. lia.
      + assert (N.testbit (value + 7) i = false) as ->; [|done].
        apply N.bits_above_log2.
        apply N.log2_lt_pow2; [lia|]. apply (N.lt_le_trans _ (2 ^ 32)); [lia|].
        apply N.pow_le_mono_r; lia. }
  pose proof (N.div_mod (value + 7) 8 ltac:(lia)) as Hd.
  pose proof (N.mod_lt (value + 7) 8 ltac:(lia)) as Hm.
  remember ((value + 7) / 8) as q. remember ((value + 7) mod 8) as r. clear Heqq Heqr. lia.
Qed.

Lemma split_block_cases b n :
  n ≤ k_size b → k_size b < 4294967296 →
  kmem_split_block b n = [b] ∧ k_size b ≤ n + 20 ∨
  kmem_split_block b n = [Block (k_addr b) n (k_used b);
                          Block (payload b + n) (k_size b - n - SIZEOF_BLOCK) 0] ∧
    n + 20 < k_size b.
Proof.
  intros Hn Hb. unfold kmem_split_block, sub32, SIZEOF_BLOCK, KMEM_ALIGNMENT.
  assert (u32 (k_size b + 4294967296 - u32 n) = k_size b - n) as ->.
  { rewrite (u32_small n) by lia. unfold u32.
    replace (k_size b + 4294967296 - n) with (k_size b - n + 1 * 4294967296) by lia.
    rewrite N.Div0.mod_add. apply N.mod_small. lia. }
  destruct (N.leb_spec (k_size b - n) (12 + 8)); [left|right]; split; try done; lia.
Qed.

(** ** Allocation *)

(** The first block that is free and large enough is handed out, split when
    enough remains. *)
Lemma alloc_scan_Some n l l' f a c :
  tiles a l c → c < 4294967296 → alloc_scan n l = Some (l', f) →
  ∃ pre b post behind, l = pre ++ b :: post ∧ l' = pre ++ f :: behind ++ post ∧
    (∀ x, x ∈ pre → ¬ (is_free x = true ∧ n ≤ k_size x)) ∧
    is_free b = true ∧ n ≤ k_size b ∧ f = Block (k_addr b) (k_size f) 1 ∧
    (behind = [] ∧ k_size f = k_size b ∨
     behind = [Block (payload b + n) (k_size b - n - SIZEOF_BLOCK) 0] ∧ k_size f = n ∧
       n + 20 < k_size b).
Proof.
  revert a l'. induction l as [|b l IH]; intros a l' Ht Hc; [done|]. cbn [alloc_scan].
  destruct Ht as [Hb Ht].
  assert (k_size b < 4294967296) as Hsz by (apply tiles_le in Ht; unfold SIZEOF_BLOCK in Ht; lia).
  destruct (is_free b && (n <=? k_size b)) eqn:Hfit.
  - bools. destruct (split_block_cases b n) as [[-> Hs]|[-> Hs]]; [done|done|..].
    + intros [= <- <-]. exists [], b, l, []. split_and!; try done; [by intros ? ?%elem_of_nil|].
      by left.
    + intros [= <- <-]. exists [], b, l, [Block (payload b + n) (k_size b - n - SIZEOF_BLOCK) 0].
      split_and!; try done; [by intros ? ?%elem_of_nil|]. by right.
  - destruct (alloc_scan n l) as [[l1 f1]|] eqn:Hscan; [|done]. intros [= <- <-].
    destruct (IH _ l1 Ht Hc eq_refl) as (pre & x & post & behind & -> & -> & Hpre & Hx).
    exists (b :: pre), x, post, behind. split_and!; try done; try apply Hx.
    intros y [->|Hy]%elem_of_cons; [|by apply Hpre]. intros [Hf Hle]. rewrite Hf in Hfit.
    simpl in Hfit. bools. lia.
Qed.

Lemma alloc_scan_None n l :
  alloc_scan n l = None → (∀ b, b ∈ l → kmem_split_block b n ≠ []) →
  ∀ b, b ∈ l → ¬ (is_free b = true ∧ n ≤ k_size b).
Proof.
  induction l as [|x l IH]; intros H Hs b; [by intros ?%elem_of_nil|]. cbn [alloc_scan] in H.
  destruct (is_free x && (n <=? k_size x)) eqn:Hfit.
  { exfalso. specialize (Hs x ltac:(left)). by destruct (kmem_split_block x n). }
  intros [->|Hb]%elem_of_cons.
  - intros [Hf Hle]. rewrite Hf in Hfit. simpl in Hfit. bools. lia.
  - apply IH; [by destruct (alloc_scan n l) as [[]|]| |done]. intros y Hy. apply Hs. by right.
Qed.

Lemma tiles_app a l1 l2 c : tiles a (l1 ++ l2) c ↔ ∃ m, tiles a l1 m ∧ tiles m l2 c.
Proof.
  revert a. induction l1 as [|b l1 IH]; intros a; simpl.
  - split; [by exists a|]. by intros (m & -> & ?).
  - rewrite IH. naive_solver.
Qed.

Lemma used_bytes_app l1 l2 : used_bytes (l1 ++ l2) = used_bytes l1 + used_bytes l2.
Proof. induction l1 as [|b l1 IH]; simpl; [done|]. rewrite IH. lia. Qed.

Lemma count_if_app {A} (f : A → bool) l1 l2 : count_if f (l1 ++ l2) = count_if f l1 + count_if f l2.
Proof. induction l1 as [|b l1 IH]; simpl; [done|]. rewrite IH. lia. Qed.

Lemma used_bytes_le a l c : tiles a l c → used_bytes l + a ≤ c.
Proof.
  revert a. induction l as [|b l IH]; intros a; simpl; [by intros ->|].
  intros [_ H%IH]. case_if; lia.
Qed.

Lemma count_if_tiles a l c : tiles a l c → count_if in_use l * SIZEOF_BLOCK + a ≤ c.
Proof.
  revert a. unfold SIZEOF_BLOCK. induction l as [|b l IH]; intros a; simpl; [by intros ->|].
  intros [_ H%IH]. unfold SIZEOF_BLOCK in H. case_if; lia.
Qed.

Lemma separated_app_cons l1 b l2 :
  separated (l1 ++ b :: l2) ↔ separated (l1 ++ [b]) ∧ separated (b :: l2).
Proof.
  induction l1 as [|x l1 IH]; simpl.
  - destruct l2; tauto.
  - destruct l1 as [|y l1]; simpl in *; [tauto|]. rewrite IH. tauto.
Qed.

Lemma separated_used l b :
  is_free b = false → separated l → separated (l ++ [b]).
Proof.
  intros Hb. induction l as [|x l IH]; intros H; [done|]. simpl. destruct l as [|y l]; simpl in *.
  - split; [|done]. intros [_ ?]. congruence.
  - destruct H. split; [done|]. by apply IH.
Qed.

Lemma separated_prefix l b : separated (l ++ [b]) → separated l.
Proof.
  induction l as [|x l IH]; [done|]. simpl. destruct l as [|y l]; [done|]. simpl in *.
  intros [? ?]. split; [done|]. by apply IH.
Qed.

(** Replacing the free block [b] by the used block [f] and what it leaves. *)
Lemma alloc_separated pre b f behind post n :
  separated (pre ++ b :: post) → is_free b = true → is_free f = false →
  (behind = [] ∨ behind = [Block n (k_size b - k_size f - SIZEOF_BLOCK) 0]) →
  separated (pre ++ f :: behind ++ post).
Proof.
  intros [Hpre Hpost]%separated_app_cons Hb Hf Hbehind. apply separated_app_cons.
  split; [by eapply separated_used, separated_prefix|].
  destruct Hbehind as [-> | ->]; simpl.
  - destruct post as [|y post]; [done|]. simpl in Hpost. split; [|tauto]. intros [? _]. congruence.
  - split; [intros [? _]; congruence|]. destruct post as [|y post]; [done|]. simpl in Hpost.
    split; [|tauto]. intros [_ Hy]. destruct Hpost as [Hn _]. by apply Hn.
Qed.

Lemma init_ok : kmem_ok (kmem_init kmem_reset).
Proof. by split. Qed.

Lemma kmem_init_ok k : kmem_ok k → kmem_init k = k.
Proof.
  intros Hok. unfold kmem_init. destruct (nz (k_initialized k)) eqn:H; [done|]. bools.
  by destruct (ok_init _ Hok).
Qed.

Lemma failed_ok k : kmem_ok k → kmem_ok (kmem_alloc_failed k).
Proof. by intros []. Qed.

(** The effect of a successful allocation on the block list. *)
Lemma alloc_done_ok k pre b post f behind n size :
  kmem_ok k → k_blocks k = pre ++ b :: post → is_free b = true → n ≤ k_size b →
  f = Block (k_addr b) (k_size f) 1 → size = k_size f →
  (behind = [] ∧ k_size f = k_size b ∨
   behind = [Block (payload b + n) (k_size b - n - SIZEOF_BLOCK) 0] ∧ k_size f = n ∧
     n + 20 < k_size b) →
  kmem_ok (kmem_alloc_done k (pre ++ f :: behind ++ post) size).
Proof.
  intros [Hi Ht Hsep Hbytes Hlive] Heq Hb Hn Hf -> Hbehind. rewrite Heq in *.
  assert (is_free f = false) as Hff by (by rewrite Hf).
  assert (tiles 0 (pre ++ f :: behind ++ post) KMEM_ARENA_SIZE) as Htiles.
  { apply tiles_app in Ht as (m & Hpre & Haddr & Hpost). apply tiles_app. exists m.
    split; [done|]. rewrite Hf. simpl. split; [done|]. unfold SIZEOF_BLOCK, payload in *.
    destruct Hbehind as [[-> Hs]|(-> & Hs & Hbig)]; simpl; [by rewrite Hs|].
    split; [unfold SIZEOF_BLOCK; lia|].
    replace (m + 12 + k_size f + SIZEOF_BLOCK + (k_size b - n - 12)) with (m + 12 + k_size b)
      by (unfold SIZEOF_BLOCK; lia). done. }
  assert (used_bytes (pre ++ f :: behind ++ post) = used_bytes (pre ++ b :: post) + k_size f) as Hu.
  { rewrite !used_bytes_app. simpl. rewrite Hb, Hff, used_bytes_app.
    destruct Hbehind as [[-> _]|(-> & _)]; simpl; lia. }
  assert (count_if in_use (pre ++ f :: behind ++ post) = count_if in_use (pre ++ b :: post) + 1) as Hc.
  { rewrite !count_if_app. simpl. unfold in_use at 2 5. rewrite Hb, Hff, count_if_app.
    destruct Hbehind as [[-> _]|(-> & _)]; simpl; lia. }
  pose proof (used_bytes_le _ _ _ Htiles) as Hub. pose proof (count_if_tiles _ _ _ Htiles) as Hcb.
  unfold KMEM_ARENA_SIZE, SIZEOF_BLOCK in Hub, Hcb. split; simpl; [done|done| | |].
  - eapply alloc_separated; [done..|]. destruct Hbehind as [[-> _]|(-> & -> & _)]; eauto.
  - rewrite Hbytes, u32_small; lia.
  - rewrite Hlive, u32_small; lia.
Qed.

(** ** Release *)

Lemma coalesce_from_tiles b rest a c :
  c < 4294967296 → tiles a (b :: rest) c → tiles a (coalesce_from b rest) c.
Proof.
  intros Hc. revert a b. induction rest as [|x rest IH]; intros a b Ht; [done|].
  cbn [coalesce_from]. destruct Ht as (Hb & Hx & Ht). pose proof (tiles_le _ _ _ Ht) as Hle.
  unfold SIZEOF_BLOCK in *. case_if.
  - apply IH. rewrite u32_small by lia. split; [done|]. simpl.
    replace (a + SIZEOF_BLOCK + (k_size b + (12 + k_size x))) with (a + 12 + k_size b + 12 + k_size x)
      by (unfold SIZEOF_BLOCK; lia). done.
  - split; [done|]. by apply IH.
Qed.

(** Merging keeps the used blocks as they are. *)
Lemma coalesce_from_used b rest :
  filter in_use (coalesce_from b rest) = filter in_use (b :: rest).
Proof.
  revert b. induction rest as [|x rest IH]; intros b; [done|]. cbn [coalesce_from]. case_if.
  - bools. rewrite IH. rewrite !filter_cons. unfold in_use.
    match goal with |- context [is_free (Block _ ?s (k_used b))] =>
      replace (is_free (Block (k_addr b) s (k_used b))) with (is_free b) by done end.
    by rewrite H, H0.
  - rewrite (filter_cons _ b (coalesce_from x rest)), (filter_cons _ b (x :: rest)), IH. done.
Qed.

Lemma coalesce_from_head b rest :
  ∃ b' rest', coalesce_from b rest = b' :: rest' ∧ is_free b' = is_free b.
Proof.
  revert b. induction rest as [|x rest IH]; intros b; cbn [coalesce_from]; [by eexists _, _|].
  case_if; [|by eexists _, _]. destruct (IH (Block (k_addr b)
    (u32 (k_size b + (SIZEOF_BLOCK + k_size x))) (k_used b))) as (b' & rest' & -> & Hb').
  by eexists _, _.
Qed.

Lemma coalesce_from_separated b rest : separated (coalesce_from b rest).
Proof.
  revert b. induction rest as [|x rest IH]; intros b; cbn [coalesce_from]; [done|].
  case_if; [apply IH|]. specialize (IH x).
  destruct (coalesce_from_head x rest) as (x' & rest' & Heq & Hx'). rewrite Heq in *.
  split; [|done]. rewrite Hx'. intros [Hb Hx]. by rewrite Hb, Hx in Heqb0.
Qed.

Lemma used_bytes_filter l : used_bytes l = used_bytes (filter in_use l).
Proof.
  induction l as [|b l IH]; [done|]. rewrite filter_cons. simpl. case_decide as Hb; simpl.
  - by rewrite IH.
  - unfold in_use in Hb. destruct (is_free b); [done|]. by destruct Hb.
Qed.

Lemma count_in_use_filter l : count_if in_use l = N.of_nat (length (filter in_use l)).
Proof.
  induction l as [|b l IH]; [done|]. rewrite filter_cons. simpl. case_decide as Hb; simpl.
  - destruct (in_use b); [lia|done].
  - destruct (in_use b); [by destruct Hb|lia].
Qed.

Lemma kmem_coalesce_facts l c :
  c < 4294967296 → tiles 0 l c →
  tiles 0 (kmem_coalesce l) c ∧ separated (kmem_coalesce l) ∧
  filter in_use (kmem_coalesce l) = filter in_use l.
Proof.
  intros Hc Ht. destruct l as [|b rest]; [done|]. cbn [kmem_coalesce].
  split_and!; [by apply coalesce_from_tiles|apply coalesce_from_separated|apply coalesce_from_used].
Qed.

(** Clearing the [used] flag of the block at [p]. *)
Lemma free_block_app pre b post p a c :
  tiles a (pre ++ b :: post) c → payload b = p →
  free_block p <$> (pre ++ b :: post) = pre ++ Block (k_addr b) (k_size b) 0 :: post.
Proof.
  intros Ht Hp. rewrite fmap_app. csimpl.
  assert (∀ l : list kmem_block, (∀ x, x ∈ l → x ∈ pre ++ b :: post ∧ k_addr x ≠ k_addr b) →
            free_block p <$> l = l) as Hid.
  { intros l Hl. rewrite <-(list_fmap_id l) at 2. apply list_fmap_ext. intros i x Hx.
    apply list_elem_of_lookup_2 in Hx. destruct (Hl x Hx) as [_ Hne].
    unfold free_block, block_at, payload in *.
    destruct (N.eqb_spec (k_addr x + SIZEOF_BLOCK) p); [|by destruct x]. exfalso. lia. }
  apply tiles_app in Ht as (m & Hpre & Hb & Hpost). rewrite !Hid.
  - unfold free_block, block_at. rewrite (proj2 (N.eqb_eq _ _) Hp). done.
  - intros x Hx. split; [apply elem_of_app; right; by right|].
    apply (tiles_bounds _ _ _ _ Hpost) in Hx. unfold SIZEOF_BLOCK in *. lia.
  - intros x Hx. split; [apply elem_of_app; by left|].
    apply (tiles_bounds _ _ _ _ Hpre) in Hx. unfold payload, SIZEOF_BLOCK in *. lia.
Qed.

Lemma find_block_at l a c b p :
  tiles a l c → b ∈ l → payload b = p → List.find (block_at p) l = Some b.
Proof.
  intros Ht Hb Hp. destruct (List.find (block_at p) l) as [x|] eqn:Hx.
  - apply find_some in Hx as [Hin Hat]. unfold block_at in Hat. bools. f_equal.
    apply list_elem_of_In in Hin. by apply (payload_inj a l c); [..|congruence].
  - exfalso. apply list_elem_of_In in Hb. apply (find_none _ _ Hx) in Hb. unfold block_at in Hb.
    rewrite Hp, N.eqb_refl in Hb. done.
Qed.

Lemma free_effect k b pre post :
  kmem_ok k → k_blocks k = pre ++ b :: post → is_free b = false →
  ∃ k', kmem_free k (Some (payload b)) = Some k' ∧ kmem_ok k' ∧
    filter in_use (k_blocks k') = filter in_use pre ++ filter in_use post ∧
    k_blocks k' = kmem_coalesce (pre ++ Block (k_addr b) (k_size b) 0 :: post) ∧
    k_bytes_in_use k' = k_bytes_in_use k - k_size b.
Proof.
  intros Hok Heq Hb. pose proof (ok_tiles _ Hok) as Ht. rewrite Heq in Ht.
  unfold kmem_free. rewrite Heq.
  rewrite (find_block_at _ 0 KMEM_ARENA_SIZE b) by (done || apply elem_of_app; right; by left).
  rewrite Hb, (free_block_app pre b post _ 0 KMEM_ARENA_SIZE) by done.
  set (l := pre ++ Block (k_addr b) (k_size b) 0 :: post).
  assert (tiles 0 l KMEM_ARENA_SIZE) as Htl.
  { unfold l. apply tiles_app in Ht as (m & Hpre & Ha & Hpost). apply tiles_app. by exists m. }
  destruct (kmem_coalesce_facts l KMEM_ARENA_SIZE ltac:(done) Htl) as (Htc & Hsc & Hfc).
  assert (filter in_use l = filter in_use pre ++ filter in_use post) as Hfl.
  { unfold l. rewrite filter_app, filter_cons, decide_False; [done|by intros H]. }
  pose proof (ok_bytes _ Hok) as Hbytes. pose proof (ok_live _ Hok) as Hlive. rewrite Heq in *.
  rewrite used_bytes_app in Hbytes. rewrite count_if_app in Hlive. simpl in Hbytes, Hlive.
  unfold in_use in Hlive at 2. rewrite Hb in Hbytes, Hlive. simpl in Hlive.
  assert (used_bytes (kmem_coalesce l) = used_bytes pre + used_bytes post) as Hub.
  { rewrite used_bytes_filter, Hfc, Hfl, used_bytes_app, <-!used_bytes_filter. done. }
  assert (count_if in_use (kmem_coalesce l) = count_if in_use pre + count_if in_use post) as Hcb.
  { rewrite count_in_use_filter, Hfc, Hfl, length_app, Nat2N.inj_add, <-!count_in_use_filter. done. }
  eexists. split_and!; [done| |by simpl; rewrite Hfc|done|].
  - split; simpl; [apply Hok|done|done|rewrite Hub|rewrite Hcb].
    + destruct (N.leb_spec (k_size b) (k_bytes_in_use k)); lia.
    + destruct (N.eqb_spec (k_live_allocations k) 0); lia.
  - simpl. destruct (N.leb_spec (k_size b) (k_bytes_in_use k)); lia.
Qed.

(** ** The allocator contract *)

Lemma live_filter k p s :
  live k p s ↔ ∃ b, b ∈ filter in_use (k_blocks k) ∧ payload b = p ∧ k_size b = s.
Proof.
  unfold live. split; intros (b & H); exists b.
  - destruct H as (Hb & Hu & ?). split; [|done]. apply list_elem_of_filter. split; [|done].
    unfold in_use. by rewrite Hu.
  - destruct H as (Hb & ?). apply list_elem_of_filter in Hb as [Hu Hb]. split; [done|].
    split; [|done]. unfold in_use in Hu. by destruct (is_free b).
Qed.

Lemma alloc_cases k size :
  kmem_ok k → 0 < size ≤ 4294967288 →
  (∃ k' p s, kmem_alloc k size = (k', Some p) ∧ kmem_ok k' ∧ size ≤ s ∧
     (∀ q t, live k' q t ↔ live k q t ∨ (q = p ∧ t = s)) ∧ (∀ t, ¬ live k p t)) ∨
  (kmem_alloc k size = (kmem_alloc_failed k, None) ∧
     ∀ b, b ∈ k_blocks k → is_free b = true → k_size b < kmem_align_up size).
Proof.
  intros Hok Hsize. pose proof (align_up_spec size ltac:(lia)) as [Hle _].
  unfold kmem_alloc. rewrite kmem_init_ok by done. destruct (N.eqb_spec size 0); [lia|].
  destruct (alloc_scan (kmem_align_up size) (k_blocks k)) as [[l' f]|] eqn:Hscan.
  - left. destruct (alloc_scan_Some _ _ _ _ 0 _ (ok_tiles _ Hok) ltac:(done) Hscan)
      as (pre & b & post & behind & Heq & -> & _ & Hb & Hn & Hf & Hbehind).
    eexists _, _, (k_size f). split; [done|].
    assert (payload f = payload b) as Hp by (rewrite Hf; done).
    assert (∀ q t, live (kmem_alloc_done k (pre ++ f :: behind ++ post) (k_size f)) q t ↔
              live k q t ∨ q = payload f ∧ t = k_size f) as Hlive.
    { intros q t. rewrite !live_filter. unfold kmem_alloc_done. cbn [k_blocks]. rewrite Heq.
      rewrite !filter_app, !filter_cons.
      rewrite (decide_True (P := in_use f)) by (rewrite Hf; exact I).
      rewrite (decide_False (P := in_use b)) by (unfold in_use; rewrite Hb; exact id).
      assert (filter in_use (behind ++ post) = filter in_use post) as ->.
      { destruct Hbehind as [[-> _]|(-> & _)]; [done|]. by rewrite filter_app. }
      setoid_rewrite elem_of_app. setoid_rewrite elem_of_cons. naive_solver. }
    split_and!; [| |exact Hlive|].
    + eapply alloc_done_ok; [done|exact Heq|done|exact Hn|done|done|exact Hbehind].
    + destruct Hbehind as [[_ ->]|(_ & -> & _)]; lia.
    + rewrite Hp. intros t (x & Hx & Hu & Hpx & _).
      assert (x = b) as ->; [|congruence].
      apply (payload_inj 0 (k_blocks k) KMEM_ARENA_SIZE); [apply Hok|done| |done].
      rewrite Heq. apply elem_of_app. right. by left.
  - right. split; [done|]. intros b Hb Hfree.
    destruct (N.lt_ge_cases (k_size b) (kmem_align_up size)) as [|Hge]; [done|]. exfalso.
    apply (alloc_scan_None _ _ Hscan) with b; [|done|done]. intros x _.
    unfold kmem_split_block. by case_if.
Qed.

(** C17: on a heap that satisfies its invariant, an allocation of 1 to 4294967288 (2^32 - 8) bytes returns a block
    that was not live, at least as large as asked, inside the arena and
    disjoint from every live block, adds exactly that block to the live ones
    and keeps the heap invariant; it fails only when no free block is as large
    as the aligned size, and then changes nothing but the failure counter,
    which grows by one modulo 2^32.  (A larger size wraps when it is aligned,
    and a size of 0 always fails.) *)
Theorem kmem_alloc_correct k size :
  kmem_ok k → 0 < size ≤ 4294967288 →
  let '(k', r) := kmem_alloc k size in
  kmem_ok k' ∧
  match r with
  | Some p => ∃ s, size ≤ s ∧ (∀ t, ¬ live k p t) ∧
      (∀ q t, live k' q t ↔ live k q t ∨ (q = p ∧ t = s)) ∧
      SIZEOF_BLOCK ≤ p ∧ p + s ≤ KMEM_ARENA_SIZE ∧
      ∀ q t, live k q t → q + t + SIZEOF_BLOCK ≤ p ∨ p + s + SIZEOF_BLOCK ≤ q
  | None =>
      k' = Kmem (k_blocks k) (k_initialized k) (k_bytes_in_use k) (k_peak_bytes_in_use k)
             (k_allocation_count k) (k_free_count k) (u32 (k_allocation_fail_count k + 1))
             (k_live_allocations k) (k_peak_live_allocations k) ∧
      ∀ b, b ∈ k_blocks k → is_free b = true → k_size b < kmem_align_up size
  end.
Proof.
  intros Hok Hsize. destruct (alloc_cases k size Hok Hsize)
    as [(k' & p & s & -> & Hok' & Hs & Hlive & Hnew)|[-> Hsmall]].
  - split; [done|]. exists s. split_and!; [done|done|exact Hlive|..].
    all: assert (live k' p s) as (b & Hb & _ & Hpb & Hsb) by (apply Hlive; auto).
    all: pose proof (tiles_bounds _ _ _ _ (ok_tiles _ Hok') Hb) as [Ha Hend].
    all: unfold payload in *.
    + lia.
    + lia.
    + intros q t Hq. pose proof Hq as Hq'. assert (live k' q t) as (x & Hx & _ & Hpx & Hsx)
        by (apply Hlive; auto).
      destruct (decide (k_addr x = k_addr b)) as [Heq|Hne].
      { exfalso. apply (Hnew t). replace p with q by (unfold payload in *; lia). done. }
      unfold payload in *.
      destruct (tiles_disjoint _ _ _ _ _ (ok_tiles _ Hok') Hx Hb Hne); unfold payload in *; lia.
  - split; [by apply failed_ok|]. done.
Qed.

Lemma free_cases k p s :
  kmem_ok k → live k p s →
  ∃ k', kmem_free k (Some p) = Some k' ∧ kmem_ok k' ∧
    ∀ q t, live k' q t ↔ live k q t ∧ q ≠ p.
Proof.
  intros Hok (b & Hb & Hu & <- & <-). apply list_elem_of_split in Hb as (pre & post & Heq).
  destruct (free_effect k b pre post Hok Heq Hu) as (k' & Hfree & Hok' & Hf & _).
  exists k'. split_and!; [done|done|]. intros q t. rewrite !live_filter, Hf, Heq.
  rewrite filter_app, filter_cons, (decide_True (P := in_use b)) by (unfold in_use; rewrite Hu; exact I).
  pose proof (ok_tiles _ Hok) as Ht. rewrite Heq in Ht.
  apply tiles_app in Ht as (m & Hpre & Hab & Hpost).
  assert (∀ x, x ∈ filter in_use pre ++ filter in_use post → payload x ≠ payload b) as Hne.
  { intros x Hx Hp. apply elem_of_app in Hx. unfold payload in Hp.
    destruct Hx as [[_ Hx]%list_elem_of_filter|[_ Hx]%list_elem_of_filter].
    - apply (tiles_bounds _ _ _ _ Hpre) in Hx. unfold payload, SIZEOF_BLOCK in *. lia.
    - apply (tiles_bounds _ _ _ _ Hpost) in Hx. unfold SIZEOF_BLOCK in *. lia. }
  setoid_rewrite elem_of_app in Hne. setoid_rewrite elem_of_app. setoid_rewrite elem_of_cons.
  naive_solver.
Qed.

(** C37: releasing a live block always succeeds, removes exactly that block
    from the live ones and keeps the heap invariant: adjacent free blocks are
    merged again. *)
Theorem kmem_free_correct k p s :
  kmem_ok k → live k p s →
  ∃ k', kmem_free k (Some p) = Some k' ∧ kmem_ok k' ∧
    ∀ q t, live k' q t ↔ live k q t ∧ q ≠ p.
Proof. apply free_cases. Qed.

Lemma coalesce_separated b rest : separated (b :: rest) → coalesce_from b rest = b :: rest.
Proof.
  revert b. induction rest as [|x rest IH]; intros b; [done|]. cbn [coalesce_from]. intros [Hn Hs].
  case_if; [by bools; destruct Hn|]. by rewrite IH.
Qed.

Lemma coalesce_app pre b post c :
  separated (pre ++ [c]) → is_free c = is_free b →
  kmem_coalesce (pre ++ b :: post) = pre ++ coalesce_from b post.
Proof.
  intros Hs Hc. destruct pre as [|x pre]; [done|]. simpl. revert x Hs.
  induction pre as [|y pre IH]; intros x Hs; cbn [coalesce_from app].
  - simpl in Hs. case_if; [|done]. bools. exfalso. destruct Hs as [Hs _]. apply Hs. by rewrite Hc.
  - destruct Hs as [Hxy Hs]. case_if; [by bools; destruct Hxy|]. f_equal. by apply IH.
Qed.

(** Releasing a block directly after allocating it restores the block
    list and the number of bytes in use exactly. *)
Theorem alloc_free_restores k size k1 p :
  kmem_ok k → 0 < size ≤ 4294967288 → kmem_alloc k size = (k1, Some p) →
  ∃ k2, kmem_free k1 (Some p) = Some k2 ∧ k_blocks k2 = k_blocks k ∧
        k_bytes_in_use k2 = k_bytes_in_use k.
Proof.
  intros Hok Hsize Halloc. pose proof (align_up_spec size ltac:(lia)) as [Hle _].
  unfold kmem_alloc in Halloc. rewrite kmem_init_ok in Halloc by done.
  destruct (N.eqb_spec size 0); [lia|].
  destruct (alloc_scan (kmem_align_up size) (k_blocks k)) as [[l' f]|] eqn:Hscan; [|done].
  destruct (alloc_scan_Some _ _ _ _ 0 _ (ok_tiles _ Hok) ltac:(done) Hscan)
    as (pre & b & post & behind & Heq & -> & _ & Hb & Hn & Hf & Hbehind).
  injection Halloc as <- <-.
  pose proof (alloc_done_ok k pre b post f behind _ _ Hok Heq Hb Hn Hf eq_refl Hbehind) as Hok1.
  destruct (free_effect _ f pre (behind ++ post) Hok1 eq_refl ltac:(by rewrite Hf))
    as (k2 & Hfree & _ & _ & Hblocks & Hbytes).
  pose proof (ok_separated _ Hok) as Hsep. rewrite Heq in Hsep.
  apply separated_app_cons in Hsep as [Hspre Hspost].
  pose proof (ok_tiles _ Hok) as Ht. rewrite Heq in Ht.
  apply tiles_app in Ht as (m & _ & Hab & Hpost). apply tiles_le in Hpost.
  unfold KMEM_ARENA_SIZE, SIZEOF_BLOCK in Hpost.
  assert (Block (k_addr b) (k_size b) 0 = b) as Hb0.
  { destruct b. unfold is_free in Hb. simpl in *. bools. by subst. }
  exists k2. split_and!; [done| |].
  - rewrite Hblocks, Heq. rewrite (coalesce_app pre _ _ b Hspre) by (by rewrite Hb). f_equal.
    rewrite Hf. cbn [k_addr k_size].
    destruct Hbehind as [[-> Hs]|(-> & Hs & Hbig)]; rewrite Hs; simpl app.
    + rewrite Hb0. by apply coalesce_separated.
    + cbn [coalesce_from]. unfold SIZEOF_BLOCK. simpl (_ && _). cbn [k_addr k_size k_used].
      rewrite u32_small by lia.
      replace (kmem_align_up size + (12 + (k_size b - kmem_align_up size - 12)))
        with (k_size b) by lia.
      rewrite Hb0. by apply coalesce_separated.
  - rewrite Hbytes. cbn [kmem_alloc_done k_bytes_in_use]. pose proof (ok_bytes _ Hok1) as Hb1.
    cbn [kmem_alloc_done k_bytes_in_use k_blocks] in Hb1. rewrite Hb1, (ok_bytes _ Hok), Heq.
    rewrite !used_bytes_app. simpl. rewrite Hb, Hf at 1. simpl. rewrite used_bytes_app.
    destruct Hbehind as [[-> _]|(-> & _)]; simpl; lia.
Qed.

(** The rounding up of the size wraps around in 32 bits: a request within
    seven bytes of 4 GiB is rounded to 0, and the allocator reports success
    with a block of no bytes. *)
Lemma kmem_alloc_huge_wraps :
  ∃ k, kmem_alloc kmem_reset 4294967295 = (k, Some 12) ∧ live k 12 0.
Proof.
  eexists. split; [vm_compute; reflexivity|]. exists (Block 0 0 1). split_and!; try done. by left.
Qed.

Lemma kmem_alloc_correct_witness :
  let '(k', r) := kmem_alloc (kmem_init kmem_reset) 10 in
  kmem_ok k' ∧ ∃ s, 10 ≤ s ∧ live k' 12 s.
Proof.
  pose proof (kmem_alloc_correct (kmem_init kmem_reset) 10 init_ok ltac:(lia)) as H.
  revert H. destruct (kmem_alloc (kmem_init kmem_reset) 10) as [k' r] eqn:Hk.
  assert (r = Some 12) as -> by (vm_compute in Hk; congruence).
  intros (Hok & s & Hs & _ & Hlive & _). split; [exact Hok|]. exists s. split; [exact Hs|].
  apply Hlive. auto.
Defined.

Definition demo_heap : kmem := (kmem_alloc kmem_reset 10).1.

Lemma demo_heap_ok : kmem_ok demo_heap.
Proof.
  destruct (alloc_cases (kmem_init kmem_reset) 10 init_ok) as [(k' & p & s & H & Hok & _)|[H _]];
    [lia| |].
  - assert (k' = demo_heap) as <- by (unfold demo_heap; vm_compute in H; vm_compute; congruence). done.
  - vm_compute in H. done.
Qed.

Lemma kmem_free_correct_witness :
  ∃ k', kmem_free demo_heap (Some 12) = Some k' ∧ kmem_ok k'.
Proof.
  destruct (kmem_free_correct demo_heap 12 16 demo_heap_ok) as (k' & H & Hok & _).
  - exists (Block 0 16 1). split; [left|split; [reflexivity|split; reflexivity]].
  - exists k'. split; [exact H|exact Hok].
Defined.

Lemma alloc_free_restores_witness :
  ∃ k1 k2, kmem_alloc demo_heap 100 = (k1, Some 40) ∧ kmem_free k1 (Some 40) = Some k2 ∧
    k_blocks k2 = [Block 0 16 1; Block 28 4056 0].
Proof.
  destruct (kmem_alloc demo_heap 100) as [k1 r] eqn:Hk.
  assert (r = Some 40) as -> by (vm_compute in Hk; congruence).
  destruct (alloc_free_restores demo_heap 100 k1 40 demo_heap_ok ltac:(lia) Hk) as (k2 & H & Hb & _).
  exists k1, k2. split; [reflexivity|]. split; [exact H|]. rewrite Hb. vm_compute. reflexivity.
Defined.
