(* ===== verification/KernelObjects.v ===== *)
(** * Wait queues, events, semaphores, mutexes and mailboxes

    [kernel/wait_queue.c], [event.c], [semaphore.c], [mutex.c] and
    [mailbox.c].  Objects live in the kernel heap and are named by pointers
    ([None] is NULL); the heap is any implementation of [Allocator].  An
    operation returns [None] when it reads memory that is not an object of
    its kind (a dangling pointer).

    A call that may block is split where the process gives up the processor:
    [wait_begin] is [kernel_wait_queue_wait] up to [process_yield], [wait_end]
    the rest, and a blocking call is a sequence of rounds. *)

From S2P Require Import Prelude ProcessCore.

Local Open Scope N_scope.

(** ** The heap the objects are allocated from *)

Class Allocator (H : Type) := {
  halloc : H → N → H * option N;
  hfree : H → N → option H;
  hlive : H → N → Prop;
  hok : H → Prop
}.

Class AllocatorLaws (H : Type) `{Allocator H} : Prop := {
  halloc_law h n : hok h → 0 < n ≤ 64 →
    match halloc h n with
    | (h', Some p) => hok h' ∧ ¬ hlive h p ∧ ∀ q, hlive h' q ↔ hlive h q ∨ q = p
    | (h', None) => hok h' ∧ ∀ q, hlive h' q ↔ hlive h q
    end;
  hfree_law h p : hok h → hlive h p →
    ∃ h', hfree h p = Some h' ∧ hok h' ∧ ∀ q, hlive h' q ↔ hlive h q ∧ q ≠ p
}.

(** ** Data *)

Definition KERNEL_WAIT_QUEUE_MAGIC : N := 0x57515545.
Definition KERNEL_EVENT_MAGIC : N := 0x45564E54.
Definition KERNEL_SEMAPHORE_MAGIC : N := 0x53454D41.
Definition KERNEL_MUTEX_MAGIC : N := 0x4D555458.
Definition KERNEL_MAILBOX_MAGIC : N := 0x4D41494C.

Record kernel_wait_queue := WaitQueue { wq_magic : N; wq_channel : N; wq_waiter_count : N }.
Record kernel_event := Event { ev_magic : N; ev_wait_queue : option N }.
Record kernel_semaphore := Semaphore {
  sem_magic : N; sem_count : N; sem_max_count : N; sem_wait_queue : option N }.
Record kernel_mutex := Mutex { mx_magic : N; mx_owner_pid : N; mx_wait_queue : option N }.
Record kernel_mailbox := Mailbox {
  mb_magic : N; mb_message : N; mb_has_message : N;
  mb_sender_wait_queue : option N; mb_receiver_wait_queue : option N }.

Definition set_waiter_count (n : N) (q : kernel_wait_queue) : kernel_wait_queue :=
  WaitQueue (wq_magic q) (wq_channel q) n.
Definition set_count (n : N) (s : kernel_semaphore) : kernel_semaphore :=
  Semaphore (sem_magic s) n (sem_max_count s) (sem_wait_queue s).
Definition set_owner_pid (n : N) (m : kernel_mutex) : kernel_mutex :=
  Mutex (mx_magic m) n (mx_wait_queue m).
Definition set_message (has message : N) (m : kernel_mailbox) : kernel_mailbox :=
  Mailbox (mb_magic m) message has (mb_sender_wait_queue m) (mb_receiver_wait_queue m).

(** The objects, the process table and the running process's slot
    ([UINT32_MAX] when none runs). *)
Record kernel (H : Type) := Kernel {
  heap : H;
  next_wait_queue_channel : N;
  wait_queues : gmap N kernel_wait_queue;
  events : gmap N kernel_event;
  semaphores : gmap N kernel_semaphore;
  mutexes : gmap N kernel_mutex;
  mailboxes : gmap N kernel_mailbox;
  processes : list process_runtime_state;
  current_process_index : N
}.
Arguments Kernel {H}.
Arguments heap {H}.
Arguments next_wait_queue_channel {H}.
Arguments wait_queues {H}.
Arguments events {H}.
Arguments semaphores {H}.
Arguments mutexes {H}.
Arguments mailboxes {H}.
Arguments processes {H}.
Arguments current_process_index {H}.

Section objects.
Context {H : Type} `{!Allocator H}.
Implicit Types (k : kernel H) (p : option N).

Definition set_heap (h : H) k : kernel H :=
  Kernel h (next_wait_queue_channel k) (wait_queues k) (events k) (semaphores k) (mutexes k)
    (mailboxes k) (processes k) (current_process_index k).
Definition set_next_channel (n : N) k : kernel H :=
  Kernel (heap k) n (wait_queues k) (events k) (semaphores k) (mutexes k)
    (mailboxes k) (processes k) (current_process_index k).
Definition set_wait_queues (m : gmap N kernel_wait_queue) k : kernel H :=
  Kernel (heap k) (next_wait_queue_channel k) m (events k) (semaphores k) (mutexes k)
    (mailboxes k) (processes k) (current_process_index k).
Definition set_events (m : gmap N kernel_event) k : kernel H :=
  Kernel (heap k) (next_wait_queue_channel k) (wait_queues k) m (semaphores k) (mutexes k)
    (mailboxes k) (processes k) (current_process_index k).
Definition set_semaphores (m : gmap N kernel_semaphore) k : kernel H :=
  Kernel (heap k) (next_wait_queue_channel k) (wait_queues k) (events k) m (mutexes k)
    (mailboxes k) (processes k) (current_process_index k).
Definition set_mutexes (m : gmap N kernel_mutex) k : kernel H :=
  Kernel (heap k) (next_wait_queue_channel k) (wait_queues k) (events k) (semaphores k) m
    (mailboxes k) (processes k) (current_process_index k).
Definition set_mailboxes (m : gmap N kernel_mailbox) k : kernel H :=
  Kernel (heap k) (next_wait_queue_channel k) (wait_queues k) (events k) (semaphores k)
    (mutexes k) m (processes k) (current_process_index k).
Definition set_processes (l : list process_runtime_state) k : kernel H :=
  Kernel (heap k) (next_wait_queue_channel k) (wait_queues k) (events k) (semaphores k)
    (mutexes k) (mailboxes k) l (current_process_index k).
Definition set_current (i : N) k : kernel H :=
  Kernel (heap k) (next_wait_queue_channel k) (wait_queues k) (events k) (semaphores k)
    (mutexes k) (mailboxes k) (processes k) i.

Definition kmem_alloc_in k (size : N) : kernel H * option N :=
  let '(h, r) := halloc (heap k) size in (set_heap h k, r).
Definition kmem_free_in k (ptr : N) : option (kernel H) :=
  h ← hfree (heap k) ptr; Some (set_heap h k).

(** ** The process operations behind the wait queues ([kernel/scheduler.c]) *)

Definition process_current_pid k : N :=
  match aget (processes k) (current_process_index k) with
  | Some p => p_pid p
  | None => 0
  end.

(** [process_wait_channel] up to the call of [process_yield]. *)
Definition process_wait_channel k (channel : N) : kernel H :=
  set_processes (aupd (processes k) (current_process_index k)
                   (process_core_block PROCESS_WAIT_EVENT_CHANNEL channel 0 0)) k.

Definition process_wake_channel k (channel : N) : kernel H * N :=
  let '(l, woke) := process_core_wake_channel (processes k) channel in (set_processes l k, woke).

Definition process_wake_first_channel k (channel : N) : kernel H * N :=
  let '(l, woke) := process_core_wake_first_channel (processes k) channel
                      (current_process_index k) in
  (set_processes l k, woke).

(** ** Wait queues *)

Definition kernel_wait_queue_is_valid k p : option bool :=
  match p with
  | None => Some false
  | Some a => q ← wait_queues k !! a; Some (wq_magic q =? KERNEL_WAIT_QUEUE_MAGIC)
  end.

Definition kernel_wait_queue_create k : kernel H * option N :=
  let '(k, r) := kmem_alloc_in k 12 in
  match r with
  | None => (k, None)
  | Some a =>
      (set_next_channel (u32 (next_wait_queue_channel k + 1))
         (set_wait_queues (<[a := WaitQueue KERNEL_WAIT_QUEUE_MAGIC
                                    (next_wait_queue_channel k) 0]> (wait_queues k)) k), Some a)
  end.

(** A freed object is no object any more. *)
Definition kernel_wait_queue_destroy k p : option (kernel H * bool) :=
  valid ← kernel_wait_queue_is_valid k p;
  match p with
  | Some a =>
      if negb valid then Some (k, false)
      else
        q ← wait_queues k !! a;
        if nz (wq_waiter_count q) then Some (k, false)
        else k' ← kmem_free_in (set_wait_queues (delete a (wait_queues k)) k) a; Some (k', true)
  | None => Some (k, false)
  end.

Definition upd_wait_queue (a : N) (f : kernel_wait_queue → kernel_wait_queue) k : kernel H :=
  set_wait_queues (alter f a (wait_queues k)) k.

(** The end of [kernel_wait_queue_wait], when the process runs again. *)
Definition wait_end k (a : N) : option (kernel H) :=
  q ← wait_queues k !! a;
  Some (if nz (wq_waiter_count q)
        then upd_wait_queue a (set_waiter_count (wq_waiter_count q - 1)) k else k).

(** The second component tells whether the process gave up the processor;
    without a running process the call returns at once. *)
Definition wait_begin k p : option (kernel H * bool) :=
  valid ← kernel_wait_queue_is_valid k p;
  match p with
  | Some a =>
      if negb valid then Some (k, false)
      else
        q ← wait_queues k !! a;
        let k1 := upd_wait_queue a (set_waiter_count (u32 (wq_waiter_count q + 1))) k in
        if current_process_index k1 <? N.of_nat (length (processes k1))
        then Some (process_wait_channel k1 (wq_channel q), true)
        else k2 ← wait_end k1 a; Some (k2, false)
  | None => Some (k, false)
  end.

Definition kernel_wait_queue_wake_one k p : option (kernel H * N) :=
  valid ← kernel_wait_queue_is_valid k p;
  match p with
  | Some a => if negb valid then Some (k, 0)
              else q ← wait_queues k !! a; Some (process_wake_first_channel k (wq_channel q))
  | None => Some (k, 0)
  end.

Definition kernel_wait_queue_wake_all k p : option (kernel H * N) :=
  valid ← kernel_wait_queue_is_valid k p;
  match p with
  | Some a => if negb valid then Some (k, 0)
              else q ← wait_queues k !! a; Some (process_wake_channel k (wq_channel q))
  | None => Some (k, 0)
  end.

Definition kernel_wait_queue_waiter_count k p : option N :=
  valid ← kernel_wait_queue_is_valid k p;
  match p with
  | Some a => if negb valid then Some 0 else q ← wait_queues k !! a; Some (wq_waiter_count q)
  | None => Some 0
  end.

(** [if (waiter_count(queue) != 0u) (void)wake_one(queue);]. *)
Definition wake_if_waiting k p : option (kernel H) :=
  n ← kernel_wait_queue_waiter_count k p;
  if nz n then r ← kernel_wait_queue_wake_one k p; Some r.1 else Some k.

(** ** Events *)

Definition kernel_event_is_valid k p : option bool :=
  match p with
  | None => Some false
  | Some a => e ← events k !! a; Some (ev_magic e =? KERNEL_EVENT_MAGIC)
  end.

Definition kernel_event_create k : option (kernel H * option N) :=
  let '(k, r) := kmem_alloc_in k 8 in
  match r with
  | None => Some (k, None)
  | Some a =>
      let '(k, q) := kernel_wait_queue_create k in
      match q with
      | None => k' ← kmem_free_in k a; Some (k', None)
      | Some _ => Some (set_events (<[a := Event KERNEL_EVENT_MAGIC q]> (events k)) k, Some a)
      end
  end.

Definition kernel_event_destroy k p : option (kernel H * bool) :=
  valid ← kernel_event_is_valid k p;
  match p with
  | Some a =>
      if negb valid then Some (k, false)
      else
        e ← events k !! a;
        r ← kernel_wait_queue_destroy k (ev_wait_queue e);
        let '(k', destroyed) := r in
        if negb destroyed then Some (k', false)
        else k'' ← kmem_free_in (set_events (delete a (events k')) k') a; Some (k'', true)
  | None => Some (k, false)
  end.

Definition kernel_event_signal k p : option (kernel H * N) :=
  valid ← kernel_event_is_valid k p;
  match p with
  | Some a => if negb valid then Some (k, 0)
              else e ← events k !! a; kernel_wait_queue_wake_all k (ev_wait_queue e)
  | None => Some (k, 0)
  end.

Definition kernel_event_waiter_count k p : option N :=
  valid ← kernel_event_is_valid k p;
  match p with
  | Some a => if negb valid then Some 0
              else e ← events k !! a; kernel_wait_queue_waiter_count k (ev_wait_queue e)
  | None => Some 0
  end.

(** ** Semaphores *)

Definition kernel_semaphore_is_valid k p : option bool :=
  match p with
  | None => Some false
  | Some a => s ← semaphores k !! a;
              Some ((sem_magic s =? KERNEL_SEMAPHORE_MAGIC) && bool_decide (sem_wait_queue s ≠ None))
  end.

Definition kernel_semaphore_create k (initial_count max_count : N)
  : option (kernel H * option N) :=
  if (max_count =? 0) || (max_count <? initial_count) then Some (k, None)
  else
    let '(k, r) := kmem_alloc_in k 16 in
    match r with
    | None => Some (k, None)
    | Some a =>
        let '(k, q) := kernel_wait_queue_create k in
        match q with
        | None => k' ← kmem_free_in k a; Some (k', None)
        | Some _ =>
            Some (set_semaphores (<[a := Semaphore KERNEL_SEMAPHORE_MAGIC initial_count
                                           max_count q]> (semaphores k)) k, Some a)
        end
    end.

Definition kernel_semaphore_destroy k p : option (kernel H * bool) :=
  valid ← kernel_semaphore_is_valid k p;
  match p with
  | Some a =>
      if negb valid then Some (k, false)
      else
        s ← semaphores k !! a;
        r ← kernel_wait_queue_destroy k (sem_wait_queue s);
        let '(k', destroyed) := r in
        if negb destroyed then Some (k', false)
        else k'' ← kmem_free_in (set_semaphores (delete a (semaphores k')) k') a; Some (k'', true)
  | None => Some (k, false)
  end.

Definition upd_semaphore (a : N) (f : kernel_semaphore → kernel_semaphore) k : kernel H :=
  set_semaphores (alter f a (semaphores k)) k.

Definition kernel_semaphore_try_acquire k p : option (kernel H * bool) :=
  valid ← kernel_semaphore_is_valid k p;
  match p with
  | Some a =>
      if negb valid then Some (k, false)
      else
        s ← semaphores k !! a;
        if sem_count s =? 0 then Some (k, false)
        else Some (upd_semaphore a (set_count (sem_count s - 1)) k, true)
  | None => Some (k, false)
  end.

Definition kernel_semaphore_release k p : option (kernel H * bool) :=
  valid ← kernel_semaphore_is_valid k p;
  match p with
  | Some a =>
      if negb valid then Some (k, false)
      else
        s ← semaphores k !! a;
        if sem_count s =? sem_max_count s then Some (k, false)
        else k' ← wake_if_waiting (upd_semaphore a (set_count (u32 (sem_count s + 1))) k)
                    (sem_wait_queue s);
             Some (k', true)
  | None => Some (k, false)
  end.

Definition kernel_semaphore_count k p : option N :=
  valid ← kernel_semaphore_is_valid k p;
  match p with
  | Some a => if negb valid then Some 0 else s ← semaphores k !! a; Some (sem_count s)
  | None => Some 0
  end.

Definition kernel_semaphore_waiter_count k p : option N :=
  valid ← kernel_semaphore_is_valid k p;
  match p with
  | Some a => if negb valid then Some 0
              else s ← semaphores k !! a; kernel_wait_queue_waiter_count k (sem_wait_queue s)
  | None => Some 0
  end.

(** ** Mutexes *)

Definition kernel_mutex_is_valid k p : option bool :=
  match p with
  | None => Some false
  | Some a => m ← mutexes k !! a;
              Some ((mx_magic m =? KERNEL_MUTEX_MAGIC) && bool_decide (mx_wait_queue m ≠ None))
  end.

Definition kernel_mutex_create k : option (kernel H * option N) :=
  let '(k, r) := kmem_alloc_in k 12 in
  match r with
  | None => Some (k, None)
  | Some a =>
      let '(k, q) := kernel_wait_queue_create k in
      match q with
      | None => k' ← kmem_free_in k a; Some (k', None)
      | Some _ => Some (set_mutexes (<[a := Mutex KERNEL_MUTEX_MAGIC 0 q]> (mutexes k)) k, Some a)
      end
  end.

Definition kernel_mutex_destroy k p : option (kernel H * bool) :=
  valid ← kernel_mutex_is_valid k p;
  match p with
  | Some a =>
      if negb valid then Some (k, false)
      else
        m ← mutexes k !! a;
        if nz (mx_owner_pid m) then Some (k, false)
        else
          r ← kernel_wait_queue_destroy k (mx_wait_queue m);
          let '(k', destroyed) := r in
          if negb destroyed then Some (k', false)
          else k'' ← kmem_free_in (set_mutexes (delete a (mutexes k')) k') a; Some (k'', true)
  | None => Some (k, false)
  end.

Definition upd_mutex (a : N) (f : kernel_mutex → kernel_mutex) k : kernel H :=
  set_mutexes (alter f a (mutexes k)) k.

Definition kernel_mutex_try_lock k p : option (kernel H * bool) :=
  valid ← kernel_mutex_is_valid k p;
  match p with
  | Some a =>
      if negb valid then Some (k, false)
      else
        m ← mutexes k !! a;
        let current_pid := process_current_pid k in
        if (current_pid =? 0) || nz (mx_owner_pid m) then Some (k, false)
        else Some (upd_mutex a (set_owner_pid current_pid) k, true)
  | None => Some (k, false)
  end.

Definition kernel_mutex_unlock k p : option (kernel H * bool) :=
  valid ← kernel_mutex_is_valid k p;
  match p with
  | Some a =>
      if negb valid then Some (k, false)
      else
        m ← mutexes k !! a;
        let current_pid := process_current_pid k in
        if (current_pid =? 0) || negb (mx_owner_pid m =? current_pid) then Some (k, false)
        else k' ← wake_if_waiting (upd_mutex a (set_owner_pid 0) k) (mx_wait_queue m);
             Some (k', true)
  | None => Some (k, false)
  end.

Definition kernel_mutex_owner_pid k p : option N :=
  valid ← kernel_mutex_is_valid k p;
  match p with
  | Some a => if negb valid then Some 0 else m ← mutexes k !! a; Some (mx_owner_pid m)
  | None => Some 0
  end.

Definition kernel_mutex_waiter_count k p : option N :=
  valid ← kernel_mutex_is_valid k p;
  match p with
  | Some a => if negb valid then Some 0
              else m ← mutexes k !! a; kernel_wait_queue_waiter_count k (mx_wait_queue m)
  | None => Some 0
  end.

(** ** Mailboxes *)

Definition kernel_mailbox_is_valid k p : option bool :=
  match p with
  | None => Some false
  | Some a => m ← mailboxes k !! a;
              Some ((mb_magic m =? KERNEL_MAILBOX_MAGIC) &&
                    bool_decide (mb_sender_wait_queue m ≠ None) &&
                    bool_decide (mb_receiver_wait_queue m ≠ None))
  end.

Definition kernel_mailbox_create k : option (kernel H * option N) :=
  let '(k, r) := kmem_alloc_in k 20 in
  match r with
  | None => Some (k, None)
  | Some a =>
      let '(k, sender) := kernel_wait_queue_create k in
      match sender with
      | None => k' ← kmem_free_in k a; Some (k', None)
      | Some _ =>
          let '(k, receiver) := kernel_wait_queue_create k in
          match receiver with
          | None => r ← kernel_wait_queue_destroy k sender;
                    k' ← kmem_free_in r.1 a; Some (k', None)
          | Some _ =>
              Some (set_mailboxes (<[a := Mailbox KERNEL_MAILBOX_MAGIC 0 0 sender receiver]>
                                     (mailboxes k)) k, Some a)
          end
      end
  end.

Definition kernel_mailbox_destroy k p : option (kernel H * bool) :=
  valid ← kernel_mailbox_is_valid k p;
  match p with
  | Some a =>
      if negb valid then Some (k, false)
      else
        m ← mailboxes k !! a;
        if nz (mb_has_message m) then Some (k, false)
        else
          r ← kernel_wait_queue_destroy k (mb_sender_wait_queue m);
          let '(k', destroyed) := r in
          if negb destroyed then Some (k', false)
          else
            r' ← kernel_wait_queue_destroy k' (mb_receiver_wait_queue m);
            let '(k'', destroyed') := r' in
            if negb destroyed' then Some (k'', false)
            else k''' ← kmem_free_in (set_mailboxes (delete a (mailboxes k'')) k'') a;
                 Some (k''', true)
  | None => Some (k, false)
  end.

Definition upd_mailbox (a : N) (f : kernel_mailbox → kernel_mailbox) k : kernel H :=
  set_mailboxes (alter f a (mailboxes k)) k.

Definition kernel_mailbox_try_send k p (message : N) : option (kernel H * bool) :=
  valid ← kernel_mailbox_is_valid k p;
  match p with
  | Some a =>
      if negb valid then Some (k, false)
      else
        m ← mailboxes k !! a;
        if nz (mb_has_message m) then Some (k, false)
        else k' ← wake_if_waiting (upd_mailbox a (set_message 1 message) k)
                    (mb_receiver_wait_queue m);
             Some (k', true)
  | None => Some (k, false)
  end.

(** The value stored through [message] comes with the state. *)
Definition kernel_mailbox_try_receive k p : option (kernel H * option N) :=
  valid ← kernel_mailbox_is_valid k p;
  match p with
  | Some a =>
      if negb valid then Some (k, None)
      else
        m ← mailboxes k !! a;
        if mb_has_message m =? 0 then Some (k, None)
        else k' ← wake_if_waiting (upd_mailbox a (set_message 0 (mb_message m)) k)
                    (mb_sender_wait_queue m);
             Some (k', Some (mb_message m))
  | None => Some (k, None)
  end.

Definition kernel_mailbox_has_message k p : option bool :=
  valid ← kernel_mailbox_is_valid k p;
  match p with
  | Some a => if negb valid then Some false
              else m ← mailboxes k !! a; Some (nz (mb_has_message m))
  | None => Some false
  end.

Definition kernel_mailbox_waiting_senders k p : option N :=
  valid ← kernel_mailbox_is_valid k p;
  match p with
  | Some a => if negb valid then Some 0
              else m ← mailboxes k !! a; kernel_wait_queue_waiter_count k (mb_sender_wait_queue m)
  | None => Some 0
  end.

Definition kernel_mailbox_waiting_receivers k p : option N :=
  valid ← kernel_mailbox_is_valid k p;
  match p with
  | Some a => if negb valid then Some 0
              else m ← mailboxes k !! a; kernel_wait_queue_waiter_count k (mb_receiver_wait_queue m)
  | None => Some 0
  end.

(** ** Blocking calls

    [while (!try(...)) kernel_wait_queue_wait(queue);]: a round is one test
    of the condition and, when it fails, the wait up to the point where the
    process gives up the processor.  Its outcome: the call returned, it
    waits on a queue (and runs [wait_end] and the next round when it is
    resumed), or the queue is not valid and the loop spins. *)
Inductive outcome (R : Type) := Returned (result : R) | Waits (queue : N) | Spins.
Arguments Returned {R}.
Arguments Waits {R}.
Arguments Spins {R}.

Definition block_on {R} k p : option (kernel H * outcome R) :=
  r ← wait_begin k p;
  match r, p with
  | (k', true), Some a => Some (k', Waits a)
  | (k', _), _ => Some (k', Spins)
  end.

Definition kernel_semaphore_acquire_round k (a : N) : option (kernel H * outcome unit) :=
  r ← kernel_semaphore_try_acquire k (Some a);
  if r.2 : bool then Some (r.1, Returned tt)
  else s ← semaphores k !! a; block_on r.1 (sem_wait_queue s).

Definition kernel_semaphore_acquire k (a : N) : option (kernel H * outcome unit) :=
  valid ← kernel_semaphore_is_valid k (Some a);
  if negb valid then Some (k, Returned tt) else kernel_semaphore_acquire_round k a.

Definition kernel_mutex_lock_round k (a : N) : option (kernel H * outcome unit) :=
  r ← kernel_mutex_try_lock k (Some a);
  if r.2 : bool then Some (r.1, Returned tt)
  else m ← mutexes k !! a; block_on r.1 (mx_wait_queue m).

Definition kernel_mutex_lock k (a : N) : option (kernel H * outcome unit) :=
  valid ← kernel_mutex_is_valid k (Some a);
  if negb valid then Some (k, Returned tt) else kernel_mutex_lock_round k a.

Definition kernel_mailbox_send_round k (a message : N) : option (kernel H * outcome unit) :=
  r ← kernel_mailbox_try_send k (Some a) message;
  if r.2 : bool then Some (r.1, Returned tt)
  else m ← mailboxes k !! a; block_on r.1 (mb_sender_wait_queue m).

Definition kernel_mailbox_send k (a message : N) : option (kernel H * outcome unit) :=
  valid ← kernel_mailbox_is_valid k (Some a);
  if negb valid then Some (k, Returned tt) else kernel_mailbox_send_round k a message.

Definition kernel_mailbox_receive_round k (a : N) : option (kernel H * outcome N) :=
  r ← kernel_mailbox_try_receive k (Some a);
  match r with
  | (k', Some message) => Some (k', Returned message)
  | (k', None) => m ← mailboxes k !! a; block_on k' (mb_receiver_wait_queue m)
  end.

Definition kernel_mailbox_receive k (a : N) : option (kernel H * outcome N) :=
  valid ← kernel_mailbox_is_valid k (Some a);
  if negb valid then Some (k, Returned 0) else kernel_mailbox_receive_round k a.

Definition kernel_event_wait k (a : N) : option (kernel H * outcome unit) :=
  valid ← kernel_event_is_valid k (Some a);
  if negb valid then Some (k, Returned tt)
  else
    e ← events k !! a;
    r ← wait_begin k (ev_wait_queue e);
    match r, ev_wait_queue e with
    | (k', true), Some q => Some (k', Waits q)
    | (k', _), _ => Some (k', Returned tt)
    end.
End objects.
Arguments Returned {R}.
Arguments Waits {R}.
Arguments Spins {R}.
