(* ===== verification/SemaphoreProofs.v ===== *)
(** * The counting semaphore under interleaving

    Processes call acquire and release in any order, are scheduled in any
    order, and resume from their wait when woken.  No wake-up is lost: while a
    process is blocked on the semaphore, every available unit has a woken
    process on its way to take it. *)

From S2P Require Import Prelude ProcessCore KernelObjects.

Local Open Scope N_scope.

(** The slots blocked on a channel. *)
Definition waits_at (channel : N) (l : list process_runtime_state) (i : N) : bool :=
  match aget l i with Some p => waits_on_channel channel p | None => false end.
Definition blocked_on (channel : N) (l : list process_runtime_state) : gset N :=
  list_to_set (filter (λ i, waits_at channel l i = true) (N.of_nat <$> seq 0 (length l))).

Lemma elem_of_blocked_on channel l i :
  i ∈ blocked_on channel l ↔ ∃ p, aget l i = Some p ∧ waits_on_channel channel p = true.
Proof.
  unfold blocked_on. rewrite elem_of_list_to_set, list_elem_of_filter. unfold waits_at. split.
  - intros [Hw _]. destruct (aget l i) as [p|]; [|done]. by exists p.
  - intros (p & Hp & Hw). rewrite Hp. split; [done|]. apply aget_Some_lt in Hp.
    apply list_elem_of_fmap. exists (N.to_nat i). split; [lia|]. apply elem_of_seq. lia.
Qed.

Section semaphore.
Context {H : Type} `{!Allocator H}.
(** The semaphore at [a], its queue at [q] and the queue's channel. *)
Context (a q channel : N).

Abbreviation state := (kernel H * gset N)%type.

(** One step of the system.  The second component of the state holds the
    slots that are inside [kernel_wait_queue_wait].  Anything else the
    kernel does may change the processes and the running slot, as long as
    it neither blocks a process on the channel nor wakes one from it. *)
Inductive step : state → state → Prop :=
  | step_acquire_now k k' inside :
      current_process_index k ∉ inside →
      kernel_semaphore_acquire k a = Some (k', Returned tt) →
      step (k, inside) (k', inside)
  | step_acquire_wait k k' inside queue :
      current_process_index k ∉ inside →
      kernel_semaphore_acquire k a = Some (k', Waits queue) →
      step (k, inside) (k', {[current_process_index k]} ∪ inside)
  | step_resume_done k k1 k' inside :
      current_process_index k ∈ inside →
      current_process_index k ∉ blocked_on channel (processes k) →
      wait_end k q = Some k1 →
      kernel_semaphore_acquire_round k1 a = Some (k', Returned tt) →
      step (k, inside) (k', inside ∖ {[current_process_index k]})
  | step_resume_wait k k1 k' inside queue :
      current_process_index k ∈ inside →
      current_process_index k ∉ blocked_on channel (processes k) →
      wait_end k q = Some k1 →
      kernel_semaphore_acquire_round k1 a = Some (k', Waits queue) →
      step (k, inside) (k', inside)
  | step_release k k' inside done :
      kernel_semaphore_release k (Some a) = Some (k', done) →
      step (k, inside) (k', inside)
  | step_other k inside l current :
      length l = length (processes k) →
      blocked_on channel l = blocked_on channel (processes k) →
      (current = UINT32_MAX ∨ current < N.of_nat (length l)) →
      step (k, inside) (set_current current (set_processes l k), inside).

Inductive steps : state → state → Prop :=
  | steps_refl s : steps s s
  | steps_next s1 s2 s3 : steps s1 s2 → step s2 s3 → steps s1 s3.

Record sem_inv (max_count : N) (k : kernel H) (inside : gset N) : Prop := {
  si_sem : ∃ count, semaphores k !! a =
    Some (Semaphore KERNEL_SEMAPHORE_MAGIC count max_count (Some q)) ∧ count ≤ max_count ∧
    (** every available unit has a woken process on its way *)
    (blocked_on channel (processes k) ≠ ∅ →
       count ≤ N.of_nat (size (inside ∖ blocked_on channel (processes k))));
  si_queue : wait_queues k !! q =
    Some (WaitQueue KERNEL_WAIT_QUEUE_MAGIC channel (N.of_nat (size inside)));
  si_blocked : blocked_on channel (processes k) ⊆ inside;
  si_inside : ∀ i, i ∈ inside → i < N.of_nat (length (processes k));
  si_current : current_process_index k = UINT32_MAX ∨
               current_process_index k < N.of_nat (length (processes k));
  si_length : 0 < N.of_nat (length (processes k)) < 2147483648
}.

Lemma inside_small max_count k inside : sem_inv max_count k inside → N.of_nat (size inside) < 2147483648.
Proof.
  intros Hi. assert (inside ⊆ list_to_set (N.of_nat <$> seq 0 (length (processes k)))) as Hsub.
  { intros i Hin. apply (si_inside _ _ _ Hi) in Hin. apply elem_of_list_to_set, list_elem_of_fmap.
    exists (N.to_nat i). split; [lia|]. apply elem_of_seq. lia. }
  apply subseteq_size in Hsub. rewrite size_list_to_set, length_fmap, length_seq in Hsub.
  - pose proof (si_length _ _ _ Hi). lia.
  - apply NoDup_fmap_2; [intros ??; lia|apply NoDup_seq].
Qed.

(** Blocking a slot that was not blocked. *)
Lemma blocked_on_block l i :
  i < N.of_nat (length l) →
  blocked_on channel (aupd l i (process_core_block PROCESS_WAIT_EVENT_CHANNEL channel 0 0)) =
    {[i]} ∪ blocked_on channel l.
Proof.
  intros Hi. apply set_eq. intros j. rewrite elem_of_union, elem_of_singleton, !elem_of_blocked_on.
  destruct (aget_is_Some l i Hi) as [p Hp]. destruct (decide (i = j)) as [<-|Hij].
  - split; [by left|]. intros _. exists (process_core_block PROCESS_WAIT_EVENT_CHANNEL channel 0 0 p).
    rewrite aget_aupd_eq, Hp. split; [done|]. destruct p. unfold waits_on_channel. simpl.
    unfold in_state, waits_for. simpl. by rewrite N.eqb_refl.
  - rewrite aget_aupd_ne by done. naive_solver.
Qed.

(** Waking one. *)
Lemma blocked_on_wake l current :
  current = UINT32_MAX ∨ current < N.of_nat (length l) → 0 < N.of_nat (length l) < 2147483648 →
  let l' := (process_core_wake_first_channel l channel current).1 in
  length l' = length l ∧
  (blocked_on channel l = ∅ ∧ l' = l ∨
   ∃ i, i ∈ blocked_on channel l ∧ blocked_on channel l' = blocked_on channel l ∖ {[i]}).
Proof.
  intros Hc Hl. pose proof (wake_first_channel_cases l channel current Hc Hl) as Hw.
  destruct (process_core_wake_first_channel l channel current) as [l' woke]. simpl.
  destruct Hw as [(_ & -> & Hnone)|(i & p & _ & Hp & Hwait & _ & -> & _)].
  - split; [done|]. left. split; [|done]. apply set_eq. intros j. rewrite elem_of_blocked_on.
    split; [|set_solver]. intros (p & Hp & Hw). rewrite (Hnone p) in Hw; [done|].
    rewrite aget_lookup in Hp. by eapply list_elem_of_lookup_2.
  - split; [apply length_aupd|]. right. exists i.
    split; [apply elem_of_blocked_on; eauto|]. apply set_eq. intros j.
    rewrite elem_of_difference, elem_of_singleton, !elem_of_blocked_on.
    destruct (decide (i = j)) as [<-|Hij].
    + rewrite aget_aupd_eq, Hp. split; [|naive_solver]. intros (p' & [= <-] & Hw).
      by rewrite make_ready_not_waiting in Hw.
    + rewrite aget_aupd_ne by done. naive_solver.
Qed.

(** The outcome of one test of the semaphore. *)
Lemma acquire_round_inv (k : kernel H) count max_count n k' o :
  semaphores k !! a = Some (Semaphore KERNEL_SEMAPHORE_MAGIC count max_count (Some q)) →
  wait_queues k !! q = Some (WaitQueue KERNEL_WAIT_QUEUE_MAGIC channel n) →
  n + 1 < 4294967296 → kernel_semaphore_acquire_round k a = Some (k', o) →
  match o with
  | Returned _ => count ≠ 0 ∧ k' = upd_semaphore a (set_count (count - 1)) k
  | Waits _ => count = 0 ∧ current_process_index k < N.of_nat (length (processes k)) ∧
      k' = process_wait_channel (upd_wait_queue q (set_waiter_count (n + 1)) k) channel
  | Spins => True
  end.
Proof.
  intros Hs Hq Hn. unfold kernel_semaphore_acquire_round, kernel_semaphore_try_acquire,
    kernel_semaphore_is_valid. rewrite Hs. cbind. cbn [sem_magic sem_wait_queue sem_count].
  rewrite N.eqb_refl, bool_decide_true by done. cbn [andb negb]. cbind.
  destruct (N.eqb_spec count 0); cbind; cbn [fst snd]; [|by intros [= <- <-]]. cbind.
  cbn [sem_wait_queue]. unfold block_on, wait_begin, kernel_wait_queue_is_valid. rewrite Hq. cbind.
  cbn [wq_magic wq_waiter_count wq_channel]. rewrite N.eqb_refl. cbn [negb].
  rewrite u32_small by lia. unfold upd_wait_queue at 1 2.
  cbn [processes current_process_index set_wait_queues].
  destruct (N.ltb_spec (current_process_index k) (N.of_nat (length (processes k)))).
  - cbind. by intros [= <- <-].
  - destruct (wait_end _ q); cbind; [|done]. by intros [= <- <-].
Qed.

Lemma acquire_inv (k : kernel H) count max_count k' o :
  semaphores k !! a = Some (Semaphore KERNEL_SEMAPHORE_MAGIC count max_count (Some q)) →
  kernel_semaphore_acquire k a = Some (k', o) → kernel_semaphore_acquire_round k a = Some (k', o).
Proof.
  intros Hs. unfold kernel_semaphore_acquire, kernel_semaphore_is_valid. rewrite Hs. cbind.
  cbn [sem_magic sem_wait_queue]. by rewrite N.eqb_refl, bool_decide_true.
Qed.

(** Rebuilding the invariant from the fields that matter. *)
Lemma sem_inv_intro max_count (k : kernel H) inside count :
  semaphores k !! a = Some (Semaphore KERNEL_SEMAPHORE_MAGIC count max_count (Some q)) →
  wait_queues k !! q =
    Some (WaitQueue KERNEL_WAIT_QUEUE_MAGIC channel (N.of_nat (size inside))) →
  count ≤ max_count →
  (blocked_on channel (processes k) ≠ ∅ →
     count ≤ N.of_nat (size (inside ∖ blocked_on channel (processes k)))) →
  blocked_on channel (processes k) ⊆ inside →
  (∀ i, i ∈ inside → i < N.of_nat (length (processes k))) →
  (current_process_index k = UINT32_MAX ∨
   current_process_index k < N.of_nat (length (processes k))) →
  0 < N.of_nat (length (processes k)) < 2147483648 →
  sem_inv max_count k inside.
Proof. intros. split; try done. by exists count. Qed.

Lemma acquired_inv max_count (k : kernel H) inside inside' count n :
  sem_inv max_count k inside → n = N.of_nat (size inside') →
  semaphores k !! a = Some (Semaphore KERNEL_SEMAPHORE_MAGIC count max_count (Some q)) →
  inside' = inside ∨ (∃ c, c ∈ inside ∖ blocked_on channel (processes k) ∧ inside' = inside ∖ {[c]}) →
  sem_inv max_count
    (upd_semaphore a (set_count (count - 1)) (upd_wait_queue q (set_waiter_count n) k)) inside'.
Proof.
  intros Hi -> Hs Hin. destruct (si_sem _ _ _ Hi) as (count' & Hs' & Hle & Hwake). simplify_eq.
  apply (sem_inv_intro _ _ _ (count - 1)); cbn [semaphores wait_queues processes
    current_process_index upd_semaphore upd_wait_queue set_semaphores set_wait_queues].
  - by rewrite lookup_alter_eq, Hs.
  - by rewrite lookup_alter_eq, (si_queue _ _ _ Hi).
  - lia.
  - intros Hb. specialize (Hwake Hb). destruct Hin as [->|(c & Hc & ->)]; [lia|].
    replace (inside ∖ {[c]} ∖ blocked_on channel (processes k))
      with ((inside ∖ blocked_on channel (processes k)) ∖ {[c]}) by set_solver.
    rewrite size_difference by set_solver. rewrite size_singleton. lia.
  - pose proof (si_blocked _ _ _ Hi). destruct Hin as [->|(c & Hc & ->)]; set_solver.
  - intros i Hini. apply (si_inside _ _ _ Hi). destruct Hin as [->|(c & Hc & ->)]; set_solver.
  - apply Hi.
  - apply Hi.
Qed.

Lemma waiting_inv max_count (k : kernel H) inside inside' n :
  sem_inv max_count k inside → n = N.of_nat (size inside') →
  semaphores k !! a = Some (Semaphore KERNEL_SEMAPHORE_MAGIC 0 max_count (Some q)) →
  current_process_index k < N.of_nat (length (processes k)) →
  inside' = {[current_process_index k]} ∪ inside →
  sem_inv max_count
    (process_wait_channel (upd_wait_queue q (set_waiter_count n) k) channel) inside'.
Proof.
  intros Hi -> Hs Hc ->.
  apply (sem_inv_intro _ _ _ 0); unfold process_wait_channel; cbn [semaphores wait_queues processes
    current_process_index upd_wait_queue set_processes set_wait_queues].
  - done.
  - by rewrite lookup_alter_eq, (si_queue _ _ _ Hi).
  - lia.
  - lia.
  - rewrite blocked_on_block by done. pose proof (si_blocked _ _ _ Hi). set_solver.
  - rewrite length_aupd. intros i [->%elem_of_singleton|Hin]%elem_of_union; [done|].
    by apply (si_inside _ _ _ Hi).
  - rewrite length_aupd. by right.
  - rewrite length_aupd. apply Hi.
Qed.

Lemma upd_wait_queue_same (k : kernel H) n :
  wait_queues k !! q = Some (WaitQueue KERNEL_WAIT_QUEUE_MAGIC channel n) →
  upd_wait_queue q (set_waiter_count n) k = k.
Proof.
  intros Hq. unfold upd_wait_queue. rewrite alter_id; [by destruct k|].
  intros x Hx. rewrite Hq in Hx. by simplify_eq.
Qed.

Lemma acquire_inv_step max_count k k' inside o :
  sem_inv max_count k inside → current_process_index k ∉ inside →
  kernel_semaphore_acquire k a = Some (k', o) →
  match o with
  | Returned _ => sem_inv max_count k' inside
  | Waits _ => sem_inv max_count k' ({[current_process_index k]} ∪ inside)
  | Spins => True
  end.
Proof.
  intros Hi Hni Hacq. destruct (si_sem _ _ _ Hi) as (count & Hs & Hle & _).
  pose proof (inside_small _ _ _ Hi) as Hsmall. pose proof (si_queue _ _ _ Hi) as Hq.
  apply (acquire_inv k count max_count) in Hacq; [|done].
  eapply acquire_round_inv in Hacq; [|done|done|lia]. destruct o.
  - destruct Hacq as [Hne ->].
    rewrite <-(upd_wait_queue_same k _ Hq) at 1. eapply acquired_inv; try done. by left.
  - destruct Hacq as (-> & Hc & ->). eapply waiting_inv; try done.
    rewrite size_union by set_solver. rewrite size_singleton. lia.
  - done.
Qed.

Lemma resume_inv_step max_count k k1 k' inside o :
  sem_inv max_count k inside → current_process_index k ∈ inside →
  current_process_index k ∉ blocked_on channel (processes k) →
  wait_end k q = Some k1 → kernel_semaphore_acquire_round k1 a = Some (k', o) →
  match o with
  | Returned _ => sem_inv max_count k' (inside ∖ {[current_process_index k]})
  | Waits _ => sem_inv max_count k' inside
  | Spins => True
  end.
Proof.
  intros Hi Hin Hnb Hend Hround. destruct (si_sem _ _ _ Hi) as (count & Hs & Hle & _).
  pose proof (inside_small _ _ _ Hi) as Hsmall. pose proof (si_queue _ _ _ Hi) as Hq.
  assert (size (inside ∖ {[current_process_index k]}) = (size inside - 1)%nat) as Hsz.
  { rewrite size_difference by set_solver. by rewrite size_singleton. }
  assert (size inside ≠ 0%nat) as Hpos by (intros ?%size_empty_inv; set_solver).
  unfold wait_end in Hend. rewrite Hq in Hend. cbind_in Hend. cbn [wq_waiter_count] in Hend.
  destruct (nz (N.of_nat (size inside))) eqn:Hnz; [|bools; lia]. injection Hend as <-.
  set (n := N.of_nat (size inside) - 1) in *.
  eapply acquire_round_inv in Hround; [|exact Hs| |]; cycle 1.
  { unfold upd_wait_queue. cbn [wait_queues set_wait_queues]. by rewrite lookup_alter_eq, Hq. }
  { unfold n. lia. }
  destruct o.
  - destruct Hround as [Hne ->]. eapply acquired_inv; try done; [unfold n; lia|].
    right. exists (current_process_index k). set_solver.
  - destruct Hround as (-> & Hc & ->).
    assert (upd_wait_queue q (set_waiter_count (n + 1)) (upd_wait_queue q (set_waiter_count n) k) =
            upd_wait_queue q (set_waiter_count (n + 1)) k) as ->.
    { unfold upd_wait_queue, set_wait_queues. cbn. f_equal. rewrite alter_alter_eq.
      apply alter_ext. by intros. }
    eapply waiting_inv; try done; [unfold n; lia|]. set_solver.
  - done.
Qed.

Lemma release_inv_step max_count k k' inside done :
  max_count < 4294967296 → sem_inv max_count k inside →
  kernel_semaphore_release k (Some a) = Some (k', done) → sem_inv max_count k' inside.
Proof.
  intros Hmax Hi. destruct (si_sem _ _ _ Hi) as (count & Hs & Hle & Hwake).
  pose proof (si_queue _ _ _ Hi) as Hq. unfold kernel_semaphore_release, kernel_semaphore_is_valid.
  rewrite Hs. cbind. cbn [sem_magic sem_wait_queue sem_count sem_max_count].
  rewrite N.eqb_refl, bool_decide_true by done. cbn [andb negb].
  destruct (N.eqb_spec count max_count); [by intros [= <- <-]|]. rewrite u32_small by lia.
  unfold wake_if_waiting, kernel_wait_queue_waiter_count, kernel_wait_queue_wake_one,
    kernel_wait_queue_is_valid. unfold upd_semaphore. cbn [wait_queues set_semaphores].
  rewrite Hq. cbind. cbn [wq_magic wq_waiter_count wq_channel]. rewrite N.eqb_refl. cbn [negb]. cbind.
  destruct (nz (N.of_nat (size inside))) eqn:Hnz; bools.
  - unfold process_wake_first_channel. cbn [processes current_process_index set_semaphores].
    pose proof (blocked_on_wake (processes k) (current_process_index k) (si_current _ _ _ Hi)
                  (si_length _ _ _ Hi)) as [Hlen Hcase].
    destruct (process_core_wake_first_channel _ _ _) as [l' woke]. cbn [fst] in *. cbind.
    cbn [fst]. intros [= <- <-].
    apply (sem_inv_intro _ _ _ (count + 1)); cbn [semaphores wait_queues processes
      current_process_index set_processes set_semaphores]; rewrite ?Hlen; try apply Hi.
    + by rewrite lookup_alter_eq, Hs.
    + lia.
    + destruct Hcase as [[Hb ->]|(i & Hin & ->)]; [done|]. intros _.
      specialize (Hwake ltac:(set_solver)). pose proof (si_blocked _ _ _ Hi) as Hsub.
      replace (inside ∖ (blocked_on channel (processes k) ∖ {[i]}))
        with ({[i]} ∪ inside ∖ blocked_on channel (processes k)).
      * rewrite size_union by set_solver. rewrite size_singleton. lia.
      * apply set_eq. intros j. destruct (decide (j = i)); set_solver.
    + pose proof (si_blocked _ _ _ Hi). destruct Hcase as [[Hb ->]|(i & Hin & ->)]; set_solver.
  - intros [= <- <-]. assert (inside = ∅) as Hempty by (apply leibniz_equiv, size_empty_inv; lia).
    pose proof (si_blocked _ _ _ Hi) as Hsub.
    apply (sem_inv_intro _ _ _ (count + 1)); cbn [semaphores wait_queues processes
      current_process_index set_semaphores]; try apply Hi.
    + by rewrite lookup_alter_eq, Hs.
    + lia.
    + set_solver.
Qed.

Lemma step_inv max_count s s' :
  max_count < 4294967296 → step s s' → sem_inv max_count s.1 s.2 → sem_inv max_count s'.1 s'.2.
Proof.
  intros Hmax Hstep Hi. destruct Hstep; cbn [fst snd] in *.
  - by apply (acquire_inv_step _ _ _ _ _ Hi H0) in H1.
  - by apply (acquire_inv_step _ _ _ _ _ Hi H0) in H1.
  - by apply (resume_inv_step _ _ _ _ _ _ Hi H0 H1 H2) in H3.
  - by apply (resume_inv_step _ _ _ _ _ _ Hi H0 H1 H2) in H3.
  - by eapply release_inv_step.
  - destruct Hi as [(count & Hs & Hle & Hw) Hq Hb Hin Hc Hl].
    apply (sem_inv_intro _ _ _ count); cbn [semaphores wait_queues processes
      current_process_index set_processes set_current]; rewrite ?H1, ?H0; try done.
    by rewrite H0 in H2.
Qed.

Lemma steps_inv max_count s s' :
  max_count < 4294967296 → steps s s' → sem_inv max_count s.1 s.2 → sem_inv max_count s'.1 s'.2.
Proof. intros Hmax H1. induction H1; [done|]. intros Hi. eapply step_inv; eauto. Qed.
End semaphore.

(** C2: no wake-up of a counting semaphore is lost: from a semaphore nobody
    waits on, after any interleaving of acquires, releases, resumptions and
    scheduling decisions, the count stays within its maximum, the queue's
    waiter count is exactly the number of processes inside the wait, and when
    some process is still blocked the available units do not exceed the woken
    processes on their way to take them; in particular, if every process
    inside the wait is blocked, no unit is available. *)
Theorem semaphore_no_lost_wakeup {H} `{!Allocator H} a q channel (k k' : kernel H) inside
    initial_count max_count :
  max_count < 4294967296 → initial_count ≤ max_count →
  semaphores k !! a = Some (Semaphore KERNEL_SEMAPHORE_MAGIC initial_count max_count (Some q)) →
  wait_queues k !! q = Some (WaitQueue KERNEL_WAIT_QUEUE_MAGIC channel 0) →
  blocked_on channel (processes k) = ∅ →
  (current_process_index k = UINT32_MAX ∨
   current_process_index k < N.of_nat (length (processes k))) →
  0 < N.of_nat (length (processes k)) < 2147483648 →
  steps a q channel (k, ∅) (k', inside) →
  ∃ count, kernel_semaphore_count k' (Some a) = Some count ∧ count ≤ max_count ∧
    kernel_semaphore_waiter_count k' (Some a) = Some (N.of_nat (size inside)) ∧
    (blocked_on channel (processes k') ≠ ∅ →
       count ≤ N.of_nat (size (inside ∖ blocked_on channel (processes k')))) ∧
    (inside ⊆ blocked_on channel (processes k') → inside ≠ ∅ → count = 0).
Proof.
  intros Hmax Hinit Hs Hq Hb Hc Hl Hsteps.
  assert (sem_inv a q channel max_count k ∅) as Hi.
  { apply (sem_inv_intro _ _ _ _ _ _ initial_count); try done; set_solver. }
  pose proof (steps_inv a q channel max_count _ _ Hmax Hsteps Hi) as Hi'. cbn [fst snd] in Hi'.
  destruct (si_sem _ _ _ _ _ _ Hi') as (count & Hs' & Hle & Hw). exists count.
  pose proof (si_queue _ _ _ _ _ _ Hi') as Hq'.
  unfold kernel_semaphore_count, kernel_semaphore_waiter_count, kernel_semaphore_is_valid.
  rewrite Hs'. cbind. cbn [sem_magic sem_wait_queue sem_count]. split_and!; [done|done| |done|].
  - cbn. unfold kernel_wait_queue_waiter_count, kernel_wait_queue_is_valid. by rewrite Hq'.
  - intros Hsub Hne. pose proof (si_blocked _ _ _ _ _ _ Hi') as Hsub'.
    assert (blocked_on channel (processes k') ≠ ∅) as Hnb by set_solver. specialize (Hw Hnb).
    replace (inside ∖ blocked_on channel (processes k')) with (∅ : gset N) in Hw by set_solver.
    rewrite size_empty in Hw. lia.
Qed.
