(* ===== verification/MailboxProofs.v ===== *)
(** * Mailboxes and mutexes under interleaving

    A mailbox delivers every message once and in order, whatever the
    interleaving of its senders and receivers; a mutex has at most one holder
    and only the holder releases it; and destroying a mailbox on which
    receivers wait leaves it with a dangling sender queue. *)

From S2P Require Import Prelude ProcessCore Kmem KmemProofs KernelObjects KernelObjectsProofs SemaphoreProofs.

Local Open Scope N_scope.

Section frames.
Context {H : Type} `{!Allocator H}.
Implicit Types k : kernel H.

(** Waking touches the process table only. *)
Lemma wake_if_waiting_frame k p k' :
  wake_if_waiting k p = Some k' → ∃ l, k' = set_processes l k.
Proof.
  unfold wake_if_waiting, kernel_wait_queue_wake_one. destruct (kernel_wait_queue_waiter_count k p);
    cbind; [|done]. destruct (nz n); [|intros [= <-]; exists (processes k); by destruct k].
  destruct (kernel_wait_queue_is_valid k p) as [v|]; cbind; [|done].
  destruct p as [q|]; [|cbind; intros [= <-]; exists (processes k); by destruct k].
  destruct (negb v); cbind; [intros [= <-]; exists (processes k); by destruct k|].
  destruct (wait_queues k !! q); cbind; [|done]. unfold process_wake_first_channel.
  destruct (process_core_wake_first_channel _ _ _) as [l w]. cbn [fst]. intros [= <-]. by exists l.
Qed.

(** Blocking touches the wait queues and the process table only. *)
Lemma block_on_frame {R} k p k' (o : outcome R) :
  block_on k p = Some (k', o) →
  mailboxes k' = mailboxes k ∧ mutexes k' = mutexes k ∧
  match o with Returned _ => False | _ => True end.
Proof.
  unfold block_on, wait_begin, wait_end. destruct (kernel_wait_queue_is_valid k p) as [v|]; cbind; [|done].
  destruct p as [q|]; cbind; [|by intros [= <- <-]].
  destruct (negb v); cbind; [by intros [= <- <-]|].
  destruct (wait_queues k !! q) as [wq|]; cbind; [|done].
  case_if; cbind; [by intros [= <- <-]|]. destruct (wait_queues _ !! q); cbind; [|done].
  intros [= <- <-]. by destruct (nz _).
Qed.
End frames.

(** ** Mailboxes *)

Section mailbox.
Context {H : Type} `{!Allocator H}.
Context (a : N).

(** The kernel with the messages sent and received so far, oldest first. *)
Abbreviation mstate := (kernel H * list N * list N)%type.

Inductive mstep : mstate → mstate → Prop :=
  | mstep_try_send k k' sent received message :
      kernel_mailbox_try_send k (Some a) message = Some (k', true) →
      mstep (k, sent, received) (k', sent ++ [message], received)
  | mstep_try_send_full k k' sent received message :
      kernel_mailbox_try_send k (Some a) message = Some (k', false) →
      mstep (k, sent, received) (k', sent, received)
  | mstep_send k k' sent received message :
      kernel_mailbox_send k a message = Some (k', Returned tt) →
      mstep (k, sent, received) (k', sent ++ [message], received)
  | mstep_send_waits k k' sent received message queue :
      kernel_mailbox_send k a message = Some (k', Waits queue) →
      mstep (k, sent, received) (k', sent, received)
  | mstep_try_receive k k' sent received message :
      kernel_mailbox_try_receive k (Some a) = Some (k', Some message) →
      mstep (k, sent, received) (k', sent, received ++ [message])
  | mstep_try_receive_empty k k' sent received :
      kernel_mailbox_try_receive k (Some a) = Some (k', None) →
      mstep (k, sent, received) (k', sent, received)
  | mstep_receive k k' sent received message :
      kernel_mailbox_receive k a = Some (k', Returned message) →
      mstep (k, sent, received) (k', sent, received ++ [message])
  | mstep_receive_waits k k' sent received queue :
      kernel_mailbox_receive k a = Some (k', Waits queue) →
      mstep (k, sent, received) (k', sent, received)
  (** a resumed process, the scheduler, and calls on other objects *)
  | mstep_other (k k' : kernel H) sent received :
      mailboxes k' !! a = mailboxes k !! a →
      mstep (k, sent, received) (k', sent, received).

Inductive msteps : mstate → mstate → Prop :=
  | msteps_refl s : msteps s s
  | msteps_next s1 s2 s3 : msteps s1 s2 → mstep s2 s3 → msteps s1 s3.

(** What was sent is what was received and what the slot holds. *)
Definition mail_inv (s r : option N) (k : kernel H) (sent received : list N) : Prop :=
  ∃ message has, mailboxes k !! a = Some (Mailbox KERNEL_MAILBOX_MAGIC message has s r) ∧
    sent = received ++ (if nz has then [message] else []).

Lemma try_send_cases (k : kernel H) message has (s r : option N) m k' b :
  mailboxes k !! a = Some (Mailbox KERNEL_MAILBOX_MAGIC message has s r) →
  s ≠ None → r ≠ None → kernel_mailbox_try_send k (Some a) m = Some (k', b) →
  if b then has = 0 ∧ mailboxes k' !! a = Some (Mailbox KERNEL_MAILBOX_MAGIC m 1 s r)
  else has ≠ 0 ∧ k' = k.
Proof.
  intros Hm Hs Hr. unfold kernel_mailbox_try_send, kernel_mailbox_is_valid. rewrite Hm. cbind.
  cbn [mb_magic mb_sender_wait_queue mb_receiver_wait_queue mb_has_message].
  rewrite N.eqb_refl, !bool_decide_true by done. cbn [andb negb].
  destruct (nz has) eqn:Hn; bools; [by intros [= <- <-]|].
  destruct (wake_if_waiting _ r) as [k1|] eqn:Hw; cbind; [|done]. intros [= <- <-].
  apply wake_if_waiting_frame in Hw as [l ->]. split; [done|]. cbn. by rewrite lookup_alter_eq, Hm.
Qed.

Lemma try_receive_cases (k : kernel H) message has (s r : option N) k' o :
  mailboxes k !! a = Some (Mailbox KERNEL_MAILBOX_MAGIC message has s r) →
  s ≠ None → r ≠ None → kernel_mailbox_try_receive k (Some a) = Some (k', o) →
  match o with
  | Some m => has ≠ 0 ∧ m = message ∧
      mailboxes k' !! a = Some (Mailbox KERNEL_MAILBOX_MAGIC message 0 s r)
  | None => has = 0 ∧ k' = k
  end.
Proof.
  intros Hm Hs Hr. unfold kernel_mailbox_try_receive, kernel_mailbox_is_valid. rewrite Hm. cbind.
  cbn [mb_magic mb_sender_wait_queue mb_receiver_wait_queue mb_has_message mb_message].
  rewrite N.eqb_refl, !bool_decide_true by done. cbn [andb negb].
  destruct (N.eqb_spec has 0); [by intros [= <- <-]|].
  destruct (wake_if_waiting _ s) as [k1|] eqn:Hw; cbind; [|done]. intros [= <- <-].
  apply wake_if_waiting_frame in Hw as [l ->]. split_and!; [done|done|]. cbn.
  by rewrite lookup_alter_eq, Hm.
Qed.

Lemma mailbox_valid (k : kernel H) message has (s r : option N) :
  mailboxes k !! a = Some (Mailbox KERNEL_MAILBOX_MAGIC message has s r) →
  s ≠ None → r ≠ None → kernel_mailbox_is_valid k (Some a) = Some true.
Proof.
  intros Hm Hs Hr. unfold kernel_mailbox_is_valid. rewrite Hm. cbind.
  cbn [mb_magic mb_sender_wait_queue mb_receiver_wait_queue].
  by rewrite N.eqb_refl, !bool_decide_true.
Qed.

(** A blocking call is its first test. *)
Lemma send_cases (k : kernel H) message has (s r : option N) m k' o :
  mailboxes k !! a = Some (Mailbox KERNEL_MAILBOX_MAGIC message has s r) →
  s ≠ None → r ≠ None → kernel_mailbox_send k a m = Some (k', o) →
  match o with
  | Returned _ => kernel_mailbox_try_send k (Some a) m = Some (k', true)
  | _ => mailboxes k' = mailboxes k
  end.
Proof.
  intros Hm Hs Hr. unfold kernel_mailbox_send, kernel_mailbox_send_round.
  rewrite (mailbox_valid k message has s r) by done. cbind. cbn [negb].
  destruct (kernel_mailbox_try_send k (Some a) m) as [[k1 b]|] eqn:Ht; cbind; [|done].
  pose proof (try_send_cases _ _ _ _ _ _ _ _ Hm Hs Hr Ht) as Hcase. cbn [fst snd].
  destruct b; [by intros [= <- <-]|]. destruct Hcase as [_ ->]. rewrite Hm. cbind.
  intros (Hmb & _ & Ho)%block_on_frame. by destruct o.
Qed.

Lemma receive_cases (k : kernel H) message has (s r : option N) k' o :
  mailboxes k !! a = Some (Mailbox KERNEL_MAILBOX_MAGIC message has s r) →
  s ≠ None → r ≠ None → kernel_mailbox_receive k a = Some (k', o) →
  match o with
  | Returned m => kernel_mailbox_try_receive k (Some a) = Some (k', Some m)
  | _ => mailboxes k' = mailboxes k
  end.
Proof.
  intros Hm Hs Hr. unfold kernel_mailbox_receive, kernel_mailbox_receive_round.
  rewrite (mailbox_valid k message has s r) by done. cbind. cbn [negb].
  destruct (kernel_mailbox_try_receive k (Some a)) as [[k1 b]|] eqn:Ht; cbind; [|done].
  pose proof (try_receive_cases _ _ _ _ _ _ _ Hm Hs Hr Ht) as Hcase.
  destruct b; [by intros [= <- <-]|]. destruct Hcase as [_ ->]. rewrite Hm. cbind.
  intros (Hmb & _ & Ho)%block_on_frame. by destruct o.
Qed.

Lemma sent_inv (s r : option N) k k' sent received m :
  s ≠ None → r ≠ None → mail_inv s r k sent received →
  kernel_mailbox_try_send k (Some a) m = Some (k', true) → mail_inv s r k' (sent ++ [m]) received.
Proof.
  intros Hs Hr (message & has & Hm & ->) [-> Hm']%(try_send_cases _ _ _ _ _ _ _ _ Hm Hs Hr).
  exists m, 1. split; [done|]. by rewrite app_nil_r.
Qed.

Lemma received_inv (s r : option N) k k' sent received m :
  s ≠ None → r ≠ None → mail_inv s r k sent received →
  kernel_mailbox_try_receive k (Some a) = Some (k', Some m) →
  mail_inv s r k' sent (received ++ [m]).
Proof.
  intros Hs Hr (message & has & Hm & ->) (Hh & -> & Hm')%(try_receive_cases _ _ _ _ _ _ _ Hm Hs Hr).
  exists message, 0. split; [done|]. apply nz_true in Hh. by rewrite Hh, app_nil_r.
Qed.

Lemma frame_inv (s r : option N) k k' sent received :
  mail_inv s r k sent received → mailboxes k' !! a = mailboxes k !! a → mail_inv s r k' sent received.
Proof. intros (message & has & Hm & ->) Hk. exists message, has. by rewrite Hk. Qed.

Lemma mstep_inv (s r : option N) st st' :
  s ≠ None → r ≠ None → mstep st st' →
  mail_inv s r st.1.1 st.1.2 st.2 → mail_inv s r st'.1.1 st'.1.2 st'.2.
Proof.
  intros Hs Hr Hstep Hi. pose proof Hi as (message & has & Hm & Hsent).
  destruct Hstep as [? ? ? ? ? E|? ? ? ? ? E|? ? ? ? ? E|? ? ? ? ? ? E|? ? ? ? ? E|? ? ? ? E
    |? ? ? ? ? E|? ? ? ? ? E|? ? ? ? E]; cbn [fst snd] in *.
  - by eapply sent_inv.
  - eapply try_send_cases in E as [_ ->]; done.
  - eapply send_cases in E; [|done..]. by eapply sent_inv.
  - eapply send_cases in E; [|done..]. eapply frame_inv; [done|by rewrite E].
  - by eapply received_inv.
  - eapply try_receive_cases in E as [_ ->]; done.
  - eapply receive_cases in E; [|done..]. by eapply received_inv.
  - eapply receive_cases in E; [|done..]. eapply frame_inv; [done|by rewrite E].
  - by eapply frame_inv.
Qed.

Lemma msteps_inv (s r : option N) st st' :
  s ≠ None → r ≠ None → msteps st st' →
  mail_inv s r st.1.1 st.1.2 st.2 → mail_inv s r st'.1.1 st'.1.2 st'.2.
Proof. intros Hs Hr Hst. induction Hst; [done|]. intros Hi. eapply mstep_inv; eauto. Qed.
End mailbox.

(** C18: mailboxes neither lose, nor duplicate, nor reorder messages: after
    any interleaving of senders, receivers and everything else that leaves
    the mailbox alone, the messages delivered are a prefix of the messages
    sent, the rest is at most the one message in the slot, and
    [kernel_mailbox_has_message] tells whether there is one. *)
Theorem mailbox_delivers_in_order {H} `{!Allocator H} a (k k' : kernel H) s r sent received :
  mailboxes k !! a = Some (Mailbox KERNEL_MAILBOX_MAGIC 0 0 (Some s) (Some r)) →
  msteps a (k, [], []) (k', sent, received) →
  ∃ pending, sent = received ++ pending ∧ (length pending ≤ 1)%nat ∧
    kernel_mailbox_has_message k' (Some a) = Some (bool_decide (pending ≠ [])).
Proof.
  intros Hm Hsteps. apply (msteps_inv a (Some s) (Some r)) in Hsteps; [|done..|by exists 0, 0].
  cbn [fst snd] in Hsteps. destruct Hsteps as (message & has & Hm' & ->).
  exists (if nz has then [message] else []). split; [done|]. split; [by destruct (nz has); simpl; lia|].
  unfold kernel_mailbox_has_message. rewrite (mailbox_valid a k' message has (Some s) (Some r)) by done.
  cbind. cbn [negb]. rewrite Hm'. cbind. cbn [mb_has_message]. by destruct (nz has).
Qed.

(** ** Destroying a mailbox *)

Section destroy.
Context {H : Type} `{AllocatorLaws H}.

Lemma queue_destroy_unused (k : kernel H) s ch h' :
  wait_queues k !! s = Some (WaitQueue KERNEL_WAIT_QUEUE_MAGIC ch 0) →
  hfree (heap k) s = Some h' →
  kernel_wait_queue_destroy k (Some s) =
    Some (set_heap h' (set_wait_queues (delete s (wait_queues k)) k), true).
Proof.
  intros Hs Hf. unfold kernel_wait_queue_destroy, kernel_wait_queue_is_valid, kmem_free_in.
  rewrite Hs. cbind. cbn [wq_magic wq_waiter_count heap set_wait_queues]. rewrite Hf. by cbind.
Qed.

Lemma queue_destroy_busy (k : kernel H) r ch n :
  wait_queues k !! r = Some (WaitQueue KERNEL_WAIT_QUEUE_MAGIC ch n) → n ≠ 0 →
  kernel_wait_queue_destroy k (Some r) = Some (k, false).
Proof.
  intros Hr Hn%nz_true. unfold kernel_wait_queue_destroy, kernel_wait_queue_is_valid.
  rewrite Hr. cbind. cbn [wq_magic wq_waiter_count]. rewrite N.eqb_refl. cbn [negb]. by rewrite Hn.
Qed.

(** [kernel_mailbox_destroy] frees the sender queue before it finds out
    that receivers wait: it then fails, and leaves a mailbox that still
    passes the validity test while its sender queue is a dangling
    pointer, which the next receive or sender count dereferences. *)
Theorem mailbox_destroy_leaves_dangling_queue (k : kernel H) a s r message chs chr n :
  mailboxes k !! a = Some (Mailbox KERNEL_MAILBOX_MAGIC message 0 (Some s) (Some r)) →
  wait_queues k !! s = Some (WaitQueue KERNEL_WAIT_QUEUE_MAGIC chs 0) →
  wait_queues k !! r = Some (WaitQueue KERNEL_WAIT_QUEUE_MAGIC chr n) →
  s ≠ r → n ≠ 0 → hok (heap k) → hlive (heap k) s →
  ∃ k', kernel_mailbox_destroy k (Some a) = Some (k', false) ∧
    ¬ hlive (heap k') s ∧
    kernel_mailbox_is_valid k' (Some a) = Some true ∧
    kernel_mailbox_waiting_senders k' (Some a) = None.
Proof.
  intros Hm Hs Hr Hne Hn Hok Hlive. unfold kernel_mailbox_destroy.
  rewrite (mailbox_valid a k message 0 (Some s) (Some r)) by done. cbind. cbn [negb]. rewrite Hm.
  cbind. cbn [mb_has_message mb_sender_wait_queue mb_receiver_wait_queue]. change (nz 0) with false.
  cbv iota. destruct (hfree_law (heap k) s Hok Hlive) as (h' & Hfree & _ & Hlive').
  rewrite (queue_destroy_unused k s chs h') by done. cbind. cbn [negb].
  rewrite (queue_destroy_busy _ r chr n); [|by cbn; rewrite lookup_delete_ne|done]. cbind. cbn [negb].
  eexists. split_and!; [done| | |].
  - cbn. intros [_ Hx]%Hlive'. done.
  - by apply (mailbox_valid a _ message 0 (Some s) (Some r)).
  - unfold kernel_mailbox_waiting_senders.
    rewrite (mailbox_valid a _ message 0 (Some s) (Some r)) by done. cbind. cbn [negb].
    cbn [mailboxes set_heap set_wait_queues]. rewrite Hm. cbind.
    unfold kernel_wait_queue_waiter_count, kernel_wait_queue_is_valid.
    cbn [mb_sender_wait_queue wait_queues set_heap set_wait_queues]. by rewrite lookup_delete_eq.
Qed.
End destroy.

(** ** Mutexes *)

Section mutex.
Context {H : Type} `{!Allocator H}.
Context (a : N).

(** The kernel with the pids that hold the mutex: those whose lock returned
    and that have not unlocked since. *)
Abbreviation xstate := (kernel H * list N)%type.

Inductive xstep : xstate → xstate → Prop :=
  | xstep_try_lock k k' holders :
      kernel_mutex_try_lock k (Some a) = Some (k', true) →
      xstep (k, holders) (k', process_current_pid k :: holders)
  | xstep_try_lock_fails k k' holders :
      kernel_mutex_try_lock k (Some a) = Some (k', false) →
      xstep (k, holders) (k', holders)
  | xstep_lock k k' holders :
      kernel_mutex_lock k a = Some (k', Returned tt) →
      xstep (k, holders) (k', process_current_pid k :: holders)
  | xstep_lock_waits k k' holders queue :
      kernel_mutex_lock k a = Some (k', Waits queue) →
      xstep (k, holders) (k', holders)
  | xstep_unlock k k' holders :
      kernel_mutex_unlock k (Some a) = Some (k', true) →
      xstep (k, holders) (k', filter (λ pid, pid ≠ process_current_pid k) holders)
  | xstep_unlock_fails k k' holders :
      kernel_mutex_unlock k (Some a) = Some (k', false) →
      xstep (k, holders) (k', holders)
  (** a resumed process, the scheduler, and calls on other objects *)
  | xstep_other (k k' : kernel H) holders :
      mutexes k' !! a = mutexes k !! a →
      xstep (k, holders) (k', holders).

Inductive xsteps : xstate → xstate → Prop :=
  | xsteps_refl s : xsteps s s
  | xsteps_next s1 s2 s3 : xsteps s1 s2 → xstep s2 s3 → xsteps s1 s3.

Definition mutex_inv (q : option N) (k : kernel H) (holders : list N) : Prop :=
  ∃ owner, mutexes k !! a = Some (Mutex KERNEL_MUTEX_MAGIC owner q) ∧
    holders = if nz owner then [owner] else [].

Lemma mutex_valid (k : kernel H) owner q :
  mutexes k !! a = Some (Mutex KERNEL_MUTEX_MAGIC owner q) → q ≠ None →
  kernel_mutex_is_valid k (Some a) = Some true.
Proof.
  intros Hm Hq. unfold kernel_mutex_is_valid. rewrite Hm. cbind. cbn [mx_magic mx_wait_queue].
  by rewrite N.eqb_refl, bool_decide_true.
Qed.

Lemma try_lock_cases (k : kernel H) owner q k' b :
  mutexes k !! a = Some (Mutex KERNEL_MUTEX_MAGIC owner q) → q ≠ None →
  kernel_mutex_try_lock k (Some a) = Some (k', b) →
  if b then owner = 0 ∧ process_current_pid k ≠ 0 ∧
    mutexes k' !! a = Some (Mutex KERNEL_MUTEX_MAGIC (process_current_pid k) q)
  else (owner ≠ 0 ∨ process_current_pid k = 0) ∧ k' = k.
Proof.
  intros Hm Hq. unfold kernel_mutex_try_lock. rewrite (mutex_valid _ _ _ Hm Hq). cbind. cbn [negb].
  rewrite Hm. cbind. cbn [mx_owner_pid].
  destruct (N.eqb_spec (process_current_pid k) 0); cbn [orb]; [intros [= <- <-]; tauto|].
  destruct (nz owner) eqn:Ho; bools; intros [= <- <-]; [tauto|]. split_and!; [done|done|].
  cbn. by rewrite lookup_alter_eq, Hm.
Qed.

Lemma unlock_cases (k : kernel H) owner q k' b :
  mutexes k !! a = Some (Mutex KERNEL_MUTEX_MAGIC owner q) → q ≠ None →
  kernel_mutex_unlock k (Some a) = Some (k', b) →
  if b then owner = process_current_pid k ∧ owner ≠ 0 ∧
    mutexes k' !! a = Some (Mutex KERNEL_MUTEX_MAGIC 0 q)
  else (owner ≠ process_current_pid k ∨ process_current_pid k = 0) ∧ k' = k.
Proof.
  intros Hm Hq. unfold kernel_mutex_unlock. rewrite (mutex_valid _ _ _ Hm Hq). cbind. cbn [negb].
  rewrite Hm. cbind. cbn [mx_owner_pid mx_wait_queue].
  destruct (N.eqb_spec (process_current_pid k) 0); cbn [orb]; [intros [= <- <-]; tauto|].
  destruct (N.eqb_spec owner (process_current_pid k)); cbn [negb]; [|intros [= <- <-]; tauto].
  destruct (wake_if_waiting _ q) as [k1|] eqn:Hw; cbind; [|done]. intros [= <- <-].
  apply wake_if_waiting_frame in Hw as [l ->]. split_and!; [done|congruence|].
  cbn. by rewrite lookup_alter_eq, Hm.
Qed.

Lemma lock_cases (k : kernel H) owner q k' o :
  mutexes k !! a = Some (Mutex KERNEL_MUTEX_MAGIC owner q) → q ≠ None →
  kernel_mutex_lock k a = Some (k', o) →
  match o with
  | Returned _ => kernel_mutex_try_lock k (Some a) = Some (k', true)
  | _ => mutexes k' = mutexes k
  end.
Proof.
  intros Hm Hq. unfold kernel_mutex_lock, kernel_mutex_lock_round.
  rewrite (mutex_valid _ _ _ Hm Hq). cbind. cbn [negb].
  destruct (kernel_mutex_try_lock k (Some a)) as [[k1 b]|] eqn:Ht; cbind; [|done].
  pose proof (try_lock_cases _ _ _ _ _ Hm Hq Ht) as Hcase. cbn [fst snd].
  destruct b; [by intros [= <- <-]|]. destruct Hcase as [_ ->]. rewrite Hm. cbind.
  intros (_ & Hmb & Ho)%block_on_frame. by destruct o.
Qed.

Lemma locked_inv q (k k' : kernel H) holders :
  q ≠ None → mutex_inv q k holders → kernel_mutex_try_lock k (Some a) = Some (k', true) →
  mutex_inv q k' (process_current_pid k :: holders).
Proof.
  intros Hq (owner & Hm & ->) (-> & Hpid & Hm')%(try_lock_cases _ _ _ _ _ Hm Hq).
  exists (process_current_pid k). split; [done|]. apply nz_true in Hpid. by rewrite Hpid.
Qed.

Lemma mutex_frame_inv q (k k' : kernel H) holders :
  mutex_inv q k holders → mutexes k' !! a = mutexes k !! a → mutex_inv q k' holders.
Proof. intros (owner & Hm & ->) Hk. exists owner. by rewrite Hk. Qed.

Lemma xstep_inv q st st' :
  q ≠ None → xstep st st' → mutex_inv q st.1 st.2 → mutex_inv q st'.1 st'.2.
Proof.
  intros Hq Hstep Hi. pose proof Hi as (owner & Hm & Hh).
  destruct Hstep as [? ? ? E|? ? ? E|? ? ? E|? ? ? ? E|? ? ? E|? ? ? E|? ? ? E]; cbn [fst snd] in *.
  - by eapply locked_inv.
  - eapply try_lock_cases in E as [_ ->]; done.
  - eapply lock_cases in E; [|done..]. by eapply locked_inv.
  - eapply lock_cases in E; [|done..]. eapply mutex_frame_inv; [done|by rewrite E].
  - apply (unlock_cases _ _ _ _ _ Hm Hq) in E as (-> & Hne & Hm'). exists 0. split; [done|].
    apply nz_true in Hne. rewrite Hh, Hne. rewrite filter_cons_False; [done|tauto].
  - eapply unlock_cases in E as [_ ->]; done.
  - by eapply mutex_frame_inv.
Qed.

Lemma xsteps_inv q st st' :
  q ≠ None → xsteps st st' → mutex_inv q st.1 st.2 → mutex_inv q st'.1 st'.2.
Proof. intros Hq Hst. induction Hst; [done|]. intros Hi. eapply xstep_inv; eauto. Qed.
End mutex.

(** C19: a mutex excludes: after any interleaving of locks, unlocks and
    everything else that leaves the mutex alone, at most one process holds
    it, [kernel_mutex_owner_pid] names it (0 when there is none), and an
    unlock by any other process fails and changes nothing. *)
Theorem mutex_mutual_exclusion {H} `{!Allocator H} a (k k' : kernel H) q holders :
  mutexes k !! a = Some (Mutex KERNEL_MUTEX_MAGIC 0 (Some q)) →
  xsteps a (k, []) (k', holders) →
  (length holders ≤ 1)%nat ∧
  kernel_mutex_owner_pid k' (Some a) = Some (default 0 (head holders)) ∧
  ∀ k2 b, kernel_mutex_unlock k' (Some a) = Some (k2, b) →
    if b then holders = [process_current_pid k'] ∧ kernel_mutex_owner_pid k2 (Some a) = Some 0
    else k2 = k'.
Proof.
  intros Hm Hsteps. apply (xsteps_inv a (Some q)) in Hsteps; [|done|by exists 0].
  cbn [fst snd] in Hsteps. destruct Hsteps as (owner & Hm' & ->).
  split; [by destruct (nz owner); simpl; lia|]. split.
  - unfold kernel_mutex_owner_pid. rewrite (mutex_valid a k' owner (Some q)) by done. cbind.
    cbn [negb]. rewrite Hm'. cbind. cbn [mx_owner_pid]. destruct (nz owner) eqn:Ho; [done|].
    bools. by subst.
  - intros k2 b Hu. apply (unlock_cases a k' owner (Some q)) in Hu; [|done..].
    destruct b; [|by destruct Hu]. destruct Hu as (-> & Hne & Hm2). apply nz_true in Hne.
    rewrite Hne. split; [done|]. unfold kernel_mutex_owner_pid.
    rewrite (mutex_valid a k2 0 (Some q)) by done. cbind. cbn [negb]. by rewrite Hm2.
Qed.

(** * The kernel-object theorems at concrete states

    Two processes, the first running, over the kernel heap of [Kmem.v]. *)

(** A semaphore at 100 with its queue at 200, a mailbox at 300 with queues at
    400 and 500, and a mutex at 600 with its queue at 700. *)
Definition demo_objects (count receivers : N) (heap : kmem) : kernel kmem :=
  Kernel heap 4
    (<[200 := WaitQueue KERNEL_WAIT_QUEUE_MAGIC 1 0]>
       (<[400 := WaitQueue KERNEL_WAIT_QUEUE_MAGIC 2 0]>
          (<[500 := WaitQueue KERNEL_WAIT_QUEUE_MAGIC 3 receivers]>
             (<[700 := WaitQueue KERNEL_WAIT_QUEUE_MAGIC 4 0]>
                (<[12 := WaitQueue KERNEL_WAIT_QUEUE_MAGIC 5 0]> ∅)))))
    ∅
    {[100 := Semaphore KERNEL_SEMAPHORE_MAGIC count 5 (Some 200)]}
    {[600 := Mutex KERNEL_MUTEX_MAGIC 0 (Some 700)]}
    (<[300 := Mailbox KERNEL_MAILBOX_MAGIC 0 0 (Some 400) (Some 500)]>
       {[800 := Mailbox KERNEL_MAILBOX_MAGIC 0 0 (Some 12) (Some 500)]})
    [demo_process 1 PROCESS_STATE_RUNNING; demo_process 2 PROCESS_STATE_READY] 0.

Definition demo_kernel : kernel kmem := demo_objects 0 0 (kmem_init kmem_reset).

(** The first process waits: it is the one process inside, and no unit is
    available. *)
Lemma semaphore_no_lost_wakeup_witness :
  ∃ k', kernel_semaphore_acquire demo_kernel 100 = Some (k', Waits 200) ∧
    blocked_on 1 (processes k') = {[0]} ∧
    ∃ count, kernel_semaphore_count k' (Some 100) = Some count ∧ count ≤ 5 ∧
      kernel_semaphore_waiter_count k' (Some 100) = Some 1.
Proof.
  destruct (kernel_semaphore_acquire demo_kernel 100) as [[k' o]|] eqn:Ha; [|vm_compute in Ha; done].
  assert (o = Waits 200) as -> by (vm_compute in Ha; congruence).
  assert (processes k' = [set_wait_channel 1 (set_wait_reason PROCESS_WAIT_EVENT_CHANNEL
            (set_state PROCESS_STATE_BLOCKED (demo_process 1 PROCESS_STATE_RUNNING)));
          demo_process 2 PROCESS_STATE_READY]) as Hp
    by (vm_compute in Ha; injection Ha as <-; vm_compute; reflexivity).
  exists k'. split; [reflexivity|]. split; [by rewrite Hp; vm_compute|].
  destruct (semaphore_no_lost_wakeup 100 200 1 demo_kernel k' {[0]} 0 5) as
    (count & Hc & Hle & Hw & _).
  - lia.
  - lia.
  - vm_compute; reflexivity.
  - vm_compute; reflexivity.
  - vm_compute; reflexivity.
  - right. vm_compute. reflexivity.
  - vm_compute. by split.
  - assert ({[0]} = {[current_process_index demo_kernel]} ∪ ∅) as ->
      by (vm_compute; reflexivity).
    eapply steps_next; [apply steps_refl|]. eapply step_acquire_wait; [set_solver|exact Ha].
  - exists count. rewrite size_singleton in Hw. split; [exact Hc|]. split; [exact Hle|exact Hw].
Defined.

Lemma mailbox_create_all_or_nothing_witness :
  ∃ k' r, kernel_mailbox_create demo_kernel = Some (k', r) ∧ r = Some 12 ∧
    kmem_ok (heap k').
Proof.
  destruct (mailbox_create_all_or_nothing demo_kernel) as (k' & r & Hc & Hr);
    [exact init_ok|].
  assert (r = Some 12) as -> by (vm_compute in Hc; congruence).
  destruct Hr as (b & c & (Hok & _) & _). exists k', (Some 12).
  split; [exact Hc|]. split; [reflexivity|exact Hok].
Defined.

(** A message sent and received. *)
Lemma mailbox_delivers_in_order_witness :
  ∃ k1 k2, kernel_mailbox_try_send demo_kernel (Some 300) 7 = Some (k1, true) ∧
    kernel_mailbox_try_receive k1 (Some 300) = Some (k2, Some 7) ∧
    kernel_mailbox_has_message k2 (Some 300) = Some false.
Proof.
  destruct (kernel_mailbox_try_send demo_kernel (Some 300) 7) as [[k1 b]|] eqn:Hs;
    [|vm_compute in Hs; done].
  assert (b = true) as -> by (vm_compute in Hs; congruence).
  destruct (kernel_mailbox_try_receive k1 (Some 300)) as [[k2 o]|] eqn:Hr.
  2:{ vm_compute in Hs. injection Hs as <-. vm_compute in Hr. done. }
  assert (o = Some 7) as ->.
  { vm_compute in Hs. injection Hs as <-. vm_compute in Hr. congruence. }
  exists k1, k2. split; [reflexivity|]. split; [exact Hr|].
  destruct (mailbox_delivers_in_order 300 demo_kernel k2 400 500 [7] [7]) as (pending & Hp & _ & Hh).
  - vm_compute; reflexivity.
  - eapply msteps_next; [eapply msteps_next; [apply msteps_refl|]|].
    + by apply (mstep_try_send 300 _ k1 [] [] 7).
    + by apply (mstep_try_receive 300 _ k2 [7] [] 7).
  - destruct pending; [exact Hh|done].
Defined.

Definition demo_created : kernel kmem := demo_objects 0 1 demo_heap.

Lemma mailbox_destroy_leaves_dangling_queue_witness :
  ∃ k', kernel_mailbox_destroy demo_created (Some 800) = Some (k', false) ∧
    kernel_mailbox_waiting_senders k' (Some 800) = None.
Proof.
  destruct (mailbox_destroy_leaves_dangling_queue demo_created 800 12 500 0 5 3 1)
    as (k' & Hd & _ & _ & Hw); try (vm_compute; reflexivity); try lia.
  - exact demo_heap_ok.
  - exists 16, (Block 0 16 1). split; [left|split; [reflexivity|split; reflexivity]].
  - exists k'. split; [exact Hd|exact Hw].
Defined.

(** The first process locks; the second cannot unlock. *)
Lemma mutex_mutual_exclusion_witness :
  ∃ k1, kernel_mutex_lock demo_kernel 600 = Some (k1, Returned tt) ∧
    kernel_mutex_owner_pid (set_current 1 k1) (Some 600) = Some 1 ∧
    ∀ k2 b, kernel_mutex_unlock (set_current 1 k1) (Some 600) = Some (k2, b) →
      if b then [1] = [2] ∧ kernel_mutex_owner_pid k2 (Some 600) = Some 0
      else k2 = set_current 1 k1.
Proof.
  destruct (kernel_mutex_lock demo_kernel 600) as [[k1 o]|] eqn:Hl; [|vm_compute in Hl; done].
  assert (o = Returned tt) as -> by (vm_compute in Hl; congruence).
  exists k1. split; [reflexivity|].
  destruct (mutex_mutual_exclusion 600 demo_kernel (set_current 1 k1) 700 [1]) as (_ & Ho & Hu).
  - vm_compute; reflexivity.
  - eapply xsteps_next; [eapply xsteps_next; [apply xsteps_refl|]|].
    + by apply (xstep_lock 600 demo_kernel k1 []).
    + by apply xstep_other.
  - split; [exact Ho|]. vm_compute in Hl. injection Hl as <-. exact Hu.
Defined.
