(* ===== verification/RuntimeUi.v ===== *)
(** * UI events, timers and input ([kernel/runtime_ui.c], [runtime_input.c])

    The event queue is a ring of sixteen events, the timer table eight slots.
    A NULL pointer is [None]; an operation is [None] when it would leave the
    ring's array. *)

From S2P Require Import Prelude.

Local Open Scope N_scope.

Definition RUNTIME_UI_EVENT_QUEUE_CAPACITY : N := 16.
Definition RUNTIME_UI_TIMER_CAPACITY : N := 8.

Definition RUNTIME_UI_EVENT_NONE : N := 0.
Definition RUNTIME_UI_EVENT_INPUT_KEY : N := 1.
Definition RUNTIME_UI_EVENT_INPUT_POINTER_MOVE : N := 2.
Definition RUNTIME_UI_EVENT_INPUT_POINTER_BUTTON : N := 3.
Definition RUNTIME_UI_EVENT_FOCUS : N := 4.
Definition RUNTIME_UI_EVENT_TIMER : N := 5.

Record runtime_ui_event := UiEvent {
  ue_type : N;
  ue_target_pid : N;
  ue_tick : N;
  ue_arg0 : N;
  ue_arg1 : N;
  ue_arg2 : N
}.

Record runtime_ui_event_queue := UiQueue {
  uq_events : list runtime_ui_event;
  uq_read_index : N;
  uq_count : N
}.

Record runtime_ui_timer_entry := UiTimer {
  ut_owner_pid : N;
  ut_due_tick : N;
  ut_token : N;
  ut_active : N
}.

Abbreviation timer_table := (list runtime_ui_timer_entry).

Definition cleared_timer : runtime_ui_timer_entry := UiTimer 0 0 0 0.

(** ** The event queue *)

Definition runtime_ui_event_queue_write_index (queue : runtime_ui_event_queue) : N :=
  u32 (uq_read_index queue + uq_count queue) mod RUNTIME_UI_EVENT_QUEUE_CAPACITY.

Definition runtime_ui_event_queue_init (queue : option runtime_ui_event_queue)
  : option runtime_ui_event_queue :=
  match queue with
  | None => None
  | Some q => Some (UiQueue (uq_events q) 0 0)
  end.

Definition runtime_ui_event_push (queue : option runtime_ui_event_queue)
    (event : option runtime_ui_event) : option (option runtime_ui_event_queue * Z) :=
  match queue, event with
  | Some q, Some e =>
      if ue_type e =? RUNTIME_UI_EVENT_NONE then Some (queue, RUNTIME_SYSCALL_STATUS_EINVAL)
      else if RUNTIME_UI_EVENT_QUEUE_CAPACITY <=? uq_count q
      then Some (queue, RUNTIME_SYSCALL_STATUS_ENOSPC)
      else
        events ← aset (uq_events q) (runtime_ui_event_queue_write_index q) e;
        Some (Some (UiQueue events (uq_read_index q) (u32 (uq_count q + 1))),
              RUNTIME_SYSCALL_STATUS_OK)
  | _, _ => Some (queue, RUNTIME_SYSCALL_STATUS_EINVAL)
  end.

(** [event] tells whether the destination pointer is not NULL; the event
    stored there comes with the status. *)
Definition runtime_ui_event_peek (queue : option runtime_ui_event_queue) (event : bool)
  : option (Z * option runtime_ui_event) :=
  match queue, event with
  | Some q, true =>
      if uq_count q =? 0 then Some (RUNTIME_SYSCALL_STATUS_ENOENT, None)
      else e ← aget (uq_events q) (uq_read_index q); Some (RUNTIME_SYSCALL_STATUS_OK, Some e)
  | _, _ => Some (RUNTIME_SYSCALL_STATUS_EINVAL, None)
  end.

Definition runtime_ui_event_pop (queue : option runtime_ui_event_queue) (event : bool)
  : option (option runtime_ui_event_queue * Z * option runtime_ui_event) :=
  r ← runtime_ui_event_peek queue event;
  let '(status, e) := r in
  if negb (Z.eqb status RUNTIME_SYSCALL_STATUS_OK) then Some (queue, status, e)
  else
    Some ((λ q, UiQueue (uq_events q) (u32 (uq_read_index q + 1) mod RUNTIME_UI_EVENT_QUEUE_CAPACITY)
                  (sub32 (uq_count q) 1)) <$> queue, RUNTIME_SYSCALL_STATUS_OK, e).

(** ** Timers *)

Definition runtime_ui_timer_table_init (table : option timer_table) : option timer_table :=
  match table with
  | None => None
  | Some t => Some ((λ _, cleared_timer) <$> t)
  end.

Definition timer_matches (owner_pid token : N) (e : runtime_ui_timer_entry) : bool :=
  nz (ut_active e) && (ut_owner_pid e =? owner_pid) && (ut_token e =? token).
Definition set_due_tick (v : N) (e : runtime_ui_timer_entry) : runtime_ui_timer_entry :=
  UiTimer (ut_owner_pid e) v (ut_token e) (ut_active e).

Definition runtime_ui_timer_arm (table : option timer_table) (owner_pid due_tick token : N)
  : option timer_table * Z :=
  match table with
  | Some t =>
      if owner_pid =? 0 then (table, RUNTIME_SYSCALL_STATUS_EINVAL)
      else
        match find_idx (λ _ e, timer_matches owner_pid token e) t with
        | Some index => (Some (aupd t index (set_due_tick due_tick)), RUNTIME_SYSCALL_STATUS_OK)
        | None =>
            match find_idx (λ _ e, negb (nz (ut_active e))) t with
            | Some index =>
                (Some (aupd t index (λ _, UiTimer owner_pid due_tick token 1)),
                 RUNTIME_SYSCALL_STATUS_OK)
            | None => (table, RUNTIME_SYSCALL_STATUS_ENOSPC)
            end
        end
  | None => (table, RUNTIME_SYSCALL_STATUS_EINVAL)
  end.

Definition runtime_ui_timer_cancel (table : option timer_table) (owner_pid token : N)
  : option timer_table * Z :=
  match table with
  | Some t =>
      if owner_pid =? 0 then (table, RUNTIME_SYSCALL_STATUS_EINVAL)
      else
        match find_idx (λ _ e, timer_matches owner_pid token e) t with
        | Some index => (Some (aupd t index (λ _, cleared_timer)), RUNTIME_SYSCALL_STATUS_OK)
        | None => (table, RUNTIME_SYSCALL_STATUS_ENOENT)
        end
  | None => (table, RUNTIME_SYSCALL_STATUS_EINVAL)
  end.

Fixpoint next_due_loop (t : timer_table) (found best_due : N) : N * N :=
  match t with
  | [] => (found, best_due)
  | e :: rest =>
      if ut_active e =? 0 then next_due_loop rest found best_due
      else if (found =? 0) || (ut_due_tick e <? best_due) then next_due_loop rest 1 (ut_due_tick e)
      else next_due_loop rest found best_due
  end.

Definition runtime_ui_timer_next_due (table : option timer_table) (due_tick : bool)
  : Z * option N :=
  match table, due_tick with
  | Some t, true =>
      let '(found, best_due) := next_due_loop t 0 0 in
      if found =? 0 then (RUNTIME_SYSCALL_STATUS_ENOENT, None)
      else (RUNTIME_SYSCALL_STATUS_OK, Some best_due)
  | _, _ => (RUNTIME_SYSCALL_STATUS_EINVAL, None)
  end.

Definition timer_event (current_tick : N) (e : runtime_ui_timer_entry) : runtime_ui_event :=
  UiEvent RUNTIME_UI_EVENT_TIMER (ut_owner_pid e) current_tick (ut_token e) (ut_due_tick e) 0.

(** [continue] when the timer is not due, [break] when the queue is full. *)
Fixpoint collect_loop (t : timer_table) (current_tick : N) (queue : option runtime_ui_event_queue)
  : option (timer_table * option runtime_ui_event_queue * N) :=
  match t with
  | [] => Some ([], queue, 0)
  | e :: rest =>
      if (ut_active e =? 0) || (current_tick <? ut_due_tick e) then
        r ← collect_loop rest current_tick queue;
        let '(rest', queue', produced) := r in
        Some (e :: rest', queue', produced)
      else
        p ← runtime_ui_event_push queue (Some (timer_event current_tick e));
        let '(queue1, status) := p in
        if negb (Z.eqb status RUNTIME_SYSCALL_STATUS_OK) then Some (e :: rest, queue1, 0)
        else
          r ← collect_loop rest current_tick queue1;
          let '(rest', queue', produced) := r in
          Some (cleared_timer :: rest', queue', 1 + produced)
  end.

Definition runtime_ui_timer_collect_due (table : option timer_table) (current_tick : N)
    (queue : option runtime_ui_event_queue)
  : option (option timer_table * option runtime_ui_event_queue * N) :=
  match table, queue with
  | Some t, Some _ =>
      r ← collect_loop t current_tick queue;
      let '(t', queue', produced) := r in
      Some (Some t', queue', produced)
  | _, _ => Some (table, queue, 0)
  end.

(** ** The input service *)

Definition RUNTIME_INPUT_REQUEST_FLAGS : N := 1.
Definition RUNTIME_INPUT_REQUEST_DEPTH : N := 2.

Record runtime_input_service := InputService {
  in_flags : N;
  in_queue : runtime_ui_event_queue
}.

Definition runtime_input_push (service : option runtime_input_service)
    (type target_pid tick arg0 arg1 arg2 : N) : option (option runtime_input_service * Z) :=
  match service with
  | None => Some (service, RUNTIME_SYSCALL_STATUS_EINVAL)
  | Some s =>
      match runtime_ui_event_push (Some (in_queue s))
              (Some (UiEvent type target_pid tick arg0 arg1 arg2)) with
      | Some (queue, status) => Some (InputService (in_flags s) <$> queue, status)
      | None => None
      end
  end.

Definition runtime_input_service_init (service : option runtime_input_service) (flags : N)
  : option runtime_input_service :=
  match service with
  | None => None
  | Some s => InputService flags <$> runtime_ui_event_queue_init (Some (in_queue s))
  end.

Definition runtime_input_service_request (service : option runtime_input_service) (request : N)
    (response : bool) : Z * option N :=
  match service, response with
  | Some s, true =>
      if request =? RUNTIME_INPUT_REQUEST_FLAGS
      then (RUNTIME_SYSCALL_STATUS_OK, Some (in_flags s))
      else if request =? RUNTIME_INPUT_REQUEST_DEPTH
      then (RUNTIME_SYSCALL_STATUS_OK, Some (uq_count (in_queue s)))
      else (RUNTIME_SYSCALL_STATUS_ENOSYS, None)
  | _, _ => (RUNTIME_SYSCALL_STATUS_EINVAL, None)
  end.

Definition runtime_input_push_key service (target_pid tick keycode pressed : N) :=
  runtime_input_push service RUNTIME_UI_EVENT_INPUT_KEY target_pid tick keycode pressed 0.
Definition runtime_input_push_pointer_move service (target_pid tick x y : N) :=
  runtime_input_push service RUNTIME_UI_EVENT_INPUT_POINTER_MOVE target_pid tick x y 0.
Definition runtime_input_push_pointer_button service (target_pid tick button pressed : N) :=
  runtime_input_push service RUNTIME_UI_EVENT_INPUT_POINTER_BUTTON target_pid tick button pressed 0.
Definition runtime_input_push_focus service (target_pid tick focused : N) :=
  runtime_input_push service RUNTIME_UI_EVENT_FOCUS target_pid tick focused 0 0.

Definition runtime_input_pop (service : option runtime_input_service) (event : bool)
  : option (option runtime_input_service * Z * option runtime_ui_event) :=
  match service with
  | None => Some (service, RUNTIME_SYSCALL_STATUS_EINVAL, None)
  | Some s =>
      match runtime_ui_event_pop (Some (in_queue s)) event with
      | Some (queue, status, e) => Some (InputService (in_flags s) <$> queue, status, e)
      | None => None
      end
  end.

(** * The UI event queue is a bounded FIFO, the timer table a bounded map

    The ring refines a list of at most sixteen events; the timer slots refine
    a finite map from (owner, token) to the due tick; collecting moves due
    timers into the queue, never losing one. *)

(** ** The ring as a list *)

Record queue_ok (q : runtime_ui_event_queue) : Prop := {
  qo_length : N.of_nat (length (uq_events q)) = RUNTIME_UI_EVENT_QUEUE_CAPACITY;
  qo_read : uq_read_index q < RUNTIME_UI_EVENT_QUEUE_CAPACITY;
  qo_count : uq_count q ≤ RUNTIME_UI_EVENT_QUEUE_CAPACITY
}.

(** The queued events, oldest first. *)
Definition queued (q : runtime_ui_event_queue) : list runtime_ui_event :=
  take (N.to_nat (uq_count q)) (drop (N.to_nat (uq_read_index q)) (uq_events q ++ uq_events q)).

Lemma lookup_queued q i :
  queue_ok q →
  queued q !! i =
    if decide (i < N.to_nat (uq_count q))%nat
    then aget (uq_events q) ((uq_read_index q + N.of_nat i) mod 16) else None.
Proof.
  intros [Hl Hr Hc]. change RUNTIME_UI_EVENT_QUEUE_CAPACITY with 16 in *. unfold queued.
  case_decide; [|by rewrite lookup_take_ge by lia].
  rewrite lookup_take_lt by lia. rewrite lookup_drop, aget_lookup.
  destruct (decide (N.to_nat (uq_read_index q) + i < length (uq_events q))%nat).
  - rewrite lookup_app_l by done. rewrite N.mod_small by lia. f_equal. lia.
  - rewrite lookup_app_r by lia. f_equal.
    rewrite <-(N.mod_unique (uq_read_index q + N.of_nat i) 16 1
                 (uq_read_index q + N.of_nat i - 16)) by lia. lia.
Qed.

Lemma length_queued q : queue_ok q → length (queued q) = N.to_nat (uq_count q).
Proof.
  intros [Hl Hr Hc]. change RUNTIME_UI_EVENT_QUEUE_CAPACITY with 16 in *. unfold queued.
  rewrite length_take, length_drop, length_app. lia.
Qed.

Lemma push_ok q e :
  queue_ok q → ue_type e ≠ RUNTIME_UI_EVENT_NONE → (length (queued q) < 16)%nat →
  ∃ q', runtime_ui_event_push (Some q) (Some e) = Some (Some q', RUNTIME_SYSCALL_STATUS_OK) ∧
    queue_ok q' ∧ queued q' = queued q ++ [e].
Proof.
  intros Hok Hty Hlen. pose proof Hok as [Hl Hr Hc].
  pose proof (length_queued q Hok) as Hlc. rewrite Hlc in Hlen. clear Hlc.
  unfold runtime_ui_event_push. destruct (N.eqb_spec (ue_type e) RUNTIME_UI_EVENT_NONE); [done|].
  change RUNTIME_UI_EVENT_QUEUE_CAPACITY with 16 in *.
  destruct (N.leb_spec 16 (uq_count q)); [lia|].
  unfold runtime_ui_event_queue_write_index. change RUNTIME_UI_EVENT_QUEUE_CAPACITY with 16.
  rewrite !u32_small by lia. set (w := (uq_read_index q + uq_count q) mod 16).
  assert (w < 16) as Hw by (by apply N.mod_lt). rewrite aset_Some by lia. cbind.
  eexists. split; [done|].
  assert (queue_ok (UiQueue (<[N.to_nat w:=e]> (uq_events q)) (uq_read_index q) (uq_count q + 1)))
    as Hok'.
  { split; cbn [uq_events uq_read_index uq_count]; change RUNTIME_UI_EVENT_QUEUE_CAPACITY with 16;
      rewrite ?length_insert; lia. }
  split; [done|]. apply list_eq. intros i. rewrite (lookup_queued _ _ Hok').
  cbn [uq_events uq_read_index uq_count]. rewrite aget_lookup.
  destruct (decide (i < N.to_nat (uq_count q))%nat).
  - rewrite decide_True by lia. rewrite lookup_app_l by (by rewrite length_queued).
    rewrite lookup_queued, decide_True, aget_lookup by done.
    apply list_lookup_insert_ne. unfold w.
    pose proof (N.div_mod (uq_read_index q + uq_count q) 16 ltac:(lia)).
    pose proof (N.div_mod (uq_read_index q + N.of_nat i) 16 ltac:(lia)).
    pose proof (N.mod_lt (uq_read_index q + uq_count q) 16 ltac:(lia)).
    pose proof (N.mod_lt (uq_read_index q + N.of_nat i) 16 ltac:(lia)). nia.
  - rewrite lookup_app_r by (rewrite length_queued; [lia|done]).
    rewrite length_queued by done. case_decide.
    + replace i with (N.to_nat (uq_count q)) by lia. rewrite Nat.sub_diag, N2Nat.id.
      rewrite list_lookup_insert_eq by lia. done.
    + symmetry. apply lookup_ge_None. simpl. lia.
Qed.

Lemma push_full q e :
  queue_ok q → ue_type e ≠ RUNTIME_UI_EVENT_NONE → (16 ≤ length (queued q))%nat →
  runtime_ui_event_push (Some q) (Some e) = Some (Some q, RUNTIME_SYSCALL_STATUS_ENOSPC).
Proof.
  intros Hok Hty Hlen. rewrite length_queued in Hlen by done. unfold runtime_ui_event_push.
  destruct (N.eqb_spec (ue_type e) RUNTIME_UI_EVENT_NONE); [done|].
  change RUNTIME_UI_EVENT_QUEUE_CAPACITY with 16. by destruct (N.leb_spec 16 (uq_count q)); [|lia].
Qed.

Lemma pop_empty q :
  queue_ok q → queued q = [] →
  runtime_ui_event_pop (Some q) true = Some (Some q, RUNTIME_SYSCALL_STATUS_ENOENT, None).
Proof.
  intros Hok Hnil. apply (f_equal length) in Hnil. rewrite length_queued in Hnil by done.
  simpl in Hnil. unfold runtime_ui_event_pop, runtime_ui_event_peek.
  by destruct (N.eqb_spec (uq_count q) 0); [|lia].
Qed.

Lemma pop_cons q e rest :
  queue_ok q → queued q = e :: rest →
  runtime_ui_event_peek (Some q) true = Some (RUNTIME_SYSCALL_STATUS_OK, Some e) ∧
  ∃ q', runtime_ui_event_pop (Some q) true = Some (Some q', RUNTIME_SYSCALL_STATUS_OK, Some e) ∧
    queue_ok q' ∧ queued q' = rest.
Proof.
  intros Hok Hcons. pose proof Hok as [Hl Hr Hc].
  change RUNTIME_UI_EVENT_QUEUE_CAPACITY with 16 in *.
  pose proof (length_queued q Hok) as Hlen. rewrite Hcons in Hlen. simpl in Hlen.
  pose proof (lookup_queued q 0 Hok) as Hhead. rewrite Hcons, decide_True in Hhead by lia.
  simpl in Hhead. rewrite N.add_0_r, N.mod_small in Hhead by lia.
  assert (runtime_ui_event_peek (Some q) true = Some (RUNTIME_SYSCALL_STATUS_OK, Some e)) as Hpeek.
  { unfold runtime_ui_event_peek. destruct (N.eqb_spec (uq_count q) 0); [lia|]. by rewrite <-Hhead. }
  split; [done|]. unfold runtime_ui_event_pop. rewrite Hpeek. cbind. cbn [fmap option_fmap option_map].
  eexists. split; [done|]. change RUNTIME_UI_EVENT_QUEUE_CAPACITY with 16.
  rewrite u32_small by lia. unfold sub32. rewrite (u32_small 1) by lia.
  replace (u32 (uq_count q + 4294967296 - 1)) with (uq_count q - 1).
  2:{ unfold u32. apply (N.mod_unique _ _ 1); lia. }
  assert (queue_ok (UiQueue (uq_events q) ((uq_read_index q + 1) mod 16) (uq_count q - 1))) as Hok'.
  { split; cbn [uq_events uq_read_index uq_count]; change RUNTIME_UI_EVENT_QUEUE_CAPACITY with 16;
      [done|by apply N.mod_lt|lia]. }
  split; [done|]. apply list_eq. intros i. rewrite (lookup_queued _ _ Hok').
  change (rest !! i) with ((e :: rest) !! S i). rewrite <-Hcons, (lookup_queued q (S i) Hok).
  cbn [uq_events uq_read_index uq_count]. repeat case_decide; try lia; [|done].
  f_equal. rewrite N.Div0.add_mod_idemp_l. f_equal. lia.
Qed.

(** The event queue is a FIFO of at most sixteen events, whatever the
    position of the ring: a push appends the event, fails with ENOSPC on a
    full queue and with EINVAL on an event without a type, changing nothing;
    peek and pop deliver the oldest event, and pop removes exactly it;
    popping an empty queue fails with ENOENT. *)
Theorem ui_event_queue_is_fifo q :
  queue_ok q →
  (∀ e, ∃ q', queue_ok q' ∧
     if decide (ue_type e = RUNTIME_UI_EVENT_NONE) then
       q' = q ∧
       runtime_ui_event_push (Some q) (Some e) = Some (Some q', RUNTIME_SYSCALL_STATUS_EINVAL)
     else if decide (length (queued q) < 16)%nat then
       queued q' = queued q ++ [e] ∧
       runtime_ui_event_push (Some q) (Some e) = Some (Some q', RUNTIME_SYSCALL_STATUS_OK)
     else
       q' = q ∧
       runtime_ui_event_push (Some q) (Some e) = Some (Some q', RUNTIME_SYSCALL_STATUS_ENOSPC)) ∧
  match queued q with
  | [] => runtime_ui_event_pop (Some q) true = Some (Some q, RUNTIME_SYSCALL_STATUS_ENOENT, None)
  | e :: rest =>
      runtime_ui_event_peek (Some q) true = Some (RUNTIME_SYSCALL_STATUS_OK, Some e) ∧
      ∃ q', runtime_ui_event_pop (Some q) true = Some (Some q', RUNTIME_SYSCALL_STATUS_OK, Some e) ∧
        queue_ok q' ∧ queued q' = rest
  end.
Proof.
  intros Hok. split.
  - intros e. repeat case_decide.
    + exists q. split_and!; [done|done|]. unfold runtime_ui_event_push.
      by destruct (N.eqb_spec (ue_type e) RUNTIME_UI_EVENT_NONE).
    + destruct (push_ok q e) as (q' & ? & ? & ?); [done..|]. by exists q'.
    + exists q. split_and!; [done|done|]. apply push_full; [done..|lia].
  - destruct (queued q) eqn:Hc; [by apply pop_empty|by apply pop_cons].
Qed.

(** ** Collecting the due timers *)

Definition is_active (e : runtime_ui_timer_entry) : bool := negb (ut_active e =? 0).
Definition is_due (current_tick : N) (e : runtime_ui_timer_entry) : Prop :=
  is_active e = true ∧ ut_due_tick e ≤ current_tick.
#[export] Instance is_due_dec tick e : Decision (is_due tick e).
Proof. unfold is_due. apply _. Defined.

(** The timers that stay armed when the first [n] due ones are cleared. *)
Fixpoint clear_due (current_tick : N) (n : nat) (t : timer_table) : timer_table :=
  match t with
  | [] => []
  | e :: rest =>
      if decide (is_due current_tick e)
      then match n with O => e :: rest | S n' => cleared_timer :: clear_due current_tick n' rest end
      else e :: clear_due current_tick n rest
  end.

Lemma clear_due_zero tick t : clear_due tick 0 t = t.
Proof. induction t as [|e t IH]; simpl; [done|]. case_decide; [done|]. by rewrite IH. Qed.

Lemma not_due_test tick e :
  (ut_active e =? 0) || (tick <? ut_due_tick e) = negb (bool_decide (is_due tick e)).
Proof.
  apply eq_true_iff_eq. rewrite orb_true_iff, negb_true_iff, bool_decide_eq_false, N.eqb_eq, N.ltb_lt.
  unfold is_due, is_active. rewrite negb_true_iff, N.eqb_neq.
  destruct (decide (ut_active e = 0)), (N.lt_ge_cases tick (ut_due_tick e)); naive_solver lia.
Qed.

Lemma collect_loop_spec t tick q :
  queue_ok q →
  let due := filter (is_due tick) t in
  let n := Nat.min (length due) (16 - length (queued q)) in
  ∃ q', collect_loop t tick (Some q) = Some (clear_due tick n t, Some q', N.of_nat n) ∧ queue_ok q' ∧
    queued q' = queued q ++ (timer_event tick <$> take n due).
Proof.
  revert q. induction t as [|e t IH]; intros q Hok.
  { exists q. split; [reflexivity|]. split; [done|]. by rewrite app_nil_r. }
  cbn zeta in *. cbn [collect_loop clear_due]. rewrite not_due_test, filter_cons.
  case_bool_decide as Hd; cbn [negb].
  2:{ destruct (decide (is_due tick e)); [done|]. destruct (IH q Hok) as (q' & Hloop & Hok' & Hq').
      exists q'. split; [|done]. rewrite Hloop. cbind. done. }
  destruct (decide (is_due tick e)); [|done]. cbn [length].
  destruct (decide (length (queued q) < 16)%nat) as [Hlt|Hge].
  - destruct (push_ok q (timer_event tick e) Hok) as (q1 & Hp & Hok1 & Hq1); [done|done|].
    rewrite Hp. cbind. cbn [negb Z.eqb RUNTIME_SYSCALL_STATUS_OK].
    destruct (IH q1 Hok1) as (q' & Hloop & Hok' & Hq'). rewrite Hq1, length_app in Hloop, Hq'.
    cbn [length] in *. set (m := Nat.min (length (filter (is_due tick) t)) (16 - (length (queued q) + 1))) in *.
    replace (Nat.min (S (length (filter (is_due tick) t))) (16 - length (queued q)))
      with (S m) by lia.
    exists q'. rewrite Hloop. cbind.
    split_and!; [do 2 f_equal; lia|done|]. rewrite Hq', <-app_assoc. done.
  - rewrite push_full; [|done|done|lia]. cbind. cbn [negb Z.eqb RUNTIME_SYSCALL_STATUS_OK RUNTIME_SYSCALL_STATUS_ENOSPC].
    replace (16 - length (queued q))%nat with 0%nat by lia. rewrite Nat.min_0_r.
    exists q. rewrite take_0.
    split_and!; [done|done|]. by rewrite app_nil_r.
Qed.

Lemma clear_due_kept tick n t :
  length (clear_due tick n t) = length t ∧
  filter (is_due tick) (clear_due tick n t) = drop n (filter (is_due tick) t) ∧
  filter (λ e, is_active e = true ∧ ¬ is_due tick e) (clear_due tick n t) =
    filter (λ e, is_active e = true ∧ ¬ is_due tick e) t.
Proof.
  revert n. induction t as [|e t IH]; intros n; [by destruct n|]. cbn [clear_due].
  destruct (decide (is_due tick e)) as [Hd|Hd].
  - destruct n as [|n]; [done|]. destruct (IH n) as (Hl & Hf & Hk). cbn [length]. split; [by f_equal|].
    rewrite !filter_cons.
    rewrite (decide_False (P:=is_due tick cleared_timer)) by (by intros []).
    rewrite (decide_True (P:=is_due tick e)) by done.
    rewrite (decide_False (P:=is_active cleared_timer = true ∧ _)) by (by intros []).
    rewrite (decide_False (P:=is_active e = true ∧ _)) by (by intros []). done.
  - destruct (IH n) as (Hl & Hf & Hk). cbn [length]. split; [by f_equal|].
    rewrite !filter_cons. destruct (decide (is_due tick e)); [done|].
    split; [done|]. case_decide; [by rewrite Hk|done].
Qed.

(** [runtime_ui_timer_collect_due] turns due timers into events without
    losing one: it queues, in slot order, an event for each due timer as
    long as the queue has room, clears exactly the timers it queued, returns
    their number, and leaves the other due timers and all timers that are not
    due armed for a later call. *)
Theorem ui_timer_collect_due_loses_nothing t tick q :
  queue_ok q →
  let due := filter (is_due tick) t in
  let n := Nat.min (length due) (16 - length (queued q)) in
  ∃ t' q', runtime_ui_timer_collect_due (Some t) tick (Some q) =
      Some (Some t', Some q', N.of_nat n) ∧ queue_ok q' ∧
    queued q' = queued q ++ (timer_event tick <$> take n due) ∧
    length t' = length t ∧
    filter (is_due tick) t' = drop n due ∧
    filter (λ e, is_active e = true ∧ ¬ is_due tick e) t' =
      filter (λ e, is_active e = true ∧ ¬ is_due tick e) t.
Proof.
  intros Hok due n. destruct (collect_loop_spec t tick q Hok) as (q' & Hloop & Hok' & Hq').
  exists (clear_due tick n t), q'. unfold runtime_ui_timer_collect_due. rewrite Hloop. cbind.
  split_and!; [done|done|done|..]; apply clear_due_kept.
Qed.

(** ** At concrete states *)

(** Fifteen queued events, the oldest in slot 10. *)
Definition demo_event (arg : N) : runtime_ui_event := UiEvent RUNTIME_UI_EVENT_INPUT_KEY 1 0 arg 0 0.
Definition demo_queue : runtime_ui_event_queue :=
  UiQueue (demo_event ∘ N.of_nat <$> seq 0 16) 10 15.

Lemma demo_queue_ok : queue_ok demo_queue.
Proof. split; vm_compute; congruence. Qed.

Lemma ui_event_queue_is_fifo_witness :
  ∃ q', runtime_ui_event_push (Some demo_queue) (Some (demo_event 99)) =
      Some (Some q', RUNTIME_SYSCALL_STATUS_OK) ∧
    queued q' = queued demo_queue ++ [demo_event 99] ∧
    head (queued demo_queue) = Some (demo_event 10).
Proof.
  destruct (ui_event_queue_is_fifo demo_queue demo_queue_ok) as [Hpush _].
  destruct (Hpush (demo_event 99)) as (q' & _ & Hq).
  destruct (decide (ue_type (demo_event 99) = RUNTIME_UI_EVENT_NONE)) as [e|_]; [discriminate e|].
  destruct (decide (length (queued demo_queue) < 16)%nat) as [_|Hn].
  - destruct Hq as [Hc Hp]. exists q'. split; [exact Hp|]. split; [exact Hc|vm_compute; reflexivity].
  - exfalso. apply Hn. vm_compute. lia.
Defined.

(** Two due timers and room for one event. *)
Lemma ui_timer_collect_due_loses_nothing_witness :
  ∃ t' q', runtime_ui_timer_collect_due (Some [UiTimer 3 5 1 1; UiTimer 4 50 2 1; UiTimer 5 6 3 1])
      10 (Some demo_queue) = Some (Some t', Some q', 1) ∧
    queued q' = queued demo_queue ++ [timer_event 10 (UiTimer 3 5 1 1)] ∧
    filter (is_due 10) t' = [UiTimer 5 6 3 1].
Proof.
  destruct (ui_timer_collect_due_loses_nothing
              [UiTimer 3 5 1 1; UiTimer 4 50 2 1; UiTimer 5 6 3 1] 10 demo_queue demo_queue_ok)
    as (t' & q' & Hc & _ & Hq & _ & Hd & _).
  exists t', q'. split; [exact Hc|]. split; [exact Hq|exact Hd].
Defined.
