(* ===== verification/RuntimeShellPath.v ===== *)
(** * Finding a command on the search path ([kernel/runtime_shell_path.c])

    Strings are the characters before the NUL; the output buffer is modelled
    by its contents up to the NUL, its capacity being an argument.  The
    predicate [exists] and its context are the caller's. *)

From S2P Require Import Prelude.

Local Open Scope N_scope.
Local Open Scope char_scope.

(** [command[index] <= ' '] for the unsigned [char] of the target. *)
Definition is_blank (c : ascii) : bool := (code c <=? code " ")%N.

Fixpoint has_slash_loop (s : cstr) : bool :=
  match s with
  | [] => false
  | c :: s' => if chr_eqb c "/" then true else has_slash_loop s'
  end.

Definition runtime_shell_path_has_slash (command : option cstr) : bool :=
  match command with None => false | Some s => has_slash_loop s end.

(** [None] is the return value 0: nothing was written. *)
Definition runtime_shell_path_append (buffer : cstr) (capacity : N) (ch : ascii) : option cstr :=
  if (capacity <=? N.of_nat (length buffer) + 1)%N then None else Some (buffer ++ [ch]).

Fixpoint command_chars_ok (s : cstr) : bool :=
  match s with
  | [] => true
  | c :: s' => if chr_eqb c "/" || chr_eqb c ":" || is_blank c then false else command_chars_ok s'
  end.

Definition runtime_shell_path_validate_command_name (command : option cstr) : bool :=
  match command with
  | None | Some [] => false
  | Some s => command_chars_ok s
  end.

(** [next_is c s]: the character after the current one is [c]. *)
Definition next_is (c : ascii) (s : cstr) : bool :=
  match s with [] => false | d :: _ => chr_eqb d c end.

Fixpoint search_path_loop (s : cstr) (segment_length : N) : bool :=
  match s with
  | [] => negb (segment_length =? 0)%N
  | c :: s' =>
      if chr_eqb c ":" then
        if (segment_length =? 0)%N || negb (next_is "/" s') then false else search_path_loop s' 0
      else if is_blank c || (chr_eqb c "/" && next_is "/" s') then false
      else search_path_loop s' (segment_length + 1)
  end.

Definition runtime_shell_path_validate_search_path (path_list : option cstr) : bool :=
  match path_list with
  | None | Some [] => false
  | Some (c :: s) => if negb (chr_eqb c "/") then false else search_path_loop (c :: s) 0
  end.

(** Appending one character after the other; [inl] holds what was written when
    the buffer ran full. *)
Fixpoint append_all (buffer : cstr) (capacity : N) (s : cstr) : cstr + cstr :=
  match s with
  | [] => inr buffer
  | c :: s' =>
      match runtime_shell_path_append buffer capacity c with
      | None => inl buffer
      | Some buffer' => append_all buffer' capacity s'
      end
  end.

(** The segment before the next [':'], and the rest with the [':'] skipped. *)
Fixpoint split_segment (cursor : cstr) : cstr * cstr :=
  match cursor with
  | [] => ([], [])
  | c :: rest =>
      if chr_eqb c ":" then ([], rest)
      else let '(segment, rest') := split_segment rest in (c :: segment, rest')
  end.

(** The last character written is ['/']. *)
Definition ends_in_slash (s : cstr) : bool :=
  match last s with Some c => chr_eqb c "/" | None => false end.

(** One candidate: the segment, a ['/'] when it does not end in one, the
    command. *)
Definition build_candidate (segment command : cstr) (capacity : N) : cstr + cstr :=
  match append_all [] capacity segment with
  | inl b => inl b
  | inr b =>
      let with_slash :=
        if ((N.of_nat (length b) =? 0)%N || negb (ends_in_slash b))%bool
        then runtime_shell_path_append b capacity "/" else Some b in
      match with_slash with
      | None => inl b
      | Some b' => append_all b' capacity command
      end
  end.

Section resolve.
Context {C : Type} (exists_fn : cstr → C → bool) (context : C).

(** [fuel] bounds the number of segments; the cursor moves past at least one
    character in every iteration. *)
Fixpoint search_loop (fuel : nat) (cursor command : cstr) (capacity : N) : option (Z * cstr) :=
  match cursor with
  | [] => Some (RUNTIME_SYSCALL_STATUS_ENOENT, [])
  | _ =>
      match fuel with
      | O => None
      | S fuel' =>
          let '(segment, rest) := split_segment cursor in
          if (N.of_nat (length segment) =? 0)%N then search_loop fuel' rest command capacity
          else
            match build_candidate segment command capacity with
            | inl b => Some (RUNTIME_SYSCALL_STATUS_ENOSPC, b)
            | inr candidate =>
                if exists_fn candidate context then Some (RUNTIME_SYSCALL_STATUS_OK, candidate)
                else search_loop fuel' rest command capacity
            end
      end
  end.

(** [exists] and [resolved_path] tell whether these pointers are not NULL;
    the result holds the contents of the buffer when it was written. *)
Definition runtime_shell_path_resolve (path_list command : option cstr) (exists_ok : bool)
    (resolved_path : bool) (capacity : N) : option (Z * option cstr) :=
  match command with
  | Some cmd =>
      if negb exists_ok || negb resolved_path || (capacity =? 0)%N
      then Some (RUNTIME_SYSCALL_STATUS_EINVAL, None)
      else if runtime_shell_path_has_slash command then
        if negb (next_is "/" cmd) then Some (RUNTIME_SYSCALL_STATUS_EINVAL, Some [])
        else
          match append_all [] capacity cmd with
          | inl b => Some (RUNTIME_SYSCALL_STATUS_ENOSPC, Some b)
          | inr b =>
              Some (if exists_fn b context then RUNTIME_SYSCALL_STATUS_OK
                    else RUNTIME_SYSCALL_STATUS_ENOENT, Some b)
          end
      else if negb (runtime_shell_path_validate_search_path path_list) ||
              negb (runtime_shell_path_validate_command_name command)
      then Some (RUNTIME_SYSCALL_STATUS_EINVAL, Some [])
      else
        match path_list with
        | Some path =>
            r ← search_loop (S (length path)) path cmd capacity;
            Some (r.1, Some r.2)
        | None => None
        end
  | None => Some (RUNTIME_SYSCALL_STATUS_EINVAL, None)
  end.
End resolve.

(** * Command resolution finds the first match

    What the validators accept, and that resolving a command tries the
    directories of the search path in order. *)

(** ** Search paths as lists of directories *)

(** No [':'], no blank, no ["//"]. *)
Fixpoint segment_chars_ok (s : cstr) : bool :=
  match s with
  | [] => true
  | c :: s' =>
      negb (chr_eqb c ":") && negb (is_blank c) && negb (chr_eqb c "/" && next_is "/" s') &&
      segment_chars_ok s'
  end.

(** An absolute directory. *)
Definition segment_ok (s : cstr) : bool := next_is "/" s && segment_chars_ok s.

Definition tail_segments (segments : list cstr) : cstr := concat ((λ s, ":" :: s) <$> segments).
Definition join_segments (segments : list cstr) : cstr :=
  match segments with [] => [] | s :: rest => s ++ tail_segments rest end.

Lemma next_is_app c s segments :
  c ≠ ":" → next_is c (s ++ tail_segments segments) = next_is c s.
Proof.
  intros Hc. destruct s; [|done]. destruct segments; [done|]. simpl. unfold chr_eqb.
  by rewrite bool_decide_false.
Qed.

Lemma search_path_loop_iff s n :
  search_path_loop s n = true ↔
    ∃ s0 segments, s = s0 ++ tail_segments segments ∧ segment_chars_ok s0 = true ∧
      (n ≠ 0%N ∨ s0 ≠ []) ∧ Forall (λ x, segment_ok x = true) segments.
Proof.
  revert n. induction s as [|c s IH]; intros n; cbn [search_path_loop].
  - rewrite negb_true_iff, N.eqb_neq. split.
    + intros Hn. exists [], []. by auto.
    + intros (s0 & segments & Hs & _ & [Hn|Hne] & _); [done|]. by destruct s0.
  - unfold chr_eqb at 1. destruct (decide (c = ":")) as [->|Hc].
    + rewrite bool_decide_true by done. destruct (N.eqb_spec n 0) as [Hn|Hn]; cbn [orb].
      { split; [done|]. intros (s0 & segments & Hs & Hok & [?|Hne] & _); [done|].
        destruct s0 as [|d s0]; [done|]. injection Hs as <- _. done. }
      destruct (next_is "/" s) eqn:Hnext; cbn [negb].
      * rewrite IH. split.
        { intros (s0 & segments & -> & Hok & [?|Hne] & Hall); [done|]. exists [], (s0 :: segments).
          rewrite next_is_app in Hnext by done. unfold segment_ok. split_and!; [done|done|by left|].
          constructor; [|done]. by rewrite Hnext, Hok. }
        { intros (s0 & segments & Hs & Hok & _ & Hall). destruct s0 as [|d s0].
          2:{ injection Hs as <- _. done. }
          destruct segments as [|x segments]; [done|]. injection Hs as ->.
          apply Forall_cons in Hall as [Hx Hall]. unfold segment_ok in Hx. bools.
          exists x, segments. split_and!; [done|done| |done]. right. by intros ->. }
      * split; [done|]. intros (s0 & segments & Hs & Hok & _ & Hall).
        destruct s0 as [|d s0]; [|injection Hs as <- _; done].
        destruct segments as [|x segments]; [done|]. injection Hs as ->.
        apply Forall_cons in Hall as [Hx _]. unfold segment_ok in Hx. bools.
        change (concat _) with (tail_segments segments) in Hnext.
        by rewrite next_is_app, H in Hnext.
    + rewrite bool_decide_false by done.
      assert (chr_eqb c ":" = false) as Hc' by (unfold chr_eqb; by rewrite bool_decide_false).
      split.
      * destruct (is_blank c || _) eqn:Hbad; [done|]. bools.
        intros (s0 & segments & -> & Hok & _ & Hall)%IH. exists (c :: s0), segments.
        rewrite next_is_app in H0 by done. cbn [segment_chars_ok].
        split_and!; [done| |by right|done]. by rewrite Hc', H, H0, Hok.
      * intros (s0 & segments & Hs & Hok & _ & Hall). destruct s0 as [|d s0].
        { destruct segments; [done|]. by injection Hs as -> _. }
        injection Hs as <- ->. cbn [segment_chars_ok] in Hok. bools.
        rewrite next_is_app by done. rewrite H2, H1. cbn [orb]. apply IH.
        exists s0, segments. split_and!; [done|done| |done]. left. lia.
Qed.

Lemma validate_search_path_iff path :
  runtime_shell_path_validate_search_path (Some path) = true ↔
    ∃ segments, segments ≠ [] ∧ path = join_segments segments ∧
      Forall (λ s, segment_ok s = true) segments.
Proof.
  unfold runtime_shell_path_validate_search_path. destruct path as [|c path].
  { split; [done|]. intros (segments & Hne & Hp & Hall). destruct segments as [|s segments]; [done|].
    apply Forall_cons in Hall as [Hs _]. by destruct s. }
  destruct (chr_eqb c "/") eqn:Hc; cbn [negb].
  - rewrite search_path_loop_iff. split.
    + intros (s0 & segments & Hp & Hok & [?|Hne] & Hall); [done|]. exists (s0 :: segments).
      split_and!; [done|done|]. constructor; [|done]. unfold segment_ok.
      destruct s0 as [|d s0]; [done|]. injection Hp as <- _. cbn [next_is]. by rewrite Hc, Hok.
    + intros (segments & Hne & Hp & Hall). destruct segments as [|s segments]; [done|].
      apply Forall_cons in Hall as [Hs Hall]. unfold segment_ok in Hs. bools.
      exists s, segments. split_and!; [done|done| |done]. right. by intros ->.
  - split; [done|]. intros (segments & Hne & Hp & Hall). destruct segments as [|s segments]; [done|].
    apply Forall_cons in Hall as [Hs _]. unfold segment_ok in Hs. bools.
    destruct s as [|d s]; [done|]. injection Hp as <- _. cbn [next_is] in *. congruence.
Qed.

(** ** The candidates *)

Definition candidate (segment command : cstr) : cstr :=
  (if ends_in_slash segment then segment else segment ++ ["/"]) ++ command.

Lemma append_all_spec b capacity s :
  append_all b capacity s =
    if decide (s = [] ∨ N.of_nat (length b + length s) < capacity)%N then inr (b ++ s)
    else inl (b ++ take (N.to_nat (capacity - 1) - length b) s).
Proof.
  revert b. induction s as [|c s IH]; intros b.
  { rewrite decide_True by auto. simpl. by rewrite app_nil_r. }
  cbn [append_all]. unfold runtime_shell_path_append.
  destruct (N.leb_spec capacity (N.of_nat (length b) + 1)).
  - rewrite decide_False by (intros [?|?]; [done|simpl in *; lia]).
    replace (N.to_nat (capacity - 1) - length b)%nat with 0%nat by lia. by rewrite take_0, app_nil_r.
  - rewrite IH, length_app. cbn [length].
    destruct (decide (N.of_nat (length b + S (length s)) < capacity)%N).
    + rewrite !decide_True by (right; lia). by rewrite <-app_assoc.
    + rewrite (decide_False (P:=c :: s = [] ∨ _)) by (intros [?|?]; [done|lia]).
      rewrite decide_False.
      * f_equal. rewrite <-app_assoc. f_equal.
        replace (N.to_nat (capacity - 1) - length b)%nat
          with (S (N.to_nat (capacity - 1) - (length b + 1))) by lia. done.
      * intros [->|?]; simpl in *; lia.
Qed.

(** A command of letters is short enough or does not fit: the candidate is
    built exactly when it fits with its NUL. *)
Lemma build_candidate_fits segment command capacity :
  (N.of_nat (length (candidate segment command)) < capacity)%N → segment ≠ [] →
  build_candidate segment command capacity = inr (candidate segment command).
Proof.
  intros Hlen Hne. unfold build_candidate. rewrite append_all_spec.
  unfold candidate in *. rewrite !length_app in Hlen.
  assert (0 < length segment)%nat by (destruct segment; [done|simpl; lia]).
  rewrite decide_True by (right; simpl; destruct (ends_in_slash segment);
    rewrite ?length_app in Hlen; simpl in *; lia).
  cbn [app]. destruct (N.eqb_spec (N.of_nat (length segment)) 0); [lia|]. cbn [orb].
  destruct (ends_in_slash segment); cbn [negb].
  - rewrite append_all_spec. by rewrite decide_True by (right; lia).
  - rewrite length_app in Hlen. simpl in Hlen. unfold runtime_shell_path_append.
    destruct (N.leb_spec capacity (N.of_nat (length segment) + 1)).
    + destruct command as [|c command]; [|simpl in *; lia]. simpl in Hlen. lia.
    + rewrite append_all_spec, length_app. simpl. by rewrite decide_True by (right; lia).
Qed.

Lemma split_segment_app s segments :
  segment_chars_ok s = true →
  split_segment (s ++ tail_segments segments) = (s, join_segments segments).
Proof.
  induction s as [|c s IH]; intros Hok.
  - destruct segments as [|x segments]; [done|]. simpl. done.
  - cbn [segment_chars_ok] in Hok. bools. cbn [app split_segment]. rewrite H, IH by done. done.
Qed.

Lemma search_loop_spec {C} (exists_fn : cstr → C → bool) context fuel segments command capacity :
  Forall (λ s, segment_ok s = true) segments →
  Forall (λ s, N.of_nat (length (candidate s command)) < capacity)%N segments →
  (length segments ≤ fuel)%nat →
  search_loop exists_fn context fuel (join_segments segments) command capacity =
    Some match list_find (λ c, exists_fn c context = true) ((λ s, candidate s command) <$> segments)
         with
         | Some (_, c) => (RUNTIME_SYSCALL_STATUS_OK, c)
         | None => (RUNTIME_SYSCALL_STATUS_ENOENT, [])
         end.
Proof.
  intros Hok Hfit. revert fuel. induction segments as [|s segments IH]; intros fuel Hfuel.
  { by destruct fuel. }
  apply Forall_cons in Hok as [Hs Hok]. apply Forall_cons in Hfit as [Hf Hfit].
  destruct fuel as [|fuel]; [simpl in Hfuel; lia|]. unfold segment_ok in Hs. bools.
  destruct s as [|c s]; [done|].
  cbn [search_loop join_segments app].
  change (c :: s ++ tail_segments segments) with ((c :: s) ++ tail_segments segments).
  rewrite split_segment_app by done. cbn [length].
  destruct (N.eqb_spec (N.of_nat (S (length s))) 0); [lia|].
  rewrite build_candidate_fits by done. cbn [fmap list_fmap list_find].
  destruct (exists_fn (candidate (c :: s) command) context) eqn:He.
  - by rewrite decide_True.
  - rewrite decide_False by done. rewrite IH by (done || (simpl in Hfuel; lia)).
    by destruct (list_find _ _) as [[]|].
Qed.

Lemma tail_segments_length segments : (length segments ≤ length (tail_segments segments))%nat.
Proof.
  unfold tail_segments. induction segments as [|x segments IH]; [done|]. cbn [fmap list_fmap concat].
  rewrite length_app. cbn [length]. lia.
Qed.

Lemma join_segments_length segments : (length segments ≤ S (length (join_segments segments)))%nat.
Proof.
  destruct segments as [|s segments]; [simpl; lia|]. cbn [join_segments length].
  rewrite length_app. pose proof (tail_segments_length segments). lia.
Qed.

(** A command of a valid name has no slash. *)
Lemma command_name_no_slash command :
  runtime_shell_path_validate_command_name (Some command) = true →
  runtime_shell_path_has_slash (Some command) = false.
Proof.
  unfold runtime_shell_path_validate_command_name, runtime_shell_path_has_slash.
  intros Hok. assert (command_chars_ok command = true) as Hc by (by destruct command). clear Hok.
  induction command as [|c command IH]; [done|]. simpl in *. revert Hc.
  destruct (chr_eqb c "/"); [done|]. simpl. by destruct (_ || _)%bool.
Qed.

(** Resolving a command without a slash walks the search path: a search
    path is accepted exactly when it is a ":"-separated list of absolute
    directories without blanks or "//"; and then, when every candidate fits
    the buffer, the result is the first directory's candidate
    (directory, "/" unless it ends in one, command) that exists, or ENOENT
    with an empty buffer when none does. *)
Theorem shell_path_resolves_first_match {C} (exists_fn : cstr → C → bool) context path command
    capacity :
  runtime_shell_path_validate_command_name (Some command) = true → (0 < capacity)%N →
  (runtime_shell_path_validate_search_path (Some path) = true ↔
     ∃ segments, segments ≠ [] ∧ path = join_segments segments ∧
       Forall (λ s, segment_ok s = true) segments) ∧
  ∀ segments, segments ≠ [] → path = join_segments segments →
    Forall (λ s, segment_ok s = true) segments →
    Forall (λ s, N.of_nat (length (candidate s command)) < capacity)%N segments →
    runtime_shell_path_resolve exists_fn context (Some path) (Some command) true true capacity =
      Some match list_find (λ c, exists_fn c context = true)
                   ((λ s, candidate s command) <$> segments) with
           | Some (_, c) => (RUNTIME_SYSCALL_STATUS_OK, Some c)
           | None => (RUNTIME_SYSCALL_STATUS_ENOENT, Some [])
           end.
Proof.
  intros Hcmd Hcap. split; [apply validate_search_path_iff|]. intros segments Hne Hpath Hok Hfit.
  unfold runtime_shell_path_resolve. cbn [negb orb].
  destruct (N.eqb_spec capacity 0); [lia|]. rewrite (command_name_no_slash _ Hcmd), Hcmd.
  assert (runtime_shell_path_validate_search_path (Some path) = true) as ->
    by (apply validate_search_path_iff; by exists segments).
  cbn [negb orb]. subst path. rewrite search_loop_spec; [|done|done|].
  - cbind. by destruct (list_find _ _) as [[]|].
  - apply join_segments_length.
Qed.

Lemma shell_path_resolves_first_match_witness :
  let in_bin (path : cstr) (_ : unit) := bool_decide (path = cs "/usr/bin/ls") in
  runtime_shell_path_resolve in_bin tt (Some (cs "/bin:/usr/bin/")) (Some (cs "ls")) true true 16 =
    Some (RUNTIME_SYSCALL_STATUS_OK, Some (cs "/usr/bin/ls")).
Proof.
  destruct (shell_path_resolves_first_match
              (λ path _, bool_decide (path = cs "/usr/bin/ls")) tt (cs "/bin:/usr/bin/") (cs "ls") 16)
    as [_ Hr]; [vm_compute; reflexivity|vm_compute; reflexivity|].
  cbv zeta. rewrite (Hr [cs "/bin"; cs "/usr/bin/"]).
  - vm_compute. reflexivity.
  - discriminate.
  - vm_compute. reflexivity.
  - repeat constructor.
  - repeat constructor.
Defined.
