(* ===== verification/RuntimeLoader.v ===== *)
(** * Application records and process manifests ([kernel/runtime_loader.c],
    [kernel/runtime_catalog.c])

    The two read-only tables the kernel searches by key.  A table is [None]
    when its pointer is NULL, and otherwise the list of its [count] entries; a
    [NULL] string is [None]. *)

From S2P Require Import Prelude.

Local Open Scope N_scope.

(** [runtime_loader_string_equals] and [runtime_catalog_string_equals]. *)
Definition runtime_loader_string_equals (left right : option cstr) : bool :=
  match left, right with
  | Some l, Some r => cstr_equals l r
  | _, _ => false
  end.

Definition runtime_catalog_string_equals (left right : option cstr) : bool :=
  match left, right with
  | Some l, Some r => cstr_equals l r
  | _, _ => false
  end.

Definition runtime_loader_string_nonempty (value : option cstr) : bool :=
  match value with Some (_ :: _) => true | _ => false end.

(** ** Application records *)

Record runtime_loader_record := LoaderRecord {
  lr_app_key : option cstr;
  lr_display_name : option cstr;
  lr_version : option cstr;
  lr_task_key : option cstr;
  lr_default_role : N
}.

Record runtime_loader_snapshot_entry := LoaderSnapshot {
  ls_app_key : option cstr;
  ls_display_name : option cstr;
  ls_version : option cstr;
  ls_task_key : option cstr;
  ls_default_role : N
}.

(** The index of the record found; [None] is NULL. *)
Definition runtime_loader_find (records : option (list runtime_loader_record))
    (app_key : option cstr) : option N :=
  match records, app_key with
  | Some l, Some _ => find_idx (λ _ r, runtime_loader_string_equals (lr_app_key r) app_key) l
  | _, _ => None
  end.

Definition loader_snapshot_of (r : runtime_loader_record) : runtime_loader_snapshot_entry :=
  LoaderSnapshot (lr_app_key r) (lr_display_name r) (lr_version r) (lr_task_key r)
    (lr_default_role r).

(** The entries stored when [buffer] is not NULL, and the result. *)
Definition runtime_loader_snapshot (records : option (list runtime_loader_record)) (buffer : bool)
    (capacity : N) : list runtime_loader_snapshot_entry * N :=
  match records with
  | None => ([], 0)
  | Some l => (if buffer then loader_snapshot_of <$> take (N.to_nat capacity) l else [],
               N.of_nat (length l))
  end.

Fixpoint validate_loop (records : list runtime_loader_record) : bool :=
  match records with
  | [] => true
  | record :: rest =>
      if negb (runtime_loader_string_nonempty (lr_app_key record)) ||
         negb (runtime_loader_string_nonempty (lr_display_name record)) ||
         negb (runtime_loader_string_nonempty (lr_version record)) ||
         negb (runtime_loader_string_nonempty (lr_task_key record)) then false
      else if exists_idx (λ _ other, runtime_loader_string_equals (lr_app_key record)
                                       (lr_app_key other)) rest then false
      else validate_loop rest
  end.

Definition runtime_loader_validate_catalog (records : option (list runtime_loader_record)) : bool :=
  match records with None => false | Some l => validate_loop l end.

(** ** Process manifests *)

(** [mf_entry] is the address of the task's function. *)
Record runtime_process_manifest := Manifest {
  mf_task_key : option cstr;
  mf_process_name : option cstr;
  mf_default_role : N;
  mf_entry : N
}.

Record runtime_process_catalog_entry := CatalogEntry {
  ce_task_key : option cstr;
  ce_process_name : option cstr;
  ce_default_role : N
}.

Definition runtime_catalog_find (manifests : option (list runtime_process_manifest))
    (task_key : option cstr) : option N :=
  match manifests, task_key with
  | Some l, Some _ => find_idx (λ _ m, runtime_catalog_string_equals (mf_task_key m) task_key) l
  | _, _ => None
  end.

Definition catalog_entry_of (m : runtime_process_manifest) : runtime_process_catalog_entry :=
  CatalogEntry (mf_task_key m) (mf_process_name m) (mf_default_role m).

Definition runtime_catalog_snapshot (manifests : option (list runtime_process_manifest))
    (buffer : bool) (capacity : N) : list runtime_process_catalog_entry * N :=
  match manifests with
  | None => ([], 0)
  | Some l => (if buffer then catalog_entry_of <$> take (N.to_nat capacity) l else [],
               N.of_nat (length l))
  end.

(** ** What validation promises the lookups *)

Lemma loader_string_equals_Some l k :
  runtime_loader_string_equals l (Some k) = true ↔ l = Some k.
Proof. destruct l as [s|]; simpl; [|done]. rewrite cstr_equals_eq. naive_solver. Qed.

(** Every record is complete and no two have the same key. *)
Definition catalog_ok (l : list runtime_loader_record) : Prop :=
  (∀ r, r ∈ l → runtime_loader_string_nonempty (lr_app_key r) = true ∧
     runtime_loader_string_nonempty (lr_display_name r) = true ∧
     runtime_loader_string_nonempty (lr_version r) = true ∧
     runtime_loader_string_nonempty (lr_task_key r) = true) ∧
  NoDup (lr_app_key <$> l).

Lemma validate_loop_iff l : validate_loop l = true ↔ catalog_ok l.
Proof.
  unfold catalog_ok. induction l as [|r l IH]; cbn [validate_loop fmap list_fmap].
  { split; [|done]. intros _. split; [by intros r Hr%elem_of_nil|constructor]. }
  rewrite NoDup_cons. setoid_rewrite elem_of_cons. destruct (negb _ || _ || _ || _) eqn:Hne.
  { split; [done|]. intros [Hall _]. destruct (Hall r) as (H1 & H2 & H3 & H4); [by left|].
    by rewrite H1, H2, H3, H4 in Hne. }
  bools. destruct (lr_app_key r) as [k|] eqn:Hk; [|done].
  destruct (exists_idx _ l) eqn:Hex.
  - split; [done|]. intros [_ [Hni _]]. exfalso. apply Hni.
    apply exists_idx_true in Hex as (i & x & Hx & Heq). apply list_elem_of_fmap. exists x.
    rewrite aget_lookup in Hx. apply list_elem_of_lookup_2 in Hx. split; [|done].
    simpl in Heq. destruct (lr_app_key x); [|done]. apply cstr_equals_eq in Heq. by subst.
  - rewrite IH. rewrite exists_idx_false in Hex. split.
    + intros [Hall Hnd]. split; [intros x [->|Hx]; [by rewrite Hk|by apply Hall]|].
      split; [|done]. intros (x & Hxk & Hx)%list_elem_of_fmap.
      apply list_elem_of_lookup_1 in Hx as [i Hx]. specialize (Hex (N.of_nat i) x).
      rewrite aget_lookup, Nat2N.id in Hex. specialize (Hex Hx). rewrite <-Hxk in Hex.
      simpl in Hex. by rewrite cstr_equals_refl in Hex.
    + intros [Hall [_ Hnd]]. split; [|done]. intros x Hx. apply Hall. by right.
Qed.

(** In a valid catalog, [runtime_loader_find] finds exactly the record with
    the key. *)
Lemma loader_find_correct l k i r :
  runtime_loader_validate_catalog (Some l) = true → aget l i = Some r → lr_app_key r = Some k →
  runtime_loader_find (Some l) (Some k) = Some i.
Proof.
  intros [_ Hnd]%validate_loop_iff Hr Hk. unfold runtime_loader_find. apply find_idx_Some.
  exists r. split_and!; [done|by apply loader_string_equals_Some|]. intros j x Hj Hx.
  destruct (runtime_loader_string_equals (lr_app_key x) (Some k)) eqn:He; [|done]. exfalso.
  apply loader_string_equals_Some in He. rewrite aget_lookup in Hr, Hx.
  assert (N.to_nat j = N.to_nat i); [|lia].
  apply (NoDup_lookup (lr_app_key <$> l) _ _ (Some k)); [done|rewrite list_lookup_fmap..].
  - by rewrite Hx; simpl; rewrite He.
  - by rewrite Hr; simpl; rewrite Hk.
Qed.
