(* ===== verification/RuntimeResource.v ===== *)
(** * Application resource paths ([kernel/runtime_resource.c])

    A resource is named by an application key and a relative path; the path
    built from them never leaves the application's resource directory. *)

From S2P Require Import Prelude RuntimeLoader.

Local Open Scope N_scope.
Local Open Scope char_scope.

Definition RUNTIME_RESOURCE_PATH_PREFIX : cstr := cs "/apps/".
Definition RUNTIME_RESOURCE_PATH_RESOURCES : cstr := cs "/resources/".

Record runtime_resource_locator := Locator {
  loc_app_key : option cstr;
  loc_resource_path : option cstr
}.

(** The segment is the list of its [length] characters. *)
Definition runtime_resource_segment_ok (segment : cstr) : bool :=
  if (N.of_nat (length segment) =? 0)%N then false
  else if bool_decide (segment = ["."]) then false
  else if bool_decide (segment = ["."; "."]) then false
  else forallb (λ c, negb (chr_eqb c "/")) segment.

(** The characters before the next ['/'] or the end, and what follows them. *)
Fixpoint scan_segment (cursor : cstr) : cstr * cstr :=
  match cursor with
  | [] => ([], [])
  | c :: rest =>
      if chr_eqb c "/" then ([], cursor)
      else let '(segment, rest') := scan_segment rest in (c :: segment, rest')
  end.

(** [fuel] bounds the number of segments; every iteration that does not return
    passes at least one character. *)
Fixpoint validate_segments (fuel : nat) (cursor : cstr) : option bool :=
  match cursor with
  | [] => Some true
  | _ =>
      match fuel with
      | O => None
      | S fuel' =>
          let '(segment, rest) := scan_segment cursor in
          if negb (runtime_resource_segment_ok segment) then Some false
          else
            match rest with
            | [] => Some true
            | [_] => Some false
            | _ :: rest' => validate_segments fuel' rest'
            end
      end
  end.

Definition runtime_resource_validate_relative_path (resource_path : option cstr) : option bool :=
  match resource_path with
  | None | Some [] => Some false
  | Some (c :: p) =>
      if chr_eqb c "/" then Some false else validate_segments (S (length p)) (c :: p)
  end.

(** The copying loops: [inl] holds the characters written when the buffer ran
    full (there is no NUL behind them), [index] is the length. *)
Fixpoint copy_loop (buffer : cstr) (capacity : N) (s : cstr) : cstr + cstr :=
  match s with
  | [] => inr buffer
  | c :: s' =>
      if (capacity <=? u32 (N.of_nat (length buffer) + 1))%N then inl buffer
      else copy_loop (buffer ++ [c]) capacity s'
  end.

Fixpoint copy_parts (buffer : cstr) (capacity : N) (parts : list cstr) : cstr + cstr :=
  match parts with
  | [] => inr buffer
  | part :: rest =>
      match copy_loop buffer capacity part with
      | inl b => inl b
      | inr b => copy_parts b capacity rest
      end
  end.

(** [buffer] tells whether the pointer is not NULL; the second component is
    what was written there. *)
Definition runtime_resource_build_path (records : option (list runtime_loader_record))
    (locator : option runtime_resource_locator) (buffer : bool) (capacity : N)
  : option (Z * cstr) :=
  match records, locator, buffer with
  | Some l, Some loc, true =>
      match loc_app_key loc, loc_resource_path loc with
      | Some key, Some path =>
          if (capacity =? 0)%N then Some (RUNTIME_SYSCALL_STATUS_EINVAL, [])
          else
            valid ← runtime_resource_validate_relative_path (Some path);
            if negb valid then Some (RUNTIME_SYSCALL_STATUS_EINVAL, [])
            else
              match runtime_loader_find records (Some key) with
              | None => Some (RUNTIME_SYSCALL_STATUS_ENOENT, [])
              | Some index =>
                  record ← aget l index;
                  app_key ← lr_app_key record;
                  match copy_parts [] capacity [RUNTIME_RESOURCE_PATH_PREFIX; app_key;
                                                RUNTIME_RESOURCE_PATH_RESOURCES; path] with
                  | inl written => Some (RUNTIME_SYSCALL_STATUS_ENOSPC, written)
                  | inr written => Some (RUNTIME_SYSCALL_STATUS_OK, written)
                  end
              end
      | _, _ => Some (RUNTIME_SYSCALL_STATUS_EINVAL, [])
      end
  | _, _, _ => Some (RUNTIME_SYSCALL_STATUS_EINVAL, [])
  end.

(** ** Relative paths as lists of names *)

(** A name: not empty, not ["."] or [".."], without ['/']. *)
Definition name_ok (s : cstr) : Prop := s ≠ [] ∧ s ≠ ["."] ∧ s ≠ ["."; "."] ∧ "/" ∉ s.

Definition tail_names (names : list cstr) : cstr := concat ((λ s, "/" :: s) <$> names).
Definition join_names (names : list cstr) : cstr :=
  match names with [] => [] | s :: rest => s ++ tail_names rest end.

Lemma segment_ok_iff s : runtime_resource_segment_ok s = true ↔ name_ok s.
Proof.
  unfold runtime_resource_segment_ok, name_ok. destruct (N.eqb_spec (N.of_nat (length s)) 0).
  { split; [done|]. intros [Hne _]. destruct s; [done|simpl in *; lia]. }
  assert (s ≠ []) by (by intros ->). repeat case_bool_decide; [naive_solver..|].
  rewrite forallb_forall. split.
  - intros Hall. split_and!; try done. intros Hin%list_elem_of_In%Hall.
    unfold chr_eqb in Hin. by rewrite bool_decide_true in Hin.
  - intros (_ & _ & _ & Hni) c Hc%list_elem_of_In. apply negb_true_iff. unfold chr_eqb.
    apply bool_decide_eq_false. by intros ->.
Qed.

Lemma scan_segment_spec s :
  s = (scan_segment s).1 ++ (scan_segment s).2 ∧ "/" ∉ (scan_segment s).1 ∧
  ((scan_segment s).2 = [] ∨ ∃ rest, (scan_segment s).2 = "/" :: rest).
Proof.
  induction s as [|c s IH]; simpl.
  { split_and!; [done|by intros ?%elem_of_nil|by left]. }
  unfold chr_eqb. case_bool_decide as Hc; simpl.
  - subst. split_and!; [done|by intros ?%elem_of_nil|by right; exists s].
  - destruct (scan_segment s) as [segment rest]. simpl in *. destruct IH as (-> & Hni & Hrest).
    split_and!; [done|by intros [?|?]%elem_of_cons|done].
Qed.

Lemma scan_segment_app s names :
  "/" ∉ s → scan_segment (s ++ tail_names names) = (s, tail_names names).
Proof.
  induction s as [|c s IH]; intros Hni.
  - by destruct names.
  - apply not_elem_of_cons in Hni as [Hc Hni]. cbn [app scan_segment]. unfold chr_eqb.
    rewrite bool_decide_false by congruence. by rewrite IH.
Qed.

(** The loop accepts exactly the lists of names, and always ends. *)
Lemma validate_segments_sound fuel s :
  (length s ≤ fuel)%nat →
  ∃ b, validate_segments fuel s = Some b ∧
    (b = true → s = [] ∨ ∃ names, names ≠ [] ∧ s = join_names names ∧ Forall name_ok names).
Proof.
  revert s. induction fuel as [|fuel IH]; intros s Hs.
  { destruct s; [|simpl in Hs; lia]. exists true. split; [done|by left]. }
  destruct s as [|c s]; [exists true; split; [done|by left]|]. cbn [validate_segments].
  pose proof (scan_segment_spec (c :: s)) as (Heq & Hni & Hrest).
  destruct (scan_segment (c :: s)) as [segment rest]. cbn [fst snd] in *.
  destruct (runtime_resource_segment_ok segment) eqn:Hok; cbn [negb]; [|by exists false].
  pose proof Hok as Hname. apply segment_ok_iff in Hname.
  destruct Hrest as [->|[rest' ->]].
  - exists true. split; [done|]. intros _. right. exists [segment]. split_and!; [done| |by constructor].
    rewrite Heq. done.
  - destruct rest' as [|d rest']; [by exists false|].
    destruct (IH (d :: rest')) as (b & Hv & Hsound).
    { apply (f_equal length) in Heq. rewrite length_app in Heq. simpl in *. lia. }
    exists b. split; [done|]. intros Hb. right.
    destruct (Hsound Hb) as [?|(names & Hne & Hj & Hall)]; [done|]. exists (segment :: names).
    split_and!; [done| |by constructor]. rewrite Heq, Hj. destruct names; [done|]. done.
Qed.

Lemma tail_names_cons s names : tail_names (s :: names) = "/" :: join_names (s :: names).
Proof. done. Qed.

Lemma validate_segments_complete fuel names :
  names ≠ [] → Forall name_ok names → (length (join_names names) ≤ fuel)%nat →
  validate_segments fuel (join_names names) = Some true.
Proof.
  revert names. induction fuel as [|fuel IH]; intros names Hne Hall Hf;
    (destruct names as [|s names]; [done|]); apply Forall_cons in Hall as [Hs Hall];
    pose proof Hs as (Hnil & _ & _ & Hni).
  { destruct s; [done|simpl in Hf; lia]. }
  cbn [join_names] in *.
  assert (∃ c s', s ++ tail_names names = c :: s') as (c & s' & Heq)
    by (destruct s as [|c s]; [done|by exists c, (s ++ tail_names names)]).
  rewrite Heq. cbn [validate_segments]. rewrite <-Heq, (scan_segment_app _ _ Hni).
  apply segment_ok_iff in Hs as ->. cbn [negb]. destruct names as [|x names]; [done|].
  rewrite tail_names_cons in *. pose proof Hall as [Hx _]%Forall_cons.
  destruct (join_names (x :: names)) as [|d rest] eqn:Hj.
  { destruct Hx as [Hx _]. by destruct x. }
  rewrite <-Hj. apply IH; [done|done|]. rewrite Hj. rewrite length_app in Hf. simpl in *. lia.
Qed.

Lemma validate_relative_path_iff path :
  ∃ b, runtime_resource_validate_relative_path (Some path) = Some b ∧
    (b = true ↔ ∃ names, names ≠ [] ∧ path = join_names names ∧ Forall name_ok names).
Proof.
  unfold runtime_resource_validate_relative_path. destruct path as [|c path].
  { exists false. split; [done|]. split; [done|]. intros (names & Hne & Hp & Hall).
    destruct names as [|s names]; [done|]. apply Forall_cons in Hall as [[Hs _] _]. by destruct s. }
  unfold chr_eqb. case_bool_decide as Hc.
  - exists false. split; [done|]. split; [done|]. intros (names & Hne & Hp & Hall).
    destruct names as [|s names]; [done|]. apply Forall_cons in Hall as [(Hs & _ & _ & Hni) _].
    destruct s as [|d s]; [done|]. injection Hp as <- _. exfalso. apply Hni. subst. by left.
  - destruct (validate_segments_sound (S (length path)) (c :: path)) as (b & Hv & Hsound); [simpl; lia|].
    exists b. split; [done|]. split.
    + intros Hb. by destruct (Hsound Hb) as [?|?].
    + intros (names & Hne & Hp & Hall). rewrite Hp in Hv.
      rewrite validate_segments_complete in Hv; [by injection Hv|done|done|].
      rewrite <-Hp. simpl. lia.
Qed.

(** ** Copying *)

Lemma copy_loop_spec b capacity s :
  capacity < 4294967296 → (N.of_nat (length b) < capacity)%N →
  copy_loop b capacity s =
    if decide (N.of_nat (length b + length s) < capacity)%N then inr (b ++ s)
    else inl (take (N.to_nat (capacity - 1)) (b ++ s)).
Proof.
  intros Hcap. revert b. induction s as [|c s IH]; intros b Hb.
  { rewrite Nat.add_0_r, decide_True by done. simpl. by rewrite app_nil_r. }
  cbn [copy_loop]. rewrite u32_small by lia. cbn [length].
  destruct (N.leb_spec capacity (N.of_nat (length b) + 1)).
  - rewrite decide_False by lia. rewrite take_app_le by lia. by rewrite take_ge by lia.
  - rewrite IH by (rewrite length_app; simpl; lia). rewrite length_app. cbn [length].
    replace (length b + 1 + length s)%nat with (length b + S (length s))%nat by lia.
    by rewrite <-app_assoc.
Qed.

Lemma copy_parts_spec b capacity parts :
  capacity < 4294967296 → (N.of_nat (length b) < capacity)%N →
  match copy_parts b capacity parts with
  | inr written => written = b ++ concat parts ∧ (N.of_nat (length written) < capacity)%N
  | inl written => (capacity ≤ N.of_nat (length (b ++ concat parts)))%N ∧
      written = take (N.to_nat (capacity - 1)) (b ++ concat parts)
  end.
Proof.
  intros Hcap. revert b. induction parts as [|p parts IH]; intros b Hb; cbn [copy_parts concat].
  { by rewrite app_nil_r. }
  rewrite copy_loop_spec by done. case_decide.
  - specialize (IH (b ++ p)). rewrite <-app_assoc in IH. apply IH. rewrite length_app. lia.
  - rewrite !length_app. split; [lia|]. rewrite app_assoc. symmetry. apply take_app_le.
    rewrite length_app. lia.
Qed.

(** A resource path stays inside the application's directory: building
    one succeeds exactly when the relative path is a "/"-separated list of
    names (none empty, "." or ".."), the catalog has the application and the
    result fits, and the result is then
    "/apps/" app "/resources/" names; otherwise it fails with EINVAL, ENOENT
    or ENOSPC in this order, and it never writes more than the buffer. *)
Theorem resource_path_stays_inside records key path capacity :
  runtime_loader_validate_catalog (Some records) = true → 0 < capacity < 4294967296 →
  ∃ status written,
    runtime_resource_build_path (Some records) (Some (Locator (Some key) (Some path))) true capacity =
      Some (status, written) ∧ (N.of_nat (length written) < capacity)%N ∧
    let full := cs "/apps/" ++ key ++ cs "/resources/" ++ path in
    let named := ∃ names, names ≠ [] ∧ path = join_names names ∧ Forall name_ok names in
    let known := ∃ r, r ∈ records ∧ lr_app_key r = Some key in
    (status = RUNTIME_SYSCALL_STATUS_OK ∧ named ∧ known ∧ written = full) ∨
    (status = RUNTIME_SYSCALL_STATUS_EINVAL ∧ ¬ named ∧ written = []) ∨
    (status = RUNTIME_SYSCALL_STATUS_ENOENT ∧ named ∧ ¬ known ∧ written = []) ∨
    (status = RUNTIME_SYSCALL_STATUS_ENOSPC ∧ named ∧ known ∧
       (capacity ≤ N.of_nat (length full))%N).
Proof.
  intros Hval Hcap. unfold runtime_resource_build_path. cbn [loc_app_key loc_resource_path].
  destruct (N.eqb_spec capacity 0); [lia|].
  destruct (validate_relative_path_iff path) as (b & -> & Hb). cbind. cbv zeta.
  destruct b; cbn [negb]; [apply proj1 in Hb; specialize (Hb eq_refl)|
    eexists _, []; split; [done|]; split; [simpl; lia|]; right; left; naive_solver].
  destruct (runtime_loader_find (Some records) (Some key)) as [i|] eqn:Hfind.
  - apply find_idx_Some in Hfind as (r & Hr & Hk%loader_string_equals_Some & _). rewrite Hr. cbind.
    rewrite Hk. cbind.
    pose proof (copy_parts_spec [] capacity [RUNTIME_RESOURCE_PATH_PREFIX; key;
      RUNTIME_RESOURCE_PATH_RESOURCES; path] (proj2 Hcap) ltac:(simpl; lia)) as Hc.
    assert (∃ x, x ∈ records ∧ lr_app_key x = Some key) as Hknown.
    { exists r. rewrite aget_lookup in Hr. split; [by eapply list_elem_of_lookup_2|done]. }
    cbn [concat app] in Hc. rewrite app_nil_r in Hc.
    destruct (copy_parts _ _ _) as [written|written]; destruct Hc as [Hc1 Hc2];
      eexists _, written; (split; [done|]).
    + split; [subst; rewrite length_take; lia|]. do 3 right. done.
    + split; [done|]. left. done.
  - eexists _, []. split; [done|]. split; [simpl; lia|]. do 2 right. left.
    split_and!; try done. intros (r & Hr & Hk). apply list_elem_of_lookup_1 in Hr as [i Hr].
    rewrite (loader_find_correct records key (N.of_nat i) r) in Hfind; try done.
    by rewrite aget_lookup, Nat2N.id.
Qed.

Definition demo_records : list runtime_loader_record :=
  [LoaderRecord (Some (cs "notes")) (Some (cs "Notes")) (Some (cs "1.0")) (Some (cs "notes")) 2].

Lemma resource_path_stays_inside_witness :
  ∃ status written,
    runtime_resource_build_path (Some demo_records)
      (Some (Locator (Some (cs "notes")) (Some (cs "img/../../x")))) true 64 = Some (status, written) ∧
    (N.of_nat (length written) < 64)%N ∧ status = RUNTIME_SYSCALL_STATUS_EINVAL.
Proof.
  destruct (resource_path_stays_inside demo_records (cs "notes") (cs "img/../../x") 64)
    as (status & written & Hb & Hlen & _).
  - vm_compute. reflexivity.
  - lia.
  - exists status, written. split; [exact Hb|]. split; [exact Hlen|].
    vm_compute in Hb. injection Hb as <- _. reflexivity.
Defined.
