(* ===== verification/RuntimeService.v ===== *)
(** * Service sessions ([kernel/runtime_service.c])

    The table of open sessions refines a finite map from session objects to
    their descriptions. *)

From S2P Require Import Prelude.

Local Open Scope N_scope.

Definition RUNTIME_SERVICE_SESSION_CAPACITY : N := 8.

Record runtime_service_session_info := SessionInfo {
  si_object : N;
  si_owner_pid : N;
  si_provider_pid : N;
  si_service_slot : N
}.

Record runtime_service_session_entry := SessionEntry {
  se_object : N;
  se_owner_pid : N;
  se_provider_pid : N;
  se_service_slot : N;
  se_active : N
}.

(** [None] is a NULL table. *)
Abbreviation session_table := (list runtime_service_session_entry).

Definition runtime_service_session_clear (entry : runtime_service_session_entry)
  : runtime_service_session_entry := SessionEntry 0 0 0 0 0.

Definition runtime_service_session_table_init (table : option session_table)
  : option session_table :=
  match table with
  | None => None
  | Some t => Some (runtime_service_session_clear <$> t)
  end.

(** [object] tells whether the out pointer is not NULL. *)
Definition runtime_service_session_open (table : option session_table)
    (owner_pid provider_pid service_slot : N) (object : bool)
  : option session_table * Z * option N :=
  match table with
  | Some t =>
      if negb object || (owner_pid =? 0) || (provider_pid =? 0)
      then (table, RUNTIME_SYSCALL_STATUS_EINVAL, None)
      else
        match find_idx (λ _ e, negb (nz (se_active e))) t with
        | Some index =>
            (Some (aupd t index (λ _, SessionEntry (u32 (index + 1)) owner_pid provider_pid
                                        service_slot 1)),
             RUNTIME_SYSCALL_STATUS_OK, Some (u32 (index + 1)))
        | None => (table, RUNTIME_SYSCALL_STATUS_ENOSPC, None)
        end
  | None => (table, RUNTIME_SYSCALL_STATUS_EINVAL, None)
  end.

Definition is_session (object : N) (e : runtime_service_session_entry) : bool :=
  nz (se_active e) && (se_object e =? object).

Definition runtime_service_session_close (table : option session_table) (object : N)
  : option session_table * Z :=
  match table with
  | Some t =>
      if object =? 0 then (table, RUNTIME_SYSCALL_STATUS_EINVAL)
      else
        match find_idx (λ _ e, is_session object e) t with
        | Some index => (Some (aupd t index runtime_service_session_clear),
                         RUNTIME_SYSCALL_STATUS_OK)
        | None => (table, RUNTIME_SYSCALL_STATUS_EBADF)
        end
  | None => (table, RUNTIME_SYSCALL_STATUS_EINVAL)
  end.

Definition session_info_of (e : runtime_service_session_entry) : runtime_service_session_info :=
  SessionInfo (se_object e) (se_owner_pid e) (se_provider_pid e) (se_service_slot e).

Definition runtime_service_session_info_of (table : option session_table) (object : N)
    (info : bool) : Z * option runtime_service_session_info :=
  match table with
  | Some t =>
      if negb info || (object =? 0) then (RUNTIME_SYSCALL_STATUS_EINVAL, None)
      else
        match find_idx (λ _ e, is_session object e) t with
        | Some index => (RUNTIME_SYSCALL_STATUS_OK, session_info_of <$> aget t index)
        | None => (RUNTIME_SYSCALL_STATUS_EBADF, None)
        end
  | None => (RUNTIME_SYSCALL_STATUS_EINVAL, None)
  end.

Definition provided_by (provider_pid : N) (e : runtime_service_session_entry) : bool :=
  negb ((se_active e =? 0) || negb (se_provider_pid e =? provider_pid)).

Definition runtime_service_session_invalidate_provider (table : option session_table)
    (provider_pid : N) : option session_table * N :=
  match table with
  | Some t =>
      if provider_pid =? 0 then (table, 0)
      else
        let '(t', closed) := update_where (provided_by provider_pid)
                               runtime_service_session_clear t in
        (Some t', closed)
  | None => (table, 0)
  end.

(** ** The table as a map *)

Record sessions_ok (t : session_table) : Prop := {
  so_length : N.of_nat (length t) = RUNTIME_SERVICE_SESSION_CAPACITY;
  so_object : ∀ i e, aget t i = Some e → se_active e ≠ 0 → se_object e = i + 1
}.

(** The session with the given object. *)
Definition session (t : session_table) (object : N) : option runtime_service_session_info :=
  if object =? 0 then None
  else e ← aget t (object - 1); if nz (se_active e) then Some (session_info_of e) else None.

Lemma find_session t object :
  sessions_ok t → object ≠ 0 →
  match find_idx (λ _ e, is_session object e) t with
  | Some i => object = i + 1 ∧ ∃ e, aget t i = Some e ∧ se_active e ≠ 0 ∧
      session t object = Some (session_info_of e)
  | None => session t object = None
  end.
Proof.
  intros [Hl Hobj] Hne. unfold session. destruct (N.eqb_spec object 0); [done|].
  destruct (find_idx _ t) as [i|] eqn:Hf.
  - apply find_idx_Some in Hf as (e & He & Hs & _). unfold is_session in Hs. bools.
    assert (object = i + 1) as -> by (rewrite <-(Hobj i e) by done; done).
    split; [done|]. exists e. replace (i + 1 - 1) with i by lia. rewrite He. cbind.
    apply nz_true in H as Hz. by rewrite Hz.
  - rewrite find_idx_None in Hf. destruct (aget t (object - 1)) as [e|] eqn:He; [|done]. cbind.
    destruct (nz (se_active e)) eqn:Hz; [|done]. specialize (Hf _ _ He). unfold is_session in Hf.
    rewrite Hz in Hf. bools. rewrite (Hobj _ _ He) in Hf by done. cbn [andb] in Hf. bools. lia.
Qed.

Lemma session_aupd t i f e object :
  aget t i = Some e →
  session (aupd t i f) object =
    if decide (object = i + 1)
    then (if nz (se_active (f e)) then Some (session_info_of (f e)) else None)
    else session t object.
Proof.
  intros He. unfold session. destruct (N.eqb_spec object 0); [by rewrite decide_False by lia|].
  case_decide.
  - subst. replace (i + 1 - 1) with i by lia. rewrite aget_aupd_eq, He. done.
  - rewrite aget_aupd_ne by lia. done.
Qed.

Lemma sessions_ok_aupd t i f e :
  sessions_ok t → aget t i = Some e →
  (se_active (f e) ≠ 0 → se_object (f e) = i + 1) → sessions_ok (aupd t i f).
Proof.
  intros [Hl Hobj] He Hf. split; [by rewrite length_aupd|]. intros j x. rewrite aget_aupd.
  case_decide as Hij; [subst|by apply Hobj]. rewrite He. intros [= <-]. done.
Qed.

Lemma open_cases t owner provider slot :
  sessions_ok t → owner ≠ 0 → provider ≠ 0 →
  ∃ t' status out,
    runtime_service_session_open (Some t) owner provider slot true = (Some t', status, out) ∧
    sessions_ok t' ∧
    ((∃ object, status = RUNTIME_SYSCALL_STATUS_OK ∧ out = Some object ∧ object ≠ 0 ∧
        session t object = None ∧
        ∀ o, session t' o = if decide (o = object)
                            then Some (SessionInfo object owner provider slot) else session t o) ∨
     (status = RUNTIME_SYSCALL_STATUS_ENOSPC ∧ t' = t ∧
        ∀ o, 1 ≤ o ≤ RUNTIME_SERVICE_SESSION_CAPACITY → session t o ≠ None)).
Proof.
  intros Hok Ho Hp. unfold runtime_service_session_open.
  destruct (N.eqb_spec owner 0), (N.eqb_spec provider 0); try done. cbn [negb orb].
  destruct (find_idx _ t) as [i|] eqn:Hf.
  - apply find_idx_Some in Hf as (e & He & Hz & _). apply negb_true_iff in Hz. pose proof (aget_Some_lt _ _ _ He) as Hi.
    rewrite (so_length _ Hok) in Hi. change RUNTIME_SERVICE_SESSION_CAPACITY with 8 in Hi.
    rewrite u32_small by lia. eexists _, _, _. split; [done|].
    split; [by eapply sessions_ok_aupd|]. left. exists (i + 1). split_and!; [done|done|lia| |].
    + unfold session. destruct (N.eqb_spec (i + 1) 0); [lia|]. replace (i + 1 - 1) with i by lia.
      rewrite He. cbind. by rewrite Hz.
    + intros o. by rewrite (session_aupd _ _ _ _ _ He).
  - eexists _, _, _. split; [done|]. split; [done|]. right. split_and!; [done|done|]. intros o Hr.
    rewrite find_idx_None in Hf. unfold session. destruct (N.eqb_spec o 0); [lia|].
    destruct (aget_is_Some t (o - 1)) as [e He]; [rewrite (so_length _ Hok); lia|].
    rewrite He. cbind. specialize (Hf _ _ He). cbn beta in Hf. apply negb_false_iff in Hf.
    by rewrite Hf.
Qed.

Lemma info_cases t o :
  sessions_ok t → o ≠ 0 →
  runtime_service_session_info_of (Some t) o true =
    match session t o with
    | Some i => (RUNTIME_SYSCALL_STATUS_OK, Some i)
    | None => (RUNTIME_SYSCALL_STATUS_EBADF, None)
    end.
Proof.
  intros Hok Hne. unfold runtime_service_session_info_of. pose proof (find_session t o Hok Hne) as Hf.
  destruct (N.eqb_spec o 0); [done|]. cbn [negb orb]. destruct (find_idx _ t) as [i|].
  - destruct Hf as (-> & e & He & _ & ->). by rewrite He.
  - by rewrite Hf.
Qed.

Lemma close_cases t o :
  sessions_ok t → o ≠ 0 →
  ∃ t', runtime_service_session_close (Some t) o =
      (Some t', match session t o with Some _ => RUNTIME_SYSCALL_STATUS_OK
                | None => RUNTIME_SYSCALL_STATUS_EBADF end) ∧ sessions_ok t' ∧
    ∀ o', session t' o' = if decide (o' = o) then None else session t o'.
Proof.
  intros Hok Hne. unfold runtime_service_session_close. pose proof (find_session t o Hok Hne) as Hf.
  destruct (N.eqb_spec o 0); [done|]. destruct (find_idx _ t) as [i|].
  - destruct Hf as (-> & e & He & _ & ->). eexists. split; [done|].
    split; [by eapply sessions_ok_aupd|]. intros o'. by rewrite (session_aupd _ _ _ _ _ He).
  - exists t. rewrite Hf. split_and!; [done|done|]. intros o'. case_decide; [by subst|done].
Qed.

Lemma invalidate_cases t provider :
  sessions_ok t → provider ≠ 0 →
  ∃ t' closed,
    runtime_service_session_invalidate_provider (Some t) provider = (Some t', closed) ∧
    closed = count_if (provided_by provider) t ∧ sessions_ok t' ∧
    ∀ o, session t' o = i ← session t o; if si_provider_pid i =? provider then None else Some i.
Proof.
  intros Hok Hp. unfold runtime_service_session_invalidate_provider.
  destruct (N.eqb_spec provider 0); [done|].
  pose proof (update_where_fst (provided_by provider) runtime_service_session_clear t) as H1.
  pose proof (update_where_snd (provided_by provider) runtime_service_session_clear t) as H2.
  destruct (update_where _ _ t) as [t' closed]. cbn [fst snd] in *. subst.
  set (g e := if provided_by provider e then runtime_service_session_clear e else e).
  assert (∀ i, aget (g <$> t) i = g <$> aget t i) as Hget
    by (intros i; rewrite !aget_lookup; apply list_lookup_fmap).
  eexists _, _. split; [done|]. split; [done|]. split.
  - split; [by rewrite length_fmap, (so_length _ Hok)|]. intros i e. rewrite Hget.
    destruct (aget t i) as [x|] eqn:Hx; [|done]. intros [= <-]. unfold g.
    destruct (provided_by provider x); [done|]. by apply (so_object _ Hok).
  - intros o. unfold session. destruct (N.eqb_spec o 0); [done|]. rewrite Hget.
    destruct (aget t (o - 1)) as [x|]; [|done]. cbn [fmap option_fmap option_map]. cbind.
    unfold g, provided_by, nz. destruct (N.eqb_spec (se_active x) 0) as [Hz|Hz]; cbn [negb orb].
    + by rewrite Hz.
    + cbind. cbn [session_info_of si_provider_pid].
      destruct (N.eqb_spec (se_provider_pid x) provider); cbn [negb]; [done|].
      by destruct (N.eqb_spec (se_active x) 0).
Qed.

(** Sessions form a map from objects to descriptions: opening adds a
    session under an object no open session has (or fails with ENOSPC when
    all eight are open), info reads the map, closing removes exactly the
    object's session (EBADF when there is none), and invalidating a provider
    removes exactly its sessions. *)
Theorem service_sessions_are_a_map t owner provider slot :
  sessions_ok t → owner ≠ 0 → provider ≠ 0 →
  (∃ t' status out,
     runtime_service_session_open (Some t) owner provider slot true = (Some t', status, out) ∧
     sessions_ok t' ∧
     ((∃ object, status = RUNTIME_SYSCALL_STATUS_OK ∧ out = Some object ∧ object ≠ 0 ∧
         session t object = None ∧
         ∀ o, session t' o = if decide (o = object)
                             then Some (SessionInfo object owner provider slot) else session t o) ∨
      (status = RUNTIME_SYSCALL_STATUS_ENOSPC ∧ t' = t ∧
         ∀ o, 1 ≤ o ≤ RUNTIME_SERVICE_SESSION_CAPACITY → session t o ≠ None))) ∧
  (∀ o, o ≠ 0 → runtime_service_session_info_of (Some t) o true =
     match session t o with
     | Some i => (RUNTIME_SYSCALL_STATUS_OK, Some i)
     | None => (RUNTIME_SYSCALL_STATUS_EBADF, None)
     end) ∧
  (∀ o, o ≠ 0 → ∃ t', runtime_service_session_close (Some t) o =
       (Some t', match session t o with Some _ => RUNTIME_SYSCALL_STATUS_OK
                 | None => RUNTIME_SYSCALL_STATUS_EBADF end) ∧ sessions_ok t' ∧
     ∀ o', session t' o' = if decide (o' = o) then None else session t o') ∧
  (∃ t' closed, runtime_service_session_invalidate_provider (Some t) provider = (Some t', closed) ∧
     closed = count_if (provided_by provider) t ∧ sessions_ok t' ∧
     ∀ o, session t' o = i ← session t o; if si_provider_pid i =? provider then None else Some i).
Proof.
  intros Hok Ho Hp. split; [by apply open_cases|]. split; [intros o; by apply info_cases|].
  split; [intros o; by apply close_cases|by apply invalidate_cases].
Qed.

Definition demo_sessions : session_table :=
  SessionEntry 1 3 9 0 1 :: SessionEntry 2 4 8 1 1 :: replicate 6 (SessionEntry 0 0 0 0 0).

Lemma demo_sessions_ok : sessions_ok demo_sessions.
Proof.
  split; [done|]. intros i e Hi. pose proof (aget_Some_lt _ _ _ Hi) as Hlt. simpl in Hlt.
  rewrite aget_lookup in Hi. assert (i = 0 ∨ i = 1 ∨ 2 ≤ i) as [->|[->|?]] by lia;
    [by injection Hi as <-..|].
  replace (N.to_nat i) with (S (S (N.to_nat (i - 2)))) in Hi by lia.
  apply lookup_replicate in Hi as [-> _]. done.
Qed.

Lemma service_sessions_are_a_map_witness :
  ∃ t', runtime_service_session_close (Some demo_sessions) 2 = (Some t', RUNTIME_SYSCALL_STATUS_OK) ∧
    session t' 2 = None ∧ session t' 1 = Some (SessionInfo 1 3 9 0).
Proof.
  destruct (service_sessions_are_a_map demo_sessions 4 8 1 demo_sessions_ok ltac:(lia) ltac:(lia))
    as (_ & _ & Hclose & _).
  destruct (Hclose 2 ltac:(lia)) as (t' & Hc & _ & Hs). exists t'.
  split; [exact Hc|]. split; [exact (Hs 2)|exact (Hs 1)].
Defined.
