(* ===== verification/RuntimePolicy.v ===== *)
(** * Scheduling policy and preemption points ([kernel/runtime_policy.c],
    [kernel/preempt.c])

    Build-time configuration is a section variable of type [bool]; the
    target's preemption hook acts on the world [W]. *)

From S2P Require Import Prelude ProcessCore.

Local Open Scope N_scope.

(** ** The spawn policy *)

Section policy.
Context (CONFIG_RUNTIME_SINGLE_FOREGROUND CONFIG_SCHEDULER_COOPERATIVE : bool).

Definition is_live (p : process_runtime_state) : bool :=
  negb (in_state PROCESS_STATE_UNUSED p || in_state PROCESS_STATE_ZOMBIE p).

Definition runtime_policy_can_spawn (processes : list process_runtime_state) (role : N) : bool :=
  if CONFIG_RUNTIME_SINGLE_FOREGROUND then
    if negb (role =? RUNTIME_PROCESS_ROLE_FOREGROUND_APP) then true
    else negb (exists_idx (λ _ p, is_live p && (p_role p =? RUNTIME_PROCESS_ROLE_FOREGROUND_APP))
                 processes)
  else true.

Definition runtime_policy_count_role (processes : list process_runtime_state) (role : N) : N :=
  count_if (λ p, is_live p && (p_role p =? role)) processes.

Definition scheduler_mode_name : cstr :=
  if CONFIG_SCHEDULER_COOPERATIVE then cs "cooperative" else cs "preemptive".

Definition runtime_policy_mode_name : cstr :=
  if CONFIG_RUNTIME_SINGLE_FOREGROUND then cs "single_foreground" else cs "multiprocess".

Definition runtime_process_role_name (role : N) : cstr :=
  if role =? RUNTIME_PROCESS_ROLE_SYSTEM then cs "system"
  else if role =? RUNTIME_PROCESS_ROLE_FOREGROUND_APP then cs "foreground_app"
  else if role =? RUNTIME_PROCESS_ROLE_BACKGROUND_APP then cs "background_app"
  else if role =? RUNTIME_PROCESS_ROLE_LIVE_ACTIVITY then cs "live_activity"
  else cs "none".

(** The policy keeps at most one live foreground application: a spawn it
    allows into any slot that holds no live process preserves that. *)
Lemma can_spawn_single_foreground processes role i old new :
  CONFIG_RUNTIME_SINGLE_FOREGROUND = true →
  runtime_policy_count_role processes RUNTIME_PROCESS_ROLE_FOREGROUND_APP ≤ 1 →
  runtime_policy_can_spawn processes role = true →
  aget processes i = Some old → is_live old = false → p_role new = role →
  runtime_policy_count_role (aupd processes i (λ _, new)) RUNTIME_PROCESS_ROLE_FOREGROUND_APP ≤ 1.
Proof.
  intros Hcfg Hone Hcan Hold Hdead Hrole. unfold runtime_policy_can_spawn in Hcan.
  rewrite Hcfg in Hcan. unfold runtime_policy_count_role in *.
  set (f p := is_live p && (p_role p =? RUNTIME_PROCESS_ROLE_FOREGROUND_APP)) in *.
  assert (∀ l n, l !! n = Some old →
    count_if f (alter (λ _, new) n l) = count_if f l + (if f new then 1 else 0)) as Hcount.
  { intros l. induction l as [|x l IH]; intros n Hn; [done|]. destruct n as [|n]; cbn [count_if].
    - injection Hn as ->. cbn [alter list_alter count_if].
      assert (f old = false) as -> by (unfold f; by rewrite Hdead). lia.
    - change (alter (λ _, new) (S n) (x :: l)) with (x :: alter (λ _, new) n l). cbn [count_if].
      rewrite IH by done. lia. }
  unfold aupd. rewrite aget_lookup in Hold. rewrite (Hcount _ _ Hold).
  destruct (N.eqb_spec role RUNTIME_PROCESS_ROLE_FOREGROUND_APP) as [Hr|Hr]; cbn [negb] in Hcan.
  - apply negb_true_iff in Hcan. rewrite exists_idx_false in Hcan.
    assert (count_if f processes = 0) as ->; [|by destruct (f new)].
    apply count_if_zero. intros x Hx. apply list_elem_of_lookup_1 in Hx as [j Hx].
    apply (Hcan (N.of_nat j)). by rewrite aget_lookup, Nat2N.id.
  - assert (f new = false) as ->; [|lia]. unfold f. rewrite Hrole.
    destruct (N.eqb_spec role RUNTIME_PROCESS_ROLE_FOREGROUND_APP); [done|apply andb_false_r].
Qed.
End policy.

(** ** Preemption points *)

Record scheduler_preempt_state := PreemptState {
  pr_pending : N;
  pr_tick_count : N;
  pr_disable_depth : N
}.

Section preempt.
Context {W : Type} (CONFIG_SCHEDULER_PREEMPTIVE : bool).
(** [scheduler_target_preempt_capable] and [scheduler_target_preempt_safe_point]
    of the target. *)
Context (scheduler_target_preempt_capable : bool)
        (scheduler_target_preempt_safe_point : W → W).

Definition scheduler_preempt_init (s : scheduler_preempt_state) : scheduler_preempt_state :=
  PreemptState 0 0 0.

Definition scheduler_preempt_on_timer_tick (s : scheduler_preempt_state)
  : scheduler_preempt_state :=
  PreemptState (if CONFIG_SCHEDULER_PREEMPTIVE then 1 else pr_pending s)
    (u32 (pr_tick_count s + 1)) (pr_disable_depth s).

Definition scheduler_preempt_supported : bool := CONFIG_SCHEDULER_PREEMPTIVE.
Definition scheduler_preempt_target_capable : bool := scheduler_target_preempt_capable.
Definition scheduler_preempt_pending (s : scheduler_preempt_state) : bool := nz (pr_pending s).

Definition scheduler_preempt_clear_pending (s : scheduler_preempt_state)
  : scheduler_preempt_state := PreemptState 0 (pr_tick_count s) (pr_disable_depth s).

Definition scheduler_maybe_preempt_at_safe_point (s : scheduler_preempt_state) (w : W)
  : scheduler_preempt_state * W * bool :=
  if negb scheduler_preempt_supported then (s, w, false)
  else if negb (scheduler_preempt_pending s) then (s, w, false)
  else if nz (pr_disable_depth s) then (s, w, false)
  else if negb scheduler_preempt_target_capable then (s, w, false)
  else (scheduler_preempt_clear_pending s, scheduler_target_preempt_safe_point w, true).

Definition preempt_disable (s : scheduler_preempt_state) : scheduler_preempt_state :=
  PreemptState (pr_pending s) (pr_tick_count s) (u32 (pr_disable_depth s + 1)).

Definition preempt_enable (s : scheduler_preempt_state) (w : W) : scheduler_preempt_state * W :=
  if pr_disable_depth s =? 0 then (s, w)
  else
    let s' := PreemptState (pr_pending s) (pr_tick_count s) (pr_disable_depth s - 1) in
    if pr_disable_depth s' =? 0 then (scheduler_maybe_preempt_at_safe_point s' w).1 else (s', w).

Definition preempt_disable_depth (s : scheduler_preempt_state) : N := pr_disable_depth s.
Definition scheduler_preempt_tick_count (s : scheduler_preempt_state) : N := pr_tick_count s.

Definition scheduler_preempt_status_name (s : scheduler_preempt_state) : cstr :=
  if negb scheduler_preempt_supported then cs "cooperative_only"
  else if negb scheduler_preempt_target_capable then cs "preempt_target_hook_missing"
  else if nz (pr_disable_depth s) then cs "preempt_deferred_critical_section"
  else if scheduler_preempt_pending s then cs "preempt_pending_safe_point"
  else cs "preempt_safe_point_idle".

(** What happens between disabling and enabling: ticks, safe points, and
    nested critical sections. *)
Inductive critical_event := Tick | SafePoint | Nested (inner : list critical_event).

Fixpoint run_event (e : critical_event) (sw : scheduler_preempt_state * W)
  : scheduler_preempt_state * W :=
  match e with
  | Tick => (scheduler_preempt_on_timer_tick sw.1, sw.2)
  | SafePoint => (scheduler_maybe_preempt_at_safe_point sw.1 sw.2).1
  | Nested inner =>
      let '(s, w) := fold_left (λ sw e, run_event e sw) inner (preempt_disable sw.1, sw.2) in
      preempt_enable s w
  end.

Fixpoint ticks (e : critical_event) : N :=
  match e with
  | Tick => 1
  | SafePoint => 0
  | Nested inner => fold_right (λ e n, ticks e + n) 0 inner
  end.

(** The nesting depth. *)
Fixpoint depth (e : critical_event) : N :=
  match e with
  | Tick | SafePoint => 0
  | Nested inner => 1 + fold_right (λ e n, N.max (depth e) n) 0 inner
  end.

Definition pending_after (s : scheduler_preempt_state) (n : N) : N :=
  if CONFIG_SCHEDULER_PREEMPTIVE && nz n then 1 else pr_pending s.

Lemma pending_after_add s n m t d :
  pending_after (PreemptState (pending_after s n) t d) m = pending_after s (n + m).
Proof.
  unfold pending_after. cbn [pr_pending]. destruct CONFIG_SCHEDULER_PREEMPTIVE; [|done]. cbn [andb].
  unfold nz. destruct (N.eqb_spec n 0), (N.eqb_spec (n + m) 0), (N.eqb_spec m 0); cbn; done || lia.
Qed.

(** [fold_left] over events that behave well inside a critical section. *)
Lemma fold_events (l : list critical_event) :
  (∀ e, e ∈ l → ∀ s w, pr_disable_depth s ≠ 0 → pr_disable_depth s + depth e < 4294967296 →
     ∃ t, run_event e (s, w) =
       (PreemptState (pending_after s (ticks e)) t (pr_disable_depth s), w)) →
  ∀ s w, pr_disable_depth s ≠ 0 →
    pr_disable_depth s + fold_right (λ e n, N.max (depth e) n) 0 l < 4294967296 →
    ∃ t, fold_left (λ sw e, run_event e sw) l (s, w) =
      (PreemptState (pending_after s (fold_right (λ e n, ticks e + n) 0 l)) t
         (pr_disable_depth s), w).
Proof.
  induction l as [|x l IHl]; intros Hall s w Hd Hn; cbn [fold_left fold_right] in *.
  - exists (pr_tick_count s). unfold pending_after. rewrite andb_false_r. by destruct s.
  - destruct (Hall x ltac:(by left) s w Hd ltac:(lia)) as [t ->].
    destruct (IHl ltac:(intros e He; apply Hall; by right)
      (PreemptState (pending_after s (ticks x)) t (pr_disable_depth s)) w) as [t' ->];
      [done|cbn; lia|]. exists t'. by rewrite pending_after_add.
Qed.

(** Inside a critical section the hook never runs, and a tick stays
    pending. *)
Lemma run_event_inside e : ∀ s w,
  pr_disable_depth s ≠ 0 → pr_disable_depth s + depth e < 4294967296 →
  ∃ t, run_event e (s, w) =
    (PreemptState (pending_after s (ticks e)) t (pr_disable_depth s), w).
Proof.
  revert e. fix IH 1. intros [| |inner] s w Hd Hn.
  - eexists. cbn. unfold pending_after. by rewrite andb_true_r.
  - exists (pr_tick_count s). cbn. unfold scheduler_maybe_preempt_at_safe_point, pending_after.
    assert (nz (pr_disable_depth s) = true) as -> by (by apply nz_true). rewrite andb_false_r.
    destruct s as [pend tc dd]. by repeat case_match.
  - cbn [run_event depth fst snd] in *.
    assert (∀ e, e ∈ inner → ∀ s w, pr_disable_depth s ≠ 0 →
      pr_disable_depth s + depth e < 4294967296 → ∃ t, run_event e (s, w) =
        (PreemptState (pending_after s (ticks e)) t (pr_disable_depth s), w)) as Hall.
    { clear Hn. induction inner as [|x inner IHi]; [by intros e He%elem_of_nil|].
      intros e [->|He]%elem_of_cons; [apply IH|by apply IHi]. }
    destruct (fold_events inner Hall (preempt_disable s) w) as [t ->];
      cbn [preempt_disable pr_disable_depth]; rewrite ?u32_small by lia; [lia|lia|].
    exists t. unfold preempt_enable. cbn [pr_disable_depth pr_pending pr_tick_count].
    destruct (N.eqb_spec (pr_disable_depth s + 1) 0); [lia|].
    replace (pr_disable_depth s + 1 - 1) with (pr_disable_depth s) by lia.
    by destruct (N.eqb_spec (pr_disable_depth s) 0).
Qed.

Lemma run_events_inside l s w :
  pr_disable_depth s ≠ 0 →
  pr_disable_depth s + fold_right (λ e n, N.max (depth e) n) 0 l < 4294967296 →
  ∃ t, fold_left (λ sw e, run_event e sw) l (s, w) =
    (PreemptState (pending_after s (fold_right (λ e n, ticks e + n) 0 l)) t
       (pr_disable_depth s), w).
Proof. apply fold_events. intros e _. apply run_event_inside. Qed.
End preempt.

(** Preemption requested during a critical section is delivered when the
    outermost section ends: whatever ticks, safe points and nested sections
    happen inside, the target's hook does not run before, and at the end it
    runs exactly once, clearing the request, when the kernel is preemptive,
    the target capable and a request was pending or a tick occurred; otherwise
    it does not run and the request stays. *)
Theorem preemption_deferred_to_enable {W} preemptive capable (hook : W → W) inner s w :
  pr_disable_depth s = 0 → depth (Nested inner) < 4294967296 →
  let requested := nz (pending_after preemptive s (ticks (Nested inner))) in
  let fires := preemptive && capable && requested in
  let '(s', w') := run_event preemptive capable hook (Nested inner) (s, w) in
  w' = (if fires then hook w else w) ∧ pr_disable_depth s' = 0 ∧
  scheduler_preempt_pending s' = (if fires then false else requested).
Proof.
  intros Hd Hn requested fires.
  assert (∃ t, fold_left (λ sw e, run_event preemptive capable hook e sw) inner
      (preempt_disable s, w) =
    (PreemptState (pending_after preemptive s (ticks (Nested inner))) t 1, w)) as [t Ht].
  { destruct (run_events_inside preemptive capable hook inner (preempt_disable s) w) as [t Ht].
    - cbn. rewrite Hd. done.
    - cbn [preempt_disable pr_disable_depth depth] in *. rewrite Hd. change (u32 (0 + 1)) with 1. lia.
    - exists t. rewrite Ht. cbn [preempt_disable pr_disable_depth]. by rewrite Hd. }
  cbn [run_event fst snd]. rewrite Ht. unfold preempt_enable. cbn [pr_disable_depth pr_pending pr_tick_count].
  change (1 =? 0) with false. change (1 - 1) with 0. cbv iota. cbn [pr_disable_depth N.eqb pr_pending pr_tick_count].
  unfold scheduler_maybe_preempt_at_safe_point, scheduler_preempt_supported,
    scheduler_preempt_target_capable, scheduler_preempt_pending. cbn [pr_pending pr_disable_depth].
  subst fires requested. destruct preemptive, capable; cbn [negb andb fst]; try done;
    destruct (nz (pending_after _ _ _)) eqn:Hp; cbn; split_and!; try done.
Qed.

Lemma preemption_deferred_to_enable_witness :
  run_event true true S (Nested [Tick; SafePoint; Nested [Tick; SafePoint]; Tick])
    (PreemptState 0 0 0, 0%nat) = (PreemptState 0 3 0, 1%nat) ∧
  ∀ s' w', run_event true true S (Nested [Tick; SafePoint; Nested [Tick; SafePoint]; Tick])
    (PreemptState 0 0 0, 0%nat) = (s', w') → w' = 1%nat.
Proof.
  split; [vm_compute; reflexivity|]. intros s' w' Hr.
  pose proof (preemption_deferred_to_enable true true S
    [Tick; SafePoint; Nested [Tick; SafePoint]; Tick] (PreemptState 0 0 0) 0%nat eq_refl
    ltac:(vm_compute; reflexivity)) as Hp.
  cbv zeta in Hp. rewrite Hr in Hp. exact (proj1 Hp).
Defined.
