(* ===== verification/RuntimeManage.v ===== *)
(** * The management shell ([kernel/runtime_manage.c])

    A line editor and a command interpreter over the callbacks of
    [runtime_manage_ops], which are parameters: a callback maps the context
    [C] to its result and the new context, and is [None] when the pointer is
    NULL.  A computation is [None] when the C code has no defined result. *)

From S2P Require Import Prelude ProcessCore RuntimePolicy Kmem.

Local Open Scope N_scope.

(** ** Tokens

    A token is a pointer into the command and a length; it is represented by
    the list of its characters. *)

Definition ascii_is_space (ch : ascii) : bool :=
  (code ch =? 32) || (code ch =? 9) || (code ch =? 10) || (code ch =? 13).

Fixpoint skip_spaces (cursor : cstr) : cstr :=
  match cursor with
  | ch :: rest => if ascii_is_space ch then skip_spaces rest else cursor
  | [] => []
  end.

Fixpoint token_loop (cursor : cstr) : cstr * cstr :=
  match cursor with
  | ch :: rest =>
      if ascii_is_space ch then ([], cursor)
      else let '(token, after) := token_loop rest in (ch :: token, after)
  | [] => ([], [])
  end.

(** The cursor after the token, and the token. *)
Definition next_token (cursor : cstr) : cstr * cstr :=
  let '(token, after) := token_loop (skip_spaces cursor) in (after, token).

Fixpoint token_equals (token word : cstr) : bool :=
  match token, word with
  | a :: token', b :: word' => if negb (chr_eqb a b) then false else token_equals token' word'
  | [], [] => true
  | _, _ => false
  end.

Definition token_is_empty (token : cstr) : bool := (length token =? 0)%nat.

(** ** Numbers *)

Definition digit_of (base : N) (ch : ascii) : option N :=
  let c := code ch in
  if (48 <=? c) && (c <=? 57) then Some (c - 48)
  else if (base =? 16) && (97 <=? c) && (c <=? 102) then Some (10 + (c - 97))
  else if (base =? 16) && (65 <=? c) && (c <=? 70) then Some (10 + (c - 65))
  else None.

Fixpoint digits_loop (base : N) (token : cstr) (result : N) : option N :=
  match token with
  | [] => Some result
  | ch :: token' =>
      digit ← digit_of base ch;
      if base <=? digit then None else digits_loop base token' (u32 (u32 (result * base) + digit))
  end.

Definition parse_u32_token (token : cstr) : option N :=
  if (length token =? 0)%nat then None
  else
    let '(base, digits) :=
      match token with
      | z :: x :: rest =>
          if (2 <? length token)%nat && (code z =? 48) && ((code x =? 120) || (code x =? 88))
          then (16, rest) else (10, token)
      | _ => (10, token)
      end in
    if (length digits =? 0)%nat then None else digits_loop base digits 0.

(** The result of a parse: it fails, or it has a value; the negation of the
    least [int32_t] is [None]. *)
Definition parse_i32_token (token : cstr) : option (option Z) :=
  match token with
  | sign :: rest =>
      if (1 <? length token)%nat && (code sign =? 45) then
        match parse_u32_token rest with
        | Some unsigned_value =>
            if 2147483648 <? unsigned_value then Some None
            else if unsigned_value =? 2147483648 then None
            else Some (Some (- Z.of_N unsigned_value)%Z)
        | None => Some None
        end
      else
        match parse_u32_token token with
        | Some unsigned_value =>
            if 2147483647 <? unsigned_value then Some None else Some (Some (Z.of_N unsigned_value))
        | None => Some None
        end
  | [] => Some None
  end.

Definition runtime_manage_parse_role (token : cstr) : option N :=
  if token_equals token (cs "system") then Some RUNTIME_PROCESS_ROLE_SYSTEM
  else if token_equals token (cs "foreground") || token_equals token (cs "foreground_app") then
    Some RUNTIME_PROCESS_ROLE_FOREGROUND_APP
  else if token_equals token (cs "background") || token_equals token (cs "background_app") then
    Some RUNTIME_PROCESS_ROLE_BACKGROUND_APP
  else if token_equals token (cs "live") || token_equals token (cs "live_activity") then
    Some RUNTIME_PROCESS_ROLE_LIVE_ACTIVITY
  else None.

(** ** Data ([include/runtime_manage.h]) *)

Definition RUNTIME_MANAGE_LINE_CAPACITY : N := 64.
Definition RUNTIME_MANAGE_SPAWNABLE_SNAPSHOT_CAPACITY : N := 16.
Definition RUNTIME_MANAGE_PATH_CAPACITY : N := 96.
Definition RUNTIME_MANAGE_DEMO_PROFILE_OFF : N := 0.
Definition RUNTIME_MANAGE_DEMO_PROFILE_SMOKE : N := 1.

Inductive runtime_manage_status :=
  | RUNTIME_MANAGE_STATUS_OK
  | RUNTIME_MANAGE_STATUS_EMPTY
  | RUNTIME_MANAGE_STATUS_UNKNOWN_COMMAND
  | RUNTIME_MANAGE_STATUS_BAD_ARGUMENT
  | RUNTIME_MANAGE_STATUS_UNAVAILABLE.
#[export] Instance runtime_manage_status_eq_dec : EqDecision runtime_manage_status.
Proof. solve_decision. Defined.

Record runtime_manage_spawnable_info := SpawnableInfo {
  mi_task_name : option cstr;
  mi_process_name : option cstr;
  mi_default_role : N
}.

Definition runtime_manage_status_name (status : runtime_manage_status) : cstr :=
  match status with
  | RUNTIME_MANAGE_STATUS_OK => cs "ok"
  | RUNTIME_MANAGE_STATUS_EMPTY => cs "empty"
  | RUNTIME_MANAGE_STATUS_UNKNOWN_COMMAND => cs "unknown_command"
  | RUNTIME_MANAGE_STATUS_BAD_ARGUMENT => cs "bad_argument"
  | RUNTIME_MANAGE_STATUS_UNAVAILABLE => cs "unavailable"
  end.

Definition runtime_manage_demo_profile_name (profile : N) : cstr :=
  if profile =? RUNTIME_MANAGE_DEMO_PROFILE_SMOKE then cs "profile_smoke"
  else if profile =? RUNTIME_MANAGE_DEMO_PROFILE_OFF then cs "profile_off"
  else cs "profile_unknown".

Definition process_state_name (state : process_state) : cstr :=
  match state with
  | PROCESS_STATE_READY => cs "ready"
  | PROCESS_STATE_RUNNING => cs "running"
  | PROCESS_STATE_BLOCKED => cs "blocked"
  | PROCESS_STATE_ZOMBIE => cs "zombie"
  | PROCESS_STATE_UNUSED => cs "unused"
  end.

Definition process_wait_reason_name (wait_reason : process_wait_reason) : cstr :=
  match wait_reason with
  | PROCESS_WAIT_SLEEP_TICKS => cs "sleep_ticks"
  | PROCESS_WAIT_MANUAL => cs "manual"
  | PROCESS_WAIT_CHILD => cs "child"
  | PROCESS_WAIT_EVENT_CHANNEL => cs "event_channel"
  | PROCESS_WAIT_NONE => cs "none"
  end.

(** ** Computations over the context of the callbacks *)

Definition manage (C A : Type) : Type := C → option (A * C).
#[export] Instance manage_ret C : MRet (manage C) := λ A x c, Some (x, c).
#[export] Instance manage_bind C : MBind (manage C) :=
  λ A B f m c, match m c with Some (x, c') => f x c' | None => None end.
Definition undefined {C A} : manage C A := λ _, None.
Definition lift {C A} (x : option A) : manage C A :=
  match x with Some a => mret a | None => undefined end.

Record runtime_manage_ops (C : Type) := ManageOps {
  mo_snapshot : option (N → manage C (list process_info * N));
  mo_spawnable_snapshot : option (N → manage C (list runtime_manage_spawnable_info * N));
  mo_kmem_stats : option (manage C kmem_stats);
  mo_mailbox_has_message : option (manage C Z);
  mo_mailbox_waiting_senders : option (manage C N);
  mo_mailbox_waiting_receivers : option (manage C N);
  mo_mailbox_send : option (N → manage C bool);
  mo_mailbox_receive : option (manage C (N * bool));
  mo_event_signal : option (manage C N);
  mo_process_wake : option (N → manage C bool);
  mo_process_kill : option (N → Z → manage C bool);
  mo_spawn_named_process : option (cstr → N → manage C N);
  mo_demo_profile : option (manage C N);
  mo_demo_set_profile : option (N → manage C bool);
  mo_demo_completed_steps : option (manage C N);
  mo_demo_total_steps : option (manage C N);
  mo_shell_path : option (manage C (option cstr));
  mo_resolve_command_path : option (cstr → N → manage C (option cstr));
  mo_scheduler_mode_name : option (manage C cstr);
  mo_runtime_mode_name : option (manage C cstr);
  mo_preempt_status_name : option (manage C cstr);
  mo_log : option (cstr → cstr → manage C unit);
  mo_log_u32 : option (cstr → cstr → N → manage C unit)
}.
Arguments ManageOps {C}.
Arguments mo_snapshot {C}.
Arguments mo_spawnable_snapshot {C}.
Arguments mo_kmem_stats {C}.
Arguments mo_mailbox_has_message {C}.
Arguments mo_mailbox_waiting_senders {C}.
Arguments mo_mailbox_waiting_receivers {C}.
Arguments mo_mailbox_send {C}.
Arguments mo_mailbox_receive {C}.
Arguments mo_event_signal {C}.
Arguments mo_process_wake {C}.
Arguments mo_process_kill {C}.
Arguments mo_spawn_named_process {C}.
Arguments mo_demo_profile {C}.
Arguments mo_demo_set_profile {C}.
Arguments mo_demo_completed_steps {C}.
Arguments mo_demo_total_steps {C}.
Arguments mo_shell_path {C}.
Arguments mo_resolve_command_path {C}.
Arguments mo_scheduler_mode_name {C}.
Arguments mo_runtime_mode_name {C}.
Arguments mo_preempt_status_name {C}.
Arguments mo_log {C}.
Arguments mo_log_u32 {C}.

Section shell.
Context {C : Type}.
Implicit Types ops : runtime_manage_ops C.

Abbreviation manage := (manage C).

(** Nothing happens. *)
Definition skip : manage unit := mret ().

(** ** Reports *)

Definition MGMT : cstr := cs "MGMT".
Definition PROC : cstr := cs "PROC".

Definition help_lines : list cstr :=
  cs <$> ["commands:"; "help"; "runtime"; "path"; "which <name>"; "ps"; "inspect <pid>"; "kmem";
          "mailbox status"; "mailbox send <value>"; "mailbox recv"; "event signal"; "wake <pid>";
          "kill <pid> [exit_code]"; "spawn list"; "spawn <role> <task>"; "demo status";
          "demo auto on"; "demo auto off"; "demo profile smoke"; "demo profile off"]%string.

Fixpoint log_lines (log : cstr → cstr → manage unit) (lines : list cstr) : manage unit :=
  match lines with
  | [] => skip
  | line :: rest => _ ← log MGMT line; log_lines log rest
  end.

Definition runtime_manage_log_help ops : manage unit :=
  match mo_log ops with
  | None => skip
  | Some log => log_lines log help_lines
  end.

Definition runtime_manage_log_runtime ops : manage unit :=
  match mo_log ops, mo_scheduler_mode_name ops, mo_runtime_mode_name ops, mo_preempt_status_name ops with
  | Some log, Some scheduler_mode_name, Some runtime_mode_name, Some preempt_status_name =>
      _ ← log MGMT (cs "runtime");
      name ← scheduler_mode_name; _ ← log MGMT name;
      name ← runtime_mode_name; _ ← log MGMT name;
      name ← preempt_status_name; log MGMT name
  | _, _, _, _ => skip
  end.

(** The entries of an array of 8 that the callback has stored. *)
Fixpoint count_role_loop (count : nat) (snapshot : list process_info) (index role matches : N) : option N :=
  match count with
  | O => Some matches
  | S count' =>
      entry ← aget snapshot index;
      count_role_loop count' snapshot (index + 1) role
        (if pi_role entry =? role then u32 (matches + 1) else matches)
  end.

Definition count_role_in_snapshot (snapshot : list process_info) (count role : N) : option N :=
  count_role_loop (N.to_nat count) snapshot 0 role 0.

Definition log_wait (log : cstr → cstr → manage unit) (log_u32 : cstr → cstr → N → manage unit)
    (entry : process_info) : manage unit :=
  _ ← (match pi_wait_reason entry with
       | PROCESS_WAIT_NONE => skip
       | wait_reason =>
           _ ← log PROC (process_wait_reason_name wait_reason);
           log_u32 PROC (cs "wait_channel=") (pi_wait_channel entry)
       end);
  if nz (pi_wake_tick entry) then log_u32 PROC (cs "wake_tick=") (u32 (pi_wake_tick entry)) else skip.

Definition log_entry (log : cstr → cstr → manage unit) (log_u32 : cstr → cstr → N → manage unit)
    (entry : process_info) : manage unit :=
  _ ← log_u32 PROC (cs "pid=") (pi_pid entry);
  _ ← log PROC (runtime_process_role_name (pi_role entry));
  _ ← log PROC (process_state_name (pi_state entry));
  log_wait log log_u32 entry.

Fixpoint log_entries (count : nat) (log : cstr → cstr → manage unit)
    (log_u32 : cstr → cstr → N → manage unit) (snapshot : list process_info) (index : N) : manage unit :=
  match count with
  | O => skip
  | S count' =>
      entry ← lift (aget snapshot index);
      _ ← log_entry log log_u32 entry;
      log_entries count' log log_u32 snapshot (index + 1)
  end.

Definition runtime_manage_log_snapshot ops : manage unit :=
  match mo_snapshot ops, mo_log ops, mo_log_u32 ops with
  | Some snapshot, Some log, Some log_u32 =>
      '(entries, count) ← snapshot 8;
      _ ← log_u32 PROC (cs "count=") count;
      foreground ← lift (count_role_in_snapshot entries count RUNTIME_PROCESS_ROLE_FOREGROUND_APP);
      _ ← log_u32 PROC (cs "foreground_count=") foreground;
      log_entries (N.to_nat (N.min count 8)) log log_u32 entries 0
  | _, _, _ => skip
  end.

Definition log_detail (log : cstr → cstr → manage unit) (log_u32 : cstr → cstr → N → manage unit)
    (entry : process_info) : manage unit :=
  _ ← log PROC (cs "inspect");
  _ ← log_u32 PROC (cs "pid=") (pi_pid entry);
  _ ← log_u32 PROC (cs "parent_pid=") (pi_parent_pid entry);
  _ ← (match pi_name entry with Some name => log PROC name | None => skip end);
  _ ← log PROC (runtime_process_role_name (pi_role entry));
  _ ← log PROC (process_state_name (pi_state entry));
  _ ← log_u32 PROC (cs "switch_count=") (pi_switch_count entry);
  _ ← log_u32 PROC (cs "yield_count=") (pi_yield_count entry);
  _ ← log_u32 PROC (cs "exit_code=") (u32_of_Z (pi_exit_code entry));
  log_wait log log_u32 entry.

Fixpoint detail_loop (count : nat) (log : cstr → cstr → manage unit)
    (log_u32 : cstr → cstr → N → manage unit) (snapshot : list process_info) (index target_pid : N)
  : manage bool :=
  match count with
  | O => mret false
  | S count' =>
      entry ← lift (aget snapshot index);
      if negb (pi_pid entry =? target_pid)
      then detail_loop count' log log_u32 snapshot (index + 1) target_pid
      else _ ← log_detail log log_u32 entry; mret true
  end.

Definition runtime_manage_log_process_detail ops (target_pid : N) : manage bool :=
  match mo_snapshot ops, mo_log ops, mo_log_u32 ops with
  | Some snapshot, Some log, Some log_u32 =>
      '(entries, count) ← snapshot 8;
      detail_loop (N.to_nat (N.min count 8)) log log_u32 entries 0 target_pid
  | _, _, _ => mret false
  end.

Definition kmem_fields (stats : kmem_stats) : list (cstr * N) :=
  [(cs "kmem_arena_capacity_bytes=", ks_arena_capacity_bytes stats);
   (cs "kmem_free_bytes=", ks_free_bytes stats);
   (cs "kmem_largest_free_block=", ks_largest_free_block stats);
   (cs "kmem_bytes_in_use=", ks_bytes_in_use stats);
   (cs "kmem_peak_bytes_in_use=", ks_peak_bytes_in_use stats);
   (cs "kmem_allocation_count=", ks_allocation_count stats);
   (cs "kmem_free_count=", ks_free_count stats);
   (cs "kmem_allocation_fail_count=", ks_allocation_fail_count stats);
   (cs "kmem_live_allocations=", ks_live_allocations stats);
   (cs "kmem_peak_live_allocations=", ks_peak_live_allocations stats);
   (cs "kmem_block_count=", ks_block_count stats);
   (cs "kmem_free_block_count=", ks_free_block_count stats);
   (cs "kmem_used_block_count=", ks_used_block_count stats)].

Fixpoint log_fields (log_u32 : cstr → cstr → N → manage unit) (fields : list (cstr * N)) : manage unit :=
  match fields with
  | [] => skip
  | (label, value) :: rest => _ ← log_u32 MGMT label value; log_fields log_u32 rest
  end.

Definition runtime_manage_log_kmem ops : manage unit :=
  match mo_log_u32 ops, mo_kmem_stats ops with
  | Some log_u32, Some kmem_stats => stats ← kmem_stats; log_fields log_u32 (kmem_fields stats)
  | _, _ => skip
  end.

Definition runtime_manage_log_mailbox_status ops : manage unit :=
  match mo_log_u32 ops, mo_mailbox_has_message ops, mo_mailbox_waiting_senders ops,
        mo_mailbox_waiting_receivers ops with
  | Some log_u32, Some has_message, Some waiting_senders, Some waiting_receivers =>
      value ← has_message; _ ← log_u32 MGMT (cs "mailbox_has_message=") (u32_of_Z value);
      value ← waiting_senders; _ ← log_u32 MGMT (cs "mailbox_waiting_senders=") value;
      value ← waiting_receivers; log_u32 MGMT (cs "mailbox_waiting_receivers=") value
  | _, _, _, _ => skip
  end.

Definition runtime_manage_log_demo_status ops : manage unit :=
  match mo_log ops, mo_demo_profile ops with
  | Some log, Some demo_profile =>
      _ ← log MGMT (cs "demo");
      profile ← demo_profile;
      _ ← log MGMT (runtime_manage_demo_profile_name profile);
      profile ← demo_profile;
      _ ← log MGMT (if profile =? RUNTIME_MANAGE_DEMO_PROFILE_OFF then cs "auto_off" else cs "auto_on");
      match mo_log_u32 ops, mo_demo_completed_steps ops, mo_demo_total_steps ops with
      | Some log_u32, Some completed_steps, Some total_steps =>
          value ← completed_steps; _ ← log_u32 MGMT (cs "demo_completed_steps=") value;
          value ← total_steps; log_u32 MGMT (cs "demo_total_steps=") value
      | _, _, _ => skip
      end
  | _, _ => skip
  end.

Definition log_spawnable (log : cstr → cstr → manage unit) (info : runtime_manage_spawnable_info)
  : manage unit :=
  _ ← (match mi_task_name info with Some name => log MGMT name | None => skip end);
  _ ← (match mi_process_name info with Some name => log MGMT name | None => skip end);
  log MGMT (runtime_process_role_name (mi_default_role info)).

Fixpoint spawnables_loop (count : nat) (log : cstr → cstr → manage unit)
    (snapshot : list runtime_manage_spawnable_info) (index : N) : manage unit :=
  match count with
  | O => skip
  | S count' =>
      info ← lift (aget snapshot index);
      _ ← log_spawnable log info;
      spawnables_loop count' log snapshot (index + 1)
  end.

Definition runtime_manage_log_spawnables ops : manage unit :=
  match mo_spawnable_snapshot ops, mo_log ops, mo_log_u32 ops with
  | Some spawnable_snapshot, Some log, Some log_u32 =>
      '(snapshot, count) ← spawnable_snapshot RUNTIME_MANAGE_SPAWNABLE_SNAPSHOT_CAPACITY;
      _ ← log MGMT (cs "spawnables");
      _ ← log_u32 MGMT (cs "spawnable_count=") count;
      spawnables_loop (N.to_nat (N.min count RUNTIME_MANAGE_SPAWNABLE_SNAPSHOT_CAPACITY)) log snapshot 0
  | _, _, _ => skip
  end.

Definition runtime_manage_log_shell_path ops : manage unit :=
  match mo_log ops, mo_shell_path ops with
  | Some log, Some shell_path =>
      path ← shell_path;
      match path with
      | None => skip
      | Some _ => path ← shell_path; match path with Some path => log MGMT path | None => undefined end
      end
  | _, _ => skip
  end.

(** ** The commands; [cursor] is the rest of the line *)

Definition OK : manage runtime_manage_status := mret RUNTIME_MANAGE_STATUS_OK.
Definition EMPTY : manage runtime_manage_status := mret RUNTIME_MANAGE_STATUS_EMPTY.
Definition UNKNOWN_COMMAND : manage runtime_manage_status := mret RUNTIME_MANAGE_STATUS_UNKNOWN_COMMAND.
Definition BAD_ARGUMENT : manage runtime_manage_status := mret RUNTIME_MANAGE_STATUS_BAD_ARGUMENT.
Definition UNAVAILABLE : manage runtime_manage_status := mret RUNTIME_MANAGE_STATUS_UNAVAILABLE.

Definition execute_path ops : manage runtime_manage_status :=
  match mo_shell_path ops with
  | None => UNAVAILABLE
  | Some _ => _ ← runtime_manage_log_shell_path ops; OK
  end.

(** The size of [command_name] and [task_name]. *)
Definition NAME_SIZE : nat := 24.

Definition execute_which ops (cursor : cstr) : manage runtime_manage_status :=
  let '(_, command_token) := next_token cursor in
  if token_is_empty command_token || (NAME_SIZE <=? length command_token)%nat then BAD_ARGUMENT
  else
    match mo_resolve_command_path ops, mo_log ops with
    | Some resolve_command_path, Some log =>
        resolved ← resolve_command_path command_token RUNTIME_MANAGE_PATH_CAPACITY;
        match resolved with
        | None => BAD_ARGUMENT
        | Some resolved_path => _ ← log MGMT resolved_path; OK
        end
    | _, _ => BAD_ARGUMENT
    end.

Definition execute_inspect ops (cursor : cstr) : manage runtime_manage_status :=
  let '(_, pid_token) := next_token cursor in
  match parse_u32_token pid_token with
  | None => BAD_ARGUMENT
  | Some pid =>
      found ← runtime_manage_log_process_detail ops pid;
      if found : bool then OK else BAD_ARGUMENT
  end.

Definition execute_wake ops (cursor : cstr) : manage runtime_manage_status :=
  let '(_, pid_token) := next_token cursor in
  match parse_u32_token pid_token, mo_process_wake ops with
  | Some pid, Some process_wake => woken ← process_wake pid; if woken : bool then OK else BAD_ARGUMENT
  | _, _ => BAD_ARGUMENT
  end.

Definition execute_kill ops (cursor : cstr) : manage runtime_manage_status :=
  let '(cursor, pid_token) := next_token cursor in
  match parse_u32_token pid_token, mo_process_kill ops with
  | Some pid, Some process_kill =>
      let '(_, exit_token) := next_token cursor in
      exit_code ← (if token_is_empty exit_token then mret (Some (-1)%Z) else lift (parse_i32_token exit_token));
      match exit_code with
      | None => BAD_ARGUMENT
      | Some exit_code => killed ← process_kill pid exit_code; if killed : bool then OK else BAD_ARGUMENT
      end
  | _, _ => BAD_ARGUMENT
  end.

Definition execute_spawn ops (cursor : cstr) : manage runtime_manage_status :=
  let '(cursor, role_token) := next_token cursor in
  if token_equals role_token (cs "list") then
    match mo_spawnable_snapshot ops with
    | None => UNAVAILABLE
    | Some _ => _ ← runtime_manage_log_spawnables ops; OK
    end
  else
    let '(_, task_token) := next_token cursor in
    match runtime_manage_parse_role role_token, mo_spawn_named_process ops with
    | Some role, Some spawn_named_process =>
        if token_is_empty task_token || (NAME_SIZE <=? length task_token)%nat then BAD_ARGUMENT
        else pid ← spawn_named_process task_token role; if pid =? 0 then UNAVAILABLE else OK
    | _, _ => BAD_ARGUMENT
    end.

Definition execute_event ops (cursor : cstr) : manage runtime_manage_status :=
  let '(_, verb) := next_token cursor in
  match mo_event_signal ops with
  | Some event_signal =>
      if negb (token_equals verb (cs "signal")) then BAD_ARGUMENT else _ ← event_signal; OK
  | None => BAD_ARGUMENT
  end.

(** A call of [demo_set_profile] and the status it gives. *)
Definition set_profile (demo_set_profile : N → manage bool) (profile : N) : manage runtime_manage_status :=
  changed ← demo_set_profile profile;
  if changed : bool then OK else BAD_ARGUMENT.

Definition demo_switch ops (token on off : cstr) : manage runtime_manage_status :=
  match mo_demo_set_profile ops with
  | None => BAD_ARGUMENT
  | Some demo_set_profile =>
      if token_is_empty token then BAD_ARGUMENT
      else if token_equals token on then set_profile demo_set_profile RUNTIME_MANAGE_DEMO_PROFILE_SMOKE
      else if token_equals token off then set_profile demo_set_profile RUNTIME_MANAGE_DEMO_PROFILE_OFF
      else BAD_ARGUMENT
  end.

Definition execute_demo ops (cursor : cstr) : manage runtime_manage_status :=
  let '(cursor, verb) := next_token cursor in
  if token_equals verb (cs "status") then _ ← runtime_manage_log_demo_status ops; OK
  else if token_equals verb (cs "auto") then
    let '(_, mode) := next_token cursor in demo_switch ops mode (cs "on") (cs "off")
  else if token_equals verb (cs "profile") then
    let '(_, profile) := next_token cursor in demo_switch ops profile (cs "smoke") (cs "off")
  else BAD_ARGUMENT.

Definition execute_mailbox ops (cursor : cstr) : manage runtime_manage_status :=
  let '(cursor, verb) := next_token cursor in
  if token_is_empty verb then BAD_ARGUMENT
  else if token_equals verb (cs "send") then
    let '(_, value_token) := next_token cursor in
    match parse_u32_token value_token with
    | None => BAD_ARGUMENT
    | Some message =>
        match mo_mailbox_send ops with
        | None => UNAVAILABLE
        | Some mailbox_send => sent ← mailbox_send message; if sent : bool then OK else UNAVAILABLE
        end
    end
  else if token_equals verb (cs "status") then _ ← runtime_manage_log_mailbox_status ops; OK
  else if token_equals verb (cs "recv") then
    match mo_mailbox_receive ops with
    | None => UNAVAILABLE
    | Some mailbox_receive =>
        '(_, received) ← mailbox_receive;
        if received : bool then OK else UNAVAILABLE
    end
  else UNKNOWN_COMMAND.

Definition runtime_manage_execute (command : option cstr) (ops : option (runtime_manage_ops C))
  : manage runtime_manage_status :=
  match command, ops with
  | Some command, Some ops =>
      let '(cursor, token) := next_token command in
      if token_is_empty token then EMPTY
      else if token_equals token (cs "runtime") then _ ← runtime_manage_log_runtime ops; OK
      else if token_equals token (cs "help") then _ ← runtime_manage_log_help ops; OK
      else if token_equals token (cs "path") then execute_path ops
      else if token_equals token (cs "which") then execute_which ops cursor
      else if token_equals token (cs "ps") then _ ← runtime_manage_log_snapshot ops; OK
      else if token_equals token (cs "inspect") then execute_inspect ops cursor
      else if token_equals token (cs "kmem") then _ ← runtime_manage_log_kmem ops; OK
      else if token_equals token (cs "wake") then execute_wake ops cursor
      else if token_equals token (cs "kill") then execute_kill ops cursor
      else if token_equals token (cs "spawn") then execute_spawn ops cursor
      else if token_equals token (cs "event") then execute_event ops cursor
      else if token_equals token (cs "demo") then execute_demo ops cursor
      else if token_equals token (cs "mailbox") then execute_mailbox ops cursor
      else UNKNOWN_COMMAND
  | _, _ => BAD_ARGUMENT
  end.

End shell.

(** ** The line editor *)

(** [ls_buffer] is the array of [RUNTIME_MANAGE_LINE_CAPACITY] characters. *)
Record runtime_manage_line_state := LineState { ls_buffer : list ascii; ls_length : N }.

Definition NUL : ascii := ascii_of_N 0.

(** The string that starts at the first character of an array. *)
Fixpoint array_string (buffer : list ascii) : option cstr :=
  match buffer with
  | [] => None
  | ch :: rest => if chr_eqb ch NUL then Some [] else s ← array_string rest; Some (ch :: s)
  end.

Definition line_init (state : runtime_manage_line_state) : option runtime_manage_line_state :=
  buffer ← aset (ls_buffer state) 0 NUL;
  Some (LineState buffer 0).

Definition runtime_manage_line_init (state : option runtime_manage_line_state)
  : option (option runtime_manage_line_state) :=
  match state with
  | None => Some None
  | Some state => state ← line_init state; Some (Some state)
  end.

Section line.
Context {C : Type}.

(** The new state, the value of [status] and the result. *)
Definition push_char (state : runtime_manage_line_state) (ch : ascii) (ops : option (runtime_manage_ops C))
  : manage C (runtime_manage_line_state * runtime_manage_status * bool) :=
  let c := code ch in
  let length := ls_length state in
  if (c =? 8) || (c =? 127) then
    if nz length then
      buffer ← lift (aset (ls_buffer state) (length - 1) NUL);
      mret (LineState buffer (length - 1), RUNTIME_MANAGE_STATUS_EMPTY, false)
    else mret (state, RUNTIME_MANAGE_STATUS_EMPTY, false)
  else if (c =? 13) || (c =? 10) then
    if length =? 0 then mret (state, RUNTIME_MANAGE_STATUS_EMPTY, true)
    else
      buffer ← lift (aset (ls_buffer state) length NUL);
      command ← lift (array_string buffer);
      status ← runtime_manage_execute (Some command) ops;
      state ← lift (line_init (LineState buffer length));
      mret (state, status, true)
  else if (c <? 32) || (126 <? c) then mret (state, RUNTIME_MANAGE_STATUS_EMPTY, false)
  else if RUNTIME_MANAGE_LINE_CAPACITY - 1 <=? length then
    state ← lift (line_init state);
    mret (state, RUNTIME_MANAGE_STATUS_BAD_ARGUMENT, true)
  else
    buffer ← lift (aset (ls_buffer state) length ch);
    buffer ← lift (aset buffer (length + 1) NUL);
    mret (LineState buffer (length + 1), RUNTIME_MANAGE_STATUS_EMPTY, false).

(** [status] tells whether the pointer is there; [None] in the result: nothing
    is stored. *)
Definition runtime_manage_line_push_char (state : option runtime_manage_line_state) (ch : ascii)
    (ops : option (runtime_manage_ops C)) (status : bool)
  : manage C (option (runtime_manage_line_state * runtime_manage_status) * bool) :=
  match state, status with
  | Some state, true =>
      '(state, status, result) ← push_char state ch ops;
      mret (Some (state, status), result)
  | _, _ => mret (None, false)
  end.

End line.
