(* ===== verification/RuntimeManageSpec.v ===== *)
(** * What the management shell understands

    The commands as data ([manage_command]), the grammar of a line
    ([parse_command] over its words), the meaning of a command
    ([perform]), and a line for every command ([print_command]).
    [runtime_manage_execute] is the meaning of what the grammar reads. *)

From S2P Require Import Prelude ProcessCore Kmem RuntimePolicy RuntimeManage.

Local Open Scope N_scope.

(** ** Words *)

Definition flush (current : cstr) (rest : list cstr) : list cstr :=
  match current with [] => rest | _ => current :: rest end.

Fixpoint words_from (current s : cstr) : list cstr :=
  match s with
  | [] => flush current []
  | ch :: s' =>
      if ascii_is_space ch then flush current (words_from [] s')
      else words_from (current ++ [ch]) s'
  end.

(** The maximal runs of characters that are not blank. *)
Definition words (s : cstr) : list cstr := words_from [] s.

Definition is_token (w : cstr) : Prop := w ≠ [] ∧ Forall (λ ch, ascii_is_space ch = false) w.

Lemma words_skip s : words (skip_spaces s) = words s.
Proof.
  unfold words. induction s as [|ch s IH]; [done|]. cbn.
  destruct (ascii_is_space ch) eqn:Hs; [exact IH|]. cbn. by rewrite Hs.
Qed.

Lemma words_loop s : ∀ current token after,
  token_loop s = (token, after) →
  words_from current s = flush (current ++ token) (words after) ∧ (token = [] → after = s).
Proof.
  induction s as [|ch s IH]; intros current token after H; cbn in *.
  - injection H as <- <-. by rewrite app_nil_r.
  - destruct (ascii_is_space ch) eqn:Hs.
    + injection H as <- <-. rewrite app_nil_r. split; [|done]. unfold words. cbn. by rewrite Hs.
    + destruct (token_loop s) as [token' after'] eqn:Hl. injection H as <- <-.
      destruct (IH (current ++ [ch]) _ _ eq_refl) as [-> _]. split; [|done]. by rewrite <-app_assoc.
Qed.

Lemma skip_spaces_head s : match skip_spaces s with [] => True | ch :: _ => ascii_is_space ch = false end.
Proof. induction s as [|ch s IH]; [done|]. cbn. by destruct (ascii_is_space ch) eqn:Hs. Qed.

Definition word (i : nat) (ws : list cstr) : cstr := nth i ws [].

(** [next_token] walks through the words. *)
Lemma next_token_words s : ∃ after,
  next_token s = (after, word 0 (words s)) ∧ words after = tail (words s).
Proof.
  unfold next_token. rewrite <-(words_skip s). pose proof (skip_spaces_head s) as Hh.
  destruct (token_loop (skip_spaces s)) as [token after] eqn:Hl.
  destruct (words_loop _ [] _ _ Hl) as [Hw Hn]. exists after. unfold words at 1 3. rewrite Hw. cbn [app].
  destruct token as [|ch token]; [|done]. rewrite (Hn eq_refl). destruct (skip_spaces s) as [|d t]; [done|].
  cbn in Hl. by rewrite Hh in Hl; destruct (token_loop t).
Qed.

Lemma words_of_token w rest : is_token w → words_from [] (w ++ rest) = words_from w rest.
Proof.
  intros [_ Hw]. enough (∀ current, words_from current (w ++ rest) = words_from (current ++ w) rest) as H by apply H.
  induction Hw as [|ch w Hch _ IH]; intros current; [by rewrite app_nil_r|].
  cbn. by rewrite Hch, IH, <-app_assoc.
Qed.

Lemma token_flush w rest : is_token w → flush w rest = w :: rest.
Proof. intros [H _]. by destruct w. Qed.

(** A line made of words, with blanks between them. *)
Fixpoint line_of (ws : list cstr) : cstr :=
  match ws with
  | [] => []
  | [w] => w
  | w :: ws' => w ++ " "%char :: line_of ws'
  end.

Lemma words_line_of ws : Forall is_token ws → words (line_of ws) = ws.
Proof.
  induction 1 as [|w ws Hw Hws IH]; [done|]. destruct ws as [|v ws].
  - cbn [line_of]. unfold words. rewrite <-(app_nil_r w) at 1. rewrite words_of_token by done. cbn.
    by apply token_flush.
  - change (line_of (w :: v :: ws)) with (w ++ " "%char :: line_of (v :: ws)).
    unfold words in *. rewrite words_of_token by done.
    change (words_from w (" "%char :: line_of (v :: ws))) with (flush w (words_from [] (line_of (v :: ws)))).
    by rewrite IH, token_flush.
Qed.

Lemma token_equals_eq a b : token_equals a b = str_eqb a b.
Proof.
  unfold str_eqb. revert b. induction a as [|x a IH]; intros [|y b]; try done. cbn [token_equals].
  unfold chr_eqb. case_bool_decide as E; cbn [negb].
  - subst. rewrite IH. apply bool_decide_ext. naive_solver.
  - symmetry. apply bool_decide_eq_false_2. naive_solver.
Qed.

(** ** Commands *)

(** The exit code of a kill is [None] for -2^31, which the shell computes
    with a negation that overflows. *)
Inductive manage_command :=
  | CmdRuntime | CmdHelp | CmdPath | CmdWhich (name : cstr) | CmdPs | CmdInspect (pid : N) | CmdKmem
  | CmdWake (pid : N) | CmdKill (pid : N) (exit_code : option Z) | CmdSpawnList | CmdSpawn (role : N) (task : cstr)
  | CmdEventSignal | CmdDemoStatus | CmdDemoProfile (profile : N)
  | CmdMailboxSend (message : N) | CmdMailboxStatus | CmdMailboxRecv.

Abbreviation parsed := (runtime_manage_status + manage_command)%type.
Definition bad_argument : parsed := inl RUNTIME_MANAGE_STATUS_BAD_ARGUMENT.

Definition is_word (w : cstr) (s : string) : bool := str_eqb w (cs s).
Definition short (w : cstr) : bool := negb (length w =? 0)%nat && (length w <? NAME_SIZE)%nat.

Definition with_number (w : cstr) (f : N → manage_command) : parsed :=
  match parse_u32_token w with Some n => inr (f n) | None => bad_argument end.

Definition parse_kill (ws : list cstr) : parsed :=
  match parse_u32_token (word 1 ws) with
  | None => bad_argument
  | Some pid =>
      if (length (word 2 ws) =? 0)%nat then inr (CmdKill pid (Some (-1)%Z))
      else match parse_i32_token (word 2 ws) with
           | None => inr (CmdKill pid None)
           | Some None => bad_argument
           | Some (Some exit_code) => inr (CmdKill pid (Some exit_code))
           end
  end.

Definition parse_spawn (ws : list cstr) : parsed :=
  if is_word (word 1 ws) "list" then inr CmdSpawnList
  else match runtime_manage_parse_role (word 1 ws) with
       | Some role => if short (word 2 ws) then inr (CmdSpawn role (word 2 ws)) else bad_argument
       | None => bad_argument
       end.

Definition parse_switch (w : cstr) (on off : string) : parsed :=
  if is_word w on then inr (CmdDemoProfile RUNTIME_MANAGE_DEMO_PROFILE_SMOKE)
  else if is_word w off then inr (CmdDemoProfile RUNTIME_MANAGE_DEMO_PROFILE_OFF) else bad_argument.

Definition parse_demo (ws : list cstr) : parsed :=
  if is_word (word 1 ws) "status" then inr CmdDemoStatus
  else if is_word (word 1 ws) "auto" then parse_switch (word 2 ws) "on" "off"
  else if is_word (word 1 ws) "profile" then parse_switch (word 2 ws) "smoke" "off"
  else bad_argument.

Definition parse_mailbox (ws : list cstr) : parsed :=
  if (length (word 1 ws) =? 0)%nat then bad_argument
  else if is_word (word 1 ws) "send" then with_number (word 2 ws) CmdMailboxSend
  else if is_word (word 1 ws) "status" then inr CmdMailboxStatus
  else if is_word (word 1 ws) "recv" then inr CmdMailboxRecv
  else inl RUNTIME_MANAGE_STATUS_UNKNOWN_COMMAND.

(** The grammar; words after the last argument are ignored. *)
Definition parse_command (ws : list cstr) : parsed :=
  let name := is_word (word 0 ws) in
  if (length (word 0 ws) =? 0)%nat then inl RUNTIME_MANAGE_STATUS_EMPTY
  else if name "runtime" then inr CmdRuntime
  else if name "help" then inr CmdHelp
  else if name "path" then inr CmdPath
  else if name "which" then if short (word 1 ws) then inr (CmdWhich (word 1 ws)) else bad_argument
  else if name "ps" then inr CmdPs
  else if name "inspect" then with_number (word 1 ws) CmdInspect
  else if name "kmem" then inr CmdKmem
  else if name "wake" then with_number (word 1 ws) CmdWake
  else if name "kill" then parse_kill ws
  else if name "spawn" then parse_spawn ws
  else if name "event" then if is_word (word 1 ws) "signal" then inr CmdEventSignal else bad_argument
  else if name "demo" then parse_demo ws
  else if name "mailbox" then parse_mailbox ws
  else inl RUNTIME_MANAGE_STATUS_UNKNOWN_COMMAND.

(** ** Meaning *)

Section meaning.
Context {C : Type} (ops : runtime_manage_ops C).

(** [f] on a callback that is there, and a status for its result. *)
Definition call {F R} (op : option F) (f : F → manage C R) (missing : runtime_manage_status)
    (status_of : R → runtime_manage_status) : manage C runtime_manage_status :=
  match op with
  | None => mret missing
  | Some op => r ← f op; mret (status_of r)
  end.

Definition ok_or (status : runtime_manage_status) (r : bool) : runtime_manage_status :=
  if r then RUNTIME_MANAGE_STATUS_OK else status.

Definition report (m : manage C unit) : manage C runtime_manage_status :=
  _ ← m; mret RUNTIME_MANAGE_STATUS_OK.

Definition perform (command : manage_command) : manage C runtime_manage_status :=
  let bad := RUNTIME_MANAGE_STATUS_BAD_ARGUMENT in
  let unavailable := RUNTIME_MANAGE_STATUS_UNAVAILABLE in
  match command with
  | CmdRuntime => report (runtime_manage_log_runtime ops)
  | CmdHelp => report (runtime_manage_log_help ops)
  | CmdPath => match mo_shell_path ops with
               | None => mret unavailable
               | Some _ => report (runtime_manage_log_shell_path ops)
               end
  | CmdWhich name =>
      match mo_resolve_command_path ops, mo_log ops with
      | Some resolve, Some log =>
          path ← resolve name RUNTIME_MANAGE_PATH_CAPACITY;
          match path with None => mret bad | Some path => report (log MGMT path) end
      | _, _ => mret bad
      end
  | CmdPs => report (runtime_manage_log_snapshot ops)
  | CmdInspect pid => found ← runtime_manage_log_process_detail ops pid; mret (ok_or bad found)
  | CmdKmem => report (runtime_manage_log_kmem ops)
  | CmdWake pid => call (mo_process_wake ops) (λ wake, wake pid) bad (ok_or bad)
  | CmdKill pid exit_code =>
      call (mo_process_kill ops)
        (λ kill, match exit_code with Some exit_code => kill pid exit_code | None => undefined end) bad (ok_or bad)
  | CmdSpawnList => match mo_spawnable_snapshot ops with
                    | None => mret unavailable
                    | Some _ => report (runtime_manage_log_spawnables ops)
                    end
  | CmdSpawn role task =>
      call (mo_spawn_named_process ops) (λ spawn, spawn task role) bad
        (λ pid, if pid =? 0 then unavailable else RUNTIME_MANAGE_STATUS_OK)
  | CmdEventSignal => call (mo_event_signal ops) (λ signal, signal) bad (λ _, RUNTIME_MANAGE_STATUS_OK)
  | CmdDemoStatus => report (runtime_manage_log_demo_status ops)
  | CmdDemoProfile profile => call (mo_demo_set_profile ops) (λ set, set profile) bad (ok_or bad)
  | CmdMailboxSend message => call (mo_mailbox_send ops) (λ send, send message) unavailable (ok_or unavailable)
  | CmdMailboxStatus => report (runtime_manage_log_mailbox_status ops)
  | CmdMailboxRecv => call (mo_mailbox_receive ops) (λ receive, receive) unavailable (λ r, ok_or unavailable r.2)
  end.

Definition perform_parsed (p : parsed) : manage C runtime_manage_status :=
  match p with inl status => mret status | inr command => perform command end.

End meaning.

(** * The management shell does what its grammar says

    [runtime_manage_execute] performs the command that [parse_command] reads;
    every command can be typed; the line editor is a list of characters. *)

(** ** Execution *)

Ltac run := cbn; unfold call, report, mbind, manage_bind, mret, manage_ret, lift, undefined; cbn.

Section execution.
Context {C : Type} (ops : runtime_manage_ops C).
Implicit Types (c : C) (ws : list cstr).

Lemma is_word_token w s : token_equals w (cs s) = is_word w s.
Proof. apply token_equals_eq. Qed.

Lemma short_token w : token_is_empty w || (NAME_SIZE <=? length w)%nat = negb (short w).
Proof.
  unfold token_is_empty, short, NAME_SIZE. destruct (Nat.eqb_spec (length w) 0); [done|]. cbn [orb negb andb].
  apply Nat.leb_antisym.
Qed.

(** The rest of the line after [k] words. *)
Definition at_word (cursor : cstr) (k : nat) ws : Prop := words cursor = drop k ws.

Lemma next_at cursor k ws :
  at_word cursor k ws → ∃ after, next_token cursor = (after, word k ws) ∧ at_word after (S k) ws.
Proof.
  unfold at_word. intros H. destruct (next_token_words cursor) as (after & E & Ha). exists after.
  rewrite E, Ha, H. unfold word. rewrite !nth_lookup, lookup_drop, Nat.add_0_r. split; [done|].
  assert (∀ l : list cstr, tail l = drop 1 l) as -> by by intros [].
  by rewrite drop_drop, Nat.add_1_r.
Qed.

Ltac words_at H after :=
  let E := fresh "E" in destruct (next_at _ _ _ H) as (after & E & ?); rewrite E; clear E.

Lemma execute_which_spec cursor ws : at_word cursor 1 ws → ∀ c,
  execute_which ops cursor c =
    perform_parsed ops (if short (word 1 ws) then inr (CmdWhich (word 1 ws)) else bad_argument) c.
Proof.
  intros H c. unfold execute_which. words_at H a1. rewrite short_token. destruct (short (word 1 ws)); [|done].
  cbn. destruct (mo_resolve_command_path ops), (mo_log ops); done.
Qed.

Lemma execute_inspect_spec cursor ws : at_word cursor 1 ws → ∀ c,
  execute_inspect ops cursor c = perform_parsed ops (with_number (word 1 ws) CmdInspect) c.
Proof.
  intros H c. unfold execute_inspect, with_number. words_at H a1. destruct (parse_u32_token _); [|done].
  run. destruct (runtime_manage_log_process_detail _ _ _) as [[[] ?]|]; done.
Qed.

Lemma execute_wake_spec cursor ws : at_word cursor 1 ws → ∀ c,
  execute_wake ops cursor c = perform_parsed ops (with_number (word 1 ws) CmdWake) c.
Proof.
  intros H c. unfold execute_wake, with_number. words_at H a1. destruct (parse_u32_token _); [|done].
  run. destruct (mo_process_wake ops) as [wake|]; [|done]. by destruct (wake n c) as [[[] ?]|].
Qed.

Lemma execute_kill_spec cursor ws : at_word cursor 1 ws → ∀ c,
  execute_kill ops cursor c = perform_parsed ops (parse_kill ws) c.
Proof.
  intros H c. unfold execute_kill, parse_kill. words_at H a1.
  destruct (parse_u32_token _) as [pid|]; [|done]. words_at H0 a2. unfold token_is_empty.
  run. destruct (length (word 2 ws) =? 0)%nat; [|destruct (parse_i32_token _) as [[code|]|]]; run;
    destruct (mo_process_kill ops) as [kill|]; try done; by destruct (kill _ _ c) as [[[] ?]|].
Qed.

Lemma execute_spawn_spec cursor ws : at_word cursor 1 ws → ∀ c,
  execute_spawn ops cursor c = perform_parsed ops (parse_spawn ws) c.
Proof.
  intros H c. unfold execute_spawn, parse_spawn. words_at H a1. rewrite is_word_token.
  destruct (is_word (word 1 ws) "list"); [cbn; by destruct (mo_spawnable_snapshot ops)|]. words_at H0 a2.
  destruct (runtime_manage_parse_role _) as [role|]; [|done]. rewrite short_token.
  destruct (short (word 2 ws)); run; destruct (mo_spawn_named_process ops) as [spawn|]; try done.
  destruct (spawn _ _ c) as [[pid c']|]; [|done]. by destruct (pid =? 0).
Qed.

Lemma demo_switch_spec w on off c :
  demo_switch ops w (cs on) (cs off) c = perform_parsed ops (if token_is_empty w then bad_argument else parse_switch w on off) c.
Proof.
  unfold demo_switch, parse_switch. rewrite !is_word_token.
  destruct (token_is_empty w); [by destruct (mo_demo_set_profile ops)|].
  destruct (is_word w on); [|destruct (is_word w off)]; run; unfold set_profile; run;
    destruct (mo_demo_set_profile ops) as [set|]; try done; by destruct (set _ c) as [[[] ?]|].
Qed.

Lemma execute_demo_spec cursor ws : at_word cursor 1 ws → ∀ c,
  execute_demo ops cursor c = perform_parsed ops (parse_demo ws) c.
Proof.
  intros H c. unfold execute_demo, parse_demo. words_at H a1. rewrite !is_word_token.
  assert (∀ on off : string, on ≠ ""%string → off ≠ ""%string →
    (if token_is_empty (word 2 ws) then bad_argument else parse_switch (word 2 ws) on off) =
    parse_switch (word 2 ws) on off) as Hempty.
  { intros on off Hon Hoff. unfold parse_switch, is_word, str_eqb, token_is_empty.
    destruct (word 2 ws); [|done]. destruct on, off; done. }
  destruct (is_word (word 1 ws) "status"); [done|].
  destruct (is_word (word 1 ws) "auto"); [words_at H0 a2; by rewrite demo_switch_spec, Hempty|].
  destruct (is_word (word 1 ws) "profile"); [words_at H0 a2; by rewrite demo_switch_spec, Hempty|done].
Qed.

Lemma execute_mailbox_spec cursor ws : at_word cursor 1 ws → ∀ c,
  execute_mailbox ops cursor c = perform_parsed ops (parse_mailbox ws) c.
Proof.
  intros H c. unfold execute_mailbox, parse_mailbox, with_number. words_at H a1. rewrite !is_word_token.
  unfold token_is_empty. destruct (length (word 1 ws) =? 0)%nat; [done|].
  destruct (is_word (word 1 ws) "send").
  - words_at H0 a2. destruct (parse_u32_token _) as [m|]; [|done]. run.
    destruct (mo_mailbox_send ops) as [send|]; [|done]. by destruct (send m c) as [[[] ?]|].
  - destruct (is_word (word 1 ws) "status"); [done|]. destruct (is_word (word 1 ws) "recv"); [|done]. run.
    destruct (mo_mailbox_receive ops) as [receive|]; [|done]. by destruct (receive c) as [[[? []] ?]|].
Qed.

Lemma execute_event_spec cursor ws : at_word cursor 1 ws → ∀ c,
  execute_event ops cursor c =
    perform_parsed ops (if is_word (word 1 ws) "signal" then inr CmdEventSignal else bad_argument) c.
Proof.
  intros H c. unfold execute_event. words_at H a1. rewrite is_word_token.
  destruct (is_word (word 1 ws) "signal"); run; destruct (mo_event_signal ops) as [signal|]; done.
Qed.

Lemma execute_parsed command c :
  runtime_manage_execute (Some command) (Some ops) c = perform_parsed ops (parse_command (words command)) c.
Proof.
  unfold runtime_manage_execute, parse_command.
  assert (at_word command 0 (words command)) as H0 by done. words_at H0 cursor. rewrite !is_word_token.
  rename H into H1. unfold token_is_empty. generalize dependent (words command). intros ws _ H1.
  destruct (length (word 0 ws) =? 0)%nat; [done|].
  destruct (is_word (word 0 ws) "runtime"); [done|].
  destruct (is_word (word 0 ws) "help"); [done|].
  destruct (is_word (word 0 ws) "path"); [cbn; unfold execute_path; by destruct (mo_shell_path ops)|].
  destruct (is_word (word 0 ws) "which"); [by apply execute_which_spec|].
  destruct (is_word (word 0 ws) "ps"); [done|].
  destruct (is_word (word 0 ws) "inspect"); [by apply execute_inspect_spec|].
  destruct (is_word (word 0 ws) "kmem"); [done|].
  destruct (is_word (word 0 ws) "wake"); [by apply execute_wake_spec|].
  destruct (is_word (word 0 ws) "kill"); [by apply execute_kill_spec|].
  destruct (is_word (word 0 ws) "spawn"); [by apply execute_spawn_spec|].
  destruct (is_word (word 0 ws) "event"); [by apply execute_event_spec|].
  destruct (is_word (word 0 ws) "demo"); [by apply execute_demo_spec|].
  destruct (is_word (word 0 ws) "mailbox"); [by apply execute_mailbox_spec|done].
Qed.
End execution.
