(* ===== verification/RuntimeManagePrint.v ===== *)
(** * A line for every command

    [print_command] writes a command as a line that the grammar reads back;
    numbers are written in decimal. *)

From S2P Require Import Prelude ProcessCore Kmem RuntimePolicy RuntimeManage RuntimeManageSpec.

Local Open Scope N_scope.

(** ** Decimal numbers *)

Definition digit_char (d : N) : ascii := ascii_of_N (48 + d).

Fixpoint decimal_loop (fuel : nat) (n : N) (acc : cstr) : cstr :=
  match fuel with
  | O => acc
  | S fuel' =>
      let acc' := digit_char (n mod 10) :: acc in
      if n <? 10 then acc' else decimal_loop fuel' (n / 10) acc'
  end.

(** Ten digits are enough for 32 bits. *)
Definition decimal (n : N) : cstr := decimal_loop 10 n [].

Lemma digit_of_char d : d < 10 → digit_of 10 (digit_char d) = Some d ∧ code (digit_char d) = 48 + d.
Proof.
  intros Hd. assert (code (digit_char d) = 48 + d) as Hc.
  { unfold code, digit_char. apply N_ascii_embedding. lia. }
  split; [|done]. unfold digit_of. rewrite Hc.
  assert ((48 <=? 48 + d) = true) as -> by (apply N.leb_le; lia).
  assert ((48 + d <=? 57) = true) as -> by (apply N.leb_le; lia). cbn [andb]. f_equal. lia.
Qed.

Definition is_digit_char (ch : ascii) : Prop := ∃ d, d < 10 ∧ ch = digit_char d.

Lemma decimal_loop_spec fuel : ∀ n acc,
  0 < N.of_nat fuel → n < 10 ^ N.of_nat fuel → n < 4294967296 →
  digits_loop 10 (decimal_loop fuel n acc) 0 = digits_loop 10 acc n ∧
  (Forall is_digit_char acc → Forall is_digit_char (decimal_loop fuel n acc)) ∧
  (length acc < length (decimal_loop fuel n acc) ≤ length acc + fuel)%nat.
Proof.
  induction fuel as [|fuel IH]; intros n acc Hf Hn Hw; [lia|]. cbn [decimal_loop].
  assert (n mod 10 < 10) as Hd by (apply N.mod_lt; lia).
  destruct (digit_of_char _ Hd) as [Hdig _].
  assert (∀ m, m < 429496730 → u32 (u32 (m * 10) + n mod 10) = u32 (m * 10 + n mod 10)) as Hstep
    by (intros m Hm; by rewrite (u32_small (m * 10)) by lia).
  destruct (N.ltb_spec n 10) as [Hlt|Hge].
  - cbn [digits_loop]. rewrite Hdig. cbind. rewrite N.mod_small by done.
    assert ((10 <=? n) = false) as -> by (apply N.leb_gt; lia).
    change (u32 (0 * 10)) with 0. rewrite N.add_0_l, u32_small by lia.
    split; [done|]. split; [|simpl; lia]. intros Hacc. constructor; [|done]. by exists n.
  - pose proof (N.div_mod n 10 ltac:(lia)) as Hdm.
    assert (n / 10 < 10 ^ N.of_nat fuel) as Hq.
    { apply N.Div0.div_lt_upper_bound. rewrite <-N.pow_succ_r'. by rewrite <-Nat2N.inj_succ. }
    assert (0 < N.of_nat fuel) as Hf'. { destruct fuel; [|lia]. change (10 ^ N.of_nat 1) with 10 in Hn. clear -Hn Hge. lia. }
    assert (n / 10 < 4294967296) as Hw' by (clear -Hdm Hw; revert Hdm; generalize (n / 10), (n mod 10); lia).
    destruct (IH (n / 10) (digit_char (n mod 10) :: acc) Hf' Hq Hw') as (E & Hall & Hlen).
    rewrite E. cbn [digits_loop]. rewrite Hdig. cbind. clear IH Hdig E Hq.
    assert ((10 <=? n mod 10) = false) as -> by (by apply N.leb_gt).
    rewrite Hstep by (clear -Hdm Hw; revert Hdm; generalize (n / 10), (n mod 10); lia).
    replace (n / 10 * 10 + n mod 10) with n by (rewrite N.mul_comm; exact Hdm).
    rewrite u32_small by done.
    split; [done|]. split; [|simpl in Hlen; lia]. intros Hacc. apply Hall. constructor; [|done]. by eexists.
Qed.

Lemma decimal_spec n : n < 4294967296 →
  digits_loop 10 (decimal n) 0 = Some n ∧ Forall is_digit_char (decimal n) ∧ (0 < length (decimal n) ≤ 10)%nat.
Proof.
  intros H. destruct (decimal_loop_spec 10 n []) as (E & Hd & Hl); [lia|change (10 ^ N.of_nat 10) with 10000000000; lia|done|].
  split; [done|]. split; [by apply Hd|]. exact Hl.
Qed.

Lemma parse_decimal n : n < 4294967296 → parse_u32_token (decimal n) = Some n.
Proof.
  intros H. destruct (decimal_spec n H) as (E & Hd & Hl). unfold parse_u32_token.
  destruct (Nat.eqb_spec (length (decimal n)) 0); [lia|].
  assert (∀ l, Forall is_digit_char l → l = decimal n →
    match l with
    | z :: x :: rest =>
        if (2 <? length l)%nat && (code z =? 48) && ((code x =? 120) || (code x =? 88)) then (16, rest) else (10, l)
    | _ => (10, l)
    end = (10, l)) as Hbase.
  { intros [|z [|x rest]] Hall _; [done|done|]. inversion Hall as [|? ? _ Hx]. inversion Hx as [|? ? (d & Hd10 & ->) _].
    destruct (digit_of_char d Hd10) as [_ ->].
    assert ((48 + d =? 120) = false) as -> by (apply N.eqb_neq; lia).
    assert ((48 + d =? 88) = false) as -> by (apply N.eqb_neq; lia). by rewrite andb_false_r. }
  rewrite (Hbase (decimal n) Hd eq_refl). cbn [fst snd].
  destruct (Nat.eqb_spec (length (decimal n)) 0); [lia|]. exact E.
Qed.

Definition decimal_Z (z : Z) : cstr :=
  if (z <? 0)%Z then "-"%char :: decimal (Z.to_N (- z)) else decimal (Z.to_N z).

Lemma parse_decimal_Z z : (-2147483648 < z < 2147483648)%Z → parse_i32_token (decimal_Z z) = Some (Some z).
Proof.
  intros Hz. unfold decimal_Z. destruct (Z.ltb_spec z 0) as [Hneg|Hpos].
  - assert (Z.to_N (- z) < 4294967296) as Hn by lia. destruct (decimal_spec _ Hn) as (_ & _ & Hl).
    unfold parse_i32_token. cbn [length].
    assert ((1 <? S (length (decimal (Z.to_N (- z)))))%nat = true) as -> by (apply Nat.ltb_lt; lia).
    change (code "-" =? 45) with true. cbn [andb]. rewrite parse_decimal by done.
    assert ((2147483648 <? Z.to_N (- z)) = false) as -> by (apply N.ltb_ge; lia).
    assert ((Z.to_N (- z) =? 2147483648) = false) as -> by (apply N.eqb_neq; lia). do 2 f_equal. lia.
  - assert (Z.to_N z < 4294967296) as Hn by lia. destruct (decimal_spec _ Hn) as (_ & Hd & Hl).
    unfold parse_i32_token. rewrite (parse_decimal _ Hn).
    assert ((2147483647 <? Z.to_N z) = false) as -> by (apply N.ltb_ge; lia).
    destruct (decimal (Z.to_N z)) as [|ch rest]; [simpl in Hl; lia|].
    inversion Hd as [|? ? (d & Hd10 & ->) _]. destruct (digit_of_char d Hd10) as [_ ->].
    assert ((48 + d =? 45) = false) as -> by (apply N.eqb_neq; lia). rewrite andb_false_r. do 2 f_equal. lia.
Qed.

(** ** Commands *)

Definition command_words (command : manage_command) : list cstr :=
  match command with
  | CmdRuntime => [cs "runtime"] | CmdHelp => [cs "help"] | CmdPath => [cs "path"] | CmdPs => [cs "ps"]
  | CmdKmem => [cs "kmem"]
  | CmdWhich name => [cs "which"; name]
  | CmdInspect pid => [cs "inspect"; decimal pid]
  | CmdWake pid => [cs "wake"; decimal pid]
  | CmdKill pid exit_code => [cs "kill"; decimal pid; decimal_Z (default 0%Z exit_code)]
  | CmdSpawnList => [cs "spawn"; cs "list"]
  | CmdSpawn role task => [cs "spawn"; runtime_process_role_name role; task]
  | CmdEventSignal => [cs "event"; cs "signal"]
  | CmdDemoStatus => [cs "demo"; cs "status"]
  | CmdDemoProfile profile =>
      [cs "demo"; cs "profile"; if profile =? RUNTIME_MANAGE_DEMO_PROFILE_SMOKE then cs "smoke" else cs "off"]
  | CmdMailboxSend message => [cs "mailbox"; cs "send"; decimal message]
  | CmdMailboxStatus => [cs "mailbox"; cs "status"]
  | CmdMailboxRecv => [cs "mailbox"; cs "recv"]
  end.

Definition print_command (command : manage_command) : cstr := line_of (command_words command).

(** What the line editor accepts. *)
Definition printable (ch : ascii) : Prop := 32 ≤ code ch ≤ 126.

Definition name_fits (name : cstr) : Prop :=
  is_token name ∧ (length name < NAME_SIZE)%nat ∧ Forall printable name.

(** The arguments have the ranges of their C types. *)
Definition command_ok (command : manage_command) : Prop :=
  match command with
  | CmdWhich name => name_fits name
  | CmdInspect n | CmdWake n | CmdMailboxSend n => n < 4294967296
  | CmdKill pid exit_code => pid < 4294967296 ∧ ∃ z, exit_code = Some z ∧ (-2147483648 < z < 2147483648)%Z
  | CmdSpawn role task => 1 ≤ role ≤ 4 ∧ name_fits task
  | CmdDemoProfile profile => profile ≤ 1
  | _ => True
  end.

Lemma name_fits_short name : name_fits name → short name = true.
Proof.
  intros ([Hne _] & Hl & _). unfold short. apply Nat.ltb_lt in Hl as ->. by destruct name.
Qed.

Lemma digits_token l : (0 < length l)%nat → Forall is_digit_char l → is_token l.
Proof.
  intros Hl Hd. split; [by destruct l; [simpl in Hl; lia|]|]. eapply Forall_impl; [exact Hd|].
  intros ch (d & Hd10 & ->). unfold ascii_is_space. destruct (digit_of_char d Hd10) as [_ ->].
  assert ((48 + d =? 32) = false) as -> by (apply N.eqb_neq; lia).
  assert ((48 + d =? 9) = false) as -> by (apply N.eqb_neq; lia).
  assert ((48 + d =? 10) = false) as -> by (apply N.eqb_neq; lia). apply N.eqb_neq. lia.
Qed.

Lemma decimal_token n : n < 4294967296 → is_token (decimal n).
Proof. intros H. destruct (decimal_spec n H) as (_ & Hd & Hl). apply digits_token; [lia|done]. Qed.

Lemma decimal_Z_token z : (-2147483648 < z < 2147483648)%Z → is_token (decimal_Z z).
Proof.
  intros Hz. unfold decimal_Z. destruct (Z.ltb_spec z 0); [|apply decimal_token; lia].
  destruct (decimal_token (Z.to_N (- z)) ltac:(lia)) as [_ Hd]. split; [done|]. by constructor.
Qed.

Lemma constant_token s : forallb (λ ch, negb (ascii_is_space ch)) (cs s) = true → cs s ≠ [] → is_token (cs s).
Proof.
  intros H Hne. split; [done|]. rewrite forallb_forall in H. apply Forall_forall. intros ch Hch.
  apply negb_true_iff, H. by apply list_elem_of_In.
Qed.

Lemma role_token role : is_token (runtime_process_role_name role).
Proof. unfold runtime_process_role_name. repeat case_if; by apply constant_token. Qed.

Lemma command_words_ok command : command_ok command → Forall is_token (command_words command).
Proof.
  destruct command; cbn [command_ok command_words]; intros H;
    repeat first [apply Forall_cons; split|apply Forall_nil_2]; try (by apply constant_token); try (by apply decimal_token).
  - apply H.
  - apply decimal_token, H.
  - destruct H as [_ (z & -> & Hz)]. by apply decimal_Z_token.
  - apply role_token.
  - apply H.
  - case_if; by apply constant_token.
Qed.

Lemma role_name_parses role : 1 ≤ role ≤ 4 →
  runtime_manage_parse_role (runtime_process_role_name role) = Some role ∧
  is_word (runtime_process_role_name role) "list" = false.
Proof.
  intros H. assert (role = 1 ∨ role = 2 ∨ role = 3 ∨ role = 4) as [-> | [-> | [-> | ->]]] by lia;
    split; vm_compute; reflexivity.
Qed.

Lemma parse_command_words command : command_ok command → parse_command (command_words command) = inr command.
Proof.
  intros H. destruct command as [| | |name| |pid| |pid|pid exit_code| |role task| | |profile|message| |];
    cbn [command_ok command_words] in *; try (vm_compute; reflexivity).
  - change (parse_command [cs "which"; name]) with (if short name then inr (CmdWhich name) else bad_argument).
    by rewrite name_fits_short.
  - change (parse_command [cs "inspect"; decimal pid]) with (with_number (decimal pid) CmdInspect).
    unfold with_number. by rewrite parse_decimal.
  - change (parse_command [cs "wake"; decimal pid]) with (with_number (decimal pid) CmdWake).
    unfold with_number. by rewrite parse_decimal.
  - destruct H as [Hpid (z & -> & Hz)]. cbn [default from_option id].
    change (parse_command [cs "kill"; decimal pid; decimal_Z z]) with (parse_kill [cs "kill"; decimal pid; decimal_Z z]).
    unfold parse_kill. cbn [word nth]. rewrite parse_decimal by done.
    destruct (decimal_Z_token z Hz) as [Hne _]. rewrite (parse_decimal_Z z Hz). by destruct (decimal_Z z).
  - destruct H as [Hr Hn]. destruct (role_name_parses role Hr) as [Hp Hl].
    change (parse_command [cs "spawn"; runtime_process_role_name role; task]) with
      (parse_spawn [cs "spawn"; runtime_process_role_name role; task]).
    unfold parse_spawn. cbn [word nth]. by rewrite Hl, Hp, name_fits_short.
  - assert (profile = 0 ∨ profile = 1) as [-> | ->] by lia; vm_compute; reflexivity.
  - change (parse_command [cs "mailbox"; cs "send"; decimal message]) with (with_number (decimal message) CmdMailboxSend).
    unfold with_number. by rewrite parse_decimal.
Qed.

Lemma parse_printed command : command_ok command → parse_command (words (print_command command)) = inr command.
Proof. intros H. unfold print_command. rewrite words_line_of by by apply command_words_ok. by apply parse_command_words. Qed.

(** ** The line fits the editor *)

Lemma digits_printable l : Forall is_digit_char l → Forall printable l.
Proof.
  intros H. eapply Forall_impl; [exact H|]. intros ch (d & Hd & ->). unfold printable.
  destruct (digit_of_char d Hd) as [_ ->]. lia.
Qed.

Lemma decimal_fits n : n < 4294967296 → Forall printable (decimal n) ∧ (length (decimal n) ≤ 10)%nat.
Proof. intros H. destruct (decimal_spec n H) as (_ & Hd & Hl). split; [by apply digits_printable|lia]. Qed.

Lemma decimal_Z_fits z : (-2147483648 < z < 2147483648)%Z →
  Forall printable (decimal_Z z) ∧ (length (decimal_Z z) ≤ 11)%nat.
Proof.
  intros Hz. unfold decimal_Z. destruct (Z.ltb_spec z 0).
  - destruct (decimal_fits (Z.to_N (- z)) ltac:(lia)) as [Hp Hl]. split; [|simpl; lia]. by constructor.
  - destruct (decimal_fits (Z.to_N z) ltac:(lia)) as [Hp Hl]. split; [done|lia].
Qed.

Definition printable_b (ch : ascii) : bool := (32 <=? code ch) && (code ch <=? 126).

Lemma constant_printable s : forallb printable_b (cs s) = true → Forall printable (cs s).
Proof.
  rewrite forallb_forall, Forall_forall. intros H ch Hch. apply list_elem_of_In in Hch.
  specialize (H ch Hch). apply andb_true_iff in H as [H1 H2]. apply N.leb_le in H1, H2. done.
Qed.

(** The words of a line are printable and [n] characters with their blanks. *)
Definition line_fits (ws : list cstr) (n : nat) : Prop :=
  Forall (Forall printable) ws ∧ (length (line_of ws) ≤ n)%nat.

Lemma line_fits_cons w ws k n :
  Forall printable w → (length w ≤ k)%nat → line_fits ws n → line_fits (w :: ws) (k + S n).
Proof.
  intros Hp Hl [Hps Hn]. split; [by constructor|]. destruct ws as [|v ws]; [simpl; lia|].
  change (line_of (w :: v :: ws)) with (w ++ " "%char :: line_of (v :: ws)). rewrite length_app. simpl in *. lia.
Qed.

Lemma line_fits_weaken ws n m : line_fits ws n → (n ≤ m)%nat → line_fits ws m.
Proof. intros [H Hn] Hm. split; [done|lia]. Qed.

Lemma line_of_printable ws : Forall (Forall printable) ws → Forall printable (line_of ws).
Proof.
  induction 1 as [|w ws Hw Hws IH]; [constructor|]. destruct ws as [|v ws]; [done|].
  change (line_of (w :: v :: ws)) with (w ++ " "%char :: line_of (v :: ws)).
  apply Forall_app. split; [done|]. by constructor.
Qed.

Lemma word_fits_constant s ws n :
  forallb printable_b (cs s) = true → line_fits ws n → line_fits (cs s :: ws) (length (cs s) + S n).
Proof. intros H Hws. apply line_fits_cons; [by apply constant_printable|done|done]. Qed.

Lemma role_name_fits role :
  Forall printable (runtime_process_role_name role) ∧ (length (runtime_process_role_name role) ≤ 14)%nat.
Proof. unfold runtime_process_role_name. repeat case_if; (split; [by apply constant_printable|simpl; lia]). Qed.

Lemma command_words_fit command : command_ok command → line_fits (command_words command) 62.
Proof.
  assert (line_fits [] 0) as H0 by by split.
  assert (∀ s, forallb printable_b (cs s) = true → ∀ ws n m, line_fits ws n → (length (cs s) + S n ≤ m)%nat →
    line_fits (cs s :: ws) m) as Hc.
  { intros s Hs ws n m Hws Hm. eapply line_fits_weaken; [by apply word_fits_constant|done]. }
  assert (∀ n ws k, n < 4294967296 → line_fits ws k → line_fits (decimal n :: ws) (10 + S k)) as Hd.
  { intros n ws k Hn Hws. destruct (decimal_fits n Hn). by apply line_fits_cons. }
  assert (∀ name ws k, name_fits name → line_fits ws k → line_fits (name :: ws) (23 + S k)) as Hname.
  { intros name ws k (_ & Hl & Hp) Hws. apply line_fits_cons; [done|unfold NAME_SIZE in Hl; lia|done]. }
  destruct command; cbn [command_ok command_words]; intros H.
  1-3,5,7: eapply Hc; [done|exact H0|simpl; lia].
  - eapply Hc; [done|by apply Hname|simpl; lia].
  - eapply Hc; [done|by apply Hd|simpl; lia].
  - eapply Hc; [done|by apply Hd|simpl; lia].
  - destruct H as [Hpid (z & -> & Hz)]. destruct (decimal_Z_fits z Hz) as [Hp Hl].
    eapply Hc; [done|apply Hd; [done|by apply (line_fits_cons _ _ 11 0)]|simpl; lia].
  - eapply Hc; [done|eapply Hc; [done|exact H0|done]|simpl; lia].
  - destruct H as [_ Hn]. destruct (role_name_fits role) as [Hp Hl].
    eapply Hc; [done|apply (line_fits_cons _ _ 14 24); [done|done|by apply (Hname _ _ 0%nat)]|simpl; lia].
  - eapply Hc; [done|eapply Hc; [done|exact H0|done]|simpl; lia].
  - eapply Hc; [done|eapply Hc; [done|exact H0|done]|simpl; lia].
  - case_if; (eapply Hc; [done|eapply Hc; [done|eapply Hc; [done|exact H0|done]|done]|simpl; lia]).
  - eapply Hc; [done|eapply Hc; [done|by apply Hd|done]|simpl; lia].
  - eapply Hc; [done|eapply Hc; [done|exact H0|done]|simpl; lia].
  - eapply Hc; [done|eapply Hc; [done|exact H0|done]|simpl; lia].
Qed.

Lemma print_fits command :
  command_ok command → Forall printable (print_command command) ∧ (length (print_command command) ≤ 63)%nat.
Proof.
  intros H. destruct (command_words_fit command H) as [Hp Hl]. split; [by apply line_of_printable|].
  unfold print_command. lia.
Qed.
