(* ===== verification/RuntimeManageLine.v ===== *)
(** * The line editor and the whole shell

    The array and the length of [runtime_manage_line_state] represent a list
    of at most 63 characters; a key acts on that list ([line_step]), and
    the key that ends the line performs the command on it. *)

From S2P Require Import Prelude ProcessCore Kmem RuntimePolicy RuntimeManage RuntimeManageSpec RuntimeManagePrint.

Local Open Scope N_scope.

(** ** The represented line *)

Record line_rep (state : runtime_manage_line_state) (line : cstr) : Prop := {
  rep_buffer : ∃ rest, ls_buffer state = line ++ NUL :: rest ∧ length (line ++ NUL :: rest) = 64%nat;
  rep_length : ls_length state = N.of_nat (length line);
  rep_nul : Forall (λ ch, ch ≠ NUL) line
}.

Lemma rep_bound state line : line_rep state line → (length line ≤ 63)%nat.
Proof. intros [(rest & _ & H) _ _]. rewrite length_app in H. simpl in H. lia. Qed.

Lemma array_string_rep line rest : Forall (λ ch, ch ≠ NUL) line → array_string (line ++ NUL :: rest) = Some line.
Proof.
  induction 1 as [|ch line Hch _ IH]; [done|]. cbn [app array_string]. unfold chr_eqb.
  rewrite bool_decide_eq_false_2 by done. by rewrite IH.
Qed.

Lemma aset_middle (l : list ascii) x y rest :
  aset (l ++ x :: rest) (N.of_nat (length l)) y = Some (l ++ y :: rest).
Proof.
  rewrite aset_Some by (rewrite length_app; simpl; lia). rewrite Nat2N.id. by rewrite insert_app_r_alt, Nat.sub_diag by lia.
Qed.

Lemma line_init_rep state line : line_rep state line → ∃ state', line_init state = Some state' ∧ line_rep state' [].
Proof.
  intros [(rest & Hb & Hl) _ _]. unfold line_init. rewrite Hb. destruct line as [|ch line].
  - change (aset ([] ++ NUL :: rest) 0 NUL) with (aset ([] ++ NUL :: rest) (N.of_nat 0) NUL).
    rewrite (aset_middle []). cbind. eexists. split; [done|]. split; [by exists rest|done|constructor].
  - change (aset ((ch :: line) ++ NUL :: rest) 0 NUL)
      with (aset ([] ++ ch :: (line ++ NUL :: rest)) (N.of_nat (@length ascii [])) NUL).
    rewrite aset_middle. cbind. eexists. split; [done|]. split; [by exists (line ++ NUL :: rest)|done|constructor].
Qed.

(** ** A key *)

#[local] Arguments runtime_manage_execute : simpl never.

Section editor.
Context {C : Type}.

Definition line_step (line : cstr) (ch : ascii) (ops : option (runtime_manage_ops C))
  : manage C (cstr * runtime_manage_status * bool) :=
  let c := code ch in
  if (c =? 8) || (c =? 127) then mret (take (length line - 1) line, RUNTIME_MANAGE_STATUS_EMPTY, false)
  else if (c =? 13) || (c =? 10) then
    match line with
    | [] => mret ([], RUNTIME_MANAGE_STATUS_EMPTY, true)
    | _ => status ← runtime_manage_execute (Some line) ops; mret ([], status, true)
    end
  else if (c <? 32) || (126 <? c) then mret (line, RUNTIME_MANAGE_STATUS_EMPTY, false)
  else if (63 <=? length line)%nat then mret ([], RUNTIME_MANAGE_STATUS_BAD_ARGUMENT, true)
  else mret (line ++ [ch], RUNTIME_MANAGE_STATUS_EMPTY, false).

(** The two sides are both undefined, or they agree and the results are related. *)
Definition agree {A B} (R : A → B → Prop) (x : option (A * C)) (y : option (B * C)) : Prop :=
  match x, y with
  | Some (a, c), Some (b, c') => R a b ∧ c = c'
  | None, None => True
  | _, _ => False
  end.

Definition rep_result (a : runtime_manage_line_state * runtime_manage_status * bool)
    (b : cstr * runtime_manage_status * bool) : Prop :=
  line_rep a.1.1 b.1.1 ∧ a.1.2 = b.1.2 ∧ a.2 = b.2.

Lemma drop_last_char (line : cstr) ch rest :
  (line ++ [ch]) ++ NUL :: rest = line ++ ch :: NUL :: rest.
Proof. by rewrite <-app_assoc. Qed.

Lemma backspace_rep state line : line_rep state line → line ≠ [] →
  ∃ buffer, aset (ls_buffer state) (ls_length state - 1) NUL = Some buffer ∧
    line_rep (LineState buffer (ls_length state - 1)) (take (length line - 1) line).
Proof.
  intros [(rest & Hb & Hl) Hlen Hnul] Hne. destruct line as [|ch line] using rev_ind; [done|]. clear IHline Hne.
  rewrite length_app in Hlen. simpl in Hlen. rewrite Hb, Hlen, drop_last_char.
  replace (N.of_nat (length line + 1) - 1) with (N.of_nat (length line)) by lia.
  rewrite aset_middle. eexists. split; [done|]. rewrite length_app. simpl.
  replace (length line + 1 - 1)%nat with (length line) by lia. rewrite take_app_length.
  apply Forall_app in Hnul as [Hnul _]. rewrite !length_app in Hl. simpl in Hl.
  split; [|done|done]. exists (NUL :: rest). split; [done|]. rewrite length_app. simpl. lia.
Qed.

Lemma insert_rep state line ch : line_rep state line → (length line < 63)%nat → ch ≠ NUL →
  ∃ b1 b2, aset (ls_buffer state) (ls_length state) ch = Some b1 ∧
    aset b1 (ls_length state + 1) NUL = Some b2 ∧
    line_rep (LineState b2 (ls_length state + 1)) (line ++ [ch]).
Proof.
  intros [(rest & Hb & Hl) Hlen Hnul] Hlt Hch. rewrite Hb, Hlen, aset_middle.
  rewrite length_app in Hl. simpl in Hl. destruct rest as [|x rest]; [simpl in Hl; lia|].
  eexists _, (line ++ ch :: NUL :: rest). split; [done|]. split.
  - rewrite <-drop_last_char, <-(aset_middle (line ++ [ch]) x NUL rest).
    rewrite length_app, <-app_assoc. simpl. f_equal. lia.
  - rewrite <-drop_last_char. split.
    + exists rest. split; [done|]. rewrite !length_app. simpl. simpl in Hl. lia.
    + cbn. rewrite length_app. simpl. lia.
    + apply Forall_app. split; [done|]. by constructor.
Qed.

Lemma push_char_refines state line ch (ops : option (runtime_manage_ops C)) c :
  line_rep state line → agree rep_result (push_char state ch ops c) (line_step line ch ops c).
Proof.
  intros H. pose proof (rep_length _ _ H) as Hlen. pose proof (rep_bound _ _ H) as Hbound.
  unfold push_char, line_step. destruct ((code ch =? 8) || (code ch =? 127)) eqn:Hbs.
  { destruct line as [|x line].
    - rewrite Hlen. by run.
    - assert (nz (ls_length state) = true) as -> by (apply nz_true; rewrite Hlen; simpl; lia).
      destruct (backspace_rep state (x :: line) H) as (buffer & -> & Hrep); [done|]. by run. }
  destruct ((code ch =? 13) || (code ch =? 10)) eqn:Hcr.
  { destruct line as [|x line]; [rewrite Hlen; by run|].
    assert ((ls_length state =? 0) = false) as -> by (apply N.eqb_neq; rewrite Hlen; simpl; lia).
    pose proof H as [(rest & Hb & Hl) _ Hnul]. rewrite Hb, Hlen, aset_middle.
    pose proof (array_string_rep (x :: line) rest Hnul) as Es. run. cbn in Es. rewrite Es. run.
    destruct (runtime_manage_execute (Some (x :: line)) ops c) as [[status c']|]; [|done]. run.
    destruct (line_init_rep (LineState ((x :: line) ++ NUL :: rest) (N.of_nat (length (x :: line)))) (x :: line))
      as (state' & E & Hrep); [by split; [exists rest|..]|]. cbn in E. rewrite E. by run. }
  destruct ((code ch <? 32) || (126 <? code ch)) eqn:Hprint; [by run|].
  destruct (Nat.leb_spec 63 (length line)) as [Hfull|Hroom].
  - assert ((RUNTIME_MANAGE_LINE_CAPACITY - 1 <=? ls_length state) = true) as ->
      by (apply N.leb_le; change (RUNTIME_MANAGE_LINE_CAPACITY - 1) with 63; lia).
    destruct (line_init_rep _ _ H) as (state' & -> & Hrep). by run.
  - assert ((RUNTIME_MANAGE_LINE_CAPACITY - 1 <=? ls_length state) = false) as ->
      by (apply N.leb_gt; change (RUNTIME_MANAGE_LINE_CAPACITY - 1) with 63; lia).
    destruct (insert_rep state line ch H Hroom) as (b1 & b2 & -> & E & Hrep); [by intros ->|].
    run. cbn in E. rewrite E. by run.
Qed.
End editor.

(** ** Keys, one after the other *)

Section keys.
Context {C : Type} (ops : option (runtime_manage_ops C)).

(** The statuses are those of the keys that end a line. *)
Fixpoint push_chars (state : runtime_manage_line_state) (keys : list ascii)
  : manage C (runtime_manage_line_state * list runtime_manage_status) :=
  match keys with
  | [] => mret (state, [])
  | ch :: rest =>
      '(state, status, ended) ← push_char state ch ops;
      '(state, statuses) ← push_chars state rest;
      mret (state, if ended : bool then status :: statuses else statuses)
  end.

(** The same on the list of the characters. *)
Fixpoint edit_keys (line : cstr) (keys : list ascii) : manage C (cstr * list runtime_manage_status) :=
  match keys with
  | [] => mret (line, [])
  | ch :: rest =>
      '(line, status, ended) ← line_step line ch ops;
      '(line, statuses) ← edit_keys line rest;
      mret (line, if ended : bool then status :: statuses else statuses)
  end.

Definition rep_keys (a : runtime_manage_line_state * list runtime_manage_status)
    (b : cstr * list runtime_manage_status) : Prop := line_rep a.1 b.1 ∧ a.2 = b.2.

Lemma push_chars_refine keys : ∀ state line c,
  line_rep state line → agree rep_keys (push_chars state keys c) (edit_keys line keys c).
Proof.
  induction keys as [|ch keys IH]; intros state line c H; [done|]. cbn [push_chars edit_keys].
  unfold mbind, manage_bind. pose proof (push_char_refines state line ch ops c H) as Hstep.
  destruct (push_char state ch ops c) as [[[[st s] e] c1]|], (line_step line ch ops c) as [[[[l s'] e'] c2]|];
    try done. destruct Hstep as [(Hrep & Hs & He) ->]. cbn in Hrep, Hs, He. subst s' e'.
  specialize (IH st l c2 Hrep).
  destruct (push_chars st keys c2) as [[[st2 ss] c3]|], (edit_keys l keys c2) as [[[l2 ss'] c4]|]; try done.
  destruct IH as [[Hrep2 Hss] ->]. cbn in Hrep2, Hss. subst ss'. by destruct e.
Qed.

(** Printable characters collect in the line. *)
Lemma edit_printable keys : ∀ line rest c,
  Forall printable keys → (length line + length keys ≤ 63)%nat →
  edit_keys line (keys ++ rest) c = edit_keys (line ++ keys) rest c.
Proof.
  induction keys as [|ch keys IH]; intros line rest c Hp Hl; [by rewrite app_nil_r|].
  inversion Hp as [|? ? [Hlo Hhi] Hps]; subst. cbn [app edit_keys length] in *.
  unfold mbind, manage_bind, line_step.
  assert ((code ch =? 8) || (code ch =? 127) = false) as -> by (apply orb_false_intro; apply N.eqb_neq; lia).
  assert ((code ch =? 13) || (code ch =? 10) = false) as -> by (apply orb_false_intro; apply N.eqb_neq; lia).
  assert ((code ch <? 32) || (126 <? code ch) = false) as -> by (apply orb_false_intro; apply N.ltb_ge; lia).
  destruct (Nat.leb_spec 63 (length line)); [lia|]. unfold mret, manage_ret.
  rewrite IH by (rewrite ?length_app; done || (simpl; lia)). rewrite <-app_assoc. cbn [app].
  destruct (edit_keys (line ++ ch :: keys) rest c) as [[[? ?] ?]|]; done.
Qed.

Definition ENTER : ascii := ascii_of_N 13.

Lemma edit_enter line c :
  line ≠ [] →
  edit_keys line [ENTER] c =
    (status ← runtime_manage_execute (Some line) ops; mret ([], [status])) c.
Proof.
  intros Hne. destruct line as [|x line]; [done|]. cbn [edit_keys]. unfold mbind, manage_bind, line_step.
  change (code ENTER) with 13. cbn [N.eqb Pos.eqb orb].
  unfold mret, manage_ret, mbind, manage_bind.
  by destruct (runtime_manage_execute (Some (x :: line)) ops c) as [[? ?]|].
Qed.
End keys.

(** ** The claims *)

(** C28: the line editor is a list of characters: on every sequence of keys
    (characters, backspaces, line ends, anything else) the state of
    [runtime_manage_line_push_char] represents the list that [line_step]
    keeps, never a character outside the array of 64, and each line end gives
    the status and the effects of [runtime_manage_execute] on that list. *)
Theorem line_editor_refines {C} (ops : option (runtime_manage_ops C)) keys state line c :
  line_rep state line →
  agree rep_keys (push_chars ops state keys c) (edit_keys ops line keys c).
Proof. apply push_chars_refine. Qed.

(** C27: the interpreter refines its grammar: a line is split into words,
    [parse_command] reads a command with its arguments, or a status, from
    the words, and [runtime_manage_execute] has exactly the effects on the
    callbacks, and the result, that [perform] gives for what was read. *)
Theorem execute_refines_grammar {C} (ops : runtime_manage_ops C) command c :
  runtime_manage_execute (Some command) (Some ops) c =
    perform_parsed ops (parse_command (words command)) c.
Proof. apply execute_parsed. Qed.

(** C29: every command can be typed: on an empty line, the keys of
    [print_command] followed by Enter perform the command (its callbacks with
    exactly its arguments, and nothing else), give its status, and leave an
    empty line.  The arguments have the ranges of their types, and names are
    printable, without blanks, and shorter than the array they are copied to. *)
Theorem typed_command_is_performed {C} (ops : runtime_manage_ops C) command state c :
  command_ok command → line_rep state [] →
  agree rep_keys (push_chars (Some ops) state (print_command command ++ [ENTER]) c)
    ((status ← perform ops command; mret ([], [status])) c).
Proof.
  intros Hok Hrep. destruct (print_fits command Hok) as [Hp Hl].
  assert ((status ← perform ops command; mret ([], [status])) c =
    edit_keys (Some ops) [] (print_command command ++ [ENTER]) c) as ->; [|by apply push_chars_refine].
  rewrite edit_printable by done. cbn [app]. rewrite edit_enter.
  - unfold mbind, manage_bind. by rewrite execute_parsed, (parse_printed command Hok).
  - intros E. pose proof (parse_printed command Hok) as H. by rewrite E in H.
Qed.

(** * The management shell on a concrete kernel

    Callbacks that record their calls, the witnesses of the claims about the
    shell, and what the shell does with inputs outside the ranges it was
    written for. *)

(** ** Callbacks that record *)

Inductive demo_call :=
  | Wake (pid : N) | Kill (pid : N) (exit_code : Z) | Spawn (task : cstr) (role : N)
  | Line (tag text : cstr) | Number (tag label : cstr) (value : N).

(** The process table and the calls so far. *)
Definition demo_context : Type := list process_runtime_state * list demo_call.

Definition record {A} (call : demo_call) (result : A) : manage demo_context A :=
  λ '(processes, calls), Some (result, (processes, calls ++ [call])).

Definition demo_ops : runtime_manage_ops demo_context := {|
  mo_snapshot := Some (λ capacity '(processes, calls),
    Some (process_core_snapshot processes true capacity, (processes, calls)));
  mo_spawnable_snapshot := None;
  mo_kmem_stats := None;
  mo_mailbox_has_message := None;
  mo_mailbox_waiting_senders := None;
  mo_mailbox_waiting_receivers := None;
  mo_mailbox_send := None;
  mo_mailbox_receive := None;
  mo_event_signal := None;
  mo_process_wake := Some (λ pid, record (Wake pid) true);
  mo_process_kill := Some (λ pid exit_code, record (Kill pid exit_code) (negb (pid =? 1)));
  mo_spawn_named_process := Some (λ task role, record (Spawn task role) 7);
  mo_demo_profile := None;
  mo_demo_set_profile := None;
  mo_demo_completed_steps := None;
  mo_demo_total_steps := None;
  mo_shell_path := None;
  mo_resolve_command_path := None;
  mo_scheduler_mode_name := None;
  mo_runtime_mode_name := None;
  mo_preempt_status_name := None;
  mo_log := Some (λ tag text, record (Line tag text) ());
  mo_log_u32 := Some (λ tag label value, record (Number tag label value) ())
|}.

Definition demo_line : runtime_manage_line_state := LineState (replicate 64 NUL) 0.

Lemma demo_line_rep : line_rep demo_line [].
Proof. split; [by exists (replicate 63 NUL)|done|constructor]. Defined.

Definition typed_keys (keys : list ascii) (c : demo_context) : option (list runtime_manage_status * list demo_call) :=
  '(_, statuses, c) ← push_chars (Some demo_ops) demo_line keys c;
  Some (statuses, c.2).

Definition typed (text : string) : demo_context → option (list runtime_manage_status * list demo_call) :=
  typed_keys (cs text ++ [ENTER]).

(** A line with a correction. *)
Example demo_backspace :
  typed_keys (cs "wakr" ++ [ascii_of_N 8] ++ cs "e 12" ++ [ENTER]) ([], []) =
    Some ([RUNTIME_MANAGE_STATUS_OK], [Wake 12]).
Proof. vm_compute. reflexivity. Qed.

Lemma line_editor_refines_witness :
  line_rep demo_line [] ∧
  agree rep_keys (push_chars (Some demo_ops) demo_line (cs "wake 12" ++ [ENTER]) ([], []))
    (edit_keys (Some demo_ops) [] (cs "wake 12" ++ [ENTER]) ([], [])).
Proof.
  split; [apply demo_line_rep|].
  apply (line_editor_refines (Some demo_ops) (cs "wake 12" ++ [ENTER]) demo_line [] ([], [])). apply demo_line_rep.
Defined.

Definition demo_kill : manage_command := CmdKill 4 (Some (-20)%Z).

Lemma demo_kill_ok : command_ok demo_kill.
Proof. split; [lia|]. exists (-20)%Z. split; [done|lia]. Defined.

Lemma typed_command_is_performed_witness :
  agree rep_keys (push_chars (Some demo_ops) demo_line (print_command demo_kill ++ [ENTER]) ([], []))
    ((status ← perform demo_ops demo_kill; mret ([], [status])) ([], [])).
Proof.
  exact (typed_command_is_performed demo_ops demo_kill demo_line ([], []) demo_kill_ok demo_line_rep).
Defined.

Example demo_kill_typed :
  print_command demo_kill = cs "kill 4 -20" ∧
  typed "kill 4 -20" ([], []) = Some ([RUNTIME_MANAGE_STATUS_OK], [Kill 4 (-20)]).
Proof. vm_compute. done. Qed.

(** ** Outside the ranges *)

(** Numbers wrap at 2^32: a pid that is no [uint32_t] names another process. *)
Example number_wraps : typed "kill 4294967298" ([], []) = Some ([RUNTIME_MANAGE_STATUS_OK], [Kill 2 (-1)]).
Proof. vm_compute. reflexivity. Qed.

(** The least [int32_t] is accepted as an exit code and negated. *)
Example least_exit_code_overflows : typed "kill 2 -2147483648" ([], []) = None.
Proof. vm_compute. reflexivity. Qed.

Definition demo_live (pid : N) : process_runtime_state :=
  Process pid 0 None RUNTIME_PROCESS_ROLE_FOREGROUND_APP PROCESS_STATE_READY 0 0 0 0 0 PROCESS_WAIT_NONE 0.

Definition live_processes (count : nat) : list process_runtime_state := (λ i, demo_live (N.of_nat i)) <$> seq 1 count.

(** [ps] copies at most 8 entries into its array and then counts the roles of
    as many entries as there are processes: it is defined with 8 processes,
    and with a ninth it reads behind the array, which the table of 10 slots
    allows. *)
Lemma ps_reads_past_the_snapshot :
  (∃ calls, typed "ps" (live_processes 8, []) = Some ([RUNTIME_MANAGE_STATUS_OK], calls)) ∧
  typed "ps" (live_processes 9, []) = None.
Proof. split; [eexists|]; vm_compute; reflexivity. Qed.
