(* ===== verification/ReadyQueue.v ===== *)
(** * The ready queue ([kernel/scheduler.c], lines 128-451)

    A red-black tree of process slots with parent links, kept in five arrays
    indexed by slot, with the root and a cached leftmost node.  [UINT32_MAX]
    is the null link.  The code of each function is followed access by access;
    an access outside the arrays, or a loop that does not end within
    [RB_FUEL] rounds, has no result. *)

From S2P Require Import Prelude.

Local Open Scope N_scope.

Definition MAX_PROCESSES : N := 10.
Definition SCHED_RB_RED : N := 1.
Definition SCHED_RB_BLACK : N := 0.

Record ready_queue := ReadyQueue {
  g_sched_rb_parent : list N;
  g_sched_rb_left : list N;
  g_sched_rb_right : list N;
  g_sched_rb_color : list N;
  g_sched_on_rq : list N;
  g_sched_rq_root : N;
  g_sched_rq_leftmost : N
}.

(** Rounds allowed to each loop: a tree of ten nodes needs fewer. *)
Definition RB_FUEL : nat := 16.

(** Array reads and writes. *)
Definition parent_of (q : ready_queue) (i : N) : option N := aget (g_sched_rb_parent q) i.
Definition left_of (q : ready_queue) (i : N) : option N := aget (g_sched_rb_left q) i.
Definition right_of (q : ready_queue) (i : N) : option N := aget (g_sched_rb_right q) i.
Definition color_of (q : ready_queue) (i : N) : option N := aget (g_sched_rb_color q) i.
Definition on_rq (q : ready_queue) (i : N) : option N := aget (g_sched_on_rq q) i.

Definition set_parent (i v : N) (q : ready_queue) : option ready_queue :=
  let 'ReadyQueue p l r c o t m := q in p ← aset p i v; Some (ReadyQueue p l r c o t m).
Definition set_left (i v : N) (q : ready_queue) : option ready_queue :=
  let 'ReadyQueue p l r c o t m := q in l ← aset l i v; Some (ReadyQueue p l r c o t m).
Definition set_right (i v : N) (q : ready_queue) : option ready_queue :=
  let 'ReadyQueue p l r c o t m := q in r ← aset r i v; Some (ReadyQueue p l r c o t m).
Definition set_color (i v : N) (q : ready_queue) : option ready_queue :=
  let 'ReadyQueue p l r c o t m := q in c ← aset c i v; Some (ReadyQueue p l r c o t m).
Definition set_on_rq (i v : N) (q : ready_queue) : option ready_queue :=
  let 'ReadyQueue p l r c o t m := q in o ← aset o i v; Some (ReadyQueue p l r c o t m).
Definition set_root (v : N) (q : ready_queue) : ready_queue :=
  let 'ReadyQueue p l r c o _ m := q in ReadyQueue p l r c o v m.
Definition set_leftmost (v : N) (q : ready_queue) : ready_queue :=
  let 'ReadyQueue p l r c o t _ := q in ReadyQueue p l r c o t v.

Definition null (i : N) : bool := i =? UINT32_MAX.

(** [(i != UINT32_MAX) && (g_sched_rb_color[i] == SCHED_RB_RED)]. *)
Definition is_red (q : ready_queue) (i : N) : option bool :=
  if null i then Some false else c ← color_of q i; Some (c =? SCHED_RB_RED).

(** [(i == UINT32_MAX) || (g_sched_rb_color[i] == SCHED_RB_BLACK)]. *)
Definition is_black (q : ready_queue) (i : N) : option bool :=
  if null i then Some true else c ← color_of q i; Some (c =? SCHED_RB_BLACK).

(** [while (g_sched_rb_left[index] != UINT32_MAX) index = g_sched_rb_left[index];] *)
Fixpoint leftmost_loop (fuel : nat) (q : ready_queue) (index : N) : option N :=
  match fuel with
  | O => None
  | S fuel' =>
      l ← left_of q index;
      if null l then Some index else leftmost_loop fuel' q l
  end.

Definition scheduler_ready_queue_recompute_leftmost (q : ready_queue) : option ready_queue :=
  let index := g_sched_rq_root q in
  if null index then Some (set_leftmost UINT32_MAX q)
  else index ← leftmost_loop RB_FUEL q index; Some (set_leftmost index q).

(** ** Rotations

    [g_sched_rb_parent[new_index] = parent] and the link from the parent, as
    in [rotate_left] and [transplant], and mirrored as in [rotate_right]. *)
Definition replace_child (parent old_index new_index : N) (q : ready_queue) : option ready_queue :=
  if null parent then Some (set_root new_index q)
  else
    l ← left_of q parent;
    if l =? old_index then set_left parent new_index q else set_right parent new_index q.

Definition replace_child_mirrored (parent old_index new_index : N) (q : ready_queue)
  : option ready_queue :=
  if null parent then Some (set_root new_index q)
  else
    r ← right_of q parent;
    if r =? old_index then set_right parent new_index q else set_left parent new_index q.

Definition scheduler_ready_queue_rotate_left (index : N) (q : ready_queue) : option ready_queue :=
  right ← right_of q index;
  parent ← parent_of q index;
  inner ← left_of q right;
  q ← set_right index inner q;
  inner ← left_of q right;
  q ← (if null inner then Some q else set_parent inner index q);
  q ← set_parent right parent q;
  q ← replace_child parent index right q;
  q ← set_left right index q;
  set_parent index right q.

Definition scheduler_ready_queue_rotate_right (index : N) (q : ready_queue) : option ready_queue :=
  left ← left_of q index;
  parent ← parent_of q index;
  inner ← right_of q left;
  q ← set_left index inner q;
  inner ← right_of q left;
  q ← (if null inner then Some q else set_parent inner index q);
  q ← set_parent left parent q;
  q ← replace_child_mirrored parent index left q;
  q ← set_right left index q;
  set_parent index left q.

(** ** Insertion

    The two halves of the rebalancing loop's body: the parent is a left or a
    right child.  They return the queue and the new [index]. *)
Definition insert_fix_left (index parent_index grandparent : N) (q : ready_queue)
  : option (ready_queue * N) :=
  uncle ← right_of q grandparent;
  red ← is_red q uncle;
  if red : bool then
    q ← set_color parent_index SCHED_RB_BLACK q;
    q ← set_color uncle SCHED_RB_BLACK q;
    q ← set_color grandparent SCHED_RB_RED q;
    Some (q, grandparent)
  else
    r ← right_of q parent_index;
    '(q, index, parent_index, grandparent) ←
      (if r =? index then
         let index := parent_index in
         q ← scheduler_ready_queue_rotate_left index q;
         parent_index ← parent_of q index;
         grandparent ← parent_of q parent_index;
         Some (q, index, parent_index, grandparent)
       else Some (q, index, parent_index, grandparent));
    q ← set_color parent_index SCHED_RB_BLACK q;
    q ← set_color grandparent SCHED_RB_RED q;
    q ← scheduler_ready_queue_rotate_right grandparent q;
    Some (q, index).

Definition insert_fix_right (index parent_index grandparent : N) (q : ready_queue)
  : option (ready_queue * N) :=
  uncle ← left_of q grandparent;
  red ← is_red q uncle;
  if red : bool then
    q ← set_color parent_index SCHED_RB_BLACK q;
    q ← set_color uncle SCHED_RB_BLACK q;
    q ← set_color grandparent SCHED_RB_RED q;
    Some (q, grandparent)
  else
    l ← left_of q parent_index;
    '(q, index, parent_index, grandparent) ←
      (if l =? index then
         let index := parent_index in
         q ← scheduler_ready_queue_rotate_right index q;
         parent_index ← parent_of q index;
         grandparent ← parent_of q parent_index;
         Some (q, index, parent_index, grandparent)
       else Some (q, index, parent_index, grandparent));
    q ← set_color parent_index SCHED_RB_BLACK q;
    q ← set_color grandparent SCHED_RB_RED q;
    q ← scheduler_ready_queue_rotate_left grandparent q;
    Some (q, index).

Fixpoint insert_fix_loop (fuel : nat) (index : N) (q : ready_queue) : option ready_queue :=
  match fuel with
  | O => None
  | S fuel' =>
      if index =? g_sched_rq_root q then Some q
      else
        parent_index ← parent_of q index;
        c ← color_of q parent_index;
        if negb (c =? SCHED_RB_RED) then Some q
        else
          grandparent ← parent_of q parent_index;
          l ← left_of q grandparent;
          '(q, index) ←
            (if l =? parent_index then insert_fix_left index parent_index grandparent q
             else insert_fix_right index parent_index grandparent q);
          insert_fix_loop fuel' index q
  end.

Section insert.
(** [scheduler_vruntime_before], which reads the process table and the
    virtual run times but not the queue. *)
Context (before : N → N → option bool).

(** The search for the insertion point: the last node passed. *)
Fixpoint insert_search (fuel : nat) (q : ready_queue) (index parent cursor : N) : option N :=
  match fuel with
  | O => None
  | S fuel' =>
      if null cursor then Some parent
      else
        b ← before index cursor;
        next ← (if b : bool then left_of q cursor else right_of q cursor);
        insert_search fuel' q index cursor next
  end.

(** The part of [scheduler_ready_queue_insert] before the rebalancing loop: the
    new node is linked below the last node passed. *)
Definition insert_node (index : N) (q : ready_queue) : option ready_queue :=
  let cursor := g_sched_rq_root q in
  q ← set_left index UINT32_MAX q;
  q ← set_right index UINT32_MAX q;
  parent ← insert_search RB_FUEL q index UINT32_MAX cursor;
  q ← set_parent index parent q;
  q ← set_color index SCHED_RB_RED q;
  q ← set_on_rq index 1 q;
  if null parent then Some (set_root index q)
  else
    b ← before index parent;
    if b : bool then set_left parent index q else set_right parent index q.

Definition scheduler_ready_queue_insert (index : N) (q : ready_queue) : option ready_queue :=
  on ← on_rq q index;
  if nz on then Some q
  else
    q ← insert_node index q;
    q ← insert_fix_loop RB_FUEL index q;
    q ← set_color (g_sched_rq_root q) SCHED_RB_BLACK q;
    scheduler_ready_queue_recompute_leftmost q.
End insert.

(** ** Removal *)

(** [while ((index != UINT32_MAX) && (left[index] != UINT32_MAX))]. *)
Fixpoint minimum_loop (fuel : nat) (q : ready_queue) (index : N) : option N :=
  match fuel with
  | O => None
  | S fuel' =>
      if null index then Some index
      else
        l ← left_of q index;
        if null l then Some index else minimum_loop fuel' q l
  end.

Definition scheduler_ready_queue_minimum (q : ready_queue) (index : N) : option N :=
  minimum_loop RB_FUEL q index.

Definition scheduler_ready_queue_transplant (old_index new_index : N) (q : ready_queue)
  : option ready_queue :=
  parent ← parent_of q old_index;
  q ← replace_child parent old_index new_index q;
  if null new_index then Some q else set_parent new_index parent q.

(** [(sibling == UINT32_MAX) || (left child black or null && right child black
    or null)]. *)
Definition black_children (q : ready_queue) (sibling : N) : option bool :=
  if null sibling then Some true
  else
    l ← left_of q sibling;
    bl ← is_black q l;
    if bl : bool then r ← right_of q sibling; is_black q r else Some false.

(** The two halves of the rebalancing loop's body, each in two parts: making
    the sibling black, and the rest.  The result is the queue, [index],
    [parent] and whether the loop was left by [break]. *)
Definition remove_left_sibling (parent : N) (q : ready_queue) : option (ready_queue * N) :=
  sibling ← right_of q parent;
  red ← is_red q sibling;
  if red : bool then
    q ← set_color sibling SCHED_RB_BLACK q;
    q ← set_color parent SCHED_RB_RED q;
    q ← scheduler_ready_queue_rotate_left parent q;
    sibling ← right_of q parent;
    Some (q, sibling)
  else Some (q, sibling).

Definition remove_left_finish (parent sibling : N) (q : ready_queue)
  : option (ready_queue * N * N * bool) :=
  both ← black_children q sibling;
  if both : bool then
    q ← (if null sibling then Some q else set_color sibling SCHED_RB_RED q);
    let index := parent in
    parent ← parent_of q index;
    Some (q, index, parent, false)
  else
    outer ← right_of q sibling;
    black ← is_black q outer;
    '(q, sibling) ←
      (if black : bool then
         inner ← left_of q sibling;
         q ← (if null inner then Some q else set_color inner SCHED_RB_BLACK q);
         q ← set_color sibling SCHED_RB_RED q;
         q ← scheduler_ready_queue_rotate_right sibling q;
         sibling ← right_of q parent;
         Some (q, sibling)
       else Some (q, sibling));
    c ← color_of q parent;
    q ← set_color sibling c q;
    q ← set_color parent SCHED_RB_BLACK q;
    outer ← right_of q sibling;
    q ← (if null outer then Some q else set_color outer SCHED_RB_BLACK q);
    q ← scheduler_ready_queue_rotate_left parent q;
    Some (q, g_sched_rq_root q, parent, true).

Definition remove_right_sibling (parent : N) (q : ready_queue) : option (ready_queue * N) :=
  sibling ← left_of q parent;
  red ← is_red q sibling;
  if red : bool then
    q ← set_color sibling SCHED_RB_BLACK q;
    q ← set_color parent SCHED_RB_RED q;
    q ← scheduler_ready_queue_rotate_right parent q;
    sibling ← left_of q parent;
    Some (q, sibling)
  else Some (q, sibling).

Definition remove_right_finish (parent sibling : N) (q : ready_queue)
  : option (ready_queue * N * N * bool) :=
  both ← black_children q sibling;
  if both : bool then
    q ← (if null sibling then Some q else set_color sibling SCHED_RB_RED q);
    let index := parent in
    parent ← parent_of q index;
    Some (q, index, parent, false)
  else
    outer ← left_of q sibling;
    black ← is_black q outer;
    '(q, sibling) ←
      (if black : bool then
         inner ← right_of q sibling;
         q ← (if null inner then Some q else set_color inner SCHED_RB_BLACK q);
         q ← set_color sibling SCHED_RB_RED q;
         q ← scheduler_ready_queue_rotate_left sibling q;
         sibling ← left_of q parent;
         Some (q, sibling)
       else Some (q, sibling));
    c ← color_of q parent;
    q ← set_color sibling c q;
    q ← set_color parent SCHED_RB_BLACK q;
    outer ← left_of q sibling;
    q ← (if null outer then Some q else set_color outer SCHED_RB_BLACK q);
    q ← scheduler_ready_queue_rotate_right parent q;
    Some (q, g_sched_rq_root q, parent, true).

Definition remove_fix_left (parent : N) (q : ready_queue) : option (ready_queue * N * N * bool) :=
  '(q, sibling) ← remove_left_sibling parent q;
  remove_left_finish parent sibling q.

Definition remove_fix_right (parent : N) (q : ready_queue) : option (ready_queue * N * N * bool) :=
  '(q, sibling) ← remove_right_sibling parent q;
  remove_right_finish parent sibling q.

(** The loop, with the final value of [index]. *)
Fixpoint remove_fix_loop (fuel : nat) (index parent : N) (q : ready_queue)
  : option (ready_queue * N) :=
  match fuel with
  | O => None
  | S fuel' =>
      if index =? g_sched_rq_root q then Some (q, index)
      else
        black ← is_black q index;
        if negb black then Some (q, index)
        else if null parent then Some (q, index)
        else
          l ← left_of q parent;
          '(q, index, parent, broke) ←
            (if index =? l then remove_fix_left parent q else remove_fix_right parent q);
          if broke : bool then Some (q, index) else remove_fix_loop fuel' index parent q
  end.

Definition scheduler_ready_queue_remove_fixup (index parent : N) (q : ready_queue)
  : option ready_queue :=
  '(q, index) ← remove_fix_loop RB_FUEL index parent q;
  if null index then Some q else set_color index SCHED_RB_BLACK q.

(** A node with two children is replaced by [removed_index], the first node of
    its right subtree.  First that node leaves its place; the result is the
    queue and the parent of what replaces it there. *)
Definition detach_successor (index removed_index replacement : N) (q : ready_queue)
  : option (ready_queue * N) :=
  removed_parent ← parent_of q removed_index;
  if removed_parent =? index then
    let replacement_parent := removed_index in
    q ← (if null replacement then Some q else set_parent replacement removed_index q);
    Some (q, replacement_parent)
  else
    replacement_parent ← parent_of q removed_index;
    r ← right_of q removed_index;
    q ← scheduler_ready_queue_transplant removed_index r q;
    r ← right_of q index;
    q ← set_right removed_index r q;
    r ← right_of q removed_index;
    q ← set_parent r removed_index q;
    Some (q, replacement_parent).

(** Then it takes the place of [index]. *)
Definition replace_node (index removed_index : N) (q : ready_queue) : option ready_queue :=
  q ← scheduler_ready_queue_transplant index removed_index q;
  l ← left_of q index;
  q ← set_left removed_index l q;
  l ← left_of q removed_index;
  q ← set_parent l removed_index q;
  c ← color_of q index;
  set_color removed_index c q.

(** The unlinking part of [scheduler_ready_queue_remove]: the queue, the
    replacement, its parent, and the colour that left the tree. *)
Definition remove_unlink (index : N) (q : ready_queue) : option (ready_queue * N * N * N) :=
  removed_color ← color_of q index;
  l ← left_of q index;
  r ← right_of q index;
  if null l then
    replacement_parent ← parent_of q index;
    q ← scheduler_ready_queue_transplant index r q;
    Some (q, r, replacement_parent, removed_color)
  else if null r then
    replacement_parent ← parent_of q index;
    q ← scheduler_ready_queue_transplant index l q;
    Some (q, l, replacement_parent, removed_color)
  else
    removed_index ← scheduler_ready_queue_minimum q r;
    removed_color ← color_of q removed_index;
    replacement ← right_of q removed_index;
    '(q, replacement_parent) ← detach_successor index removed_index replacement q;
    q ← replace_node index removed_index q;
    Some (q, replacement, replacement_parent, removed_color).

(** Its entries in the arrays are cleared. *)
Definition clear_entry (index : N) (q : ready_queue) : option ready_queue :=
  q ← set_on_rq index 0 q;
  q ← set_parent index UINT32_MAX q;
  q ← set_left index UINT32_MAX q;
  q ← set_right index UINT32_MAX q;
  set_color index SCHED_RB_BLACK q.

Definition scheduler_ready_queue_remove (index : N) (q : ready_queue) : option ready_queue :=
  on ← on_rq q index;
  if negb (nz on) then Some q
  else
    '(q, replacement, replacement_parent, removed_color) ← remove_unlink index q;
    q ← clear_entry index q;
    q ← (if removed_color =? SCHED_RB_BLACK then
           scheduler_ready_queue_remove_fixup replacement replacement_parent q
         else Some q);
    scheduler_ready_queue_recompute_leftmost q.

(** The queue before the first insertion. *)
Definition empty_queue : ready_queue :=
  ReadyQueue (replicate 10 0) (replicate 10 0) (replicate 10 0) (replicate 10 0)
    (replicate 10 0) UINT32_MAX UINT32_MAX.
