(* ===== verification/ReadyQueueTree.v ===== *)
(** * Trees in the ready queue's arrays

    The tree a queue holds, as an inductive type; a position in it, as the
    path to the root; and the predicate [holds] that relates both to the link
    arrays.  The memory is described by the finite map of its cells. *)

From S2P Require Import Prelude ReadyQueue.

Local Open Scope N_scope.

Inductive tree :=
  | Leaf
  | Node (c : N) (l : tree) (i : N) (r : tree).

#[export] Instance tree_eq_dec : EqDecision tree.
Proof. solve_decision. Defined.

(** One step of the path from a subtree up to the root: the subtree is the
    left child of node [i], whose right subtree is [r], or conversely. *)
Inductive frame :=
  | InLeft (c : N) (i : N) (r : tree)
  | InRight (c : N) (l : tree) (i : N).

Abbreviation path := (list frame).

Definition ptr (t : tree) : N := match t with Leaf => UINT32_MAX | Node _ _ i _ => i end.
Definition frame_index (f : frame) : N :=
  match f with InLeft _ i _ => i | InRight _ _ i => i end.
Definition up (k : path) : N := match k with [] => UINT32_MAX | f :: _ => frame_index f end.

Fixpoint inorder (t : tree) : list N :=
  match t with Leaf => [] | Node _ l i r => inorder l ++ i :: inorder r end.

Definition fill (f : frame) (t : tree) : tree :=
  match f with InLeft c i r => Node c t i r | InRight c l i => Node c l i t end.

Fixpoint plug (k : path) (t : tree) : tree :=
  match k with [] => t | f :: k' => plug k' (fill f t) end.

(** The nodes before and after the subtree at the end of a path. *)
Fixpoint before_path (k : path) : list N :=
  match k with
  | [] => []
  | InLeft _ _ _ :: k' => before_path k'
  | InRight _ l i :: k' => before_path k' ++ inorder l ++ [i]
  end.
Fixpoint after_path (k : path) : list N :=
  match k with
  | [] => []
  | InLeft _ i r :: k' => i :: inorder r ++ after_path k'
  | InRight _ _ _ :: k' => after_path k'
  end.

Lemma inorder_plug k t : inorder (plug k t) = before_path k ++ inorder t ++ after_path k.
Proof.
  revert t. induction k as [|[c i r|c l i] k IH]; intros t; simpl; rewrite ?IH; simpl.
  - by rewrite app_nil_r.
  - by rewrite <-!app_assoc.
  - by rewrite <-!app_assoc.
Qed.

Lemma plug_app k1 k2 t : plug (k1 ++ k2) t = plug k2 (plug k1 t).
Proof. revert t. induction k1 as [|f k1 IH]; intros t; simpl; auto. Qed.

Lemma plug_same_inorder k t t' : inorder t = inorder t' → inorder (plug k t) = inorder (plug k t').
Proof. intros H. by rewrite !inorder_plug, H. Qed.

(** The nodes of a path. *)
Fixpoint path_nodes (k : path) : list N :=
  match k with
  | [] => []
  | InLeft _ i r :: k' => i :: inorder r ++ path_nodes k'
  | InRight _ l i :: k' => i :: inorder l ++ path_nodes k'
  end.

Lemma path_nodes_perm k t : inorder (plug k t) ≡ₚ inorder t ++ path_nodes k.
Proof.
  revert t. induction k as [|[c i r|c l i] k IH]; intros t; simpl; [by rewrite app_nil_r|..];
    rewrite IH; simpl.
  - by rewrite <-app_assoc.
  - rewrite <-!Permutation_middle, <-app_comm_cons. apply perm_skip.
    by rewrite (Permutation_app_comm (inorder l)), <-app_assoc.
Qed.

Lemma path_nodes_app k1 k2 : path_nodes (k1 ++ k2) = path_nodes k1 ++ path_nodes k2.
Proof.
  induction k1 as [|[c i r|c l i] k1 IH]; simpl; [done|..]; by rewrite IH, app_assoc.
Qed.

(** ** Cells

    The links and the colour of a node. *)
Record cell := Cell { c_parent : N; c_left : N; c_right : N; c_color : N }.

Definition cell_of (q : ready_queue) (i : N) : option cell :=
  p ← parent_of q i; l ← left_of q i; r ← right_of q i; c ← color_of q i;
  Some (Cell p l r c).

Definition shape (q : ready_queue) : Prop :=
  length (g_sched_rb_parent q) = 10%nat ∧ length (g_sched_rb_left q) = 10%nat ∧
  length (g_sched_rb_right q) = 10%nat ∧ length (g_sched_rb_color q) = 10%nat ∧
  length (g_sched_on_rq q) = 10%nat.

(** The link arrays of [q] hold the cells [m], and its root is [root]. *)
Definition view (q : ready_queue) (m : gmap N cell) (root : N) : Prop :=
  shape q ∧ g_sched_rq_root q = root ∧ ∀ i, cell_of q i = m !! i.

(** What link updates leave alone. *)
Definition same_marks (q q' : ready_queue) : Prop :=
  g_sched_on_rq q' = g_sched_on_rq q ∧ g_sched_rq_leftmost q' = g_sched_rq_leftmost q.

#[export] Instance same_marks_refl : Reflexive same_marks.
Proof. by intros q. Qed.
#[export] Instance same_marks_trans : Transitive same_marks.
Proof. intros a b c [H1 H2] [H3 H4]. split; congruence. Qed.

Lemma view_exists q : shape q → ∃ m, view q m (g_sched_rq_root q).
Proof.
  intros Hs.
  exists (list_to_map (omap (λ n, let i := N.of_nat n in (λ c, (i, c)) <$> cell_of q i) (seq 0 10))).
  split_and!; [done..|]. intros i. symmetry.
  assert (∀ i, 10 ≤ i → cell_of q i = None) as Hout.
  { intros j Hj. unfold cell_of, parent_of.
    destruct (aget _ j) eqn:Ha; [|done]. apply aget_Some_lt in Ha.
    destruct Hs as (H & _). rewrite H in Ha. lia. }
  assert (∀ i c, cell_of q i = Some c → i < 10) as Hin.
  { intros j c Hj. destruct (N.lt_ge_cases j 10) as [|H]; [done|]. rewrite Hout in Hj; done. }
  set (l := omap _ _).
  assert (∀ c, (i, c) ∈ l ↔ cell_of q i = Some c) as Hl.
  { intros c. subst l. rewrite list_elem_of_omap. split.
    - intros (n & Hn & H). simpl in H. destruct (cell_of q (N.of_nat n)) eqn:Hc; [|done].
      simpl in H. by simplify_eq.
    - intros H. exists (N.to_nat i). split; [apply elem_of_seq; apply Hin in H; lia|].
      cbv zeta. by rewrite N2Nat.id, H. }
  assert (NoDup (l.*1)) as Hnd.
  { subst l. generalize (seq 0 10), (NoDup_seq 0 10). clear. intros s Hs.
    induction Hs as [|n s Hn Hs IH]; simpl; [constructor|].
    destruct (cell_of q (N.of_nat n)) as [c|]; simpl; [|done]. constructor; [|done].
    intros Hin. apply list_elem_of_fmap in Hin as ([j d] & Hj & Hd).
    apply list_elem_of_omap in Hd as (n' & Hn' & H'). simpl in *.
    destruct (cell_of q (N.of_nat n')); simpl in H'; [|done]. injection H' as H' _.
    assert (n = n') by lia. by subst. }
  destruct (cell_of q i) as [c|] eqn:Hc.
  - apply elem_of_list_to_map_1; [done|]. by apply Hl.
  - apply not_elem_of_list_to_map_1. intros H.
    apply list_elem_of_fmap in H as ([j d] & -> & Hd). simpl in *. apply Hl in Hd. congruence.
Qed.

Section view_ops.
Context (q : ready_queue) (m : gmap N cell) (root : N) (Hv : view q m root).

Lemma view_lookup i x : m !! i = Some x →
  parent_of q i = Some (c_parent x) ∧ left_of q i = Some (c_left x) ∧
  right_of q i = Some (c_right x) ∧ color_of q i = Some (c_color x).
Proof.
  intros Hm. destruct Hv as (_ & _ & H). rewrite <-H in Hm. unfold cell_of in Hm.
  destruct (parent_of q i), (left_of q i), (right_of q i), (color_of q i);
    simpl in Hm; simplify_eq; done.
Qed.

Lemma view_lt i : is_Some (m !! i) ↔ i < 10.
Proof.
  destruct Hv as ((H1 & H2 & H3 & H4 & H5) & _ & H). rewrite <-H. unfold cell_of.
  split.
  - intros [x Hx]. unfold parent_of in Hx. destruct (aget _ i) eqn:Ha; [|done].
    apply aget_Some_lt in Ha. rewrite H1 in Ha. lia.
  - intros Hi. unfold parent_of, left_of, right_of, color_of.
    destruct (aget_is_Some (g_sched_rb_parent q) i) as [? ->]; [lia|].
    destruct (aget_is_Some (g_sched_rb_left q) i) as [? ->]; [lia|].
    destruct (aget_is_Some (g_sched_rb_right q) i) as [? ->]; [lia|].
    destruct (aget_is_Some (g_sched_rb_color q) i) as [? ->]; [lia|]. by eexists.
Qed.

Lemma view_not_null i x : m !! i = Some x → null i = false.
Proof.
  intros H. assert (i < 10) by (apply view_lt; eauto). unfold null, UINT32_MAX.
  apply N.eqb_neq. lia.
Qed.
End view_ops.

Lemma view_update q q' m root i c :
  view q m root → shape q' → g_sched_rq_root q' = g_sched_rq_root q →
  cell_of q' i = Some c → (∀ j, j ≠ i → cell_of q' j = cell_of q j) →
  view q' (<[i := c]> m) root.
Proof.
  intros (_ & Hr & Hc) Hs Hr' Hi Hj. split_and!; [done|congruence|]. intros j.
  destruct (decide (j = i)) as [->|Hne]; [by rewrite lookup_insert_eq|].
  by rewrite lookup_insert_ne, Hj, Hc.
Qed.

Lemma aget_insert_eq {A} (l : list A) i x : i < N.of_nat (length l) →
  aget (<[N.to_nat i := x]> l) i = Some x.
Proof. intros. rewrite aget_lookup. apply list_lookup_insert_eq. lia. Qed.

Lemma aget_insert_ne {A} (l : list A) i j x : j ≠ i → aget (<[N.to_nat i := x]> l) j = aget l j.
Proof. intros. rewrite !aget_lookup. apply list_lookup_insert_ne. lia. Qed.

(** The effect of each write on the cells. *)
Ltac solve_set :=
  lazymatch goal with
  | |- view ?q ?m ?root → ?m !! ?i = Some ?x → _ =>
      let Hv := fresh "Hv" in let Hm := fresh "Hm" in let Hi := fresh "Hi" in let Hs := fresh "Hs" in
      intros Hv Hm;
      assert (i < 10) as Hi by (apply (view_lt _ _ _ Hv); eauto);
      destruct (view_lookup _ _ _ Hv _ _ Hm) as (? & ? & ? & ?);
      pose proof (proj1 Hv) as Hs; destruct q; unfold shape in Hs; simpl in Hs;
      unfold parent_of, left_of, right_of, color_of in *; simpl in *;
      destruct Hs as (? & ? & ? & ? & ?);
      eexists; split;
      [simpl; rewrite aset_Some by lia; reflexivity|];
      split; [|done]; eapply view_update; [exact Hv| | | |];
      [unfold shape; simpl; rewrite ?length_insert; done
      |done
      |unfold cell_of, parent_of, left_of, right_of, color_of; simpl;
       rewrite ?aget_insert_eq by lia;
       repeat match goal with E : aget _ _ = Some _ |- _ => rewrite E; clear E end; reflexivity
      |let j := fresh "j" in let Hj := fresh "Hj" in intros j Hj;
       unfold cell_of, parent_of, left_of, right_of, color_of; simpl;
       by rewrite ?aget_insert_ne by done]
  end.

Lemma set_parent_spec q m root i v x : view q m root → m !! i = Some x →
  ∃ q', set_parent i v q = Some q' ∧
    view q' (<[i := Cell v (c_left x) (c_right x) (c_color x)]> m) root ∧ same_marks q q'.
Proof. solve_set. Qed.

Lemma set_left_spec q m root i v x : view q m root → m !! i = Some x →
  ∃ q', set_left i v q = Some q' ∧
    view q' (<[i := Cell (c_parent x) v (c_right x) (c_color x)]> m) root ∧ same_marks q q'.
Proof. solve_set. Qed.

Lemma set_right_spec q m root i v x : view q m root → m !! i = Some x →
  ∃ q', set_right i v q = Some q' ∧
    view q' (<[i := Cell (c_parent x) (c_left x) v (c_color x)]> m) root ∧ same_marks q q'.
Proof. solve_set. Qed.

Lemma set_color_spec q m root i v x : view q m root → m !! i = Some x →
  ∃ q', set_color i v q = Some q' ∧
    view q' (<[i := Cell (c_parent x) (c_left x) (c_right x) v]> m) root ∧ same_marks q q'.
Proof. solve_set. Qed.

Lemma set_color_nonnull q m root i v x : view q m root → m !! i = Some x →
  ∃ q', (if null i then Some q else set_color i v q) = Some q' ∧
    view q' (<[i := Cell (c_parent x) (c_left x) (c_right x) v]> m) root ∧ same_marks q q'.
Proof. intros Hv Hi. rewrite (view_not_null _ _ _ Hv _ _ Hi). by eapply set_color_spec. Qed.

Lemma set_root_spec q m root v : view q m root → view (set_root v q) m v ∧ same_marks q (set_root v q).
Proof. intros (Hs & _ & Hc). split; [|by destruct q]. split_and!; by destruct q. Qed.

(** ** Trees and paths in memory

    [holds m t p]: the cells [m] hold the tree [t], whose root has parent [p].
    [holds_path m k x]: they hold the path [k], at whose end is node [x]. *)
Fixpoint holds (m : gmap N cell) (t : tree) (p : N) : Prop :=
  match t with
  | Leaf => True
  | Node c l i r =>
      m !! i = Some (Cell p (ptr l) (ptr r) c) ∧ holds m l i ∧ holds m r i
  end.

Fixpoint holds_path (m : gmap N cell) (k : path) (x : N) : Prop :=
  match k with
  | [] => True
  | InLeft c i r :: k' =>
      m !! i = Some (Cell (up k') x (ptr r) c) ∧ holds m r i ∧ holds_path m k' i
  | InRight c l i :: k' =>
      m !! i = Some (Cell (up k') (ptr l) x c) ∧ holds m l i ∧ holds_path m k' i
  end.

(** The node at the root of a tree reached by a path from [x]. *)
Fixpoint top (k : path) (x : N) : N :=
  match k with [] => x | f :: k' => top k' (frame_index f) end.

Lemma ptr_plug k t : ptr (plug k t) = top k (ptr t).
Proof. revert t. induction k as [|[] k IH]; intros t; simpl; [done|by rewrite IH..]. Qed.

Lemma holds_plug_path m k t :
  holds m (plug k t) UINT32_MAX ↔ holds m t (up k) ∧ holds_path m k (ptr t).
Proof.
  revert t. induction k as [|[c i r|c l i] k IH]; intros t; simpl; [naive_solver|..];
    rewrite IH; simpl; naive_solver.
Qed.

Lemma up_app k1 k2 : up (k1 ++ k2) = match k1 with [] => up k2 | f :: _ => frame_index f end.
Proof. by destruct k1. Qed.

Lemma holds_insert m t p i c : i ∉ inorder t → holds (<[i := c]> m) t p ↔ holds m t p.
Proof.
  revert p. induction t as [|d l IHl j r IHr]; intros p; simpl; [done|].
  rewrite not_elem_of_app, not_elem_of_cons. intros (? & ? & ?).
  rewrite lookup_insert_ne, IHl, IHr by done. done.
Qed.

Lemma holds_path_insert m k x i c :
  i ∉ path_nodes k → holds_path (<[i := c]> m) k x ↔ holds_path m k x.
Proof.
  revert x. induction k as [|[d j r|d l j] k IH]; intros x; simpl; [done|..];
    rewrite not_elem_of_cons, not_elem_of_app; intros (? & ? & ?);
    rewrite lookup_insert_ne, holds_insert, IH by done; done.
Qed.

Lemma holds_ext m m' t p : (∀ i, i ∈ inorder t → m' !! i = m !! i) → holds m t p → holds m' t p.
Proof.
  revert p. induction t as [|d l IHl j r IHr]; intros p Hm; simpl in *; [done|].
  intros (Hj & Hl & Hr). split_and!.
  - rewrite Hm; [done|set_solver].
  - apply IHl; [|done]. intros i Hi. apply Hm. set_solver.
  - apply IHr; [|done]. intros i Hi. apply Hm. set_solver.
Qed.

Lemma holds_in m t p i : holds m t p → i ∈ inorder t → is_Some (m !! i).
Proof.
  revert p. induction t as [|d l IHl j r IHr]; intros p; simpl; [set_solver|].
  intros (Hj & Hl & Hr). rewrite elem_of_app, elem_of_cons.
  intros [?|[->|?]]; [by eapply IHl|by eauto|by eapply IHr].
Qed.

(** The two kinds of local update: the parent link of a subtree's root, and
    the link to the end of a path. *)
Definition reparent (t : tree) (p : N) (m : gmap N cell) : gmap N cell :=
  match t with Leaf => m | Node c l i r => <[i := Cell p (ptr l) (ptr r) c]> m end.

Definition relink (k : path) (x : N) (m : gmap N cell) : gmap N cell :=
  match k with
  | [] => m
  | InLeft c i r :: k' => <[i := Cell (up k') x (ptr r) c]> m
  | InRight c l i :: k' => <[i := Cell (up k') (ptr l) x c]> m
  end.

Definition root_after (k : path) (x root : N) : N := match k with [] => x | _ => root end.

Lemma lookup_reparent m t p i : i ∉ inorder t → reparent t p m !! i = m !! i.
Proof.
  destruct t; simpl; [done|]. rewrite not_elem_of_app, not_elem_of_cons. intros (? & ? & ?).
  by rewrite lookup_insert_ne.
Qed.

Lemma lookup_relink m k x i : i ∉ path_nodes k → relink k x m !! i = m !! i.
Proof.
  destruct k as [|[]]; simpl; [done|..]; rewrite not_elem_of_cons; intros [? ?];
    by rewrite lookup_insert_ne.
Qed.

Lemma holds_reparent_other m t p t' p' :
  inorder t ## inorder t' → holds (reparent t p m) t' p' ↔ holds m t' p'.
Proof.
  destruct t as [|c l i r]; simpl; [done|]. intros Hd. apply holds_insert.
  intros Hi. apply (Hd i); [set_solver|done].
Qed.

Lemma holds_path_reparent m t p k x :
  inorder t ## path_nodes k → holds_path (reparent t p m) k x ↔ holds_path m k x.
Proof.
  destruct t as [|c l i r]; simpl; [done|]. intros Hd. apply holds_path_insert.
  intros Hi. apply (Hd i); [set_solver|done].
Qed.

Lemma holds_relink m k x t p :
  path_nodes k ## inorder t → holds (relink k x m) t p ↔ holds m t p.
Proof.
  destruct k as [|[c i r|c l i] k]; simpl; [done|..]; intros Hd; apply holds_insert;
    intros Hi; apply (Hd i); set_solver.
Qed.

Lemma holds_reparent m t p p' : NoDup (inorder t) → holds m t p → holds (reparent t p' m) t p'.
Proof.
  destruct t as [|c l i r]; simpl; [done|]. intros (_ & Hd & Hn)%NoDup_app (Hi & Hl & Hr).
  apply NoDup_cons in Hn as [Hn _].
  rewrite lookup_insert_eq, !holds_insert; [done|done|]. intros H. apply (Hd i H). by left.
Qed.

Lemma holds_path_relink m k x y :
  NoDup (path_nodes k) → holds_path m k x → holds_path (relink k y m) k y.
Proof.
  destruct k as [|[c i r|c l i] k]; simpl; [done|..];
    intros [[Hi1 Hi2]%not_elem_of_app _]%NoDup_cons (_ & Hh & Hk);
    by rewrite lookup_insert_eq, holds_insert, holds_path_insert.
Qed.

(** ** A position in the tree a queue holds

    [at_pos q k t]: the queue holds the tree [plug k t]. *)
Definition at_pos (q : ready_queue) (k : path) (t : tree) : Prop :=
  ∃ m, view q m (top k (ptr t)) ∧ holds m t (up k) ∧ holds_path m k (ptr t) ∧
       NoDup (inorder t ++ path_nodes k).

Definition holds_tree (q : ready_queue) (t : tree) : Prop := at_pos q [] t.

Lemma at_pos_plug q k t : at_pos q k t ↔ holds_tree q (plug k t).
Proof.
  unfold holds_tree, at_pos. simpl. rewrite ptr_plug.
  split; intros (m & Hv & Ht & Hn); exists m; (split; [done|]).
  - destruct Hn as [Hk Hn]. split; [by apply holds_plug_path|]. split; [done|].
    by rewrite app_nil_r, path_nodes_perm.
  - apply holds_plug_path in Ht as [Ht Hk]. split_and!; [done|done|].
    destruct Hn as [_ Hn]. by rewrite app_nil_r, path_nodes_perm in Hn.
Qed.

Lemma at_pos_move q k t k' t' : plug k t = plug k' t' → at_pos q k t → at_pos q k' t'.
Proof. rewrite !at_pos_plug. by intros ->. Qed.

Lemma at_pos_up q f k t : at_pos q (f :: k) t ↔ at_pos q k (fill f t).
Proof. by rewrite !at_pos_plug. Qed.

Lemma root_after_top k x y : root_after k y (top k x) = top k y.
Proof. by destruct k. Qed.

Lemma null_spec i : null i = true ↔ i = UINT32_MAX.
Proof. apply N.eqb_eq. Qed.

Lemma ptr_ne t x : null x = false → x ∉ inorder t → (ptr t =? x) = false.
Proof.
  intros Hx Ht. apply N.eqb_neq. intros <-. destruct t as [|c l i r]; simpl in *; [done|].
  apply Ht. set_solver.
Qed.

Lemma replace_child_spec q m root k x y :
  view q m root → holds_path m k x → x ∉ path_nodes k → null x = false →
  ∃ q', replace_child (up k) x y q = Some q' ∧ view q' (relink k y m) (root_after k y root) ∧
    same_marks q q'.
Proof.
  intros Hv Hk Hx Hnull. unfold replace_child. destruct k as [|[c i r|c l i] k']; simpl in *.
  - eexists. split; [done|]. by eapply set_root_spec.
  - destruct Hk as (Hi & _ & _). rewrite (view_not_null _ _ _ Hv _ _ Hi).
    destruct (view_lookup _ _ _ Hv _ _ Hi) as (_ & -> & _ & _). cbn.
    rewrite N.eqb_refl. eapply set_left_spec in Hi; [|exact Hv]. exact Hi.
  - destruct Hk as (Hi & _ & _). rewrite (view_not_null _ _ _ Hv _ _ Hi).
    destruct (view_lookup _ _ _ Hv _ _ Hi) as (_ & -> & _ & _). cbn.
    rewrite ptr_ne by (done || set_solver). eapply set_right_spec in Hi; [|exact Hv]. exact Hi.
Qed.

Lemma replace_child_mirrored_spec q m root k x y :
  view q m root → holds_path m k x → x ∉ path_nodes k → null x = false →
  ∃ q', replace_child_mirrored (up k) x y q = Some q' ∧
    view q' (relink k y m) (root_after k y root) ∧ same_marks q q'.
Proof.
  intros Hv Hk Hx Hnull. unfold replace_child_mirrored.
  destruct k as [|[c i r|c l i] k']; simpl in *.
  - eexists. split; [done|]. by eapply set_root_spec.
  - destruct Hk as (Hi & _ & _). rewrite (view_not_null _ _ _ Hv _ _ Hi).
    destruct (view_lookup _ _ _ Hv _ _ Hi) as (_ & _ & -> & _). cbn.
    rewrite ptr_ne by (done || set_solver). eapply set_left_spec in Hi; [|exact Hv]. exact Hi.
  - destruct Hk as (Hi & _ & _). rewrite (view_not_null _ _ _ Hv _ _ Hi).
    destruct (view_lookup _ _ _ Hv _ _ Hi) as (_ & _ & -> & _). cbn.
    rewrite N.eqb_refl. eapply set_right_spec in Hi; [|exact Hv]. exact Hi.
Qed.

(** [if (t != UINT32_MAX) g_sched_rb_parent[t] = p;] *)
Lemma set_parent_tree q m root t p' p :
  view q m root → holds m t p →
  ∃ q', (if null (ptr t) then Some q else set_parent (ptr t) p' q) = Some q' ∧
    view q' (reparent t p' m) root ∧ same_marks q q'.
Proof.
  intros Hv Ht. destruct t as [|c l i r]; simpl in *; [by exists q|].
  destruct Ht as (Hi & _). rewrite (view_not_null _ _ _ Hv _ _ Hi).
  by eapply set_parent_spec in Hi.
Qed.

(** Membership side conditions, from the one hypothesis that the nodes are
    distinct: it is split into facts on single nodes and subtrees. *)
Lemma NoDup_app_disjoint (l k : list N) : NoDup (l ++ k) ↔ NoDup l ∧ l ## k ∧ NoDup k.
Proof. by rewrite NoDup_app. Qed.
Lemma disjoint_cons_l (x : N) (l k : list N) : (x :: l) ## k ↔ (x ∉ k) ∧ l ## k.
Proof. unfold disjoint, set_disjoint_instance. set_solver. Qed.
Lemma disjoint_cons_r (x : N) (l k : list N) : k ## (x :: l) ↔ (x ∉ k) ∧ k ## l.
Proof. unfold disjoint, set_disjoint_instance. set_solver. Qed.
Lemma disjoint_app_l (l1 l2 k : list N) : (l1 ++ l2) ## k ↔ l1 ## k ∧ l2 ## k.
Proof. unfold disjoint, set_disjoint_instance. set_solver. Qed.
Lemma disjoint_app_r (l1 l2 k : list N) : k ## (l1 ++ l2) ↔ k ## l1 ∧ k ## l2.
Proof. unfold disjoint, set_disjoint_instance. set_solver. Qed.
Lemma disjoint_nil_l (k : list N) : [] ## k ↔ True.
Proof. unfold disjoint, set_disjoint_instance. set_solver. Qed.
Lemma disjoint_nil_r (k : list N) : k ## [] ↔ True.
Proof. unfold disjoint, set_disjoint_instance. set_solver. Qed.

Lemma disjoint_list_sym (l k : list N) : l ## k → k ## l.
Proof. unfold disjoint, set_disjoint_instance. set_solver. Qed.

Ltac split_nodup H :=
  simpl in H;
  repeat first
    [ rewrite NoDup_app_disjoint in H | rewrite NoDup_cons in H
    | rewrite disjoint_app_l in H | rewrite disjoint_app_r in H
    | rewrite disjoint_cons_l in H | rewrite disjoint_cons_r in H
    | rewrite not_elem_of_app in H | rewrite not_elem_of_cons in H ];
  destruct_and? H.

Ltac apart1 :=
  first [ assumption | symmetry; assumption | apply disjoint_list_sym; assumption | exact I
        | apply not_elem_of_nil ].
Ltac apart :=
  first
    [ apart1
    | simpl;
      repeat first
        [ rewrite disjoint_app_l | rewrite disjoint_app_r | rewrite disjoint_cons_l
        | rewrite disjoint_cons_r | rewrite not_elem_of_app | rewrite not_elem_of_cons
        | rewrite disjoint_nil_l | rewrite disjoint_nil_r ];
      split_and?; apart1 ].

(** The current value of a cell. *)
Ltac find_cell :=
  repeat first
    [ rewrite lookup_insert_eq
    | rewrite lookup_insert_ne by apart
    | rewrite lookup_reparent by apart
    | rewrite lookup_relink by apart ];
  first [reflexivity | eassumption].

(** Trees and paths in the current cells. *)
Ltac find_holds :=
  repeat first
    [ rewrite holds_insert by apart
    | rewrite holds_reparent_other by apart
    | rewrite holds_relink by apart
    | rewrite holds_path_insert by apart
    | rewrite holds_path_reparent by apart ];
  first
    [ eassumption
    | eapply holds_reparent; [by auto|find_holds]
    | eapply holds_path_relink; [by auto|find_holds] ].

(** One array read or write of the code on the viewed cells. *)
Ltac step_with lem Hv :=
  let q' := fresh "q" in let Hv' := fresh "Hv" in let Hs' := fresh "Hsame" in
  edestruct lem as (q' & -> & Hv' & Hs'); [exact Hv|find_cell|];
  cbn [c_parent c_left c_right c_color] in Hv'; cbn [mbind option_bind].

Ltac read_with Hv i e :=
  let E1 := fresh "E1" in let E2 := fresh "E2" in let E3 := fresh "E3" in let E4 := fresh "E4" in
  edestruct (view_lookup _ _ _ Hv i) as (E1 & E2 & E3 & E4); [find_cell|];
  cbn [c_parent c_left c_right c_color] in E1, E2, E3, E4;
  lazymatch e with
  | parent_of _ _ => rewrite E1
  | left_of _ _ => rewrite E2
  | right_of _ _ => rewrite E3
  | color_of _ _ => rewrite E4
  end;
  clear E1 E2 E3 E4; cbn [mbind option_bind].

Ltac tree_step_with lem Hv :=
  let q' := fresh "q" in let Hv' := fresh "Hv" in let Hs' := fresh "Hsame" in
  edestruct lem as (q' & -> & Hv' & Hs'); [exact Hv|find_holds|..|]; [apart..|];
  cbn [mbind option_bind].

(** The access the code performs next. *)
Ltac next_access t :=
  lazymatch t with
  | mbind _ ?e => next_access e
  | option_bind _ _ _ ?e => next_access e
  | _ => t
  end.

Ltac next_in_goal :=
  lazymatch goal with
  | |- ∃ q, ?t = _ ∧ _ => next_access t
  | |- ∃ q i, ?t = _ ∧ _ => next_access t
  | |- ∃ q i j, ?t = _ ∧ _ => next_access t
  end.

Ltac step :=
  let e := next_in_goal in
  lazymatch e with
  | set_parent ?i ?v ?q =>
      lazymatch goal with Hv : view q ?m ?root |- _ => step_with (set_parent_spec q m root i v) Hv end
  | set_left ?i ?v ?q =>
      lazymatch goal with Hv : view q ?m ?root |- _ => step_with (set_left_spec q m root i v) Hv end
  | set_right ?i ?v ?q =>
      lazymatch goal with Hv : view q ?m ?root |- _ => step_with (set_right_spec q m root i v) Hv end
  | set_color ?i ?v ?q =>
      lazymatch goal with Hv : view q ?m ?root |- _ => step_with (set_color_spec q m root i v) Hv end
  | replace_child (up ?k) ?x ?y ?q =>
      lazymatch goal with Hv : view q ?m ?root |- _ =>
        tree_step_with (replace_child_spec q m root k x y) Hv end
  | replace_child_mirrored (up ?k) ?x ?y ?q =>
      lazymatch goal with Hv : view q ?m ?root |- _ =>
        tree_step_with (replace_child_mirrored_spec q m root k x y) Hv end
  | if null (ptr ?t) then Some ?q else set_parent (ptr ?t) ?p ?q =>
      lazymatch goal with Hv : view q ?m ?root |- _ =>
        tree_step_with (set_parent_tree q m root t p) Hv end
  | if null ?i then Some ?q else set_color ?i ?v ?q =>
      lazymatch goal with Hv : view q ?m ?root |- _ =>
        step_with (set_color_nonnull q m root i v) Hv end
  | parent_of ?q ?i => lazymatch goal with Hv : view q _ _ |- _ => read_with Hv i e end
  | left_of ?q ?i => lazymatch goal with Hv : view q _ _ |- _ => read_with Hv i e end
  | right_of ?q ?i => lazymatch goal with Hv : view q _ _ |- _ => read_with Hv i e end
  | color_of ?q ?i => lazymatch goal with Hv : view q _ _ |- _ => read_with Hv i e end
  end.

(** [at_pos q k t] for the current cells of [q]; [Hnd] is the distinctness of
    the nodes. *)
Ltac prove_at Hnd :=
  lazymatch goal with Hv : view ?q ?m _ |- at_pos ?q _ _ =>
    exists m; rewrite ?root_after_top in Hv
  end;
  split_and!;
  [ assumption
  | simpl; split_and?; first [done|find_cell|find_holds]
  | simpl; split_and?; first [done|find_cell|find_holds]
  | revert Hnd; simpl; rewrite <-?app_assoc, <-?app_comm_cons, <-?app_assoc, <-?app_comm_cons,
      <-?app_assoc; exact id ].

(** The current cells of [q] as the tree [t] at the end of [k]. *)
Ltac pack_at q k t Hnd :=
  let H := fresh "Hat" in assert (at_pos q k t) as H by prove_at Hnd.

Ltac solve_marks := by repeat (first [eassumption|etrans; [eassumption|]]).

(** Closes the goal of a run of [step]s. *)
Ltac finish_at Hnd := eexists; split; [done|]; split; [prove_at Hnd|solve_marks].

Lemma rotate_left_spec q k c a x c' b y d :
  at_pos q k (Node c a x (Node c' b y d)) →
  ∃ q', scheduler_ready_queue_rotate_left x q = Some q' ∧
    at_pos q' k (Node c' (Node c a x b) y d) ∧ same_marks q q'.
Proof.
  intros (m & Hv & (Hx & Ha & Hy & Hb & Hd) & Hk & Hnd). pose proof Hnd as Hn.
  split_nodup Hn. simpl in *. pose proof (view_not_null _ _ _ Hv _ _ Hx) as Hnull.
  unfold scheduler_ready_queue_rotate_left.
  do 10 step. finish_at Hnd.
Qed.

Lemma rotate_right_spec q k c' c a x b y d :
  at_pos q k (Node c' (Node c a x b) y d) →
  ∃ q', scheduler_ready_queue_rotate_right y q = Some q' ∧
    at_pos q' k (Node c a x (Node c' b y d)) ∧ same_marks q q'.
Proof.
  intros (m & Hv & (Hy & (Hx & Ha & Hb) & Hd) & Hk & Hnd). pose proof Hnd as Hn.
  split_nodup Hn. simpl in *. pose proof (view_not_null _ _ _ Hv _ _ Hy) as Hnull.
  unfold scheduler_ready_queue_rotate_right.
  do 10 step. finish_at Hnd.
Qed.
