(* ===== verification/ReadyQueueBalance.v ===== *)
(** * Balance of the ready queue's tree

    The red-black invariant [rb], its version [rb_path] for the rest of the
    tree around a position, the searches for the leftmost node, and
    [queue_holds], which relates a queue to the tree it represents. *)

From S2P Require Import Prelude ReadyQueue ReadyQueueTree.

Local Open Scope N_scope.

Abbreviation RED := SCHED_RB_RED.
Abbreviation BLACK := SCHED_RB_BLACK.

Definition tcolor (t : tree) : N := match t with Leaf => BLACK | Node c _ _ _ => c end.

(** Red nodes have black children, and every way down from the root of the
    tree passes [n] black nodes. *)
Fixpoint rb (n : nat) (t : tree) : Prop :=
  match t with
  | Leaf => n = 0%nat
  | Node c l _ r =>
      (c = RED ∧ tcolor l = BLACK ∧ tcolor r = BLACK ∧ rb n l ∧ rb n r) ∨
      (c = BLACK ∧ ∃ m, n = S m ∧ rb m l ∧ rb m r)
  end.

(** A balanced tree with a black root. *)
Definition red_black (t : tree) : Prop := tcolor t = BLACK ∧ ∃ n, rb n t.

Definition frame_color (f : frame) : N :=
  match f with InLeft c _ _ => c | InRight c _ _ => c end.
Definition frame_tree (f : frame) : tree :=
  match f with InLeft _ _ r => r | InRight _ l _ => l end.
Definition recolor_frame (c : N) (f : frame) : frame :=
  match f with InLeft _ i r => InLeft c i r | InRight _ l i => InRight c l i end.

(** The colour of the parent; that of the root counts as red, so that the
    root has to be black. *)
Definition pcolor (k : path) : N := match k with [] => RED | f :: _ => frame_color f end.

(** The tree around a position is balanced once a tree of black height [n] is
    put there. *)
Fixpoint rb_path (n : nat) (k : path) : Prop :=
  match k with
  | [] => True
  | f :: k' =>
      rb n (frame_tree f) ∧
      ((frame_color f = RED ∧ tcolor (frame_tree f) = BLACK ∧ pcolor k' = BLACK ∧ rb_path n k') ∨
       (frame_color f = BLACK ∧ rb_path (S n) k'))
  end.

Definition compatible (k : path) (t : tree) : Prop := tcolor t = BLACK ∨ pcolor k = BLACK.

Lemma RED_ne_BLACK : RED ≠ BLACK.
Proof. done. Qed.

Lemma rb_plug k : ∀ n t, rb_path n k → rb n t → compatible k t → red_black (plug k t).
Proof.
  induction k as [|f k IH]; intros n t Hk Ht Hc; simpl in *.
  { destruct Hc as [Hc|Hc]; [|done]. split; [done|by exists n]. }
  destruct Hk as (Hf & [(Hcol & Hb & Hp & Hk)|(Hcol & Hk)]).
  - apply (IH n); [done| |by right]. destruct Hc as [Hc|Hc]; [|simpl in Hc; by rewrite Hcol in Hc].
    destruct f; simpl in *; subst; left; by split_and!.
  - apply (IH (S n)); [done| |left; by destruct f].
    destruct f; simpl in *; subst; right; (split; [done|by exists n]).
Qed.

Lemma rb_unplug k : ∀ t, red_black (plug k t) → ∃ n, rb_path n k ∧ rb n t ∧ compatible k t.
Proof.
  induction k as [|f k IH]; intros t Ht; simpl in *.
  { destruct Ht as [Hc [n Hn]]. exists n. split_and!; [done|done|by left]. }
  apply IH in Ht as (n & Hk & Ht & Hc). destruct f as [c i r|c l i]; simpl in *;
    destruct Ht as [(-> & H1 & H2 & H3 & H4)|(-> & m & -> & H1 & H2)];
    unfold compatible in Hc; simpl in Hc.
  all: try (destruct Hc as [Hc|Hc]; [done|]).
  all: eexists; split_and!; [eassumption| |eassumption|]; [auto|first [by left|by right]].
Qed.

(** ** Reading and colouring at a position *)

Lemma top_in_path k x : k ≠ [] → top k x ∈ path_nodes k.
Proof.
  revert x. induction k as [|f k IH]; intros x; [done|]. intros _. simpl.
  destruct (decide (k = [])) as [->|Hne].
  - destruct f; simpl; by left.
  - destruct f; simpl; right; apply elem_of_app; right; by apply IH.
Qed.

Lemma at_pos_root q k t : at_pos q k t → g_sched_rq_root q = top k (ptr t).
Proof. by intros (m & (_ & H & _) & _). Qed.

Lemma at_pos_index_root q k c l i r :
  at_pos q k (Node c l i r) → (i =? g_sched_rq_root q) = bool_decide (k = []).
Proof.
  intros H. rewrite (at_pos_root _ _ _ H). simpl. destruct H as (m & _ & _ & _ & Hn).
  destruct (decide (k = [])) as [->|Hne]; [by rewrite N.eqb_refl|].
  rewrite bool_decide_eq_false_2 by done. apply N.eqb_neq. intros Hi.
  apply NoDup_app in Hn as (_ & Hd & _). apply (Hd i); simpl.
  - apply elem_of_app. right. by left.
  - rewrite Hi. by apply top_in_path.
Qed.

Lemma at_pos_cell q k c l i r :
  at_pos q k (Node c l i r) →
  null i = false ∧ parent_of q i = Some (up k) ∧ left_of q i = Some (ptr l) ∧
  right_of q i = Some (ptr r) ∧ color_of q i = Some c.
Proof.
  intros (m & Hv & (Hi & _) & _). split; [by eapply view_not_null|].
  by apply (view_lookup _ _ _ Hv) in Hi.
Qed.

Lemma at_pos_is_red q k t : at_pos q k t → is_red q (ptr t) = Some (tcolor t =? RED).
Proof.
  intros H. destruct t as [|c l i r]; simpl; [done|]. unfold is_red.
  destruct (at_pos_cell _ _ _ _ _ _ H) as (-> & _ & _ & _ & ->). done.
Qed.

Lemma at_pos_is_black q k t : at_pos q k t → is_black q (ptr t) = Some (tcolor t =? BLACK).
Proof.
  intros H. destruct t as [|c l i r]; simpl; [done|]. unfold is_black.
  destruct (at_pos_cell _ _ _ _ _ _ H) as (-> & _ & _ & _ & ->). done.
Qed.

Lemma at_pos_set_color q k c l i r v :
  at_pos q k (Node c l i r) →
  ∃ q', set_color i v q = Some q' ∧ at_pos q' k (Node v l i r) ∧ same_marks q q'.
Proof.
  intros (m & Hv & (Hi & Hl & Hr) & Hk & Hnd). pose proof Hnd as Hn. split_nodup Hn. simpl in *.
  step. finish_at Hnd.
Qed.

(** ** Proof steps

    Opens a position as cells, for a run of [step]s. *)
Ltac open_at H :=
  let m := fresh "m" in let Hv := fresh "Hv" in let Ht := fresh "Ht" in
  let Hk := fresh "Hk" in let Hnd := fresh "Hnd" in let Hn := fresh "Hn" in
  destruct H as (m & Hv & Ht & Hk & Hnd); pose proof Hnd as Hn; split_nodup Hn;
  simpl in Ht, Hv, Hk; destruct_and? Ht.

(** A rotation, on a position. *)
Ltac rotate_with lem H :=
  let q' := fresh "q" in let H' := fresh "Hat" in let Hs' := fresh "Hsame" in
  destruct (lem _ _ _ _ _ _ _ _ _ H) as (q' & -> & H' & Hs'); cbn [mbind option_bind].

(** The current cells as a position, before a rotation. *)
Ltac pack_next k t Hnd :=
  let e := next_in_goal in
  lazymatch e with
  | scheduler_ready_queue_rotate_left _ ?q => pack_at q k t Hnd
  | scheduler_ready_queue_rotate_right _ ?q => pack_at q k t Hnd
  end.

Definition recolored (t : tree) : tree :=
  match t with Leaf => Leaf | Node _ l i r => Node BLACK l i r end.

Lemma inorder_recolored t : inorder (recolored t) = inorder t.
Proof. by destruct t. Qed.

Lemma rb_recolored n t : tcolor t = RED → rb n t → rb (S n) (recolored t).
Proof.
  destruct t as [|c l i r]; simpl; [done|]. intros -> [(_ & _ & _ & ? & ?)|(? & _)]; [|done].
  right. split; [done|]. by exists n.
Qed.

Lemma recolored_black t : tcolor t = BLACK → recolored t = t.
Proof. destruct t; simpl; congruence. Qed.

Lemma fill_recolored n f t :
  rb n (frame_tree f) → rb n t → rb (S n) (fill (recolor_frame BLACK f) t).
Proof. destruct f; simpl; intros; right; (split; [done|by exists n]). Qed.

Lemma tcolor_cases n t : rb n t → tcolor t = RED ∨ tcolor t = BLACK.
Proof. destruct t; simpl; [by right|]. intros [(-> & _)|(-> & _)]; [by left|by right]. Qed.

(** Decides comparisons of colours. *)
Ltac colors :=
  rewrite ?N.eqb_refl; change (BLACK =? RED) with false; change (RED =? BLACK) with false;
  cbn [mbind option_bind negb andb orb].

(** ** Searches *)

Lemma nodes_lt q k t i : at_pos q k t → i ∈ inorder t ++ path_nodes k → i < 10.
Proof.
  intros H Hi. rewrite <-path_nodes_perm in Hi. apply at_pos_plug in H as (m & Hv & Ht & _).
  apply (view_lt _ _ _ Hv). by eapply holds_in.
Qed.

Lemma length_le_10 (l : list N) : NoDup l → (∀ i, i ∈ l → i < 10) → (length l ≤ 10)%nat.
Proof.
  intros Hn Hl. change 10%nat with (length (N.of_nat <$> seq 0 10)).
  apply submseteq_length, NoDup_submseteq; [done|]. intros i Hi. apply list_elem_of_fmap.
  exists (N.to_nat i). split; [lia|]. apply elem_of_seq. specialize (Hl i Hi). lia.
Qed.

Lemma length_path k : (length k ≤ length (path_nodes k))%nat.
Proof. induction k as [|[] k IH]; simpl; rewrite ?length_app; lia. Qed.

Lemma at_pos_size q k t : at_pos q k t → (length (inorder t) + length k ≤ 10)%nat.
Proof.
  intros H. pose proof (length_path k).
  assert (length (inorder t ++ path_nodes k) ≤ 10)%nat as Hl; [|rewrite length_app in Hl; lia].
  apply length_le_10; [by destruct H as (m & _ & _ & _ & ?)|]. intros i. by apply (nodes_lt q).
Qed.

Section searches.
Context (q : ready_queue) (m : gmap N cell) (root : N) (Hv : view q m root).

Lemma view_ptr_null t p : holds m t p → null (ptr t) = bool_decide (t = Leaf).
Proof.
  destruct t as [|c l i r]; [done|]. intros (Hi & _). simpl. by rewrite (view_not_null _ _ _ Hv _ _ Hi).
Qed.

Lemma leftmost_loop_spec fuel : ∀ t p,
  holds m t p → t ≠ Leaf → (length (inorder t) ≤ fuel)%nat →
  leftmost_loop fuel q (ptr t) = Some (hd UINT32_MAX (inorder t)).
Proof.
  induction fuel as [|fuel IH]; intros [|c l i r] p Ht Hne Hf; try done;
    simpl in Hf; rewrite length_app in Hf; simpl in Hf; [lia|].
  destruct Ht as (Hi & Hl & Hr). simpl.
  destruct (view_lookup _ _ _ Hv _ _ Hi) as (_ & -> & _). cbn.
  rewrite (view_ptr_null _ _ Hl). case_bool_decide as Hleaf; [by subst|].
  rewrite (IH l i) by (done || lia). destruct l as [|cl ll j lr]; [done|]. simpl.
  by destruct (inorder ll).
Qed.

Lemma minimum_loop_spec fuel t p :
  holds m t p → t ≠ Leaf → (length (inorder t) ≤ fuel)%nat →
  minimum_loop fuel q (ptr t) = Some (hd UINT32_MAX (inorder t)).
Proof.
  revert t p. induction fuel as [|fuel IH]; intros t p Ht Hne Hf.
  { destruct t; [done|]. simpl in Hf. rewrite length_app in Hf. simpl in Hf. lia. }
  pose proof (leftmost_loop_spec (S fuel) t p Ht Hne Hf) as Hl. simpl in *.
  rewrite (view_ptr_null _ _ Ht), bool_decide_eq_false_2 by done.
  destruct (left_of q (ptr t)) as [x|] eqn:Hx; [|done]. cbn in *. destruct (null x) eqn:Hnx; [done|].
  destruct t as [|c l i r]; [done|]. destruct Ht as (Hi & Hl' & Hr).
  destruct (view_lookup _ _ _ Hv _ _ Hi) as (_ & E & _). simpl in *. rewrite E in Hx. injection Hx as <-.
  rewrite <-Hl. rewrite (view_ptr_null _ _ Hl') in Hnx. apply bool_decide_eq_false in Hnx.
  rewrite length_app in Hf. simpl in Hf. rewrite (IH l i) by (done || lia).
  symmetry. eapply leftmost_loop_spec; [done..|lia].
Qed.
End searches.

(** A queue that holds [t] with its marks. *)
Definition marks_ok (q : ready_queue) (t : tree) : Prop :=
  ∀ i, i < 10 → ∃ v, on_rq q i = Some v ∧ (v ≠ 0 ↔ i ∈ inorder t).

Definition queue_holds (q : ready_queue) (t : tree) : Prop :=
  holds_tree q t ∧ red_black t ∧ marks_ok q t ∧ g_sched_rq_leftmost q = hd UINT32_MAX (inorder t).

Lemma recompute_leftmost_spec q t :
  holds_tree q t →
  ∃ q', scheduler_ready_queue_recompute_leftmost q = Some q' ∧ holds_tree q' t ∧
    g_sched_on_rq q' = g_sched_on_rq q ∧ g_sched_rq_leftmost q' = hd UINT32_MAX (inorder t).
Proof.
  intros H. pose proof (at_pos_size _ _ _ H) as Hsize. pose proof (at_pos_root _ _ _ H) as Hroot.
  unfold scheduler_ready_queue_recompute_leftmost. simpl in Hroot. rewrite Hroot.
  destruct H as (m & Hv & Ht & Hk & Hn).
  assert (∀ v, view (set_leftmost v q) m (ptr t)) as Hv'.
  { intros v. destruct Hv as (Hs & Hr & Hc). split_and!; by destruct q. }
  rewrite (view_ptr_null _ _ _ Hv _ _ Ht). case_bool_decide as Hl.
  - subst t. eexists. split; [done|]. split; [|by destruct q]. by exists m.
  - rewrite (leftmost_loop_spec _ _ _ Hv _ _ _ Ht Hl) by (unfold RB_FUEL; simpl in *; lia).
    eexists. split; [done|]. split; [|by destruct q]. exists m. split_and!; [apply Hv'|done..].
Qed.

Lemma set_on_rq_spec q m root i v :
  view q m root → i < 10 →
  ∃ q', set_on_rq i v q = Some q' ∧ view q' m root ∧
    g_sched_on_rq q' = <[N.to_nat i := v]> (g_sched_on_rq q) ∧
    g_sched_rq_leftmost q' = g_sched_rq_leftmost q.
Proof.
  intros (Hs & Hr & Hc) Hi. destruct q as [a1 a2 a3 a4 a5 a6 a7].
  pose proof Hs as (H1 & H2 & H3 & H4 & H5). simpl in *. rewrite aset_Some by lia.
  eexists. split; [done|]. split; [|done]. split_and!; [unfold shape; simpl; by rewrite length_insert|done|done].
Qed.

Lemma marks_ok_set q q' t t' i v :
  marks_ok q t → shape q → g_sched_on_rq q' = <[N.to_nat i := v]> (g_sched_on_rq q) →
  (∀ j, j ∈ inorder t' ↔ if decide (j = i) then v ≠ 0 else j ∈ inorder t) → marks_ok q' t'.
Proof.
  intros Hm Hs Ho Hin j Hj. unfold on_rq in *. rewrite Ho. setoid_rewrite Hin.
  destruct (Hm j Hj) as (w & Hw & Hwt). unfold on_rq in Hw.
  destruct (decide (j = i)) as [->|Hne].
  - exists v. by rewrite aget_insert_eq by (destruct Hs as (_ & _ & _ & _ & Hl); lia).
  - exists w. by rewrite aget_insert_ne by done.
Qed.
