(* ===== verification/ReadyQueueInsert.v ===== *)
(** * Insertion into the ready queue

    The insertion code keeps order and balance and stays within the arrays:
    first the rebalancing loop, round by round, then the whole function. *)

From Stdlib Require Import Sorted.
From S2P Require Import Prelude ReadyQueue ReadyQueueTree ReadyQueueBalance.

Local Open Scope N_scope.

(** ** The rebalancing loop *)

(** A red node below a black parent, or at the root, ends the loop. *)
Lemma insert_fix_loop_exit fuel q k l i r :
  at_pos q k (Node RED l i r) → k = [] ∨ pcolor k = BLACK →
  insert_fix_loop (S fuel) i q = Some q.
Proof.
  intros H Hk. simpl. rewrite (at_pos_index_root _ _ _ _ _ _ H).
  destruct k as [|f k]; [by rewrite bool_decide_eq_true_2|].
  destruct Hk as [|Hf]; [done|]. rewrite bool_decide_eq_false_2 by done.
  destruct (at_pos_cell _ _ _ _ _ _ H) as (_ & -> & _). cbn [up mbind option_bind].
  apply at_pos_up in H. destruct f as [c j s|c s j]; simpl in *;
    destruct (at_pos_cell _ _ _ _ _ _ H) as (_ & _ & _ & _ & ->); by rewrite Hf.
Qed.

(** One round of the loop at node [i] below a red parent; the grandparent [g]
    has the parent as its left child and [u] as its right child. *)
Section fix_step.
Context (k : path) (g : N) (u : tree) (l r : tree) (i : N).

(** A red uncle: colours are exchanged and the loop goes on at [g]. *)
Lemma insert_fix_left_red q f :
  frame_color f = RED → tcolor u = RED → at_pos q (f :: InLeft BLACK g u :: k) (Node RED l i r) →
  ∃ q', insert_fix_left i (frame_index f) g q = Some (q', g) ∧
    at_pos q' k (Node RED (fill (recolor_frame BLACK f) (Node RED l i r)) g (recolored u)) ∧
    same_marks q q'.
Proof.
  intros Hf Hu H. rewrite !at_pos_up in H. destruct u as [|cu ul iu ur]; [done|].
  simpl in Hu; subst cu; destruct f as [c p s|c s p]; simpl in Hf; subst c; open_at H;
    unfold insert_fix_left, is_red; cbn [frame_index];
    step; (erewrite view_not_null by eassumption); cbn [mbind option_bind]; step;
    colors; do 3 step; finish_at Hnd.
Qed.

Lemma insert_fix_right_red q f :
  frame_color f = RED → tcolor u = RED → at_pos q (f :: InRight BLACK u g :: k) (Node RED l i r) →
  ∃ q', insert_fix_right i (frame_index f) g q = Some (q', g) ∧
    at_pos q' k (Node RED (recolored u) g (fill (recolor_frame BLACK f) (Node RED l i r))) ∧
    same_marks q q'.
Proof.
  intros Hf Hu H. rewrite !at_pos_up in H. destruct u as [|cu ul iu ur]; [done|].
  simpl in Hu; subst cu; destruct f as [c p s|c s p]; simpl in Hf; subst c; open_at H;
    unfold insert_fix_right, is_red; cbn [frame_index];
    step; (erewrite view_not_null by eassumption); cbn [mbind option_bind]; step;
    colors; do 3 step; finish_at Hnd.
Qed.

(** A black uncle, outer grandchild: one rotation at [g]. *)
Lemma insert_fix_left_outer q p s :
  tcolor u = BLACK → at_pos q (InLeft RED p s :: InLeft BLACK g u :: k) (Node RED l i r) →
  ∃ q', insert_fix_left i p g q = Some (q', i) ∧
    at_pos q' (InLeft BLACK p (Node RED s g u) :: k) (Node RED l i r) ∧ same_marks q q'.
Proof.
  intros Hu H. assert (is_red q (ptr u) = Some false) as Hred.
  { erewrite (at_pos_is_red q (InRight BLACK _ g :: k) u), Hu; [done|].
    rewrite !at_pos_up in *. exact H. }
  rewrite !at_pos_up in H. open_at H. unfold insert_fix_left.
  step. rewrite Hred. cbn [mbind option_bind]. step.
  rewrite ptr_ne by (assumption || (eapply view_not_null; eassumption)).
  cbn [mbind option_bind]. do 2 step.
  pack_next k (Node RED (Node BLACK (Node RED l i r) p s) g u) Hnd.
  rotate_with rotate_right_spec Hat.
  eexists; split; [done|]; split; [by apply at_pos_up|solve_marks].
Qed.

Lemma insert_fix_right_outer q p s :
  tcolor u = BLACK → at_pos q (InRight RED s p :: InRight BLACK u g :: k) (Node RED l i r) →
  ∃ q', insert_fix_right i p g q = Some (q', i) ∧
    at_pos q' (InRight BLACK (Node RED u g s) p :: k) (Node RED l i r) ∧ same_marks q q'.
Proof.
  intros Hu H. assert (is_red q (ptr u) = Some false) as Hred.
  { erewrite (at_pos_is_red q (InLeft BLACK g _ :: k) u), Hu; [done|].
    rewrite !at_pos_up in *. exact H. }
  rewrite !at_pos_up in H. open_at H. unfold insert_fix_right.
  step. rewrite Hred. cbn [mbind option_bind]. step.
  rewrite ptr_ne by (assumption || (eapply view_not_null; eassumption)).
  cbn [mbind option_bind]. do 2 step.
  pack_next k (Node RED u g (Node BLACK s p (Node RED l i r))) Hnd.
  rotate_with rotate_left_spec Hat.
  eexists; split; [done|]; split; [by apply at_pos_up|solve_marks].
Qed.

(** A black uncle, inner grandchild: two rotations. *)
Lemma insert_fix_left_inner q p s :
  tcolor u = BLACK → at_pos q (InRight RED s p :: InLeft BLACK g u :: k) (Node RED l i r) →
  ∃ q', insert_fix_left i p g q = Some (q', p) ∧
    at_pos q' (InLeft BLACK i (Node RED r g u) :: k) (Node RED s p l) ∧ same_marks q q'.
Proof.
  intros Hu H. assert (is_red q (ptr u) = Some false) as Hred.
  { erewrite (at_pos_is_red q (InRight BLACK _ g :: k) u), Hu; [done|].
    rewrite !at_pos_up in *. exact H. }
  unfold insert_fix_left. rewrite !at_pos_up in H. pose proof H as H'. open_at H'.
  step. rewrite Hred. cbn [mbind option_bind]. step. rewrite N.eqb_refl. cbn [mbind option_bind].
  rewrite <-at_pos_up in H. simpl fill in H. clear dependent m.
  rotate_with rotate_left_spec H. rewrite !at_pos_up in Hat. open_at Hat.
  do 4 step.
  pack_next k (Node RED (Node BLACK (Node RED s p l) i r) g u) Hnd.
  rotate_with rotate_right_spec Hat.
  eexists; split; [done|]; split; [by apply at_pos_up|solve_marks].
Qed.

Lemma insert_fix_right_inner q p s :
  tcolor u = BLACK → at_pos q (InLeft RED p s :: InRight BLACK u g :: k) (Node RED l i r) →
  ∃ q', insert_fix_right i p g q = Some (q', p) ∧
    at_pos q' (InRight BLACK (Node RED u g l) i :: k) (Node RED r p s) ∧ same_marks q q'.
Proof.
  intros Hu H. assert (is_red q (ptr u) = Some false) as Hred.
  { erewrite (at_pos_is_red q (InLeft BLACK g _ :: k) u), Hu; [done|].
    rewrite !at_pos_up in *. exact H. }
  unfold insert_fix_right. rewrite !at_pos_up in H. pose proof H as H'. open_at H'.
  step. rewrite Hred. cbn [mbind option_bind]. step. rewrite N.eqb_refl. cbn [mbind option_bind].
  rewrite <-at_pos_up in H. simpl fill in H. clear dependent m.
  rotate_with rotate_right_spec H. rewrite !at_pos_up in Hat. open_at Hat.
  do 4 step.
  pack_next k (Node RED u g (Node BLACK l i (Node RED r p s))) Hnd.
  rotate_with rotate_left_spec Hat.
  eexists; split; [done|]; split; [by apply at_pos_up|solve_marks].
Qed.
End fix_step.

(** What the loop delivers for the tree [t] it was started on. *)
Definition rebalanced (q : ready_queue) (t : tree) (q' : ready_queue) : Prop :=
  ∃ t', holds_tree q' t' ∧ inorder t' = inorder t ∧ red_black (recolored t') ∧ t' ≠ Leaf ∧
    same_marks q q'.

(** The loop's end, with a red node below a black parent. *)
Lemma rebalanced_exit q fuel k n l i r :
  at_pos q k (Node RED l i r) → rb_path n k → rb n (Node RED l i r) → k = [] ∨ pcolor k = BLACK →
  insert_fix_loop (S fuel) i q = Some q ∧ rebalanced q (plug k (Node RED l i r)) q.
Proof.
  intros H Hk Ht Hc. split; [by eapply insert_fix_loop_exit|].
  exists (plug k (Node RED l i r)). split_and!.
  - by apply (proj1 (at_pos_plug _ _ _)).
  - done.
  - destruct Hc as [->|Hc].
    + split; [done|]. exists (S n). by apply (rb_recolored n).
    + pose proof (rb_plug k n _ Hk Ht (or_intror Hc)) as Hrb. by rewrite recolored_black; [|apply Hrb].
  - intros Hl. assert (i ∈ inorder (plug k (Node RED l i r))) as Hi.
    { rewrite path_nodes_perm. simpl. set_solver. }
    rewrite Hl in Hi. by apply not_elem_of_nil in Hi.
  - done.
Qed.

Lemma rebalanced_trans q1 q2 q3 t1 t2 :
  same_marks q1 q2 → inorder t2 = inorder t1 → rebalanced q2 t2 q3 → rebalanced q1 t1 q3.
Proof.
  intros Hs Hi (t' & H1 & H2 & H3 & H4 & H5). exists t'.
  split_and!; [done|congruence|done|done|by etrans].
Qed.

(** The loop with [fuel] rounds, from a red node with a path of fewer steps. *)
Definition loop_ok (fuel : nat) : Prop :=
  ∀ q k n l i r,
    at_pos q k (Node RED l i r) → rb_path n k → rb n (Node RED l i r) → (length k < fuel)%nat →
    ∃ q', insert_fix_loop fuel i q = Some q' ∧ rebalanced q (plug k (Node RED l i r)) q'.

Ltac same_inorder :=
  simpl plug; apply plug_same_inorder; simpl; rewrite ?inorder_recolored;
  by rewrite <-?app_assoc, <-?app_comm_cons, <-?app_assoc, <-?app_comm_cons.

(** The round ends with a red node below a black parent. *)
Ltac end_round lem fuel n H1 :=
  let E := fresh "E" in let Hq' := fresh "Hq" in
  edestruct (rebalanced_exit _ fuel _ n _ _ _ H1) as [E Hq'];
  [simpl in *; naive_solver|simpl in *; naive_solver|by right|];
  eexists; split; [exact E|]; eapply rebalanced_trans; [eassumption| |exact Hq']; same_inorder.

Section round.
Context (fuel : nat) (IH : loop_ok fuel) (q : ready_queue) (k : path) (n : nat).
Context (f : frame) (g : N) (u l r : tree) (i : N).
Context (Hcf : frame_color f = RED) (Hrf : rb n (frame_tree f)) (Hbf : tcolor (frame_tree f) = BLACK).
Context (Hu : rb n u) (Hk : rb_path (S n) k) (Ht : rb n (Node RED l i r)).
Context (Hfuel : (S (length k) < fuel)%nat).

Lemma insert_fix_left_round :
  at_pos q (f :: InLeft BLACK g u :: k) (Node RED l i r) →
  ∃ q', ('(q, index) ← insert_fix_left i (frame_index f) g q; insert_fix_loop fuel index q) = Some q' ∧
    rebalanced q (plug (f :: InLeft BLACK g u :: k) (Node RED l i r)) q'.
Proof.
  intros H. destruct (tcolor_cases _ _ Hu) as [Hcu|Hcu].
  - destruct (insert_fix_left_red k g u l r i q f Hcf Hcu H) as (q1 & -> & H1 & Hs1).
    cbn [mbind option_bind].
    edestruct (IH q1 k (S n)) as (q' & -> & Hq'); [exact H1|done| |lia|].
    + left. split_and!; [done|by destruct f|by destruct u|by apply fill_recolored|by apply rb_recolored].
    + exists q'. split; [done|]. eapply rebalanced_trans; [done| |exact Hq'].
      destruct f; same_inorder.
  - destruct fuel as [|fuel']; [lia|].
    destruct f as [cf p s|cf s p]; simpl in Hcf, Hrf, Hbf; subst cf; simpl frame_index.
    + destruct (insert_fix_left_outer k g u l r i q p s Hcu H) as (q1 & -> & H1 & Hs1).
      cbn [mbind option_bind]. end_round lem fuel' n H1.
    + destruct (insert_fix_left_inner k g u l r i q p s Hcu H) as (q1 & -> & H1 & Hs1).
      cbn [mbind option_bind]. end_round lem fuel' n H1.
Qed.

Lemma insert_fix_right_round :
  at_pos q (f :: InRight BLACK u g :: k) (Node RED l i r) →
  ∃ q', ('(q, index) ← insert_fix_right i (frame_index f) g q; insert_fix_loop fuel index q) = Some q' ∧
    rebalanced q (plug (f :: InRight BLACK u g :: k) (Node RED l i r)) q'.
Proof.
  intros H. destruct (tcolor_cases _ _ Hu) as [Hcu|Hcu].
  - destruct (insert_fix_right_red k g u l r i q f Hcf Hcu H) as (q1 & -> & H1 & Hs1).
    cbn [mbind option_bind].
    edestruct (IH q1 k (S n)) as (q' & -> & Hq'); [exact H1|done| |lia|].
    + left. split_and!; [done|by destruct u|by destruct f|by apply rb_recolored|by apply fill_recolored].
    + exists q'. split; [done|]. eapply rebalanced_trans; [done| |exact Hq'].
      destruct f; same_inorder.
  - destruct fuel as [|fuel']; [lia|].
    destruct f as [cf p s|cf s p]; simpl in Hcf, Hrf, Hbf; subst cf; simpl frame_index.
    + destruct (insert_fix_right_inner k g u l r i q p s Hcu H) as (q1 & -> & H1 & Hs1).
      cbn [mbind option_bind]. end_round lem fuel' n H1.
    + destruct (insert_fix_right_outer k g u l r i q p s Hcu H) as (q1 & -> & H1 & Hs1).
      cbn [mbind option_bind]. end_round lem fuel' n H1.
Qed.
End round.

(** What the loop reads of a red parent and of the grandparent. *)
Lemma insert_fix_loop_reads q f g k l i r :
  at_pos q (f :: g :: k) (Node RED l i r) →
  color_of q (frame_index f) = Some (frame_color f) ∧
  parent_of q (frame_index f) = Some (frame_index g) ∧
  ∃ x, left_of q (frame_index g) = Some x ∧
    (x =? frame_index f) = (if g is InLeft _ _ _ then true else false).
Proof.
  intros H. assert (null (frame_index f) = false ∧ color_of q (frame_index f) = Some (frame_color f) ∧
    parent_of q (frame_index f) = Some (frame_index g)) as (Hnf & Hc & Hp).
  { pose proof H as Hf. apply at_pos_up in Hf.
    destruct f; simpl in *; by destruct (at_pos_cell _ _ _ _ _ _ Hf) as (? & ? & ? & ? & ?). }
  split_and!; [done..|]. pose proof H as Hg. rewrite !at_pos_up in Hg.
  exists (if g is InRight _ u _ then ptr u else frame_index f).
  destruct H as (m & _ & _ & _ & Hn).
  destruct g as [cg j u|cg u j]; split; try apply N.eqb_refl.
  - destruct f; simpl in *; by destruct (at_pos_cell _ _ _ _ _ _ Hg) as (_ & _ & ? & _).
  - destruct f; simpl in *; by destruct (at_pos_cell _ _ _ _ _ _ Hg) as (_ & _ & ? & _).
  - apply ptr_ne; [done|]. destruct f; split_nodup Hn; assumption.
Qed.

Lemma insert_fix_loop_ok fuel : loop_ok fuel.
Proof.
  induction fuel as [|fuel IH]; intros q k n l i r H Hk Ht Hf; [lia|].
  destruct (decide (k = [] ∨ pcolor k = BLACK)) as [Hc|Hc].
  { exists q. by apply (rebalanced_exit q fuel k n). }
  destruct k as [|f [|g k]]; [naive_solver|simpl in Hk; naive_solver|].
  destruct Hk as (Hrf & [(Hcf & Hbf & Hpg & Hrg & Hk)|(Hcf & _)]); [|simpl in Hc; naive_solver].
  simpl in Hpg, Hf. destruct Hk as [(Hx & _)|(_ & Hk)]; [by rewrite Hpg in Hx|].
  cbn [insert_fix_loop]. rewrite (at_pos_index_root _ _ _ _ _ _ H), bool_decide_eq_false_2 by done.
  destruct (at_pos_cell _ _ _ _ _ _ H) as (_ & -> & _). cbn [up mbind option_bind].
  destruct (insert_fix_loop_reads _ _ _ _ _ _ _ H) as (-> & -> & x & Hx & Hxf).
  rewrite Hcf. colors. rewrite Hx. cbn [mbind option_bind]. rewrite Hxf.
  destruct g as [cg g u|cg u g]; simpl in Hpg, Hrg; subst cg; simpl frame_index.
  - apply (insert_fix_left_round fuel IH q k n); auto with lia.
  - apply (insert_fix_right_round fuel IH q k n); auto with lia.
Qed.


(** ** The search for the insertion point, and the whole function *)

Section order.
Context (lt : N → N → bool) (Htrans : ∀ a b c, lt a b = true → lt b c = true → lt a c = true).

(** The queue as an ordered list. *)
Definition ordered (l : list N) : Prop := StronglySorted (λ a b, lt a b = true) l.

Fixpoint ordered_insert (i : N) (l : list N) : list N :=
  match l with
  | [] => [i]
  | j :: l' => if lt i j then i :: l else j :: ordered_insert i l'
  end.

Lemma ordered_insert_split i l1 l2 :
  (∀ x, x ∈ l1 → lt i x = false) → (∀ x, x ∈ l2 → lt i x = true) →
  ordered_insert i (l1 ++ l2) = l1 ++ i :: l2.
Proof.
  intros H1 H2. induction l1 as [|x l1 IH]; simpl.
  - destruct l2 as [|y l2]; [done|]. simpl. by rewrite H2 by by left.
  - rewrite H1 by by left. rewrite IH; [done|]. intros y Hy. apply H1. by right.
Qed.

Lemma ordered_app l1 l2 :
  ordered (l1 ++ l2) ↔ ordered l1 ∧ ordered l2 ∧ ∀ x y, x ∈ l1 → y ∈ l2 → lt x y = true.
Proof.
  unfold ordered. induction l1 as [|a l1 IH]; simpl.
  - split; [|naive_solver]. intros. split_and!; [constructor|done|]. by intros x y ?%elem_of_nil.
  - split.
    + intros H. inversion H as [|? ? Hs Hf]; subst. apply IH in Hs as (Hs1 & Hs2 & Hs3).
      apply Forall_app in Hf as [Hf1 Hf2]. split_and!; [by constructor|done|].
      intros x y Hx Hy; apply elem_of_cons in Hx as [->|Hx]; [|by apply Hs3]. rewrite Forall_forall in Hf2. by apply Hf2.
    + intros (H1 & H2 & H3). inversion H1 as [|? ? Hs Hf]; subst. constructor.
      * apply IH. split_and!; [done|done|]. intros x y Hx Hy. apply H3; [by right|done].
      * apply Forall_app. split; [done|]. apply Forall_forall. intros y Hy. apply H3; [by left|done].
Qed.

Section search.
Context (before : N → N → option bool) (i : N).
Context (q : ready_queue) (m : gmap N cell) (root : N) (Hv : view q m root).

Lemma insert_search_spec fuel : ∀ t k,
  holds m t (up k) → (length (inorder t) < fuel)%nat → ordered (inorder t) →
  (∀ j, j ∈ inorder t → before i j = Some (lt i j)) →
  (∀ x, x ∈ before_path k → lt i x = false) → (∀ x, x ∈ after_path k → lt i x = true) →
  ∃ k', insert_search before fuel q i (up k) (ptr t) = Some (up k') ∧ plug k' Leaf = plug k t ∧
    (∀ x, x ∈ before_path k' → lt i x = false) ∧ (∀ x, x ∈ after_path k' → lt i x = true).
Proof.
  induction fuel as [|fuel IH]; intros t k Ht Hf Ho Hb H1 H2; [lia|]. simpl.
  rewrite (view_ptr_null _ _ _ Hv _ _ Ht). case_bool_decide as Hl.
  { subst t. by exists k. }
  destruct t as [|c l j r]; [done|]. simpl in Ht, Hf, Ho, Hb.
  rewrite length_app in Hf. simpl in Hf. destruct Ht as (Hj & Hl' & Hr).
  apply ordered_app in Ho as (Hol & Hor & Hlr). inversion Hor as [|? ? Hor' Hjr]; subst.
  rewrite Forall_forall in Hjr. simpl. rewrite Hb by set_solver. cbn [mbind option_bind].
  destruct (view_lookup _ _ _ Hv _ _ Hj) as (_ & El & Er & _). simpl in El, Er.
  destruct (lt i j) eqn:Hij.
  - rewrite El. cbn [mbind option_bind].
    destruct (IH l (InLeft c j r :: k)) as (k' & E & Hp & Hk1 & Hk2); simpl; try done.
    + lia.
    + intros x Hx. apply Hb. set_solver.
    + intros x. rewrite elem_of_cons, elem_of_app. intros [->|[Hx|Hx]]; [done| |by apply H2].
      by apply (Htrans _ j), Hjr.
    + by exists k'.
  - rewrite Er. cbn [mbind option_bind].
    destruct (IH r (InRight c l j :: k)) as (k' & E & Hp & Hk1 & Hk2); simpl; try done.
    + lia.
    + intros x Hx. apply Hb. set_solver.
    + intros x. rewrite !elem_of_app, list_elem_of_singleton. intros [Hx|[Hx| ->]]; [by apply H1| |done].
      destruct (lt i x) eqn:Hix; [|done]. rewrite <-Hij. symmetry. apply (Htrans _ x); [done|].
      apply Hlr; [done|by left].
    + by exists k'.
Qed.
End search.

(** Linking the new node, as the code does after the search. *)
Lemma insert_link q m root k i before :
  view q m root → holds_path m k UINT32_MAX → i ∉ path_nodes k →
  (∀ j, j ∈ path_nodes k → before i j = Some (lt i j)) →
  (∀ x, x ∈ before_path k → lt i x = false) → (∀ x, x ∈ after_path k → lt i x = true) →
  ∃ q', (if null (up k) then Some (set_root i q)
         else b ← before i (up k); if b : bool then set_left (up k) i q else set_right (up k) i q)
        = Some q' ∧ view q' (relink k i m) (root_after k i root) ∧ same_marks q q'.
Proof.
  intros Hv Hk Hi Hb H1 H2. destruct k as [|[c j r|c l j] k]; simpl in *.
  - eexists. split; [done|]. by eapply set_root_spec.
  - destruct Hk as (Hj & _). rewrite (view_not_null _ _ _ Hv _ _ Hj), Hb, H2 by by left.
    cbn [mbind option_bind]. by eapply set_left_spec in Hj.
  - destruct Hk as (Hj & _). rewrite (view_not_null _ _ _ Hv _ _ Hj), Hb by by left.
    rewrite H1 by (apply elem_of_app; right; apply elem_of_app; right; by left).
    cbn [mbind option_bind]. by eapply set_right_spec in Hj.
Qed.
(** Links and colour of the new node, before rebalancing. *)
Lemma insert_node_spec q t i before :
  holds_tree q t → i < 10 → i ∉ inorder t → ordered (inorder t) →
  (∀ j, j ∈ inorder t → before i j = Some (lt i j)) →
  ∃ q' k, insert_node before i q = Some q' ∧ at_pos q' k (Node RED Leaf i Leaf) ∧ plug k Leaf = t ∧
    ordered_insert i (inorder t) = before_path k ++ i :: after_path k ∧
    g_sched_on_rq q' = <[N.to_nat i := 1]> (g_sched_on_rq q).
Proof.
  intros H Hi Hnew Ho Hb. unfold insert_node. pose proof (at_pos_size _ _ _ H) as Hsize.
  destruct H as (m & Hv & Ht & _ & Hnd). simpl in Hv, Ht, Hnd. rewrite app_nil_r in Hnd.
  destruct (proj2 (view_lt _ _ _ Hv i) Hi) as [[p0 l0 r0 c0] Hc].
  assert (g_sched_rq_root q = ptr t) as -> by apply Hv.
  step. step.
  match goal with Hv : view ?q ?m _ |- context [insert_search _ _ ?q] =>
    set (m2 := m) in *; rename q into q2; rename Hv into Hv2 end.
  assert (holds m2 t (up [])) as Ht2 by (unfold m2; by rewrite !holds_insert).
  destruct (insert_search_spec before i q2 m2 _ Hv2 RB_FUEL t [] Ht2) as (k & E & Hk & H1 & H2);
    [unfold RB_FUEL; simpl in *; lia|done|done|by intros x ?%elem_of_nil|by intros x ?%elem_of_nil|].
  simpl in Hk. change (up []) with UINT32_MAX in E. rewrite E. cbn [mbind option_bind].
  assert (i ∉ path_nodes k) as Hik.
  { intros Hin. apply Hnew. rewrite <-Hk, path_nodes_perm. by simpl. }
  assert (holds_path m2 k UINT32_MAX) as Hp2 by (rewrite <-Hk in Ht2; by apply holds_plug_path in Ht2 as [_ ?]).
  assert (NoDup (path_nodes k)) as Hndk by (rewrite <-Hk, path_nodes_perm in Hnd; by simpl in Hnd).
  assert (m2 !! i = Some (Cell p0 UINT32_MAX UINT32_MAX c0)) as Hc2 by (unfold m2; find_cell).
  clearbody m2. do 2 step.
  match goal with Hv : view ?q ?m _ |- context [set_on_rq i 1 ?q] =>
    destruct (set_on_rq_spec _ _ _ i 1 Hv Hi) as (q5 & -> & Hv5 & Ho5 & _) end. cbn [mbind option_bind].
  edestruct (insert_link q5 _ _ k i before Hv5) as (q6 & -> & Hv6 & Hs6);
    [by rewrite !holds_path_insert|done| |done|done|].
  { intros j Hj. apply Hb. rewrite <-Hk, path_nodes_perm. by simpl. }
  exists q6, k. split_and!; [done| |done| |].
  - exists (relink k i (<[i:=Cell (up k) UINT32_MAX UINT32_MAX RED]>
      (<[i:=Cell (up k) UINT32_MAX UINT32_MAX c0]> m2))). split_and!.
    + assert (root_after k i (ptr t) = top k (ptr (Node RED Leaf i Leaf))) as <-; [|done].
      rewrite <-Hk, ptr_plug. by rewrite root_after_top.
    + simpl. rewrite lookup_relink by done. by rewrite lookup_insert_eq.
    + apply (holds_path_relink _ _ UINT32_MAX); [done|]. by rewrite !holds_path_insert.
    + simpl. by apply NoDup_cons.
  - rewrite <-Hk, inorder_plug. simpl. by apply ordered_insert_split.
  - destruct Hs6 as [-> _]. rewrite Ho5.
    match goal with |- <[_:=_]> (g_sched_on_rq ?a) = <[_:=_]> (g_sched_on_rq ?b) =>
      assert (same_marks b a) as [-> _] by solve_marks end. done.
Qed.

Lemma insert_absent q t i before :
  queue_holds q t → i < 10 → i ∉ inorder t → ordered (inorder t) →
  (∀ j, j ∈ inorder t → before i j = Some (lt i j)) →
  ∃ q' t', scheduler_ready_queue_insert before i q = Some q' ∧ queue_holds q' t' ∧
    inorder t' = ordered_insert i (inorder t).
Proof.
  intros (H & Hrb & Hm & Hlm) Hi Hnew Ho Hb.
  destruct (insert_node_spec q t i before H Hi Hnew Ho Hb) as (q1 & k & E & H1 & Hk & Hins & Ho1).
  unfold scheduler_ready_queue_insert. destruct (Hm i Hi) as (v & Hon & Hv). rewrite Hon.
  cbn [mbind option_bind]. assert (nz v = false) as -> by (apply nz_false; destruct (decide (v = 0)); tauto).
  rewrite E. cbn [mbind option_bind]. rewrite <-Hk in Hrb.
  destruct (rb_unplug _ _ Hrb) as (n & Hrk & -> & _).
  destruct (insert_fix_loop_ok RB_FUEL q1 k 0%nat Leaf i Leaf H1 Hrk) as
    (q2 & -> & t2 & H2 & Hin2 & Hrb2 & Hne2 & Hs2); [by left| |].
  { pose proof (at_pos_size _ _ _ H1). unfold RB_FUEL. lia. }
  cbn [mbind option_bind]. destruct t2 as [|c2 l2 i2 r2]; [done|].
  rewrite (at_pos_root _ _ _ H2). simpl top.
  destruct (at_pos_set_color _ _ _ _ _ _ BLACK H2) as (q3 & -> & H3 & Hs3). cbn [mbind option_bind].
  destruct (recompute_leftmost_spec _ _ H3) as (q4 & -> & H4 & Ho4 & Hl4).
  assert (inorder (Node BLACK l2 i2 r2) = ordered_insert i (inorder t)) as Hin.
  { rewrite Hins. change (inorder (Node c2 l2 i2 r2) = before_path k ++ [i] ++ after_path k).
    by rewrite Hin2, inorder_plug. }
  exists q4, (Node BLACK l2 i2 r2). split_and!; [done| |done]. split_and!; [done|done| |done].
  eapply (marks_ok_set q q4 t _ i 1); [done|by destruct H as (? & [? _] & _)| |].
  - rewrite Ho4, (proj1 Hs3), (proj1 Hs2). exact Ho1.
  - intros j. rewrite Hin, Hins, elem_of_app, elem_of_cons, <-Hk, inorder_plug. simpl.
    case_decide as Hji; [|rewrite elem_of_app; naive_solver]. subst j. split; [done|].
    intros _. right. by left.
Qed.

Lemma insert_present q t i before :
  queue_holds q t → i ∈ inorder t → scheduler_ready_queue_insert before i q = Some q.
Proof.
  intros (H & _ & Hm & _) Hi. assert (i < 10) as Hlt.
  { apply (nodes_lt _ _ _ _ H). by rewrite app_nil_r. }
  destruct (Hm i Hlt) as (v & Hon & Hv). unfold scheduler_ready_queue_insert. rewrite Hon.
  cbn [mbind option_bind]. by rewrite (proj2 (nz_true v)) by tauto.
Qed.
End order.
