(* ===== verification/ReadyQueueRemove.v ===== *)
(** * Removal from the ready queue

    The removal code keeps order and balance and stays within the arrays:
    first the rebalancing loop after a black node has left the tree, then the
    unlinking of the node. *)

From S2P Require Import Prelude ReadyQueue ReadyQueueTree ReadyQueueBalance.

Local Open Scope N_scope.

(** ** The rebalancing loop

    The tree [t] at the end of [k] has one black level too few; if its root is
    red, colouring it black restores the balance. *)
Definition deficient (n : nat) (k : path) (t : tree) : Prop :=
  rb_path (S n) k ∧
  ((tcolor t = BLACK ∧ rb n t) ∨ (tcolor t = RED ∧ rb (S n) (recolored t))).

(** Where the loop may stop. *)
Definition settled (q : ready_queue) (l : list N) (q' : ready_queue) (index : N) : Prop :=
  ∃ k t, at_pos q' k t ∧ index = ptr t ∧ red_black (plug k (recolored t)) ∧
    inorder (plug k t) = l ∧ same_marks q q'.

Lemma tcolor_recolored t : tcolor (recolored t) = BLACK.
Proof. by destruct t. Qed.

Lemma deficient_recolored n k t :
  deficient n k t → k = [] ∨ tcolor t = RED → red_black (plug k (recolored t)).
Proof.
  intros [Hk [[Hc Ht]|[Hc Ht]]] [->|Hstop].
  - simpl. rewrite recolored_black by done. split; [done|by exists n].
  - rewrite Hc in Hstop. done.
  - split; [apply tcolor_recolored|by exists (S n)].
  - apply (rb_plug k (S n)); [done|done|]. left. apply tcolor_recolored.
Qed.

Lemma remove_fix_loop_exit fuel q k t :
  at_pos q k t → k = [] ∨ tcolor t = RED →
  remove_fix_loop (S fuel) (ptr t) (up k) q = Some (q, ptr t).
Proof.
  intros H Hc. cbn [remove_fix_loop]. rewrite (at_pos_root _ _ _ H).
  destruct Hc as [->|Hc]; [by rewrite N.eqb_refl|]. rewrite (at_pos_is_black _ _ _ H), Hc.
  cbn. by destruct (_ =? _).
Qed.

(** The position of the parent's other child. *)
Lemma at_pos_right q k c t j s :
  at_pos q (InLeft c j s :: k) t → at_pos q (InRight c t j :: k) s.
Proof. by rewrite !at_pos_up. Qed.
Lemma at_pos_left q k c t j s :
  at_pos q (InRight c s j :: k) t → at_pos q (InLeft c j t :: k) s.
Proof. by rewrite !at_pos_up. Qed.

(** Finishes with the position in [H], seen from another node. *)
Ltac finish_moved H :=
  eexists; split; [done|]; split; [eapply at_pos_move; [|exact H]; done|solve_marks].

(** A red sibling is rotated above the parent. *)
Lemma remove_left_sibling_red q k j t a si b :
  at_pos q (InLeft BLACK j (Node RED a si b) :: k) t →
  ∃ q', remove_left_sibling j q = Some (q', ptr a) ∧
    at_pos q' (InLeft RED j a :: InLeft BLACK si b :: k) t ∧ same_marks q q'.
Proof.
  intros H. assert (is_red q si = Some true) as Hred by by apply at_pos_right, at_pos_is_red in H.
  rewrite at_pos_up in H. open_at H. unfold remove_left_sibling.
  step. rewrite Hred. cbn [mbind option_bind]. do 2 step.
  pack_next k (Node RED t j (Node BLACK a si b)) Hnd. rotate_with rotate_left_spec Hat.
  pose proof Hat0 as H'. open_at H'. step. finish_moved Hat0.
Qed.

Lemma remove_right_sibling_red q k j t a si b :
  at_pos q (InRight BLACK (Node RED a si b) j :: k) t →
  ∃ q', remove_right_sibling j q = Some (q', ptr b) ∧
    at_pos q' (InRight RED b j :: InRight BLACK a si :: k) t ∧ same_marks q q'.
Proof.
  intros H. assert (is_red q si = Some true) as Hred by by apply at_pos_left, at_pos_is_red in H.
  rewrite at_pos_up in H. open_at H. unfold remove_right_sibling.
  step. rewrite Hred. cbn [mbind option_bind]. do 2 step.
  pack_next k (Node RED (Node BLACK a si b) j t) Hnd. rotate_with rotate_right_spec Hat.
  pose proof Hat0 as H'. open_at H'. step. finish_moved Hat0.
Qed.

Lemma remove_left_sibling_black q k c j t s :
  at_pos q (InLeft c j s :: k) t → tcolor s = BLACK →
  remove_left_sibling j q = Some (q, ptr s).
Proof.
  intros H Hs. unfold remove_left_sibling. apply at_pos_right in H as Hr.
  apply at_pos_is_red in Hr. rewrite at_pos_up in H.
  destruct (at_pos_cell _ _ _ _ _ _ H) as (_ & _ & _ & -> & _). cbn. by rewrite Hr, Hs.
Qed.

Lemma remove_right_sibling_black q k c j t s :
  at_pos q (InRight c s j :: k) t → tcolor s = BLACK →
  remove_right_sibling j q = Some (q, ptr s).
Proof.
  intros H Hs. unfold remove_right_sibling. apply at_pos_left in H as Hr.
  apply at_pos_is_red in Hr. rewrite at_pos_up in H.
  destruct (at_pos_cell _ _ _ _ _ _ H) as (_ & _ & -> & _ & _). cbn. by rewrite Hr, Hs.
Qed.

Lemma black_children_spec q k c a si b :
  at_pos q k (Node c a si b) →
  black_children q si = Some ((tcolor a =? BLACK) && (tcolor b =? BLACK))%bool ∧
  is_black q (ptr a) = Some (tcolor a =? BLACK) ∧ is_black q (ptr b) = Some (tcolor b =? BLACK).
Proof.
  intros H. assert (is_black q (ptr a) = Some (tcolor a =? BLACK)) as Ha.
  { apply (at_pos_is_black _ (InLeft c si b :: k)). by apply at_pos_up. }
  assert (is_black q (ptr b) = Some (tcolor b =? BLACK)) as Hb.
  { apply (at_pos_is_black _ (InRight c a si :: k)). by apply at_pos_up. }
  split_and!; [|done..]. unfold black_children.
  destruct (at_pos_cell _ _ _ _ _ _ H) as (-> & _ & -> & -> & _). cbn. rewrite Ha. cbn.
  by destruct (tcolor a =? BLACK).
Qed.

(** The sibling is black with black children: it becomes red. *)
Lemma remove_left_finish_both q k c j t a si b :
  at_pos q (InLeft c j (Node BLACK a si b) :: k) t → tcolor a = BLACK → tcolor b = BLACK →
  ∃ q', remove_left_finish j si q = Some (q', j, up k, false) ∧
    at_pos q' k (Node c t j (Node RED a si b)) ∧ same_marks q q'.
Proof.
  intros H Ha Hb. destruct (black_children_spec _ _ _ _ _ _ (at_pos_right _ _ _ _ _ _ H)) as (E & _).
  rewrite at_pos_up in H. open_at H. unfold remove_left_finish. rewrite E, Ha, Hb. colors.
  do 2 step. finish_at Hnd.
Qed.

Lemma remove_right_finish_both q k c j t a si b :
  at_pos q (InRight c (Node BLACK a si b) j :: k) t → tcolor a = BLACK → tcolor b = BLACK →
  ∃ q', remove_right_finish j si q = Some (q', j, up k, false) ∧
    at_pos q' k (Node c (Node RED a si b) j t) ∧ same_marks q q'.
Proof.
  intros H Ha Hb. destruct (black_children_spec _ _ _ _ _ _ (at_pos_left _ _ _ _ _ _ H)) as (E & _).
  rewrite at_pos_up in H. open_at H. unfold remove_right_finish. rewrite E, Ha, Hb. colors.
  do 2 step. finish_at Hnd.
Qed.

(** Its outer child is red: one rotation, and the loop ends. *)
Lemma remove_left_finish_outer q k c j t a si b1 bi b2 :
  at_pos q (InLeft c j (Node BLACK a si (Node RED b1 bi b2)) :: k) t →
  ∃ q', remove_left_finish j si q = Some (q', g_sched_rq_root q', j, true) ∧
    at_pos q' k (Node c (Node BLACK t j a) si (Node BLACK b1 bi b2)) ∧ same_marks q q'.
Proof.
  intros H. destruct (black_children_spec _ _ _ _ _ _ (at_pos_right _ _ _ _ _ _ H)) as (E & _ & Eb).
  rewrite at_pos_up in H. open_at H. unfold remove_left_finish. rewrite E. cbn [tcolor]. colors.
  rewrite andb_false_r. step. cbn [ptr] in Eb. rewrite Eb. cbn [tcolor]. colors.
  do 5 step.
  pack_next k (Node BLACK t j (Node c a si (Node BLACK b1 bi b2))) Hnd.
  rotate_with rotate_left_spec Hat. finish_moved Hat0.
Qed.

Lemma remove_right_finish_outer q k c j t a1 ai a2 si b :
  at_pos q (InRight c (Node BLACK (Node RED a1 ai a2) si b) j :: k) t →
  ∃ q', remove_right_finish j si q = Some (q', g_sched_rq_root q', j, true) ∧
    at_pos q' k (Node c (Node BLACK a1 ai a2) si (Node BLACK b j t)) ∧ same_marks q q'.
Proof.
  intros H. destruct (black_children_spec _ _ _ _ _ _ (at_pos_left _ _ _ _ _ _ H)) as (E & Ea & _).
  rewrite at_pos_up in H. open_at H. unfold remove_right_finish. rewrite E. cbn [tcolor]. colors.
  step. cbn [ptr] in Ea. rewrite Ea. cbn [tcolor]. colors.
  do 5 step.
  pack_next k (Node BLACK (Node c (Node BLACK a1 ai a2) si b) j t) Hnd.
  rotate_with rotate_right_spec Hat. finish_moved Hat0.
Qed.

(** Only its inner child is red: two rotations, and the loop ends. *)
Lemma remove_left_finish_inner q k c j t a1 ai a2 si b :
  at_pos q (InLeft c j (Node BLACK (Node RED a1 ai a2) si b) :: k) t → tcolor b = BLACK →
  ∃ q', remove_left_finish j si q = Some (q', g_sched_rq_root q', j, true) ∧
    at_pos q' k (Node c (Node BLACK t j a1) ai (Node BLACK a2 si b)) ∧ same_marks q q'.
Proof.
  intros H Hb. destruct (black_children_spec _ _ _ _ _ _ (at_pos_right _ _ _ _ _ _ H)) as (E & _ & Eb).
  rewrite at_pos_up in H. open_at H. unfold remove_left_finish. rewrite E, Hb. cbn [tcolor]. colors.
  step. rewrite Eb, Hb. colors. do 3 step.
  pack_next k (Node c t j (Node RED (Node BLACK a1 ai a2) si b)) Hnd.
  apply (at_pos_move _ _ _ (InRight c t j :: k) (Node RED (Node BLACK a1 ai a2) si b)) in Hat; [|done].
  rotate_with rotate_right_spec Hat. rewrite at_pos_up in Hat0. clear dependent m. open_at Hat0.
  do 6 step.
  pack_next k (Node BLACK t j (Node c a1 ai (Node BLACK a2 si b))) Hnd.
  rotate_with rotate_left_spec Hat0. finish_moved Hat1.
Qed.

Lemma remove_right_finish_inner q k c j t a si b1 bi b2 :
  at_pos q (InRight c (Node BLACK a si (Node RED b1 bi b2)) j :: k) t → tcolor a = BLACK →
  ∃ q', remove_right_finish j si q = Some (q', g_sched_rq_root q', j, true) ∧
    at_pos q' k (Node c (Node BLACK a si b1) bi (Node BLACK b2 j t)) ∧ same_marks q q'.
Proof.
  intros H Ha. destruct (black_children_spec _ _ _ _ _ _ (at_pos_left _ _ _ _ _ _ H)) as (E & Ea & _).
  rewrite at_pos_up in H. open_at H. unfold remove_right_finish. rewrite E, Ha. cbn [tcolor]. colors.
  step. rewrite Ea, Ha. colors. do 3 step.
  pack_next k (Node c (Node RED a si (Node BLACK b1 bi b2)) j t) Hnd.
  apply (at_pos_move _ _ _ (InLeft c j t :: k) (Node RED a si (Node BLACK b1 bi b2))) in Hat; [|done].
  rotate_with rotate_left_spec Hat. rewrite at_pos_up in Hat0. clear dependent m. open_at Hat0.
  do 6 step.
  pack_next k (Node BLACK (Node c (Node BLACK a si b1) bi b2) j t) Hnd.
  rotate_with rotate_right_spec Hat0. finish_moved Hat1.
Qed.

(** What the second part of a round gives: the loop has ended in a balanced
    tree, or goes on at a shorter path. *)
Definition round_result (q : ready_queue) (c : N) (k : path) (l : list N)
    (res : option (ready_queue * N * N * bool)) : Prop :=
  (∃ q' j, res = Some (q', g_sched_rq_root q', j, true) ∧ settled q l q' (g_sched_rq_root q')) ∨
  (∃ q' t n, res = Some (q', ptr t, up k, false) ∧ at_pos q' k t ∧ deficient n k t ∧
     tcolor t = c ∧ inorder (plug k t) = l ∧ same_marks q q').

(** A balanced subtree that ends the loop. *)
Lemma settled_balanced q q' n k t l :
  at_pos q' k t → rb_path n k → rb n t → compatible k t → inorder (plug k t) = l → same_marks q q' →
  settled q l q' (g_sched_rq_root q').
Proof.
  intros H Hk Ht Hc Hl Hs. exists [], (plug k t).
  pose proof (rb_plug _ _ _ Hk Ht Hc) as Hrb.
  split_and!; [by apply (proj1 (at_pos_plug _ _ _))| | |done|done].
  - rewrite (at_pos_root _ _ _ H). by rewrite ptr_plug.
  - simpl. rewrite recolored_black; [done|apply Hrb].
Qed.

Ltac same_list :=
  simpl plug; rewrite ?inorder_plug; simpl; by rewrite <-?app_assoc, <-?app_comm_cons, <-?app_assoc, <-?app_comm_cons, <-?app_assoc.

(** The balance of a round: the subtree before it has parent colour [c]. *)
Lemma frame_cases n f k :
  rb_path (S n) (f :: k) →
  rb (S n) (frame_tree f) ∧
  ((frame_color f = RED ∧ tcolor (frame_tree f) = BLACK ∧ pcolor k = BLACK ∧ rb_path (S n) k) ∨
   (frame_color f = BLACK ∧ rb_path (S (S n)) k)).
Proof. done. Qed.

Lemma black_sibling n s :
  rb (S n) s → tcolor s = BLACK → ∃ a si b, s = Node BLACK a si b ∧ rb n a ∧ rb n b.
Proof.
  destruct s as [|c a si b]; simpl; [done|]. intros [(-> & _)|(-> & m & [= <-] & Ha & Hb)] Hc; [done|].
  by exists a, si, b.
Qed.

Lemma red_sibling n s :
  rb (S n) s → tcolor s = RED →
  ∃ a si b, s = Node RED a si b ∧ rb (S n) a ∧ rb (S n) b ∧ tcolor a = BLACK ∧ tcolor b = BLACK.
Proof.
  destruct s as [|c a si b]; simpl; [done|]. intros [(-> & ? & ? & ? & ?)|(-> & _)] Hc; [|done].
  by exists a, si, b.
Qed.

Lemma red_tree n t : rb n t → tcolor t = RED →
  ∃ l i r, t = Node RED l i r ∧ rb n l ∧ rb n r ∧ tcolor l = BLACK ∧ tcolor r = BLACK.
Proof.
  destruct t as [|c l i r]; simpl; [done|]. intros [(-> & ? & ? & ? & ?)|(-> & _)] Hc; [|done].
  by exists l, i, r.
Qed.

Section remove_round.
Context (q : ready_queue) (n : nat) (k : path) (c j : N) (t s : tree).
Context (Hs : rb (S n) s) (Hcs : tcolor s = BLACK) (Ht : rb n t) (Hct : tcolor t = BLACK).
Context (Hk : (c = RED ∧ pcolor k = BLACK ∧ rb_path (S n) k) ∨ (c = BLACK ∧ rb_path (S (S n)) k)).

(** Any of the rotated trees is balanced in place. *)
Lemma rotated_balanced l i r :
  rb (S n) l → rb (S n) r → tcolor l = BLACK → tcolor r = BLACK →
  ∃ m, rb_path m k ∧ rb m (Node c l i r) ∧ compatible k (Node c l i r).
Proof.
  intros Hl Hr Hcl Hcr. destruct Hk as [(-> & Hp & Hk')|(-> & Hk')].
  - exists (S n). split_and!; [done|by left|by right].
  - exists (S (S n)). split_and!; [done|right; split; [done|by exists (S n)]|by left].
Qed.

(** A subtree of black height [S n] in place of one of [S (S n)]. *)
Lemma level_deficient l i r :
  rb (S n) (Node BLACK l i r) → ∃ m, deficient m k (Node c l i r).
Proof.
  intros Hb. destruct Hk as [(-> & Hp & Hk')|(-> & Hk')].
  - exists n. split; [done|]. by right.
  - exists (S n). split; [done|]. by left.
Qed.

Lemma remove_left_finish_ok :
  at_pos q (InLeft c j s :: k) t →
  round_result q c k (inorder (plug (InLeft c j s :: k) t)) (remove_left_finish j (ptr s) q).
Proof.
  intros H. destruct (black_sibling _ _ Hs Hcs) as (a & si & b & -> & Ha & Hb).
  destruct (tcolor_cases _ _ Hb) as [Hcb|Hcb]; [|destruct (tcolor_cases _ _ Ha) as [Hca|Hca]].
  - destruct (red_tree _ _ Hb Hcb) as (b1 & bi & b2 & -> & Hb1 & Hb2 & _ & _).
    destruct (remove_left_finish_outer _ _ _ _ _ _ _ _ _ _ H) as (q' & E & H' & Hm).
    left. exists q', j. split; [exact E|].
    destruct (rotated_balanced (Node BLACK t j a) si (Node BLACK b1 bi b2)) as (m & ? & ? & ?);
      [right; split; [done|by exists n]|right; split; [done|by exists n]|done|done|].
    eapply settled_balanced; [done..| |done]. same_list.
  - destruct (red_tree _ _ Ha Hca) as (a1 & ai & a2 & -> & Ha1 & Ha2 & _ & _).
    destruct (remove_left_finish_inner _ _ _ _ _ _ _ _ _ _ H Hcb) as (q' & E & H' & Hm).
    left. exists q', j. split; [exact E|].
    destruct (rotated_balanced (Node BLACK t j a1) ai (Node BLACK a2 si b)) as (m & ? & ? & ?);
      [right; split; [done|by exists n]|right; split; [done|by exists n]|done|done|].
    eapply settled_balanced; [done..| |done]. same_list.
  - destruct (remove_left_finish_both _ _ _ _ _ _ _ _ H Hca Hcb) as (q' & E & H' & Hm).
    right. destruct (level_deficient t j (Node RED a si b)) as [m Hd].
    { right. split; [done|]. exists n. split_and!; [done|done|by left]. }
    exists q', (Node c t j (Node RED a si b)), m. split_and!; [exact E|done|done|done|same_list|done].
Qed.

Lemma remove_right_finish_ok :
  at_pos q (InRight c s j :: k) t →
  round_result q c k (inorder (plug (InRight c s j :: k) t)) (remove_right_finish j (ptr s) q).
Proof.
  intros H. destruct (black_sibling _ _ Hs Hcs) as (a & si & b & -> & Ha & Hb).
  destruct (tcolor_cases _ _ Ha) as [Hca|Hca]; [|destruct (tcolor_cases _ _ Hb) as [Hcb|Hcb]].
  - destruct (red_tree _ _ Ha Hca) as (a1 & ai & a2 & -> & Ha1 & Ha2 & _ & _).
    destruct (remove_right_finish_outer _ _ _ _ _ _ _ _ _ _ H) as (q' & E & H' & Hm).
    left. exists q', j. split; [exact E|].
    destruct (rotated_balanced (Node BLACK a1 ai a2) si (Node BLACK b j t)) as (m & ? & ? & ?);
      [right; split; [done|by exists n]|right; split; [done|by exists n]|done|done|].
    eapply settled_balanced; [done..| |done]. same_list.
  - destruct (red_tree _ _ Hb Hcb) as (b1 & bi & b2 & -> & Hb1 & Hb2 & _ & _).
    destruct (remove_right_finish_inner _ _ _ _ _ _ _ _ _ _ H Hca) as (q' & E & H' & Hm).
    left. exists q', j. split; [exact E|].
    destruct (rotated_balanced (Node BLACK a si b1) bi (Node BLACK b2 j t)) as (m & ? & ? & ?);
      [right; split; [done|by exists n]|right; split; [done|by exists n]|done|done|].
    eapply settled_balanced; [done..| |done]. same_list.
  - destruct (remove_right_finish_both _ _ _ _ _ _ _ _ H Hca Hcb) as (q' & E & H' & Hm).
    right. destruct (level_deficient (Node RED a si b) j t) as [m Hd].
    { right. split; [done|]. exists n. split_and!; [done|by left|done]. }
    exists q', (Node c (Node RED a si b) j t), m. split_and!; [exact E|done|done|done|same_list|done].
Qed.
End remove_round.

Lemma settled_trans q q1 q2 l i : same_marks q q1 → settled q1 l q2 i → settled q l q2 i.
Proof.
  intros Hs (k & t & H1 & H2 & H3 & H4 & H5). exists k, t. split_and!; [done..|by etrans].
Qed.

(** One round at a black, deficient subtree, with the rest of the loop. *)
Section remove_loop.
Context (fuel : nat).
Context (IH : ∀ q k n t, at_pos q k t → deficient n k t → (length k < S fuel)%nat →
  ∃ q' i, remove_fix_loop (S fuel) (ptr t) (up k) q = Some (q', i) ∧
    settled q (inorder (plug k t)) q' i).

(** The rest of the loop after a round. *)
Definition loop_rest (res : option (ready_queue * N * N * bool)) : option (ready_queue * N) :=
  '(q, index, parent, broke) ← res;
  if broke : bool then Some (q, index) else remove_fix_loop (S fuel) index parent q.

Lemma loop_rest_ok q q0 c k l res :
  same_marks q0 q → round_result q c k l res → (length k < S fuel)%nat ∨ c = RED →
  ∃ q' i, loop_rest res = Some (q', i) ∧ settled q0 l q' i.
Proof.
  intros Hm [(q1 & j & -> & Hset)|(q1 & t & n & -> & H1 & Hd & Hc & <- & Hm1)] Hf.
  - eexists _, _. split; [done|]. by eapply settled_trans.
  - destruct (decide (tcolor t = RED)) as [Hred|Hred].
    + exists q1, (ptr t). cbn [loop_rest mbind option_bind].
      rewrite remove_fix_loop_exit by (done || by right). split; [done|].
      exists k, t. split_and!; [done|done| |done|by etrans]. eapply deficient_recolored; [done|by right].
    + destruct Hf as [Hf|Hf]; [|congruence]. destruct (IH q1 k n t H1 Hd Hf) as (q' & i & E & Hset).
      exists q', i. split; [exact E|]. eapply settled_trans; [|exact Hset]. by etrans.
Qed.

Lemma remove_fix_left_ok q n c j s k t :
  at_pos q (InLeft c j s :: k) t → rb_path (S n) (InLeft c j s :: k) → rb n t → tcolor t = BLACK →
  (length k < S fuel)%nat →
  ∃ q' i, loop_rest (remove_fix_left j q) = Some (q', i) ∧
    settled q (inorder (plug (InLeft c j s :: k) t)) q' i.
Proof.
  intros H Hk Ht Hct Hf. apply frame_cases in Hk as [Hs Hk]. simpl in Hs, Hk. unfold remove_fix_left.
  destruct (tcolor_cases _ _ Hs) as [Hcs|Hcs].
  - destruct Hk as [(_ & Hx & _)|(-> & Hk)]; [by rewrite Hcs in Hx|].
    destruct (red_sibling _ _ Hs Hcs) as (a & si & b & -> & Ha & Hb & Hca & Hcb).
    destruct (remove_left_sibling_red _ _ _ _ _ _ _ H) as (q1 & -> & H1 & Hm1).
    cbn [mbind option_bind].
    eapply (loop_rest_ok q1 q RED (InLeft BLACK si b :: k)); [done| |by right].
    replace (inorder (plug (InLeft BLACK j (Node RED a si b) :: k) t)) with
      (inorder (plug (InLeft RED j a :: InLeft BLACK si b :: k) t)) by same_list.
    apply (remove_left_finish_ok q1 n); [done..| |done]. left. simpl. split_and!; [done|done|done|].
    right. done.
  - rewrite (remove_left_sibling_black _ _ _ _ _ _ H Hcs). cbn [mbind option_bind].
    eapply (loop_rest_ok q q c k); [done| |by left].
    apply (remove_left_finish_ok q n); [done..| |done]. tauto.
Qed.

Lemma remove_fix_right_ok q n c j s k t :
  at_pos q (InRight c s j :: k) t → rb_path (S n) (InRight c s j :: k) → rb n t → tcolor t = BLACK →
  (length k < S fuel)%nat →
  ∃ q' i, loop_rest (remove_fix_right j q) = Some (q', i) ∧
    settled q (inorder (plug (InRight c s j :: k) t)) q' i.
Proof.
  intros H Hk Ht Hct Hf. apply frame_cases in Hk as [Hs Hk]. simpl in Hs, Hk. unfold remove_fix_right.
  destruct (tcolor_cases _ _ Hs) as [Hcs|Hcs].
  - destruct Hk as [(_ & Hx & _)|(-> & Hk)]; [by rewrite Hcs in Hx|].
    destruct (red_sibling _ _ Hs Hcs) as (a & si & b & -> & Ha & Hb & Hca & Hcb).
    destruct (remove_right_sibling_red _ _ _ _ _ _ _ H) as (q1 & -> & H1 & Hm1).
    cbn [mbind option_bind].
    eapply (loop_rest_ok q1 q RED (InRight BLACK a si :: k)); [done| |by right].
    replace (inorder (plug (InRight BLACK (Node RED a si b) j :: k) t)) with
      (inorder (plug (InRight RED b j :: InRight BLACK a si :: k) t)) by same_list.
    apply (remove_right_finish_ok q1 n); [done..| |done]. left. simpl. split_and!; [done|done|done|].
    right. done.
  - rewrite (remove_right_sibling_black _ _ _ _ _ _ H Hcs). cbn [mbind option_bind].
    eapply (loop_rest_ok q q c k); [done| |by left].
    apply (remove_right_finish_ok q n); [done..| |done]. tauto.
Qed.
End remove_loop.

(** The links the loop compares with [index]. *)
Lemma node_not_index q k t i : at_pos q k t → i ∈ path_nodes k → (ptr t =? i) = false ∧ null i = false.
Proof.
  intros H Hi. assert (null i = false) as Hn.
  { assert (i < 10) by (apply (nodes_lt _ _ _ _ H), elem_of_app; by right).
    unfold null, UINT32_MAX. apply N.eqb_neq. lia. }
  split; [|done]. apply ptr_ne; [done|]. destruct H as (m & _ & _ & _ & Hnd).
  apply NoDup_app in Hnd as (_ & Hd & _). intros Hx. by apply (Hd i).
Qed.

Lemma parent_left q n f k t :
  at_pos q (f :: k) t → rb_path (S n) (f :: k) →
  ∃ x, left_of q (frame_index f) = Some x ∧ (ptr t =? x) = (if f is InLeft _ _ _ then true else false).
Proof.
  intros H Hk. pose proof H as H'. apply at_pos_up in H'. destruct f as [c j s|c s j]; simpl in *.
  - destruct (at_pos_cell _ _ _ _ _ _ H') as (_ & _ & -> & _). exists (ptr t). split; [done|].
    apply N.eqb_refl.
  - destruct (at_pos_cell _ _ _ _ _ _ H') as (_ & _ & -> & _). exists (ptr s). split; [done|].
    destruct Hk as [Hs _]. destruct s as [|cs a si b]; [done|].
    eapply node_not_index; [exact H|]. simpl. set_solver.
Qed.

Lemma remove_fix_loop_ok fuel : ∀ q k n t,
  at_pos q k t → deficient n k t → (length k < S fuel)%nat →
  ∃ q' i, remove_fix_loop (S fuel) (ptr t) (up k) q = Some (q', i) ∧
    settled q (inorder (plug k t)) q' i.
Proof.
  induction fuel as [|fuel IH]; intros q k n t H Hd Hf.
  all: destruct (decide (k = [] ∨ tcolor t = RED)) as [Hc|Hc];
    [exists q, (ptr t); (split; [by apply remove_fix_loop_exit|]);
     exists k, t; (split_and!; [done|done|by eapply deficient_recolored|done|done])|].
  { destruct k; [naive_solver|simpl in Hf; lia]. }
  destruct k as [|f k]; [naive_solver|]. destruct Hd as [Hk [[Hct Ht]|[Hct _]]]; [|naive_solver].
  simpl in Hf. remember (S fuel) as fuel1 eqn:Hfuel1. cbn [remove_fix_loop].
  rewrite (at_pos_root _ _ _ H), (at_pos_is_black _ _ _ H), Hct. simpl top.
  destruct (node_not_index _ _ _ (top (f :: k) (ptr t)) H) as [E _]; [by apply top_in_path|].
  simpl in E. rewrite E. destruct (node_not_index _ _ _ (frame_index f) H) as [_ Hn];
    [destruct f; simpl; by left|]. simpl up. rewrite N.eqb_refl. cbn [mbind option_bind negb].
  rewrite Hn. destruct (parent_left _ _ _ _ _ H Hk) as (x & -> & Hx). cbn [mbind option_bind].
  rewrite Hx. subst fuel1. destruct f as [c j s|c s j]; simpl frame_index.
  - apply (remove_fix_left_ok fuel IH q n); [done..|lia].
  - apply (remove_fix_right_ok fuel IH q n); [done..|lia].
Qed.

Lemma remove_fixup_spec q k n t :
  at_pos q k t → deficient n k t →
  ∃ q' t', scheduler_ready_queue_remove_fixup (ptr t) (up k) q = Some q' ∧ holds_tree q' t' ∧
    red_black t' ∧ inorder t' = inorder (plug k t) ∧ same_marks q q'.
Proof.
  intros H Hd. unfold scheduler_ready_queue_remove_fixup.
  destruct (remove_fix_loop_ok 15 q k n t H Hd) as (q1 & i & E & k1 & t1 & H1 & -> & Hrb & Hl & Hm).
  { pose proof (at_pos_size _ _ _ H). lia. }
  change (remove_fix_loop 16) with (remove_fix_loop RB_FUEL) in E. rewrite E. cbn [mbind option_bind].
  destruct t1 as [|c l j r].
  - exists q1, (plug k1 Leaf). split_and!; [done|by apply (proj1 (at_pos_plug _ _ _))|done..].
  - destruct (at_pos_cell _ _ _ _ _ _ H1) as (Hn & _). simpl ptr. rewrite Hn.
    destruct (at_pos_set_color _ _ _ _ _ _ BLACK H1) as (q2 & -> & H2 & Hm2).
    exists q2, (plug k1 (Node BLACK l j r)). split_and!.
    + done.
    + by apply (proj1 (at_pos_plug _ _ _)).
    + done.
    + rewrite <-Hl. by apply plug_same_inorder.
    + by etrans.
Qed.

(** ** Unlinking a node *)

Ltac prove_nodup :=
  repeat first [rewrite NoDup_app_disjoint | rewrite NoDup_cons]; split_and?; apart.

Lemma transplant_spec q k c l i r x :
  at_pos q k (Node c l i r) → x = l ∨ x = r →
  ∃ q', scheduler_ready_queue_transplant i (ptr x) q = Some q' ∧ at_pos q' k x ∧ same_marks q q'.
Proof.
  intros H Hx. open_at H. pose proof (view_not_null _ _ _ Hv i _ ltac:(eassumption)) as Hnull.
  unfold scheduler_ready_queue_transplant. do 2 step.
  destruct Hx as [->| ->]; step; (eexists; split; [done|]; split; [|solve_marks]);
    match goal with Hv : view ?q ?m _ |- at_pos ?q _ _ =>
      exists m; rewrite ?root_after_top in Hv end;
    (split_and!; [assumption|find_holds|find_holds|prove_nodup]).
Qed.

(** Node [y] has left its place and is about to replace [i]: it holds the
    right subtree [s]. *)
Definition successor_at (q : ready_queue) (k : path) (c : N) (l : tree) (i y : N) (s : tree) : Prop :=
  ∃ m ri py ly cy, view q m (top k i) ∧ m !! i = Some (Cell (up k) (ptr l) ri c) ∧ holds m l i ∧
    m !! y = Some (Cell py ly (ptr s) cy) ∧ holds m s y ∧ holds_path m k i ∧
    NoDup (inorder l ++ y :: inorder s ++ i :: path_nodes k).

Lemma replace_node_spec q k c cl ll li lr i y s :
  let l := Node cl ll li lr in
  successor_at q k c l i y s →
  ∃ q', replace_node i y q = Some q' ∧ at_pos q' k (Node c l y s) ∧ same_marks q q'.
Proof.
  intros l (m & ri & py & ly & cy & Hv & Hi & (Hli & Hll & Hlr) & Hy & Hs & Hk & Hnd).
  pose proof Hnd as Hn. subst l. split_nodup Hn. simpl ptr in *.
  pose proof (view_not_null _ _ _ Hv _ _ Hi) as Hnull.
  pose proof (view_not_null _ _ _ Hv _ _ Hy) as Hnully.
  unfold replace_node, scheduler_ready_queue_transplant. do 2 step. rewrite Hnully. do 7 step.
  eexists; split; [done|]; split; [|solve_marks].
  match goal with Hv : view ?q ?m _ |- at_pos ?q _ _ =>
      exists m; rewrite ?root_after_top in Hv end.
  split_and!; [assumption|simpl; split_and!; first [find_cell|find_holds]|find_holds|simpl; prove_nodup].
Qed.

Lemma detach_child q k c l i cy y ry :
  at_pos q k (Node c l i (Node cy Leaf y ry)) →
  ∃ q', detach_successor i y (ptr ry) q = Some (q', y) ∧ successor_at q' k c l i y ry ∧
    same_marks q q'.
Proof.
  intros H. open_at H. unfold detach_successor. step. rewrite N.eqb_refl. step.
  eexists; split; [done|]; split; [|solve_marks].
  eexists _, _, _, _, _. split_and!; [eassumption|find_cell|find_holds|find_cell| |find_holds|].
  - find_holds.
  - simpl. prove_nodup.
Qed.

Lemma detach_deeper q k c l i f kr cy y ry :
  at_pos q k (Node c l i (plug (f :: kr) (Node cy Leaf y ry))) →
  ∃ q', detach_successor i y (ptr ry) q = Some (q', frame_index f) ∧
    successor_at q' k c l i y (plug (f :: kr) ry) ∧ same_marks q q'.
Proof.
  intros H. set (k' := (f :: kr) ++ InRight c l i :: k).
  assert (∀ t, plug k' t = plug k (Node c l i (plug (f :: kr) t))) as Hplug.
  { intros t. unfold k'. by rewrite plug_app. }
  apply (at_pos_move _ _ _ k' (Node cy Leaf y ry)) in H; [|by rewrite Hplug].
  assert ((y ∉ path_nodes k') ∧ (y ∉ inorder ry) ∧ y < 10) as (Hyk & Hyr & Hy).
  { split_and!; [| |apply (nodes_lt _ _ _ y H); set_solver]; destruct H as (m & _ & _ & _ & Hn);
      split_nodup Hn; done. }
  destruct (at_pos_cell _ _ _ _ _ _ H) as (_ & Hpy & _ & Hry & _).
  destruct (transplant_spec _ _ _ _ _ _ ry H ltac:(by right)) as (q1 & E1 & H1 & Hm1).
  unfold detach_successor. rewrite Hpy. cbn [mbind option_bind]. simpl up.
  assert ((frame_index f =? i) = false) as ->.
  { apply N.eqb_neq. intros Hf. destruct H as (m & _ & _ & _ & Hn). unfold k' in Hn.
    rewrite path_nodes_app in Hn. destruct f; split_nodup Hn; simpl in Hf; congruence. }
  rewrite Hry. cbn [mbind option_bind]. rewrite E1. cbn [mbind option_bind].
  apply (at_pos_move _ _ _ k (Node c l i (plug (f :: kr) ry))) in H1; [|by rewrite Hplug].
  assert (y ∉ inorder (Node c l i (plug (f :: kr) ry)) ++ path_nodes k) as Hfree.
  { rewrite <-path_nodes_perm, <-Hplug, path_nodes_perm, not_elem_of_app. done. }
  destruct (plug (f :: kr) ry) as [|c1 a1 i1 b1] eqn:Er1.
  { assert (frame_index f ∈ inorder (plug (f :: kr) ry)) as Hin; [|rewrite Er1 in Hin; set_solver].
    rewrite path_nodes_perm. destruct f; simpl; set_solver. }
  open_at H1. simpl in Hfree. rewrite !not_elem_of_app, !not_elem_of_cons, !not_elem_of_app in Hfree.
  rewrite !not_elem_of_cons in Hfree. destruct_and? Hfree.
  destruct (proj2 (view_lt _ _ _ Hv y) Hy) as [[py ly ry' cy'] Hcy].
  do 4 step. eexists; split; [done|]; split; [|solve_marks].
  eexists _, _, _, _, _. split_and!; [eassumption|find_cell|find_holds|find_cell| |find_holds|].
  - simpl. split_and!; first [find_cell|find_holds].
  - simpl. prove_nodup.
Qed.

(** ** The whole function *)

Lemma leftmost_split t :
  t ≠ Leaf → ∃ kr c y r, t = plug kr (Node c Leaf y r) ∧ before_path kr = [] ∧
    hd UINT32_MAX (inorder t) = y.
Proof.
  induction t as [|c l IH i r _]; [done|]. intros _. destruct l as [|cl ll li lr].
  - by exists [], c, i, r.
  - destruct IH as (kr & cy & y & ry & E & Hb & Hh); [done|].
    exists (kr ++ [InLeft c i r]), cy, y, ry. rewrite plug_app, <-E. split_and!; [done| |].
    + clear -Hb. induction kr as [|[] kr IH]; simpl in *; [done|by apply IH|].
      exfalso. by destruct (before_path kr), (inorder l).
    + rewrite <-Hh. simpl. by destruct (inorder ll).
Qed.

(** What leaves the tree decides whether it has to be rebalanced. *)
Definition unlinked_balance (col : N) (k : path) (x : tree) : Prop :=
  (col = BLACK ∧ ∃ n, deficient n k x) ∨ (col = RED ∧ red_black (plug k x)).

Lemma drop_node n k c a i b x :
  rb_path n k → rb n (Node c a i b) → compatible k (Node c a i b) → x = a ∨ x = b →
  unlinked_balance c k x.
Proof.
  intros Hk Ht Hc Hx. destruct Ht as [(-> & Ha & Hb & Hra & Hrb)|(-> & m & -> & Hra & Hrb)].
  - right. split; [done|]. apply (rb_plug k n); [done|by destruct Hx as [->| ->]|].
    left. by destruct Hx as [->| ->].
  - left. split; [done|]. exists m. split; [done|].
    assert (rb m x) as Hx' by by destruct Hx as [->| ->].
    destruct (tcolor_cases _ _ Hx'); [right|left]; (split; [done|]); [by apply rb_recolored|done].
Qed.

(** The balance around a position does not depend on the indices. *)
Lemma pcolor_renamed kr c l i y k :
  pcolor (kr ++ InRight c l i :: k) = pcolor (kr ++ InRight c l y :: k).
Proof. by destruct kr. Qed.

Lemma rb_path_renamed kr c l i y k n :
  rb_path n (kr ++ InRight c l i :: k) → rb_path n (kr ++ InRight c l y :: k).
Proof.
  revert n. induction kr as [|f kr IH]; intros n; simpl; [done|].
  rewrite (pcolor_renamed kr c l i y k). intros (Hf & [(? & ? & ? & ?)|(? & ?)]); split; auto.
  left. auto.
Qed.

(** A node with two children: the result of the two code parts in sequence. *)
Lemma remove_two q k c l i r :
  at_pos q k (Node c l i r) → red_black (plug k (Node c l i r)) → l ≠ Leaf → r ≠ Leaf →
  ∃ y q1 q2 k' x col, scheduler_ready_queue_minimum q (ptr r) = Some y ∧
    color_of q y = Some col ∧ right_of q y = Some (ptr x) ∧
    detach_successor i y (ptr x) q = Some (q1, up k') ∧ replace_node i y q1 = Some q2 ∧
    at_pos q2 k' x ∧
    inorder (plug k' x) = before_path k ++ inorder l ++ inorder r ++ after_path k ∧
    unlinked_balance col k' x ∧ same_marks q q2.
Proof.
  intros H Hrb Hl Hr. destruct (leftmost_split r Hr) as (kr & cy & y & x & -> & Hbr & Hhd).
  set (k1 := kr ++ InRight c l i :: k). set (k2 := kr ++ InRight c l y :: k).
  assert (plug k (Node c l i (plug kr (Node cy Leaf y x))) = plug k1 (Node cy Leaf y x)) as Hplug
    by (unfold k1; by rewrite plug_app).
  pose proof (at_pos_move _ _ _ _ _ Hplug H) as Hy. rewrite Hplug in Hrb.
  destruct (rb_unplug _ _ Hrb) as (n & Hrk & Hrt & Hrc).
  destruct (at_pos_cell _ _ _ _ _ _ Hy) as (_ & _ & _ & Hry & Hcy).
  assert (scheduler_ready_queue_minimum q (ptr (plug kr (Node cy Leaf y x))) = Some y) as Hmin.
  { pose proof (at_pos_size _ _ _ H) as Hsz. destruct H as (m & Hv & (_ & _ & Ht) & _).
    unfold scheduler_ready_queue_minimum. rewrite (minimum_loop_spec q m _ Hv RB_FUEL _ _ Ht Hr);
      [by rewrite Hhd|]. simpl in Hsz. rewrite length_app in Hsz. simpl in Hsz. unfold RB_FUEL. lia. }
  assert (∃ q1, detach_successor i y (ptr x) q = Some (q1, up k2) ∧
    successor_at q1 k c l i y (plug kr x) ∧ same_marks q q1) as (q1 & E1 & H1 & Hm1).
  { unfold k2. destruct kr as [|f kr]; [by eapply detach_child|by eapply detach_deeper]. }
  destruct l as [|cl ll li lr]; [done|].
  destruct (replace_node_spec _ _ _ _ _ _ _ _ _ _ H1) as (q2 & E2 & H2 & Hm2).
  exists y, q1, q2, k2, x, cy. split_and!; [done..| | | |by etrans].
  - eapply at_pos_move; [|exact H2]. unfold k2. by rewrite plug_app.
  - unfold k2. rewrite plug_app. simpl plug. rewrite !inorder_plug. simpl.
    rewrite Hbr, inorder_plug, Hbr. simpl. by rewrite <-?app_assoc, <-?app_comm_cons, <-?app_assoc, <-?app_comm_cons, <-?app_assoc.
  - apply (drop_node n k2 cy Leaf y x x); [by eapply rb_path_renamed|done| |by right].
    destruct Hrc as [Hrc|Hrc]; [by left|right]. unfold k2. rewrite <-(pcolor_renamed kr c _ i y k).
    exact Hrc.
Qed.

Lemma remove_unlink_spec q k c l i r :
  at_pos q k (Node c l i r) → red_black (plug k (Node c l i r)) →
  ∃ q' k' x col, remove_unlink i q = Some (q', ptr x, up k', col) ∧ at_pos q' k' x ∧
    inorder (plug k' x) = before_path k ++ inorder l ++ inorder r ++ after_path k ∧
    unlinked_balance col k' x ∧ same_marks q q'.
Proof.
  intros H Hrb. destruct (rb_unplug _ _ Hrb) as (n & Hrk & Hrt & Hrc).
  destruct (at_pos_cell _ _ _ _ _ _ H) as (_ & Hp & Hl & Hr & Hc).
  assert (null (ptr l) = bool_decide (l = Leaf) ∧ null (ptr r) = bool_decide (r = Leaf)) as [Hnl Hnr].
  { destruct H as (m & Hv & (_ & Hl' & Hr') & _). by split; eapply view_ptr_null. }
  unfold remove_unlink. rewrite Hc, Hl, Hr. cbn [mbind option_bind]. rewrite Hnl, Hnr. clear Hnl Hnr.
  case_bool_decide as Hleaf; [|case_bool_decide as Hleaf'].
  - rewrite Hp. cbn [mbind option_bind]. subst l.
    destruct (transplant_spec _ _ _ _ _ _ r H ltac:(by right)) as (q' & -> & H' & Hm).
    exists q', k, r, c. split_and!; [done|done|by rewrite inorder_plug| |done].
    eapply drop_node; [done..|by right].
  - rewrite Hp. cbn [mbind option_bind]. subst r.
    destruct (transplant_spec _ _ _ _ _ _ l H ltac:(by left)) as (q' & -> & H' & Hm).
    exists q', k, l, c. split_and!; [done|done|by rewrite inorder_plug| |done].
    eapply drop_node; [done..|by left].
  - destruct (remove_two _ _ _ _ _ _ H Hrb Hleaf Hleaf') as
      (y & q1 & q2 & k' & x & col & Hmin & Hcy & Hx & E1 & E2 & H2 & Hin & Hbal & Hm).
    rewrite Hmin. cbn [mbind option_bind]. rewrite Hcy. cbn [mbind option_bind]. rewrite Hx. cbn [mbind option_bind]. rewrite E1.
    cbn [mbind option_bind]. rewrite E2. cbn [mbind option_bind].
    by exists q2, k', x, col.
Qed.

(** The queue without node [i]. *)
Definition without (i : N) (l : list N) : list N := filter (λ j, j ≠ i) l.

Lemma without_split i l1 l2 : (i ∉ l1) → (i ∉ l2) → without i (l1 ++ i :: l2) = l1 ++ l2.
Proof.
  intros H1 H2. unfold without. rewrite filter_app, filter_cons_False by naive_solver.
  assert (∀ l : list N, (i ∉ l) → filter (λ j, j ≠ i) l = l) as Hl; [|by rewrite !Hl].
  intros l Hi. induction l as [|j l IH]; [done|]. apply not_elem_of_cons in Hi as [Hij Hi].
  rewrite filter_cons_True by naive_solver. by rewrite IH.
Qed.

Lemma find_node t i : i ∈ inorder t → ∃ k c l r, t = plug k (Node c l i r).
Proof.
  induction t as [|c l IHl j r IHr]; simpl; [set_solver|].
  rewrite elem_of_app, elem_of_cons. intros [Hi|[->|Hi]].
  - destruct (IHl Hi) as (k & c' & l' & r' & ->). exists (k ++ [InLeft c j r]), c', l', r'.
    by rewrite plug_app.
  - by exists [], c, l, r.
  - destruct (IHr Hi) as (k & c' & l' & r' & ->). exists (k ++ [InRight c l j]), c', l', r'.
    by rewrite plug_app.
Qed.

Lemma clear_entry_spec q k t i :
  at_pos q k t → i < 10 → (i ∉ inorder t ++ path_nodes k) →
  ∃ q', clear_entry i q = Some q' ∧ at_pos q' k t ∧
    g_sched_on_rq q' = <[N.to_nat i := 0]> (g_sched_on_rq q).
Proof.
  intros H Hi Hnew. open_at H. apply not_elem_of_app in Hnew as [Hit Hik].
  unfold clear_entry.
  destruct (set_on_rq_spec _ _ _ i 0 Hv Hi) as (q1 & -> & Hv1 & Ho & _). cbn [mbind option_bind].
  destruct (proj2 (view_lt _ _ _ Hv1 i) Hi) as [[p0 l0 r0 c0] Hc]. do 4 step.
  eexists. split; [done|]. split; [prove_at Hnd|]. rewrite <-Ho.
  match goal with |- g_sched_on_rq ?a = g_sched_on_rq ?b =>
    assert (same_marks b a) as [-> _] by solve_marks end. done.
Qed.

Lemma remove_present q t i :
  queue_holds q t → i ∈ inorder t →
  ∃ q' t', scheduler_ready_queue_remove i q = Some q' ∧ queue_holds q' t' ∧
    inorder t' = without i (inorder t).
Proof.
  intros (H & Hrb & Hm & Hlm) Hi.
  assert (i < 10) as Hlt by (apply (nodes_lt _ _ _ _ H); by rewrite app_nil_r).
  unfold scheduler_ready_queue_remove. destruct (Hm i Hlt) as (v & -> & Hv). cbn [mbind option_bind].
  rewrite (proj2 (nz_true v)) by tauto. cbn [negb].
  destruct (find_node t i Hi) as (k & c & l & r & ->).
  assert (NoDup (inorder (plug k (Node c l i r)))) as Hnd.
  { destruct H as (m & _ & _ & _ & Hn). by rewrite app_nil_r in Hn. }
  apply at_pos_plug in H as H0.
  destruct (remove_unlink_spec _ _ _ _ _ _ H0 Hrb) as (q1 & k1 & x & col & -> & H1 & Hin & Hbal & Hm1).
  cbn [mbind option_bind]. rewrite inorder_plug in Hnd |- *. simpl in Hnd |- *.
  assert (without i (before_path k ++ (inorder l ++ i :: inorder r) ++ after_path k) =
    inorder (plug k1 x)) as Hwo.
  { rewrite Hin, <-app_assoc, <-app_comm_cons, app_assoc. split_nodup Hnd.
    rewrite without_split by apart. by rewrite <-app_assoc. }
  assert (i ∉ inorder (plug k1 x)) as Hout.
  { rewrite <-Hwo. unfold without. rewrite list_elem_of_filter. tauto. }
  rewrite path_nodes_perm in Hout.
  destruct (clear_entry_spec _ _ _ _ H1 Hlt Hout) as (q2 & -> & H2 & Ho2). cbn [mbind option_bind].
  assert (∃ q3 t3, (if col =? SCHED_RB_BLACK then
      scheduler_ready_queue_remove_fixup (ptr x) (up k1) q2 else Some q2) = Some q3 ∧
    holds_tree q3 t3 ∧ red_black t3 ∧ inorder t3 = inorder (plug k1 x) ∧ same_marks q2 q3)
    as (q3 & t3 & -> & H3 & Hrb3 & Hin3 & Hm3).
  { destruct Hbal as [(-> & n & Hd)|(-> & Hrb1)].
    - rewrite N.eqb_refl. by eapply remove_fixup_spec.
    - exists q2, (plug k1 x). split_and!; [done|by apply (proj1 (at_pos_plug _ _ _))|done..]. }
  cbn [mbind option_bind]. destruct (recompute_leftmost_spec _ _ H3) as (q4 & -> & H4 & Ho4 & Hl4).
  exists q4, t3. split_and!; [done| |congruence]. split_and!; [done|done| |done].
  eapply (marks_ok_set q q4 _ _ i 0); [done|by destruct H as (? & [? _] & _)| |].
  - rewrite Ho4, (proj1 Hm3), Ho2. by rewrite (proj1 Hm1).
  - intros j. rewrite Hin3, <-Hwo. unfold without. rewrite list_elem_of_filter, inorder_plug.
    case_decide; naive_solver.
Qed.

Lemma remove_absent q t i :
  queue_holds q t → i < 10 → (i ∉ inorder t) → scheduler_ready_queue_remove i q = Some q.
Proof.
  intros (_ & _ & Hm & _) Hlt Hi. destruct (Hm i Hlt) as (v & Hon & Hv).
  unfold scheduler_ready_queue_remove. rewrite Hon. cbn [mbind option_bind].
  rewrite (proj2 (nz_false v)); [done|]. destruct (decide (v = 0)); tauto.
Qed.

(** Clearing the entries of a slot that is not queued. *)
Lemma clear_absent q t i :
  queue_holds q t → i < 10 → i ∉ inorder t →
  ∃ q', (q ← set_parent i UINT32_MAX q; q ← set_left i UINT32_MAX q;
         q ← set_right i UINT32_MAX q; q ← set_color i SCHED_RB_BLACK q;
         set_on_rq i 0 q) = Some q' ∧ queue_holds q' t.
Proof.
  intros (H & Hrb & Hmk & Hl) Hi Hit. pose proof H as (m0 & (Hs0 & _) & _).
  open_at H. destruct (proj2 (view_lt _ _ _ Hv i) Hi) as [[p0 l0 r0 c0] Hc]. do 4 step.
  match goal with |- ∃ q', set_on_rq i 0 ?a = Some q' ∧ _ =>
    assert (same_marks q a) as [Hon Hlm] by solve_marks; edestruct (set_on_rq_spec a) as (q9 & -> & Hv9 & Ho & Hl9); [eassumption|exact Hi|] end.
  eexists. split; [done|]. split_and!; [unfold holds_tree; prove_at Hnd|done| |congruence].
  eapply (marks_ok_set q); [done|done|by rewrite Ho, Hon|]. intros j. case_decide; [by subst|done].
Qed.
