(* ===== verification/ReadyQueueSpec.v ===== *)
(** * The ready queue as an ordered list

    [represents lt q l]: the queue [q] is well formed and its nodes in order
    are [l], sorted by [lt].  Insertion, removal and the leftmost link are
    those of the ordered list, whatever the shape of the tree. *)

From Stdlib Require Import Sorted.
From S2P Require Import Prelude ReadyQueue ReadyQueueTree ReadyQueueBalance.
From S2P Require Import ReadyQueueInsert ReadyQueueRemove.

Local Open Scope N_scope.

(** Strict total orders on the slots. *)
Class StrictOrder (lt : N → N → bool) := {
  lt_irreflexive i : lt i i = false;
  lt_transitive a b c : lt a b = true → lt b c = true → lt a c = true;
  lt_connected a b : a ≠ b → lt a b = true ∨ lt b a = true
}.

Definition represents (lt : N → N → bool) (q : ready_queue) (l : list N) : Prop :=
  ∃ t, queue_holds q t ∧ inorder t = l ∧ ordered lt l.

Section spec.
Context (lt : N → N → bool) `{!StrictOrder lt}.

Lemma represents_NoDup q l : represents lt q l → NoDup l.
Proof.
  intros (t & ((m & _ & _ & _ & Hn) & _) & <- & _). by rewrite app_nil_r in Hn.
Qed.

Lemma represents_lt q l i : represents lt q l → i ∈ l → i < 10.
Proof.
  intros (t & (H & _) & <- & _) Hi. apply (nodes_lt _ _ _ _ H). by rewrite app_nil_r.
Qed.

Lemma represents_leftmost q l : represents lt q l → g_sched_rq_leftmost q = hd UINT32_MAX l.
Proof. by intros (t & (_ & _ & _ & H) & <- & _). Qed.

Lemma represents_on_rq q l i : represents lt q l → i < 10 →
  ∃ v, on_rq q i = Some v ∧ (v ≠ 0 ↔ i ∈ l).
Proof. intros (t & (_ & _ & H & _) & <- & _) Hi. by apply H. Qed.

Lemma represents_shape q l : represents lt q l → shape q.
Proof. by intros (t & ((m & (H & _) & _) & _) & _). Qed.

Lemma ordered_insert_elem i l j : j ∈ ordered_insert lt i l ↔ j = i ∨ j ∈ l.
Proof.
  induction l as [|x l IH]; simpl; [set_solver|]. destruct (lt i x); set_solver.
Qed.

Lemma ordered_insert_ordered i l : ordered lt l → i ∉ l → ordered lt (ordered_insert lt i l).
Proof.
  unfold ordered. induction l as [|x l IH]; simpl; intros Ho Hi.
  { repeat constructor. }
  inversion Ho as [|? ? Hs Hf]; subst. rewrite Forall_forall in Hf.
  apply not_elem_of_cons in Hi as [Hix Hi]. destruct (lt i x) eqn:Hlt.
  - constructor; [done|]. constructor; [done|]. apply Forall_forall. intros y Hy.
    by apply (lt_transitive _ x), Hf.
  - constructor; [by apply IH|]. apply Forall_forall. intros y Hy.
    apply ordered_insert_elem in Hy as [->|Hy]; [|by apply Hf].
    destruct (lt_connected i x Hix); congruence.
Qed.

Lemma without_elem i l j : j ∈ without i l ↔ j ≠ i ∧ j ∈ l.
Proof. unfold without. by rewrite list_elem_of_filter. Qed.

Lemma without_ordered i l : ordered lt l → ordered lt (without i l).
Proof.
  unfold ordered, without. induction 1 as [|x l Hs IH Hf]; simpl; [constructor|].
  rewrite filter_cons. case_decide; [|done]. constructor; [done|].
  rewrite Forall_forall in Hf |- *. intros y [_ Hy]%list_elem_of_filter. by apply Hf.
Qed.

(** An ordered list is determined by its elements. *)
Lemma ordered_unique l l' :
  ordered lt l → ordered lt l' → (∀ i, i ∈ l ↔ i ∈ l') → l = l'.
Proof.
  unfold ordered. intros Hl. revert l'. induction Hl as [|x l Hs IH Hf]; intros l' Hl' Hm.
  - destruct l' as [|y l']; [done|]. exfalso. specialize (Hm y). set_solver.
  - destruct l' as [|y l']; [exfalso; specialize (Hm x); set_solver|].
    inversion Hl' as [|? ? Hs' Hf']; subst. rewrite Forall_forall in Hf, Hf'.
    assert (x = y) as <-.
    { destruct (decide (x = y)) as [|Hne]; [done|]. exfalso.
      assert (lt x y = true) by (apply Hf; specialize (Hm y); set_solver).
      assert (lt y x = true) by (apply Hf'; specialize (Hm x); set_solver).
      pose proof (lt_irreflexive x). rewrite (lt_transitive x y x) in *; done. }
    f_equal. apply IH; [done|]. intros i.
    assert (x ∉ l) by (intros Hx; apply Hf in Hx; by rewrite lt_irreflexive in Hx).
    assert (x ∉ l') by (intros Hx; apply Hf' in Hx; by rewrite lt_irreflexive in Hx).
    specialize (Hm i). rewrite !elem_of_cons in Hm. destruct (decide (i = x)); naive_solver.
Qed.

Lemma represents_insert q l i before :
  represents lt q l → i < 10 → i ∉ l → (∀ j, j ∈ l → before i j = Some (lt i j)) →
  ∃ q', scheduler_ready_queue_insert before i q = Some q' ∧ represents lt q' (ordered_insert lt i l).
Proof.
  intros (t & Ht & <- & Ho) Hi Hnew Hb.
  destruct (insert_absent lt lt_transitive q t i before Ht Hi Hnew Ho Hb) as (q' & t' & E & Ht' & Hin).
  exists q'. split; [done|]. exists t'. split_and!; [done|done|]. by apply ordered_insert_ordered.
Qed.

Lemma represents_insert_again q l i before :
  represents lt q l → i ∈ l → scheduler_ready_queue_insert before i q = Some q.
Proof. intros (t & Ht & <- & Ho) Hi. by eapply insert_present. Qed.

Lemma represents_remove q l i :
  represents lt q l → i < 10 →
  ∃ q', scheduler_ready_queue_remove i q = Some q' ∧ represents lt q' (without i l).
Proof.
  intros (t & Ht & <- & Ho) Hi. destruct (decide (i ∈ inorder t)) as [Hin|Hout].
  - destruct (remove_present q t i Ht Hin) as (q' & t' & E & Ht' & Hl).
    exists q'. split; [done|]. exists t'. split_and!; [done|done|]. by apply without_ordered.
  - exists q. split; [by eapply remove_absent|]. exists t. split_and!; [done| |by apply without_ordered].
    apply ordered_unique; [done|by apply without_ordered|]. intros j. rewrite without_elem. naive_solver.
Qed.

Lemma represents_clear q l i :
  represents lt q l → i < 10 → i ∉ l →
  ∃ q', (q ← set_parent i UINT32_MAX q; q ← set_left i UINT32_MAX q;
         q ← set_right i UINT32_MAX q; q ← set_color i SCHED_RB_BLACK q;
         set_on_rq i 0 q) = Some q' ∧ represents lt q' l.
Proof.
  intros (t & Ht & <- & Ho) Hi Hout. destruct (clear_absent q t i Ht Hi Hout) as (q' & E & Ht').
  exists q'. split; [done|]. by exists t.
Qed.

Lemma represents_empty : represents lt empty_queue [].
Proof.
  exists Leaf. split_and!; [|done|constructor]. split_and!.
  - destruct (view_exists empty_queue) as [m Hv]; [done|]. exists m. split_and!; [done|done|done|constructor].
  - split; [done|]. by exists 0%nat.
  - intros i Hi. exists 0. split; [|by split; [|intros ?%not_elem_of_nil]].
    unfold on_rq. rewrite aget_lookup. apply lookup_replicate. lia.
  - done.
Qed.
End spec.

(** ** Depth *)

Fixpoint height (t : tree) : nat :=
  match t with Leaf => 0 | Node _ l _ r => S (max (height l) (height r)) end.

Lemma rb_size t : ∀ n, rb n t → (2 ^ n ≤ S (length (inorder t)))%nat.
Proof.
  induction t as [|c l IHl i r IHr]; intros n; simpl; [intros ->; simpl; lia|].
  rewrite length_app. simpl. intros [(_ & _ & _ & Hl & Hr)|(_ & m & -> & Hl & Hr)];
    apply IHl in Hl; apply IHr in Hr; simpl; lia.
Qed.

Lemma rb_height t : ∀ n, rb n t → (height t ≤ 2 * n + (if decide (tcolor t = RED) then 1 else 0))%nat.
Proof.
  induction t as [|c l IHl i r IHr]; intros n; simpl; [lia|].
  intros [(-> & Hcl & Hcr & Hl & Hr)|(-> & m & -> & Hl & Hr)]; apply IHl in Hl; apply IHr in Hr.
  - rewrite Hcl in Hl. rewrite Hcr in Hr. rewrite decide_True by done.
    rewrite decide_False in Hl, Hr by done. lia.
  - destruct (decide (BLACK = RED)); [done|].
    destruct (decide (tcolor l = RED)), (decide (tcolor r = RED)); lia.
Qed.

Lemma path_height k t : (length k + height t ≤ height (plug k t))%nat.
Proof.
  revert t. induction k as [|[] k IH]; intros t; simpl; [lia|..];
    (etrans; [|apply IH]); simpl; lia.
Qed.


(** ** Any sequence of insertions and removals *)

Inductive queue_op := OpInsert (i : N) | OpRemove (i : N).

Definition op_index (o : queue_op) : N := match o with OpInsert i | OpRemove i => i end.

Fixpoint run_ops (before : N → N → option bool) (ops : list queue_op) (q : ready_queue)
  : option ready_queue :=
  match ops with
  | [] => Some q
  | OpInsert i :: ops' => q ← scheduler_ready_queue_insert before i q; run_ops before ops' q
  | OpRemove i :: ops' => q ← scheduler_ready_queue_remove i q; run_ops before ops' q
  end.

(** The same on ordered lists. *)
Fixpoint list_ops (lt : N → N → bool) (ops : list queue_op) (l : list N) : list N :=
  match ops with
  | [] => l
  | OpInsert i :: ops' => list_ops lt ops' (if decide (i ∈ l) then l else ordered_insert lt i l)
  | OpRemove i :: ops' => list_ops lt ops' (without i l)
  end.

Lemma run_ops_refines lt `{!StrictOrder lt} before ops : ∀ q l,
  (∀ i j, i < 10 → j < 10 → before i j = Some (lt i j)) →
  Forall (λ o, op_index o < 10) ops → represents lt q l →
  ∃ q', run_ops before ops q = Some q' ∧ represents lt q' (list_ops lt ops l).
Proof.
  induction ops as [|[i|i] ops IH]; intros q l Hb Hops Hq; [by exists q|..];
    inversion Hops as [|? ? Hi Hops']; subst; simpl in *.
  - case_decide as Hin.
    + rewrite (represents_insert_again lt q l i before Hq Hin). cbn. by apply IH.
    + destruct (represents_insert lt q l i before Hq Hi Hin) as (q1 & -> & Hq1).
      { intros j Hj. apply Hb; [done|by eapply represents_lt]. }
      cbn. by apply IH.
  - destruct (represents_remove lt q l i Hq Hi) as (q1 & -> & Hq1). cbn. by apply IH.
Qed.

(** C9: the red-black tree implements an ordered list: for any strict total
    order, any sequence of insertions and removals of slots on the empty queue
    is defined (no access out of bounds, no loop out of fuel), and the queue
    holds in order exactly what the same sequence leaves in an ordered list;
    its leftmost link is the head of that list. *)
Theorem ready_queue_refines_ordered_list lt `{!StrictOrder lt} before ops :
  (∀ i j, i < 10 → j < 10 → before i j = Some (lt i j)) →
  Forall (λ o, op_index o < 10) ops →
  ∃ q, run_ops before ops empty_queue = Some q ∧ represents lt q (list_ops lt ops []) ∧
    g_sched_rq_leftmost q = hd UINT32_MAX (list_ops lt ops []).
Proof.
  intros Hb Hops. destruct (run_ops_refines lt before ops empty_queue [] Hb Hops) as (q & E & Hq).
  { apply represents_empty. }
  exists q. split_and!; [done|done|]. by apply (represents_leftmost lt).
Qed.

(** Slots ordered by their number. *)
#[export] Instance ltb_strict : StrictOrder N.ltb.
Proof.
  split.
  - apply N.ltb_irrefl.
  - intros a b c Ha Hb. bools. apply N.ltb_lt. lia.
  - intros a b Hab. rewrite !N.ltb_lt. lia.
Qed.

Lemma ready_queue_refines_ordered_list_witness :
  ∃ q, run_ops (λ i j, Some (i <? j)) [OpInsert 5; OpInsert 2; OpInsert 7; OpInsert 3; OpRemove 5]
         empty_queue = Some q ∧
    represents N.ltb q [2; 3; 7] ∧ g_sched_rq_leftmost q = 2.
Proof.
  apply (ready_queue_refines_ordered_list N.ltb (λ i j, Some (i <? j))
    [OpInsert 5; OpInsert 2; OpInsert 7; OpInsert 3; OpRemove 5]).
  - done.
  - repeat constructor.
Defined.

