(* ===== verification/Scheduler.v ===== *)
(** * The scheduler ([kernel/scheduler.c], [targets/esp32c3/src/timer.c])

    Process creation, blocking and waking, exit and reaping, the timer tick,
    and [process_yield].  The state is the file's static variables; the ready
    queue is that of [ReadyQueue.v].  Diagnostic registers, console output and
    the interrupt mask are not part of it.  A function that does not return to
    its caller (a context switch, a halt) says so in its [outcome]; the
    processor's part of a switch is in assembly and not modelled. *)

From S2P Require Import Prelude ProcessCore RuntimePolicy ReadyQueue.

Local Open Scope N_scope.

Definition PROCESS_STACK_WORDS : N := 1024.
(** [sizeof(struct task_context) / sizeof(uint32_t)]: [ra], [s0] to [s11]. *)
Definition PROCESS_CONTEXT_WORDS : N := 13.
Definition DRAM_LOW : N := 0x3FC80000.
Definition DRAM_HIGH : N := 0x3FCE0000.
Definition SYSTIMER_TARGET0_INT_ST_BIT : N := 1.
Definition CPU_SYSTIMER_INTR_NUM : N := 7.

(** Code and stack addresses; 0 is the null pointer. *)
Record process_execution_slot := ExecSlot { x_entry : N; x_stack_pointer : N }.

(** The static variables of [timer.c], and the latch of
    [runtime_poll_timer_delivery]. *)
Record timer_state := Timer {
  g_kernel_ticks : N;
  g_kernel_tick_log_counter : N;
  g_last_tick_switch_count : N;
  g_stalled_tick_windows : N;
  g_long_run_milestone_counter : N;
  g_long_run_tick_window : N;
  g_runtime_timer_poll_latched : N
}.

(** The interrupt status the processor reads. *)
Record timer_registers := Registers { SYSTIMER_INT_RAW : N; SYSTIMER_INT_ST : N; CPU_INT_EIP : N }.

Record scheduler := Scheduler {
  g_processes : list process_runtime_state;
  g_process_exec : list process_execution_slot;
  g_process_stacks : list (list N);
  g_current_process_index : N;
  g_next_pid : N;
  g_switch_count : N;
  g_bootstrap_seen_mask : N;
  g_sched_vruntime : list N;
  g_sched_exec_start_tick : list N;
  g_ready_queue : ready_queue;
  g_scheduler_preempt_state : scheduler_preempt_state;
  g_timer : timer_state
}.

(** Assignments to one variable. *)
Definition set_processes (v : list process_runtime_state) (s : scheduler) : scheduler :=
  let 'Scheduler _ b c d e f g h i j k l := s in Scheduler v b c d e f g h i j k l.
Definition set_exec (v : list process_execution_slot) (s : scheduler) : scheduler :=
  let 'Scheduler a _ c d e f g h i j k l := s in Scheduler a v c d e f g h i j k l.
Definition set_stacks (v : list (list N)) (s : scheduler) : scheduler :=
  let 'Scheduler a b _ d e f g h i j k l := s in Scheduler a b v d e f g h i j k l.
Definition set_current (v : N) (s : scheduler) : scheduler :=
  let 'Scheduler a b c _ e f g h i j k l := s in Scheduler a b c v e f g h i j k l.
Definition set_next_pid (v : N) (s : scheduler) : scheduler :=
  let 'Scheduler a b c d _ f g h i j k l := s in Scheduler a b c d v f g h i j k l.
Definition set_switches (v : N) (s : scheduler) : scheduler :=
  let 'Scheduler a b c d e _ g h i j k l := s in Scheduler a b c d e v g h i j k l.
Definition set_seen_mask (v : N) (s : scheduler) : scheduler :=
  let 'Scheduler a b c d e f _ h i j k l := s in Scheduler a b c d e f v h i j k l.
Definition set_vruntime (v : list N) (s : scheduler) : scheduler :=
  let 'Scheduler a b c d e f g _ i j k l := s in Scheduler a b c d e f g v i j k l.
Definition set_exec_start (v : list N) (s : scheduler) : scheduler :=
  let 'Scheduler a b c d e f g h _ j k l := s in Scheduler a b c d e f g h v j k l.
Definition set_rq (v : ready_queue) (s : scheduler) : scheduler :=
  let 'Scheduler a b c d e f g h i _ k l := s in Scheduler a b c d e f g h i v k l.
Definition set_preempt (v : scheduler_preempt_state) (s : scheduler) : scheduler :=
  let 'Scheduler a b c d e f g h i j _ l := s in Scheduler a b c d e f g h i j v l.
Definition set_timer (v : timer_state) (s : scheduler) : scheduler :=
  let 'Scheduler a b c d e f g h i j k _ := s in Scheduler a b c d e f g h i j k v.

(** ** Leaving the calling process

    [Continues]: the call returns.  [Switches]: [context_switch] has been
    called and the process stays in it until it is chosen again.  [Starts]:
    the first process runs.  [Idles]: the processor waits for an interrupt in
    [process_yield].  [Halts]: [panic_halt]. *)
Inductive halt_reason :=
  | DIAGD_BAD_CURRENT_INDEX | DIAGD_BAD_NEXT_INDEX | DIAGD_BAD_TASK_SP_RANGE
  | DIAGD_BAD_TASK_SP_ALIGN | DIAGD_NO_RUNNABLE_TASK | BOOTSTRAP_WITHOUT_PROCESS
  | TASK_CREATE_FAILED | YIELD_RETURNED.

Inductive outcome :=
  | Continues (s : scheduler)
  | Switches (s : scheduler) (from to : N)
  | Starts (s : scheduler) (to : N)
  | Idles (s : scheduler)
  | Halts (s : scheduler) (reason : halt_reason).

(** ** Access to the tables *)

Definition upd_process (i : N) (f : process_runtime_state → process_runtime_state)
    (s : scheduler) : option scheduler :=
  p ← aget (g_processes s) i; l ← aset (g_processes s) i (f p); Some (set_processes l s).

Definition upd_rq (f : ready_queue → option ready_queue) (s : scheduler) : option scheduler :=
  q ← f (g_ready_queue s); Some (set_rq q s).

Definition write_vruntime (i v : N) (s : scheduler) : option scheduler :=
  l ← aset (g_sched_vruntime s) i v; Some (set_vruntime l s).

Definition write_exec_start (i v : N) (s : scheduler) : option scheduler :=
  l ← aset (g_sched_exec_start_tick s) i v; Some (set_exec_start l s).

Definition kernel_ticks_read (s : scheduler) : N := g_kernel_ticks (g_timer s).

Definition scheduler_current_process (s : scheduler) : option process_runtime_state :=
  if MAX_PROCESSES <=? g_current_process_index s then None
  else
    match aget (g_processes s) (g_current_process_index s) with
    | Some p => if in_state PROCESS_STATE_UNUSED p then None else Some p
    | None => None
    end.

Definition process_current_pid (s : scheduler) : N :=
  match scheduler_current_process s with Some p => p_pid p | None => 0 end.

Definition scheduler_vruntime_before (s : scheduler) (lhs rhs : N) : option bool :=
  a ← aget (g_sched_vruntime s) lhs;
  b ← aget (g_sched_vruntime s) rhs;
  if a <? b then Some true
  else if b <? a then Some false
  else
    p ← aget (g_processes s) lhs;
    r ← aget (g_processes s) rhs;
    if p_pid p <? p_pid r then Some true
    else if p_pid r <? p_pid p then Some false
    else Some (lhs <? rhs).

Definition scheduler_min_vruntime (s : scheduler) : option N :=
  let leftmost := g_sched_rq_leftmost (g_ready_queue s) in
  '(min_vruntime, have_value) ←
    (if null leftmost then Some (0, false)
     else v ← aget (g_sched_vruntime s) leftmost; Some (v, true));
  let current := g_current_process_index s in
  '(min_vruntime, have_value) ←
    (if current <? MAX_PROCESSES then
       p ← aget (g_processes s) current;
       if in_state PROCESS_STATE_RUNNING p then
         v ← aget (g_sched_vruntime s) current;
         if negb have_value || (v <? min_vruntime) then Some (v, true)
         else Some (min_vruntime, have_value)
       else Some (min_vruntime, have_value)
     else Some (min_vruntime, have_value));
  Some (if have_value : bool then min_vruntime else 0).

Definition scheduler_account_runtime (index : N) (s : scheduler) : option scheduler :=
  if MAX_PROCESSES <=? index then Some s
  else
    p ← aget (g_processes s) index;
    if negb (in_state PROCESS_STATE_RUNNING p) then Some s
    else
      let now := kernel_ticks_read s in
      started ← aget (g_sched_exec_start_tick s) index;
      v ← aget (g_sched_vruntime s) index;
      s ← write_vruntime index (u64 (v + (if started <? now then now - started else 1))) s;
      write_exec_start index now s.

(** [for (index = 0; index < MAX_PROCESSES; ++index)]: the remaining indices. *)
Fixpoint sync_loop (indices : list N) (s : scheduler) : option scheduler :=
  match indices with
  | [] => Some s
  | index :: rest =>
      p ← aget (g_processes s) index;
      s ← (if in_state PROCESS_STATE_READY p then
             upd_rq (scheduler_ready_queue_insert (scheduler_vruntime_before s) index) s
           else upd_rq (scheduler_ready_queue_remove index) s);
      sync_loop rest s
  end.

Definition process_indices : list N := N.of_nat <$> seq 0 (N.to_nat MAX_PROCESSES).

Definition scheduler_sync_ready_queue (s : scheduler) : option scheduler :=
  sync_loop process_indices s.

Definition scheduler_pick_next_ready (s : scheduler) : N := g_sched_rq_leftmost (g_ready_queue s).

Definition scheduler_reset_process_slot (index : N) (s : scheduler) : option scheduler :=
  s ← upd_rq (scheduler_ready_queue_remove index) s;
  s ← upd_process index process_core_reset_slot s;
  l ← aset (g_process_exec s) index (ExecSlot 0 0);
  let s := set_exec l s in
  s ← write_vruntime index 0 s;
  s ← write_exec_start index 0 s;
  upd_rq (λ q,
    q ← set_parent index UINT32_MAX q;
    q ← set_left index UINT32_MAX q;
    q ← set_right index UINT32_MAX q;
    q ← set_color index SCHED_RB_BLACK q;
    set_on_rq index 0 q) s.

Definition scheduler_make_process_ready (index : N) (s : scheduler) : option scheduler :=
  s ← upd_process index process_core_make_ready s;
  scheduler_sync_ready_queue s.

Definition scheduler_block_process (index : N) (wait_reason : process_wait_reason)
    (wait_channel wake_tick wait_target_pid : N) (s : scheduler) : option scheduler :=
  s ← upd_process index (process_core_block wait_reason wait_channel wake_tick wait_target_pid) s;
  scheduler_sync_ready_queue s.

Section configuration.
(** Build-time configuration; the preemption hooks of all targets are empty. *)
Context (CONFIG_RUNTIME_SINGLE_FOREGROUND CONFIG_SCHEDULER_PREEMPTIVE : bool)
        (scheduler_target_preempt_capable : bool).
(** The linker's address of [g_process_stacks] and of the assembly entry. *)
Context (stacks_base task_bootstrap_first_entry_asm : N).

(** ** Stacks *)

Definition scheduler_stack_pointer_in_range (sp : N) : bool := (DRAM_LOW <=? sp) && (sp <? DRAM_HIGH).
Definition scheduler_stack_pointer_is_aligned (sp : N) : bool := N.land sp 3 =? 0.

(** [&g_process_stacks[index][PROCESS_STACK_WORDS] - PROCESS_CONTEXT_WORDS]. *)
Definition initial_context_address (index : N) : N :=
  u32 (stacks_base + 4 * (PROCESS_STACK_WORDS * index + PROCESS_STACK_WORDS - PROCESS_CONTEXT_WORDS)).

Definition scheduler_prepare_initial_context (index : N) (s : scheduler) : option scheduler :=
  stack ← aget (g_process_stacks s) index;
  let kept := N.to_nat (PROCESS_STACK_WORDS - PROCESS_CONTEXT_WORDS) in
  l ← aset (g_process_stacks s) index
        (take kept stack ++ task_bootstrap_first_entry_asm :: replicate 12 0);
  let s := set_stacks l s in
  x ← aget (g_process_exec s) index;
  l ← aset (g_process_exec s) index (ExecSlot (x_entry x) (initial_context_address index));
  Some (set_exec l s).

(** ** Creation *)

Definition process_spawn_with_role (name : option cstr) (entry role : N) (s : scheduler)
  : option (scheduler * N) :=
  let index := process_core_find_free_slot (g_processes s) in
  let parent_pid := process_current_pid s in
  if (entry =? 0) || (index =? UINT32_MAX) || (g_next_pid s =? 0) then Some (s, 0)
  else if negb (runtime_policy_can_spawn CONFIG_RUNTIME_SINGLE_FOREGROUND (g_processes s) role) then
    Some (s, 0)
  else
    let pid := g_next_pid s in
    let s := set_next_pid (u32 (pid + 1)) s in
    x ← aget (g_process_exec s) index;
    l ← aset (g_process_exec s) index (ExecSlot entry (x_stack_pointer x));
    let s := set_exec l s in
    s ← upd_process index (λ _,
          Process pid parent_pid (Some (default (cs "PROC") name)) role PROCESS_STATE_READY
            0 0 0 0 0 PROCESS_WAIT_NONE 0) s;
    v ← scheduler_min_vruntime s;
    s ← write_vruntime index v s;
    s ← write_exec_start index 0 s;
    s ← scheduler_prepare_initial_context index s;
    s ← scheduler_sync_ready_queue s;
    p ← aget (g_processes s) index;
    Some (s, p_pid p).

Definition process_spawn (name : option cstr) (entry : N) (s : scheduler) : option (scheduler * N) :=
  process_spawn_with_role name entry RUNTIME_PROCESS_ROLE_SYSTEM s.

(** ** Timer tick *)

Definition process_tick (tick_count : N) (s : scheduler) : option scheduler :=
  let s := set_preempt (scheduler_preempt_on_timer_tick CONFIG_SCHEDULER_PREEMPTIVE
             (g_scheduler_preempt_state s)) s in
  let s := set_processes (process_core_wake_sleepers (g_processes s) tick_count).1 s in
  scheduler_sync_ready_queue s.

Definition scheduler_switch_count_read (s : scheduler) : N := g_switch_count s.

Definition systimer_tick_isr (regs : timer_registers) (s : scheduler) : option scheduler :=
  if nz (N.land (SYSTIMER_INT_ST regs) SYSTIMER_TARGET0_INT_ST_BIT) then
    let switch_count := scheduler_switch_count_read s in
    let 'Timer ticks log last stalled milestone window latched := g_timer s in
    let ticks := u64 (ticks + 1) in
    let log := u32 (log + 1) in
    let window := u32 (window + 1) in
    s ← process_tick ticks (set_timer (Timer ticks log last stalled milestone window latched) s);
    let '(last, stalled) :=
      if switch_count =? last then (last, u32 (stalled + 1)) else (switch_count, 0) in
    let log := if log =? 1000 then 0 else log in
    let '(window, milestone) :=
      if window =? 5000 then (0, u32 (milestone + 1)) else (window, milestone) in
    Some (set_timer (Timer ticks log last stalled milestone window latched) s)
  else Some s.

Definition set_latched (v : N) (s : scheduler) : scheduler :=
  let 'Timer a b c d e f _ := g_timer s in set_timer (Timer a b c d e f v) s.

(** The fallback of [kernel.c] for a pending tick that was not taken as an
    interrupt. *)
Definition runtime_poll_timer_delivery (regs : timer_registers) (s : scheduler) : option scheduler :=
  if nz (g_runtime_timer_poll_latched (g_timer s)) then Some s
  else if (N.land (N.lor (SYSTIMER_INT_RAW regs) (SYSTIMER_INT_ST regs)) SYSTIMER_TARGET0_INT_ST_BIT
             =? 0) &&
          (N.land (CPU_INT_EIP regs) (N.shiftl 1 CPU_SYSTIMER_INTR_NUM) =? 0) then Some s
  else
    let s := set_latched 1 s in
    s ← systimer_tick_isr regs s;
    Some (set_latched 0 s).

(** ** Switching *)

Definition scheduler_start_first_process (process_index : N) (s : scheduler) : option outcome :=
  if MAX_PROCESSES <=? process_index then Some (Halts s DIAGD_BAD_NEXT_INDEX)
  else
    x ← aget (g_process_exec s) process_index;
    if negb (scheduler_stack_pointer_in_range (x_stack_pointer x)) then
      Some (Halts s DIAGD_BAD_TASK_SP_RANGE)
    else if negb (scheduler_stack_pointer_is_aligned (x_stack_pointer x)) then
      Some (Halts s DIAGD_BAD_TASK_SP_ALIGN)
    else
      let s := set_current process_index s in
      s ← upd_process process_index (set_state PROCESS_STATE_RUNNING) s;
      s ← write_exec_start process_index (kernel_ticks_read s) s;
      s ← scheduler_sync_ready_queue s;
      Some (Starts s process_index).

(** Up to the call of [context_switch]. *)
Definition scheduler_switch_process (current_index next_index : N) (s : scheduler)
  : option scheduler :=
  s ← scheduler_account_runtime current_index s;
  current ← aget (g_processes s) current_index;
  s ← (if in_state PROCESS_STATE_RUNNING current then
         upd_process current_index (set_state PROCESS_STATE_READY) s
       else Some s);
  s ← upd_process next_index
        (λ p, set_switch_count (u32 (p_switch_count p + 1)) (set_state PROCESS_STATE_RUNNING p)) s;
  let s := set_current next_index s in
  s ← write_exec_start next_index (kernel_ticks_read s) s;
  scheduler_sync_ready_queue s.

Definition scheduler_validate_switch_targets (current_index next_index : N) (s : scheduler)
  : option (option halt_reason) :=
  if MAX_PROCESSES <=? current_index then Some (Some DIAGD_BAD_CURRENT_INDEX)
  else if MAX_PROCESSES <=? next_index then Some (Some DIAGD_BAD_NEXT_INDEX)
  else
    c ← aget (g_process_exec s) current_index;
    n ← aget (g_process_exec s) next_index;
    let bad ok := negb (ok (x_stack_pointer c)) || negb (ok (x_stack_pointer n)) in
    if bad scheduler_stack_pointer_in_range then Some (Some DIAGD_BAD_TASK_SP_RANGE)
    else if bad scheduler_stack_pointer_is_aligned then Some (Some DIAGD_BAD_TASK_SP_ALIGN)
    else Some None.

Definition preempt_disabled (s : scheduler) : scheduler :=
  set_preempt (preempt_disable (g_scheduler_preempt_state s)) s.

(** [preempt_enable], with the empty hook. *)
Definition preempt_enabled (s : scheduler) : scheduler :=
  set_preempt (preempt_enable CONFIG_SCHEDULER_PREEMPTIVE scheduler_target_preempt_capable id
                 (g_scheduler_preempt_state s) tt).1 s.

Definition safe_point (s : scheduler) : scheduler :=
  set_preempt (scheduler_maybe_preempt_at_safe_point CONFIG_SCHEDULER_PREEMPTIVE
                 scheduler_target_preempt_capable id (g_scheduler_preempt_state s) tt).1.1 s.

(** [process_yield] once [next_index] is known. *)
Definition yield_to (has_current : bool) (current_index next_index : N) (s : scheduler)
  : option outcome :=
  if next_index =? current_index then
    s ← (if has_current then upd_process current_index (set_state PROCESS_STATE_RUNNING) s
         else Some s);
    Some (Continues (preempt_enabled s))
  else
    bad ← scheduler_validate_switch_targets current_index next_index s;
    match bad with
    | Some reason => Some (Halts s reason)
    | None =>
        let s := set_switches (u32 (g_switch_count s + 1)) s in
        let s := preempt_enabled s in
        s ← scheduler_switch_process current_index next_index s;
        Some (Switches s current_index next_index)
    end.

(** [process_yield] after the ready queue has been looked at. *)
Definition yield_choose (has_current : bool) (current_index next_index : N) (s : scheduler)
  : option outcome :=
  if next_index =? UINT32_MAX then
    running ← (if has_current then
                 p ← aget (g_processes s) current_index;
                 Some (in_state PROCESS_STATE_RUNNING p)
               else Some false);
    if running : bool then Some (Continues (preempt_enabled s))
    else if negb (process_core_count_blocked_sleepers (g_processes s) =? 0) then Some (Idles s)
    else Some (Halts s DIAGD_NO_RUNNABLE_TASK)
  else yield_to has_current current_index next_index s.

Definition process_yield (regs : timer_registers) (s : scheduler) : option outcome :=
  let has_current := match scheduler_current_process s with Some _ => true | None => false end in
  let current_index := g_current_process_index s in
  if current_index =? UINT32_MAX then
    s ← runtime_poll_timer_delivery regs s;
    scheduler_start_first_process (scheduler_pick_next_ready s) s
  else
    s ← runtime_poll_timer_delivery regs (preempt_disabled s);
    s ← (if has_current then
           upd_process current_index (λ p, set_yield_count (u32 (p_yield_count p + 1)) p) s
         else Some s);
    let s := safe_point s in
    yield_choose has_current current_index (scheduler_pick_next_ready s) s.

(** The waiting loop of [process_yield] after an interrupt. *)
Definition yield_after_interrupt (has_current : bool) (s : scheduler) : option outcome :=
  s ← scheduler_sync_ready_queue s;
  let next_index := scheduler_pick_next_ready s in
  if next_index =? UINT32_MAX then Some (Idles s)
  else yield_to has_current (g_current_process_index s) next_index s.

(** [process_yield] when [context_switch] returns to it. *)
Definition yield_resumes (s : scheduler) : scheduler := preempt_enabled s.

Definition scheduler_run (regs : timer_registers) (s : scheduler) : option outcome :=
  o ← process_yield regs (set_current UINT32_MAX s);
  Some (match o with Continues s => Halts s YIELD_RETURNED | _ => o end).

(** ** Exit, kill, reap, wait *)

Definition process_exit (regs : timer_registers) (exit_code : Z) (s : scheduler) : option outcome :=
  s ← match scheduler_current_process s with
      | Some current =>
          s ← upd_process (g_current_process_index s)
                (λ p, set_exit_code exit_code (set_state PROCESS_STATE_ZOMBIE p)) s;
          Some (set_processes
            (process_core_wake_waiting_parent (g_processes s) (p_pid current)).1 s)
      | None => Some s
      end;
  o ← process_yield regs s;
  Some (match o with Continues s => Halts s YIELD_RETURNED | _ => o end).

(** The result of the call when it does not leave the process. *)
Definition process_kill (regs : timer_registers) (pid : N) (exit_code : Z) (s : scheduler)
  : option (outcome * bool) :=
  let index := process_core_find_index_by_pid (g_processes s) pid in
  if index =? UINT32_MAX then Some (Continues s, false)
  else if index =? g_current_process_index s then
    o ← process_exit regs exit_code s; Some (o, true)
  else
    p ← aget (g_processes s) index;
    if in_state PROCESS_STATE_READY p || in_state PROCESS_STATE_RUNNING p ||
       in_state PROCESS_STATE_BLOCKED p then
      s ← upd_process index (λ p, set_exit_code exit_code (set_state PROCESS_STATE_ZOMBIE p)) s;
      let s := set_processes (process_core_wake_waiting_parent (g_processes s) pid).1 s in
      s ← scheduler_sync_ready_queue s;
      Some (Continues s, true)
    else Some (Continues s, true).

(** The exit code is absent when nothing is stored. *)
Definition process_reap (pid : N) (s : scheduler) : option (scheduler * option Z) :=
  let index := process_core_find_index_by_pid (g_processes s) pid in
  if index =? UINT32_MAX then Some (s, None)
  else
    p ← aget (g_processes s) index;
    if negb (in_state PROCESS_STATE_ZOMBIE p) then Some (s, None)
    else
      s ← scheduler_reset_process_slot index s;
      Some (s, Some (p_exit_code p)).

(** One round of [process_waitpid]: it returns a child and its exit code, or
    -1, or it has given up the processor and goes round again. *)
Inductive wait_result :=
  | WaitReturns (s : scheduler) (result : Z) (exit_code : option Z)
  | WaitYields (o : outcome).

Definition process_waitpid_round (regs : timer_registers) (current_pid pid : N) (s : scheduler)
  : option wait_result :=
  let child_index := process_core_find_waitable_child (g_processes s) current_pid pid in
  if negb (child_index =? UINT32_MAX) then
    child ← aget (g_processes s) child_index;
    s ← scheduler_reset_process_slot child_index s;
    Some (WaitReturns s (i32 (p_pid child)) (Some (p_exit_code child)))
  else if negb (process_core_has_child (g_processes s) current_pid pid) then
    Some (WaitReturns s (-1) None)
  else
    s ← (if g_current_process_index s <? MAX_PROCESSES then
           scheduler_block_process (g_current_process_index s) PROCESS_WAIT_CHILD pid 0 pid s
         else Some s);
    o ← process_yield regs s;
    Some (WaitYields o).

Definition process_waitpid (regs : timer_registers) (pid : N) (s : scheduler) : option wait_result :=
  let current_pid := process_current_pid s in
  if current_pid =? 0 then Some (WaitReturns s (-1) None)
  else process_waitpid_round regs current_pid pid s.

Definition process_wait (regs : timer_registers) (s : scheduler) : option wait_result :=
  process_waitpid regs 0 s.

(** ** Blocking and waking *)

Definition process_sleep (regs : timer_registers) (ticks : N) (s : scheduler) : option outcome :=
  match scheduler_current_process s with
  | None => Some (Continues s)
  | Some _ =>
      if ticks =? 0 then process_yield regs s
      else
        let wake_tick := u64 (kernel_ticks_read s + ticks) in
        s ← upd_process (g_current_process_index s) (set_wake_tick wake_tick) s;
        s ← scheduler_block_process (g_current_process_index s) PROCESS_WAIT_SLEEP_TICKS ticks
              wake_tick 0 s;
        process_yield regs s
  end.

Definition process_block (regs : timer_registers) (pid : N) (s : scheduler)
  : option (outcome * bool) :=
  let index := process_core_find_index_by_pid (g_processes s) pid in
  if index =? UINT32_MAX then Some (Continues s, false)
  else
    p ← aget (g_processes s) index;
    if negb (in_state PROCESS_STATE_READY p) && negb (in_state PROCESS_STATE_RUNNING p) then
      Some (Continues s, false)
    else if index =? g_current_process_index s then
      s ← scheduler_block_process index PROCESS_WAIT_MANUAL pid 0 0 s;
      o ← process_yield regs s;
      Some (o, true)
    else
      s ← scheduler_block_process index PROCESS_WAIT_MANUAL pid 0 0 s;
      Some (Continues s, true).

Definition process_wake (pid : N) (s : scheduler) : option (scheduler * bool) :=
  let index := process_core_find_index_by_pid (g_processes s) pid in
  if index =? UINT32_MAX then Some (s, false)
  else s ← scheduler_make_process_ready index s; Some (s, true).

Definition process_wait_channel (regs : timer_registers) (channel : N) (s : scheduler)
  : option outcome :=
  if MAX_PROCESSES <=? g_current_process_index s then Some (Continues s)
  else
    s ← scheduler_block_process (g_current_process_index s) PROCESS_WAIT_EVENT_CHANNEL channel 0 0 s;
    process_yield regs s.

Definition process_wake_channel (channel : N) (s : scheduler) : option (scheduler * N) :=
  let '(l, woke) := process_core_wake_channel (g_processes s) channel in
  s ← scheduler_sync_ready_queue (set_processes l s);
  Some (s, woke).

Definition process_wake_first_channel (channel : N) (s : scheduler) : option (scheduler * N) :=
  let '(l, woke) :=
    process_core_wake_first_channel (g_processes s) channel (g_current_process_index s) in
  s ← scheduler_sync_ready_queue (set_processes l s);
  Some (s, woke).

(** ** Queries, and the task interface *)

Definition process_count (s : scheduler) : N :=
  count_if (λ p, negb (in_state PROCESS_STATE_UNUSED p)) (g_processes s).

Definition process_snapshot (buffer : bool) (capacity : N) (s : scheduler) : list process_info * N :=
  process_core_snapshot (g_processes s) buffer capacity.

Definition scheduler_current_task_name (s : scheduler) : option cstr :=
  match scheduler_current_process s with Some p => p_name p | None => Some (cs "idle") end.

(** The entry that [scheduler_task_bootstrap] calls; when it returns, the
    process exits with code 0. *)
Inductive bootstrap_result :=
  | Enters (s : scheduler) (entry : N)
  | BootstrapHalts (reason : halt_reason).

Definition scheduler_task_bootstrap (s : scheduler) : option bootstrap_result :=
  match scheduler_current_process s with
  | None => Some (BootstrapHalts BOOTSTRAP_WITHOUT_PROCESS)
  | Some current =>
      x ← aget (g_process_exec s) (g_current_process_index s);
      if x_entry x =? 0 then Some (BootstrapHalts BOOTSTRAP_WITHOUT_PROCESS)
      else
        let pid := p_pid current in
        let pid_bit := if (0 <? pid) && (pid <=? 16) then N.shiftl 1 (pid - 1) else 0 in
        let mask := g_bootstrap_seen_mask s in
        let s :=
          if nz pid_bit && (N.land mask pid_bit =? 0) then
            set_seen_mask (N.lor mask (u16 pid_bit)) s
          else s in
        Some (Enters s (x_entry x))
  end.

Definition task_create (name : option cstr) (entry : N) (s : scheduler) : option outcome :=
  '(s, pid) ← process_spawn name entry s;
  Some (if pid =? 0 then Halts s TASK_CREATE_FAILED else Continues s).

Definition task_yield (regs : timer_registers) (s : scheduler) : option outcome := process_yield regs s.
Definition task_exit (regs : timer_registers) (s : scheduler) : option outcome := process_exit regs 0 s.

(** ** The static initialisers *)

Definition unused_process : process_runtime_state :=
  Process 0 0 None RUNTIME_PROCESS_ROLE_NONE PROCESS_STATE_UNUSED 0 0 0 0 0 PROCESS_WAIT_NONE 0.

Definition initial_scheduler : scheduler :=
  Scheduler (replicate 10 unused_process) (replicate 10 (ExecSlot 0 0))
    (replicate 10 (replicate 1024 0)) UINT32_MAX 1 0 0 (replicate 10 0) (replicate 10 0)
    empty_queue (PreemptState 0 0 0) (Timer 0 0 0 0 0 0 0).
End configuration.
