(* ===== verification/SchedulerProofs.v ===== *)
(** * The scheduler and its ready queue

    The order of the processes, what [scheduler_sync_ready_queue] does, the
    invariant [sched_inv], and that every operation keeps it. *)

From Stdlib Require Import Sorted.
From S2P Require Import Prelude ProcessCore RuntimePolicy ReadyQueue Scheduler.
From S2P Require Import ReadyQueueTree ReadyQueueBalance ReadyQueueInsert ReadyQueueRemove ReadyQueueSpec.

Local Open Scope N_scope.

(** ** The order of the processes *)

Definition vruntime (s : scheduler) (i : N) : N := default 0 (aget (g_sched_vruntime s) i).
Definition pid_of (s : scheduler) (i : N) : N :=
  match aget (g_processes s) i with Some p => p_pid p | None => 0 end.

(** Less virtual run time first, then the smaller process id, then the slot. *)
Definition key_lt (s : scheduler) (i j : N) : bool :=
  if vruntime s i <? vruntime s j then true
  else if vruntime s j <? vruntime s i then false
  else if pid_of s i <? pid_of s j then true
  else if pid_of s j <? pid_of s i then false
  else i <? j.

#[export] Instance key_lt_strict s : StrictOrder (key_lt s).
Proof.
  split; unfold key_lt.
  - intros i. by rewrite !N.ltb_irrefl.
  - intros a b c. case_N; intros; first [done|lia].
  - intros a b Hab. case_N; first [by left|by right|lia].
Qed.

(** The tables have their lengths. *)
Definition tables_ok (s : scheduler) : Prop :=
  length (g_processes s) = 10%nat ∧ length (g_process_exec s) = 10%nat ∧
  length (g_process_stacks s) = 10%nat ∧ length (g_sched_vruntime s) = 10%nat ∧
  length (g_sched_exec_start_tick s) = 10%nat.

Definition state_of (s : scheduler) (i : N) : process_state :=
  match aget (g_processes s) i with Some p => p_state p | None => PROCESS_STATE_UNUSED end.

Definition rq_is (s : scheduler) (l : list N) : Prop := represents (key_lt s) (g_ready_queue s) l.

Lemma vruntime_before_key s i j :
  tables_ok s → i < 10 → j < 10 → scheduler_vruntime_before s i j = Some (key_lt s i j).
Proof.
  intros (Hp & _ & _ & Hv & _) Hi Hj. unfold scheduler_vruntime_before, key_lt, vruntime, pid_of.
  destruct (aget_is_Some (g_sched_vruntime s) i) as [a ->]; [lia|].
  destruct (aget_is_Some (g_sched_vruntime s) j) as [b ->]; [lia|].
  destruct (aget_is_Some (g_processes s) i) as [p ->]; [lia|].
  destruct (aget_is_Some (g_processes s) j) as [r ->]; [lia|]. cbn. by repeat case_match.
Qed.

(** The order reads only the virtual run times and the process ids. *)
Lemma key_lt_ext s s' i j :
  vruntime s' i = vruntime s i → vruntime s' j = vruntime s j →
  pid_of s' i = pid_of s i → pid_of s' j = pid_of s j → key_lt s' i j = key_lt s i j.
Proof. intros H1 H2 H3 H4. unfold key_lt. by rewrite H1, H2, H3, H4. Qed.

Lemma ordered_ext lt lt' l :
  (∀ i j, i ∈ l → j ∈ l → lt' i j = lt i j) → ordered lt l → ordered lt' l.
Proof.
  unfold ordered. intros Hlt. induction 1 as [|x l Hs IH Hf]; constructor.
  - apply IH. intros i j Hi Hj. apply Hlt; by right.
  - rewrite Forall_forall in *. intros y Hy. rewrite Hlt; [by apply Hf|by left|by right].
Qed.

Lemma represents_ext lt lt' q l :
  (∀ i j, i ∈ l → j ∈ l → lt' i j = lt i j) → represents lt q l → represents lt' q l.
Proof. intros Hlt (t & Ht & Hl & Ho). exists t. split_and!; [done|done|]. by eapply ordered_ext. Qed.

(** ** Synchronisation of the ready queue with the process table *)

Lemma set_rq_rq q s : g_ready_queue (set_rq q s) = q. Proof. by destruct s. Qed.
Lemma set_rq_key q s : key_lt (set_rq q s) = key_lt s. Proof. by destruct s. Qed.
Lemma set_rq_state q s : state_of (set_rq q s) = state_of s. Proof. by destruct s. Qed.
Lemma set_rq_processes q s : g_processes (set_rq q s) = g_processes s. Proof. by destruct s. Qed.
Lemma set_rq_before q s : scheduler_vruntime_before (set_rq q s) = scheduler_vruntime_before s.
Proof. by destruct s. Qed.
Lemma set_rq_twice q q' s : set_rq q (set_rq q' s) = set_rq q s. Proof. by destruct s. Qed.
Lemma set_rq_same s : set_rq (g_ready_queue s) s = s. Proof. by destruct s. Qed.
Lemma set_rq_tables q s : tables_ok (set_rq q s) ↔ tables_ok s. Proof. by destruct s. Qed.

Lemma in_state_of s i p st :
  aget (g_processes s) i = Some p → in_state st p = bool_decide (state_of s i = st).
Proof. intros H. unfold state_of, in_state. by rewrite H. Qed.

(** One iteration of the loop. *)
Definition sync_one (s : scheduler) (l : list N) (i : N) : list N :=
  if decide (state_of s i = PROCESS_STATE_READY) then
    if decide (i ∈ l) then l else ordered_insert (key_lt s) i l
  else without i l.

Lemma sync_loop_spec s indices : ∀ q l,
  tables_ok s → represents (key_lt s) q l → Forall (λ i, i < 10) indices →
  ∃ q', sync_loop indices (set_rq q s) = Some (set_rq q' s) ∧
    represents (key_lt s) q' (foldl (sync_one s) l indices).
Proof.
  intros q l Ht. revert q l. induction indices as [|i rest IH]; intros q l Hq Hi; [by exists q|].
  inversion Hi as [|? ? Hlt Hrest]; subst. cbn [sync_loop foldl]. rewrite set_rq_processes.
  destruct (aget_is_Some (g_processes s) i) as [p Hp]; [by destruct Ht as [-> _]|]. rewrite Hp.
  cbn [mbind option_bind]. rewrite (in_state_of s i p _ Hp). unfold sync_one at 2.
  destruct (decide (state_of s i = PROCESS_STATE_READY)) as [Hr|Hr].
  - rewrite bool_decide_eq_true_2 by done. unfold upd_rq. rewrite set_rq_rq, set_rq_before.
    destruct (decide (i ∈ l)) as [Hin|Hout].
    + rewrite (represents_insert_again _ _ _ _ _ Hq Hin). cbn [mbind option_bind].
      rewrite set_rq_twice. by apply IH.
    + destruct (represents_insert (key_lt s) q l i (scheduler_vruntime_before s) Hq Hlt Hout)
        as (q' & -> & Hq').
      { intros j Hj. apply vruntime_before_key; [done|done|by eapply represents_lt]. }
      cbn [mbind option_bind]. rewrite set_rq_twice. by apply IH.
  - rewrite bool_decide_eq_false_2 by done. unfold upd_rq. rewrite set_rq_rq.
    destruct (represents_remove (key_lt s) q l i Hq Hlt) as (q' & -> & Hq').
    cbn [mbind option_bind]. rewrite set_rq_twice. by apply IH.
Qed.

Lemma sync_one_elem s l i j :
  j ∈ sync_one s l i ↔ if decide (j = i) then state_of s i = PROCESS_STATE_READY else j ∈ l.
Proof.
  unfold sync_one.
  destruct (decide (state_of s i = PROCESS_STATE_READY)), (decide (i ∈ l)), (decide (j = i));
    subst; rewrite ?(ordered_insert_elem (key_lt s)), ?without_elem; tauto.
Qed.

Lemma sync_fold_elem s indices : ∀ l j,
  j ∈ foldl (sync_one s) l indices ↔
    if decide (j ∈ indices) then state_of s j = PROCESS_STATE_READY else j ∈ l.
Proof.
  induction indices as [|i rest IH]; intros l j; simpl.
  - destruct (decide (j ∈ [])) as [H|]; [by apply not_elem_of_nil in H|done].
  - rewrite IH. destruct (decide (j ∈ i :: rest)) as [Hj|Hj], (decide (j ∈ rest)); try set_solver.
    + assert (j = i) as -> by set_solver. rewrite sync_one_elem. by rewrite decide_True.
    + rewrite sync_one_elem, decide_False by set_solver. done.
Qed.

Lemma process_indices_elem i : i ∈ process_indices ↔ i < 10.
Proof.
  unfold process_indices. rewrite list_elem_of_fmap. split.
  - intros (n & -> & Hn). apply elem_of_seq in Hn. change (N.to_nat MAX_PROCESSES) with 10%nat in Hn. lia.
  - intros Hi. exists (N.to_nat i). split; [lia|]. apply elem_of_seq.
    change (N.to_nat MAX_PROCESSES) with 10%nat. lia.
Qed.

(** The READY processes in their order. *)
Definition ready_order (s : scheduler) (l : list N) : Prop :=
  ordered (key_lt s) l ∧ ∀ i, i ∈ l ↔ state_of s i = PROCESS_STATE_READY.

(** Whatever the queue held, provided it was in order, it then holds exactly
    the READY processes. *)
Lemma sync_spec s l :
  tables_ok s → rq_is s l →
  ∃ q l', scheduler_sync_ready_queue s = Some (set_rq q s) ∧ represents (key_lt s) q l' ∧
    ready_order s l'.
Proof.
  intros Ht Hl. unfold scheduler_sync_ready_queue.
  assert (sync_loop process_indices s = sync_loop process_indices (set_rq (g_ready_queue s) s)) as ->
    by by rewrite set_rq_same.
  destruct (sync_loop_spec s process_indices (g_ready_queue s) l Ht Hl) as (q & -> & Hq).
  { apply Forall_forall. intros i. apply process_indices_elem. }
  exists q. eexists. split_and!; [done|exact Hq|]. split; [by destruct Hq as (? & _ & _ & ?)|].
  intros i. rewrite sync_fold_elem. destruct (decide (i ∈ process_indices)) as [|Hi]; [done|].
  rewrite process_indices_elem in Hi. split.
  - intros Hil. exfalso. apply Hi. eapply represents_lt; [exact Hl|done].
  - unfold state_of. destruct (aget (g_processes s) i) eqn:Ha; [|done].
    apply aget_Some_lt in Ha. destruct Ht as [Hlen _]. rewrite Hlen in Ha. lia.
Qed.

(** ** The invariant *)

(** Process ids are never reused: the counter stops at 0 after the last. *)
Definition pids_ok (s : scheduler) : Prop :=
  g_next_pid s < 4294967296 ∧
  (∀ i, state_of s i ≠ PROCESS_STATE_UNUSED →
     pid_of s i ≠ 0 ∧ (g_next_pid s = 0 ∨ pid_of s i < g_next_pid s)) ∧
  (∀ i j, state_of s i ≠ PROCESS_STATE_UNUSED → state_of s j ≠ PROCESS_STATE_UNUSED →
     pid_of s i = pid_of s j → i = j).

(** What holds of the tables whatever the queue holds. *)
Record base_inv (s : scheduler) : Prop := {
  inv_tables : tables_ok s;
  inv_current : g_current_process_index s = UINT32_MAX ∨ g_current_process_index s < 10;
  inv_running : ∀ i, state_of s i = PROCESS_STATE_RUNNING → i = g_current_process_index s;
  inv_pids : pids_ok s
}.

(** A queue that may be out of date. *)
Definition pre_sync (s : scheduler) : Prop := base_inv s ∧ ∃ l, rq_is s l.

(** The queue holds READY processes only, except that the current process may
    have stayed at its head when [process_yield] let it go on. *)
Definition members_ok (s : scheduler) (l : list N) : Prop :=
  ∀ i, i ∈ l → state_of s i = PROCESS_STATE_READY ∨
    (i = g_current_process_index s ∧ hd UINT32_MAX l = i ∧ state_of s i ≠ PROCESS_STATE_UNUSED).

Definition sched_inv (s : scheduler) : Prop :=
  base_inv s ∧ ∃ l, rq_is s l ∧ members_ok s l.

(** The queue is up to date. *)
Definition synced (s : scheduler) : Prop :=
  ∃ l, rq_is s l ∧ ready_order s l.

Lemma sched_inv_pre s : sched_inv s → pre_sync s.
Proof. intros (H & l & Hl & _). split; eauto. Qed.

Lemma synced_inv s : base_inv s → synced s → sched_inv s.
Proof. intros Hb (l & Hl & _ & Ho). split; [done|]. exists l. split; [done|]. intros i Hi. left. by apply Ho. Qed.

(** States that agree on what the invariant reads. *)
Definition same_core (s s' : scheduler) : Prop :=
  g_processes s' = g_processes s ∧ g_ready_queue s' = g_ready_queue s ∧
  g_sched_vruntime s' = g_sched_vruntime s ∧
  g_current_process_index s' = g_current_process_index s ∧ g_next_pid s' = g_next_pid s ∧
  length (g_process_exec s') = length (g_process_exec s) ∧
  length (g_process_stacks s') = length (g_process_stacks s) ∧
  length (g_sched_exec_start_tick s') = length (g_sched_exec_start_tick s).

Lemma same_core_key s s' : same_core s s' → key_lt s' = key_lt s.
Proof.
  intros (H1 & _ & H3 & _). unfold key_lt, vruntime, pid_of. by rewrite H1, H3.
Qed.

Lemma same_core_state s s' i : same_core s s' → state_of s' i = state_of s i.
Proof. intros (H1 & _). unfold state_of. by rewrite H1. Qed.

Lemma same_core_base s s' : same_core s s' → base_inv s → base_inv s'.
Proof.
  intros Hc [Ht Hcur Hrun Hp]. pose proof Hc as (H1 & H2 & H3 & H4 & H5 & H6 & H7 & H8).
  split; unfold tables_ok, pids_ok, pid_of, state_of in *; rewrite ?H1, ?H3, ?H4, ?H5, ?H6, ?H7, ?H8; auto.
Qed.

Lemma same_core_inv s s' : same_core s s' → sched_inv s → sched_inv s'.
Proof.
  intros Hc [Hb (l & Hl & Hm)]. split; [by eapply same_core_base|]. exists l. unfold rq_is.
  pose proof Hc as (H1 & H2 & H3 & H4 & _). rewrite (same_core_key _ _ Hc), H2. split; [done|].
  intros i Hi. rewrite (same_core_state _ _ _ Hc), H4. by apply Hm.
Qed.

Lemma same_core_pre s s' : same_core s s' → pre_sync s → pre_sync s'.
Proof.
  intros Hc [Hb (l & Hl)]. split; [by eapply same_core_base|]. exists l. unfold rq_is.
  pose proof Hc as (H1 & H2 & H3 & H4 & _). by rewrite (same_core_key _ _ Hc), H2.
Qed.

Lemma same_core_synced s s' : same_core s s' → synced s → synced s'.
Proof.
  intros Hc (l & Hl & Ho & He). exists l. unfold rq_is, ready_order.
  pose proof Hc as (H1 & H2 & _). rewrite (same_core_key _ _ Hc), H2. split_and!; [done|done|].
  intros i. by rewrite (same_core_state _ _ _ Hc).
Qed.

(** Synchronising establishes the invariant and changes nothing else. *)
Lemma sync_inv s :
  pre_sync s →
  ∃ q, scheduler_sync_ready_queue s = Some (set_rq q s) ∧ sched_inv (set_rq q s) ∧ synced (set_rq q s).
Proof.
  intros [Hb (l & Hl)]. destruct (sync_spec s l (inv_tables _ Hb) Hl) as (q & l' & E & Hq & Ho).
  assert (synced (set_rq q s)) as Hs.
  { exists l'. unfold rq_is. rewrite set_rq_rq, set_rq_key. split; [done|]. unfold ready_order.
    by rewrite set_rq_key, set_rq_state. }
  exists q. split_and!; [done| |done]. apply synced_inv; [|done].
  destruct Hb as [Ht Hc Hr Hp]. destruct s. by split.
Qed.

(** ** Changes of the process table *)

(** A process that keeps its id and its slot, and does not start to run. *)
Definition evolves (p p' : process_runtime_state) : Prop :=
  p_pid p' = p_pid p ∧ (p_state p' = PROCESS_STATE_UNUSED ↔ p_state p = PROCESS_STATE_UNUSED) ∧
  (p_state p' = PROCESS_STATE_RUNNING → p_state p = PROCESS_STATE_RUNNING).

#[export] Instance evolves_refl : Reflexive evolves.
Proof. done. Qed.

Lemma evolves_make_ready p : evolves p (process_core_make_ready p).
Proof.
  unfold process_core_make_ready, in_state. case_bool_decide as H; [|done].
  destruct p; simpl in *; subst. by split_and!.
Qed.

Lemma evolves_update_where f l :
  Forall2 evolves l (update_where f process_core_make_ready l).1.
Proof.
  rewrite update_where_fst. induction l as [|p l IH]; constructor; [|done].
  destruct (f p); [apply evolves_make_ready|done].
Qed.

Lemma evolves_aupd l i f :
  (∀ p, aget l i = Some p → evolves p (f p)) → Forall2 evolves l (aupd l i f).
Proof.
  intros Hf. apply Forall2_same_length_lookup_2; [by rewrite length_aupd|].
  intros j p p' Hp Hp'. unfold aupd in Hp'. destruct (decide (j = N.to_nat i)) as [->|Hne].
  - rewrite list_lookup_alter_eq, Hp in Hp'. simpl in Hp'. simplify_eq. apply Hf.
    by rewrite aget_lookup.
  - rewrite list_lookup_alter_ne in Hp' by done. by simplify_eq.
Qed.

Lemma set_processes_fields l s :
  g_processes (set_processes l s) = l ∧ g_ready_queue (set_processes l s) = g_ready_queue s ∧
  g_sched_vruntime (set_processes l s) = g_sched_vruntime s ∧
  g_current_process_index (set_processes l s) = g_current_process_index s ∧
  g_next_pid (set_processes l s) = g_next_pid s.
Proof. by destruct s. Qed.

(** Pointwise comparison of the tables before and after. *)
Lemma evolves_pids s l :
  Forall2 evolves (g_processes s) l → ∀ i,
  pid_of (set_processes l s) i = pid_of s i ∧
  (state_of (set_processes l s) i = PROCESS_STATE_UNUSED ↔ state_of s i = PROCESS_STATE_UNUSED) ∧
  (state_of (set_processes l s) i = PROCESS_STATE_RUNNING → state_of s i = PROCESS_STATE_RUNNING).
Proof.
  intros Hl i. unfold pid_of, state_of.
  destruct (set_processes_fields l s) as (-> & _). rewrite !aget_lookup.
  pose proof (Forall2_lookup evolves (g_processes s) l) as Hlk. rewrite Hlk in Hl.
  specialize (Hl (N.to_nat i)). inversion Hl as [p p' Hpp|]; [by destruct Hpp|done].
Qed.

Lemma pre_sync_processes s l :
  Forall2 evolves (g_processes s) l → pre_sync s → pre_sync (set_processes l s).
Proof.
  intros Hl [[Ht Hc Hr (Hn & Hp1 & Hp2)] (r & Hq)]. pose proof (evolves_pids s l Hl) as He.
  destruct (set_processes_fields l s) as (F1 & F2 & F3 & F4 & F5).
  split; [split|].
  - destruct Ht as (H1 & Ht). unfold tables_ok. rewrite F1.
    split; [by rewrite <-(Forall2_length _ _ _ Hl)|]. by destruct s.
  - by rewrite F4.
  - intros i Hi. rewrite F4. apply Hr. by apply He.
  - unfold pids_ok. rewrite F5. split_and!; [done| |].
    + intros i Hi. destruct (He i) as (-> & Hu & _). apply Hp1. tauto.
    + intros i j Hi Hj. destruct (He i) as (-> & Hu & _), (He j) as (-> & Hv & _). apply Hp2; tauto.
  - exists r. unfold rq_is. rewrite F2. eapply represents_ext; [|exact Hq]. intros i j _ _.
    destruct (He i) as (Hpi & _), (He j) as (Hpj & _).
    apply key_lt_ext; [by destruct s|by destruct s|done|done].
Qed.

(** ** Single writes *)

Lemma same_core_preempt v s : same_core s (set_preempt v s). Proof. by destruct s. Qed.
Lemma same_core_timer v s : same_core s (set_timer v s). Proof. by destruct s. Qed.
Lemma same_core_switches v s : same_core s (set_switches v s). Proof. by destruct s. Qed.
#[export] Instance same_core_refl : Reflexive same_core. Proof. by intros s. Qed.
#[export] Instance same_core_trans : Transitive same_core.
Proof.
  intros a b c (A1 & A2 & A3 & A4 & A5 & A6 & A7 & A8) (B1 & B2 & B3 & B4 & B5 & B6 & B7 & B8).
  unfold same_core. by rewrite B1, B2, B3, B4, B5, B6, B7, B8.
Qed.

Lemma aset_aupd {A} (l : list A) i f p :
  aget l i = Some p → aset l i (f p) = Some (aupd l i f).
Proof.
  intros H. rewrite aset_Some by by eapply aget_Some_lt. f_equal. unfold aupd.
  apply list_eq. intros j. rewrite aget_lookup in H. destruct (decide (j = N.to_nat i)) as [->|Hne].
  - rewrite list_lookup_alter_eq, list_lookup_insert_eq by by eapply lookup_lt_Some. by rewrite H.
  - by rewrite list_lookup_alter_ne, list_lookup_insert_ne.
Qed.

Lemma upd_process_spec s i f :
  tables_ok s → i < 10 →
  ∃ p, aget (g_processes s) i = Some p ∧
    upd_process i f s = Some (set_processes (aupd (g_processes s) i f) s).
Proof.
  intros [Hp _] Hi. destruct (aget_is_Some (g_processes s) i) as [p Hpi]; [lia|].
  exists p. split; [done|]. unfold upd_process. rewrite Hpi. cbn.
  by rewrite (aset_aupd _ _ _ _ Hpi).
Qed.

Lemma state_of_aupd s i j f :
  state_of (set_processes (aupd (g_processes s) i f) s) j =
    if decide (i = j) then default PROCESS_STATE_UNUSED (p_state ∘ f <$> aget (g_processes s) j)
    else state_of s j.
Proof.
  unfold state_of. rewrite (proj1 (set_processes_fields _ _)), aget_aupd.
  case_decide; [|done]. subst. by destruct (aget _ _).
Qed.

Lemma find_idx_lt {A} (f : N → A → bool) (l : list A) :
  length l = 10%nat → default UINT32_MAX (find_idx f l) = UINT32_MAX ∨
    ∃ i p, default UINT32_MAX (find_idx f l) = i ∧ i < 10 ∧ aget l i = Some p ∧ f i p = true.
Proof.
  intros Hl. destruct (find_idx f l) as [i|] eqn:Hf; [|by left]. right.
  apply find_idx_Some in Hf as (p & Hp & Hfp & _). exists i, p. split_and!; [done| |done|done].
  apply aget_Some_lt in Hp. lia.
Qed.

Lemma lt_10_MAX i : i < 10 → (i =? UINT32_MAX) = false.
Proof. intros. apply N.eqb_neq. unfold UINT32_MAX. lia. Qed.

Lemma lt_10_processes i : i < 10 → (MAX_PROCESSES <=? i) = false.
Proof. intros. apply N.leb_gt. by unfold MAX_PROCESSES. Qed.

Lemma find_by_pid_lt s pid :
  tables_ok s →
  process_core_find_index_by_pid (g_processes s) pid = UINT32_MAX ∨
  ∃ i p, process_core_find_index_by_pid (g_processes s) pid = i ∧ i < 10 ∧
    aget (g_processes s) i = Some p ∧ p_pid p = pid ∧ state_of s i ≠ PROCESS_STATE_UNUSED.
Proof.
  intros [Hl _]. unfold process_core_find_index_by_pid. destruct (pid =? 0); [by left|].
  destruct (find_idx_lt (λ _ p, negb (in_state PROCESS_STATE_UNUSED p) && (p_pid p =? pid))
    (g_processes s) Hl) as [H|(i & p & H & Hi & Hp & Hf)]; [by left|right].
  exists i, p. rewrite (in_state_of s i p _ Hp) in Hf. bools. done.
Qed.

(** ** Blocking, waking, ticking

    Each of these changes some processes and synchronises. *)
Lemma evolve_and_sync s l :
  sched_inv s → Forall2 evolves (g_processes s) l →
  ∃ q, scheduler_sync_ready_queue (set_processes l s) = Some (set_rq q (set_processes l s)) ∧
    sched_inv (set_rq q (set_processes l s)) ∧ synced (set_rq q (set_processes l s)).
Proof. intros Hi Hl. apply sync_inv, pre_sync_processes; [done|]. by apply sched_inv_pre. Qed.

Lemma make_ready_ok i s :
  sched_inv s → i < 10 →
  ∃ s', scheduler_make_process_ready i s = Some s' ∧ sched_inv s' ∧ synced s'.
Proof.
  intros Hi Hlt. unfold scheduler_make_process_ready.
  destruct (upd_process_spec s i process_core_make_ready (inv_tables _ (proj1 Hi)) Hlt) as (p & Hp & ->).
  cbn [mbind option_bind].
  destruct (evolve_and_sync s (aupd (g_processes s) i process_core_make_ready) Hi) as (q & -> & ? & ?).
  { apply evolves_aupd. intros. apply evolves_make_ready. }
  eauto.
Qed.

Lemma block_ok i reason channel tick target s :
  sched_inv s → i < 10 → state_of s i ≠ PROCESS_STATE_UNUSED →
  ∃ s', scheduler_block_process i reason channel tick target s = Some s' ∧ sched_inv s' ∧ synced s' ∧
    g_current_process_index s' = g_current_process_index s ∧ state_of s' i = PROCESS_STATE_BLOCKED ∧
    ∀ j, j ≠ i → state_of s' j = state_of s j.
Proof.
  intros Hi Hlt Hu. unfold scheduler_block_process.
  destruct (upd_process_spec s i (process_core_block reason channel tick target)
    (inv_tables _ (proj1 Hi)) Hlt) as (p & Hp & ->). cbn [mbind option_bind].
  unfold state_of in Hu. rewrite Hp in Hu.
  destruct (evolve_and_sync s (aupd (g_processes s) i (process_core_block reason channel tick target)) Hi)
    as (q & -> & ? & ?).
  { apply evolves_aupd. intros p' Hp'. rewrite Hp in Hp'. injection Hp' as <-.
    destruct p; simpl in *. by split_and!. }
  eexists. split; [done|]. rewrite set_rq_state. split_and!; [done|done|by destruct s| |].
  - rewrite state_of_aupd, decide_True, Hp by done. by destruct p.
  - intros j Hj. by rewrite state_of_aupd, decide_False by done.
Qed.

(** ** Writes of the virtual run time *)

Lemma write_vruntime_spec s i v :
  tables_ok s → i < 10 →
  write_vruntime i v s = Some (set_vruntime (<[N.to_nat i := v]> (g_sched_vruntime s)) s).
Proof. intros (_ & _ & _ & H & _) Hi. unfold write_vruntime. rewrite aset_Some by lia. done. Qed.

Lemma write_exec_start_spec s i v :
  tables_ok s → i < 10 → ∃ s', write_exec_start i v s = Some s' ∧ same_core s s' ∧
    g_scheduler_preempt_state s' = g_scheduler_preempt_state s ∧ g_timer s' = g_timer s ∧
    g_process_exec s' = g_process_exec s.
Proof.
  intros (_ & _ & _ & _ & H) Hi. unfold write_exec_start. rewrite aset_Some by lia.
  eexists. split; [done|]. destruct s; simpl. unfold same_core; simpl. by rewrite length_insert.
Qed.

Lemma vruntime_written s i v j :
  tables_ok s → i < 10 →
  vruntime (set_vruntime (<[N.to_nat i := v]> (g_sched_vruntime s)) s) j =
    if decide (j = i) then v else vruntime s j.
Proof.
  intros (_ & _ & _ & H & _) Hi. unfold vruntime.
  assert (g_sched_vruntime (set_vruntime (<[N.to_nat i := v]> (g_sched_vruntime s)) s) =
    <[N.to_nat i := v]> (g_sched_vruntime s)) as -> by by destruct s.
  case_decide; [subst; by rewrite aget_insert_eq by lia|by rewrite aget_insert_ne].
Qed.

(** The run time of a process that is not queued may change. *)
Lemma set_vruntime_inv s l i v :
  base_inv s → rq_is s l → i < 10 → i ∉ l →
  let s' := set_vruntime (<[N.to_nat i := v]> (g_sched_vruntime s)) s in
  base_inv s' ∧ rq_is s' l ∧ g_processes s' = g_processes s ∧
  g_current_process_index s' = g_current_process_index s.
Proof.
  intros Hb Hl Hi Hil s'. pose proof (inv_tables _ Hb) as Ht.
  split_and!; [| |by destruct s|by destruct s].
  - destruct Hb as [(T1 & T2 & T3 & T4 & T5) Hc Hr Hp]. subst s'. destruct s; simpl in *.
    split; [|done..]. unfold tables_ok. simpl. by rewrite length_insert.
  - assert (g_ready_queue s' = g_ready_queue s) as E by by destruct s. unfold rq_is. rewrite E.
    eapply represents_ext; [|exact Hl].
    intros a b Ha Hb'. apply key_lt_ext; unfold s'; rewrite ?vruntime_written by done.
    1,2: rewrite decide_False; [done|by intros ->].
    all: by destruct s.
Qed.

(** A change that keeps ids and slots, with the new current process. *)
Definition keeps (p p' : process_runtime_state) : Prop :=
  p_pid p' = p_pid p ∧ (p_state p' = PROCESS_STATE_UNUSED ↔ p_state p = PROCESS_STATE_UNUSED).

Lemma keeps_at s l i :
  Forall2 keeps (g_processes s) l →
  pid_of (set_processes l s) i = pid_of s i ∧
  (state_of (set_processes l s) i = PROCESS_STATE_UNUSED ↔ state_of s i = PROCESS_STATE_UNUSED).
Proof.
  intros Hl. unfold pid_of, state_of. destruct (set_processes_fields l s) as (-> & _).
  rewrite !aget_lookup. pose proof (Forall2_lookup keeps (g_processes s) l) as Hlk. rewrite Hlk in Hl.
  specialize (Hl (N.to_nat i)). inversion Hl as [p p' Hpp|]; [by destruct Hpp|done].
Qed.

Lemma keeps_aupd l i f :
  (∀ p, aget l i = Some p → keeps p (f p)) → Forall2 keeps l (aupd l i f).
Proof.
  intros Hf. apply Forall2_same_length_lookup_2; [by rewrite length_aupd|].
  intros j p p' Hp Hp'. unfold aupd in Hp'. destruct (decide (j = N.to_nat i)) as [->|Hne].
  - rewrite list_lookup_alter_eq, Hp in Hp'. simpl in Hp'. simplify_eq. apply Hf.
    by rewrite aget_lookup.
  - rewrite list_lookup_alter_ne in Hp' by done. by simplify_eq.
Qed.

Lemma pre_sync_current s l c :
  pre_sync s → Forall2 keeps (g_processes s) l → c < 10 →
  (∀ i, state_of (set_processes l s) i = PROCESS_STATE_RUNNING → i = c) →
  pre_sync (set_current c (set_processes l s)).
Proof.
  intros [[Ht Hc Hr (Hn & Hp1 & Hp2)] (r & Hq)] Hl Hlt Hrun.
  assert (∀ i, pid_of (set_current c (set_processes l s)) i = pid_of s i ∧
    (state_of (set_current c (set_processes l s)) i = PROCESS_STATE_UNUSED ↔
     state_of s i = PROCESS_STATE_UNUSED)) as He.
  { intros i. rewrite <-!(proj1 (keeps_at s l i Hl)), <-(proj2 (keeps_at s l i Hl)). by destruct s. }
  split; [split|].
  - destruct Ht as (H1 & Ht). split; [|by destruct s].
    rewrite <-H1, (Forall2_length _ _ _ Hl). by destruct s.
  - right. by destruct s.
  - intros i Hi. assert (g_current_process_index (set_current c (set_processes l s)) = c) as -> by by destruct s.
    apply Hrun. by destruct s.
  - assert (g_next_pid (set_current c (set_processes l s)) = g_next_pid s) as E by by destruct s.
    unfold pids_ok. rewrite E. split_and!; [done| |].
    + intros i Hi. destruct (He i) as (-> & Hu). apply Hp1. tauto.
    + intros i j Hi Hj. destruct (He i) as (-> & Hu), (He j) as (-> & Hv). apply Hp2; tauto.
  - exists r. unfold rq_is.
    assert (g_ready_queue (set_current c (set_processes l s)) = g_ready_queue s) as -> by by destruct s.
    eapply represents_ext; [|exact Hq]. intros i j _ _.
    apply key_lt_ext; [by destruct s|by destruct s|apply He|apply He].
Qed.

(** ** Switching *)

(** The run time [scheduler_account_runtime] writes. *)
Definition charged (s : scheduler) (c : N) : N :=
  let started := default 0 (aget (g_sched_exec_start_tick s) c) in
  let now := kernel_ticks_read s in
  u64 (vruntime s c + (if started <? now then now - started else 1)).

(** What the two parts of a switch leave alone. *)
Definition same_rest (s s' : scheduler) : Prop :=
  g_process_exec s' = g_process_exec s ∧ g_scheduler_preempt_state s' = g_scheduler_preempt_state s ∧
  g_timer s' = g_timer s ∧ g_next_pid s' = g_next_pid s ∧ ∀ i, pid_of s' i = pid_of s i.

Lemma account_ok s l c :
  base_inv s → rq_is s l → c < 10 → (state_of s c = PROCESS_STATE_RUNNING → c ∉ l) →
  ∃ s', scheduler_account_runtime c s = Some s' ∧ base_inv s' ∧ rq_is s' l ∧
    g_processes s' = g_processes s ∧ g_current_process_index s' = g_current_process_index s ∧
    same_rest s s' ∧
    ∀ j, vruntime s' j = if decide (j = c ∧ state_of s c = PROCESS_STATE_RUNNING) then charged s c
                         else vruntime s j.
Proof.
  intros Hb Hl Hc Hrun. pose proof (inv_tables _ Hb) as Ht. unfold scheduler_account_runtime.
  rewrite lt_10_processes by done.
  destruct (aget_is_Some (g_processes s) c) as [p Hp]; [destruct Ht; lia|]. rewrite Hp.
  cbn [mbind option_bind]. rewrite (in_state_of s c p _ Hp).
  destruct (decide (state_of s c = PROCESS_STATE_RUNNING)) as [Hr|Hr].
  2:{ rewrite bool_decide_eq_false_2 by done. cbn [negb]. exists s. split_and!; try done.
      intros j. rewrite decide_False; [done|tauto]. }
  rewrite bool_decide_eq_true_2 by done. cbn [negb].
  destruct (aget_is_Some (g_sched_exec_start_tick s) c) as [started Hst]; [destruct Ht as (?&?&?&?&?); lia|].
  destruct (aget_is_Some (g_sched_vruntime s) c) as [v Hv]; [destruct Ht as (?&?&?&?&?); lia|].
  rewrite Hst. cbn [mbind option_bind]. rewrite Hv. cbn [mbind option_bind].
  rewrite write_vruntime_spec by done. cbn [mbind option_bind].
  set (nv := u64 _). assert (nv = charged s c) as Hnv.
  { unfold nv, charged, vruntime. by rewrite Hst, Hv. }
  destruct (set_vruntime_inv s l c nv Hb Hl Hc (Hrun Hr)) as (Hb1 & Hl1 & Hp1 & Hc1).
  set (s1 := set_vruntime _ s) in *.
  destruct (write_exec_start_spec s1 c (kernel_ticks_read s) (inv_tables _ Hb1) Hc)
    as (s' & E & Hcore & Hpre & Htm & Hex).
  exists s'. rewrite E. pose proof Hcore as (C1 & C2 & C3 & C4 & C5 & _).
  split_and!; [done|by eapply same_core_base| |congruence|congruence| |].
  - unfold rq_is. by rewrite (same_core_key _ _ Hcore), C2.
  - split_and!; [rewrite Hex|rewrite Hpre|rewrite Htm|rewrite C5|intros i; unfold pid_of; rewrite C1];
      unfold s1; by destruct s.
  - intros j. unfold vruntime at 1. rewrite C3. fold (vruntime s1 j).
    unfold s1. rewrite vruntime_written, Hnv by done.
    destruct (decide (j = c)), (decide (j = c ∧ _)); try tauto.
Qed.

#[export] Instance keeps_trans : Transitive keeps.
Proof. intros a b c [H1 H2] [H3 H4]. split; [congruence|tauto]. Qed.

Lemma set_processes_twice l l' s : set_processes l (set_processes l' s) = set_processes l s.
Proof. by destruct s. Qed.
Lemma set_processes_same s : set_processes (g_processes s) s = s.
Proof. by destruct s. Qed.

(** The process table after the two state changes of a switch. *)
Definition switched_table (s : scheduler) (c n : N) : list process_runtime_state :=
  aupd (if decide (state_of s c = PROCESS_STATE_RUNNING)
        then aupd (g_processes s) c (set_state PROCESS_STATE_READY) else g_processes s) n
    (λ p, set_switch_count (u32 (p_switch_count p + 1)) (set_state PROCESS_STATE_RUNNING p)).

Lemma switched_table_keeps s c n :
  state_of s n ≠ PROCESS_STATE_UNUSED → c ≠ n → Forall2 keeps (g_processes s) (switched_table s c n).
Proof.
  intros Hn Hne. unfold switched_table.
  assert (∀ p, aget (g_processes s) n = Some p → p_state p ≠ PROCESS_STATE_UNUSED) as Hpn
    by (intros p Hp; unfold state_of in Hn; by rewrite Hp in Hn).
  case_decide as Hr.
  - trans (aupd (g_processes s) c (set_state PROCESS_STATE_READY)).
    + apply keeps_aupd. intros p Hp. unfold state_of in Hr. rewrite Hp in Hr.
      destruct p; simpl in *. split; [done|]. by subst.
    + apply keeps_aupd. intros p Hp. rewrite aget_aupd_ne in Hp by done. specialize (Hpn p Hp).
      destruct p; simpl in *. by split.
  - apply keeps_aupd. intros p Hp. specialize (Hpn p Hp). destruct p; simpl in *. by split.
Qed.

Lemma switched_table_state s c n j :
  n < 10 → tables_ok s → c ≠ n →
  state_of (set_processes (switched_table s c n) s) j =
    if decide (j = n) then PROCESS_STATE_RUNNING
    else if decide (j = c ∧ state_of s c = PROCESS_STATE_RUNNING) then PROCESS_STATE_READY
    else state_of s j.
Proof.
  intros Hn [Ht _] Hne. unfold state_of at 1. rewrite (proj1 (set_processes_fields _ _)).
  unfold switched_table. rewrite aget_aupd. destruct (decide (n = j)) as [<-|Hnj].
  - rewrite (decide_True (P := n = n)) by done. case_decide as Hr; rewrite ?aget_aupd_ne by done.
    all: destruct (aget_is_Some (g_processes s) n) as [p ->]; [lia|]; by destruct p.
  - rewrite (decide_False (P := j = n)) by congruence. destruct (decide (state_of s c = PROCESS_STATE_RUNNING)) as [Hr|Hr].
    + rewrite aget_aupd. destruct (decide (c = j)) as [<-|Hcj].
      * rewrite decide_True by auto. unfold state_of in Hr.
        destruct (aget (g_processes s) c) as [p|]; [by destruct p|done].
      * rewrite decide_False by naive_solver. done.
    + rewrite decide_False by tauto. done.
Qed.

(** The two writes of the code give that table. *)
Lemma switch_writes s c n :
  tables_ok s → c < 10 → n < 10 →
  ∃ s2, (if bool_decide (state_of s c = PROCESS_STATE_RUNNING)
         then upd_process c (set_state PROCESS_STATE_READY) s else Some s) = Some s2 ∧
    upd_process n (λ p, set_switch_count (u32 (p_switch_count p + 1))
      (set_state PROCESS_STATE_RUNNING p)) s2 = Some (set_processes (switched_table s c n) s).
Proof.
  intros Ht Hc Hn. unfold switched_table. case_decide as Hr.
  - rewrite bool_decide_eq_true_2 by done.
    destruct (upd_process_spec s c (set_state PROCESS_STATE_READY) Ht Hc) as (? & _ & ->).
    eexists. split; [done|]. set (s2 := set_processes _ s).
    assert (tables_ok s2) as Ht2.
    { destruct Ht as (? & ?). split; [|by destruct s]. unfold s2.
      rewrite (proj1 (set_processes_fields _ _)). by rewrite length_aupd. }
    destruct (upd_process_spec s2 n (λ p0, set_switch_count (u32 (p_switch_count p0 + 1))
      (set_state PROCESS_STATE_RUNNING p0)) Ht2 Hn) as (? & _ & ->).
    unfold s2. by rewrite set_processes_twice, (proj1 (set_processes_fields _ _)).
  - rewrite bool_decide_eq_false_2 by done. exists s. split; [done|].
    by destruct (upd_process_spec s n (λ p0, set_switch_count (u32 (p_switch_count p0 + 1))
      (set_state PROCESS_STATE_RUNNING p0)) Ht Hn) as (? & _ & ->).
Qed.

(** The new current process, its start tick, and the synchronisation. *)
Lemma switch_finish s l n :
  pre_sync s → Forall2 keeps (g_processes s) l → n < 10 →
  (∀ i, state_of (set_processes l s) i = PROCESS_STATE_RUNNING → i = n) →
  ∃ s', (let s := set_current n (set_processes l s) in
         s ← write_exec_start n (kernel_ticks_read s) s; scheduler_sync_ready_queue s) = Some s' ∧
    sched_inv s' ∧ synced s' ∧ g_current_process_index s' = n ∧ same_rest s s' ∧
    (∀ j, state_of s' j = state_of (set_processes l s) j) ∧ (∀ j, vruntime s' j = vruntime s j).
Proof.
  intros Hp Hk Hn Hr. pose proof (pre_sync_current s l n Hp Hk Hn Hr) as H1. cbv zeta.
  set (s1 := set_current n _) in *.
  destruct (write_exec_start_spec s1 n (kernel_ticks_read s1) (inv_tables _ (proj1 H1)) Hn)
    as (s2 & -> & Hc & Hpre & Htm & Hex). cbn [mbind option_bind].
  destruct (sync_inv s2 (same_core_pre _ _ Hc H1)) as (q & -> & Hinv & Hsync).
  pose proof Hc as (C1 & C2 & C3 & C4 & C5 & _).
  exists (set_rq q s2). split_and!; [done|done|done| | | |].
  - assert (g_current_process_index (set_rq q s2) = g_current_process_index s2) as -> by by destruct s2.
    rewrite C4. by destruct s.
  - assert (∀ i, pid_of (set_rq q s2) i = pid_of s i) as Hpid.
    { intros i. transitivity (pid_of (set_processes l s) i); [|by apply keeps_at].
      transitivity (pid_of s2 i); [by destruct s2|]. unfold pid_of. rewrite C1. by destruct s. }
    unfold same_rest. split_and!; [| | | |done].
    1: transitivity (g_process_exec s2); [by destruct s2|rewrite Hex].
    2: transitivity (g_scheduler_preempt_state s2); [by destruct s2|rewrite Hpre].
    3: transitivity (g_timer s2); [by destruct s2|rewrite Htm].
    4: transitivity (g_next_pid s2); [by destruct s2|rewrite C5].
    all: by destruct s.
  - intros j. rewrite set_rq_state. rewrite (same_core_state _ _ _ Hc). by destruct s.
  - intros j. transitivity (vruntime s2 j); [by destruct s2|]. unfold vruntime. rewrite C3. by destruct s.
Qed.

Lemma switch_ok s l c n :
  base_inv s → rq_is s l → c = g_current_process_index s → c < 10 → n < 10 → n ≠ c →
  state_of s n = PROCESS_STATE_READY → (state_of s c = PROCESS_STATE_RUNNING → c ∉ l) →
  ∃ s', scheduler_switch_process c n s = Some s' ∧ sched_inv s' ∧ synced s' ∧
    g_current_process_index s' = n ∧ same_rest s s' ∧
    (∀ j, state_of s' j =
       if decide (j = n) then PROCESS_STATE_RUNNING
       else if decide (j = c ∧ state_of s c = PROCESS_STATE_RUNNING) then PROCESS_STATE_READY
       else state_of s j) ∧
    (∀ j, vruntime s' j = if decide (j = c ∧ state_of s c = PROCESS_STATE_RUNNING) then charged s c
                          else vruntime s j).
Proof.
  intros Hb Hl Hcur Hc Hn Hne Hst Hrun. unfold scheduler_switch_process.
  destruct (account_ok s l c Hb Hl Hc Hrun) as (s1 & -> & Hb1 & Hl1 & Hp1 & Hc1 & Hr1 & Hv1).
  pose proof (inv_tables _ Hb) as Ht. pose proof (inv_tables _ Hb1) as Ht1.
  destruct (aget_is_Some (g_processes s) c) as [p Hp]; [destruct Ht; lia|].
  assert (∀ j, state_of s1 j = state_of s j) as Hs1 by (intros j; unfold state_of; by rewrite Hp1).
  destruct (switch_writes s1 c n Ht1 Hc Hn) as (s2 & E1 & E2). rewrite Hs1 in E1.
  cbn [mbind option_bind]. rewrite Hp1, Hp. cbn [mbind option_bind].
  rewrite (in_state_of s c p _ Hp), E1. cbn [mbind option_bind]. rewrite E2. cbn [mbind option_bind].
  assert (∀ j, state_of (set_processes (switched_table s1 c n) s1) j =
    if decide (j = n) then PROCESS_STATE_RUNNING
    else if decide (j = c ∧ state_of s c = PROCESS_STATE_RUNNING) then PROCESS_STATE_READY
    else state_of s j) as Hst'.
  { intros j. rewrite switched_table_state by auto. by rewrite !Hs1. }
  destruct (switch_finish s1 (switched_table s1 c n) n) as (s' & E & Hinv & Hsync & Hcur' & Hrest & Hstate & Hvr).
  - split; eauto.
  - apply switched_table_keeps; [by rewrite Hs1, Hst|done].
  - done.
  - intros i Hi. rewrite Hst' in Hi. destruct (decide (i = n)) as [|Hin]; [done|].
    destruct (decide (i = c ∧ _)) as [Hic|Hic]; [done|]. exfalso. apply Hic. pose proof (inv_running _ Hb i Hi). subst. done.
  - cbv zeta in E. exists s'. split_and!; [exact E|done|done|done| | |].
    + destruct Hr1 as (A1 & A2 & A3 & A4 & A5), Hrest as (B1 & B2 & B3 & B4 & B5).
      unfold same_rest. rewrite B1, B2, B3, B4. split_and!; [done..|]. intros i. by rewrite B5.
    + intros j. by rewrite Hstate, Hst'.
    + intros j. by rewrite Hvr, Hv1.
Qed.
