(* ===== verification/SchedulerOps.v ===== *)
(** * The scheduler's operations keep its invariant

    Each function of [Scheduler.v], from a state with [sched_inv]: it is
    defined, what it leaves, and what it returns. *)

From S2P Require Import Prelude ProcessCore RuntimePolicy ReadyQueue Scheduler.
From S2P Require Import ReadyQueueTree ReadyQueueBalance ReadyQueueInsert ReadyQueueRemove ReadyQueueSpec.
From S2P Require Import SchedulerProofs.

Local Open Scope N_scope.

Section operations.
Context (SF PRE cap : bool) (base first_entry : N).

(** ** What the operations leave alone *)

(** The slots in use, their process ids and their stack pointers. *)
Definition frame (s s' : scheduler) : Prop :=
  g_process_exec s' = g_process_exec s ∧ g_next_pid s' = g_next_pid s ∧
  ∀ i, pid_of s' i = pid_of s i ∧
    (state_of s' i = PROCESS_STATE_UNUSED ↔ state_of s i = PROCESS_STATE_UNUSED).

#[export] Instance frame_refl : Reflexive frame.
Proof. by intros s. Qed.
#[export] Instance frame_trans : Transitive frame.
Proof.
  intros a b c (A1 & A2 & A3) (B1 & B2 & B3). split_and!; [congruence|congruence|]. intros i.
  destruct (A3 i) as [A A'], (B3 i) as [B B']. split; [congruence|tauto].
Qed.

Lemma same_core_frame s s' :
  same_core s s' → g_process_exec s' = g_process_exec s → frame s s'.
Proof.
  intros Hc He. pose proof Hc as (H1 & _ & _ & _ & H5 & _). split_and!; [done|done|]. intros i.
  unfold pid_of. by rewrite H1, (same_core_state _ _ _ Hc).
Qed.

Lemma keeps_frame s l : Forall2 keeps (g_processes s) l → frame s (set_processes l s).
Proof. intros Hl. split_and!; [by destruct s|by destruct s|]. intros i. by apply keeps_at. Qed.

Lemma evolves_keeps l l' : Forall2 evolves l l' → Forall2 keeps l l'.
Proof. intros H. eapply Forall2_impl; [exact H|]. intros p p' (H1 & H2 & _). by split. Qed.

Lemma set_rq_frame q s : frame s (set_rq q s).
Proof. split_and!; [by destruct s|by destruct s|]. intros i. by destruct s. Qed.

(** The processes that exist have stacks. *)
Definition stacks_ok (s : scheduler) : Prop :=
  ∀ i, state_of s i ≠ PROCESS_STATE_UNUSED →
    ∃ x, aget (g_process_exec s) i = Some x ∧
      scheduler_stack_pointer_in_range (x_stack_pointer x) = true ∧
      scheduler_stack_pointer_is_aligned (x_stack_pointer x) = true.

Lemma frame_stacks s s' : frame s s' → stacks_ok s → stacks_ok s'.
Proof. intros (He & _ & Hf) Hs i Hi. rewrite He. apply Hs. destruct (Hf i) as [_ Hu]. tauto. Qed.

(** ** The tick *)

(** What a tick may change: the queue, and sleepers become READY. *)
Definition tick_rel (s s' : scheduler) : Prop :=
  frame s s' ∧ g_current_process_index s' = g_current_process_index s ∧
  ∀ i, (state_of s i = PROCESS_STATE_RUNNING ↔ state_of s' i = PROCESS_STATE_RUNNING) ∧
    (state_of s i = PROCESS_STATE_READY → state_of s' i = PROCESS_STATE_READY) ∧
    (state_of s i = PROCESS_STATE_ZOMBIE → state_of s' i = PROCESS_STATE_ZOMBIE).

#[export] Instance tick_rel_refl : Reflexive tick_rel.
Proof. intros s. split; [done|]. split; [done|]. intros i. split_and!; done. Qed.
#[export] Instance tick_rel_trans : Transitive tick_rel.
Proof.
  intros a b c (A1 & A2 & A3) (B1 & B2 & B3). split; [by trans b|]. split; [congruence|].
  intros i. specialize (A3 i). specialize (B3 i). tauto.
Qed.

Lemma woken_state f s i st :
  st ≠ PROCESS_STATE_BLOCKED →
  state_of s i = st →
  state_of (set_processes (update_where f process_core_make_ready (g_processes s)).1 s) i = st.
Proof.
  intros Hst. unfold state_of. rewrite (proj1 (set_processes_fields _ _)).
  rewrite update_where_fst, !aget_lookup, list_lookup_fmap.
  destruct (g_processes s !! N.to_nat i) as [p|]; [|done]. simpl. intros <-.
  destruct (f p); [|done]. unfold process_core_make_ready, in_state.
  by rewrite bool_decide_eq_false_2.
Qed.

Lemma woken_tick_rel f s q :
  tick_rel s (set_rq q (set_processes (update_where f process_core_make_ready (g_processes s)).1 s)).
Proof.
  pose proof (evolves_update_where f (g_processes s)) as He.
  split; [|split; [by destruct s|]].
  - etrans; [apply keeps_frame, evolves_keeps, He|apply set_rq_frame].
  - intros i. rewrite set_rq_state. split_and!; [|by apply woken_state..].
    split; [by apply woken_state|]. by apply evolves_pids.
Qed.

Lemma process_tick_ok tick s :
  sched_inv s →
  ∃ s', process_tick PRE tick s = Some s' ∧ sched_inv s' ∧ synced s' ∧ tick_rel s s'.
Proof.
  intros Hi. unfold process_tick.
  set (s1 := set_preempt _ s). assert (same_core s s1) as Hc by apply same_core_preempt.
  apply (same_core_inv _ _ Hc) in Hi.
  assert (Forall2 evolves (g_processes s1) (process_core_wake_sleepers (g_processes s1) tick).1) as He
    by apply evolves_update_where.
  destruct (evolve_and_sync s1 _ Hi He) as (q & -> & Hinv & Hsync).
  eexists. split_and!; [done|done|done|]. trans s1; [|apply woken_tick_rel].
  split; [apply same_core_frame; [done|by destruct s]|]. split; [by destruct s|].
  intros i. by rewrite (same_core_state _ _ i Hc).
Qed.

Lemma same_core_tick s s' :
  same_core s s' → g_process_exec s' = g_process_exec s → tick_rel s s'.
Proof.
  intros Hc He. pose proof Hc as (_ & _ & _ & H & _). split; [by apply same_core_frame|].
  split; [done|]. intros i. by rewrite (same_core_state _ _ i Hc).
Qed.

Lemma tick_isr_ok regs s :
  sched_inv s →
  ∃ s', systimer_tick_isr PRE regs s = Some s' ∧ sched_inv s' ∧ tick_rel s s' ∧ (synced s → synced s').
Proof.
  intros Hi. unfold systimer_tick_isr. case_match; [|exists s; split_and!; done].
  destruct (g_timer s) as [tk log last stalled ms win latched].
  set (s1 := set_timer _ s). pose proof (same_core_timer (Timer (u64 (tk + 1)) (u32 (log + 1)) last
    stalled ms (u32 (win + 1)) latched) s : same_core s s1) as Hc.
  destruct (process_tick_ok (u64 (tk + 1)) s1 (same_core_inv _ _ Hc Hi)) as (s2 & -> & Hi2 & Hs2 & Hr2).
  cbn [mbind option_bind]. repeat case_match; simplify_eq.
  all: (eexists; split; [reflexivity|]); (split; [eapply same_core_inv; [apply same_core_timer|done]|]);
    (split; [|intros _; eapply same_core_synced; [apply same_core_timer|done]]).
  all: trans s1; [apply same_core_tick; [done|by destruct s]|]; trans s2; [done|].
  all: apply same_core_tick; [apply same_core_timer|by destruct s2].
Qed.

Lemma set_latched_core v s : same_core s (set_latched v s) ∧ g_process_exec (set_latched v s) = g_process_exec s.
Proof. unfold set_latched. destruct (g_timer s). split; [apply same_core_timer|by destruct s]. Qed.

Lemma poll_ok regs s :
  sched_inv s →
  ∃ s', runtime_poll_timer_delivery PRE regs s = Some s' ∧ sched_inv s' ∧ tick_rel s s' ∧
    (synced s → synced s').
Proof.
  intros Hi. unfold runtime_poll_timer_delivery. repeat (case_match; [exists s; split_and!; done|]).
  destruct (set_latched_core 1 s) as [Hc He].
  destruct (tick_isr_ok regs (set_latched 1 s) (same_core_inv _ _ Hc Hi)) as (s2 & -> & Hi2 & Hr2 & Hs2).
  cbn [mbind option_bind]. destruct (set_latched_core 0 s2) as [Hc2 He2].
  eexists. split_and!; [done|by eapply same_core_inv| |].
  - trans (set_latched 1 s); [by apply same_core_tick|]. trans s2; [done|by apply same_core_tick].
  - intros Hs. eapply same_core_synced; [done|]. apply Hs2. by eapply same_core_synced.
Qed.
(** ** Changes that leave the queue *)

(** The queue may be out of date afterwards in two ways: READY processes are
    missing from it, and the current process may be at its head. *)
Lemma update_inv s l :
  sched_inv s → Forall2 keeps (g_processes s) l →
  (∀ i, state_of (set_processes l s) i = PROCESS_STATE_RUNNING → i = g_current_process_index s) →
  (∀ i, i ≠ g_current_process_index s → state_of s i = PROCESS_STATE_READY →
     state_of (set_processes l s) i = PROCESS_STATE_READY) →
  state_of s (g_current_process_index s) ≠ PROCESS_STATE_READY ∨
    state_of (set_processes l s) (g_current_process_index s) = PROCESS_STATE_READY ∨
    g_sched_rq_leftmost (g_ready_queue s) = g_current_process_index s →
  sched_inv (set_processes l s).
Proof.
  intros [Hb (r & Hq & Hm)] Hl Hrun Hready Hcur.
  assert (∀ i, state_of (set_processes l s) i = PROCESS_STATE_UNUSED ↔ state_of s i = PROCESS_STATE_UNUSED)
    as Hu by (intros i; by apply keeps_at).
  pose proof (represents_leftmost _ _ _ Hq) as Hhd.
  split.
  - pose proof Hb as [(H1 & Ht) Hc _ (Hn & Hp1 & Hp2)].
    assert (∀ i, pid_of (set_processes l s) i = pid_of s i) as Hpid by (intros i; by apply keeps_at).
    destruct (set_processes_fields l s) as (F1 & _ & _ & F4 & F5). split.
    + split; [rewrite F1, <-H1; symmetry; by eapply Forall2_length|by destruct s].
    + by rewrite F4.
    + by rewrite F4.
    + unfold pids_ok. rewrite F5. split_and!; [done| |].
      * intros i Hi. rewrite Hpid. apply Hp1. by rewrite <-Hu.
      * intros i j Hi Hj. rewrite !Hpid. apply Hp2; by rewrite <-Hu.
  - exists r. split.
    + unfold rq_is. assert (g_ready_queue (set_processes l s) = g_ready_queue s) as -> by by destruct s.
      eapply represents_ext; [|exact Hq]. intros i j _ _.
      apply key_lt_ext; [by destruct s|by destruct s|by apply keeps_at..].
    + intros i Hi. assert (g_current_process_index (set_processes l s) = g_current_process_index s)
        as -> by by destruct s.
      destruct (decide (i = g_current_process_index s)) as [->|Hne].
      * destruct (Hm _ Hi) as [Hr|(_ & Hh & Hnu)].
        -- destruct Hcur as [?|[?|Hlm]]; [done|by left|right]. split_and!; [done|congruence|].
           rewrite Hu, Hr. done.
        -- right. split_and!; [done|done|]. by rewrite Hu.
      * left. destruct (Hm _ Hi) as [Hr|(? & _)]; [by apply Hready|done].
Qed.

(** A write to the current process that keeps its id and its use of the slot. *)
Lemma write_current_inv s f :
  sched_inv s → g_current_process_index s < 10 →
  (∀ p, aget (g_processes s) (g_current_process_index s) = Some p → keeps p (f p)) →
  (state_of s (g_current_process_index s) ≠ PROCESS_STATE_READY ∨
   (∀ p, p_state (f p) = p_state p) ∨
   g_sched_rq_leftmost (g_ready_queue s) = g_current_process_index s) →
  ∃ s', upd_process (g_current_process_index s) f s = Some s' ∧ sched_inv s' ∧ frame s s' ∧
    g_current_process_index s' = g_current_process_index s ∧
    g_ready_queue s' = g_ready_queue s ∧ g_timer s' = g_timer s ∧
    (∀ i, i ≠ g_current_process_index s → aget (g_processes s') i = aget (g_processes s) i) ∧
    aget (g_processes s') (g_current_process_index s) =
      f <$> aget (g_processes s) (g_current_process_index s).
Proof.
  intros Hi Hc Hf Hcase.
  destruct (upd_process_spec s _ f (inv_tables _ (proj1 Hi)) Hc) as (p & Hp & ->).
  assert (Forall2 keeps (g_processes s) (aupd (g_processes s) (g_current_process_index s) f)) as Hk
    by by apply keeps_aupd.
  assert (∀ i, i ≠ g_current_process_index s →
    state_of (set_processes (aupd (g_processes s) (g_current_process_index s) f) s) i = state_of s i) as Hs
    by (intros i Hne; by rewrite state_of_aupd, decide_False).
  eexists. split_and!; [done| |by apply keeps_frame|by destruct s..| |].
  - apply update_inv; [done|done| | |].
    + intros i Hr. destruct (decide (i = g_current_process_index s)) as [|Hne]; [done|].
      rewrite Hs in Hr by done. by apply (inv_running _ (proj1 Hi)).
    + intros i Hne. by rewrite Hs.
    + destruct Hcase as [?|[Heq|?]]; [by left| |by right; right].
      destruct (decide (state_of s (g_current_process_index s) = PROCESS_STATE_READY)) as [Hr|]; [|by left].
      right; left. rewrite state_of_aupd, decide_True, Hp by done. simpl. rewrite Heq.
      unfold state_of in Hr. by rewrite Hp in Hr.
  - intros i Hne. rewrite (proj1 (set_processes_fields _ _)). by apply aget_aupd_ne.
  - rewrite (proj1 (set_processes_fields _ _)). apply aget_aupd_eq.
Qed.

(** The process that would be picked. *)
Lemma pick_cases s :
  sched_inv s →
  scheduler_pick_next_ready s = UINT32_MAX ∨
  (scheduler_pick_next_ready s < 10 ∧
   (scheduler_pick_next_ready s = g_current_process_index s ∨
    state_of s (scheduler_pick_next_ready s) = PROCESS_STATE_READY)).
Proof.
  intros [Hb (l & Hq & Hm)]. unfold scheduler_pick_next_ready.
  rewrite (represents_leftmost _ _ _ Hq). destruct l as [|i l]; [by left|right]. simpl.
  split; [eapply represents_lt; [exact Hq|by left]|].
  destruct (Hm i) as [?|(? & _)]; [by left|by right|by left].
Qed.

(** ** [process_yield] *)

Definition machine_inv (s : scheduler) : Prop := sched_inv s ∧ stacks_ok s.

(** A process is running: it is the current one. *)
Definition runs (s : scheduler) (i : N) : Prop :=
  i < 10 ∧ g_current_process_index s = i ∧ state_of s i = PROCESS_STATE_RUNNING.

(** The current process waits in [process_yield] for an interrupt. *)
Definition idle (s : scheduler) : Prop :=
  g_current_process_index s < 10 ∧
  state_of s (g_current_process_index s) ≠ PROCESS_STATE_UNUSED ∧
  state_of s (g_current_process_index s) ≠ PROCESS_STATE_RUNNING.

(** No process has been started and the ready queue is empty. *)
Definition nothing_to_start (s : scheduler) : Prop :=
  g_current_process_index s = UINT32_MAX ∧ rq_is s [].

(** What a call that gives up the processor leads to, from the slot [c]. *)
Definition outcome_ok (c : N) (o : outcome) : Prop :=
  match o with
  | Continues s' => machine_inv s' ∧ runs s' c
  | Switches s' from to => machine_inv s' ∧ synced s' ∧ from = c ∧ to ≠ c ∧ runs s' to
  | Starts s' to => machine_inv s' ∧ synced s' ∧ c = UINT32_MAX ∧ runs s' to
  | Idles s' => machine_inv s' ∧ idle s' ∧ g_current_process_index s' = c
  | Halts s' reason =>
      reason = DIAGD_NO_RUNNABLE_TASK ∨
      c = UINT32_MAX ∧ reason = DIAGD_BAD_NEXT_INDEX ∧ nothing_to_start s'
  end.

Lemma machine_inv_tick s s' : tick_rel s s' → sched_inv s' → machine_inv s → machine_inv s'.
Proof. intros (Hf & _) Hi [_ Hs]. split; [done|]. by eapply frame_stacks. Qed.

Lemma machine_inv_core s s' :
  same_core s s' → g_process_exec s' = g_process_exec s → machine_inv s → machine_inv s'.
Proof.
  intros Hc He [Hi Hs]. split; [by eapply same_core_inv|]. eapply frame_stacks; [|done].
  by apply same_core_frame.
Qed.

Lemma preempt_enabled_core s :
  same_core s (preempt_enabled PRE cap s) ∧ g_process_exec (preempt_enabled PRE cap s) = g_process_exec s.
Proof. split; [apply same_core_preempt|by destruct s]. Qed.

Lemma runs_core s s' i : same_core s s' → runs s i → runs s' i.
Proof.
  intros Hc (Hi & Hcur & Hr). pose proof Hc as (_ & _ & _ & H & _).
  split_and!; [done|congruence|by rewrite (same_core_state _ _ _ Hc)].
Qed.

(** With the stacks in order the targets of a switch pass the checks. *)
Lemma validate_ok s c n :
  stacks_ok s → c < 10 → n < 10 → state_of s c ≠ PROCESS_STATE_UNUSED →
  state_of s n ≠ PROCESS_STATE_UNUSED →
  scheduler_validate_switch_targets c n s = Some None.
Proof.
  intros Hs Hc Hn Huc Hun. unfold scheduler_validate_switch_targets.
  rewrite !lt_10_processes by done.
  destruct (Hs c Huc) as (x & -> & Hr & Ha), (Hs n Hun) as (y & -> & Hr' & Ha'). cbind.
  by rewrite Hr, Hr', Ha, Ha'.
Qed.

Lemma same_rest_frame s s' :
  same_rest s s' →
  (∀ i, state_of s' i = PROCESS_STATE_UNUSED ↔ state_of s i = PROCESS_STATE_UNUSED) → frame s s'.
Proof. intros (H1 & _ & _ & H4 & H5) Hu. split_and!; [done|done|]. intros i. by split. Qed.

(** The process picked is another one: the table and the run times after the
    switch. *)
Definition switched (s s' : scheduler) (c n : N) : Prop :=
  (∀ j, state_of s' j =
     if decide (j = n) then PROCESS_STATE_RUNNING
     else if decide (j = c ∧ state_of s c = PROCESS_STATE_RUNNING) then PROCESS_STATE_READY
     else state_of s j) ∧
  (∀ j, vruntime s' j =
     if decide (j = c ∧ state_of s c = PROCESS_STATE_RUNNING) then charged s c else vruntime s j) ∧
  (∀ j, pid_of s' j = pid_of s j) ∧ g_timer s' = g_timer s.

Lemma yield_to_switches s :
  machine_inv s → g_current_process_index s < 10 →
  state_of s (g_current_process_index s) ≠ PROCESS_STATE_UNUSED →
  scheduler_pick_next_ready s ≠ UINT32_MAX → scheduler_pick_next_ready s ≠ g_current_process_index s →
  let c := g_current_process_index s in let n := scheduler_pick_next_ready s in
  ∃ s', yield_to PRE cap true c n s = Some (Switches s' c n) ∧ machine_inv s' ∧ synced s' ∧ runs s' n ∧
    switched s s' c n.
Proof.
  intros [Hi Hs] Hc Hu Hne Hnc c n. subst c n. pose proof (pick_cases s Hi) as [?|[Hlt [?|Hready]]]; [done|done|].
  unfold yield_to. destruct (N.eqb_spec (scheduler_pick_next_ready s) (g_current_process_index s)) as [?|_]; [done|].
  rewrite validate_ok by (done || by rewrite Hready). cbind.
  set (s1 := preempt_enabled PRE cap (set_switches _ s)).
  assert (same_core s s1) as Hcore by (etrans; [apply same_core_switches|apply preempt_enabled_core]).
  assert (g_process_exec s1 = g_process_exec s) as Hex by by destruct s.
  assert (g_timer s1 = g_timer s ∧ g_sched_exec_start_tick s1 = g_sched_exec_start_tick s) as [Htm Hxs]
    by by destruct s.
  pose proof (machine_inv_core s s1 Hcore Hex (conj Hi Hs)) as [Hi1 Hs1].
  pose proof Hcore as (C1 & C2 & C3 & C4 & _).
  assert (∀ j, state_of s1 j = state_of s j) as Hst1 by (intros j; by apply same_core_state).
  destruct Hi1 as [Hb1 (l & Hl & Hm)].
  destruct (switch_ok s1 l (g_current_process_index s) (scheduler_pick_next_ready s) Hb1 Hl)
    as (s' & -> & Hi' & Hsync & Hcur & Hrest & Hst & Hvr); try done.
  { by rewrite Hst1. }
  { rewrite Hst1. intros Hr Hin. destruct (Hm _ Hin) as [Hr'|(_ & Hh & _)].
    - rewrite Hst1 in Hr'. congruence.
    - apply Hnc. unfold scheduler_pick_next_ready. rewrite <-C2, (represents_leftmost _ _ _ Hl).
      congruence. }
  cbind. exists s'. rewrite !Hst1 in Hst. split_and!; [done| |done| |].
  - split; [done|]. eapply frame_stacks; [|exact Hs1]. apply same_rest_frame; [done|]. intros i. rewrite Hst.
    destruct (decide (i = scheduler_pick_next_ready s)) as [->|]; [by rewrite Hst1, Hready|].
    destruct (decide _) as [[-> Hr]|]; [by rewrite Hst1, Hr|done].
  - split_and!; [done|done|]. by rewrite Hst, decide_True.
  - destruct Hrest as (_ & _ & Ht' & _ & Hp'). split_and!; [| | |congruence].
    + intros j. rewrite Hst. repeat case_decide; try done.
    + intros j. rewrite Hvr, !Hst1. unfold charged, kernel_ticks_read, vruntime. by rewrite C3, Htm, Hxs.
    + intros j. rewrite Hp'. unfold pid_of. by rewrite C1.
Qed.

(** Or it is the current process, woken before it gave up the processor. *)
Lemma yield_to_stays s :
  machine_inv s → g_current_process_index s < 10 →
  state_of s (g_current_process_index s) ≠ PROCESS_STATE_UNUSED →
  scheduler_pick_next_ready s = g_current_process_index s →
  ∃ s', yield_to PRE cap true (g_current_process_index s) (scheduler_pick_next_ready s) s =
      Some (Continues s') ∧ machine_inv s' ∧ runs s' (g_current_process_index s).
Proof.
  intros [Hi Hs] Hc Hu Heq. unfold yield_to. rewrite Heq, N.eqb_refl.
  destruct (write_current_inv s (set_state PROCESS_STATE_RUNNING) Hi Hc)
    as (s1 & -> & Hi1 & Hf1 & Hc1 & _ & _ & _ & Hw).
  { intros p Hp. unfold state_of in Hu. rewrite Hp in Hu. destruct p; simpl in *. by split. }
  { right; right. exact Heq. }
  cbind. eexists. split; [done|]. destruct (preempt_enabled_core s1) as [Hcore Hex].
  split; [apply (machine_inv_core s1 _ Hcore Hex); split; [done|by eapply frame_stacks]|].
  apply (runs_core s1 _ _ Hcore). split_and!; [done|done|]. unfold state_of. rewrite Hw.
  destruct (aget_is_Some (g_processes s) (g_current_process_index s)) as [p ->];
    [destruct (inv_tables _ (proj1 Hi)); lia|]. by destruct p.
Qed.

Lemma yield_to_ok s :
  machine_inv s → g_current_process_index s < 10 →
  state_of s (g_current_process_index s) ≠ PROCESS_STATE_UNUSED →
  scheduler_pick_next_ready s ≠ UINT32_MAX →
  ∃ o, yield_to PRE cap true (g_current_process_index s) (scheduler_pick_next_ready s) s = Some o ∧
    outcome_ok (g_current_process_index s) o.
Proof.
  intros Hm Hc Hu Hne.
  destruct (decide (scheduler_pick_next_ready s = g_current_process_index s)) as [Heq|Hnc].
  - destruct (yield_to_stays s Hm Hc Hu Heq) as (s' & -> & ? & ?). eexists. split; [done|]. by split.
  - destruct (yield_to_switches s Hm Hc Hu Hne Hnc) as (s' & -> & ? & ? & ? & _).
    eexists. split; [done|]. by split_and!.
Qed.

Lemma start_first_ok s :
  machine_inv s → g_current_process_index s = UINT32_MAX →
  ∃ o, scheduler_start_first_process (scheduler_pick_next_ready s) s = Some o ∧ outcome_ok UINT32_MAX o.
Proof.
  intros [Hi Hs] Hc. unfold scheduler_start_first_process.
  destruct (pick_cases s Hi) as [Hp|[Hlt [Heq|Hready]]].
  { rewrite Hp. cbn. eexists. split; [done|]. right. split; [done|]. split; [done|]. split; [done|].
    destruct Hi as [_ (l & Hq & _)]. destruct l as [|i l]; [done|].
    assert (i < 10) by (eapply represents_lt; [exact Hq|by left]).
    pose proof (represents_leftmost _ _ _ Hq) as Hl. unfold scheduler_pick_next_ready in Hp.
    rewrite Hp in Hl. cbn in Hl. by subst i. }
  { exfalso. rewrite Hc in Heq. rewrite Heq in Hlt. done. }
  rewrite lt_10_processes by done.
  destruct (Hs (scheduler_pick_next_ready s)) as (x & -> & Hr & Ha); [by rewrite Hready|]. cbind.
  rewrite Hr, Ha. cbn [negb]. set (n := scheduler_pick_next_ready s) in *.
  pose proof (inv_tables _ (proj1 Hi)) as Ht.
  assert (upd_process n (set_state PROCESS_STATE_RUNNING) (set_current n s) =
    Some (set_current n (set_processes (aupd (g_processes s) n (set_state PROCESS_STATE_RUNNING)) s))) as ->.
  { unfold upd_process. destruct (aget_is_Some (g_processes s) n) as [p Hp]; [destruct Ht; lia|].
    assert (g_processes (set_current n s) = g_processes s) as -> by by destruct s.
    rewrite Hp. cbind. rewrite (aset_aupd _ _ _ _ Hp). by destruct s. }
  cbind.
  destruct (switch_finish s (aupd (g_processes s) n (set_state PROCESS_STATE_RUNNING)) n)
    as (s' & E & Hi' & Hsync & Hcur & Hrest & Hst & _).
  - by apply sched_inv_pre.
  - apply keeps_aupd. intros p Hp. unfold state_of in Hready. rewrite Hp in Hready.
    destruct p; simpl in *; subst. by split.
  - done.
  - intros i. rewrite state_of_aupd. case_decide as Hni; [done|]. intros Hri.
    pose proof (inv_running _ (proj1 Hi) i Hri) as ->. exfalso.
    unfold state_of in Hri. rewrite Hc in Hri.
    destruct (aget (g_processes s) UINT32_MAX) eqn:Hg; [|done]. apply aget_Some_lt in Hg.
    destruct Ht as [Hlen _]. rewrite Hlen in Hg. done.
  - cbv zeta in E. destruct (write_exec_start _ _ _) as [s2|]; [|discriminate E]. cbind_in E. cbind.
    rewrite E. cbind. eexists. split; [done|]. cbn [outcome_ok].
    assert (state_of s' n = PROCESS_STATE_RUNNING) as Hrun.
    { rewrite Hst, state_of_aupd, decide_True by done.
      destruct (aget_is_Some (g_processes s) n) as [p ->]; [destruct Ht; lia|]. by destruct p. }
    split_and!; [split; [done|]|done|done|by split_and!].
    eapply frame_stacks; [|exact Hs]. apply same_rest_frame; [done|]. intros i. rewrite Hst, state_of_aupd.
    case_decide as Hni; [|done]. subst i. rewrite Hready.
    destruct (aget_is_Some (g_processes s) n) as [p ->]; [destruct Ht; lia|]. by destruct p.
Qed.

Lemma safe_point_core s :
  same_core s (safe_point PRE cap s) ∧ g_process_exec (safe_point PRE cap s) = g_process_exec s.
Proof. split; [apply same_core_preempt|by destruct s]. Qed.

Lemma current_in_use s :
  g_current_process_index s < 10 → tables_ok s →
  (match scheduler_current_process s with Some _ => true | None => false end) =
    negb (bool_decide (state_of s (g_current_process_index s) = PROCESS_STATE_UNUSED)).
Proof.
  intros Hc [Ht _]. unfold scheduler_current_process. rewrite lt_10_processes by done.
  unfold state_of. destruct (aget_is_Some (g_processes s) (g_current_process_index s)) as [p ->]; [lia|].
  unfold in_state. by case_bool_decide.
Qed.

(** A slot that may call [process_yield]: no process yet, or one that exists. *)
Definition callable (s : scheduler) : Prop :=
  g_current_process_index s = UINT32_MAX ∨
  (g_current_process_index s < 10 ∧ state_of s (g_current_process_index s) ≠ PROCESS_STATE_UNUSED).

Lemma yield_choose_ok s :
  machine_inv s → g_current_process_index s < 10 →
  state_of s (g_current_process_index s) ≠ PROCESS_STATE_UNUSED →
  ∃ o, yield_choose PRE cap true (g_current_process_index s) (scheduler_pick_next_ready s) s = Some o ∧
    outcome_ok (g_current_process_index s) o.
Proof.
  intros Hm Hc Hu. unfold yield_choose.
  destruct (N.eqb_spec (scheduler_pick_next_ready s) UINT32_MAX) as [Hnone|Hsome];
    [|by apply yield_to_ok].
  destruct (aget_is_Some (g_processes s) (g_current_process_index s)) as [p Hp].
  { destruct (inv_tables _ (proj1 (proj1 Hm))); lia. }
  rewrite Hp. cbind. rewrite (in_state_of s _ p _ Hp).
  destruct (decide (state_of s (g_current_process_index s) = PROCESS_STATE_RUNNING)) as [Hrun|Hrun].
  - rewrite bool_decide_eq_true_2 by done. eexists. split; [done|].
    destruct (preempt_enabled_core s) as [Hcore Hex]. split; [by apply (machine_inv_core s)|].
    by apply (runs_core s).
  - rewrite bool_decide_eq_false_2 by done.
    destruct (negb _); (eexists; split; [done|]); [|by left]. by split_and!.
Qed.

(** States that differ in counters only. *)
Definition same_view (s s' : scheduler) : Prop :=
  g_current_process_index s' = g_current_process_index s ∧ g_ready_queue s' = g_ready_queue s ∧
  g_timer s' = g_timer s ∧ g_sched_exec_start_tick s' = g_sched_exec_start_tick s ∧
  (∀ i, state_of s' i = state_of s i ∧ vruntime s' i = vruntime s i ∧ pid_of s' i = pid_of s i) ∧
  process_core_count_blocked_sleepers (g_processes s') = process_core_count_blocked_sleepers (g_processes s).

Lemma count_sleepers_aupd l i f :
  (∀ p, p_state (f p) = p_state p ∧ p_wait_reason (f p) = p_wait_reason p) →
  process_core_count_blocked_sleepers (aupd l i f) = process_core_count_blocked_sleepers l.
Proof.
  intros Hf. unfold process_core_count_blocked_sleepers, aupd, in_state, waits_for. revert i.
  induction l as [|p l IH]; intros i; [done|]. destruct (N.to_nat i) as [|n] eqn:E; simpl.
  - destruct (Hf p) as [-> ->]. done.
  - f_equal. specialize (IH (N.of_nat n)). by rewrite Nat2N.id in IH.
Qed.

(** [process_yield] up to the choice: a tick may have been delivered. *)
Lemma yield_prepared regs s :
  machine_inv s → g_current_process_index s < 10 →
  state_of s (g_current_process_index s) ≠ PROCESS_STATE_UNUSED →
  ∃ s1 s3, runtime_poll_timer_delivery PRE regs (preempt_disabled s) = Some s1 ∧ machine_inv s1 ∧
    tick_rel s s1 ∧ (synced s → synced s1) ∧ machine_inv s3 ∧ same_view s1 s3 ∧
    process_yield PRE cap regs s =
      yield_choose PRE cap true (g_current_process_index s) (scheduler_pick_next_ready s3) s3.
Proof.
  intros Hi Hc Hu. unfold process_yield.
  rewrite lt_10_MAX by done. rewrite current_in_use by (done || apply (inv_tables _ (proj1 (proj1 Hi)))).
  rewrite bool_decide_eq_false_2 by done. cbn [negb].
  set (s0 := preempt_disabled s).
  pose proof (same_core_preempt (preempt_disable (g_scheduler_preempt_state s)) s : same_core s s0) as Hc0.
  assert (g_process_exec s0 = g_process_exec s) as Hx0 by by destruct s.
  pose proof (machine_inv_core _ _ Hc0 Hx0 Hi) as Hi0.
  destruct (poll_ok regs s0 (proj1 Hi0)) as (s1 & -> & Hi1 & Hr1 & Hsy1). cbind.
  pose proof (machine_inv_tick _ _ Hr1 Hi1 Hi0) as Hm1.
  assert (tick_rel s s1) as Hr by (etrans; [by apply same_core_tick|done]).
  assert (synced s → synced s1) as Hsy by (intros H; apply Hsy1; by eapply same_core_synced).
  clear Hr1 Hi0 Hi1 Hc0 Hx0 Hsy1. clearbody s0. pose proof Hr as ((_ & _ & Hfr) & Hcur & Hst).
  rewrite <-Hcur in Hc |- *.
  destruct (upd_process_spec s1 (g_current_process_index s1)
    (λ p, set_yield_count (u32 (p_yield_count p + 1)) p) (inv_tables _ (proj1 (proj1 Hm1))) Hc) as (p & Hp & E).
  destruct (write_current_inv s1 (λ p, set_yield_count (u32 (p_yield_count p + 1)) p) (proj1 Hm1) Hc)
    as (s2 & E2 & Hi2 & Hf2 & Hc2 & Hq2 & Ht2 & Hne2 & Hw2).
  { intros p' _. by destruct p'. } { right; left. by intros []. }
  rewrite E2. rewrite E in E2. injection E2 as E2. cbind.
  destruct (safe_point_core s2) as [Hcore3 Hx3].
  exists s1, (safe_point PRE cap s2). split_and!; [done|done|done|done| | |done].
  - apply (machine_inv_core _ _ Hcore3 Hx3). split; [done|]. eapply frame_stacks; [done|apply Hm1].
  - pose proof Hcore3 as (D1 & D2 & D3 & D4 & _).
    assert (same_view s1 s2) as (V1 & V2 & V3 & V4 & V5 & V6).
    { split_and!; [done|done|done|subst s2; by destruct s1| |].
      - intros i. destruct Hf2 as (_ & _ & Hf2). destruct (Hf2 i) as [Hpid _].
        split_and!; [|subst s2; by destruct s1|done]. subst s2. rewrite state_of_aupd. case_decide; [|done].
        subst i. unfold state_of. rewrite Hp. by destruct p.
      - subst s2. rewrite (proj1 (set_processes_fields _ _)). apply count_sleepers_aupd. by intros []. }
    split_and!; [congruence|congruence|rewrite <-V3; by destruct s2|rewrite <-V4; by destruct s2| |congruence].
    intros i. destruct (V5 i) as (W1 & W2 & W3). rewrite (same_core_state _ _ _ Hcore3).
    unfold vruntime, pid_of. rewrite D1, D3. by split_and!.
Qed.

Lemma yield_ok regs s :
  machine_inv s → callable s →
  ∃ o, process_yield PRE cap regs s = Some o ∧ outcome_ok (g_current_process_index s) o.
Proof.
  intros Hi [Hc|[Hc Hu]].
  { unfold process_yield. rewrite Hc, N.eqb_refl.
    destruct (poll_ok regs s (proj1 Hi)) as (s1 & -> & Hi1 & Hr1 & _). cbind.
    apply start_first_ok; [by eapply machine_inv_tick|]. destruct Hr1 as (_ & -> & _). done. }
  destruct (yield_prepared regs s Hi Hc Hu)
    as (s1 & s3 & _ & Hm1 & ((_ & _ & Hfr) & Hcur & _) & _ & Hm3 & (V1 & _ & _ & _ & V5 & _) & ->).
  rewrite <-Hcur, <-V1 in Hc, Hu |- *. apply yield_choose_ok; [done|done|].
  destruct (V5 (g_current_process_index s3)) as (-> & _).
  destruct (Hfr (g_current_process_index s3)) as [_ H]. tauto.
Qed.

(** The waiting loop goes round, or leaves as above. *)
Lemma yield_after_interrupt_ok s :
  machine_inv s → idle s →
  ∃ o, yield_after_interrupt PRE cap true s = Some o ∧ outcome_ok (g_current_process_index s) o.
Proof.
  intros [Hi Hs] (Hc & Hu & Hr). unfold yield_after_interrupt.
  destruct (sync_inv s (sched_inv_pre _ Hi)) as (q & -> & Hi' & _). cbind.
  assert (g_current_process_index (set_rq q s) = g_current_process_index s) as Hcq by by destruct s.
  assert (machine_inv (set_rq q s)) as Hm by (split; [done|eapply frame_stacks; [apply set_rq_frame|done]]).
  destruct (N.eqb_spec (scheduler_pick_next_ready (set_rq q s)) UINT32_MAX) as [Hnone|Hsome].
  - eexists. split; [done|]. split; [done|]. split; [|done]. unfold idle. by rewrite Hcq, set_rq_state.
  - rewrite <-Hcq in Hc, Hu |- *. apply yield_to_ok; [done|done|by rewrite set_rq_state|done].
Qed.

End operations.
