(* ===== verification/SchedulerCalls.v ===== *)
(** * The process interface keeps the scheduler's invariant

    Creation, exit, killing, reaping, waiting, blocking and waking, from the
    lemmas of [SchedulerOps.v]. *)

From S2P Require Import Prelude ProcessCore RuntimePolicy ReadyQueue Scheduler.
From S2P Require Import ReadyQueueTree ReadyQueueBalance ReadyQueueInsert ReadyQueueRemove ReadyQueueSpec.
From S2P Require Import SchedulerProofs SchedulerOps.

Local Open Scope N_scope.

Section calls.
Context (SF PRE cap : bool) (base first_entry : N).

(** ** Creation *)

(** All stacks lie in the memory the checks accept. *)
Definition stacks_fit : Prop :=
  ∀ i, i < 10 →
    scheduler_stack_pointer_in_range (initial_context_address base i) = true ∧
    scheduler_stack_pointer_is_aligned (initial_context_address base i) = true.

Lemma unused_not_queued s l i :
  state_of s i = PROCESS_STATE_UNUSED → members_ok s l → i ∉ l.
Proof. intros Hu Hm Hi. destruct (Hm i Hi) as [?|(_ & _ & ?)]; congruence. Qed.

(** A state in which the free slot [i] has been filled. *)
Definition filled (s s' : scheduler) (i : N) : Prop :=
  ∃ p v, g_processes s' = <[N.to_nat i := p]> (g_processes s) ∧
    p_pid p = g_next_pid s ∧ p_state p = PROCESS_STATE_READY ∧
    g_sched_vruntime s' = <[N.to_nat i := v]> (g_sched_vruntime s) ∧
    g_ready_queue s' = g_ready_queue s ∧
    g_current_process_index s' = g_current_process_index s ∧
    g_next_pid s' = u32 (g_next_pid s + 1) ∧
    length (g_process_exec s') = length (g_process_exec s) ∧
    length (g_process_stacks s') = length (g_process_stacks s) ∧
    length (g_sched_exec_start_tick s') = length (g_sched_exec_start_tick s).

Lemma filled_at s s' i :
  tables_ok s → i < 10 → filled s s' i →
  (∀ j, state_of s' j = if decide (j = i) then PROCESS_STATE_READY else state_of s j) ∧
  (∀ j, pid_of s' j = if decide (j = i) then g_next_pid s else pid_of s j) ∧
  (∀ j, j ≠ i → vruntime s' j = vruntime s j).
Proof.
  intros (Hp & _ & _ & Hv & _) Hi (p & v & E1 & Hpid & Hst & E2 & _).
  unfold state_of, pid_of, vruntime. rewrite E1, E2. split_and!; intros j.
  1,2: case_decide; [subst j; rewrite aget_insert_eq by lia; congruence|by rewrite aget_insert_ne].
  intros Hne. by rewrite aget_insert_ne.
Qed.

Lemma u32_succ n : n < 4294967296 → n ≠ 0 → u32 (n + 1) = 0 ∨ u32 (n + 1) = n + 1.
Proof.
  intros H _. unfold u32. destruct (decide (n + 1 = 4294967296)) as [->|]; [by left|right].
  apply N.mod_small. lia.
Qed.

Lemma filled_pre s s' i :
  sched_inv s → i < 10 → state_of s i = PROCESS_STATE_UNUSED → g_next_pid s ≠ 0 →
  filled s s' i → pre_sync s'.
Proof.
  intros [[Ht Hc Hr (Hn & Hp1 & Hp2)] (l & Hq & Hm)] Hi Hu Hn0 Hf.
  destruct (filled_at s s' i Ht Hi Hf) as (Hst & Hpid & Hv).
  destruct Hf as (p & v & E1 & _ & _ & E2 & E3 & E4 & E5 & E6 & E7 & E8).
  split; [split|].
  - destruct Ht as (T1 & T2 & T3 & T4 & T5). unfold tables_ok.
    rewrite E1, E2, E6, E7, E8, !length_insert. done.
  - by rewrite E4.
  - intros j Hj. rewrite Hst in Hj. rewrite E4. case_decide; [done|]. by apply Hr.
  - assert (∀ j, state_of s j ≠ PROCESS_STATE_UNUSED → pid_of s j < g_next_pid s) as Hlt.
    { intros j Hj. destruct (Hp1 j Hj) as [_ [?|?]]; [done|done]. }
    unfold pids_ok. rewrite E5. split_and!; [apply u32_lt| |].
    + intros j Hj. rewrite Hst in Hj. rewrite Hpid. destruct (u32_succ (g_next_pid s)) as [->| ->]; [done..| |].
      * split; [|by left]. case_decide; [done|by apply Hp1].
      * split; [case_decide; [done|by apply Hp1]|right]. case_decide; [lia|]. specialize (Hlt j Hj). lia.
    + intros j k Hj Hk. rewrite Hst in Hj, Hk. rewrite !Hpid.
      destruct (decide (j = i)) as [Hji|], (decide (k = i)) as [Hki|]; [congruence| | |by apply Hp2].
      * intros E. specialize (Hlt k Hk). lia.
      * intros E. specialize (Hlt j Hj). lia.
  - exists l. unfold rq_is. rewrite E3. eapply represents_ext; [|exact Hq].
    pose proof (unused_not_queued s l i Hu Hm) as Hil.
    intros a b Ha Hb. assert (a ≠ i) by (intros ->; done). assert (b ≠ i) by (intros ->; done).
    apply key_lt_ext; [by apply Hv..| |]; rewrite Hpid; by case_decide.
Qed.

Lemma find_free_slot_lt s :
  tables_ok s →
  process_core_find_free_slot (g_processes s) = UINT32_MAX ∨
  (process_core_find_free_slot (g_processes s) < 10 ∧
   state_of s (process_core_find_free_slot (g_processes s)) = PROCESS_STATE_UNUSED).
Proof.
  intros [Hl _]. unfold process_core_find_free_slot.
  destruct (find_idx_lt (λ _ p, in_state PROCESS_STATE_UNUSED p) (g_processes s) Hl)
    as [H|(i & p & -> & Hi & Hp & Hf)]; [by left|right].
  split; [done|]. rewrite (in_state_of s i p _ Hp) in Hf. by bools.
Qed.

Lemma leftmost_cases s l :
  rq_is s l →
  g_sched_rq_leftmost (g_ready_queue s) = UINT32_MAX ∨ g_sched_rq_leftmost (g_ready_queue s) < 10.
Proof.
  intros Hl. rewrite (represents_leftmost _ _ _ Hl). destruct l as [|x l]; [by left|right]. simpl.
  eapply represents_lt; [exact Hl|by left].
Qed.

Lemma min_vruntime_defined s :
  tables_ok s →
  g_sched_rq_leftmost (g_ready_queue s) = UINT32_MAX ∨ g_sched_rq_leftmost (g_ready_queue s) < 10 →
  g_current_process_index s = UINT32_MAX ∨ g_current_process_index s < 10 →
  ∃ v, scheduler_min_vruntime s = Some v.
Proof.
  intros (Hp & _ & _ & Hv & _) Hl Hc. unfold scheduler_min_vruntime.
  assert (∃ a b, (if null (g_sched_rq_leftmost (g_ready_queue s)) then Some (0, false)
    else v ← aget (g_sched_vruntime s) (g_sched_rq_leftmost (g_ready_queue s)); Some (v, true)) = Some (a, b))
    as (a & b & ->).
  { unfold null. destruct (N.eqb_spec (g_sched_rq_leftmost (g_ready_queue s)) UINT32_MAX) as [|Hne]; [eauto|].
    destruct (aget_is_Some (g_sched_vruntime s) (g_sched_rq_leftmost (g_ready_queue s))) as [v ->];
      [rewrite Hv; by destruct Hl|]. cbind; eauto. }
  cbind. destruct Hc as [->|Hc]; [eexists; reflexivity|].
  assert ((g_current_process_index s <? MAX_PROCESSES) = true) as -> by by apply N.ltb_lt.
  destruct (aget_is_Some (g_processes s) (g_current_process_index s)) as [p ->]; [lia|]. cbind.
  destruct (in_state _ p); [|cbind; eauto].
  destruct (aget_is_Some (g_sched_vruntime s) (g_current_process_index s)) as [v ->]; [lia|]. cbind.
  destruct (_ || _); cbind; eauto.
Qed.

Lemma prepare_context_spec s i :
  tables_ok s → i < 10 →
  ∃ s' x, scheduler_prepare_initial_context base first_entry i s = Some s' ∧
    aget (g_process_exec s) i = Some x ∧
    same_core s s' ∧
    g_process_exec s' = <[N.to_nat i := ExecSlot (x_entry x) (initial_context_address base i)]> (g_process_exec s).
Proof.
  intros (_ & Hx & Hk & _ & _) Hi. unfold scheduler_prepare_initial_context.
  destruct (aget_is_Some (g_process_stacks s) i) as [k ->]; [lia|]. cbind.
  rewrite aset_Some by lia. cbind.
  assert (g_process_exec (set_stacks (<[N.to_nat i := take (N.to_nat (PROCESS_STACK_WORDS -
    PROCESS_CONTEXT_WORDS)) k ++ first_entry :: replicate 12 0]> (g_process_stacks s)) s) = g_process_exec s)
    as -> by by destruct s.
  destruct (aget_is_Some (g_process_exec s) i) as [x Hxi]; [lia|]. rewrite Hxi. cbind.
  rewrite aset_Some by lia. cbind. eexists _, x. split_and!; [done|done| |by destruct s].
  unfold same_core. destruct s; cbn -[replicate take]. by rewrite !length_insert.
Qed.

(** The process that [process_spawn_with_role] creates. *)
Definition spawned (pid parent : N) (name : option cstr) (role : N) : process_runtime_state :=
  Process pid parent (Some (default (cs "PROC") name)) role PROCESS_STATE_READY
    0 0 0 0 0 PROCESS_WAIT_NONE 0.

Lemma spawn_ok name entry role s :
  machine_inv s → stacks_fit →
  let i := process_core_find_free_slot (g_processes s) in
  ∃ s' pid, process_spawn_with_role SF base first_entry name entry role s = Some (s', pid) ∧
    machine_inv s' ∧ g_current_process_index s' = g_current_process_index s ∧
    ((pid = 0 ∧ s' = s ∧ (entry = 0 ∨ i = UINT32_MAX ∨ g_next_pid s = 0 ∨
        runtime_policy_can_spawn SF (g_processes s) role = false)) ∨
     (entry ≠ 0 ∧ pid = g_next_pid s ∧ pid ≠ 0 ∧ i < 10 ∧ state_of s i = PROCESS_STATE_UNUSED ∧
      runtime_policy_can_spawn SF (g_processes s) role = true ∧ synced s' ∧
      g_processes s' = <[N.to_nat i := spawned pid (process_current_pid s) name role]> (g_processes s) ∧
      g_process_exec s' =
        <[N.to_nat i := ExecSlot entry (initial_context_address base i)]> (g_process_exec s) ∧
      ∀ j, j ≠ i → vruntime s' j = vruntime s j)).
Proof.
  intros [Hi Hs] Hfit i. unfold process_spawn_with_role. fold i.
  destruct (N.eqb_spec entry 0) as [He|He].
  { exists s, 0. cbn [orb]. split_and!; [done|done|done|]. left. auto 10. }
  destruct (N.eqb_spec i UINT32_MAX) as [Hm|Hm].
  { exists s, 0. cbn [orb]. split_and!; [done|done|done|]. left. auto 10. }
  destruct (N.eqb_spec (g_next_pid s) 0) as [Hn|Hn].
  { exists s, 0. cbn [orb]. split_and!; [done|done|done|]. left. auto 10. }
  cbn [orb]. destruct (runtime_policy_can_spawn SF (g_processes s) role) eqn:Hpol.
  2:{ exists s, 0. split_and!; [done|done|done|]. left. auto 10. }
  cbn [negb]. pose proof (inv_tables _ (proj1 Hi)) as Ht.
  destruct (find_free_slot_lt s Ht) as [?|[Hlt Hu]]; [done|]. fold i in Hlt, Hu.
  pose proof Ht as (T1 & T2 & T3 & T4 & T5). clearbody i.
  destruct s as [pr ex st cu np sc bm vr es rq pe tm] eqn:Hseq. rewrite <-Hseq in *.
  assert (g_process_exec (set_next_pid (u32 (g_next_pid s + 1)) s) = g_process_exec s) as -> by by rewrite Hseq.
  destruct (aget_is_Some (g_process_exec s) i) as [x Hx]; [lia|]. rewrite Hx. cbind.
  rewrite aset_Some by lia. cbind.
  set (s1 := set_exec _ _).
  assert (tables_ok s1) as Ht1.
  { unfold s1, tables_ok. rewrite Hseq in *. cbn in *. by rewrite length_insert. }
  destruct (upd_process_spec s1 i (λ _, spawned (g_next_pid s) (process_current_pid s) name role) Ht1 Hlt)
    as (q & _ & E). unfold spawned in E at 1. rewrite E. clear E. cbind.
  set (s2 := set_processes _ s1).
  assert (g_processes s2 = <[N.to_nat i := spawned (g_next_pid s) (process_current_pid s) name role]>
    (g_processes s)) as Hp2.
  { unfold s2. rewrite (proj1 (set_processes_fields _ _)). unfold s1. rewrite Hseq. cbn.
    unfold aupd. apply list_eq. intros j. destruct (decide (j = N.to_nat i)) as [->|].
    - rewrite list_lookup_alter_eq, list_lookup_insert_eq by (rewrite Hseq in *; cbn in *; lia).
      destruct (aget_is_Some pr i) as [? Hy]; [rewrite Hseq in *; cbn in *; lia|].
      rewrite aget_lookup in Hy. by rewrite Hy.
    - by rewrite list_lookup_alter_ne, list_lookup_insert_ne. }
  assert (tables_ok s2) as Ht2.
  { destruct Ht1 as (U1 & Ut). split; [rewrite Hp2, length_insert; done|]. unfold s2. by destruct s1. }
  assert (g_ready_queue s2 = g_ready_queue s ∧ g_current_process_index s2 = g_current_process_index s ∧
    g_sched_vruntime s2 = g_sched_vruntime s ∧ g_next_pid s2 = u32 (g_next_pid s + 1) ∧
    g_process_exec s2 = <[N.to_nat i := ExecSlot entry (x_stack_pointer x)]> (g_process_exec s))
    as (F1 & F2 & F3 & F4 & F5) by (unfold s2, s1; by rewrite Hseq).
  clearbody s2. clear s1 Ht1.
  destruct Hi as [Hb (l & Hl & Hmem)].
  destruct (min_vruntime_defined s2 Ht2) as [v ->].
  { rewrite F1. by eapply leftmost_cases. } { rewrite F2. apply Hb. }
  cbind. rewrite write_vruntime_spec by done. cbind.
  set (s3 := set_vruntime _ s2).
  assert (tables_ok s3) as Ht3.
  { destruct Ht2 as (V1 & V2 & V3 & V4 & V5). unfold tables_ok, s3. destruct s2; cbn in *.
    by rewrite length_insert. }
  destruct (write_exec_start_spec s3 i 0 Ht3 Hlt) as (s4 & -> & Hc4 & _ & _ & Hx4). cbind.
  assert (tables_ok s4) as Ht4.
  { pose proof Hc4 as (W1 & _ & W3 & _ & _ & W6 & W7 & W8). unfold tables_ok.
    by rewrite W1, W3, W6, W7, W8. }
  destruct (prepare_context_spec s4 i Ht4 Hlt) as (s5 & y & -> & Hy & Hc5 & Hx5). cbind.
  assert (same_core s3 s5) as Hc by by trans s4.
  assert (g_process_exec s3 = g_process_exec s2) as Hx3 by (unfold s3; by destruct s2).
  assert (y = ExecSlot entry (x_stack_pointer x)) as ->.
  { rewrite Hx4, Hx3, F5, aget_insert_eq in Hy by lia. congruence. }
  rewrite Hx4, Hx3, F5, list_insert_insert_eq in Hx5. cbn [x_entry] in Hx5.
  pose proof Hc as (C1 & C2 & C3 & C4 & C5 & C6 & C7 & C8).
  assert (g_sched_vruntime s3 = <[N.to_nat i := v]> (g_sched_vruntime s2) ∧ g_processes s3 = g_processes s2
    ∧ g_ready_queue s3 = g_ready_queue s2 ∧ g_current_process_index s3 = g_current_process_index s2 ∧
    g_next_pid s3 = g_next_pid s2) as (G1 & G2 & G3 & G4 & G5) by (unfold s3; by destruct s2).
  assert (filled s s5 i) as Hfill.
  { exists (spawned (g_next_pid s) (process_current_pid s) name role), v.
    split_and!; [congruence|done|done|congruence|congruence|congruence|congruence| | |].
    - rewrite Hx5. apply length_insert.
    - destruct Ht3 as (_ & _ & W & _). congruence.
    - destruct Ht3 as (_ & _ & _ & _ & W). congruence. }
  destruct (sync_inv s5) as (q5 & -> & Hi5 & Hs5).
  { apply (filled_pre s s5 i); try done. split; [done|eauto]. }
  cbind. rewrite set_rq_processes, C1, G2, Hp2, aget_insert_eq by lia. cbind.
  destruct (filled_at s s5 i Ht Hlt Hfill) as (Hst & _ & Hv).
  assert (g_process_exec (set_rq q5 s5) = g_process_exec s5) as Hxq by by destruct s5.
  eexists _, _. split; [done|]. split_and!.
  - split; [done|]. intros j Hj. rewrite set_rq_state, Hst in Hj. rewrite Hxq, Hx5.
    case_decide as Hji.
    + subst j. rewrite aget_insert_eq by lia. eexists. split; [done|]. by apply Hfit.
    + rewrite aget_insert_ne by done. by apply Hs.
  - transitivity (g_current_process_index s5); [by destruct s5|congruence].
  - right. rewrite Hxq, set_rq_processes. split_and!; try done; [by rewrite C1, G2, Hp2|].
    intros j Hj. transitivity (vruntime s5 j); [by destruct s5|by apply Hv].
Qed.

(** ** Reaping *)

(** The slot [i] is free afterwards, the others are as before. *)
Definition released (s s' : scheduler) (i : N) : Prop :=
  g_current_process_index s' = g_current_process_index s ∧ g_next_pid s' = g_next_pid s ∧
  g_timer s' = g_timer s ∧
  g_processes s' = aupd (g_processes s) i process_core_reset_slot ∧
  ∀ j, j ≠ i → aget (g_process_exec s') j = aget (g_process_exec s) j ∧ vruntime s' j = vruntime s j.

Lemma released_at s s' i :
  tables_ok s → released s s' i →
  (∀ j, state_of s' j = if decide (j = i) then PROCESS_STATE_UNUSED else state_of s j) ∧
  (∀ j, j ≠ i → pid_of s' j = pid_of s j).
Proof.
  intros [Hl _] (_ & _ & _ & E & _). unfold state_of, pid_of. rewrite E. split; intros j.
  - rewrite aget_aupd. destruct (decide (i = j)) as [->|Hne].
    + rewrite decide_True by done. destruct (aget (g_processes s) j) as [p|]; [|done].
      by destruct p.
    + by rewrite decide_False by congruence.
  - intros Hne. by rewrite aget_aupd_ne.
Qed.

Lemma reset_slot_ok s i :
  machine_inv s → i < 10 → i ≠ g_current_process_index s → state_of s i = PROCESS_STATE_ZOMBIE →
  ∃ s', scheduler_reset_process_slot i s = Some s' ∧ machine_inv s' ∧ released s s' i.
Proof.
  intros [[Hb (l & Hl & Hm)] Hs] Hi Hnc Hz. unfold scheduler_reset_process_slot, upd_rq.
  destruct (represents_remove _ _ _ i Hl Hi) as (q & -> & Hq). cbind.
  assert (i ∉ without i l) as Hil by (rewrite without_elem; tauto).
  pose proof Hb as [Ht Hc Hr (Hn & Hp1 & Hp2)]. pose proof Ht as (T1 & T2 & T3 & T4 & T5).
  destruct (upd_process_spec (set_rq q s) i process_core_reset_slot) as (p & _ & ->);
    [by rewrite set_rq_tables|done|]. cbind. rewrite set_rq_processes.
  set (pr := aupd (g_processes s) i process_core_reset_slot).
  assert (g_process_exec (set_processes pr (set_rq q s)) = g_process_exec s) as -> by by destruct s.
  rewrite aset_Some by lia. cbind.
  set (s1 := set_exec _ _).
  assert (tables_ok s1) as Ht1.
  { unfold s1, pr. destruct s; cbn in *. unfold tables_ok. cbn. by rewrite length_insert, length_aupd. }
  rewrite write_vruntime_spec by done. cbind. set (s2 := set_vruntime _ s1).
  assert (tables_ok s2) as Ht2.
  { destruct Ht1 as (V1 & V2 & V3 & V4 & V5). unfold tables_ok, s2. destruct s1; cbn in *.
    by rewrite length_insert. }
  destruct (write_exec_start_spec s2 i 0 Ht2 Hi) as (s3 & -> & Hc3 & _ & Htm & Hx3). cbind.
  pose proof Hc3 as (W1 & W2 & W3 & W4 & W5 & W6 & W7 & W8).
  assert (g_ready_queue s3 = q) as -> by (rewrite W2; unfold s2, s1; by destruct s).
  destruct (represents_clear _ _ _ _ Hq Hi Hil) as (q' & -> & Hq'). cbind.
  eexists. split; [done|].
  assert (g_processes s3 = pr) as Epr by (rewrite W1; unfold s2, s1; by destruct s).
  assert (g_sched_vruntime s3 = <[N.to_nat i := 0]> (g_sched_vruntime s)) as Evr
    by (rewrite W3; unfold s2, s1; by destruct s).
  assert (g_current_process_index s3 = g_current_process_index s ∧ g_next_pid s3 = g_next_pid s ∧
    g_timer s3 = g_timer s) as (Ecu & Enp & Etm).
  { rewrite W4, W5, Htm. unfold s2, s1. by destruct s. }
  assert (g_process_exec s3 = <[N.to_nat i := ExecSlot 0 0]> (g_process_exec s)) as Eex
    by (rewrite Hx3; unfold s2, s1; by destruct s).
  assert (released s (set_rq q' s3) i) as Hrel.
  { split_and!; [by destruct s3..| |].
    - transitivity (g_processes s3); [by destruct s3|done].
    - intros j Hj. split.
      + transitivity (aget (g_process_exec s3) j); [by destruct s3|]. by rewrite Eex, aget_insert_ne.
      + transitivity (vruntime s3 j); [by destruct s3|]. unfold vruntime. by rewrite Evr, aget_insert_ne. }
  destruct (released_at _ _ _ Ht Hrel) as [Hst Hpid].
  destruct Hrel as (R1 & R2 & R3 & R4 & R5).
  assert (∀ j, state_of (set_rq q' s3) j ≠ PROCESS_STATE_UNUSED →
    j ≠ i ∧ state_of s j ≠ PROCESS_STATE_UNUSED) as Hnu.
  { intros j. rewrite Hst. case_decide; [done|by split]. }
  split; [|by split_and!]. split; [split|].
  - split.
    + rewrite set_rq_tables. unfold tables_ok. rewrite W1, W3, W6, W7, W8. exact Ht2.
    + by rewrite R1.
    + intros j. rewrite Hst, R1. case_decide; [done|]. apply Hr.
    + unfold pids_ok. rewrite R2. split_and!; [done| |].
      * intros j [Hj Hu]%Hnu. rewrite Hpid by done. by apply Hp1.
      * intros j k [Hj Hu]%Hnu [Hk Hv]%Hnu. rewrite !Hpid by done. by apply Hp2.
  - exists (without i l). split.
    + unfold rq_is. rewrite set_rq_rq. eapply represents_ext; [|exact Hq'].
      intros a b Ha Hb'. apply without_elem in Ha as [Ha _], Hb' as [Hb' _].
      apply key_lt_ext; [by apply R5..|by apply Hpid|by apply Hpid].
    + intros j Hj. rewrite R1, Hst. pose proof Hj as [Hji Hjl]%without_elem. rewrite decide_False by done.
      destruct (Hm j Hjl) as [?|(Hjc & Hh & Hu)]; [by left|right]. split_and!; [done| |done].
      destruct l as [|x l']; [by apply not_elem_of_nil in Hjl|]. simpl in Hh. subst x.
      unfold without. rewrite filter_cons, decide_True by done. done.
  - intros j [Hj Hu]%Hnu. destruct (R5 j Hj) as [-> _]. by apply Hs.
Qed.

(** ** Waking *)

(** Some processes are made ready. *)
Definition wakes (l l' : list process_runtime_state) : Prop :=
  Forall2 (λ p p', p' = p ∨ p' = process_core_make_ready p) l l'.

Lemma wakes_update_where f l : wakes l (update_where f process_core_make_ready l).1.
Proof.
  rewrite update_where_fst. induction l as [|p l IH]; constructor; [|done].
  destruct (f p); [by right|by left].
Qed.

Lemma wakes_aupd i l : wakes l (aupd l i process_core_make_ready).
Proof.
  apply Forall2_same_length_lookup_2; [by rewrite length_aupd|]. intros j p p' Hp Hp'.
  unfold aupd in Hp'. destruct (decide (j = N.to_nat i)) as [->|Hne].
  - rewrite list_lookup_alter_eq, Hp in Hp'. injection Hp' as <-. by right.
  - rewrite list_lookup_alter_ne in Hp' by done. simplify_eq. by left.
Qed.

Lemma wakes_refl l : wakes l l.
Proof. unfold wakes. induction l; constructor; auto. Qed.

Lemma wakes_first_channel l channel current :
  wakes l (process_core_wake_first_channel l channel current).1.
Proof.
  unfold process_core_wake_first_channel. case_match; [apply wakes_refl|].
  destruct (circular_scan _ _ _ _ _); [apply wakes_aupd|apply wakes_refl].
Qed.

Lemma wakes_evolves l l' : wakes l l' → Forall2 evolves l l'.
Proof. intros H. eapply Forall2_impl; [exact H|]. intros p p' [->| ->]; [done|apply evolves_make_ready]. Qed.

Lemma wakes_state l s i st :
  wakes (g_processes s) l → st ≠ PROCESS_STATE_BLOCKED → state_of s i = st →
  state_of (set_processes l s) i = st.
Proof.
  intros Hl Hst. unfold state_of. rewrite (proj1 (set_processes_fields _ _)), !aget_lookup.
  pose proof (Forall2_lookup (λ p p', p' = p ∨ p' = process_core_make_ready p) (g_processes s) l) as Hlk.
  unfold wakes in Hl. rewrite Hlk in Hl. specialize (Hl (N.to_nat i)).
  inversion Hl as [p p' Hpp Hg Hg'|]; [|done]. intros <-. destruct Hpp as [->| ->]; [done|].
  unfold process_core_make_ready, in_state. by rewrite bool_decide_eq_false_2.
Qed.

Lemma wakes_tick_rel l s q :
  wakes (g_processes s) l → tick_rel s (set_rq q (set_processes l s)).
Proof.
  intros Hl. pose proof (wakes_evolves _ _ Hl) as He.
  split; [|split; [by destruct s|]].
  - etrans; [apply keeps_frame, evolves_keeps, He|apply set_rq_frame].
  - intros i. rewrite set_rq_state. split_and!; [|by apply wakes_state..].
    split; [by apply wakes_state|]. by apply evolves_pids.
Qed.

Lemma wakes_ok l s :
  machine_inv s → wakes (g_processes s) l →
  ∃ s', scheduler_sync_ready_queue (set_processes l s) = Some s' ∧ machine_inv s' ∧ synced s' ∧
    tick_rel s s' ∧ g_processes s' = l ∧ g_timer s' = g_timer s.
Proof.
  intros Hm Hl. pose proof Hm as [Hi Hs].
  destruct (evolve_and_sync s l Hi (wakes_evolves _ _ Hl)) as (q & -> & Hi' & Hs').
  eexists. split; [done|]. pose proof (wakes_tick_rel l s q Hl) as Hr.
  split_and!; [by eapply machine_inv_tick|done|done| |by destruct s].
  rewrite set_rq_processes. apply set_processes_fields.
Qed.

Lemma make_process_ready_ok s i :
  machine_inv s → i < 10 →
  ∃ s', scheduler_make_process_ready i s = Some s' ∧ machine_inv s' ∧ synced s' ∧ tick_rel s s' ∧
    g_processes s' = aupd (g_processes s) i process_core_make_ready ∧ g_timer s' = g_timer s.
Proof.
  intros Hm Hi. unfold scheduler_make_process_ready.
  destruct (upd_process_spec s i process_core_make_ready (inv_tables _ (proj1 (proj1 Hm))) Hi) as (p & _ & ->).
  cbind. apply wakes_ok; [done|apply wakes_aupd].
Qed.

(** ** What a call leads to

    [Continues]: the same process goes on, or none was running. *)
Definition call_ok (c : N) (o : outcome) : Prop :=
  match o with
  | Continues s' => machine_inv s' ∧ g_current_process_index s' = c ∧ (c = UINT32_MAX ∨ runs s' c)
  | Halts _ TASK_CREATE_FAILED | Halts _ YIELD_RETURNED => True
  | _ => outcome_ok c o
  end.

(** A process that may make calls: none yet, or the running one. *)
Definition caller (s : scheduler) : Prop :=
  g_current_process_index s = UINT32_MAX ∨ runs s (g_current_process_index s).

Lemma caller_callable s : caller s → callable s.
Proof. intros [?|(Hi & _ & Hr)]; [by left|right]. split; [done|by rewrite Hr]. Qed.

Lemma outcome_call_ok c o : outcome_ok c o → call_ok c o.
Proof.
  destruct o as [s'|s' a b|s' b|s'|s' r]; simpl; try done.
  - intros [H1 H2]. pose proof H2 as (_ & H3 & _). split_and!; [done|done|by right].
  - by destruct r.
Qed.

Lemma continues_ok s s' :
  caller s → machine_inv s' → tick_rel s s' → call_ok (g_current_process_index s) (Continues s').
Proof.
  intros Hcall Hm (_ & Hc & Hst). split_and!; [done|done|].
  destruct Hcall as [?|(Hi & _ & Hr)]; [by left|right]. split_and!; [done|done|]. by apply Hst.
Qed.

Lemma yield_call_ok regs s :
  machine_inv s → callable s →
  ∃ o, process_yield PRE cap regs s = Some o ∧ call_ok (g_current_process_index s) o.
Proof.
  intros Hm Hc. destruct (yield_ok PRE cap regs s Hm Hc) as (o & -> & Ho).
  exists o. split; [done|]. by apply outcome_call_ok.
Qed.

(** Blocking the current process and yielding. *)
Lemma block_machine_ok s i reason channel tick target :
  machine_inv s → i < 10 → state_of s i ≠ PROCESS_STATE_UNUSED →
  ∃ s', scheduler_block_process i reason channel tick target s = Some s' ∧ machine_inv s' ∧ synced s' ∧
    g_current_process_index s' = g_current_process_index s ∧ state_of s' i = PROCESS_STATE_BLOCKED ∧
    ∀ j, j ≠ i → state_of s' j = state_of s j.
Proof.
  intros [Hi Hs] Hlt Hu.
  destruct (block_ok i reason channel tick target s Hi Hlt Hu) as (s' & E & Hi' & Hsy & Hc & Hb & Ho).
  exists s'. split_and!; [done| |done|done|done|done]. split; [done|].
  assert (g_process_exec s' = g_process_exec s) as Hx.
  { unfold scheduler_block_process in E.
    destruct (upd_process_spec s i (process_core_block reason channel tick target)
      (inv_tables _ (proj1 Hi)) Hlt) as (p & Hp & Eu). rewrite Eu in E. cbind_in E.
    pose proof (sync_inv (set_processes (aupd (g_processes s) i
      (process_core_block reason channel tick target)) s)) as Hsync.
    destruct Hsync as (q & Eq & _); [|rewrite Eq in E; injection E as <-; by destruct s].
    apply pre_sync_processes; [|by apply sched_inv_pre]. apply evolves_aupd.
    intros p' Hp'. unfold state_of in Hu. rewrite Hp' in Hu. destruct p'; simpl in *. by split_and!. }
  intros j Hj. rewrite Hx. apply Hs. destruct (decide (j = i)) as [->|]; [done|by rewrite <-Ho].
Qed.

Lemma block_and_yield_ok regs s reason channel tick target :
  machine_inv s → g_current_process_index s < 10 →
  state_of s (g_current_process_index s) ≠ PROCESS_STATE_UNUSED →
  ∃ s' o, scheduler_block_process (g_current_process_index s) reason channel tick target s = Some s' ∧
    process_yield PRE cap regs s' = Some o ∧ call_ok (g_current_process_index s) o.
Proof.
  intros Hm Hc Hu.
  destruct (block_machine_ok s _ reason channel tick target Hm Hc Hu) as (s' & -> & Hm' & _ & Hcur & Hb & _).
  destruct (yield_call_ok regs s' Hm') as (o & Ho & Hok).
  { right. rewrite Hcur, Hb. done. }
  exists s', o. rewrite <-Hcur. done.
Qed.

(** ** Exit and kill *)

(** The process table after the current process has become a zombie. *)
Definition exited_table (s : scheduler) (exit_code : Z) (p : process_runtime_state)
  : list process_runtime_state :=
  (process_core_wake_waiting_parent (aupd (g_processes s) (g_current_process_index s)
     (λ p, set_exit_code exit_code (set_state PROCESS_STATE_ZOMBIE p))) (p_pid p)).1.

Lemma exit_marks exit_code s p :
  machine_inv s → runs s (g_current_process_index s) →
  aget (g_processes s) (g_current_process_index s) = Some p →
  let s1 := set_processes (exited_table s exit_code p) s in
  upd_process (g_current_process_index s) (λ p, set_exit_code exit_code (set_state PROCESS_STATE_ZOMBIE p)) s
    = Some (set_processes (aupd (g_processes s) (g_current_process_index s)
              (λ p, set_exit_code exit_code (set_state PROCESS_STATE_ZOMBIE p))) s) ∧
  machine_inv s1 ∧ g_current_process_index s1 = g_current_process_index s ∧
  state_of s1 (g_current_process_index s) = PROCESS_STATE_ZOMBIE.
Proof.
  intros [Hi Hs] (Hc & _ & Hr) Hp s1. unfold s1, exited_table.
  set (zombie := λ p, set_exit_code exit_code (set_state PROCESS_STATE_ZOMBIE p)).
  destruct (write_current_inv s zombie Hi Hc) as (s2 & E2 & Hi2 & Hf2 & Hc2 & _ & _ & _ & Hw).
  { intros p' Hp'. rewrite Hp in Hp'. injection Hp' as <-. unfold state_of in Hr. rewrite Hp in Hr.
    destruct p; simpl in *; subst. by split. }
  { left. by rewrite Hr. }
  destruct (upd_process_spec s (g_current_process_index s) zombie (inv_tables _ (proj1 Hi)) Hc) as (? & _ & E).
  split; [done|]. rewrite E in E2. injection E2 as E2.
  assert (g_processes s2 = aupd (g_processes s) (g_current_process_index s) zombie) as E3
    by (subst s2; apply set_processes_fields).
  assert (state_of s2 (g_current_process_index s) = PROCESS_STATE_ZOMBIE) as Hz.
  { unfold state_of. rewrite Hw, Hp. by destruct p. }
  rewrite <-E3. set (l := (process_core_wake_waiting_parent _ _).1).
  assert (wakes (g_processes s2) l) as Hwk by apply wakes_update_where.
  pose proof (evolves_keeps _ _ (wakes_evolves _ _ Hwk)) as Hk.
  assert (set_processes l s = set_processes l s2) as -> by (subst s2; by destruct s).
  assert (state_of (set_processes l s2) (g_current_process_index s) = PROCESS_STATE_ZOMBIE) as Hz'
    by by apply wakes_state.
  split_and!; [split| |done]; [| |rewrite <-Hc2; by destruct s2].
  - apply update_inv; [done|done| | |].
    + intros i Hi'. apply (inv_running _ (proj1 Hi2)).
      by apply (evolves_pids s2 l (wakes_evolves _ _ Hwk) i).
    + intros i _ Hri. by apply wakes_state.
    + left. rewrite Hc2, Hz. done.
  - eapply frame_stacks; [by apply keeps_frame|]. by eapply frame_stacks.
Qed.

Lemma exit_ok regs exit_code s :
  machine_inv s → caller s →
  ∃ o, process_exit PRE cap regs exit_code s = Some o ∧
    match o with Continues _ => False | _ => call_ok (g_current_process_index s) o end.
Proof.
  intros Hm Hcall. unfold process_exit, scheduler_current_process. destruct Hcall as [Hc|Hrun].
  - rewrite Hc. cbn [N.leb MAX_PROCESSES UINT32_MAX N.compare Pos.compare Pos.compare_cont]. cbind.
    destruct (yield_call_ok regs s Hm) as (o & -> & Ho); [by left|]. cbind.
    eexists. split; [done|]. rewrite <-Hc. destruct o; done.
  - destruct (aget_is_Some (g_processes s) (g_current_process_index s)) as [p Hp].
    { destruct Hrun. destruct (inv_tables _ (proj1 (proj1 Hm))); lia. }
    destruct (exit_marks exit_code s p Hm Hrun Hp) as (E & Hm1 & Hcur & Hz).
    destruct Hrun as (Hc & _ & Hr).
    rewrite lt_10_processes, Hp, (in_state_of s _ p _ Hp), Hr, bool_decide_eq_false_2, E by done. cbind.
    rewrite (proj1 (set_processes_fields _ _)), set_processes_twice. fold (exited_table s exit_code p).
    destruct (yield_call_ok regs _ Hm1) as (o & -> & Ho).
    { right. by rewrite Hcur, Hz. }
    cbind. eexists. split; [done|]. rewrite <-Hcur. destruct o; done.
Qed.

Lemma reap_ok s pid :
  machine_inv s → caller s →
  ∃ s' code, process_reap pid s = Some (s', code) ∧ call_ok (g_current_process_index s) (Continues s').
Proof.
  intros Hm Hcall. unfold process_reap. pose proof (inv_tables _ (proj1 (proj1 Hm))) as Ht.
  destruct (find_by_pid_lt s pid Ht) as [->|(i & p & -> & Hi & Hp & Hpid & Hu)].
  { exists s, None. split; [done|]. apply continues_ok; done. }
  rewrite lt_10_MAX, Hp by done. cbind. rewrite (in_state_of s i p _ Hp).
  destruct (decide (state_of s i = PROCESS_STATE_ZOMBIE)) as [Hz|Hz].
  2:{ rewrite bool_decide_eq_false_2 by done. exists s, None. split; [done|]. apply continues_ok; done. }
  rewrite bool_decide_eq_true_2 by done. cbn [negb].
  assert (i ≠ g_current_process_index s) as Hne.
  { intros ->. destruct Hcall as [Hc|(_ & _ & Hr)]; [|congruence]. rewrite Hc in Hi. done. }
  destruct (reset_slot_ok s i Hm Hi Hne Hz) as (s' & -> & Hm' & Hrel). cbind.
  eexists _, _. split; [done|]. destruct (released_at _ _ _ Ht Hrel) as [Hst _].
  destruct Hrel as (Hc & _). split_and!; [done|done|].
  destruct Hcall as [?|(Hi' & _ & Hr)]; [by left|right]. split_and!; [done|done|].
  by rewrite Hst, decide_False by done.
Qed.

(** Another process becomes a zombie. *)
Lemma zombie_ok s i f :
  machine_inv s → i < 10 → i ≠ g_current_process_index s → state_of s i ≠ PROCESS_STATE_UNUSED →
  (∀ p, p_pid (f p) = p_pid p ∧ p_state (f p) = PROCESS_STATE_ZOMBIE) →
  ∃ s1, upd_process i f s = Some s1 ∧ ∀ l, wakes (g_processes s1) l →
    ∃ s', scheduler_sync_ready_queue (set_processes l s1) = Some s' ∧ machine_inv s' ∧ synced s' ∧
      g_current_process_index s' = g_current_process_index s ∧ state_of s' i = PROCESS_STATE_ZOMBIE ∧
      ∀ j, j ≠ i → state_of s j ≠ PROCESS_STATE_BLOCKED → state_of s' j = state_of s j.
Proof.
  intros [Hi Hs] Hlt Hne Hu Hf.
  destruct (upd_process_spec s i f (inv_tables _ (proj1 Hi)) Hlt) as (p & Hp & ->).
  eexists. split; [done|]. intros l Hl.
  assert (Forall2 evolves (g_processes s) (aupd (g_processes s) i f)) as He.
  { apply evolves_aupd. intros p' Hp'. destruct (Hf p') as [H1 H2]. unfold state_of in Hu.
    rewrite Hp' in Hu. unfold evolves. rewrite H1, H2. split_and!; [done|split; [done|by intros ?]|done]. }
  set (s1 := set_processes _ s) in *.
  pose proof (pre_sync_processes s _ He (sched_inv_pre _ Hi)) as Hpre. fold s1 in Hpre.
  pose proof (wakes_evolves _ _ Hl) as Hwe.
  destruct (sync_inv (set_processes l s1) (pre_sync_processes s1 l Hwe Hpre)) as (q & -> & Hi' & Hsy).
  assert (state_of s1 i = PROCESS_STATE_ZOMBIE) as Hz.
  { unfold s1. rewrite state_of_aupd, decide_True, Hp by done. simpl. by apply Hf. }
  eexists. split; [done|]. rewrite set_rq_state. split_and!; [split; [done|]|done| | |].
  - eapply frame_stacks; [|exact Hs]. trans s1; [by apply keeps_frame, evolves_keeps|].
    etrans; [by apply keeps_frame, evolves_keeps|apply set_rq_frame].
  - unfold s1. by destruct s.
  - by apply wakes_state.
  - intros j Hj Hb. assert (state_of s1 j = state_of s j) as E
      by (unfold s1; by rewrite state_of_aupd, decide_False).
    rewrite <-E. apply wakes_state; [done|by rewrite E|done].
Qed.

Lemma kill_ok regs pid exit_code s :
  machine_inv s → caller s →
  ∃ o r, process_kill PRE cap regs pid exit_code s = Some (o, r) ∧ call_ok (g_current_process_index s) o.
Proof.
  intros Hm Hcall. unfold process_kill. pose proof (inv_tables _ (proj1 (proj1 Hm))) as Ht.
  destruct (find_by_pid_lt s pid Ht) as [->|(i & p & -> & Hi & Hp & Hpid & Hu)].
  { exists (Continues s), false. split; [done|]. apply continues_ok; done. }
  rewrite lt_10_MAX by done. destruct (N.eqb_spec i (g_current_process_index s)) as [->|Hne].
  { destruct (exit_ok regs exit_code s Hm Hcall) as (o & -> & Ho). cbind.
    eexists _, _. split; [done|]. by destruct o. }
  rewrite Hp. cbind. destruct (_ || _).
  2:{ exists (Continues s), true. split; [done|]. apply continues_ok; done. }
  destruct (zombie_ok s i (λ p, set_exit_code exit_code (set_state PROCESS_STATE_ZOMBIE p)) Hm Hi Hne Hu)
    as (s1 & -> & Hz); [intros []; done|]. cbind.
  destruct (Hz (process_core_wake_waiting_parent (g_processes s1) pid).1) as (s' & -> & Hm' & _ & Hc & _ & Ho);
    [apply wakes_update_where|]. cbind. eexists _, _. split; [done|].
  split_and!; [done|done|]. destruct Hcall as [?|(Hlt & _ & Hr)]; [by left|right].
  split_and!; [done|done|]. by rewrite Ho by (done || by rewrite Hr).
Qed.

(** ** The other calls *)

Lemma waitpid_round_ok regs pid s :
  machine_inv s → caller s →
  ∃ r, process_waitpid PRE cap regs pid s = Some r ∧
    call_ok (g_current_process_index s)
      (match r with WaitReturns s' _ _ => Continues s' | WaitYields o => o end).
Proof.
  intros Hm Hcall. unfold process_waitpid. destruct (N.eqb_spec (process_current_pid s) 0) as [|Hpid].
  { eexists. split; [done|]. apply continues_ok; done. }
  assert (runs s (g_current_process_index s)) as (Hc & _ & Hr).
  { destruct Hcall as [Hc|?]; [|done]. exfalso. apply Hpid. unfold process_current_pid,
      scheduler_current_process. by rewrite Hc. }
  pose proof (inv_tables _ (proj1 (proj1 Hm))) as Ht.
  unfold process_waitpid_round, process_core_find_waitable_child.
  destruct (find_idx_lt (λ _ p, waitable_child (process_current_pid s) pid p) (g_processes s) (proj1 Ht))
    as [->|(i & p & -> & Hi & Hp & Hf)].
  - rewrite N.eqb_refl. cbn [negb]. destruct (negb _).
    { eexists. split; [done|]. apply continues_ok; done. }
    assert ((g_current_process_index s <? MAX_PROCESSES) = true) as -> by by apply N.ltb_lt.
    destruct (block_and_yield_ok regs s PROCESS_WAIT_CHILD pid 0 pid Hm Hc) as (s' & o & -> & Ho & Hok);
      [by rewrite Hr|]. cbind. rewrite Ho. cbind. eauto.
  - rewrite lt_10_MAX, Hp by done. cbn [negb]. cbind.
    assert (state_of s i = PROCESS_STATE_ZOMBIE) as Hz.
    { unfold state_of. rewrite Hp. apply waitable_child_iff in Hf. by destruct Hf. }
    assert (i ≠ g_current_process_index s) as Hne by (intros ->; congruence).
    destruct (reset_slot_ok s i Hm Hi Hne Hz) as (s' & -> & Hm' & Hrel). cbind.
    eexists. split; [done|]. destruct (released_at _ _ _ Ht Hrel) as [Hst _].
    destruct Hrel as (Hcur & _). split_and!; [done|done|right]. split_and!; [done|done|].
    by rewrite Hst, decide_False by done.
Qed.

Lemma current_process_cases s :
  tables_ok s → caller s →
  (g_current_process_index s = UINT32_MAX ∧ scheduler_current_process s = None) ∨
  (runs s (g_current_process_index s) ∧ ∃ p, aget (g_processes s) (g_current_process_index s) = Some p ∧
     scheduler_current_process s = Some p).
Proof.
  intros Ht [Hc|Hr]; unfold scheduler_current_process.
  - left. by rewrite Hc.
  - right. split; [done|]. destruct Hr as (Hc & _ & Hr). rewrite lt_10_processes by done.
    destruct (aget_is_Some (g_processes s) (g_current_process_index s)) as [p Hp]; [destruct Ht; lia|].
    exists p. rewrite Hp, (in_state_of s _ p _ Hp), Hr. by rewrite bool_decide_eq_false_2.
Qed.

Lemma sleep_ok regs ticks s :
  machine_inv s → caller s →
  ∃ o, process_sleep PRE cap regs ticks s = Some o ∧ call_ok (g_current_process_index s) o.
Proof.
  intros Hm Hcall. unfold process_sleep. pose proof (inv_tables _ (proj1 (proj1 Hm))) as Ht.
  destruct (current_process_cases s Ht Hcall) as [[Hc ->]|[(Hc & _ & Hr) (p & Hp & ->)]].
  { eexists. split; [done|]. apply continues_ok; done. }
  destruct (ticks =? 0); [by apply yield_call_ok; [|apply caller_callable]|]. cbv zeta.
  destruct (write_current_inv s (set_wake_tick (u64 (kernel_ticks_read s + ticks))) (proj1 Hm) Hc)
    as (s1 & -> & Hi1 & Hf1 & Hc1 & _ & _ & _ & Hw).
  { intros p' _. by destruct p'. } { right; left. by intros []. }
  cbind. rewrite <-Hc1.
  destruct (block_and_yield_ok regs s1 PROCESS_WAIT_SLEEP_TICKS ticks (u64 (kernel_ticks_read s + ticks)) 0)
    as (s' & o & -> & Ho & Hok).
  - split; [done|]. eapply frame_stacks; [done|apply Hm].
  - by rewrite Hc1.
  - rewrite Hc1. destruct Hf1 as (_ & _ & Hf1). destruct (Hf1 (g_current_process_index s)) as [_ Hu].
    rewrite Hu, Hr. done.
  - cbind. eauto.
Qed.

Lemma process_block_ok regs pid s :
  machine_inv s → caller s →
  ∃ o r, process_block PRE cap regs pid s = Some (o, r) ∧ call_ok (g_current_process_index s) o.
Proof.
  intros Hm Hcall. unfold process_block. pose proof (inv_tables _ (proj1 (proj1 Hm))) as Ht.
  destruct (find_by_pid_lt s pid Ht) as [->|(i & p & -> & Hi & Hp & Hpid & Hu)].
  { eexists _, _. split; [done|]. apply continues_ok; done. }
  rewrite lt_10_MAX, Hp by done. cbind. destruct (_ && _).
  { eexists _, _. split; [done|]. apply continues_ok; done. }
  destruct (N.eqb_spec i (g_current_process_index s)) as [->|Hne].
  - destruct (block_and_yield_ok regs s PROCESS_WAIT_MANUAL pid 0 0 Hm Hi Hu) as (s' & o & -> & Ho & Hok).
    cbind. rewrite Ho. cbind. eauto.
  - destruct (block_machine_ok s i PROCESS_WAIT_MANUAL pid 0 0 Hm Hi Hu)
      as (s' & -> & Hm' & _ & Hc & _ & Ho). cbind.
    eexists _, _. split; [done|]. split_and!; [done|done|].
    destruct Hcall as [?|(Hlt & _ & Hr)]; [by left|right]. split_and!; [done|done|].
    by rewrite Ho by done.
Qed.

Lemma wake_ok pid s :
  machine_inv s → caller s →
  ∃ s' r, process_wake pid s = Some (s', r) ∧ call_ok (g_current_process_index s) (Continues s').
Proof.
  intros Hm Hcall. unfold process_wake. pose proof (inv_tables _ (proj1 (proj1 Hm))) as Ht.
  destruct (find_by_pid_lt s pid Ht) as [->|(i & p & -> & Hi & Hp & Hpid & Hu)].
  { eexists _, _. split; [done|]. apply continues_ok; done. }
  rewrite lt_10_MAX by done. destruct (make_process_ready_ok s i Hm Hi) as (s' & -> & Hm' & _ & Hr & _).
  cbind. eexists _, _. split; [done|]. by apply continues_ok.
Qed.

Lemma wait_channel_ok regs channel s :
  machine_inv s → caller s →
  ∃ o, process_wait_channel PRE cap regs channel s = Some o ∧ call_ok (g_current_process_index s) o.
Proof.
  intros Hm Hcall. unfold process_wait_channel. destruct Hcall as [Hc|(Hc & Hc' & Hr)].
  { rewrite Hc. eexists. split; [done|]. rewrite <-Hc. apply continues_ok; [by left|done|done]. }
  rewrite lt_10_processes by done.
  destruct (block_and_yield_ok regs s PROCESS_WAIT_EVENT_CHANNEL channel 0 0 Hm Hc) as (s' & o & -> & Ho & Hok);
    [by rewrite Hr|]. cbind. eauto.
Qed.

Lemma wake_channel_ok channel s :
  machine_inv s → caller s →
  ∃ s' n, process_wake_channel channel s = Some (s', n) ∧ call_ok (g_current_process_index s) (Continues s').
Proof.
  intros Hm Hcall. unfold process_wake_channel.
  destruct (process_core_wake_channel (g_processes s) channel) as [l n] eqn:E.
  destruct (wakes_ok l s Hm) as (s' & -> & Hm' & _ & Hr & _).
  { replace l with (process_core_wake_channel (g_processes s) channel).1 by by rewrite E.
    apply wakes_update_where. }
  cbind. eexists _, _. split; [done|]. by apply continues_ok.
Qed.

Lemma wake_first_channel_ok channel s :
  machine_inv s → caller s →
  ∃ s' n, process_wake_first_channel channel s = Some (s', n) ∧
    call_ok (g_current_process_index s) (Continues s').
Proof.
  intros Hm Hcall. unfold process_wake_first_channel.
  destruct (process_core_wake_first_channel _ _ _) as [l n] eqn:E.
  destruct (wakes_ok l s Hm) as (s' & -> & Hm' & _ & Hr & _).
  { replace l with (process_core_wake_first_channel (g_processes s) channel (g_current_process_index s)).1
      by by rewrite E.
    apply wakes_first_channel. }
  cbind. eexists _, _. split; [done|]. by apply continues_ok.
Qed.

End calls.
