(* ===== verification/SchedulerMachine.v ===== *)
(** * Runs of the scheduler

    The calls a process can make, interrupts, and switches between processes
    as a step relation; what holds of every state it reaches.  Interrupts are
    taken between the calls, in the waiting loop of [process_yield], and where
    it polls the timer. *)

From S2P Require Import Prelude ProcessCore RuntimePolicy ReadyQueue Scheduler.
From S2P Require Import ReadyQueueTree ReadyQueueBalance ReadyQueueInsert ReadyQueueRemove ReadyQueueSpec.
From S2P Require Import SchedulerProofs SchedulerOps SchedulerCalls.

Local Open Scope N_scope.

(** The functions of [scheduler.c] that change its state. *)
Inductive call :=
  | CSpawn (name : option cstr) (entry role : N)
  | CTaskCreate (name : option cstr) (entry : N)
  | CYield
  | CExit (exit_code : Z)
  | CKill (pid : N) (exit_code : Z)
  | CReap (pid : N)
  | CWaitpid (pid : N)
  | CSleep (ticks : N)
  | CBlock (pid : N)
  | CWake (pid : N)
  | CWaitChannel (channel : N)
  | CWakeChannel (channel : N)
  | CWakeFirstChannel (channel : N).

(** The processor between two calls: the current process (or the boot code)
    runs, [process_yield] waits for an interrupt, or the system has halted. *)
Inductive mode := Calls | Waits | Stopped (reason : halt_reason).

Record machine := Machine { m_mode : mode; m_scheduler : scheduler }.

Section machine.
Context (SF PRE cap : bool) (base first_entry : N).

Definition perform (regs : timer_registers) (c : call) (s : scheduler) : option outcome :=
  match c with
  | CSpawn name entry role =>
      '(s, _) ← process_spawn_with_role SF base first_entry name entry role s; Some (Continues s)
  | CTaskCreate name entry => task_create SF base first_entry name entry s
  | CYield => task_yield PRE cap regs s
  | CExit exit_code => process_exit PRE cap regs exit_code s
  | CKill pid exit_code => '(o, _) ← process_kill PRE cap regs pid exit_code s; Some o
  | CReap pid => '(s, _) ← process_reap pid s; Some (Continues s)
  | CWaitpid pid =>
      r ← process_waitpid PRE cap regs pid s;
      Some (match r with WaitReturns s _ _ => Continues s | WaitYields o => o end)
  | CSleep ticks => process_sleep PRE cap regs ticks s
  | CBlock pid => '(o, _) ← process_block PRE cap regs pid s; Some o
  | CWake pid => '(s, _) ← process_wake pid s; Some (Continues s)
  | CWaitChannel channel => process_wait_channel PRE cap regs channel s
  | CWakeChannel channel => '(s, _) ← process_wake_channel channel s; Some (Continues s)
  | CWakeFirstChannel channel => '(s, _) ← process_wake_first_channel channel s; Some (Continues s)
  end.

(** [context_switch] stores the stack pointer of the process it leaves. *)
Definition save_stack_pointer (i sp : N) (s : scheduler) : scheduler :=
  set_exec (aupd (g_process_exec s) i (λ x, ExecSlot (x_entry x) sp)) s.

(** The next state.  The process that gets the processor comes out of its own
    [process_yield], or starts. *)
Inductive after : outcome → machine → Prop :=
  | after_continues s : after (Continues s) (Machine Calls s)
  | after_resumes s from to sp :
      scheduler_stack_pointer_in_range sp = true → scheduler_stack_pointer_is_aligned sp = true →
      after (Switches s from to)
        (Machine Calls (yield_resumes PRE cap (save_stack_pointer from sp s)))
  | after_enters s from to sp :
      scheduler_stack_pointer_in_range sp = true → scheduler_stack_pointer_is_aligned sp = true →
      after (Switches s from to) (Machine Calls (save_stack_pointer from sp s))
  | after_starts s to : after (Starts s to) (Machine Calls s)
  | after_idles s : after (Idles s) (Machine Waits s)
  | after_halts s reason : after (Halts s reason) (Machine (Stopped reason) s).

Inductive step : machine → machine → Prop :=
  | step_call regs c s o m :
      perform regs c s = Some o → after o m → step (Machine Calls s) m
  | step_run regs s o m :
      g_current_process_index s = UINT32_MAX → scheduler_run PRE cap regs s = Some o → after o m →
      step (Machine Calls s) m
  | step_bootstrap s s' entry :
      scheduler_task_bootstrap s = Some (Enters s' entry) →
      step (Machine Calls s) (Machine Calls s')
  | step_interrupt regs mode s s' :
      (∀ reason, mode ≠ Stopped reason) → systimer_tick_isr PRE regs s = Some s' →
      step (Machine mode s) (Machine mode s')
  | step_wakeup s o m :
      yield_after_interrupt PRE cap true s = Some o → after o m → step (Machine Waits s) m.

Inductive reachable : machine → Prop :=
  | reachable_boot : reachable (Machine Calls initial_scheduler)
  | reachable_step m m' : reachable m → step m m' → reachable m'.

(** ** Every call from a caller is defined and leads to a good outcome *)

Lemma perform_ok regs c s :
  stacks_fit base → machine_inv s → caller s →
  ∃ o, perform regs c s = Some o ∧ call_ok (g_current_process_index s) o.
Proof.
  intros Hfit Hm Hcall. pose proof (caller_callable _ Hcall) as Hcc.
  assert (∀ name entry role, ∃ s' pid,
    process_spawn_with_role SF base first_entry name entry role s = Some (s', pid) ∧
    call_ok (g_current_process_index s) (Continues s')) as Hspawn.
  { intros name entry role.
    destruct (spawn_ok SF base first_entry name entry role s Hm Hfit) as (s' & pid & -> & Hm' & Hc & Hcase).
    exists s', pid. split; [done|]. split_and!; [done|done|].
    destruct Hcall as [?|(Hlt & _ & Hr)]; [by left|right]. split_and!; [done|done|].
    destruct Hcase as [(_ & -> & _)|(_ & _ & _ & Hi & Hu & _ & _ & Hp & _)]; [done|].
    unfold state_of. rewrite Hp, aget_insert_ne; [done|]. intros Heq. rewrite <-Heq in Hu. congruence. }
  destruct c; cbn [perform].
  - destruct (Hspawn name entry role) as (s' & pid & -> & ?). cbind. eauto.
  - unfold task_create, process_spawn.
    destruct (Hspawn name entry RUNTIME_PROCESS_ROLE_SYSTEM) as (s' & pid & -> & Hok). cbind.
    destruct (pid =? 0); [|eauto]. eexists. by split.
  - by apply yield_call_ok.
  - destruct (exit_ok PRE cap regs exit_code s Hm Hcall) as (o & -> & Ho). exists o. split; [done|].
    by destruct o.
  - destruct (kill_ok PRE cap regs pid exit_code s Hm Hcall) as (o & r & -> & Ho). cbind. eauto.
  - destruct (reap_ok s pid Hm Hcall) as (s' & code & -> & Ho). cbind. eauto.
  - destruct (waitpid_round_ok PRE cap regs pid s Hm Hcall) as (r & -> & Ho). cbind. eauto.
  - by apply sleep_ok.
  - destruct (process_block_ok PRE cap regs pid s Hm Hcall) as (o & r & -> & Ho). cbind. eauto.
  - destruct (wake_ok pid s Hm Hcall) as (s' & r & -> & Ho). cbind. eauto.
  - by apply wait_channel_ok.
  - destruct (wake_channel_ok channel s Hm Hcall) as (s' & n & -> & Ho). cbind. eauto.
  - destruct (wake_first_channel_ok channel s Hm Hcall) as (s' & n & -> & Ho). cbind. eauto.
Qed.

(** ** The invariant of the runs *)

(** Why the system can halt. *)
Definition halt_ok (s : scheduler) (reason : halt_reason) : Prop :=
  match reason with
  | DIAGD_NO_RUNNABLE_TASK | TASK_CREATE_FAILED | YIELD_RETURNED => True
  | DIAGD_BAD_NEXT_INDEX => nothing_to_start s
  | _ => False
  end.

Definition machine_ok (m : machine) : Prop :=
  match m_mode m with
  | Calls => machine_inv (m_scheduler m) ∧ caller (m_scheduler m)
  | Waits => machine_inv (m_scheduler m) ∧ idle (m_scheduler m)
  | Stopped reason => halt_ok (m_scheduler m) reason
  end.

Lemma save_stack_pointer_ok i sp s :
  scheduler_stack_pointer_in_range sp = true → scheduler_stack_pointer_is_aligned sp = true →
  machine_inv s → machine_inv (save_stack_pointer i sp s) ∧ same_core s (save_stack_pointer i sp s).
Proof.
  intros Hr Ha [Hi Hs]. assert (same_core s (save_stack_pointer i sp s)) as Hc.
  { unfold same_core, save_stack_pointer. destruct s; cbn. by rewrite length_aupd. }
  split; [|done]. split; [by eapply same_core_inv|]. intros j Hj. rewrite (same_core_state _ _ _ Hc) in Hj.
  destruct (Hs j Hj) as (x & Hx & Hxr & Hxa).
  assert (g_process_exec (save_stack_pointer i sp s) =
    aupd (g_process_exec s) i (λ x, ExecSlot (x_entry x) sp)) as -> by by destruct s.
  rewrite aget_aupd, Hx. case_decide; eauto.
Qed.

Lemma runs_caller s i : runs s i → caller s.
Proof. intros (H1 & H2 & H3). right. rewrite H2. by split_and!. Qed.

Lemma after_ok c o m : call_ok c o → after o m → machine_ok m.
Proof.
  intros Ho Ha. destruct Ha as [s|s from to sp Hr Hal|s from to sp Hr Hal|s to|s|s reason];
    cbn in Ho; unfold machine_ok; cbn [m_mode m_scheduler].
  - destruct Ho as (Hm & <- & Hc). split; [done|]. destruct Hc as [?|?]; [by left|by right].
  - destruct Ho as (Hm & _ & _ & _ & Hrun).
    destruct (save_stack_pointer_ok from sp s Hr Hal Hm) as [Hm' Hc].
    destruct (preempt_enabled_core PRE cap (save_stack_pointer from sp s)) as [Hc2 Hx2].
    split; [by eapply machine_inv_core|].
    eapply runs_caller, (runs_core _ _ _ Hc2), (runs_core _ _ _ Hc), Hrun.
  - destruct Ho as (Hm & _ & _ & _ & Hrun).
    destruct (save_stack_pointer_ok from sp s Hr Hal Hm) as [Hm' Hc]. split; [done|].
    eapply runs_caller, (runs_core _ _ _ Hc), Hrun.
  - destruct Ho as (Hm & _ & _ & Hrun). split; [done|]. by eapply runs_caller.
  - by destruct Ho as (Hm & Hi & _).
  - destruct reason; try done; by destruct Ho as [?|(_ & ? & ?)].
Qed.

Lemma initial_unused i : state_of initial_scheduler i = PROCESS_STATE_UNUSED.
Proof.
  unfold state_of. destruct (aget _ i) as [p|] eqn:E; [|done].
  rewrite aget_lookup in E. apply list_elem_of_lookup_2 in E.
  change (g_processes initial_scheduler) with (replicate 10 unused_process) in E.
  by apply elem_of_replicate in E as [-> _].
Qed.

Lemma initial_ok : machine_ok (Machine Calls initial_scheduler).
Proof.
  split; [split; [split|]|by left].
  - split; [by vm_compute|by left|intros i Hi; by rewrite initial_unused in Hi|].
    split_and!; [by vm_compute|intros i Hi; by rewrite initial_unused in Hi|
      intros i j Hi; by rewrite initial_unused in Hi].
  - exists []. split; [apply represents_empty|]. by intros i ?%not_elem_of_nil.
  - intros i Hi. by rewrite initial_unused in Hi.
Qed.

Lemma tick_caller s s' : tick_rel s s' → caller s → caller s'.
Proof.
  intros (_ & Hc & Hst) [H|(Hi & _ & Hr)]; [left; congruence|right]. rewrite Hc.
  split_and!; [done|done|]. by apply Hst.
Qed.

Lemma tick_idle s s' : tick_rel s s' → idle s → idle s'.
Proof.
  intros ((_ & _ & Hf) & Hc & Hst) (Hi & Hu & Hr). unfold idle. rewrite Hc.
  split_and!; [done| |]; intros H; [apply Hu; by apply Hf|apply Hr; by apply Hst].
Qed.

Lemma bootstrap_core s s' entry :
  scheduler_task_bootstrap s = Some (Enters s' entry) →
  same_core s s' ∧ g_process_exec s' = g_process_exec s.
Proof.
  unfold scheduler_task_bootstrap. intros H. repeat (case_match; simplify_option_eq; try done).
  all: split; [done || by destruct s|done || by destruct s].
Qed.

Lemma step_ok m m' : stacks_fit base → machine_ok m → step m m' → machine_ok m'.
Proof.
  intros Hfit Hm Hstep. destruct Hstep as [regs c s o m E Ha|regs s o m Hcur E Ha|s s' entry E
    |regs mode s s' Hmode E|s o m E Ha]; unfold machine_ok in Hm; cbn [m_mode m_scheduler] in Hm.
  - destruct Hm as [Hm Hcall]. destruct (perform_ok regs c s Hfit Hm Hcall) as (o' & E' & Ho).
    rewrite E in E'. simplify_eq. by eapply after_ok.
  - destruct Hm as [Hm Hcall]. unfold scheduler_run in E.
    assert (set_current UINT32_MAX s = s) as Es by (rewrite <-Hcur; by destruct s). rewrite Es in E.
    destruct (yield_call_ok PRE cap regs s Hm) as (o' & Ey & Ho); [by left|]. rewrite Ey in E. cbind_in E.
    simplify_eq. eapply (after_ok (g_current_process_index s)); [|exact Ha]. by destruct o'.
  - destruct Hm as [Hm Hcall]. destruct (bootstrap_core _ _ _ E) as [Hc Hx].
    split; [by eapply machine_inv_core|]. eapply tick_caller; [by apply same_core_tick|done].
  - destruct mode; [| |by destruct (Hmode reason)]; destruct Hm as [Hm Hx];
      destruct (tick_isr_ok PRE regs s (proj1 Hm)) as (s2 & E2 & Hi2 & Hr2 & _); rewrite E in E2; simplify_eq;
      (split; [by eapply machine_inv_tick|]); [by eapply tick_caller|by eapply tick_idle].
  - destruct Hm as [Hm Hi]. destruct (yield_after_interrupt_ok PRE cap s Hm Hi) as (o' & E' & Ho).
    rewrite E in E'. simplify_eq. eapply after_ok; [by apply outcome_call_ok|done].
Qed.

Lemma reachable_ok m : stacks_fit base → reachable m → machine_ok m.
Proof. intros Hfit. induction 1; [apply initial_ok|by eapply step_ok]. Qed.

(** ** Executing a run *)

Inductive event :=
  | ECall (regs : timer_registers) (c : call)
  | ERun (regs : timer_registers)
  | EInterrupt (regs : timer_registers)
  | EWakeup.

(** The state after an outcome; a process that is left has [sp] saved. *)
Definition arrive (sp : N) (o : outcome) : machine :=
  match o with
  | Continues s => Machine Calls s
  | Switches s from to => Machine Calls (yield_resumes PRE cap (save_stack_pointer from sp s))
  | Starts s to => Machine Calls s
  | Idles s => Machine Waits s
  | Halts s reason => Machine (Stopped reason) s
  end.

Definition execute (sp : N) (m : machine) (e : event) : option machine :=
  match e, m_mode m with
  | ECall regs c, Calls => o ← perform regs c (m_scheduler m); Some (arrive sp o)
  | ERun regs, Calls =>
      if g_current_process_index (m_scheduler m) =? UINT32_MAX then
        o ← scheduler_run PRE cap regs (m_scheduler m); Some (arrive sp o)
      else None
  | EInterrupt regs, (Calls | Waits) as md => s ← systimer_tick_isr PRE regs (m_scheduler m); Some (Machine md s)
  | EWakeup, Waits => o ← yield_after_interrupt PRE cap true (m_scheduler m); Some (arrive sp o)
  | _, _ => None
  end.

Fixpoint executes (sp : N) (m : machine) (es : list event) : option machine :=
  match es with
  | [] => Some m
  | e :: es => m ← execute sp m e; executes sp m es
  end.

Lemma arrive_after sp o :
  scheduler_stack_pointer_in_range sp = true → scheduler_stack_pointer_is_aligned sp = true →
  after o (arrive sp o).
Proof. intros Hr Ha. destruct o; by constructor. Qed.

Lemma execute_step sp m e m' :
  scheduler_stack_pointer_in_range sp = true → scheduler_stack_pointer_is_aligned sp = true →
  execute sp m e = Some m' → step m m'.
Proof.
  intros Hr Ha. destruct m as [md s], e as [regs c|regs|regs|], md; cbn; intros E; try done.
  - destruct (perform regs c s) as [o|] eqn:Eo; [|done]. cbind_in E. injection E as <-.
    by eapply step_call, arrive_after.
  - destruct (N.eqb_spec (g_current_process_index s) UINT32_MAX); [|done].
    destruct (scheduler_run _ _ regs s) as [o|] eqn:Eo; [|done]. cbind_in E. injection E as <-.
    by eapply step_run, arrive_after.
  - destruct (systimer_tick_isr _ _ _) as [s2|] eqn:Es; [|done]. cbind_in E. injection E as <-.
    by eapply step_interrupt.
  - destruct (systimer_tick_isr _ _ _) as [s2|] eqn:Es; [|done]. cbind_in E. injection E as <-.
    by eapply step_interrupt.
  - destruct (yield_after_interrupt _ _ _ _) as [o|] eqn:Eo; [|done]. cbind_in E. injection E as <-.
    by eapply step_wakeup, arrive_after.
Qed.

Lemma executes_reachable sp es : ∀ m m',
  scheduler_stack_pointer_in_range sp = true → scheduler_stack_pointer_is_aligned sp = true →
  reachable m → executes sp m es = Some m' → reachable m'.
Proof.
  induction es as [|e es IH]; intros m m' Hr Ha Hm E; simpl in E; [by simplify_eq|].
  destruct (execute sp m e) as [m1|] eqn:E1; [|done]. cbind_in E.
  eapply (IH m1); [done|done| |done]. eapply reachable_step; [done|]. by eapply execute_step.
Qed.

(** The end of a run from the start; the initial state if it is not a run. *)
Definition run (sp : N) (es : list event) : machine :=
  default (Machine Calls initial_scheduler) (executes sp (Machine Calls initial_scheduler) es).

Lemma run_reachable sp es :
  scheduler_stack_pointer_in_range sp = true → scheduler_stack_pointer_is_aligned sp = true →
  reachable (run sp es).
Proof.
  intros Hr Ha. unfold run. destruct (executes _ _ _) as [m|] eqn:E; [|constructor]. simpl.
  eapply executes_reachable; [done|done|constructor|done].
Qed.
End machine.
