(* ===== verification/SchedulerTheorems.v ===== *)
(** * What the scheduler promises *)

From S2P Require Import Prelude ProcessCore RuntimePolicy ReadyQueue Scheduler.
From S2P Require Import ReadyQueueTree ReadyQueueBalance ReadyQueueInsert ReadyQueueRemove ReadyQueueSpec.
From S2P Require Import SchedulerProofs SchedulerOps SchedulerCalls SchedulerMachine.

Local Open Scope N_scope.

(** ** A configuration and some runs *)

Definition quiet : timer_registers := Registers 0 0 0.
Definition ticking : timer_registers := Registers 1 1 0.
Definition demo_base : N := 0x3FC90000.

Lemma demo_stacks_fit : stacks_fit demo_base.
Proof.
  intros i Hi. cut (forallb (λ i, scheduler_stack_pointer_in_range (initial_context_address demo_base i) &&
    scheduler_stack_pointer_is_aligned (initial_context_address demo_base i)) process_indices = true);
    [|by vm_compute].
  rewrite forallb_forall. intros H. specialize (H i). rewrite andb_true_iff in H. apply H.
  apply list_elem_of_In. by apply process_indices_elem.
Qed.

Definition demo_run (es : list event) : machine := run false false false demo_base 1 demo_base es.

Lemma demo_run_reachable es : reachable false false false demo_base 1 (demo_run es).
Proof. by apply run_reachable; vm_compute. Qed.

Lemma demo_run_ok es : machine_ok (demo_run es).
Proof. eapply reachable_ok; [apply demo_stacks_fit|apply demo_run_reachable]. Qed.

Definition spawn_a : event := ECall quiet (CSpawn (Some (cs "A")) 100 RUNTIME_PROCESS_ROLE_SYSTEM).
Definition spawn_b : event := ECall quiet (CSpawn (Some (cs "B")) 200 RUNTIME_PROCESS_ROLE_SYSTEM).

(** A runs, B is ready. *)
Definition two_ready : machine := demo_run [spawn_a; spawn_b; ERun quiet].

(** ** The invariant *)

(** C6: in every state that calls, interrupts and switches lead to, from the
    boot state on: at most one process is RUNNING and it is the current one;
    no two processes have the same id; the ready queue is a red-black tree of
    slots in the order of their run times, READY ones only (the current
    process apart); between calls the current process is RUNNING (or there is
    none yet), while [process_yield] waits it exists and is not RUNNING; and
    the system halts only for lack of a runnable process, at [task_create],
    or in [process_exit]: never on a bad current index or stack pointer, and
    with the reason DIAGD_BAD_NEXT_INDEX only when no process has been started
    yet and the ready queue is empty. *)
Theorem scheduler_invariant SF PRE cap base first_entry m :
  stacks_fit base → reachable SF PRE cap base first_entry m →
  let s := m_scheduler m in
  match m_mode m with
  | Stopped reason =>
      reason ≠ DIAGD_BAD_CURRENT_INDEX ∧ reason ≠ DIAGD_BAD_TASK_SP_RANGE ∧
      reason ≠ DIAGD_BAD_TASK_SP_ALIGN ∧ reason ≠ BOOTSTRAP_WITHOUT_PROCESS ∧
      (reason = DIAGD_BAD_NEXT_INDEX → g_current_process_index s = UINT32_MAX ∧
         ∃ t, queue_holds (g_ready_queue s) t ∧ inorder t = [])
  | md =>
      (∀ i, state_of s i = PROCESS_STATE_RUNNING → i = g_current_process_index s) ∧
      (∀ i j, state_of s i ≠ PROCESS_STATE_UNUSED → state_of s j ≠ PROCESS_STATE_UNUSED →
         pid_of s i = pid_of s j → i = j) ∧
      (∃ t, queue_holds (g_ready_queue s) t ∧ ordered (key_lt s) (inorder t) ∧
         ∀ i, i ∈ inorder t → state_of s i = PROCESS_STATE_READY ∨ i = g_current_process_index s) ∧
      match md with
      | Calls => g_current_process_index s = UINT32_MAX ∨
                 state_of s (g_current_process_index s) = PROCESS_STATE_RUNNING
      | _ => state_of s (g_current_process_index s) ≠ PROCESS_STATE_UNUSED ∧
             state_of s (g_current_process_index s) ≠ PROCESS_STATE_RUNNING
      end
  end.
Proof.
  intros Hfit Hm. pose proof (reachable_ok _ _ _ _ _ m Hfit Hm) as H. destruct m as [md s]. cbn [m_scheduler m_mode].
  assert (machine_inv s → (∀ i, state_of s i = PROCESS_STATE_RUNNING → i = g_current_process_index s) ∧
      (∀ i j, state_of s i ≠ PROCESS_STATE_UNUSED → state_of s j ≠ PROCESS_STATE_UNUSED →
         pid_of s i = pid_of s j → i = j) ∧
      (∃ t, queue_holds (g_ready_queue s) t ∧ ordered (key_lt s) (inorder t) ∧
         ∀ i, i ∈ inorder t → state_of s i = PROCESS_STATE_READY ∨ i = g_current_process_index s)) as Hinv.
  { intros [[[_ _ Hrun (_ & _ & Hpid)] (l & (t & Ht & <- & Ho) & Hmem)] _].
    split_and!; [done|done|]. exists t. split_and!; [done|done|]. intros i Hi.
    destruct (Hmem i Hi) as [?|(? & _)]; [by left|by right]. }
  destruct md as [| |reason]; unfold machine_ok in H; cbn in H.
  - destruct H as [Hi Hc]. destruct (Hinv Hi) as (? & ? & ?). split_and!; [done..|].
    destruct Hc as [?|(_ & _ & ?)]; [by left|by right].
  - destruct H as [Hi (_ & Hu & Hr)]. destruct (Hinv Hi) as (? & ? & ?). by split_and!.
  - destruct reason; try done. destruct H as [Hc (t & Ht & Hi & _)]. split_and!; try done.
    intros _. split; [done|]. by exists t.
Qed.

Lemma scheduler_invariant_witness :
  m_mode two_ready = Calls ∧
  ∀ i j, state_of (m_scheduler two_ready) i ≠ PROCESS_STATE_UNUSED →
    state_of (m_scheduler two_ready) j ≠ PROCESS_STATE_UNUSED →
    pid_of (m_scheduler two_ready) i = pid_of (m_scheduler two_ready) j → i = j.
Proof.
  pose proof (scheduler_invariant false false false demo_base 1 two_ready demo_stacks_fit
    (demo_run_reachable _)) as H. cbv zeta in H.
  assert (m_mode two_ready = Calls) as E by by vm_compute. split; [done|].
  rewrite E in H. by destruct H as (_ & ? & _).
Defined.

(** ** Termination *)

(** C8: every call of the scheduler ends, in every state that is reached: no
    array is accessed out of bounds and no loop of the ready queue runs for
    more than its bound, in a call, in the timer interrupt, or when
    [process_yield] is woken. *)
Theorem scheduler_calls_end SF PRE cap base first_entry m :
  stacks_fit base → reachable SF PRE cap base first_entry m →
  match m_mode m with
  | Calls => (∀ regs c, is_Some (perform SF PRE cap base first_entry regs c (m_scheduler m))) ∧
             ∀ regs, is_Some (systimer_tick_isr PRE regs (m_scheduler m))
  | Waits => is_Some (yield_after_interrupt PRE cap true (m_scheduler m)) ∧
             ∀ regs, is_Some (systimer_tick_isr PRE regs (m_scheduler m))
  | Stopped _ => True
  end.
Proof.
  intros Hfit Hm. pose proof (reachable_ok _ _ _ _ _ m Hfit Hm) as H. destruct m as [md s].
  unfold machine_ok in H. cbn in *. destruct md as [| |reason]; [| |done].
  - destruct H as [Hi Hc]. split; intros regs.
    + intros c. destruct (perform_ok SF PRE cap base first_entry regs c s Hfit Hi Hc) as (o & -> & _). done.
    + destruct (tick_isr_ok PRE regs s (proj1 Hi)) as (s' & -> & _). done.
  - destruct H as [Hi Hc]. split.
    + destruct (yield_after_interrupt_ok PRE cap s Hi Hc) as (o & -> & _). done.
    + intros regs. destruct (tick_isr_ok PRE regs s (proj1 Hi)) as (s' & -> & _). done.
Qed.

Lemma scheduler_calls_end_witness :
  is_Some (perform false false false demo_base 1 ticking CYield (m_scheduler two_ready)).
Proof.
  pose proof (scheduler_calls_end false false false demo_base 1 two_ready demo_stacks_fit
    (demo_run_reachable _)) as H.
  assert (m_mode two_ready = Calls) as E by by vm_compute.
  rewrite E in H. by destruct H as [H _].
Defined.

(** ** The choice of [process_yield] *)

(** The READY process that comes first. *)
Definition first_ready (s : scheduler) (i : N) : Prop :=
  state_of s i = PROCESS_STATE_READY ∧
  ∀ j, state_of s j = PROCESS_STATE_READY → j = i ∨ key_lt s i j = true.

Definition none_ready (s : scheduler) : Prop := ∀ j, state_of s j ≠ PROCESS_STATE_READY.

Lemma synced_pick s :
  synced s →
  (scheduler_pick_next_ready s = UINT32_MAX ∧ none_ready s) ∨
  (scheduler_pick_next_ready s ≠ UINT32_MAX ∧ first_ready s (scheduler_pick_next_ready s)).
Proof.
  intros (l & Hl & Ho & He). unfold scheduler_pick_next_ready. rewrite (represents_leftmost _ _ _ Hl).
  destruct l as [|x l].
  - left. split; [done|]. intros j Hj. apply He in Hj. by apply not_elem_of_nil in Hj.
  - right. simpl. split.
    { assert (x < 10) by (eapply represents_lt; [exact Hl|by left]). unfold UINT32_MAX. lia. }
    split; [apply He; by left|]. intros j Hj. apply He in Hj. apply elem_of_cons in Hj as [->|Hj]; [by left|right].
    inversion Ho as [|? ? _ Hf]; subst. rewrite Forall_forall in Hf. by apply Hf.
Qed.

Lemma same_view_key s s' : same_view s s' → ∀ i j, key_lt s' i j = key_lt s i j.
Proof.
  intros (_ & _ & _ & _ & H & _) i j. destruct (H i) as (_ & ? & ?), (H j) as (_ & ? & ?).
  by apply key_lt_ext.
Qed.

Lemma same_view_synced s s' : same_view s s' → synced s → synced s'.
Proof.
  intros Hv (l & Hl & Ho & He). pose proof (same_view_key s s' Hv) as Hk.
  destruct Hv as (_ & Hq & _ & _ & H & _). exists l. unfold rq_is. rewrite Hq. split.
  - by eapply represents_ext; [|exact Hl].
  - split; [by eapply ordered_ext; [|exact Ho]|]. intros i. destruct (H i) as (-> & _). apply He.
Qed.

Lemma same_view_first s s' i : same_view s s' → first_ready s' i → first_ready s i.
Proof.
  intros Hv [Hi Hj]. pose proof (same_view_key s s' Hv) as Hk.
  destruct Hv as (_ & _ & _ & _ & H & _). split; [by rewrite <-(proj1 (H i))|].
  intros j Hr. rewrite <-Hk. apply Hj. by rewrite (proj1 (H j)).
Qed.

Lemma same_view_switched s s' s2 c n : same_view s s' → switched s' s2 c n → switched s s2 c n.
Proof.
  intros (_ & _ & Ht & Hx & H & _) (S1 & S2 & S3 & S4).
  assert (∀ i, state_of s' i = state_of s i) as H1 by (intros i; by destruct (H i)).
  assert (∀ i, vruntime s' i = vruntime s i) as H2 by (intros i; by destruct (H i) as (_ & ? & _)).
  assert (∀ i, pid_of s' i = pid_of s i) as H3 by (intros i; by destruct (H i) as (_ & _ & ?)).
  split_and!.
  - intros j. rewrite S1, !H1. done.
  - intros j. rewrite S2, H1, H2. unfold charged, kernel_ticks_read. by rewrite H2, Ht, Hx.
  - intros j. by rewrite S3.
  - congruence.
Qed.

Lemma none_ready_view s s' : same_view s s' → none_ready s' → none_ready s.
Proof. intros (_ & _ & _ & _ & H & _) Hn j. rewrite <-(proj1 (H j)). apply Hn. Qed.

(** The states in which processes call [process_yield]: the queue is up to
    date and the caller's slot is in use. *)
Definition may_yield (s : scheduler) : Prop :=
  machine_inv s ∧ synced s ∧ g_current_process_index s < 10 ∧
  state_of s (g_current_process_index s) ≠ PROCESS_STATE_UNUSED.

Definition yield_spec (s s1 : scheduler) (o : outcome) : Prop :=
  let current := g_current_process_index s in
  match o with
  | Switches s' from to =>
      from = current ∧ to ≠ current ∧ first_ready s1 to ∧ switched s1 s' from to ∧ synced s'
  | Continues s' =>
      runs s' current ∧
      (state_of s1 current = PROCESS_STATE_RUNNING ∧ none_ready s1 ∨ first_ready s1 current)
  | Idles s' =>
      state_of s1 current ≠ PROCESS_STATE_RUNNING ∧ none_ready s1 ∧
      process_core_count_blocked_sleepers (g_processes s1) ≠ 0
  | Halts s' reason =>
      reason = DIAGD_NO_RUNNABLE_TASK ∧ state_of s1 current ≠ PROCESS_STATE_RUNNING ∧ none_ready s1 ∧
      process_core_count_blocked_sleepers (g_processes s1) = 0
  | Starts _ _ => False
  end.

Lemma yield_spec_ok PRE cap regs s :
  may_yield s →
  ∃ s1 o, runtime_poll_timer_delivery PRE regs (preempt_disabled s) = Some s1 ∧ tick_rel s s1 ∧
    process_yield PRE cap regs s = Some o ∧ yield_spec s s1 o.
Proof.
  intros (Hm & Hsy & Hc & Hu).
  destruct (yield_prepared PRE cap regs s Hm Hc Hu) as (s1 & s3 & E1 & Hm1 & Hr & Hsy1 & Hm3 & Hv & ->).
  exists s1. pose proof (same_view_synced _ _ Hv (Hsy1 Hsy)) as Hs3.
  pose proof Hr as ((_ & _ & Hf) & Hcur & _). pose proof Hv as (V1 & _ & _ & _ & V5 & V6).
  assert (g_current_process_index s3 = g_current_process_index s) as Hc3 by congruence.
  assert (∀ j, state_of s3 j = state_of s1 j) as Hst by (intros j; by destruct (V5 j)).
  assert (state_of s3 (g_current_process_index s) ≠ PROCESS_STATE_UNUSED) as Hu3.
  { rewrite Hst. by destruct (Hf (g_current_process_index s)) as [_ ->]. }
  unfold yield_choose, yield_spec. destruct (synced_pick s3 Hs3) as [[-> Hnone]|[Hne Hfirst]].
  - rewrite N.eqb_refl. destruct (aget_is_Some (g_processes s3) (g_current_process_index s)) as [p Hp].
    { destruct (inv_tables _ (proj1 (proj1 Hm3))). lia. }
    rewrite Hp. cbind. rewrite (in_state_of s3 _ p _ Hp), V6, Hst.
    pose proof (none_ready_view _ _ Hv Hnone) as Hn1.
    destruct (decide (state_of s1 (g_current_process_index s) = PROCESS_STATE_RUNNING)) as [Hrun|Hrun].
    + rewrite bool_decide_eq_true_2 by done. eexists. do 3 (split; [done|]). split; [|by left].
      apply (runs_core s3); [apply same_core_preempt|]. split_and!; [done|done|by rewrite Hst].
    + rewrite bool_decide_eq_false_2 by done.
      destruct (N.eqb_spec (process_core_count_blocked_sleepers (g_processes s1)) 0); cbn [negb];
        eexists; by split_and!.
  - destruct (N.eqb_spec (scheduler_pick_next_ready s3) UINT32_MAX) as [?|_]; [done|].
    pose proof (same_view_first _ _ _ Hv Hfirst) as Hf1. rewrite <-Hc3 in Hc, Hu3 |- *.
    destruct (decide (scheduler_pick_next_ready s3 = g_current_process_index s3)) as [Heq|Hnc].
    + destruct (yield_to_stays PRE cap s3 Hm3 Hc Hu3 Heq) as (s' & -> & _ & Hrun).
      eexists. do 3 (split; [done|]). split; [done|right]. by rewrite <-Heq.
    + destruct (yield_to_switches PRE cap s3 Hm3 Hc Hu3 Hne Hnc) as (s' & -> & _ & Hs' & _ & Hsw).
      eexists. do 3 (split; [done|]). cbn. do 3 (split; [done|]). split; [|done].
      by eapply same_view_switched.
Qed.


(** A state in which the queue is up to date. *)
Lemma started_may_yield SF PRE cap base first_entry regs s s' i :
  stacks_fit base → reachable SF PRE cap base first_entry (Machine Calls s) →
  scheduler_run PRE cap regs s = Some (Starts s' i) → g_current_process_index s = UINT32_MAX → may_yield s'.
Proof.
  intros Hfit Hr E Hc. destruct (reachable_ok _ _ _ _ _ _ Hfit Hr) as [Hm Hcall].
  unfold scheduler_run in E. assert (set_current UINT32_MAX s = s) as Es by (rewrite <-Hc; by destruct s).
  rewrite Es in E. cbn in Hm. destruct (yield_ok PRE cap regs s Hm) as (o & Eo & Ho); [by left|].
  rewrite Eo in E. cbind_in E. destruct o; simplify_eq.
  destruct Ho as (Hm' & Hs & _ & Hi & Hcur & Hrun). split_and!; [done|done|by rewrite Hcur|by rewrite Hcur, Hrun].
Qed.

Definition two_spawned : machine := demo_run [spawn_a; spawn_b].

Lemma two_ready_may_yield : may_yield (m_scheduler two_ready).
Proof.
  apply (started_may_yield false false false demo_base 1 quiet (m_scheduler two_spawned) _ 0).
  - apply demo_stacks_fit.
  - assert (Machine Calls (m_scheduler two_spawned) = two_spawned) as -> by by vm_compute.
    apply demo_run_reachable.
  - by vm_compute.
  - by vm_compute.
Qed.

