(* ===== verification/SchedulerLiveness.v ===== *)
(** * Ready processes get the processor

    As long as the processes give up the processor with [process_yield], a
    READY process waits for a bounded number of switches: every other process
    is charged each time it runs, and falls behind. *)

From S2P Require Import Prelude ProcessCore RuntimePolicy ReadyQueue Scheduler.
From S2P Require Import ReadyQueueTree ReadyQueueBalance ReadyQueueInsert ReadyQueueRemove ReadyQueueSpec.
From S2P Require Import SchedulerProofs SchedulerOps SchedulerCalls SchedulerMachine SchedulerTheorems.

Local Open Scope N_scope.

(** ** The tick leaves the run times *)

Lemma sync_loop_rq indices : ∀ s s', sync_loop indices s = Some s' → ∃ q, s' = set_rq q s.
Proof.
  induction indices as [|i rest IH]; intros s s' E; simpl in E.
  - simplify_eq. exists (g_ready_queue s'). by rewrite set_rq_same.
  - destruct (aget (g_processes s) i) as [p|]; [|done]. cbind_in E.
    destruct (if in_state _ p then _ else _) as [s1|] eqn:E1; [|done]. cbind_in E.
    assert (∃ q, s1 = set_rq q s) as [q ->].
    { unfold upd_rq in E1. case_match.
      - destruct (scheduler_ready_queue_insert _ _ _) as [q|]; [|done]. exists q. by injection E1.
      - destruct (scheduler_ready_queue_remove _ _) as [q|]; [|done]. exists q. by injection E1. }
    destruct (IH _ _ E) as [q' ->]. exists q'. by rewrite set_rq_twice.
Qed.

(** The clock goes on by at most one. *)
Definition ticked (s s' : scheduler) : Prop :=
  g_sched_vruntime s' = g_sched_vruntime s ∧ g_sched_exec_start_tick s' = g_sched_exec_start_tick s ∧
  kernel_ticks_read s' ≤ kernel_ticks_read s + 1.

Lemma isr_ticked PRE regs s s' : systimer_tick_isr PRE regs s = Some s' → ticked s s'.
Proof.
  unfold systimer_tick_isr. case_match; [|intros E; simplify_eq; split_and!; [done|done|lia]].
  unfold ticked, kernel_ticks_read. destruct (g_timer s) as [tk log last stalled ms win latched] eqn:Et.
  unfold process_tick, scheduler_sync_ready_queue.
  destruct (sync_loop _ _) as [s2|] eqn:E2; [|done]. cbind. intros E.
  apply sync_loop_rq in E2 as [q ->].
  assert (u64 (tk + 1) ≤ tk + 1) as Hle by (apply N.Div0.mod_le).
  repeat case_match; simplify_eq; destruct s; cbn in *; split_and!; done.
Qed.

Lemma poll_ticked PRE regs s s' : runtime_poll_timer_delivery PRE regs s = Some s' → ticked s s'.
Proof.
  unfold runtime_poll_timer_delivery. intros E.
  repeat (case_match; [simplify_eq; split_and!; [done|done|lia]|]).
  destruct (systimer_tick_isr PRE regs (set_latched 1 s)) as [s2|] eqn:E2; [|done]. cbind_in E.
  apply isr_ticked in E2 as (H1 & H2 & H3). simplify_eq. unfold ticked, kernel_ticks_read, set_latched in *.
  destruct (g_timer s2) eqn:Et, (g_timer s) eqn:Et'. destruct s, s2; cbn in *. subst. by split_and!.
Qed.

(** ** How far the others are ahead *)

(** The run time by which process [i] is behind the slot [j]. *)
Definition ahead (s : scheduler) (i j : N) : N :=
  if decide (j = i) then 0 else vruntime s i + 1 - vruntime s j.

Definition lag (s : scheduler) (i : N) : N := foldr (λ j n, ahead s i j + n) 0 process_indices.

Lemma lag_le s s' i :
  (∀ j, ahead s' i j ≤ ahead s i j) → lag s' i ≤ lag s i.
Proof.
  intros H. unfold lag. induction process_indices as [|j l IH]; simpl; [done|].
  specialize (H j). lia.
Qed.

Lemma lag_lt s s' i c :
  (∀ j, ahead s' i j ≤ ahead s i j) → c < 10 → ahead s' i c < ahead s i c → lag s' i < lag s i.
Proof.
  intros H Hc Hlt. unfold lag. apply process_indices_elem in Hc. revert Hc.
  induction process_indices as [|j l IH]; simpl; [by intros ?%not_elem_of_nil|].
  intros [<-|Hin]%elem_of_cons.
  - assert (foldr (λ j n, ahead s' i j + n) 0 l ≤ foldr (λ j n, ahead s i j + n) 0 l); [|lia].
    clear IH. induction l as [|k l IH]; simpl; [done|]. specialize (H k). lia.
  - specialize (IH Hin). specialize (H j). lia.
Qed.

(** ** One yield *)

(** The counters are 64 bits wide; this says that they do not wrap. *)
Definition no_wrap (s : scheduler) : Prop :=
  ∀ j, vruntime s j + kernel_ticks_read s + 2 < 18446744073709551616.

(** The processor is with a process other than [i], which is READY. *)
Definition waiting (s : scheduler) (i : N) : Prop :=
  may_yield s ∧ runs s (g_current_process_index s) ∧ i ≠ g_current_process_index s ∧
  state_of s i = PROCESS_STATE_READY.

Lemma key_lt_vruntime s i j : key_lt s i j = true → vruntime s i ≤ vruntime s j.
Proof. unfold key_lt. case_N; intros; first [done|lia]. Qed.

Lemma charged_more s s1 c :
  ticked s s1 → no_wrap s → vruntime s c < charged s1 c.
Proof.
  intros (Hv & Hx & Ht) Hw. unfold no_wrap, charged, vruntime, kernel_ticks_read in *. rewrite Hv, Hx.
  specialize (Hw c). unfold u64.
  destruct (N.ltb_spec (default 0 (aget (g_sched_exec_start_tick s) c)) (g_kernel_ticks (g_timer s1)));
    rewrite N.mod_small; lia.
Qed.

Section liveness.
Context (PRE cap : bool).

Lemma waiting_yield regs s i :
  waiting s i → no_wrap s →
  ∃ s' to, process_yield PRE cap regs s = Some (Switches s' (g_current_process_index s) to) ∧
    may_yield s' ∧ runs s' to ∧
    (to = i ∨ (i ≠ to ∧ state_of s' i = PROCESS_STATE_READY ∧ vruntime s' to ≤ vruntime s' i ∧
       lag s' i ≤ lag s i ∧
       (vruntime s (g_current_process_index s) ≤ vruntime s i → lag s' i < lag s i))).
Proof.
  intros (Hs & Hrun & Hne & Hi) Hw. set (c := g_current_process_index s) in *.
  destruct (yield_spec_ok PRE cap regs s Hs) as (s1 & o & Ep & Hr & E & Ho).
  destruct (yield_ok PRE cap regs s (proj1 Hs)) as (o' & E' & Hok).
  { right. split; apply Hs. }
  rewrite E in E'. injection E' as <-.
  pose proof (poll_ticked _ _ _ _ Ep) as Htk.
  assert (ticked s s1) as Htick by (destruct s; exact Htk). clear Htk.
  destruct Hr as (_ & _ & Hst). destruct (Hst i) as (_ & Hri & _), (Hst c) as ([Hrc _] & _).
  specialize (Hri Hi). specialize (Hrc (proj2 (proj2 Hrun))).
  assert (¬ none_ready s1) as Hnn by (intros Hn; by apply (Hn i)).
  destruct o as [s'|s' from to| |s'|s' r]; cbn in Ho.
  1:{ destruct Ho as (_ & [[_ ?]|[Hfc _]]); [done|]. fold c in Hfc. congruence. }
  2:{ done. } 2:{ by destruct Ho as (_ & ? & _). } 2:{ by destruct Ho as (_ & _ & ? & _). }
  destruct Ho as (-> & Hto & [Hrt Hfirst] & (S1 & S2 & _ & _) & Hsy).
  destruct Hok as (Hm' & _ & _ & _ & Hrun'). fold c in Hto, S1, S2 |- *. rewrite Hrc in S1, S2.
  exists s', to. split; [done|]. pose proof Hrun' as (Hto10 & Hcur' & Hrto).
  split; [split_and!; [done|done|by rewrite Hcur'|by rewrite Hcur', Hrto]|]. split; [done|].
  destruct (decide (to = i)) as [|Hti]; [by left|right].
  assert (∀ j, vruntime s1 j = vruntime s j) as Hv1.
  { intros j. unfold vruntime. destruct Htick as (-> & _). done. }
  assert (∀ j, j ≠ c → vruntime s' j = vruntime s j) as Hv'.
  { intros j Hj. rewrite S2, decide_False by naive_solver. apply Hv1. }
  assert (vruntime s' c = charged s1 c) as Hvc by (rewrite S2, decide_True by done; done).
  pose proof (charged_more s s1 c Htick Hw) as Hmore.
  assert (∀ j, ahead s' i j ≤ ahead s i j) as Hle.
  { intros j. unfold ahead. destruct (decide (j = i)); [lia|]. rewrite (Hv' i) by done.
    destruct (decide (j = c)) as [->|Hj]; [rewrite Hvc; lia|by rewrite Hv']. }
  assert (state_of s' i = PROCESS_STATE_READY) as Hi'.
  { rewrite S1, decide_False, decide_False by naive_solver. done. }
  split_and!; [done|done| |by apply lag_le|].
  - destruct (Hfirst i Hri) as [?|Hk]; [done|]. apply key_lt_vruntime in Hk.
    rewrite !Hv' by done. by rewrite <-!Hv1.
  - intros Hcv. apply (lag_lt _ _ _ c); [done|apply Hrun|]. unfold ahead.
    rewrite decide_False, decide_False by done. rewrite (Hv' i), Hvc by done. lia.
Qed.

(** ** Runs in which [i] does not get the processor *)

Inductive passed_over (i : N) : nat → scheduler → scheduler → Prop :=
  | passed_refl s : passed_over i 0 s s
  | passed_interrupt n s s1 s2 regs :
      passed_over i n s s1 → systimer_tick_isr PRE regs s1 = Some s2 → passed_over i n s s2
  | passed_yield n s s1 s2 regs o :
      passed_over i n s s1 → no_wrap s1 → process_yield PRE cap regs s1 = Some o →
      after PRE cap o (Machine Calls s2) → g_current_process_index s2 ≠ i →
      passed_over i (S n) s s2.

(** Changes outside the table, the queue and the run times. *)
Lemma same_core_may_yield s s' :
  same_core s s' → machine_inv s' → may_yield s → may_yield s'.
Proof.
  intros Hc Hx (Hm & Hs & Hlt & Hu). pose proof Hc as (_ & _ & _ & C4 & _).
  split; [done|]. split; [by eapply same_core_synced|].
  by rewrite C4, (same_core_state _ _ _ Hc).
Qed.

Lemma after_switch s from to s' :
  after PRE cap (Switches s from to) (Machine Calls s') → machine_inv s →
  same_core s s' ∧ machine_inv s'.
Proof.
  intros Ha Hm. inversion Ha as [|s0 f t sp Hr Hal E1 E2|s0 f t sp Hr Hal E1 E2| | |]; subst.
  - destruct (save_stack_pointer_ok from sp s Hr Hal Hm) as [Hm' Hc].
    destruct (preempt_enabled_core PRE cap (save_stack_pointer from sp s)) as [Hc2 Hx2].
    split; [by etrans|by eapply machine_inv_core].
  - by destruct (save_stack_pointer_ok from sp s Hr Hal Hm) as [Hm' Hc].
Qed.

Lemma lag_core s s' i : same_core s s' → lag s' i = lag s i.
Proof. intros (_ & _ & H & _). unfold lag, ahead, vruntime. by rewrite H. Qed.

Lemma isr_waiting regs s s' i :
  systimer_tick_isr PRE regs s = Some s' → waiting s i →
  waiting s' i ∧ lag s' i = lag s i ∧ g_current_process_index s' = g_current_process_index s ∧
  ∀ j, vruntime s' j = vruntime s j.
Proof.
  intros E ((Hm & Hs & Hc & Hu) & Hrun & Hne & Hi).
  destruct (tick_isr_ok PRE regs s (proj1 Hm)) as (s2 & E2 & Hi2 & Hr2 & Hsy).
  rewrite E in E2. injection E2 as <-.
  pose proof (isr_ticked _ _ _ _ E) as (Hv & _). pose proof Hr2 as ((_ & _ & Hf) & Hcur & Hst).
  assert (runs s' (g_current_process_index s)) as Hrun'.
  { destruct Hrun as (R1 & R2 & R3). split_and!; [done|done|]. by apply Hst. }
  split_and!; [|unfold lag, ahead, vruntime; by rewrite Hv|done|unfold vruntime; by rewrite Hv].
  split_and!.
  - split_and!; [by eapply machine_inv_tick|by apply Hsy|by rewrite Hcur|].
    rewrite Hcur. by destruct (Hf (g_current_process_index s)) as [_ ->].
  - by rewrite Hcur.
  - by rewrite Hcur.
  - by apply Hst.
Qed.

Lemma passed_over_inv i n s s' :
  passed_over i n s s' → waiting s i →
  waiting s' i ∧
  (n = 0%nat ∧ lag s' i = lag s i ∨
   vruntime s' (g_current_process_index s') ≤ vruntime s' i ∧ lag s' i + N.of_nat n ≤ 1 + lag s i).
Proof.
  intros H Hw. induction H as [s|n s s1 s2 regs _ IH E|n s s1 s2 regs o _ IH Hnw E Ha Hne].
  - split; [done|by left].
  - destruct (IH Hw) as [Hw1 Hcase]. destruct (isr_waiting _ _ _ _ E Hw1) as (Hw2 & Hl & Hc & Hv).
    split; [done|]. rewrite Hl, Hc, !Hv. done.
  - destruct (IH Hw) as [Hw1 Hcase].
    destruct (waiting_yield regs s1 i Hw1 Hnw) as (s' & to & E' & Hmy & Hrun & Hto).
    rewrite E in E'. injection E' as ->.
    destruct (after_switch _ _ _ _ Ha (proj1 Hmy)) as [Hcore Hm2].
    pose proof Hcore as (_ & _ & C3 & C4 & _). pose proof Hrun as (_ & Hcur & _).
    destruct Hto as [->|(Hti & Hri & Hv & Hle & Hlt)]; [congruence|].
    pose proof (runs_core _ _ _ Hcore Hrun) as Hrun2.
    assert (∀ j, vruntime s2 j = vruntime s' j) as Hv2 by (intros j; unfold vruntime; by rewrite C3).
    rewrite (lag_core _ _ _ Hcore), C4, Hcur, !Hv2. split.
    + split; [by apply (same_core_may_yield s' s2)|].
      rewrite C4, Hcur. split_and!; [done|done|]. by rewrite (same_core_state _ _ _ Hcore).
    + right. split; [done|]. destruct Hcase as [[-> Hl]|[Hcv Hb]]; [lia|]. specialize (Hlt Hcv). lia.
Qed.

End liveness.

