(* ===== verification/SchedulerInterface.v ===== *)
(** * What the rest of the kernel relies on

    Process creation, and the agreement of the scheduler with the process
    operations that [KernelObjects.v] builds wait queues, events, semaphores,
    mutexes and mailboxes on. *)

From S2P Require Import Prelude ProcessCore RuntimePolicy ReadyQueue KernelObjects Scheduler ReadyQueueTree ReadyQueueBalance ReadyQueueInsert ReadyQueueRemove.
From S2P Require Import ReadyQueueSpec SchedulerProofs SchedulerOps SchedulerCalls SchedulerMachine SchedulerTheorems SchedulerLiveness.

Local Open Scope N_scope.

(** ** Creation *)

(** C13: [process_spawn_with_role] fails with 0 exactly when there is no entry
    point, no free slot, no process id left or the policy refuses, and then
    changes nothing; otherwise the first free slot holds a fresh READY process
    with the next process id, the caller as its parent, its own stack and
    entry point; it is in the ready queue; no other slot changes. *)
Theorem process_spawn_creates SF PRE cap base first_entry name entry role s :
  stacks_fit base → reachable SF PRE cap base first_entry (Machine Calls s) →
  let i := process_core_find_free_slot (g_processes s) in
  ∃ s' pid, process_spawn_with_role SF base first_entry name entry role s = Some (s', pid) ∧
    (pid = 0 ↔ entry = 0 ∨ i = UINT32_MAX ∨ g_next_pid s = 0 ∨
               runtime_policy_can_spawn SF (g_processes s) role = false) ∧
    (pid = 0 → s' = s) ∧
    (pid ≠ 0 →
       pid = g_next_pid s ∧ i < 10 ∧ state_of s i = PROCESS_STATE_UNUSED ∧
       g_processes s' = <[N.to_nat i := spawned pid (process_current_pid s) name role]> (g_processes s) ∧
       g_process_exec s' = <[N.to_nat i := ExecSlot entry (initial_context_address base i)]> (g_process_exec s) ∧
       g_current_process_index s' = g_current_process_index s ∧ synced s').
Proof.
  intros Hfit Hr i. destruct (reachable_ok _ _ _ _ _ _ Hfit Hr) as [Hm _]. cbn in Hm.
  destruct (spawn_ok SF base first_entry name entry role s Hm Hfit) as (s' & pid & E & _ & Hc & Hcase).
  fold i in Hcase. exists s', pid. split; [done|].
  destruct Hcase as [(-> & -> & Hwhy)|(He & -> & Hp & Hi & Hu & Hpol & Hs & Hpr & Hx & _)].
  - split_and!; [done|done|done].
  - split; [|split; [done|by intros _; split_and!]]. split; [done|].
    intros [?|[Hmax|[?|?]]]; [done| |done|congruence]. rewrite Hmax in Hi. done.
Qed.

Lemma process_spawn_creates_witness :
  ∃ s' pid, process_spawn_with_role false demo_base 1 None 300 RUNTIME_PROCESS_ROLE_SYSTEM
      (m_scheduler two_spawned) = Some (s', pid) ∧
    (pid ≠ 0 → synced s').
Proof.
  assert (Machine Calls (m_scheduler two_spawned) = two_spawned) as E by by vm_compute.
  destruct (process_spawn_creates false false false demo_base 1 None 300 RUNTIME_PROCESS_ROLE_SYSTEM
    (m_scheduler two_spawned) demo_stacks_fit) as (s' & pid & Es & _ & _ & H).
  { rewrite E. apply demo_run_reachable. }
  exists s', pid. split; [done|]. intros Hp. by destruct (H Hp) as (_ & _ & _ & _ & _ & _ & ?).
Defined.

(** ** Wait channels *)

(** The process table that the kernel objects work on. *)
Definition agrees {H} (s : scheduler) (k : kernel H) : Prop :=
  processes k = g_processes s ∧ current_process_index k = g_current_process_index s.

(** What the wait channels promise, field by field. *)

Definition waits_at (channel : N) (p : process_runtime_state) : Prop :=
  p_state p = PROCESS_STATE_BLOCKED ∧ p_wait_reason p = PROCESS_WAIT_EVENT_CHANNEL ∧ p_wait_channel p = channel.

#[export] Instance waits_at_decision channel p : Decision (waits_at channel p).
Proof. unfold waits_at. apply _. Defined.

(** The process [p] in another state, with these wait fields. *)
Definition with_wait (state : process_state) (wake_tick wait_target_pid : N) (reason : process_wait_reason)
    (channel : N) (p : process_runtime_state) : process_runtime_state :=
  Process (p_pid p) (p_parent_pid p) (p_name p) (p_role p) state (p_exit_code p) (p_switch_count p)
    (p_yield_count p) wake_tick wait_target_pid reason channel.

Definition roused : process_runtime_state → process_runtime_state :=
  with_wait PROCESS_STATE_READY 0 0 PROCESS_WAIT_NONE 0.

Definition put_to_wait (channel : N) : process_runtime_state → process_runtime_state :=
  with_wait PROCESS_STATE_BLOCKED 0 0 PROCESS_WAIT_EVENT_CHANNEL channel.

(** Every waiter of the channel is woken. *)
Definition wakes_all (channel : N) (s s' : scheduler) (woke : N) : Prop :=
  (∀ i p, aget (g_processes s) i = Some p →
     aget (g_processes s') i = Some (if decide (waits_at channel p) then roused p else p)) ∧
  woke = N.of_nat (length (filter (waits_at channel) (g_processes s))).

(** The first waiter behind the current process is woken, or there is none. *)
Definition wakes_first (channel : N) (s s' : scheduler) (woke : N) : Prop :=
  let slot k := aget (g_processes s) ((g_current_process_index s + k) mod 10) in
  (woke = 0 ∧ g_processes s' = g_processes s ∧ ∀ p, p ∈ g_processes s → ¬ waits_at channel p) ∨
  ∃ k p, 1 ≤ k ≤ 10 ∧ woke = 1 ∧ slot k = Some p ∧ waits_at channel p ∧
    (∀ k' p', 1 ≤ k' < k → slot k' = Some p' → ¬ waits_at channel p') ∧
    g_processes s' = <[N.to_nat ((g_current_process_index s + k) mod 10) := roused p]> (g_processes s).

Lemma waits_on_channel_spec channel p : waits_on_channel channel p = bool_decide (waits_at channel p).
Proof.
  unfold waits_on_channel, waits_at, in_state, waits_for. apply eq_bool_prop_intro.
  rewrite bool_decide_spec, !andb_True, !bool_decide_spec, Is_true_true, N.eqb_eq. tauto.
Qed.

Lemma make_ready_roused channel p : waits_at channel p → process_core_make_ready p = roused p.
Proof. intros (Hs & _). unfold process_core_make_ready, in_state. rewrite bool_decide_eq_true_2 by done. by destruct p. Qed.

Lemma count_if_filter {A} (f : A → bool) (P : A → Prop) `{!∀ x, Decision (P x)} l :
  (∀ x, f x = bool_decide (P x)) → count_if f l = N.of_nat (length (filter P l)).
Proof.
  intros Hf. induction l as [|x l IH]; [done|]. cbn [count_if]. rewrite IH, filter_cons, Hf.
  case_bool_decide; [rewrite decide_True by done; cbn [length]; lia|by rewrite decide_False].
Qed.

Lemma aupd_insert {A} (l : list A) i f x : aget l i = Some x → aupd l i f = <[N.to_nat i := f x]> l.
Proof.
  intros Hx. unfold aupd. rewrite aget_lookup in Hx. apply list_eq. intros j.
  destruct (decide (j = N.to_nat i)) as [->|].
  - rewrite list_lookup_alter_eq, Hx, list_lookup_insert_eq; [done|]. by eapply lookup_lt_Some.
  - by rewrite list_lookup_alter_ne, list_lookup_insert_ne.
Qed.

(** A table in which some processes were woken goes into the ready queue. *)
Lemma wakes_agrees {H} s (k : kernel H) l (n : N) :
  machine_inv s → agrees s k → wakes (g_processes s) l →
  ∃ s', (s ← scheduler_sync_ready_queue (set_processes l s); Some (s, n)) = Some (s', n) ∧
    agrees s' (KernelObjects.set_processes l k) ∧ synced s' ∧ g_processes s' = l.
Proof.
  intros Hm [Hp Hc] Hl. destruct (wakes_ok l s Hm Hl) as (s' & -> & _ & Hs & (_ & Hcur & _) & Hp' & _).
  exists s'. split_and!; try done. split; [done|]. cbn. congruence.
Qed.

Lemma wake_channel_all {H} channel s (k : kernel H) :
  machine_inv s → agrees s k →
  ∃ s' woke, process_wake_channel channel s = Some (s', woke) ∧
    KernelObjects.process_wake_channel k channel = (KernelObjects.set_processes (g_processes s') k, woke) ∧
    agrees s' (KernelObjects.set_processes (g_processes s') k) ∧ synced s' ∧ wakes_all channel s s' woke.
Proof.
  intros Hm Hk. unfold KernelObjects.process_wake_channel, process_wake_channel. rewrite (proj1 Hk).
  pose proof (wakes_update_where (waits_on_channel channel) (g_processes s)) as Hw.
  unfold process_core_wake_channel. pose proof (update_where_fst (waits_on_channel channel) process_core_make_ready
    (g_processes s)) as H1.
  pose proof (update_where_snd (waits_on_channel channel) process_core_make_ready (g_processes s)) as H2.
  destruct (update_where _ _ _) as [l n]. cbn in H1, H2, Hw.
  destruct (wakes_agrees s k l n Hm Hk Hw) as (s' & E & Ha & Hs & Hl). exists s', n. rewrite Hl.
  split_and!; [done..|]. split.
  - intros i p Hp. rewrite Hl, H1, aget_lookup, list_lookup_fmap, <-aget_lookup, Hp. simpl. f_equal.
    rewrite waits_on_channel_spec. case_bool_decide as Hd; [|by rewrite decide_False].
    rewrite decide_True by done. by eapply make_ready_roused.
  - rewrite H2. apply count_if_filter. intros p. apply waits_on_channel_spec.
Qed.

Lemma wake_channel_first {H} channel s (k : kernel H) :
  machine_inv s → runs s (g_current_process_index s) → agrees s k →
  ∃ s' woke, process_wake_first_channel channel s = Some (s', woke) ∧
    KernelObjects.process_wake_first_channel k channel = (KernelObjects.set_processes (g_processes s') k, woke) ∧
    agrees s' (KernelObjects.set_processes (g_processes s') k) ∧ synced s' ∧ wakes_first channel s s' woke.
Proof.
  intros Hm (Hlt & _) Hk. pose proof (inv_tables _ (proj1 (proj1 Hm))) as [Hlen _].
  unfold KernelObjects.process_wake_first_channel, process_wake_first_channel.
  rewrite (proj1 Hk), (proj2 Hk).
  pose proof (wakes_first_channel (g_processes s) channel (g_current_process_index s)) as Hw.
  unfold process_core_wake_first_channel in *.
  assert (scan_start (g_current_process_index s) = g_current_process_index s + 1) as Hst.
  { unfold scan_start, UINT32_MAX. destruct (N.eqb_spec (g_current_process_index s) 4294967295); [lia|].
    by apply u32_small; lia. }
  assert ((N.of_nat (length (g_processes s)) =? 0) = false) as Hz by (apply N.eqb_neq; lia).
  rewrite Hst, Hz in *. destruct (circular_scan _ _ _ _ _) as [i|] eqn:Hi; cbn [fst] in Hw.
  - destruct (wakes_agrees s k _ 1 Hm Hk Hw) as (s' & E & Ha & Hs & Hp).
    apply circular_scan_Some in Hi as (d & p & Hd & -> & Hg & Hf & Hb); [|lia]. rewrite Hlen in *.
    change (N.of_nat 10) with 10 in *.
    exists s', 1. rewrite Hp. split_and!; [done..|]. right. exists (d + 1), p.
    rewrite waits_on_channel_spec in Hf. apply bool_decide_eq_true in Hf.
    replace (g_current_process_index s + (d + 1)) with (g_current_process_index s + 1 + d) by lia.
    split_and!; [lia|lia|done|done|done| |].
    + intros k' p' Hk' Hg'. specialize (Hb (k' - 1) p'). rewrite waits_on_channel_spec in Hb.
      replace (g_current_process_index s + 1 + (k' - 1)) with (g_current_process_index s + k') in Hb by lia.
      specialize (Hb ltac:(lia) Hg'). by apply bool_decide_eq_false in Hb.
    + by rewrite Hp, (aupd_insert _ _ _ _ Hg), (make_ready_roused channel).
  - destruct (wakes_agrees s k _ 0 Hm Hk Hw) as (s' & E & Ha & Hs & Hp).
    exists s', 0. rewrite Hp. split_and!; [done..|]. left. split_and!; [done|done|].
    intros p Hin. rewrite circular_scan_None in Hi by lia. specialize (Hi p Hin).
    rewrite waits_on_channel_spec in Hi. by apply bool_decide_eq_false in Hi.
Qed.

Lemma wait_channel_blocks {H} channel s (k : kernel H) p :
  machine_inv s → runs s (g_current_process_index s) → agrees s k →
  aget (g_processes s) (g_current_process_index s) = Some p →
  ∃ s', (∀ PRE cap regs, process_wait_channel PRE cap regs channel s = process_yield PRE cap regs s') ∧
    may_yield s' ∧ agrees s' (KernelObjects.process_wait_channel k channel) ∧
    g_processes s' = <[N.to_nat (g_current_process_index s) := put_to_wait channel p]> (g_processes s).
Proof.
  intros Hm (Hlt & _ & Hr) [Hp Hc] Hpg. pose proof (inv_tables _ (proj1 (proj1 Hm))) as Ht.
  destruct (block_machine_ok s _ PROCESS_WAIT_EVENT_CHANNEL channel 0 0 Hm Hlt) as (s' & E & Hm' & Hs & Hcur & Hb & _);
    [by rewrite Hr|]. exists s'. split.
  { intros PRE cap regs. unfold process_wait_channel. by rewrite lt_10_processes, E by done. }
  split; [split; [done|]; split; [done|]; by rewrite Hcur, Hb|].
  unfold scheduler_block_process in E.
  destruct (upd_process_spec s (g_current_process_index s)
    (process_core_block PROCESS_WAIT_EVENT_CHANNEL channel 0 0) Ht Hlt) as (q & Hq & Eu).
  rewrite Eu in E. cbind_in E. apply sync_loop_rq in E as [rq ->].
  assert (g_processes (set_rq rq (set_processes (aupd (g_processes s) (g_current_process_index s)
    (process_core_block PROCESS_WAIT_EVENT_CHANNEL channel 0 0)) s)) = aupd (g_processes s)
    (g_current_process_index s) (process_core_block PROCESS_WAIT_EVENT_CHANNEL channel 0 0)) as Hg
    by (rewrite set_rq_processes; apply (set_processes_fields _ _)).
  split; [split; [|rewrite Hcur; exact Hc]; rewrite Hg; cbn; by rewrite Hp, Hc|].
  rewrite Hg, (aupd_insert _ _ _ _ Hpg). f_equal. by destruct p.
Qed.

(** C12: the wait channels of the scheduler, on which the kernel objects are
    built, when a process runs and the scheduler's invariant holds.
    [process_wake_channel] makes every process that waits on the
    channel READY, clears its wait fields, changes nothing else in the
    process table and returns the number of the woken;
    [process_wake_first_channel] does so for the first waiter behind the
    current process, in slot order and round the end of the table, and
    returns 1, or 0 when there is none; after either of them the ready queue
    holds exactly the READY processes, in the order of their run times and
    ids.  [process_wait_channel] blocks the current process on the channel,
    takes it out of the ready queue and goes on in [process_yield].  All
    three leave the same process table as the operations on which
    [KernelObjects.v] models the kernel objects, and the current process id
    is the same. *)
Theorem scheduler_implements_wait_channels {H} channel s (k : kernel H) p :
  machine_inv s → runs s (g_current_process_index s) → agrees s k →
  aget (g_processes s) (g_current_process_index s) = Some p →
  (∃ s' woke, process_wake_channel channel s = Some (s', woke) ∧
     KernelObjects.process_wake_channel k channel = (KernelObjects.set_processes (g_processes s') k, woke) ∧
     agrees s' (KernelObjects.set_processes (g_processes s') k) ∧
     (∃ l, rq_is s' l ∧ ready_order s' l) ∧ wakes_all channel s s' woke) ∧
  (∃ s' woke, process_wake_first_channel channel s = Some (s', woke) ∧
     KernelObjects.process_wake_first_channel k channel = (KernelObjects.set_processes (g_processes s') k, woke) ∧
     agrees s' (KernelObjects.set_processes (g_processes s') k) ∧
     (∃ l, rq_is s' l ∧ ready_order s' l) ∧ wakes_first channel s s' woke) ∧
  (∃ s', (∀ PRE cap regs, process_wait_channel PRE cap regs channel s = process_yield PRE cap regs s') ∧
     (∃ l, rq_is s' l ∧ ready_order s' l) ∧ agrees s' (KernelObjects.process_wait_channel k channel) ∧
     g_processes s' = <[N.to_nat (g_current_process_index s) := put_to_wait channel p]> (g_processes s)) ∧
  process_current_pid s = p_pid p ∧ KernelObjects.process_current_pid k = p_pid p.
Proof.
  intros Hm Hrun Hk Hpg. pose proof (inv_tables _ (proj1 (proj1 Hm))) as Ht.
  split; [by apply wake_channel_all|]. split; [by apply wake_channel_first|]. split.
  - destruct (wait_channel_blocks channel s k p Hm Hrun Hk Hpg) as (s' & Hy & (_ & Hs & _) & Ha & Hp).
    exists s'. by split_and!.
  - destruct (current_process_cases s Ht (or_intror Hrun)) as [[H1 _]|[_ (q & Hq & Hcp)]].
    { destruct Hrun as (Hlt & _). rewrite H1 in Hlt. done. }
    rewrite Hpg in Hq. injection Hq as <-. destruct Hk as [Hp Hc].
    unfold process_current_pid, KernelObjects.process_current_pid. by rewrite Hcp, Hp, Hc, Hpg.
Qed.

(** A waits on channel 7, B runs. *)
Definition one_waits : machine := demo_run [spawn_a; spawn_b; ERun quiet; ECall quiet (CWaitChannel 7)].

Lemma scheduler_implements_wait_channels_witness :
  let s := m_scheduler one_waits in
  ∃ s', process_wake_channel 7 s = Some (s', 1) ∧ (∃ l, rq_is s' l ∧ ready_order s' l) ∧ wakes_all 7 s s' 1.
Proof.
  intros s. assert (machine_inv s) as Hm.
  { pose proof (demo_run_ok [spawn_a; spawn_b; ERun quiet; ECall quiet (CWaitChannel 7)]) as Hok.
    assert (m_mode one_waits = Calls) as E by by vm_compute. unfold one_waits in E.
    unfold machine_ok in Hok. rewrite E in Hok. apply Hok. }
  destruct (aget (g_processes s) (g_current_process_index s)) as [p|] eqn:Hp; [|by vm_compute in Hp].
  destruct (scheduler_implements_wait_channels 7 s
    (Kernel tt 1 ∅ ∅ ∅ ∅ ∅ (g_processes s) (g_current_process_index s)) p Hm)
    as ((s' & woke & E & _ & _ & Hq & Hw) & _).
  - split; [|split]; [by vm_compute|reflexivity|by vm_compute].
  - split; reflexivity.
  - exact Hp.
  - assert (woke = 1) as Hwoke.
    { assert (snd <$> process_wake_channel 7 s = Some 1) as Hv by by vm_compute.
      rewrite E in Hv. by injection Hv. }
    exists s'. rewrite <-Hwoke. split; [exact E|]. by split.
Defined.

(** ** Accounting *)

(** A process that gives up the processor by sleeping is not charged for the
    time it ran, however long: it is no longer RUNNING when the switch
    accounts for it. *)
Lemma sleeping_is_not_charged PRE cap regs ticks s c s' to :
  machine_inv s → runs s c → ticks ≠ 0 →
  process_sleep PRE cap regs ticks s = Some (Switches s' c to) → vruntime s' c = vruntime s c.
Proof.
  intros Hm Hrun Ht E. pose proof Hrun as (Hc & Hcur & Hr). subst c.
  pose proof (inv_tables _ (proj1 (proj1 Hm))) as Htab.
  unfold process_sleep in E.
  destruct (current_process_cases s Htab (or_intror Hrun)) as [[H1 _]|[_ (p & Hpg & Hcp)]].
  { rewrite H1 in Hc. done. }
  rewrite Hcp in E. destruct (N.eqb_spec ticks 0) as [|_]; [done|]. cbv zeta in E.
  set (wt := u64 (kernel_ticks_read s + ticks)) in E.
  destruct (write_current_inv s (set_wake_tick wt) (proj1 Hm) Hc)
    as (s1 & E1 & Hi1 & Hf1 & Hc1 & Hq1 & _ & _ & Hw).
  { intros p' _. by destruct p'. } { right; left. by intros []. }
  assert (vruntime s1 (g_current_process_index s) = vruntime s (g_current_process_index s)) as Hv1.
  { destruct (upd_process_spec s (g_current_process_index s) (set_wake_tick wt) Htab Hc) as (q & _ & Eu).
    rewrite Eu in E1. injection E1 as <-. by destruct s. }
  rewrite E1 in E. cbind_in E.
  destruct (block_machine_ok s1 (g_current_process_index s1) PROCESS_WAIT_SLEEP_TICKS ticks wt 0)
    as (s2 & E2 & Hm2 & Hs2 & Hc2 & Hb2 & _).
  { split; [done|]. eapply frame_stacks; [done|apply Hm]. } { by rewrite Hc1. }
  { rewrite Hc1. destruct Hf1 as (_ & _ & Hf1). destruct (Hf1 (g_current_process_index s)) as [_ Hu].
    rewrite Hu, Hr. done. }
  rewrite E2 in E. cbind_in E.
  assert (may_yield s2) as Hy by (split_and!; [done|done|by rewrite Hc2, Hc1|by rewrite Hc2, Hb2]).
  destruct (yield_spec_ok PRE cap regs s2 Hy) as (s3 & o & Ep & (_ & _ & Hst) & Ey & Ho).
  rewrite E in Ey. injection Ey as <-. destruct Ho as (Hfrom & _ & _ & (_ & S2 & _) & _).
  rewrite S2, decide_False.
  - apply poll_ticked in Ep as (Hv3 & _). rewrite <-Hv1. unfold vruntime. rewrite Hv3. f_equal.
    unfold scheduler_block_process in E2.
    destruct (upd_process_spec s1 (g_current_process_index s1)
      (process_core_block PROCESS_WAIT_SLEEP_TICKS ticks wt 0)) as (q & _ & Eu);
      [apply (inv_tables _ (proj1 Hi1))|by rewrite Hc1|].
    rewrite Eu in E2. cbind_in E2. apply sync_loop_rq in E2 as [rq ->]. by destruct s1.
  - intros [_ Hrun3]. apply Hst in Hrun3. rewrite Hc1 in Hb2. congruence.
Qed.

(** * The scheduler at the edges

    What happens when the last runnable process exits, when a process is woken
    before it has given up the processor, and when a tick comes between two
    steps of [process_yield]. *)

(** ** Exit *)

(** A process that waits for the end of the child [pid]. *)
Definition waits_for_child (pid : N) (p : process_runtime_state) : Prop :=
  p_state p = PROCESS_STATE_BLOCKED ∧ p_wait_reason p = PROCESS_WAIT_CHILD ∧
  (p_wait_target_pid p = 0 ∨ p_wait_target_pid p = pid).

Lemma quiet_poll PRE s : runtime_poll_timer_delivery PRE quiet s = Some s.
Proof. unfold runtime_poll_timer_delivery. by case_match. Qed.

Lemma woken_parent l pid i p :
  aget l i = Some p → waits_for_child pid p →
  aget (process_core_wake_waiting_parent l pid).1 i = Some (process_core_make_ready p).
Proof.
  intros Hp (Hs & Hr & Ht). unfold process_core_wake_waiting_parent.
  rewrite update_where_fst, aget_lookup, list_lookup_fmap, <-aget_lookup, Hp. simpl.
  unfold in_state, waits_for. rewrite Hs, Hr, !bool_decide_eq_true_2 by done. simpl.
  assert ((p_wait_target_pid p =? 0) || (p_wait_target_pid p =? pid) = true) as ->; [|done].
  apply orb_true_iff. rewrite !N.eqb_eq. done.
Qed.

Lemma no_sleepers_after f l :
  process_core_count_blocked_sleepers l = 0 →
  process_core_count_blocked_sleepers (update_where f process_core_make_ready l).1 = 0.
Proof.
  unfold process_core_count_blocked_sleepers. rewrite !count_if_zero, update_where_fst. intros H p Hp.
  apply list_elem_of_fmap in Hp as (q & -> & Hq). specialize (H q Hq). destruct (f q); [|done].
  by rewrite make_ready_not_blocked.
Qed.

Lemma no_sleepers_zombie l i c :
  process_core_count_blocked_sleepers l = 0 →
  process_core_count_blocked_sleepers
    (aupd l i (λ p, set_exit_code c (set_state PROCESS_STATE_ZOMBIE p))) = 0.
Proof.
  unfold process_core_count_blocked_sleepers. rewrite !count_if_zero. intros H p Hp.
  apply list_elem_of_lookup_1 in Hp as [j Hj]. unfold aupd in Hj.
  destruct (decide (j = N.to_nat i)) as [->|Hne].
  - rewrite list_lookup_alter_eq in Hj. destruct (l !! N.to_nat i) as [q|]; [|done]. simpl in Hj.
    injection Hj as <-. by destruct q.
  - rewrite list_lookup_alter_ne in Hj by done. apply H. by eapply list_elem_of_lookup_2.
Qed.

(** C16: when the ready queue is up to date, the exiting process is the only
    runnable one, no process sleeps, and no timer interrupt is pending while
    [process_yield] polls ([quiet]), [process_exit] halts the system with "no
    runnable processes", although it has just made every process that waits
    for it READY: the queue is not synchronised before [process_yield] looks
    at it.  (With a pending tick the exit can switch to the parent,
    [exit_with_tick_switches].) *)
Theorem exit_strands_waiting_parent PRE cap exit_code s c p :
  machine_inv s → synced s → runs s c → aget (g_processes s) c = Some p → none_ready s →
  process_core_count_blocked_sleepers (g_processes s) = 0 →
  ∃ s', process_exit PRE cap quiet exit_code s = Some (Halts s' DIAGD_NO_RUNNABLE_TASK) ∧
    ∀ i q, i ≠ c → aget (g_processes s) i = Some q → waits_for_child (p_pid p) q →
      state_of s' i = PROCESS_STATE_READY.
Proof.
  intros Hm Hsy Hrun Hp Hnone Hsl. pose proof Hrun as (Hc & Hcur & Hr). subst c.
  assert (scheduler_pick_next_ready s = UINT32_MAX) as Hpick.
  { destruct (synced_pick s Hsy) as [[? _]|[_ [? _]]]; [done|]. by destruct (Hnone (scheduler_pick_next_ready s)). }
  destruct (exit_marks exit_code s p Hm Hrun Hp) as (E & Hm1 & Hcur1 & Hz).
  unfold process_exit, scheduler_current_process at 1.
  rewrite lt_10_processes, Hp, (in_state_of s _ p _ Hp), Hr, bool_decide_eq_false_2, E by done. cbind.
  rewrite (proj1 (set_processes_fields _ _)), set_processes_twice. fold (exited_table s exit_code p).
  set (s1 := set_processes (exited_table s exit_code p) s) in *.
  destruct (yield_prepared PRE cap quiet s1 Hm1) as (s2 & s3 & E2 & _ & _ & _ & Hm3 & Hv & ->);
    [by rewrite Hcur1|by rewrite Hcur1, Hz|].
  rewrite quiet_poll in E2. injection E2 as <-.
  destruct Hv as (V1 & V2 & _ & _ & V5 & V6).
  assert (g_processes (preempt_disabled s1) = exited_table s exit_code p ∧
    g_ready_queue (preempt_disabled s1) = g_ready_queue s) as (F1 & F2) by (unfold s1; by destruct s).
  assert (scheduler_pick_next_ready s3 = UINT32_MAX) as ->
    by (unfold scheduler_pick_next_ready in *; by rewrite V2, F2).
  assert (∀ i, state_of s3 i = state_of s1 i) as Hst.
  { intros i. destruct (V5 i) as (-> & _). by destruct s1. }
  unfold yield_choose. rewrite N.eqb_refl, V6, F1, Hcur1.
  destruct (aget_is_Some (g_processes s3) (g_current_process_index s)) as [q Hq].
  { destruct (inv_tables _ (proj1 (proj1 Hm3))); lia. }
  rewrite Hq. cbind. rewrite (in_state_of s3 _ q _ Hq), Hst, Hz, bool_decide_eq_false_2 by done.
  unfold exited_table at 1. unfold process_core_wake_waiting_parent.
  rewrite no_sleepers_after by by apply no_sleepers_zombie. cbn. eexists. split; [done|].
  intros i r Hne Hr' Hw. rewrite Hst. unfold state_of, s1. rewrite (proj1 (set_processes_fields _ _)).
  unfold exited_table. rewrite (woken_parent _ _ i r); [|by rewrite aget_aupd_ne|done].
  destruct Hw as (Hb & _). unfold process_core_make_ready, in_state.
  rewrite bool_decide_eq_true_2 by done. by destruct r.
Qed.

(** A has started B and waits for it. *)
Definition before_wait : machine := demo_run [spawn_a; ERun quiet; spawn_b].
Definition parent_waits : scheduler :=
  match perform false false false demo_base 1 quiet (CWaitpid 2) (m_scheduler before_wait) with
  | Some (Switches s _ _) => s
  | _ => initial_scheduler
  end.

Lemma parent_waits_ok : machine_inv parent_waits ∧ synced parent_waits ∧ runs parent_waits 1.
Proof.
  pose proof (demo_run_ok [spawn_a; ERun quiet; spawn_b]) as Hok.
  assert (m_mode before_wait = Calls) as E by by vm_compute. unfold before_wait in E.
  unfold machine_ok in Hok. rewrite E in Hok. destruct Hok as [Hm Hc].
  destruct (perform_ok false false false demo_base 1 quiet (CWaitpid 2) _ demo_stacks_fit Hm Hc) as (o & Ho & Hok).
  assert (match perform false false false demo_base 1 quiet (CWaitpid 2) (m_scheduler before_wait) with
    | Some (Switches _ _ 1) => true | _ => false end = true) as Hsw by by vm_compute.
  unfold parent_waits. unfold before_wait in Hsw |- *. rewrite Ho in Hsw |- *.
  clear E Hm Hc Ho. revert Hok. generalize (g_current_process_index (m_scheduler
    (demo_run [spawn_a; ERun quiet; spawn_b]))). intros c Hok.
  destruct o as [|s f [|[]]| | |]; try discriminate Hsw. by destruct Hok as (? & ? & _ & _ & ?).
Qed.

Lemma exit_strands_waiting_parent_witness :
  ∃ s', process_exit false false quiet 0 parent_waits = Some (Halts s' DIAGD_NO_RUNNABLE_TASK) ∧
    state_of s' 0 = PROCESS_STATE_READY.
Proof.
  destruct parent_waits_ok as (Hm & Hs & Hr).
  destruct (aget (g_processes parent_waits) 1) as [p|] eqn:Hp; [|by vm_compute in Hp].
  destruct (aget (g_processes parent_waits) 0) as [q|] eqn:Hq; [|by vm_compute in Hq].
  destruct (exit_strands_waiting_parent false false 0 parent_waits 1 p Hm Hs Hr Hp) as (s' & E & H).
  - intros j. destruct (decide (j < 10)) as [Hj|Hj].
    + apply process_indices_elem in Hj. revert j Hj. apply Forall_forall.
      apply (bool_decide_unpack _). by vm_compute.
    + unfold state_of. assert (aget (g_processes parent_waits) j = None) as ->; [|done].
      apply aget_None. destruct (inv_tables _ (proj1 (proj1 Hm))) as [-> _]. lia.
  - by vm_compute.
  - exists s'. split; [done|]. apply (H 0 q); [done|done|].
    vm_compute in Hp, Hq. injection Hp as <-. injection Hq as <-. split_and!; [done|done|by right].
Defined.

(** With a tick pending the same exit switches to the parent. *)
Lemma exit_with_tick_switches :
  match process_exit false false ticking 0 parent_waits with
  | Some (Switches _ from to) => from = 1 ∧ to = 0
  | _ => False
  end.
Proof. vm_compute. by split. Qed.

Lemma parent_waits_exit :
  let m := demo_run [spawn_a; ERun quiet; spawn_b; ECall quiet (CWaitpid 2); ECall quiet (CExit 0)] in
  m_mode m = Stopped DIAGD_NO_RUNNABLE_TASK ∧ state_of (m_scheduler m) 0 = PROCESS_STATE_READY.
Proof. by split; vm_compute. Qed.

(** ** A process woken before it has given up the processor

    B goes to sleep last, and the tick that wakes both finds it first: it goes
    on without leaving the queue.  When it exits, [process_yield] picks it
    again, and [process_exit] halts with A READY. *)
Lemma solo_wake_exit :
  let m := demo_run ([spawn_a; spawn_b; ERun quiet; EInterrupt ticking; EInterrupt ticking;
    ECall quiet CYield; ECall quiet CYield; ECall quiet (CSleep 2); ECall quiet (CSleep 2);
    EInterrupt ticking; EInterrupt ticking; EWakeup; ECall quiet (CExit 0)]) in
  m_mode m = Stopped YIELD_RETURNED ∧ state_of (m_scheduler m) 0 = PROCESS_STATE_READY ∧
  state_of (m_scheduler m) 1 = PROCESS_STATE_RUNNING.
Proof. by split_and!; vm_compute. Qed.

(** ** A tick inside [process_yield]

    The only process sleeps for one tick.  The tick comes after
    [process_yield] has found the queue empty: the process is READY, and the
    system halts for lack of a runnable process. *)
Lemma late_tick_halts :
  let s := m_scheduler (demo_run [spawn_a; ERun quiet]) in
  ∃ s1 s2,
    scheduler_block_process 0 PROCESS_WAIT_SLEEP_TICKS 1 1 0 s = Some s1 ∧
    scheduler_pick_next_ready s1 = UINT32_MAX ∧
    systimer_tick_isr false ticking s1 = Some s2 ∧
    yield_choose false false true 0 UINT32_MAX s2 = Some (Halts s2 DIAGD_NO_RUNNABLE_TASK) ∧
    state_of s2 0 = PROCESS_STATE_READY.
Proof.
  intros s.
  destruct (scheduler_block_process 0 PROCESS_WAIT_SLEEP_TICKS 1 1 0 s) as [s1|] eqn:E1; [|by vm_compute in E1].
  destruct (systimer_tick_isr false ticking s1) as [s2|] eqn:E2.
  2:{ vm_compute in E1. injection E1 as <-. by vm_compute in E2. }
  vm_compute in E1. injection E1 as <-. vm_compute in E2. injection E2 as <-.
  eexists _, _. split; [done|]. by split_and!; vm_compute.
Qed.
