(* ===== verification/DisplaySurface.v ===== *)
(** * The display ([kernel/display_surface.c], [kernel/runtime_display.c])

    Pixel buffers live in a memory indexed by pointer; a surface names its
    front and its back buffer, and publishing exchanges them.  [None] is
    undefined behaviour: signed overflow while clipping, or an access outside
    a buffer. *)

From S2P Require Import Prelude.

Local Open Scope N_scope.

Definition INT32_MAX : Z := 2147483647.

(** [int32_t] addition; overflow is undefined. *)
Definition add_i32 (a b : Z) : option Z :=
  if ((-2147483648 <=? a + b) && (a + b <=? INT32_MAX))%Z then Some (a + b)%Z else None.

(** The cast [(uint16_t)z]. *)
Definition u16_of_Z (z : Z) : N := Z.to_N (z mod 65536).

Record display_rect := Rect { r_x : N; r_y : N; r_width : N; r_height : N }.

(** The callbacks act on the world [W]; a NULL callback is [None]. *)
Record display_atomic_ops (W : Type) := AtomicOps { ao_enter : option (W → W); ao_leave : option (W → W) }.
Arguments AtomicOps {W}.
Arguments ao_enter {W}.
Arguments ao_leave {W}.

(** Widths, heights and strides in pixels; buffers are pointers. *)
Record display_surface (W : Type) := Surface {
  ds_width : N;
  ds_height : N;
  ds_stride : N;
  ds_front : option N;
  ds_back : option N;
  ds_dirty_rect : display_rect;
  ds_dirty : N;
  ds_present_count : N;
  ds_atomic_ops : option (display_atomic_ops W)
}.
Arguments Surface {W}.
Arguments ds_width {W}.
Arguments ds_height {W}.
Arguments ds_stride {W}.
Arguments ds_front {W}.
Arguments ds_back {W}.
Arguments ds_dirty_rect {W}.
Arguments ds_dirty {W}.
Arguments ds_present_count {W}.
Arguments ds_atomic_ops {W}.

Definition empty_rect : display_rect := Rect 0 0 0 0.

Abbreviation memory := (gmap N (list N)).

Section surface.
Context {W : Type}.
Implicit Types surface : display_surface W.

Definition display_surface_enter_atomic surface (w : W) : W :=
  match ds_atomic_ops surface with
  | Some ops => match ao_enter ops with Some f => f w | None => w end
  | None => w
  end.

Definition display_surface_leave_atomic surface (w : W) : W :=
  match ds_atomic_ops surface with
  | Some ops => match ao_leave ops with Some f => f w | None => w end
  | None => w
  end.

(** [Some None] is the return value 0. *)
Definition display_surface_clip_rect surface (x y width height : Z)
  : option (option display_rect) :=
  if ((width <=? 0) || (height <=? 0))%Z then Some None
  else
    let '(clipped_x, clipped_w) := if (x <? 0)%Z then (0, width + x)%Z else (x, width) in
    let '(clipped_y, clipped_h) := if (y <? 0)%Z then (0, height + y)%Z else (y, height) in
    if ((Z.of_N (ds_width surface) <=? clipped_x) || (Z.of_N (ds_height surface) <=? clipped_y))%Z
    then Some None
    else
      right ← add_i32 clipped_x clipped_w;
      let clipped_w := if (Z.of_N (ds_width surface) <? right)%Z
                       then (Z.of_N (ds_width surface) - clipped_x)%Z else clipped_w in
      bottom ← add_i32 clipped_y clipped_h;
      let clipped_h := if (Z.of_N (ds_height surface) <? bottom)%Z
                       then (Z.of_N (ds_height surface) - clipped_y)%Z else clipped_h in
      if ((clipped_w <=? 0) || (clipped_h <=? 0))%Z then Some None
      else Some (Some (Rect (u16_of_Z clipped_x) (u16_of_Z clipped_y)
                         (u16_of_Z clipped_w) (u16_of_Z clipped_h))).

Definition display_surface_init (surface : option (display_surface W)) (width height stride : N)
    (front back : option N) (atomic_ops : option (display_atomic_ops W))
  : option (display_surface W) :=
  match surface with
  | None => None
  | Some _ => Some (Surface width height stride front back empty_rect 0 0 atomic_ops)
  end.

Definition set_damage (rect : display_rect) (dirty : N) surface : display_surface W :=
  Surface (ds_width surface) (ds_height surface) (ds_stride surface) (ds_front surface)
    (ds_back surface) rect dirty (ds_present_count surface) (ds_atomic_ops surface).

Definition display_surface_clear_damage surface : display_surface W :=
  set_damage empty_rect 0 surface.

(** The bounding box of two rectangles. *)
Definition merge_rects (a b : display_rect) : display_rect :=
  let x0 := if r_x a <? r_x b then r_x a else r_x b in
  let y0 := if r_y a <? r_y b then r_y a else r_y b in
  let x1 := u16 (if r_x b + r_width b <? r_x a + r_width a
                 then r_x a + r_width a else r_x b + r_width b) in
  let y1 := u16 (if r_y b + r_height b <? r_y a + r_height a
                 then r_y a + r_height a else r_y b + r_height b) in
  Rect x0 y0 (u16_of_Z (Z.of_N x1 - Z.of_N x0)) (u16_of_Z (Z.of_N y1 - Z.of_N y0)).

Definition display_surface_mark_dirty surface (x y width height : Z)
  : option (display_surface W * Z) :=
  clip ← display_surface_clip_rect surface x y width height;
  match clip with
  | None => Some (surface, RUNTIME_SYSCALL_STATUS_EINVAL)
  | Some clipped =>
      if ds_dirty surface =? 0 then Some (set_damage clipped 1 surface, RUNTIME_SYSCALL_STATUS_OK)
      else Some (set_damage (merge_rects (ds_dirty_rect surface) clipped) (ds_dirty surface) surface,
                 RUNTIME_SYSCALL_STATUS_OK)
  end.

(** The inner loop: [n] pixels from column [col] on; [pixel] is the value
    stored in a column. *)
Fixpoint write_row (back : list N) (offset col : N) (n : nat) (pixel : N → option N)
  : option (list N) :=
  match n with
  | O => Some back
  | S n' =>
      p ← pixel col;
      back' ← aset back (u32 (offset + col)) p;
      write_row back' offset (col + 1) n' pixel
  end.

(** The outer loop over the rows of the clipped rectangle. *)
Fixpoint write_rows (back : list N) (stride : N) (clipped : display_rect) (row : N) (n : nat)
    (pixel : N → N → option N) : option (list N) :=
  match n with
  | O => Some back
  | S n' =>
      back' ← write_row back (u32 ((r_y clipped + row) * stride + r_x clipped)) 0
                (N.to_nat (r_width clipped)) (pixel row);
      write_rows back' stride clipped (row + 1) n' pixel
  end.

Definition write_rect (mem : memory) surface (a : N) (clipped : display_rect)
    (pixel : N → N → option N) : option memory :=
  back ← mem !! a;
  back' ← write_rows back (ds_stride surface) clipped 0 (N.to_nat (r_height clipped)) pixel;
  Some (<[a := back']> mem).

Definition mark_clipped surface (clipped : display_rect) : option (display_surface W * Z) :=
  display_surface_mark_dirty surface (Z.of_N (r_x clipped)) (Z.of_N (r_y clipped))
    (Z.of_N (r_width clipped)) (Z.of_N (r_height clipped)).

Definition display_surface_fill_rect (mem : memory) surface (x y width height : Z) (color : N)
  : option (memory * display_surface W * Z) :=
  match ds_back surface with
  | None => Some (mem, surface, RUNTIME_SYSCALL_STATUS_EINVAL)
  | Some a =>
      clip ← display_surface_clip_rect surface x y width height;
      match clip with
      | None => Some (mem, surface, RUNTIME_SYSCALL_STATUS_EINVAL)
      | Some clipped =>
          mem' ← write_rect mem surface a clipped (λ _ _, Some color);
          r ← mark_clipped surface clipped;
          Some (mem', r.1, r.2)
      end
  end.

(** [pixels] is the source image, [None] when the pointer is NULL. *)
Definition display_surface_blit_rgb565 (mem : memory) surface (x y width height : Z)
    (pixels : option (list N)) (source_stride : N) : option (memory * display_surface W * Z) :=
  match ds_back surface, pixels with
  | Some a, Some source =>
      if source_stride =? 0 then Some (mem, surface, RUNTIME_SYSCALL_STATUS_EINVAL)
      else
        clip ← display_surface_clip_rect surface x y width height;
        match clip with
        | None => Some (mem, surface, RUNTIME_SYSCALL_STATUS_EINVAL)
        | Some clipped =>
            let source_x := (Z.of_N (r_x clipped) - x)%Z in
            let source_y := (Z.of_N (r_y clipped) - y)%Z in
            mem' ← write_rect mem surface a clipped (λ row col,
                     aget source
                       (u32 (u32 (u32 (u32_of_Z (source_y + Z.of_N row) * source_stride) +
                                  u32_of_Z source_x) + col)));
            r ← mark_clipped surface clipped;
            Some (mem', r.1, r.2)
        end
  | _, _ => Some (mem, surface, RUNTIME_SYSCALL_STATUS_EINVAL)
  end.

(** The rectangle stored when the pointer is not NULL, and the result. *)
Definition display_surface_has_pending_present surface (rect : bool) : bool * option display_rect :=
  if ds_dirty surface =? 0 then (false, None)
  else (true, if rect then Some (ds_dirty_rect surface) else None).

(** [outputs] tells whether [rect] and [front_pixels] are both not NULL. *)
Definition display_surface_publish (w : W) surface (outputs : bool)
  : display_surface W * W * Z * option (display_rect * N) :=
  match ds_front surface, ds_back surface with
  | Some front, Some back =>
      if negb outputs || (ds_dirty surface =? 0)
      then (surface, w, RUNTIME_SYSCALL_STATUS_ENOENT, None)
      else
        let w1 := display_surface_enter_atomic surface w in
        let surface' := display_surface_clear_damage
          (Surface (ds_width surface) (ds_height surface) (ds_stride surface) (Some back)
             (Some front) (ds_dirty_rect surface) (ds_dirty surface)
             (u32 (ds_present_count surface + 1)) (ds_atomic_ops surface)) in
        (surface', display_surface_leave_atomic surface' w1, RUNTIME_SYSCALL_STATUS_OK,
         Some (ds_dirty_rect surface, back))
  | _, _ => (surface, w, RUNTIME_SYSCALL_STATUS_ENOENT, None)
  end.
End surface.

(** ** The display service *)

Definition RUNTIME_DISPLAY_REQUEST_INFO : N := 1.
Definition RUNTIME_DISPLAY_REQUEST_FLAGS : N := 2.
Definition RUNTIME_DISPLAY_REQUEST_PRESENT_COUNT : N := 3.

Record runtime_display_service := DisplayService {
  dv_width : N;
  dv_height : N;
  dv_flags : N;
  dv_present_count : N
}.

Definition runtime_display_pack_geometry (width height : N) : N :=
  N.lor (u32 (N.shiftl width 16)) height.
Definition runtime_display_unpack_width (packed_geometry : N) : N :=
  u16 (N.shiftr packed_geometry 16).
Definition runtime_display_unpack_height (packed_geometry : N) : N :=
  u16 (N.land packed_geometry 0xFFFF).

Definition runtime_display_service_init (service : option runtime_display_service)
    (width height flags : N) : option runtime_display_service :=
  match service with
  | None => None
  | Some _ => Some (DisplayService width height flags 0)
  end.

Definition runtime_display_service_mark_present (service : option runtime_display_service)
  : option runtime_display_service :=
  match service with
  | None => None
  | Some s =>
      Some (if negb (dv_present_count s =? UINT32_MAX)
            then DisplayService (dv_width s) (dv_height s) (dv_flags s) (u32 (dv_present_count s + 1))
            else s)
  end.

Definition runtime_display_service_request (service : option runtime_display_service) (request : N)
    (response : bool) : Z * option N :=
  match service, response with
  | Some s, true =>
      if request =? RUNTIME_DISPLAY_REQUEST_INFO
      then (RUNTIME_SYSCALL_STATUS_OK, Some (runtime_display_pack_geometry (dv_width s) (dv_height s)))
      else if request =? RUNTIME_DISPLAY_REQUEST_FLAGS
      then (RUNTIME_SYSCALL_STATUS_OK, Some (dv_flags s))
      else if request =? RUNTIME_DISPLAY_REQUEST_PRESENT_COUNT
      then (RUNTIME_SYSCALL_STATUS_OK, Some (dv_present_count s))
      else (RUNTIME_SYSCALL_STATUS_ENOSYS, None)
  | _, _ => (RUNTIME_SYSCALL_STATUS_EINVAL, None)
  end.

(** A client of the service gets back the geometry the kernel packed. *)
Lemma unpack_pack_geometry width height :
  width < 65536 → height < 65536 →
  runtime_display_unpack_width (runtime_display_pack_geometry width height) = width ∧
  runtime_display_unpack_height (runtime_display_pack_geometry width height) = height.
Proof.
  intros Hw Hh. unfold runtime_display_unpack_width, runtime_display_unpack_height,
    runtime_display_pack_geometry. rewrite N.shiftl_mul_pow2. change (2 ^ 16) with 65536.
  rewrite u32_small by nia.
  assert (N.lor (width * 65536) height = width * 65536 + height) as ->.
  { rewrite <-N.lxor_lor, <-N.add_nocarry_lxor; [done|..];
      apply N.bits_inj_0; intros i; rewrite N.land_spec;
      (destruct (N.lt_ge_cases i 16);
        [change 65536 with (2 ^ 16); by rewrite N.mul_pow2_bits_low
        |rewrite (N.bits_above_log2 height); [apply andb_false_r|]];
        destruct (N.eq_0_gt_0_cases height) as [->|]; [change (N.log2 0) with 0; lia|];
        apply N.lt_le_trans with 16; [apply N.log2_lt_pow2; [done|exact Hh]|done]). }
  rewrite N.shiftr_div_pow2. change 0xFFFF with (N.ones 16). rewrite N.land_ones.
  change (2 ^ 16) with 65536. rewrite N.div_add_l, N.div_small, N.add_0_r by lia.
  rewrite (N.add_comm (width * 65536)), N.Div0.mod_add, N.mod_small by lia.
  split; by apply u16_small.
Qed.
