(* ===== verification/DisplaySurfaceProofs.v ===== *)
(** * Drawing on a surface

    Filling and blitting paint exactly the visible part of the rectangle, stay
    inside the back buffer, and record damage that covers what changed. *)

From S2P Require Import Prelude DisplaySurface.

Local Open Scope N_scope.

Definition in_rect (r : display_rect) (px py : N) : Prop :=
  r_x r ≤ px < r_x r + r_width r ∧ r_y r ≤ py < r_y r + r_height r.
#[export] Instance in_rect_dec r px py : Decision (in_rect r px py).
Proof. unfold in_rect. apply _. Defined.

(** The pixel is in the rectangle the caller asked for. *)
Definition covers (x y width height : Z) (px py : N) : Prop :=
  (x ≤ Z.of_N px < x + width ∧ y ≤ Z.of_N py < y + height)%Z.
#[export] Instance covers_dec x y width height px py : Decision (covers x y width height px py).
Proof. unfold covers. apply _. Defined.

(** Coordinates whose sums stay in [int32_t]. *)
Definition coordinates_ok (x y width height : Z) : Prop :=
  (-2147483648 ≤ x ∧ -2147483648 ≤ y ∧ 0 < width ≤ INT32_MAX ∧ 0 < height ≤ INT32_MAX ∧
   x + width ≤ INT32_MAX ∧ y + height ≤ INT32_MAX)%Z.

Section proofs.
Context {W : Type}.
Implicit Types s : display_surface W.

Definition rect_inside s (r : display_rect) : Prop :=
  r_x r + r_width r ≤ ds_width s ∧ r_y r + r_height r ≤ ds_height s.

(** The back buffer holds the surface, and damage lies inside it. *)
Record surface_ok (mem : memory) s (a : N) : Prop := {
  sf_back : ds_back s = Some a;
  sf_pixels : ∃ back, mem !! a = Some back ∧ N.of_nat (length back) = ds_stride s * ds_height s;
  sf_width : ds_width s ≤ ds_stride s;
  sf_stride : ds_stride s < 65536;
  sf_height : ds_height s < 65536;
  sf_damage : ds_dirty s ≠ 0 → rect_inside s (ds_dirty_rect s)
}.

Definition pixel (mem : memory) s (a px py : N) : option N :=
  back ← mem !! a; aget back (py * ds_stride s + px).

Definition damaged s (px py : N) : Prop := ds_dirty s ≠ 0 ∧ in_rect (ds_dirty_rect s) px py.

(** ** Clipping *)

Lemma add_i32_ok a b : (-2147483648 ≤ a + b ≤ INT32_MAX)%Z → add_i32 a b = Some (a + b)%Z.
Proof.
  intros H. unfold add_i32. destruct (Z.leb_spec (-2147483648) (a + b)), (Z.leb_spec (a + b) INT32_MAX);
    simpl; done || lia.
Qed.

Lemma u16_of_Z_small z : (0 ≤ z < 65536)%Z → Z.of_N (u16_of_Z z) = z.
Proof. intros H. unfold u16_of_Z. rewrite Z.mod_small by lia. lia. Qed.

Lemma clip_spec s x y width height :
  ds_width s < 65536 → ds_height s < 65536 → coordinates_ok x y width height →
  ∃ clip, display_surface_clip_rect s x y width height = Some clip ∧
  match clip with
  | Some r => rect_inside s r ∧ r_width r ≠ 0 ∧ r_height r ≠ 0 ∧
      (x ≤ Z.of_N (r_x r))%Z ∧ (y ≤ Z.of_N (r_y r))%Z ∧
      ∀ px py, in_rect r px py ↔
        px < ds_width s ∧ py < ds_height s ∧ covers x y width height px py
  | None => ∀ px py, px < ds_width s → py < ds_height s → ¬ covers x y width height px py
  end.
Proof.
  intros HW HH (Hx & Hy & Hw & Hh & Hxw & Hyh). unfold display_surface_clip_rect, INT32_MAX in *.
  destruct (Z.leb_spec width 0), (Z.leb_spec height 0); try lia. cbn [orb].
  destruct (if (x <? 0)%Z then _ else _) as [cx cw] eqn:Hcx.
  destruct (if (y <? 0)%Z then _ else _) as [cy ch] eqn:Hcy.
  assert (cx = Z.max x 0 ∧ cx + cw = x + width)%Z as [Hcx1 Hcx2]
    by (destruct (Z.ltb_spec x 0); injection Hcx as <- <-; lia).
  assert (cy = Z.max y 0 ∧ cy + ch = y + height)%Z as [Hcy1 Hcy2]
    by (destruct (Z.ltb_spec y 0); injection Hcy as <- <-; lia).
  clear Hcx Hcy.
  destruct (Z.leb_spec (Z.of_N (ds_width s)) cx), (Z.leb_spec (Z.of_N (ds_height s)) cy); cbn [orb];
    try (exists None; split; [done|]; unfold covers; lia).
  rewrite !add_i32_ok by (unfold INT32_MAX; lia). cbind.
  set (cw' := if (Z.of_N (ds_width s) <? cx + cw)%Z then _ else cw).
  set (ch' := if (Z.of_N (ds_height s) <? cy + ch)%Z then _ else ch).
  assert (cx + cw' = Z.min (x + width) (Z.of_N (ds_width s)))%Z as Hcw'
    by (unfold cw'; destruct (Z.ltb_spec (Z.of_N (ds_width s)) (cx + cw)); lia).
  assert (cy + ch' = Z.min (y + height) (Z.of_N (ds_height s)))%Z as Hch'
    by (unfold ch'; destruct (Z.ltb_spec (Z.of_N (ds_height s)) (cy + ch)); lia).
  clearbody cw' ch'. destruct (Z.leb_spec cw' 0), (Z.leb_spec ch' 0); cbn [orb];
    try (exists None; split; [done|]; unfold covers; lia).
  eexists. split; [done|]. unfold rect_inside, in_rect, covers. cbn [r_x r_y r_width r_height].
  pose proof (u16_of_Z_small cx ltac:(lia)). pose proof (u16_of_Z_small cy ltac:(lia)).
  pose proof (u16_of_Z_small cw' ltac:(lia)). pose proof (u16_of_Z_small ch' ltac:(lia)).
  split_and!; lia.
Qed.

(** A rectangle inside the surface is not clipped. *)
Lemma clip_inside s r :
  ds_width s < 65536 → ds_height s < 65536 → rect_inside s r → r_width r ≠ 0 → r_height r ≠ 0 →
  display_surface_clip_rect s (Z.of_N (r_x r)) (Z.of_N (r_y r)) (Z.of_N (r_width r))
    (Z.of_N (r_height r)) = Some (Some r).
Proof.
  intros HW HH [Hx Hy] Hw Hh. unfold display_surface_clip_rect.
  destruct (Z.leb_spec (Z.of_N (r_width r)) 0), (Z.leb_spec (Z.of_N (r_height r)) 0); try lia.
  destruct (Z.ltb_spec (Z.of_N (r_x r)) 0), (Z.ltb_spec (Z.of_N (r_y r)) 0); try lia. cbn [orb].
  destruct (Z.leb_spec (Z.of_N (ds_width s)) (Z.of_N (r_x r))),
    (Z.leb_spec (Z.of_N (ds_height s)) (Z.of_N (r_y r))); try lia. cbn [orb].
  rewrite !add_i32_ok by (unfold INT32_MAX; lia). cbind.
  destruct (Z.ltb_spec (Z.of_N (ds_width s)) (Z.of_N (r_x r) + Z.of_N (r_width r))); [lia|].
  destruct (Z.ltb_spec (Z.of_N (ds_height s)) (Z.of_N (r_y r) + Z.of_N (r_height r))); [lia|].
  destruct (Z.leb_spec (Z.of_N (r_width r)) 0), (Z.leb_spec (Z.of_N (r_height r)) 0); try lia.
  cbn [orb]. unfold u16_of_Z. rewrite !Z.mod_small, !N2Z.id by lia. by destruct r.
Qed.

(** ** Damage *)

Lemma merge_spec s a b :
  ds_width s < 65536 → ds_height s < 65536 → rect_inside s a → rect_inside s b →
  rect_inside s (merge_rects a b) ∧
  ∀ px py, in_rect a px py ∨ in_rect b px py → in_rect (merge_rects a b) px py.
Proof.
  intros HW HH [Hax Hay] [Hbx Hby].
  assert (∃ x0 y0 x1 y1, merge_rects a b = Rect x0 y0 (x1 - x0) (y1 - y0) ∧
    x0 = N.min (r_x a) (r_x b) ∧ y0 = N.min (r_y a) (r_y b) ∧
    x1 = N.max (r_x a + r_width a) (r_x b + r_width b) ∧
    y1 = N.max (r_y a + r_height a) (r_y b + r_height b))
    as (x0 & y0 & x1 & y1 & -> & -> & -> & -> & ->).
  { eexists _, _, _, _. split_and!; try reflexivity. unfold merge_rects.
    rewrite !u16_small by (case_match; lia).
    destruct (N.ltb_spec (r_x a) (r_x b)), (N.ltb_spec (r_y a) (r_y b)),
      (N.ltb_spec (r_x b + r_width b) (r_x a + r_width a)),
      (N.ltb_spec (r_y b + r_height b) (r_y a + r_height a));
      f_equal; try lia; unfold u16_of_Z; rewrite Z.mod_small by lia; lia. }
  unfold rect_inside, in_rect. cbn [r_x r_y r_width r_height]. split; [lia|]. intros px py. lia.
Qed.

Lemma mark_clipped_spec mem s a r :
  surface_ok mem s a → rect_inside s r → r_width r ≠ 0 → r_height r ≠ 0 →
  ∃ rect d, mark_clipped s r = Some (set_damage rect d s, RUNTIME_SYSCALL_STATUS_OK) ∧ d ≠ 0 ∧
    rect_inside s rect ∧ ∀ px py, damaged s px py ∨ in_rect r px py → in_rect rect px py.
Proof.
  intros Hs Hr Hw Hh. pose proof (sf_width _ _ _ Hs). pose proof (sf_stride _ _ _ Hs).
  pose proof (sf_height _ _ _ Hs). unfold mark_clipped, display_surface_mark_dirty.
  rewrite clip_inside by (done || lia). cbind. destruct (N.eqb_spec (ds_dirty s) 0) as [Hd|Hd].
  - exists r, 1. split_and!; [done|done|done|]. intros px py [[? _]|?]; done.
  - destruct (merge_spec s (ds_dirty_rect s) r) as [Hin Hcov]; [lia|lia|by apply Hs|done|].
    exists (merge_rects (ds_dirty_rect s) r), (ds_dirty s). split_and!; [done|done|done|].
    intros px py Hor. apply Hcov. destruct Hor as [[_ ?]|?]; auto.
Qed.
(** ** Painting *)

Lemma aget_aset {A} (l l' : list A) i v :
  aset l i v = Some l' →
  length l' = length l ∧ ∀ j, aget l' j = if decide (j = i) then Some v else aget l j.
Proof.
  unfold aset. destruct (N.ltb_spec i (N.of_nat (length l))); [|done]. intros [= <-].
  split; [apply length_insert|]. intros j. rewrite !aget_lookup. case_decide.
  - subst. apply list_lookup_insert_eq. lia.
  - apply list_lookup_insert_ne. lia.
Qed.

Lemma write_row_spec back offset col n pix :
  N.of_nat (length back) < 4294967296 → offset + col + N.of_nat n ≤ N.of_nat (length back) →
  (∀ c, col ≤ c < col + N.of_nat n → is_Some (pix c)) →
  ∃ back', write_row back offset col n pix = Some back' ∧ length back' = length back ∧
    ∀ i, aget back' i = if decide (offset + col ≤ i < offset + col + N.of_nat n)
                        then pix (i - offset) else aget back i.
Proof.
  revert back col. induction n as [|n IH]; intros back col Hl Hfit Hpix.
  { exists back. split_and!; [done|done|]. intros i. by rewrite decide_False by lia. }
  cbn [write_row]. destruct (Hpix col ltac:(lia)) as [v Hv]. rewrite Hv. cbind.
  rewrite u32_small, aset_Some by lia. cbind.
  destruct (aget_aset back (<[N.to_nat (offset + col):=v]> back) (offset + col) v) as [Hlen Hget];
    [by rewrite aset_Some by lia|].
  destruct (IH (<[N.to_nat (offset + col):=v]> back) (col + 1)) as (back' & Hw & Hlen' & Hget').
  { by rewrite Hlen. }
  { rewrite Hlen. lia. }
  { intros c Hc. apply Hpix. lia. }
  exists back'. split_and!; [done|congruence|]. intros i. rewrite Hget', Hget.
  destruct (decide (i = offset + col)) as [->|Hi].
  - rewrite decide_False, decide_True by lia. by replace (offset + col - offset) with col by lia.
  - destruct (decide (offset + (col + 1) ≤ i < _)).
    + by rewrite decide_True by lia.
    + by rewrite decide_False by lia.
Qed.

(** Row and column of a pixel index. *)
Lemma index_row stride y1 x1 y2 x2 n :
  x2 < stride → x1 + n ≤ stride →
  (y1 * stride + x1 ≤ y2 * stride + x2 < y1 * stride + x1 + n ↔ y2 = y1 ∧ x1 ≤ x2 < x1 + n).
Proof.
  intros Hx Hn. split; [|by intros [-> ?]; lia]. intros H.
  assert (y2 = y1) as ->; [|lia]. destruct (N.lt_trichotomy y1 y2) as [Hlt|[?|Hlt]]; [exfalso|done|exfalso].
  - pose proof (N.mul_le_mono_r (y1 + 1) y2 stride ltac:(lia)). lia.
  - pose proof (N.mul_le_mono_r (y2 + 1) y1 stride ltac:(lia)). lia.
Qed.

Lemma write_rows_spec back stride height r row n pix :
  N.of_nat (length back) = stride * height → stride < 65536 → height < 65536 →
  r_x r + r_width r ≤ stride → r_y r + row + N.of_nat n ≤ height →
  (∀ y c, row ≤ y < row + N.of_nat n → c < r_width r → is_Some (pix y c)) →
  ∃ back', write_rows back stride r row n pix = Some back' ∧ length back' = length back ∧
    ∀ px py, px < stride → aget back' (py * stride + px) =
      if decide (r_x r ≤ px < r_x r + r_width r ∧ r_y r + row ≤ py < r_y r + row + N.of_nat n)
      then pix (py - r_y r) (px - r_x r) else aget back (py * stride + px).
Proof.
  intros Hl Hst Hh Hx. revert back row Hl. induction n as [|n IH]; intros back row Hl Hy Hpix.
  { exists back. split_and!; [done|done|]. intros px py Hpx. by rewrite decide_False by lia. }
  cbn [write_rows].
  pose proof (N.mul_le_mono_r (r_y r + row + 1) height stride ltac:(lia)) as Hrow.
  assert (stride * height < 4294967296) as Hsmall by nia.
  rewrite u32_small by lia. set (o := (r_y r + row) * stride + r_x r) in *.
  destruct (write_row_spec back o 0 (N.to_nat (r_width r)) (pix row)) as (b1 & -> & Hl1 & Hg1);
    [lia|unfold o; lia|intros c Hc; apply Hpix; lia|]. cbind.
  destruct (IH b1 (row + 1)) as (b2 & Hw & Hl2 & Hg2); [congruence|lia|intros y c Hyc; apply Hpix; lia|].
  exists b2. split_and!; [done|congruence|]. intros px py Hpx. rewrite Hg2, Hg1 by done.
  pose proof (index_row stride (r_y r + row) (r_x r) py px (r_width r) Hpx ltac:(lia)) as Hidx.
  unfold o. rewrite N.add_0_r, N2Nat.id.
  destruct (decide (r_x r ≤ px < r_x r + r_width r ∧ r_y r + (row + 1) ≤ py < _)).
  { by rewrite decide_True by lia. }
  destruct (decide (_ ≤ py * stride + px < _)) as [Hin|Hin].
  - apply Hidx in Hin as [-> Hin]. rewrite decide_True by lia. f_equal; lia.
  - rewrite decide_False; [done|]. intros ?. apply Hin, Hidx. lia.
Qed.

Lemma write_rect_spec mem s a r pix :
  surface_ok mem s a → rect_inside s r →
  (∀ y c, y < r_height r → c < r_width r → is_Some (pix y c)) →
  ∃ mem', write_rect mem s a r pix = Some mem' ∧ surface_ok mem' s a ∧
    ∀ px py, px < ds_width s → pixel mem' s a px py =
      if decide (in_rect r px py) then pix (py - r_y r) (px - r_x r) else pixel mem s a px py.
Proof.
  intros Hs [Hx Hy] Hpix. destruct (sf_pixels _ _ _ Hs) as (back & Hb & Hl).
  pose proof (sf_width _ _ _ Hs). unfold write_rect. rewrite Hb. cbind.
  destruct (write_rows_spec back (ds_stride s) (ds_height s) r 0 (N.to_nat (r_height r)) pix)
    as (back' & -> & Hl' & Hg); [done|apply Hs|apply Hs|lia|lia|intros y c Hyc; apply Hpix; lia|].
  cbind. eexists. split; [done|]. split.
  - split; try apply Hs. exists back'. rewrite lookup_insert_eq. split; [done|congruence].
  - intros px py Hpx. unfold pixel. rewrite lookup_insert_eq, Hb. cbind. rewrite Hg by lia.
    rewrite N.add_0_r, N2Nat.id. unfold in_rect. by repeat case_decide; try lia.
Qed.

(** What painting does: the visible pixels of the rectangle take the values
    [value], all others keep theirs, damage covers both the old damage and
    the visible pixels; EINVAL means that nothing was visible and nothing
    changed. *)
Definition painted (mem : memory) s (mem' : memory) s' (a : N) (x y width height : Z) (status : Z)
    (value : N → N → option N) : Prop :=
  surface_ok mem' s' a ∧
  (∀ px py, px < ds_width s → py < ds_height s → pixel mem' s' a px py =
     if decide (covers x y width height px py) then value px py else pixel mem s a px py) ∧
  (∀ px py, px < ds_width s → py < ds_height s →
     damaged s px py ∨ covers x y width height px py → damaged s' px py) ∧
  (status = RUNTIME_SYSCALL_STATUS_OK ∨
   status = RUNTIME_SYSCALL_STATUS_EINVAL ∧ mem' = mem ∧ s' = s ∧
     ∀ px py, px < ds_width s → py < ds_height s → ¬ covers x y width height px py).

Lemma painted_nothing mem s a x y width height value :
  surface_ok mem s a →
  (∀ px py, px < ds_width s → py < ds_height s → ¬ covers x y width height px py) →
  painted mem s mem s a x y width height RUNTIME_SYSCALL_STATUS_EINVAL value.
Proof.
  intros Hs Hno. split_and!; [done| | |by right].
  - intros px py Hpx Hpy. by rewrite decide_False by (by apply Hno).
  - intros px py Hpx Hpy [?|Hc]; [done|]. by apply Hno in Hc.
Qed.

Lemma paint_spec mem s a x y width height r pix value :
  surface_ok mem s a → rect_inside s r → r_width r ≠ 0 → r_height r ≠ 0 →
  (∀ px py, in_rect r px py ↔
     px < ds_width s ∧ py < ds_height s ∧ covers x y width height px py) →
  (∀ px py, in_rect r px py → is_Some (value px py) ∧ pix (py - r_y r) (px - r_x r) = value px py) →
  ∃ mem' s', write_rect mem s a r pix = Some mem' ∧
    mark_clipped s r = Some (s', RUNTIME_SYSCALL_STATUS_OK) ∧
    painted mem s mem' s' a x y width height RUNTIME_SYSCALL_STATUS_OK value.
Proof.
  intros Hs Hr Hw Hh Hin Hpix.
  destruct (write_rect_spec mem s a r pix Hs Hr) as (mem' & Hwr & Hs' & Hp).
  { intros yy c Hyy Hc. destruct (Hpix (c + r_x r) (yy + r_y r)) as [[v Hv] Heq];
      [unfold in_rect; lia|]. rewrite Hv in Heq. exists v. rewrite <-Heq. f_equal; lia. }
  destruct (mark_clipped_spec mem s a r Hs Hr Hw Hh) as (rect & d & Hm & Hd & Hri & Hcov).
  exists mem', (set_damage rect d s). split_and!; [done|done|]. split_and!; [| | |by left].
  - destruct Hs'. by split.
  - intros px py Hpx Hpy. change (pixel mem' (set_damage rect d s) a px py) with (pixel mem' s a px py).
    rewrite Hp by done. destruct (decide (covers x y width height px py)) as [Hc|Hc].
    + assert (in_rect r px py) as Hi by (by apply Hin). rewrite decide_True by done.
      by apply Hpix.
    + rewrite decide_False; [done|]. by intros (_ & _ & ?)%Hin.
  - intros px py Hpx Hpy Hor. split; [done|]. apply Hcov. destruct Hor as [?|Hc]; [by left|right].
    by apply Hin.
Qed.
End proofs.

(** The source pixel for a pixel of the surface. *)
Definition blit_value (source : list N) (stride : N) (x y : Z) (px py : N) : option N :=
  source !! Z.to_nat ((Z.of_N py - y) * Z.of_N stride + (Z.of_N px - x)).

Lemma blit_source source stride x y width height rx ry px py :
  stride ≠ 0 → covers x y width height px py → N.of_nat (length source) < 4294967296 →
  ((height - 1) * Z.of_N stride + width ≤ Z.of_nat (length source))%Z →
  (x ≤ Z.of_N rx)%Z → (y ≤ Z.of_N ry)%Z → rx ≤ px → ry ≤ py →
  is_Some (blit_value source stride x y px py) ∧
  aget source (u32 (u32 (u32 (u32_of_Z (Z.of_N ry - y + Z.of_N (py - ry)) * stride) +
                         u32_of_Z (Z.of_N rx - x)) + (px - rx))) = blit_value source stride x y px py.
Proof.
  intros Hst [Hcx Hcy] Hlen Hfit Hx Hy Hpx Hpy. unfold blit_value.
  assert (0 ≤ (Z.of_N py - y) * Z.of_N stride ≤ (height - 1) * Z.of_N stride)%Z as Hrow by nia.
  split; [apply lookup_lt_is_Some; lia|].
  assert (Z.of_N py - y < 4294967296)%Z by nia.
  unfold u32_of_Z. rewrite !Z.mod_small by lia.
  replace (Z.of_N ry - y + Z.of_N (py - ry))%Z with (Z.of_N py - y)%Z by lia.
  assert (Z.of_N (Z.to_N (Z.of_N py - y) * stride) = (Z.of_N py - y) * Z.of_N stride)%Z
    by (rewrite N2Z.inj_mul, Z2N.id by lia; done).
  set (i := Z.to_N (Z.of_N py - y) * stride) in *. clearbody i.
  rewrite (u32_small i) by lia. rewrite (u32_small (i + _)) by lia. rewrite u32_small by lia.
  rewrite aget_lookup. f_equal. lia.
Qed.

(** Filling paints its rectangle. *)
Lemma fill_rect_paints {W} mem (s : display_surface W) a x y width height color :
  surface_ok mem s a → coordinates_ok x y width height →
  ∃ mem' s' status,
    display_surface_fill_rect mem s x y width height color = Some (mem', s', status) ∧
    painted mem s mem' s' a x y width height status (λ _ _, Some color).
Proof.
  intros Hs Hc. pose proof (sf_width _ _ _ Hs). pose proof (sf_stride _ _ _ Hs).
  pose proof (sf_height _ _ _ Hs).
  destruct (clip_spec s x y width height) as (clip & Hclip & Hspec); [lia|lia|done|].
  unfold display_surface_fill_rect. rewrite (sf_back _ _ _ Hs), Hclip. cbind.
  destruct clip as [r|].
  - destruct Hspec as (Hr & Hw & Hh & _ & _ & Hin).
    destruct (paint_spec mem s a x y width height r (λ _ _, Some color) (λ _ _, Some color))
      as (mem' & s' & -> & -> & Hp); [done..|by split|]. cbind. by eexists _, _, _.
  - eexists _, _, _. split; [done|]. by apply painted_nothing.
Qed.

(** Blitting paints the source. *)
Lemma blit_paints {W} mem (s : display_surface W) a x y width height source stride :
  surface_ok mem s a → coordinates_ok x y width height →
  stride ≠ 0 → N.of_nat (length source) < 4294967296 →
  ((height - 1) * Z.of_N stride + width ≤ Z.of_nat (length source))%Z →
  ∃ mem' s' status,
    display_surface_blit_rgb565 mem s x y width height (Some source) stride = Some (mem', s', status) ∧
    painted mem s mem' s' a x y width height status (λ px py, blit_value source stride x y px py).
Proof.
  intros Hs Hc Hst Hlen Hfit. pose proof (sf_width _ _ _ Hs). pose proof (sf_stride _ _ _ Hs).
  pose proof (sf_height _ _ _ Hs).
  destruct (clip_spec s x y width height) as (clip & Hclip & Hspec); [lia|lia|done|].
  unfold display_surface_blit_rgb565.
  rewrite (sf_back _ _ _ Hs). destruct (N.eqb_spec stride 0); [done|]. rewrite Hclip. cbind.
  destruct clip as [r|].
  - destruct Hspec as (Hr & Hw & Hh & Hrx & Hry & Hin).
    edestruct (paint_spec mem s a x y width height r) with (value := blit_value source stride x y)
      as (mem' & s' & Hwr & Hm & Hp); [done..| |].
    2:{ rewrite Hwr. cbind. rewrite Hm. cbind. by eexists _, _, _. }
    intros px py Hpx. pose proof Hpx as (_ & _ & Hcov)%Hin. unfold in_rect in Hpx.
    apply (blit_source _ _ x y width height); [done..| | |lia|lia]; done.
  - eexists _, _, _. split; [done|]. by apply painted_nothing.
Qed.

(** C40: drawing is clipped, stays inside the back buffer and records its
    damage.  On a surface of at most 65535 lines whose back buffer holds its
    stride times its height pixels, whose width does not exceed the stride,
    a 16-bit number, and whose damage lies inside it, for a rectangle at any position,
    on or off the surface, whose width and height are positive and whose
    right and lower edges x + width and y + height do not exceed INT32_MAX:
    filling it paints exactly its visible pixels with the color; blitting
    into it, with a stride that is not zero and a source of fewer than 2^32
    pixels that holds (height - 1) * stride + width of them, copies the source pixel at the same
    offset from the rectangle's origin; every other pixel keeps its value;
    the damage afterwards covers the earlier damage and all that was painted;
    and under these conditions EINVAL is returned only when nothing is
    visible, with nothing changed. *)
Theorem display_drawing_correct {W} mem (s : display_surface W) a x y width height :
  surface_ok mem s a → coordinates_ok x y width height →
  (∀ color, ∃ mem' s' status,
     display_surface_fill_rect mem s x y width height color = Some (mem', s', status) ∧
     painted mem s mem' s' a x y width height status (λ _ _, Some color)) ∧
  (∀ source stride, stride ≠ 0 → N.of_nat (length source) < 4294967296 →
     ((height - 1) * Z.of_N stride + width ≤ Z.of_nat (length source))%Z →
     ∃ mem' s' status,
       display_surface_blit_rgb565 mem s x y width height (Some source) stride =
         Some (mem', s', status) ∧
       painted mem s mem' s' a x y width height status
         (λ px py, blit_value source stride x y px py)).
Proof.
  intros Hs Hc. split; [intros color; by apply fill_rect_paints|intros source stride ???; by apply blit_paints].
Qed.

(** ** At a concrete surface, and where clipping overflows *)

(** Four by two pixels in the buffer at 5. *)
Definition demo_surface : display_surface unit :=
  Surface 4 2 4 (Some 6) (Some 5) empty_rect 0 0 None.
Definition demo_memory : memory := <[5 := replicate 8 0]> (<[6 := replicate 8 1]> ∅).

Lemma demo_surface_ok : surface_ok demo_memory demo_surface 5.
Proof.
  split; try done; try (vm_compute; congruence).
  exists (replicate 8 0). split; vm_compute; reflexivity.
Qed.

Lemma display_drawing_correct_witness :
  ∃ mem' s' status,
    display_surface_fill_rect demo_memory demo_surface (-1) 0 3 1 7 = Some (mem', s', status) ∧
    pixel mem' s' 5 1 0 = Some 7 ∧ pixel mem' s' 5 2 0 = Some 0 ∧
    damaged s' 0 0.
Proof.
  destruct (display_drawing_correct demo_memory demo_surface 5 (-1) 0 3 1 demo_surface_ok)
    as [Hfill _]; [unfold coordinates_ok, INT32_MAX; lia|].
  destruct (Hfill 7) as (mem' & s' & status & Hf & _ & Hp & Hd & _).
  exists mem', s', status. split; [exact Hf|]. split; [|split].
  - rewrite Hp by (cbn; lia). reflexivity.
  - rewrite Hp by (cbn; lia). reflexivity.
  - apply Hd; [cbn; lia|cbn; lia|]. right. unfold covers. lia.
Defined.

(** With its left edge on the surface, a rectangle as wide as [INT32_MAX]
    overflows the sum of the clipping test. *)
Example fill_rect_overflows :
  display_surface_fill_rect demo_memory demo_surface 1 0 INT32_MAX 1 7 = None.
Proof. reflexivity. Qed.

(** Publishing exchanges the buffers between the two atomic hooks, hands over
    the damage and clears it. *)
Lemma publish_swaps {W} (w : W) (s : display_surface W) front back :
  ds_front s = Some front → ds_back s = Some back → ds_dirty s ≠ 0 →
  ∃ s', display_surface_publish w s true =
      (s', display_surface_leave_atomic s (display_surface_enter_atomic s w),
       RUNTIME_SYSCALL_STATUS_OK, Some (ds_dirty_rect s, back)) ∧
    ds_front s' = Some back ∧ ds_back s' = Some front ∧ ds_dirty s' = 0 ∧
    ds_present_count s' = u32 (ds_present_count s + 1).
Proof.
  intros Hf Hb Hd. unfold display_surface_publish. rewrite Hf, Hb.
  destruct (N.eqb_spec (ds_dirty s) 0); [done|]. by eexists.
Qed.

(** Publishing does not copy the picture: a pixel that was drawn and
    published is missing from the buffer drawn on next, and comes back with
    its old colour when a damaged rectangle covers it. *)
Definition second_frame_pixel : option N :=
  first ← display_surface_fill_rect demo_memory demo_surface 0 0 1 1 7;
  let '(surface, _, _, _) := display_surface_publish tt first.1.2 true in
  right ← display_surface_fill_rect first.1.1 surface 1 0 1 1 8;
  below ← display_surface_fill_rect right.1.1 right.1.2 0 1 1 1 9;
  let '(_, _, _, published) := display_surface_publish tt below.1.2 true in
  frame ← published;
  front ← below.1.1 !! frame.2;
  if decide (in_rect frame.1 0 0) then aget front 0 else None.

Lemma publish_shows_stale_pixels : second_frame_pixel = Some 1.
Proof. by vm_compute. Qed.
