(* ===== verification/Freestanding.v ===== *)
(** * Memory primitives ([kernel/freestanding.c])

    A memory is a list of bytes; the pointers are offsets into it, so that the
    two regions may overlap.  [None] is an access outside the memory. *)

From S2P Require Import Prelude.

Local Open Scope N_scope.

(** [for (index = 0; index < count; ++index) dst[index] = source[index];],
    [n] iterations from [index] on. *)
Fixpoint copy_up (mem : list N) (dst source index : N) (n : nat) : option (list N) :=
  match n with
  | O => Some mem
  | S n' =>
      b ← aget mem (source + index);
      mem' ← aset mem (dst + index) b;
      copy_up mem' dst source (index + 1) n'
  end.

(** [for (index = count; index > 0; --index) dst[index - 1] = source[index - 1];] *)
Fixpoint copy_down (mem : list N) (dst source : N) (index : nat) : option (list N) :=
  match index with
  | O => Some mem
  | S i =>
      b ← aget mem (source + N.of_nat i);
      mem' ← aset mem (dst + N.of_nat i) b;
      copy_down mem' dst source i
  end.

Fixpoint fill_up (mem : list N) (dst index : N) (value : N) (n : nat) : option (list N) :=
  match n with
  | O => Some mem
  | S n' => mem' ← aset mem (dst + index) value; fill_up mem' dst (index + 1) value n'
  end.

Definition memcpy (mem : list N) (dest src count : N) : option (list N) :=
  copy_up mem dest src 0 (N.to_nat count).

(** [value] is an [int], stored as an [unsigned char]. *)
Definition memset (mem : list N) (dest : N) (value : Z) (count : N) : option (list N) :=
  fill_up mem dest 0 (u8 (u32_of_Z value)) (N.to_nat count).

Definition memmove (mem : list N) (dest src count : N) : option (list N) :=
  if (dest =? src) || (count =? 0) then Some mem
  else if dest <? src then copy_up mem dest src 0 (N.to_nat count)
  else copy_down mem dest src (N.to_nat count).

(** ** Correctness *)

Lemma aset_spec {A} (l : list A) i v :
  i < N.of_nat (length l) →
  ∃ l', aset l i v = Some l' ∧ length l' = length l ∧
    ∀ j, aget l' j = if decide (j = i) then Some v else aget l j.
Proof.
  intros Hi. exists (<[N.to_nat i:=v]> l). rewrite aset_Some by done.
  split_and!; [done|apply length_insert|]. intros j. rewrite !aget_lookup. case_decide.
  - subst. apply list_lookup_insert_eq. lia.
  - apply list_lookup_insert_ne. lia.
Qed.

(** Copying upwards reads every byte before it is overwritten when the
    destination is below the source. *)
Lemma copy_up_spec mem dst source index n :
  dst ≤ source ∨ source + index + N.of_nat n ≤ dst →
  dst + index + N.of_nat n ≤ N.of_nat (length mem) →
  source + index + N.of_nat n ≤ N.of_nat (length mem) →
  ∃ mem', copy_up mem dst source index n = Some mem' ∧ length mem' = length mem ∧
    ∀ i, aget mem' i = if decide (dst + index ≤ i < dst + index + N.of_nat n)
                       then aget mem (source + (i - dst)) else aget mem i.
Proof.
  revert mem index. induction n as [|n IH]; intros mem index Hdir Hd Hs.
  { exists mem. split_and!; [done|done|]. intros i. by rewrite decide_False by lia. }
  cbn [copy_up]. destruct (aget_is_Some mem (source + index) ltac:(lia)) as [b Hb]. rewrite Hb. cbind.
  destruct (aset_spec mem (dst + index) b ltac:(lia)) as (m1 & -> & Hl1 & Hg1). cbind.
  destruct (IH m1 (index + 1)) as (m2 & Hm2 & Hl2 & Hg2); [lia|lia|lia|].
  exists m2. split_and!; [done|congruence|]. intros i. rewrite Hg2, !Hg1.
  destruct (decide (i = dst + index)) as [->|Hi].
  - rewrite decide_False, decide_True by lia. rewrite <-Hb. f_equal. lia.
  - destruct (decide (dst + (index + 1) ≤ i < _)).
    + rewrite decide_False, decide_True by lia. done.
    + by rewrite decide_False by lia.
Qed.

Lemma copy_down_spec mem dst source n :
  source ≤ dst → dst + N.of_nat n ≤ N.of_nat (length mem) →
  ∃ mem', copy_down mem dst source n = Some mem' ∧ length mem' = length mem ∧
    ∀ i, aget mem' i = if decide (dst ≤ i < dst + N.of_nat n)
                       then aget mem (source + (i - dst)) else aget mem i.
Proof.
  revert mem. induction n as [|n IH]; intros mem Hdir Hd.
  { exists mem. split_and!; [done|done|]. intros i. by rewrite decide_False by lia. }
  cbn [copy_down].
  destruct (aget_is_Some mem (source + N.of_nat n) ltac:(lia)) as [b Hb]. rewrite Hb. cbind.
  destruct (aset_spec mem (dst + N.of_nat n) b ltac:(lia)) as (m1 & -> & Hl1 & Hg1). cbind.
  destruct (IH m1) as (m2 & Hm2 & Hl2 & Hg2); [done|lia|].
  exists m2. split_and!; [done|congruence|]. intros i. rewrite Hg2, !Hg1.
  destruct (decide (i = dst + N.of_nat n)) as [->|Hi].
  - rewrite decide_False, decide_True by lia. rewrite <-Hb. f_equal. lia.
  - destruct (decide (dst ≤ i < dst + N.of_nat n)).
    + rewrite decide_False, decide_True by lia. done.
    + by rewrite decide_False by lia.
Qed.

Lemma fill_up_spec mem dst index value n :
  dst + index + N.of_nat n ≤ N.of_nat (length mem) →
  ∃ mem', fill_up mem dst index value n = Some mem' ∧ length mem' = length mem ∧
    ∀ i, aget mem' i = if decide (dst + index ≤ i < dst + index + N.of_nat n)
                       then Some value else aget mem i.
Proof.
  revert mem index. induction n as [|n IH]; intros mem index Hd.
  { exists mem. split_and!; [done|done|]. intros i. by rewrite decide_False by lia. }
  cbn [fill_up]. destruct (aset_spec mem (dst + index) value ltac:(lia)) as (m1 & -> & Hl1 & Hg1). cbind.
  destruct (IH m1 (index + 1)) as (m2 & Hm2 & Hl2 & Hg2); [lia|].
  exists m2. split_and!; [done|congruence|]. intros i. rewrite Hg2, Hg1.
  destruct (decide (dst + (index + 1) ≤ i < _)); [by rewrite decide_True by lia|].
  destruct (decide (i = dst + index)); [by rewrite decide_True by lia|by rewrite decide_False by lia].
Qed.

(** [memmove] moves the bytes of the source region as they were before
    the call, for overlapping regions in either direction, changes nothing
    else and stays inside the two regions; [memcpy] does the same when the
    regions do not overlap, and [memset] fills its region with the low byte
    of the value. *)
Theorem memory_primitives_correct mem dest src count :
  dest + count ≤ N.of_nat (length mem) → src + count ≤ N.of_nat (length mem) →
  let moved mem' := length mem' = length mem ∧
    ∀ i, aget mem' i = if decide (dest ≤ i < dest + count)
                       then aget mem (src + (i - dest)) else aget mem i in
  (∃ mem', memmove mem dest src count = Some mem' ∧ moved mem') ∧
  (dest + count ≤ src ∨ src + count ≤ dest →
     ∃ mem', memcpy mem dest src count = Some mem' ∧ moved mem') ∧
  (∀ value, ∃ mem', memset mem dest value count = Some mem' ∧ length mem' = length mem ∧
     ∀ i, aget mem' i = if decide (dest ≤ i < dest + count)
                        then Some (u8 (u32_of_Z value)) else aget mem i).
Proof.
  intros Hd Hs moved. split_and!.
  - unfold memmove. destruct (N.eqb_spec dest src) as [->|Hne]; cbn [orb].
    { exists mem. split; [done|]. split; [done|]. intros i. case_decide; [|done]. f_equal. lia. }
    destruct (N.eqb_spec count 0) as [->|Hc].
    { exists mem. split; [done|]. split; [done|]. intros i. by rewrite decide_False by lia. }
    destruct (N.ltb_spec dest src).
    + destruct (copy_up_spec mem dest src 0 (N.to_nat count)) as (m & -> & Hl & Hg); [lia..|].
      exists m. split; [done|]. split; [done|]. intros i. rewrite Hg. by rewrite N.add_0_r, N2Nat.id.
    + destruct (copy_down_spec mem dest src (N.to_nat count)) as (m & -> & Hl & Hg); [lia..|].
      exists m. split; [done|]. split; [done|]. intros i. rewrite Hg. by rewrite N2Nat.id.
  - intros Hdis. unfold memcpy.
    destruct (copy_up_spec mem dest src 0 (N.to_nat count)) as (m & -> & Hl & Hg); [lia..|].
    exists m. split; [done|]. split; [done|]. intros i. rewrite Hg. by rewrite N.add_0_r, N2Nat.id.
  - intros value. unfold memset.
    destruct (fill_up_spec mem dest 0 (u8 (u32_of_Z value)) (N.to_nat count)) as (m & -> & Hl & Hg);
      [lia|]. exists m. split; [done|]. split; [done|]. intros i. rewrite Hg.
    by rewrite N.add_0_r, N2Nat.id.
Qed.

Lemma memory_primitives_correct_witness :
  memmove [1; 2; 3; 4; 5] 1 0 4 = Some [1; 1; 2; 3; 4] ∧
  ∃ mem', memmove [1; 2; 3; 4; 5] 1 0 4 = Some mem' ∧ aget mem' 3 = Some 3.
Proof.
  split; [reflexivity|].
  destruct (memory_primitives_correct [1; 2; 3; 4; 5] 1 0 4) as [(mem' & Hm & _ & Hg) _];
    [cbn; lia|cbn; lia|].
  exists mem'. split; [exact Hm|]. exact (Hg 3).
Defined.
