(* ===== verification/KernelSyscalls.v ===== *)
(** * The system calls of the kernel ([kernel/kernel.c], the syscall callbacks)

    The callbacks of [g_runtime_fs_stress_ops]: the file system, the process
    table, the service sessions and the catalogues behind the dispatcher of
    [RuntimeSyscall.v].  The memory of the callers holds one typed object per
    address; a computation is [None] when a pointer does not name an object of
    its type or the code behind has no defined result. *)

From S2P Require Import Prelude ProcessCore RuntimePolicy Kmem RuntimeFs RuntimeSyscall RuntimeService RuntimeLoader ReadyQueue Scheduler RuntimeManage.

Local Open Scope N_scope.

(** ** Memory *)

Record runtime_process_spawnable_info := ProcessSpawnableInfo {
  rs_task_key : option cstr; rs_process_name : option cstr; rs_default_role : N }.
Record runtime_service_info := ServiceInfo {
  ri_service_key : option cstr; ri_service_name : option cstr; ri_flags : N }.
Record runtime_app_info := AppInfo {
  ra_app_key : option cstr; ra_display_name : option cstr; ra_task_key : option cstr;
  ra_default_role : N }.

(** A string, an array of bytes, a word, or a structure. *)
Inductive memory_object :=
  | MemString (s : cstr)
  | MemBytes (bytes : list N)
  | MemWord (w : N)
  | MemStat (stat : runtime_file_stat)
  | MemEntry (entry : runtime_dir_entry)
  | MemProcess (info : process_info)
  | MemSpawnable (info : runtime_process_spawnable_info)
  | MemService (info : runtime_service_info)
  | MemApp (info : runtime_app_info).

Inductive memory_kind :=
  | KString | KBytes | KWord | KStat | KEntry | KProcess | KSpawnable | KService | KApp.
#[export] Instance memory_kind_eq_dec : EqDecision memory_kind.
Proof. solve_decision. Defined.

Definition kind_of (object : memory_object) : memory_kind :=
  match object with
  | MemString _ => KString
  | MemBytes _ => KBytes
  | MemWord _ => KWord
  | MemStat _ => KStat
  | MemEntry _ => KEntry
  | MemProcess _ => KProcess
  | MemSpawnable _ => KSpawnable
  | MemService _ => KService
  | MemApp _ => KApp
  end.

Abbreviation memory := (gmap N memory_object).

(** The string at an address; a null pointer is [None]. *)
Definition load_string (address : N) (m : memory) : option (option cstr) :=
  if address =? 0 then Some None
  else match m !! address with Some (MemString s) => Some (Some s) | _ => None end.

(** The readable bytes at an address; a null pointer is [None]. *)
Definition load_buffer (address : N) (m : memory) : option (list N) :=
  if address =? 0 then None
  else match m !! address with Some (MemBytes bytes) => Some bytes | _ => Some [] end.

Definition store_object (address : N) (object : memory_object) (m : memory) : option memory :=
  old ← m !! address;
  if bool_decide (kind_of old = kind_of object) then Some (<[address := object]> m) else None.

Definition store_prefix (address : N) (bytes : list N) (m : memory) : option memory :=
  match bytes with
  | [] => Some m
  | _ =>
      match m !! address with
      | Some (MemBytes old) =>
          if (length old <? length bytes)%nat then None
          else Some (<[address := MemBytes (bytes ++ drop (length bytes) old)]> m)
      | _ => None
      end
  end.

(** ** The state behind the calls *)

Inductive console_line := ConsoleLog (tag message : cstr) | ConsoleLogU32 (tag label : cstr) (value : N).

Record kernel_world := World {
  w_scheduler : scheduler;
  w_fs : runtime_fs;
  g_runtime_service_sessions : list runtime_service_session_entry;
  g_service_pid : N;
  w_memory : memory;
  w_console : list console_line
}.

Definition set_scheduler (v : scheduler) (w : kernel_world) : kernel_world :=
  World v (w_fs w) (g_runtime_service_sessions w) (g_service_pid w) (w_memory w) (w_console w).
Definition set_fs (v : runtime_fs) (w : kernel_world) : kernel_world :=
  World (w_scheduler w) v (g_runtime_service_sessions w) (g_service_pid w) (w_memory w) (w_console w).
Definition set_sessions (v : list runtime_service_session_entry) (w : kernel_world) : kernel_world :=
  World (w_scheduler w) (w_fs w) v (g_service_pid w) (w_memory w) (w_console w).
Definition set_memory (v : memory) (w : kernel_world) : kernel_world :=
  World (w_scheduler w) (w_fs w) (g_runtime_service_sessions w) (g_service_pid w) v (w_console w).
Definition set_console (v : list console_line) (w : kernel_world) : kernel_world :=
  World (w_scheduler w) (w_fs w) (g_runtime_service_sessions w) (g_service_pid w) (w_memory w) v.

Abbreviation kcall := (manage kernel_world).

Definition gets {A} (f : kernel_world → A) : kcall A := λ w, Some (f w, w).
Definition modify (f : kernel_world → kernel_world) : kcall unit := λ w, Some ((), f w).
Definition try_memory (f : memory → option memory) : kcall unit := λ w,
  m ← f (w_memory w); Some ((), set_memory m w).

Definition console_log (tag message : cstr) : kcall unit :=
  modify (λ w, set_console (w_console w ++ [ConsoleLog tag message]) w).
Definition console_log_u32 (tag label : cstr) (value : N) : kcall unit :=
  modify (λ w, set_console (w_console w ++ [ConsoleLogU32 tag label value]) w).

Definition current_pid : kcall N := gets (λ w, process_current_pid (w_scheduler w)).
Definition load_path (address : N) : kcall (option cstr) :=
  λ w, path ← load_string address (w_memory w); Some (path, w).

(** ** The file system *)

Definition runtime_fs_stress_mkdir (path mode : N) : kcall Z :=
  pid ← current_pid;
  path ← load_path path;
  fs ← gets w_fs;
  '(fs, _, status) ← lift (runtime_fs_mkdir fs pid path mode);
  _ ← modify (set_fs fs);
  mret status.

Definition runtime_fs_stress_open (path flags : N) : kcall (N * Z) :=
  pid ← current_pid;
  path ← load_path path;
  fs ← gets w_fs;
  '(fs, file_object, status) ← lift (runtime_fs_open fs pid path flags true);
  _ ← modify (set_fs fs);
  mret (default 0 file_object, status).

Definition runtime_fs_stress_read (file_object buffer size : N) : kcall Z :=
  fs ← gets w_fs;
  '(fs, bytes, status) ← lift (runtime_fs_read fs file_object (nz buffer) size);
  _ ← modify (set_fs fs);
  _ ← try_memory (store_prefix buffer bytes);
  mret status.

Definition runtime_fs_stress_write (file_object buffer size : N) : kcall Z :=
  bytes ← gets (λ w, load_buffer buffer (w_memory w));
  fs ← gets w_fs;
  '(fs, status) ← lift (runtime_fs_write fs file_object bytes size);
  _ ← modify (set_fs fs);
  mret status.

Definition runtime_fs_stress_close (file_object : N) : kcall Z :=
  fs ← gets w_fs;
  let '(fs, status) := runtime_fs_close fs file_object in
  _ ← modify (set_fs fs);
  mret status.

(** What a call stores through its out pointer, when it stores anything. *)
Definition store_result {A} (address : N) (f : A → memory_object) (result : option A) : kcall unit :=
  match result with
  | Some x => try_memory (store_object address (f x))
  | None => mret ()
  end.

Definition runtime_fs_stress_stat (file_object stat : N) : kcall Z :=
  fs ← gets w_fs;
  '(result, status) ← lift (runtime_fs_stat fs file_object (nz stat));
  _ ← store_result stat MemStat result;
  mret status.

Definition runtime_fs_stress_readdir (file_object entry : N) : kcall Z :=
  fs ← gets w_fs;
  '(fs, result, status) ← lift (runtime_fs_readdir fs file_object (nz entry));
  _ ← modify (set_fs fs);
  _ ← store_result entry MemEntry result;
  mret status.

Definition runtime_fs_stress_seek (file_object : N) (offset : Z) (whence : N) : kcall Z :=
  fs ← gets w_fs;
  '(fs, status) ← lift (runtime_fs_seek fs file_object offset whence);
  _ ← modify (set_fs fs);
  mret status.

Definition runtime_fs_stress_remove (path : N) : kcall Z :=
  pid ← current_pid;
  path ← load_path path;
  fs ← gets w_fs;
  '(fs, status) ← lift (runtime_fs_remove fs pid path);
  _ ← modify (set_fs fs);
  mret status.

Definition runtime_fs_stress_rename (old_path new_path : N) : kcall Z :=
  pid ← current_pid;
  old_path ← load_path old_path;
  new_path ← load_path new_path;
  fs ← gets w_fs;
  '(fs, status) ← lift (runtime_fs_rename fs pid old_path new_path);
  _ ← modify (set_fs fs);
  mret status.

(** ** Processes and catalogues *)

Definition RUNTIME_SERVICE_FLAG_REQUEST_REPLY : N := 1.

Definition runtime_service_string_equals (lhs rhs : option cstr) : bool :=
  match lhs, rhs with
  | Some l, Some r => cstr_equals l r
  | _, _ => false
  end.

(** The first [count] entries of the array from [index] on. *)
Fixpoint snapshot_find_loop (count : nat) (snapshot : list process_info) (index pid : N)
  : option (option process_info) :=
  match count with
  | O => Some None
  | S count' =>
      entry ← aget snapshot index;
      if negb (pi_pid entry =? pid) then snapshot_find_loop count' snapshot (index + 1) pid
      else Some (Some entry)
  end.

(** The entry stored through [info], or [None] for the result 0. *)
Definition runtime_process_snapshot_find (pid : N) : kcall (option process_info) :=
  if pid =? 0 then mret None
  else
    '(snapshot, count) ← gets (λ w, process_snapshot true 16 (w_scheduler w));
    lift (snapshot_find_loop (N.to_nat count) snapshot 0 pid).

Definition runtime_syscall_process_info (pid info : N) : kcall Z :=
  if (pid =? 0) || (info =? 0) then mret RUNTIME_SYSCALL_STATUS_ENOENT
  else
    snapshot ← runtime_process_snapshot_find pid;
    match snapshot with
    | None => mret RUNTIME_SYSCALL_STATUS_ENOENT
    | Some snapshot =>
        _ ← try_memory (store_object info (MemProcess snapshot));
        mret RUNTIME_SYSCALL_STATUS_OK
    end.

Definition runtime_service_provider_pid : kcall N :=
  pid ← gets g_service_pid;
  if pid =? 0 then mret 0
  else
    info ← runtime_process_snapshot_find pid;
    match info with
    | None => mret 0
    | Some info =>
        mret (if bool_decide (pi_state info = PROCESS_STATE_ZOMBIE) ||
                 bool_decide (pi_state info = PROCESS_STATE_UNUSED) then 0 else pid)
    end.

(** The calls that describe entry [index] of a catalogue of [count] entries. *)
Definition describe_entry (count index info : N) (entry : option memory_object) : kcall Z :=
  if info =? 0 then mret RUNTIME_SYSCALL_STATUS_EINVAL
  else if count <=? index then mret RUNTIME_SYSCALL_STATUS_ENOENT
  else
    entry ← lift entry;
    _ ← try_memory (store_object info entry);
    mret RUNTIME_SYSCALL_STATUS_OK.

Definition g_runtime_service_catalog : list runtime_service_info :=
  [ServiceInfo (Some (cs "accum")) (Some (cs "SVCSERVER")) RUNTIME_SERVICE_FLAG_REQUEST_REPLY].

Definition g_runtime_loader_catalog : list runtime_loader_record :=
  let record app_key display_name task_key role :=
    LoaderRecord (Some (cs app_key)) (Some (cs display_name)) (Some (cs "0.1.0")) (Some (cs task_key)) role in
  [record "demo.calc" "Demo Calculator" "a" RUNTIME_PROCESS_ROLE_FOREGROUND_APP;
   record "demo.inbox" "Demo Inbox" "mb" RUNTIME_PROCESS_ROLE_BACKGROUND_APP;
   record "demo.live" "Demo Live Activity" "ev" RUNTIME_PROCESS_ROLE_LIVE_ACTIVITY]%string.

Definition runtime_syscall_service_count : kcall N := mret (N.of_nat (length g_runtime_service_catalog)).

Definition runtime_syscall_service_info (index info : N) : kcall Z :=
  describe_entry (N.of_nat (length g_runtime_service_catalog)) index info
    (MemService <$> aget g_runtime_service_catalog index).

Definition runtime_syscall_app_count : kcall N := mret (N.of_nat (length g_runtime_loader_catalog)).

Definition runtime_syscall_app_info (index info : N) : kcall Z :=
  let '(snapshot, count) := runtime_loader_snapshot (Some g_runtime_loader_catalog) true 3 in
  describe_entry count index info
    ((λ e, MemApp (AppInfo (ls_app_key e) (ls_display_name e) (ls_task_key e) (ls_default_role e)))
       <$> aget snapshot index).

(** ** Services *)

Definition runtime_syscall_service_open (service_key : N) : kcall (N * Z) :=
  if service_key =? 0 then mret (0, RUNTIME_SYSCALL_STATUS_EINVAL)
  else
    key ← load_path service_key;
    if negb (runtime_service_string_equals key (Some (cs "accum"))) then
      mret (0, RUNTIME_SYSCALL_STATUS_ENOENT)
    else
      provider_pid ← runtime_service_provider_pid;
      if provider_pid =? 0 then mret (0, RUNTIME_SYSCALL_STATUS_ESRCH)
      else
        pid ← current_pid;
        sessions ← gets g_runtime_service_sessions;
        let '(sessions, status, object) :=
          runtime_service_session_open (Some sessions) pid provider_pid 0 true in
        _ ← modify (set_sessions (default [] sessions));
        mret (default 0 object, status).

Definition runtime_syscall_service_close (service_object : N) : kcall Z :=
  sessions ← gets g_runtime_service_sessions;
  let '(sessions, status) := runtime_service_session_close (Some sessions) service_object in
  _ ← modify (set_sessions (default [] sessions));
  mret status.

(** [runtime_syscall_service_request] up to the exchange: its result when
    there is none, or the provider. *)
Definition service_request_provider (service_object response : N) : kcall (Z + N) :=
  if response =? 0 then mret (inl RUNTIME_SYSCALL_STATUS_EINVAL)
  else
    sessions ← gets g_runtime_service_sessions;
    match runtime_service_session_info_of (Some sessions) service_object true with
    | (0%Z, Some session) =>
        provider_pid ← runtime_service_provider_pid;
        if (provider_pid =? 0) || negb (provider_pid =? si_provider_pid session) then
          let '(sessions, _) :=
            runtime_service_session_invalidate_provider (Some sessions) (si_provider_pid session) in
          _ ← modify (set_sessions (default [] sessions));
          mret (inl RUNTIME_SYSCALL_STATUS_ESRCH)
        else mret (inr provider_pid)
    | _ => mret (inl RUNTIME_SYSCALL_STATUS_EBADF)
    end.

(** ** The table of callbacks *)

(** A callback of the dispatcher; [None] is a state without a defined result. *)
Definition kernel_callback {R} (default : R) (m : kcall R) : callback (option kernel_world) R := λ s,
  match sys_context s with
  | Some w =>
      match m w with
      | Some (r, w') => (System (sys_table s) (Some w'), r)
      | None => (System (sys_table s) None, default)
      end
  | None => (s, default)
  end.

Definition runtime_fs_stress_current_pid (s : system (option kernel_world)) : N :=
  match sys_context s with Some w => process_current_pid (w_scheduler w) | None => 0 end.

Section configuration.
(** Build-time configuration, and the addresses the linker gives to the
    stacks, the assembly entry and the functions of the tasks. *)
Context (CONFIG_RUNTIME_SINGLE_FOREGROUND : bool) (stacks_base task_bootstrap_first_entry_asm : N)
        (function_address : string → N).
(** [runtime_service_request_sync] with a provider and a request: it waits
    for the server's process, so other processes run before it returns; the
    exchange itself is the subject of [KernelService.v]. *)
Context (runtime_service_request_sync : N → N → callback (option kernel_world) (option N)).

Definition g_runtime_process_catalog : list runtime_process_manifest :=
  let manifest task_key process_name role entry :=
    Manifest (Some (cs task_key)) (Some (cs process_name)) role (function_address entry) in
  [manifest "a" "TASKA" RUNTIME_PROCESS_ROLE_FOREGROUND_APP "task_a";
   manifest "b" "TASKB" RUNTIME_PROCESS_ROLE_FOREGROUND_APP "task_b";
   manifest "c" "TASKC" RUNTIME_PROCESS_ROLE_FOREGROUND_APP "task_c";
   manifest "d" "TASKD" RUNTIME_PROCESS_ROLE_BACKGROUND_APP "task_d";
   manifest "e" "TASKE" RUNTIME_PROCESS_ROLE_FOREGROUND_APP "task_e";
   manifest "on" "ONESHOT" RUNTIME_PROCESS_ROLE_SYSTEM "process_oneshot";
   manifest "ev" "EVENTWAITER" RUNTIME_PROCESS_ROLE_LIVE_ACTIVITY "process_event_waiter";
   manifest "mb" "MAILBOXRX" RUNTIME_PROCESS_ROLE_BACKGROUND_APP "process_mailbox_receiver";
   manifest "sv" "SVCSERVER" RUNTIME_PROCESS_ROLE_SYSTEM "process_service_server";
   manifest "su" "SUPERVISOR" RUNTIME_PROCESS_ROLE_SYSTEM "process_supervisor"]%string.

Definition runtime_management_spawn_process (entry : N) (name : option cstr) (role : N) : kcall N :=
  scheduler ← gets w_scheduler;
  '(scheduler, pid) ← lift (process_spawn_with_role CONFIG_RUNTIME_SINGLE_FOREGROUND stacks_base
                              task_bootstrap_first_entry_asm name entry role scheduler);
  _ ← modify (set_scheduler scheduler);
  _ ← console_log_u32 (cs "MGMT") (cs "spawn_pid=") pid;
  mret pid.

Definition runtime_spawn_process_from_task_key (task_key : option cstr) (role : N) : kcall N :=
  match task_key with
  | None => mret 0
  | Some _ =>
      match runtime_catalog_find (Some g_runtime_process_catalog) task_key with
      | None => mret 0
      | Some index =>
          manifest ← lift (aget g_runtime_process_catalog index);
          runtime_management_spawn_process (mf_entry manifest) (mf_process_name manifest) role
      end
  end.

Definition runtime_syscall_spawnable_count : kcall N := mret (N.of_nat (length g_runtime_process_catalog)).

Definition runtime_syscall_spawnable_info (index info : N) : kcall Z :=
  describe_entry (N.of_nat (length g_runtime_process_catalog)) index info
    ((λ m, MemSpawnable (ProcessSpawnableInfo (mf_task_key m) (mf_process_name m) (mf_default_role m)))
       <$> aget g_runtime_process_catalog index).

Definition runtime_syscall_app_launch (app_key : N) : kcall N :=
  if app_key =? 0 then mret 0
  else
    key ← load_path app_key;
    match runtime_loader_find (Some g_runtime_loader_catalog) key with
    | None => mret 0
    | Some index =>
        record ← lift (aget g_runtime_loader_catalog index);
        runtime_spawn_process_from_task_key (lr_task_key record) (lr_default_role record)
    end.

Definition runtime_syscall_service_request (service_object request response : N)
  : callback (option kernel_world) Z := λ s,
  let '(s, provider) := kernel_callback (inl 0%Z) (service_request_provider service_object response) s in
  match provider with
  | inl status => (s, status)
  | inr provider_pid =>
      let '(s, answer) := runtime_service_request_sync provider_pid request s in
      match answer with
      | None => (s, RUNTIME_SYSCALL_STATUS_EBUSY)
      | Some value =>
          let '(s, _) := kernel_callback () (try_memory (store_object response (MemWord value))) s in
          (s, RUNTIME_SYSCALL_STATUS_OK)
      end
  end.

Definition g_runtime_fs_stress_file_ops : runtime_syscall_file_ops (option kernel_world) := {|
  fop_open := Some (λ path flags, kernel_callback (0, 0%Z) (runtime_fs_stress_open path flags));
  fop_read := Some (λ object buffer size, kernel_callback 0%Z (runtime_fs_stress_read object buffer size));
  fop_write := Some (λ object buffer size, kernel_callback 0%Z (runtime_fs_stress_write object buffer size));
  fop_close := Some (λ object, kernel_callback 0%Z (runtime_fs_stress_close object));
  fop_stat := Some (λ object stat, kernel_callback 0%Z (runtime_fs_stress_stat object stat));
  fop_readdir := Some (λ object entry, kernel_callback 0%Z (runtime_fs_stress_readdir object entry));
  fop_seek := Some (λ object offset whence, kernel_callback 0%Z (runtime_fs_stress_seek object offset whence));
  fop_remove := Some (λ path, kernel_callback 0%Z (runtime_fs_stress_remove path));
  fop_rename := Some (λ old_path new_path, kernel_callback 0%Z (runtime_fs_stress_rename old_path new_path))
|}.

Definition g_runtime_fs_stress_ops : runtime_syscall_ops (option kernel_world) := {|
  op_process_current_pid := Some runtime_fs_stress_current_pid;
  op_process_sleep := None;
  op_process_kill := None;
  op_process_info := Some (λ pid info, kernel_callback 0%Z (runtime_syscall_process_info pid info));
  op_process_spawn_named := None;
  op_process_spawnable_count := Some (kernel_callback 0 runtime_syscall_spawnable_count);
  op_process_spawnable_info := Some (λ index info, kernel_callback 0%Z (runtime_syscall_spawnable_info index info));
  op_service_count := Some (kernel_callback 0 runtime_syscall_service_count);
  op_service_info := Some (λ index info, kernel_callback 0%Z (runtime_syscall_service_info index info));
  op_service_open := Some (λ key, kernel_callback (0, 0%Z) (runtime_syscall_service_open key));
  op_service_close := Some (λ object, kernel_callback 0%Z (runtime_syscall_service_close object));
  op_service_request := Some runtime_syscall_service_request;
  op_app_count := Some (kernel_callback 0 runtime_syscall_app_count);
  op_app_info := Some (λ index info, kernel_callback 0%Z (runtime_syscall_app_info index info));
  op_app_launch := Some (λ key, kernel_callback 0 (runtime_syscall_app_launch key));
  op_event_create := None;
  op_event_destroy := None;
  op_event_signal := None;
  op_mailbox_create := None;
  op_mailbox_destroy := None;
  op_mailbox_send := None;
  op_mailbox_receive := None;
  op_fs_mkdir := Some (λ path mode, kernel_callback 0%Z (runtime_fs_stress_mkdir path mode));
  op_file_ops := Some g_runtime_fs_stress_file_ops
|}.

(** [runtime_fs_stress_dispatch]; the fourth argument is 0. *)
Definition runtime_fs_stress_dispatch (syscall_number arg0 arg1 arg2 : N) (s : system (option kernel_world))
  : system (option kernel_world) * option runtime_handle_info * Z :=
  runtime_syscall_dispatch syscall_number (Some (Args arg0 arg1 arg2 0)) (Some g_runtime_fs_stress_ops) s.

End configuration.
