(* ===== verification/KernelSyscallsFiles.v ===== *)
(** * Open files behind the system calls

    What the callbacks of [KernelSyscalls.v] do to the slots of the open-file
    table: [open] takes a free slot for the current process, [close] gives one
    back, every other call leaves all of them alone.  Under [world_ok] a call
    with usable pointers is defined. *)

From S2P Require Import Prelude ProcessCore RuntimePolicy Kmem RuntimeFs RuntimeFsInv RuntimeFsSteps RuntimeFsSafety RuntimeSyscall RuntimeService RuntimeLoader ReadyQueue Scheduler SchedulerProofs SchedulerOps SchedulerCalls RuntimeManage KernelSyscalls.

Local Open Scope N_scope.

(** ** Slots *)

(** The use flag and the owner of every open file. *)
Definition slot_of (o : runtime_fs_open_file) : N * N := (of_used o, of_owner_pid o).
Definition slots (fs : runtime_fs) : list (N * N) := slot_of <$> open_files fs.

Lemma slots_upd_node i f fs : slots (upd_node i f fs) = slots fs.
Proof. done. Qed.

Lemma slots_upd_file i f fs :
  (∀ o, slot_of (f o) = slot_of o) → slots (upd_file i f fs) = slots fs.
Proof.
  intros Hf. unfold slots, upd_file, set_open_files, aupd. cbn [open_files].
  apply list_eq. intros j. rewrite !list_lookup_fmap. destruct (decide (j = N.to_nat i)) as [->|].
  - rewrite list_lookup_alter_eq. destruct (open_files fs !! N.to_nat i); [|done]. simpl. by rewrite Hf.
  - by rewrite list_lookup_alter_ne.
Qed.

Lemma slots_alter_file i f o fs :
  aget (open_files fs) i = Some o → slots (upd_file i f fs) = <[N.to_nat i := slot_of (f o)]> (slots fs).
Proof.
  intros Ho. unfold slots, upd_file, set_open_files, aupd. cbn [open_files]. lookups.
  apply list_eq. intros j. rewrite list_lookup_fmap. destruct (decide (j = N.to_nat i)) as [->|].
  - rewrite list_lookup_alter_eq, list_lookup_insert_eq, Ho; [done|].
    rewrite length_fmap. by eapply lookup_lt_Some.
  - by rewrite list_lookup_alter_ne, list_lookup_insert_ne, list_lookup_fmap.
Qed.

Lemma aget_slots fs i : aget (slots fs) i = slot_of <$> aget (open_files fs) i.
Proof. lookups. apply list_lookup_fmap. Qed.

Lemma alloc_node_slots fs i fs' : fs_alloc_node fs = Some (i, fs') → slots fs' = slots fs.
Proof. unfold fs_alloc_node. intros H. fs_cases H. by simplify_eq. Qed.

Lemma mkdir_slots fs pid path mode fs' code z :
  runtime_fs_mkdir fs pid path mode = Some (fs', code, z) → slots fs' = slots fs.
Proof.
  unfold runtime_fs_mkdir. intros H. fs_cases H; simplify_eq; try done.
  rewrite slots_upd_node. by eapply alloc_node_slots.
Qed.

Lemma read_slots fs obj b size fs' bytes z :
  runtime_fs_read fs obj b size = Some (fs', bytes, z) → slots fs' = slots fs.
Proof. unfold runtime_fs_read. intros H. fs_cases H; simplify_eq; try done; by apply slots_upd_file; intros []. Qed.

Lemma write_slots fs obj b size fs' z :
  runtime_fs_write fs obj b size = Some (fs', z) → slots fs' = slots fs.
Proof.
  unfold runtime_fs_write. intros H. fs_cases H; simplify_eq; try done;
    rewrite slots_upd_node; by apply slots_upd_file; intros [].
Qed.

Lemma readdir_slots fs obj b fs' e z :
  runtime_fs_readdir fs obj b = Some (fs', e, z) → slots fs' = slots fs.
Proof. unfold runtime_fs_readdir. intros H. fs_cases H; simplify_eq; try done; by apply slots_upd_file; intros []. Qed.

Lemma seek_slots fs obj offset whence fs' z :
  runtime_fs_seek fs obj offset whence = Some (fs', z) → slots fs' = slots fs.
Proof. unfold runtime_fs_seek. intros H. fs_cases H; simplify_eq; try done; by apply slots_upd_file; intros []. Qed.

Lemma remove_slots fs pid path fs' z :
  runtime_fs_remove fs pid path = Some (fs', z) → slots fs' = slots fs.
Proof. unfold runtime_fs_remove. intros H. by fs_cases H; simplify_eq. Qed.

Lemma rename_slots fs pid old new fs' z :
  runtime_fs_rename fs pid old new = Some (fs', z) → slots fs' = slots fs.
Proof. unfold runtime_fs_rename, rename_node. intros H. by fs_cases H; simplify_eq. Qed.

Lemma open_target_slots fs pid path flags fs' r :
  open_target fs pid path flags = Some (fs', r) → slots fs' = slots fs.
Proof.
  unfold open_target. intros H. fs_cases H; simplify_eq; try done.
  rewrite slots_upd_node. by eapply alloc_node_slots.
Qed.

(** The slot that a successful [open] takes. *)
Definition opened (fs fs' : runtime_fs) (pid object : N) : Prop :=
  ∃ i owner, i < RUNTIME_FS_MAX_OPEN_FILES ∧ object = i + 1 ∧ aget (slots fs) i = Some (0, owner) ∧
    slots fs' = <[N.to_nat i := (1, pid)]> (slots fs).

Lemma open_node_slots fs pid i flags fs' obj z :
  length (open_files fs) = N.to_nat RUNTIME_FS_MAX_OPEN_FILES →
  open_node fs pid i flags = Some (fs', obj, z) →
  if (z <? 0)%Z then slots fs' = slots fs else opened fs fs' pid (default 0 obj).
Proof.
  intros Hlen H. unfold open_node in H. destruct (aget (nodes fs) i) as [node|]; cbind_in H; [|done].
  destruct (bool_decide (open_mode_status node flags = RUNTIME_SYSCALL_STATUS_OK)) eqn:Hst; cbn [negb] in H.
  2:{ simplify_eq. unfold open_mode_status in *. by repeat case_if. }
  set (fs1 := if has_flag flags RUNTIME_FILE_OPEN_TRUNCATE && is_type RUNTIME_FILE_TYPE_REGULAR node
              then upd_node i truncate_node fs else fs) in H.
  assert (open_files fs1 = open_files fs) as Hf1 by (unfold fs1; by case_if).
  assert (slots fs1 = slots fs) as Hs1 by (unfold slots; by rewrite Hf1).
  clearbody fs1.
  destruct (has_flag flags RUNTIME_FILE_OPEN_WRITE && fs_node_has_open_writer fs1 i); [by simplify_eq|].
  destruct (has_flag flags (N.lor RUNTIME_FILE_OPEN_WRITE RUNTIME_FILE_OPEN_TRUNCATE) &&
            negb (fs_node_owner_allows node pid)); [by simplify_eq|].
  unfold fs_open_slot_alloc in H. destruct (find_idx _ (open_files fs1)) as [k|] eqn:Hk.
  2:{ cbv zeta in H. change (i32 (u32_of_Z RUNTIME_SYSCALL_STATUS_ENOSPC)) with (-28)%Z in H. cbn [Z.ltb Z.compare] in H. by injection H as <- <- <-. }
  cbv zeta in H.
  apply find_idx_Some in Hk as (o & Ho & Hu%N.eqb_eq & _).
  assert (k < 8) as Hk by (apply aget_Some_lt in Ho; rewrite Hf1, Hlen in Ho; exact Ho).
  assert (u32_of_Z (Z.of_N (k + 1)) = k + 1) as E
    by (unfold u32_of_Z; rewrite Z.mod_small by lia; lia).
  rewrite E in H. rewrite i32_small in H by lia.
  destruct (Z.ltb_spec (Z.of_N (k + 1)) 0); [lia|]. simplify_eq. cbn [Z.ltb Z.compare RUNTIME_SYSCALL_STATUS_OK].
  exists k, (of_owner_pid o). split_and!; [exact Hk|done| |].
  - rewrite <-Hs1, aget_slots, Ho. unfold slot_of. cbn. by rewrite Hu.
  - replace (k + 1 - 1) with k by lia. rewrite upd_file_compose.
    by rewrite (slots_alter_file _ _ _ _ Ho), Hs1.
Qed.

Lemma parent_loop_status fuel : ∀ fs current token cursor status,
  parent_loop fuel fs current token cursor = Some (inl status) → (status < 0)%Z.
Proof.
  induction fuel as [|fuel IH]; intros fs current token cursor status H; [done|]. cbn [parent_loop] in H.
  fs_cases H; simplify_eq; try done. by eapply IH.
Qed.

Lemma resolve_parent_status fs path status :
  fs_resolve_parent_path fs path = Some (inl status) → (status < 0)%Z.
Proof.
  unfold fs_resolve_parent_path. intros H. fs_cases H; simplify_eq; try done. by eapply parent_loop_status.
Qed.

Lemma open_target_status fs pid path flags fs' status :
  open_target fs pid path flags = Some (fs', inl status) → (status < 0)%Z.
Proof.
  unfold open_target. intros H. fs_cases H; simplify_eq; try done. by eapply resolve_parent_status.
Qed.

Lemma open_slots fs pid path flags out fs' obj z :
  length (open_files fs) = N.to_nat RUNTIME_FS_MAX_OPEN_FILES →
  runtime_fs_open fs pid path flags out = Some (fs', obj, z) →
  if (z <? 0)%Z then slots fs' = slots fs else opened fs fs' pid (default 0 obj).
Proof.
  intros Hlen H. unfold runtime_fs_open in H. destruct path as [path|]; [|by simplify_eq].
  destruct (negb out || negb (starts_with_slash path)); [by simplify_eq|]. destruct (open_target fs pid path flags) as [[fs1 r]|] eqn:Ht; cbind_in H; [|done].
  pose proof (open_target_slots _ _ _ _ _ _ Ht) as Hs1.
  assert (length (open_files fs1) = length (open_files fs)) as Hl1.
  { apply (f_equal length) in Hs1. unfold slots in Hs1. by rewrite !length_fmap in Hs1. }
  destruct r as [status|i].
  - simplify_eq. apply open_target_status in Ht. by destruct (Z.ltb_spec z 0); [|lia].
  - apply open_node_slots in H; [|by rewrite Hl1]. unfold opened. by rewrite <-Hs1.
Qed.

(** [close] on an object in use gives its slot back. *)
Lemma close_slots fs object used owner :
  length (open_files fs) = N.to_nat RUNTIME_FS_MAX_OPEN_FILES →
  1 ≤ object → aget (slots fs) (object - 1) = Some (used, owner) → used ≠ 0 →
  ∃ fs', runtime_fs_close fs object = (fs', RUNTIME_SYSCALL_STATUS_OK) ∧
    slots fs' = <[N.to_nat (object - 1) := (0, 0)]> (slots fs).
Proof.
  intros Hlen H1 Hs Hu. rewrite aget_slots in Hs. apply fmap_Some in Hs as (o & Ho & Heq).
  unfold slot_of in Heq. simplify_eq. pose proof (aget_Some_lt _ _ _ Ho) as Hlt. rewrite Hlen in Hlt.
  unfold runtime_fs_close, fs_open_file_lookup. destruct (N.eqb_spec object 0); [lia|].
  destruct (N.ltb_spec RUNTIME_FS_MAX_OPEN_FILES object); [unfold RUNTIME_FS_MAX_OPEN_FILES in *; lia|].
  cbn [orb]. rewrite Ho. destruct (N.eqb_spec (of_used o) 0); [done|].
  eexists. split; [done|]. by rewrite (slots_alter_file _ _ _ _ Ho).
Qed.
