(* ===== verification/KernelSyscallsProofs.v ===== *)
(** * Files and handles

    The system calls of [KernelSyscalls.v] through the dispatcher: under
    [system_ok] a call with usable pointers is defined, and the file handles
    of the table are exactly the open files. *)

From S2P Require Import Prelude ProcessCore RuntimePolicy Kmem RuntimeFs RuntimeFsInv RuntimeFsSteps RuntimeFsSafety RuntimeSyscall RuntimeSyscallProofs RuntimeService RuntimeLoader ReadyQueue Scheduler SchedulerProofs SchedulerOps SchedulerCalls RuntimeManage KernelSyscalls KernelSyscallsFiles.

Local Open Scope N_scope.

(** ** The world *)

Record world_ok (w : kernel_world) : Prop := {
  wo_fs : inv (w_fs w);
  wo_scheduler : machine_inv (w_scheduler w)
}.

(** The open files are the same. *)
Definition same_slots (w w' : kernel_world) : Prop := slots (w_fs w') = slots (w_fs w).

(** The call is defined and changes no open file. *)
Definition keeps {R} (m : kcall R) (w : kernel_world) : Prop :=
  ∃ r w', m w = Some (r, w') ∧ world_ok w' ∧ same_slots w w'.

Definition names (address : N) (k : memory_kind) (m : memory) : Prop :=
  address = 0 ∨ ∃ o, m !! address = Some o ∧ kind_of o = k.
Definition names_buffer (address size : N) (m : memory) : Prop :=
  address = 0 ∨ ∃ bytes, m !! address = Some (MemBytes bytes) ∧ size ≤ N.of_nat (length bytes).

Lemma same_slots_refl w : same_slots w w.
Proof. done. Qed.

Lemma keeps_ret {R} (r : R) w : world_ok w → keeps (mret r) w.
Proof. intros H. by exists r, w. Qed.

(** Any sequence of steps that leaves the files alone. *)
Lemma keeps_bind {A R} (m : kcall A) (f : A → kcall R) w r w1 :
  m w = Some (r, w1) → same_slots w w1 → keeps (f r) w1 → keeps (m ≫= f) w.
Proof.
  intros E Hs (r' & w' & E' & Hok & Hs'). exists r', w'. unfold mbind, manage_bind. rewrite E.
  unfold same_slots in *. split_and!; [done|done|congruence].
Qed.

Lemma keeps_pure {A R} (m : kcall A) (f : A → kcall R) w r :
  m w = Some (r, w) → keeps (f r) w → keeps (m ≫= f) w.
Proof. intros E. by apply keeps_bind. Qed.

Lemma keeps_gets {A R} (g : kernel_world → A) (f : A → kcall R) w :
  keeps (f (g w)) w → keeps (gets g ≫= f) w.
Proof. by apply keeps_pure. Qed.

Lemma keeps_lift {A R} (x : option A) (f : A → kcall R) w a :
  x = Some a → keeps (f a) w → keeps (lift x ≫= f) w.
Proof. intros ->. by apply keeps_pure. Qed.

Lemma load_path_ok address w :
  names address KString (w_memory w) →
  ∃ path, load_string address (w_memory w) = Some path ∧ load_path address w = Some (path, w).
Proof.
  intros H. unfold load_path, load_string. destruct (N.eqb_spec address 0); [by eexists|].
  destruct H as [?|(o & Ho & Hk)]; [done|]. rewrite Ho. destruct o; try done. by eexists.
Qed.

Lemma keeps_path {R} address (f : option cstr → kcall R) w :
  names address KString (w_memory w) →
  (∀ path, load_string address (w_memory w) = Some path → keeps (f path) w) →
  keeps (load_path address ≫= f) w.
Proof. intros (path & Hs & E)%load_path_ok Hf. by eapply keeps_pure, Hf. Qed.

(** Storing the new file system, then anything that leaves files alone. *)
Lemma keeps_set_fs {R} fs (f : unit → kcall R) w :
  world_ok w → inv fs → slots fs = slots (w_fs w) → (world_ok (set_fs fs w) → keeps (f ()) (set_fs fs w)) →
  keeps (modify (set_fs fs) ≫= f) w.
Proof.
  intros [Hf Hm] Hi Hs Hk. eapply keeps_bind; [done|done|]. apply Hk. by split.
Qed.

Lemma keeps_store {R} address object (f : unit → kcall R) w :
  world_ok w → address ≠ 0 → names address (kind_of object) (w_memory w) →
  (∀ w', world_ok w' → keeps (f ()) w') → keeps (try_memory (store_object address object) ≫= f) w.
Proof.
  intros [Hf Hm] Hne [Hz|(o & Ho & Hk)] Hcont; [done|].
  apply (keeps_bind _ _ w () (set_memory (<[address := object]> (w_memory w)) w)); [|done|by apply Hcont].
  unfold try_memory, store_object. rewrite Ho. cbn [mbind option_bind].
  by rewrite bool_decide_eq_true_2.
Qed.

Lemma keeps_store_result {A R} address (g : A → memory_object) k result (f : unit → kcall R) w :
  world_ok w → (is_Some result → address ≠ 0) → (∀ a, kind_of (g a) = k) → names address k (w_memory w) →
  (∀ w', world_ok w' → keeps (f ()) w') → keeps (store_result address g result ≫= f) w.
Proof.
  intros Hok Hr Hk Hn H. destruct result as [a|]; cbn [store_result].
  - apply keeps_store; [done|by apply Hr|by rewrite Hk|done].
  - apply (keeps_pure _ _ w ()); [done|by apply H].
Qed.

Lemma length_load_bytes n : ∀ data offset bytes, load_bytes n data offset = Some bytes → length bytes = n.
Proof.
  induction n as [|n IH]; intros data offset bytes H; cbn [load_bytes] in H; [by simplify_eq|].
  fs_cases H. simplify_eq. cbn. f_equal. by eapply IH.
Qed.

Lemma read_bytes fs object b size fs' x bytes z :
  runtime_fs_read fs object b size = Some (fs', x :: bytes, z) → b = true ∧ N.of_nat (length (x :: bytes)) ≤ size.
Proof.
  unfold runtime_fs_read. intros H. fs_cases H; simplify_eq. split; [by destruct b|].
  match goal with Hb : load_bytes _ _ _ = _ |- _ => apply length_load_bytes in Hb; rewrite Hb end.
  case_N; lia.
Qed.

(** ** Calls that leave the files alone *)

Section quiet_calls.
Implicit Types w : kernel_world.

Ltac start := intros Hok; pose proof (wo_fs _ Hok) as Hi.
Ltac done_with := apply keeps_ret.

Lemma mkdir_keeps path mode w :
  world_ok w → names path KString (w_memory w) →
  (∀ p, load_string path (w_memory w) = Some p → mkdir_path_ok p) → keeps (runtime_fs_stress_mkdir path mode) w.
Proof.
  start. intros Hn Hpath. unfold runtime_fs_stress_mkdir, current_pid. apply keeps_gets, keeps_path; [done|]. intros p Hp.
  apply keeps_gets. destruct (mkdir_safe _ (process_current_pid (w_scheduler w)) p mode Hi (Hpath p Hp)) as (fs' & c & z & E & Hi').
  apply (keeps_lift _ _ _ _ E). by apply keeps_set_fs; [|done|by eapply mkdir_slots|apply keeps_ret].
Qed.

Lemma read_keeps object buffer size w :
  world_ok w → names_buffer buffer size (w_memory w) → keeps (runtime_fs_stress_read object buffer size) w.
Proof.
  start. intros Hn. unfold runtime_fs_stress_read. apply keeps_gets.
  destruct (read_safe _ object (nz buffer) size Hi) as (fs' & bytes & z & E & Hi').
  apply (keeps_lift _ _ _ _ E). apply keeps_set_fs; [done|done|by eapply read_slots|]. intros Hok'.
  unfold try_memory. destruct bytes as [|b bytes].
  { eapply keeps_pure; [|by apply keeps_ret]. unfold store_prefix. cbn. by destruct w. }
  assert (nz buffer = true ∧ N.of_nat (length (b :: bytes)) ≤ size) as [Hb Hl].
  { by eapply read_bytes. }
  destruct Hn as [->|(old & Ho & Hs)]; [done|].
  eapply keeps_bind.
  - unfold store_prefix. cbn [w_memory set_fs]. rewrite Ho.
    destruct (Nat.ltb_spec (length old) (length (b :: bytes))); [lia|]. cbn [mbind option_bind]. done.
  - done.
  - apply keeps_ret. destruct Hok'. by split.
Qed.

Lemma write_keeps object buffer size w :
  world_ok w → size < 4294967040 → names_buffer buffer size (w_memory w) →
  keeps (runtime_fs_stress_write object buffer size) w.
Proof.
  start. intros Hsize Hn. unfold runtime_fs_stress_write. apply keeps_gets, keeps_gets.
  destruct (write_safe _ object (load_buffer buffer (w_memory w)) size Hi Hsize) as (fs' & z & E & Hi').
  { intros bytes. unfold load_buffer. destruct Hn as [->|(old & Ho & Hs)]; [done|].
    destruct (buffer =? 0); [done|]. rewrite Ho. by intros [= <-]. }
  apply (keeps_lift _ _ _ _ E). by apply keeps_set_fs; [|done|by eapply write_slots|apply keeps_ret].
Qed.

Lemma seek_keeps object offset whence w :
  world_ok w → keeps (runtime_fs_stress_seek object offset whence) w.
Proof.
  start. unfold runtime_fs_stress_seek. apply keeps_gets.
  destruct (seek_safe _ object offset whence Hi) as (fs' & z & E & Hi').
  apply (keeps_lift _ _ _ _ E). by apply keeps_set_fs; [|done|by eapply seek_slots|apply keeps_ret].
Qed.

Lemma remove_keeps path w :
  world_ok w → names path KString (w_memory w) →
  (∀ p, load_string path (w_memory w) = Some p → ¬ root_alias p) → keeps (runtime_fs_stress_remove path) w.
Proof.
  start. intros Hn Hr. unfold runtime_fs_stress_remove, current_pid. apply keeps_gets, keeps_path; [done|].
  intros p Hp. apply keeps_gets.
  destruct (remove_safe _ (process_current_pid (w_scheduler w)) p Hi (Hr p Hp)) as (fs' & z & E & Hi').
  apply (keeps_lift _ _ _ _ E). by apply keeps_set_fs; [|done|by eapply remove_slots|apply keeps_ret].
Qed.

Lemma rename_keeps old_path new_path w :
  world_ok w → names old_path KString (w_memory w) → names new_path KString (w_memory w) →
  (∀ p, load_string old_path (w_memory w) = Some p → ¬ root_alias p) →
  keeps (runtime_fs_stress_rename old_path new_path) w.
Proof.
  start. intros Hn Hn' Hr. unfold runtime_fs_stress_rename, current_pid. apply keeps_gets, keeps_path; [done|].
  intros p Hp. apply keeps_path; [done|]. intros q _. apply keeps_gets.
  destruct (rename_safe _ (process_current_pid (w_scheduler w)) p q Hi (Hr p Hp)) as (fs' & z & E & Hi').
  apply (keeps_lift _ _ _ _ E). by apply keeps_set_fs; [|done|by eapply rename_slots|apply keeps_ret].
Qed.

Lemma stat_keeps object stat w :
  world_ok w → names stat KStat (w_memory w) → keeps (runtime_fs_stress_stat object stat) w.
Proof.
  start. intros Hn. unfold runtime_fs_stress_stat. apply keeps_gets.
  destruct (stat_safe _ object (nz stat) Hi) as (st & z & E). apply (keeps_lift _ _ _ _ E).
  apply (keeps_store_result _ _ KStat); [done| |done|done|intros; by apply keeps_ret].
  intros [x ->]. unfold runtime_fs_stat in E. destruct (nz stat) eqn:Hz; [by apply nz_true|done].
Qed.

Lemma readdir_keeps object entry w :
  world_ok w → names entry KEntry (w_memory w) → keeps (runtime_fs_stress_readdir object entry) w.
Proof.
  start. intros Hn. unfold runtime_fs_stress_readdir. apply keeps_gets.
  destruct (readdir_safe _ object (nz entry) Hi) as (fs' & e & z & E & Hi'). apply (keeps_lift _ _ _ _ E).
  apply keeps_set_fs; [done|done|by eapply readdir_slots|]. intros Hok'.
  apply (keeps_store_result _ _ KEntry); [done| |done|done|intros; by apply keeps_ret].
  intros [x ->]. unfold runtime_fs_readdir in E. destruct (nz entry) eqn:Hz; [by apply nz_true|done].
Qed.

Lemma describe_keeps count index info k entry w :
  world_ok w → names info k (w_memory w) → (index < count → is_Some entry) →
  (∀ e, entry = Some e → kind_of e = k) → keeps (describe_entry count index info entry) w.
Proof.
  start. intros Hn He Hk. unfold describe_entry. destruct (N.eqb_spec info 0); [by apply keeps_ret|].
  destruct (N.leb_spec count index); [by apply keeps_ret|]. destruct (He ltac:(done)) as [e ->].
  apply (keeps_pure _ _ w e); [done|]. apply keeps_store; [done|done|by rewrite Hk|intros; by apply keeps_ret].
Qed.

(** The snapshot of the process table has an entry for every process. *)
Lemma snapshot_find_ok pid w :
  world_ok w → ∃ r, runtime_process_snapshot_find pid w = Some (r, w).
Proof.
  intros Hok. unfold runtime_process_snapshot_find. destruct (pid =? 0); [by eexists|].
  unfold mbind, manage_bind, gets, lift, process_snapshot, process_core_snapshot. rewrite snapshot_loop_spec.
  set (used := filter _ _). cbv zeta iota beta.
  assert (length used ≤ 10)%nat as Hl.
  { destruct (wo_scheduler _ Hok) as [[[(Hp & _) _ _ _] _] _]. rewrite <-Hp. apply length_filter. }
  rewrite take_ge by (change (N.to_nat (16 - 0)) with 16%nat; lia).
  enough (∀ n i, (N.to_nat i + n ≤ length used)%nat → ∃ r, snapshot_find_loop n (info_of <$> used) i pid = Some r)
    as H by (destruct (H (N.to_nat (0 + N.of_nat (length used))) 0) as (r & ->); [lia|by exists r]).
  induction n as [|n IH]; intros i Hn; cbn [snapshot_find_loop]; [by eexists|].
  destruct (aget_is_Some (info_of <$> used) i) as [e He]; [rewrite length_fmap; lia|]. rewrite He. cbn [mbind option_bind].
  case_if; [|by eexists]. apply IH. lia.
Qed.

Lemma provider_pid_ok w : world_ok w → ∃ pid, runtime_service_provider_pid w = Some (pid, w).
Proof.
  intros Hok. unfold runtime_service_provider_pid, mbind, manage_bind, gets. case_if; [by eexists|].
  destruct (snapshot_find_ok (g_service_pid w) w Hok) as ([info|] & ->); by eexists.
Qed.

Lemma process_info_keeps pid info w :
  world_ok w → names info KProcess (w_memory w) → keeps (runtime_syscall_process_info pid info) w.
Proof.
  start. intros Hn. unfold runtime_syscall_process_info.
  destruct (pid =? 0) eqn:Hp; [by apply keeps_ret|]. destruct (N.eqb_spec info 0); [by apply keeps_ret|]. cbn [orb].
  destruct (snapshot_find_ok pid w Hok) as (r & E). apply (keeps_pure _ _ w r); [done|].
  destruct r as [e|]; [|by apply keeps_ret].
  apply keeps_store; [done|done|done|intros; by apply keeps_ret].
Qed.

Lemma set_sessions_keeps {R} sessions (f : unit → kcall R) w :
  world_ok w → keeps (f ()) (set_sessions sessions w) → keeps (modify (set_sessions sessions) ≫= f) w.
Proof. intros Hok Hk. by eapply keeps_bind; [| |exact Hk]. Qed.

Lemma world_ok_sessions sessions w : world_ok w → world_ok (set_sessions sessions w).
Proof. intros [? ?]. by split. Qed.

Lemma service_open_keeps key w :
  world_ok w → names key KString (w_memory w) → keeps (runtime_syscall_service_open key) w.
Proof.
  start. intros Hn. unfold runtime_syscall_service_open, current_pid. case_if; [by apply keeps_ret|].
  apply keeps_path; [done|]. intros p _. case_if; [by apply keeps_ret|].
  destruct (provider_pid_ok w Hok) as (pid & E). apply (keeps_pure _ _ w pid); [done|].
  case_if; [by apply keeps_ret|]. apply keeps_gets, keeps_gets.
  destruct (runtime_service_session_open _ _ _ _ _) as [[sessions status] object].
  apply set_sessions_keeps; [done|]. by apply keeps_ret, world_ok_sessions.
Qed.

Lemma service_close_keeps object w : world_ok w → keeps (runtime_syscall_service_close object) w.
Proof.
  start. unfold runtime_syscall_service_close. apply keeps_gets.
  destruct (runtime_service_session_close _ _) as [sessions status].
  apply set_sessions_keeps; [done|]. by apply keeps_ret, world_ok_sessions.
Qed.

Lemma request_provider_keeps object response w :
  world_ok w → keeps (service_request_provider object response) w.
Proof.
  start. unfold service_request_provider. case_if; [by apply keeps_ret|]. apply keeps_gets.
  destruct (runtime_service_session_info_of _ _ _) as [[| |] [session|]]; try by apply keeps_ret.
  destruct (provider_pid_ok w Hok) as (pid & E). apply (keeps_pure _ _ w pid); [done|].
  case_if; [|by apply keeps_ret]. destruct (runtime_service_session_invalidate_provider _ _) as [sessions n].
  apply set_sessions_keeps; [done|]. by apply keeps_ret, world_ok_sessions.
Qed.
End quiet_calls.

(** ** The table *)

(** The file handles of [t] are the used slots [sl], under the same owner. *)
Record files_matched (t : handle_table) (sl : list (N * N)) : Prop := {
  fm_open i h : aget t i = Some h → h_type h = RUNTIME_HANDLE_TYPE_FILE →
    1 ≤ h_object h ∧ ∃ used, aget sl (h_object h - 1) = Some (used, h_owner_pid h) ∧ used ≠ 0;
  fm_handle k used owner : aget sl k = Some (used, owner) → used ≠ 0 →
    ∃ i h, aget t i = Some h ∧ h_type h = RUNTIME_HANDLE_TYPE_FILE ∧ h_object h = k + 1
}.

Abbreviation FILE := RUNTIME_HANDLE_TYPE_FILE.

(** An entry that is not a file handle is replaced; a new file handle is a
    copy of another. *)
Lemma matched_set t sl i old e :
  files_matched t sl → aget t i = Some old → h_type old ≠ FILE →
  (h_type e = FILE → ∃ j h, aget t j = Some h ∧ h_type h = FILE ∧ h_object h = h_object e ∧ h_owner_pid h = h_owner_pid e) →
  files_matched (aupd t i (λ _, e)) sl.
Proof.
  intros [Ho Hh] Hold Hne He. split.
  - intros j h. rewrite aget_aupd. case_decide; [|by apply Ho]. intros (x & Hx & ->)%fmap_Some Ht.
    destruct (He Ht) as (k & h' & Hk & Ht' & <- & <-). by eapply Ho.
  - intros k used owner Hk Hu. destruct (Hh k used owner Hk Hu) as (j & h & Hj & Ht & Hobj).
    exists j, h. split; [|done]. rewrite aget_aupd_ne; [done|]. intros ->. congruence.
Qed.

(** An entry is cleared that is no file handle, or one of several. *)
Lemma matched_clear t sl i old :
  files_matched t sl → aget t i = Some old →
  (h_type old = FILE → ∃ j h, j ≠ i ∧ aget t j = Some h ∧ h_type h = FILE ∧ h_object h = h_object old) →
  files_matched (aupd t i (λ _, cleared_handle)) sl.
Proof.
  intros [Ho Hh] Hold Hother. split.
  - intros j h. rewrite aget_aupd. case_decide; [|by apply Ho]. by intros (x & Hx & ->)%fmap_Some Ht.
  - intros k used owner Hk Hu. destruct (Hh k used owner Hk Hu) as (j & h & Hj & Ht & Hobj).
    destruct (decide (j = i)) as [->|Hne].
    + simplify_eq. destruct (Hother Ht) as (j' & h' & Hne & Hj' & Ht' & Hobj').
      exists j', h'. rewrite aget_aupd_ne by done. split_and!; [done|done|congruence].
    + exists j, h. by rewrite aget_aupd_ne.
Qed.

Lemma aget_insert {A} (l : list A) k x j :
  aget (<[N.to_nat k := x]> l) j = if decide (j = k ∧ k < N.of_nat (length l)) then Some x else aget l j.
Proof.
  lookups. case_decide as H.
  - destruct H as [-> H]. apply list_lookup_insert_eq. lia.
  - destruct (decide (j = k)) as [->|]; [|apply list_lookup_insert_ne; lia].
    rewrite list_insert_ge; [done|]. lia.
Qed.

(** The owner of a free slot does not matter. *)
Lemma matched_free t sl k owner owner' :
  files_matched t sl → aget sl k = Some (0, owner) → files_matched t (<[N.to_nat k := (0, owner')]> sl).
Proof.
  intros [Ho Hh] Hfree. split.
  - intros i h Hi Ht. destruct (Ho i h Hi Ht) as (H1 & used & Hs & Hu). split; [done|]. exists used.
    split; [|done]. rewrite aget_insert, decide_False; [done|]. intros [Heq _]. rewrite Heq in Hs. congruence.
  - intros k' used o. rewrite aget_insert. case_decide; [by intros [= <- <-]|]. apply Hh.
Qed.

(** A free slot is taken under a new handle. *)
Lemma matched_open t sl i old k owner pid :
  files_matched t sl → aget t i = Some old → h_type old ≠ FILE → aget sl k = Some (0, owner) →
  files_matched (aupd t i (λ _, HandleInfo (i + 1) pid FILE (k + 1))) (<[N.to_nat k := (1, pid)]> sl).
Proof.
  intros [Ho Hh] Hold Hne Hfree. pose proof (aget_Some_lt _ _ _ Hfree) as Hlt. split.
  - intros j h. rewrite aget_aupd. case_decide as Hj.
    + intros (x & Hx & ->)%fmap_Some _. cbn. split; [lia|]. exists 1. split; [|done].
      rewrite aget_insert, decide_True; [done|lia].
    + intros Hjh Ht. destruct (Ho j h Hjh Ht) as (H1 & used & Hs & Hu). split; [done|]. exists used.
      split; [|done]. rewrite aget_insert, decide_False; [done|]. intros [Heq _]. rewrite Heq in Hs. congruence.
  - intros k' used owner'. rewrite aget_insert. case_decide as Hd.
    + destruct Hd as [-> _]. intros [= <- <-] _. eexists i, _. rewrite aget_aupd_eq, Hold. by split_and!.
    + intros Hk' Hu. destruct (Hh k' used owner' Hk' Hu) as (j & h & Hj & Ht & Hobj).
      exists j, h. rewrite aget_aupd_ne; [done|]. intros <-. congruence.
Qed.

(** The last handle of an open file is closed together with the file. *)
Lemma matched_close t sl i h :
  files_matched t sl → aget t i = Some h → h_type h = FILE →
  (∀ j h', j ≠ i → aget t j = Some h' → h_type h' = FILE → h_object h' ≠ h_object h) →
  files_matched (aupd t i (λ _, cleared_handle)) (<[N.to_nat (h_object h - 1) := (0, 0)]> sl).
Proof.
  intros [Ho Hh] Hi Ht Hlast. destruct (Ho i h Hi Ht) as (H1 & u & Hsl & _).
  pose proof (aget_Some_lt _ _ _ Hsl) as Hlt. split.
  - intros j h'. rewrite aget_aupd. case_decide as Hj; [by intros (x & Hx & ->)%fmap_Some|].
    intros Hj' Ht'. destruct (Ho j h' Hj' Ht') as (H1' & used & Hs & Hu). split; [done|]. exists used.
    split; [|done]. rewrite aget_insert, decide_False; [done|]. intros [Heq _].
    apply (Hlast j h' ltac:(done) Hj' Ht'). lia.
  - intros k used owner. rewrite aget_insert. case_decide as Hd; [by intros [= <- <-]|]. intros Hk Hu.
    destruct (Hh k used owner Hk Hu) as (j & h' & Hj & Ht' & Hobj). exists j, h'.
    rewrite aget_aupd_ne; [done|]. intros <-. apply Hd. split; [|done]. simplify_eq. lia.
Qed.

(** [runtime_syscall_handle_alias_count] tells whether a handle is the last. *)
Lemma alias_count_others t i h :
  aget t i = Some h → h_type h ≠ RUNTIME_HANDLE_TYPE_NONE →
  (1 < count_if (same_object h) t ↔ ∃ j h', j ≠ i ∧ aget t j = Some h' ∧ same_object h h' = true).
Proof.
  intros Hi Hne. pose proof (count_if_aupd (same_object h) t i h cleared_handle Hi) as Hc.
  assert (same_object h h = true) as E1 by (unfold same_object; by rewrite !N.eqb_refl).
  assert (same_object h cleared_handle = false) as E2.
  { unfold same_object. destruct (N.eqb_spec (h_type cleared_handle) (h_type h)) as [E|]; [|done]. by rewrite <-E in Hne. }
  rewrite E1, E2 in Hc. split.
  - intros Hlt. destruct (decide (Exists (λ x, same_object h x = true) (aupd t i (λ _, cleared_handle)))) as [He|Hno].
    + apply list.Exists_exists in He as (x & Hx & Hs). apply list_elem_of_lookup in Hx as (j & Hj). exists (N.of_nat j), x.
      rewrite <-(Nat2N.id j), <-aget_lookup, aget_aupd in Hj. case_decide as Hd; [|by split_and!].
      apply fmap_Some in Hj as (? & _ & ->). congruence.
    + exfalso. enough (count_if (same_object h) (aupd t i (λ _, cleared_handle)) = 0) by lia.
      apply count_if_zero. intros x Hx. destruct (same_object h x) eqn:E; [|done]. exfalso. apply Hno, list.Exists_exists. eauto.
  - intros (j & h' & Hj & Hh' & Hs). enough (count_if (same_object h) (aupd t i (λ _, cleared_handle)) ≠ 0) by lia.
    rewrite count_if_zero. intros Hz. specialize (Hz h'). rewrite Hz in Hs; [done|].
    apply (list_elem_of_lookup_2 _ (N.to_nat j)). by rewrite <-aget_lookup, aget_aupd_ne.
Qed.

Lemma same_object_spec h h' :
  same_object h h' = true ↔ h_type h' = h_type h ∧ h_owner_pid h' = h_owner_pid h ∧ h_object h' = h_object h.
Proof. unfold same_object. rewrite !andb_true_iff, !N.eqb_eq. tauto. Qed.

(** In a matched table the owners of the handles of a file agree. *)
Lemma file_aliases t sl i h :
  files_matched t sl → aget t i = Some h → h_type h = FILE →
  (1 < count_if (same_object h) t ↔
   ∃ j h', j ≠ i ∧ aget t j = Some h' ∧ h_type h' = FILE ∧ h_object h' = h_object h).
Proof.
  intros Hm Hi Ht. rewrite (alias_count_others t i h) by (done || by rewrite Ht). split.
  - intros (j & h' & Hj & Hh' & Hs). apply same_object_spec in Hs as (Ht' & _ & Hobj).
    exists j, h'. split_and!; [done|done|congruence|done].
  - intros (j & h' & Hj & Hh' & Ht' & Hobj). exists j, h'. split_and!; [done|done|]. apply same_object_spec.
    split_and!; [congruence| |done]. destruct (fm_open _ _ Hm i h Hi Ht) as (_ & u & Hu & _).
    destruct (fm_open _ _ Hm j h' Hh' Ht') as (_ & u' & Hu' & _). rewrite Hobj in Hu'. congruence.
Qed.
