(* ===== verification/KernelSyscallsTheorems.v ===== *)
(** * The system calls as a whole

    Any run of the system calls of the kernel from the start: every call that is
    [call_safe] is defined, the file system stays valid, and the file
    handles of the table are the open files. *)

From S2P Require Import Prelude ProcessCore RuntimePolicy Kmem RuntimeFs RuntimeFsInv RuntimeFsSteps RuntimeFsSafety RuntimeSyscall RuntimeSyscallProofs RuntimeService.
From S2P Require Import RuntimeLoader ReadyQueue Scheduler SchedulerProofs SchedulerOps SchedulerCalls RuntimeManage KernelSyscalls KernelSyscallsFiles.
From S2P Require Import KernelSyscallsProofs SchedulerMachine SchedulerTheorems.

Local Open Scope N_scope.

Abbreviation state := (system (option kernel_world)).

(** ** The invariant *)

Definition system_at (s : state) (t : handle_table) (w : kernel_world) : Prop :=
  sys_table s = Some t ∧ sys_context s = Some w ∧ table_wf t ∧ world_ok w ∧ files_matched t (slots (w_fs w)).

Definition system_ok (s : state) : Prop := ∃ t w, system_at s t w.

(** The pointers of a call name objects of the types it uses; a path for
    [mkdir] is one it reads inside its bounds; the size of a [write] does not
    wrap the 32-bit end offset; [remove] and [rename] are not given the root
    in disguise. *)
Definition call_safe (syscall_number : N) (args : runtime_syscall_args) (m : memory) : Prop :=
  let not_root address := ∀ path, load_string address m = Some path → ¬ root_alias path in
  match syscall_number with
  | 7 | 26 | 30 => names (arg0 args) KString m
  | 16 => names (arg0 args) KString m ∧
      ∀ path, load_string (arg0 args) m = Some path → mkdir_path_ok path
  | 8 => names_buffer (arg1 args) (arg2 args) m
  | 9 => arg2 args < 4294967040 ∧ names_buffer (arg1 args) (arg2 args) m
  | 15 => names (arg1 args) KStat m
  | 17 => names (arg1 args) KEntry m
  | 19 => names (arg0 args) KString m ∧ not_root (arg0 args)
  | 20 => names (arg0 args) KString m ∧ names (arg1 args) KString m ∧ not_root (arg0 args)
  | 23 => names (arg1 args) KSpawnable m
  | 25 => names (arg1 args) KService m
  | 27 => names (arg2 args) KWord m
  | 29 => names (arg1 args) KApp m
  | 31 => names (arg1 args) KProcess m
  | _ => True
  end.

(** The contract of the exchange with a service: whatever runs in the
    meantime keeps the invariant and the memory of the waiting process. *)
Class ExchangeKeeps (request_sync : N → N → callback (option kernel_world) (option N)) : Prop :=
  exchange_keeps provider request s t w : system_at s t w →
    ∃ t' w', system_at (request_sync provider request s).1 t' w' ∧
      ∀ a k, names a k (w_memory w) → names a k (w_memory w').

(** ** Callbacks and handles *)

(** The five parts of [system_at]. *)
Ltac split_at := split; [|split; [|split; [|split]]].

Lemma callback_at {R} (d : R) (m : kcall R) s t w :
  system_at s t w → keeps m w →
  ∃ r w', kernel_callback d m s = (System (Some t) (Some w'), r) ∧ m w = Some (r, w') ∧
    system_at (System (Some t) (Some w')) t w'.
Proof.
  intros (Ht & Hw & Hwf & Hok & Hm) (r & w' & E & Hok' & Hq). exists r, w'. unfold kernel_callback.
  rewrite Hw, E, Ht. split; [done|]. split; [done|]. split_at; try done. unfold same_slots in Hq. by rewrite Hq.
Qed.

Lemma callback_ok {R} (d : R) (m : kcall R) s t w :
  system_at s t w → keeps m w → system_ok (kernel_callback d m s).1.
Proof. intros H Hk. destruct (callback_at d m s t w H Hk) as (r & w' & -> & _ & H'). by eexists _, _. Qed.

Lemma system_at_ok s t w : system_at s t w → system_ok s.
Proof. by intros; eexists _, _. Qed.
#[local] Hint Resolve system_at_ok : core.

(** What [alloc] leads to for an entry that no open file waits for. *)
Lemma alloc_at s t w pid type object :
  system_at s t w → 1 ≤ type ≤ 5 →
  (type = FILE → ∃ j h, aget t j = Some h ∧ h_type h = FILE ∧ h_object h = object ∧ h_owner_pid h = pid) →
  system_ok (alloc pid type object s).1.
Proof.
  intros (Ht & Hw & Hwf & Hok & Hm) Hty Hf. unfold alloc. rewrite Ht.
  destruct (alloc_handle_cases t pid type object Hwf) as [[-> _]|(i & h & -> & Hlt & Hi & Hn)]; cbn.
  - exists t, w. by split_at.
  - eexists _, w. split_at; [done|done|by apply table_wf_set|done|].
    apply (matched_set _ _ i h); [done|done|by rewrite Hn|]. intros E. cbn in E. by apply Hf.
Qed.

Lemma return_handle_ok (r : state * N) : system_ok r.1 → system_ok (return_handle r).1.
Proof. destruct r as [s n]. unfold return_handle. by case_if. Qed.

Lemma with_handle_ok type id ops s k :
  system_ok s → (∀ h, system_ok (k h).1) → system_ok (with_handle type id ops s k).1.
Proof.
  intros Hs Hk. unfold with_handle. destruct (runtime_syscall_lookup_handle _ _); [|done].
  case_if; [done|]. cbv zeta. by case_if.
Qed.

Lemma file_call_ok {A} args ops (op : runtime_syscall_file_ops _ → option A) f guard call s t w :
  system_at s t w → op_file_ops ops ≫= op = Some f →
  (guard = false → ∀ object, system_ok (call f object s).1) →
  system_ok (file_call args ops op guard call s).1.
Proof.
  intros Hs Hf Hk. unfold file_call. apply with_handle_ok; [by eauto|]. intros h. rewrite Hf.
  destruct guard; [by eauto|]. by apply Hk.
Qed.

Lemma return_process_ok pid (r : state * N) : system_ok r.1 → system_ok (return_process pid r).1.
Proof.
  destruct r as [s n]. unfold return_process. case_if; [done|]. intros (t & w & Hs).
  apply return_handle_ok. eapply alloc_at; [exact Hs|unfold RUNTIME_HANDLE_TYPE_PROCESS; lia|done].
Qed.

Lemma clear_at_ok s t w i h :
  system_at s t w → aget t i = Some h →
  (h_type h = FILE → ∃ j h', j ≠ i ∧ aget t j = Some h' ∧ h_type h' = FILE ∧ h_object h' = h_object h) →
  system_ok (clear_at i s).
Proof.
  intros (Ht & Hw & Hwf & Hok & Hm) Hi Ho. unfold clear_at. rewrite Ht. eexists _, w.
  split_at; [done|done|by apply table_wf_clear|done|]. by eapply matched_clear.
Qed.

(** ** Opening and closing *)

Section calls.
Context (SF : bool) (base first_entry : N) (function_address : string → N).
Context (request_sync : N → N → callback (option kernel_world) (option N)) `{!ExchangeKeeps request_sync}.
Context (Hfit : stacks_fit base).

Abbreviation ops := (g_runtime_fs_stress_ops SF base first_entry function_address request_sync).

Lemma open_at path flags s t w :
  system_at s t w → names path KString (w_memory w) →
  ∃ w' object status,
    kernel_callback (0, 0%Z) (runtime_fs_stress_open path flags) s =
      (System (Some t) (Some w'), (object, status)) ∧ world_ok w' ∧
    if (status <? 0)%Z then same_slots w w'
    else opened (w_fs w) (w_fs w') (process_current_pid (w_scheduler w)) object.
Proof.
  intros (Ht & Hw & Hwf & Hok & Hm) Hn. destruct (load_path_ok path w Hn) as (p & _ & Ep).
  destruct (open_safe _ (process_current_pid (w_scheduler w)) p flags true (wo_fs _ Hok)) as (fs' & obj & z & E & Hi').
  exists (set_fs fs' w), (default 0 obj), z. unfold kernel_callback, runtime_fs_stress_open.
  unfold mbind, manage_bind, current_pid, gets, modify, lift, mret, manage_ret. rewrite Hw, Ep, E, Ht.
  split; [done|]. split; [split; [done|apply Hok]|].
  apply open_slots in E; [done|]. apply (typed_files _ (inv_typed _ (wo_fs _ Hok))).
Qed.

Lemma stress_close_at object used owner s t w :
  sys_table s = Some t → sys_context s = Some w → world_ok w →
  1 ≤ object → aget (slots (w_fs w)) (object - 1) = Some (used, owner) → used ≠ 0 →
  ∃ w', kernel_callback 0%Z (runtime_fs_stress_close object) s = (System (Some t) (Some w'), 0%Z) ∧
    world_ok w' ∧ slots (w_fs w') = <[N.to_nat (object - 1) := (0, 0)]> (slots (w_fs w)).
Proof.
  intros Ht Hw Hok H1 Hs Hu.
  destruct (close_slots (w_fs w) object used owner) as (fs' & E & Hs'); [|done..|].
  { apply (typed_files _ (inv_typed _ (wo_fs _ Hok))). }
  exists (set_fs fs' w). unfold kernel_callback, runtime_fs_stress_close.
  unfold mbind, manage_bind, gets, modify, mret, manage_ret. rewrite Hw, E, Ht.
  split; [done|]. split; [|done]. split; [|apply Hok].
  pose proof (close_safe (w_fs w) object (wo_fs _ Hok)) as Hi. by rewrite E in Hi.
Qed.

(** [FILE_OPEN]: a new handle, or nothing is left open. *)
Lemma file_open_ok args pid s t w :
  system_at s t w → pid = process_current_pid (w_scheduler w) → names (arg0 args) KString (w_memory w) →
  system_ok (sys_file_open args pid ops s).1.
Proof.
  intros Hs -> Hn. pose proof Hs as (Ht & Hw & Hwf & Hok & Hm). unfold sys_file_open.
  cbn [op_file_ops g_runtime_fs_stress_ops fop_open fop_close g_runtime_fs_stress_file_ops mbind option_bind].
  destruct (open_at (arg0 args) (arg1 args) s t w Hs Hn) as (w' & object & status & -> & Hok' & Hcase).
  destruct (status <? 0)%Z.
  { exists t, w'. split_at; [done..|]. unfold same_slots in Hcase. by rewrite Hcase. }
  destruct Hcase as (k & owner & Hk & -> & Hfree & Hs'). unfold alloc. cbn [sys_table].
  destruct (alloc_handle_cases t (process_current_pid (w_scheduler w)) FILE (k + 1) Hwf)
    as [[-> _]|(i & h & -> & Hlt & Hi & Hty)]; cbn -[kernel_callback].
  - pose proof (aget_Some_lt _ _ _ Hfree) as Hlen.
    destruct (stress_close_at (k + 1) 1 (process_current_pid (w_scheduler w))
      (set_table (Some t) (System (Some t) (Some w'))) t w') as (w2 & -> & Hok2 & Hs2); [done|done|done|lia| |done|].
    { rewrite Hs'. replace (k + 1 - 1) with k by lia. rewrite aget_insert, decide_True; [done|lia]. }
    exists t, w2. split_at; [done..|]. rewrite Hs2, Hs'. replace (k + 1 - 1) with k by lia.
    rewrite list_insert_insert_eq. by eapply matched_free.
  - destruct (N.eqb_spec (i + 1) 0); [lia|]. eexists _, w'.
    split_at; [done|done|apply table_wf_set; [done|by vm_compute]|done|].
    cbn [w_fs sys_context]. rewrite Hs'. by eapply matched_open; [|done|rewrite Hty|].
Qed.

(** [HANDLE_CLOSE]: a file is closed with its last handle. *)
Lemma handle_close_ok args s t w :
  system_at s t w → system_ok (sys_handle_close args ops s).1.
Proof.
  intros Hs. pose proof Hs as (Ht & Hw & Hwf & Hok & Hm). unfold sys_handle_close. rewrite Ht.
  destruct (runtime_syscall_lookup_handle (Some t) (arg0 args)) as [h|] eqn:Hl; [|by eauto].
  apply lookup_handle_Some in Hl as (Hid & Hh & Hne). unfold runtime_syscall_close_handle. cbv zeta.
  case_if; [by eauto|].
  destruct (N.eqb_spec (h_type h) RUNTIME_HANDLE_TYPE_PROCESS) as [Hp|Hp].
  { apply (clear_at_ok s t w _ h Hs Hh). by rewrite Hp. }
  case_if; [by eauto|]. rewrite Ht. unfold runtime_syscall_handle_alias_count.
  destruct (N.ltb_spec 1 (count_if (same_object h) t)) as [Hal|Hal].
  { apply (clear_at_ok s t w _ h Hs Hh). intros Hf. by eapply file_aliases. }
  cbn [op_event_destroy op_mailbox_destroy g_runtime_fs_stress_ops]. unfold close_destroyed.
  case_if; [by eauto|]. case_if; [by eauto|].
  destruct (N.eqb_spec (h_type h) RUNTIME_HANDLE_TYPE_FILE) as [Hf|Hf].
  - unfold close_file. cbn [op_file_ops g_runtime_fs_stress_ops fop_close g_runtime_fs_stress_file_ops mbind option_bind].
    destruct (fm_open _ _ Hm _ h Hh Hf) as (H1 & used & Hsl & Hu).
    destruct (stress_close_at (h_object h) used (h_owner_pid h) s t w) as (w' & -> & Hok' & Hs'); [done..|].
    cbn [Z.ltb Z.compare]. unfold clear_at. cbn [sys_table runtime_syscall_clear_handle fmap option_fmap option_map].
    eexists _, w'. split_at; [done|done|by apply table_wf_clear|done|]. rewrite Hs'. eapply matched_close; [done|done|done|].
    intros j h' Hj Hh' Hf' Hobj. enough (1 < count_if (same_object h) t) by lia.
    apply (file_aliases t _ (arg0 args - 1) h Hm Hh Hf). eauto 10.
  - unfold close_service. cbn [op_service_close g_runtime_fs_stress_ops].
    destruct (callback_at 0%Z (runtime_syscall_service_close (h_object h)) s t w Hs) as (z & w' & -> & _ & Hs').
    { by apply service_close_keeps. }
    case_if; [by eauto|]. eapply clear_at_ok; [exact Hs'|exact Hh|done].
Qed.

Lemma handle_dup_ok args s t w : system_at s t w → system_ok (sys_handle_dup args ops s).1.
Proof.
  intros Hs. pose proof Hs as (Ht & Hw & Hwf & Hok & Hm). unfold sys_handle_dup. rewrite Ht.
  destruct (runtime_syscall_lookup_handle (Some t) (arg0 args)) as [h|] eqn:Hl; [|by eauto].
  apply lookup_handle_Some in Hl as (Hid & Hh & Hne). cbv zeta. case_if; [by eauto|].
  apply return_handle_ok, (alloc_at _ t w); [done| |intros Hf; by exists (arg0 args - 1), h].
  destruct (table_entry _ Hwf _ _ Hh) as [->|[? _]]; [done|lia].
Qed.

(** ** Processes and services *)

Lemma spawn_process_keeps entry name role w :
  world_ok w → keeps (runtime_management_spawn_process SF base first_entry entry name role) w.
Proof.
  intros [Hf Hm]. unfold runtime_management_spawn_process. apply keeps_gets.
  destruct (spawn_ok SF base first_entry name entry role (w_scheduler w) Hm Hfit) as (s' & pid & E & Hm' & _).
  apply (keeps_lift _ _ _ _ E). by eapply keeps_bind, keeps_bind, keeps_ret.
Qed.

Lemma app_launch_keeps key w :
  world_ok w → names key KString (w_memory w) →
  keeps (runtime_syscall_app_launch SF base first_entry function_address key) w.
Proof.
  intros Hok Hn. unfold runtime_syscall_app_launch. case_if; [by apply keeps_ret|].
  apply keeps_path; [done|]. intros p _.
  destruct (runtime_loader_find _ p) as [i|] eqn:Hi; [|by apply keeps_ret].
  assert (∃ r, aget g_runtime_loader_catalog i = Some r) as (r & Hr).
  { unfold runtime_loader_find in Hi. destruct p; [|done]. apply find_idx_Some in Hi as (r & ? & _). by exists r. }
  apply (keeps_lift _ _ _ _ Hr). unfold runtime_spawn_process_from_task_key.
  destruct (lr_task_key r) as [k|]; [|by apply keeps_ret].
  destruct (runtime_catalog_find _ (Some k)) as [j|] eqn:Hj; [|by apply keeps_ret].
  assert (∃ m, aget (g_runtime_process_catalog function_address) j = Some m) as (m & Hmf).
  { apply find_idx_Some in Hj as (m & ? & _). by exists m. }
  apply (keeps_lift _ _ _ _ Hmf). by apply spawn_process_keeps.
Qed.

Lemma service_open_ok args pid s t w :
  system_at s t w → names (arg0 args) KString (w_memory w) → system_ok (sys_service_open args pid ops s).1.
Proof.
  intros Hs Hn. unfold sys_service_open. cbn [op_service_open op_service_close g_runtime_fs_stress_ops].
  case_if; [by eauto|].
  destruct (callback_at (0, 0%Z) (runtime_syscall_service_open (arg0 args)) s t w Hs) as ([object status] & w' & -> & _ & Hs').
  { apply service_open_keeps; [by apply Hs|done]. }
  case_if; [by eauto|].
  assert (system_ok (alloc pid RUNTIME_HANDLE_TYPE_SERVICE object (System (Some t) (Some w'))).1) as Ha.
  { eapply alloc_at; [exact Hs'|by vm_compute|done]. }
  destruct (alloc _ _ _ _) as [s2 id]. cbn in Ha. case_if; [|done]. destruct Ha as (t2 & w2 & Hs2).
  destruct (callback_at 0%Z (runtime_syscall_service_close object) s2 t2 w2 Hs2) as (z & w3 & -> & _ & Hs3); [|by eauto].
  apply service_close_keeps, Hs2.
Qed.

Lemma service_request_ok object request response s t w :
  system_at s t w → names response KWord (w_memory w) →
  system_ok (runtime_syscall_service_request request_sync object request response s).1.
Proof.
  intros Hs Hn. unfold runtime_syscall_service_request.
  destruct (callback_at (inl 0%Z) (service_request_provider object response) s t w Hs) as (r & w' & -> & E & Hs').
  { apply request_provider_keeps, Hs. }
  destruct r as [status|provider]; [by eauto|].
  assert (response ≠ 0 ∧ w_memory w' = w_memory w) as [Hr Hmem].
  { revert E. unfold service_request_provider. destruct (N.eqb_spec response 0); [done|].
    unfold mbind, manage_bind, gets. destruct (runtime_service_session_info_of _ _ _) as [[| |] [session|]]; try done.
    destruct (provider_pid_ok w) as (pid & ->); [apply Hs|]. case_if.
    - by destruct (runtime_service_session_invalidate_provider _ _).
    - by intros [= _ <-]. }
  destruct (exchange_keeps provider request _ t w' Hs') as (t2 & w2 & Hs2 & Hn2).
  destruct (request_sync provider request _) as [s2 [value|]]; [|by eauto].
  destruct (callback_at () (try_memory (store_object response (MemWord value))) s2 t2 w2 Hs2)
    as (u & w3 & -> & _ & Hs3); [|by eauto].
  assert (keeps (try_memory (store_object response (MemWord value)) ≫= mret) w2) as Hk.
  { apply keeps_store; [apply Hs2|done|cbn; apply Hn2; by rewrite Hmem|intros; by apply keeps_ret]. }
  destruct Hk as (? & w4 & E4 & ? & ?). exists (), w4. unfold mbind, manage_bind, mret, manage_ret in E4.
  destruct (try_memory _ _) as [[[] ?]|]; [|done]. by simplify_eq.
Qed.

(** ** The dispatcher *)

Lemma spawnable_info_keeps index info w :
  world_ok w → names info KSpawnable (w_memory w) → keeps (runtime_syscall_spawnable_info function_address index info) w.
Proof.
  intros Hok Hn. apply (describe_keeps _ _ _ KSpawnable); [done|done| |].
  - intros Hlt. apply fmap_is_Some. by apply aget_is_Some.
  - intros e (m & _ & ->)%fmap_Some. done.
Qed.

Lemma service_info_keeps index info w :
  world_ok w → names info KService (w_memory w) → keeps (runtime_syscall_service_info index info) w.
Proof.
  intros Hok Hn. apply (describe_keeps _ _ _ KService); [done|done| |].
  - intros Hlt. apply fmap_is_Some. by apply aget_is_Some.
  - intros e (m & _ & ->)%fmap_Some. done.
Qed.

Lemma app_info_keeps index info w :
  world_ok w → names info KApp (w_memory w) → keeps (runtime_syscall_app_info index info) w.
Proof.
  intros Hok Hn. unfold runtime_syscall_app_info. cbn [runtime_loader_snapshot].
  apply (describe_keeps _ _ _ KApp); [done|done| |].
  - intros Hlt. apply fmap_is_Some. by apply aget_is_Some.
  - intros e (m & _ & ->)%fmap_Some. done.
Qed.

Ltac ops_fields := cbn [op_process_current_pid op_process_sleep op_process_kill op_process_info
  op_process_spawn_named op_process_spawnable_count op_process_spawnable_info op_service_count
  op_service_info op_service_open op_service_close op_service_request op_app_count op_app_info
  op_app_launch op_event_create op_event_destroy op_event_signal op_mailbox_create op_mailbox_destroy
  op_mailbox_send op_mailbox_receive op_fs_mkdir op_file_ops g_runtime_fs_stress_ops].

(** A callback behind a file handle. *)
Lemma file_callback_ok {A} args (op : runtime_syscall_file_ops (option kernel_world) → option A) f guard
    (call : A → N → callback (option kernel_world) Z) m s t w :
  system_at s t w → op g_runtime_fs_stress_file_ops = Some f →
  (∀ object, call f object = kernel_callback 0%Z (m object)) → (∀ object, keeps (m object) w) →
  system_ok (file_call args ops op guard call s).1.
Proof.
  intros Hs Hf Hc Hk. apply (file_call_ok args ops op f guard call s t w Hs); [done|].
  intros _ object. rewrite Hc. by eapply callback_ok.
Qed.

Lemma count_ok n s t w :
  system_at s t w → system_ok (count (Some (kernel_callback 0 (mret n : kcall N))) s).1.
Proof.
  intros Hs. unfold count. destruct (callback_at 0 (mret n : kcall N) s t w Hs) as (r & w' & -> & _ & Hs'); [|by eauto].
  apply keeps_ret, Hs.
Qed.

Lemma describe_ok f args m s t w :
  system_at s t w → (arg1 args ≠ 0 → f (arg0 args) (arg1 args) = kernel_callback 0%Z m) → keeps m w →
  system_ok (describe (Some f) args s).1.
Proof.
  intros Hs Hf Hk. unfold describe. destruct (N.eqb_spec (arg1 args) 0); [by eauto|]. rewrite Hf by done.
  by eapply callback_ok.
Qed.

(** The calls that work on files, by number. *)
Ltac file_case m keep :=
  eapply (file_callback_ok _ _ _ _ _ m); [eassumption|reflexivity|done|intros; by apply keep].

Lemma file_call_cases n args s t w :
  system_at s t w → call_safe n args (w_memory w) →
  match n with
  | 8 => system_ok (sys_file_read args ops s).1
  | 9 => system_ok (sys_file_write args ops s).1
  | 15 => system_ok (sys_file_stat args ops s).1
  | 16 => system_ok (sys_mkdir args ops s).1
  | 17 => system_ok (sys_file_readdir args ops s).1
  | 18 => system_ok (sys_file_seek args ops s).1
  | 19 => system_ok (sys_file_remove args ops s).1
  | 20 => system_ok (sys_file_rename args ops s).1
  | _ => True
  end.
Proof.
  intros Hs Hsafe. pose proof Hs as (_ & _ & _ & Hok & _). unfold call_safe in Hsafe.
  repeat case_match; simplify_eq/=; try done; destruct_and?; lazymatch goal with
  | |- system_ok (sys_file_read _ _ _).1 =>
      file_case (λ object, runtime_fs_stress_read object (arg1 args) (arg2 args)) read_keeps
  | |- system_ok (sys_file_write _ _ _).1 =>
      file_case (λ object, runtime_fs_stress_write object (arg1 args) (arg2 args)) write_keeps
  | |- system_ok (sys_file_stat _ _ _).1 =>
      file_case (λ object, runtime_fs_stress_stat object (arg1 args)) stat_keeps
  | |- system_ok (sys_file_readdir _ _ _).1 =>
      file_case (λ object, runtime_fs_stress_readdir object (arg1 args)) readdir_keeps
  | |- system_ok (sys_file_seek _ _ _).1 =>
      file_case (λ object, runtime_fs_stress_seek object (i32 (arg1 args)) (arg2 args)) seek_keeps
  | |- system_ok (sys_mkdir _ _ _).1 => by eapply callback_ok, mkdir_keeps
  | |- system_ok (sys_file_remove _ _ _).1 =>
      unfold sys_file_remove; ops_fields; cbn [fop_remove g_runtime_fs_stress_file_ops mbind option_bind];
      case_if; [by eauto|by eapply callback_ok, remove_keeps]
  | |- system_ok (sys_file_rename _ _ _).1 =>
      unfold sys_file_rename; ops_fields; cbn [fop_rename g_runtime_fs_stress_file_ops mbind option_bind];
      case_if; [by eauto|by eapply callback_ok, rename_keeps]
  end.
Qed.

(** The calls about processes, applications and services. *)
Ltac describe_case m keep := eapply (describe_ok _ _ m); [eassumption|done|by apply keep].

Lemma info_call_cases n args s t w pid :
  system_at s t w → call_safe n args (w_memory w) →
  match n with
  | 22 => system_ok (sys_process_spawnable_count ops s).1
  | 23 => system_ok (sys_process_spawnable_info args ops s).1
  | 24 => system_ok (sys_service_count ops s).1
  | 25 => system_ok (sys_service_info args ops s).1
  | 26 => system_ok (sys_service_open args pid ops s).1
  | 27 => system_ok (sys_service_request args ops s).1
  | 28 => system_ok (sys_app_count ops s).1
  | 29 => system_ok (sys_app_info args ops s).1
  | 30 => system_ok (sys_app_launch args pid ops s).1
  | 31 => system_ok (sys_process_info args ops s).1
  | _ => True
  end.
Proof.
  intros Hs Hsafe. pose proof Hs as (_ & _ & _ & Hok & _). unfold call_safe in Hsafe.
  repeat case_match; simplify_eq/=; try done; lazymatch goal with
  | |- system_ok (sys_process_spawnable_info _ _ _).1 =>
      describe_case (runtime_syscall_spawnable_info function_address (arg0 args) (arg1 args)) spawnable_info_keeps
  | |- system_ok (sys_service_info _ _ _).1 =>
      describe_case (runtime_syscall_service_info (arg0 args) (arg1 args)) service_info_keeps
  | |- system_ok (sys_app_info _ _ _).1 =>
      describe_case (runtime_syscall_app_info (arg0 args) (arg1 args)) app_info_keeps
  | |- system_ok (sys_service_open _ _ _ _).1 => by eapply service_open_ok
  | |- system_ok (sys_app_launch _ _ _ _).1 =>
      unfold sys_app_launch; ops_fields; case_if; [by eauto|];
      apply return_process_ok; by eapply callback_ok, app_launch_keeps
  | |- system_ok (sys_service_request _ _ _).1 =>
      apply with_handle_ok; [by eauto|]; intros h; ops_fields; case_if; [by eauto|by eapply service_request_ok]
  | |- system_ok (sys_process_info _ _ _).1 =>
      apply with_handle_ok; [by eauto|]; intros h; ops_fields; case_if;
      [by eauto|by eapply callback_ok, process_info_keeps]
  | |- _ => by eapply count_ok
  end.
Qed.

(** The calls without an operation behind them leave the state alone. *)
Lemma no_handle_call id type s k : system_ok s → (∀ h, k h = (s, RUNTIME_SYSCALL_STATUS_ENOSYS)) →
  system_ok (with_handle type id ops s k).1.
Proof. intros Hs Hk. apply with_handle_ok; [done|]. intros h. by rewrite Hk. Qed.

Lemma dispatch_ok n args s t w :
  system_at s t w → call_safe n args (w_memory w) →
  system_ok (runtime_syscall_dispatch n (Some args) (Some ops) s).1.1.
Proof.
  intros Hs Hsafe. pose proof Hs as (Ht & Hw & Hwf & Hok & Hm). unfold runtime_syscall_dispatch. ops_fields.
  assert (runtime_fs_stress_current_pid s = process_current_pid (w_scheduler w)) as Hpid
    by (unfold runtime_fs_stress_current_pid; by rewrite Hw).
  pose proof (file_call_cases n args s t w Hs Hsafe) as Hfile.
  pose proof (info_call_cases n args s t w (runtime_fs_stress_current_pid s) Hs Hsafe) as Hinfo.
  assert (system_ok s) as Hsok by eauto.
  cbv zeta. unfold dispatch_known. repeat case_match; simplify_eq/=; try done.
  all: try by apply no_handle_call.
  - by eapply file_open_ok.
  - by eapply handle_dup_ok.
  - by eapply handle_close_ok.
  - apply return_handle_ok. eapply alloc_at; [exact Hs|by vm_compute|done].
Qed.

(** ** Runs *)

(** A system call of the running process that is [call_safe], or anything
    else that leaves the table and the file system alone: other processes
    run, memory changes, services come and go. *)
Inductive kernel_step : state → state → Prop :=
  | step_call syscall_number args s w :
      sys_context s = Some w → call_safe syscall_number args (w_memory w) →
      kernel_step s (runtime_syscall_dispatch syscall_number (Some args) (Some ops) s).1.1
  | step_others s w w' :
      sys_context s = Some w → w_fs w' = w_fs w → machine_inv (w_scheduler w') →
      kernel_step s (System (sys_table s) (Some w')).

Lemma kernel_step_ok s s' : kernel_step s s' → system_ok s → system_ok s'.
Proof.
  intros [n args s0 w Hw Hsafe|s0 w w' Hw Hfs Hm] (t & w0 & Hs); pose proof Hs as (Ht & Hw0 & Hwf & Hok & Hmt); simplify_eq.
  - by eapply dispatch_ok.
  - exists t, w'. split_at; [done|done|done| |by rewrite Hfs]. split; [rewrite Hfs; apply Hok|done].
Qed.

Lemma init_matched : files_matched runtime_syscall_table_init (slots runtime_fs_init).
Proof.
  split.
  - intros i h Hi Ht. destruct (table_entry _ init_table_wf i h Hi) as [->|[? _]]; [done|].
    unfold runtime_syscall_table_init in Hi. lookups. apply lookup_replicate in Hi as [-> _]. done.
  - intros k used owner Hk Hu. change (slots runtime_fs_init) with (replicate 8 (0, 0)) in Hk. lookups.
    apply lookup_replicate in Hk as [[= -> ->] _]. done.
Qed.

Lemma runs_ok w s :
  w_fs w = runtime_fs_init → machine_inv (w_scheduler w) →
  rtc kernel_step (System (Some runtime_syscall_table_init) (Some w)) s → system_ok s.
Proof.
  intros Hfs Hm Hsteps.
  assert (system_ok (System (Some runtime_syscall_table_init) (Some w))) as H0.
  { exists runtime_syscall_table_init, w. split_at; [done|done|apply init_table_wf| |].
    - split; [rewrite Hfs; apply init_inv|done].
    - rewrite Hfs. apply init_matched. }
  induction Hsteps as [|s1 s2 s3 Hstep _ IH]; [done|]. by eapply IH, kernel_step_ok.
Qed.

Lemma file_lookup_slot fs object o :
  length (open_files fs) = 8%nat →
  (fs_open_file_lookup fs object = Some o ↔
   1 ≤ object ∧ aget (open_files fs) (object - 1) = Some o ∧ of_used o ≠ 0).
Proof.
  intros Hlen. unfold fs_open_file_lookup, RUNTIME_FS_MAX_OPEN_FILES.
  destruct (N.eqb_spec object 0); [split; [done|lia]|]. destruct (N.ltb_spec 8 object); cbn [orb].
  { split; [done|]. intros (_ & Ho & _). apply aget_Some_lt in Ho. lia. }
  destruct (aget (open_files fs) (object - 1)) as [o'|]; [|naive_solver].
  destruct (N.eqb_spec (of_used o') 0); split; [done|naive_solver|intros; simplify_eq; split_and!; by try lia|naive_solver].
Qed.
End calls.

(** C3: the system calls keep the handles and the open files in step: from
    the start, in every state that any sequence of system calls that are
    [call_safe] leads to, made by any processes and interleaved with anything
    that leaves the table and the file system alone, every call so far was
    defined (no access out of bounds).  A call is safe when every pointer it
    uses names an object of the right type; the path of a [mkdir] is NULL, or
    not empty and, when absolute and not the root, at least four characters
    long; the size of a [write] is below 4294967040; and [remove] and
    [rename] are not given the root under another spelling, such as "//".
    A service request in between keeps the table and the file system in step
    as well (the contract [ExchangeKeeps] of the exchange).  The start is an
    empty handle table, the initial file system, a scheduler that satisfies
    its invariant, and process stacks that lie in the 32-bit address space.
    In every such state [runtime_fs_validate] accepts the file system, every
    file handle of the table names an open file of the handle's owner (there is no
    dangling handle), and every open file has a handle (no file stays open
    behind the table's back). *)
Theorem file_handles_are_open_files SF base first_entry function_address request_sync
    `{!ExchangeKeeps request_sync} w s :
  stacks_fit base → w_fs w = runtime_fs_init → machine_inv (w_scheduler w) →
  rtc (kernel_step SF base first_entry function_address request_sync)
    (System (Some runtime_syscall_table_init) (Some w)) s →
  ∃ t w', sys_table s = Some t ∧ sys_context s = Some w' ∧
    runtime_fs_validate (w_fs w') = Some (0xDFFF, RUNTIME_SYSCALL_STATUS_OK) ∧
    (∀ id h, runtime_syscall_lookup_handle (Some t) id = Some h → h_type h = RUNTIME_HANDLE_TYPE_FILE →
       ∃ o, fs_open_file_lookup (w_fs w') (h_object h) = Some o ∧ of_owner_pid o = h_owner_pid h) ∧
    (∀ object o, fs_open_file_lookup (w_fs w') object = Some o →
       ∃ id h, runtime_syscall_lookup_handle (Some t) id = Some h ∧
         h_type h = RUNTIME_HANDLE_TYPE_FILE ∧ h_object h = object).
Proof.
  intros Hfit Hfs Hm Hsteps.
  destruct (runs_ok SF base first_entry function_address request_sync Hfit w s Hfs Hm Hsteps)
    as (t & w' & Ht & Hw & Hwf & [Hi _] & [Hopen Hhandle]).
  pose proof (typed_files _ (inv_typed _ Hi)) as Hlen.
  exists t, w'. split; [done|]. split; [done|]. split; [by apply validate_ok_wf; apply Hi|]. split.
  - intros id h (_ & Hh & _)%lookup_handle_Some Hty. destruct (Hopen _ h Hh Hty) as (H1 & used & Hs & Hu).
    rewrite aget_slots in Hs. apply fmap_Some in Hs as (o & Ho & [= -> Hown]). exists o.
    split; [|done]. by apply file_lookup_slot.
  - intros object o (H1 & Ho & Hu)%(file_lookup_slot _ _ _ Hlen).
    destruct (Hhandle (object - 1) (of_used o) (of_owner_pid o)) as (i & h & Hi' & Hty & Hobj); [by rewrite aget_slots, Ho|done|].
    exists (i + 1), h. split; [|split; [done|lia]]. apply lookup_handle_Some.
    pose proof (aget_Some_lt _ _ _ Hi') as Hlt. rewrite (table_length _ Hwf) in Hlt.
    replace (i + 1 - 1) with i by lia. split; [lia|]. split; [done|]. by rewrite Hty.
Qed.

(** * Concrete runs of the kernel's system calls

    The witness of the theorem about handles and open files, and a service
    handle that outlives its session. *)

(** A service that answers at once. *)
Definition demo_exchange (provider request : N) : callback (option kernel_world) (option N) :=
  λ s, (s, Some (u32 (2 * request))).

#[export] Instance demo_exchange_keeps : ExchangeKeeps demo_exchange.
Proof. intros provider request s t w Hs. by exists t, w. Qed.

Definition demo_address (f : string) : N := 1000 + N.of_nat (String.length f).

(** Processes 1 and 2 exist; 1 runs. *)
Definition running_1 : scheduler := m_scheduler (demo_run [spawn_a; spawn_b; ERun quiet]).
(** After [process_yield] 2 runs. *)
Definition running_2 : scheduler := m_scheduler (demo_run [spawn_a; spawn_b; ERun quiet; ECall quiet CYield]).

Definition demo_memory : memory :=
  list_to_map [(100, MemString (cs "/a")); (200, MemBytes [10; 20; 30]); (300, MemBytes [0; 0; 0]);
               (400, MemString (cs "accum")); (500, MemWord 0)].

Definition demo_world (s : scheduler) : kernel_world :=
  World s runtime_fs_init (replicate 8 (SessionEntry 0 0 0 0 0)) 2 demo_memory [].

Definition demo_system : state := System (Some runtime_syscall_table_init) (Some (demo_world running_1)).

Definition demo_dispatch (n a0 a1 a2 : N) : state → state * Z := λ s,
  let '(s, _, status) := runtime_fs_stress_dispatch false demo_base 1 demo_address demo_exchange n a0 a1 a2 s in
  (s, status).

(** The statuses of a list of calls. *)
Fixpoint demo_calls (calls : list (N * N * N * N)) (s : state) : state * list Z :=
  match calls with
  | [] => (s, [])
  | (n, a0, a1, a2) :: rest =>
      let '(s, status) := demo_dispatch n a0 a1 a2 s in
      let '(s, statuses) := demo_calls rest s in
      (s, status :: statuses)
  end.

(** Create and open "/a", write, seek, read back, duplicate, close twice. *)
Definition demo_script : list (N * N * N * N) :=
  [(7, 100, 7, 0); (9, 1, 200, 3); (18, 1, 0, 0); (8, 1, 300, 3); (13, 1, 0, 0); (3, 1, 0, 0); (3, 2, 0, 0); (8, 2, 300, 3)].

Example demo_script_runs :
  let '(s, statuses) := demo_calls demo_script demo_system in
  statuses = [1; 3; 0; 3; 2; 0; 0; -9]%Z ∧
  (λ w, w_memory w !! 300) <$> sys_context s = Some (Some (MemBytes [10; 20; 30])).
Proof. vm_compute. done. Qed.

Lemma running_1_inv : machine_inv running_1.
Proof.
  unfold running_1. pose proof (demo_run_ok [spawn_a; spawn_b; ERun quiet]) as H. unfold machine_ok in H.
  assert (m_mode (demo_run [spawn_a; spawn_b; ERun quiet]) = Calls) as E by (vm_compute; reflexivity).
  rewrite E in H. apply H.
Qed.

(** The state after the first call of the script, a file opened. *)
Definition demo_opened : state :=
  (runtime_syscall_dispatch 7 (Some (Args 100 7 0 0))
     (Some (g_runtime_fs_stress_ops false demo_base 1 demo_address demo_exchange)) demo_system).1.1.

Lemma demo_opened_step : kernel_step false demo_base 1 demo_address demo_exchange demo_system demo_opened.
Proof.
  apply (step_call false demo_base 1 demo_address demo_exchange 7 (Args 100 7 0 0) demo_system (demo_world running_1)).
  - reflexivity.
  - right. exists (MemString (cs "/a")). split; reflexivity.
Defined.

Lemma file_handles_are_open_files_witness :
  ∃ t w', sys_table demo_opened = Some t ∧ sys_context demo_opened = Some w' ∧
    runtime_fs_validate (w_fs w') = Some (0xDFFF, RUNTIME_SYSCALL_STATUS_OK).
Proof.
  destruct (file_handles_are_open_files false demo_base 1 demo_address demo_exchange (demo_world running_1) demo_opened
    demo_stacks_fit eq_refl running_1_inv (rtc_once _ _ demo_opened_step)) as (t & w' & H1 & H2 & H3 & _).
  exists t, w'. split; [exact H1|]. split; [exact H2|exact H3].
Defined.

(** ** A service handle after the end of its session *)

Definition with_world (f : kernel_world → kernel_world) (s : state) : state := System (sys_table s) (f <$> sys_context s).
Definition set_service_pid (pid : N) (w : kernel_world) : kernel_world :=
  World (w_scheduler w) (w_fs w) (g_runtime_service_sessions w) pid (w_memory w) (w_console w).

(** Process 1 opens the service; the server goes away, a request notices it
    and invalidates the sessions.  The server comes back and process 2 opens
    the service: it gets the number of the old session.  The handle of
    process 1 now names the session of process 2: a request through it is
    answered, and closing it closes the session of process 2, whose next
    request fails. *)
Lemma stale_service_handle :
  let '(s, first) := demo_calls [(26, 400, 0, 0)] demo_system in
  let '(s, second) := demo_calls [(27, 1, 5, 500)] (with_world (set_service_pid 0) s) in
  let '(s, third) := demo_calls [(26, 400, 0, 0); (27, 2, 5, 500)]
                       (with_world (set_service_pid 2 ∘ set_scheduler running_2) s) in
  let '(s, fourth) := demo_calls [(27, 1, 5, 500); (3, 1, 0, 0)] (with_world (set_scheduler running_1) s) in
  let '(s, fifth) := demo_calls [(27, 2, 5, 500)] (with_world (set_scheduler running_2) s) in
  first = [1]%Z ∧ second = [RUNTIME_SYSCALL_STATUS_ESRCH] ∧ third = [2; RUNTIME_SYSCALL_STATUS_OK]%Z ∧
  fourth = [RUNTIME_SYSCALL_STATUS_OK; RUNTIME_SYSCALL_STATUS_OK] ∧ fifth = [RUNTIME_SYSCALL_STATUS_EBADF].
Proof. vm_compute. done. Qed.
