(* ===== verification/KernelFsStress.v ===== *)
(** * The file-system self-tests of the kernel ([kernel/kernel.c])

    [process_fs_stress], which the boot configuration can start as a process,
    [runtime_fs_stress_round], a round of system calls, and the checks they
    share.  The state is [struct runtime_fs_stress_state] with the file system
    and the handle table inside [ss_system]; the diagnostic registers are not
    part of it.  A computation is [None] when the code has no defined
    result. *)

From S2P Require Import Prelude ProcessCore Kmem RuntimeFs RuntimeFsImage RuntimeSyscall ReadyQueue Scheduler RuntimeManage KernelSyscalls.

Local Open Scope N_scope.

(** ** State *)

Record runtime_fs_stress_state := StressState {
  ss_system : system (option kernel_world);
  ss_image_buffer : list N;
  ss_rounds_completed : N;
  ss_failures : N;
  ss_last_status : Z;
  ss_last_step : N;
  ss_last_checksum : N;
  ss_last_find_count : N;
  ss_last_image_bytes : N;
  ss_last_image_root_hash : N;
  ss_last_cleanup_count : N;
  ss_complete : N;
  g_runtime_fs_stage1_diag : N * N * N
}.

Definition set_system (v : system (option kernel_world)) (s : runtime_fs_stress_state) : runtime_fs_stress_state :=
  let 'StressState _ b c d e f g h i j k l m := s in StressState v b c d e f g h i j k l m.
Definition set_image_buffer (v : list N) (s : runtime_fs_stress_state) : runtime_fs_stress_state :=
  let 'StressState a _ c d e f g h i j k l m := s in StressState a v c d e f g h i j k l m.
Definition set_rounds_completed (v : N) (s : runtime_fs_stress_state) : runtime_fs_stress_state :=
  let 'StressState a b _ d e f g h i j k l m := s in StressState a b v d e f g h i j k l m.
Definition set_last_checksum (v : N) (s : runtime_fs_stress_state) : runtime_fs_stress_state :=
  let 'StressState a b c d e f _ h i j k l m := s in StressState a b c d e f v h i j k l m.
Definition set_last_find_count (v : N) (s : runtime_fs_stress_state) : runtime_fs_stress_state :=
  let 'StressState a b c d e f g _ i j k l m := s in StressState a b c d e f g v i j k l m.
Definition set_last_image (bytes root_hash : N) (s : runtime_fs_stress_state) : runtime_fs_stress_state :=
  let 'StressState a b c d e f g h _ _ k l m := s in StressState a b c d e f g h bytes root_hash k l m.
Definition set_complete (v : N) (s : runtime_fs_stress_state) : runtime_fs_stress_state :=
  let 'StressState a b c d e f g h i j k _ m := s in StressState a b c d e f g h i j k v m.
Definition set_stage1_diag (v : N * N * N) (s : runtime_fs_stress_state) : runtime_fs_stress_state :=
  let 'StressState a b c d e f g h i j k l _ := s in StressState a b c d e f g h i j k l v.

Definition failed (step : N) (status : Z) (s : runtime_fs_stress_state) : runtime_fs_stress_state :=
  let 'StressState a b c d _ _ g h i j k l m := s in StressState a b c (u32 (d + 1)) status step g h i j k l m.

Abbreviation stress := (manage runtime_fs_stress_state).

Definition update (f : runtime_fs_stress_state → runtime_fs_stress_state) : stress unit := λ s, Some ((), f s).

(** A step on the file system and the console. *)
Definition in_kernel {A} (m : kcall A) : stress A := λ s,
  w ← sys_context (ss_system s);
  '(a, w') ← m w;
  Some (a, set_system (System (sys_table (ss_system s)) (Some w')) s).

Definition on_fs {A} (f : runtime_fs → option (runtime_fs * A)) : stress A :=
  in_kernel (λ w, '(fs, a) ← f (w_fs w); Some (a, set_fs fs w)).

Definition log (label : string) (value : N) : stress unit :=
  in_kernel (console_log_u32 (cs "FS") (cs label) value).

(** ** Helpers *)

Fixpoint fill_payload_loop (count : nat) (value : N) : list N :=
  match count with
  | O => []
  | S count' =>
      let value := u32 (u32 (value * 1664525) + 1013904223) in
      u8 (N.shiftr value 24) :: fill_payload_loop count' value
  end.

(** The bytes written to [buffer]. *)
Definition runtime_fs_stress_fill_payload (size round salt : N) : list N :=
  fill_payload_loop (N.to_nat size)
    (N.lxor (N.lxor 0x9E3779B9 round) (u32 (salt * 0x45D9F3B))).

Definition runtime_fs_stress_checksum (buffer : list N) : N :=
  foldl (λ checksum b, u32 (u32 (checksum * 131) + b)) 0 buffer.

Fixpoint runtime_fs_stress_buffer_equal (lhs rhs : list N) (size : nat) : option bool :=
  match size with
  | O => Some true
  | S size' =>
      match lhs, rhs with
      | l :: lhs', r :: rhs' =>
          if negb (l =? r) then Some false else runtime_fs_stress_buffer_equal lhs' rhs' size'
      | _, _ => None
      end
  end.

Definition runtime_fs_stress_expect (step : N) (actual expected : Z) : stress bool :=
  if bool_decide (actual = expected) then mret true
  else
    _ ← update (failed step actual);
    _ ← log "fail_step=" step;
    _ ← log "fail_status=" (u32_of_Z actual);
    _ ← log "expect_status=" (u32_of_Z expected);
    mret false.

Definition runtime_fs_probe_name_equals (a b : cstr) : bool := cstr_equals a b.
Definition runtime_fs_probe_name_is_empty (name : cstr) : bool :=
  match name with [] => true | _ => false end.

(** ** The first check ([runtime_fs_stage1_probe]) *)

(** The three diagnostic words and the status. *)
Abbreviation stage1_failure := (N * N * N * Z)%type.

Definition runtime_fs_stage1_fail (code arg0 arg1 : N) (status : Z) : stage1_failure :=
  (code, arg0, arg1, status).

Definition EINVAL : Z := RUNTIME_SYSCALL_STATUS_EINVAL.

(** A character of a name; after the NUL the name is cleared. *)
Definition name_char (name : cstr) (i : nat) : N := match name !! i with Some c => code c | None => 0 end.
Definition name_word (name : cstr) : N := N.lor (name_char name 0) (N.shiftl (name_char name 1) 8).

(** [Some None]: no check fails. *)
Fixpoint probe_chain (fuel : nat) (fs : runtime_fs) (index current depth : N) : option (option stage1_failure) :=
  match fuel with
  | O => None
  | S fuel' =>
      if current =? 0 then Some None
      else
        n ← aget (nodes fs) current;
        let current := n_parent_index n in
        let depth := depth + 1 in
        if RUNTIME_FS_MAX_NODES <? depth then
          Some (Some (runtime_fs_stage1_fail (N.lor 0xE160 index) current depth EINVAL))
        else
          m ← aget (nodes fs) current;
          if n_used m =? 0 then
            Some (Some (runtime_fs_stage1_fail (N.lor 0xE170 index) current (n_parent_index m) EINVAL))
          else probe_chain fuel' fs index current depth
  end.

(** The first peer of the same name in the same directory behind [index]. *)
Definition probe_peer (fs : runtime_fs) (index : N) (node : runtime_fs_node) : option N :=
  find_idx (λ other peer, (index + 1 <=? other) && nz (n_used peer) &&
                          (n_parent_index peer =? n_parent_index node) &&
                          runtime_fs_probe_name_equals (n_name peer) (n_name node)) (nodes fs).

Definition probe_node (fs : runtime_fs) (index : N) (node : runtime_fs_node) : option (option stage1_failure) :=
  let fail code arg0 arg1 := Some (Some (runtime_fs_stage1_fail (N.lor code index) arg0 arg1 EINVAL)) in
  if n_used node =? 0 then Some None
  else if negb (is_type RUNTIME_FILE_TYPE_DIRECTORY node) && negb (is_type RUNTIME_FILE_TYPE_REGULAR node)
  then fail 0xE110 (n_type node) (n_used node)
  else if runtime_fs_probe_name_is_empty (n_name node) then fail 0xE120 index (n_parent_index node)
  else if RUNTIME_FS_MAX_NODES <=? n_parent_index node
  then fail 0xE130 (n_parent_index node) RUNTIME_FS_MAX_NODES
  else
    parent ← aget (nodes fs) (n_parent_index node);
    if (n_used parent =? 0) || negb (is_type RUNTIME_FILE_TYPE_DIRECTORY parent)
    then fail 0xE140 (n_parent_index node)
           (N.lor (N.land (n_used parent) 0xFFFF) (u32 (N.shiftl (N.land (n_type parent) 0xFFFF) 16)))
    else if RUNTIME_FS_FILE_CAPACITY <? n_size_bytes node
    then fail 0xE150 (n_size_bytes node) RUNTIME_FS_FILE_CAPACITY
    else
      chain ← probe_chain CHAIN_FUEL fs index index 0;
      match chain with
      | Some failure => Some (Some failure)
      | None =>
          Some (match probe_peer fs index node with
                | Some other => Some (runtime_fs_stage1_fail (N.lor 0xE180 index) other
                                        (name_word (n_name node)) RUNTIME_SYSCALL_STATUS_EEXIST)
                | None => None
                end)
      end.

Fixpoint probe_nodes (fs : runtime_fs) (index : N) (l : list runtime_fs_node) : option (option stage1_failure) :=
  match l with
  | [] => Some None
  | node :: l' =>
      result ← probe_node fs index node;
      match result with
      | Some failure => Some (Some failure)
      | None => probe_nodes fs (index + 1) l'
      end
  end.

Definition probe_open_files (fs : runtime_fs) : option stage1_failure :=
  match find_idx (λ _ o, nz (of_used o)) (open_files fs) with
  | None => None
  | Some index =>
      o ← aget (open_files fs) index;
      Some (runtime_fs_stage1_fail (N.lor 0xE200 index) (of_used o) (of_node_index o) RUNTIME_SYSCALL_STATUS_EBADF)
  end.

Definition probe_root (root : runtime_fs_node) : option stage1_failure :=
  let fail code arg0 arg1 := Some (runtime_fs_stage1_fail code arg0 arg1 EINVAL) in
  if n_used root =? 0 then fail 0xE101 (n_used root) 0
  else if negb (is_type RUNTIME_FILE_TYPE_DIRECTORY root) then fail 0xE102 (n_type root) RUNTIME_FILE_TYPE_DIRECTORY
  else if nz (n_parent_index root) then fail 0xE103 (n_parent_index root) 0
  else if negb (str_eqb (n_name root) (cs "/")) then fail 0xE104 (name_word (n_name root)) 0x2F
  else None.

(** The three diagnostic words and the status.  [runtime_fs_validate] comes
    last; if it fails there, the words are its own, whose arguments are not
    modelled ([probe_accepts] shows that it never does). *)
Definition runtime_fs_stage1_probe (fs : option runtime_fs) : option stage1_failure :=
  match fs with
  | None => Some (runtime_fs_stage1_fail 0xE100 0 0 EINVAL)
  | Some fs =>
      root ← aget (nodes fs) 0;
      match probe_root root with
      | Some f => Some f
      | None =>
          result ← probe_nodes fs 1 (tail (nodes fs));
          match result with
          | Some f => Some f
          | None =>
              match probe_open_files fs with
              | Some f => Some f
              | None =>
                  '(_, status) ← runtime_fs_validate fs;
                  if bool_decide (status = RUNTIME_SYSCALL_STATUS_OK) then Some (0xE1FF, 0, 0, status) else None
              end
          end
      end
  end.

(** ** Steps that can leave the function *)

(** A step goes on with a value or leaves the function with [E]. *)
Definition exiting (E A : Type) : Type := runtime_fs_stress_state → option ((E + A) * runtime_fs_stress_state).
#[export] Instance exiting_ret E : MRet (exiting E) := λ A a s, Some (inr a, s).
#[export] Instance exiting_bind E : MBind (exiting E) := λ A B f m s,
  '(r, s) ← m s;
  match r with inl e => Some (inl e, s) | inr a => f a s end.

Definition run {E A} (m : stress A) : exiting E A := λ s, '(a, s) ← m s; Some (inr a, s).
Definition leave {E A} (e : E) : exiting E A := λ s, Some (inl e, s).

Definition check {E} (e : E) (m : stress bool) : exiting E () :=
  ok ← run m;
  if (ok : bool) then mret () else leave e.

Definition expect {E} (e : E) (step : N) (actual expected : Z) : exiting E () :=
  check e (runtime_fs_stress_expect step actual expected).

(** A failure that only the state records, or that is printed as well. *)
Definition fail_quietly {E A} (e : E) (step : N) (status : Z) : exiting E A :=
  _ ← run (update (failed step status));
  leave e.
Definition fail_printed {E A} (e : E) (step : N) (status : Z) : exiting E A :=
  _ ← run (update (failed step status));
  _ ← run (log "fail_step=" step);
  leave e.

(** ** The image round trip *)

Definition export_image : stress (N * N * Z) := λ s,
  w ← sys_context (ss_system s);
  result ← runtime_fs_image_export (w_fs w) (Some (ss_image_buffer s)) RUNTIME_FS_IMAGE_MAX_BYTES true;
  match result with
  | ExportFails status => Some ((0, 0, status), s)
  | Exports image bytes_written layout =>
      Some ((bytes_written, il_root_hash layout, RUNTIME_SYSCALL_STATUS_OK), set_image_buffer image s)
  end.

(** The diagnostics, the status and the layout if it is written. *)
Definition validate_image_buffer (image_bytes : N)
  : stress (image_diagnostics * Z * option runtime_fs_image_layout) := λ s,
  result ← runtime_fs_image_validate (Some (ss_image_buffer s)) image_bytes;
  Some (result, s).

Definition import_image (image_bytes : N) : stress (Z * option runtime_fs_image_layout) := λ s,
  w ← sys_context (ss_system s);
  '(fs, status, layout) ← runtime_fs_image_import (w_fs w) (Some (ss_image_buffer s)) image_bytes;
  Some ((status, layout), set_system (System (sys_table (ss_system s)) (Some (set_fs fs w))) s).

(** The number of bytes and the root hash of the image. *)
Definition image_steps {E} (e : E) (export_step validate_step import_step : N) (show : bool) : exiting E (N * N) :=
  '(image_bytes, root_hash, status) ← run export_image;
  _ ← expect e export_step status RUNTIME_SYSCALL_STATUS_OK;
  '(diag, status, layout) ← run (validate_image_buffer image_bytes);
  _ ← (if show then
         _ ← run (log "image_code=" (dg_code diag));
         _ ← run (log "image_arg0=" (dg_arg0 diag));
         run (log "image_arg1=" (dg_arg1 diag))
       else mret ());
  _ ← expect e validate_step status RUNTIME_SYSCALL_STATUS_OK;
  let root_hash := from_option il_root_hash root_hash layout in
  '(status, layout) ← run (import_image image_bytes);
  _ ← expect e import_step status RUNTIME_SYSCALL_STATUS_OK;
  mret (image_bytes, from_option il_root_hash root_hash layout).

Definition runtime_fs_stress_checkpoint_roundtrip {E} (e : E) (export_step validate_step import_step : N)
  : exiting E () :=
  '(image_bytes, root_hash) ← image_steps e export_step validate_step import_step false;
  run (update (set_last_image image_bytes root_hash)).

(** ** Preparing the file system ([runtime_fs_stress_init_fs_chunked]) *)

Definition SIZEOF_RUNTIME_FS : N := 4928.
Definition RUNTIME_FS_STRESS_INIT_CHUNK_BYTES : N := 32.
(** More than the bytes of a chunk, and more than the chunks. *)
Definition CHUNK_FUEL : nat := 160.

Fixpoint zero_chunk (fuel : nat) (offset chunk_end : N) (bytes : list N) : option (N * list N) :=
  match fuel with
  | O => None
  | S fuel' =>
      if offset <? chunk_end then
        bytes ← aset bytes offset 0;
        zero_chunk fuel' (offset + 1) chunk_end bytes
      else Some (offset, bytes)
  end.

(** The structure that an array of zero bytes holds. *)
Definition zero_fs : runtime_fs :=
  Fs (replicate (N.to_nat RUNTIME_FS_MAX_NODES) cleared_node)
     (replicate (N.to_nat RUNTIME_FS_MAX_OPEN_FILES) cleared_file).

(** The assignments to [nodes[0]] behind the loop; they leave the size and
    the contents as they are. *)
Definition init_root (n : runtime_fs_node) : runtime_fs_node :=
  Node 1 RUNTIME_FILE_TYPE_DIRECTORY 0 0 493 (n_size_bytes n) (cs "/") (n_data n).

(** The two diagnostic arguments of [runtime_fs_mkdir] on a path that is
    absolute and not the root. *)
Definition runtime_fs_mkdir_diag_args (fs : runtime_fs) (current_pid : N) (path : cstr) : option (N * N) :=
  match fs_resolve_path fs path with
  | Some node_index => Some (node_index, current_pid)
  | None =>
      word1 ← path_word path 1; _ ← path_word path 3;
      parent ← fs_resolve_parent_path fs path;
      match parent with
      | inl status => Some (u32_of_Z status, word1)
      | inr (parent_index, leaf_name) =>
          parent_node ← aget (nodes fs) parent_index;
          if negb (fs_node_owner_allows parent_node current_pid) then Some (parent_index, n_owner_pid parent_node)
          else match fs_alloc_node fs with
          | None => Some (RUNTIME_FS_MAX_NODES, current_pid)
          | Some (node_index, _) => Some (node_index, parent_index)
          end
      end
  end.

Definition g_fs_path_stress_root : cstr := cs "/stress".
Definition g_fs_path_stress_logs : cstr := cs "/stress/logs".
Definition g_fs_path_stress_a : cstr := cs "/stress/a.bin".
Definition g_fs_path_stress_missing : cstr := cs "/stress/missing.bin".
Definition g_fs_path_stress_b : cstr := cs "/stress/logs/b.bin".
Definition g_fs_path_stress_boot : cstr := cs "/stress/boot.txt".
Definition g_fs_payload_boot : list N := code <$> cs "TENSORFS".

(** Where [process_fs_stress] goes on: at its label [fs_done] with
    [file_object], or in [panic_halt]. *)
Inductive fs_exit := FsDone (file_object : N) | FsPanic.

Definition create_read_write : N := N.lor (N.lor RUNTIME_FILE_OPEN_CREATE RUNTIME_FILE_OPEN_WRITE) RUNTIME_FILE_OPEN_READ.

Definition reset_counters (s : runtime_fs_stress_state) : runtime_fs_stress_state :=
  StressState (ss_system s) (ss_image_buffer s) 0 0 0 0 0 0 0 0 0 0 (0, 0, 0).

Definition set_failures (failures step : N) (status : Z) (s : runtime_fs_stress_state) : runtime_fs_stress_state :=
  let 'StressState a b c _ _ _ g h i j k l m := s in StressState a b c failures status step g h i j k l m.

(** The system calls of a round. *)
Definition RUNTIME_SYSCALL_HANDLE_CLOSE : N := 3.
Definition RUNTIME_SYSCALL_FILE_OPEN : N := 7.
Definition RUNTIME_SYSCALL_FILE_READ : N := 8.
Definition RUNTIME_SYSCALL_FILE_WRITE : N := 9.
Definition RUNTIME_SYSCALL_FILE_STAT : N := 15.
Definition RUNTIME_SYSCALL_MKDIR : N := 16.
Definition RUNTIME_SYSCALL_FILE_SEEK : N := 18.
Definition RUNTIME_SYSCALL_FILE_REMOVE : N := 19.
Definition RUNTIME_SYSCALL_FILE_RENAME : N := 20.
Definition RUNTIME_FS_STRESS_PAYLOAD_A : N := 48.
Definition RUNTIME_FS_STRESS_PAYLOAD_B : N := 24.

Section tests.
(** The bytes of the structure, and what has become of the scheduler when a
    call comes back that lets other processes run: an interrupt window or
    [process_yield].  The other processes do not touch the file system of the
    test, its handle table or its memory. *)
Context (fs_bytes : runtime_fs → list N) (take_window yielded : scheduler → scheduler).

Definition on_scheduler (f : scheduler → scheduler) : stress () :=
  in_kernel (modify (λ w, set_scheduler (f (w_scheduler w)) w)).

Fixpoint init_chunks (fuel : nat) (offset : N) (bytes : list N) : stress (list N) := λ s,
  match fuel with
  | O => None
  | S fuel' =>
      if offset <? SIZEOF_RUNTIME_FS then
        let chunk_end := offset + RUNTIME_FS_STRESS_INIT_CHUNK_BYTES in
        let chunk_end := if SIZEOF_RUNTIME_FS <? chunk_end then SIZEOF_RUNTIME_FS else chunk_end in
        '(offset, bytes) ← zero_chunk CHUNK_FUEL offset chunk_end bytes;
        '(_, s) ← on_scheduler take_window s;
        init_chunks fuel' offset bytes s
      else Some (bytes, s)
  end.

Definition runtime_fs_stress_init_fs_chunked : stress N :=
  fs ← in_kernel (gets w_fs);
  bytes ← init_chunks CHUNK_FUEL 0 (fs_bytes fs);
  if forallb (N.eqb 0) bytes then
    _ ← in_kernel (modify (set_fs (upd_node 0 init_root zero_fs)));
    mret 1
  else undefined.

(** ** The process ([process_fs_stress]) *)

Definition probe_fs : stress (N * N * N * Z) := λ s,
  w ← sys_context (ss_system s);
  '(code, arg0, arg1, status) ← runtime_fs_stage1_probe (Some (w_fs w));
  Some ((code, arg0, arg1, status), set_stage1_diag (code, arg0, arg1) s).

Definition validate_fs : stress Z :=
  in_kernel (λ w, '(_, status) ← runtime_fs_validate (w_fs w); Some (status, w)).

Definition mkdir_stress_root (current_pid : N) : stress (N * N * N * Z) :=
  on_fs (λ fs,
    args ← runtime_fs_mkdir_diag_args fs current_pid g_fs_path_stress_root;
    '(fs, diag, status) ← runtime_fs_mkdir fs current_pid (Some g_fs_path_stress_root) 493;
    Some (fs, (diag, args.1, args.2, status))).

Definition log_status (label : string) (status : Z) : exiting fs_exit () := run (log label (u32_of_Z status)).

(** Up to the first file. *)
Definition fs_stress_prepare (current_pid : N) : exiting fs_exit () :=
  prepared ← run runtime_fs_stress_init_fs_chunked;
  if prepared =? 0 then leave (FsDone 0)
  else
    '(code, arg0, arg1, status) ← run probe_fs;
    _ ← (if negb (bool_decide (status = RUNTIME_SYSCALL_STATUS_OK)) then
           _ ← log_status "status=" status;
           _ ← run (log "diag_code=" code);
           _ ← run (log "diag_arg0=" arg0);
           _ ← run (log "diag_arg1=" arg1);
           _ ← run (update (set_failures 1 1 status));
           leave FsPanic
         else mret ());
    '(code, arg0, arg1, status) ← run (mkdir_stress_root current_pid);
    _ ← log_status "status=" status;
    _ ← run (log "diag_code=" code);
    _ ← run (log "diag_arg0=" arg0);
    _ ← run (log "diag_arg1=" arg1);
    if negb (bool_decide (status = RUNTIME_SYSCALL_STATUS_OK)) then fail_quietly FsPanic 2 status
    else mret ().

Definition fs_stress_file (current_pid : N) : exiting fs_exit () :=
  '(file_object, status) ← run (on_fs (λ fs,
    '(fs, file_object, status) ← runtime_fs_open fs current_pid (Some g_fs_path_stress_boot) create_read_write true;
    Some (fs, (default 0 file_object, status))));
  _ ← log_status "open_status=" status;
  _ ← (if negb (bool_decide (status = RUNTIME_SYSCALL_STATUS_OK)) then fail_quietly (FsDone file_object) 3 status
       else mret ());
  status ← run (on_fs (λ fs, runtime_fs_write fs file_object (Some g_fs_payload_boot) 8));
  _ ← log_status "write_status=" status;
  _ ← expect (FsDone file_object) 4 status 8;
  status ← run (on_fs (λ fs, runtime_fs_seek fs file_object 0 RUNTIME_FILE_SEEK_SET));
  _ ← log_status "seek_status=" status;
  _ ← expect (FsDone file_object) 5 status 0;
  '(read_buffer, status) ← run (on_fs (λ fs,
    '(fs, bytes, status) ← runtime_fs_read fs file_object true 8; Some (fs, (bytes, status))));
  _ ← log_status "read_status=" status;
  _ ← expect (FsDone file_object) 6 status 8;
  equal ← run (lift (runtime_fs_stress_buffer_equal read_buffer g_fs_payload_boot 8));
  _ ← (if negb equal then fail_quietly (FsDone file_object) 7 (-1) else mret ());
  _ ← run (update (set_last_checksum (runtime_fs_stress_checksum read_buffer)));
  status ← run (on_fs (λ fs, Some (runtime_fs_close fs file_object)));
  _ ← log_status "close_status=" status;
  expect (FsDone 0) 8 status RUNTIME_SYSCALL_STATUS_OK.

Definition fs_stress_image : exiting fs_exit () :=
  status ← run validate_fs;
  _ ← expect (FsDone 0) 9 status RUNTIME_SYSCALL_STATUS_OK;
  '(image_bytes, root_hash) ← image_steps (FsDone 0) 10 11 12 true;
  run (update (set_last_image image_bytes root_hash ∘ set_rounds_completed 1)).

(** What is left to do at [fs_done], before [task_exit]. *)
Definition fs_stress_done (file_object : N) : stress () :=
  _ ← (if nz file_object then on_fs (λ fs, Some (runtime_fs_close fs file_object)) else mret 0%Z);
  update (λ s, set_complete (if ss_failures s =? 0 then 1 else 0) s).

Inductive fs_stress_end := FsStressExits | FsStressPanics.

Definition process_fs_stress : stress fs_stress_end := λ s,
  '(current_pid, s) ← in_kernel current_pid s;
  '(_, s) ← log "pid=" current_pid s;
  '(r, s) ← (_ ← fs_stress_prepare current_pid; _ ← fs_stress_file current_pid; fs_stress_image)
              (reset_counters s);
  match r with
  | inl FsPanic => Some (FsStressPanics, s)
  | inl (FsDone file_object) => '(_, s) ← fs_stress_done file_object s; Some (FsStressExits, s)
  | inr _ => '(_, s) ← fs_stress_done 0 s; Some (FsStressExits, s)
  end.

(** ** A round of system calls ([runtime_fs_stress_round]) *)

Context (CONFIG_RUNTIME_SINGLE_FOREGROUND : bool) (stacks_base task_bootstrap_first_entry_asm : N)
        (function_address : string → N)
        (request_sync : N → N → callback (option kernel_world) (option N))
        (object_address : string → N).

Definition dispatch (syscall_number arg0 arg1 arg2 : N) : exiting () Z := λ s,
  let '(system, _, status) := runtime_fs_stress_dispatch CONFIG_RUNTIME_SINGLE_FOREGROUND stacks_base
    task_bootstrap_first_entry_asm function_address request_sync syscall_number arg0 arg1 arg2 (ss_system s) in
  Some (inr status, set_system system s).

(** The call of step [step] must return [expected]. *)
Definition call_step (step syscall_number arg0 arg1 arg2 : N) (expected : Z) : exiting () () :=
  status ← dispatch syscall_number arg0 arg1 arg2;
  expect () step status expected.

(** An open that must return a handle. *)
Definition open_step (step : N) (path : string) (flags : N) : exiting () N :=
  status ← dispatch RUNTIME_SYSCALL_FILE_OPEN (object_address path) flags 0;
  if (status <=? 0)%Z then fail_quietly () step status else mret (Z.to_N status).

Definition validate_step (step : N) : exiting () () :=
  status ← run validate_fs;
  expect () step status RUNTIME_SYSCALL_STATUS_OK.

(** An object with a name: a string constant or a local variable. *)
Definition place (name : string) (object : memory_object) : exiting () () :=
  run (in_kernel (modify (λ w, set_memory (<[object_address name := object]> (w_memory w)) w))).
Definition bytes_at (name : string) : exiting () (list N) :=
  run (in_kernel (λ w, match w_memory w !! object_address name with Some (MemBytes b) => Some (b, w) | _ => None end)).
Definition stat_at (name : string) : exiting () runtime_file_stat :=
  run (in_kernel (λ w, match w_memory w !! object_address name with Some (MemStat b) => Some (b, w) | _ => None end)).

Definition place_paths : exiting () () :=
  _ ← place "g_fs_path_stress_root" (MemString g_fs_path_stress_root);
  _ ← place "g_fs_path_stress_logs" (MemString g_fs_path_stress_logs);
  _ ← place "g_fs_path_stress_a" (MemString g_fs_path_stress_a);
  _ ← place "g_fs_path_stress_missing" (MemString g_fs_path_stress_missing);
  place "g_fs_path_stress_b" (MemString g_fs_path_stress_b).

(** The read of steps [step] and [step + 1], which gives the bytes read. *)
Definition read_step (step : N) (file_handle : N) (expected : list N) (status : Z) : exiting () (list N) :=
  _ ← call_step step RUNTIME_SYSCALL_FILE_READ file_handle (object_address "read_buffer") 60 60;
  read_buffer ← bytes_at "read_buffer";
  equal ← run (lift (runtime_fs_stress_buffer_equal read_buffer expected 60));
  if (equal : bool) then mret read_buffer else fail_printed () (step + 1) status.

(** Steps 0 to 2: the directories. *)
Definition round_directories : exiting () () :=
  _ ← run (in_kernel (modify (set_fs runtime_fs_init)));
  _ ← run (update (λ s, set_system (System (Some runtime_syscall_table_init) (sys_context (ss_system s))) s));
  _ ← validate_step 0;
  _ ← call_step 1 RUNTIME_SYSCALL_MKDIR (object_address "g_fs_path_stress_root") 493 0 RUNTIME_SYSCALL_STATUS_OK;
  _ ← call_step 2 RUNTIME_SYSCALL_MKDIR (object_address "g_fs_path_stress_logs") 493 0 RUNTIME_SYSCALL_STATUS_OK;
  _ ← validate_step 2;
  run (on_scheduler yielded).

(** Steps 3 to 11: a file is written and read back; its handle. *)
Definition round_file (payload_a payload_b expected : list N) : exiting () N :=
  file_handle ← open_step 3 "g_fs_path_stress_a" create_read_write;
  _ ← place "payload_a" (MemBytes payload_a);
  _ ← call_step 4 RUNTIME_SYSCALL_FILE_WRITE file_handle (object_address "payload_a") RUNTIME_FS_STRESS_PAYLOAD_A 48;
  _ ← call_step 5 RUNTIME_SYSCALL_FILE_SEEK file_handle (u32_of_Z (-12)) RUNTIME_FILE_SEEK_END 36;
  _ ← place "payload_b" (MemBytes payload_b);
  _ ← call_step 6 RUNTIME_SYSCALL_FILE_WRITE file_handle (object_address "payload_b") RUNTIME_FS_STRESS_PAYLOAD_B 24;
  _ ← validate_step 6;
  _ ← call_step 7 RUNTIME_SYSCALL_FILE_SEEK file_handle 0 RUNTIME_FILE_SEEK_SET 0;
  read_buffer ← read_step 8 file_handle expected (-1);
  _ ← run (update (set_last_checksum (runtime_fs_stress_checksum read_buffer)));
  _ ← call_step 10 RUNTIME_SYSCALL_FILE_STAT file_handle (object_address "stat") 0 RUNTIME_SYSCALL_STATUS_OK;
  stat ← stat_at "stat";
  if negb (st_type stat =? RUNTIME_FILE_TYPE_REGULAR) || negb (st_size_bytes stat =? 60)
  then fail_printed () 11 (-2) else mret file_handle.

(** Steps 12 to 15: a second handle, and a file that is not there. *)
Definition round_lookup : exiting () () :=
  lookup_handle ← open_step 12 "g_fs_path_stress_a" RUNTIME_FILE_OPEN_READ;
  let find_count := 1 in
  _ ← call_step 13 RUNTIME_SYSCALL_HANDLE_CLOSE lookup_handle 0 0 RUNTIME_SYSCALL_STATUS_OK;
  _ ← call_step 14 RUNTIME_SYSCALL_FILE_OPEN (object_address "g_fs_path_stress_missing") RUNTIME_FILE_OPEN_READ 0
        RUNTIME_SYSCALL_STATUS_ENOENT;
  let find_count := find_count + 1 in
  _ ← run (update (set_last_find_count find_count));
  if negb (find_count =? 2) then
    _ ← run (update (failed 15 (Z.of_N find_count)));
    _ ← run (log "fail_step=" 15);
    _ ← run (log "find_count=" find_count);
    leave ()
  else mret ().

(** Steps 16 to 21: the open file can be renamed, not removed. *)
Definition round_rename (file_handle : N) (expected : list N) : exiting () () :=
  let path_a := object_address "g_fs_path_stress_a" in
  _ ← call_step 16 RUNTIME_SYSCALL_FILE_REMOVE path_a 0 0 RUNTIME_SYSCALL_STATUS_EBUSY;
  _ ← call_step 17 RUNTIME_SYSCALL_FILE_RENAME path_a (object_address "g_fs_path_stress_b") 0 RUNTIME_SYSCALL_STATUS_OK;
  _ ← validate_step 17;
  _ ← call_step 18 RUNTIME_SYSCALL_FILE_SEEK file_handle 0 RUNTIME_FILE_SEEK_SET 0;
  _ ← read_step 19 file_handle expected (-3);
  call_step 21 RUNTIME_SYSCALL_HANDLE_CLOSE file_handle 0 0 RUNTIME_SYSCALL_STATUS_OK.

(** Steps 25 to 36: truncation, and the tree is taken down. *)
Definition round_removal : exiting () () :=
  let path_b := object_address "g_fs_path_stress_b" in
  let path_logs := object_address "g_fs_path_stress_logs" in
  _ ← call_step 25 RUNTIME_SYSCALL_FILE_REMOVE path_logs 0 0 RUNTIME_SYSCALL_STATUS_ENOTEMPTY;
  file_handle ← open_step 26 "g_fs_path_stress_b"
    (N.lor (N.lor RUNTIME_FILE_OPEN_READ RUNTIME_FILE_OPEN_WRITE) RUNTIME_FILE_OPEN_TRUNCATE);
  _ ← call_step 27 RUNTIME_SYSCALL_FILE_STAT file_handle (object_address "stat") 0 RUNTIME_SYSCALL_STATUS_OK;
  stat ← stat_at "stat";
  _ ← (if negb (st_size_bytes stat =? 0) then fail_printed () 28 (i32 (st_size_bytes stat)) else mret ());
  _ ← call_step 29 RUNTIME_SYSCALL_HANDLE_CLOSE file_handle 0 0 RUNTIME_SYSCALL_STATUS_OK;
  _ ← call_step 30 RUNTIME_SYSCALL_FILE_REMOVE path_b 0 0 RUNTIME_SYSCALL_STATUS_OK;
  _ ← call_step 31 RUNTIME_SYSCALL_FILE_REMOVE path_logs 0 0 RUNTIME_SYSCALL_STATUS_OK;
  _ ← call_step 32 RUNTIME_SYSCALL_FILE_REMOVE (object_address "g_fs_path_stress_root") 0 0 RUNTIME_SYSCALL_STATUS_OK;
  _ ← validate_step 32;
  _ ← runtime_fs_stress_checkpoint_roundtrip () 33 34 35;
  call_step 36 RUNTIME_SYSCALL_FILE_OPEN path_b RUNTIME_FILE_OPEN_READ 0 RUNTIME_SYSCALL_STATUS_ENOENT.

(** The result is whether the round has passed. *)
Definition runtime_fs_stress_round (round : N) : stress bool := λ s,
  let payload_a := runtime_fs_stress_fill_payload RUNTIME_FS_STRESS_PAYLOAD_A round 1 in
  let payload_b := runtime_fs_stress_fill_payload RUNTIME_FS_STRESS_PAYLOAD_B round 2 in
  let expected := take 36 payload_a ++ payload_b in
  '(r, s) ← (_ ← place_paths;
             _ ← place "read_buffer" (MemBytes (replicate 60 0));
             _ ← place "stat" (MemStat (FileStat 0 0 0));
             _ ← round_directories;
             file_handle ← round_file payload_a payload_b expected;
             _ ← round_lookup;
             _ ← round_rename file_handle expected;
             _ ← runtime_fs_stress_checkpoint_roundtrip () 22 23 24;
             round_removal) s;
  Some (match r with inl () => false | inr () => true end, s).

End tests.
