(* ===== verification/KernelFsStressProofs.v ===== *)
(** * The self-tests pass

    What [runtime_fs_stress_init_fs_chunked] prepares, what the first check
    accepts, and that [process_fs_stress] ends with every check passed. *)

From S2P Require Import Prelude RuntimePolicy RuntimeService SchedulerProofs SchedulerOps SchedulerCalls SchedulerMachine SchedulerTheorems KernelSyscallsFiles KernelSyscallsProofs KernelSyscallsTheorems.
From S2P Require Import ProcessCore Kmem RuntimeFs RuntimeFsInv RuntimeFsImage RuntimeFsImageProofs RuntimeFsImageTheorems RuntimeFsImageImport RuntimeSyscall ReadyQueue Scheduler RuntimeManage KernelSyscalls KernelFsStress.

Local Open Scope N_scope.

(** ** The first check *)

(** Two checks agree: both accept, both fail with the same status, or neither
    has a defined result. *)
Definition same_verdict (p : option (option stage1_failure)) (v : option (option (N * Z))) : Prop :=
  match p, v with
  | Some None, Some None => True
  | Some (Some f), Some (Some (_, status)) => f.2 = status ∧ status ≠ RUNTIME_SYSCALL_STATUS_OK
  | None, None => True
  | _, _ => False
  end.

Lemma probe_chain_validates fuel fs index current depth :
  same_verdict (probe_chain fuel fs index current depth) (validate_chain fuel fs index current depth).
Proof.
  revert current depth. induction fuel as [|fuel IH]; intros current depth; [done|]. cbn [probe_chain validate_chain].
  case_if; [done|]. destruct (aget (nodes fs) current) as [n|]; cbn [mbind option_bind]; [|done]. cbv zeta.
  case_if; [done|]. destruct (aget (nodes fs) (n_parent_index n)) as [m|]; cbn [mbind option_bind]; [|done].
  case_if; [done|]. apply IH.
Qed.

Lemma probe_peer_validates fs index node :
  duplicate_sibling fs index node = match probe_peer fs index node with Some _ => true | None => false end.
Proof. done. Qed.

Lemma probe_node_validates fs index node : same_verdict (probe_node fs index node) (validate_node fs index node).
Proof.
  unfold probe_node, validate_node, runtime_fs_probe_name_is_empty, fs_name_is_empty. cbv zeta.
  case_if; [done|]. destruct (_ && _); [done|]. destruct (match n_name node with [] => _ | _ => _ end); [done|].
  destruct (RUNTIME_FS_MAX_NODES <=? n_parent_index node); [done|].
  destruct (aget (nodes fs) (n_parent_index node)) as [parent|]; cbn [mbind option_bind]; [|done].
  destruct (_ || _); [done|]. destruct (RUNTIME_FS_FILE_CAPACITY <? n_size_bytes node); [done|].
  pose proof (probe_chain_validates CHAIN_FUEL fs index index 0) as H. rewrite probe_peer_validates.
  destruct (probe_chain _ _ _ _ _) as [[f|]|], (validate_chain _ _ _ _ _) as [[[c st]|]|]; try done; cbn [mbind option_bind].
  by destruct (probe_peer fs index node).
Qed.

Lemma probe_nodes_validate fs index l : same_verdict (probe_nodes fs index l) (validate_nodes fs index l).
Proof.
  revert index. induction l as [|node l IH]; intros index; [done|]. cbn [probe_nodes validate_nodes].
  pose proof (probe_node_validates fs index node) as H.
  destruct (probe_node fs index node) as [[f|]|], (validate_node fs index node) as [[[c st]|]|]; try done.
  apply IH.
Qed.

Lemma probe_root_validates root :
  root_is_valid root = match probe_root root with Some _ => false | None => true end ∧
  (∀ f, probe_root root = Some f → f.2 = RUNTIME_SYSCALL_STATUS_EINVAL).
Proof.
  unfold root_is_valid, probe_root, name_equals. cbv zeta.
  change ["/"%char] with (cs "/"). assert (cstr_equals (n_name root) (cs "/") = str_eqb (n_name root) (cs "/")) as ->.
  { unfold str_eqb. case_bool_decide as H; [by rewrite H|by apply cstr_equals_neq]. }
  unfold nz. destruct (n_used root =? 0), (is_type _ root), (n_parent_index root =? 0), (str_eqb _ _); cbn [negb andb];
    (split; [done|by intros f [= <-]]).
Qed.

Lemma probe_no_open_files l :
  find_idx (λ _ o, nz (of_used o)) l = None ↔ ∀ o, o ∈ l → of_used o = 0.
Proof.
  unfold find_idx. rewrite find_from_None. split.
  - intros H o [i Hi]%list_elem_of_lookup. specialize (H (N.of_nat i) o). rewrite aget_lookup, Nat2N.id in H.
    specialize (H Hi). unfold nz in H. apply negb_false_iff, N.eqb_eq in H. done.
  - intros H j o Hj. rewrite aget_lookup in Hj. rewrite (H o); [done|]. by eapply list_elem_of_lookup_2.
Qed.

Lemma closed_files_validate fs k l : (∀ o, o ∈ l → of_used o = 0) → validate_open_files fs k l = Some None.
Proof.
  revert k. induction l as [|o l IH]; intros k H; [done|]. cbn [validate_open_files].
  unfold validate_open_file. rewrite (H o) by set_solver. cbn [N.eqb mbind option_bind]. apply IH. set_solver.
Qed.

(** C39: the first check of the self-test is exact: on every file system in
    memory on which [runtime_fs_validate] has a result it has one too; it
    accepts exactly the file systems that [runtime_fs_validate] accepts and
    that have no open file, leaving the code 0xE1FF; and the call of
    [runtime_fs_validate] at its end never fails, so that the words it would
    then report never appear. *)
Theorem probe_accepts fs :
  typed fs → is_Some (runtime_fs_validate fs) →
  ∃ code arg0 arg1 status, runtime_fs_stage1_probe (Some fs) = Some (code, arg0, arg1, status) ∧
    (status = RUNTIME_SYSCALL_STATUS_OK ↔
       runtime_fs_validate fs = Some (0xDFFF, RUNTIME_SYSCALL_STATUS_OK) ∧ ∀ o, o ∈ open_files fs → of_used o = 0) ∧
    (status = RUNTIME_SYSCALL_STATUS_OK → code = 0xE1FF).
Proof.
  intros Ht Hv. unfold runtime_fs_stage1_probe, runtime_fs_validate in *.
  destruct (aget_is_Some (nodes fs) 0) as [root Hr]; [rewrite (typed_nodes _ Ht); lia|]. rewrite Hr in *.
  cbn [mbind option_bind] in *. destruct (probe_root_validates root) as [Hvalid Hf]. rewrite Hvalid in *.
  destruct (probe_root root) as [[[[c a0] a1] st]|]; cbn [negb] in *.
  { specialize (Hf _ eq_refl). cbn in Hf. subst. eexists _, _, _, _. split; [done|]. split; [|done]. split; [done|by intros [? _]]. }
  pose proof (probe_nodes_validate fs 1 (tail (nodes fs))) as H.
  destruct (probe_nodes _ _ _) as [[f|]|], (validate_nodes _ _ _) as [[[c st]|]|]; try done; cbn [mbind option_bind same_verdict] in *;
    [| |by destruct Hv].
  { destruct f as [[[c' a0] a1] st'], H as [E H]. cbn in E. subst. eexists _, _, _, _. split; [done|].
    split; [|done]. split; [done|intros [[=] _]; congruence]. }
  unfold probe_open_files. destruct (find_idx _ (open_files fs)) as [k|] eqn:Hk.
  - apply find_idx_Some in Hk as (o & Ho & Hu & _). rewrite Ho. cbn [mbind option_bind].
    eexists _, _, _, _. split; [done|]. split; [|done]. split; [done|]. intros [_ Hc].
    rewrite (Hc o) in Hu; [done|]. rewrite aget_lookup in Ho. by eapply list_elem_of_lookup_2.
  - pose proof (proj1 (probe_no_open_files _) Hk) as Hc. rewrite (closed_files_validate _ _ _ Hc). cbn [mbind option_bind].
    rewrite bool_decide_eq_true_2 by done.
    eexists _, _, _, _. split; [done|]. split; [by split|done].
Qed.

(** ** The chunks *)

Lemma zero_chunk_run fuel offset chunk_end bytes :
  offset ≤ chunk_end → chunk_end ≤ N.of_nat (length bytes) → (N.to_nat (chunk_end - offset) < fuel)%nat →
  zero_chunk fuel offset chunk_end bytes =
    Some (chunk_end, take (N.to_nat offset) bytes ++ replicate (N.to_nat (chunk_end - offset)) 0 ++
                       drop (N.to_nat chunk_end) bytes).
Proof.
  revert offset bytes. induction fuel as [|fuel IH]; intros offset bytes Hle Hlen Hf; [lia|]. cbn [zero_chunk].
  destruct (N.ltb_spec offset chunk_end) as [Hlt|Hge].
  - rewrite aset_Some by lia. cbn [mbind option_bind]. rewrite IH; [|lia|rewrite length_insert; lia|lia].
    do 2 f_equal. replace (N.to_nat (chunk_end - offset)) with (S (N.to_nat (chunk_end - (offset + 1)))) by lia.
    replace (N.to_nat (offset + 1)) with (S (N.to_nat offset)) by lia. rewrite drop_insert_lt by lia.
    rewrite (take_S_r _ _ 0) by (apply list_lookup_insert_eq; lia). rewrite take_insert_ge by lia.
    rewrite <-app_assoc. done.
  - replace chunk_end with offset by lia. rewrite N.sub_diag. change (replicate _ 0) with (@nil N).
    by rewrite app_nil_l, take_drop.
Qed.

Section chunks.
Context (take_window : scheduler → scheduler).

(** The chunks reach the end of the structure: whatever its bytes were, they
    are zero, and only the scheduler has changed. *)
Lemma init_chunks_run fuel offset bytes s t w :
  ss_system s = System t (Some w) → length bytes = N.to_nat SIZEOF_RUNTIME_FS → offset ≤ SIZEOF_RUNTIME_FS →
  (N.to_nat (SIZEOF_RUNTIME_FS - offset) + 32 ≤ 32 * fuel)%nat →
  ∃ sch, init_chunks take_window fuel offset bytes s =
    Some (take (N.to_nat offset) bytes ++ replicate (N.to_nat (SIZEOF_RUNTIME_FS - offset)) 0,
          set_system (System t (Some (set_scheduler sch w))) s).
Proof.
  revert offset bytes s w. induction fuel as [|fuel IH]; intros offset bytes s w Hs Hlen Hle Hf; [lia|].
  cbn [init_chunks]. destruct (N.ltb_spec offset SIZEOF_RUNTIME_FS) as [Hlt|Hge].
  - cbv zeta. unfold RUNTIME_FS_STRESS_INIT_CHUNK_BYTES.
    set (chunk_end := if SIZEOF_RUNTIME_FS <? offset + 32 then SIZEOF_RUNTIME_FS else offset + 32).
    assert (chunk_end = N.min SIZEOF_RUNTIME_FS (offset + 32)) as Hc by (unfold chunk_end; destruct (N.ltb_spec SIZEOF_RUNTIME_FS (offset + 32)); lia).
    rewrite zero_chunk_run by (unfold CHUNK_FUEL; lia). cbn [mbind option_bind].
    unfold on_scheduler, in_kernel. rewrite Hs. cbn [sys_context mbind option_bind modify sys_table].
    edestruct (IH chunk_end) as [sch ->].
    + by destruct s.
    + rewrite !length_app, length_take, length_replicate, length_drop. lia.
    + lia.
    + lia.
    + exists sch. destruct s as [? b c d e f g h i j k l m]. unfold set_system, set_scheduler. cbn [w_fs w_memory
        w_console g_runtime_service_sessions g_service_pid]. do 2 f_equal.
      rewrite app_assoc, take_app_length' by (rewrite length_app, length_take, length_replicate; lia).
      rewrite <-app_assoc, <-replicate_add. do 2 f_equal. lia.
  - exists (w_scheduler w). replace offset with SIZEOF_RUNTIME_FS by lia. rewrite N.sub_diag.
    change (replicate _ 0) with (@nil N). rewrite app_nil_r, take_ge by lia.
    destruct s as [? b c d e f g h i j k l m], w. cbn in *. subst. done.
Qed.

Lemma init_fs_chunked_run fs_bytes s t w :
  ss_system s = System t (Some w) → (∀ fs, length (fs_bytes fs) = N.to_nat SIZEOF_RUNTIME_FS) →
  ∃ sch, runtime_fs_stress_init_fs_chunked fs_bytes take_window s =
    Some (1, set_system (System t (Some (set_fs runtime_fs_init (set_scheduler sch w)))) s).
Proof.
  intros Hs Hlen. unfold runtime_fs_stress_init_fs_chunked, mbind, manage_bind, in_kernel. rewrite Hs.
  cbn [sys_context sys_table gets].
  destruct (init_chunks_run CHUNK_FUEL 0 (fs_bytes (w_fs w)) (set_system (System t (Some w)) s) t w) as [sch E].
  { by destruct s. } { apply Hlen. } { done. } { unfold CHUNK_FUEL, SIZEOF_RUNTIME_FS. lia. }
  exists sch. cbn [mbind option_bind gets]. rewrite E.
  assert (∀ n, forallb (N.eqb 0) (replicate n 0) = true) as Hz by (by intros n; induction n).
  change (take (N.to_nat 0) _) with (@nil N). rewrite app_nil_l, Hz. destruct s, w. reflexivity.
Qed.
End chunks.

(** ** The file systems of the self-test *)

Definition stress_node (pid : N) : runtime_fs_node :=
  Node 1 RUNTIME_FILE_TYPE_DIRECTORY 0 pid 493 0 (cs "stress") zero_data.
Definition boot_node (pid : N) (bytes : list N) : runtime_fs_node :=
  Node 1 RUNTIME_FILE_TYPE_REGULAR 1 pid 420 (N.of_nat (length bytes)) (cs "boot.txt")
    (bytes ++ drop (length bytes) zero_data).
Definition dir_fs (pid : N) : runtime_fs :=
  Fs (root_node :: stress_node pid :: replicate 14 cleared_node) (replicate 8 cleared_file).
Definition boot_fs (pid : N) (bytes : list N) (file : runtime_fs_open_file) : runtime_fs :=
  Fs (root_node :: stress_node pid :: boot_node pid bytes :: replicate 13 cleared_node)
     (file :: replicate 7 cleared_file).
Definition boot_file (pid offset : N) : runtime_fs_open_file := OpenFile 1 2 pid create_read_write offset 0.

Lemma owner_allowed node pid : n_owner_pid node = pid → fs_node_owner_allows node pid = true.
Proof. intros <-. unfold fs_node_owner_allows. by rewrite N.eqb_refl, !orb_true_r. Qed.

Lemma mkdir_root pid :
  runtime_fs_mkdir runtime_fs_init pid (Some g_fs_path_stress_root) 493 = Some (dir_fs pid, 0xB2FF, RUNTIME_SYSCALL_STATUS_OK) ∧
  runtime_fs_mkdir_diag_args runtime_fs_init pid g_fs_path_stress_root = Some (1, 0).
Proof. split; vm_compute; reflexivity. Qed.

Lemma open_boot pid :
  runtime_fs_open (dir_fs pid) pid (Some g_fs_path_stress_boot) create_read_write true =
    Some (boot_fs pid [] (boot_file pid 0), Some 1, RUNTIME_SYSCALL_STATUS_OK).
Proof.
  unfold runtime_fs_open, open_target.
  assert (fs_resolve_path (dir_fs pid) g_fs_path_stress_boot = None) as -> by (vm_compute; reflexivity).
  assert (fs_resolve_parent_path (dir_fs pid) g_fs_path_stress_boot = Some (inr (1, cs "boot.txt"))) as ->
    by (vm_compute; reflexivity).
  cbn [mbind option_bind]. change (aget (nodes (dir_fs pid)) 1) with (Some (stress_node pid)). cbn [mbind option_bind].
  rewrite owner_allowed by done.
  set (fs1 := boot_fs pid [] cleared_file).
  assert (∀ m, upd_node 2 (created_node RUNTIME_FILE_TYPE_REGULAR 1 pid 420 (cs "boot.txt"))
    (Fs (root_node :: stress_node pid :: fresh_node cleared_node :: replicate 13 cleared_node) m) =
    Fs (nodes fs1) m) as H by (intros; reflexivity).
  assert (fs_alloc_node (dir_fs pid) = Some (2, Fs (root_node :: stress_node pid :: fresh_node cleared_node ::
    replicate 13 cleared_node) (replicate 8 cleared_file))) as -> by (vm_compute; reflexivity).
  rewrite H. change (Fs (nodes fs1) (replicate 8 cleared_file)) with fs1.
  change (negb true || negb (starts_with_slash g_fs_path_stress_boot)) with false.
  change (negb (has_flag create_read_write RUNTIME_FILE_OPEN_CREATE)) with false.
  cbn [negb mbind option_bind]. unfold open_node. change (aget (nodes fs1) 2) with (Some (boot_node pid [])). cbn [mbind option_bind].
  rewrite owner_allowed by done. vm_compute. reflexivity.
Qed.

Lemma boot_steps pid :
  runtime_fs_write (boot_fs pid [] (boot_file pid 0)) 1 (Some g_fs_payload_boot) 8 =
    Some (boot_fs pid g_fs_payload_boot (boot_file pid 8), 8%Z) ∧
  runtime_fs_seek (boot_fs pid g_fs_payload_boot (boot_file pid 8)) 1 0 RUNTIME_FILE_SEEK_SET =
    Some (boot_fs pid g_fs_payload_boot (boot_file pid 0), 0%Z) ∧
  runtime_fs_read (boot_fs pid g_fs_payload_boot (boot_file pid 0)) 1 true 8 =
    Some (boot_fs pid g_fs_payload_boot (boot_file pid 8), g_fs_payload_boot, 8%Z) ∧
  runtime_fs_close (boot_fs pid g_fs_payload_boot (boot_file pid 8)) 1 =
    (boot_fs pid g_fs_payload_boot cleared_file, RUNTIME_SYSCALL_STATUS_OK) ∧
  runtime_fs_validate (boot_fs pid g_fs_payload_boot cleared_file) = Some (0xDFFF, RUNTIME_SYSCALL_STATUS_OK).
Proof. split; [|split; [|split; [|split]]]; vm_compute; reflexivity. Qed.

Lemma boot_exportable pid : pid < 4294967296 → exportable (boot_fs pid g_fs_payload_boot cleared_file).
Proof.
  intros Hp. apply exportable_intro; [done|done| |apply boot_steps| | | |].
  - repeat (apply Forall_cons; split; [done|]). apply Forall_nil. done.
  - apply (bool_decide_eq_true_1 _). vm_compute. reflexivity.
  - unfold boot_fs. cbn [nodes]. repeat (apply Forall_cons; split); try (by intros []); try by apply Forall_nil.
    + intros _. split; [vm_compute; lia|]. split; [apply (bool_decide_eq_true_1 _); vm_compute; reflexivity|done].
    + intros _. split; [vm_compute; lia|]. split; [apply (bool_decide_eq_true_1 _); vm_compute; reflexivity|done].
    + intros _. split; [vm_compute; lia|]. split; [apply (bool_decide_eq_true_1 _); vm_compute; reflexivity|done].
  - apply (bool_decide_eq_true_1 _). vm_compute. reflexivity.
  - apply (bool_decide_eq_true_1 _). vm_compute. reflexivity.
Qed.

(** ** The self-test as a whole *)

(** The file system is [fs], and no check has failed so far. *)
Definition running (t : option handle_table) (fs : runtime_fs) (s : runtime_fs_stress_state) : Prop :=
  (∃ w, ss_system s = System t (Some w) ∧ w_fs w = fs) ∧ ss_failures s = 0.
(** The buffer for the image holds [buffer]. *)
Definition passing (t : option handle_table) (buffer : list N) (fs : runtime_fs) (s : runtime_fs_stress_state) : Prop :=
  running t fs s ∧ ss_image_buffer s = buffer.

(** The step goes on, with a value and a state that satisfy [Q]. *)
Definition passes {E A} (m : exiting E A) (s : runtime_fs_stress_state) (Q : A → runtime_fs_stress_state → Prop) : Prop :=
  ∃ a s', m s = Some (inr a, s') ∧ Q a s'.

Lemma passes_bind {E A B} (m : exiting E A) (k : A → exiting E B) s R Q :
  passes m s R → (∀ a s', R a s' → passes (k a) s' Q) → passes (m ≫= k) s Q.
Proof.
  intros (a & s' & E1 & HR) Hk. destruct (Hk a s' HR) as (b & s'' & E2 & HQ). exists b, s''. split; [|done].
  unfold mbind, exiting_bind. by rewrite E1.
Qed.

Lemma passes_weaken {E A} (m : exiting E A) s R (Q : A → _ → Prop) :
  passes m s R → (∀ a s', R a s' → Q a s') → passes m s Q.
Proof. intros (a & s' & H & HR) HQ. exists a, s'. auto. Qed.

Lemma passes_expect {E} (e : E) step actual expected s :
  actual = expected → passes (expect e step actual expected) s (λ _ s', s' = s).
Proof.
  intros ->. exists (), s. split; [|done]. unfold expect, check, run, mbind, exiting_bind, runtime_fs_stress_expect.
  by rewrite bool_decide_eq_true_2.
Qed.

Section steps.
Context {E : Type} (t : option handle_table) (b : list N).

(** A step inside the kernel. *)
Lemma passes_in_kernel {A} (m : kcall A) a fs fs' s :
  passing t b fs s → (∀ w, w_fs w = fs → ∃ w', m w = Some (a, w') ∧ w_fs w' = fs') →
  passes (run (in_kernel m) : exiting E A) s (λ a' s', a' = a ∧ passing t b fs' s').
Proof.
  intros [[(w & Hs & Hw) Hf] Hl] Hm. destruct (Hm w Hw) as (w' & Em & Hw').
  unfold passes, run, in_kernel. rewrite Hs. cbn [sys_context mbind option_bind]. rewrite Em.
  eexists _, _. split; [done|]. split; [done|]. destruct s. split; [|done]. split; [|done]. by exists w'.
Qed.

Lemma passes_log l v fs s :
  passing t b fs s → passes (run (log l v) : exiting E ()) s (λ _ s', passing t b fs s').
Proof.
  intros Hs. eapply passes_weaken; [eapply passes_in_kernel; [exact Hs|]|by intros ? ? [_ H]; exact H].
  intros w <-. eexists. split; [reflexivity|]. by destruct w.
Qed.

Lemma passes_on_fs {A} (f : runtime_fs → option (runtime_fs * A)) fs fs' a s :
  passing t b fs s → f fs = Some (fs', a) →
  passes (run (on_fs f) : exiting E A) s (λ a' s', a' = a ∧ passing t b fs' s').
Proof.
  intros Hs Ef. eapply passes_in_kernel; [exact Hs|]. intros w <-. rewrite Ef. by eexists.
Qed.

Lemma passes_update f s : passes (run (update f) : exiting E ()) s (λ _ s', s' = f s).
Proof. by exists (), (f s). Qed.

Lemma passes_lift {A} (x : option A) a s :
  x = Some a → passes (run (lift x) : exiting E A) s (λ a' s', a' = a ∧ s' = s).
Proof. intros ->. by exists a, s. Qed.

Lemma passes_validate fs s :
  passing t b fs s → runtime_fs_validate fs = Some (0xDFFF, RUNTIME_SYSCALL_STATUS_OK) →
  passes (run validate_fs : exiting E Z) s (λ status s', status = RUNTIME_SYSCALL_STATUS_OK ∧ passing t b fs s').
Proof.
  intros Hs Hv. eapply passes_in_kernel; [exact Hs|]. intros w <-. exists w. by rewrite Hv.
Qed.

End steps.

(** The next step is a print. *)
Ltac print := eapply passes_bind; [eapply passes_log; eassumption|intros [] ? ?].
(** The next step is a check that holds. *)
Ltac passed := eapply passes_bind; [by apply passes_expect|intros [] ? ->].

Lemma passing_buffer t b b' fs s : passing t b fs s → passing t b' fs (set_image_buffer b' s).
Proof. intros [[Hr Hf] _]. destruct s. done. Qed.

(** What the image round trip leaves when the checks pass. *)
Lemma passes_image_steps {E} (e : E) i j k t b fs s :
  passing t b fs s → length b = N.to_nat RUNTIME_FS_IMAGE_MAX_BYTES → exportable fs →
  passes (image_steps e i j k true) s (λ _ s', running t (restored_fs fs) s').
Proof.
  intros Hs Hlen Hx. destruct (image_roundtrip fs Hx) as (size & _ & Hle & Hi).
  destruct (Hi b RUNTIME_FS_IMAGE_MAX_BYTES ltac:(lia)) as [_ (image & layout & He & Hv & Him)]; [done|].
  unfold image_steps.
  eapply passes_bind with (R := λ r s', r = (size, il_root_hash layout, RUNTIME_SYSCALL_STATUS_OK) ∧ passing t image fs s').
  { pose proof Hs as [[(w & Hsys & Hw) Hf] Hb]. exists (size, il_root_hash layout, RUNTIME_SYSCALL_STATUS_OK), (set_image_buffer image s).
    split; [|split; [done|by eapply passing_buffer]]. unfold run, export_image. rewrite Hsys, Hb.
    cbn [sys_context mbind option_bind]. by rewrite Hw, He. }
  intros ? s1 [-> H1]. passed.
  eapply passes_bind with (R := λ r s', r = (ImageDiag 0xC1FF 0 0, RUNTIME_SYSCALL_STATUS_OK, Some layout) ∧ passing t image fs s').
  { eexists _, s1. split; [|done]. unfold run, validate_image_buffer. destruct H1 as [_ ->]. by rewrite Hv. }
  intros ? s2 [-> H2]. eapply passes_bind with (R := λ _ s', passing t image fs s').
  { do 2 print. by apply passes_log. }
  intros [] s3 H3. passed. cbv zeta.
  eapply passes_bind with (R := λ r s', r = (RUNTIME_SYSCALL_STATUS_OK, Some layout) ∧ running t (restored_fs fs) s').
  { pose proof H3 as [[(w & Hsys & Hw) Hf] Hb]. unfold passes, run, import_image. rewrite Hsys, Hb.
    cbn [sys_context mbind option_bind]. rewrite Hw, Him. eexists _, _. split; [done|]. split; [done|].
    destruct s3. split; [by eexists|done]. }
  intros ? s4 [-> H4]. passed. by eexists _, s4.
Qed.

(** The next step is an operation on the file system, known by [H]. *)
Ltac operation H := eapply passes_bind; [eapply passes_on_fs; [eassumption|rewrite ?H; reflexivity]|intros ? ? [-> ?]].
(** The next step is a test that is not taken. *)
Ltac skipped :=
  match goal with |- passes _ ?s _ => eapply passes_bind with (R := λ _ s', s' = s); [by exists (), s|intros [] ? ->] end.

Lemma file_passes t b pid s :
  passing t b (dir_fs pid) s →
  passes (fs_stress_file pid) s (λ _ s', passing t b (boot_fs pid g_fs_payload_boot cleared_file) s').
Proof.
  intros Hs. destruct (boot_steps pid) as (Hw & Hk & Hr & Hc & _). unfold fs_stress_file, log_status.
  operation (open_boot pid). print. skipped. operation Hw. print. passed. operation Hk. print. passed.
  operation Hr. print. passed.
  eapply passes_bind; [apply (passes_lift _ true); vm_compute; reflexivity|]. intros ? ? [-> ->]. skipped.
  eapply passes_bind; [apply passes_update|]. intros [] ? ->.
  match goal with H : passing _ _ _ ?s |- context [set_last_checksum ?c ?s] =>
    assert (passing t b (boot_fs pid g_fs_payload_boot (boot_file pid 8)) (set_last_checksum c s)) by (by destruct s) end.
  eapply passes_bind; [eapply passes_on_fs; [eassumption|exact (f_equal Some Hc)]|]. intros ? ? [-> ?]. print.
  eapply passes_weaken; [by apply passes_expect|]. by intros ? ? ->.
Qed.

Lemma image_passes t b pid s :
  pid < 4294967296 → length b = N.to_nat RUNTIME_FS_IMAGE_MAX_BYTES →
  passing t b (boot_fs pid g_fs_payload_boot cleared_file) s →
  passes fs_stress_image s (λ _ s', running t (restored_fs (boot_fs pid g_fs_payload_boot cleared_file)) s' ∧
                                    ss_rounds_completed s' = 1).
Proof.
  intros Hp Hb Hs. unfold fs_stress_image.
  eapply passes_bind; [eapply passes_validate; [done|apply boot_steps]|]. intros ? s1 [-> H1]. passed.
  eapply passes_bind; [by eapply passes_image_steps, boot_exportable|]. intros [n h] s2 H2.
  eapply passes_weaken; [apply passes_update|]. intros ? ? ->. by destruct s2.
Qed.

Lemma prepare_passes fs_bytes take_window t b pid s w :
  ss_system s = System t (Some w) → ss_failures s = 0 → ss_image_buffer s = b →
  (∀ fs, length (fs_bytes fs) = N.to_nat SIZEOF_RUNTIME_FS) →
  passes (fs_stress_prepare fs_bytes take_window pid) s (λ _ s', passing t b (dir_fs pid) s').
Proof.
  intros Hsys Hf Hb Hlen. unfold fs_stress_prepare, log_status.
  destruct (init_fs_chunked_run take_window fs_bytes s t w Hsys Hlen) as [sch Hi].
  eapply passes_bind with (R := λ a s', a = 1 ∧ passing t b runtime_fs_init s').
  { unfold passes, run. rewrite Hi. cbn [mbind option_bind]. eexists _, _. split; [done|]. split; [done|].
    destruct s. split; [|done]. split; [|done]. by eexists. }
  intros ? s1 [-> [[(w1 & Hs1 & Hw1) Hf1] Hb1]]. cbn [N.eqb].
  eapply passes_bind with (R := λ a s', a = (0xE1FF, 0, 0, RUNTIME_SYSCALL_STATUS_OK) ∧ passing t b runtime_fs_init s').
  { unfold passes, run, probe_fs. rewrite Hs1. cbn [sys_context mbind option_bind]. rewrite Hw1.
    assert (runtime_fs_stage1_probe (Some runtime_fs_init) = Some (0xE1FF, 0, 0, RUNTIME_SYSCALL_STATUS_OK)) as ->
      by (vm_compute; reflexivity).
    eexists _, _. split; [done|]. split; [done|]. destruct s1. split; [|done]. split; [|done]. by eexists. }
  intros ? s2 [-> H2]. skipped. destruct (mkdir_root pid) as [Hm Hd].
  eapply passes_bind; [eapply passes_on_fs; [done|rewrite Hd; cbn [mbind option_bind]; rewrite Hm; reflexivity]|].
  intros ? s3 [-> H3]. do 4 print. by eexists _, _.
Qed.

Lemma restored_boot pid :
  let fs := restored_fs (boot_fs pid g_fs_payload_boot cleared_file) in
  runtime_fs_validate fs = Some (0xDFFF, RUNTIME_SYSCALL_STATUS_OK) ∧
  fs_resolve_path fs g_fs_path_stress_boot = Some 2 ∧
  aget (nodes fs) 2 = Some (boot_node pid g_fs_payload_boot) ∧ open_files fs = replicate 8 cleared_file.
Proof. split; [|split; [|split]]; vm_compute; reflexivity. Qed.

Lemma test_passes fs_bytes take_window t pid s w :
  ss_system s = System t (Some w) → ss_failures s = 0 → pid < 4294967296 →
  length (ss_image_buffer s) = N.to_nat RUNTIME_FS_IMAGE_MAX_BYTES →
  (∀ fs, length (fs_bytes fs) = N.to_nat SIZEOF_RUNTIME_FS) →
  passes (_ ← fs_stress_prepare fs_bytes take_window pid; _ ← fs_stress_file pid; fs_stress_image) s
    (λ _ s', running t (restored_fs (boot_fs pid g_fs_payload_boot cleared_file)) s' ∧ ss_rounds_completed s' = 1).
Proof.
  intros Hs Hf Hp Hb Hlen. eapply passes_bind; [by eapply prepare_passes|]. intros ? s1 H1.
  eapply passes_bind; [eapply file_passes; exact H1|]. intros ? s2 H2.
  eapply image_passes; [done|done|exact H2].
Qed.

(** C38: the self-test of the file system passes.  Whatever the memory of the
    test held before, whatever process runs it, and whatever other processes
    run in the interrupt windows between the chunks, [process_fs_stress]
    comes to its end without a panic, with no failed check and [complete]
    set; the handle table is as it was, and the file system holds the file
    [/stress/boot.txt] of the process with the eight bytes of the payload,
    as the image of it had them, is accepted by [runtime_fs_validate] and
    has no open file. *)
Theorem process_fs_stress_passes fs_bytes take_window s t w :
  ss_system s = System t (Some w) → process_current_pid (w_scheduler w) < 4294967296 →
  length (ss_image_buffer s) = N.to_nat RUNTIME_FS_IMAGE_MAX_BYTES →
  (∀ fs, length (fs_bytes fs) = N.to_nat SIZEOF_RUNTIME_FS) →
  ∃ s' w' node, process_fs_stress fs_bytes take_window s = Some (FsStressExits, s') ∧
    ss_failures s' = 0 ∧ ss_complete s' = 1 ∧ ss_rounds_completed s' = 1 ∧
    ss_system s' = System t (Some w') ∧
    runtime_fs_validate (w_fs w') = Some (0xDFFF, RUNTIME_SYSCALL_STATUS_OK) ∧
    fs_resolve_path (w_fs w') g_fs_path_stress_boot = Some 2 ∧ aget (nodes (w_fs w')) 2 = Some node ∧
    n_owner_pid node = process_current_pid (w_scheduler w) ∧ n_size_bytes node = 8 ∧
    take 8 (n_data node) = g_fs_payload_boot ∧ ∀ o, o ∈ open_files (w_fs w') → of_used o = 0.
Proof.
  intros Hs Hp Hb Hlen. set (pid := process_current_pid (w_scheduler w)) in *.
  destruct s as [sys buffer c d e f g h i j k l m]. cbn in Hs, Hb. subst sys.
  set (w1 := set_console (w_console w ++ [ConsoleLogU32 (cs "FS") (cs "pid=") pid]) w).
  set (s1 := StressState (System t (Some w1)) buffer 0 0 0 0 0 0 0 0 0 0 (0, 0, 0)).
  destruct (test_passes fs_bytes take_window t pid s1 w1) as ([] & s2 & E & [[(w2 & Hs2 & Hw2) Hf2] Hr2]); [done..|].
  destruct (restored_boot pid) as (Hv & Hpath & Hnode & Hfiles).
  exists (set_complete 1 s2), w2, (boot_node pid g_fs_payload_boot).
  split; [|split; [by destruct s2|split; [by destruct s2|split; [by destruct s2|split; [by destruct s2|]]]]].
  2: { rewrite Hw2. split; [done|]. split; [done|]. split; [done|]. split; [done|]. split; [done|]. split; [done|].
       rewrite Hfiles. by intros o ->%elem_of_replicate_inv. }
  unfold process_fs_stress. change (current_pid w) with (Some (pid, w)).
  cbn [in_kernel sys_context sys_table ss_system mbind option_bind set_system current_pid gets log console_log_u32 modify].
  fold pid. change (reset_counters _) with s1. rewrite E. cbn [mbind option_bind].
  unfold fs_stress_done, mbind, manage_bind. cbn [nz negb N.eqb mret manage_ret update]. destruct s2. cbn in Hf2 |- *. by rewrite Hf2.
Qed.

(** * Concrete runs of the file-system self-tests

    The witnesses of the theorems about the self-test, and rounds of
    [runtime_fs_stress_round]. *)

Definition object_names : list string :=
  ["g_fs_path_stress_root"; "g_fs_path_stress_logs"; "g_fs_path_stress_a"; "g_fs_path_stress_b";
   "g_fs_path_stress_missing"; "payload_a"; "payload_b"; "read_buffer"; "stat"]%string.
(** Different names have different addresses. *)
Definition demo_object_address (name : string) : N :=
  1000 + default 100 (find_idx (λ _ other, bool_decide (name = other)) object_names).

Definition demo_stress : runtime_fs_stress_state :=
  StressState demo_system (replicate (N.to_nat RUNTIME_FS_IMAGE_MAX_BYTES) 0xAA) 9 9 9 9 9 9 9 9 9 9 (9, 9, 9).
(** The structure holds garbage. *)
Definition demo_fs_bytes (fs : runtime_fs) : list N := replicate (N.to_nat SIZEOF_RUNTIME_FS) 0x55.

Lemma process_fs_stress_passes_witness :
  process_current_pid (w_scheduler (demo_world running_1)) = 1 ∧
  ∃ s' w', process_fs_stress demo_fs_bytes id demo_stress = Some (FsStressExits, s') ∧ ss_complete s' = 1 ∧
    ss_system s' = System (Some runtime_syscall_table_init) (Some w') ∧
    fs_resolve_path (w_fs w') g_fs_path_stress_boot = Some 2.
Proof.
  split; [reflexivity|].
  destruct (process_fs_stress_passes demo_fs_bytes id demo_stress (Some runtime_syscall_table_init) (demo_world running_1))
    as (s' & w' & node & H1 & _ & H2 & _ & H3 & _ & H4 & _).
  - reflexivity.
  - vm_compute. reflexivity.
  - cbn [ss_image_buffer demo_stress]. apply length_replicate.
  - intros fs. apply length_replicate.
  - exists s', w'. split; [exact H1|]. split; [exact H2|]. split; [exact H3|exact H4].
Defined.

Lemma demo_fs_typed : typed demo_fs.
Proof.
  split; [vm_compute; reflexivity|vm_compute; reflexivity|]. intros i n Hi. rewrite aget_lookup in Hi.
  assert (Forall (λ n, length (n_data n) = 256%nat) (nodes demo_fs)) as H
    by (apply (bool_decide_eq_true_1 _); vm_compute; reflexivity).
  by apply (Forall_lookup_1 _ _ _ _ H Hi).
Qed.

(** A file is open: the first check fails although the tree is valid. *)
Lemma probe_accepts_witness :
  ∃ code arg0 arg1 status, runtime_fs_stage1_probe (Some demo_fs) = Some (code, arg0, arg1, status) ∧
    runtime_fs_validate demo_fs = Some (0xDFFF, RUNTIME_SYSCALL_STATUS_OK) ∧
    status ≠ RUNTIME_SYSCALL_STATUS_OK.
Proof.
  destruct (probe_accepts demo_fs demo_fs_typed) as (code & arg0 & arg1 & status & H1 & H2 & _).
  - vm_compute. by eexists.
  - exists code, arg0, arg1, status. split; [exact H1|]. split; [vm_compute; reflexivity|].
    intros [_ H]%H2. specialize (H (OpenFile 1 2 1 7 0 0)). cut (1 = 0 :> N); [discriminate|]. apply H.
    apply (list_elem_of_lookup_2 _ 0). vm_compute. reflexivity.
Defined.

Example first_round_passes :
  (λ '(passed, s), (passed, ss_failures s, ss_last_find_count s)) <$>
    runtime_fs_stress_round id false demo_base 1 demo_address demo_exchange demo_object_address 0 demo_stress =
    Some (true, 9, 2).
Proof. vm_compute. reflexivity. Qed.
