(* ===== verification/KernelService.v ===== *)
(** * The accumulator service ([kernel/kernel.c])

    [process_service_server] answers requests that clients make with
    [runtime_service_request_sync]; they meet in an event, two mailboxes, a
    semaphore and a mutex ([KernelObjects.v]).  A process is a program counter
    that stands before its next kernel call, or inside one that waits; the
    step relation lets the processes that are not blocked run in any order,
    one call at a time, which covers every schedule, preemptive or not. *)

From S2P Require Import Prelude ProcessCore Kmem RuntimeManage KernelObjects KernelSyscalls.

Local Open Scope N_scope.

(** ** State *)

Record runtime_service_demo_state := ServiceDemo {
  sd_request_count : N;
  sd_response_count : N;
  sd_total_processed : N;
  sd_last_request : N;
  sd_last_response : N;
  sd_next_client_request : N;
  sd_last_client_tick : N
}.

(** The pointers that [kernel_main] fills in. *)
Record kernel_objects := KernelObjectPointers {
  g_worker_event : option N;
  g_worker_mailbox : option N;
  g_service_request_event : option N;
  g_service_request_mailbox : option N;
  g_service_reply_mailbox : option N;
  g_service_reply_semaphore : option N;
  g_service_state_mutex : option N
}.

(** The next call of the server, with what its local variables hold. *)
Inductive server_call :=
  | ServerWaits
  | ServerReceives
  | ServerLocks (request : N)
  | ServerUpdates (request : N)
  | ServerUnlocks (response : N)
  | ServerSends (response : N)
  | ServerReleases
  | ServerYields.

(** The next call of a client in [runtime_service_request_sync]. *)
Inductive client_call :=
  | ClientSends (request : N)
  | ClientSignals
  | ClientAcquires
  | ClientReceives
  | ClientReturns (response : N).

(** The slot of the process, its call, and the queue it waits on inside. *)
Record thread (call : Type) := Thread { t_slot : N; t_call : call; t_queue : option N }.
Arguments Thread {call}.
Arguments t_slot {call}.
Arguments t_call {call}.
Arguments t_queue {call}.

(** The statements of [process_service_server] under the mutex. *)
Definition accumulate (request : N) (d : runtime_service_demo_state) : runtime_service_demo_state :=
  let total_processed := u32 (sd_total_processed d + request) in
  ServiceDemo (u32 (sd_request_count d + 1)) (sd_response_count d) total_processed request total_processed
    (sd_next_client_request d) (sd_last_client_tick d).

Section service.
Context {H : Type} `{!Allocator H}.

Record service_world := ServiceWorld {
  sw_kernel : kernel H;
  sw_demo : runtime_service_demo_state;
  sw_console : list console_line
}.

Definition set_sw_kernel (k : kernel H) (w : service_world) : service_world :=
  ServiceWorld k (sw_demo w) (sw_console w).

(** ** Creation of the objects ([kernel_main]) *)

(** [None] where [kernel_main] panics. *)
Definition create_objects (k : kernel H) : option (kernel H * kernel_objects) :=
  '(k, worker_event) ← kernel_event_create k;
  '(k, worker_mailbox) ← kernel_mailbox_create k;
  '(k, request_event) ← kernel_event_create k;
  '(k, request_mailbox) ← kernel_mailbox_create k;
  '(k, reply_mailbox) ← kernel_mailbox_create k;
  '(k, reply_semaphore) ← kernel_semaphore_create k 0 1;
  '(k, state_mutex) ← kernel_mutex_create k;
  let null {A} (p : option A) := match p with Some _ => false | None => true end in
  if null worker_event || null worker_mailbox || null request_event || null request_mailbox ||
     null reply_mailbox || null reply_semaphore || null state_mutex then None
  else Some (k, KernelObjectPointers worker_event worker_mailbox request_event request_mailbox
                  reply_mailbox reply_semaphore state_mutex).

(** ** Calls *)

(** A call that may wait: the next point of the process.  A process that
    comes back from [kernel_wait_queue_wait] runs its end and the next round
    of the call. *)
Definition blocking {R call} (first again : kernel H → option (kernel H * outcome R))
    (th : thread call) (next : R → call) (w : service_world) : option (service_world * thread call) :=
  let stay queue := Thread (t_slot th) (t_call th) queue in
  '(k, result) ← match t_queue th with
                 | None => first (sw_kernel w)
                 | Some queue => k ← wait_end (sw_kernel w) queue; again k
                 end;
  Some (set_sw_kernel k w,
        match result with
        | Returned r => Thread (t_slot th) (next r) None
        | Waits queue => stay (Some queue)
        | Spins => stay None
        end).

(** A call that does not wait and whose result is not used. *)
Definition plain {R call} (op : kernel H → option (kernel H * R))
    (th : thread call) (next : call) (w : service_world) : option (service_world * thread call) :=
  '(k, _) ← op (sw_kernel w);
  Some (set_sw_kernel k w, Thread (t_slot th) next None).

(** ** The server ([process_service_server]) *)

(** What the server does to the counters under the mutex; the section is
    for any such function, [process_service_server] is the one below. *)
Context (update : N → runtime_service_demo_state → runtime_service_demo_state).

Definition server_update (request : N) (w : service_world) : service_world :=
  let d := update request (sw_demo w) in
  ServiceWorld (sw_kernel w) d
    (sw_console w ++ [ConsoleLogU32 (cs "SVC") (cs "request_count=") (sd_request_count d);
                      ConsoleLogU32 (cs "SVC") (cs "last_request=") request;
                      ConsoleLogU32 (cs "SVC") (cs "total_processed=") (sd_total_processed d)]).

Context (g : kernel_objects).

Definition server_step (th : thread server_call) (w : service_world)
  : option (service_world * thread server_call) :=
  match t_call th with
  | ServerWaits =>
      event ← g_service_request_event g;
      blocking (λ k, kernel_event_wait k event) (λ k, Some (k, Returned tt)) th (λ _, ServerReceives) w
  | ServerReceives =>
      mailbox ← g_service_request_mailbox g;
      blocking (λ k, kernel_mailbox_receive k mailbox) (λ k, kernel_mailbox_receive_round k mailbox) th ServerLocks w
  | ServerLocks request =>
      mutex ← g_service_state_mutex g;
      blocking (λ k, kernel_mutex_lock k mutex) (λ k, kernel_mutex_lock_round k mutex) th
        (λ _, ServerUpdates request) w
  | ServerUpdates request =>
      let w := server_update request w in
      Some (w, Thread (t_slot th) (ServerUnlocks (sd_last_response (sw_demo w))) None)
  | ServerUnlocks response =>
      plain (λ k, kernel_mutex_unlock k (g_service_state_mutex g)) th (ServerSends response) w
  | ServerSends response =>
      mailbox ← g_service_reply_mailbox g;
      blocking (λ k, kernel_mailbox_send k mailbox response) (λ k, kernel_mailbox_send_round k mailbox response) th
        (λ _, ServerReleases) w
  | ServerReleases =>
      plain (λ k, kernel_semaphore_release k (g_service_reply_semaphore g)) th ServerYields w
  | ServerYields => Some (w, Thread (t_slot th) ServerWaits None)
  end.

(** ** The clients ([runtime_service_request_sync]) *)

(** The tests at its start. *)
Definition request_sync_ready (response : bool) (provider_pid g_service_pid : N) : bool :=
  let null (p : option N) := match p with Some _ => false | None => true end in
  negb (negb response || (provider_pid =? 0) || negb (g_service_pid =? provider_pid) ||
        null (g_service_request_event g) || null (g_service_request_mailbox g) ||
        null (g_service_reply_mailbox g) || null (g_service_reply_semaphore g)).

Definition client_step (th : thread client_call) (w : service_world)
  : option (service_world * thread client_call) :=
  match t_call th with
  | ClientSends request =>
      mailbox ← g_service_request_mailbox g;
      blocking (λ k, kernel_mailbox_send k mailbox request) (λ k, kernel_mailbox_send_round k mailbox request) th
        (λ _, ClientSignals) w
  | ClientSignals => plain (λ k, kernel_event_signal k (g_service_request_event g)) th ClientAcquires w
  | ClientAcquires =>
      semaphore ← g_service_reply_semaphore g;
      blocking (λ k, kernel_semaphore_acquire k semaphore) (λ k, kernel_semaphore_acquire_round k semaphore) th
        (λ _, ClientReceives) w
  | ClientReceives =>
      mailbox ← g_service_reply_mailbox g;
      blocking (λ k, kernel_mailbox_receive k mailbox) (λ k, kernel_mailbox_receive_round k mailbox) th
        ClientReturns w
  | ClientReturns _ => None
  end.

(** ** The system *)

Record service_system := ServiceSystem {
  sy_world : service_world;
  sy_server : thread server_call;
  sy_clients : list (thread client_call)
}.

(** The process in the slot is not blocked. *)
Definition can_run (w : service_world) (slot : N) : bool :=
  match aget (processes (sw_kernel w)) slot with
  | Some p => negb (bool_decide (p_state p = PROCESS_STATE_BLOCKED))
  | None => false
  end.

Definition dispatch_to (slot : N) (w : service_world) : service_world :=
  set_sw_kernel (set_current slot (sw_kernel w)) w.

Definition at_end (th : thread client_call) : bool :=
  match t_call th with ClientReturns _ => true | _ => false end.

(** The processor can go to the server ([None]) or to a client. *)
Definition enabled (who : option nat) (s : service_system) : bool :=
  match who with
  | None => can_run (sy_world s) (t_slot (sy_server s))
  | Some i =>
      match sy_clients s !! i with
      | Some th => can_run (sy_world s) (t_slot th) && negb (at_end th)
      | None => false
      end
  end.

(** The process gets the processor and makes its next call. *)
Definition system_step (who : option nat) (s : service_system) : option service_system :=
  match who with
  | None =>
      '(w, th) ← server_step (sy_server s) (dispatch_to (t_slot (sy_server s)) (sy_world s));
      Some (ServiceSystem w th (sy_clients s))
  | Some i =>
      th ← sy_clients s !! i;
      '(w, th) ← client_step th (dispatch_to (t_slot th) (sy_world s));
      Some (ServiceSystem w (sy_server s) (<[i := th]> (sy_clients s)))
  end.

(** Nobody can run. *)
Definition at_rest (s : service_system) : Prop := ∀ who, enabled who s = false.

(** What other processes may do meanwhile: they leave the objects of the
    service and its processes alone, and do not wait on its queues. *)
Definition lookup_object {A} (m : gmap N A) (p : option N) : option A := a ← p; m !! a.
Definition mailbox_queues (k : kernel H) (p : option N) : list (option N) :=
  match lookup_object (mailboxes k) p with
  | Some m => [mb_sender_wait_queue m; mb_receiver_wait_queue m]
  | None => []
  end.
Definition service_queues (k : kernel H) : list (option N) :=
  [lookup_object (events k) (g_service_request_event g) ≫= ev_wait_queue;
   lookup_object (semaphores k) (g_service_reply_semaphore g) ≫= sem_wait_queue;
   lookup_object (mutexes k) (g_service_state_mutex g) ≫= mx_wait_queue] ++
  mailbox_queues k (g_service_request_mailbox g) ++ mailbox_queues k (g_service_reply_mailbox g).

Record untouched (slots : list N) (k k' : kernel H) : Prop := {
  un_event : lookup_object (events k') (g_service_request_event g) = lookup_object (events k) (g_service_request_event g);
  un_request : lookup_object (mailboxes k') (g_service_request_mailbox g) =
               lookup_object (mailboxes k) (g_service_request_mailbox g);
  un_reply : lookup_object (mailboxes k') (g_service_reply_mailbox g) =
             lookup_object (mailboxes k) (g_service_reply_mailbox g);
  un_semaphore : lookup_object (semaphores k') (g_service_reply_semaphore g) =
                 lookup_object (semaphores k) (g_service_reply_semaphore g);
  un_mutex : lookup_object (mutexes k') (g_service_state_mutex g) = lookup_object (mutexes k) (g_service_state_mutex g);
  un_queue q : q ∈ service_queues k → lookup_object (wait_queues k') q = lookup_object (wait_queues k) q;
  un_length : length (processes k') = length (processes k);
  un_slot i : i ∈ slots → aget (processes k') i = aget (processes k) i;
  un_others q queue i p : q ∈ service_queues k → lookup_object (wait_queues k) q = Some queue →
    i ∉ slots → aget (processes k') i = Some p → waits_on_channel (wq_channel queue) p = false
}.

Definition slots_of (s : service_system) : list N := t_slot (sy_server s) :: (t_slot <$> sy_clients s).

(** The schedules: which of the processes gets the processor, call by call,
    with other processes in between. *)
Inductive schedule : list (option nat) → service_system → service_system → Prop :=
  | schedule_nil s : schedule [] s s
  | schedule_cons who l s s1 s2 :
      enabled who s = true → system_step who s = Some s1 → schedule l s1 s2 → schedule (who :: l) s s2
  | schedule_others l s k s2 :
      untouched (slots_of s) (sw_kernel (sy_world s)) k →
      schedule l (ServiceSystem (set_sw_kernel k (sy_world s)) (sy_server s) (sy_clients s)) s2 →
      schedule l s s2.

End service.
Arguments service_world : clear implicits.
Arguments service_system : clear implicits.
