(* ===== verification/KernelServiceCalls.v ===== *)
(** * The kernel calls of the accumulator service

    [shape] describes the objects of the service and its two processes in one
    state of an exchange; each kernel call of the server and of the client
    takes one shape to the next. *)

From S2P Require Import Prelude ProcessCore Kmem RuntimeManage KernelObjects SemaphoreProofs MailboxProofs KernelSyscalls KernelService.

Local Open Scope N_scope.

Lemma alter_is_insert {A} (f : A → A) (m : gmap N A) i x : m !! i = Some x → alter f i m = <[i := f x]> m.
Proof.
  intros Hi. apply map_eq. intros j. destruct (decide (i = j)) as [<-|Hne].
  - by rewrite lookup_alter_eq, lookup_insert_eq, Hi.
  - by rewrite lookup_alter_ne, lookup_insert_ne.
Qed.

(** ** Who waits on a channel *)

(** Only the process in [slot] ever waits on [channel]; [blocked] says
    whether it does now, and it is blocked nowhere else. *)
Record waiter (slot channel : N) (blocked : bool) (l : list process_runtime_state) : Prop := {
  wt_process : ∃ p, aget l slot = Some p ∧ bool_decide (p_state p = PROCESS_STATE_BLOCKED) = blocked;
  wt_waits i p : aget l i = Some p → waits_on_channel channel p = bool_decide (i = slot) && blocked
}.

Definition block_at (slot channel : N) (l : list process_runtime_state) : list process_runtime_state :=
  aupd l slot (process_core_block PROCESS_WAIT_EVENT_CHANNEL channel 0 0).

Lemma block_waiter slot channel l : waiter slot channel false l → waiter slot channel true (block_at slot channel l).
Proof.
  intros [(p & Hp & _) Hw]. split.
  - exists (process_core_block PROCESS_WAIT_EVENT_CHANNEL channel 0 0 p). unfold block_at. split; [by rewrite aget_aupd_eq, Hp|].
    by destruct p.
  - intros i q. unfold block_at. rewrite aget_aupd. destruct (decide (slot = i)) as [Hi|Hi].
    + subst i. rewrite Hp. intros [= <-]. rewrite bool_decide_true by done. destruct p. unfold waits_on_channel. cbn.
      by rewrite N.eqb_refl.
    + intros Hq. rewrite (bool_decide_false (i = slot)) by done. rewrite (Hw i q Hq). by rewrite andb_false_r.
Qed.

Lemma block_other slot channel slot' channel' blocked l :
  slot ≠ slot' → channel ≠ channel' → waiter slot channel blocked l → waiter slot channel blocked (block_at slot' channel' l).
Proof.
  intros Hs Hc [(p & Hp & Hb) Hw]. split.
  - exists p. unfold block_at. by rewrite aget_aupd_ne.
  - intros i q. unfold block_at. rewrite aget_aupd. destruct (decide (slot' = i)) as [Hi|Hi]; [|by apply Hw]. subst i.
    intros (q' & Hq & ->)%fmap_Some. rewrite (bool_decide_false (slot' = slot)) by done.
    destruct q'. unfold waits_on_channel. cbn. rewrite (proj2 (N.eqb_neq _ _)) by done. by rewrite !andb_false_r.
Qed.

(** What a wake-up leaves: the waiting process is ready. *)
Definition woken (slot : N) (blocked : bool) (l : list process_runtime_state) : list process_runtime_state :=
  if blocked then aupd l slot process_core_make_ready else l.

Lemma woken_waiter slot channel blocked l : waiter slot channel blocked l → waiter slot channel false (woken slot blocked l).
Proof.
  destruct blocked; [|done]. intros [(p & Hp & Hb) Hw]. unfold woken. split.
  - exists (process_core_make_ready p). rewrite aget_aupd_eq, Hp. split; [done|apply make_ready_not_blocked].
  - intros i q. rewrite aget_aupd, andb_false_r. destruct (decide (slot = i)) as [Hi|Hi].
    + subst i. intros (q' & Hq & ->)%fmap_Some. apply make_ready_not_waiting.
    + intros Hq. by rewrite (Hw i q Hq), bool_decide_false.
Qed.

Lemma woken_other slot channel slot' channel' blocked blocked' l :
  slot ≠ slot' → waiter slot channel blocked l → waiter slot' channel' blocked' l →
  waiter slot channel blocked (woken slot' blocked' l).
Proof.
  intros Hs [(p & Hp & Hb) Hw] _. destruct blocked'; [|by split; [exists p|]]. unfold woken. split.
  - exists p. by rewrite aget_aupd_ne.
  - intros i q. rewrite aget_aupd. destruct (decide (slot' = i)) as [Hi|Hi]; [|by apply Hw]. subst i.
    intros (q' & Hq & ->)%fmap_Some. by rewrite make_ready_not_waiting, bool_decide_false.
Qed.

Lemma list_aget_eq {A} (l l' : list A) : (∀ i, aget l i = aget l' i) → l = l'.
Proof. intros H. apply list_eq. intros i. specialize (H (N.of_nat i)). by rewrite !aget_lookup, Nat2N.id in H. Qed.

Lemma wake_all_is slot channel blocked l :
  waiter slot channel blocked l → (process_core_wake_channel l channel).1 = woken slot blocked l.
Proof.
  intros [_ Hw]. unfold process_core_wake_channel. rewrite update_where_fst. apply list_aget_eq. intros i.
  rewrite aget_lookup, list_lookup_fmap, <-aget_lookup. destruct (aget l i) as [p|] eqn:Hp; cbn [fmap option_fmap option_map].
  - rewrite (Hw i p Hp). unfold woken. case_bool_decide as Hi; [subst|]; destruct blocked; cbn [andb]; rewrite ?Hp; try done.
    + by rewrite aget_aupd_eq, Hp.
    + by rewrite aget_aupd_ne, Hp.
  - unfold woken. destruct blocked; [|done]. rewrite aget_aupd. case_decide; by rewrite ?Hp.
Qed.

Lemma wake_first_is slot channel blocked l current :
  waiter slot channel blocked l → current < N.of_nat (length l) → N.of_nat (length l) < 2147483648 →
  (process_core_wake_first_channel l channel current).1 = woken slot blocked l.
Proof.
  intros [(p & Hp & Hb) Hw] Hc Hl. pose proof (wake_first_channel_cases l channel current (or_intror Hc) ltac:(lia)) as H.
  destruct (process_core_wake_first_channel l channel current) as [l' n]. cbn [fst].
  destruct H as [(_ & -> & Hno)|(i & q & _ & Hq & Hf & _ & -> & _)].
  - pose proof Hp as Hin. rewrite aget_lookup in Hin. apply list_elem_of_lookup_2 in Hin. specialize (Hno p Hin).
    rewrite (Hw slot p Hp), bool_decide_true in Hno by done. cbn in Hno. by rewrite Hno.
  - rewrite (Hw i q Hq) in Hf. apply andb_true_iff in Hf as [Hi ->]. apply bool_decide_eq_true in Hi as ->. done.
Qed.

(** ** The objects of the service *)

(** Where the objects and their queues are, the channels of the queues that
    are waited on, and the two processes. *)
Record layout := Layout {
  ly_event : N; ly_event_queue : N; ly_event_channel : N;
  ly_request : N; ly_request_senders : N; ly_request_receivers : N;
  ly_reply : N; ly_reply_senders : N; ly_reply_receivers : N;
  ly_semaphore : N; ly_semaphore_queue : N; ly_semaphore_channel : N;
  ly_mutex : N; ly_mutex_queue : N;
  ly_server : N; ly_server_pid : N; ly_client : N
}.

(** The queues on which nobody ever waits. *)
Definition quiet_queues (y : layout) : list N :=
  [ly_request_senders y; ly_request_receivers y; ly_reply_senders y; ly_reply_receivers y; ly_mutex_queue y].

Record layout_ok (g : kernel_objects) (y : layout) : Prop := {
  lo_event : g_service_request_event g = Some (ly_event y);
  lo_request : g_service_request_mailbox g = Some (ly_request y);
  lo_reply : g_service_reply_mailbox g = Some (ly_reply y);
  lo_semaphore : g_service_reply_semaphore g = Some (ly_semaphore y);
  lo_mutex : g_service_state_mutex g = Some (ly_mutex y);
  lo_queues : ly_event_queue y ≠ ly_semaphore_queue y ∧ (ly_event_queue y ∉ quiet_queues y) ∧
              (ly_semaphore_queue y ∉ quiet_queues y);
  lo_mailboxes : ly_request y ≠ ly_reply y;
  lo_channels : ly_event_channel y ≠ ly_semaphore_channel y;
  lo_slots : ly_server y ≠ ly_client y;
  lo_pid : ly_server_pid y ≠ 0
}.

Definition flag (b : bool) : N := if b then 1 else 0.
Definition letter_box (message : option N) (last : N) (senders receivers : N) : kernel_mailbox :=
  Mailbox KERNEL_MAILBOX_MAGIC (default last message) (flag (bool_decide (message ≠ None))) (Some senders) (Some receivers).

(** The fields of a shape after a change of one part. *)
Ltac keep_shape := intros []; split; cbn [events semaphores mutexes mailboxes wait_queues processes set_processes
  set_wait_queues set_mailboxes set_semaphores set_mutexes upd_mailbox upd_semaphore upd_mutex fst snd]; try done.

Section shapes.
Context {H : Type} `{!Allocator H} (y : layout).
Implicit Types (k : kernel H) (request reply : option N) (count owner : N) (ein eblk sin sblk : bool).

(** The mailboxes hold [request] and [reply], the semaphore has [count], the
    mutex is held by [owner]; the server is inside the wait for the event
    ([ein]) and blocked in it ([eblk]), the client inside the wait for the
    semaphore ([sin]) and blocked in it ([sblk]). *)
Record shape request reply count owner ein eblk sin sblk k : Prop := {
  sh_event : events k !! ly_event y = Some (Event KERNEL_EVENT_MAGIC (Some (ly_event_queue y)));
  sh_event_queue : wait_queues k !! ly_event_queue y =
    Some (WaitQueue KERNEL_WAIT_QUEUE_MAGIC (ly_event_channel y) (flag ein));
  sh_semaphore : semaphores k !! ly_semaphore y =
    Some (Semaphore KERNEL_SEMAPHORE_MAGIC count 1 (Some (ly_semaphore_queue y)));
  sh_semaphore_queue : wait_queues k !! ly_semaphore_queue y =
    Some (WaitQueue KERNEL_WAIT_QUEUE_MAGIC (ly_semaphore_channel y) (flag sin));
  sh_request : ∃ last, mailboxes k !! ly_request y =
    Some (letter_box request last (ly_request_senders y) (ly_request_receivers y));
  sh_reply : ∃ last, mailboxes k !! ly_reply y =
    Some (letter_box reply last (ly_reply_senders y) (ly_reply_receivers y));
  sh_mutex : mutexes k !! ly_mutex y = Some (Mutex KERNEL_MUTEX_MAGIC owner (Some (ly_mutex_queue y)));
  sh_quiet q : q ∈ quiet_queues y → ∃ channel, wait_queues k !! q = Some (WaitQueue KERNEL_WAIT_QUEUE_MAGIC channel 0);
  sh_length : N.of_nat (length (processes k)) < 2147483648;
  sh_server : waiter (ly_server y) (ly_event_channel y) eblk (processes k);
  sh_client : waiter (ly_client y) (ly_semaphore_channel y) sblk (processes k);
  sh_pid : ∃ p, aget (processes k) (ly_server y) = Some p ∧ p_pid p = ly_server_pid y
}.

Lemma shape_current request reply count owner ein eblk sin sblk k i :
  shape request reply count owner ein eblk sin sblk k → shape request reply count owner ein eblk sin sblk (set_current i k).
Proof. by intros []. Qed.

(** ** Queues *)

Lemma quiet_no_wake k q channel :
  wait_queues k !! q = Some (WaitQueue KERNEL_WAIT_QUEUE_MAGIC channel 0) → wake_if_waiting k (Some q) = Some k.
Proof.
  intros Hq. unfold wake_if_waiting, kernel_wait_queue_waiter_count, kernel_wait_queue_is_valid. rewrite Hq. cbind.
  cbn [wq_magic wq_waiter_count]. rewrite N.eqb_refl. cbn [negb]. done.
Qed.

Lemma wait_begin_run k q channel :
  wait_queues k !! q = Some (WaitQueue KERNEL_WAIT_QUEUE_MAGIC channel 0) →
  current_process_index k < N.of_nat (length (processes k)) →
  wait_begin k (Some q) =
    Some (set_processes (block_at (current_process_index k) channel (processes k))
            (set_wait_queues (<[q := WaitQueue KERNEL_WAIT_QUEUE_MAGIC channel 1]> (wait_queues k)) k), true).
Proof.
  intros Hq Hc. unfold wait_begin, kernel_wait_queue_is_valid. rewrite Hq. cbind. cbn [wq_magic wq_waiter_count wq_channel].
  rewrite N.eqb_refl. cbn [negb]. rewrite (proj2 (N.ltb_lt _ _)) by done. do 2 f_equal.
  unfold process_wait_channel, upd_wait_queue, block_at. cbn. f_equal.
  rewrite (alter_is_insert _ _ _ _ Hq). done.
Qed.

Lemma wait_end_run k q channel :
  wait_queues k !! q = Some (WaitQueue KERNEL_WAIT_QUEUE_MAGIC channel 1) →
  wait_end k q = Some (set_wait_queues (<[q := WaitQueue KERNEL_WAIT_QUEUE_MAGIC channel 0]> (wait_queues k)) k).
Proof.
  intros Hq. unfold wait_end. rewrite Hq. cbind. cbn [wq_waiter_count nz N.eqb negb]. unfold upd_wait_queue.
  by rewrite (alter_is_insert _ _ _ _ Hq).
Qed.

(** A wait queue changes, and nothing but the process table with it. *)
Lemma queue_neq g : layout_ok g y →
  ly_event_queue y ≠ ly_semaphore_queue y ∧
  (∀ q, q ∈ quiet_queues y → ly_event_queue y ≠ q ∧ ly_semaphore_queue y ≠ q).
Proof.
  intros Hy. destruct (lo_queues _ _ Hy) as (H1 & H2 & H3). split; [done|]. intros q Hq. split; congruence.
Qed.

Lemma shape_event_queue g request reply count owner ein eblk sin sblk ein' eblk' k l :
  layout_ok g y → shape request reply count owner ein eblk sin sblk k →
  length l = length (processes k) → waiter (ly_server y) (ly_event_channel y) eblk' l →
  waiter (ly_client y) (ly_semaphore_channel y) sblk l →
  (∃ p, aget l (ly_server y) = Some p ∧ p_pid p = ly_server_pid y) →
  shape request reply count owner ein' eblk' sin sblk
    (set_processes l (set_wait_queues
       (<[ly_event_queue y := WaitQueue KERNEL_WAIT_QUEUE_MAGIC (ly_event_channel y) (flag ein')]> (wait_queues k)) k)).
Proof.
  intros Hy Hs Hl H1 H2 H3. destruct (queue_neq g Hy) as [Hq Hqs]. revert Hs. keep_shape.
  - by rewrite lookup_insert_eq.
  - by rewrite lookup_insert_ne.
  - intros q Hin. destruct (Hqs q Hin). rewrite lookup_insert_ne by done. auto.
  - by rewrite Hl.
Qed.

Lemma shape_semaphore_queue g request reply count owner ein eblk sin sblk sin' sblk' k l :
  layout_ok g y → shape request reply count owner ein eblk sin sblk k →
  length l = length (processes k) → waiter (ly_server y) (ly_event_channel y) eblk l →
  waiter (ly_client y) (ly_semaphore_channel y) sblk' l →
  (∃ p, aget l (ly_server y) = Some p ∧ p_pid p = ly_server_pid y) →
  shape request reply count owner ein eblk sin' sblk'
    (set_processes l (set_wait_queues
       (<[ly_semaphore_queue y := WaitQueue KERNEL_WAIT_QUEUE_MAGIC (ly_semaphore_channel y) (flag sin')]> (wait_queues k)) k)).
Proof.
  intros Hy Hs Hl H1 H2 H3. destruct (queue_neq g Hy) as [Hq Hqs]. revert Hs. keep_shape.
  - by rewrite lookup_insert_ne.
  - by rewrite lookup_insert_eq.
  - intros q Hin. destruct (Hqs q Hin). rewrite lookup_insert_ne by done. auto.
  - by rewrite Hl.
Qed.

Lemma shape_processes request reply count owner ein eblk sin sblk eblk' sblk' k l :
  shape request reply count owner ein eblk sin sblk k →
  length l = length (processes k) → waiter (ly_server y) (ly_event_channel y) eblk' l →
  waiter (ly_client y) (ly_semaphore_channel y) sblk' l →
  (∃ p, aget l (ly_server y) = Some p ∧ p_pid p = ly_server_pid y) →
  shape request reply count owner ein eblk' sin sblk' (set_processes l k).
Proof. intros Hs Hl H1 H2 H3. revert Hs. keep_shape. by rewrite Hl. Qed.

(** The pid of the server survives blocking and waking. *)
Lemma pid_aupd slot f l pid i :
  (∀ p, p_pid (f p) = p_pid p) → (∃ p, aget l slot = Some p ∧ p_pid p = pid) →
  ∃ p, aget (aupd l i f) slot = Some p ∧ p_pid p = pid.
Proof.
  intros Hf (p & Hp & Hpid). rewrite aget_aupd. case_decide; [|by exists p].
  exists (f p). rewrite Hp. split; [done|]. by rewrite Hf.
Qed.

Lemma pid_block slot channel l pid i :
  (∃ p, aget l slot = Some p ∧ p_pid p = pid) → ∃ p, aget (block_at i channel l) slot = Some p ∧ p_pid p = pid.
Proof. apply pid_aupd. by intros []. Qed.

Lemma pid_woken slot b l pid i :
  (∃ p, aget l slot = Some p ∧ p_pid p = pid) → ∃ p, aget (woken i b l) slot = Some p ∧ p_pid p = pid.
Proof.
  destruct b; [|done]. apply pid_aupd. intros p. unfold process_core_make_ready. by destruct p, (in_state _ _).
Qed.

Lemma length_block slot channel l : length (block_at slot channel l) = length l.
Proof. apply length_aupd. Qed.
Lemma length_woken slot b l : length (woken slot b l) = length l.
Proof. destruct b; [apply length_aupd|done]. Qed.
End shapes.

(** ** The calls *)

Section calls.
Context {H : Type} `{!Allocator H} (g : kernel_objects) (y : layout) (Hy : layout_ok g y).
Implicit Types (k : kernel H) (request reply : option N) (count owner : N) (ein eblk sin sblk : bool).

Lemma slot_valid slot channel b (l : list process_runtime_state) : waiter slot channel b l → slot < N.of_nat (length l).
Proof. intros [(p & Hp & _) _]. by apply aget_Some_lt in Hp. Qed.

(** The event. *)
Lemma event_wait_run request reply count owner sin sblk k :
  shape y request reply count owner false false sin sblk k → current_process_index k = ly_server y →
  ∃ k', kernel_event_wait k (ly_event y) = Some (k', Waits (ly_event_queue y)) ∧
    shape y request reply count owner true true sin sblk k'.
Proof.
  intros Hs Hc. pose proof Hs as [He Hq _ _ _ _ _ _ _ Hsv Hcl Hpid].
  unfold kernel_event_wait, kernel_event_is_valid. rewrite He. cbind. cbn [ev_magic ev_wait_queue]. rewrite N.eqb_refl. cbn [negb].
  rewrite (wait_begin_run k _ _ Hq) by (rewrite Hc; by eapply slot_valid). cbind. eexists. split; [done|]. rewrite Hc.
  eapply (shape_event_queue y g); [done|done|apply length_block|by apply block_waiter| |by apply pid_block].
  apply block_other; [apply not_eq_sym, (lo_slots _ _ Hy)|apply not_eq_sym, (lo_channels _ _ Hy)|done].
Qed.

Lemma event_signal_run request reply count owner ein eblk sin sblk k :
  shape y request reply count owner ein eblk sin sblk k →
  ∃ k' n, kernel_event_signal k (Some (ly_event y)) = Some (k', n) ∧ shape y request reply count owner ein false sin sblk k'.
Proof.
  intros Hs. pose proof Hs as [He Hq _ _ _ _ _ _ _ Hsv Hcl Hpid].
  unfold kernel_event_signal, kernel_event_is_valid. rewrite He. cbind. cbn [ev_magic ev_wait_queue]. rewrite N.eqb_refl.
  cbn [negb]. unfold kernel_wait_queue_wake_all, kernel_wait_queue_is_valid. rewrite Hq. cbind. cbn [wq_magic wq_channel].
  rewrite N.eqb_refl. cbn [negb]. unfold process_wake_channel.
  pose proof (wake_all_is _ _ _ _ Hsv) as Hw. destruct (process_core_wake_channel _ _) as [l n]. cbn in Hw. subst l.
  eexists _, n. split; [done|].
  eapply shape_processes; [done|apply length_woken|by eapply woken_waiter| |by apply pid_woken].
  eapply woken_other; [apply not_eq_sym, (lo_slots _ _ Hy)|done|done].
Qed.

Lemma event_wait_end request reply count owner sin sblk k :
  shape y request reply count owner true false sin sblk k →
  ∃ k', wait_end k (ly_event_queue y) = Some k' ∧ shape y request reply count owner false false sin sblk k'.
Proof.
  intros Hs. pose proof Hs as [_ Hq _ _ _ _ _ _ _ Hsv Hcl Hpid]. rewrite (wait_end_run k _ _ Hq). eexists. split; [done|].
  eapply (shape_event_queue y g) with (ein' := false) (l := processes k) in Hs; [|done..]. by destruct k.
Qed.

(** The semaphore. *)
Lemma semaphore_acquire_round request reply count owner ein eblk sblk k :
  shape y request reply count owner ein eblk false sblk k → count ≤ 1 →
  kernel_semaphore_acquire k (ly_semaphore y) = kernel_semaphore_acquire_round k (ly_semaphore y).
Proof.
  intros [_ _ Hsem _ _ _ _ _ _ _ _ _] _. unfold kernel_semaphore_acquire, kernel_semaphore_is_valid. rewrite Hsem. cbind.
  cbn [sem_magic sem_wait_queue]. by rewrite N.eqb_refl, bool_decide_true.
Qed.

Lemma acquire_now request reply owner ein eblk k :
  shape y request reply 1 owner ein eblk false false k →
  ∃ k', kernel_semaphore_acquire_round k (ly_semaphore y) = Some (k', Returned tt) ∧
    shape y request reply 0 owner ein eblk false false k'.
Proof.
  intros Hs. pose proof Hs as [_ _ Hsem _ _ _ _ _ _ _ _ _].
  unfold kernel_semaphore_acquire_round, kernel_semaphore_try_acquire, kernel_semaphore_is_valid. rewrite Hsem. cbind.
  cbn [sem_magic sem_wait_queue]. rewrite N.eqb_refl, bool_decide_true by done. cbn [andb negb]. rewrite ?Hsem. cbind.
  cbn [sem_count N.eqb fst snd]. eexists. split; [done|]. unfold upd_semaphore. rewrite (alter_is_insert _ _ _ _ Hsem).
  revert Hs. keep_shape. by rewrite lookup_insert_eq.
Qed.

Lemma acquire_waits request reply owner ein eblk k :
  shape y request reply 0 owner ein eblk false false k → current_process_index k = ly_client y →
  ∃ k', kernel_semaphore_acquire_round k (ly_semaphore y) = Some (k', Waits (ly_semaphore_queue y)) ∧
    shape y request reply 0 owner ein eblk true true k'.
Proof.
  intros Hs Hc. pose proof Hs as [_ _ Hsem Hq _ _ _ _ _ Hsv Hcl Hpid].
  unfold kernel_semaphore_acquire_round, kernel_semaphore_try_acquire, kernel_semaphore_is_valid. rewrite Hsem. cbind.
  cbn [sem_magic sem_wait_queue]. rewrite N.eqb_refl, bool_decide_true by done. cbn [andb negb]. rewrite ?Hsem. cbind.
  cbn [sem_count N.eqb fst snd]. cbind. unfold block_on. cbn [sem_wait_queue fst].
  rewrite (wait_begin_run k _ _ Hq) by (rewrite Hc; by eapply slot_valid). cbind. eexists. split; [done|]. rewrite Hc.
  eapply (shape_semaphore_queue y g); [done|done|apply length_block| |by apply block_waiter|by apply pid_block].
  apply block_other; [apply (lo_slots _ _ Hy)|apply (lo_channels _ _ Hy)|done].
Qed.

Lemma semaphore_wait_end request reply count owner ein eblk k :
  shape y request reply count owner ein eblk true false k →
  ∃ k', wait_end k (ly_semaphore_queue y) = Some k' ∧ shape y request reply count owner ein eblk false false k'.
Proof.
  intros Hs. pose proof Hs as [_ _ _ Hq _ _ _ _ _ Hsv Hcl Hpid]. rewrite (wait_end_run k _ _ Hq). eexists. split; [done|].
  eapply (shape_semaphore_queue y g) with (sin' := false) (l := processes k) in Hs; [|done..]. by destruct k.
Qed.

Lemma release_run request reply owner ein eblk sin sblk k :
  shape y request reply 0 owner ein eblk sin sblk k → (sblk = true → sin = true) →
  current_process_index k < N.of_nat (length (processes k)) →
  ∃ k', kernel_semaphore_release k (Some (ly_semaphore y)) = Some (k', true) ∧
    shape y request reply 1 owner ein eblk sin false k'.
Proof.
  intros Hs Hin Hc. pose proof Hs as [_ _ Hsem Hq _ _ _ _ Hlen Hsv Hcl Hpid].
  unfold kernel_semaphore_release, kernel_semaphore_is_valid. rewrite Hsem. cbind.
  cbn [sem_magic sem_wait_queue]. rewrite N.eqb_refl, bool_decide_true by done. cbn [andb negb]. rewrite ?Hsem. cbind.
  cbn [sem_count sem_max_count sem_wait_queue N.eqb]. unfold upd_semaphore. rewrite (alter_is_insert _ _ _ _ Hsem).
  set (k1 := set_semaphores _ k).
  assert (shape y request reply 1 owner ein eblk sin sblk k1) as Hs1.
  { revert Hs. unfold k1. keep_shape. by rewrite lookup_insert_eq. }
  destruct sin; cbn [flag] in Hq.
  - unfold wake_if_waiting, kernel_wait_queue_waiter_count, kernel_wait_queue_wake_one, kernel_wait_queue_is_valid.
    change (wait_queues k1) with (wait_queues k). rewrite Hq. cbind. cbn [wq_magic wq_waiter_count wq_channel].
    rewrite N.eqb_refl. cbn [negb nz N.eqb]. unfold process_wake_first_channel.
    change (processes k1) with (processes k). change (current_process_index k1) with (current_process_index k).
    pose proof (wake_first_is _ _ _ _ (current_process_index k) Hcl Hc Hlen) as Hw.
    destruct (process_core_wake_first_channel _ _ _) as [l n]. cbn in Hw. subst l. cbind. cbn [fst].
    eexists. split; [done|]. eapply shape_processes; [done|apply length_woken| |by eapply woken_waiter|by apply pid_woken].
    eapply woken_other; [apply (lo_slots _ _ Hy)|done|done].
  - destruct sblk; [by specialize (Hin eq_refl)|].
    rewrite (quiet_no_wake k1 _ _ Hq). cbind. by eexists.
Qed.

(** The mutex. *)
Lemma lock_run request reply count ein eblk sin sblk k :
  shape y request reply count 0 ein eblk sin sblk k → current_process_index k = ly_server y →
  ∃ k', kernel_mutex_lock k (ly_mutex y) = Some (k', Returned tt) ∧
    shape y request reply count (ly_server_pid y) ein eblk sin sblk k'.
Proof.
  intros Hs Hc. pose proof Hs as [_ _ _ _ _ _ Hm _ _ _ _ (p & Hp & Hpid)].
  unfold kernel_mutex_lock, kernel_mutex_lock_round, kernel_mutex_try_lock, kernel_mutex_is_valid. rewrite Hm. cbind.
  cbn [mx_magic mx_wait_queue]. rewrite N.eqb_refl, bool_decide_true by done. cbn [andb negb]. rewrite ?Hm. cbind.
  cbn [mx_owner_pid]. unfold process_current_pid. rewrite Hc, Hp, Hpid.
  rewrite (proj2 (N.eqb_neq _ _) (lo_pid _ _ Hy)). cbn [nz negb N.eqb orb fst snd].
  eexists. split; [done|]. unfold upd_mutex. rewrite (alter_is_insert _ _ _ _ Hm). revert Hs. keep_shape.
  by rewrite lookup_insert_eq.
Qed.

Lemma unlock_run request reply count ein eblk sin sblk k :
  shape y request reply count (ly_server_pid y) ein eblk sin sblk k → current_process_index k = ly_server y →
  ∃ k', kernel_mutex_unlock k (Some (ly_mutex y)) = Some (k', true) ∧ shape y request reply count 0 ein eblk sin sblk k'.
Proof.
  intros Hs Hc. pose proof Hs as [_ _ _ _ _ _ Hm Hquiet _ _ _ (p & Hp & Hpid)].
  unfold kernel_mutex_unlock, kernel_mutex_is_valid. rewrite Hm. cbind.
  cbn [mx_magic mx_wait_queue]. rewrite N.eqb_refl, bool_decide_true by done. cbn [andb negb]. rewrite ?Hm. cbind.
  cbn [mx_owner_pid mx_wait_queue]. unfold process_current_pid. rewrite Hc, Hp, Hpid, N.eqb_refl.
  rewrite (proj2 (N.eqb_neq _ _) (lo_pid _ _ Hy)). cbn [negb orb].
  destruct (Hquiet (ly_mutex_queue y)) as [channel Hq]; [unfold quiet_queues; set_solver|].
  unfold upd_mutex. rewrite (alter_is_insert _ _ _ _ Hm). rewrite (quiet_no_wake (set_mutexes _ k) _ _ Hq). cbind.
  eexists. split; [done|]. revert Hs. keep_shape. by rewrite lookup_insert_eq.
Qed.

(** The mailboxes. *)
Lemma send_run k a last message senders receivers :
  mailboxes k !! a = Some (letter_box None last senders receivers) →
  (∃ channel, wait_queues k !! receivers = Some (WaitQueue KERNEL_WAIT_QUEUE_MAGIC channel 0)) →
  kernel_mailbox_send k a message =
    Some (set_mailboxes (<[a := letter_box (Some message) message senders receivers]> (mailboxes k)) k, Returned tt).
Proof.
  intros Hm [channel Hq].
  unfold kernel_mailbox_send, kernel_mailbox_send_round, kernel_mailbox_try_send, kernel_mailbox_is_valid. rewrite Hm. cbind.
  cbn [mb_magic mb_sender_wait_queue mb_receiver_wait_queue letter_box]. rewrite N.eqb_refl, !bool_decide_true by done.
  cbn [andb negb]. rewrite ?Hm. cbind. cbn [mb_has_message flag nz N.eqb negb mb_receiver_wait_queue]. unfold upd_mailbox. rewrite (alter_is_insert _ _ _ _ Hm).
  rewrite (quiet_no_wake (set_mailboxes _ k) _ _ Hq). cbind. done.
Qed.

Lemma receive_run k a last message senders receivers :
  mailboxes k !! a = Some (letter_box (Some message) last senders receivers) →
  (∃ channel, wait_queues k !! senders = Some (WaitQueue KERNEL_WAIT_QUEUE_MAGIC channel 0)) →
  kernel_mailbox_receive k a =
    Some (set_mailboxes (<[a := letter_box None message senders receivers]> (mailboxes k)) k, Returned message).
Proof.
  intros Hm [channel Hq].
  unfold kernel_mailbox_receive, kernel_mailbox_receive_round, kernel_mailbox_try_receive, kernel_mailbox_is_valid. rewrite Hm. cbind.
  cbn [mb_magic mb_sender_wait_queue mb_receiver_wait_queue letter_box]. rewrite N.eqb_refl, !bool_decide_true by done.
  cbn [andb negb]. rewrite ?Hm. cbind.
  cbn [mb_has_message mb_message mb_sender_wait_queue flag N.eqb default]. unfold upd_mailbox. rewrite (alter_is_insert _ _ _ _ Hm).
  rewrite (quiet_no_wake (set_mailboxes _ k) _ _ Hq). cbind. done.
Qed.

Lemma request_send reply count owner ein eblk sin sblk k message :
  shape y None reply count owner ein eblk sin sblk k →
  ∃ k', kernel_mailbox_send k (ly_request y) message = Some (k', Returned tt) ∧
    shape y (Some message) reply count owner ein eblk sin sblk k'.
Proof.
  intros Hs. pose proof Hs as [_ _ _ _ [last Hm] _ _ Hquiet _ _ _ _]. rewrite (send_run _ _ _ _ _ _ Hm).
  2: apply Hquiet; unfold quiet_queues; set_solver.
  eexists. split; [done|]. revert Hs. keep_shape.
  - exists message. by rewrite lookup_insert_eq.
  - rewrite lookup_insert_ne by apply (lo_mailboxes _ _ Hy). done.
Qed.

Lemma request_receive reply count owner ein eblk sin sblk k message :
  shape y (Some message) reply count owner ein eblk sin sblk k →
  ∃ k', kernel_mailbox_receive k (ly_request y) = Some (k', Returned message) ∧
    shape y None reply count owner ein eblk sin sblk k'.
Proof.
  intros Hs. pose proof Hs as [_ _ _ _ [last Hm] _ _ Hquiet _ _ _ _]. rewrite (receive_run _ _ _ _ _ _ Hm).
  2: apply Hquiet; unfold quiet_queues; set_solver.
  eexists. split; [done|]. revert Hs. keep_shape.
  - exists message. by rewrite lookup_insert_eq.
  - rewrite lookup_insert_ne by apply (lo_mailboxes _ _ Hy). done.
Qed.

Lemma reply_send request count owner ein eblk sin sblk k message :
  shape y request None count owner ein eblk sin sblk k →
  ∃ k', kernel_mailbox_send k (ly_reply y) message = Some (k', Returned tt) ∧
    shape y request (Some message) count owner ein eblk sin sblk k'.
Proof.
  intros Hs. pose proof Hs as [_ _ _ _ _ [last Hm] _ Hquiet _ _ _ _]. rewrite (send_run _ _ _ _ _ _ Hm).
  2: apply Hquiet; unfold quiet_queues; set_solver.
  eexists. split; [done|]. revert Hs. keep_shape.
  - rewrite lookup_insert_ne by apply not_eq_sym, (lo_mailboxes _ _ Hy). done.
  - exists message. by rewrite lookup_insert_eq.
Qed.

Lemma reply_receive request count owner ein eblk sin sblk k message :
  shape y request (Some message) count owner ein eblk sin sblk k →
  ∃ k', kernel_mailbox_receive k (ly_reply y) = Some (k', Returned message) ∧
    shape y request None count owner ein eblk sin sblk k'.
Proof.
  intros Hs. pose proof Hs as [_ _ _ _ _ [last Hm] _ Hquiet _ _ _ _]. rewrite (receive_run _ _ _ _ _ _ Hm).
  2: apply Hquiet; unfold quiet_queues; set_solver.
  eexists. split; [done|]. revert Hs. keep_shape.
  - rewrite lookup_insert_ne by apply not_eq_sym, (lo_mailboxes _ _ Hy). done.
  - exists message. by rewrite lookup_insert_eq.
Qed.
End calls.
