(* ===== verification/KernelServiceProofs.v ===== *)
(** * The accumulator service under every schedule

    The phases of an exchange, each with the [shape] of the objects in it;
    every call takes a phase to a later one, so an exchange that begins while
    the server waits completes with the right answer. *)

From S2P Require Import Prelude ProcessCore Kmem RuntimeManage KernelObjects SemaphoreProofs MailboxProofs KernelSyscalls KernelService KernelServiceCalls KmemProofs.
From S2P Require Import KernelObjectsProofs.

Local Open Scope N_scope.

Section exchange.
Context {H : Type} `{!Allocator H} (update : N → runtime_service_demo_state → runtime_service_demo_state)
        (g : kernel_objects) (y : layout) (Hy : layout_ok g y).
(** The request, and the counters and the console before the exchange. *)
Context (request : N) (d : runtime_service_demo_state) (console : list console_line).
Implicit Types (s : service_system H) (k : kernel H).

Definition response : N := sd_last_response (update request d).
Definition served_lines : list console_line :=
  let d := update request d in
  [ConsoleLogU32 (cs "SVC") (cs "request_count=") (sd_request_count d);
   ConsoleLogU32 (cs "SVC") (cs "last_request=") request;
   ConsoleLogU32 (cs "SVC") (cs "total_processed=") (sd_total_processed d)].

Definition at_server (call : server_call) : option N → thread server_call := Thread (ly_server y) call.
Definition at_client (call : client_call) : option N → thread client_call := Thread (ly_client y) call.
Definition inside_semaphore (inside : bool) : option N := if inside then Some (ly_semaphore_queue y) else None.

(** The server after the release of the semaphore. *)
Inductive after_server : nat → thread server_call → bool → Prop :=
  | as_yields : after_server 2 (at_server ServerYields None) false
  | as_waits : after_server 1 (at_server ServerWaits None) false
  | as_waiting : after_server 0 (at_server ServerWaits (Some (ly_event_queue y))) true.

(** The client after it. *)
Inductive after_client : nat → thread client_call → option N → N → bool → Prop :=
  | ac_acquires (b : bool) : after_client (if b then 2 else 3) (at_client ClientAcquires (inside_semaphore b)) (Some response) 1 b
  | ac_receives : after_client 1 (at_client ClientReceives None) (Some response) 0 false
  | ac_returns : after_client 0 (at_client (ClientReturns response) None) None 0 false.

(** The number of calls that are left at most, the two processes, whether the
    counters are updated, and the parameters of [shape]. *)
Inductive phase : nat → thread server_call → thread client_call → bool →
    option N → option N → N → N → bool → bool → bool → bool → Prop :=
  | ph_send : phase 14 (at_server ServerWaits (Some (ly_event_queue y))) (at_client (ClientSends request) None)
      false None None 0 0 true true false false
  | ph_signal : phase 13 (at_server ServerWaits (Some (ly_event_queue y))) (at_client ClientSignals None)
      false (Some request) None 0 0 true true false false
  | ph_woken (b : bool) : phase (9 + if b then 2 else 3) (at_server ServerWaits (Some (ly_event_queue y)))
      (at_client ClientAcquires (inside_semaphore b)) false (Some request) None 0 0 true false b b
  | ph_receives (b : bool) : phase (8 + if b then 2 else 3) (at_server ServerReceives None)
      (at_client ClientAcquires (inside_semaphore b)) false (Some request) None 0 0 false false b b
  | ph_locks (b : bool) : phase (7 + if b then 2 else 3) (at_server (ServerLocks request) None)
      (at_client ClientAcquires (inside_semaphore b)) false None None 0 0 false false b b
  | ph_updates (b : bool) : phase (6 + if b then 2 else 3) (at_server (ServerUpdates request) None)
      (at_client ClientAcquires (inside_semaphore b)) false None None 0 (ly_server_pid y) false false b b
  | ph_unlocks (b : bool) : phase (5 + if b then 2 else 3) (at_server (ServerUnlocks response) None)
      (at_client ClientAcquires (inside_semaphore b)) true None None 0 (ly_server_pid y) false false b b
  | ph_sends (b : bool) : phase (4 + if b then 2 else 3) (at_server (ServerSends response) None)
      (at_client ClientAcquires (inside_semaphore b)) true None None 0 0 false false b b
  | ph_releases (b : bool) : phase (3 + if b then 2 else 3) (at_server ServerReleases None)
      (at_client ClientAcquires (inside_semaphore b)) true None (Some response) 0 0 false false b b
  | ph_after n m server client blocked reply count inside :
      after_server n server blocked → after_client m client reply count inside →
      phase (n + m) server client true None reply count 0 blocked blocked inside false.

Record in_exchange (rank : nat) s : Prop := {
  ie_phase : ∃ client updated rq rp count owner ein eblk sin sblk,
    sy_clients s = [client] ∧ phase rank (sy_server s) client updated rq rp count owner ein eblk sin sblk ∧
    shape y rq rp count owner ein eblk sin sblk (sw_kernel (sy_world s)) ∧
    sw_demo (sy_world s) = (if updated then update request d else d) ∧
    sw_console (sy_world s) = console ++ (if updated then served_lines else [])
}.

Lemma runs_unless_blocked w slot channel blocked :
  waiter slot channel blocked (processes (sw_kernel w)) → can_run (H := H) w slot = negb blocked.
Proof. intros [(p & Hp & Hb) _]. unfold can_run. by rewrite Hp, Hb. Qed.

(** ** The calls go on *)

Lemma dispatched rq rp count owner ein eblk sin sblk slot k :
  shape y rq rp count owner ein eblk sin sblk k →
  shape y rq rp count owner ein eblk sin sblk (set_current slot k) ∧ current_process_index (set_current slot k) = slot.
Proof. split; [by apply shape_current|done]. Qed.

(** The state after a call is in the exchange, in the phase [ph]. *)
Lemma goes_on rank (s' : service_system H) client updated rq rp count owner ein eblk sin sblk rank' :
  sy_clients s' = [client] → phase rank' (sy_server s') client updated rq rp count owner ein eblk sin sblk →
  shape y rq rp count owner ein eblk sin sblk (sw_kernel (sy_world s')) →
  sw_demo (sy_world s') = (if updated then update request d else d) →
  sw_console (sy_world s') = console ++ (if updated then served_lines else []) → (rank' < rank)%nat →
  ∃ rank', (rank' < rank)%nat ∧ in_exchange rank' s'.
Proof. intros. exists rank'. split; [done|]. split. by eexists _, _, _, _, _, _, _, _, _, _. Qed.

(** The call, by the lemma that says what it does, and the next phase. *)
Ltac open_call := unfold server_step, client_step, blocking, plain, dispatch_to, at_server, at_client;
  cbn [t_call t_queue t_slot sw_kernel set_sw_kernel inside_semaphore].
Ltac run_call lem ph :=
  let k := fresh "k" in let E := fresh "E" in let Hk := fresh "Hk" in
  destruct lem as (k & E & Hk); rewrite E; cbind; cbn [mbind option_bind];
  eexists; split; [reflexivity|]; eapply goes_on; [reflexivity|apply ph|exact Hk|done|done|cbn; lia].

Lemma server_goes_on rank s :
  in_exchange rank s → enabled None s = true →
  ∃ s', system_step update g None s = Some s' ∧ ∃ rank', (rank' < rank)%nat ∧ in_exchange rank' s'.
Proof.
  intros [(client & updated & rq & rp & count & owner & ein & eblk & sin & sblk & Hcl & Hp & Hs & Hd & Hcon)] Hen.
  destruct s as [w server clients]. cbn in *. subst clients.
  assert (t_slot server = ly_server y) as Hslot by (destruct Hp as [| | | | | | | | |? ? ? ? ? ? ? ? Ha]; [done..|by destruct Ha]).
  rewrite Hslot, (runs_unless_blocked _ _ _ _ (sh_server _ _ _ _ _ _ _ _ _ _ Hs)) in Hen.
  destruct eblk; [done|]. rewrite Hslot.
  destruct (dispatched _ _ _ _ _ _ _ _ (ly_server y) _ Hs) as [Hs0 Hc0]. clear Hs.
  pose proof (slot_valid _ _ _ _ (sh_server _ _ _ _ _ _ _ _ _ _ Hs0)) as Hvalid.
  inversion Hp as [| | | | | | | | |? ? ? ? ? ? ? ? Ha Hb]; subst; clear Hp; open_call.
  - rewrite (lo_event _ _ Hy). cbind. cbn [t_queue]. run_call (event_wait_end g y Hy _ _ _ _ _ _ _ Hs0) (ph_receives sblk).
  - rewrite (lo_request _ _ Hy). cbind. cbn [t_queue]. run_call (request_receive g y Hy _ _ _ _ _ _ _ _ _ Hs0) (ph_locks sblk).
  - rewrite (lo_mutex _ _ Hy). cbind. cbn [t_queue]. run_call (lock_run g y Hy _ _ _ _ _ _ _ _ Hs0 Hc0) (ph_updates sblk).
  - cbn [mbind option_bind]. eexists. split; [reflexivity|].
    eapply goes_on; [reflexivity| |exact Hs0| | |]; cbn [sy_server sy_world sw_demo sw_console server_update sw_kernel set_sw_kernel].
    + rewrite Hd. apply (ph_unlocks sblk).
    + by rewrite Hd.
    + by rewrite Hd, Hcon, app_nil_r.
    + lia.
  - rewrite (lo_mutex _ _ Hy). run_call (unlock_run g y Hy _ _ _ _ _ _ _ _ Hs0 Hc0) (ph_sends sblk).
  - rewrite (lo_reply _ _ Hy). cbind. cbn [t_queue]. run_call (reply_send g y Hy _ _ _ _ _ _ _ _ response Hs0) (ph_releases sblk).
  - rewrite (lo_semaphore _ _ Hy).
    destruct (release_run g y Hy _ _ _ _ _ _ _ _ Hs0) as (k & E & Hk); [done|by rewrite Hc0|]. rewrite E. cbind.
    cbn [mbind option_bind]. eexists. split; [reflexivity|].
    eapply goes_on; [reflexivity|apply ph_after; [apply as_yields|apply (ac_acquires sblk)]|exact Hk|done|done|destruct sblk; lia].
  - inversion Ha; subst; cbn [t_call].
    + eexists. split; [reflexivity|]. eapply goes_on; [reflexivity|apply ph_after; [apply as_waits|exact Hb]|exact Hs0|done|done|lia].
    + rewrite (lo_event _ _ Hy). cbind. cbn [t_queue].
      destruct (event_wait_run g y Hy _ _ _ _ _ _ _ Hs0 Hc0) as (k & E & Hk). rewrite E. cbind.
      cbn [mbind option_bind]. eexists. split; [reflexivity|].
      eapply goes_on; [reflexivity|apply ph_after; [apply as_waiting|exact Hb]|exact Hk|done|done|lia].
Qed.

(** The client comes to the semaphore before the server has released it. *)
Ltac client_waits Hs Hc ph :=
  rewrite (lo_semaphore _ _ Hy); cbind; cbn [t_queue];
  rewrite (semaphore_acquire_round y _ _ _ _ _ _ _ _ Hs) by lia;
  run_call (acquire_waits g y Hy _ _ _ _ _ _ Hs Hc) ph.

Lemma client_goes_on rank s i :
  in_exchange rank s → enabled (Some i) s = true →
  ∃ s', system_step update g (Some i) s = Some s' ∧ ∃ rank', (rank' < rank)%nat ∧ in_exchange rank' s'.
Proof.
  intros [(client & updated & rq & rp & count & owner & ein & eblk & sin & sblk & Hcl & Hp & Hs & Hd & Hcon)] Hen.
  destruct s as [w server clients]. cbn in *. subst clients. destruct i as [|i]; [|done]. cbn [lookup list_lookup] in *.
  apply andb_true_iff in Hen as [Hen Hend].
  assert (t_slot client = ly_client y) as Hslot by (destruct Hp as [| | | | | | | | |? ? ? ? ? ? ? ? ? Ha]; [done..|by destruct Ha]).
  rewrite Hslot, (runs_unless_blocked _ _ _ _ (sh_client _ _ _ _ _ _ _ _ _ _ Hs)) in Hen.
  destruct sblk; [done|]. cbn [mbind option_bind]. rewrite Hslot.
  destruct (dispatched _ _ _ _ _ _ _ _ (ly_client y) _ Hs) as [Hs0 Hc0]. clear Hs.
  inversion Hp as [| | | | | | | | |? ? ? ? ? ? ? ? Ha Hb]; subst; clear Hp; open_call.
  - rewrite (lo_request _ _ Hy). cbind. cbn [t_queue]. run_call (request_send g y Hy _ _ _ _ _ _ _ _ request Hs0) ph_signal.
  - rewrite (lo_event _ _ Hy). destruct (event_signal_run g y Hy _ _ _ _ _ _ _ _ _ Hs0) as (k & n & E & Hk). rewrite E. cbind.
    cbn [mbind option_bind]. eexists. split; [reflexivity|].
    eapply goes_on; [reflexivity|apply (ph_woken false)|exact Hk|done|done|cbn; lia].
  - client_waits Hs0 Hc0 (ph_woken true).
  - client_waits Hs0 Hc0 (ph_receives true).
  - client_waits Hs0 Hc0 (ph_locks true).
  - client_waits Hs0 Hc0 (ph_updates true).
  - client_waits Hs0 Hc0 (ph_unlocks true).
  - client_waits Hs0 Hc0 (ph_sends true).
  - client_waits Hs0 Hc0 (ph_releases true).
  - inversion Hb; subst; open_call.
    + rewrite (lo_semaphore _ _ Hy). cbind. destruct sin; cbn [t_queue inside_semaphore].
      * destruct (semaphore_wait_end g y Hy _ _ _ _ _ _ _ Hs0) as (k1 & E1 & Hs1). rewrite E1. cbind.
        destruct (acquire_now y _ _ _ _ _ _ Hs1) as (k & E & Hk). rewrite E. cbind. cbn [mbind option_bind].
        eexists. split; [reflexivity|].
        eapply goes_on; [reflexivity|apply ph_after; [exact Ha|apply ac_receives]|exact Hk|done|done|lia].
      * rewrite (semaphore_acquire_round y _ _ _ _ _ _ _ _ Hs0) by lia.
        destruct (acquire_now y _ _ _ _ _ _ Hs0) as (k & E & Hk). rewrite E. cbind. cbn [mbind option_bind].
        eexists. split; [reflexivity|].
        eapply goes_on; [reflexivity|apply ph_after; [exact Ha|apply ac_receives]|exact Hk|done|done|lia].
    + rewrite (lo_reply _ _ Hy). cbind. cbn [t_queue].
      destruct (reply_receive g y Hy _ _ _ _ _ _ _ _ _ Hs0) as (k & E & Hk). rewrite E. cbind. cbn [mbind option_bind].
      eexists. split; [reflexivity|].
      eapply goes_on; [reflexivity|apply ph_after; [exact Ha|apply ac_returns]|exact Hk|done|done|lia].
    + done.
Qed.

(** ** Other processes *)

Lemma untouched_queues rq rp count owner ein eblk sin sblk k :
  shape y rq rp count owner ein eblk sin sblk k →
  service_queues g k = Some <$> [ly_event_queue y; ly_semaphore_queue y; ly_mutex_queue y; ly_request_senders y;
                                 ly_request_receivers y; ly_reply_senders y; ly_reply_receivers y].
Proof.
  intros [He _ Hsem _ [l1 Hrq] [l2 Hrp] Hm _ _ _ _ _]. unfold service_queues, mailbox_queues, lookup_object.
  rewrite (lo_event _ _ Hy), (lo_request _ _ Hy), (lo_reply _ _ Hy), (lo_semaphore _ _ Hy), (lo_mutex _ _ Hy).
  cbn [mbind option_bind]. by rewrite He, Hsem, Hm, Hrq, Hrp.
Qed.

Lemma waiter_kept slot channel blocked (slots : list N) (l l' : list process_runtime_state) :
  waiter slot channel blocked l → slot ∈ slots → (∀ i, i ∈ slots → aget l' i = aget l i) →
  (∀ i p, i ∉ slots → aget l' i = Some p → waits_on_channel channel p = false) → waiter slot channel blocked l'.
Proof.
  intros [(p & Hp & Hb) Hw] Hin Hsame Hothers. split; [exists p; by rewrite Hsame|]. intros i q Hq.
  destruct (decide (i ∈ slots)) as [Hi|Hi]; [apply Hw; by rewrite <-Hsame|].
  rewrite (Hothers i q Hi Hq), bool_decide_false; [done|]. by intros ->.
Qed.

Lemma shape_untouched rq rp count owner ein eblk sin sblk k k' :
  shape y rq rp count owner ein eblk sin sblk k → untouched g [ly_server y; ly_client y] k k' →
  shape y rq rp count owner ein eblk sin sblk k'.
Proof.
  intros Hs Hu. pose proof (untouched_queues _ _ _ _ _ _ _ _ _ Hs) as Hqs.
  assert (∀ q, q ∈ [ly_event_queue y; ly_semaphore_queue y; ly_mutex_queue y; ly_request_senders y;
    ly_request_receivers y; ly_reply_senders y; ly_reply_receivers y] → wait_queues k' !! q = wait_queues k !! q) as Hwq.
  { intros q Hq. apply (un_queue _ _ _ _ Hu (Some q)). rewrite Hqs. by apply list_elem_of_fmap_2. }
  destruct Hu as [Ue Urq Urp Usem Um _ Ul Us Uo]. destruct Hs as [He Heq Hsem Hsq Hrq Hrp Hm Hquiet Hlen Hsv Hcl Hpid].
  unfold lookup_object in *.
  rewrite (lo_event _ _ Hy) in Ue. rewrite (lo_request _ _ Hy) in Urq. rewrite (lo_reply _ _ Hy) in Urp.
  rewrite (lo_semaphore _ _ Hy) in Usem. rewrite (lo_mutex _ _ Hy) in Um. cbn [mbind option_bind] in *.
  split; rewrite ?Ue, ?Urq, ?Urp, ?Usem, ?Um, ?Ul; try done.
  - rewrite Hwq; [done|set_solver].
  - rewrite Hwq; [done|set_solver].
  - intros q Hq. rewrite Hwq; [by apply Hquiet|]. unfold quiet_queues in Hq. set_solver.
  - eapply waiter_kept; [done| |exact Us|]; [set_solver|]. intros i p Hi Hp.
    refine (Uo (Some (ly_event_queue y)) _ i p _ Heq Hi Hp). rewrite Hqs. set_solver.
  - eapply waiter_kept; [done| |exact Us|]; [set_solver|]. intros i p Hi Hp.
    refine (Uo (Some (ly_semaphore_queue y)) _ i p _ Hsq Hi Hp). rewrite Hqs. set_solver.
  - destruct Hpid as (p & Hp & ?). exists p. rewrite Us; [done|set_solver].
Qed.

Lemma exchange_slots rank s : in_exchange rank s → slots_of s = [ly_server y; ly_client y].
Proof.
  intros [(client & updated & rq & rp & count & owner & ein & eblk & sin & sblk & Hcl & Hp & _)].
  unfold slots_of. rewrite Hcl. destruct Hp as [| | | | | | | | |? ? ? ? ? ? ? ? Ha Hb]; [done..|]. by destruct Ha, Hb.
Qed.

Lemma others_keep rank s k :
  in_exchange rank s → untouched g (slots_of s) (sw_kernel (sy_world s)) k →
  in_exchange rank (ServiceSystem (set_sw_kernel k (sy_world s)) (sy_server s) (sy_clients s)).
Proof.
  intros Hi Hu. rewrite (exchange_slots _ _ Hi) in Hu.
  destruct Hi as [(client & updated & rq & rp & count & owner & ein & eblk & sin & sblk & Hcl & Hp & Hs & Hd & Hcon)].
  split. eexists _, _, _, _, _, _, _, _, _, _. split; [exact Hcl|]. split; [exact Hp|].
  split; [by eapply shape_untouched|]. done.
Qed.

(** ** Every schedule *)

Lemma turn_goes_on rank s who :
  in_exchange rank s → enabled who s = true →
  ∃ s', system_step update g who s = Some s' ∧ ∃ rank', (rank' < rank)%nat ∧ in_exchange rank' s'.
Proof. destruct who as [i|]; [apply client_goes_on|apply server_goes_on]. Qed.

Lemma schedule_in_exchange rank l s s' :
  in_exchange rank s → schedule update g l s s' → ∃ rank', (length l + rank' ≤ rank)%nat ∧ in_exchange rank' s'.
Proof.
  intros Hi Hl. revert rank Hi. induction Hl as [s|who l s s1 s2 Hen Hst _ IH|l s k s2 Hu _ IH]; intros rank Hi.
  - by exists rank.
  - destruct (turn_goes_on rank s who Hi Hen) as (s1' & Hst' & rank1 & Hlt & Hi1). rewrite Hst in Hst'. injection Hst' as <-.
    destruct (IH rank1 Hi1) as (rank' & Hle & Hi'). exists rank'. split; [cbn; lia|done].
  - by apply IH, others_keep.
Qed.

Lemma comes_to_rest rank s : in_exchange rank s → ∃ l s', schedule update g l s s' ∧ at_rest s'.
Proof.
  revert s. induction (lt_wf rank) as [rank _ IH]. intros s Hi.
  destruct (enabled None s) eqn:H0; [|destruct (enabled (Some 0%nat) s) eqn:H1].
  - destruct (turn_goes_on _ _ _ Hi H0) as (s1 & Hst & rank1 & Hlt & Hi1).
    destruct (IH rank1 Hlt s1 Hi1) as (l & s' & Hl & Hr). exists (None :: l), s'. split; [by econstructor|done].
  - destruct (turn_goes_on _ _ _ Hi H1) as (s1 & Hst & rank1 & Hlt & Hi1).
    destruct (IH rank1 Hlt s1 Hi1) as (l & s' & Hl & Hr). exists (Some 0%nat :: l), s'. split; [by econstructor|done].
  - exists [], s. split; [constructor|]. intros [[|i]|]; [done| |done].
    destruct Hi as [(client & ? & ? & ? & ? & ? & ? & ? & ? & ? & Hcl & _)]. cbn [enabled]. by rewrite Hcl.
Qed.

(** The service waits for the next request, and the client has its answer. *)
Definition answered s : Prop :=
  sy_server s = at_server ServerWaits (Some (ly_event_queue y)) ∧ sy_clients s = [at_client (ClientReturns response) None] ∧
  sw_demo (sy_world s) = update request d ∧ sw_console (sy_world s) = console ++ served_lines ∧
  shape y None None 0 0 true true false false (sw_kernel (sy_world s)).

Lemma rest_answered rank s : in_exchange rank s → at_rest s → answered s.
Proof.
  intros [(client & updated & rq & rp & count & owner & ein & eblk & sin & sblk & Hcl & Hp & Hs & Hd & Hcon)] Hr.
  pose proof (Hr None) as Hsv. pose proof (Hr (Some 0%nat)) as Hc. unfold enabled in Hsv, Hc. rewrite Hcl in Hc.
  cbn [lookup list_lookup] in Hc. unfold answered.
  assert (t_slot (sy_server s) = ly_server y ∧ t_slot client = ly_client y) as [E1 E2].
  { destruct Hp as [| | | | | | | | |? ? ? ? ? ? ? ? Ha Hb]; [done..|]. by destruct Ha, Hb. }
  rewrite E1, (runs_unless_blocked _ _ _ _ (sh_server _ _ _ _ _ _ _ _ _ _ Hs)) in Hsv.
  rewrite E2, (runs_unless_blocked _ _ _ _ (sh_client _ _ _ _ _ _ _ _ _ _ Hs)) in Hc.
  destruct eblk; [|done]. inversion Hp as [| | | | | | | | |? ? ? ? ? ? ? ? Ha Hb]; subst; try done.
  inversion Ha; subst. by inversion Hb; subst.
Qed.
End exchange.

(** ** The claims *)

(** The service waits for a request, and one client is about to make one. *)
Definition waits_for_request {H} `{!Allocator H} (y : layout) (request : N) (d : runtime_service_demo_state)
    (s : service_system H) : Prop :=
  sy_server s = Thread (ly_server y) ServerWaits (Some (ly_event_queue y)) ∧
  sy_clients s = [Thread (ly_client y) (ClientSends request) None] ∧ sw_demo (sy_world s) = d ∧
  shape y None None 0 0 true true false false (sw_kernel (sy_world s)).

Lemma waits_in_exchange {H} `{!Allocator H} update y request d (s : service_system H) :
  waits_for_request y request d s → in_exchange update y request d (sw_console (sy_world s)) 14 s.
Proof.
  intros (Hsv & Hcl & Hd & Hs). split. eexists _, _, _, _, _, _, _, _, _, _. split; [exact Hcl|].
  rewrite Hsv. split; [apply ph_send|]. split; [exact Hs|]. by rewrite app_nil_r.
Qed.

(** C4: a request is answered under every schedule.  From a state in which the
    server waits and one client begins [runtime_service_request_sync], let
    the processor go back and forth between the two and any other processes
    in any way.  Every call the two make is defined; they make at most 14;
    the system can always be brought to rest; and when it is at rest, the
    client has returned with the running total (the old total plus the
    request, in 32 bits), the counters are updated once, and the server
    waits for the next request. *)
Theorem request_is_answered {H} `{!Allocator H} g y request d (s s' : service_system H) l :
  layout_ok g y → waits_for_request y request d s → schedule accumulate g l s s' →
  (length l ≤ 14)%nat ∧ (∀ who, enabled who s' = true → is_Some (system_step accumulate g who s')) ∧
  (∃ l' s2, schedule accumulate g l' s' s2 ∧ at_rest s2) ∧
  (at_rest s' →
     sy_clients s' = [Thread (ly_client y) (ClientReturns (u32 (sd_total_processed d + request))) None] ∧
     sd_total_processed (sw_demo (sy_world s')) = u32 (sd_total_processed d + request) ∧
     sd_request_count (sw_demo (sy_world s')) = u32 (sd_request_count d + 1) ∧
     sy_server s' = Thread (ly_server y) ServerWaits (Some (ly_event_queue y)) ∧
     shape y None None 0 0 true true false false (sw_kernel (sy_world s'))).
Proof.
  intros Hy Hw Hl. pose proof (waits_in_exchange accumulate _ _ _ _ Hw) as Hi.
  destruct (schedule_in_exchange _ _ _ Hy _ _ _ _ _ _ _ Hi Hl) as (rank & Hle & Hi').
  split; [lia|]. split.
  { intros who Hen. destruct (turn_goes_on _ _ _ Hy _ _ _ _ _ _ Hi' Hen) as (s2 & -> & _). by eexists. }
  split; [by eapply comes_to_rest|]. intros Hr.
  destruct (rest_answered _ _ _ _ _ _ _ Hi' Hr) as (Hsv & Hcl & Hd & _ & Hs). rewrite Hcl, Hd. by split_and!.
Qed.

(** The abstract service: a running total in 32 bits. *)
Fixpoint running_totals (total : N) (requests : list N) : list N :=
  match requests with
  | [] => []
  | request :: requests' => let total := u32 (total + request) in total :: running_totals total requests'
  end.

Section requests.
Context {H : Type} `{!Allocator H} (g : kernel_objects) (y : layout) (Hy : layout_ok g y).
Implicit Types s : service_system H.

(** The service waits for the next request of the client. *)
Definition service_idle s : Prop :=
  sy_server s = Thread (ly_server y) ServerWaits (Some (ly_event_queue y)) ∧
  shape y None None 0 0 true true false false (sw_kernel (sy_world s)).

(** The client calls [runtime_service_request_sync]. *)
Definition begin_request (request : N) s : service_system H :=
  ServiceSystem (sy_world s) (sy_server s) [Thread (ly_client y) (ClientSends request) None].

(** Requests one after the other, each made when the system has come to
    rest, with the answers. *)
Inductive exchanges : list N → list N → service_system H → service_system H → Prop :=
  | exchanges_nil s : exchanges [] [] s s
  | exchanges_cons request requests response responses l s s1 s2 :
      schedule accumulate g l (begin_request request s) s1 → at_rest s1 →
      sy_clients s1 = [Thread (ly_client y) (ClientReturns response) None] →
      exchanges requests responses s1 s2 →
      exchanges (request :: requests) (response :: responses) s s2.

Lemma one_exchange request s l s1 :
  service_idle s → schedule accumulate g l (begin_request request s) s1 → at_rest s1 →
  let total := u32 (sd_total_processed (sw_demo (sy_world s)) + request) in
  service_idle s1 ∧ sy_clients s1 = [Thread (ly_client y) (ClientReturns total) None] ∧
  sd_total_processed (sw_demo (sy_world s1)) = total.
Proof.
  intros [Hsv Hs] Hl Hr total.
  assert (waits_for_request y request (sw_demo (sy_world s)) (begin_request request s)) as Hw by done.
  pose proof (waits_in_exchange accumulate _ _ _ _ Hw) as Hi.
  destruct (schedule_in_exchange _ _ _ Hy _ _ _ _ _ _ _ Hi Hl) as (rank & _ & Hi').
  destruct (rest_answered _ _ _ _ _ _ _ Hi' Hr) as (Hsv' & Hcl & Hd & _ & Hs'). rewrite Hcl, Hd. done.
Qed.
End requests.

(** C5: the service implements its specification.  Let a client make requests
    one after the other, each when the service waits again, under any
    schedules: the answers are the running totals of the requests in 32
    bits, as the abstract service gives them, the counter holds the last
    total, and the service waits for the next request; and for every list of
    requests there are such schedules. *)
Theorem service_accumulates {H} `{!Allocator H} g y (s : service_system H) requests :
  layout_ok g y → service_idle y s →
  (∀ responses s', exchanges g y requests responses s s' →
     responses = running_totals (sd_total_processed (sw_demo (sy_world s))) requests ∧
     sd_total_processed (sw_demo (sy_world s')) = default (sd_total_processed (sw_demo (sy_world s))) (last responses) ∧
     service_idle y s') ∧
  ∃ responses s', exchanges g y requests responses s s'.
Proof.
  intros Hy Hi. split.
  - intros responses s' Hex. induction Hex as [s|request requests response responses l s s1 s2 Hl Hr Hcl Hex IH]; [done|].
    destruct (one_exchange g y Hy _ _ _ _ Hi Hl Hr) as (Hi1 & Hcl1 & Ht). rewrite Hcl in Hcl1. injection Hcl1 as ->.
    destruct (IH Hi1) as (-> & Hlast & Hi2). cbn [running_totals]. rewrite Ht in *. split; [done|]. split; [|done].
    rewrite Hlast, last_cons. by destruct (last _).
  - revert s Hi. induction requests as [|request requests IH]; intros s Hi.
    { exists [], s. constructor. }
    assert (waits_for_request y request (sw_demo (sy_world s)) (begin_request y request s)) as Hw by by destruct Hi.
    pose proof (waits_in_exchange accumulate _ _ _ _ Hw) as Hx.
    destruct (comes_to_rest _ g _ Hy _ _ _ _ _ Hx) as (l & s1 & Hl & Hr).
    destruct (one_exchange g y Hy _ _ _ _ Hi Hl Hr) as (Hi1 & Hcl1 & Ht).
    destruct (IH s1 Hi1) as (responses & s2 & Hex). eexists (_ :: responses), s2. by econstructor.
Qed.

(** * Concrete runs of the accumulator service

    The objects as [kernel_main] creates them, the witnesses, and two runs in
    which a request does not get its answer. *)

(** ** The objects at the start *)

Definition ready_process (pid : N) : process_runtime_state :=
  Process pid 0 None 0 PROCESS_STATE_READY 0 0 0 0 0 PROCESS_WAIT_NONE 0.
(** The kernel before [kernel_main] creates its objects, with three processes. *)
Definition before_boot : kernel kmem :=
  Kernel (kmem_init kmem_reset) 1 ∅ ∅ ∅ ∅ ∅ [ready_process 1; ready_process 2; ready_process 3] UINT32_MAX.
Definition no_objects : kernel_objects := KernelObjectPointers None None None None None None None.
Definition booted : kernel kmem * kernel_objects := default (before_boot, no_objects) (create_objects before_boot).

Definition zero_demo : runtime_service_demo_state := ServiceDemo 0 0 0 0 0 0 0.
Definition fresh_client (slot request : N) : thread client_call := Thread slot (ClientSends request) None.
(** The server is in slot 0 and has not run yet. *)
Definition booted_system (clients : list (thread client_call)) : service_system kmem :=
  ServiceSystem (ServiceWorld booted.1 zero_demo []) (Thread 0 ServerWaits None) clients.

(** The calls of a schedule, when they can all be made. *)
Fixpoint follow (l : list (option nat)) (s : service_system kmem) : option (service_system kmem) :=
  match l with
  | [] => Some s
  | who :: l' =>
      if enabled who s then s ← system_step accumulate booted.2 who s; follow l' s else None
  end.

Lemma follow_schedule l s s' : follow l s = Some s' → schedule accumulate booted.2 l s s'.
Proof.
  revert s. induction l as [|who l IH]; intros s; cbn [follow]; [intros [= <-]; constructor|].
  destruct (enabled who s) eqn:He; [|done]. destruct (system_step accumulate booted.2 who s) as [s1|] eqn:Hs; cbn; [|done].
  intros Hf. eapply schedule_cons; [exact He|exact Hs|by apply IH].
Qed.

Definition demo_layout : layout :=
  Layout 152 172 4 200 236 264 292 328 356 384 412 9 440 468 0 1 1.

Lemma demo_layout_ok : layout_ok booted.2 demo_layout.
Proof.
  split; try (vm_compute; reflexivity); try (by vm_compute).
  apply (bool_decide_eq_true_1 _). vm_compute. reflexivity.
Qed.

(** The server waits for the first request. *)
Definition waiting_system (clients : list (thread client_call)) : service_system kmem :=
  default (booted_system clients) (follow [None] (booted_system clients)).

Lemma waiter_check slot channel blocked l :
  (∃ p, aget l slot = Some p ∧ bool_decide (p_state p = PROCESS_STATE_BLOCKED) = blocked) →
  imap (λ i p, waits_on_channel channel p) l = imap (λ i _, bool_decide (N.of_nat i = slot) && blocked) l →
  waiter slot channel blocked l.
Proof.
  intros Hp Hl. split; [done|]. intros i p Hi. rewrite aget_lookup in Hi.
  apply (f_equal (lookup (N.to_nat i))) in Hl. rewrite !list_lookup_imap, Hi in Hl. cbn in Hl. injection Hl as ->.
  by rewrite N2Nat.id.
Qed.

Lemma waiting_shape clients :
  shape demo_layout None None 0 0 true true false false (sw_kernel (sy_world (waiting_system clients))).
Proof.
  split; try (vm_compute; reflexivity); try (by eexists; vm_compute).
  - intros q Hq. assert (q = 236 ∨ q = 264 ∨ q = 328 ∨ q = 356 ∨ q = 468) as Hq' by (unfold quiet_queues in Hq; set_solver).
    destruct Hq' as [->|[->|[->|[->| ->]]]]; eexists; vm_compute; reflexivity.
  - apply waiter_check; [eexists; split; vm_compute; reflexivity|vm_compute; reflexivity].
  - apply waiter_check; [eexists; split; vm_compute; reflexivity|vm_compute; reflexivity].
Qed.

(** A schedule of one exchange. *)
Definition demo_schedule : list (option nat) :=
  [Some 0; Some 0; None; None; None; None; None; None; None; Some 0; Some 0; None; None]%nat.
(** One request of 7. *)
Definition demo_end : service_system kmem :=
  default (booted_system []) (follow demo_schedule (waiting_system [fresh_client 1 7])).

Lemma request_is_answered_witness :
  schedule accumulate booted.2 demo_schedule (waiting_system [fresh_client 1 7]) demo_end ∧ at_rest demo_end ∧
  sy_clients demo_end = [Thread 1 (ClientReturns 7) None].
Proof.
  assert (schedule accumulate booted.2 demo_schedule (waiting_system [fresh_client 1 7]) demo_end) as Hl
    by (apply follow_schedule; vm_compute; reflexivity).
  assert (at_rest demo_end) as Hr by (intros [[|i]|]; vm_compute; reflexivity).
  split; [exact Hl|]. split; [exact Hr|].
  destruct (request_is_answered booted.2 demo_layout 7 zero_demo (waiting_system [fresh_client 1 7]) demo_end demo_schedule demo_layout_ok)
    as (_ & _ & _ & H).
  - split; [reflexivity|split; [reflexivity|split; [reflexivity|apply waiting_shape]]].
  - exact Hl.
  - destruct (H Hr) as [H1 _]. exact H1.
Defined.

Lemma service_accumulates_witness :
  ∃ responses s', exchanges booted.2 demo_layout [5; 6; 4294967295] responses (waiting_system []) s' ∧
    responses = [5; 11; 10].
Proof.
  destruct (service_accumulates booted.2 demo_layout (waiting_system []) [5; 6; 4294967295] demo_layout_ok)
    as (H & responses & s' & Hex).
  - split; [reflexivity|apply waiting_shape].
  - exists responses, s'. split; [exact Hex|]. destruct (H responses s' Hex) as [-> _]. reflexivity.
Defined.

(** ** Requests without an answer *)

(** The client in slot 1 makes its next request as soon as it has its answer,
    before the server has gone back to the event: the signal finds nobody
    waiting, the message stays in the mailbox, and the two wait for each
    other for ever. *)
Definition early_request : service_system kmem :=
  match follow [Some 0; Some 0; None; None; None; None; None; None; None; Some 0; Some 0]%nat
               (waiting_system [fresh_client 1 7]) with
  | Some s => default s (follow [Some 0; Some 0; Some 0; None; None]%nat
                           (ServiceSystem (sy_world s) (sy_server s) [fresh_client 1 8]))
  | None => booted_system []
  end.

Lemma early_request_deadlocks :
  at_rest early_request ∧
  (∃ queue, sy_clients early_request = [Thread 1 ClientAcquires (Some queue)]) ∧
  (∃ queue, sy_server early_request = Thread 0 ServerWaits (Some queue)) ∧
  (mb_message <$> mailboxes (sw_kernel (sy_world early_request)) !! ly_request demo_layout) = Some 8.
Proof.
  split; [intros [[|i]|]; vm_compute; reflexivity|]. split; [eexists; vm_compute; reflexivity|].
  split; [eexists; vm_compute; reflexivity|vm_compute; reflexivity].
Qed.

(** Two clients: the second one's request waits in the mailbox, but it is at
    the semaphore first and takes the answer to the first one's request. *)
Definition mixed_answers : option (service_system kmem) :=
  follow [Some 0; Some 0; None; None; Some 1; Some 1; None; None; None; None; None; Some 1; Some 1]%nat
         (waiting_system [fresh_client 1 7; fresh_client 2 100]).

Lemma answer_goes_to_the_wrong_client :
  (λ s, (sy_clients s, sd_last_request (sw_demo (sy_world s)))) <$> mixed_answers =
    Some ([Thread 1 ClientAcquires None; Thread 2 (ClientReturns 7) None], 7).
Proof. vm_compute. reflexivity. Qed.
