(* ===== verification/Soc.v ===== *)
(** * Registers and drivers ([targets/esp32c3/include/soc.h])

    The hardware is any state with the operations of [Bus]: reading and
    writing registers, the control registers of the processor, and letting
    time pass.  A driver is a computation over the hardware and the globals
    [G] of its file; it has no result where the C code has no defined one, or
    when a waiting loop goes round more often than [bus_patience] allows. *)

From S2P Require Import Prelude.

Local Open Scope N_scope.

(** ** Addresses and bits *)

Definition BIT (n : N) : N := N.shiftl 1 n.

Definition UART0_BASE : N := 0x60000000.
Definition GPIO_BASE : N := 0x60004000.
Definition IO_MUX_BASE : N := 0x60009000.
Definition SYSTIMER_BASE : N := 0x60023000.
Definition SPI2_BASE : N := 0x60024000.
Definition LEDC_BASE : N := 0x60019000.
Definition RTCCNTL_BASE : N := 0x60008000.
Definition SYSTEM_BASE : N := 0x600C0000.
Definition INTERRUPT_BASE : N := 0x600C2000.
Definition TIMG0_BASE : N := 0x6001F000.
Definition TIMG1_BASE : N := 0x60020000.
Definition UART_FIFO_REG : N := UART0_BASE + 0.
Definition UART_CLKDIV_REG : N := UART0_BASE + 0x14.
Definition UART_STATUS_REG : N := UART0_BASE + 0x1C.
Definition UART_CONF0_REG : N := UART0_BASE + 0x20.
Definition UART_CONF1_REG : N := UART0_BASE + 0x24.
Definition UART_RXFIFO_CNT_MASK : N := 0xFF.
Definition UART_TXFIFO_CNT_SHIFT : N := 16.
Definition UART_TXFIFO_CNT_MASK : N := N.shiftl 0xFF UART_TXFIFO_CNT_SHIFT.
Definition UART_RXFIFO_RST_BIT : N := BIT 17.
Definition UART_TXFIFO_RST_BIT : N := BIT 18.
Definition SYSTIMER_CONF_REG : N := SYSTIMER_BASE + 0.
Definition SYSTIMER_UNIT0_OP_REG : N := SYSTIMER_BASE + 0x4.
Definition SYSTIMER_UNIT0_LOAD_HI_REG : N := SYSTIMER_BASE + 0xC.
Definition SYSTIMER_UNIT0_LOAD_LO_REG : N := SYSTIMER_BASE + 0x10.
Definition SYSTIMER_TARGET0_HI_REG : N := SYSTIMER_BASE + 0x1C.
Definition SYSTIMER_TARGET0_LO_REG : N := SYSTIMER_BASE + 0x20.
Definition SYSTIMER_TARGET0_CONF_REG : N := SYSTIMER_BASE + 0x34.
Definition SYSTIMER_UNIT0_VALUE_HI_REG : N := SYSTIMER_BASE + 0x40.
Definition SYSTIMER_UNIT0_VALUE_LO_REG : N := SYSTIMER_BASE + 0x44.
Definition SYSTIMER_COMP0_LOAD_REG : N := SYSTIMER_BASE + 0x50.
Definition SYSTIMER_UNIT0_LOAD_REG : N := SYSTIMER_BASE + 0x5C.
Definition SYSTIMER_INT_ENA_REG : N := SYSTIMER_BASE + 0x64.
Definition SYSTIMER_INT_RAW_REG : N := SYSTIMER_BASE + 0x68.
Definition SYSTIMER_INT_CLR_REG : N := SYSTIMER_BASE + 0x6C.
Definition SYSTIMER_INT_ST_REG : N := SYSTIMER_BASE + 0x70.
Definition SYSTIMER_TARGET0_WORK_EN_BIT : N := BIT 24.
Definition SYSTIMER_TIMER_UNIT0_CORE0_STALL_EN_BIT : N := BIT 28.
Definition SYSTIMER_TIMER_UNIT0_WORK_EN_BIT : N := BIT 30.
Definition SYSTIMER_CLK_EN_BIT : N := BIT 31.
Definition SYSTIMER_TIMER_UNIT0_VALUE_VALID_BIT : N := BIT 29.
Definition SYSTIMER_TIMER_UNIT0_UPDATE_BIT : N := BIT 30.
Definition SYSTIMER_TIMER_UNIT0_LOAD_BIT : N := BIT 0.
Definition SYSTIMER_TARGET0_PERIOD_MASK : N := 0x3FFFFFF.
Definition SYSTIMER_TARGET0_PERIOD_MODE_BIT : N := BIT 30.
Definition SYSTIMER_TARGET0_TIMER_UNIT_SEL_BIT : N := BIT 31.
Definition SYSTIMER_TIMER_COMP0_LOAD_BIT : N := BIT 0.
Definition SYSTIMER_TARGET0_INT_ENA_BIT : N := BIT 0.
Definition SYSTIMER_TARGET0_INT_CLR_BIT : N := BIT 0.
Definition SYSTIMER_TARGET0_INT_ST_BIT : N := BIT 0.
Definition RTC_CNTL_RESET_STATE_REG : N := RTCCNTL_BASE + 0x38.
Definition RTC_CNTL_INT_ENA_REG : N := RTCCNTL_BASE + 0x40.
Definition RTC_CNTL_INT_RAW_REG : N := RTCCNTL_BASE + 0x44.
Definition RTC_CNTL_INT_ST_REG : N := RTCCNTL_BASE + 0x48.
Definition RTC_CNTL_INT_CLR_REG : N := RTCCNTL_BASE + 0x4C.
Definition RTC_CNTL_STORE0_REG : N := RTCCNTL_BASE + 0x50.
Definition RTC_CNTL_STORE1_REG : N := RTCCNTL_BASE + 0x54.
Definition RTC_CNTL_STORE2_REG : N := RTCCNTL_BASE + 0x58.
Definition RTC_CNTL_STORE3_REG : N := RTCCNTL_BASE + 0x5C.
Definition RTC_CNTL_WDTCONFIG0_REG : N := RTCCNTL_BASE + 0x90.
Definition RTC_CNTL_WDTWPROTECT_REG : N := RTCCNTL_BASE + 0xA8.
Definition RTC_CNTL_STORE4_REG : N := RTCCNTL_BASE + 0xB8.
Definition RTC_CNTL_STORE5_REG : N := RTCCNTL_BASE + 0xBC.
Definition RTC_CNTL_STORE6_REG : N := RTCCNTL_BASE + 0xC0.
Definition RTC_CNTL_STORE7_REG : N := RTCCNTL_BASE + 0xC4.
Definition RTC_CNTL_RESET_CAUSE_PROCPU_MASK : N := 0x3F.
Definition RTC_CNTL_WDT_EN_BIT : N := BIT 31.
Definition RTC_CNTL_WDT_FLASHBOOT_MOD_EN_BIT : N := BIT 12.
Definition SYSTEM_PERIP_CLK_EN0_REG : N := SYSTEM_BASE + 0x10.
Definition SYSTEM_PERIP_RST_EN0_REG : N := SYSTEM_BASE + 0x18.
Definition SYSTEM_CPU_INTR_FROM_CPU_0_REG : N := SYSTEM_BASE + 0x28.
Definition SYSTEM_UART_CLK_EN_BIT : N := BIT 2.
Definition SYSTEM_UART_RST_BIT : N := BIT 2.
Definition SYSTEM_SPI2_CLK_EN_BIT : N := BIT 6.
Definition SYSTEM_SPI2_RST_BIT : N := BIT 6.
Definition SYSTEM_SPI2_DMA_CLK_EN_BIT : N := BIT 22.
Definition SYSTEM_SPI2_DMA_RST_BIT : N := BIT 22.
Definition SYSTEM_UART_MEM_CLK_EN_BIT : N := BIT 24.
Definition SYSTEM_UART_MEM_RST_BIT : N := BIT 24.
Definition SYSTEM_LEDC_CLK_EN_BIT : N := BIT 11.
Definition SYSTEM_LEDC_RST_BIT : N := BIT 11.
Definition SYSTEM_SYSTIMER_CLK_EN_BIT : N := BIT 29.
Definition SYSTEM_SYSTIMER_RST_BIT : N := BIT 29.
Definition SYSTEM_CPU_INTR_FROM_CPU_0_BIT : N := BIT 0.
Definition INTERRUPT_CORE0_SYSTIMER_TARGET0_INT_MAP_REG : N := INTERRUPT_BASE + 0x94.
Definition INTERRUPT_CORE0_CPU_INT_ENABLE_REG : N := INTERRUPT_BASE + 0x104.
Definition INTERRUPT_CORE0_CPU_INT_TYPE_REG : N := INTERRUPT_BASE + 0x108.
Definition INTERRUPT_CORE0_CPU_INT_CLEAR_REG : N := INTERRUPT_BASE + 0x10C.
Definition INTERRUPT_CORE0_CPU_INT_EIP_STATUS_REG : N := INTERRUPT_BASE + 0x110.
Definition INTERRUPT_CPU_INT_PRIO_REG (n : N) : N := INTERRUPT_BASE + 0x114 + (n * 4).
Definition INTERRUPT_CURRENT_CORE_INT_THRESH_REG : N := INTERRUPT_BASE + 0x194.
Definition TIMG_WDTCONFIG0_REG (base : N) : N := base + 0x48.
Definition TIMG_WDTWPROTECT_REG (base : N) : N := base + 0x64.
Definition TIMG_WDT_WKEY_VALUE : N := 0x50D83AA1.
Definition TIMG_WDT_DISABLE_VALUE : N := 0.
Definition USB_SERIAL_JTAG_BASE : N := 0x60043000.
Definition USB_SERIAL_JTAG_EP1_REG : N := USB_SERIAL_JTAG_BASE + 0.
Definition USB_SERIAL_JTAG_EP1_CONF_REG : N := USB_SERIAL_JTAG_BASE + 0x4.
Definition USB_SERIAL_JTAG_CONF0_REG : N := USB_SERIAL_JTAG_BASE + 0x18.
Definition USB_SERIAL_JTAG_MISC_CONF_REG : N := USB_SERIAL_JTAG_BASE + 0x44.
Definition USB_SERIAL_JTAG_MEM_CONF_REG : N := USB_SERIAL_JTAG_BASE + 0x48.
Definition USB_SERIAL_JTAG_PHY_SEL_BIT : N := BIT 0.
Definition USB_SERIAL_JTAG_USB_PAD_ENABLE_BIT : N := BIT 14.
Definition USB_SERIAL_JTAG_CLK_EN_BIT : N := BIT 0.
Definition USB_SERIAL_JTAG_MEM_PD_BIT : N := BIT 0.
Definition USB_SERIAL_JTAG_MEM_CLK_EN_BIT : N := BIT 1.
Definition USB_SERIAL_JTAG_WR_DONE_BIT : N := BIT 0.
Definition USB_SERIAL_JTAG_SERIAL_IN_EP_DATA_FREE_BIT : N := BIT 1.
Definition GPIO_OUT_W1TS_REG : N := GPIO_BASE + 0x8.
Definition GPIO_OUT_W1TC_REG : N := GPIO_BASE + 0xC.
Definition GPIO_ENABLE_W1TS_REG : N := GPIO_BASE + 0x24.
Definition GPIO_ENABLE_W1TC_REG : N := GPIO_BASE + 0x28.
Definition GPIO_IN_REG : N := GPIO_BASE + 0x3C.
Definition GPIO_STATUS_REG : N := GPIO_BASE + 0x44.
Definition GPIO_STATUS_W1TC_REG : N := GPIO_BASE + 0x4C.
Definition GPIO_PIN_REG (pin : N) : N := GPIO_BASE + 0x74 + (pin * 4).
Definition GPIO_FUNC_OUT_SEL_REG (pin : N) : N := GPIO_BASE + 0x554 + (pin * 4).
Definition GPIO_SIG_GPIO_OUT : N := 0x80.
Definition FSPICLK_OUT_IDX : N := 63.
Definition FSPID_OUT_IDX : N := 65.
Definition GPIO_PIN_INT_ENA_SHIFT : N := 13.
Definition GPIO_PIN_INT_ENA_MASK : N := N.shiftl 0x1F GPIO_PIN_INT_ENA_SHIFT.
Definition GPIO_PIN_INT_TYPE_SHIFT : N := 7.
Definition GPIO_PIN_INT_TYPE_MASK : N := N.shiftl 0x7 GPIO_PIN_INT_TYPE_SHIFT.
Definition GPIO_PRO_CPU_INTR_ENA_BIT : N := BIT 0.
Definition IO_MUX_GPIO_REG (pin : N) : N := IO_MUX_BASE + 0x4 + (pin * 4).
Definition IO_MUX_FUN_PD_BIT : N := BIT 7.
Definition IO_MUX_FUN_PU_BIT : N := BIT 8.
Definition IO_MUX_FUN_IE_BIT : N := BIT 9.
Definition IO_MUX_MCU_SEL_SHIFT : N := 12.
Definition IO_MUX_MCU_SEL_MASK : N := N.shiftl 0x7 IO_MUX_MCU_SEL_SHIFT.
Definition PIN_FUNC_GPIO_VALUE : N := N.shiftl 1 IO_MUX_MCU_SEL_SHIFT.
Definition PIN_FUNC_ALT_2_VALUE : N := N.shiftl 2 IO_MUX_MCU_SEL_SHIFT.
Definition LEDC_LSCH0_CONF0_REG : N := LEDC_BASE + 0.
Definition LEDC_LSCH0_HPOINT_REG : N := LEDC_BASE + 0x4.
Definition LEDC_LSCH0_DUTY_REG : N := LEDC_BASE + 0x8.
Definition LEDC_LSCH0_CONF1_REG : N := LEDC_BASE + 0xC.
Definition LEDC_LSTIMER0_CONF_REG : N := LEDC_BASE + 0xA0.
Definition LEDC_CONF_REG : N := LEDC_BASE + 0xD0.
Definition LEDC_TIMER_SEL_LSCH0_S : N := 0.
Definition LEDC_SIG_OUT_EN_LSCH0 : N := BIT 2.
Definition LEDC_PARA_UP_LSCH0 : N := BIT 4.
Definition LEDC_DUTY_SCALE_LSCH0_S : N := 0.
Definition LEDC_DUTY_CYCLE_LSCH0_S : N := 10.
Definition LEDC_DUTY_NUM_LSCH0_S : N := 20.
Definition LEDC_DUTY_INC_LSCH0 : N := BIT 30.
Definition LEDC_DUTY_START_LSCH0 : N := BIT 31.
Definition LEDC_LSTIMER0_DUTY_RES_S : N := 0.
Definition LEDC_CLK_DIV_LSTIMER0_S : N := 4.
Definition LEDC_LSTIMER0_PARA_UP : N := BIT 25.
Definition LEDC_APB_CLK_SEL_S : N := 0.
Definition LEDC_CLK_EN : N := BIT 31.
Definition LEDC_LS_SIG_OUT0_IDX : N := 45.
Definition SPI_CMD_REG : N := SPI2_BASE + 0.
Definition SPI_CLOCK_REG : N := SPI2_BASE + 0xC.
Definition SPI_USER_REG : N := SPI2_BASE + 0x10.
Definition SPI_USER1_REG : N := SPI2_BASE + 0x14.
Definition SPI_USER2_REG : N := SPI2_BASE + 0x18.
Definition SPI_MS_DLEN_REG : N := SPI2_BASE + 0x1C.
Definition SPI_MISC_REG : N := SPI2_BASE + 0x20.
Definition SPI_DMA_CONF_REG : N := SPI2_BASE + 0x30.
Definition SPI_W0_REG : N := SPI2_BASE + 0x98.
Definition SPI_SLAVE_REG : N := SPI2_BASE + 0xE0.
Definition SPI_CLK_GATE_REG : N := SPI2_BASE + 0xE8.
Definition SPI_USR_BIT : N := BIT 24.
Definition SPI_UPDATE_BIT : N := BIT 23.
Definition SPI_CLKDIV_PRE_SHIFT : N := 18.
Definition SPI_CLKCNT_N_SHIFT : N := 12.
Definition SPI_CLKCNT_H_SHIFT : N := 6.
Definition SPI_CLKCNT_L_SHIFT : N := 0.
Definition SPI_USR_MOSI_BIT : N := BIT 27.
Definition SPI_DOUTDIN_BIT : N := BIT 0.
Definition SPI_MS_DATA_BITLEN_MASK : N := 0x3FFFF.
Definition SPI_BUF_AFIFO_RST_BIT : N := BIT 30.
Definition SPI_RX_AFIFO_RST_BIT : N := BIT 29.
Definition SPI_CLK_EN_BIT : N := BIT 0.
Definition SPI_MST_CLK_ACTIVE_BIT : N := BIT 1.
Definition SPI_MST_CLK_SEL_BIT : N := BIT 2.
Definition ETS_SYSTIMER_TARGET0_INTR_SOURCE : N := 37.
Definition ETS_FROM_CPU_INTR0_SOURCE : N := 50.
Definition MCAUSE_INTERRUPT_BIT : N := BIT 31.

(** ** The hardware *)

Class Bus (HW : Type) := {
  bus_read : N → HW → HW * N;
  bus_write : N → N → HW → HW;
  csr_read : N → HW → HW * N;
  csr_write : N → N → HW → HW;
  bus_nops : N → HW → HW;
  bus_patience : nat
}.

(** ** Drivers *)

Definition driver (HW G A : Type) : Type := HW → G → option (HW * G * A).

#[export] Instance driver_ret HW G : MRet (driver HW G) := λ A a h g, Some (h, g, a).
#[export] Instance driver_bind HW G : MBind (driver HW G) := λ A B f m h g,
  match m h g with
  | Some (h, g, a) => f a h g
  | None => None
  end.

Section driver.
Context {HW : Type} `{!Bus HW} {G : Type}.

Definition undefined {A} : driver HW G A := λ _ _, None.
Definition lift {A} (o : option A) : driver HW G A := λ h g, a ← o; Some (h, g, a).
Definition get_globals : driver HW G G := λ h g, Some (h, g, g).
Definition set_globals (g : G) : driver HW G unit := λ h _, Some (h, g, tt).

Definition reg_write (reg value : N) : driver HW G unit := λ h g, Some (bus_write reg value h, g, tt).
Definition reg_read (reg : N) : driver HW G N := λ h g, let '(h, value) := bus_read reg h in Some (h, g, value).

Definition reg_set_bits (reg mask : N) : driver HW G unit :=
  value ← reg_read reg; reg_write reg (N.lor value mask).
Definition reg_clear_bits (reg mask : N) : driver HW G unit :=
  value ← reg_read reg; reg_write reg (N.ldiff value mask).

Definition csr_get (csr : N) : driver HW G N := λ h g, let '(h, value) := csr_read csr h in Some (h, g, value).
Definition csr_set (csr value : N) : driver HW G unit := λ h g, Some (csr_write csr value h, g, tt).

(** A loop of [count] times [nop]. *)
Definition nops (count : N) : driver HW G unit := λ h g, Some (bus_nops count h, g, tt).

(** [while (condition) body]. *)
Fixpoint while_do (fuel : nat) (condition : driver HW G bool) (body : driver HW G unit) : driver HW G unit :=
  match fuel with
  | O => undefined
  | S fuel' =>
      continue ← condition;
      if continue : bool then _ ← body; while_do fuel' condition body else mret tt
  end.

(** [for (index = start; index < start + count; ++index) body(index)]. *)
Fixpoint for_each (start : N) (count : nat) (body : N → driver HW G unit) : driver HW G unit :=
  match count with
  | O => mret tt
  | S count' => _ ← body start; for_each (start + 1) count' body
  end.

(** At most [count] attempts; the result tells whether one succeeded. *)
Fixpoint try_times (count : positive) (attempt : driver HW G bool) : driver HW G bool :=
  match count with
  | xH => attempt
  | xO half =>
      done ← try_times half attempt;
      if done : bool then mret true else try_times half attempt
  | xI half =>
      done ← attempt;
      if done : bool then mret true
      else
        done ← try_times half attempt;
        if done : bool then mret true else try_times half attempt
  end.

End driver.

(** A driver of another file, whose globals are a part of this one's. *)
Definition within {HW G G' A} (get : G' → G) (set : G → G' → G') (m : driver HW G A) : driver HW G' A :=
  λ h g, match m h (get g) with
         | Some (h, part, a) => Some (h, set part g, a)
         | None => None
         end.

(** ** Results of drivers *)

(** The driver has a result, and it satisfies [Q]. *)
Definition runs {HW G A} (m : driver HW G A) (h : HW) (g : G) (Q : A → HW → G → Prop) : Prop :=
  ∃ h' g' a, m h g = Some (h', g', a) ∧ Q a h' g'.

Section runs.
Context {HW : Type} `{!Bus HW} {G : Type}.
Implicit Types (h : HW) (g : G).

Lemma runs_ret {A} (a : A) h g (Q : A → HW → G → Prop) : Q a h g → runs (mret a) h g Q.
Proof. intros HQ. by exists h, g, a. Qed.

Lemma runs_bind {A B} (m : driver HW G A) (f : A → driver HW G B) h g Q :
  runs m h g (λ a h g, runs (f a) h g Q) → runs (m ≫= f) h g Q.
Proof.
  intros (h1 & g1 & a & Hm & h2 & g2 & b & Hf & HQ). exists h2, g2, b. split; [|done].
  unfold mbind, driver_bind. by rewrite Hm.
Qed.

(** Two calls taken together, in front of the rest. *)
Lemma runs_both {A B} (m : driver HW G unit) (m' : driver HW G A) (f : A → driver HW G B) h g Q :
  runs (_ ← m; m') h g (λ a h g, runs (f a) h g Q) → runs (_ ← m; a ← m'; f a) h g Q.
Proof.
  intros (h1 & g1 & a & Hm & h2 & g2 & b & Hf & HQ). exists h2, g2, b. split; [|done].
  unfold mbind, driver_bind in *. destruct (m h g) as [[[h3 g3] []]|]; [|done]. by rewrite Hm.
Qed.

Lemma runs_weaken {A} (m : driver HW G A) h g (P Q : A → HW → G → Prop) :
  runs m h g P → (∀ a h' g', P a h' g' → Q a h' g') → runs m h g Q.
Proof. intros (h' & g' & a & Hm & HP) H. exists h', g', a. eauto. Qed.

Lemma runs_result {A} (m : driver HW G A) h g h' g' a (Q : A → HW → G → Prop) :
  runs m h g Q → m h g = Some (h', g', a) → Q a h' g'.
Proof. intros (h1 & g1 & a1 & Hm & HQ) Hm'. by simplify_eq. Qed.

Lemma runs_lift {A} (o : option A) a h g (Q : A → HW → G → Prop) : o = Some a → Q a h g → runs (lift o) h g Q.
Proof. intros Ho HQ. exists h, g, a. split; [|done]. unfold lift. by rewrite Ho. Qed.

Lemma runs_get_globals h g (Q : G → HW → G → Prop) : Q g h g → runs get_globals h g Q.
Proof. intros HQ. by exists h, g, g. Qed.

Lemma runs_set_globals h g g' (Q : unit → HW → G → Prop) : Q tt h g' → runs (set_globals g') h g Q.
Proof. intros HQ. by exists h, g', tt. Qed.

Lemma runs_write reg value h g (Q : unit → HW → G → Prop) :
  Q tt (bus_write reg value h) g → runs (reg_write reg value) h g Q.
Proof. intros HQ. by exists (bus_write reg value h), g, tt. Qed.

Lemma runs_read reg h g (Q : N → HW → G → Prop) :
  Q (bus_read reg h).2 (bus_read reg h).1 g → runs (reg_read reg) h g Q.
Proof.
  intros HQ. exists (bus_read reg h).1, g, (bus_read reg h).2. split; [|done].
  unfold reg_read. by destruct (bus_read reg h).
Qed.

Lemma runs_nops count h g (Q : unit → HW → G → Prop) :
  Q tt (bus_nops count h) g → runs (nops count) h g Q.
Proof. intros HQ. by exists (bus_nops count h), g, tt. Qed.

Lemma runs_csr_get csr h g (Q : N → HW → G → Prop) :
  Q (csr_read csr h).2 (csr_read csr h).1 g → runs (csr_get csr) h g Q.
Proof.
  intros HQ. exists (csr_read csr h).1, g, (csr_read csr h).2. split; [|done].
  unfold csr_get. by destruct (csr_read csr h).
Qed.

Lemma runs_csr_set csr value h g (Q : unit → HW → G → Prop) :
  Q tt (csr_write csr value h) g → runs (csr_set csr value) h g Q.
Proof. intros HQ. by exists (csr_write csr value h), g, tt. Qed.

Lemma runs_within {G' A} (get : G' → G) (set : G → G' → G') (m : driver HW G A) h (g' : G') (Q : A → HW → G' → Prop) :
  runs m h (get g') (λ a h part, Q a h (set part g')) → runs (within get set m) h g' Q.
Proof.
  intros (h1 & part & a & Hm & HQ). exists h1, (set part g'), a. split; [|done].
  unfold within. by rewrite Hm.
Qed.

(** A loop whose body keeps [I] and lowers a measure. *)
Lemma runs_while (I : nat → HW → G → Prop) fuel condition body h g n (Q : unit → HW → G → Prop) :
  I n h g → (n < fuel)%nat →
  (∀ n h g, I n h g → runs condition h g (λ continue h g,
     if continue : bool then runs body h g (λ _ h g, ∃ n', (n' < n)%nat ∧ I n' h g) else Q tt h g)) →
  runs (while_do fuel condition body) h g Q.
Proof.
  intros Hi Hn Hstep. revert n h g Hi Hn. induction fuel as [|fuel IH]; intros n h g Hi Hn; [lia|].
  cbn [while_do]. apply runs_bind. eapply runs_weaken; [by apply (Hstep n)|].
  intros [] h1 g1 Hc; cbn in Hc; [|by apply runs_ret].
  apply runs_bind. eapply runs_weaken; [exact Hc|]. intros _ h2 g2 (n' & Hlt & Hi'). apply (IH n'); [done|lia].
Qed.

(** A counting loop with an invariant. *)
Lemma runs_for (I : N → HW → G → Prop) start count body h g (Q : unit → HW → G → Prop) :
  I start h g →
  (∀ index h g, start ≤ index < start + N.of_nat count → I index h g →
     runs (body index) h g (λ _ h g, I (index + 1) h g)) →
  (∀ h g, I (start + N.of_nat count) h g → Q tt h g) →
  runs (for_each start count body) h g Q.
Proof.
  revert start h g. induction count as [|count IH]; intros start h g Hi Hb HQ.
  { apply runs_ret, HQ. by rewrite N.add_0_r. }
  cbn [for_each]. apply runs_bind. eapply runs_weaken; [apply Hb; [lia|done]|]. intros [] h1 g1 Hi1.
  apply (IH (start + 1)); [done| |].
  - intros index h2 g2 Hlt. apply Hb. lia.
  - intros h2 g2 H2. apply HQ. by replace (start + N.of_nat (S count)) with (start + 1 + N.of_nat count) by lia.
Qed.

(** [I] counts the attempts that failed. *)
Lemma runs_try (I : nat → HW → G → Prop) (Q : HW → G → Prop) count attempt h g n :
  I n h g →
  (∀ n h g, I n h g → runs attempt h g (λ done h g, if done : bool then Q h g else I (S n) h g)) →
  runs (try_times count attempt) h g (λ done h g, if done : bool then Q h g else I (n + Pos.to_nat count)%nat h g).
Proof.
  intros Hi Ha. revert n h g Hi. induction count as [half IH|half IH|]; intros n h g Hi; cbn [try_times].
  - apply runs_bind. eapply runs_weaken; [by apply (Ha n)|]. intros [] h1 g1 H1; cbn in H1; [by apply runs_ret|].
    apply runs_bind. eapply runs_weaken; [by apply (IH (S n))|]. intros [] h2 g2 H2; cbn in H2; [by apply runs_ret|].
    eapply runs_weaken; [by apply IH|]. intros [] h3 g3 H3; cbn in *; [done|].
    by replace (n + Pos.to_nat half~1)%nat with (S n + Pos.to_nat half + Pos.to_nat half)%nat by lia.
  - apply runs_bind. eapply runs_weaken; [by apply (IH n)|]. intros [] h2 g2 H2; cbn in H2; [by apply runs_ret|].
    eapply runs_weaken; [by apply IH|]. intros [] h3 g3 H3; cbn in *; [done|].
    by replace (n + Pos.to_nat half~0)%nat with (n + Pos.to_nat half + Pos.to_nat half)%nat by lia.
  - eapply runs_weaken; [by apply (Ha n)|]. intros [] h1 g1 H1; cbn in *; [done|].
    by replace (n + Pos.to_nat 1)%nat with (S n) by lia.
Qed.

End runs.

(** ** Drivers that return *)

(** From any state of the hardware, [m] returns and keeps [P]. *)
Definition returns {HW G A} (P : G → Prop) (m : driver HW G A) : Prop :=
  ∀ h g, P g → runs m h g (λ _ _ g', P g').

Create HintDb returns.

Section returns.
Context {HW : Type} `{!Bus HW} {G : Type} (P : G → Prop).

Lemma returns_ret {A} (a : A) : returns (HW := HW) P (mret a).
Proof. intros h g Hg. by apply runs_ret. Qed.
Lemma returns_bind {A B} (m : driver HW G A) (f : A → driver HW G B) :
  returns P m → (∀ a, returns P (f a)) → returns P (m ≫= f).
Proof. intros Hm Hf h g Hg. apply runs_bind. eapply runs_weaken; [by apply Hm|]. intros a h' g' Hg'. by apply Hf. Qed.
Lemma returns_get {A} (f : G → driver HW G A) :
  (∀ h g, P g → runs (f g) h g (λ _ _ g', P g')) → returns P (g ← get_globals; f g).
Proof. intros Hf h g Hg. apply runs_bind, runs_get_globals. by apply Hf. Qed.
Lemma returns_write reg value : returns (HW := HW) P (reg_write reg value).
Proof. intros h g Hg. by apply runs_write. Qed.
Lemma returns_read reg : returns (HW := HW) P (reg_read reg).
Proof. intros h g Hg. by apply runs_read. Qed.
Lemma returns_nops count : returns (HW := HW) P (nops count).
Proof. intros h g Hg. by apply runs_nops. Qed.
Lemma returns_for start count (body : N → driver HW G unit) :
  (∀ index, start ≤ index < start + N.of_nat count → returns P (body index)) → returns P (for_each start count body).
Proof. intros Hb h g Hg. apply (runs_for (λ _ _ g', P g')); [done| |done]. intros index h' g' Hi Hg'. by apply Hb. Qed.
Lemma returns_if {A} (b : bool) (m m' : driver HW G A) :
  (b = true → returns P m) → (b = false → returns P m') → returns P (if b then m else m').
Proof. destruct b; auto. Qed.
Lemma returns_lift {A} (o : option A) : is_Some o → returns (HW := HW) P (lift o).
Proof. intros [a ->] h g Hg. by apply (runs_lift _ a). Qed.
Lemma returns_within {G'} {A} (P' : G' → Prop) (get : G' → G) (set : G → G' → G') (m : driver HW G A) :
  returns P m → (∀ g, P' g → P (get g)) → (∀ part g, P' g → P part → P' (set part g)) → returns P' (within get set m).
Proof.
  intros Hm Hget Hset h g Hg. apply runs_within. eapply runs_weaken; [by apply Hm, Hget|]. intros a h' part Hp. by apply Hset.
Qed.

(** The next call of a driver. *)
Lemma runs_returns {A B} (m : driver HW G A) (f : A → driver HW G B) h g Q :
  returns P m → P g → (∀ a h g, P g → runs (f a) h g Q) → runs (m ≫= f) h g Q.
Proof. intros Hm Hg Hf. apply runs_bind. eapply runs_weaken; [by apply Hm|]. intros a h' g'. apply Hf. Qed.
End returns.

(** Follows the register accesses of a driver that returns. *)
Ltac returning :=
  cbv zeta;
  repeat lazymatch goal with
  | |- returns _ (mbind _ get_globals) => fail
  | |- returns _ (mbind _ _) => apply returns_bind; [|intros ?]; cbv beta zeta
  | |- returns _ (mret _) => apply returns_ret
  | |- returns _ (reg_write _ _) => apply returns_write
  | |- returns _ (reg_read _) => apply returns_read
  | |- returns _ (nops _) => apply returns_nops
  | |- returns _ (reg_set_bits _ _) => unfold reg_set_bits
  | |- returns _ (reg_clear_bits _ _) => unfold reg_clear_bits
  | |- returns _ (if _ then _ else _) => apply returns_if; intros _
  | |- _ => solve [auto with returns]
  end.

(** ** Control registers *)

(** A control register holds what was written to it; devices leave it alone. *)
Class Processor (HW : Type) `{!Bus HW} := {
  csr_value : N → HW → N;
  csr_read_value csr h : (csr_read csr h).2 = csr_value csr h;
  csr_after_read csr csr' h : csr_value csr (csr_read csr' h).1 = csr_value csr h;
  csr_after_write csr csr' value h :
    csr_value csr (csr_write csr' value h) = if decide (csr = csr') then value else csr_value csr h;
  csr_after_bus_read csr reg h : csr_value csr (bus_read reg h).1 = csr_value csr h;
  csr_after_bus_write csr reg value h : csr_value csr (bus_write reg value h) = csr_value csr h
}.

(** Evaluates a test of two closed numbers. *)
Ltac test_numbers :=
  repeat match goal with
  | |- context [?a =? ?b] =>
      let v := eval vm_compute in (a =? b) in
      first [constr_eq v true; change (a =? b) with true | constr_eq v false; change (a =? b) with false]
  end.
