(* ===== verification/Gpio.v ===== *)
(** * General-purpose pins ([targets/esp32c3/src/gpio.c])

    Levels, directions and functions of the 22 pins, and the table of their
    interrupt handlers.  A handler is a function pointer of type [F] that
    [call] runs. *)

From S2P Require Import Prelude Soc.

Local Open Scope N_scope.

Definition ESP32C3_GPIO_INTERRUPT_DISABLE : N := 0.
Definition ESP32C3_GPIO_INTERRUPT_NEGEDGE : N := 2.

Section pins.
Context {HW : Type} `{!Bus HW} {G : Type}.
Abbreviation io := (driver HW G).

Definition esp32c3_gpio_select_gpio_func (pin : N) (pullup : bool) : io unit :=
  if 21 <? pin then mret tt
  else
    mux_value ← reg_read (IO_MUX_GPIO_REG pin);
    let mux_value := N.ldiff mux_value (N.lor IO_MUX_MCU_SEL_MASK IO_MUX_FUN_PD_BIT) in
    let mux_value := N.lor mux_value (N.lor IO_MUX_FUN_IE_BIT PIN_FUNC_GPIO_VALUE) in
    let mux_value := if pullup then N.lor mux_value IO_MUX_FUN_PU_BIT else N.ldiff mux_value IO_MUX_FUN_PU_BIT in
    _ ← reg_write (IO_MUX_GPIO_REG pin) mux_value;
    reg_write (GPIO_FUNC_OUT_SEL_REG pin) GPIO_SIG_GPIO_OUT.

Definition esp32c3_gpio_enable_output (pin : N) : io unit :=
  if 21 <? pin then mret tt else reg_write GPIO_ENABLE_W1TS_REG (BIT pin).

Definition esp32c3_gpio_disable_output (pin : N) : io unit :=
  if 21 <? pin then mret tt else reg_write GPIO_ENABLE_W1TC_REG (BIT pin).

Definition esp32c3_gpio_config_output_function (pin function_value signal_idx : N) : io unit :=
  if 21 <? pin then mret tt
  else
    mux_value ← reg_read (IO_MUX_GPIO_REG pin);
    let mux_value := N.ldiff mux_value (N.lor (N.lor IO_MUX_MCU_SEL_MASK IO_MUX_FUN_PD_BIT) IO_MUX_FUN_PU_BIT) in
    let mux_value := N.lor mux_value function_value in
    _ ← reg_write (IO_MUX_GPIO_REG pin) mux_value;
    _ ← (if function_value =? PIN_FUNC_GPIO_VALUE then reg_write (GPIO_FUNC_OUT_SEL_REG pin) signal_idx else mret tt);
    esp32c3_gpio_enable_output pin.

Definition esp32c3_gpio_config_input (pin : N) (pullup : bool) : io unit :=
  _ ← esp32c3_gpio_select_gpio_func pin pullup;
  esp32c3_gpio_disable_output pin.

Definition esp32c3_gpio_config_output (pin : N) : io unit :=
  _ ← esp32c3_gpio_select_gpio_func pin false;
  esp32c3_gpio_enable_output pin.

Definition esp32c3_gpio_set_level (pin : N) (level : bool) : io unit :=
  if 21 <? pin then mret tt
  else if level then reg_write GPIO_OUT_W1TS_REG (BIT pin)
  else reg_write GPIO_OUT_W1TC_REG (BIT pin).

Definition esp32c3_gpio_get_level (pin : N) : io bool :=
  if 21 <? pin then mret false
  else
    levels ← reg_read GPIO_IN_REG;
    mret (nz (N.land levels (BIT pin))).

Definition esp32c3_gpio_interrupt_clear (pin : N) : io unit :=
  if 21 <? pin then mret tt else reg_write GPIO_STATUS_W1TC_REG (BIT pin).

Definition esp32c3_gpio_interrupt_config (pin interrupt_type : N) : io unit :=
  if 21 <? pin then mret tt
  else
    pin_value ← reg_read (GPIO_PIN_REG pin);
    let pin_value := N.ldiff pin_value (N.lor GPIO_PIN_INT_ENA_MASK GPIO_PIN_INT_TYPE_MASK) in
    let pin_value := N.lor pin_value (N.land (N.shiftl interrupt_type GPIO_PIN_INT_TYPE_SHIFT) GPIO_PIN_INT_TYPE_MASK) in
    let pin_value :=
      if negb (interrupt_type =? ESP32C3_GPIO_INTERRUPT_DISABLE)
      then N.lor pin_value (N.land (N.shiftl GPIO_PRO_CPU_INTR_ENA_BIT GPIO_PIN_INT_ENA_SHIFT) GPIO_PIN_INT_ENA_MASK)
      else pin_value in
    _ ← reg_write (GPIO_PIN_REG pin) pin_value;
    esp32c3_gpio_interrupt_clear pin.

Definition esp32c3_gpio_interrupt_pending (pin : N) : io bool :=
  if 21 <? pin then mret false
  else
    status ← reg_read GPIO_STATUS_REG;
    mret (nz (N.land status (BIT pin))).

(** The loops around [nop]. *)
Definition esp32c3_gpio_delay_cycles (cycles : N) : io unit := nops cycles.
Definition esp32c3_gpio_delay_ms (milliseconds : N) : io unit :=
  for_each 0 (N.to_nat milliseconds) (λ _, esp32c3_gpio_delay_cycles 15000).

(** The calls return, and leave the globals alone. *)
Context (P : G → Prop).
Lemma select_returns pin pullup : returns P (esp32c3_gpio_select_gpio_func pin pullup).
Proof. unfold esp32c3_gpio_select_gpio_func. returning. Qed.
Lemma enable_returns pin : returns P (esp32c3_gpio_enable_output pin).
Proof. unfold esp32c3_gpio_enable_output. returning. Qed.
Lemma disable_returns pin : returns P (esp32c3_gpio_disable_output pin).
Proof. unfold esp32c3_gpio_disable_output. returning. Qed.
Lemma input_returns pin pullup : returns P (esp32c3_gpio_config_input pin pullup).
Proof. apply returns_bind; [apply select_returns|intros _; apply disable_returns]. Qed.
Lemma output_returns pin : returns P (esp32c3_gpio_config_output pin).
Proof. apply returns_bind; [apply select_returns|intros _; apply enable_returns]. Qed.
Lemma output_function_returns pin value signal : returns P (esp32c3_gpio_config_output_function pin value signal).
Proof. unfold esp32c3_gpio_config_output_function. returning. apply enable_returns. Qed.
Lemma level_returns pin level : returns P (esp32c3_gpio_set_level pin level).
Proof. unfold esp32c3_gpio_set_level. returning. Qed.
Lemma interrupt_config_returns pin type : returns P (esp32c3_gpio_interrupt_config pin type).
Proof. unfold esp32c3_gpio_interrupt_config, esp32c3_gpio_interrupt_clear. returning. Qed.
Lemma delay_returns milliseconds : returns P (esp32c3_gpio_delay_ms milliseconds).
Proof. apply returns_for. intros i _. apply returns_nops. Qed.
End pins.

#[export] Hint Resolve select_returns enable_returns disable_returns input_returns output_returns : returns.
#[export] Hint Resolve output_function_returns level_returns interrupt_config_returns delay_returns : returns.

(** ** Interrupt handlers *)

Record esp32c3_gpio_interrupt_slot (F : Type) := Slot { sl_handler : option F; sl_context : N }.
Arguments Slot {F}.
Arguments sl_handler {F}.
Arguments sl_context {F}.

Section interrupts.
Context {HW : Type} `{!Bus HW} {F : Type}.

(** The globals: the table of 22 slots. *)
Definition esp32c3_gpio_interrupt_set_handler (pin : N) (handler : option F) (context : N)
  : driver HW (list (esp32c3_gpio_interrupt_slot F)) unit :=
  if 21 <? pin then mret tt
  else
    slots ← get_globals;
    slots ← lift (aset slots pin (Slot handler context));
    set_globals slots.

(** [while (((mask >> pin) & 0x1u) == 0u) ++pin]; a shift by 32 or more is
    undefined. *)
Fixpoint pin_loop (fuel : nat) (mask pin : N) : option N :=
  match fuel with
  | O => None
  | S fuel' =>
      if 32 <=? pin then None
      else if N.land (N.shiftr mask pin) 1 =? 0 then pin_loop fuel' mask (pin + 1) else Some pin
  end.

(** Handlers may change any globals. *)
Context {G : Type} (g_interrupt_slots : G → list (esp32c3_gpio_interrupt_slot F)) (call : F → N → N → driver HW G unit).

Definition call_handler (pin : N) : driver HW G unit :=
  if pin <=? 21 then
    g ← get_globals;
    slot ← lift (aget (g_interrupt_slots g) pin);
    match sl_handler slot with
    | Some handler => call handler pin (sl_context slot)
    | None => mret tt
    end
  else mret tt.

Fixpoint dispatch_loop (fuel : nat) (mask : N) : driver HW G unit :=
  match fuel with
  | O => undefined
  | S fuel' =>
      if mask =? 0 then mret tt
      else
        pin ← lift (pin_loop 33 mask 0);
        _ ← call_handler pin;
        dispatch_loop fuel' (N.ldiff mask (BIT pin))
  end.

(** 23 rounds are enough for 22 pins. *)
Definition esp32c3_gpio_interrupt_dispatch (pending_mask : N) : driver HW G unit :=
  dispatch_loop 23 (N.land pending_mask 0x3FFFFF).

(** ** Every pending pin is served *)

(** The reference: the pins in order. *)
Definition serve_pins (pending_mask : N) : driver HW G unit :=
  for_each 0 22 (λ pin, if N.testbit pending_mask pin then call_handler pin else mret tt).

Lemma land_bit_zero mask pin : (N.land (N.shiftr mask pin) 1 =? 0) = negb (N.testbit mask pin).
Proof.
  change 1 with (N.ones 1) at 1. rewrite N.land_ones. change (2 ^ 1) with 2.
  rewrite <-N.bit0_mod, N.shiftr_spec, N.add_0_l by lia. by destruct (N.testbit mask pin).
Qed.

Lemma pin_loop_spec fuel mask start pin :
  (∀ i, start ≤ i < pin → N.testbit mask i = false) → N.testbit mask pin = true → start ≤ pin < 32 →
  (N.to_nat (pin - start) < fuel)%nat → pin_loop fuel mask start = Some pin.
Proof.
  revert start. induction fuel as [|fuel IH]; intros start Hlow Hpin Hlt Hf; [lia|].
  cbn [pin_loop]. destruct (N.leb_spec 32 start); [lia|]. rewrite land_bit_zero.
  destruct (N.eq_dec start pin) as [->|Hne]; [by rewrite Hpin|].
  rewrite (Hlow start) by lia. cbn [negb]. apply IH; [intros i Hi; apply Hlow; lia|done|lia|lia].
Qed.

(** The bits from [start] on. *)
Definition from_bit (start mask : N) : N := N.shiftl (N.shiftr mask start) start.
Lemma from_bit_spec start mask i : N.testbit (from_bit start mask) i = (start <=? i) && N.testbit mask i.
Proof.
  unfold from_bit. destruct (N.leb_spec start i).
  - rewrite N.shiftl_spec_high', N.shiftr_spec by lia. cbn [andb]. f_equal. lia.
  - by rewrite N.shiftl_spec_low.
Qed.

Lemma testbit_bit i j : N.testbit (BIT i) j = (i =? j).
Proof. unfold BIT. rewrite N.shiftl_1_l. apply N.pow2_bits_eqb. Qed.

Lemma from_bit_next start mask : N.testbit mask start = true → N.ldiff (from_bit start mask) (BIT start) = from_bit (start + 1) mask.
Proof.
  intros Hs. apply N.bits_inj. intros i. rewrite N.ldiff_spec, !from_bit_spec, testbit_bit.
  destruct (N.leb_spec start i), (N.leb_spec (start + 1) i), (N.eqb_spec start i); subst; try lia;
    by rewrite ?andb_true_r, ?andb_false_r.
Qed.

Lemma from_bit_skip start mask : N.testbit mask start = false → from_bit start mask = from_bit (start + 1) mask.
Proof.
  intros Hs. apply N.bits_inj. intros i. rewrite !from_bit_spec.
  destruct (N.leb_spec start i), (N.leb_spec (start + 1) i); try lia; try done.
  replace i with start by lia. by rewrite Hs.
Qed.

Lemma from_bit_zero start mask : (∀ i, start ≤ i → N.testbit mask i = false) → from_bit start mask = 0.
Proof.
  intros H. apply N.bits_inj_0. intros i. rewrite from_bit_spec. destruct (N.leb_spec start i); [|done].
  by rewrite H.
Qed.

Lemma dispatch_from n start mask fuel h g :
  (∀ i, start + N.of_nat n ≤ i → N.testbit mask i = false) → start + N.of_nat n ≤ 22 → (n < fuel)%nat →
  dispatch_loop fuel (from_bit start mask) h g =
  for_each start n (λ pin, if N.testbit mask pin then call_handler pin else mret tt) h g.
Proof.
  revert start fuel h g. induction n as [|n IH]; intros start fuel h g Hhigh Hle Hf.
  { rewrite from_bit_zero by (intros i Hi; apply Hhigh; lia). destruct fuel; [lia|done]. }
  cbn [for_each]. destruct (N.testbit mask start) eqn:Hs.
  - destruct fuel as [|fuel]; [lia|]. cbn [dispatch_loop].
    destruct (N.eqb_spec (from_bit start mask) 0) as [H0|_].
    { pose proof (from_bit_spec start mask start) as Hb. rewrite H0, Hs, N.leb_refl in Hb. done. }
    rewrite (pin_loop_spec 33 _ 0 start); [|intros i Hi; rewrite from_bit_spec; destruct (N.leb_spec start i); [lia|done]
      |by rewrite from_bit_spec, Hs, N.leb_refl|lia|lia].
    unfold mbind, driver_bind, lift. cbn.
    destruct (call_handler start h g) as [[[h1 g1] []]|]; [|done]. rewrite from_bit_next by done. apply IH; [intros i Hi; apply Hhigh; lia|lia|lia].
  - rewrite from_bit_skip by done. unfold mbind, driver_bind, mret, driver_ret.
    apply IH; [intros i Hi; apply Hhigh; lia|lia|lia].
Qed.

Lemma masked_bit mask i : N.testbit (N.land mask 0x3FFFFF) i = (i <? 22) && N.testbit mask i.
Proof.
  rewrite N.land_spec. change 0x3FFFFF with (N.ones 22). destruct (N.ltb_spec i 22).
  - rewrite N.ones_spec_low by done. by rewrite andb_true_r.
  - rewrite N.ones_spec_high by done. by rewrite andb_false_r.
Qed.

Lemma for_each_ext start n (f f' : N → driver HW G unit) h g :
  (∀ i h g, start ≤ i < start + N.of_nat n → f i h g = f' i h g) → for_each start n f h g = for_each start n f' h g.
Proof.
  revert start h g. induction n as [|n IH]; intros start h g Hf; [done|]. cbn [for_each].
  unfold mbind, driver_bind. rewrite Hf by lia. destruct (f' start h g) as [[[h1 g1] []]|]; [|done].
  apply IH. intros i h2 g2 Hi. apply Hf. lia.
Qed.

(** The interrupt dispatcher of the pins is the plain loop over the 22
    pins: it calls the handler of every pending pin that has one, once, in
    ascending order, with the pin and the context of its slot, whatever the
    handlers do (they may change the table); bits above the pins are
    ignored, and the two nested loops end. *)
Theorem gpio_dispatch_serves_pins pending_mask h g :
  esp32c3_gpio_interrupt_dispatch pending_mask h g = serve_pins pending_mask h g.
Proof.
  unfold esp32c3_gpio_interrupt_dispatch, serve_pins.
  assert (N.land pending_mask 0x3FFFFF = from_bit 0 (N.land pending_mask 0x3FFFFF)) as ->
    by (unfold from_bit; by rewrite N.shiftr_0_r, N.shiftl_0_r).
  rewrite (dispatch_from 22); [|intros i Hi; rewrite masked_bit; destruct (N.ltb_spec i 22); [lia|done]|lia|lia].
  apply for_each_ext. intros i h1 g1 Hi. rewrite masked_bit. destruct (N.ltb_spec i 22); [done|lia].
Qed.

End interrupts.
