(* ===== verification/Uart.v ===== *)
(** * The serial port ([drivers/uart.c])

    Characters go to a transmit FIFO; [Uart] states what the driver relies on
    of the device. *)

From S2P Require Import Prelude Soc.

Local Open Scope N_scope.

Definition UART_FIFO_CAPACITY : N := 128.
Definition APB_CLK_HZ : N := 80000000.
Definition UART_BAUD_RATE : N := 115200.

Section uart.
Context {HW : Type} `{!Bus HW} {G : Type}.
Abbreviation io := (driver HW G).

Definition uart0_init : io unit :=
  _ ← reg_set_bits SYSTEM_PERIP_CLK_EN0_REG (N.lor SYSTEM_UART_CLK_EN_BIT SYSTEM_UART_MEM_CLK_EN_BIT);
  _ ← reg_set_bits SYSTEM_PERIP_RST_EN0_REG SYSTEM_UART_RST_BIT;
  _ ← reg_set_bits SYSTEM_PERIP_RST_EN0_REG SYSTEM_UART_MEM_RST_BIT;
  _ ← reg_clear_bits SYSTEM_PERIP_RST_EN0_REG SYSTEM_UART_RST_BIT;
  _ ← reg_clear_bits SYSTEM_PERIP_RST_EN0_REG SYSTEM_UART_MEM_RST_BIT;
  _ ← reg_write UART_CLKDIV_REG (APB_CLK_HZ / UART_BAUD_RATE);
  _ ← reg_write UART_CONF0_REG (N.lor UART_TXFIFO_RST_BIT UART_RXFIFO_RST_BIT);
  _ ← reg_write UART_CONF0_REG 0;
  reg_write UART_CONF1_REG 0.

(** The test of the waiting loop. *)
Definition uart0_full : io bool :=
  status ← reg_read UART_STATUS_REG;
  mret (UART_FIFO_CAPACITY <=? N.shiftr (N.land status UART_TXFIFO_CNT_MASK) UART_TXFIFO_CNT_SHIFT).

Definition uart0_putc (c : ascii) : io unit :=
  _ ← while_do bus_patience uart0_full (mret tt);
  reg_write UART_FIFO_REG (code c).

Fixpoint uart0_puts (s : cstr) : io unit :=
  match s with
  | [] => mret tt
  | c :: s' =>
      _ ← (if code c =? 10 then uart0_putc (ascii_of_N 13) else mret tt);
      _ ← uart0_putc c;
      uart0_puts s'
  end.

(** [hex[index]]. *)
Definition hex_digit (index : N) : option ascii := aget (cs "0123456789abcdef") index.

(** [for (int shift = 28; shift >= 0; shift -= 4)], with [count] rounds left. *)
Fixpoint puthex_loop (count : nat) (value : N) : io unit :=
  match count with
  | O => mret tt
  | S count' =>
      digit ← lift (hex_digit (N.land (N.shiftr value (4 * N.of_nat count')) 0xF));
      _ ← uart0_putc digit;
      puthex_loop count' value
  end.

Definition uart0_puthex32 (value : N) : io unit := puthex_loop 8 value.

(** [while (value > 0u) buf[i++] = ...; value /= 10u;]: the buffer of ten
    characters is given by its first [i] entries; one more is out of it. *)
Fixpoint decimal_loop (fuel : nat) (value : N) (buf : list ascii) : option (list ascii) :=
  match fuel with
  | O => None
  | S fuel' =>
      if 0 <? value then
        if (10 <=? length buf)%nat then None
        else decimal_loop fuel' (value / 10) (buf ++ [ascii_of_N (48 + value mod 10)])
      else Some buf
  end.

(** Eleven rounds: ten digits and the last test. *)
Definition decimal_digits (value : N) : option (list ascii) := decimal_loop 11 value [].

(** [while (i > 0) putc(buf[--i]);]. *)
Fixpoint put_backwards (putc : ascii → io unit) (buf : list ascii) : io unit :=
  match buf with
  | [] => mret tt
  | c :: buf' => _ ← put_backwards putc buf'; putc c
  end.

Definition uart0_putdec_u32 (value : N) : io unit :=
  if value =? 0 then uart0_putc "0"
  else buf ← lift (decimal_digits value); put_backwards uart0_putc buf.

(** The character, when the pointer is there and one has arrived. *)
Definition uart0_try_getc (c : bool) : io (option ascii) :=
  if negb c then mret None
  else
    status ← reg_read UART_STATUS_REG;
    if N.land status UART_RXFIFO_CNT_MASK =? 0 then mret None
    else value ← reg_read UART_FIFO_REG; mret (Some (ascii_of_N (N.land value 0xFF))).

End uart.

(** ** What the device does *)

Definition uart_register (reg : N) : bool := (UART0_BASE <=? reg) && (reg <? UART0_BASE + 0x1000).

(** The number of characters in the transmit FIFO, as the status has it. *)
Definition fifo_count (status : N) : N := N.shiftr (N.land status UART_TXFIFO_CNT_MASK) UART_TXFIFO_CNT_SHIFT.

(** [uart_sent] is what went into the FIFO so far.  A status below the
    capacity says that there is room for one more; the line takes characters
    out, so that this is so after [uart_wait] reads. *)
Class UartDevice (HW : Type) `{!Bus HW} := {
  uart_sent : HW → list N;
  uart_room : HW → bool;
  uart_wait : HW → nat;
  uart_status_read h :
    uart_sent (bus_read UART_STATUS_REG h).1 = uart_sent h ∧
    uart_room (bus_read UART_STATUS_REG h).1 =
      negb (UART_FIFO_CAPACITY <=? fifo_count (bus_read UART_STATUS_REG h).2) ∧
    (uart_room (bus_read UART_STATUS_REG h).1 = false →
       uart_wait (bus_read UART_STATUS_REG h).1 < uart_wait h)%nat;
  uart_fifo_write value h :
    uart_room h = true → uart_sent (bus_write UART_FIFO_REG value h) = uart_sent h ++ [value];
  uart_patience h : (uart_wait h < bus_patience)%nat;
  uart_other_read reg h : uart_register reg = false → uart_sent (bus_read reg h).1 = uart_sent h;
  uart_other_write reg value h :
    uart_register reg = false → uart_sent (bus_write reg value h) = uart_sent h;
  uart_csr_read csr h : uart_sent (csr_read csr h).1 = uart_sent h;
  uart_csr_write csr value h : uart_sent (csr_write csr value h) = uart_sent h
}.

(** ** Characters and numbers on the line *)

(** The value of digits, the first one the most significant. *)
Definition decimal_value (digits : list ascii) : N := foldl (λ v c, 10 * v + (code c - 48)) 0 digits.
Definition is_digit (c : ascii) : bool := (48 <=? code c) && (code c <? 58).

(** The character of a digit: 0 to 9, then a to f. *)
Definition digit_char (digit : N) : ascii := ascii_of_N (if digit <? 10 then 48 + digit else 87 + digit).

(** The lowest [count] digits of a number, the most significant first. *)
Definition positional (base : N) (count : nat) (value : N) : list ascii :=
  (λ i, digit_char (value / base ^ N.of_nat i mod base)) <$> reverse (seq 0 count).

(** The number of decimal digits, at least one. *)
Definition decimal_width (value : N) : nat :=
  default 10%nat (snd <$> list_find (λ n, value < 10 ^ N.of_nat n) (seq 1 10)).

Definition decimal (value : N) : list ascii := positional 10 (decimal_width value) value.

(** The eight digits of a 32-bit number in base sixteen. *)
Definition hexadecimal (value : N) : list ascii := positional 16 8 value.

(** * The serial port: what is sent

    Waiting for room ends, and characters, decimal and hexadecimal numbers
    are sent as their digits. *)

(** ** Digits *)

Lemma positional_S base count value :
  base ≠ 0 → positional base (S count) value =
    positional base count (value / base) ++ [digit_char (value mod base)].
Proof.
  intros Hb. unfold positional. cbn [seq]. rewrite reverse_cons, fmap_app, <-fmap_S_seq, <-fmap_reverse, <-list_fmap_compose.
  f_equal; [|cbn; by rewrite N.pow_0_r, N.div_1_r]. apply list_fmap_ext. intros _ i _. unfold compose.
  by rewrite Nat2N.inj_succ, N.pow_succ_r', N.Div0.div_div.
Qed.

(** The code's digits, lowest first, of a number of [k] digits. *)
Lemma digits_loop_positional k fuel value buf :
  value < 10 ^ N.of_nat k → (value = 0 ↔ k = 0%nat) → (∀ j, k = S j → 10 ^ N.of_nat j ≤ value) →
  (k < fuel)%nat → (length buf + k ≤ 10)%nat →
  decimal_loop fuel value buf = Some (buf ++ reverse (positional 10 k value)).
Proof.
  revert fuel value buf. induction k as [|k IH]; intros fuel value buf Hv Hz Hlow Hf Hl;
    (destruct fuel as [|fuel]; [lia|]); cbn [decimal_loop].
  { rewrite (proj2 Hz eq_refl). change (0 <? 0) with false. by rewrite app_nil_r. }
  destruct (N.ltb_spec 0 value) as [Hpos|Hz0]; [|assert (value = 0) as E by lia; by apply Hz in E].
  destruct (Nat.leb_spec 10 (length buf)); [lia|]. specialize (Hlow k eq_refl).
  rewrite Nat2N.inj_succ, N.pow_succ_r' in Hv. rewrite (IH fuel (value / 10)); try lia.
  - rewrite positional_S, reverse_app by done. cbn [reverse rev_append app]. rewrite <-app_assoc. cbn [app].
    do 3 f_equal. unfold digit_char. pose proof (N.mod_lt value 10 ltac:(done)).
    by destruct (N.ltb_spec (value mod 10) 10); [|lia].
  - apply N.Div0.div_lt_upper_bound. lia.
  - split; [|intros ->; apply N.div_small; change (10 ^ N.of_nat 0) with 1 in Hv; lia].
    intros H0. destruct k as [|k]; [done|]. exfalso. rewrite Nat2N.inj_succ, N.pow_succ_r' in Hlow.
    apply N.div_small_iff in H0; [|done]. pose proof (N.pow_nonzero 10 (N.of_nat k)). nia.
  - intros j ->. rewrite Nat2N.inj_succ, N.pow_succ_r' in Hlow. apply N.div_le_lower_bound; [done|]. lia.
  - rewrite length_app. simpl. lia.
Qed.

Lemma digit_code value : code (ascii_of_N (48 + value mod 10)) = 48 + value mod 10.
Proof. unfold code. apply N_ascii_embedding. pose proof (N.mod_lt value 10 ltac:(done)). lia. Qed.

Lemma digit_is_digit value : is_digit (ascii_of_N (48 + value mod 10)) = true.
Proof.
  unfold is_digit. rewrite digit_code. pose proof (N.mod_lt value 10 ltac:(done)) as H.
  revert H. generalize (value mod 10). intros m Hm.
  apply andb_true_intro. split; [apply N.leb_le|apply N.ltb_lt]; lia.
Qed.

(** The buffer is filled from the lowest digit on. *)
Lemma digits_loop_spec k fuel value buf :
  value < 10 ^ N.of_nat k → (k < fuel)%nat → (length buf + k ≤ 10)%nat →
  ∃ ds, decimal_loop fuel value buf = Some (buf ++ ds) ∧ (length ds ≤ k)%nat ∧ forallb is_digit ds = true ∧
    decimal_value (reverse ds) = value ∧ (value = 0 → ds = []) ∧
    (value ≠ 0 → ∃ c, last ds = Some c ∧ code c ≠ 48).
Proof.
  revert fuel value buf. induction k as [|k IH]; intros fuel value buf Hv Hf Hl; (destruct fuel as [|fuel]; [lia|]);
    cbn [decimal_loop]; (destruct (N.ltb_spec 0 value) as [Hpos|Hz];
      [|replace value with 0 by lia; exists []; rewrite app_nil_r; split_and!; (done || naive_solver || (simpl; lia))]).
  { change (10 ^ N.of_nat 0) with 1 in Hv. lia. }
  destruct (Nat.leb_spec 10 (length buf)); [lia|].
  assert (value / 10 < 10 ^ N.of_nat k) as Hv'.
  { rewrite Nat2N.inj_succ, N.pow_succ_r' in Hv. apply N.Div0.div_lt_upper_bound. lia. }
  destruct (IH fuel (value / 10) (buf ++ [ascii_of_N (48 + value mod 10)])) as (ds & -> & Hlen & Hd & Hval & Hnil & Hlast);
    [done|lia|rewrite length_app; simpl; lia|].
  pose proof (N.div_mod value 10 ltac:(done)) as Hdm.
  exists (ascii_of_N (48 + value mod 10) :: ds). rewrite <-app_assoc. split_and!; [done|simpl; lia| | |intros ->; by apply N.lt_irrefl in Hpos|].
  - cbn [forallb]. by rewrite digit_is_digit.
  - rewrite reverse_cons. unfold decimal_value in *. rewrite foldl_app. cbn [foldl]. rewrite Hval, digit_code, (N.add_comm 48), N.add_sub. by symmetry.
  - intros _. destruct (N.eq_dec (value / 10) 0) as [H0|Hne].
    + rewrite (Hnil H0). eexists. split; [done|]. rewrite digit_code.
      clear -Hpos Hdm H0. revert Hdm H0. generalize (value / 10), (value mod 10). lia.
    + destruct (Hlast Hne) as (c & Hc & Hc'). exists c. split; [|done]. by rewrite last_cons, Hc.
Qed.

(** The number as the code's loops print it. *)
Definition code_decimal (value : N) : list ascii :=
  if value =? 0 then ["0"%char] else reverse (default [] (decimal_digits value)).

Lemma code_decimal_spec value :
  value < 4294967296 →
  (value ≠ 0 → ∃ buf, decimal_digits value = Some buf ∧ reverse buf = code_decimal value) ∧
  (1 ≤ length (code_decimal value) ≤ 10)%nat ∧ forallb is_digit (code_decimal value) = true ∧
  decimal_value (code_decimal value) = value ∧ (value ≠ 0 → ∃ c, head (code_decimal value) = Some c ∧ code c ≠ 48).
Proof.
  intros Hv. destruct (digits_loop_spec 10 11 value []) as (ds & Hl & Hlen & Hd & Hval & Hnil & Hlast);
    [eapply N.lt_trans; [exact Hv|done]|lia|simpl; lia|].
  unfold code_decimal, decimal_digits. rewrite Hl. cbn [app default from_option id].
  destruct (N.eqb_spec value 0) as [->|Hne]; [split_and!; (done || naive_solver || (simpl; lia))|].
  destruct (Hlast Hne) as (c & Hc & Hc'). split; [by exists ds|]. rewrite length_reverse. split_and!; [|lia| |done|].
  - destruct ds; [done|simpl; lia].
  - rewrite forallb_forall in *. intros x Hx. apply Hd. apply list_elem_of_In, elem_of_reverse, list_elem_of_In. done.
  - intros _. exists c. by rewrite head_reverse.
Qed.

Lemma decimal_width_spec value :
  value < 10000000000 →
  value < 10 ^ N.of_nat (decimal_width value) ∧ (1 ≤ decimal_width value ≤ 10)%nat ∧
  (decimal_width value ≠ 1%nat → 10 ^ N.of_nat (decimal_width value - 1) ≤ value).
Proof.
  intros Hv. unfold decimal_width. destruct (list_find _ _) as [[j n]|] eqn:E; cbn.
  - apply list_find_Some in E as (Hj & Hn & Hbefore). apply lookup_seq in Hj as [-> Hj]. split; [done|]. split; [lia|].
    intros Hne. destruct j as [|j]; [done|]. specialize (Hbefore j (S j)).
    apply N.nlt_ge. replace (1 + S j - 1)%nat with (S j) by lia. apply Hbefore; [apply lookup_seq; lia|lia].
  - apply list_find_None in E. rewrite Forall_forall in E. exfalso. apply (E 10%nat); [|exact Hv].
    apply list_elem_of_lookup. exists 9%nat. done.
Qed.

(** The code's loops print the decimal digits. *)
Lemma decimal_code value : value < 4294967296 → decimal value = code_decimal value.
Proof.
  intros Hv. unfold code_decimal. destruct (N.eqb_spec value 0) as [->|Hne]; [done|]. unfold decimal, decimal_digits.
  destruct (decimal_width_spec value ltac:(lia)) as (Hlt & Hw & Hlow).
  rewrite (digits_loop_positional (decimal_width value)); [rewrite app_nil_l; cbn [default from_option id]; by rewrite reverse_involutive|done|split; [done|lia]| |lia|simpl; lia].
  intros j Hj. destruct (decide (decimal_width value = 1%nat)) as [H1|H1].
  - assert (j = 0%nat) as -> by lia. change (10 ^ N.of_nat 0) with 1. lia.
  - rewrite Hj in Hlow, H1. replace (S j - 1)%nat with j in Hlow by lia. by apply Hlow.
Qed.

Lemma decimal_is_decimal value :
  value < 4294967296 →
  (value ≠ 0 → ∃ buf, decimal_digits value = Some buf ∧ reverse buf = decimal value) ∧
  (1 ≤ length (decimal value) ≤ 10)%nat ∧ forallb is_digit (decimal value) = true ∧
  decimal_value (decimal value) = value ∧ (value ≠ 0 → ∃ c, head (decimal value) = Some c ∧ code c ≠ 48).
Proof. intros Hv. rewrite decimal_code by done. by apply code_decimal_spec. Qed.

Lemma hex_digit_char digit : digit < 16 → hex_digit digit = Some (digit_char digit).
Proof.
  intros H. assert (Forall (λ d, hex_digit d = Some (digit_char d)) (N.of_nat <$> seq 0 16)) as Hall
    by (repeat constructor).
  rewrite Forall_forall in Hall. apply Hall, list_elem_of_fmap. exists (N.to_nat digit).
  split; [by rewrite N2Nat.id|]. apply elem_of_seq. lia.
Qed.

(** The digits as the code takes them out of the number. *)
Lemma hexadecimal_code value :
  hexadecimal value = (λ shift, default "0"%char (hex_digit (N.land (N.shiftr value shift) 0xF))) <$>
    [28; 24; 20; 16; 12; 8; 4; 0].
Proof.
  unfold hexadecimal, positional.
  change [28; 24; 20; 16; 12; 8; 4; 0] with ((λ i, 4 * N.of_nat i) <$> reverse (seq 0 8)).
  rewrite <-list_fmap_compose. apply list_fmap_ext. intros _ i _. unfold compose.
  change 0xF with (N.ones 4). rewrite N.land_ones, hex_digit_char by by apply N.mod_lt. cbn [default from_option id].
  by rewrite N.shiftr_div_pow2, N.pow_mul_r.
Qed.

Lemma hex_digit_defined index : index < 16 → is_Some (hex_digit index).
Proof. intros H. unfold hex_digit. apply aget_is_Some. exact H. Qed.

(** ** Sending *)

Section sends.
Context {HW : Type} `{!Bus HW, !UartDevice HW} {G : Type}.

(** What the driver does to the rest of the hardware. *)
Definition uart_frame (P : HW → Prop) : Prop :=
  (∀ h, P h → P (bus_read UART_STATUS_REG h).1) ∧ (∀ value h, P h → P (bus_write UART_FIFO_REG value h)).

(** [m] returns and sends the characters, and touches nothing else. *)
Definition sends (m : driver HW G unit) (characters : list N) : Prop :=
  ∀ P h g, uart_frame P → P h →
    runs m h g (λ _ h' g', g' = g ∧ P h' ∧ uart_sent h' = uart_sent h ++ characters).

Lemma sends_nothing : sends (mret tt) [].
Proof. intros P h g _ HP. apply runs_ret. by rewrite app_nil_r. Qed.

Lemma sends_then m m' l l' : sends m l → sends m' l' → sends (_ ← m; m') (l ++ l').
Proof.
  intros Hm Hm' P h g Hf HP. apply runs_bind. eapply runs_weaken; [by apply Hm|].
  intros _ h1 g1 (-> & HP1 & H1). eapply runs_weaken; [by apply Hm'|]. intros _ h2 g2 (-> & HP2 & H2).
  split_and!; [done|done|]. by rewrite H2, H1, app_assoc.
Qed.

Lemma sends_lift {A} (o : option A) a (f : A → driver HW G unit) l : o = Some a → sends (f a) l → sends (a ← lift o; f a) l.
Proof. intros Ho Hf P h g HP HPh. apply runs_bind. eapply runs_lift; [done|]. by apply Hf. Qed.

Lemma sends_putc c : sends (uart0_putc c) [code c].
Proof.
  intros P h g (Hr & Hw) HP. apply runs_bind.
  apply (runs_while (λ n h' g', n = uart_wait h' ∧ g' = g ∧ P h' ∧ uart_sent h' = uart_sent h) _ _ _ _ _ (uart_wait h));
    [done|apply uart_patience|]. clear -Hr Hw.
  intros n h1 g1 (-> & -> & HP & Hs). unfold uart0_full. apply runs_bind, runs_read, runs_ret.
  destruct (uart_status_read h1) as (H1 & H2 & H3). unfold fifo_count in H2.
  destruct (_ <=? _); cbn in H2; cbn.
  - apply runs_ret. eexists. split; [apply (H3 H2)|]. split_and!; [done|done|by apply Hr|congruence].
  - apply runs_write. split_and!; [done|by apply Hw, Hr|]. rewrite uart_fifo_write by done. congruence.
Qed.

Lemma sends_backwards buf : sends (put_backwards uart0_putc buf) (code <$> reverse buf).
Proof.
  induction buf as [|c buf IH]; [apply sends_nothing|]. cbn [put_backwards].
  rewrite reverse_cons, fmap_app. apply sends_then; [done|apply sends_putc].
Qed.

Lemma sends_decimal value : value < 4294967296 → sends (uart0_putdec_u32 value) (code <$> decimal value).
Proof.
  intros Hv. destruct (decimal_is_decimal value Hv) as (Hbuf & _). unfold uart0_putdec_u32.
  destruct (N.eqb_spec value 0) as [->|Hne]; [apply sends_putc|].
  destruct (Hbuf Hne) as (buf & Hb & <-). eapply sends_lift; [exact Hb|apply sends_backwards].
Qed.

Lemma sends_hexadecimal value : sends (uart0_puthex32 value) (code <$> hexadecimal value).
Proof.
  unfold uart0_puthex32. rewrite hexadecimal_code.
  set (digits := _ <$> [28; 24; 20; 16; 12; 8; 4; 0]).
  assert (∀ n, (n ≤ 8)%nat → sends (puthex_loop n value) (code <$> drop (8 - n) digits)) as H;
    [|by apply (H 8%nat)].
  induction n as [|n IH]; intros Hn; [apply sends_nothing|]. cbn [puthex_loop].
  destruct (hex_digit_defined (N.land (N.shiftr value (4 * N.of_nat n)) 0xF)) as (c & Hc).
  { change 0xF with (N.ones 4). rewrite N.land_ones. by apply N.mod_lt. }
  eapply sends_lift; [exact Hc|].
  assert (drop (8 - S n) digits = c :: drop (8 - n) digits) as ->.
  { rewrite (drop_S _ c (8 - S n)); [f_equal; f_equal; lia|]. unfold digits. rewrite list_lookup_fmap.
    assert ([28; 24; 20; 16; 12; 8; 4; 0] !! (8 - S n)%nat = Some (4 * N.of_nat n)) as ->
      by (do 8 (destruct n as [|n]; [done|]); lia).
    cbn [fmap option_fmap option_map]. by rewrite Hc. }
  apply (sends_then _ _ [code c]); [apply sends_putc|apply IH; lia].
Qed.

(** [uart0_puts] sends a carriage return before each line feed. *)
Definition with_returns (c : ascii) : list N := if code c =? 10 then [13; 10] else [code c].

Lemma sends_string s : sends (uart0_puts s) (concat (with_returns <$> s)).
Proof.
  induction s as [|c s IH]; [apply sends_nothing|]. cbn [uart0_puts fmap list_fmap concat]. unfold with_returns at 1.
  destruct (N.eqb_spec (code c) 10) as [E|].
  - rewrite <-E. apply (sends_then _ _ [13]); [apply (sends_putc "013"%char)|]. by apply (sends_then _ _ [code c]); [apply sends_putc|].
  - apply (sends_then _ _ []); [apply sends_nothing|]. by apply (sends_then _ _ [code c]); [apply sends_putc|].
Qed.
End sends.
