(* ===== verification/UsbSerialJtag.v ===== *)
(** * The USB console ([drivers/usb_serial_jtag.c])

    Characters are gathered in a packet of 64 and handed to the device; a
    packet the host does not take within the time is dropped. *)

From S2P Require Import Prelude Soc.

Local Open Scope N_scope.

Definition USB_SERIAL_TIMEOUT_ITERATIONS : positive := 500000.
Definition USB_SERIAL_PACKET_SIZE : N := 64.

(** The globals of the file. *)
Record usb_state := UsbState { g_tx_packet : list N; g_tx_packet_len : N }.

Definition set_tx_packet_len (len : N) (g : usb_state) : usb_state := UsbState (g_tx_packet g) len.

Section usb.
Context {HW : Type} `{!Bus HW}.
Abbreviation io := (driver HW usb_state).

(** [while ((... & FREE) == 0u) if (spins++ >= TIMEOUT) return 0; return 1;]
    reads the register once more than the limit says. *)
Definition usb_serial_jtag_wait_writable : io bool :=
  try_times (USB_SERIAL_TIMEOUT_ITERATIONS + 1)
    (conf ← reg_read USB_SERIAL_JTAG_EP1_CONF_REG;
     mret (negb (N.land conf USB_SERIAL_JTAG_SERIAL_IN_EP_DATA_FREE_BIT =? 0))).

Definition usb_serial_jtag_flush_zlp_if_needed (packet_len : N) : io unit :=
  if negb (packet_len =? USB_SERIAL_PACKET_SIZE) then mret tt
  else
    writable ← usb_serial_jtag_wait_writable;
    if negb writable then mret tt
    else reg_set_bits USB_SERIAL_JTAG_EP1_CONF_REG USB_SERIAL_JTAG_WR_DONE_BIT.

Definition clear_packet : io unit := g ← get_globals; set_globals (set_tx_packet_len 0 g).

Definition usb_serial_jtag_flush_packet : io unit :=
  g ← get_globals;
  let packet_len := g_tx_packet_len g in
  if packet_len =? 0 then mret tt
  else
    writable ← usb_serial_jtag_wait_writable;
    if negb writable then clear_packet
    else
      _ ← for_each 0 (N.to_nat packet_len) (λ i,
            g ← get_globals;
            byte ← lift (aget (g_tx_packet g) i);
            reg_write USB_SERIAL_JTAG_EP1_REG byte);
      _ ← reg_set_bits USB_SERIAL_JTAG_EP1_CONF_REG USB_SERIAL_JTAG_WR_DONE_BIT;
      _ ← clear_packet;
      usb_serial_jtag_flush_zlp_if_needed packet_len.

Definition usb_serial_jtag_init : io unit :=
  _ ← reg_clear_bits USB_SERIAL_JTAG_CONF0_REG USB_SERIAL_JTAG_PHY_SEL_BIT;
  _ ← reg_set_bits USB_SERIAL_JTAG_CONF0_REG USB_SERIAL_JTAG_USB_PAD_ENABLE_BIT;
  _ ← reg_set_bits USB_SERIAL_JTAG_MISC_CONF_REG USB_SERIAL_JTAG_CLK_EN_BIT;
  _ ← reg_clear_bits USB_SERIAL_JTAG_MEM_CONF_REG USB_SERIAL_JTAG_MEM_PD_BIT;
  _ ← reg_set_bits USB_SERIAL_JTAG_MEM_CONF_REG USB_SERIAL_JTAG_MEM_CLK_EN_BIT;
  clear_packet.

Definition usb_serial_jtag_putc (c : ascii) : io unit :=
  g ← get_globals;
  packet ← lift (aset (g_tx_packet g) (g_tx_packet_len g) (code c));
  _ ← set_globals (UsbState packet (u32 (g_tx_packet_len g + 1)));
  g ← get_globals;
  if g_tx_packet_len g =? USB_SERIAL_PACKET_SIZE then usb_serial_jtag_flush_packet else mret tt.

Definition usb_serial_jtag_flush : io unit := usb_serial_jtag_flush_packet.

End usb.

(** ** What the device does *)

Definition usb_register (reg : N) : bool := (USB_SERIAL_JTAG_BASE <=? reg) && (reg <? USB_SERIAL_JTAG_BASE + 0x1000).

(** [usb_written] are the bytes written to the endpoint so far;
    [usb_handed] the number of them that have been handed to the host, at
    the last write of WR_DONE.  When the host listens, an attempt within
    [usb_wait] reads finds the endpoint free. *)
Class UsbDevice (HW : Type) `{!Bus HW} := {
  usb_written : HW → list N;
  usb_handed : HW → N;
  usb_listens : Prop;
  usb_wait : HW → nat;
  usb_read reg h :
    usb_written (bus_read reg h).1 = usb_written h ∧ usb_handed (bus_read reg h).1 = usb_handed h;
  usb_conf_free h :
    usb_listens → N.land (bus_read USB_SERIAL_JTAG_EP1_CONF_REG h).2 USB_SERIAL_JTAG_SERIAL_IN_EP_DATA_FREE_BIT = 0 →
    (usb_wait (bus_read USB_SERIAL_JTAG_EP1_CONF_REG h).1 < usb_wait h)%nat;
  usb_wait_bound h : (usb_wait h ≤ Pos.to_nat USB_SERIAL_TIMEOUT_ITERATIONS)%nat;
  usb_byte_write byte h :
    usb_written (bus_write USB_SERIAL_JTAG_EP1_REG byte h) = usb_written h ++ [byte] ∧
    usb_handed (bus_write USB_SERIAL_JTAG_EP1_REG byte h) = usb_handed h;
  usb_done_write value h :
    N.testbit value 0 = true →
    usb_written (bus_write USB_SERIAL_JTAG_EP1_CONF_REG value h) = usb_written h ∧
    usb_handed (bus_write USB_SERIAL_JTAG_EP1_CONF_REG value h) = N.of_nat (length (usb_written h));
  usb_other_write reg value h :
    usb_register reg = false →
    usb_written (bus_write reg value h) = usb_written h ∧ usb_handed (bus_write reg value h) = usb_handed h;
  usb_csr_read csr h :
    usb_written (csr_read csr h).1 = usb_written h ∧ usb_handed (csr_read csr h).1 = usb_handed h;
  usb_csr_write csr value h :
    usb_written (csr_write csr value h) = usb_written h ∧ usb_handed (csr_write csr value h) = usb_handed h
}.

(** ** What is sent *)

Section proofs.
Context {HW : Type} `{!Bus HW, !UsbDevice HW}.

Definition usb_state_ok (g : usb_state) : Prop := length (g_tx_packet g) = 64%nat ∧ g_tx_packet_len g < 64.
(** The bytes that wait in the packet. *)
Definition waiting (g : usb_state) : list N := take (N.to_nat (g_tx_packet_len g)) (g_tx_packet g).

(** All bytes but those still waiting have been handed to the host. *)
Definition all_handed (h : HW) : Prop := usb_handed h = N.of_nat (length (usb_written h)).

(** What the driver does to the rest of the hardware. *)
Definition usb_frame (P : HW → Prop) : Prop :=
  (∀ reg h, usb_register reg = true → P h → P (bus_read reg h).1) ∧
  (∀ reg value h, usb_register reg = true → P h → P (bus_write reg value h)).

Implicit Types (P : HW → Prop) (h : HW) (g : usb_state).

Lemma wait_runs P h g :
  usb_frame P → P h →
  runs usb_serial_jtag_wait_writable h g (λ writable h' g',
    g' = g ∧ P h' ∧ usb_written h' = usb_written h ∧ usb_handed h' = usb_handed h ∧
    (usb_listens → writable = true)).
Proof.
  intros (Hr & _) HP. unfold usb_serial_jtag_wait_writable.
  set (Q := λ h' g', g' = g ∧ P h' ∧ usb_written h' = usb_written h ∧ usb_handed h' = usb_handed h).
  set (I := λ n h' g', Q h' g' ∧ (usb_listens → (usb_wait h' + n ≤ usb_wait h)%nat)).
  eapply runs_weaken; [apply (runs_try I Q _ _ h g 0)|].
  - split; [by split_and!|]. intros _. lia.
  - intros n h1 g1 ((-> & HP1 & Hw & Hh) & Hn). apply runs_bind, runs_read, runs_ret.
    destruct (usb_read USB_SERIAL_JTAG_EP1_CONF_REG h1) as (H1 & H2).
    assert (Q (bus_read USB_SERIAL_JTAG_EP1_CONF_REG h1).1 g) as HQ
      by (split_and!; [done|by apply Hr|congruence|congruence]).
    destruct (N.eqb_spec (N.land (bus_read USB_SERIAL_JTAG_EP1_CONF_REG h1).2
      USB_SERIAL_JTAG_SERIAL_IN_EP_DATA_FREE_BIT) 0) as [E|]; [|exact HQ].
    split; [exact HQ|]. intros Hl. pose proof (usb_conf_free h1 Hl E). specialize (Hn Hl). lia.
  - intros [] h' g' Hend; cbn in Hend.
    + destruct Hend as (-> & ? & ? & ?). by split_and!.
    + destruct Hend as ((-> & ? & ? & ?) & Hl). split_and!; [done|done|done|done|].
      intros Hls. specialize (Hl Hls). pose proof (usb_wait_bound h). lia.
Qed.

Lemma done_bit value : N.testbit (N.lor value USB_SERIAL_JTAG_WR_DONE_BIT) 0 = true.
Proof. by rewrite N.lor_spec, orb_true_r. Qed.

Lemma hand_over_runs P h g :
  usb_frame P → P h →
  runs (reg_set_bits USB_SERIAL_JTAG_EP1_CONF_REG USB_SERIAL_JTAG_WR_DONE_BIT) h g (λ _ h' g',
    g' = g ∧ P h' ∧ usb_written h' = usb_written h ∧ all_handed h').
Proof.
  intros (Hr & Hw) HP. apply runs_bind, runs_read, runs_write.
  destruct (usb_read USB_SERIAL_JTAG_EP1_CONF_REG h) as (H1 & H2).
  edestruct usb_done_write as (H3 & H4); [apply done_bit|]. unfold all_handed. rewrite H3, H4, H1.
  split_and!; [done|by apply Hw, Hr|done|done].
Qed.

Lemma zlp_runs P h g len :
  usb_frame P → P h → all_handed h →
  runs (usb_serial_jtag_flush_zlp_if_needed len) h g (λ _ h' g',
    g' = g ∧ P h' ∧ usb_written h' = usb_written h ∧ all_handed h').
Proof.
  intros Hf HP Ha. unfold usb_serial_jtag_flush_zlp_if_needed. destruct (negb (len =? _)); [by apply runs_ret|].
  apply runs_bind. eapply runs_weaken; [by apply (wait_runs P)|]. intros writable h1 g1 (-> & HP1 & H1 & H2 & _).
  destruct writable; cbn [negb].
  - eapply runs_weaken; [by apply (hand_over_runs P)|]. intros _ h2 g2 (-> & HP2 & H3 & H4). by rewrite H3, H1.
  - apply runs_ret. split_and!; [done|done|done|]. unfold all_handed. by rewrite H1, H2.
Qed.

Lemma bytes_runs P h g l :
  usb_frame P → P h → g_tx_packet_len g ≤ N.of_nat (length (g_tx_packet g)) → l = waiting g →
  runs (for_each 0 (N.to_nat (g_tx_packet_len g)) (λ i,
          g ← get_globals; byte ← lift (aget (g_tx_packet g) i); reg_write USB_SERIAL_JTAG_EP1_REG byte)) h g
    (λ _ h' g', g' = g ∧ P h' ∧ usb_written h' = usb_written h ++ l).
Proof.
  intros (_ & Hw) HP Hlen ->.
  apply (runs_for (λ i h' g', g' = g ∧ P h' ∧ usb_written h' = usb_written h ++ take (N.to_nat i) (g_tx_packet g))).
  - rewrite take_0, app_nil_r. done.
  - intros i h1 g1 Hi (-> & HP1 & H1). apply runs_bind, runs_get_globals. apply runs_bind.
    destruct (aget_is_Some (g_tx_packet g) i) as (byte & Hb); [lia|]. eapply runs_lift; [exact Hb|].
    apply runs_write. destruct (usb_byte_write byte h1) as (H2 & _). split_and!; [done|by apply Hw|].
    rewrite H2, H1, <-app_assoc. f_equal. rewrite N.add_1_r, N2Nat.inj_succ.
    symmetry. apply take_S_r. by rewrite <-aget_lookup.
  - intros h1 g1 (-> & HP1 & H1). rewrite N.add_0_l, Nat2N.id in H1. done.
Qed.

Definition packet_fits (g : usb_state) : Prop := length (g_tx_packet g) = 64%nat ∧ g_tx_packet_len g ≤ 64.

Lemma cleared_ok g : packet_fits g → usb_state_ok (set_tx_packet_len 0 g) ∧ waiting (set_tx_packet_len 0 g) = [].
Proof. by intros (Hl & _). Qed.

(** The packet is empty afterwards, and its bytes are handed over if the host
    listens. *)
Lemma packet_flush_runs P h g :
  usb_frame P → P h → packet_fits g →
  runs usb_serial_jtag_flush_packet h g (λ _ h' g',
    (usb_state_ok g' ∧ waiting g' = []) ∧ P h' ∧
    (usb_listens → usb_written h' = usb_written h ++ waiting g ∧ (all_handed h → all_handed h'))).
Proof.
  intros Hf HP Hok. pose proof Hok as (Hl & Hlt). unfold usb_serial_jtag_flush_packet.
  apply runs_bind, runs_get_globals. destruct (N.eqb_spec (g_tx_packet_len g) 0) as [H0|Hne].
  { apply runs_ret. assert (waiting g = []) as Hw by (unfold waiting; by rewrite H0).
    rewrite Hw, app_nil_r. split; [|done]. split; [|done]. split; [done|lia]. }
  apply runs_bind. eapply runs_weaken; [by apply (wait_runs P)|].
  intros writable h1 g1 (-> & HP1 & H1 & H2 & Hwr).
  destruct writable; cbn [negb].
  2:{ apply runs_bind, runs_get_globals, runs_set_globals. split; [by apply cleared_ok|]. split; [done|].
      intros Hls. by specialize (Hwr Hls). }
  apply runs_bind. eapply runs_weaken; [apply (bytes_runs P h1 g (waiting g)); [done|done|lia|done]|].
  intros _ h2 g2 (-> & HP2 & H3). apply runs_bind. eapply runs_weaken; [by apply (hand_over_runs P)|].
  intros _ h3 g3 (-> & HP3 & H4 & H5). apply runs_bind. apply runs_bind, runs_get_globals, runs_set_globals.
  eapply runs_weaken; [by apply (zlp_runs P)|]. intros _ h4 g4 (-> & HP4 & H6 & H7).
  split; [by apply cleared_ok|]. split; [done|]. intros _. split; [|done]. by rewrite H6, H4, H3, H1.
Qed.

(** A character is put behind those that wait. *)
Lemma usb_putc_runs P h g c :
  usb_frame P → P h → usb_state_ok g →
  runs (usb_serial_jtag_putc c) h g (λ _ h' g',
    usb_state_ok g' ∧ P h' ∧
    (usb_listens → usb_written h' ++ waiting g' = usb_written h ++ waiting g ++ [code c] ∧
                   (all_handed h → all_handed h'))).
Proof.
  intros Hf HP (Hl & Hlt). unfold usb_serial_jtag_putc. apply runs_bind, runs_get_globals. apply runs_bind.
  eapply runs_lift; [apply aset_Some; lia|].
  apply runs_bind, runs_set_globals. apply runs_bind, runs_get_globals. cbn [g_tx_packet_len].
  rewrite u32_small by lia. set (g1 := UsbState _ _).
  assert (waiting g1 = waiting g ++ [code c]) as Hw.
  { unfold waiting. cbn [g1 g_tx_packet g_tx_packet_len]. rewrite N.add_1_r, N2Nat.inj_succ.
    rewrite (take_S_r _ _ (code c)) by (apply list_lookup_insert_eq; lia). by rewrite take_insert_ge by lia. }
  assert (packet_fits g1) as Hfit
    by (split; cbn [g1 g_tx_packet g_tx_packet_len]; [by rewrite length_insert|lia]).
  destruct (N.eqb_spec (g_tx_packet_len g + 1) USB_SERIAL_PACKET_SIZE) as [E|Hne].
  - eapply runs_weaken; [by apply (packet_flush_runs P)|]. intros _ h2 g2 ((Hok & H1) & HP2 & H2).
    split; [done|]. split; [done|]. intros Hls. destruct (H2 Hls) as (H3 & H4). split; [|done].
    by rewrite H1, H3, Hw, app_nil_r.
  - apply runs_ret. unfold USB_SERIAL_PACKET_SIZE in Hne. split; [split; [apply Hfit|cbn [g1 g_tx_packet_len]; lia]|].
    split; [done|]. intros _. by rewrite Hw.
Qed.
End proofs.
