(* ===== verification/Console.v ===== *)
(** * The console ([drivers/console.c])

    Every character goes to the serial port and, through a ring, to the USB
    console.  The calls run with interrupts off. *)

From S2P Require Import Prelude Soc Uart UsbSerialJtag.

Local Open Scope N_scope.

Definition CONSOLE_USB_TX_QUEUE_CAPACITY : N := 1024.

(** The globals of the file, and those of the USB driver behind it. *)
Record console_state := ConsoleState {
  g_console_usb_tx_queue : list ascii;
  g_console_usb_tx_head : N;
  g_console_usb_tx_tail : N;
  g_console_usb_tx_pending_flush : N;
  console_usb : usb_state
}.

Definition set_queue_tail (queue : list ascii) (tail : N) (g : console_state) : console_state :=
  ConsoleState queue (g_console_usb_tx_head g) tail (g_console_usb_tx_pending_flush g) (console_usb g).
Definition set_queue_head (head : N) (g : console_state) : console_state :=
  ConsoleState (g_console_usb_tx_queue g) head (g_console_usb_tx_tail g) (g_console_usb_tx_pending_flush g) (console_usb g).
Definition set_pending_flush (flush : N) (g : console_state) : console_state :=
  ConsoleState (g_console_usb_tx_queue g) (g_console_usb_tx_head g) (g_console_usb_tx_tail g) flush (console_usb g).
Definition set_console_usb (usb : usb_state) (g : console_state) : console_state :=
  ConsoleState (g_console_usb_tx_queue g) (g_console_usb_tx_head g) (g_console_usb_tx_tail g)
    (g_console_usb_tx_pending_flush g) usb.

Definition MSTATUS : N := 0x300.

Section console.
Context {HW : Type} `{!Bus HW}.
Abbreviation io := (driver HW console_state).

Definition usb {A} (m : driver HW usb_state A) : io A := within console_usb set_console_usb m.

(** [csrrci %0, mstatus, 8]. *)
Definition console_interrupts_save_disable : io N :=
  mstatus ← csr_get MSTATUS;
  _ ← csr_set MSTATUS (N.ldiff mstatus 8);
  mret mstatus.

(** [csrsi mstatus, 8]. *)
Definition console_interrupts_restore (mstatus : N) : io unit :=
  if nz (N.land mstatus (N.shiftl 1 3)) then
    value ← csr_get MSTATUS;
    csr_set MSTATUS (N.lor value 8)
  else mret tt.

Definition console_usb_tx_queue_next (index : N) : N := u32 (index + 1) mod CONSOLE_USB_TX_QUEUE_CAPACITY.

Definition console_usb_tx_queue_is_empty (g : console_state) : bool :=
  g_console_usb_tx_head g =? g_console_usb_tx_tail g.

Definition console_usb_tx_enqueue (c : ascii) : io unit :=
  g ← get_globals;
  let next := console_usb_tx_queue_next (g_console_usb_tx_tail g) in
  if next =? g_console_usb_tx_head g then mret tt
  else
    queue ← lift (aset (g_console_usb_tx_queue g) (g_console_usb_tx_tail g) c);
    _ ← set_globals (set_queue_tail queue next g);
    if code c =? 10 then g ← get_globals; set_globals (set_pending_flush 1 g) else mret tt.

(** The ring holds 1023 characters at most. *)
Definition console_usb_tx_drain : io unit :=
  _ ← while_do 1024 (g ← get_globals; mret (negb (console_usb_tx_queue_is_empty g)))
        (g ← get_globals;
         c ← lift (aget (g_console_usb_tx_queue g) (g_console_usb_tx_head g));
         _ ← usb (usb_serial_jtag_putc c);
         g ← get_globals;
         set_globals (set_queue_head (console_usb_tx_queue_next (g_console_usb_tx_head g)) g));
  g ← get_globals;
  if nz (g_console_usb_tx_pending_flush g) then
    _ ← usb usb_serial_jtag_flush;
    g ← get_globals;
    set_globals (set_pending_flush 0 g)
  else mret tt.

Definition console_putc_raw (c : ascii) : io unit :=
  _ ← uart0_putc c;
  _ ← console_usb_tx_enqueue c;
  console_usb_tx_drain.

Fixpoint write_loop (s : cstr) : io unit :=
  match s with
  | [] => mret tt
  | c :: s' => _ ← console_putc_raw c; write_loop s'
  end.

Definition console_write_raw (s : option cstr) : io unit :=
  match s with
  | None => mret tt
  | Some s => write_loop s
  end.

(** The calls [usb_serial_jtag_putc(hex[(value >> shift) & 0xFu])]. *)
Fixpoint usb_hex (shifts : list N) (value : N) : io unit :=
  match shifts with
  | [] => mret tt
  | shift :: shifts' =>
      digit ← lift (hex_digit (N.land (N.shiftr value shift) 0xF));
      _ ← usb (usb_serial_jtag_putc digit);
      usb_hex shifts' value
  end.

Definition console_puthex32_raw (value : N) : io unit :=
  _ ← uart0_puthex32 value;
  usb_hex [28; 24; 20; 16; 12; 8; 4; 0] value.

Definition console_putdec_u32_raw (value : N) : io unit :=
  _ ← uart0_putdec_u32 value;
  if value =? 0 then usb (usb_serial_jtag_putc "0")
  else buf ← lift (decimal_digits value); put_backwards (λ c, usb (usb_serial_jtag_putc c)) buf.

Definition console_init : io unit :=
  _ ← uart0_init;
  _ ← usb usb_serial_jtag_init;
  g ← get_globals;
  set_globals (ConsoleState (g_console_usb_tx_queue g) 0 0 0 (console_usb g)).

(** Between [console_interrupts_save_disable] and [restore]. *)
Definition with_interrupts_off (m : io unit) : io unit :=
  mstatus ← console_interrupts_save_disable;
  _ ← m;
  console_interrupts_restore mstatus.

Definition console_putc (c : ascii) : io unit := with_interrupts_off (console_putc_raw c).

Definition console_write (s : option cstr) : io unit := with_interrupts_off (console_write_raw s).

Definition console_puts (s : option cstr) : io unit :=
  with_interrupts_off (_ ← console_write_raw s; console_putc_raw "010").

Definition console_puthex32 (value : N) : io unit := with_interrupts_off (console_puthex32_raw value).

Definition console_putdec_u32 (value : N) : io unit := with_interrupts_off (console_putdec_u32_raw value).

Definition console_log (tag message : option cstr) : io unit :=
  with_interrupts_off
    (_ ← console_putc_raw "[";
     _ ← console_write_raw tag;
     _ ← console_putc_raw "]";
     _ ← console_putc_raw " ";
     _ ← console_write_raw message;
     console_putc_raw "010").

Definition console_log_u32 (tag label : option cstr) (value : N) : io unit :=
  with_interrupts_off
    (_ ← console_putc_raw "[";
     _ ← console_write_raw tag;
     _ ← console_putc_raw "]";
     _ ← console_putc_raw " ";
     _ ← console_write_raw label;
     _ ← console_putdec_u32_raw value;
     console_putc_raw "010").

Definition console_log_hex32 (tag label : option cstr) (value : N) : io unit :=
  with_interrupts_off
    (_ ← console_putc_raw "[";
     _ ← console_write_raw tag;
     _ ← console_putc_raw "]";
     _ ← console_putc_raw " ";
     _ ← console_write_raw label;
     _ ← console_write_raw (Some (cs "0x"));
     _ ← console_puthex32_raw value;
     console_putc_raw "010").

End console.
