(* ===== verification/PanelGc9a01.v ===== *)
(** * The panel ([targets/esp32c3/src/panel_gc9a01.c])

    The driver of the GC9A01 panel: bytes go over SPI in transfers of 32 at
    most, with the data/command pin telling the two apart; rectangles of
    pixels are written into an address window, row by row.  The globals are
    the line buffer. *)

From S2P Require Import Prelude DisplaySurface Soc Gpio.

Local Open Scope N_scope.

Definition ESP32C3_PANEL_GC9A01_WIDTH : N := 240.
Definition ESP32C3_PANEL_GC9A01_HEIGHT : N := 240.

Definition GC9A01_PIN_RST : N := 1.
Definition GC9A01_PIN_DC : N := 2.
Definition GC9A01_PIN_BL : N := 3.
Definition GC9A01_PIN_SCK : N := 6.
Definition GC9A01_PIN_MOSI : N := 7.
Definition GC9A01_PIN_CS : N := 10.

Definition GC9A01_SIGNAL_SETTLE_CYCLES : N := 32.
Definition GC9A01_SPI_MAX_TRANSFER_BYTES : N := 32.

Definition GC9A01_SPI_DMA_INT_CLR_REG : N := SPI2_BASE + 0x38.
Definition GC9A01_SPI_DMA_INT_RAW_REG : N := SPI2_BASE + 0x3C.
Definition GC9A01_SPI_TRANS_DONE_INT_CLR_BIT : N := BIT 12.
Definition GC9A01_SPI_TRANS_DONE_INT_RAW_BIT : N := BIT 12.
Definition GC9A01_SPI_SOFT_RESET_BIT : N := BIT 27.
Definition GC9A01_SPI_SLAVE_MODE_BIT : N := BIT 26.
Definition GC9A01_SPI_DMA_TX_SEG_TRANS_CLR_EN_BIT : N := BIT 9.
Definition GC9A01_SPI_DMA_RX_SEG_TRANS_CLR_EN_BIT : N := BIT 8.

Definition GC9A01_MADCTL_VALUE : N := 0x08.

Definition GC9A01_BL_LEDC_DUTY_RES : N := 10.
Definition GC9A01_BL_LEDC_MAX_DUTY : N := N.shiftl 1 GC9A01_BL_LEDC_DUTY_RES - 1.
Definition GC9A01_BL_LEDC_DUTY : N := GC9A01_BL_LEDC_MAX_DUTY / 5.
Definition GC9A01_BL_LEDC_DIV : N := 4000.

Definition gc9a01_d_eb_14 : list N := [0x14].
Definition gc9a01_d_84 : list N := [0x60].
Definition gc9a01_d_85 : list N := [0xFF].
Definition gc9a01_d_86 : list N := [0xFF].
Definition gc9a01_d_87 : list N := [0xFF].
Definition gc9a01_d_88 : list N := [0xA].
Definition gc9a01_d_89 : list N := [0x23].
Definition gc9a01_d_8a : list N := [0x0].
Definition gc9a01_d_8b : list N := [0x80].
Definition gc9a01_d_8c : list N := [0x1].
Definition gc9a01_d_8d : list N := [0x3].
Definition gc9a01_d_8e : list N := [0xFF].
Definition gc9a01_d_8f : list N := [0xFF].
Definition gc9a01_d_b6 : list N := [0x0; 0x20].
Definition gc9a01_d_3a : list N := [0x5].
Definition gc9a01_d_90 : list N := [0x8; 0x8; 0x8; 0x8].
Definition gc9a01_d_bd : list N := [0x6].
Definition gc9a01_d_bc : list N := [0x0].
Definition gc9a01_d_ff : list N := [0x60; 0x1; 0x4].
Definition gc9a01_d_c3 : list N := [0x13].
Definition gc9a01_d_c4 : list N := [0x13].
Definition gc9a01_d_c9 : list N := [0x30].
Definition gc9a01_d_be : list N := [0x11].
Definition gc9a01_d_e1 : list N := [0x10; 0xE].
Definition gc9a01_d_df : list N := [0x21; 0xC; 0x2].
Definition gc9a01_d_f0 : list N := [0x45; 0x9; 0x8; 0x8; 0x26; 0x2A].
Definition gc9a01_d_f1 : list N := [0x43; 0x70; 0x72; 0x36; 0x37; 0x6F].
Definition gc9a01_d_f2 : list N := [0x45; 0x9; 0x8; 0x8; 0x26; 0x2A].
Definition gc9a01_d_f3 : list N := [0x43; 0x70; 0x72; 0x36; 0x37; 0x6F].
Definition gc9a01_d_ed : list N := [0x1B; 0xB].
Definition gc9a01_d_ae : list N := [0x77].
Definition gc9a01_d_cd : list N := [0x63].
Definition gc9a01_d_70 : list N := [0x7; 0x7; 0x4; 0xE; 0xF; 0x9; 0x7; 0x8; 0x3].
Definition gc9a01_d_e8 : list N := [0x34].
Definition gc9a01_d_60 : list N := [0x38; 0xB; 0x6D; 0x6D; 0x39; 0xF0; 0x6D; 0x6D].
Definition gc9a01_d_61 : list N := [0x38; 0xF4; 0x6D; 0x6D; 0x38; 0xF7; 0x6D; 0x6D].
Definition gc9a01_d_62 : list N := [0x18; 0xD; 0x71; 0xED; 0x70; 0x70; 0x18; 0xF; 0x71; 0xEF; 0x70; 0x70].
Definition gc9a01_d_63 : list N := [0x18; 0x11; 0x71; 0xF1; 0x70; 0x70; 0x18; 0x13; 0x71; 0xF3; 0x70; 0x70].
Definition gc9a01_d_64 : list N := [0x28; 0x29; 0xF1; 0x1; 0xF1; 0x0; 0x7].
Definition gc9a01_d_66 : list N := [0x3C; 0x0; 0xCD; 0x67; 0x45; 0x45; 0x10; 0x0; 0x0; 0x0].
Definition gc9a01_d_67 : list N := [0x0; 0x3C; 0x0; 0x0; 0x0; 0x1; 0x54; 0x10; 0x32; 0x98].
Definition gc9a01_d_74 : list N := [0x10; 0x45; 0x80; 0x0; 0x0; 0x4E; 0x0].
Definition gc9a01_d_98 : list N := [0x3E; 0x7].
Definition gc9a01_d_99 : list N := [0x3E; 0x7].

Definition gc9a01_swap16 (value : N) : N := u16 (N.lor (N.shiftl value 8) (N.shiftr value 8)).
Definition gc9a01_map_x (x : N) : N := x.
Definition gc9a01_map_rect_x (x width : N) : N := x.
Definition gc9a01_map_y (y : N) : N := y.
Definition gc9a01_map_rect_y (y height : N) : N := y.

Section panel.
Context {HW : Type} `{!Bus HW}.
(** The globals: [g_gc9a01_line_buffer]. *)
Abbreviation io := (driver HW (list N)).

Definition gc9a01_signal_settle : io unit := nops GC9A01_SIGNAL_SETTLE_CYCLES.

Definition gc9a01_begin_write : io unit :=
  _ ← esp32c3_gpio_set_level GC9A01_PIN_CS false;
  gc9a01_signal_settle.

Definition gc9a01_end_write : io unit :=
  _ ← gc9a01_signal_settle;
  _ ← esp32c3_gpio_set_level GC9A01_PIN_CS true;
  gc9a01_signal_settle.

Definition gc9a01_chip_select (level : bool) : io unit :=
  _ ← esp32c3_gpio_set_level GC9A01_PIN_CS level;
  gc9a01_signal_settle.

Definition gc9a01_data_command (level : bool) : io unit :=
  _ ← esp32c3_gpio_set_level GC9A01_PIN_DC level;
  gc9a01_signal_settle.

(** ** SPI *)

Definition gc9a01_spi_wait_idle : io unit :=
  while_do bus_patience
    (cmd ← reg_read SPI_CMD_REG; mret (negb (N.land cmd SPI_USR_BIT =? 0)))
    (nops 1).

Definition gc9a01_spi_wait_done : io unit :=
  while_do bus_patience
    (raw ← reg_read GC9A01_SPI_DMA_INT_RAW_REG;
     if N.land raw GC9A01_SPI_TRANS_DONE_INT_RAW_BIT =? 0
     then cmd ← reg_read SPI_CMD_REG; mret (negb (N.land cmd SPI_USR_BIT =? 0))
     else mret false)
    (nops 1).

Definition gc9a01_spi_sync_regs : io unit :=
  _ ← reg_set_bits SPI_CMD_REG SPI_UPDATE_BIT;
  while_do bus_patience
    (cmd ← reg_read SPI_CMD_REG; mret (negb (N.land cmd SPI_UPDATE_BIT =? 0)))
    (nops 1).

Definition gc9a01_spi_reset_fifos : io unit :=
  _ ← reg_write SPI_DMA_CONF_REG (N.lor SPI_BUF_AFIFO_RST_BIT SPI_RX_AFIFO_RST_BIT);
  reg_write SPI_DMA_CONF_REG
    (N.lor GC9A01_SPI_DMA_TX_SEG_TRANS_CLR_EN_BIT GC9A01_SPI_DMA_RX_SEG_TRANS_CLR_EN_BIT).

Definition gc9a01_spi_init : io unit :=
  _ ← reg_set_bits SYSTEM_PERIP_CLK_EN0_REG SYSTEM_SPI2_CLK_EN_BIT;
  _ ← reg_set_bits SYSTEM_PERIP_CLK_EN0_REG SYSTEM_SPI2_DMA_CLK_EN_BIT;
  _ ← reg_set_bits SYSTEM_PERIP_RST_EN0_REG SYSTEM_SPI2_RST_BIT;
  _ ← reg_set_bits SYSTEM_PERIP_RST_EN0_REG SYSTEM_SPI2_DMA_RST_BIT;
  _ ← reg_clear_bits SYSTEM_PERIP_RST_EN0_REG SYSTEM_SPI2_RST_BIT;
  _ ← reg_clear_bits SYSTEM_PERIP_RST_EN0_REG SYSTEM_SPI2_DMA_RST_BIT;
  _ ← reg_write SPI_CLK_GATE_REG (N.lor (N.lor SPI_CLK_EN_BIT SPI_MST_CLK_ACTIVE_BIT) SPI_MST_CLK_SEL_BIT);
  _ ← reg_set_bits SPI_SLAVE_REG GC9A01_SPI_SOFT_RESET_BIT;
  _ ← reg_clear_bits SPI_SLAVE_REG (N.lor GC9A01_SPI_SOFT_RESET_BIT GC9A01_SPI_SLAVE_MODE_BIT);
  let clock_reg := 0 in
  let clock_reg := N.lor clock_reg (N.shiftl 0 SPI_CLKDIV_PRE_SHIFT) in
  let clock_reg := N.lor clock_reg (N.shiftl 7 SPI_CLKCNT_N_SHIFT) in
  let clock_reg := N.lor clock_reg (N.shiftl 3 SPI_CLKCNT_H_SHIFT) in
  let clock_reg := N.lor clock_reg (N.shiftl 7 SPI_CLKCNT_L_SHIFT) in
  _ ← reg_write SPI_SLAVE_REG 0;
  _ ← reg_write SPI_USER_REG 0;
  _ ← reg_write SPI_USER1_REG 0;
  _ ← reg_write SPI_USER2_REG 0;
  _ ← reg_write SPI_MISC_REG 0;
  _ ← reg_write SPI_DMA_CONF_REG
        (N.lor GC9A01_SPI_DMA_TX_SEG_TRANS_CLR_EN_BIT GC9A01_SPI_DMA_RX_SEG_TRANS_CLR_EN_BIT);
  _ ← reg_write GC9A01_SPI_DMA_INT_CLR_REG GC9A01_SPI_TRANS_DONE_INT_CLR_BIT;
  _ ← reg_set_bits SPI_USER_REG SPI_USR_MOSI_BIT;
  _ ← reg_clear_bits SPI_USER_REG SPI_DOUTDIN_BIT;
  _ ← reg_write SPI_CLOCK_REG clock_reg;
  _ ← esp32c3_gpio_config_output_function GC9A01_PIN_SCK PIN_FUNC_ALT_2_VALUE FSPICLK_OUT_IDX;
  _ ← esp32c3_gpio_config_output_function GC9A01_PIN_MOSI PIN_FUNC_ALT_2_VALUE FSPID_OUT_IDX;
  _ ← gc9a01_spi_reset_fifos;
  _ ← gc9a01_spi_sync_regs;
  gc9a01_spi_wait_idle.

(** One transfer: the body of the loop. *)
Definition spi_transfer (data : list N) (offset chunk_bytes : N) : io unit :=
  _ ← gc9a01_spi_wait_idle;
  _ ← gc9a01_spi_reset_fifos;
  _ ← reg_write GC9A01_SPI_DMA_INT_CLR_REG GC9A01_SPI_TRANS_DONE_INT_CLR_BIT;
  _ ← for_each 0 8 (λ word_index, reg_write (SPI_W0_REG + word_index * 4) 0);
  _ ← for_each 0 (N.to_nat chunk_bytes) (λ byte_index,
        let word_index := byte_index / 4 in
        let shift := byte_index mod 4 * 8 in
        let reg := SPI_W0_REG + word_index * 4 in
        word ← reg_read reg;
        byte ← lift (aget data (offset + byte_index));
        reg_write reg (N.lor word (u32 (N.shiftl byte shift))));
  _ ← reg_write SPI_MS_DLEN_REG (N.land (sub32 (chunk_bytes * 8) 1) SPI_MS_DATA_BITLEN_MASK);
  _ ← gc9a01_spi_sync_regs;
  _ ← reg_set_bits SPI_CMD_REG SPI_USR_BIT;
  _ ← gc9a01_spi_wait_done;
  _ ← reg_write GC9A01_SPI_DMA_INT_CLR_REG GC9A01_SPI_TRANS_DONE_INT_CLR_BIT;
  gc9a01_spi_wait_idle.

(** [for (offset = 0u; offset < size;)]: each round moves on. *)
Fixpoint spi_loop (fuel : nat) (data : list N) (size offset : N) : io unit :=
  if offset <? size then
    match fuel with
    | O => undefined
    | S fuel' =>
        let chunk_bytes := if GC9A01_SPI_MAX_TRANSFER_BYTES <? size - offset
                           then GC9A01_SPI_MAX_TRANSFER_BYTES else size - offset in
        _ ← spi_transfer data offset chunk_bytes;
        spi_loop fuel' data size (offset + chunk_bytes)
    end
  else mret tt.

(** [data] is what the pointer points to, [None] when it is NULL. *)
Definition gc9a01_spi_write_bytes_raw (data : option (list N)) (size : N) : io unit :=
  match data with
  | None => mret tt
  | Some data => if size =? 0 then mret tt else spi_loop (N.to_nat size) data size 0
  end.

Definition gc9a01_spi_write_u8_raw (value : N) : io unit := gc9a01_spi_write_bytes_raw (Some [value]) 1.

(** ** Commands and data *)

Definition gc9a01_write_command_locked (command : N) : io unit :=
  _ ← reg_write RTC_CNTL_STORE5_REG 0xC320;
  _ ← reg_write RTC_CNTL_STORE2_REG command;
  _ ← reg_write RTC_CNTL_STORE3_REG 0xC320;
  _ ← gc9a01_data_command false;
  _ ← reg_write RTC_CNTL_STORE3_REG 0xC321;
  gc9a01_spi_write_u8_raw command.

Definition gc9a01_write_data_bytes_locked (data : option (list N)) (size : N) : io unit :=
  match data with
  | None => mret tt
  | Some _ =>
      if size =? 0 then mret tt
      else
        _ ← reg_write RTC_CNTL_STORE5_REG 0xC330;
        _ ← gc9a01_data_command true;
        gc9a01_spi_write_bytes_raw data size
  end.

(** A [uint16_t] in memory: the low byte first. *)
Definition u16_bytes (value : N) : list N := [value mod 256; value / 256].

Definition gc9a01_write_u16_stream_locked (pixels_be : option (list N)) (count : N) : io unit :=
  match pixels_be with
  | None => mret tt
  | Some pixels_be =>
      if count =? 0 then mret tt
      else
        _ ← reg_write RTC_CNTL_STORE5_REG 0xC340;
        _ ← gc9a01_data_command true;
        gc9a01_spi_write_bytes_raw (Some (concat (u16_bytes <$> pixels_be))) (u32 (count * 2))
  end.

Definition gc9a01_run_init_step (index command : N) (data : option (list N)) (data_len delay_ms : N) : io unit :=
  _ ← reg_write RTC_CNTL_STORE1_REG index;
  _ ← reg_write RTC_CNTL_STORE2_REG command;
  _ ← reg_write RTC_CNTL_STORE0_REG (0xC180 + N.land index 0x3F);
  _ ← gc9a01_begin_write;
  _ ← gc9a01_write_command_locked command;
  _ ← gc9a01_write_data_bytes_locked data data_len;
  _ ← gc9a01_end_write;
  if nz delay_ms then
    _ ← reg_write RTC_CNTL_STORE0_REG (0xC1C0 + N.land index 0x3F);
    esp32c3_gpio_delay_ms delay_ms
  else mret tt.

Definition gc9a01_set_rotation0_and_ips_true : io unit :=
  _ ← gc9a01_begin_write;
  _ ← gc9a01_write_command_locked 0x36;
  _ ← gc9a01_write_data_bytes_locked (Some [GC9A01_MADCTL_VALUE]) 1;
  _ ← gc9a01_write_command_locked 0x21;
  gc9a01_end_write.

Definition gc9a01_set_addr_window_locked (x y width height : N) : io unit :=
  let x_end := sub32 (x + width) 1 in
  let y_end := sub32 (y + height) 1 in
  let caset := [u8 (N.shiftr x 8); u8 (N.land x 0xFF); u8 (N.shiftr x_end 8); u8 (N.land x_end 0xFF)] in
  let raset := [u8 (N.shiftr y 8); u8 (N.land y 0xFF); u8 (N.shiftr y_end 8); u8 (N.land y_end 0xFF)] in
  _ ← gc9a01_write_command_locked 0x2A;
  _ ← gc9a01_write_data_bytes_locked (Some caset) 4;
  _ ← gc9a01_write_command_locked 0x2B;
  _ ← gc9a01_write_data_bytes_locked (Some raset) 4;
  gc9a01_write_command_locked 0x2C.

(** ** Pixels *)

(** [g_gc9a01_line_buffer[index] = value]. *)
Definition set_line_pixel (index value : N) : io unit :=
  line ← get_globals;
  line ← lift (aset line index value);
  set_globals line.

(** [count] pixels of one colour in the line buffer, sent for [rows] rows. *)
Definition fill_line (count color_be : N) : io unit :=
  for_each 0 (N.to_nat count) (λ index, set_line_pixel index color_be).

Definition send_line (count : N) : io unit :=
  line ← get_globals;
  gc9a01_write_u16_stream_locked (Some line) count.

Definition gc9a01_fill_screen (color : N) : io unit :=
  let color_be := gc9a01_swap16 color in
  _ ← fill_line ESP32C3_PANEL_GC9A01_WIDTH color_be;
  _ ← gc9a01_begin_write;
  _ ← gc9a01_set_addr_window_locked 0 0 ESP32C3_PANEL_GC9A01_WIDTH ESP32C3_PANEL_GC9A01_HEIGHT;
  _ ← for_each 0 (N.to_nat ESP32C3_PANEL_GC9A01_HEIGHT) (λ _, send_line ESP32C3_PANEL_GC9A01_WIDTH);
  gc9a01_end_write.

Definition esp32c3_panel_gc9a01_fill_screen (color : N) : io unit := gc9a01_fill_screen color.

Definition esp32c3_panel_gc9a01_draw_pixel (x y color : N) : io unit :=
  if (ESP32C3_PANEL_GC9A01_WIDTH <=? x) || (ESP32C3_PANEL_GC9A01_HEIGHT <=? y) then mret tt
  else
    let color_be := gc9a01_swap16 color in
    _ ← gc9a01_begin_write;
    _ ← gc9a01_set_addr_window_locked (gc9a01_map_x x) (gc9a01_map_y y) 1 1;
    _ ← gc9a01_write_u16_stream_locked (Some [color_be]) 1;
    gc9a01_end_write.

Definition esp32c3_panel_gc9a01_fill_rect (x y width height color : N) : io unit :=
  let color_be := gc9a01_swap16 color in
  if (width =? 0) || (height =? 0) || (ESP32C3_PANEL_GC9A01_WIDTH <? x + width) ||
     (ESP32C3_PANEL_GC9A01_HEIGHT <? y + height) then mret tt
  else
    let mapped_x := gc9a01_map_rect_x x width in
    let mapped_y := gc9a01_map_rect_y y height in
    _ ← fill_line width color_be;
    _ ← gc9a01_begin_write;
    _ ← gc9a01_set_addr_window_locked mapped_x mapped_y width height;
    _ ← for_each 0 (N.to_nat height) (λ _, send_line width);
    gc9a01_end_write.

Definition esp32c3_panel_gc9a01_set_madctl (value : N) : io unit :=
  _ ← gc9a01_begin_write;
  _ ← gc9a01_write_command_locked 0x36;
  _ ← gc9a01_write_data_bytes_locked (Some [value]) 1;
  gc9a01_end_write.

Definition esp32c3_panel_gc9a01_begin_batch : io unit := mret tt.
Definition esp32c3_panel_gc9a01_end_batch : io unit := mret tt.

(** One row: [source_row] is [&pixels[(uint32_t)row * stride]]. *)
Definition write_source_row (pixels : list N) (stride width row : N) : io unit :=
  _ ← for_each 0 (N.to_nat width) (λ col,
        pixel ← lift (aget pixels (u32 (row * stride) + col));
        set_line_pixel col (gc9a01_swap16 pixel));
  send_line width.

(** [pixels] is the array from the pointer on, [None] when it is NULL. *)
Definition gc9a01_write_rect_stream_pixels (pixels : option (list N)) (stride x y width height : N) : io unit :=
  match pixels with
  | None => mret tt
  | Some pixels =>
      if (stride <? width) || (width =? 0) || (height =? 0) || (ESP32C3_PANEL_GC9A01_WIDTH <? x + width) ||
         (ESP32C3_PANEL_GC9A01_HEIGHT <? y + height) then mret tt
      else
        let mapped_x := gc9a01_map_rect_x x width in
        let mapped_y := gc9a01_map_rect_y y height in
        _ ← gc9a01_begin_write;
        _ ← gc9a01_set_addr_window_locked mapped_x mapped_y width height;
        _ ← for_each 0 (N.to_nat height) (write_source_row pixels stride width);
        gc9a01_end_write
  end.

Definition gc9a01_write_rect_pixels (pixels : option (list N)) (stride x y width height : N) : io unit :=
  match pixels with
  | None => mret tt
  | Some _ =>
      if (stride <? width) || (width =? 0) || (height =? 0) then mret tt
      else gc9a01_write_rect_stream_pixels pixels stride x y width height
  end.

Definition gc9a01_write_rect_surface (pixels : option (list N)) (stride : N) (rect : option display_rect) : io unit :=
  match pixels, rect with
  | Some pixels, Some rect =>
      if stride =? 0 then mret tt
      else gc9a01_write_rect_stream_pixels (Some (drop (N.to_nat (u32 (u32 (r_y rect * stride) + r_x rect))) pixels))
             stride (r_x rect) (r_y rect) (r_width rect) (r_height rect)
  | _, _ => mret tt
  end.

(** The tests that the three flush functions share. *)
Definition flush_refused (stride : N) (rect : display_rect) : bool :=
  (r_width rect =? 0) || (r_height rect =? 0) || (ESP32C3_PANEL_GC9A01_WIDTH <? r_x rect + r_width rect) ||
  (ESP32C3_PANEL_GC9A01_HEIGHT <? r_y rect + r_height rect).

Definition esp32c3_panel_gc9a01_flush_rect (pixels : option (list N)) (stride : N) (rect : option display_rect) : io Z :=
  match pixels, rect with
  | Some _, Some r =>
      if (stride =? 0) || flush_refused stride r then mret RUNTIME_SYSCALL_STATUS_EINVAL
      else _ ← gc9a01_write_rect_surface pixels stride rect; mret RUNTIME_SYSCALL_STATUS_OK
  | _, _ => mret RUNTIME_SYSCALL_STATUS_EINVAL
  end.

Definition esp32c3_panel_gc9a01_flush_rect_pixels (pixels : option (list N)) (stride : N) (rect : option display_rect)
  : io Z :=
  match pixels, rect with
  | Some _, Some r =>
      if (stride =? 0) || (stride <? r_width r) || flush_refused stride r then mret RUNTIME_SYSCALL_STATUS_EINVAL
      else
        _ ← gc9a01_write_rect_pixels pixels stride (r_x r) (r_y r) (r_width r) (r_height r);
        mret RUNTIME_SYSCALL_STATUS_OK
  | _, _ => mret RUNTIME_SYSCALL_STATUS_EINVAL
  end.

Definition esp32c3_panel_gc9a01_flush_rect_stream (pixels : option (list N)) (stride : N) (rect : option display_rect)
  : io Z :=
  match pixels, rect with
  | Some _, Some r =>
      if (stride =? 0) || flush_refused stride r then mret RUNTIME_SYSCALL_STATUS_EINVAL
      else _ ← gc9a01_write_rect_surface pixels stride rect; mret RUNTIME_SYSCALL_STATUS_OK
  | _, _ => mret RUNTIME_SYSCALL_STATUS_EINVAL
  end.

(** ** Backlight and initialisation *)

(** The value for LEDC_LSCH0_CONF1_REG. *)
Definition duty_conf1 : N :=
  N.lor (N.lor (N.lor (N.lor LEDC_DUTY_START_LSCH0 LEDC_DUTY_INC_LSCH0) (N.shiftl 1 LEDC_DUTY_NUM_LSCH0_S))
           (N.shiftl 1 LEDC_DUTY_CYCLE_LSCH0_S)) (N.shiftl 0 LEDC_DUTY_SCALE_LSCH0_S).

Definition esp32c3_panel_gc9a01_backlight_set (percent : N) : io unit :=
  let duty := if percent =? 0 then 0 else GC9A01_BL_LEDC_DUTY in
  _ ← reg_write LEDC_LSCH0_DUTY_REG (N.shiftl duty 4);
  _ ← reg_write LEDC_LSCH0_CONF1_REG duty_conf1;
  conf0 ← reg_read LEDC_LSCH0_CONF0_REG;
  reg_write LEDC_LSCH0_CONF0_REG (N.lor (N.lor conf0 LEDC_SIG_OUT_EN_LSCH0) LEDC_PARA_UP_LSCH0).

Definition gc9a01_backlight_init : io unit :=
  _ ← reg_set_bits SYSTEM_PERIP_CLK_EN0_REG SYSTEM_LEDC_CLK_EN_BIT;
  _ ← reg_clear_bits SYSTEM_PERIP_RST_EN0_REG SYSTEM_LEDC_RST_BIT;
  _ ← reg_write LEDC_CONF_REG (N.lor LEDC_CLK_EN (N.shiftl 1 LEDC_APB_CLK_SEL_S));
  _ ← reg_write LEDC_LSTIMER0_CONF_REG
        (N.lor (N.lor (N.shiftl GC9A01_BL_LEDC_DIV LEDC_CLK_DIV_LSTIMER0_S)
                  (N.shiftl GC9A01_BL_LEDC_DUTY_RES LEDC_LSTIMER0_DUTY_RES_S)) LEDC_LSTIMER0_PARA_UP);
  _ ← reg_write LEDC_LSCH0_HPOINT_REG 0;
  _ ← reg_write LEDC_LSCH0_DUTY_REG 0;
  _ ← reg_write LEDC_LSCH0_CONF0_REG
        (N.lor (N.lor (N.shiftl 0 LEDC_TIMER_SEL_LSCH0_S) LEDC_SIG_OUT_EN_LSCH0) LEDC_PARA_UP_LSCH0);
  reg_write LEDC_LSCH0_CONF1_REG duty_conf1.

(** The calls of [gc9a01_run_init_step]. *)
Definition init_steps : io unit :=
  _ ← gc9a01_run_init_step 0 0xEF None 0 0;
  _ ← gc9a01_run_init_step 1 0xEB (Some gc9a01_d_eb_14) 1 0;
  _ ← gc9a01_run_init_step 2 0xFE None 0 0;
  _ ← gc9a01_run_init_step 3 0xEF None 0 0;
  _ ← gc9a01_run_init_step 4 0xEB (Some gc9a01_d_eb_14) 1 0;
  _ ← gc9a01_run_init_step 5 0x84 (Some gc9a01_d_84) 1 0;
  _ ← gc9a01_run_init_step 6 0x85 (Some gc9a01_d_85) 1 0;
  _ ← gc9a01_run_init_step 7 0x86 (Some gc9a01_d_86) 1 0;
  _ ← gc9a01_run_init_step 8 0x87 (Some gc9a01_d_87) 1 0;
  _ ← gc9a01_run_init_step 9 0x88 (Some gc9a01_d_88) 1 0;
  _ ← gc9a01_run_init_step 10 0x89 (Some gc9a01_d_89) 1 0;
  _ ← gc9a01_run_init_step 11 0x8A (Some gc9a01_d_8a) 1 0;
  _ ← gc9a01_run_init_step 12 0x8B (Some gc9a01_d_8b) 1 0;
  _ ← gc9a01_run_init_step 13 0x8C (Some gc9a01_d_8c) 1 0;
  _ ← gc9a01_run_init_step 14 0x8D (Some gc9a01_d_8d) 1 0;
  _ ← gc9a01_run_init_step 15 0x8E (Some gc9a01_d_8e) 1 0;
  _ ← gc9a01_run_init_step 16 0x8F (Some gc9a01_d_8f) 1 0;
  _ ← gc9a01_run_init_step 17 0xB6 (Some gc9a01_d_b6) 2 0;
  _ ← gc9a01_run_init_step 18 0x3A (Some gc9a01_d_3a) 1 0;
  _ ← gc9a01_run_init_step 19 0x90 (Some gc9a01_d_90) 4 0;
  _ ← gc9a01_run_init_step 20 0xBD (Some gc9a01_d_bd) 1 0;
  _ ← gc9a01_run_init_step 21 0xBC (Some gc9a01_d_bc) 1 0;
  _ ← gc9a01_run_init_step 22 0xFF (Some gc9a01_d_ff) 3 0;
  _ ← gc9a01_run_init_step 23 0xC3 (Some gc9a01_d_c3) 1 0;
  _ ← gc9a01_run_init_step 24 0xC4 (Some gc9a01_d_c4) 1 0;
  _ ← gc9a01_run_init_step 25 0xC9 (Some gc9a01_d_c9) 1 0;
  _ ← gc9a01_run_init_step 26 0xBE (Some gc9a01_d_be) 1 0;
  _ ← gc9a01_run_init_step 27 0xE1 (Some gc9a01_d_e1) 2 0;
  _ ← gc9a01_run_init_step 28 0xDF (Some gc9a01_d_df) 3 0;
  _ ← gc9a01_run_init_step 29 0xF0 (Some gc9a01_d_f0) 6 0;
  _ ← gc9a01_run_init_step 30 0xF1 (Some gc9a01_d_f1) 6 0;
  _ ← gc9a01_run_init_step 31 0xF2 (Some gc9a01_d_f2) 6 0;
  _ ← gc9a01_run_init_step 32 0xF3 (Some gc9a01_d_f3) 6 0;
  _ ← gc9a01_run_init_step 33 0xED (Some gc9a01_d_ed) 2 0;
  _ ← gc9a01_run_init_step 34 0xAE (Some gc9a01_d_ae) 1 0;
  _ ← gc9a01_run_init_step 35 0xCD (Some gc9a01_d_cd) 1 0;
  _ ← gc9a01_run_init_step 36 0x70 (Some gc9a01_d_70) 9 0;
  _ ← gc9a01_run_init_step 37 0xE8 (Some gc9a01_d_e8) 1 0;
  _ ← gc9a01_run_init_step 38 0x60 (Some gc9a01_d_60) 8 0;
  _ ← gc9a01_run_init_step 39 0x61 (Some gc9a01_d_61) 8 0;
  _ ← gc9a01_run_init_step 40 0x62 (Some gc9a01_d_62) 12 0;
  _ ← gc9a01_run_init_step 41 0x63 (Some gc9a01_d_63) 12 0;
  _ ← gc9a01_run_init_step 42 0x64 (Some gc9a01_d_64) 7 0;
  _ ← gc9a01_run_init_step 43 0x66 (Some gc9a01_d_66) 10 0;
  _ ← gc9a01_run_init_step 44 0x67 (Some gc9a01_d_67) 10 0;
  _ ← gc9a01_run_init_step 45 0x74 (Some gc9a01_d_74) 7 0;
  _ ← gc9a01_run_init_step 46 0x98 (Some gc9a01_d_98) 2 0;
  _ ← gc9a01_run_init_step 47 0x99 (Some gc9a01_d_99) 2 0;
  _ ← gc9a01_run_init_step 48 0x35 None 0 0;
  _ ← gc9a01_run_init_step 49 0x11 None 0 120;
  _ ← gc9a01_run_init_step 50 0x29 None 0 20;
  mret tt.

Definition esp32c3_panel_gc9a01_init : io unit :=
  _ ← reg_write RTC_CNTL_STORE0_REG 0xC110;
  _ ← esp32c3_gpio_config_output GC9A01_PIN_RST;
  _ ← esp32c3_gpio_config_output GC9A01_PIN_DC;
  _ ← esp32c3_gpio_config_output GC9A01_PIN_BL;
  _ ← esp32c3_gpio_config_output GC9A01_PIN_CS;
  _ ← esp32c3_gpio_set_level GC9A01_PIN_BL false;
  _ ← gc9a01_chip_select true;
  _ ← gc9a01_data_command true;
  _ ← gc9a01_spi_init;
  _ ← reg_write RTC_CNTL_STORE0_REG 0xC111;
  _ ← gc9a01_backlight_init;
  _ ← esp32c3_panel_gc9a01_backlight_set 0;
  _ ← reg_write RTC_CNTL_STORE0_REG 0xC112;
  _ ← reg_write RTC_CNTL_STORE3_REG 0xC310;
  _ ← esp32c3_gpio_set_level GC9A01_PIN_RST true;
  _ ← reg_write RTC_CNTL_STORE3_REG 0xC311;
  _ ← esp32c3_gpio_delay_ms 200;
  _ ← reg_write RTC_CNTL_STORE3_REG 0xC312;
  _ ← esp32c3_gpio_set_level GC9A01_PIN_RST false;
  _ ← reg_write RTC_CNTL_STORE3_REG 0xC313;
  _ ← esp32c3_gpio_delay_ms 200;
  _ ← reg_write RTC_CNTL_STORE3_REG 0xC314;
  _ ← esp32c3_gpio_set_level GC9A01_PIN_RST true;
  _ ← reg_write RTC_CNTL_STORE3_REG 0xC315;
  _ ← esp32c3_gpio_delay_ms 200;
  _ ← reg_write RTC_CNTL_STORE3_REG 0xC316;
  _ ← reg_write RTC_CNTL_STORE0_REG 0xC113;
  _ ← init_steps;
  _ ← reg_write RTC_CNTL_STORE0_REG 0xC114;
  _ ← gc9a01_set_rotation0_and_ips_true;
  _ ← reg_write RTC_CNTL_STORE0_REG 0xC115;
  _ ← esp32c3_gpio_delay_ms 120;
  _ ← gc9a01_fill_screen 0xFFFF;
  _ ← reg_write RTC_CNTL_STORE0_REG 0xC116;
  _ ← esp32c3_gpio_delay_ms 20;
  _ ← gc9a01_fill_screen 0xFFFF;
  _ ← reg_write RTC_CNTL_STORE0_REG 0xC117;
  _ ← esp32c3_gpio_config_output_function GC9A01_PIN_BL PIN_FUNC_GPIO_VALUE LEDC_LS_SIG_OUT0_IDX;
  _ ← esp32c3_panel_gc9a01_backlight_set 100;
  reg_write RTC_CNTL_STORE0_REG 0xC118.

End panel.
