(* ===== verification/PanelSpec.v ===== *)
(** * The hardware behind the panel driver

    What [PanelGc9a01.v] relies on: the SPI controller of the chip with the
    two pins the driver moves by hand, as a class of devices, and the panel
    as what the bytes on the wire mean to it. *)

From S2P Require Import Prelude Soc Gpio PanelGc9a01 DisplaySurface.

Local Open Scope N_scope.

(** ** The SPI controller *)

Inductive spi_activity := SpiIdle | SpiSyncing | SpiSending.
#[export] Instance spi_activity_eq_dec : EqDecision spi_activity.
Proof. solve_decision. Defined.

(** A byte on the wire, with the levels of the select and the data/command
    pin. *)
Record wire_byte := WireByte { wb_cs : bool; wb_dc : bool; wb_byte : N }.

(** The data buffer W0..W15, the length register and its copy in the
    controller (bits less one), the end-of-transfer flag, the pins, and what
    has been sent. *)
Record spi_view := SpiView {
  sv_words : list N;
  sv_dlen : N;
  sv_synced : N;
  sv_activity : spi_activity;
  sv_done : bool;
  sv_cs : bool;
  sv_dc : bool;
  sv_wire : list wire_byte
}.

Definition set_words (words : list N) (v : spi_view) : spi_view :=
  SpiView words (sv_dlen v) (sv_synced v) (sv_activity v) (sv_done v) (sv_cs v) (sv_dc v) (sv_wire v).
Definition set_dlen (dlen : N) (v : spi_view) : spi_view :=
  SpiView (sv_words v) dlen (sv_synced v) (sv_activity v) (sv_done v) (sv_cs v) (sv_dc v) (sv_wire v).
Definition set_activity (activity : spi_activity) (v : spi_view) : spi_view :=
  SpiView (sv_words v) (sv_dlen v) (sv_synced v) activity (sv_done v) (sv_cs v) (sv_dc v) (sv_wire v).
Definition set_done (done : bool) (v : spi_view) : spi_view :=
  SpiView (sv_words v) (sv_dlen v) (sv_synced v) (sv_activity v) done (sv_cs v) (sv_dc v) (sv_wire v).
Definition set_pins (cs dc : bool) (v : spi_view) : spi_view :=
  SpiView (sv_words v) (sv_dlen v) (sv_synced v) (sv_activity v) (sv_done v) cs dc (sv_wire v).

(** Byte [i] of the buffer: the low byte of a word goes first. *)
Definition buffer_byte (words : list N) (i : nat) : N :=
  N.land (N.shiftr (default 0 (words !! (i / 4)%nat)) (8 * N.of_nat (i mod 4))) 0xFF.

Definition transferred (v : spi_view) : list wire_byte :=
  (λ i, WireByte (sv_cs v) (sv_dc v) (buffer_byte (sv_words v) i)) <$> seq 0 (N.to_nat ((sv_synced v + 1) / 8)).

(** The end of what the controller is doing. *)
Definition spi_finish (v : spi_view) : spi_view :=
  match sv_activity v with
  | SpiIdle => v
  | SpiSyncing => SpiView (sv_words v) (sv_dlen v) (sv_dlen v) SpiIdle (sv_done v) (sv_cs v) (sv_dc v) (sv_wire v)
  | SpiSending => SpiView (sv_words v) (sv_dlen v) (sv_synced v) SpiIdle true (sv_cs v) (sv_dc v)
                    (sv_wire v ++ transferred v)
  end.

Definition word_register (reg : N) : option N :=
  if (SPI_W0_REG <=? reg) && (reg <? SPI_W0_REG + 64) && ((reg - SPI_W0_REG) mod 4 =? 0)
  then Some ((reg - SPI_W0_REG) / 4) else None.

(** A write while the controller is idle. *)
Definition spi_write (reg value : N) (v : spi_view) : spi_view :=
  if reg =? SPI_CMD_REG then
    if N.testbit value 24 then set_activity SpiSending v
    else if N.testbit value 23 then set_activity SpiSyncing v else v
  else if reg =? SPI_MS_DLEN_REG then set_dlen value v
  else if reg =? GC9A01_SPI_DMA_INT_CLR_REG then if N.testbit value 12 then set_done false v else v
  else if reg =? GPIO_OUT_W1TS_REG then
    set_pins (sv_cs v || N.testbit value GC9A01_PIN_CS) (sv_dc v || N.testbit value GC9A01_PIN_DC) v
  else if reg =? GPIO_OUT_W1TC_REG then
    set_pins (sv_cs v && negb (N.testbit value GC9A01_PIN_CS)) (sv_dc v && negb (N.testbit value GC9A01_PIN_DC)) v
  else match word_register reg with
       | Some i => set_words (<[N.to_nat i := value]> (sv_words v)) v
       | None => v
       end.

(** The registers that [spi_write] describes: its own, and those of the
    devices that have nothing to do with the pins and the controller. *)
Definition in_block (base reg : N) : bool := (base <=? reg) && (reg <? base + 0x1000).
Definition spi_described (reg : N) : bool :=
  (reg =? SPI_CMD_REG) || (reg =? SPI_MS_DLEN_REG) || (reg =? GC9A01_SPI_DMA_INT_CLR_REG) ||
  (reg =? GPIO_OUT_W1TS_REG) || (reg =? GPIO_OUT_W1TC_REG) || (reg =? SPI_DMA_CONF_REG) ||
  bool_decide (word_register reg ≠ None) || in_block RTCCNTL_BASE reg.

(** [spi_wait] is a bound on the reads of SPI_CMD_REG until the controller is
    idle again. *)
Class SpiDevice (HW : Type) `{!Bus HW} := {
  spi : HW → spi_view;
  spi_wait : HW → nat;
  spi_words h : length (sv_words (spi h)) = 16%nat;
  spi_after_write reg value h :
    sv_activity (spi h) = SpiIdle → spi_described reg = true →
    spi (bus_write reg value h) = spi_write reg value (spi h);
  spi_after_read reg h :
    (spi (bus_read reg h).1 = spi h ∨ spi (bus_read reg h).1 = spi_finish (spi h)) ∧
    (spi_wait (bus_read reg h).1 ≤ spi_wait h)%nat;
  spi_after_nops count h :
    (spi (bus_nops count h) = spi h ∨ spi (bus_nops count h) = spi_finish (spi h)) ∧
    (spi_wait (bus_nops count h) ≤ spi_wait h)%nat;
  spi_command_read h :
    let '(h', value) := bus_read SPI_CMD_REG h in
    N.testbit value 24 = bool_decide (sv_activity (spi h') = SpiSending) ∧
    N.testbit value 23 = bool_decide (sv_activity (spi h') = SpiSyncing) ∧
    (sv_activity (spi h') ≠ SpiIdle → (spi_wait h' < spi_wait h)%nat);
  spi_flag_read h :
    let '(h', value) := bus_read GC9A01_SPI_DMA_INT_RAW_REG h in N.testbit value 12 = sv_done (spi h');
  spi_word_read reg i h :
    word_register reg = Some i → (bus_read reg h).2 = default 0 (sv_words (spi h) !! N.to_nat i);
  spi_patience h : (spi_wait h < bus_patience)%nat
}.

(** ** The panel

    The commands that set the address window (2Ah columns, 2Bh rows, each
    with two 16-bit numbers) and write pixels into it (2Ch: from its upper
    left corner on, row by row, two bytes each); other commands do not touch
    the picture. *)
Record panel := Panel {
  pn_command : N;
  pn_args : list N;
  pn_columns : N * N;
  pn_rows : N * N;
  pn_cursor : N * N;
  pn_high : option N;
  pn_picture : N → N → N
}.

Definition panel_command (command : N) (p : panel) : panel :=
  Panel command [] (pn_columns p) (pn_rows p)
    (if command =? 0x2C then ((pn_columns p).1, (pn_rows p).1) else pn_cursor p) None (pn_picture p).

(** The two numbers, when all four bytes are there. *)
Definition window_bounds (args : list N) : option (N * N) :=
  match args with
  | [a; b; c; d] => Some (256 * a + b, 256 * c + d)
  | _ => None
  end.

Definition next_cursor (p : panel) : N * N :=
  let '(x, y) := pn_cursor p in
  if x =? (pn_columns p).2
  then ((pn_columns p).1, if y =? (pn_rows p).2 then (pn_rows p).1 else y + 1)
  else (x + 1, y).

Definition draw_at (cursor : N * N) (color : N) (picture : N → N → N) : N → N → N :=
  λ x y, if (x =? cursor.1) && (y =? cursor.2) then color else picture x y.

Definition panel_data (byte : N) (p : panel) : panel :=
  let args := pn_args p ++ [byte] in
  if pn_command p =? 0x2A then
    Panel (pn_command p) args (default (pn_columns p) (window_bounds args)) (pn_rows p) (pn_cursor p) None (pn_picture p)
  else if pn_command p =? 0x2B then
    Panel (pn_command p) args (pn_columns p) (default (pn_rows p) (window_bounds args)) (pn_cursor p) None (pn_picture p)
  else if pn_command p =? 0x2C then
    match pn_high p with
    | None => Panel (pn_command p) [] (pn_columns p) (pn_rows p) (pn_cursor p) (Some byte) (pn_picture p)
    | Some high =>
        Panel (pn_command p) [] (pn_columns p) (pn_rows p) (next_cursor p) None
          (draw_at (pn_cursor p) (256 * high + byte) (pn_picture p))
    end
  else p.

(** A byte counts when the panel is selected, that is, when the pin is low. *)
Definition panel_receive (p : panel) (b : wire_byte) : panel :=
  if wb_cs b then p
  else if wb_dc b then panel_data (wb_byte b) p else panel_command (wb_byte b) p.

Definition panel_shows (wire : list wire_byte) (p : panel) : panel := foldl panel_receive p wire.

(** * The panel driver: what goes over the wire

    Every waiting loop ends, and every transfer sends exactly the bytes it is
    given, with the pins as the driver has set them. *)

(** ** Bytes in words *)

Lemma land_ff n : N.land n 0xFF = n mod 256.
Proof. apply (N.land_ones n 8). Qed.

Lemma byte_bits b i : b < 256 → 8 ≤ i → N.testbit b i = false.
Proof.
  intros Hb Hi. destruct (N.eq_0_gt_0_cases b) as [->|Hpos]; [apply N.bits_0|].
  apply N.bits_above_log2. apply N.lt_le_trans with 8; [|done]. by apply N.log2_lt_pow2.
Qed.

(** A byte put into a word where it was zero, and the bytes beside it. *)
Lemma byte_in_word word byte i j :
  byte < 256 → (i < 4)%nat → (j < 4)%nat →
  N.land (N.shiftr word (8 * N.of_nat i)) 0xFF = 0 →
  N.land (N.shiftr (N.lor word (N.shiftl byte (8 * N.of_nat i))) (8 * N.of_nat j)) 0xFF =
    if decide (i = j) then byte else N.land (N.shiftr word (8 * N.of_nat j)) 0xFF.
Proof.
  intros Hb Hi Hj H0. apply N.bits_inj. intros n. change 0xFF with (N.ones 8) in *.
  rewrite N.land_spec, N.shiftr_spec, N.lor_spec by lia.
  destruct (N.ltb_spec n 8) as [Hn|Hn].
  - rewrite N.ones_spec_low, andb_true_r by done. destruct (decide (i = j)) as [<-|Hne].
    + apply (f_equal (λ v, N.testbit v n)) in H0. rewrite N.land_spec, N.shiftr_spec, N.ones_spec_low, andb_true_r, N.bits_0 in H0 by lia.
      rewrite H0, N.shiftl_spec_high' by lia. cbn [orb]. f_equal. lia.
    + rewrite N.land_spec, N.shiftr_spec, N.ones_spec_low, andb_true_r by lia.
      destruct (N.lt_ge_cases (n + 8 * N.of_nat j) (8 * N.of_nat i)).
      * by rewrite N.shiftl_spec_low, orb_false_r.
      * rewrite N.shiftl_spec_high' by done. rewrite (byte_bits byte) by lia. apply orb_false_r.
  - rewrite N.ones_spec_high, andb_false_r by done. symmetry. destruct (decide (i = j)); [by apply byte_bits|].
    rewrite N.land_spec, N.ones_spec_high by done. apply andb_false_r.
Qed.

(** One step of filling the buffer. *)
Lemma fill_buffer words byte i j :
  length words = 16%nat → byte < 256 → (i < 32)%nat → (j < 32)%nat →
  buffer_byte words i = 0 →
  buffer_byte (<[(i / 4)%nat := N.lor (default 0 (words !! (i / 4)%nat)) (N.shiftl byte (8 * N.of_nat (i mod 4)))]> words) j =
    if decide (i = j) then byte else buffer_byte words j.
Proof.
  intros Hl Hb Hi Hj H0. unfold buffer_byte in *.
  pose proof (Nat.div_mod_eq i 4). pose proof (Nat.div_mod_eq j 4).
  pose proof (Nat.mod_upper_bound i 4 ltac:(lia)). pose proof (Nat.mod_upper_bound j 4 ltac:(lia)).
  assert (i / 4 < 16)%nat by (apply Nat.Div0.div_lt_upper_bound; lia).
  destruct (decide (i / 4 = j / 4)%nat) as [E|Hne].
  - rewrite <-E, list_lookup_insert_eq by lia. cbn [default from_option id]. rewrite byte_in_word by done.
    destruct (decide (i mod 4 = j mod 4)%nat), (decide (i = j)); try done; exfalso; lia.
  - rewrite list_lookup_insert_ne by done. rewrite decide_False by (intros ->; done). done.
Qed.

(** ** Moves on the wire *)

Section moves.
Context {HW : Type} `{!Bus HW, !SpiDevice HW}.
Implicit Types (h : HW) (g : list N) (m : driver HW (list N) unit).

(** The controller is idle, with these pins, and this has been sent. *)
Definition ready (cs dc : bool) (wire : list wire_byte) h : Prop :=
  sv_activity (spi h) = SpiIdle ∧ sv_cs (spi h) = cs ∧ sv_dc (spi h) = dc ∧ sv_wire (spi h) = wire.

(** [m] returns, changes the pins as stated, and sends [out]. *)
Definition moves m (cs dc cs' dc' : bool) (out : list wire_byte) : Prop :=
  ∀ wire h g, ready cs dc wire h → runs m h g (λ _ h' g', g' = g ∧ ready cs' dc' (wire ++ out) h').

Lemma moves_nothing cs dc : moves (mret tt) cs dc cs dc [].
Proof. intros wire h g Hr. apply runs_ret. by rewrite app_nil_r. Qed.

Lemma moves_then m m' cs dc cs1 dc1 cs2 dc2 out out' :
  moves m cs dc cs1 dc1 out → moves m' cs1 dc1 cs2 dc2 out' → moves (_ ← m; m') cs dc cs2 dc2 (out ++ out').
Proof.
  intros Hm Hm' wire h g Hr. apply runs_bind. eapply runs_weaken; [by apply Hm|].
  intros _ h1 g1 (-> & H1). eapply runs_weaken; [by apply Hm'|]. intros _ h2 g2 (-> & H2). by rewrite <-app_assoc in H2.
Qed.

Lemma moves_after m m' cs dc cs1 dc1 cs2 dc2 out :
  moves m cs dc cs1 dc1 [] → moves m' cs1 dc1 cs2 dc2 out → moves (_ ← m; m') cs dc cs2 dc2 out.
Proof. apply moves_then. Qed.

Lemma finish_idle v : sv_activity v = SpiIdle → spi_finish v = v.
Proof. intros H. unfold spi_finish. by rewrite H. Qed.

Lemma idle_read reg h : sv_activity (spi h) = SpiIdle → spi (bus_read reg h).1 = spi h.
Proof. intros Hi. destruct (spi_after_read reg h) as ([->| ->] & _); [done|by apply finish_idle]. Qed.

Lemma idle_nops count h : sv_activity (spi h) = SpiIdle → spi (bus_nops count h) = spi h.
Proof. intros Hi. destruct (spi_after_nops count h) as ([->| ->] & _); [done|by apply finish_idle]. Qed.

Lemma moves_nops count cs dc : moves (nops count) cs dc cs dc [].
Proof. intros wire h g (Hi & Hr). apply runs_nops. unfold ready. by rewrite idle_nops, app_nil_r. Qed.

(** Registers whose value is of no concern here. *)
Definition spi_quiet (reg : N) : bool :=
  spi_described reg && negb ((reg =? SPI_CMD_REG) || (reg =? SPI_MS_DLEN_REG) || (reg =? GC9A01_SPI_DMA_INT_CLR_REG) ||
    (reg =? GPIO_OUT_W1TS_REG) || (reg =? GPIO_OUT_W1TC_REG) || bool_decide (word_register reg ≠ None)).

Lemma quiet_write reg value h :
  spi_quiet reg = true → sv_activity (spi h) = SpiIdle → spi (bus_write reg value h) = spi h.
Proof.
  intros (Hd & Hq)%andb_prop Hi. rewrite spi_after_write by done.
  apply negb_true_iff in Hq. rewrite !orb_false_iff in Hq. destruct Hq as (((((H1 & H2) & H3) & H4) & H5) & H6).
  unfold spi_write. rewrite H1, H2, H3, H4, H5. apply bool_decide_eq_false in H6.
  by destruct (word_register reg); [exfalso; apply H6|].
Qed.

Lemma moves_quiet reg value cs dc : spi_quiet reg = true → moves (reg_write reg value) cs dc cs dc [].
Proof. intros Hq wire h g (Hi & Hr). apply runs_write. unfold ready. by rewrite quiet_write, app_nil_r. Qed.

Lemma moves_pin pin level cs dc :
  pin = GC9A01_PIN_CS ∨ pin = GC9A01_PIN_DC →
  moves (esp32c3_gpio_set_level pin level) cs dc
    (if pin =? GC9A01_PIN_CS then level else cs) (if pin =? GC9A01_PIN_DC then level else dc) [].
Proof.
  intros Hpin wire h g (Hi & <- & <- & <-). unfold ready. rewrite app_nil_r.
  destruct Hpin as [-> | ->], level; apply runs_write; rewrite spi_after_write by (done || by vm_compute);
    (split; [done|]); unfold spi_write; test_numbers; cbn; (split; [done|]); rewrite ?orb_true_r, ?orb_false_r, ?andb_false_r, ?andb_true_r; by split_and!.
Qed.

(** ** Waiting *)

(** The controller works at [v], or has finished. *)
Definition working (v : spi_view) h : Prop := spi h = v ∨ spi h = spi_finish v.

Lemma finish_activity v : sv_activity (spi_finish v) = SpiIdle.
Proof. unfold spi_finish. by destruct (sv_activity v) eqn:E. Qed.

Lemma working_read v reg h : working v h → working v (bus_read reg h).1.
Proof.
  unfold working. intros [H|H]; destruct (spi_after_read reg h) as ([->| ->] & _); rewrite H; [by left|by right|by right|right].
  apply finish_idle, finish_activity.
Qed.

Lemma working_nops v count h : working v h → working v (bus_nops count h).
Proof.
  unfold working. intros [H|H]; destruct (spi_after_nops count h) as ([->| ->] & _); rewrite H; [by left|by right|by right|right].
  apply finish_idle, finish_activity.
Qed.

(** A loop that reads SPI_CMD_REG until the bit of an activity is clear. *)
Lemma wait_bit bit v h g :
  sv_activity v ≠ SpiIdle → working v h →
  (∀ h' value, bus_read SPI_CMD_REG h' = (value.1, value.2) →
     (N.land value.2 bit =? 0) = negb (bool_decide (sv_activity (spi value.1) = sv_activity v))) →
  runs (while_do bus_patience (cmd ← reg_read SPI_CMD_REG; mret (negb (N.land cmd bit =? 0))) (nops 1)) h g
    (λ _ h' g', g' = g ∧ spi h' = spi_finish v).
Proof.
  intros Hv Hw Hbit.
  apply (runs_while (λ n h' g', n = spi_wait h' ∧ g' = g ∧ working v h') _ _ _ _ _ (spi_wait h)); [done|apply spi_patience|].
  intros n h1 g1 (-> & -> & Hw1). apply runs_bind, runs_read, runs_ret.
  pose proof (working_read v SPI_CMD_REG h1 Hw1) as Hw2. pose proof (spi_command_read h1) as Hc.
  specialize (Hbit h1 (bus_read SPI_CMD_REG h1)). destruct (bus_read SPI_CMD_REG h1) as [h2 value]. cbn [fst snd] in *.
  rewrite Hbit by done. destruct Hc as (_ & _ & Hlt). rewrite negb_involutive. case_bool_decide as Ha.
  - apply runs_nops. exists (spi_wait (bus_nops 1 h2)). destruct (spi_after_nops 1 h2) as (_ & Hle).
    split; [|by split_and!; [| |apply working_nops]]. rewrite Ha in Hlt. specialize (Hlt Hv). lia.
  - split; [done|]. destruct Hw2 as [E|E]; [by rewrite E in Ha|done].
Qed.

Lemma land_bit value n : (N.land value (BIT n) =? 0) = negb (N.testbit value n).
Proof.
  unfold BIT. rewrite N.shiftl_1_l. destruct (N.testbit value n) eqn:Hb; cbn [negb].
  - apply N.eqb_neq. intros H. apply (f_equal (λ v, N.testbit v n)) in H.
    rewrite N.land_spec, Hb, N.pow2_bits_true, N.bits_0 in H. done.
  - apply N.eqb_eq, N.bits_inj_0. intros i. rewrite N.land_spec, N.pow2_bits_eqb.
    destruct (N.eqb_spec n i) as [<-|]; [by rewrite Hb|apply andb_false_r].
Qed.

Lemma wait_idle_runs h g : sv_activity (spi h) = SpiIdle → runs gc9a01_spi_wait_idle h g (λ _ h' g', g' = g ∧ spi h' = spi h).
Proof.
  intros Hi. unfold gc9a01_spi_wait_idle.
  apply (runs_while (λ n h' g', n = spi_wait h ∧ g' = g ∧ spi h' = spi h) _ _ _ _ _ (spi_wait h)); [done|apply spi_patience|].
  intros n h1 g1 (-> & -> & H1). apply runs_bind, runs_read, runs_ret.
  pose proof (idle_read SPI_CMD_REG h1) as Hr. pose proof (spi_command_read h1) as Hc.
  destruct (bus_read SPI_CMD_REG h1) as [h2 value]. cbn [fst snd] in *. destruct Hc as (H24 & _).
  unfold SPI_USR_BIT. rewrite land_bit, H24, negb_involutive, Hr, H1, Hi by (by rewrite H1). done.
Qed.

(** Synchronising the registers copies the length. *)
Lemma sync_runs h g :
  sv_activity (spi h) = SpiIdle →
  runs gc9a01_spi_sync_regs h g (λ _ h' g', g' = g ∧ spi h' = spi_finish (set_activity SpiSyncing (spi h))).
Proof.
  intros Hi. unfold gc9a01_spi_sync_regs, reg_set_bits. apply runs_bind. apply runs_bind, runs_read, runs_write.
  pose proof (idle_read SPI_CMD_REG h Hi) as Hr. pose proof (spi_command_read h) as Hc.
  destruct (bus_read SPI_CMD_REG h) as [h1 value]. cbn [fst snd] in *. destruct Hc as (H24 & _).
  apply wait_bit; [done| |].
  - left. rewrite spi_after_write by (by rewrite ?Hr || by vm_compute). unfold spi_write. test_numbers.
    unfold SPI_UPDATE_BIT, BIT. rewrite !N.lor_spec, H24, Hr, Hi, N.shiftl_1_l, N.pow2_bits_true, orb_true_r. done.
  - intros h2 [h3 v3] Hv. cbn [fst snd] in *. unfold SPI_UPDATE_BIT. rewrite land_bit.
    pose proof (spi_command_read h2) as Hc. rewrite Hv in Hc. destruct Hc as (_ & -> & _). done.
Qed.

(** A transfer, from its start to its end. *)
Lemma send_runs h g :
  sv_activity (spi h) = SpiIdle → sv_done (spi h) = false →
  runs (_ ← reg_set_bits SPI_CMD_REG SPI_USR_BIT; gc9a01_spi_wait_done) h g
    (λ _ h' g', g' = g ∧ spi h' = spi_finish (set_activity SpiSending (spi h))).
Proof.
  intros Hi Hd. unfold gc9a01_spi_wait_done, reg_set_bits. apply runs_bind. apply runs_bind, runs_read, runs_write.
  pose proof (idle_read SPI_CMD_REG h Hi) as Hr. destruct (bus_read SPI_CMD_REG h) as [h1 value]. cbn [fst snd] in *.
  set (v := set_activity SpiSending (spi h)).
  assert (working v (bus_write SPI_CMD_REG (N.lor value SPI_USR_BIT) h1)) as Hw.
  { left. rewrite spi_after_write by (by rewrite ?Hr || by vm_compute). unfold spi_write. test_numbers.
    unfold SPI_USR_BIT, BIT. by rewrite !N.lor_spec, Hr, N.shiftl_1_l, N.pow2_bits_true, orb_true_r. }
  apply (runs_while (λ n h' g', n = spi_wait h' ∧ g' = g ∧ working v h') _ _ _ _ _ (spi_wait (bus_write SPI_CMD_REG (N.lor value SPI_USR_BIT) h1)));
    [done|apply spi_patience|]. clear Hr Hw h1 value.
  intros n h1 g1 (-> & -> & Hw). apply runs_bind, runs_read.
  pose proof (working_read v GC9A01_SPI_DMA_INT_RAW_REG h1 Hw) as Hw2. pose proof (spi_flag_read h1) as Hf.
  destruct (spi_after_read GC9A01_SPI_DMA_INT_RAW_REG h1) as (_ & Hle).
  destruct (bus_read GC9A01_SPI_DMA_INT_RAW_REG h1) as [h2 raw]. cbn [fst snd] in *.
  unfold GC9A01_SPI_TRANS_DONE_INT_RAW_BIT. rewrite land_bit, Hf. destruct (sv_done (spi h2)) eqn:Hdone; cbn [negb].
  { apply runs_ret. split; [done|]. destruct Hw2 as [E|E]; [|done]. rewrite E in Hdone. unfold v in Hdone. cbn in Hdone. congruence. }
  assert (spi h2 = v) as Hv by (destruct Hw2 as [E|E]; [done|by rewrite E in Hdone]).
  apply runs_bind, runs_read, runs_ret. pose proof (working_read v SPI_CMD_REG h2 Hw2) as Hw3.
  pose proof (spi_command_read h2) as Hc. destruct (bus_read SPI_CMD_REG h2) as [h3 value]. cbn [fst snd] in *.
  destruct Hc as (H24 & _ & Hlt). unfold SPI_USR_BIT. rewrite land_bit, H24, negb_involutive. case_bool_decide as Ha.
  - apply runs_nops. exists (spi_wait (bus_nops 1 h3)). destruct (spi_after_nops 1 h3) as (_ & Hle').
    split; [|by split_and!; [| |apply working_nops]]. rewrite Ha in Hlt. specialize (Hlt ltac:(done)). lia.
  - split; [done|]. destruct Hw3 as [E|E]; [|done]. rewrite E in Ha. by exfalso; apply Ha.
Qed.

(** ** One transfer *)

Lemma word_register_cases i :
  i < 8 → word_register (SPI_W0_REG + i * 4) = Some i ∧ spi_described (SPI_W0_REG + i * 4) = true ∧
    ∀ value v, spi_write (SPI_W0_REG + i * 4) value v = set_words (<[N.to_nat i := value]> (sv_words v)) v.
Proof.
  intros Hi. assert (Forall (λ i, word_register (SPI_W0_REG + i * 4) = Some i ∧ spi_described (SPI_W0_REG + i * 4) = true ∧
    ∀ value v, spi_write (SPI_W0_REG + i * 4) value v = set_words (<[N.to_nat i := value]> (sv_words v)) v) [0; 1; 2; 3; 4; 5; 6; 7]) as H
    by (repeat constructor; reflexivity).
  rewrite Forall_forall in H. apply H. apply list_elem_of_In. cbn [In]. lia.
Qed.

Lemma word_write i value h :
  sv_activity (spi h) = SpiIdle → i < 8 →
  spi (bus_write (SPI_W0_REG + i * 4) value h) = set_words (<[N.to_nat i := value]> (sv_words (spi h))) (spi h).
Proof. intros Hi H8. destruct (word_register_cases i H8) as (_ & Hd & Hw). by rewrite spi_after_write, Hw. Qed.

Lemma word_read i h : i < 8 → (bus_read (SPI_W0_REG + i * 4) h).2 = default 0 (sv_words (spi h) !! N.to_nat i).
Proof. intros H8. apply spi_word_read. by apply word_register_cases. Qed.

(** The buffer holds the first [k] bytes of the chunk, and zeros behind. *)
Definition holds (chunk : list N) (k : nat) (v : spi_view) : Prop :=
  length (sv_words v) = 16%nat ∧
  ∀ j, (j < 32)%nat → buffer_byte (sv_words v) j = if decide (j < k)%nat then default 0 (chunk !! j) else 0.

(** The view but for the words. *)
Definition same_but_words (v v' : spi_view) : Prop := v' = set_words (sv_words v') v.

Lemma clear_words_runs h g v :
  spi h = v → sv_activity v = SpiIdle →
  runs (for_each 0 8 (λ word_index, reg_write (SPI_W0_REG + word_index * 4) 0)) h g
    (λ _ h' g', g' = g ∧ same_but_words v (spi h') ∧ holds [] 0 (spi h')).
Proof.
  intros Hv Hi.
  apply (runs_for (λ k h' g', g' = g ∧ same_but_words v (spi h') ∧ ∀ j, (j < N.to_nat k)%nat → sv_words (spi h') !! j = Some 0)).
  - rewrite Hv. split; [done|]. split; [by destruct v|]. intros j Hj. lia.
  - intros i h1 g1 Hlt (-> & Hs & Hz). apply runs_write.
    assert (sv_activity (spi h1) = SpiIdle) as Hi1 by (rewrite Hs; exact Hi).
    rewrite word_write by (done || lia). split; [done|]. split; [by rewrite Hs|].
    intros j Hj. cbn [sv_words set_words]. pose proof (spi_words h1).
    destruct (decide (j = N.to_nat i)) as [->|Hne]; [apply list_lookup_insert_eq; lia|].
    rewrite list_lookup_insert_ne by done. apply Hz. lia.
  - intros h1 g1 (-> & Hs & Hz). split; [done|]. split; [done|]. split; [apply spi_words|].
    intros j Hj. rewrite decide_False by lia. unfold buffer_byte.
    rewrite Hz by (change (N.to_nat (0 + N.of_nat 8)) with 8%nat; apply Nat.Div0.div_lt_upper_bound; lia).
    cbn [default from_option id]. by rewrite N.shiftr_0_l.
Qed.

Lemma byte_register k : N.of_nat k / 4 = N.of_nat (k / 4) ∧ N.of_nat k mod 4 = N.of_nat (k mod 4).
Proof. split; [by rewrite Nat2N.inj_div|by rewrite Nat2N.inj_mod]. Qed.

Lemma fill_words_runs data offset n chunk h g v :
  spi h = v → sv_activity v = SpiIdle → holds [] 0 v → n ≤ 32 →
  chunk = take (N.to_nat n) (drop (N.to_nat offset) data) → length chunk = N.to_nat n → Forall (λ b, b < 256) chunk →
  runs (for_each 0 (N.to_nat n) (λ byte_index,
        let word_index := byte_index / 4 in
        let shift := byte_index mod 4 * 8 in
        let reg := SPI_W0_REG + word_index * 4 in
        word ← reg_read reg;
        byte ← lift (aget data (offset + byte_index));
        reg_write reg (N.lor word (u32 (N.shiftl byte shift))))) h g
    (λ _ h' g', g' = g ∧ same_but_words v (spi h') ∧ holds chunk (N.to_nat n) (spi h')).
Proof.
  intros Hv Hi Hz Hn Hchunk Hlen Hbytes.
  apply (runs_for (λ k h' g', g' = g ∧ same_but_words v (spi h') ∧ holds chunk (N.to_nat k) (spi h'))).
  - rewrite Hv. split; [done|]. split; [by destruct v|]. destruct Hz as (Hl & Hz). split; [done|].
    intros j Hj. rewrite Hz by done. change (N.to_nat 0) with 0%nat. by destruct (decide (j < 0)%nat); [lia|].
  - intros i h1 g1 Hlt (-> & Hs & Hl & Hb). cbn zeta.
    assert (sv_activity (spi h1) = SpiIdle) as Hi1 by (rewrite Hs; exact Hi).
    set (k := N.to_nat i). replace i with (N.of_nat k) by lia. destruct (byte_register k) as (-> & ->).
    assert (k / 4 < 8)%nat by (apply Nat.Div0.div_lt_upper_bound; lia).
    apply runs_bind, runs_read. rewrite word_read by lia. rewrite Nat2N.id.
    destruct (lookup_lt_is_Some_2 chunk k ltac:(lia)) as (byte & Hbyte).
    apply runs_bind. apply (runs_lift _ byte).
    { rewrite aget_lookup, Hchunk, lookup_take_lt, lookup_drop in * by lia. by replace (N.to_nat (offset + N.of_nat k)) with (N.to_nat offset + k)%nat by lia. }
    assert (byte < 256) as Hb256 by (rewrite Forall_lookup in Hbytes; eauto).
    apply runs_write. rewrite word_write by (by rewrite ?idle_read || lia). rewrite idle_read, Nat2N.id by done.
    rewrite (N.mul_comm (N.of_nat _) 8), u32_small.
    2:{ rewrite N.shiftl_mul_pow2. pose proof (Nat.mod_upper_bound k 4 ltac:(lia)).
        apply N.lt_le_trans with (256 * 2 ^ (8 * N.of_nat (k mod 4))); [apply N.mul_lt_mono_pos_r; [|done]; apply N.neq_0_lt_0, N.pow_nonzero; done|].
        change 4294967296 with (256 * 2 ^ 24). apply N.mul_le_mono_l, N.pow_le_mono_r; [done|lia]. }
    split; [done|]. split; [by rewrite Hs|]. split; [cbn [sv_words set_words]; by rewrite length_insert|].
    intros j Hj. cbn [sv_words set_words]. rewrite fill_buffer by (done || lia || (rewrite Hb by lia; by rewrite decide_False by lia)).
    rewrite Hb by done. replace (N.to_nat (N.of_nat k + 1)) with (S k) by lia.
    destruct (decide (k = j)) as [->|]; [by rewrite decide_True, Hbyte by lia|].
    destruct (decide (j < N.to_nat i)%nat), (decide (j < S k)%nat); done || lia.
  - intros h1 g1 (-> & H1 & H2). rewrite N.add_0_l, N2Nat.id in H2. done.
Qed.

Lemma done_cleared h :
  sv_activity (spi h) = SpiIdle →
  spi (bus_write GC9A01_SPI_DMA_INT_CLR_REG GC9A01_SPI_TRANS_DONE_INT_CLR_BIT h) = set_done false (spi h).
Proof. intros Hi. rewrite spi_after_write by (done || by vm_compute). unfold spi_write. by test_numbers. Qed.

(** Bytes as they go over the wire. *)
Definition on_wire (cs dc : bool) (bytes : list N) : list wire_byte := WireByte cs dc <$> bytes.

Lemma sent_bytes v chunk n :
  holds chunk n v → length chunk = n → (n ≤ 32)%nat → sv_synced v = 8 * N.of_nat n - 1 → (0 < n)%nat →
  transferred v = on_wire (sv_cs v) (sv_dc v) chunk.
Proof.
  intros (_ & Hb) Hl Hn Hs Hpos. unfold transferred, on_wire. rewrite Hs.
  replace (8 * N.of_nat n - 1 + 1) with (N.of_nat n * 8) by lia. rewrite N.div_mul, Nat2N.id by done.
  apply list_eq. intros i. rewrite !list_lookup_fmap. destruct (decide (i < n)%nat) as [Hi|Hi].
  - rewrite lookup_seq_lt by done. destruct (lookup_lt_is_Some_2 chunk i ltac:(lia)) as (b & Hc).
    rewrite Hc. cbn. f_equal. f_equal. rewrite Hb by lia. by rewrite decide_True, Hc by done.
  - rewrite lookup_seq_ge, lookup_ge_None_2 by lia. done.
Qed.

Lemma transfer_moves data offset n chunk cs dc :
  0 < n ≤ 32 → chunk = take (N.to_nat n) (drop (N.to_nat offset) data) → length chunk = N.to_nat n →
  Forall (λ b, b < 256) chunk →
  moves (spi_transfer data offset n) cs dc cs dc (on_wire cs dc chunk).
Proof.
  intros Hn Hchunk Hlen Hbytes wire h g (Hi & Hcs & Hdc & Hwire). unfold spi_transfer.
  apply runs_bind. eapply runs_weaken; [by apply wait_idle_runs|]. intros _ h1 g1 (-> & H1).
  apply runs_bind. unfold gc9a01_spi_reset_fifos. apply runs_bind, runs_write, runs_write.
  apply runs_bind, runs_write.
  assert (sv_activity (spi h1) = SpiIdle) as Hi1 by (by rewrite H1).
  set (h1' := bus_write SPI_DMA_CONF_REG _ h1). set (h1'' := bus_write SPI_DMA_CONF_REG _ h1').
  assert (spi h1' = spi h) as H1' by (unfold h1'; by rewrite quiet_write).
  assert (spi h1'' = spi h) as H1'' by (unfold h1''; rewrite quiet_write; [done|done|by rewrite H1']).
  set (h2 := bus_write GC9A01_SPI_DMA_INT_CLR_REG _ _).
  assert (spi h2 = set_done false (spi h)) as H2 by (unfold h2; rewrite done_cleared by (by rewrite H1''); by rewrite H1'').
  clearbody h2. set (v2 := set_done false (spi h)) in *.
  apply runs_bind. eapply runs_weaken; [apply (clear_words_runs h2 g v2 H2 Hi)|].
  intros _ h3 g3 (-> & Hs3 & Hz3).
  assert (sv_activity (spi h3) = SpiIdle) as Hi3 by (rewrite Hs3; exact Hi).
  apply runs_bind. eapply runs_weaken; [apply (fill_words_runs data offset n chunk h3 g (spi h3) eq_refl Hi3 Hz3); [lia|done|done|done]|].
  intros _ h4 g4 (-> & Hs4 & Hh4).
  assert (sv_activity (spi h4) = SpiIdle) as Hi4 by (rewrite Hs4; exact Hi3).
  apply runs_bind, runs_write. set (h5 := bus_write SPI_MS_DLEN_REG _ h4).
  assert (spi h5 = set_dlen (8 * n - 1) (spi h4)) as H5.
  { unfold h5. rewrite spi_after_write by (done || by vm_compute). unfold spi_write. test_numbers. f_equal.
    unfold sub32. rewrite (u32_small 1) by done. unfold u32, SPI_MS_DATA_BITLEN_MASK.
    replace (n * 8 + 4294967296 - 1) with (8 * n - 1 + 1 * 4294967296) by lia. rewrite N.Div0.mod_add, N.mod_small by lia.
    apply (N.land_ones_low _ 18). destruct (N.eq_0_gt_0_cases (8 * n - 1)); [lia|]. apply N.log2_lt_pow2; [done|]. change (2 ^ 18) with 262144. lia. }
  clearbody h5. apply runs_bind. eapply runs_weaken; [apply sync_runs; by rewrite H5|]. intros _ h6 g6 (-> & H6).
  rewrite H5 in H6. unfold spi_finish in H6. cbn [sv_activity set_activity sv_words sv_dlen set_dlen sv_done sv_cs sv_dc sv_wire] in H6.
  apply runs_both. eapply runs_weaken; [apply send_runs; rewrite H6; cbn [sv_activity sv_done]; [done|by rewrite Hs4, Hs3]|].
  intros _ h7 g7 (-> & H7). rewrite H6 in H7. unfold spi_finish in H7. cbn [sv_activity set_activity sv_words sv_dlen sv_synced sv_done sv_cs sv_dc sv_wire] in H7.
  assert (sv_activity (spi h7) = SpiIdle) as Hi7 by (by rewrite H7).
  apply runs_bind, runs_write. eapply runs_weaken; [apply wait_idle_runs; by rewrite done_cleared|].
  intros _ h8 g8 (-> & H8). split; [done|]. rewrite done_cleared in H8 by done. unfold ready.
  rewrite H8, H7. cbn [sv_activity set_done sv_cs sv_dc sv_wire]. split; [done|].
  rewrite Hs4, Hs3. cbn [set_words v2 set_done sv_cs sv_dc sv_wire]. split_and!; [done|done|].
  rewrite Hwire. f_equal. rewrite <-Hcs, <-Hdc.
  assert (∀ v, sv_words v = sv_words (spi h4) → sv_synced v = 8 * n - 1 → sv_cs v = sv_cs (spi h) → sv_dc v = sv_dc (spi h) →
    transferred v = on_wire (sv_cs (spi h)) (sv_dc (spi h)) chunk) as Ht.
  { intros v E1 E2 <- <-. apply (sent_bytes v chunk (N.to_nat n)); [|done|lia|by rewrite N2Nat.id|lia].
    unfold holds in *. by rewrite E1. }
  by apply Ht.
Qed.

(** ** Bytes, commands and data *)

Lemma on_wire_app cs dc l l' : on_wire cs dc (l ++ l') = on_wire cs dc l ++ on_wire cs dc l'.
Proof. apply fmap_app. Qed.

Lemma loop_moves fuel data size offset cs dc :
  size ≤ N.of_nat (length data) → Forall (λ b, b < 256) data → (N.to_nat (size - offset) ≤ fuel)%nat →
  moves (spi_loop fuel data size offset) cs dc cs dc
    (on_wire cs dc (drop (N.to_nat offset) (take (N.to_nat size) data))).
Proof.
  intros Hl Hb. revert offset. induction fuel as [|fuel IH]; intros offset Hf; cbn [spi_loop];
    (destruct (N.ltb_spec offset size) as [Hlt|Hge];
      [|rewrite drop_ge by (rewrite length_take; lia); apply moves_nothing]); [lia|].
  set (n := if GC9A01_SPI_MAX_TRANSFER_BYTES <? size - offset then _ else _).
  assert (0 < n ≤ 32 ∧ n ≤ size - offset) as (Hn & Hn').
  { unfold n, GC9A01_SPI_MAX_TRANSFER_BYTES. destruct (N.ltb_spec 32 (size - offset)); lia. }
  set (chunk := take (N.to_nat n) (drop (N.to_nat offset) data)).
  assert (drop (N.to_nat offset) (take (N.to_nat size) data) = chunk ++ drop (N.to_nat (offset + n)) (take (N.to_nat size) data)) as ->.
  { rewrite <-(take_drop (N.to_nat n) (drop (N.to_nat offset) (take (N.to_nat size) data))).
    unfold chunk. rewrite drop_drop. f_equal; [|f_equal; lia].
    rewrite skipn_firstn_comm. rewrite take_take. f_equal. lia. }
  rewrite on_wire_app. apply moves_then with cs dc; [|apply IH; lia].
  apply (transfer_moves data offset n chunk); [done|done|unfold chunk; rewrite length_take, length_drop; lia|].
  by apply Forall_take, Forall_drop.
Qed.

Lemma bytes_moves data size cs dc :
  size ≤ N.of_nat (length data) → Forall (λ b, b < 256) data →
  moves (gc9a01_spi_write_bytes_raw (Some data) size) cs dc cs dc (on_wire cs dc (take (N.to_nat size) data)).
Proof.
  intros Hl Hb. cbn [gc9a01_spi_write_bytes_raw]. destruct (N.eqb_spec size 0) as [->|]; [apply moves_nothing|].
  pose proof (loop_moves (N.to_nat size) data size 0 cs dc Hl Hb ltac:(lia)) as H.
  by rewrite drop_0 in H.
Qed.

Lemma data_command_moves level cs dc : moves (gc9a01_data_command level) cs dc cs level [].
Proof.
  apply moves_after with cs level; [|apply moves_nops].
  pose proof (moves_pin GC9A01_PIN_DC level cs dc (or_intror eq_refl)) as H. exact H.
Qed.

Lemma begin_moves dc : moves gc9a01_begin_write true dc false dc [].
Proof.
  apply moves_after with false dc; [|apply moves_nops].
  exact (moves_pin GC9A01_PIN_CS false true dc (or_introl eq_refl)).
Qed.

Lemma end_moves dc : moves gc9a01_end_write false dc true dc [].
Proof.
  apply moves_after with false dc; [apply moves_nops|]. apply moves_after with true dc; [|apply moves_nops].
  exact (moves_pin GC9A01_PIN_CS true false dc (or_introl eq_refl)).
Qed.

(** A diagnostic register is written first. *)
Lemma moves_store reg value m cs dc cs' dc' out :
  spi_quiet reg = true → moves m cs dc cs' dc' out → moves (_ ← reg_write reg value; m) cs dc cs' dc' out.
Proof. intros Hq Hm. apply moves_after with cs dc; [by apply moves_quiet|done]. Qed.

Lemma command_moves command dc :
  command < 256 → moves (gc9a01_write_command_locked command) false dc false false [WireByte false false command].
Proof.
  intros Hc. unfold gc9a01_write_command_locked.
  apply moves_store; [done|]. apply moves_store; [done|]. apply moves_store; [done|].
  apply moves_after with false false; [apply data_command_moves|]. apply moves_store; [done|].
  apply (bytes_moves [command] 1); [done|by repeat constructor].
Qed.

Lemma data_moves data size dc :
  0 < size → size ≤ N.of_nat (length data) → Forall (λ b, b < 256) data →
  moves (gc9a01_write_data_bytes_locked (Some data) size) false dc false true (on_wire false true (take (N.to_nat size) data)).
Proof.
  intros Hs Hl Hb. cbn [gc9a01_write_data_bytes_locked]. destruct (N.eqb_spec size 0); [lia|].
  apply moves_store; [done|]. apply moves_after with false true; [apply data_command_moves|]. by apply bytes_moves.
Qed.

(** ** Pixels *)

(** A pixel goes over the wire with its high byte first. *)
Definition pixel_bytes (pixel : N) : list N := [pixel / 256; pixel mod 256].

Lemma swapped_bytes pixel : pixel < 65536 → u16_bytes (gc9a01_swap16 pixel) = pixel_bytes pixel.
Proof.
  intros Hp. assert (pixel / 256 < 256) as Hq by (apply N.Div0.div_lt_upper_bound; lia).
  pose proof (N.mod_lt pixel 256 ltac:(done)) as Hr.
  assert (gc9a01_swap16 pixel = pixel mod 256 * 256 + pixel / 256) as ->.
  { unfold gc9a01_swap16, u16. change 65536 with (2 ^ 16). rewrite <-N.land_ones, N.land_lor_distr_l.
    rewrite N.shiftr_div_pow2. change (2 ^ 8) with 256.
    rewrite (N.land_ones (pixel / 256)), (N.mod_small (pixel / 256)) by (etrans; [exact Hq|done]).
    rewrite N.land_ones, N.shiftl_mul_pow2. change (2 ^ 16) with (256 * 2 ^ 8). change (2 ^ 8) with 256.
    rewrite N.Div0.mul_mod_distr_r. rewrite <-N.lxor_lor, <-N.add_nocarry_lxor; [done| |];
      apply N.bits_inj_0; intros i; rewrite N.land_spec; change 256 with (2 ^ 8);
      (destruct (N.lt_ge_cases i 8); [by rewrite N.mul_pow2_bits_low|rewrite (byte_bits (pixel / 2 ^ 8)) by done; apply andb_false_r]). }
  unfold u16_bytes, pixel_bytes. revert Hq Hr. generalize (pixel / 256), (pixel mod 256). intros q r Hq Hr.
  rewrite (N.add_comm _ q). by rewrite N.Div0.mod_add, N.div_add, N.mod_small, N.div_small.
Qed.
End moves.
