(* ===== verification/TouchCst816s.v ===== *)
(** * The touch controller ([targets/esp32c3/src/touch_cst816s.c])

    The driver drives an I2C bus by hand: a line is low when its pin is an
    output at level 0, and floats high when the pin is an input.  The globals
    are the table of pin interrupt handlers and the interrupt counters. *)

From S2P Require Import Prelude DisplaySurface Soc Gpio PanelGc9a01.

Local Open Scope N_scope.

Definition ESP32C3_TOUCH_CST816S_IRQ_PIN : N := 8.

Definition CST816S_PIN_SDA : N := 4.
Definition CST816S_PIN_SCL : N := 5.
Definition CST816S_PIN_INT : N := ESP32C3_TOUCH_CST816S_IRQ_PIN.
Definition CST816S_I2C_ADDRESS : N := 0x15.

(** The functions of the program that are registered as pin handlers. *)
Inductive pin_handler := TouchHandler.

Record touch_state := TouchState {
  g_interrupt_slots : list (esp32c3_gpio_interrupt_slot pin_handler);
  g_cst816s_irq_count : N;
  g_cst816s_irq_pending : N
}.

Definition set_slots (slots : list (esp32c3_gpio_interrupt_slot pin_handler)) (g : touch_state) : touch_state :=
  TouchState slots (g_cst816s_irq_count g) (g_cst816s_irq_pending g).
Definition set_irq (count pending : N) (g : touch_state) : touch_state :=
  TouchState (g_interrupt_slots g) count pending.

Record esp32c3_touch_cst816s_sample := Sample { ts_x : N; ts_y : N; ts_touching : N }.

Section bus.
Context {HW : Type} `{!Bus HW} {G : Type}.
Abbreviation io := (driver HW G).

(** ** The lines *)

Definition cst816s_i2c_delay : io unit := esp32c3_gpio_delay_cycles 40.

Definition cst816s_sda_release : io unit :=
  _ ← esp32c3_gpio_config_input CST816S_PIN_SDA true;
  esp32c3_gpio_disable_output CST816S_PIN_SDA.

Definition cst816s_scl_release : io unit :=
  _ ← esp32c3_gpio_config_input CST816S_PIN_SCL true;
  esp32c3_gpio_disable_output CST816S_PIN_SCL.

Definition cst816s_sda_low : io unit :=
  _ ← esp32c3_gpio_config_output CST816S_PIN_SDA;
  esp32c3_gpio_set_level CST816S_PIN_SDA false.

Definition cst816s_scl_low : io unit :=
  _ ← esp32c3_gpio_config_output CST816S_PIN_SCL;
  esp32c3_gpio_set_level CST816S_PIN_SCL false.

Definition cst816s_sda_read : io bool := esp32c3_gpio_get_level CST816S_PIN_SDA.

(** ** Conditions and bytes *)

Definition cst816s_i2c_start : io unit :=
  _ ← cst816s_sda_release;
  _ ← cst816s_scl_release;
  _ ← cst816s_i2c_delay;
  _ ← cst816s_sda_low;
  _ ← cst816s_i2c_delay;
  cst816s_scl_low.

Definition cst816s_i2c_stop : io unit :=
  _ ← cst816s_sda_low;
  _ ← cst816s_i2c_delay;
  _ ← cst816s_scl_release;
  _ ← cst816s_i2c_delay;
  _ ← cst816s_sda_release;
  cst816s_i2c_delay.

(** [count] bits of [value], the highest first. *)
Fixpoint write_bits (count : nat) (value : N) : io unit :=
  match count with
  | O => mret tt
  | S count' =>
      _ ← (if nz (N.land value 0x80) then cst816s_sda_release else cst816s_sda_low);
      _ ← cst816s_i2c_delay;
      _ ← cst816s_scl_release;
      _ ← cst816s_i2c_delay;
      _ ← cst816s_scl_low;
      write_bits count' (u8 (N.shiftl value 1))
  end.

Definition cst816s_i2c_write_byte (value : N) : io bool :=
  _ ← write_bits 8 value;
  _ ← cst816s_sda_release;
  _ ← cst816s_i2c_delay;
  _ ← cst816s_scl_release;
  _ ← cst816s_i2c_delay;
  level ← cst816s_sda_read;
  let ack := negb level in
  _ ← cst816s_scl_low;
  mret ack.

Fixpoint read_bits (count : nat) (value : N) : io N :=
  match count with
  | O => mret value
  | S count' =>
      let value := u8 (N.shiftl value 1) in
      _ ← cst816s_scl_release;
      _ ← cst816s_i2c_delay;
      level ← cst816s_sda_read;
      let value := if level : bool then N.lor value 1 else value in
      _ ← cst816s_scl_low;
      _ ← cst816s_i2c_delay;
      read_bits count' value
  end.

Definition cst816s_i2c_read_byte (ack : bool) : io N :=
  _ ← cst816s_sda_release;
  value ← read_bits 8 0;
  _ ← (if ack then cst816s_sda_low else cst816s_sda_release);
  _ ← cst816s_i2c_delay;
  _ ← cst816s_scl_release;
  _ ← cst816s_i2c_delay;
  _ ← cst816s_scl_low;
  _ ← cst816s_sda_release;
  mret value.

(** ** Registers *)

(** [buffer[index] = read_byte(index + 1u < size)], from [index] on, for the
    [count] bytes that are left. *)
Fixpoint read_bytes (count : nat) (index size : N) : io (list N) :=
  match count with
  | O => mret []
  | S count' =>
      byte ← cst816s_i2c_read_byte (u32 (index + 1) <? size);
      bytes ← read_bytes count' (index + 1) size;
      mret (byte :: bytes)
  end.

(** [None] is the result 0; otherwise the bytes stored into the buffer, which
    is [buffer] false when the pointer is NULL. *)
Definition cst816s_write_then_read (reg : N) (buffer : bool) (size : N) : io (option (list N)) :=
  if negb buffer || (size =? 0) then mret None
  else
    _ ← cst816s_i2c_start;
    ack ← cst816s_i2c_write_byte (u8 (N.lor (N.shiftl CST816S_I2C_ADDRESS 1) 0));
    ack ← (if ack : bool then cst816s_i2c_write_byte reg else mret false);
    if negb ack then _ ← cst816s_i2c_stop; mret None
    else
      _ ← cst816s_i2c_start;
      ack ← cst816s_i2c_write_byte (u8 (N.lor (N.shiftl CST816S_I2C_ADDRESS 1) 1));
      if negb ack then _ ← cst816s_i2c_stop; mret None
      else
        bytes ← read_bytes (N.to_nat size) 0 size;
        _ ← cst816s_i2c_stop;
        mret (Some bytes).

(** The status, and the sample as it is stored when the pointer is not NULL. *)
Definition esp32c3_touch_cst816s_read (sample : bool) : io (Z * option esp32c3_touch_cst816s_sample) :=
  if negb sample then mret (RUNTIME_SYSCALL_STATUS_EINVAL, None)
  else
    let cleared := Sample 0 0 0 in
    status ← cst816s_write_then_read 0x02 true 1;
    match status with
    | None => mret (RUNTIME_SYSCALL_STATUS_EBUSY, Some cleared)
    | Some status =>
        status ← lift (aget status 0);
        if status =? 0 then mret (RUNTIME_SYSCALL_STATUS_OK, Some cleared)
        else
          data ← cst816s_write_then_read 0x03 true 4;
          match data with
          | None => mret (RUNTIME_SYSCALL_STATUS_EBUSY, Some cleared)
          | Some data =>
              data0 ← lift (aget data 0);
              data1 ← lift (aget data 1);
              data2 ← lift (aget data 2);
              data3 ← lift (aget data 3);
              let x := u16 (N.lor (u16 (N.shiftl (u16 (N.land data0 0x0F)) 8)) data1) in
              let y := u16 (N.lor (u16 (N.shiftl (u16 (N.land data2 0x0F)) 8)) data3) in
              let y := if y <? ESP32C3_PANEL_GC9A01_HEIGHT then u16 (sub32 (sub32 ESP32C3_PANEL_GC9A01_HEIGHT 1) y) else y in
              mret (RUNTIME_SYSCALL_STATUS_OK, Some (Sample x y 1))
          end
    end.
End bus.

(** ** Interrupts *)

Section interrupts.
Context {HW : Type} `{!Bus HW}.
Abbreviation io := (driver HW touch_state).

Definition cst816s_irq_handler (pin context : N) : io unit :=
  g ← get_globals;
  set_globals (set_irq (u32 (g_cst816s_irq_count g + 1)) 1 g).

(** The call through a pointer to a handler. *)
Definition call_pin_handler (handler : pin_handler) : N → N → io unit :=
  match handler with TouchHandler => cst816s_irq_handler end.

Definition esp32c3_touch_cst816s_init : io unit :=
  _ ← cst816s_sda_release;
  _ ← cst816s_scl_release;
  _ ← esp32c3_gpio_config_input CST816S_PIN_INT true;
  _ ← within g_interrupt_slots set_slots
        (esp32c3_gpio_interrupt_set_handler CST816S_PIN_INT (Some TouchHandler) 0);
  _ ← esp32c3_gpio_interrupt_config CST816S_PIN_INT ESP32C3_GPIO_INTERRUPT_NEGEDGE;
  g ← get_globals;
  set_globals (set_irq 0 0 g).

Definition esp32c3_touch_cst816s_irq_count : io N :=
  g ← get_globals; mret (g_cst816s_irq_count g).

Definition esp32c3_touch_cst816s_consume_irq_pending : io bool :=
  g ← get_globals;
  let pending := nz (g_cst816s_irq_pending g) in
  _ ← set_globals (set_irq (g_cst816s_irq_count g) 0 g);
  mret pending.
End interrupts.
