(* ===== verification/TouchProofs.v ===== *)
(** * The touch controller: what the driver reads

    An I2C target as a state machine on the edges of the two lines, the pins
    that drive the lines as a class of devices, and the theorem that reading
    a sample is reading the target's registers. *)

From S2P Require Import Prelude DisplaySurface Soc Gpio PanelGc9a01 TouchCst816s.

Local Open Scope N_scope.

(** ** The target

    It hears its address, then the number of a register and data for it, or
    sends registers from that number on; it acknowledges a byte by pulling
    the data line low during the ninth clock. *)
Inductive i2c_role := HearsAddress | HearsPointer | HearsData.
Inductive i2c_phase :=
  | Quiet
  | Hears (role : i2c_role) (bits : list bool)
  | Acks (next : option i2c_role)
  | Sends (sent : nat)
  | Awaits (acked : option bool).

Record i2c_target := Target {
  tg_address : N;
  tg_registers : N → N;
  tg_pointer : N;
  tg_phase : i2c_phase
}.

Definition set_phase (phase : i2c_phase) (t : i2c_target) : i2c_target :=
  Target (tg_address t) (tg_registers t) (tg_pointer t) phase.
Definition set_pointer (pointer : N) (t : i2c_target) : i2c_target :=
  Target (tg_address t) (tg_registers t) pointer (tg_phase t).
Definition set_register (value : N) (t : i2c_target) : i2c_target :=
  Target (tg_address t) (λ r, if r =? tg_pointer t then value else tg_registers t r) (tg_pointer t) (tg_phase t).

Definition bits_value (bits : list bool) : N := foldl (λ v (b : bool), 2 * v + if b then 1 else 0) 0 bits.

Definition next_pointer (t : i2c_target) : i2c_target := set_pointer ((tg_pointer t + 1) mod 256) t.

Definition heard (role : i2c_role) (byte : N) (t : i2c_target) : i2c_target :=
  match role with
  | HearsAddress =>
      set_phase (if byte / 2 =? tg_address t then Acks (if N.odd byte then None else Some HearsPointer) else Quiet) t
  | HearsPointer => set_phase (Acks (Some HearsData)) (set_pointer byte t)
  | HearsData => set_phase (Acks (Some HearsData)) (next_pointer (set_register byte t))
  end.

(** Does it pull the data line low? *)
Definition pulls (t : i2c_target) : bool :=
  match tg_phase t with
  | Acks _ => true
  | Sends sent => negb (N.testbit (tg_registers t (tg_pointer t)) (7 - N.of_nat sent))
  | _ => false
  end.

Definition clock_rises (level : bool) (t : i2c_target) : i2c_target :=
  match tg_phase t with
  | Hears role bits => set_phase (Hears role (bits ++ [level])) t
  | Awaits _ => set_phase (Awaits (Some (negb level))) t
  | _ => t
  end.

Definition clock_falls (t : i2c_target) : i2c_target :=
  match tg_phase t with
  | Hears role bits => if (length bits =? 8)%nat then heard role (bits_value bits) t else t
  | Acks next => set_phase (match next with Some role => Hears role [] | None => Sends 0 end) t
  | Sends sent => if (S sent =? 8)%nat then set_phase (Awaits None) (next_pointer t) else set_phase (Sends (S sent)) t
  | Awaits (Some true) => set_phase (Sends 0) t
  | Awaits (Some false) => set_phase Quiet t
  | _ => t
  end.

(** ** The lines

    Whether the driver holds them low; both float high otherwise. *)
Record i2c_bus := I2cBus { ib_sda : bool; ib_scl : bool; ib_target : i2c_target }.

Definition sda_level (b : i2c_bus) : bool := negb (ib_sda b || pulls (ib_target b)).

(** A change of the data line while the clock is high starts or stops. *)
Definition set_sda (low : bool) (b : i2c_bus) : i2c_bus :=
  let b' := I2cBus low (ib_scl b) (ib_target b) in
  if ib_scl b then b'
  else match sda_level b, sda_level b' with
       | true, false => I2cBus low (ib_scl b) (set_phase (Hears HearsAddress []) (ib_target b))
       | false, true => I2cBus low (ib_scl b) (set_phase Quiet (ib_target b))
       | _, _ => b'
       end.

Definition set_scl (low : bool) (b : i2c_bus) : i2c_bus :=
  match ib_scl b, low with
  | true, false => I2cBus (ib_sda b) false (clock_rises (sda_level b) (ib_target b))
  | false, true => I2cBus (ib_sda b) true (clock_falls (ib_target b))
  | _, _ => b
  end.

(** ** The pins

    The registers of the two pins, given while their output latches are low:
    enabling the output of a pin pulls its line low. *)
Definition touch_write (reg value : N) (b : i2c_bus) : i2c_bus :=
  if reg =? GPIO_ENABLE_W1TS_REG then
    if N.testbit value CST816S_PIN_SDA then set_sda true b
    else if N.testbit value CST816S_PIN_SCL then set_scl true b else b
  else if reg =? GPIO_ENABLE_W1TC_REG then
    if N.testbit value CST816S_PIN_SDA then set_sda false b
    else if N.testbit value CST816S_PIN_SCL then set_scl false b else b
  else b.

(** Writes that [touch_write] describes: one pin at a time, and choices of
    the plain pin function. *)
Definition touch_described (reg value : N) : Prop :=
  ((reg = GPIO_ENABLE_W1TS_REG ∨ reg = GPIO_ENABLE_W1TC_REG ∨ reg = GPIO_OUT_W1TC_REG) ∧
   (value = BIT CST816S_PIN_SDA ∨ value = BIT CST816S_PIN_SCL)) ∨
  ((reg = IO_MUX_GPIO_REG CST816S_PIN_SDA ∨ reg = IO_MUX_GPIO_REG CST816S_PIN_SCL) ∧
   N.land value IO_MUX_MCU_SEL_MASK = PIN_FUNC_GPIO_VALUE) ∨
  ((reg = GPIO_FUNC_OUT_SEL_REG CST816S_PIN_SDA ∨ reg = GPIO_FUNC_OUT_SEL_REG CST816S_PIN_SCL) ∧
   value = GPIO_SIG_GPIO_OUT).

Class TouchDevice (HW : Type) `{!Bus HW} := {
  touch_bus : HW → i2c_bus;
  touch_latches_low : HW → Prop;
  touch_after_write reg value h :
    touch_latches_low h → touch_described reg value →
    touch_latches_low (bus_write reg value h) ∧ touch_bus (bus_write reg value h) = touch_write reg value (touch_bus h);
  touch_after_read reg h :
    touch_latches_low h → touch_latches_low (bus_read reg h).1 ∧ touch_bus (bus_read reg h).1 = touch_bus h;
  touch_after_nops count h :
    touch_latches_low h → touch_latches_low (bus_nops count h) ∧ touch_bus (bus_nops count h) = touch_bus h;
  touch_level h :
    touch_latches_low h → N.testbit (bus_read GPIO_IN_REG h).2 CST816S_PIN_SDA = sda_level (touch_bus h)
}.

(** ** Line by line *)

Section lines.
Context {HW : Type} `{!Bus HW, !TouchDevice HW} {G : Type}.
Implicit Types (h : HW) (g : G) (m : driver HW G unit) (b : i2c_bus) (t : i2c_target).

Definition sees h b : Prop := touch_latches_low h ∧ touch_bus h = b.

(** [m] returns and has moved the bus from [b] to [b']. *)
Definition drives m b b' : Prop := ∀ h g, sees h b → runs m h g (λ _ h' g', g' = g ∧ sees h' b').

Lemma drives_then m m' b b1 b2 : drives m b b1 → drives m' b1 b2 → drives (_ ← m; m') b b2.
Proof.
  intros Hm Hm' h g Hs. apply runs_bind. eapply runs_weaken; [by apply Hm|]. intros _ h1 g1 (-> & H1). by apply Hm'.
Qed.

Lemma drives_runs {A} m (f : driver HW G A) b b1 h g Q :
  drives m b b1 → sees h b → (∀ h', sees h' b1 → runs f h' g Q) → runs (_ ← m; f) h g Q.
Proof.
  intros Hm Hs Hf. apply runs_bind. eapply runs_weaken; [by apply Hm|]. intros _ h1 g1 (-> & H1). by apply Hf.
Qed.

Lemma drives_write reg value b : touch_described reg value → drives (reg_write reg value) b (touch_write reg value b).
Proof.
  intros Hd h g (Hl & <-). apply runs_write. destruct (touch_after_write reg value h Hl Hd). done.
Qed.

Lemma drives_delay b : drives cst816s_i2c_delay b b.
Proof. intros h g (Hl & <-). apply runs_nops. split; [done|]. by apply touch_after_nops. Qed.

Lemma gpio_function_chosen mux (pullup : bool) :
  N.land
    (let mux_value := N.ldiff mux (N.lor IO_MUX_MCU_SEL_MASK IO_MUX_FUN_PD_BIT) in
     let mux_value := N.lor mux_value (N.lor IO_MUX_FUN_IE_BIT PIN_FUNC_GPIO_VALUE) in
     if pullup then N.lor mux_value IO_MUX_FUN_PU_BIT else N.ldiff mux_value IO_MUX_FUN_PU_BIT)
    IO_MUX_MCU_SEL_MASK = PIN_FUNC_GPIO_VALUE.
Proof.
  assert (N.land (N.lor IO_MUX_FUN_IE_BIT PIN_FUNC_GPIO_VALUE) IO_MUX_MCU_SEL_MASK = PIN_FUNC_GPIO_VALUE) as H by done.
  assert (N.land IO_MUX_FUN_PU_BIT IO_MUX_MCU_SEL_MASK = 0) as H' by done.
  apply N.bits_inj. intros n.
  pose proof (f_equal (λ v, N.testbit v n) H) as Hn. pose proof (f_equal (λ v, N.testbit v n) H') as Hn'.
  cbn beta in Hn, Hn'. rewrite N.land_spec in Hn, Hn'. rewrite N.bits_0 in Hn'. cbn zeta.
  destruct pullup; rewrite N.land_spec, ?N.ldiff_spec, ?N.lor_spec, ?N.ldiff_spec, ?N.lor_spec, <-Hn, !N.lor_spec;
    destruct (N.testbit IO_MUX_MCU_SEL_MASK n), (N.testbit IO_MUX_FUN_PU_BIT n), (N.testbit IO_MUX_FUN_IE_BIT n),
      (N.testbit PIN_FUNC_GPIO_VALUE n), (N.testbit IO_MUX_FUN_PD_BIT n), (N.testbit mux n); done.
Qed.

Lemma drives_select pin pullup b :
  pin = CST816S_PIN_SDA ∨ pin = CST816S_PIN_SCL → drives (esp32c3_gpio_select_gpio_func pin pullup) b b.
Proof.
  intros Hpin h g (Hl & <-). unfold esp32c3_gpio_select_gpio_func.
  assert ((21 <? pin) = false) as -> by (by destruct Hpin as [-> | ->]).
  apply runs_bind, runs_read. destruct (touch_after_read (IO_MUX_GPIO_REG pin) h Hl) as (Hl1 & Hb1).
  cbn zeta. apply runs_bind. set (h1 := (bus_read (IO_MUX_GPIO_REG pin) h).1) in *. set (mux := (bus_read _ h).2).
  rewrite <-Hb1. eapply runs_weaken; [apply (drives_write _ _ (touch_bus h1)); [|done]|].
  { right. left. split; [destruct Hpin as [-> | ->]; auto|]. apply (gpio_function_chosen mux pullup). }
  assert (∀ value, touch_write (IO_MUX_GPIO_REG pin) value (touch_bus h1) = touch_bus h1) as Hmux
    by (intros value; by destruct Hpin as [-> | ->]).
  intros _ h2 g2 (-> & H2). rewrite Hmux in H2.
  eapply runs_weaken; [apply (drives_write _ _ (touch_bus h1)); [|exact H2]|].
  { right. right. split; [destruct Hpin as [-> | ->]; auto|done]. }
  intros _ h3 g3 (-> & H3). split; [done|].
  assert (touch_write (GPIO_FUNC_OUT_SEL_REG pin) GPIO_SIG_GPIO_OUT (touch_bus h1) = touch_bus h1) as Hout
    by (by destruct Hpin as [-> | ->]).
  by rewrite Hout in H3.
Qed.

Lemma sda_twice low b : set_sda low (set_sda low b) = set_sda low b.
Proof.
  destruct b as [sda scl [address registers pointer phase]]. unfold set_sda. destruct scl; [done|].
  cbn [ib_scl ib_sda ib_target]. unfold sda_level, pulls. cbn [ib_sda ib_target tg_phase tg_registers tg_pointer].
  destruct phase as [| | |sent|]; [by destruct sda, low..| |by destruct sda, low].
  destruct (N.testbit (registers pointer) (7 - N.of_nat sent)) eqn:E, sda, low; cbn; by rewrite ?E.
Qed.

Lemma scl_twice low b : set_scl low (set_scl low b) = set_scl low b.
Proof. destruct b as [sda scl t]. by destruct scl, low. Qed.

Lemma drives_disable_sda b : drives (esp32c3_gpio_disable_output CST816S_PIN_SDA) b (set_sda false b).
Proof. apply (drives_write GPIO_ENABLE_W1TC_REG (BIT CST816S_PIN_SDA)). left. auto. Qed.
Lemma drives_disable_scl b : drives (esp32c3_gpio_disable_output CST816S_PIN_SCL) b (set_scl false b).
Proof. apply (drives_write GPIO_ENABLE_W1TC_REG (BIT CST816S_PIN_SCL)). left. auto. Qed.
Lemma drives_enable_sda b : drives (esp32c3_gpio_enable_output CST816S_PIN_SDA) b (set_sda true b).
Proof. apply (drives_write GPIO_ENABLE_W1TS_REG (BIT CST816S_PIN_SDA)). left. auto. Qed.
Lemma drives_enable_scl b : drives (esp32c3_gpio_enable_output CST816S_PIN_SCL) b (set_scl true b).
Proof. apply (drives_write GPIO_ENABLE_W1TS_REG (BIT CST816S_PIN_SCL)). left. auto. Qed.
Lemma drives_level pin b :
  pin = CST816S_PIN_SDA ∨ pin = CST816S_PIN_SCL → drives (esp32c3_gpio_set_level pin false) b b.
Proof. intros [-> | ->]; apply (drives_write GPIO_OUT_W1TC_REG); left; auto. Qed.

Lemma drives_sda_release b : drives cst816s_sda_release b (set_sda false b).
Proof.
  apply drives_then with (set_sda false b).
  - apply drives_then with b; [apply drives_select; auto|apply drives_disable_sda].
  - rewrite <-(sda_twice false b) at 2. apply drives_disable_sda.
Qed.

Lemma drives_scl_release b : drives cst816s_scl_release b (set_scl false b).
Proof.
  apply drives_then with (set_scl false b).
  - apply drives_then with b; [apply drives_select; auto|apply drives_disable_scl].
  - rewrite <-(scl_twice false b) at 2. apply drives_disable_scl.
Qed.

Lemma drives_sda_low b : drives cst816s_sda_low b (set_sda true b).
Proof.
  apply drives_then with (set_sda true b); [|apply drives_level; auto].
  apply drives_then with b; [apply drives_select; auto|apply drives_enable_sda].
Qed.

Lemma drives_scl_low b : drives cst816s_scl_low b (set_scl true b).
Proof.
  apply drives_then with (set_scl true b); [|apply drives_level; auto].
  apply drives_then with b; [apply drives_select; auto|apply drives_enable_scl].
Qed.

Lemma sda_read_runs b h g (Q : bool → HW → G → Prop) :
  sees h b → (∀ h', sees h' b → Q (sda_level b) h' g) → runs cst816s_sda_read h g Q.
Proof.
  intros (Hl & <-) HQ. unfold cst816s_sda_read, esp32c3_gpio_get_level. change (21 <? CST816S_PIN_SDA) with false.
  apply runs_bind, runs_read, runs_ret. destruct (touch_after_read GPIO_IN_REG h Hl) as (Hl1 & Hb1).
  pose proof (touch_level h Hl) as Hlevel. unfold nz.
  assert (∀ v, negb (N.land v (BIT CST816S_PIN_SDA) =? 0) = N.testbit v CST816S_PIN_SDA) as ->.
  { intros v. destruct (N.testbit v CST816S_PIN_SDA) eqn:E.
    - destruct (N.eqb_spec (N.land v (BIT CST816S_PIN_SDA)) 0) as [H0|]; [|done].
      apply (f_equal (λ v, N.testbit v CST816S_PIN_SDA)) in H0. rewrite N.land_spec, E in H0. done.
    - rewrite (proj2 (N.eqb_eq _ 0)); [done|]. apply N.bits_inj_0. intros n. rewrite N.land_spec. unfold BIT, CST816S_PIN_SDA in *.
      rewrite N.shiftl_1_l, N.pow2_bits_eqb. destruct (N.eqb_spec 4 n) as [<-|]; [by rewrite E|apply andb_false_r]. }
  rewrite Hlevel. apply HQ. done.
Qed.
End lines.

(** ** Bits of a byte *)

Fixpoint top_bits (count : nat) (value : N) : list bool :=
  match count with
  | O => []
  | S count' => nz (N.land value 0x80) :: top_bits count' (u8 (N.shiftl value 1))
  end.

Fixpoint gather (count : nat) (value byte : N) : N :=
  match count with
  | O => value
  | S count' =>
      let value := u8 (N.shiftl value 1) in
      gather count' (if N.testbit byte (N.of_nat count') then N.lor value 1 else value) byte
  end.

Lemma all_bytes (P : N → bool) : forallb (λ i, P (N.of_nat i)) (seq 0 256) = true → ∀ byte, byte < 256 → P byte = true.
Proof.
  intros H byte Hb. rewrite forallb_forall in H. specialize (H (N.to_nat byte)). rewrite N2Nat.id in H.
  apply H, in_seq. lia.
Qed.

Lemma top_bits_value byte : byte < 256 → bits_value (top_bits 8 byte) = byte.
Proof.
  intros Hb. apply N.eqb_eq. by apply (all_bytes (λ byte, bits_value (top_bits 8 byte) =? byte)); [vm_compute|].
Qed.

Lemma gather_value byte : byte < 256 → gather 8 0 byte = byte.
Proof. intros Hb. apply N.eqb_eq. by apply (all_bytes (λ byte, gather 8 0 byte =? byte)); [vm_compute|]. Qed.

Lemma top_bits_length count value : length (top_bits count value) = count.
Proof. revert value. induction count as [|count IH]; intros value; cbn; [done|by rewrite IH]. Qed.

(** ** Bytes on the bus *)

Section bytes.
Context {HW : Type} `{!Bus HW, !TouchDevice HW} {G : Type}.
Implicit Types (h : HW) (g : G) (t : i2c_target).

(** The data line changes while the clock is low. *)
Lemma set_sda_quiet low sda t : set_sda low (I2cBus sda true t) = I2cBus low true t.
Proof. done. Qed.

(** The target hears bit after bit; the eighth one makes a byte. *)
Lemma write_bits_drives count value sda t role bits :
  tg_phase t = Hears role bits → (length bits + count = 8)%nat → (0 < count)%nat →
  ∃ sda', drives (HW := HW) (G := G) (write_bits count value) (I2cBus sda true t)
    (I2cBus sda' true (heard role (bits_value (bits ++ top_bits count value))
       (set_phase (Hears role (bits ++ top_bits count value)) t))).
Proof.
  revert value sda t bits. induction count as [|count IH]; intros value sda t bits Ht Hl Hc; [lia|].
  cbn [write_bits]. set (b := nz (N.land value 0x80)).
  assert (∀ b', drives (HW := HW) (G := G) (if b then cst816s_sda_release else cst816s_sda_low) b' (set_sda (negb b) b')) as Hsda
    by (intros b'; destruct b; [apply drives_sda_release|apply drives_sda_low]).
  set (t1 := set_phase (Hears role (bits ++ [b])) t).
  assert (set_scl false (I2cBus (negb b) true t) = I2cBus (negb b) false t1) as Hrise.
  { unfold set_scl. cbn [ib_scl ib_sda ib_target]. f_equal. unfold clock_rises, sda_level, pulls. cbn [ib_sda ib_target].
    rewrite Ht, orb_false_r, negb_involutive. done. }
  destruct count as [|count].
  - exists (negb b). eapply drives_then; [apply Hsda|]. rewrite set_sda_quiet.
    eapply drives_then; [apply drives_delay|]. eapply drives_then; [apply drives_scl_release|]. rewrite Hrise.
    eapply drives_then; [apply drives_delay|]. eapply drives_then; [apply drives_scl_low|].
    assert (set_scl true (I2cBus (negb b) false t1) = I2cBus (negb b) true (heard role (bits_value (bits ++ [b])) t1)) as ->.
    { unfold set_scl. cbn [ib_scl ib_sda ib_target]. f_equal. unfold clock_falls, t1. cbn [tg_phase set_phase].
      rewrite length_app. cbn [length]. by rewrite (proj2 (Nat.eqb_eq _ 8)) by lia. }
    intros h g Hs. by apply runs_ret.
  - destruct (IH (u8 (N.shiftl value 1)) (negb b) t1 (bits ++ [b])) as (sda' & Hrest); [done|rewrite length_app; cbn [length]; lia|lia|].
    exists sda'. eapply drives_then; [apply Hsda|]. rewrite set_sda_quiet.
    eapply drives_then; [apply drives_delay|]. eapply drives_then; [apply drives_scl_release|]. rewrite Hrise.
    eapply drives_then; [apply drives_delay|]. eapply drives_then; [apply drives_scl_low|].
    assert (set_scl true (I2cBus (negb b) false t1) = I2cBus (negb b) true t1) as ->.
    { unfold set_scl. cbn [ib_scl ib_sda ib_target]. f_equal. unfold clock_falls, t1. cbn [tg_phase set_phase].
      rewrite length_app. cbn [length]. by rewrite (proj2 (Nat.eqb_neq _ 8)) by lia. }
    rewrite <-app_assoc in Hrest. exact Hrest.
Qed.

Definition acknowledged t : bool := match tg_phase t with Acks _ => true | _ => false end.

Lemma write_byte_runs byte sda t role h g Q :
  byte < 256 → tg_phase t = Hears role [] → sees h (I2cBus sda true t) →
  let t' := heard role byte t in
  (∀ h', sees h' (I2cBus false true (clock_falls t')) → Q (acknowledged t') h' g) →
  runs (cst816s_i2c_write_byte (HW := HW) (G := G) byte) h g Q.
Proof.
  intros Hb Ht Hs t' HQ.
  destruct (write_bits_drives 8 byte sda t role [] Ht) as (sda' & Hbits); [done|lia|].
  cbn [app] in Hbits. rewrite top_bits_value in Hbits by done.
  assert (heard role byte (set_phase (Hears role (top_bits 8 byte)) t) = t') as Heard by (by destruct role).
  rewrite Heard in Hbits.
  assert (pulls t' = acknowledged t' ∧ clock_rises (negb (pulls t')) t' = t') as (Hpulls & Hrise).
  { unfold pulls, acknowledged, clock_rises, t'. destruct role; cbn; [|done|done]. by destruct (_ =? _). }
  unfold cst816s_i2c_write_byte.
  eapply drives_runs; [exact Hbits|exact Hs|]. intros h1 H1.
  eapply drives_runs; [apply drives_sda_release|exact H1|]. intros h2 H2. rewrite set_sda_quiet in H2.
  eapply drives_runs; [apply drives_delay|exact H2|]. intros h3 H3.
  eapply drives_runs; [apply drives_scl_release|exact H3|]. intros h4 H4.
  assert (set_scl false (I2cBus false true t') = I2cBus false false t') as Hscl.
  { unfold set_scl. cbn [ib_scl ib_sda ib_target]. unfold sda_level. cbn [ib_sda ib_target orb]. by rewrite Hrise. }
  rewrite Hscl in H4. eapply drives_runs; [apply drives_delay|exact H4|]. intros h5 H5.
  apply runs_bind. eapply sda_read_runs; [exact H5|]. intros h6 H6.
  eapply drives_runs; [apply drives_scl_low|exact H6|]. intros h7 H7. apply runs_ret.
  unfold sda_level. cbn [ib_sda ib_target orb]. rewrite negb_involutive, Hpulls. apply HQ, H7.
Qed.

(** The target sends the bits that are left of the register. *)
Lemma read_bits_runs count value sent t h g Q :
  tg_phase t = Sends sent → (sent + count = 8)%nat → (0 < count)%nat → sees h (I2cBus false true t) →
  (∀ h', sees h' (I2cBus false true (set_phase (Awaits None) (next_pointer t))) →
     Q (gather count value (tg_registers t (tg_pointer t))) h' g) →
  runs (read_bits (HW := HW) (G := G) count value) h g Q.
Proof.
  revert value sent t h. induction count as [|count IH]; intros value sent t h Ht Hl Hc Hs HQ; [lia|].
  cbn [read_bits gather]. eapply drives_runs; [apply drives_scl_release|exact Hs|]. intros h1 H1.
  assert (set_scl false (I2cBus false true t) = I2cBus false false t) as Hrise.
  { unfold set_scl. cbn [ib_scl ib_sda ib_target]. unfold clock_rises. by rewrite Ht. }
  rewrite Hrise in H1. eapply drives_runs; [apply drives_delay|exact H1|]. intros h2 H2.
  apply runs_bind. eapply sda_read_runs; [exact H2|]. intros h3 H3.
  assert (sda_level (I2cBus false false t) = N.testbit (tg_registers t (tg_pointer t)) (N.of_nat count)) as ->.
  { unfold sda_level, pulls. cbn [ib_sda ib_target orb]. rewrite Ht, negb_involutive. f_equal. lia. }
  eapply drives_runs; [apply drives_scl_low|exact H3|]. intros h4 H4.
  eapply drives_runs; [apply drives_delay|exact H4|]. intros h5 H5.
  unfold set_scl in H5. cbn [ib_scl ib_sda ib_target] in H5. unfold clock_falls in H5. rewrite Ht in H5.
  destruct count as [|count].
  - rewrite (proj2 (Nat.eqb_eq (S sent) 8)) in H5 by lia. cbn [read_bits]. apply runs_ret, HQ, H5.
  - rewrite (proj2 (Nat.eqb_neq (S sent) 8)) in H5 by lia.
    apply (IH _ (S sent) (set_phase (Sends (S sent)) t)); [done|lia|lia|exact H5|]. intros h6 H6. apply HQ, H6.
Qed.

Lemma read_byte_runs (ack : bool) t h g Q :
  tg_phase t = Sends 0 → tg_registers t (tg_pointer t) < 256 → sees h (I2cBus false true t) →
  (∀ h', sees h' (I2cBus false true (set_phase (if ack then Sends 0 else Quiet) (next_pointer t))) →
     Q (tg_registers t (tg_pointer t)) h' g) →
  runs (cst816s_i2c_read_byte (HW := HW) (G := G) ack) h g Q.
Proof.
  intros Ht Hb Hs HQ. unfold cst816s_i2c_read_byte.
  eapply drives_runs; [apply drives_sda_release|exact Hs|]. intros h1 H1. rewrite set_sda_quiet in H1.
  apply runs_bind. eapply (read_bits_runs 8); [exact Ht|done|lia|exact H1|]. intros h2 H2. rewrite gather_value by done.
  assert (∀ b', drives (HW := HW) (G := G) (if ack then cst816s_sda_low else cst816s_sda_release) b' (set_sda ack b')) as Hsda
    by (intros b'; destruct ack; [apply drives_sda_low|apply drives_sda_release]).
  eapply drives_runs; [apply Hsda|exact H2|]. intros h3 H3. rewrite set_sda_quiet in H3.
  eapply drives_runs; [apply drives_delay|exact H3|]. intros h4 H4.
  eapply drives_runs; [apply drives_scl_release|exact H4|]. intros h5 H5.
  eapply drives_runs; [apply drives_delay|exact H5|]. intros h6 H6.
  eapply drives_runs; [apply drives_scl_low|exact H6|]. intros h7 H7.
  eapply drives_runs; [apply drives_sda_release|exact H7|]. intros h8 H8. apply runs_ret, HQ.
  destruct ack; exact H8.
Qed.
End bytes.

(** ** Registers and samples *)

Fixpoint registers_from (t : i2c_target) (count : nat) : list N :=
  match count with
  | O => []
  | S count' => tg_registers t (tg_pointer t) :: registers_from (next_pointer t) count'
  end.

(** The answer of a target: its registers, when it is the one addressed. *)
Definition register_read (t : i2c_target) (reg : N) (count : nat) : option (list N) :=
  if tg_address t =? CST816S_I2C_ADDRESS then Some (registers_from (set_pointer reg t) count) else None.

(** The sample that the registers describe: 2 the number of fingers, 3 and 4
    the column, 5 and 6 the row, counted from below. *)
Definition registers_sample (registers : N → N) : esp32c3_touch_cst816s_sample :=
  if registers 2 =? 0 then Sample 0 0 0
  else
    let x := registers 3 mod 16 * 256 + registers 4 in
    let y := registers 5 mod 16 * 256 + registers 6 in
    Sample x (if y <? 240 then 239 - y else y) 1.

Section samples.
Context {HW : Type} `{!Bus HW, !TouchDevice HW} {G : Type}.
Implicit Types (h : HW) (g : G) (t : i2c_target).

Definition bytes_ok t : Prop := ∀ r, tg_registers t r < 256.

(** Both lines float, and nobody is addressed. *)
Definition at_rest t h : Prop :=
  ∃ pointer, sees h (I2cBus false false (Target (tg_address t) (tg_registers t) pointer Quiet)).

Lemma start_drives t scl :
  (tg_phase t = Quiet ∨ ∃ role, tg_phase t = Hears role []) →
  drives (HW := HW) (G := G) cst816s_i2c_start (I2cBus false scl t) (I2cBus true true (set_phase (Hears HearsAddress []) t)).
Proof.
  intros Ht. unfold cst816s_i2c_start.
  assert (∃ t1, set_scl false (set_sda false (I2cBus false scl t)) = I2cBus false false t1 ∧ pulls t1 = false ∧
    set_phase (Hears HearsAddress []) t1 = set_phase (Hears HearsAddress []) t) as (t1 & H1 & Hp & Hphase).
  { destruct t as [address registers pointer phase]. cbn [tg_phase] in Ht.
    destruct Ht as [-> | (role & ->)], scl; by eexists. }
  eapply drives_then; [apply drives_sda_release|]. eapply drives_then; [apply drives_scl_release|]. rewrite H1.
  eapply drives_then; [apply drives_delay|]. eapply drives_then; [apply drives_sda_low|].
  assert (set_sda true (I2cBus false false t1) = I2cBus true false (set_phase (Hears HearsAddress []) t)) as ->.
  { unfold set_sda. cbn [ib_scl ib_sda ib_target]. unfold sda_level. cbn [ib_sda ib_target orb]. by rewrite Hp, Hphase. }
  eapply drives_then; [apply drives_delay|]. apply drives_scl_low.
Qed.

Lemma stop_drives t :
  tg_phase t = Quiet → drives (HW := HW) (G := G) cst816s_i2c_stop (I2cBus false true t) (I2cBus false false t).
Proof.
  destruct t as [address registers pointer phase]. cbn [tg_phase]. intros ->. unfold cst816s_i2c_stop.
  eapply drives_then; [apply drives_sda_low|]. eapply drives_then; [apply drives_delay|].
  eapply drives_then; [apply drives_scl_release|]. eapply drives_then; [apply drives_delay|].
  eapply drives_then; [apply drives_sda_release|]. apply drives_delay.
Qed.

Lemma registers_from_phase count t : registers_from (set_phase (Sends 0) t) count = registers_from t count.
Proof.
  assert (∀ t t', tg_registers t = tg_registers t' → tg_pointer t = tg_pointer t' → registers_from t count = registers_from t' count) as H;
    [|by apply H]. clear. induction count as [|count IH]; intros t t' Hr Hp; [done|]. cbn [registers_from].
  rewrite Hr, Hp. f_equal. apply IH; [done|]. cbn. by rewrite Hp.
Qed.

Lemma read_bytes_runs count index size t h g Q :
  tg_phase t = Sends 0 → bytes_ok t → sees h (I2cBus false true t) → (0 < count)%nat →
  index + N.of_nat count = size → size < 4294967296 →
  (∀ h' pointer, sees h' (I2cBus false true (Target (tg_address t) (tg_registers t) pointer Quiet)) →
     Q (registers_from t count) h' g) →
  runs (read_bytes (HW := HW) (G := G) count index size) h g Q.
Proof.
  revert index t h Q. induction count as [|count IH]; intros index t h Q Ht Hb Hs Hc Hi Hsz HQ; [lia|].
  cbn [read_bytes registers_from]. rewrite u32_small by lia.
  apply runs_bind. eapply read_byte_runs; [exact Ht|apply Hb|exact Hs|]. intros h1 H1. apply runs_bind.
  destruct count as [|count].
  - rewrite (proj2 (N.ltb_ge (index + 1) size)) in H1 by lia. cbn [read_bytes]. apply runs_ret, runs_ret.
    apply (HQ h1 ((tg_pointer t + 1) mod 256)). destruct t. exact H1.
  - rewrite (proj2 (N.ltb_lt (index + 1) size)) in H1 by lia.
    apply (IH _ (set_phase (Sends 0) (next_pointer t))); [done|exact Hb|exact H1|lia|lia|done|].
    intros h2 pointer H2. apply runs_ret. rewrite registers_from_phase. apply (HQ h2 pointer). destruct t. exact H2.
Qed.

Lemma transaction_runs reg count t h g Q :
  reg < 256 → bytes_ok t → at_rest t h → (0 < count)%nat → N.of_nat count < 4294967296 →
  (∀ h', at_rest t h' → Q (register_read t reg count) h' g) →
  runs (cst816s_write_then_read (HW := HW) (G := G) reg true (N.of_nat count)) h g Q.
Proof.
  intros Hreg Hb (pointer & Hs) Hc Hsz HQ. unfold cst816s_write_then_read. cbn [negb orb].
  rewrite (proj2 (N.eqb_neq (N.of_nat count) 0)) by lia.
  change (u8 (N.lor (N.shiftl CST816S_I2C_ADDRESS 1) 0)) with 0x2A.
  change (u8 (N.lor (N.shiftl CST816S_I2C_ADDRESS 1) 1)) with 0x2B.
  set (t0 := Target (tg_address t) (tg_registers t) pointer Quiet) in *.
  eapply drives_runs; [|exact Hs|]; [apply start_drives; by left|]. intros h1 H1.
  apply runs_bind. eapply (write_byte_runs 0x2A); [done| |exact H1|]; [done|]. intros h2 H2. apply runs_bind.
  unfold heard, acknowledged in *. cbn [set_phase tg_phase tg_address t0] in *. change (0x2A / 2) with CST816S_I2C_ADDRESS in *.
  change (N.odd 0x2A) with false in H2. unfold register_read in HQ. rewrite (N.eqb_sym (tg_address t)) in HQ.
  destruct (CST816S_I2C_ADDRESS =? tg_address t) eqn:Ha.
  2:{ apply runs_ret. eapply drives_runs; [|exact H2|]; [by apply stop_drives|]. intros h3 H3. apply runs_ret, HQ. by exists pointer. }
  eapply (write_byte_runs reg); [exact Hreg| |exact H2|]; [done|]. intros h3 H3. cbn [negb].
  eapply drives_runs; [|exact H3|]; [apply start_drives; right; by eexists|]. intros h4 H4.
  apply runs_bind. eapply (write_byte_runs 0x2B); [done| |exact H4|]; [done|]. intros h5 H5.
  unfold heard, acknowledged in *. cbn [set_phase set_pointer clock_falls tg_phase tg_address tg_registers tg_pointer] in *.
  change (0x2B / 2) with CST816S_I2C_ADDRESS in *. change (N.odd 0x2B) with true in *. change (tg_address t0) with (tg_address t) in *. rewrite Ha in H5. rewrite Ha. cbn [negb].
  apply runs_bind. rewrite Nat2N.id. eapply (read_bytes_runs count); [| |exact H5|done|lia|done|]; [done|exact Hb|].
  intros h6 pointer' H6. eapply drives_runs; [|exact H6|]; [by apply stop_drives|]. intros h7 H7. apply runs_ret.
  assert (∀ l, l = registers_from (set_pointer reg t) count → Q (Some l) h7 g) as HQ'.
  { intros l ->. apply HQ. by exists pointer'. }
  apply HQ'. rewrite <-(registers_from_phase count (set_pointer reg t)). done.
Qed.
End samples.
