(* ===== verification/SimDevice.v ===== *)
(** * A simulated machine

    A concrete instance of the classes of devices that the drivers' theorems
    assume: the serial port, the USB console, the control registers, the SPI
    controller and the pins of the touch controller, each busy for a moment after it was given work. *)

From S2P Require Import Prelude Soc Uart UsbSerialJtag Gpio PanelGc9a01 PanelSpec TouchCst816s TouchProofs.

Local Open Scope N_scope.

Record sim := Sim {
  m_csrs : N → N;
  m_sent : list N;
  m_room : bool;
  m_uart_busy : bool;
  m_written : list N;
  m_handed : N;
  m_usb_busy : bool;
  m_spi : spi_view;
  m_spi_busy : bool;
  m_touch : i2c_bus
}.

Definition set_uart (sent : list N) (room busy : bool) (m : sim) : sim :=
  Sim (m_csrs m) sent room busy (m_written m) (m_handed m) (m_usb_busy m) (m_spi m) (m_spi_busy m) (m_touch m).
Definition set_usb (written : list N) (handed : N) (busy : bool) (m : sim) : sim :=
  Sim (m_csrs m) (m_sent m) (m_room m) (m_uart_busy m) written handed busy (m_spi m) (m_spi_busy m) (m_touch m).
Definition set_spi (v : spi_view) (busy : bool) (m : sim) : sim :=
  Sim (m_csrs m) (m_sent m) (m_room m) (m_uart_busy m) (m_written m) (m_handed m) (m_usb_busy m) v busy (m_touch m).
Definition set_csrs (csrs : N → N) (m : sim) : sim :=
  Sim csrs (m_sent m) (m_room m) (m_uart_busy m) (m_written m) (m_handed m) (m_usb_busy m) (m_spi m) (m_spi_busy m) (m_touch m).

Definition set_touch (b : i2c_bus) (m : sim) : sim :=
  Sim (m_csrs m) (m_sent m) (m_room m) (m_uart_busy m) (m_written m) (m_handed m) (m_usb_busy m) (m_spi m) (m_spi_busy m) b.

(** The data buffer has sixteen words. *)
Definition sixteen (l : list N) : list N := take 16 (l ++ replicate 16 0).
Definition sim_spi (m : sim) : spi_view := set_words (sixteen (sv_words (m_spi m))) (m_spi m).

Definition activity_bits (v : spi_view) : N :=
  match sv_activity v with SpiIdle => 0 | SpiSyncing => 2 ^ 23 | SpiSending => 2 ^ 24 end.

Definition sim_read (reg : N) (m : sim) : sim * N :=
  if reg =? UART_STATUS_REG then
    if m_uart_busy m then (set_uart (m_sent m) false false m, N.shiftl 128 16) else (set_uart (m_sent m) true false m, 0)
  else if reg =? USB_SERIAL_JTAG_EP1_CONF_REG then
    if m_usb_busy m then (set_usb (m_written m) (m_handed m) false m, 0)
    else (m, USB_SERIAL_JTAG_SERIAL_IN_EP_DATA_FREE_BIT)
  else if reg =? SPI_CMD_REG then
    if m_spi_busy m then (set_spi (sim_spi m) false m, activity_bits (m_spi m))
    else (set_spi (spi_finish (sim_spi m)) false m, 0)
  else if reg =? GC9A01_SPI_DMA_INT_RAW_REG then (m, if sv_done (m_spi m) then 2 ^ 12 else 0)
  else if reg =? GPIO_IN_REG then (m, if sda_level (m_touch m) then BIT CST816S_PIN_SDA else 0)
  else match word_register reg with
       | Some i => (m, default 0 (sv_words (sim_spi m) !! N.to_nat i))
       | None => (m, 0)
       end.

Definition sim_write (reg value : N) (m : sim) : sim :=
  if reg =? UART_FIFO_REG then set_uart (m_sent m ++ [value]) false true m
  else if reg =? USB_SERIAL_JTAG_EP1_REG then set_usb (m_written m ++ [value]) (m_handed m) (m_usb_busy m) m
  else if reg =? USB_SERIAL_JTAG_EP1_CONF_REG then
    if N.testbit value 0 then set_usb (m_written m) (N.of_nat (length (m_written m))) true m else m
  else set_touch (touch_write reg value (m_touch m)) (set_spi (spi_write reg value (sim_spi m)) true m).

#[export] Instance sim_bus : Bus sim := {
  bus_read := sim_read;
  bus_write := sim_write;
  csr_read := λ csr m, (m, m_csrs m csr);
  csr_write := λ csr value m, set_csrs (λ c, if decide (c = csr) then value else m_csrs m c) m;
  bus_nops := λ _ m, m;
  bus_patience := 8
}.

(** A case for every register that the simulation tells apart. *)
Ltac registers := unfold sim_read, sim_write; repeat case_match; cbn; try done.

#[export] Program Instance sim_processor : Processor sim := {| csr_value := λ csr m, m_csrs m csr |}.
Next Obligation. done. Qed.
Next Obligation. done. Qed.
Next Obligation. done. Qed.
Next Obligation. intros csr reg m. cbn. by registers. Qed.
Next Obligation. intros csr reg value m. cbn. by registers. Qed.

#[export] Program Instance sim_uart : UartDevice sim := {|
  uart_sent := m_sent; uart_room := m_room; uart_wait := λ m, if m_uart_busy m then 1%nat else 0%nat |}.
Next Obligation.
  intros m. cbn. unfold sim_read. rewrite N.eqb_refl. destruct (m_uart_busy m) eqn:E; cbn; (split_and!; [done..|intros; by (lia || done)]).
Qed.
Next Obligation. done. Qed.
Next Obligation. intros m. cbn. destruct (m_uart_busy m); lia. Qed.
Next Obligation. intros reg m _. cbn. by registers. Qed.
Next Obligation.
  intros reg value m Hr. cbn. unfold sim_write. destruct (N.eqb_spec reg UART_FIFO_REG) as [->|]; [done|]. by registers.
Qed.
Next Obligation. done. Qed.
Next Obligation. done. Qed.

#[export] Program Instance sim_usb : UsbDevice sim := {|
  usb_written := m_written; usb_handed := m_handed; usb_listens := True;
  usb_wait := λ m, if m_usb_busy m then 1%nat else 0%nat |}.
Next Obligation. intros reg m. cbn. by registers. Qed.
Next Obligation.
  intros m _. cbn. unfold sim_read. rewrite (proj2 (N.eqb_neq _ _)), N.eqb_refl by done.
  destruct (m_usb_busy m) eqn:E; cbn; [lia|done].
Qed.
Next Obligation. intros m. cbn. destruct (m_usb_busy m); lia. Qed.
Next Obligation. done. Qed.
Next Obligation. intros value m Hv. cbn. unfold sim_write. by rewrite Hv. Qed.
Next Obligation.
  intros reg value m Hr. cbn. unfold sim_write.
  destruct (N.eqb_spec reg USB_SERIAL_JTAG_EP1_REG) as [->|]; [done|].
  destruct (N.eqb_spec reg USB_SERIAL_JTAG_EP1_CONF_REG) as [->|]; [done|]. by registers.
Qed.
Next Obligation. done. Qed.
Next Obligation. done. Qed.

(** ** The SPI controller *)

Lemma sixteen_length l : length (sixteen l) = 16%nat.
Proof. unfold sixteen. rewrite length_take, length_app, length_replicate. lia. Qed.

Lemma sixteen_same l : length l = 16%nat → sixteen l = l.
Proof. intros Hl. unfold sixteen. by rewrite <-Hl, take_app_length. Qed.

Lemma sim_spi_set v busy m : length (sv_words v) = 16%nat → sim_spi (set_spi v busy m) = v.
Proof. intros Hl. unfold sim_spi. cbn. rewrite sixteen_same by done. by destruct v. Qed.

Lemma spi_write_words reg value v : length (sv_words (spi_write reg value v)) = length (sv_words v).
Proof. unfold spi_write. repeat case_match; cbn; by rewrite ?length_insert. Qed.

Lemma spi_finish_words v : length (sv_words (spi_finish v)) = length (sv_words v).
Proof. unfold spi_finish. by destruct (sv_activity v). Qed.

Lemma spi_finish_idle v : sv_activity (spi_finish v) = SpiIdle.
Proof. unfold spi_finish. by destruct (sv_activity v) eqn:E. Qed.

Lemma sim_words m : length (sv_words (sim_spi m)) = 16%nat.
Proof. apply sixteen_length. Qed.
#[local] Hint Resolve sim_words : core.
#[local] Arguments set_spi : simpl never.
#[local] Arguments sim_spi : simpl never.

#[export] Program Instance sim_spi_device : SpiDevice sim := {|
  spi := sim_spi; spi_wait := λ m, if m_spi_busy m then 1%nat else 0%nat |}.
Next Obligation. apply sim_words. Qed.
Next Obligation.
  intros reg value m Hi Hd. cbn. unfold sim_write.
  destruct (N.eqb_spec reg UART_FIFO_REG) as [->|]; [done|].
  destruct (N.eqb_spec reg USB_SERIAL_JTAG_EP1_REG) as [->|]; [done|].
  destruct (N.eqb_spec reg USB_SERIAL_JTAG_EP1_CONF_REG) as [->|]; [done|].
  apply sim_spi_set. by rewrite spi_write_words.
Qed.
Next Obligation.
  intros reg m. cbn. unfold sim_read. destruct (reg =? UART_STATUS_REG); [destruct (m_uart_busy m); cbn; auto|].
  destruct (reg =? USB_SERIAL_JTAG_EP1_CONF_REG); [destruct (m_usb_busy m); cbn; auto|].
  destruct (reg =? SPI_CMD_REG).
  { destruct (m_spi_busy m); cbn; rewrite sim_spi_set by (by rewrite ?spi_finish_words); split; auto; lia. }
  destruct (reg =? GC9A01_SPI_DMA_INT_RAW_REG); [cbn; auto|]. destruct (reg =? GPIO_IN_REG); [cbn; auto|].
  destruct (word_register reg); cbn; auto.
Qed.
Next Obligation. intros count m. cbn. auto. Qed.
Next Obligation.
  intros m. cbn. unfold sim_read. test_numbers.
  destruct (m_spi_busy m) eqn:Hb; cbn; rewrite sim_spi_set by (by rewrite ?spi_finish_words).
  - change (sv_activity (sim_spi m)) with (sv_activity (m_spi m)). unfold activity_bits. destruct (sv_activity (m_spi m)) eqn:E; cbn; split_and!; by (lia || vm_compute).
  - rewrite spi_finish_idle. split_and!; done.
Qed.
Next Obligation.
  intros m. cbn. unfold sim_read. test_numbers. cbn. change (sv_done (sim_spi m)) with (sv_done (m_spi m)).
  by destruct (sv_done (m_spi m)).
Qed.
Next Obligation.
  intros reg i m Hw. cbn. unfold sim_read.
  destruct (N.eqb_spec reg UART_STATUS_REG) as [->|]; [done|].
  destruct (N.eqb_spec reg USB_SERIAL_JTAG_EP1_CONF_REG) as [->|]; [done|].
  destruct (N.eqb_spec reg SPI_CMD_REG) as [->|]; [done|].
  destruct (N.eqb_spec reg GC9A01_SPI_DMA_INT_RAW_REG) as [->|]; [done|].
  destruct (N.eqb_spec reg GPIO_IN_REG) as [->|]; [done|]. by rewrite Hw.
Qed.
Next Obligation. intros m. cbn. destruct (m_spi_busy m); lia. Qed.

(** ** The touch controller *)

#[export] Program Instance sim_touch_device : TouchDevice sim := {|
  touch_bus := m_touch; touch_latches_low := λ _, True |}.
Next Obligation.
  intros reg value m _ Hd. split; [done|]. cbn. unfold sim_write.
  destruct (N.eqb_spec reg UART_FIFO_REG) as [->|]; [by destruct Hd as [[[|[|]] _]|[[[|] _]|[[|] _]]]|].
  destruct (N.eqb_spec reg USB_SERIAL_JTAG_EP1_REG) as [->|]; [by destruct Hd as [[[|[|]] _]|[[[|] _]|[[|] _]]]|].
  destruct (N.eqb_spec reg USB_SERIAL_JTAG_EP1_CONF_REG) as [->|]; [by destruct Hd as [[[|[|]] _]|[[[|] _]|[[|] _]]]|].
  done.
Qed.
Next Obligation. intros reg m _. split; [done|]. cbn. by registers. Qed.
Next Obligation. done. Qed.
Next Obligation. intros m _. cbn. unfold sim_read. test_numbers. cbn. by destruct (sda_level (m_touch m)). Qed.

(** The machine at the start: nothing answers on the touch bus. *)
Definition sim0 : sim :=
  Sim (λ _, 8) [] true false [] 0 false (SpiView (replicate 16 0) 0 0 SpiIdle false true false []) false
    (I2cBus false false (Target 0 (λ _, 0) 0 Quiet)).
