(* ===== verification/ConsoleProofs.v ===== *)
(** * The console: what is printed

    A call of the console returns, prints its text on both devices in order,
    and leaves the interrupts as they were. *)

From S2P Require Import Prelude RuntimeManage Soc Uart UsbSerialJtag Console SimDevice.

Local Open Scope N_scope.

(** Between calls the ring is empty. *)
Record console_ok (g : console_state) : Prop := {
  co_queue : length (g_console_usb_tx_queue g) = 1024%nat;
  co_empty : g_console_usb_tx_head g = g_console_usb_tx_tail g;
  co_tail : g_console_usb_tx_tail g < 1024;
  co_flush : g_console_usb_tx_pending_flush g = 0;
  co_usb : usb_state_ok (console_usb g)
}.

Section console.
Context {HW : Type} `{!Bus HW, !UartDevice HW, !UsbDevice HW, !Processor HW}.
Implicit Types (h : HW) (g : console_state) (m : driver HW console_state unit) (l : list N).

(** What has gone to the USB console, and what waits to go. *)
Definition usb_output h g : list N := usb_written h ++ waiting (console_usb g).

(** The USB side gets [l] when the host listens. *)
Definition usb_gets l h g h' g' : Prop :=
  usb_listens → usb_output h' g' = usb_output h g ++ l ∧ (all_handed h → all_handed h').

Lemma usb_gets_nothing h g : usb_gets [] h g h g.
Proof. intros _. by rewrite app_nil_r. Qed.

Lemma usb_gets_more l l' h1 g1 h2 g2 h3 g3 :
  usb_gets l h1 g1 h2 g2 → usb_gets l' h2 g2 h3 g3 → usb_gets (l ++ l') h1 g1 h3 g3.
Proof.
  intros H1 H2 Hl. destruct (H1 Hl) as (E1 & ?), (H2 Hl) as (E2 & ?). split; [|auto]. by rewrite E2, E1, app_assoc.
Qed.

(** [m] prints on both devices. *)
Definition prints m l : Prop := ∀ h g, console_ok g →
  runs m h g (λ _ h' g', console_ok g' ∧ uart_sent h' = uart_sent h ++ l ∧
    csr_value MSTATUS h' = csr_value MSTATUS h ∧ usb_gets l h g h' g').

(** [m] prints on the USB console only. *)
Definition usb_prints m l : Prop := ∀ h g, console_ok g →
  runs m h g (λ _ h' g', console_ok g' ∧ uart_sent h' = uart_sent h ∧
    csr_value MSTATUS h' = csr_value MSTATUS h ∧ usb_gets l h g h' g').

Lemma registers_apart reg : usb_register reg = true → uart_register reg = false.
Proof.
  unfold usb_register, uart_register. intros (Hu & _)%andb_prop. apply N.leb_le in Hu.
  apply andb_false_intro2, N.ltb_ge. eapply N.le_trans; [|exact Hu]. by vm_compute.
Qed.

(** The serial port leaves the USB console and the processor alone, and the
    USB console the other two. *)
Lemma uart_keeps written handed mstatus :
  uart_frame (λ h, usb_written h = written ∧ usb_handed h = handed ∧ csr_value MSTATUS h = mstatus).
Proof.
  split; intros *; intros (<- & <- & <-).
  - destruct (usb_read UART_STATUS_REG h) as (-> & ->). by rewrite csr_after_bus_read.
  - destruct (usb_other_write UART_FIFO_REG value h) as (-> & ->); [done|]. by rewrite csr_after_bus_write.
Qed.

Lemma usb_keeps sent mstatus : usb_frame (λ h, uart_sent h = sent ∧ csr_value MSTATUS h = mstatus).
Proof.
  split; intros * Hr%registers_apart (<- & <-).
  - by rewrite uart_other_read, csr_after_bus_read.
  - by rewrite uart_other_write, csr_after_bus_write.
Qed.

Lemma prints_both m m' l : sends m l → usb_prints m' l → prints (_ ← m; m') l.
Proof.
  intros Hm Hm' h g Hg. apply runs_bind.
  eapply runs_weaken; [by apply Hm; [apply (uart_keeps (usb_written h) (usb_handed h) (csr_value MSTATUS h))|]|].
  intros _ h1 g1 (-> & (Hw & Hh & Hc) & Hs). eapply runs_weaken; [by apply Hm'|].
  intros _ h2 g2 (Hok & H1 & H2 & H3). split; [done|]. split; [congruence|]. split; [congruence|].
  intros Hl. destruct (H3 Hl) as (H4 & H5). unfold usb_output, all_handed in *. rewrite Hw, Hh in *. by split.
Qed.

Lemma prints_nothing : prints (mret tt) [].
Proof. intros h g Hg. apply runs_ret. split; [done|]. rewrite app_nil_r. split_and!; [done|done|apply usb_gets_nothing]. Qed.

Lemma prints_then m m' l l' : prints m l → prints m' l' → prints (_ ← m; m') (l ++ l').
Proof.
  intros Hm Hm' h g Hg. apply runs_bind. eapply runs_weaken; [by apply Hm|].
  intros _ h1 g1 (Hg1 & Hs1 & Hc1 & Hu1). eapply runs_weaken; [by apply Hm'|].
  intros _ h2 g2 (Hg2 & Hs2 & Hc2 & Hu2). split; [done|]. split; [by rewrite Hs2, Hs1, app_assoc|].
  split; [congruence|]. by eapply usb_gets_more.
Qed.

Lemma usb_prints_nothing : usb_prints (mret tt) [].
Proof. intros h g Hg. apply runs_ret. split; [done|]. split_and!; [done|done|apply usb_gets_nothing]. Qed.

Lemma usb_prints_then m m' l l' : usb_prints m l → usb_prints m' l' → usb_prints (_ ← m; m') (l ++ l').
Proof.
  intros Hm Hm' h g Hg. apply runs_bind. eapply runs_weaken; [by apply Hm|].
  intros _ h1 g1 (Hg1 & Hs1 & Hc1 & Hu1). eapply runs_weaken; [by apply Hm'|].
  intros _ h2 g2 (Hg2 & Hs2 & Hc2 & Hu2). split; [done|]. split_and!; [congruence|congruence|]. by eapply usb_gets_more.
Qed.

Lemma usb_prints_lift {A} (o : option A) a (f : A → driver HW console_state unit) l :
  o = Some a → usb_prints (f a) l → usb_prints (a ← lift o; f a) l.
Proof. intros Ho Hf h g Hg. apply runs_bind. eapply runs_lift; [done|]. by apply Hf. Qed.

(** One character, from any state of the ring. *)
Lemma usb_putc_gets h g c :
  usb_state_ok (console_usb g) →
  runs (usb (usb_serial_jtag_putc c)) h g (λ _ h' g', (∃ u, usb_state_ok u ∧ g' = set_console_usb u g) ∧
    uart_sent h' = uart_sent h ∧ csr_value MSTATUS h' = csr_value MSTATUS h ∧ usb_gets [code c] h g h' g').
Proof.
  intros Hok. apply runs_within. eapply runs_weaken; [by apply usb_putc_runs; [apply (usb_keeps (uart_sent h) (csr_value MSTATUS h))| |]|].
  intros _ h' u (Hu & (H1 & H2) & H3). cbn beta. split; [by exists u|]. split_and!; [done|done|].
  intros Hl. destruct (H3 Hl) as (H4 & H5). split; [|done]. unfold usb_output. cbn [console_usb set_console_usb].
  by rewrite H4, app_assoc.
Qed.

Lemma usb_prints_putc c : usb_prints (usb (usb_serial_jtag_putc c)) [code c].
Proof.
  intros h g [H1 H2 H3 H4 H5]. eapply runs_weaken; [by apply usb_putc_gets|].
  intros _ h' g' ((u & Hu & ->) & ?). split; [by constructor|done].
Qed.

Lemma next_small tail : tail < 1024 → console_usb_tx_queue_next tail < 1024 ∧ console_usb_tx_queue_next tail ≠ tail.
Proof.
  intros H. unfold console_usb_tx_queue_next, CONSOLE_USB_TX_QUEUE_CAPACITY. rewrite u32_small by lia.
  destruct (N.eq_dec tail 1023) as [->|Hne]; [done|]. rewrite N.mod_small by lia. lia.
Qed.

(** Taking one character through the ring. *)
Lemma drain_gets h g c :
  console_ok g →
  runs (_ ← console_usb_tx_enqueue c; console_usb_tx_drain) h g (λ _ h' g', console_ok g' ∧
    uart_sent h' = uart_sent h ∧ csr_value MSTATUS h' = csr_value MSTATUS h ∧ usb_gets [code c] h g h' g' ∧
    (code c = 10 → waiting (console_usb g') = [])).
Proof.
  intros [Hq He Ht Hf Hu]. destruct (next_small _ Ht) as (Hn & Hne).
  apply runs_bind. unfold console_usb_tx_enqueue. apply runs_bind, runs_get_globals.
  rewrite He. destruct (N.eqb_spec (console_usb_tx_queue_next (g_console_usb_tx_tail g)) (g_console_usb_tx_tail g)) as [|_]; [done|].
  apply runs_bind. eapply runs_lift; [apply aset_Some; lia|]. apply runs_bind, runs_set_globals.
  set (g1 := set_queue_tail _ _ g).
  set (g2 := if code c =? 10 then set_pending_flush 1 g1 else g1).
  assert (runs (if code c =? 10 then g ← get_globals; set_globals (set_pending_flush 1 g) else mret tt) h g1
            (λ _ h' g', h' = h ∧ g' = g2)) as Hset.
  { unfold g2. destruct (code c =? 10); [apply runs_bind, runs_get_globals, runs_set_globals|apply runs_ret]; done. }
  eapply runs_weaken; [exact Hset|]. intros _ h1 g1' (-> & ->). clear Hset.
  assert (g_console_usb_tx_head g2 = g_console_usb_tx_tail g ∧ g_console_usb_tx_tail g2 = console_usb_tx_queue_next (g_console_usb_tx_tail g) ∧
    length (g_console_usb_tx_queue g2) = 1024%nat ∧ aget (g_console_usb_tx_queue g2) (g_console_usb_tx_tail g) = Some c ∧
    g_console_usb_tx_pending_flush g2 = (if code c =? 10 then 1 else 0) ∧ console_usb g2 = console_usb g)
    as (Hh2 & Ht2 & Hl2 & Hc2 & Hf2 & Hu2).
  { unfold g2, g1. destruct (code c =? 10); cbn; rewrite length_insert, aget_lookup; split_and!; try done;
      apply list_lookup_insert_eq; lia. }
  clearbody g2. clear g1. unfold console_usb_tx_drain. apply runs_bind.
  set (J := λ h' g', (∃ u, usb_state_ok u ∧
    g' = set_queue_head (console_usb_tx_queue_next (g_console_usb_tx_tail g)) (set_console_usb u g2)) ∧
    uart_sent h' = uart_sent h ∧ csr_value MSTATUS h' = csr_value MSTATUS h ∧ usb_gets [code c] h g h' g').
  apply (runs_while (λ n h' g', (n = 1%nat ∧ h' = h ∧ g' = g2) ∨ (n = 0%nat ∧ J h' g')) _ _ _ _ _ 1);
    [by left|lia|].
  intros n h1 g1 [(-> & -> & ->)|(-> & (u & Hok & ->) & H1 & H2 & H3)]; apply runs_bind, runs_get_globals, runs_ret;
      unfold console_usb_tx_queue_is_empty; cbn [g_console_usb_tx_head g_console_usb_tx_tail set_queue_head set_console_usb].
  - rewrite Hh2, Ht2. destruct (N.eqb_spec (g_console_usb_tx_tail g) (console_usb_tx_queue_next (g_console_usb_tx_tail g))); [done|].
    cbn [negb]. apply runs_bind, runs_get_globals. apply runs_bind. rewrite Hh2. eapply runs_lift; [exact Hc2|].
    apply runs_bind. eapply runs_weaken; [apply usb_putc_gets; by rewrite Hu2|].
    intros _ h2 g3 ((u & Hok & ->) & H1 & H2 & H3). apply runs_bind, runs_get_globals, runs_set_globals.
    exists 0%nat. split; [lia|]. right. split; [done|]. split; [|split_and!; [done|done|]].
    + exists u. split; [done|]. cbn [g_console_usb_tx_head set_console_usb]. by rewrite Hh2.
    + intros Hls. destruct (H3 Hls) as (H4 & H5). split; [|done]. unfold usb_output in *.
      cbn [console_usb set_queue_head set_console_usb] in *. by rewrite H4, Hu2.
  - rewrite Ht2, N.eqb_refl. cbn [negb]. apply runs_bind, runs_get_globals.
    cbn [g_console_usb_tx_pending_flush set_queue_head set_console_usb]. rewrite Hf2.
    destruct (N.eqb_spec (code c) 10) as [E|Hne10]; cbn [nz].
    + apply runs_bind. apply runs_within. cbn [console_usb set_queue_head set_console_usb].
      eapply runs_weaken; [apply (packet_flush_runs (λ h', uart_sent h' = uart_sent h ∧ csr_value MSTATUS h' = csr_value MSTATUS h));
        [apply usb_keeps|done|]|].
      { destruct Hok. split; [done|lia]. }
      intros _ h2 u2 ((Hok2 & Hw2) & (H4 & H5) & H6). apply runs_bind, runs_get_globals, runs_set_globals.
      split; [by constructor; cbn; rewrite ?Ht2|]. split_and!; [done|done| |done]. intros Hls. destruct (H3 Hls) as (H7 & H8), (H6 Hls) as (H9 & H10).
      split; [|auto]. unfold usb_output in *. cbn [console_usb set_queue_head set_console_usb set_pending_flush] in *.
      by rewrite Hw2, app_nil_r, H9, H7.
    + apply runs_ret. split; [by constructor; cbn; rewrite ?Ht2|]. by split_and!.
Qed.

Lemma prints_putc c : prints (console_putc_raw c) [code c].
Proof.
  apply prints_both; [apply sends_putc|]. intros h g Hg.
  eapply runs_weaken; [by apply drain_gets|]. intros _ h' g' (? & ? & ? & ? & _). done.
Qed.

Lemma prints_string s : prints (console_write_raw (Some s)) (code <$> s).
Proof.
  cbn [console_write_raw]. induction s as [|c s IH]; [apply prints_nothing|].
  cbn [write_loop fmap list_fmap]. apply (prints_then _ _ [code c]); [apply prints_putc|done].
Qed.

Lemma usb_prints_backwards buf :
  usb_prints (put_backwards (λ c, usb (usb_serial_jtag_putc c)) buf) (code <$> reverse buf).
Proof.
  induction buf as [|c buf IH]; [apply usb_prints_nothing|]. cbn [put_backwards].
  rewrite reverse_cons, fmap_app. apply usb_prints_then; [done|apply usb_prints_putc].
Qed.

Lemma prints_decimal value : value < 4294967296 → prints (console_putdec_u32_raw value) (code <$> decimal value).
Proof.
  intros Hv. apply prints_both; [by apply sends_decimal|]. destruct (decimal_is_decimal value Hv) as (Hbuf & _).
  destruct (N.eqb_spec value 0) as [->|Hne]; [apply usb_prints_putc|].
  destruct (Hbuf Hne) as (buf & Hb & <-). eapply usb_prints_lift; [exact Hb|apply usb_prints_backwards].
Qed.

Lemma hex_digit_at value shift : is_Some (hex_digit (N.land (N.shiftr value shift) 0xF)).
Proof. apply hex_digit_defined. change 0xF with (N.ones 4). rewrite N.land_ones. by apply N.mod_lt. Qed.

Lemma prints_hexadecimal value : prints (console_puthex32_raw value) (code <$> hexadecimal value).
Proof.
  apply prints_both; [apply sends_hexadecimal|]. rewrite hexadecimal_code.
  generalize [28; 24; 20; 16; 12; 8; 4; 0]. intros shifts. induction shifts as [|shift shifts IH]; [apply usb_prints_nothing|].
  cbn [usb_hex fmap list_fmap]. destruct (hex_digit_at value shift) as (c & Hc).
  eapply usb_prints_lift; [exact Hc|]. rewrite Hc. apply (usb_prints_then _ _ [code c]); [apply usb_prints_putc|done].
Qed.

(** The last character of a line empties the packet. *)
Definition prints_line m l : Prop := ∀ h g, console_ok g →
  runs m h g (λ _ h' g', console_ok g' ∧ uart_sent h' = uart_sent h ++ l ∧
    csr_value MSTATUS h' = csr_value MSTATUS h ∧ usb_gets l h g h' g' ∧ waiting (console_usb g') = []).

Lemma prints_newline : prints_line (console_putc_raw "010") [10].
Proof.
  intros h g Hg. apply runs_bind.
  eapply runs_weaken; [apply sends_putc; [apply (uart_keeps (usb_written h) (usb_handed h) (csr_value MSTATUS h))|done]|].
  intros _ h1 g1 (-> & (Hw & Hh & Hc) & Hs). eapply runs_weaken; [by apply drain_gets|].
  intros _ h2 g2 (Hok & H1 & H2 & H3 & H4). split; [done|]. split_and!; [by rewrite H1, Hs|congruence| |by apply H4].
  intros Hl. destruct (H3 Hl) as (H5 & H6). unfold usb_output, all_handed in *. rewrite Hw, Hh in *. by split.
Qed.

Lemma prints_line_then m m' l l' : prints m l → prints_line m' l' → prints_line (_ ← m; m') (l ++ l').
Proof.
  intros Hm Hm' h g Hg. apply runs_bind. eapply runs_weaken; [by apply Hm|].
  intros _ h1 g1 (Hg1 & Hs1 & Hc1 & Hu1). eapply runs_weaken; [by apply Hm'|].
  intros _ h2 g2 (Hg2 & Hs2 & Hc2 & Hu2 & Hw). split; [done|]. split; [by rewrite Hs2, Hs1, app_assoc|].
  split_and!; [congruence|by eapply usb_gets_more|done].
Qed.

Lemma mstatus_restored v : N.land v 8 ≠ 0 → N.lor (N.ldiff v 8) 8 = v.
Proof.
  intros H. apply N.bits_inj. intros i. rewrite N.lor_spec, N.ldiff_spec. change 8 with (2 ^ 3) in *.
  rewrite N.pow2_bits_eqb. destruct (N.eqb_spec 3 i) as [<-|]; [|by rewrite andb_true_r, orb_false_r].
  rewrite orb_true_r. destruct (N.testbit v 3) eqn:Hb; [done|]. exfalso. apply H.
  apply N.bits_inj_0. intros j. rewrite N.land_spec, N.pow2_bits_eqb. destruct (N.eqb_spec 3 j) as [<-|]; [by rewrite Hb|].
  apply andb_false_r.
Qed.

Lemma mstatus_unchanged v : N.land v 8 = 0 → N.ldiff v 8 = v.
Proof.
  intros H. apply N.bits_inj. intros i. rewrite N.ldiff_spec. apply (f_equal (λ n, N.testbit n i)) in H.
  rewrite N.land_spec, N.bits_0 in H. by destruct (N.testbit v i), (N.testbit 8 i).
Qed.

(** The interrupts are off in between, and afterwards as they were. *)
Lemma prints_with_interrupts_off m l : prints_line m l → prints_line (with_interrupts_off m) l.
Proof.
  intros Hm h g Hg. unfold with_interrupts_off. apply runs_bind. unfold console_interrupts_save_disable.
  apply runs_bind, runs_csr_get. apply runs_bind, runs_csr_set, runs_ret. rewrite csr_read_value.
  set (v := csr_value MSTATUS h). set (h1 := csr_write _ _ _).
  assert (uart_sent h1 = uart_sent h ∧ usb_written h1 = usb_written h ∧ usb_handed h1 = usb_handed h ∧
    csr_value MSTATUS h1 = N.ldiff v 8) as (Hs & Hw & Hh & Hv).
  { unfold h1. rewrite uart_csr_write, uart_csr_read, csr_after_write. rewrite decide_True by done.
    edestruct usb_csr_write as (-> & ->). edestruct usb_csr_read as (-> & ->). done. }
  clearbody h1. apply runs_bind. eapply runs_weaken; [by apply Hm|]. intros _ h2 g2 (Hok & H1 & H2 & H3 & H4).
  rewrite Hs in H1. rewrite Hv in H2. assert (usb_gets l h g h2 g2) as H3'.
  { intros Hl. destruct (H3 Hl) as (H5 & H6). unfold usb_output, all_handed in *. rewrite Hw, Hh in *. by split. }
  unfold console_interrupts_restore. change (N.shiftl 1 3) with 8. destruct (nz (N.land v 8)) eqn:Hnz.
  - apply nz_true in Hnz. apply runs_bind, runs_csr_get, runs_csr_set. rewrite csr_read_value, H2, mstatus_restored by done.
    rewrite uart_csr_write, uart_csr_read, csr_after_write. rewrite decide_True by done.
    split; [done|]. split_and!; [done|done| |done].
    intros Hl. destruct (H3' Hl) as (H5 & H6). unfold usb_output, all_handed in *.
    edestruct usb_csr_write as (-> & ->). edestruct usb_csr_read as (-> & ->). by split.
  - apply nz_false in Hnz. rewrite mstatus_unchanged in H2 by done. apply runs_ret. by split.
Qed.
End console.

(** * The console: its lines and its numbers

    What the calls of the console print, on a device that obeys its
    specification, and an instance of that specification. *)

(** ** Lines *)

Definition line_text (tag text : cstr) : cstr := cs "[" ++ tag ++ cs "] " ++ text ++ ["010"%char].

(** A call of the console prints [text], a whole line: it returns and leaves
    the driver ready and the interrupts as they were; the serial port has
    sent the text; and if the host listens, all of it has been handed over on
    USB, behind what was written before. *)
Definition prints_text {HW} `{!Bus HW, !UartDevice HW, !UsbDevice HW, !Processor HW}
    (m : driver HW console_state unit) (text : cstr) : Prop :=
  ∀ h g, console_ok g →
  runs m h g (λ _ h' g', console_ok g' ∧ uart_sent h' = uart_sent h ++ (code <$> text) ∧
    csr_value MSTATUS h' = csr_value MSTATUS h ∧
    (usb_listens → usb_written h' = usb_written h ++ waiting (console_usb g) ++ (code <$> text) ∧
       waiting (console_usb g') = [] ∧ (all_handed h → all_handed h'))).

Section lines.
Context {HW : Type} `{!Bus HW, !UartDevice HW, !UsbDevice HW, !Processor HW}.

Lemma line_is_text (m : driver HW console_state unit) text :
  prints_line m (code <$> text) → prints_text (with_interrupts_off m) text.
Proof.
  intros Hm h g Hg. eapply runs_weaken; [by apply (prints_with_interrupts_off _ _ Hm)|].
  intros _ h' g' (Hok & H1 & H2 & H3 & H4). split; [done|]. split_and!; [done|done|]. intros Hl.
  destruct (H3 Hl) as (H5 & H6). unfold usb_output in H5. rewrite H4, app_nil_r, <-app_assoc in H5. done.
Qed.

Lemma line_prefix tag text (m : driver HW console_state unit) :
  prints_line m ((code <$> text) ++ [10]) →
  prints_line (_ ← console_putc_raw "["; _ ← console_write_raw (Some tag); _ ← console_putc_raw "]";
               _ ← console_putc_raw " "; m) (code <$> line_text tag text).
Proof.
  intros Hm. unfold line_text. rewrite !fmap_app. cbn [fmap list_fmap cs String.list_ascii_of_string].
  apply (prints_line_then _ _ [code "["]); [apply prints_putc|].
  apply prints_line_then; [apply prints_string|].
  apply (prints_line_then _ _ [code "]"]); [apply prints_putc|].
  by apply (prints_line_then _ _ [code " "]); [apply prints_putc|].
Qed.

(** C34: the log calls of the console print whole lines: [console_log] the
    tag in brackets and the message, [console_log_u32] the label and the
    decimal digits of the value without leading zeros, [console_log_hex32]
    the label and the eight hexadecimal digits of the value, in lower case,
    behind 0x, for every 32-bit value.  (The digits are those of the
    positional notation: [positional] and [digit_char] in [Uart.v], not the
    loops and the table of the code.)  They always return (the waiting loops of
    both devices end); the serial port gets exactly the line, and a host
    that listens gets it over USB behind everything printed before, with
    nothing left in the buffers; the interrupts are as they were. *)
Theorem console_prints_lines tag text value :
  value < 4294967296 →
  prints_text (HW := HW) (console_log (Some tag) (Some text)) (line_text tag text) ∧
  prints_text (HW := HW) (console_log_u32 (Some tag) (Some text) value) (line_text tag (text ++ decimal value)) ∧
  prints_text (HW := HW) (console_log_hex32 (Some tag) (Some text) value)
    (line_text tag (text ++ cs "0x" ++ hexadecimal value)).
Proof.
  intros Hv. split_and!; apply line_is_text, line_prefix; rewrite ?fmap_app, <-?app_assoc;
    (apply prints_line_then; [apply prints_string|]).
  - apply prints_newline.
  - apply prints_line_then; [by apply prints_decimal|apply prints_newline].
  - apply prints_line_then; [apply (prints_string (cs "0x"))|].
    apply prints_line_then; [apply prints_hexadecimal|apply prints_newline].
Qed.

Lemma console_log_returns tag message : returns console_ok (Console.console_log (Some tag) (Some message)).
Proof.
  intros h c Hc. pose proof (line_is_text _ _ (line_prefix tag message _
    (prints_line_then _ _ _ _ (prints_string message) prints_newline))) as Hp.
  eapply runs_weaken; [by apply Hp|]. by intros _ h' c' [? _].
Qed.
End lines.

Lemma console_prints_lines_witness :
  prints_text (HW := sim) (console_log_u32 (Some (cs "timer")) (Some (cs "tick=")) 42)
    (line_text (cs "timer") (cs "tick=" ++ decimal 42)).
Proof. exact (proj1 (proj2 (console_prints_lines (HW := sim) (cs "timer") (cs "tick=") 42 eq_refl))). Defined.

(** ** Numbers *)

Lemma decimal_digit_of c : is_digit c = true → digit_of 10 c = Some (code c - 48) ∧ code c - 48 < 10.
Proof.
  unfold is_digit, digit_of. intros (H1 & H2)%andb_prop. apply N.leb_le in H1. apply N.ltb_lt in H2.
  destruct (N.leb_spec 48 (code c)), (N.leb_spec (code c) 57); try lia. split; [done|lia].
Qed.

(** The parser computes the value of digits that fits. *)
Lemma digits_value l v :
  forallb is_digit l = true → foldl (λ v c, 10 * v + (code c - 48)) v l < 4294967296 →
  digits_loop 10 l v = Some (foldl (λ v c, 10 * v + (code c - 48)) v l).
Proof.
  revert v. induction l as [|c l IH]; intros v Hd Hv; [done|].
  cbn [forallb] in Hd. apply andb_prop in Hd as (Hc & Hd). destruct (decimal_digit_of _ Hc) as (Hdig & Hlt).
  cbn [digits_loop foldl] in *. rewrite Hdig. cbn [mbind option_bind].
  assert (∀ l v, v ≤ foldl (λ v c, 10 * v + (code c - 48)) v l) as Hmono.
  { clear. induction l as [|c l IH]; intros v; cbn [foldl]; [done|]. etrans; [|apply IH]. lia. }
  specialize (Hmono l (10 * v + (code c - 48))). destruct (N.leb_spec 10 (code c - 48)); [lia|].
  rewrite (u32_small (v * 10)), u32_small, (N.mul_comm v) by lia. by apply IH.
Qed.

Lemma hex_digit_of i : i < 16 → ∃ c, hex_digit i = Some c ∧ digit_of 16 c = Some i.
Proof.
  intros Hi. assert (Forall (λ i, ∃ c, hex_digit i = Some c ∧ digit_of 16 c = Some i)
    [0; 1; 2; 3; 4; 5; 6; 7; 8; 9; 10; 11; 12; 13; 14; 15]) as H
    by (repeat constructor; eexists; split; reflexivity).
  rewrite Forall_forall in H. apply H. clear H. apply list_elem_of_In. cbn [In]. lia.
Qed.

(** [n] digits are read behind the higher part of the value. *)
Lemma hex_digits_value n value :
  value < 4294967296 →
  digits_loop 16 ((λ shift, default "0"%char (hex_digit (N.land (N.shiftr value shift) 0xF))) <$>
                  ((λ i, 4 * N.of_nat i) <$> reverse (seq 0 n))) (N.shiftr value (4 * N.of_nat n)) = Some value.
Proof.
  intros Hv. induction n as [|n IH]; [by rewrite N.shiftr_0_r|].
  rewrite seq_S, reverse_app. cbn [reverse app fmap list_fmap digits_loop]. change (0 + n)%nat with n.
  set (d := N.land (N.shiftr value (4 * N.of_nat n)) 0xF).
  assert (d = N.shiftr value (4 * N.of_nat n) mod 16) as Hd by (apply (N.land_ones _ 4)).
  assert (d < 16) as Hlt by (rewrite Hd; by apply N.mod_lt).
  destruct (hex_digit_of d Hlt) as (c & Hc & Hdig). cbn [reverse rev_append fmap list_fmap app digits_loop].
  fold d. rewrite Hc. cbn [default from_option id]. rewrite Hdig. cbn [mbind option_bind].
  destruct (N.leb_spec 16 d); [lia|].
  assert (N.shiftr value (4 * N.of_nat (S n)) * 16 + d = N.shiftr value (4 * N.of_nat n)) as Hstep.
  { rewrite Hd. replace (4 * N.of_nat (S n)) with (4 * N.of_nat n + 4) by lia. rewrite <-N.shiftr_shiftr.
    rewrite (N.shiftr_div_pow2 _ 4), N.mul_comm. symmetry. by apply N.div_mod. }
  assert (N.shiftr value (4 * N.of_nat n) ≤ value) as Hle.
  { rewrite N.shiftr_div_pow2. apply N.Div0.div_le_upper_bound. pose proof (N.pow_nonzero 2 (4 * N.of_nat n)). nia. }
  rewrite (u32_small (_ * 16)), u32_small by lia. rewrite Hstep. exact IH.
Qed.

(** A number that the kernel prints can be typed back at the management
    shell: the parser reads the decimal digits that [console_log_u32] and
    [console_putdec_u32] print, and 0x with the eight digits that
    [console_log_hex32] prints, as the number itself, for every 32-bit
    number. *)
Theorem printed_number_parses value :
  value < 4294967296 →
  parse_u32_token (decimal value) = Some value ∧
  parse_u32_token (cs "0x" ++ hexadecimal value) = Some value.
Proof.
  intros Hv. split.
  - destruct (decimal_is_decimal value Hv) as (_ & Hlen & Hd & Hval & Hhead). unfold decimal_value in Hval.
    assert (digits_loop 10 (decimal value) 0 = Some value) as Hloop.
    { rewrite digits_value; [by rewrite Hval|done|by rewrite Hval]. }
    destruct (decimal value) as [|z [|x rest]] eqn:Hdec; [simpl in Hlen; lia|exact Hloop|].
    unfold parse_u32_token. cbn [length Nat.eqb].
    assert (code x ≠ 120 ∧ code x ≠ 88) as (H1 & H2).
    { cbn [forallb] in Hd. apply andb_prop in Hd as (_ & Hd). apply andb_prop in Hd as (Hx & _).
      unfold is_digit in Hx. apply andb_prop in Hx as (_ & Hx). apply N.ltb_lt in Hx. lia. }
    destruct (N.eqb_spec (code x) 120), (N.eqb_spec (code x) 88); try done.
    cbn [orb]. rewrite andb_false_r. exact Hloop.
  - pose proof (hex_digits_value 8 value Hv) as H. change (4 * N.of_nat 8) with 32 in H.
    rewrite (N.shiftr_div_pow2 value 32), N.div_small in H by done. rewrite hexadecimal_code. exact H.
Qed.

Lemma printed_number_parses_witness :
  parse_u32_token (decimal 4294967295) = Some 4294967295 ∧
  parse_u32_token (cs "0x" ++ hexadecimal 4294967295) = Some 4294967295.
Proof. apply (printed_number_parses 4294967295). done. Defined.
