(* ===== verification/PanelFrames.v ===== *)
(** * The panel driver: frames

    A frame is an address window and its pixels.  What the drawing functions
    send is a frame, and a frame draws its rectangle on the panel. *)

From S2P Require Import Prelude DisplaySurface DisplaySurfaceProofs Soc Gpio PanelGc9a01 PanelSpec.

Local Open Scope N_scope.

Definition word_bytes (n : N) : list N := [n / 256; n mod 256].

(** The bytes of a frame: the window, and the pixels of its rows. *)
Definition window_wire (x y width height : N) : list wire_byte :=
  [WireByte false false 0x2A] ++ on_wire false true (word_bytes x ++ word_bytes (x + width - 1)) ++
  [WireByte false false 0x2B] ++ on_wire false true (word_bytes y ++ word_bytes (y + height - 1)) ++
  [WireByte false false 0x2C].
Definition pixels_wire (pixels : list N) : list wire_byte := on_wire false true (concat (pixel_bytes <$> pixels)).
Definition frame_wire (x y width height : N) (pixels : list N) : list wire_byte :=
  window_wire x y width height ++ pixels_wire pixels.

Definition line_ok (g : list N) : Prop := length g = 240%nat ∧ Forall (λ p, p < 65536) g.

(** A window of the screen. *)
Record on_screen (x y width height : N) : Prop := {
  os_width : 0 < width;
  os_height : 0 < height;
  os_right : x + width ≤ 240;
  os_bottom : y + height ≤ 240
}.

Section frames.
Context {HW : Type} `{!Bus HW, !SpiDevice HW}.
Implicit Types (h : HW) (g : list N).

Lemma word_bytes_small n : n < 65536 → [u8 (N.shiftr n 8); u8 (N.land n 0xFF)] = word_bytes n.
Proof.
  intros Hn. unfold u8, word_bytes. rewrite land_ff, N.shiftr_div_pow2. change (2 ^ 8) with 256.
  rewrite N.Div0.mod_mod, (N.mod_small (n / 256)); [done|]. apply N.Div0.div_lt_upper_bound. lia.
Qed.

Lemma word_bytes_lt n : n < 65536 → Forall (λ b, b < 256) (word_bytes n).
Proof.
  intros Hn. repeat constructor; [apply N.Div0.div_lt_upper_bound; lia|by apply N.mod_lt].
Qed.

Lemma window_moves x y width height dc :
  on_screen x y width height →
  moves (HW := HW) (gc9a01_set_addr_window_locked x y width height) false dc false false (window_wire x y width height).
Proof.
  intros [Hw Hh Hx Hy]. unfold gc9a01_set_addr_window_locked, window_wire.
  assert (∀ a b, 0 < b → a + b ≤ 240 → sub32 (a + b) 1 = a + b - 1) as Hsub.
  { intros a b H1 H2. unfold sub32. rewrite (u32_small 1) by done. unfold u32.
    replace (a + b + 4294967296 - 1) with (a + b - 1 + 1 * 4294967296) by lia. rewrite N.Div0.mod_add. apply N.mod_small. lia. }
  rewrite !Hsub by done. cbn zeta.
  assert (∀ a b, a < 65536 → b < 65536 →
    [u8 (N.shiftr a 8); u8 (N.land a 0xFF); u8 (N.shiftr b 8); u8 (N.land b 0xFF)] = word_bytes a ++ word_bytes b) as Hbytes.
  { intros a b Ha Hb. rewrite <-(word_bytes_small a), <-(word_bytes_small b) by done. done. }
  rewrite !Hbytes by lia.
  assert (∀ a b dc, a < 65536 → b < 65536 →
    moves (HW := HW) (gc9a01_write_data_bytes_locked (Some (word_bytes a ++ word_bytes b)) 4) false dc false true
      (on_wire false true (word_bytes a ++ word_bytes b))) as Hdata.
  { intros a b dc' Ha Hb. apply (data_moves (word_bytes a ++ word_bytes b) 4); [done|done|].
    apply Forall_app; split; by apply word_bytes_lt. }
  apply moves_then with false false; [by apply command_moves|].
  apply moves_then with false true; [apply Hdata; lia|].
  apply moves_then with false false; [by apply command_moves|].
  apply moves_then with false true; [apply Hdata; lia|]. by apply command_moves.
Qed.

(** ** Lines *)

Lemma u16_bytes_lt p : p < 65536 → Forall (λ b, b < 256) (u16_bytes p).
Proof. intros Hp. repeat constructor; [by apply N.mod_lt|apply N.Div0.div_lt_upper_bound; lia]. Qed.

Lemma swap16_lt p : gc9a01_swap16 p < 65536.
Proof. apply u16_lt. Qed.

Lemma take_words (l : list N) n : take (2 * n) (concat (u16_bytes <$> l)) = concat (u16_bytes <$> take n l).
Proof.
  revert n. induction l as [|p l IH]; intros n; [cbn; by rewrite !take_nil|]. destruct n as [|n]; [done|].
  replace (2 * S n)%nat with (S (S (2 * n))) by lia. cbn. do 2 f_equal. apply IH.
Qed.

Lemma length_word_bytes (l : list N) : length (concat (u16_bytes <$> l)) = (2 * length l)%nat.
Proof. induction l as [|p l IH]; [done|]. cbn. rewrite IH. lia. Qed.

(** The line buffer holds [pixels], swapped. *)
Definition line_holds (pixels : list N) (g : list N) : Prop :=
  take (length pixels) g = gc9a01_swap16 <$> pixels.

Lemma send_line_moves g pixels wire h dc :
  line_ok g → line_holds pixels g → Forall (λ p, p < 65536) pixels → (0 < length pixels ≤ 240)%nat → ready false dc wire h →
  runs (send_line (N.of_nat (length pixels))) h g (λ _ h' g', g' = g ∧ ready false true (wire ++ pixels_wire pixels) h').
Proof.
  intros (Hl & Hb) Hh Hp Hn Hr. unfold send_line. apply runs_bind, runs_get_globals.
  unfold gc9a01_write_u16_stream_locked. destruct (N.eqb_spec (N.of_nat (length pixels)) 0); [lia|].
  assert (pixels_wire pixels = on_wire false true (take (N.to_nat (N.of_nat (length pixels) * 2)) (concat (u16_bytes <$> g)))) as ->.
  { unfold pixels_wire. replace (N.to_nat (N.of_nat (length pixels) * 2)) with (2 * length pixels)%nat by lia.
    rewrite take_words, Hh, <-list_fmap_compose. do 2 f_equal. apply list_fmap_ext. intros i p Hi.
    rewrite Forall_lookup in Hp. cbn. symmetry. eapply swapped_bytes. by eapply Hp. }
  assert (moves (HW := HW) (_ ← reg_write RTC_CNTL_STORE5_REG 0xC340; _ ← gc9a01_data_command true;
      gc9a01_spi_write_bytes_raw (Some (concat (u16_bytes <$> g))) (u32 (N.of_nat (length pixels) * 2))) false dc false true
      (on_wire false true (take (N.to_nat (N.of_nat (length pixels) * 2)) (concat (u16_bytes <$> g))))) as Hm; [|by apply Hm].
  rewrite u32_small by lia. apply moves_store; [done|]. apply moves_after with false true; [apply data_command_moves|].
  apply bytes_moves.
  - rewrite length_word_bytes. lia.
  - apply Forall_concat, Forall_fmap. eapply Forall_impl; [exact Hb|]. intros p. apply u16_bytes_lt.
Qed.

Lemma set_pixel_ok g i p :
  line_ok g → i < 240 → p < 65536 →
  ∃ g', aset g i p = Some g' ∧ line_ok g' ∧ take (S (N.to_nat i)) g' = take (N.to_nat i) g ++ [p].
Proof.
  intros (Hl & Hb) Hi Hp. eexists. split; [apply aset_Some; lia|]. split; [split|].
  - by rewrite length_insert.
  - by apply Forall_insert.
  - rewrite (take_S_r _ _ p) by (apply list_lookup_insert_eq; lia). by rewrite take_insert_ge by lia.
Qed.

(** Filling the line buffer, pixel by pixel. *)
Lemma fill_runs (body : N → driver HW (list N) unit) pixels h g :
  (length pixels ≤ 240)%nat → line_ok g →
  (∀ i p h g, pixels !! N.to_nat i = Some p → line_ok g →
     runs (body i) h g (λ _ h' g', h' = h ∧ aset g i (gc9a01_swap16 p) = Some g')) →
  runs (for_each 0 (length pixels) body) h g (λ _ h' g', h' = h ∧ line_ok g' ∧ line_holds pixels g').
Proof.
  intros Hn Hg Hbody.
  apply (runs_for (λ i h' g', h' = h ∧ line_ok g' ∧ line_holds (take (N.to_nat i) pixels) g')).
  - split; [done|]. split; [done|]. unfold line_holds. by rewrite take_0.
  - intros i h1 g1 Hi (-> & Hg1 & Hh1). destruct (lookup_lt_is_Some_2 pixels (N.to_nat i) ltac:(lia)) as (p & Hp).
    eapply runs_weaken; [by apply Hbody|]. intros _ h2 g2 (-> & Hset).
    destruct (set_pixel_ok g1 i (gc9a01_swap16 p) Hg1) as (g' & Hset' & Hg' & Ht); [lia|apply swap16_lt|].
    rewrite Hset in Hset'. injection Hset' as <-. split; [done|]. split; [done|].
    unfold line_holds in *. replace (N.to_nat (i + 1)) with (S (N.to_nat i)) by lia.
    rewrite (take_S_r _ _ p) by done. rewrite length_app, fmap_app. rewrite length_take in *.
    replace (N.to_nat i `min` length pixels)%nat with (N.to_nat i) in * by lia.
    cbn [length fmap list_fmap]. by rewrite Nat.add_1_r, Ht, Hh1.
  - intros h1 g1 (-> & H1 & H2). rewrite N.add_0_l, Nat2N.id, take_ge in H2 by lia. done.
Qed.
(** ** Whole frames *)

(** Between two calls of the driver, with [m] sending [out] in between. *)
Definition draws {A} (m : driver HW (list N) A) (a : A) (out : list wire_byte) : Prop :=
  ∀ wire h g dc, line_ok g → ready true dc wire h →
    runs m h g (λ a' h' g', a' = a ∧ line_ok g' ∧ ∃ dc', ready true dc' (wire ++ out) h').

(** A frame: the window, and a body that sends the rows. *)
Lemma frame_draws (body : driver HW (list N) unit) x y width height rows :
  on_screen x y width height →
  (∀ wire h g, line_ok g → ready false false wire h →
     runs body h g (λ _ h' g', line_ok g' ∧ ∃ dc', ready false dc' (wire ++ pixels_wire (concat rows)) h')) →
  draws (_ ← gc9a01_begin_write; _ ← gc9a01_set_addr_window_locked x y width height; _ ← body; gc9a01_end_write)
    tt (frame_wire x y width height (concat rows)).
Proof.
  intros Hs Hbody wire h g dc Hg Hr.
  apply runs_bind. eapply runs_weaken; [by apply (begin_moves dc)|]. intros [] h1 g1 (-> & H1). rewrite app_nil_r in H1.
  apply runs_bind. eapply runs_weaken; [by apply (window_moves x y width height dc Hs)|]. intros [] h2 g2 (-> & H2).
  apply runs_bind. eapply runs_weaken; [by apply Hbody|]. intros [] h3 g3 (H3 & dc3 & Hr3).
  eapply runs_weaken; [by apply (end_moves dc3)|]. intros [] h4 g4 (-> & H4).
  rewrite app_nil_r in H4. split; [done|]. split; [done|]. exists dc3. unfold frame_wire. by rewrite app_assoc.
Qed.

Lemma pixels_wire_app l l' : pixels_wire (l ++ l') = pixels_wire l ++ pixels_wire l'.
Proof. unfold pixels_wire. by rewrite fmap_app, concat_app, on_wire_app. Qed.

(** The rows, one by one. *)
Lemma rows_run (body : N → driver HW (list N) unit) rows wire h g :
  line_ok g → ready false false wire h →
  (∀ i row wire h g dc, rows !! N.to_nat i = Some row → line_ok g → ready false dc wire h →
     runs (body i) h g (λ _ h' g', line_ok g' ∧ ready false true (wire ++ pixels_wire row) h')) →
  runs (for_each 0 (length rows) body) h g
    (λ _ h' g', line_ok g' ∧ ∃ dc', ready false dc' (wire ++ pixels_wire (concat rows)) h').
Proof.
  intros Hg Hr Hb.
  apply (runs_for (λ i h' g', line_ok g' ∧ ∃ dc', ready false dc' (wire ++ pixels_wire (concat (take (N.to_nat i) rows))) h')).
  - split; [done|]. exists false. rewrite take_0. cbn. by rewrite app_nil_r.
  - intros i h1 g1 Hi (Hg1 & dc1 & Hr1). destruct (lookup_lt_is_Some_2 rows (N.to_nat i) ltac:(lia)) as (row & Hrow).
    eapply runs_weaken; [by eapply (Hb i row)|]. intros [] h2 g2 (Hg2 & Hr2). split; [done|]. exists true.
    replace (N.to_nat (i + 1)) with (S (N.to_nat i)) by lia.
    by rewrite (take_S_r _ _ row), concat_app, pixels_wire_app, app_assoc by done; cbn [concat]; rewrite app_nil_r.
  - intros h1 g1 H. by rewrite N.add_0_l, Nat2N.id, take_ge in H by lia.
Qed.

(** ** Rectangles of pixels *)

(** Row [i] of a picture, and all of them. *)
Definition row_pixels (pixels : list N) (stride width : N) (i : nat) : list N :=
  take (N.to_nat width) (drop (i * N.to_nat stride) pixels).
Definition rect_rows (pixels : list N) (stride width height : N) : list (list N) :=
  row_pixels pixels stride width <$> seq 0 (N.to_nat height).

(** The picture has all the rows of a rectangle, row [stride] long. *)
Record picture_ok (pixels : list N) (stride width height : N) : Prop := {
  po_stride : width ≤ stride < 65536;
  po_size : (height - 1) * stride + width ≤ N.of_nat (length pixels);
  po_pixels : Forall (λ p, p < 65536) pixels
}.

Lemma row_pixels_lookup pixels stride width i c :
  (c < N.to_nat width)%nat → row_pixels pixels stride width i !! c = pixels !! (i * N.to_nat stride + c)%nat.
Proof. intros Hc. unfold row_pixels. by rewrite lookup_take_lt, lookup_drop by lia. Qed.

Lemma row_pixels_length pixels stride width height i :
  picture_ok pixels stride width height → (i < N.to_nat height)%nat →
  length (row_pixels pixels stride width i) = N.to_nat width.
Proof.
  intros [Hs Hl _] Hi. unfold row_pixels. rewrite length_take, length_drop.
  assert (i * N.to_nat stride ≤ (N.to_nat height - 1) * N.to_nat stride)%nat by (apply Nat.mul_le_mono_r; lia).
  assert ((N.to_nat height - 1) * N.to_nat stride + N.to_nat width ≤ length pixels)%nat by lia. lia.
Qed.

Lemma source_row_runs pixels stride width height i wire h g dc :
  picture_ok pixels stride width height → 0 < width ≤ 240 → i < height ≤ 240 →
  line_ok g → ready false dc wire h →
  runs (write_source_row pixels stride width i) h g
    (λ _ h' g', line_ok g' ∧ ready false true (wire ++ pixels_wire (row_pixels pixels stride width (N.to_nat i))) h').
Proof.
  intros Hp Hw (Hi & Hh) Hg Hr. set (row := row_pixels pixels stride width (N.to_nat i)).
  assert (length row = N.to_nat width) as Hl by (by apply (row_pixels_length pixels stride width height); [|lia]).
  unfold write_source_row. apply runs_bind. eapply runs_weaken.
  { rewrite <-Hl. apply (fill_runs _ row); [lia|done|]. intros c p h1 g1 Hc Hg1.
    assert (N.to_nat c < length row)%nat as Hlt by (by eapply lookup_lt_Some).
    apply runs_bind, (runs_lift _ p).
    - rewrite u32_small by (destruct Hp as [Hs _ _]; nia). unfold row in Hc. rewrite row_pixels_lookup in Hc by lia.
      rewrite aget_lookup. rewrite <-Hc. f_equal. lia.
    - unfold set_line_pixel. destruct (set_pixel_ok g1 c (gc9a01_swap16 p) Hg1) as (g' & Hset & _); [lia|apply swap16_lt|].
      apply runs_bind, runs_get_globals, runs_bind, (runs_lift _ g'); [done|]. apply runs_set_globals. done. }
  intros [] h1 g1 (-> & Hg1 & Hh1). eapply runs_weaken.
  { replace width with (N.of_nat (length row)) by lia. apply send_line_moves with dc; [done|done| |lia|done].
    apply Forall_take, Forall_drop, Hp. }
  intros [] h2 g2 (-> & H2). done.
Qed.
End frames.

(** * The panel driver: what the panel shows

    A frame on the wire draws its rows into its rectangle, and leaves the
    rest of the picture. *)

(** ** Rows drawn into a picture *)

Fixpoint draw_pixels (x y : N) (row : list N) (picture : N → N → N) : N → N → N :=
  match row with
  | [] => picture
  | color :: row => draw_pixels (x + 1) y row (draw_at (x, y) color picture)
  end.

Fixpoint draw_rows (x y : N) (rows : list (list N)) (picture : N → N → N) : N → N → N :=
  match rows with
  | [] => picture
  | row :: rows => draw_rows x (y + 1) rows (draw_pixels x y row picture)
  end.

Lemma draw_pixels_at x y row picture X Y :
  draw_pixels x y row picture X Y =
    if (Y =? y) && (x <=? X) then default (picture X Y) (row !! N.to_nat (X - x)) else picture X Y.
Proof.
  revert x picture. induction row as [|color row IH]; intros x picture; cbn [draw_pixels].
  { rewrite lookup_nil. by destruct (_ && _). }
  rewrite IH. unfold draw_at. cbn [fst snd].
  destruct (Y =? y); cbn [andb]; [|by rewrite andb_false_r].
  rewrite andb_true_r. destruct (N.eqb_spec X x) as [->|Hne].
  - rewrite (proj2 (N.leb_gt (x + 1) x)) by lia. rewrite N.leb_refl, N.sub_diag. done.
  - destruct (N.leb_spec x X).
    + rewrite (proj2 (N.leb_le (x + 1) X)) by lia.
      replace (N.to_nat (X - x)) with (S (N.to_nat (X - (x + 1)))) by lia. done.
    + by rewrite (proj2 (N.leb_gt (x + 1) X)) by lia.
Qed.

Lemma draw_rows_at x y rows picture X Y :
  draw_rows x y rows picture X Y =
    if (y <=? Y) && (x <=? X)
    then default (picture X Y) (rows !! N.to_nat (Y - y) ≫= λ row, row !! N.to_nat (X - x))
    else picture X Y.
Proof.
  revert y picture. induction rows as [|row rows IH]; intros y picture; cbn [draw_rows].
  { rewrite lookup_nil. by destruct (_ && _). }
  rewrite IH, draw_pixels_at. destruct (N.eqb_spec Y y) as [E|Hne]; cbn [andb].
  - rewrite E. rewrite (proj2 (N.leb_gt (y + 1) y)) by lia. by rewrite N.leb_refl, N.sub_diag.
  - destruct (N.leb_spec y Y).
    + rewrite (proj2 (N.leb_le (y + 1) Y)) by lia.
      by replace (N.to_nat (Y - y)) with (S (N.to_nat (Y - (y + 1)))) by lia.
    + by rewrite (proj2 (N.leb_gt (y + 1) Y)) by lia.
Qed.

(** ** What the panel makes of a frame *)

Lemma word_value n : 256 * (n / 256) + n mod 256 = n.
Proof. symmetry. by apply N.div_mod. Qed.

Lemma window_decoded p x y width height :
  panel_shows (window_wire x y width height) p =
    Panel 0x2C [] (x, x + width - 1) (y, y + height - 1) (x, y) None (pn_picture p).
Proof.
  unfold panel_shows, window_wire, word_bytes. generalize (x + width - 1), (y + height - 1). intros x1 y1.
  cbn -[N.mul N.div N.modulo N.add]. by rewrite !word_value.
Qed.

(** The panel while it receives pixels. *)
Definition drawing (x y width height : N) (cursor : N * N) (picture : N → N → N) : panel :=
  Panel 0x2C [] (x, x + width - 1) (y, y + height - 1) cursor None picture.

Lemma pixel_decoded x y width height cursor picture color :
  panel_shows (pixels_wire [color]) (drawing x y width height cursor picture) =
    drawing x y width height (next_cursor (drawing x y width height cursor picture)) (draw_at cursor color picture).
Proof.
  unfold panel_shows, pixels_wire, drawing. cbn -[N.mul N.div N.modulo next_cursor].
  by rewrite word_value.
Qed.

Lemma row_decoded x y width height i row picture :
  i < width → N.of_nat (length row) = width - i → ∀ Y,
  panel_shows (pixels_wire row) (drawing x y width height (x + i, Y) picture) =
    drawing x y width height (x, if Y =? y + height - 1 then y else Y + 1) (draw_pixels (x + i) Y row picture).
Proof.
  revert i picture. induction row as [|color row IH]; intros i picture Hi Hl Y; cbn [length] in Hl; [lia|].
  change (color :: row) with ([color] ++ row). rewrite pixels_wire_app. unfold panel_shows at 1. rewrite foldl_app.
  fold (panel_shows (pixels_wire [color]) (drawing x y width height (x + i, Y) picture)). rewrite pixel_decoded.
  cbn [app draw_pixels]. unfold next_cursor at 1. cbn [drawing pn_cursor pn_columns pn_rows fst snd].
  destruct row as [|color' row].
  - cbn [length] in Hl. rewrite (proj2 (N.eqb_eq (x + i) (x + width - 1))) by lia. done.
  - cbn [length] in Hl. rewrite (proj2 (N.eqb_neq (x + i) (x + width - 1))) by lia.
    replace (x + i + 1) with (x + (i + 1)) by lia. apply IH; [lia|cbn [length]; lia].
Qed.

Lemma rows_decoded x y width height rows i picture :
  0 < width → Forall (λ row, N.of_nat (length row) = width) rows → i + N.of_nat (length rows) = height →
  pn_picture (panel_shows (pixels_wire (concat rows)) (drawing x y width height (x, y + i) picture)) =
    draw_rows x (y + i) rows picture.
Proof.
  intros Hw Hrows. revert i picture. induction Hrows as [|row rows Hrow Hrows IH]; intros i picture Hi; [done|].
  cbn [length concat draw_rows] in *. rewrite pixels_wire_app. unfold panel_shows. rewrite foldl_app.
  fold (panel_shows (pixels_wire row) (drawing x y width height (x, y + i) picture)).
  pose proof (row_decoded x y width height 0 row picture Hw ltac:(lia) (y + i)) as H.
  rewrite N.add_0_r in H. rewrite H. clear H.
  destruct rows as [|row' rows].
  - done.
  - cbn [length] in Hi. rewrite (proj2 (N.eqb_neq (y + i) (y + height - 1))) by lia.
    replace (y + i + 1) with (y + (i + 1)) by lia. apply IH. cbn [length]. lia.
Qed.

Lemma frame_decoded p x y width height rows :
  0 < width → Forall (λ row, N.of_nat (length row) = width) rows → N.of_nat (length rows) = height →
  pn_picture (panel_shows (frame_wire x y width height (concat rows)) p) = draw_rows x y rows (pn_picture p).
Proof.
  intros Hw Hrows Hl. unfold frame_wire, panel_shows. rewrite foldl_app.
  fold (panel_shows (window_wire x y width height) p). rewrite window_decoded.
  pose proof (rows_decoded x y width height rows 0 (pn_picture p) Hw Hrows ltac:(lia)) as H.
  by rewrite N.add_0_r in H.
Qed.
