(* ===== verification/PanelTheorems.v ===== *)
(** * The panel driver: the drawing functions

    Every drawing function of the driver returns, leaves the controller idle
    and the panel deselected, and has drawn what it was asked to: the
    rectangle, and nothing outside it. *)

From S2P Require Import Prelude DisplaySurface Soc Gpio PanelGc9a01 PanelSpec PanelFrames SimDevice.

Local Open Scope N_scope.

(** What the panel shows, [p] being its state when the machine started. *)
Definition shown {HW} `{!Bus HW, !SpiDevice HW} (p : panel) (h : HW) : N → N → N :=
  pn_picture (panel_shows (sv_wire (spi h)) p).

(** No transfer, and the panel not selected. *)
Definition panel_free {HW} `{!Bus HW, !SpiDevice HW} (h : HW) : Prop :=
  sv_activity (spi h) = SpiIdle ∧ sv_cs (spi h) = true.

Definition in_window (rect : display_rect) (X Y : N) : bool :=
  (r_x rect <=? X) && (X <? r_x rect + r_width rect) && (r_y rect <=? Y) && (Y <? r_y rect + r_height rect).

Section theorems.
Context {HW : Type} `{!Bus HW, !SpiDevice HW}.
Implicit Types (h : HW) (g : list N).

(** The driver drew [rows] at (x, y). *)
Definition drew (p : panel) h (x y : N) (rows : list (list N)) h' g' : Prop :=
  line_ok g' ∧ panel_free h' ∧ ∀ X Y, shown p h' X Y = draw_rows x y rows (shown p h) X Y.

Lemma frame_drawn {A} (m : driver HW (list N) A) a x y width height rows p h g :
  draws m a (frame_wire x y width height (concat rows)) → 0 < width →
  Forall (λ row, N.of_nat (length row) = width) rows → N.of_nat (length rows) = height →
  line_ok g → panel_free h →
  runs m h g (λ a' h' g', a' = a ∧ drew p h x y rows h' g').
Proof.
  intros Hm Hw Hrows Hl Hg (Hi & Hcs). eapply runs_weaken; [by apply (Hm (sv_wire (spi h)) h g (sv_dc (spi h)))|].
  intros a' h' g' (-> & Hg' & dc' & Hi' & Hcs' & _ & Hwire). split; [done|]. split; [done|]. split; [done|].
  intros X Y. unfold shown. rewrite Hwire. unfold panel_shows at 1. rewrite foldl_app.
  fold (panel_shows (sv_wire (spi h)) p).
  fold (panel_shows (frame_wire x y width height (concat rows)) (panel_shows (sv_wire (spi h)) p)).
  by rewrite (frame_decoded _ x y width height rows Hw Hrows Hl).
Qed.

(** ** Rectangles of a picture *)

Lemma rect_rows_ok pixels stride width height :
  picture_ok pixels stride width height →
  Forall (λ row, N.of_nat (length row) = width) (rect_rows pixels stride width height) ∧
  N.of_nat (length (rect_rows pixels stride width height)) = height.
Proof.
  intros Hp. unfold rect_rows. split; [|rewrite length_fmap, length_seq; lia].
  apply Forall_fmap, Forall_seq. intros i Hi. cbn.
  rewrite (row_pixels_length pixels stride width height) by (done || lia). lia.
Qed.

Lemma rect_rows_at pixels stride x y width height picture X Y :
  picture_ok pixels stride width height →
  draw_rows x y (rect_rows pixels stride width height) picture X Y =
    if in_window (Rect x y width height) X Y
    then default 0 (pixels !! N.to_nat ((Y - y) * stride + (X - x))) else picture X Y.
Proof.
  intros Hp. rewrite draw_rows_at. unfold in_window, rect_rows. cbn [r_x r_y r_width r_height].
  destruct (N.leb_spec y Y); cbn [andb]; [|by rewrite !andb_false_r].
  destruct (N.leb_spec x X); cbn [andb]; [|done]. rewrite list_lookup_fmap.
  destruct (N.ltb_spec Y (y + height)).
  - rewrite lookup_seq_lt by lia. cbn [fmap option_fmap option_map mbind option_bind Nat.add]. rewrite andb_true_r.
    pose proof (row_pixels_length pixels stride width height (N.to_nat (Y - y)) Hp ltac:(lia)) as Hl.
    destruct (N.ltb_spec X (x + width)); cbn [andb].
    + destruct (lookup_lt_is_Some_2 (row_pixels pixels stride width (N.to_nat (Y - y))) (N.to_nat (X - x)) ltac:(lia)) as (c & Hc).
      rewrite Hc. rewrite row_pixels_lookup in Hc by lia. cbn [default from_option id].
      replace (N.to_nat ((Y - y) * stride + (X - x))) with (N.to_nat (Y - y) * N.to_nat stride + N.to_nat (X - x))%nat by lia.
      by rewrite Hc.
    + by rewrite lookup_ge_None_2 by lia.
  - rewrite lookup_seq_ge by lia. cbn. by rewrite andb_false_r.
Qed.

Lemma stream_draws pixels stride x y width height :
  on_screen x y width height → picture_ok pixels stride width height →
  draws (HW := HW) (gc9a01_write_rect_stream_pixels (Some pixels) stride x y width height) tt
    (frame_wire x y width height (concat (rect_rows pixels stride width height))).
Proof.
  intros Hs Hp. pose proof Hs as [Hw Hh Hx Hy]. pose proof (po_stride _ _ _ _ Hp) as Hst.
  cbn [gc9a01_write_rect_stream_pixels]. unfold ESP32C3_PANEL_GC9A01_WIDTH, ESP32C3_PANEL_GC9A01_HEIGHT.
  rewrite (proj2 (N.ltb_ge stride width)), (proj2 (N.eqb_neq width 0)), (proj2 (N.eqb_neq height 0)) by lia.
  rewrite (proj2 (N.ltb_ge 240 (x + width))), (proj2 (N.ltb_ge 240 (y + height))) by lia.
  cbn [orb]. apply frame_draws; [done|]. intros wire h g Hg Hr.
  replace (N.to_nat height) with (length (rect_rows pixels stride width height))
    by (unfold rect_rows; by rewrite length_fmap, length_seq).
  apply rows_run; [done|done|]. intros i row wire1 h1 g1 dc Hrow Hg1 Hr1.
  apply list_lookup_fmap_Some in Hrow as (j & -> & Hj). apply lookup_seq in Hj as (-> & Hj).
  eapply runs_weaken; [by eapply (source_row_runs pixels stride width height i); [done|lia|lia|done|done]|]. done.
Qed.

(** The result of a flush that the driver accepts. *)
Definition flushed (p : panel) h (rect : display_rect) (color : N → N → N) (status : Z) h' g' : Prop :=
  status = RUNTIME_SYSCALL_STATUS_OK ∧ line_ok g' ∧ panel_free h' ∧
  ∀ X Y, shown p h' X Y = if in_window rect X Y then color X Y else shown p h X Y.

Lemma flush_runs pixels stride rect p h g :
  on_screen (r_x rect) (r_y rect) (r_width rect) (r_height rect) →
  picture_ok pixels stride (r_width rect) (r_height rect) → line_ok g → panel_free h →
  runs (_ ← gc9a01_write_rect_stream_pixels (Some pixels) stride (r_x rect) (r_y rect) (r_width rect) (r_height rect);
        mret RUNTIME_SYSCALL_STATUS_OK) h g
    (flushed p h rect (λ X Y, default 0 (pixels !! N.to_nat ((Y - r_y rect) * stride + (X - r_x rect))))).
Proof.
  intros Hs Hp Hg Hf. destruct (rect_rows_ok _ _ _ _ Hp) as (Hrows & Hl).
  apply runs_bind. eapply runs_weaken; [by eapply (frame_drawn _ _ _ _ _ _ _ p); [by apply stream_draws|apply Hs|done..]|].
  intros [] h' g' (_ & Hg' & Hf' & Hshown). apply runs_ret. split; [done|]. split; [done|]. split; [done|].
  intros X Y. rewrite Hshown, rect_rows_at by done. by destruct rect.
Qed.

Lemma flush_refused_false stride rect :
  flush_refused stride rect = false ↔ on_screen (r_x rect) (r_y rect) (r_width rect) (r_height rect).
Proof.
  unfold flush_refused, ESP32C3_PANEL_GC9A01_WIDTH, ESP32C3_PANEL_GC9A01_HEIGHT. rewrite !orb_false_iff.
  rewrite !N.eqb_neq, !N.ltb_ge. split; [intros (((? & ?) & ?) & ?); constructor; lia|intros []; lia].
Qed.

(** ** One colour *)

Lemma fill_line_runs count color h g :
  count ≤ 240 → line_ok g →
  runs (fill_line (HW := HW) count (gc9a01_swap16 color)) h g
    (λ _ h' g', h' = h ∧ line_ok g' ∧ line_holds (replicate (N.to_nat count) color) g').
Proof.
  intros Hn Hg. unfold fill_line. rewrite <-(length_replicate (N.to_nat count) color) at 1.
  apply fill_runs; [rewrite length_replicate; lia|done|]. intros i p h1 g1 Hi Hg1.
  apply lookup_replicate in Hi as (-> & Hi). unfold set_line_pixel.
  destruct (set_pixel_ok g1 i (gc9a01_swap16 color) Hg1) as (g' & Hset & _); [lia|apply swap16_lt|].
  apply runs_bind, runs_get_globals, runs_bind, (runs_lift _ g'); [done|]. by apply runs_set_globals.
Qed.

(** The line is sent for every row. *)
Lemma fill_draws x y width height color wire h g dc :
  on_screen x y width height → color < 65536 → line_ok g → ready true dc wire h →
  runs (_ ← fill_line width (gc9a01_swap16 color); _ ← gc9a01_begin_write;
        _ ← gc9a01_set_addr_window_locked x y width height;
        _ ← for_each 0 (N.to_nat height) (λ _, send_line width); gc9a01_end_write) h g
    (λ _ h' g', line_ok g' ∧ ∃ dc', ready true dc'
       (wire ++ frame_wire x y width height (concat (replicate (N.to_nat height) (replicate (N.to_nat width) color)))) h').
Proof.
  intros Hs Hc Hg Hr. pose proof Hs as [Hw Hh Hx Hy].
  apply runs_bind. eapply runs_weaken; [apply fill_line_runs; [lia|done]|]. intros [] h1 g1 (-> & Hg1 & Hline).
  apply runs_bind. eapply runs_weaken; [by apply (begin_moves dc)|]. intros [] h2 g2 (-> & H2). rewrite app_nil_r in H2.
  apply runs_bind. eapply runs_weaken; [by apply (window_moves x y width height dc Hs)|]. intros [] h3 g3 (-> & H3).
  apply runs_bind. eapply runs_weaken.
  { rewrite <-(length_replicate (N.to_nat height) (replicate (N.to_nat width) color)) at 1.
    apply (runs_for (λ i h' g', g' = g1 ∧ ∃ dc', ready false dc'
      ((wire ++ window_wire x y width height) ++ pixels_wire (concat (replicate (N.to_nat i) (replicate (N.to_nat width) color)))) h')
      0 _ _ h3 g1 (λ _ h' g', line_ok g' ∧ ∃ dc', ready false dc' (wire ++ frame_wire x y width height
        (concat (replicate (N.to_nat height) (replicate (N.to_nat width) color)))) h')).
    - split; [done|]. exists false. cbn. by rewrite app_nil_r.
    - intros i h4 g4 Hi (-> & dc4 & H4). rewrite length_replicate in Hi.
      replace width with (N.of_nat (length (replicate (N.to_nat width) color))) at 1 by (rewrite length_replicate; lia).
      eapply runs_weaken; [eapply (send_line_moves g1 _ _ h4 dc4 Hg1 Hline); [by apply Forall_replicate|rewrite length_replicate; lia|done]|].
      intros [] h5 g5 (-> & H5). split; [done|]. exists true. replace (N.to_nat (i + 1)) with (N.to_nat i + 1)%nat by lia.
      rewrite replicate_add, concat_app, pixels_wire_app, app_assoc. cbn [replicate concat]. by rewrite app_nil_r.
    - intros h4 g4 (-> & H4). split; [done|]. rewrite N.add_0_l, length_replicate, Nat2N.id in H4.
      unfold frame_wire. by rewrite app_assoc. }
  intros [] h4 g4 (Hg4 & dc4 & H4). eapply runs_weaken; [by apply (end_moves dc4)|]. intros [] h5 g5 (-> & H5).
  rewrite app_nil_r in H5. split; [done|]. by exists dc4.
Qed.

Lemma replicate_at x y width height color picture X Y :
  draw_rows x y (replicate (N.to_nat height) (replicate (N.to_nat width) color)) picture X Y =
    if in_window (Rect x y width height) X Y then color else picture X Y.
Proof.
  rewrite draw_rows_at. unfold in_window. cbn [r_x r_y r_width r_height].
  destruct (N.leb_spec y Y); cbn [andb]; [|by rewrite !andb_false_r].
  destruct (N.leb_spec x X); cbn [andb]; [|done]. destruct (N.ltb_spec Y (y + height)).
  - rewrite lookup_replicate_2 by lia. cbn [mbind option_bind]. rewrite andb_true_r.
    destruct (N.ltb_spec X (x + width)); cbn [andb].
    + by rewrite lookup_replicate_2 by lia.
    + by rewrite lookup_ge_None_2 by (rewrite length_replicate; lia).
  - rewrite lookup_ge_None_2 by (rewrite length_replicate; lia). cbn. by rewrite andb_false_r.
Qed.

Lemma fill_drawn x y width height color p h g :
  on_screen x y width height → color < 65536 → line_ok g → panel_free h →
  runs (_ ← fill_line width (gc9a01_swap16 color); _ ← gc9a01_begin_write;
        _ ← gc9a01_set_addr_window_locked x y width height;
        _ ← for_each 0 (N.to_nat height) (λ _, send_line width); gc9a01_end_write) h g
    (λ _ h' g', line_ok g' ∧ panel_free h' ∧
       ∀ X Y, shown p h' X Y = if in_window (Rect x y width height) X Y then color else shown p h X Y).
Proof.
  intros Hs Hc Hg (Hi & Hcs).
  eapply runs_weaken; [by apply (fill_draws x y width height color (sv_wire (spi h)) h g (sv_dc (spi h)))|].
  intros [] h' g' (Hg' & dc' & Hi' & Hcs' & _ & Hwire). split; [done|]. split; [done|].
  intros X Y. rewrite <-replicate_at. unfold shown. rewrite Hwire. unfold panel_shows at 1. rewrite foldl_app.
  fold (panel_shows (sv_wire (spi h)) p).
  fold (panel_shows (frame_wire x y width height (concat (replicate (N.to_nat height) (replicate (N.to_nat width) color))))
          (panel_shows (sv_wire (spi h)) p)).
  rewrite frame_decoded; [done|apply Hs| |rewrite length_replicate; lia].
  apply Forall_replicate. rewrite length_replicate. lia.
Qed.

(** ** The drawing functions *)

(** A window of one pixel. *)
Lemma pixel_draws x y color p h g :
  x < 240 → y < 240 → color < 65536 → line_ok g → panel_free h →
  runs (esp32c3_panel_gc9a01_draw_pixel (HW := HW) x y color) h g
    (λ _ h' g', g' = g ∧ panel_free h' ∧
       ∀ X Y, shown p h' X Y = if in_window (Rect x y 1 1) X Y then color else shown p h X Y).
Proof.
  intros Hx Hy Hc Hg (Hi & Hcs). unfold esp32c3_panel_gc9a01_draw_pixel, ESP32C3_PANEL_GC9A01_WIDTH, ESP32C3_PANEL_GC9A01_HEIGHT.
  rewrite (proj2 (N.leb_gt 240 x)), (proj2 (N.leb_gt 240 y)) by done. cbn [orb].
  assert (moves (HW := HW) (_ ← gc9a01_begin_write; _ ← gc9a01_set_addr_window_locked (gc9a01_map_x x) (gc9a01_map_y y) 1 1;
      _ ← gc9a01_write_u16_stream_locked (Some [gc9a01_swap16 color]) 1; gc9a01_end_write)
      true (sv_dc (spi h)) true true (frame_wire x y 1 1 (concat [[color]]))) as Hm.
  { apply moves_after with false (sv_dc (spi h)); [apply begin_moves|]. unfold frame_wire.
    apply moves_then with false false; [apply window_moves; constructor; unfold gc9a01_map_x, gc9a01_map_y; lia|].
    rewrite <-(app_nil_r (pixels_wire _)). apply moves_then with false true; [|apply end_moves].
    cbn [gc9a01_write_u16_stream_locked]. test_numbers. apply moves_store; [done|].
    apply moves_after with false true; [apply data_command_moves|].
    assert (pixels_wire (concat [[color]]) = on_wire false true (take 2 (concat (u16_bytes <$> [gc9a01_swap16 color])))) as ->.
    { unfold pixels_wire. cbn [concat app fmap list_fmap]. by rewrite swapped_bytes. }
    apply bytes_moves; [done|]. rewrite <-(take_ge (concat _) 2) by done. apply Forall_take, Forall_concat.
    repeat constructor; [by apply N.mod_lt|]. apply N.Div0.div_lt_upper_bound. apply swap16_lt. }
  eapply runs_weaken; [by apply (Hm (sv_wire (spi h)))|]. intros [] h' g' (-> & Hi' & Hcs' & _ & Hwire).
  split; [done|]. split; [done|]. intros X Y. rewrite <-replicate_at. unfold shown. rewrite Hwire.
  unfold panel_shows at 1. rewrite foldl_app. fold (panel_shows (sv_wire (spi h)) p).
  fold (panel_shows (frame_wire x y 1 1 (concat [[color]])) (panel_shows (sv_wire (spi h)) p)).
  rewrite frame_decoded; [done|done|by repeat constructor|done].
Qed.

(** [esp32c3_panel_gc9a01_fill_rect] and, outside the screen, its refusal:
    a rectangle that is empty or reaches beyond the screen leaves the machine
    as it is; otherwise the function returns, the panel is deselected, and it
    shows [color] in the rectangle and what it showed before elsewhere. *)
Theorem fill_rect_fills x y width height color p h g :
  color < 65536 → line_ok g → panel_free h →
  runs (esp32c3_panel_gc9a01_fill_rect (HW := HW) x y width height color) h g
    (λ _ h' g', if flush_refused 240 (Rect x y width height) then h' = h ∧ g' = g
       else line_ok g' ∧ panel_free h' ∧
         ∀ X Y, shown p h' X Y = if in_window (Rect x y width height) X Y then color else shown p h X Y).
Proof.
  intros Hc Hg Hf. unfold esp32c3_panel_gc9a01_fill_rect.
  change (_ || _ || _ || _) with (flush_refused 240 (Rect x y width height)).
  destruct (flush_refused 240 _) eqn:Hr; [by apply runs_ret|].
  apply flush_refused_false in Hr. by apply fill_drawn.
Qed.

Lemma fill_screen_fills color p h g :
  color < 65536 → line_ok g → panel_free h →
  runs (esp32c3_panel_gc9a01_fill_screen (HW := HW) color) h g
    (λ _ h' g', line_ok g' ∧ panel_free h' ∧
       ∀ X Y, shown p h' X Y = if in_window (Rect 0 0 240 240) X Y then color else shown p h X Y).
Proof. intros Hc Hg Hf. apply (fill_drawn 0 0 240 240); [by constructor|done..]. Qed.

(** [esp32c3_panel_gc9a01_flush_rect_pixels], on every branch: it refuses a
    rectangle that is empty, reaches beyond the screen or is wider than a row
    of the picture, with EINVAL and without touching the machine; otherwise
    it returns OK, with the panel deselected, and the panel shows the picture
    in the rectangle and what it showed before elsewhere. *)
Theorem flush_rect_pixels_shows pixels stride rect p h g :
  let refused := (stride =? 0) || (stride <? r_width rect) || flush_refused stride rect in
  (refused = false → picture_ok pixels stride (r_width rect) (r_height rect)) →
  line_ok g → panel_free h →
  runs (esp32c3_panel_gc9a01_flush_rect_pixels (HW := HW) (Some pixels) stride (Some rect)) h g
    (λ status h' g', if refused then status = RUNTIME_SYSCALL_STATUS_EINVAL ∧ h' = h ∧ g' = g
       else flushed p h rect (λ X Y, default 0 (pixels !! N.to_nat ((Y - r_y rect) * stride + (X - r_x rect)))) status h' g').
Proof.
  intros refused Hp Hg Hf. cbn [esp32c3_panel_gc9a01_flush_rect_pixels]. fold refused.
  destruct refused eqn:Hr; [by apply runs_ret|]. apply orb_false_iff in Hr as ((Hs0 & Hsw)%orb_false_iff & Hr).
  apply flush_refused_false in Hr. cbn [gc9a01_write_rect_pixels]. rewrite Hsw.
  destruct Hr as [Hw Hh Hx Hy]. rewrite (proj2 (N.eqb_neq (r_width rect) 0)), (proj2 (N.eqb_neq (r_height rect) 0)) by lia.
  apply flush_runs; [by constructor|by apply Hp|done|done].
Qed.

(** [pixels] are the rows of a surface from its upper left corner. *)
Record rows_ok (pixels : list N) (stride : N) (rect : display_rect) : Prop := {
  ro_stride : r_width rect ≤ stride < 65536;
  ro_size : (r_y rect + r_height rect - 1) * stride + r_x rect + r_width rect ≤ N.of_nat (length pixels);
  ro_pixels : Forall (λ p, p < 65536) pixels
}.

Lemma flush_rect_shows_surface pixels stride rect p h g :
  on_screen (r_x rect) (r_y rect) (r_width rect) (r_height rect) → rows_ok pixels stride rect →
  line_ok g → panel_free h →
  runs (esp32c3_panel_gc9a01_flush_rect (HW := HW) (Some pixels) stride (Some rect)) h g
    (flushed p h rect (λ X Y, default 0 (pixels !! N.to_nat (Y * stride + X)))).
Proof.
  intros Hs [Hst Hl Hp] Hg Hf. pose proof Hs as [Hw Hh Hx Hy]. cbn [esp32c3_panel_gc9a01_flush_rect].
  rewrite (proj2 (flush_refused_false stride rect)) by done. rewrite (proj2 (N.eqb_neq stride 0)) by lia.
  cbn [orb gc9a01_write_rect_surface]. rewrite (proj2 (N.eqb_neq stride 0)) by lia.
  assert (r_y rect * stride ≤ 240 * 65535) by (apply N.mul_le_mono; lia).
  rewrite (u32_small (r_y rect * stride)), u32_small by lia.
  eapply runs_weaken; [apply (flush_runs _ _ _ p); [done| |done|done]|].
  - constructor; [done| |by apply Forall_drop]. rewrite length_drop.
    replace (r_y rect + r_height rect - 1) with (r_y rect + (r_height rect - 1)) in Hl by lia.
    rewrite N.mul_add_distr_r in Hl. lia.
  - intros status h' g' (-> & Hg' & Hf' & Hshown). split; [done|]. split; [done|]. split; [done|].
    intros X Y. rewrite Hshown. destruct (in_window rect X Y) eqn:Hc; [|done]. unfold in_window in Hc.
    rewrite !andb_true_iff, !N.leb_le, !N.ltb_lt in Hc. rewrite lookup_drop. do 2 f_equal.
    replace Y with (r_y rect + (Y - r_y rect)) at 2 by lia. rewrite N.mul_add_distr_r. lia.
Qed.

(** A surface whose rows are shorter than the rectangle is accepted, and
    nothing is drawn. *)
Lemma flush_rect_ignores_short_stride pixels stride rect h g :
  on_screen (r_x rect) (r_y rect) (r_width rect) (r_height rect) → 0 < stride < r_width rect →
  esp32c3_panel_gc9a01_flush_rect (HW := HW) (Some pixels) stride (Some rect) h g =
    Some (h, g, RUNTIME_SYSCALL_STATUS_OK).
Proof.
  intros Hs Hst. cbn [esp32c3_panel_gc9a01_flush_rect].
  rewrite (proj2 (flush_refused_false stride rect)) by done. rewrite (proj2 (N.eqb_neq stride 0)) by lia.
  cbn [orb gc9a01_write_rect_surface gc9a01_write_rect_stream_pixels].
  rewrite (proj2 (N.eqb_neq stride 0)), (proj2 (N.ltb_lt stride (r_width rect))) by lia. done.
Qed.
End theorems.

(** ** From any state of the hardware

    The controller finishes what it is doing within [spi_wait] reads, so the
    functions of the driver return whatever state it is in. *)

Section returns.
Context {HW : Type} `{!Bus HW, !SpiDevice HW}.

Definition cmd_bits : list N := [SPI_USR_BIT; SPI_UPDATE_BIT].

(** A read of the command register with one of the two bits set was a step
    of the controller. *)
Lemma busy_read bit h :
  bit ∈ cmd_bits → negb (N.land (bus_read SPI_CMD_REG h).2 bit =? 0) = true → (spi_wait (bus_read SPI_CMD_REG h).1 < spi_wait h)%nat.
Proof.
  intros Hb Hset. pose proof (spi_command_read h) as Hc. destruct (bus_read SPI_CMD_REG h) as [h1 v]. cbn [fst snd] in *.
  destruct Hc as (H24 & H23 & Hlt). apply Hlt. intros Hi. rewrite Hi in H24, H23.
  repeat (apply elem_of_cons in Hb as [-> | Hb]); [| |by apply elem_of_nil in Hb].
  all: unfold SPI_USR_BIT, SPI_UPDATE_BIT in Hset; rewrite land_bit, ?H24, ?H23 in Hset; done.
Qed.

Lemma spi_wait_read reg h : (spi_wait (bus_read reg h).1 ≤ spi_wait h)%nat.
Proof. apply spi_after_read. Qed.

Lemma busy_loop_returns {G} (P : G → Prop) (condition : driver HW G bool) :
  (∀ h g, P g → runs condition h g (λ busy h' g', P g' ∧ (busy = true → (spi_wait h' < spi_wait h)%nat))) →
  returns P (while_do bus_patience condition (nops 1)).
Proof.
  intros Hc h g Hg. apply (runs_while (λ n h' g', n = spi_wait h' ∧ P g') _ _ _ _ _ (spi_wait h)); [done|apply spi_patience|].
  intros n h1 g1 (-> & Hg1). eapply runs_weaken; [by apply Hc|]. intros [] h2 g2 (Hg2 & Hlt); [|done].
  apply runs_nops. eexists. split; [|by split]. pose proof (proj2 (spi_after_nops 1 h2)). specialize (Hlt eq_refl). lia.
Qed.

Lemma cmd_loop_returns {G} (P : G → Prop) bit :
  bit ∈ cmd_bits →
  returns P (while_do bus_patience (cmd ← reg_read SPI_CMD_REG; mret (negb (N.land cmd bit =? 0))) (nops 1)).
Proof.
  intros Hb. apply busy_loop_returns. intros h g Hg. apply runs_bind, runs_read, runs_ret. split; [done|]. by apply busy_read.
Qed.

Lemma wait_idle_returns (P : list N → Prop) : returns P (gc9a01_spi_wait_idle (HW := HW)).
Proof. by apply cmd_loop_returns; constructor. Qed.

Lemma wait_done_returns (P : list N → Prop) : returns P (gc9a01_spi_wait_done (HW := HW)).
Proof.
  apply busy_loop_returns. intros h g Hg. apply runs_bind, runs_read. destruct (_ =? 0); [|by apply runs_ret].
  apply runs_bind, runs_read, runs_ret. split; [done|]. intros Hb%busy_read; [|by constructor].
  pose proof (spi_wait_read GC9A01_SPI_DMA_INT_RAW_REG h). lia.
Qed.

Lemma sync_returns (P : list N → Prop) : returns P (gc9a01_spi_sync_regs (HW := HW)).
Proof. unfold gc9a01_spi_sync_regs. returning. apply cmd_loop_returns. by constructor; constructor. Qed.
#[local] Hint Resolve wait_idle_returns wait_done_returns sync_returns : returns.

Section line.
Context (P : list N → Prop).

Lemma transfer_returns data offset chunk_bytes :
  offset + chunk_bytes ≤ N.of_nat (length data) → returns P (spi_transfer (HW := HW) data offset chunk_bytes).
Proof.
  intros Hl. unfold spi_transfer, gc9a01_spi_reset_fifos. returning.
  - apply returns_for. intros i _. apply returns_write.
  - apply returns_for. intros i Hi. returning. apply returns_lift. rewrite aget_lookup. apply lookup_lt_is_Some. lia.
Qed.

Lemma spi_loop_returns fuel data size offset :
  size ≤ N.of_nat (length data) → (N.to_nat (size - offset) ≤ fuel)%nat → returns P (spi_loop (HW := HW) fuel data size offset).
Proof.
  intros Hs. revert offset. induction fuel as [|fuel IH]; intros offset Hf; cbn [spi_loop];
    destruct (N.ltb_spec offset size); try lia; [apply returns_ret| |apply returns_ret].
  unfold GC9A01_SPI_MAX_TRANSFER_BYTES. destruct (N.ltb_spec 32 (size - offset));
    (apply returns_bind; [apply transfer_returns; lia|intros []; apply IH; lia]).
Qed.

Lemma bytes_return data size : size ≤ N.of_nat (length data) → returns P (gc9a01_spi_write_bytes_raw (HW := HW) (Some data) size).
Proof. intros Hs. cbn [gc9a01_spi_write_bytes_raw]. apply returns_if; intros _; [apply returns_ret|]. by apply spi_loop_returns; [|lia]. Qed.

Lemma begin_returns : returns P (gc9a01_begin_write (HW := HW)).
Proof. unfold gc9a01_begin_write, gc9a01_signal_settle. returning. Qed.
Lemma end_returns : returns P (gc9a01_end_write (HW := HW)).
Proof. unfold gc9a01_end_write, gc9a01_signal_settle. returning. Qed.
Lemma data_command_returns level : returns P (gc9a01_data_command (HW := HW) level).
Proof. unfold gc9a01_data_command, gc9a01_signal_settle. returning. Qed.
#[local] Hint Resolve begin_returns end_returns data_command_returns : returns.

Lemma command_returns command : returns P (gc9a01_write_command_locked (HW := HW) command).
Proof. unfold gc9a01_write_command_locked. returning. by apply bytes_return. Qed.
#[local] Hint Resolve command_returns : returns.

(** The pointer is there, or nothing is sent. *)
Definition data_fits (data : option (list N)) (size : N) : Prop := ∀ l, data = Some l → size ≤ N.of_nat (length l).

Lemma data_returns data size : data_fits data size → returns P (gc9a01_write_data_bytes_locked (HW := HW) data size).
Proof.
  intros Hd. destruct data as [l|]; cbn [gc9a01_write_data_bytes_locked]; [|apply returns_ret]. specialize (Hd l eq_refl).
  returning. by apply bytes_return.
Qed.

Lemma init_step_returns index command data size delay_ms :
  data_fits data size → returns P (gc9a01_run_init_step (HW := HW) index command data size delay_ms).
Proof. intros Hd. unfold gc9a01_run_init_step. returning. by apply data_returns. Qed.

Lemma window_returns x y width height : returns P (gc9a01_set_addr_window_locked (HW := HW) x y width height).
Proof. unfold gc9a01_set_addr_window_locked. returning; apply data_returns; by intros l [= <-]. Qed.

Lemma madctl_returns value : returns P (esp32c3_panel_gc9a01_set_madctl (HW := HW) value).
Proof. unfold esp32c3_panel_gc9a01_set_madctl. returning. apply data_returns. by intros l [= <-]. Qed.

Lemma rotation_returns : returns P (gc9a01_set_rotation0_and_ips_true (HW := HW)).
Proof. unfold gc9a01_set_rotation0_and_ips_true. returning. apply data_returns. by intros l [= <-]. Qed.

Lemma init_steps_return : returns P (init_steps (HW := HW)).
Proof.
  unfold init_steps.
  repeat (apply returns_bind; [apply init_step_returns; first [by intros l [= <-] | by intros l [=]]|intros _]). apply returns_ret.
Qed.

Lemma spi_init_returns : returns P (gc9a01_spi_init (HW := HW)).
Proof. unfold gc9a01_spi_init, gc9a01_spi_reset_fifos. cbv zeta. returning. Qed.

Lemma backlight_init_returns : returns P (gc9a01_backlight_init (HW := HW)).
Proof. unfold gc9a01_backlight_init. returning. Qed.
Lemma backlight_returns percent : returns P (esp32c3_panel_gc9a01_backlight_set (HW := HW) percent).
Proof. unfold esp32c3_panel_gc9a01_backlight_set. returning. Qed.
End line.
#[local] Hint Resolve begin_returns end_returns window_returns : returns.

(** ** Pixels *)

Lemma set_line_returns index value : index < 240 → value < 65536 → returns line_ok (set_line_pixel (HW := HW) index value).
Proof.
  intros Hi Hv h g Hg. destruct (set_pixel_ok g index value Hg Hi Hv) as (g' & Hset & Hg' & _).
  unfold set_line_pixel. by apply runs_bind, runs_get_globals, runs_bind, (runs_lift _ g'), runs_set_globals.
Qed.

Lemma send_line_returns count : count ≤ 240 → returns line_ok (send_line (HW := HW) count).
Proof.
  intros Hc h g Hg. unfold send_line. apply runs_bind, runs_get_globals. cbn [gc9a01_write_u16_stream_locked].
  destruct (count =? 0); [by apply runs_ret|].
  apply (returns_bind line_ok); [apply returns_write|intros _|done].
  apply returns_bind; [apply data_command_returns|intros _]. apply bytes_return. rewrite u32_small by lia.
  destruct Hg as (Hl & _). rewrite length_word_bytes. lia.
Qed.

Lemma fill_screen_returns color : returns line_ok (esp32c3_panel_gc9a01_fill_screen (HW := HW) color).
Proof.
  unfold esp32c3_panel_gc9a01_fill_screen, gc9a01_fill_screen, fill_line. returning.
  - apply returns_for. intros i Hi. unfold ESP32C3_PANEL_GC9A01_WIDTH in Hi. apply set_line_returns; [lia|apply swap16_lt].
  - apply returns_for. intros i _. by apply send_line_returns.
Qed.

(** Initialisation returns. *)
Lemma panel_init_returns : returns line_ok (esp32c3_panel_gc9a01_init (HW := HW)).
Proof.
  unfold esp32c3_panel_gc9a01_init, gc9a01_chip_select, gc9a01_data_command, gc9a01_signal_settle.
  returning; first [apply backlight_returns | apply backlight_init_returns | apply spi_init_returns | apply init_steps_return
                   | apply rotation_returns | apply fill_screen_returns].
Qed.

Lemma flush_returns pixels stride rect :
  on_screen (r_x rect) (r_y rect) (r_width rect) (r_height rect) → picture_ok pixels stride (r_width rect) (r_height rect) →
  returns line_ok (esp32c3_panel_gc9a01_flush_rect_pixels (HW := HW) (Some pixels) stride (Some rect)).
Proof.
  intros Hs Hp. cbn [esp32c3_panel_gc9a01_flush_rect_pixels gc9a01_write_rect_pixels gc9a01_write_rect_stream_pixels].
  returning. apply returns_for. intros i Hi. destruct Hs as [Hw Hh Hx Hy]. destruct Hp as [Hst Hsz Hc].
  unfold write_source_row. apply returns_bind; [|intros _; apply send_line_returns; lia].
  apply returns_for. intros c Hc'. apply returns_bind; [|intros p; apply set_line_returns; [lia|apply swap16_lt]].
  apply returns_lift. rewrite aget_lookup. apply lookup_lt_is_Some. rewrite u32_small by nia. nia.
Qed.
End returns.

(** ** Witnesses, on the simulated machine *)

Definition blank_panel : panel := Panel 0 [] (0, 239) (0, 239) (0, 0) None (λ _ _, 0).

Lemma line_ok_fresh : line_ok (replicate 240 0).
Proof. split; [done|by apply Forall_replicate]. Qed.

Lemma fill_rect_fills_witness :
  runs (esp32c3_panel_gc9a01_fill_rect 10 20 3 2 0xF800) sim0 (replicate 240 0)
    (λ _ h' g', line_ok g' ∧ panel_free h' ∧
       ∀ X Y, shown blank_panel h' X Y = if in_window (Rect 10 20 3 2) X Y then 0xF800 else shown blank_panel sim0 X Y).
Proof. apply (fill_rect_fills 10 20 3 2 0xF800 blank_panel sim0); [done|apply line_ok_fresh|done]. Defined.

Lemma flush_rect_pixels_shows_witness :
  runs (esp32c3_panel_gc9a01_flush_rect_pixels (Some [1; 2; 3; 4; 5; 6]) 3 (Some (Rect 10 20 2 2))) sim0 (replicate 240 0)
    (flushed blank_panel sim0 (Rect 10 20 2 2)
       (λ X Y, default 0 ([1; 2; 3; 4; 5; 6] !! N.to_nat ((Y - 20) * 3 + (X - 10))))).
Proof.
  apply (flush_rect_pixels_shows [1; 2; 3; 4; 5; 6] 3 (Rect 10 20 2 2) blank_panel sim0); [|apply line_ok_fresh|done].
  intros _. constructor; [done|done|by repeat constructor].
Defined.
