(* ===== verification/TouchTheorems.v ===== *)
(** * The touch controller: samples

    Reading a sample is reading the registers of the controller, and a
    controller that does not answer is reported as busy. *)

From S2P Require Import Prelude DisplaySurface Soc Gpio PanelGc9a01 TouchCst816s TouchProofs SimDevice.

Local Open Scope N_scope.

(** The twelve bits of a coordinate. *)
Lemma coordinate_bits high low :
  high < 256 → low < 256 →
  u16 (N.lor (u16 (N.shiftl (u16 (N.land high 0x0F)) 8)) low) = high mod 16 * 256 + low.
Proof.
  intros Hh Hl. change 0x0F with (N.ones 4). rewrite N.land_ones. change (2 ^ 4) with 16.
  pose proof (N.mod_lt high 16 ltac:(done)) as Hm. revert Hm. generalize (high mod 16). clear high Hh. intros high Hh.
  apply N.eqb_eq.
  apply (all_bytes (λ low, u16 (N.lor (u16 (N.shiftl (u16 high) 8)) low) =? high * 256 + low)); [|done].
  assert (high < 256) as Hb by lia.
  pose proof (all_bytes (λ high, (16 <=? high) ||
    forallb (λ i, u16 (N.lor (u16 (N.shiftl (u16 high) 8)) (N.of_nat i)) =? high * 256 + N.of_nat i) (seq 0 256))
    ltac:(by vm_compute) high Hb) as H.
  cbv beta in H. by rewrite (proj2 (N.leb_gt 16 high)) in H by done.
Qed.

(** Initialisation returns from any state of the hardware. *)
Lemma touch_init_returns {HW} `{!Bus HW} :
  returns (HW := HW) (λ g, length (g_interrupt_slots g) = 22%nat) esp32c3_touch_cst816s_init.
Proof.
  unfold esp32c3_touch_cst816s_init, cst816s_sda_release, cst816s_scl_release. returning.
  - apply (returns_within (λ slots, length slots = 22%nat)); [|done|done]. apply returns_get. intros h slots Hl.
    apply runs_bind. eapply runs_lift; [apply aset_Some; rewrite Hl; by vm_compute|].
    apply runs_set_globals. by rewrite length_insert.
  - apply returns_get. intros h g Hg. by apply runs_set_globals.
Qed.

Section samples.
Context {HW : Type} `{!Bus HW, !TouchDevice HW} {G : Type}.

(** C31: [esp32c3_touch_cst816s_read] drives the two pins so that an I2C
    target sees start and stop conditions, its address, register numbers and
    acknowledgements bit by bit.  When the target at address 15h answers, the
    result is OK and the sample is what its registers describe (no finger; or
    the two twelve-bit coordinates, the row turned round inside the screen);
    when no target answers at that address, the result is EBUSY and the
    sample is cleared.  The call always returns, and leaves both lines
    floating and the registers as they were. *)
Theorem touch_read_reports_sample (t : i2c_target) (h : HW) (g : G) :
  bytes_ok t → at_rest t h →
  runs (esp32c3_touch_cst816s_read true) h g (λ result h' g', g' = g ∧ at_rest t h' ∧
    result = if tg_address t =? CST816S_I2C_ADDRESS
             then (RUNTIME_SYSCALL_STATUS_OK, Some (registers_sample (tg_registers t)))
             else (RUNTIME_SYSCALL_STATUS_EBUSY, Some (Sample 0 0 0))).
Proof.
  intros Hb Hr. unfold esp32c3_touch_cst816s_read. cbn [negb].
  apply runs_bind. apply (transaction_runs 2 1 t); [done|done|done|lia|done|]. intros h1 H1. unfold register_read.
  destruct (tg_address t =? CST816S_I2C_ADDRESS) eqn:Ha; [|by apply runs_ret].
  cbn [registers_from]. apply runs_bind. eapply runs_lift; [done|].
  change (tg_registers (set_pointer 2 t) (tg_pointer (set_pointer 2 t))) with (tg_registers t 2). unfold registers_sample.
  destruct (tg_registers t 2 =? 0); [by apply runs_ret|].
  apply runs_bind. apply (transaction_runs 3 4 t); [done|done|done|lia|done|]. intros h2 H2. unfold register_read. rewrite Ha.
  cbn [registers_from]. do 4 (apply runs_bind; eapply runs_lift; [done|]).
  cbn [next_pointer set_pointer tg_registers tg_pointer].
  change ((3 + 1) mod 256) with 4. change ((4 + 1) mod 256) with 5. change ((5 + 1) mod 256) with 6.
  rewrite !coordinate_bits by apply Hb. cbn zeta. apply runs_ret. split; [done|]. split; [done|].
  unfold ESP32C3_PANEL_GC9A01_HEIGHT. do 3 f_equal.
  destruct (N.ltb_spec (tg_registers t 5 mod 16 * 256 + tg_registers t 6) 240) as [Hlt|]; [|done].
  revert Hlt. generalize (tg_registers t 5 mod 16 * 256 + tg_registers t 6). intros y Hlt.
  unfold sub32, u16. change (u32 (240 + 4294967296 - u32 1)) with 239. rewrite (u32_small y) by lia. unfold u32.
  replace (239 + 4294967296 - y) with (239 - y + 1 * 4294967296) by lia. rewrite N.Div0.mod_add, (N.mod_small _ 4294967296) by lia.
  apply N.mod_small. lia.
Qed.
End samples.

(** A finger at (130, 200). *)
Definition sim_target : i2c_target := Target 0x15 (λ r, if r =? 2 then 1 else if r =? 4 then 130 else if r =? 6 then 39 else 0) 0 Quiet.

Lemma touch_read_reports_sample_witness :
  runs (esp32c3_touch_cst816s_read true) (set_touch (I2cBus false false sim_target) sim0) tt
    (λ result h' g', g' = tt ∧ at_rest sim_target h' ∧ result = (RUNTIME_SYSCALL_STATUS_OK, Some (Sample 130 200 1))).
Proof.
  apply (touch_read_reports_sample sim_target (set_touch (I2cBus false false sim_target) sim0) tt).
  - intros r. cbn. by repeat case_match.
  - by exists 0.
Defined.
