(* ===== verification/DisplayDemo.v ===== *)
(** * The display demonstration ([kernel/runtime_display_demo.c])

    Text and pictures drawn on a surface of two pixel buffers, and presented:
    the buffers are exchanged and the damaged rectangle is written to the
    panel.  [layout] is the compile-time choice DISPLAY_DEMO_LAYOUT_EXPERIMENT. *)

From S2P Require Import Prelude Soc Gpio Console DisplaySurface PanelGc9a01 TouchCst816s.

Local Open Scope N_scope.

Definition DISPLAY_DEMO_BACKGROUND : N := 0xFFFF.
Definition DISPLAY_DEMO_FOREGROUND : N := 0x0000.
Definition DISPLAY_DEMO_WIDTH : N := ESP32C3_PANEL_GC9A01_WIDTH.
Definition DISPLAY_DEMO_HEIGHT : N := ESP32C3_PANEL_GC9A01_HEIGHT.
Definition DISPLAY_DEMO_GLYPH_W : N := 8.
Definition DISPLAY_DEMO_GLYPH_H : N := 8.
Definition DISPLAY_DEMO_PUBLISH_GRANULARITY : N := 16.

Definition DISPLAY_DEMO_LAYOUT_EXPERIMENT_LOCAL_ARRAYS : N := 1.
Definition DISPLAY_DEMO_LAYOUT_EXPERIMENT_RODATA_DISPATCH : N := 2.
Definition DISPLAY_DEMO_LAYOUT_EXPERIMENT_SWITCH_DISPATCH : N := 3.

Definition g_display_tag : cstr := cs "DISPLAY".
Definition g_display_init_start : cstr := cs "init_start".
Definition g_display_panel_init_done : cstr := cs "panel_init_done".
Definition g_display_mode : cstr := cs "display_safe_mode".
Definition g_display_ready : cstr := cs "gc9a01 ready".
Definition g_display_layout_mode : cstr := cs "layout_mode".
Definition g_display_layout_mode_stable : cstr := cs "stable_explicit".
Definition g_display_layout_mode_local : cstr := cs "local_arrays".
Definition g_display_layout_mode_rodata : cstr := cs "rodata_dispatch".
Definition g_display_layout_mode_switch : cstr := cs "switch_dispatch".
Definition g_display_google_g_upper : cstr := cs "G".
Definition g_display_google_o_first : cstr := cs "o".
Definition g_display_google_o_second : cstr := cs "o".
Definition g_display_google_g_lower : cstr := cs "g".
Definition g_display_google_l : cstr := cs "l".
Definition g_display_google_e : cstr := cs "e".

Definition g_display_demo_font8x8 : list (list N) := [
  [0x00; 0x00; 0x00; 0x00; 0x00; 0x00; 0x00; 0x00]; [0x18; 0x3C; 0x3C; 0x18; 0x18; 0x00; 0x18; 0x00];
  [0x36; 0x36; 0x00; 0x00; 0x00; 0x00; 0x00; 0x00]; [0x36; 0x36; 0x7F; 0x36; 0x7F; 0x36; 0x36; 0x00];
  [0x18; 0x3E; 0x60; 0x3C; 0x06; 0x7C; 0x18; 0x00]; [0x00; 0x63; 0x63; 0x08; 0x10; 0x63; 0x63; 0x00];
  [0x1C; 0x36; 0x1C; 0x3B; 0x6E; 0x66; 0x3B; 0x00]; [0x06; 0x06; 0x03; 0x00; 0x00; 0x00; 0x00; 0x00];
  [0x18; 0x0C; 0x06; 0x06; 0x06; 0x0C; 0x18; 0x00]; [0x18; 0x30; 0x60; 0x60; 0x60; 0x30; 0x18; 0x00];
  [0x00; 0x66; 0x3C; 0xFF; 0x3C; 0x66; 0x00; 0x00]; [0x00; 0x18; 0x18; 0x7E; 0x18; 0x18; 0x00; 0x00];
  [0x00; 0x00; 0x00; 0x00; 0x00; 0x18; 0x18; 0x0C]; [0x00; 0x00; 0x00; 0x7E; 0x00; 0x00; 0x00; 0x00];
  [0x00; 0x00; 0x00; 0x00; 0x00; 0x18; 0x18; 0x00]; [0x60; 0x60; 0x30; 0x18; 0x0C; 0x06; 0x06; 0x00];
  [0x3C; 0x66; 0x6E; 0x7E; 0x76; 0x66; 0x3C; 0x00]; [0x18; 0x38; 0x18; 0x18; 0x18; 0x18; 0x7E; 0x00];
  [0x3C; 0x66; 0x06; 0x0C; 0x18; 0x30; 0x7E; 0x00]; [0x3C; 0x66; 0x06; 0x3C; 0x06; 0x66; 0x3C; 0x00];
  [0x06; 0x0E; 0x1E; 0x36; 0x7F; 0x06; 0x06; 0x00]; [0x7E; 0x60; 0x7C; 0x06; 0x06; 0x66; 0x3C; 0x00];
  [0x1C; 0x30; 0x60; 0x7C; 0x66; 0x66; 0x3C; 0x00]; [0x7E; 0x06; 0x0C; 0x18; 0x30; 0x30; 0x30; 0x00];
  [0x3C; 0x66; 0x66; 0x3C; 0x66; 0x66; 0x3C; 0x00]; [0x3C; 0x66; 0x66; 0x3E; 0x06; 0x0C; 0x38; 0x00];
  [0x00; 0x18; 0x18; 0x00; 0x18; 0x18; 0x00; 0x00]; [0x00; 0x18; 0x18; 0x00; 0x18; 0x18; 0x0C; 0x00];
  [0x0C; 0x18; 0x30; 0x60; 0x30; 0x18; 0x0C; 0x00]; [0x00; 0x00; 0x7E; 0x00; 0x7E; 0x00; 0x00; 0x00];
  [0x30; 0x18; 0x0C; 0x06; 0x0C; 0x18; 0x30; 0x00]; [0x3C; 0x66; 0x06; 0x0C; 0x18; 0x00; 0x18; 0x00];
  [0x3C; 0x66; 0x6E; 0x6E; 0x60; 0x3E; 0x00; 0x00]; [0x18; 0x3C; 0x66; 0x66; 0x7E; 0x66; 0x66; 0x00];
  [0x7C; 0x66; 0x66; 0x7C; 0x66; 0x66; 0x7C; 0x00]; [0x3C; 0x66; 0x60; 0x60; 0x60; 0x66; 0x3C; 0x00];
  [0x78; 0x6C; 0x66; 0x66; 0x66; 0x6C; 0x78; 0x00]; [0x7E; 0x60; 0x60; 0x78; 0x60; 0x60; 0x7E; 0x00];
  [0x7E; 0x60; 0x60; 0x78; 0x60; 0x60; 0x60; 0x00]; [0x3C; 0x66; 0x60; 0x6E; 0x66; 0x66; 0x3C; 0x00];
  [0x66; 0x66; 0x66; 0x7E; 0x66; 0x66; 0x66; 0x00]; [0x3C; 0x18; 0x18; 0x18; 0x18; 0x18; 0x3C; 0x00];
  [0x1E; 0x0C; 0x0C; 0x0C; 0x0C; 0x6C; 0x38; 0x00]; [0x66; 0x6C; 0x78; 0x70; 0x78; 0x6C; 0x66; 0x00];
  [0x60; 0x60; 0x60; 0x60; 0x60; 0x60; 0x7E; 0x00]; [0x63; 0x77; 0x7F; 0x6B; 0x63; 0x63; 0x63; 0x00];
  [0x66; 0x76; 0x7E; 0x7E; 0x7E; 0x6E; 0x66; 0x00]; [0x3C; 0x66; 0x66; 0x66; 0x66; 0x66; 0x3C; 0x00];
  [0x7C; 0x66; 0x66; 0x7C; 0x60; 0x60; 0x60; 0x00]; [0x3C; 0x66; 0x66; 0x66; 0x66; 0x3C; 0x0E; 0x07];
  [0x7C; 0x66; 0x66; 0x7C; 0x78; 0x6C; 0x66; 0x00]; [0x3C; 0x66; 0x30; 0x18; 0x0C; 0x66; 0x3C; 0x00];
  [0x7E; 0x5A; 0x18; 0x18; 0x18; 0x18; 0x18; 0x00]; [0x66; 0x66; 0x66; 0x66; 0x66; 0x66; 0x3C; 0x00];
  [0x66; 0x66; 0x66; 0x66; 0x66; 0x3C; 0x18; 0x00]; [0x63; 0x63; 0x63; 0x6B; 0x7F; 0x77; 0x63; 0x00];
  [0x66; 0x66; 0x3C; 0x18; 0x3C; 0x66; 0x66; 0x00]; [0x66; 0x66; 0x66; 0x3C; 0x18; 0x18; 0x18; 0x00];
  [0x7E; 0x06; 0x0C; 0x18; 0x30; 0x60; 0x7E; 0x00]; [0x3C; 0x30; 0x30; 0x30; 0x30; 0x30; 0x3C; 0x00];
  [0x06; 0x0C; 0x18; 0x30; 0x60; 0xC0; 0x80; 0x00]; [0x3C; 0x0C; 0x0C; 0x0C; 0x0C; 0x0C; 0x3C; 0x00];
  [0x18; 0x3C; 0x66; 0x00; 0x00; 0x00; 0x00; 0x00]; [0x00; 0x00; 0x00; 0x00; 0x00; 0x00; 0x00; 0xFF];
  [0x30; 0x30; 0x18; 0x00; 0x00; 0x00; 0x00; 0x00]; [0x00; 0x00; 0x3C; 0x06; 0x3E; 0x66; 0x3E; 0x00];
  [0x60; 0x60; 0x7C; 0x66; 0x66; 0x66; 0x7C; 0x00]; [0x00; 0x00; 0x3C; 0x60; 0x60; 0x66; 0x3C; 0x00];
  [0x06; 0x06; 0x3E; 0x66; 0x66; 0x66; 0x3E; 0x00]; [0x00; 0x00; 0x3C; 0x66; 0x7E; 0x60; 0x3C; 0x00];
  [0x1C; 0x30; 0x78; 0x30; 0x30; 0x30; 0x30; 0x00]; [0x00; 0x00; 0x3E; 0x66; 0x66; 0x3E; 0x06; 0x3C];
  [0x60; 0x60; 0x7C; 0x66; 0x66; 0x66; 0x66; 0x00]; [0x18; 0x00; 0x38; 0x18; 0x18; 0x18; 0x3C; 0x00];
  [0x06; 0x00; 0x06; 0x06; 0x06; 0x06; 0x06; 0x3C]; [0x60; 0x60; 0x66; 0x6C; 0x78; 0x6C; 0x66; 0x00];
  [0x30; 0x30; 0x30; 0x30; 0x30; 0x30; 0x1C; 0x00]; [0x00; 0x00; 0x66; 0x7F; 0x7F; 0x6B; 0x63; 0x00];
  [0x00; 0x00; 0x7C; 0x66; 0x66; 0x66; 0x66; 0x00]; [0x00; 0x00; 0x3C; 0x66; 0x66; 0x66; 0x3C; 0x00];
  [0x00; 0x00; 0x7C; 0x66; 0x66; 0x7C; 0x60; 0x60]; [0x00; 0x00; 0x3E; 0x66; 0x66; 0x3E; 0x06; 0x06];
  [0x00; 0x00; 0x7C; 0x66; 0x60; 0x60; 0x60; 0x00]; [0x00; 0x00; 0x3E; 0x60; 0x3C; 0x06; 0x7C; 0x00];
  [0x30; 0x30; 0x78; 0x30; 0x30; 0x30; 0x1C; 0x00]; [0x00; 0x00; 0x66; 0x66; 0x66; 0x66; 0x3E; 0x00];
  [0x00; 0x00; 0x66; 0x66; 0x66; 0x3C; 0x18; 0x00]; [0x00; 0x00; 0x63; 0x6B; 0x7F; 0x3E; 0x36; 0x00];
  [0x00; 0x00; 0x66; 0x3C; 0x18; 0x3C; 0x66; 0x00]; [0x00; 0x00; 0x66; 0x66; 0x66; 0x3E; 0x06; 0x3C];
  [0x00; 0x00; 0x7E; 0x0C; 0x18; 0x30; 0x7E; 0x00]; [0x0C; 0x18; 0x18; 0x70; 0x18; 0x18; 0x0C; 0x00];
  [0x18; 0x18; 0x18; 0x18; 0x18; 0x18; 0x18; 0x00]; [0x30; 0x18; 0x18; 0x0E; 0x18; 0x18; 0x30; 0x00];
  [0x31; 0x6B; 0x46; 0x00; 0x00; 0x00; 0x00; 0x00]; [0xFF; 0xFF; 0xFF; 0xFF; 0xFF; 0xFF; 0xFF; 0xFF]
].

Definition g_google_blue : N := 0x001F.
Definition g_google_red : N := 0xF800.
Definition g_google_yellow : N := 0xFFE0.
Definition g_google_green : N := 0x07E0.

(** The two pixel buffers, by their addresses in the memory of buffers. *)
Definition g_display_front_buffer : N := 1.
Definition g_display_back_buffer : N := 2.

(** The globals of the file, and those of the drivers it calls. *)
Record demo_state := DemoState {
  dm_memory : memory;
  g_display_glyph_buffer : list N;
  g_display_surface : display_surface unit;
  g_display_last_published_tick : N;
  g_display_ready_flag : N;
  g_display_initialized : N;
  dm_line : list N;
  dm_touch : touch_state;
  dm_console : console_state
}.

Definition set_picture (mem : memory) (surface : display_surface unit) (g : demo_state) : demo_state :=
  DemoState mem (g_display_glyph_buffer g) surface (g_display_last_published_tick g) (g_display_ready_flag g)
    (g_display_initialized g) (dm_line g) (dm_touch g) (dm_console g).
Definition set_glyph (glyph : list N) (g : demo_state) : demo_state :=
  DemoState (dm_memory g) glyph (g_display_surface g) (g_display_last_published_tick g) (g_display_ready_flag g)
    (g_display_initialized g) (dm_line g) (dm_touch g) (dm_console g).
Definition set_flags (tick ready initialized : N) (g : demo_state) : demo_state :=
  DemoState (dm_memory g) (g_display_glyph_buffer g) (g_display_surface g) tick ready initialized
    (dm_line g) (dm_touch g) (dm_console g).
Definition set_line (line : list N) (g : demo_state) : demo_state :=
  DemoState (dm_memory g) (g_display_glyph_buffer g) (g_display_surface g) (g_display_last_published_tick g)
    (g_display_ready_flag g) (g_display_initialized g) line (dm_touch g) (dm_console g).
Definition set_touch_state (touch : touch_state) (g : demo_state) : demo_state :=
  DemoState (dm_memory g) (g_display_glyph_buffer g) (g_display_surface g) (g_display_last_published_tick g)
    (g_display_ready_flag g) (g_display_initialized g) (dm_line g) touch (dm_console g).
Definition set_demo_console (console : console_state) (g : demo_state) : demo_state :=
  DemoState (dm_memory g) (g_display_glyph_buffer g) (g_display_surface g) (g_display_last_published_tick g)
    (g_display_ready_flag g) (g_display_initialized g) (dm_line g) (dm_touch g) console.

Definition runtime_display_demo_lookup_glyph (ch : ascii) : option (option (list N)) :=
  let uch := code ch in
  if (uch <? 32) || (127 <? uch) then Some None
  else bitmap ← aget g_display_demo_font8x8 (uch - 32); Some (Some bitmap).

(** One row of a glyph: a pixel for every bit, the highest first. *)
Fixpoint glyph_row (bits fg bg row col : N) (n : nat) (out_pixels : list N) : option (list N) :=
  match n with
  | O => Some out_pixels
  | S n' =>
      out_pixels ← aset out_pixels (u32 (row * DISPLAY_DEMO_GLYPH_W + col))
        (if nz (N.land bits (u8 (N.shiftr 0x80 col))) then fg else bg);
      glyph_row bits fg bg row (col + 1) n' out_pixels
  end.

Fixpoint glyph_rows (bitmap : option (list N)) (fg bg row : N) (n : nat) (out_pixels : list N) : option (list N) :=
  match n with
  | O => Some out_pixels
  | S n' =>
      bits ← match bitmap with Some bitmap => aget bitmap row | None => Some 0 end;
      out_pixels ← glyph_row bits fg bg row 0 (N.to_nat DISPLAY_DEMO_GLYPH_W) out_pixels;
      glyph_rows bitmap fg bg (row + 1) n' out_pixels
  end.

(** [out_pixels] is what the pointer points to. *)
Definition runtime_display_demo_make_glyph_pixels (bitmap : option (list N)) (fg bg : N) (out_pixels : option (list N))
  : option (option (list N)) :=
  match out_pixels with
  | None => Some None
  | Some out_pixels => out ← glyph_rows bitmap fg bg 0 (N.to_nat DISPLAY_DEMO_GLYPH_H) out_pixels; Some (Some out)
  end.

Section demo.
Context {HW : Type} `{!Bus HW} (layout : N).
Abbreviation io := (driver HW demo_state).

Definition on_panel {A} (m : driver HW (list N) A) : io A := within dm_line set_line m.
Definition on_console {A} (m : driver HW console_state A) : io A := within dm_console set_demo_console m.

Definition runtime_display_demo_layout_mode_name : cstr :=
  if layout =? DISPLAY_DEMO_LAYOUT_EXPERIMENT_LOCAL_ARRAYS then g_display_layout_mode_local
  else if layout =? DISPLAY_DEMO_LAYOUT_EXPERIMENT_RODATA_DISPATCH then g_display_layout_mode_rodata
  else if layout =? DISPLAY_DEMO_LAYOUT_EXPERIMENT_SWITCH_DISPATCH then g_display_layout_mode_switch
  else g_display_layout_mode_stable.

(** The calls of [display_surface_fill_rect] and [display_surface_blit_rgb565]
    on [g_display_surface]. *)
Definition fill_surface (x y width height : Z) (color : N) : io Z :=
  g ← get_globals;
  r ← lift (display_surface_fill_rect (dm_memory g) (g_display_surface g) x y width height color);
  _ ← set_globals (set_picture r.1.1 r.1.2 g);
  mret r.2.
Definition blit_surface (x y width height : Z) (pixels : option (list N)) (source_stride : N) : io Z :=
  g ← get_globals;
  r ← lift (display_surface_blit_rgb565 (dm_memory g) (g_display_surface g) x y width height pixels source_stride);
  _ ← set_globals (set_picture r.1.1 r.1.2 g);
  mret r.2.

Definition runtime_display_demo_clear_backbuffer (color : N) : io unit :=
  _ ← fill_surface 0 0 (Z.of_N DISPLAY_DEMO_WIDTH) (Z.of_N DISPLAY_DEMO_HEIGHT) color;
  mret tt.

(** The glyph of a character, in [g_display_glyph_buffer]. *)
Definition make_glyph (ch : ascii) (fg bg : N) : io unit :=
  bitmap ← lift (runtime_display_demo_lookup_glyph ch);
  g ← get_globals;
  out ← lift (runtime_display_demo_make_glyph_pixels bitmap fg bg (Some (g_display_glyph_buffer g)));
  set_globals (set_glyph (default [] out) g).

Definition runtime_display_demo_draw_fast_char_at (x y : N) (ch : ascii) (fg bg : N) : io unit :=
  _ ← make_glyph ch fg bg;
  g ← get_globals;
  _ ← blit_surface (Z.of_N x) (Z.of_N y) (Z.of_N DISPLAY_DEMO_GLYPH_W) (Z.of_N DISPLAY_DEMO_GLYPH_H)
        (Some (g_display_glyph_buffer g)) DISPLAY_DEMO_GLYPH_W;
  mret tt.

Fixpoint text_loop (cursor_x y : N) (text : cstr) (fg bg : N) : io unit :=
  match text with
  | [] => mret tt
  | ch :: text' =>
      _ ← runtime_display_demo_draw_fast_char_at cursor_x y ch fg bg;
      text_loop (u16 (cursor_x + DISPLAY_DEMO_GLYPH_W)) y text' fg bg
  end.

Definition runtime_display_demo_draw_fast_text_at (x y : N) (text : option cstr) (fg bg : N) : io unit :=
  match text with
  | None => mret tt
  | Some text => text_loop x y text fg bg
  end.

Definition runtime_display_demo_blit_scaled_glyph (x y : N) (pixels : list N) (scale : N) : io unit :=
  for_each 0 (N.to_nat DISPLAY_DEMO_GLYPH_H) (λ row,
    for_each 0 (N.to_nat scale) (λ y_repeat,
      for_each 0 (N.to_nat DISPLAY_DEMO_GLYPH_W) (λ col,
        pixel ← lift (aget pixels (u32 (row * DISPLAY_DEMO_GLYPH_W + col)));
        for_each 0 (N.to_nat scale) (λ x_repeat,
          _ ← fill_surface (Z.of_N (x + col * scale + x_repeat)) (Z.of_N (y + row * scale + y_repeat)) 1 1 pixel;
          mret tt)))).

Definition runtime_display_demo_draw_google_letter (x y : N) (text : option cstr) (color scale : N) : io unit :=
  match text with
  | None | Some [] => mret tt
  | Some (ch :: _) =>
      _ ← make_glyph ch color DISPLAY_DEMO_BACKGROUND;
      g ← get_globals;
      runtime_display_demo_blit_scaled_glyph x y (g_display_glyph_buffer g) scale
  end.

Definition runtime_display_demo_google_color_by_index (index : N) : N :=
  if index =? 0 then g_google_blue
  else if index =? 1 then g_google_red
  else if index =? 2 then g_google_yellow
  else if index =? 3 then g_google_blue
  else if index =? 4 then g_google_green
  else if index =? 5 then g_google_red
  else DISPLAY_DEMO_FOREGROUND.

(** The four numbers: x, y, glyph width and scale. *)
Definition runtime_display_demo_prepare_google_origin : N * N * N * N :=
  let local_glyph_scale := 3 in
  let local_glyph_width := u16 (DISPLAY_DEMO_GLYPH_W * local_glyph_scale) in
  let glyph_height := u16 (DISPLAY_DEMO_GLYPH_H * local_glyph_scale) in
  let text_width := u16 (local_glyph_width * 6) in
  (u16 (sub32 DISPLAY_DEMO_WIDTH text_width / 2), u16 (sub32 DISPLAY_DEMO_HEIGHT glyph_height / 2),
   local_glyph_width, local_glyph_scale).

Definition runtime_display_demo_draw_google_wordmark_stable_explicit : io unit :=
  let '(origin_x, origin_y, glyph_width, glyph_scale) := runtime_display_demo_prepare_google_origin in
  _ ← runtime_display_demo_draw_google_letter origin_x origin_y (Some g_display_google_g_upper) g_google_blue glyph_scale;
  _ ← runtime_display_demo_draw_google_letter (u16 (origin_x + glyph_width)) origin_y
        (Some g_display_google_o_first) g_google_red glyph_scale;
  _ ← runtime_display_demo_draw_google_letter (u16 (origin_x + glyph_width * 2)) origin_y
        (Some g_display_google_o_second) g_google_yellow glyph_scale;
  _ ← runtime_display_demo_draw_google_letter (u16 (origin_x + glyph_width * 3)) origin_y
        (Some g_display_google_g_lower) g_google_blue glyph_scale;
  _ ← runtime_display_demo_draw_google_letter (u16 (origin_x + glyph_width * 4)) origin_y
        (Some g_display_google_l) g_google_green glyph_scale;
  runtime_display_demo_draw_google_letter (u16 (origin_x + glyph_width * 5)) origin_y
    (Some g_display_google_e) g_google_red glyph_scale.

(** The loops of the other layouts over letters and colours. *)
Definition wordmark_loop (letters : list cstr) (color : N → option N) : io unit :=
  let '(origin_x, origin_y, glyph_width, glyph_scale) := runtime_display_demo_prepare_google_origin in
  for_each 0 6 (λ index,
    letter ← lift (aget letters index);
    color ← lift (color index);
    runtime_display_demo_draw_google_letter (u16 (origin_x + glyph_width * index)) origin_y (Some letter) color glyph_scale).

Definition google_letters : list cstr := [cs "G"; cs "o"; cs "o"; cs "g"; cs "l"; cs "e"].
Definition google_colors : list N := [0x001F; 0xF800; 0xFFE0; 0x001F; 0x07E0; 0xF800].

Definition runtime_display_demo_draw_google_wordmark_local_arrays : io unit :=
  wordmark_loop google_letters (aget google_colors).
Definition runtime_display_demo_draw_google_wordmark_rodata_dispatch : io unit :=
  wordmark_loop google_letters (aget google_colors).
Definition runtime_display_demo_draw_google_wordmark_switch_dispatch : io unit :=
  wordmark_loop google_letters (λ index, Some (runtime_display_demo_google_color_by_index index)).

Definition runtime_display_demo_draw_google_wordmark : io unit :=
  _ ← on_panel (esp32c3_panel_gc9a01_set_madctl 0x08);
  _ ← runtime_display_demo_clear_backbuffer DISPLAY_DEMO_BACKGROUND;
  if layout =? DISPLAY_DEMO_LAYOUT_EXPERIMENT_LOCAL_ARRAYS then runtime_display_demo_draw_google_wordmark_local_arrays
  else if layout =? DISPLAY_DEMO_LAYOUT_EXPERIMENT_RODATA_DISPATCH
  then runtime_display_demo_draw_google_wordmark_rodata_dispatch
  else if layout =? DISPLAY_DEMO_LAYOUT_EXPERIMENT_SWITCH_DISPATCH
  then runtime_display_demo_draw_google_wordmark_switch_dispatch
  else runtime_display_demo_draw_google_wordmark_stable_explicit.

(** ** Presenting *)

(** [front_pixels] is the buffer that the pointer points to. *)
Definition runtime_display_demo_flush_to_panel (front_pixels : option (list N)) (rect : option display_rect) : io unit :=
  match front_pixels, rect with
  | Some front_pixels, Some rect =>
      if (r_width rect =? 0) || (r_height rect =? 0) then mret tt
      else
        let rect_pixels := drop (N.to_nat (u32 (u32 (r_y rect * DISPLAY_DEMO_WIDTH) + r_x rect))) front_pixels in
        _ ← on_panel (esp32c3_panel_gc9a01_flush_rect_pixels (Some rect_pixels) DISPLAY_DEMO_WIDTH (Some rect));
        mret tt
  | _, _ => mret tt
  end.

Definition runtime_display_demo_render_frame (tick_value : N) : io unit :=
  g ← get_globals;
  set_globals (set_flags tick_value (g_display_ready_flag g) (g_display_initialized g) g).

(** Publishing, and flushing what was published; the status of the former. *)
Definition publish_and_flush : io Z :=
  g ← get_globals;
  let '(surface, _, status, published) := display_surface_publish tt (g_display_surface g) true in
  _ ← set_globals (set_picture (dm_memory g) surface g);
  match published with
  | Some (rect, front) =>
      front_pixels ← lift (dm_memory g !! front);
      _ ← runtime_display_demo_flush_to_panel (Some front_pixels) (Some rect);
      mret status
  | None => mret status
  end.

Definition runtime_display_demo_present_pending : io unit := _ ← publish_and_flush; mret tt.

Definition runtime_display_demo_init : io unit :=
  g ← get_globals;
  if nz (g_display_initialized g) then mret tt
  else
    _ ← reg_write RTC_CNTL_STORE0_REG 0xC100;
    _ ← on_console (console_log (Some g_display_tag) (Some g_display_init_start));
    _ ← on_panel esp32c3_panel_gc9a01_init;
    _ ← within dm_touch set_touch_state esp32c3_touch_cst816s_init;
    _ ← reg_write RTC_CNTL_STORE0_REG 0xC101;
    _ ← on_console (console_log (Some g_display_tag) (Some g_display_panel_init_done));
    _ ← on_panel (esp32c3_panel_gc9a01_fill_screen DISPLAY_DEMO_BACKGROUND);
    g ← get_globals;
    surface ← lift (display_surface_init (Some (g_display_surface g)) DISPLAY_DEMO_WIDTH DISPLAY_DEMO_HEIGHT
                      DISPLAY_DEMO_WIDTH (Some g_display_front_buffer) (Some g_display_back_buffer) None);
    _ ← set_globals (set_picture (dm_memory g) surface g);
    _ ← runtime_display_demo_clear_backbuffer DISPLAY_DEMO_BACKGROUND;
    _ ← for_each 0 (N.to_nat (DISPLAY_DEMO_WIDTH * DISPLAY_DEMO_HEIGHT)) (λ i,
          g ← get_globals;
          front ← lift (dm_memory g !! g_display_front_buffer);
          front ← lift (aset front i DISPLAY_DEMO_BACKGROUND);
          set_globals (set_picture (<[g_display_front_buffer := front]> (dm_memory g)) (g_display_surface g) g));
    g ← get_globals;
    _ ← set_globals (set_picture (dm_memory g) (display_surface_clear_damage (g_display_surface g)) g);
    g ← get_globals;
    _ ← set_globals (set_flags 0 1 1 g);
    _ ← reg_write RTC_CNTL_STORE0_REG 0xC102;
    _ ← on_console (console_log (Some g_display_tag) (Some g_display_mode));
    _ ← on_console (console_log (Some g_display_tag) (Some g_display_layout_mode));
    _ ← on_console (console_log (Some g_display_tag) (Some runtime_display_demo_layout_mode_name));
    _ ← on_console (console_log (Some g_display_tag) (Some g_display_ready));
    _ ← runtime_display_demo_draw_google_wordmark;
    _ ← runtime_display_demo_present_pending;
    runtime_display_demo_render_frame 0.

(** ** The interface *)

(** Behind [if (g_display_initialized == 0u) return result;]. *)
Definition when_initialized {A} (result : A) (m : io A) : io A :=
  g ← get_globals;
  if g_display_initialized g =? 0 then mret result else m.

Definition runtime_display_demo_publish_tick (tick_value : N) : io unit :=
  when_initialized tt
    (g ← get_globals;
     if sub32 tick_value (g_display_last_published_tick g) <? DISPLAY_DEMO_PUBLISH_GRANULARITY then mret tt
     else runtime_display_demo_render_frame tick_value).

Definition runtime_display_demo_poll : io unit := when_initialized tt (mret tt).

Definition runtime_display_demo_ready : io N := g ← get_globals; mret (g_display_ready_flag g).

Definition runtime_display_demo_clear (color : N) : io unit :=
  when_initialized tt
    (_ ← fill_surface 0 0 (Z.of_N DISPLAY_DEMO_WIDTH) (Z.of_N DISPLAY_DEMO_HEIGHT) color; mret tt).

Definition runtime_display_demo_fill_rect (x y width height : Z) (color : N) : io Z :=
  when_initialized RUNTIME_SYSCALL_STATUS_EINVAL (fill_surface x y width height color).

Definition runtime_display_demo_blit_rgb565 (x y width height : Z) (pixels : option (list N)) (source_stride : N) : io Z :=
  when_initialized RUNTIME_SYSCALL_STATUS_EINVAL (blit_surface x y width height pixels source_stride).

Definition runtime_display_demo_draw_text (x y : Z) (text : option cstr) (fg bg : N) : io unit :=
  if ((x <? 0) || (y <? 0))%Z then mret tt
  else runtime_display_demo_draw_fast_text_at (u16_of_Z x) (u16_of_Z y) text fg bg.

Definition runtime_display_demo_draw_char (x y : Z) (ch : ascii) (fg bg : N) : io unit :=
  if ((x <? 0) || (y <? 0))%Z then mret tt
  else runtime_display_demo_draw_fast_char_at (u16_of_Z x) (u16_of_Z y) ch fg bg.

Definition runtime_display_demo_has_pending_present (rect : bool) : io (bool * option display_rect) :=
  when_initialized (false, None)
    (g ← get_globals; mret (display_surface_has_pending_present (g_display_surface g) rect)).

Definition runtime_display_demo_present : io Z :=
  when_initialized RUNTIME_SYSCALL_STATUS_EINVAL
    (status ← publish_and_flush;
     mret (if negb (status =? RUNTIME_SYSCALL_STATUS_OK)%Z then RUNTIME_SYSCALL_STATUS_ENOENT
           else RUNTIME_SYSCALL_STATUS_OK)).

Definition runtime_display_demo_flush : io unit := _ ← runtime_display_demo_present; mret tt.

Definition runtime_display_demo_surface : io (option (display_surface unit)) :=
  g ← get_globals;
  mret (if nz (g_display_initialized g) then Some (g_display_surface g) else None).
End demo.
