(* ===== verification/DisplayDemoProofs.v ===== *)
(** * The display demonstration: from text to the panel

    Drawing changes the back buffer, presenting exchanges the buffers and
    sends the damaged rectangle, and the panel shows the text. *)

From S2P Require Import Prelude Soc Gpio Uart UsbSerialJtag Console ConsoleProofs DisplaySurface DisplaySurfaceProofs PanelGc9a01 PanelSpec PanelFrames PanelTheorems.
From S2P Require Import TouchCst816s TouchProofs TouchTheorems DisplayDemo SimDevice.

Local Open Scope N_scope.

(** ** What drawing leaves alone *)

Definition colors_ok (l : list N) : Prop := Forall (λ p, p < 65536) l.

(** Drawing on the buffer [a] changes that buffer, whose pixels stay pixels,
    and the damage. *)
Definition drawn_on {W} (mem : memory) (s : display_surface W) (mem' : memory) (s' : display_surface W) (a : N) : Prop :=
  (∃ rect dirty, s' = set_damage rect dirty s) ∧ (∀ b, b ≠ a → mem' !! b = mem !! b) ∧
  (∀ back back', mem !! a = Some back → mem' !! a = Some back' → colors_ok back → colors_ok back').

Lemma drawn_on_nothing {W} mem (s : display_surface W) a : drawn_on mem s mem s a.
Proof.
  split; [exists (ds_dirty_rect s), (ds_dirty s); by destruct s|]. split; [done|]. intros back back' H1 H2 H. congruence.
Qed.

Lemma mark_clipped_damage {W} (s s' : display_surface W) r status :
  mark_clipped s r = Some (s', status) → ∃ rect dirty, s' = set_damage rect dirty s.
Proof.
  unfold mark_clipped, display_surface_mark_dirty. destruct (display_surface_clip_rect _ _ _ _ _) as [[clip|]|]; cbn; [|intros [= <- _]|done].
  - destruct (ds_dirty s =? 0); intros [= <- _]; eauto.
  - exists (ds_dirty_rect s), (ds_dirty s). by destruct s.
Qed.

Lemma aset_colors l i v l' : colors_ok l → v < 65536 → aset l i v = Some l' → colors_ok l'.
Proof. unfold aset. intros Hl Hv H. destruct (_ <? _); [|done]. injection H as <-. by apply Forall_insert. Qed.

Lemma write_row_colors back offset col n pix back' :
  colors_ok back → (∀ c p, pix c = Some p → p < 65536) → write_row back offset col n pix = Some back' → colors_ok back'.
Proof.
  intros Hb Hp. revert back col Hb. induction n as [|n IH]; intros back col Hb; cbn [write_row]; [by intros [= <-]|].
  destruct (pix col) as [p|] eqn:E; [|done]. cbn [mbind option_bind].
  destruct (aset back (u32 (offset + col)) p) as [back1|] eqn:E1; [|done]. cbn [mbind option_bind]. apply IH.
  by eapply aset_colors; [|eapply Hp|].
Qed.

Lemma write_rows_colors back stride r row n pix back' :
  colors_ok back → (∀ y c p, pix y c = Some p → p < 65536) → write_rows back stride r row n pix = Some back' → colors_ok back'.
Proof.
  intros Hb Hp. revert back row Hb. induction n as [|n IH]; intros back row Hb; cbn [write_rows]; [by intros [= <-]|].
  destruct (write_row _ _ _ _ _) as [back1|] eqn:E; [|done]. cbn [mbind option_bind]. apply IH.
  by eapply write_row_colors; [| |exact E]; [done|intros c p; apply Hp].
Qed.

Lemma write_rect_drawn {W} mem (s : display_surface W) a r pix mem' s' status :
  (∀ y c p, pix y c = Some p → p < 65536) →
  write_rect mem s a r pix = Some mem' → mark_clipped s r = Some (s', status) → drawn_on mem s mem' s' a.
Proof.
  intros Hp Hw Hm. split; [by eapply mark_clipped_damage|]. unfold write_rect in Hw.
  destruct (mem !! a) as [back|] eqn:Ha; [|done]. cbn [mbind option_bind] in Hw.
  destruct (write_rows _ _ _ _ _ _) as [back1|] eqn:E; [|done]. cbn [mbind option_bind] in Hw. injection Hw as <-.
  split; [intros b Hb; by rewrite lookup_insert_ne|]. intros back0 back' [= <-] H Hb. rewrite lookup_insert_eq in H.
  injection H as <-. by eapply write_rows_colors.
Qed.

Lemma fill_drawn_on {W} mem (s : display_surface W) a x y width height color mem' s' status :
  ds_back s = Some a → color < 65536 →
  display_surface_fill_rect mem s x y width height color = Some (mem', s', status) → drawn_on mem s mem' s' a.
Proof.
  unfold display_surface_fill_rect. intros -> Hc H.
  destruct (display_surface_clip_rect _ _ _ _ _) as [[clip|]|]; cbn in H; [|injection H as <- <- _; apply drawn_on_nothing|done].
  destruct (write_rect _ _ _ _ _) as [mem1|] eqn:E; [|done]. cbn in H.
  destruct (mark_clipped s clip) as [[s1 st]|] eqn:Em; [|done]. cbn in H. injection H as <- <- _.
  eapply write_rect_drawn; [|exact E|exact Em]. by intros _ _ p [= <-].
Qed.

Lemma blit_drawn_on {W} mem (s : display_surface W) a x y width height source stride mem' s' status :
  ds_back s = Some a → colors_ok source →
  display_surface_blit_rgb565 mem s x y width height (Some source) stride = Some (mem', s', status) → drawn_on mem s mem' s' a.
Proof.
  unfold display_surface_blit_rgb565. intros -> Hc H. destruct (stride =? 0); [injection H as <- <- _; apply drawn_on_nothing|].
  destruct (display_surface_clip_rect _ _ _ _ _) as [[clip|]|]; cbn in H; [|injection H as <- <- _; apply drawn_on_nothing|done].
  destruct (write_rect _ _ _ _ _) as [mem1|] eqn:E; [|done]. cbn in H.
  destruct (mark_clipped s clip) as [[s1 st]|] eqn:Em; [|done]. cbn in H. injection H as <- <- _.
  eapply write_rect_drawn; [|exact E|exact Em]. intros yy c p Hp. cbv beta in Hp. rewrite aget_lookup in Hp.
  unfold colors_ok in Hc. rewrite Forall_lookup in Hc. eauto.
Qed.

(** ** Glyphs *)

(** Bit (column, row) of a character. *)
Definition glyph_bits (ch : ascii) (row : N) : N :=
  match runtime_display_demo_lookup_glyph ch with
  | Some (Some bitmap) => default 0 (bitmap !! N.to_nat row)
  | _ => 0
  end.
Definition glyph_color (ch : ascii) (fg bg row col : N) : N :=
  if N.testbit (glyph_bits ch row) (7 - col) then fg else bg.

Lemma glyph_mask bits col : col < 8 → nz (N.land bits (u8 (N.shiftr 0x80 col))) = N.testbit bits (7 - col).
Proof.
  intros Hc. assert (u8 (N.shiftr 0x80 col) = 2 ^ (7 - col)) as ->.
  { assert (col = 0 ∨ col = 1 ∨ col = 2 ∨ col = 3 ∨ col = 4 ∨ col = 5 ∨ col = 6 ∨ col = 7) as H by lia.
    by repeat (destruct H as [-> |H]; [done|]); subst. }
  unfold nz. destruct (N.testbit bits (7 - col)) eqn:E.
  - destruct (N.eqb_spec (N.land bits (2 ^ (7 - col))) 0) as [H0|]; [|done].
    apply (f_equal (λ v, N.testbit v (7 - col))) in H0. rewrite N.land_spec, E, N.pow2_bits_true in H0. done.
  - rewrite (proj2 (N.eqb_eq _ 0)); [done|]. apply N.bits_inj_0. intros n. rewrite N.land_spec, N.pow2_bits_eqb.
    destruct (N.eqb_spec (7 - col) n) as [<-|]; [by rewrite E|apply andb_false_r].
Qed.

Lemma glyph_row_spec bits fg bg row col n out :
  row < 8 → col + N.of_nat n = 8 → length out = 64%nat →
  ∃ out', glyph_row bits fg bg row col n out = Some out' ∧ length out' = 64%nat ∧
    ∀ i, aget out' i = if decide (row * 8 + col ≤ i < row * 8 + 8)
                       then Some (if N.testbit bits (7 - (i - row * 8)) then fg else bg) else aget out i.
Proof.
  intros Hr. revert col out. induction n as [|n IH]; intros col out Hc Hl; cbn [glyph_row].
  { exists out. split; [done|]. split; [done|]. intros i. by rewrite decide_False by lia. }
  rewrite u32_small by (unfold DISPLAY_DEMO_GLYPH_W; lia). unfold DISPLAY_DEMO_GLYPH_W. rewrite glyph_mask by lia.
  rewrite aset_Some by lia. cbn [mbind option_bind].
  destruct (IH (col + 1) (<[N.to_nat (row * 8 + col) := if N.testbit bits (7 - col) then fg else bg]> out))
    as (out' & H1 & H2 & H3); [lia|by rewrite length_insert|].
  exists out'. split; [done|]. split; [done|]. intros i. rewrite H3. rewrite !aget_lookup.
  destruct (decide (i = row * 8 + col)) as [->|Hne].
  - rewrite decide_False, decide_True by lia. rewrite list_lookup_insert_eq by lia.
    by replace (row * 8 + col - row * 8) with col by lia.
  - rewrite list_lookup_insert_ne by lia. repeat case_decide; done || lia.
Qed.

Lemma glyph_rows_spec bitmap fg bg row n out :
  (∀ r, r < 8 → is_Some (match bitmap with Some bitmap => aget bitmap r | None => Some 0 end)) →
  row + N.of_nat n = 8 → length out = 64%nat →
  ∃ out', glyph_rows bitmap fg bg row n out = Some out' ∧ length out' = 64%nat ∧
    ∀ r c, r < 8 → c < 8 → aget out' (r * 8 + c) =
      if decide (row ≤ r)
      then Some (if N.testbit (default 0 (match bitmap with Some bitmap => aget bitmap r | None => Some 0 end)) (7 - c) then fg else bg)
      else aget out (r * 8 + c).
Proof.
  intros Hb. revert row out. induction n as [|n IH]; intros row out Hr Hl; cbn [glyph_rows].
  { exists out. split; [done|]. split; [done|]. intros r c Hr' Hc. by rewrite decide_False by lia. }
  destruct (Hb row ltac:(lia)) as (bits & Hbits). rewrite Hbits. cbn [mbind option_bind].
  destruct (glyph_row_spec bits fg bg row 0 8 out ltac:(lia) eq_refl Hl) as (out1 & E1 & Hl1 & H1).
  change (N.to_nat DISPLAY_DEMO_GLYPH_W) with 8%nat. rewrite E1. cbn [mbind option_bind].
  destruct (IH (row + 1) out1 ltac:(lia) Hl1) as (out' & E' & Hl' & H'). exists out'. split; [done|]. split; [done|].
  intros r c Hr' Hc. rewrite H' by done. rewrite H1. destruct (decide (r = row)) as [->|Hne].
  - rewrite decide_False, !decide_True by lia. rewrite Hbits. cbn [default from_option id].
    by replace (row * 8 + c - row * 8) with c by lia.
  - repeat case_decide; done || lia.
Qed.

Lemma font_rows : length g_display_demo_font8x8 = 96%nat ∧ Forall (λ bitmap, length bitmap = 8%nat) g_display_demo_font8x8.
Proof. split; [done|]. by repeat constructor. Qed.

Lemma glyph_made ch fg bg out :
  length out = 64%nat →
  ∃ bitmap out', runtime_display_demo_lookup_glyph ch = Some bitmap ∧
    runtime_display_demo_make_glyph_pixels bitmap fg bg (Some out) = Some (Some out') ∧ length out' = 64%nat ∧
    ∀ r c, r < 8 → c < 8 → aget out' (r * 8 + c) = Some (glyph_color ch fg bg r c).
Proof.
  intros Hl. destruct font_rows as (Hn & Hrows).
  assert (∃ bitmap, runtime_display_demo_lookup_glyph ch = Some bitmap ∧
    ∀ r, r < 8 → match bitmap with Some bitmap => aget bitmap r | None => Some 0 end = Some (glyph_bits ch r)) as (bitmap & Hg & Hbits).
  { unfold glyph_bits, runtime_display_demo_lookup_glyph. cbn zeta.
    destruct (N.ltb_spec (code ch) 32); [by exists None|]. destruct (N.ltb_spec 127 (code ch)); [by exists None|]. cbn [orb].
    destruct (lookup_lt_is_Some_2 g_display_demo_font8x8 (N.to_nat (code ch - 32)) ltac:(lia)) as (bitmap & Hb).
    exists (Some bitmap). rewrite !aget_lookup, Hb. split; [done|]. intros r Hr. cbn [mbind option_bind].
    rewrite Forall_lookup in Hrows. specialize (Hrows _ _ Hb). rewrite aget_lookup.
    destruct (lookup_lt_is_Some_2 bitmap (N.to_nat r) ltac:(lia)) as (v & ->). done. }
  destruct (glyph_rows_spec bitmap fg bg 0 8 out) as (out' & E & Hl' & H'); [intros r Hr; rewrite Hbits by done; eauto|done|done|].
  exists bitmap, out'. split; [done|]. unfold runtime_display_demo_make_glyph_pixels.
  change (N.to_nat DISPLAY_DEMO_GLYPH_H) with 8%nat. rewrite E. split; [done|]. split; [done|].
  intros r c Hr Hc. rewrite H' by done. rewrite decide_True by lia. rewrite Hbits by done. done.
Qed.

(** ** The state of the demonstration *)

(** [back] is the buffer drawn on, [front] the one presented last; both
    have a full picture, and damage is inside the surface. *)
Record demo_ok (g : demo_state) (front back : N) : Prop := {
  do_ready : g_display_initialized g ≠ 0;
  do_front : ds_front (g_display_surface g) = Some front;
  do_apart : front ≠ back;
  do_back : surface_ok (dm_memory g) (g_display_surface g) back;
  do_size : ds_width (g_display_surface g) = 240 ∧ ds_height (g_display_surface g) = 240 ∧ ds_stride (g_display_surface g) = 240;
  do_pictures : ∀ b, b = front ∨ b = back → ∃ l, dm_memory g !! b = Some l ∧ length l = N.to_nat 57600 ∧ colors_ok l;
  do_glyph : length (g_display_glyph_buffer g) = 64%nat;
  do_line : line_ok (dm_line g)
}.

(** The pixel (X, Y) of the buffer that is drawn on. *)
Definition drawn_pixel (g : demo_state) (back X Y : N) : option N := pixel (dm_memory g) (g_display_surface g) back X Y.

Lemma drawn_keeps g front back mem' s' :
  demo_ok g front back → drawn_on (dm_memory g) (g_display_surface g) mem' s' back → surface_ok mem' s' back →
  demo_ok (set_picture mem' s' g) front back.
Proof.
  intros [Hi Hf Ha Hb (Hw & Hh & Hst) Hp Hg Hl] ((rect & dirty & ->) & Hother & Hcolors) Hs'.
  constructor; try done. intros b [-> | ->].
  - destruct (Hp front) as (l & Hlk & Hlen & Hc); [by left|]. exists l. cbn. by rewrite Hother.
  - destruct (Hp back) as (l & Hlk & Hlen & Hc); [by right|]. destruct (sf_pixels _ _ _ Hs') as (l' & Hlk' & Hlen').
    exists l'. split; [done|]. split; [|by eapply Hcolors]. cbn in Hlen'. rewrite Hst, Hh in Hlen'. lia.
Qed.

Section demo.
Context {HW : Type} `{!Bus HW, !SpiDevice HW}.
Implicit Types (h : HW) (g : demo_state).

(** The effect of drawing: [value] is the colour of the pixels drawn. *)
Definition drew_pixels (front back : N) (value : N → N → option N) g g' : Prop :=
  demo_ok g' front back ∧
  (∀ X Y, X < 240 → Y < 240 → drawn_pixel g' back X Y =
     match value X Y with Some color => Some color | None => drawn_pixel g back X Y end) ∧
  (∀ X Y, X < 240 → Y < 240 → damaged (g_display_surface g) X Y ∨ is_Some (value X Y) → damaged (g_display_surface g') X Y).

Lemma drew_nothing front back g : demo_ok g front back → drew_pixels front back (λ _ _, None) g g.
Proof. intros Hg. split; [done|]. split; [done|]. intros X Y _ _ [?|[? ?]]; done. Qed.

(** The glyph of a character, as the text has it at (x, y). *)
Definition char_at (x y : N) (ch : ascii) (fg bg X Y : N) : option N :=
  if (x <=? X) && (X <? x + 8) && (y <=? Y) && (Y <? y + 8) then Some (glyph_color ch fg bg (Y - y) (X - x)) else None.

Fixpoint text_at (x y : N) (text : cstr) (fg bg X Y : N) : option N :=
  match text with
  | [] => None
  | ch :: text' =>
      match char_at x y ch fg bg X Y with
      | Some color => Some color
      | None => text_at (x + 8) y text' fg bg X Y
      end
  end.

Lemma char_drawn x y ch fg bg front back g h :
  demo_ok g front back → x < 65536 → y < 65536 → fg < 65536 → bg < 65536 →
  runs (runtime_display_demo_draw_fast_char_at (HW := HW) x y ch fg bg) h g
    (λ _ h' g', h' = h ∧ drew_pixels front back (char_at x y ch fg bg) g g').
Proof.
  intros Hg Hx Hy Hfg Hbg. unfold runtime_display_demo_draw_fast_char_at, make_glyph.
  destruct (glyph_made ch fg bg (g_display_glyph_buffer g) (do_glyph _ _ _ Hg)) as (bitmap & glyph & Hlk & Hmk & Hlen & Hpix).
  apply runs_bind, runs_bind. apply (runs_lift _ bitmap); [done|]. apply runs_bind, runs_get_globals.
  apply runs_bind. eapply runs_lift; [exact Hmk|]. apply runs_set_globals. cbn [default from_option id].
  apply runs_bind, runs_get_globals. cbn [set_glyph g_display_glyph_buffer].
  set (g1 := set_glyph glyph g).
  assert (demo_ok g1 front back) as Hg1 by (destruct Hg; by constructor).
  change (Z.of_N DISPLAY_DEMO_GLYPH_W) with 8%Z. change (Z.of_N DISPLAY_DEMO_GLYPH_H) with 8%Z.
  assert (coordinates_ok (Z.of_N x) (Z.of_N y) 8 8) as Hco by (unfold coordinates_ok, INT32_MAX; lia).
  destruct (blit_paints (dm_memory g1) (g_display_surface g1) back (Z.of_N x) (Z.of_N y) 8 8 glyph DISPLAY_DEMO_GLYPH_W
    (do_back _ _ _ Hg1) Hco) as (mem' & s' & status & Hblit & Hs' & Hpixels & Hdamage & _); [done|rewrite Hlen; done|rewrite Hlen; done|].
  assert (colors_ok glyph) as Hcolors.
  { apply Forall_lookup. intros i p Hi. assert (i < 64)%nat as Hi64 by (rewrite <-Hlen; by eapply lookup_lt_Some).
    specialize (Hpix (N.of_nat i / 8) (N.of_nat i mod 8)). rewrite (N.mul_comm (N.of_nat i / 8)), <-N.div_mod in Hpix by done.
    rewrite aget_lookup, Nat2N.id, Hi in Hpix.
    assert (Some p = Some (glyph_color ch fg bg (N.of_nat i / 8) (N.of_nat i mod 8))) as [= ->].
    { apply Hpix; [apply N.Div0.div_lt_upper_bound; lia|by apply N.mod_lt]. }
    unfold glyph_color. by case_match. }
  unfold blit_surface. apply runs_bind, runs_bind, runs_get_globals, runs_bind. eapply runs_lift; [exact Hblit|].
  apply runs_bind, runs_set_globals, runs_ret, runs_ret. split; [done|]. cbn [fst snd].
  assert (drawn_on (dm_memory g1) (g_display_surface g1) mem' s' back) as Hdrawn.
  { eapply blit_drawn_on; [apply Hg1|exact Hcolors|exact Hblit]. }
  pose proof (do_size _ _ _ Hg) as (Hw & Hh & _).
  split; [by apply drawn_keeps|].
  assert (∀ X Y, char_at x y ch fg bg X Y =
    if decide (covers (Z.of_N x) (Z.of_N y) 8 8 X Y) then blit_value glyph DISPLAY_DEMO_GLYPH_W (Z.of_N x) (Z.of_N y) X Y else None) as Hchar.
  { intros X Y. unfold char_at. destruct (decide (covers (Z.of_N x) (Z.of_N y) 8 8 X Y)) as [Hc|Hc]; unfold covers in Hc.
    - rewrite (proj2 (N.leb_le x X)), (proj2 (N.ltb_lt X (x + 8))), (proj2 (N.leb_le y Y)), (proj2 (N.ltb_lt Y (y + 8))) by lia.
      cbn [andb]. rewrite <-Hpix by lia. rewrite aget_lookup. unfold blit_value, DISPLAY_DEMO_GLYPH_W. f_equal. lia.
    - destruct (N.leb_spec x X), (N.ltb_spec X (x + 8)), (N.leb_spec y Y), (N.ltb_spec Y (y + 8)); try done.
      exfalso. apply Hc. lia. }
  split.
  - intros X Y HX HY. unfold drawn_pixel. cbn [set_picture dm_memory g_display_surface].
    rewrite Hpixels by (cbn; lia). rewrite Hchar. destruct (decide _) as [Hc|Hc]; [|done].
    specialize (Hchar X Y). rewrite decide_True in Hchar by done. unfold char_at in Hchar. unfold covers in Hc.
    rewrite (proj2 (N.leb_le x X)), (proj2 (N.ltb_lt X (x + 8))), (proj2 (N.leb_le y Y)), (proj2 (N.ltb_lt Y (y + 8))) in Hchar by lia.
    cbn [andb] in Hchar. by rewrite <-Hchar.
  - intros X Y HX HY Hor. apply Hdamage; [cbn; lia|cbn; lia|]. destruct Hor as [?|Hc]; [by left|right].
    rewrite Hchar in Hc. destruct (decide _); [done|by destruct Hc].
Qed.

Lemma drew_then front back value value' g g1 g2 :
  drew_pixels front back value g g1 → drew_pixels front back value' g1 g2 →
  drew_pixels front back (λ X Y, match value' X Y with Some color => Some color | None => value X Y end) g g2.
Proof.
  intros (H1 & Hp1 & Hd1) (H2 & Hp2 & Hd2). split; [done|]. split.
  - intros X Y HX HY. rewrite Hp2 by done. destruct (value' X Y); [done|by apply Hp1].
  - intros X Y HX HY [?|Hv]; apply Hd2; [done|done|by left; apply Hd1; [done|done|left]|done|done|].
    destruct (value' X Y); [by right|]. left. apply Hd1; [done|done|by right].
Qed.

(** Glyphs do not overlap. *)
Lemma char_before_text x y ch text fg bg X Y :
  is_Some (char_at x y ch fg bg X Y) → text_at (x + 8) y text fg bg X Y = None.
Proof.
  intros Hc. assert (X < x + 8) as HX.
  { unfold char_at in Hc. destruct (N.ltb_spec X (x + 8)); [done|]. rewrite !andb_false_r in Hc. by destruct Hc. }
  assert (∀ x', X < x' → text_at x' y text fg bg X Y = None) as H; [|by apply H].
  clear Hc HX. induction text as [|ch' text IH]; intros x' Hx; [done|]. cbn [text_at]. unfold char_at.
  rewrite (proj2 (N.leb_gt x' X)) by done. cbn [andb]. apply IH. lia.
Qed.

Lemma text_drawn x y text fg bg front back g h :
  demo_ok g front back → x + 8 * N.of_nat (length text) ≤ 65536 → y < 65536 → fg < 65536 → bg < 65536 →
  runs (text_loop (HW := HW) x y text fg bg) h g
    (λ _ h' g', h' = h ∧ drew_pixels front back (text_at x y text fg bg) g g').
Proof.
  revert x g. induction text as [|ch text IH]; intros x g Hg Hx Hy Hfg Hbg; cbn [text_loop].
  { apply runs_ret. split; [done|]. by apply drew_nothing. }
  cbn [length] in Hx. apply runs_bind. eapply runs_weaken; [by apply (char_drawn x y ch fg bg front back); [|lia|..]|].
  intros [] h1 g1 (-> & H1). pose proof H1 as (Hg1 & _). destruct text as [|ch' text].
  - cbn [text_loop]. apply runs_ret. split; [done|]. destruct H1 as (H1 & Hp & Hd). split; [done|]. cbn [text_at]. split.
    + intros X Y HX HY. rewrite Hp by done. by destruct (char_at _ _ _ _ _ _ _).
    + intros X Y HX HY Hor. apply Hd; [done|done|]. by destruct (char_at _ _ _ _ _ _ _).
  - rewrite (u16_small (x + DISPLAY_DEMO_GLYPH_W)) by (unfold DISPLAY_DEMO_GLYPH_W; cbn [length] in Hx; lia).
    eapply runs_weaken; [apply (IH (x + 8)); [done|lia|done|done|done]|]. intros [] h2 g2 (-> & H2). split; [done|].
    destruct (drew_then _ _ _ _ _ _ _ H1 H2) as (Hg2 & Hp & Hd). split; [done|].
    assert (∀ X Y, text_at x y (ch :: ch' :: text) fg bg X Y =
      match text_at (x + 8) y (ch' :: text) fg bg X Y with Some color => Some color | None => char_at x y ch fg bg X Y end) as Heq.
    { intros X Y. change (text_at x y (ch :: ch' :: text) fg bg X Y) with
        (match char_at x y ch fg bg X Y with Some color => Some color | None => text_at (x + 8) y (ch' :: text) fg bg X Y end).
      destruct (char_at x y ch fg bg X Y) eqn:E; [by rewrite (char_before_text x y ch) by (by rewrite E)|].
      by destruct (text_at _ _ _ _ _ _ _). }
    split.
    + intros X Y HX HY. by rewrite Heq, Hp.
    + intros X Y HX HY. rewrite Heq. by apply Hd.
Qed.

(** ** Presenting *)

(** The pixel of the picture presented last. *)
Definition presented_pixel g (front X Y : N) : option N := pixel (dm_memory g) (g_display_surface g) front X Y.

(** What presenting does: the buffers are exchanged, the damage is gone, and
    the panel shows in the damaged rectangle what was drawn, and elsewhere
    what it showed before. *)
Definition presents (p : panel) (front back : N) h g h' g' : Prop :=
  demo_ok g' back front ∧ dm_memory g' = dm_memory g ∧ ds_dirty (g_display_surface g') = 0 ∧ panel_free h' ∧
  ∀ X Y, X < 240 → Y < 240 →
    Some (shown p h' X Y) = if decide (damaged (g_display_surface g) X Y) then drawn_pixel g back X Y else Some (shown p h X Y).

Lemma in_window_rect rect X Y : in_window rect X Y = bool_decide (in_rect rect X Y).
Proof.
  unfold in_window, in_rect. case_bool_decide as H.
  - by rewrite (proj2 (N.leb_le _ _)), (proj2 (N.ltb_lt X _)), (proj2 (N.leb_le _ _)), (proj2 (N.ltb_lt Y _)) by lia.
  - destruct (N.leb_spec (r_x rect) X), (N.ltb_spec X (r_x rect + r_width rect)), (N.leb_spec (r_y rect) Y),
      (N.ltb_spec Y (r_y rect + r_height rect)); try done. exfalso. apply H. lia.
Qed.

(** The damaged rectangle of the buffer goes to the panel. *)
Lemma flushed_rect rect pixels p h g :
  r_x rect + r_width rect ≤ 240 → r_y rect + r_height rect ≤ 240 →
  length pixels = N.to_nat 57600 → colors_ok pixels → line_ok (dm_line g) → panel_free h →
  runs (runtime_display_demo_flush_to_panel (HW := HW) (Some pixels) (Some rect)) h g
    (λ _ h' g', (∃ line, g' = set_line line g ∧ line_ok line) ∧ panel_free h' ∧
       ∀ X Y, X < 240 → Y < 240 → Some (shown p h' X Y) =
         if decide (in_rect rect X Y) then pixels !! N.to_nat (Y * 240 + X) else Some (shown p h X Y)).
Proof.
  intros Hx Hy Hlen Hc Hl Hf. cbn [runtime_display_demo_flush_to_panel].
  destruct (N.eqb_spec (r_width rect) 0) as [H0|Hw]; [|destruct (N.eqb_spec (r_height rect) 0) as [H0|Hh]].
  1-2: apply runs_ret; split; [exists (dm_line g); split; [by destruct g|done]|]; split; [done|]; intros X Y _ _;
    rewrite decide_False; [done|unfold in_rect; lia].
  cbn [orb]. apply runs_bind. unfold on_panel, DISPLAY_DEMO_WIDTH, ESP32C3_PANEL_GC9A01_WIDTH.
  assert (r_y rect * 240 + r_x rect < 57600) as Hstart by nia.
  rewrite (u32_small (r_y rect * 240)), u32_small by lia.
  cbn [esp32c3_panel_gc9a01_flush_rect_pixels]. change (240 =? 0) with false.
  rewrite (proj2 (N.ltb_ge 240 (r_width rect))) by lia.
  assert (on_screen (r_x rect) (r_y rect) (r_width rect) (r_height rect)) as Hs by (constructor; lia).
  rewrite (proj2 (flush_refused_false 240 rect) Hs). cbn [orb gc9a01_write_rect_pixels].
  rewrite (proj2 (N.ltb_ge 240 (r_width rect))), (proj2 (N.eqb_neq (r_width rect) 0)), (proj2 (N.eqb_neq (r_height rect) 0)) by lia.
  cbn [orb]. apply runs_within. eapply runs_weaken; [apply (flush_runs _ _ _ p); [exact Hs| |exact Hl|exact Hf]|].
  { constructor; [lia| |by apply Forall_drop]. rewrite length_drop, Hlen. nia. }
  intros status h' line' (_ & Hl' & Hf' & Hshown). apply runs_ret. split; [eauto|]. split; [done|].
  intros X Y HX HY. rewrite Hshown, in_window_rect. destruct (decide (in_rect rect X Y)) as [Hin|Hin];
    [rewrite bool_decide_eq_true_2 by done|by rewrite bool_decide_eq_false_2].
  rewrite lookup_drop. destruct Hin as (HinX & HinY).
  replace (N.to_nat (r_y rect * 240 + r_x rect) + N.to_nat ((Y - r_y rect) * 240 + (X - r_x rect)))%nat with (N.to_nat (Y * 240 + X)) by nia.
  destruct (lookup_lt_is_Some_2 pixels (N.to_nat (Y * 240 + X)) ltac:(rewrite Hlen; nia)) as (v & ->). done.
Qed.

Lemma publish_runs front back p h g :
  demo_ok g front back → panel_free h →
  runs (publish_and_flush (HW := HW)) h g
    (λ status h' g', if ds_dirty (g_display_surface g) =? 0 then status = RUNTIME_SYSCALL_STATUS_ENOENT ∧ h' = h ∧ g' = g
       else status = RUNTIME_SYSCALL_STATUS_OK ∧ presents p front back h g h' g').
Proof.
  intros Hg Hf. pose proof Hg as [Hi Hfr Ha Hb (Hw & Hh & Hst) Hp Hgl Hl].
  unfold publish_and_flush. apply runs_bind, runs_get_globals. unfold display_surface_publish.
  rewrite Hfr, (sf_back _ _ _ Hb). cbn [negb orb]. destruct (N.eqb_spec (ds_dirty (g_display_surface g)) 0) as [H0|H0].
  { apply runs_bind, runs_set_globals, runs_ret. split; [done|]. split; [done|]. by destruct g. }
  destruct (sf_damage _ _ _ Hb H0) as (Hrx & Hry). rewrite Hw in Hrx. rewrite Hh in Hry.
  destruct (Hp back) as (pixels & Hpix & Hlen & Hc); [by right|].
  apply runs_bind, runs_set_globals, runs_bind. eapply runs_lift; [exact Hpix|]. apply runs_bind.
  eapply runs_weaken; [by apply (flushed_rect _ pixels p)|]. intros [] h' g' ((line & -> & Hline) & Hf' & Hshown).
  apply runs_ret. split; [done|]. split_and!; [|done|done|done|].
  - constructor; try done; [|intros b [-> | ->]; apply Hp; auto].
    destruct (Hp front) as (l & Hlk & Hlen' & _); [by left|].
    constructor; try done; [|cbn; lia..]. exists l. split; [done|]. cbn. rewrite Hst, Hh. lia.
  - intros X Y HX HY. rewrite Hshown by done. unfold damaged. destruct (decide (in_rect (ds_dirty_rect (g_display_surface g)) X Y)) as [Hin|Hin].
    + rewrite decide_True by done. unfold drawn_pixel, pixel. rewrite Hpix. cbn [mbind option_bind]. by rewrite Hst, aget_lookup.
    + by rewrite decide_False by tauto.
Qed.

(** ** Theorems *)

Lemma when_ready {A} (result : A) (m : driver HW demo_state A) h g Q :
  g_display_initialized g ≠ 0 → runs m h g Q → runs (when_initialized result m) h g Q.
Proof.
  intros Hi Hm. unfold when_initialized. apply runs_bind, runs_get_globals. by rewrite (proj2 (N.eqb_neq _ 0)).
Qed.

Lemma present_runs front back p h g :
  demo_ok g front back → panel_free h →
  runs (runtime_display_demo_present (HW := HW)) h g
    (λ status h' g', if ds_dirty (g_display_surface g) =? 0 then status = RUNTIME_SYSCALL_STATUS_ENOENT ∧ h' = h ∧ g' = g
       else status = RUNTIME_SYSCALL_STATUS_OK ∧ presents p front back h g h' g').
Proof.
  intros Hg Hf. apply when_ready; [apply Hg|]. apply runs_bind.
  eapply runs_weaken; [by apply (publish_runs front back p)|]. intros status h' g' H. apply runs_ret.
  destruct (ds_dirty _ =? 0); destruct H as (-> & H); done.
Qed.

(** C32: presenting sends the damage to the panel: with nothing drawn since the
    last time, [runtime_display_demo_present] returns ENOENT and changes
    nothing; otherwise it returns OK, the panel shows the drawn picture in
    the damaged rectangle and what it showed before elsewhere, the two
    buffers have changed places, the damage is gone, and the controller is
    idle again. *)
Theorem present_shows_damage front back p h g :
  demo_ok g front back → panel_free h →
  runs (runtime_display_demo_present (HW := HW)) h g
    (λ status h' g', if ds_dirty (g_display_surface g) =? 0 then status = RUNTIME_SYSCALL_STATUS_ENOENT ∧ h' = h ∧ g' = g
       else status = RUNTIME_SYSCALL_STATUS_OK ∧ presents p front back h g h' g').
Proof. apply present_runs. Qed.

Lemma negative_text_draws_nothing x y text fg bg h g :
  (x < 0 ∨ y < 0)%Z → runtime_display_demo_draw_text (HW := HW) x y text fg bg h g = Some (h, g, tt).
Proof.
  intros H. unfold runtime_display_demo_draw_text.
  assert (((x <? 0) || (y <? 0))%Z = true) as ->; [|done]. apply orb_true_iff. rewrite !Z.ltb_lt. done.
Qed.

(** C30: text reaches the panel: after [runtime_display_demo_draw_text] at a
    position with 0 <= x, 0 <= y < 65536 from which the last character ends
    by column 65536 (x + 8 * length <= 65536, x < 65536), with colours of 16
    bits, and [runtime_display_demo_present], every pixel of the screen that
    belongs to a character of the text (eight by eight pixels each, side by
    side) shows the foreground colour where the font has a bit and the
    background colour elsewhere; the calls return, from any state of the
    initialised demo, and only when no pixel of the text is on the screen may
    the presentation report ENOENT.  (At a negative position nothing is drawn,
    [negative_text_draws_nothing]; past column 65535 the position wraps.) *)
Theorem text_reaches_panel x y text fg bg front back p h g :
  demo_ok g front back → panel_free h →
  x < 65536 → x + 8 * N.of_nat (length text) ≤ 65536 → y < 65536 → fg < 65536 → bg < 65536 →
  runs (_ ← runtime_display_demo_draw_text (HW := HW) (Z.of_N x) (Z.of_N y) (Some text) fg bg;
        runtime_display_demo_present) h g
    (λ status h' g',
       (status = RUNTIME_SYSCALL_STATUS_OK ∧ demo_ok g' back front ∧ panel_free h' ∧
        ∀ X Y color, X < 240 → Y < 240 → text_at x y text fg bg X Y = Some color → shown p h' X Y = color) ∨
       (status = RUNTIME_SYSCALL_STATUS_ENOENT ∧ h' = h ∧
        ∀ X Y, X < 240 → Y < 240 → text_at x y text fg bg X Y = None)).
Proof.
  intros Hg Hf Hx Hlen Hy Hfg Hbg. unfold runtime_display_demo_draw_text.
  rewrite (proj2 (Z.ltb_ge (Z.of_N x) 0)), (proj2 (Z.ltb_ge (Z.of_N y) 0)) by lia. cbn [orb].
  assert (∀ n, n < 65536 → u16_of_Z (Z.of_N n) = n) as Hcast.
  { intros n Hn. unfold u16_of_Z. rewrite Z.mod_small by lia. by rewrite N2Z.id. }
  rewrite !Hcast by done. cbn [runtime_display_demo_draw_fast_text_at].
  apply runs_bind. eapply runs_weaken; [by apply (text_drawn x y text fg bg front back)|].
  intros [] h1 g1 (-> & Hg1 & Hpix & Hdamage).
  eapply runs_weaken; [by apply (present_runs front back p)|]. intros status h' g' H.
  destruct (N.eqb_spec (ds_dirty (g_display_surface g1)) 0) as [H0|H0].
  - right. destruct H as (-> & -> & _). split; [done|]. split; [done|]. intros X Y HX HY.
    destruct (text_at x y text fg bg X Y) eqn:E; [|done].
    destruct (Hdamage X Y HX HY) as (Hd & _); [by right; rewrite E|done].
  - left. destruct H as (-> & Hg' & _ & _ & Hf' & Hshown). split; [done|]. split; [done|]. split; [done|].
    intros X Y color HX HY E. specialize (Hshown X Y HX HY).
    rewrite decide_True in Hshown by (apply Hdamage; [done|done|by right; rewrite E]).
    rewrite Hpix, E in Hshown by done. by injection Hshown.
Qed.
End demo.

(** ** Initialisation

    [runtime_display_demo_init] returns from any state of the hardware, and
    leaves a state that the theorems above apply to. *)

Section init.
Context {HW : Type} `{!Bus HW, !SpiDevice HW, !Processor HW, !UartDevice HW, !UsbDevice HW}.
Implicit Types (h : HW) (g : demo_state).

(** What the drivers below keep of their globals. *)
Definition parts_ok g : Prop := console_ok (dm_console g) ∧ length (g_interrupt_slots (dm_touch g)) = 22%nat.

(** The variables as the initialisers leave them. *)
Record demo_fresh g : Prop := {
  df_initialized : g_display_initialized g = 0;
  df_pictures : ∀ b, b = g_display_front_buffer ∨ b = g_display_back_buffer →
    ∃ l, dm_memory g !! b = Some l ∧ length l = N.to_nat 57600 ∧ colors_ok l;
  df_glyph : length (g_display_glyph_buffer g) = 64%nat;
  df_line : line_ok (dm_line g);
  df_parts : parts_ok g
}.

(** In the course of the initialisation; [i] is [g_display_initialized]. *)
Definition drawing (i front back : N) g : Prop :=
  demo_ok (set_flags 0 1 1 g) front back ∧ g_display_initialized g = i ∧ parts_ok g.

Lemma drawing_panel {A} (m : driver HW (list N) A) i front back :
  returns line_ok m → returns (drawing i front back) (on_panel m).
Proof.
  intros Hm. apply (returns_within line_ok); [done|intros g (Hg & _); apply (do_line _ _ _ Hg)|].
  intros part g ([] & Hi & Hp) Hl. split; [by constructor|done].
Qed.

Lemma drawing_console {A} (m : driver HW console_state A) i front back :
  returns console_ok m → returns (drawing i front back) (on_console m).
Proof.
  intros Hm. apply (returns_within console_ok); [done|by intros g (_ & _ & ? & _)|].
  intros part g ([] & Hi & _ & Hs) Hc. split; [by constructor|done].
Qed.

Lemma fill_returns x y width height color i front back :
  coordinates_ok x y width height → color < 65536 → returns (drawing i front back) (fill_surface (HW := HW) x y width height color).
Proof.
  intros Hco Hcolor. apply returns_get. intros h g (Hg & Hi & Hp).
  destruct (fill_rect_paints (dm_memory g) (g_display_surface g) back x y width height color (do_back _ _ _ Hg) Hco)
    as (mem' & s' & status & Hfill & Hs' & _).
  apply runs_bind. eapply runs_lift; [exact Hfill|]. apply runs_bind, runs_set_globals, runs_ret.
  split; [|done]. apply (drawn_keeps (set_flags 0 1 1 g)); [done| |done]. by eapply fill_drawn_on; [apply Hg|exact Hcolor|exact Hfill].
Qed.

(** A letter: the glyph, and its pixels as squares. *)
Lemma letter_returns x y text color scale i front back :
  x < 65536 → y < 65536 → color < 65536 → scale ≤ 8 →
  returns (drawing i front back) (runtime_display_demo_draw_google_letter (HW := HW) x y text color scale).
Proof.
  intros Hx Hy Hcolor Hscale. destruct text as [[|ch text]|]; [apply returns_ret| |apply returns_ret].
  intros h g (Hg & Hi & Hp). cbn [runtime_display_demo_draw_google_letter]. unfold make_glyph.
  destruct (glyph_made ch color DISPLAY_DEMO_BACKGROUND (g_display_glyph_buffer g) (do_glyph _ _ _ Hg))
    as (bitmap & glyph & Hlk & Hmk & Hlen & Hpix).
  apply runs_bind, runs_bind. apply (runs_lift _ bitmap); [done|]. apply runs_bind, runs_get_globals, runs_bind.
  eapply runs_lift; [exact Hmk|]. apply runs_set_globals, runs_bind, runs_get_globals. cbn [default from_option id set_glyph g_display_glyph_buffer].
  assert (∀ p, p ∈ glyph → p < 65536) as Hcolors.
  { intros p (k & Hk)%list_elem_of_lookup. assert (k < 64)%nat by (rewrite <-Hlen; by eapply lookup_lt_Some).
    specialize (Hpix (N.of_nat k / 8) (N.of_nat k mod 8)). rewrite (N.mul_comm (N.of_nat k / 8)), <-N.div_mod in Hpix by done.
    rewrite aget_lookup, Nat2N.id, Hk in Hpix. specialize (Hpix ltac:(apply N.Div0.div_lt_upper_bound; lia) ltac:(by apply N.mod_lt)).
    injection Hpix as ->. unfold glyph_color. by case_match. }
  unfold runtime_display_demo_blit_scaled_glyph.
  apply (returns_for (drawing i front back)); [|split; [destruct Hg; by constructor|done]].
  intros row Hrow. apply returns_for. intros yr Hyr. apply returns_for. intros col Hcol.
  unfold DISPLAY_DEMO_GLYPH_H, DISPLAY_DEMO_GLYPH_W in *.
  destruct (lookup_lt_is_Some_2 glyph (N.to_nat (row * 8 + col)) ltac:(lia)) as (p & Hp').
  intros h1 g1 Hg1. apply runs_bind, (runs_lift _ p); [rewrite aget_lookup, u32_small by lia; exact Hp'|].
  apply (returns_for (drawing i front back)); [|done]. intros xr Hxr. apply returns_bind; [|intros _; apply returns_ret].
  apply fill_returns; [unfold coordinates_ok, INT32_MAX; nia|]. apply Hcolors. by eapply list_elem_of_lookup_2.
Qed.

Lemma wordmark_returns layout i front back :
  returns (drawing i front back) (runtime_display_demo_draw_google_wordmark (HW := HW) layout).
Proof.
  assert (∀ letters color, (∀ k, k < 6 → is_Some (aget letters k) ∧ ∃ c, color k = Some c ∧ c < 65536) →
    returns (drawing i front back) (wordmark_loop (HW := HW) letters color)) as Hloop.
  { intros letters color Hlc. apply returns_for. intros k Hk. destruct (Hlc k ltac:(lia)) as ((l & Hl) & c & Hc & Hlt).
    intros h g Hg. apply runs_bind, (runs_lift _ l), runs_bind, (runs_lift _ c); [done..|].
    apply letter_returns; [by apply N.mod_lt|done|done|done|done]. }
  assert (∀ k, k < 6 → k = 0 ∨ k = 1 ∨ k = 2 ∨ k = 3 ∨ k = 4 ∨ k = 5) as H6 by lia.
  unfold runtime_display_demo_draw_google_wordmark, runtime_display_demo_clear_backbuffer. returning.
  - apply drawing_panel, madctl_returns.
  - by apply fill_returns.
  - apply Hloop. intros k [->|[->|[->|[->|[->| ->]]]]]%H6; (split; [by eexists|by eexists]).
  - apply Hloop. intros k [->|[->|[->|[->|[->| ->]]]]]%H6; (split; [by eexists|by eexists]).
  - apply Hloop. intros k [->|[->|[->|[->|[->| ->]]]]]%H6; (split; [by eexists|by eexists]).
  - unfold runtime_display_demo_draw_google_wordmark_stable_explicit. cbv beta iota zeta delta [runtime_display_demo_prepare_google_origin].
    returning; (apply letter_returns; [by vm_compute|by vm_compute|done|done]).
Qed.

Lemma publish_returns front back h g :
  drawing 1 front back g → runs (publish_and_flush (HW := HW)) h g (λ _ _ g', ∃ front back, drawing 1 front back g').
Proof.
  intros (Hg & Hi & Hparts). pose proof Hg as [_ Hfr Ha Hb (Hw & Hh & Hst) Hp Hgl Hl].
  cbn [set_flags dm_memory g_display_surface dm_line] in *.
  unfold publish_and_flush. apply runs_bind, runs_get_globals. unfold display_surface_publish.
  rewrite Hfr, (sf_back _ _ _ Hb). cbn [negb orb]. destruct (N.eqb_spec (ds_dirty (g_display_surface g)) 0) as [H0|H0].
  { apply runs_bind, runs_set_globals, runs_ret. exists front, back. split; [by destruct g|done]. }
  destruct (sf_damage _ _ _ Hb H0) as (Hrx & Hry). rewrite Hw in Hrx. rewrite Hh in Hry.
  destruct (Hp back) as (pixels & Hpix & Hlen & Hc); [by right|].
  apply runs_bind, runs_set_globals, runs_bind. eapply runs_lift; [exact Hpix|]. apply runs_bind.
  eapply (runs_weaken _ _ _ (λ _ _ g', drawing 1 back front g')); [|by intros [] h' g' Hg'; apply runs_ret; eauto].
  match goal with |- runs _ _ ?g1 _ => assert (drawing 1 back front g1) as Hg1 end.
  { split; [|done]. destruct (Hp front) as (l & Hlk & Hlen' & _); [by left|].
    constructor; try done; [|intros b [-> | ->]; apply Hp; auto].
    constructor; try done; [|cbn; lia..]. exists l. split; [done|]. cbn. rewrite Hst, Hh. lia. }
  revert Hg1. match goal with |- drawing _ _ _ ?g1 → _ => generalize g1 end. intros g1 Hg1.
  cbn [runtime_display_demo_flush_to_panel].
  destruct (N.eqb_spec (r_width (ds_dirty_rect (g_display_surface g))) 0); [by apply runs_ret|].
  destruct (N.eqb_spec (r_height (ds_dirty_rect (g_display_surface g))) 0); [by apply runs_ret|]. cbn [orb].
  apply runs_bind. eapply (runs_weaken _ _ _ (λ _ _ g', drawing 1 back front g')); [|by intros a h' g' Hg'; apply runs_ret].
  apply drawing_panel; [|done]. unfold DISPLAY_DEMO_WIDTH, ESP32C3_PANEL_GC9A01_WIDTH.
  rewrite (u32_small (_ * 240)), u32_small by nia.
  apply flush_returns; [by constructor; lia|]. constructor; [lia| |by apply Forall_drop]. rewrite length_drop, Hlen. nia.
Qed.

Lemma fresh_panel {A} (m : driver HW (list N) A) : returns line_ok m → returns demo_fresh (on_panel m).
Proof.
  intros Hm. apply (returns_within line_ok); [done|by intros g []|]. intros part g [] Hl. by constructor.
Qed.
Lemma fresh_console {A} (m : driver HW console_state A) : returns console_ok m → returns demo_fresh (on_console m).
Proof.
  intros Hm. apply (returns_within console_ok); [done|by intros g [_ _ _ _ []]|].
  intros part g [? ? ? ? []] Hl. by constructor.
Qed.
Lemma fresh_touch : returns demo_fresh (within dm_touch set_touch_state (esp32c3_touch_cst816s_init (HW := HW))).
Proof.
  apply (returns_within (λ t, length (g_interrupt_slots t) = 22%nat)); [apply touch_init_returns|by intros g [_ _ _ _ []]|]. intros part g [? ? ? ? []] Hl. by constructor.
Qed.

(** The surface of a fresh state. *)
Lemma surface_ready g surface :
  demo_fresh g → display_surface_init (Some (g_display_surface g)) DISPLAY_DEMO_WIDTH DISPLAY_DEMO_HEIGHT
    DISPLAY_DEMO_WIDTH (Some g_display_front_buffer) (Some g_display_back_buffer) None = Some surface →
  drawing 0 g_display_front_buffer g_display_back_buffer (set_picture (dm_memory g) surface g).
Proof.
  intros [Hi Hp Hg Hl Hparts] [= <-]. split; [|done]. constructor; try done.
  constructor; try done. destruct (Hp g_display_back_buffer) as (l & Hlk & Hlen & _); [by right|]. exists l. split; [done|].
  rewrite Hlen. by vm_compute.
Qed.

(** The loop over the front buffer. *)
Lemma front_returns i :
  returns (drawing i g_display_front_buffer g_display_back_buffer)
    (for_each 0 (N.to_nat (DISPLAY_DEMO_WIDTH * DISPLAY_DEMO_HEIGHT)) (λ i,
       g ← get_globals;
       front ← lift (dm_memory g !! g_display_front_buffer);
       front ← lift (aset front i DISPLAY_DEMO_BACKGROUND);
       set_globals (HW := HW) (set_picture (<[g_display_front_buffer := front]> (dm_memory g)) (g_display_surface g) g))).
Proof.
  apply returns_for. intros k Hk. rewrite N2Nat.id in Hk. change (DISPLAY_DEMO_WIDTH * DISPLAY_DEMO_HEIGHT) with 57600 in Hk.
  apply returns_get. intros h g ([Hi Hf Ha Hb Hs Hp Hg Hl] & Hi' & Hparts).
  cbn [set_flags dm_memory g_display_surface] in *.
  destruct (Hp g_display_front_buffer) as (l & Hlk & Hlen & Hc); [by left|].
  apply runs_bind. eapply runs_lift; [exact Hlk|].
  apply runs_bind. eapply runs_lift; [apply aset_Some; rewrite Hlen; lia|].
  apply runs_set_globals. split; [|done]. constructor; try done.
  - destruct Hb as [H1 (l' & Hl' & Hlen') H3 H4 H5 H6]. constructor; try done. exists l'. split; [|done].
    cbn. by rewrite lookup_insert_ne.
  - intros b [-> | ->]; cbn.
    + rewrite lookup_insert_eq. eexists. split; [done|]. split; [by rewrite length_insert|]. by apply Forall_insert.
    + rewrite lookup_insert_ne by done. apply Hp. by right.
Qed.

Lemma display_init_returns layout h g :
  demo_fresh g →
  runs (runtime_display_demo_init (HW := HW) layout) h g (λ _ _ g', parts_ok g' ∧ ∃ front back, demo_ok g' front back).
Proof.
  intros Hg. unfold runtime_display_demo_init. apply runs_bind, runs_get_globals. rewrite (df_initialized _ Hg). cbn [nz N.eqb negb].
  apply (runs_returns demo_fresh); [apply returns_write|done|]. intros _ h1 g1 Hg1.
  apply (runs_returns demo_fresh); [apply fresh_console, console_log_returns|done|]. intros _ h2 g2 Hg2.
  apply (runs_returns demo_fresh); [apply fresh_panel, panel_init_returns|done|]. intros _ h3 g3 Hg3.
  apply (runs_returns demo_fresh); [apply fresh_touch|done|]. intros _ h4 g4 Hg4.
  apply (runs_returns demo_fresh); [apply returns_write|done|]. intros _ h5 g5 Hg5.
  apply (runs_returns demo_fresh); [apply fresh_console, console_log_returns|done|]. intros _ h6 g6 Hg6.
  apply (runs_returns demo_fresh); [apply fresh_panel, fill_screen_returns|done|]. intros _ h7 g7 Hg7.
  apply runs_bind, runs_get_globals, runs_bind. eapply runs_lift; [reflexivity|]. apply runs_bind, runs_set_globals.
  eapply runs_returns; [|apply (surface_ready g7); [done|reflexivity]|].
  { unfold runtime_display_demo_clear_backbuffer. apply returns_bind; [by apply fill_returns|intros _; apply returns_ret]. }
  intros _ h8 g8 Hg8. eapply runs_returns; [apply front_returns|exact Hg8|]. intros _ h9 g9 (Hg9 & _ & Hp9).
  apply runs_bind, runs_get_globals, runs_bind, runs_set_globals, runs_bind, runs_get_globals, runs_bind, runs_set_globals.
  match goal with |- runs _ _ ?g10 _ => assert (drawing 1 g_display_front_buffer g_display_back_buffer g10) as Hg10 end.
  { split; [|done]. destruct Hg9 as [H1 H2 H3 [] H5 H6 H7 H8]. constructor; done. }
  revert Hg10. match goal with |- drawing _ _ _ ?g10 → _ => generalize g10 end. intros g10 Hg10.
  eapply runs_returns; [apply returns_write|exact Hg10|]. intros _ h11 g11 Hg11.
  do 4 (eapply runs_returns; [apply drawing_console, console_log_returns|eassumption|]; intros ? ? ? ?).
  eapply runs_returns; [apply wordmark_returns|eassumption|]. intros _ h16 g16 Hg16.
  apply runs_bind, runs_bind. eapply runs_weaken; [by eapply publish_returns|]. intros status h17 g17 (front & back & Hg17 & Hi & Hp17).
  apply runs_ret. unfold runtime_display_demo_render_frame. apply runs_bind, runs_get_globals, runs_set_globals.
  split; [done|]. exists front, back. destruct Hg17. constructor; try done. cbn. by rewrite Hi.
Qed.
End init.

(** ** On the simulated machine *)

Definition white_buffer : list N := replicate (N.to_nat 57600) 0xFFFF.

Definition demo_start : demo_state :=
  DemoState (<[1 := white_buffer]> (<[2 := white_buffer]> ∅)) (replicate 64 0)
    (Surface 240 240 240 (Some 1) (Some 2) (Rect 0 0 1 1) 1 0 None) 0 1 1 (replicate 240 0)
    (TouchState [] 0 0) (ConsoleState [] 0 0 0 (UsbSerialJtag.UsbState [] 0)).

Lemma white_buffer_ok : length white_buffer = N.to_nat 57600 ∧ colors_ok white_buffer.
Proof. split; [apply length_replicate|by apply Forall_replicate]. Qed.
#[local] Opaque white_buffer.

Lemma demo_start_ok : demo_ok demo_start 1 2.
Proof.
  constructor.
  - done.
  - done.
  - done.
  - constructor; [done| |done|done|done|by split].
    exists white_buffer. split; [cbn [demo_start dm_memory]; by rewrite lookup_insert_ne, lookup_insert_eq by done|].
    rewrite (proj1 white_buffer_ok), N2Nat.id. reflexivity.
  - split_and!; reflexivity.
  - intros b [-> | ->]; exists white_buffer; (split; [|exact white_buffer_ok]); cbn [demo_start dm_memory].
    + by rewrite lookup_insert_eq.
    + by rewrite lookup_insert_ne, lookup_insert_eq by done.
  - done.
  - split; [done|by apply Forall_replicate].
Qed.

Lemma present_shows_damage_witness :
  runs runtime_display_demo_present sim0 demo_start
    (λ status h' g', status = RUNTIME_SYSCALL_STATUS_OK ∧ presents blank_panel 1 2 sim0 demo_start h' g').
Proof. apply (present_shows_damage 1 2 blank_panel sim0 demo_start demo_start_ok). done. Defined.

Lemma text_reaches_panel_witness :
  runs (_ ← runtime_display_demo_draw_text 16 100 (Some (cs "Hi")) 0 0xFFFF; runtime_display_demo_present) sim0 demo_start
    (λ status h' g',
       (status = RUNTIME_SYSCALL_STATUS_OK ∧ demo_ok g' 2 1 ∧ panel_free h' ∧
        ∀ X Y color, X < 240 → Y < 240 → text_at 16 100 (cs "Hi") 0 0xFFFF X Y = Some color → shown blank_panel h' X Y = color) ∨
       (status = RUNTIME_SYSCALL_STATUS_ENOENT ∧ h' = sim0 ∧
        ∀ X Y, X < 240 → Y < 240 → text_at 16 100 (cs "Hi") 0 0xFFFF X Y = None)).
Proof. by apply (text_reaches_panel 16 100 (cs "Hi") 0 0xFFFF 1 2 blank_panel sim0 demo_start demo_start_ok). Defined.
