(* ===== verification/Interrupts.v ===== *)
(** * Interrupts, traps, the system timer and booting
    ([targets/esp32c3/src/interrupt.c], [arch/riscv/trap.c],
    [drivers/systimer.c], [targets/esp32c3/src/timer.c], [boot/boot.c])

    The handlers run over the globals of the scheduler, the console and the
    touch controller.  [panic_halt] does not return: a function that ends
    there has the result [TrapHalts].  The model performs the register
    accesses in the order of the code, so the [fence] instructions have
    nothing to do. *)

From S2P Require Import Prelude ProcessCore RuntimePolicy ReadyQueue Scheduler Soc Gpio Console PanelGc9a01 TouchCst816s.

Local Open Scope N_scope.

Definition CPU_GPIO_INTR_NUM : N := 3.
Definition CPU_SYSTIMER_INTR_NUM : N := 7.
Definition CPU_RTC_CORE_INTR_NUM : N := 2.
Definition CPU_INVALID_INTR_NUM : N := 6.
Definition CPU_SOFTWARE_TEST_INTR_NUM : N := 30.
Definition PERIPHERAL_INTERRUPT_SOURCE_COUNT : N := 62.
Definition INTR_TYPE_LEVEL : N := 0.
Definition INTR_TYPE_EDGE : N := 1.

Definition MTVEC : N := 0x305.
Definition MEPC : N := 0x341.

Definition DIAG_NONE : N := 0.
Definition DIAG_PRE_TIMER_STALL : N := 1.
Definition DIAG_TIMER_PATH_BAD : N := 2.
Definition DIAG_POST_TIMER_STALL : N := 3.
Definition DIAG_TRAP_EXCEPTION : N := 4.
Definition DIAG_SCHED_OR_STACK : N := 5.
Definition DIAGD_TIMER_VECTOR_BUT_ST0 : N := 0x0201.
Definition DIAGD_TIMER_RAW1_ST0 : N := 0x0202.
Definition DIAGD_TICK_SEEN_BUT_SWITCH_STOPPED : N := 0x0301.
Definition DIAGD_UNEXPECTED_INTERRUPT : N := 0x0601.
Definition DIAGD_EXCEPTION_MCAUSE : N := 0x0400.

Record irq_route_config := IrqRoute { ir_source : N; ir_cpu_interrupt_number : N; ir_priority : N; ir_type : N }.

Definition g_systimer_irq : irq_route_config :=
  IrqRoute ETS_SYSTIMER_TARGET0_INTR_SOURCE CPU_SYSTIMER_INTR_NUM 1 INTR_TYPE_LEVEL.

(** The routine at [ROM_INTR_MATRIX_SET_ADDR], on the machine: the core, the
    interrupt source and the line of the processor. *)
Class Rom (HW : Type) := rom_intr_matrix_set : N → N → N → HW → HW.

(** ** Routing *)

Section routing.
Context {HW : Type} `{!Bus HW, !Rom HW} {G : Type}.
Abbreviation io := (driver HW G).

Definition csr_set_bits_mstatus (value : N) : io unit :=
  mstatus ← csr_get MSTATUS;
  csr_set MSTATUS (N.lor mstatus value).

Definition trap_mtvec_read : io N := csr_get MTVEC.

Definition interrupt_matrix_route (source cpu_interrupt_number : N) : io unit :=
  λ h g, Some (rom_intr_matrix_set 0 source cpu_interrupt_number h, g, tt).

Definition interrupt_set_priority (cpu_interrupt_number priority : N) : io unit :=
  reg_write (INTERRUPT_CPU_INT_PRIO_REG cpu_interrupt_number) (N.land priority 0x7).

Definition interrupt_set_type (cpu_interrupt_number type : N) : io unit :=
  if type =? INTR_TYPE_EDGE then reg_set_bits INTERRUPT_CORE0_CPU_INT_TYPE_REG (BIT cpu_interrupt_number)
  else reg_clear_bits INTERRUPT_CORE0_CPU_INT_TYPE_REG (BIT cpu_interrupt_number).

Definition interrupt_enable_mask (mask : N) : io unit :=
  reg_set_bits INTERRUPT_CORE0_CPU_INT_ENABLE_REG mask.
Definition interrupt_disable_mask (mask : N) : io unit :=
  reg_clear_bits INTERRUPT_CORE0_CPU_INT_ENABLE_REG mask.
Definition interrupt_enable_read : io N := reg_read INTERRUPT_CORE0_CPU_INT_ENABLE_REG.
Definition interrupt_type_read : io N := reg_read INTERRUPT_CORE0_CPU_INT_TYPE_REG.
Definition interrupt_priority_read (cpu_interrupt_number : N) : io N :=
  reg_read (INTERRUPT_CPU_INT_PRIO_REG cpu_interrupt_number).

Definition interrupt_matrix_clear_all : io unit :=
  for_each 0 (N.to_nat PERIPHERAL_INTERRUPT_SOURCE_COUNT)
    (λ source, interrupt_matrix_route source CPU_INVALID_INTR_NUM).

Definition interrupt_route_disconnect_all : io unit :=
  _ ← interrupt_disable_mask 0xFFFFFFFF;
  _ ← reg_write INTERRUPT_CORE0_CPU_INT_CLEAR_REG 0xFFFFFFFF;
  _ ← reg_write RTC_CNTL_INT_ENA_REG 0;
  _ ← reg_write RTC_CNTL_INT_CLR_REG 0xFFFFFFFF;
  interrupt_matrix_clear_all.

Definition interrupt_route_connect (config : irq_route_config) : io unit :=
  interrupt_matrix_route (ir_source config) (ir_cpu_interrupt_number config).

Definition interrupt_cpu_line_configure (config : irq_route_config) : io unit :=
  _ ← reg_write RTC_CNTL_STORE1_REG (ir_source config);
  _ ← reg_write RTC_CNTL_STORE2_REG (ir_cpu_interrupt_number config);
  _ ← reg_write RTC_CNTL_STORE0_REG 0xD085;
  _ ← interrupt_set_priority (ir_cpu_interrupt_number config) (ir_priority config);
  _ ← reg_write RTC_CNTL_STORE0_REG 0xD086;
  _ ← interrupt_set_type (ir_cpu_interrupt_number config) (ir_type config);
  _ ← reg_write RTC_CNTL_STORE0_REG 0xD087;
  _ ← reg_write INTERRUPT_CURRENT_CORE_INT_THRESH_REG 0;
  reg_write RTC_CNTL_STORE0_REG 0xD088.

(** [reg_write(destination, reg_read(source))]. *)
Definition copy_reg (destination source : N) : io unit :=
  value ← reg_read source; reg_write destination value.

Definition interrupt_selfcheck_dump (config : irq_route_config) : io unit :=
  _ ← copy_reg RTC_CNTL_STORE4_REG (INTERRUPT_BASE + ir_source config * 4);
  enabled ← interrupt_enable_read;
  _ ← reg_write RTC_CNTL_STORE5_REG enabled;
  type ← interrupt_type_read;
  _ ← reg_write RTC_CNTL_STORE6_REG (if nz (N.land type (BIT (ir_cpu_interrupt_number config))) then 1 else 0);
  priority ← interrupt_priority_read (ir_cpu_interrupt_number config);
  reg_write RTC_CNTL_STORE7_REG priority.

Definition interrupts_init : io unit :=
  _ ← reg_write RTC_CNTL_STORE0_REG 0xD080;
  _ ← interrupt_route_disconnect_all;
  _ ← reg_write RTC_CNTL_STORE0_REG 0xD081;
  _ ← interrupt_route_connect g_systimer_irq;
  _ ← reg_write RTC_CNTL_STORE0_REG 0xD082;
  _ ← interrupt_cpu_line_configure g_systimer_irq;
  _ ← reg_write RTC_CNTL_STORE0_REG 0xD083;
  _ ← reg_write INTERRUPT_CORE0_CPU_INT_ENABLE_REG (BIT CPU_SYSTIMER_INTR_NUM);
  _ ← reg_write INTERRUPT_CORE0_CPU_INT_CLEAR_REG (BIT CPU_SYSTIMER_INTR_NUM);
  _ ← reg_write RTC_CNTL_STORE0_REG 0xD084;
  interrupt_selfcheck_dump g_systimer_irq.

Definition interrupts_init_software_test : io unit :=
  _ ← interrupt_disable_mask 0xFFFFFFFF;
  _ ← reg_write INTERRUPT_CORE0_CPU_INT_CLEAR_REG 0xFFFFFFFF;
  _ ← interrupt_matrix_clear_all;
  _ ← reg_write SYSTEM_CPU_INTR_FROM_CPU_0_REG 0;
  _ ← interrupt_matrix_route ETS_FROM_CPU_INTR0_SOURCE CPU_SOFTWARE_TEST_INTR_NUM;
  _ ← interrupt_set_priority CPU_SOFTWARE_TEST_INTR_NUM 1;
  _ ← interrupt_set_type CPU_SOFTWARE_TEST_INTR_NUM INTR_TYPE_LEVEL;
  _ ← reg_write INTERRUPT_CORE0_CPU_INT_CLEAR_REG (BIT CPU_SOFTWARE_TEST_INTR_NUM);
  _ ← reg_write INTERRUPT_CURRENT_CORE_INT_THRESH_REG 0;
  interrupt_enable_mask (BIT CPU_SOFTWARE_TEST_INTR_NUM).

Definition interrupts_enable : io unit :=
  _ ← reg_write RTC_CNTL_STORE0_REG 0xD100;
  _ ← reg_write RTC_CNTL_INT_ENA_REG 0;
  _ ← reg_write RTC_CNTL_INT_CLR_REG 0xFFFFFFFF;
  _ ← reg_write SYSTIMER_INT_CLR_REG SYSTIMER_TARGET0_INT_CLR_BIT;
  _ ← reg_write SYSTEM_CPU_INTR_FROM_CPU_0_REG 0;
  _ ← reg_write INTERRUPT_CORE0_CPU_INT_ENABLE_REG (BIT CPU_SYSTIMER_INTR_NUM);
  _ ← reg_write INTERRUPT_CORE0_CPU_INT_CLEAR_REG 0xFFFFFFFF;
  _ ← reg_write RTC_CNTL_STORE0_REG 0xD102;
  mtvec ← trap_mtvec_read;
  _ ← reg_write RTC_CNTL_STORE1_REG mtvec;
  _ ← copy_reg RTC_CNTL_STORE2_REG INTERRUPT_CORE0_CPU_INT_ENABLE_REG;
  _ ← copy_reg RTC_CNTL_STORE3_REG INTERRUPT_CORE0_CPU_INT_EIP_STATUS_REG;
  _ ← copy_reg RTC_CNTL_STORE4_REG (INTERRUPT_BASE + 0xF8);
  _ ← copy_reg RTC_CNTL_STORE5_REG (INTERRUPT_BASE + 0xFC);
  _ ← copy_reg RTC_CNTL_STORE6_REG SYSTIMER_INT_RAW_REG;
  _ ← copy_reg RTC_CNTL_STORE7_REG SYSTIMER_INT_ST_REG;
  _ ← reg_write RTC_CNTL_STORE0_REG 0xD104;
  _ ← csr_set_bits_mstatus (BIT 3);
  _ ← reg_write RTC_CNTL_STORE0_REG 0xD103;
  reg_write RTC_CNTL_STORE0_REG 0xD101.

Definition interrupts_ack (cpu_interrupt_number : N) : io unit :=
  reg_write INTERRUPT_CORE0_CPU_INT_CLEAR_REG (BIT cpu_interrupt_number).

Definition interrupts_trigger_software_test : io unit :=
  _ ← reg_write RTC_CNTL_STORE1_REG 0xC100;
  _ ← reg_write SYSTEM_CPU_INTR_FROM_CPU_0_REG SYSTEM_CPU_INTR_FROM_CPU_0_BIT;
  _ ← reg_write RTC_CNTL_STORE1_REG 0xC101;
  _ ← copy_reg RTC_CNTL_STORE4_REG SYSTEM_CPU_INTR_FROM_CPU_0_REG;
  copy_reg RTC_CNTL_STORE5_REG INTERRUPT_CORE0_CPU_INT_EIP_STATUS_REG.

Definition interrupts_trigger_line17_probe : io unit :=
  reg_write SYSTEM_CPU_INTR_FROM_CPU_0_REG SYSTEM_CPU_INTR_FROM_CPU_0_BIT.
End routing.

(** ** The system timer *)

Record systimer_state := SystimerState { g_systimer_initialized : Z; g_systimer_read_timeout_count : N }.

Definition SYSTIMER_READ_TIMEOUT_ITERATIONS : N := 100000.

Section systimer.
Context {HW : Type} `{!Bus HW}.
Abbreviation io := (driver HW systimer_state).

Definition systimer_unit0_init : io unit :=
  _ ← reg_set_bits SYSTEM_PERIP_CLK_EN0_REG SYSTEM_SYSTIMER_CLK_EN_BIT;
  _ ← reg_clear_bits SYSTEM_PERIP_RST_EN0_REG SYSTEM_SYSTIMER_RST_BIT;
  conf ← reg_read SYSTIMER_CONF_REG;
  let conf := N.lor conf (N.lor SYSTIMER_CLK_EN_BIT SYSTIMER_TIMER_UNIT0_WORK_EN_BIT) in
  let conf := N.ldiff conf SYSTIMER_TIMER_UNIT0_CORE0_STALL_EN_BIT in
  _ ← reg_write SYSTIMER_CONF_REG conf;
  _ ← reg_write SYSTIMER_UNIT0_LOAD_HI_REG 0;
  _ ← reg_write SYSTIMER_UNIT0_LOAD_LO_REG 0;
  _ ← reg_write SYSTIMER_UNIT0_LOAD_REG SYSTIMER_TIMER_UNIT0_LOAD_BIT;
  g ← get_globals;
  set_globals (SystimerState 1 (g_systimer_read_timeout_count g)).

(** The loop reads the register until the value is valid, as many times as
    the limit. *)
Definition systimer_unit0_read : io N :=
  _ ← reg_write SYSTIMER_UNIT0_OP_REG SYSTIMER_TIMER_UNIT0_UPDATE_BIT;
  valid ← try_times (N.succ_pos (SYSTIMER_READ_TIMEOUT_ITERATIONS - 1))
            (status ← reg_read SYSTIMER_UNIT0_OP_REG;
             mret (nz (N.land status SYSTIMER_TIMER_UNIT0_VALUE_VALID_BIT)));
  if negb valid then
    g ← get_globals;
    _ ← set_globals (SystimerState (g_systimer_initialized g) (u32 (g_systimer_read_timeout_count g + 1)));
    mret 0
  else
    hi ← reg_read SYSTIMER_UNIT0_VALUE_HI_REG;
    lo ← reg_read SYSTIMER_UNIT0_VALUE_LO_REG;
    mret (N.lor (N.shiftl (N.land hi 0xFFFFF) 32) lo).

Definition systimer_unit0_is_initialized : io Z := g ← get_globals; mret (g_systimer_initialized g).
Definition systimer_unit0_timeout_count : io N := g ← get_globals; mret (g_systimer_read_timeout_count g).
End systimer.

Definition SYSTIMER_TICK_PERIOD_MS : N := 1.
Definition SYSTIMER_TICKS_PER_US : N := 16.
Definition SYSTIMER_TICK_PERIOD_TICKS : N := 1000 * SYSTIMER_TICKS_PER_US.

Section tick.
Context {HW : Type} `{!Bus HW} {G : Type}.
Abbreviation io := (driver HW G).

(** [csrrci %0, mstatus, 8]. *)
Definition interrupts_save_disable : io N :=
  mstatus ← csr_get MSTATUS;
  _ ← csr_set MSTATUS (N.ldiff mstatus 8);
  mret mstatus.

(** [csrsi mstatus, 8]. *)
Definition interrupts_restore (mstatus : N) : io unit :=
  if nz (N.land mstatus (BIT 3)) then
    value ← csr_get MSTATUS;
    csr_set MSTATUS (N.lor value 8)
  else mret tt.

Definition systimer_tick_init : io unit :=
  conf ← reg_read SYSTIMER_TARGET0_CONF_REG;
  _ ← reg_set_bits SYSTEM_PERIP_CLK_EN0_REG SYSTEM_SYSTIMER_CLK_EN_BIT;
  _ ← reg_clear_bits SYSTEM_PERIP_RST_EN0_REG SYSTEM_SYSTIMER_RST_BIT;
  _ ← reg_set_bits SYSTIMER_CONF_REG (N.lor SYSTIMER_CLK_EN_BIT SYSTIMER_TIMER_UNIT0_WORK_EN_BIT);
  _ ← reg_clear_bits SYSTIMER_CONF_REG SYSTIMER_TIMER_UNIT0_CORE0_STALL_EN_BIT;
  _ ← reg_write SYSTIMER_UNIT0_LOAD_HI_REG 0;
  _ ← reg_write SYSTIMER_UNIT0_LOAD_LO_REG 0;
  _ ← reg_write SYSTIMER_UNIT0_LOAD_REG SYSTIMER_TIMER_UNIT0_LOAD_BIT;
  _ ← reg_write SYSTIMER_INT_CLR_REG SYSTIMER_TARGET0_INT_CLR_BIT;
  _ ← reg_clear_bits SYSTIMER_INT_ENA_REG SYSTIMER_TARGET0_INT_ENA_BIT;
  _ ← reg_clear_bits SYSTIMER_CONF_REG SYSTIMER_TARGET0_WORK_EN_BIT;
  let conf := N.ldiff conf (N.lor (N.lor SYSTIMER_TARGET0_PERIOD_MASK SYSTIMER_TARGET0_PERIOD_MODE_BIT)
                              SYSTIMER_TARGET0_TIMER_UNIT_SEL_BIT) in
  let oneshot_conf := conf in
  let period_conf := N.lor (N.lor conf SYSTIMER_TICK_PERIOD_TICKS) SYSTIMER_TARGET0_PERIOD_MODE_BIT in
  _ ← reg_write SYSTIMER_TARGET0_CONF_REG oneshot_conf;
  _ ← reg_write SYSTIMER_TARGET0_CONF_REG (N.lor oneshot_conf SYSTIMER_TICK_PERIOD_TICKS);
  _ ← reg_write SYSTIMER_COMP0_LOAD_REG SYSTIMER_TIMER_COMP0_LOAD_BIT;
  _ ← reg_set_bits SYSTIMER_CONF_REG SYSTIMER_TARGET0_WORK_EN_BIT;
  _ ← reg_write SYSTIMER_TARGET0_CONF_REG period_conf;
  _ ← reg_write SYSTIMER_INT_CLR_REG SYSTIMER_TARGET0_INT_CLR_BIT;
  _ ← reg_set_bits SYSTIMER_INT_ENA_REG SYSTIMER_TARGET0_INT_ENA_BIT;
  _ ← reg_write SYSTIMER_INT_CLR_REG SYSTIMER_TARGET0_INT_CLR_BIT;
  _ ← copy_reg RTC_CNTL_STORE1_REG SYSTIMER_CONF_REG;
  _ ← copy_reg RTC_CNTL_STORE2_REG SYSTIMER_TARGET0_CONF_REG;
  _ ← copy_reg RTC_CNTL_STORE4_REG SYSTIMER_UNIT0_VALUE_LO_REG;
  _ ← copy_reg RTC_CNTL_STORE5_REG SYSTIMER_INT_ENA_REG;
  _ ← copy_reg RTC_CNTL_STORE6_REG SYSTIMER_INT_RAW_REG;
  copy_reg RTC_CNTL_STORE7_REG SYSTIMER_INT_ST_REG.
End tick.

(** ** The tick *)

Section isr.
Context {HW : Type} `{!Bus HW} (CONFIG_SCHEDULER_PREEMPTIVE : bool).
Abbreviation io := (driver HW scheduler).

Definition timer_get {A} (f : timer_state → A) : io A := s ← get_globals; mret (f (g_timer s)).
Definition timer_set (f : timer_state → timer_state) : io unit :=
  s ← get_globals; set_globals (set_timer (f (g_timer s)) s).

(** [++g_kernel_ticks; ++g_kernel_tick_log_counter; ++g_long_run_tick_window]. *)
Definition count_tick (t : timer_state) : timer_state :=
  let 'Timer ticks log last stalled milestone window latched := t in
  Timer (u64 (ticks + 1)) (u32 (log + 1)) last stalled milestone (u32 (window + 1)) latched.
Definition set_switches_seen (last stalled : N) (t : timer_state) : timer_state :=
  let 'Timer ticks log _ _ milestone window latched := t in Timer ticks log last stalled milestone window latched.
Definition set_tick_log (log : N) (t : timer_state) : timer_state :=
  let 'Timer ticks _ last stalled milestone window latched := t in Timer ticks log last stalled milestone window latched.
Definition set_long_run (milestone window : N) (t : timer_state) : timer_state :=
  let 'Timer ticks log last stalled _ _ latched := t in Timer ticks log last stalled milestone window latched.

(** The comparison of the switch count with the last tick's. *)
Definition watch_switches (switch_count : N) : io unit :=
  last ← timer_get g_last_tick_switch_count;
  if switch_count =? last then
    _ ← timer_set (λ t, set_switches_seen last (u32 (g_stalled_tick_windows t + 1)) t);
    stalled ← timer_get g_stalled_tick_windows;
    if 4 <=? stalled then
      _ ← reg_write RTC_CNTL_STORE5_REG DIAG_POST_TIMER_STALL;
      _ ← reg_write RTC_CNTL_STORE6_REG DIAGD_TICK_SEEN_BUT_SWITCH_STOPPED;
      reg_write RTC_CNTL_STORE7_REG switch_count
    else mret tt
  else timer_set (set_switches_seen switch_count 0).

Definition watch_long_run (switch_count : N) : io unit :=
  window ← timer_get g_long_run_tick_window;
  if window =? 5000 then
    _ ← timer_set (λ t, set_long_run (g_long_run_milestone_counter t) 0 t);
    _ ← timer_set (λ t, set_long_run (u32 (g_long_run_milestone_counter t + 1)) (g_long_run_tick_window t) t);
    milestone ← timer_get g_long_run_milestone_counter;
    _ ← reg_write RTC_CNTL_STORE1_REG milestone;
    _ ← reg_write RTC_CNTL_STORE2_REG switch_count;
    ticks ← timer_get g_kernel_ticks;
    reg_write RTC_CNTL_STORE3_REG (u32 ticks)
  else mret tt.

(** With the register accesses, which [Scheduler.systimer_tick_isr] leaves
    out. *)
Definition systimer_tick_isr : io unit :=
  int_st ← reg_read SYSTIMER_INT_ST_REG;
  if nz (N.land int_st SYSTIMER_TARGET0_INT_ST_BIT) then
    s ← get_globals;
    let switch_count := scheduler_switch_count_read s in
    _ ← reg_write SYSTIMER_INT_CLR_REG SYSTIMER_TARGET0_INT_CLR_BIT;
    _ ← timer_set count_tick;
    s ← get_globals;
    s ← lift (process_tick CONFIG_SCHEDULER_PREEMPTIVE (g_kernel_ticks (g_timer s)) s);
    _ ← set_globals s;
    ticks ← timer_get g_kernel_ticks;
    _ ← (if ticks =? 1 then
           _ ← reg_write RTC_CNTL_STORE0_REG 0xC001;
           _ ← copy_reg RTC_CNTL_STORE6_REG SYSTIMER_INT_RAW_REG;
           reg_write RTC_CNTL_STORE7_REG int_st
         else mret tt);
    _ ← watch_switches switch_count;
    log ← timer_get g_kernel_tick_log_counter;
    _ ← (if log =? 1000 then
           _ ← timer_set (set_tick_log 0);
           reg_write RTC_CNTL_STORE0_REG 0xC3E8
         else mret tt);
    watch_long_run switch_count
  else
    int_raw ← reg_read SYSTIMER_INT_RAW_REG;
    _ ← reg_write RTC_CNTL_STORE5_REG DIAG_TIMER_PATH_BAD;
    _ ← reg_write RTC_CNTL_STORE6_REG
          (if nz (N.land int_raw SYSTIMER_TARGET0_INT_ST_BIT) then DIAGD_TIMER_RAW1_ST0 else DIAGD_TIMER_VECTOR_BUT_ST0);
    reg_write RTC_CNTL_STORE7_REG int_st.

Definition kernel_ticks_read : io N :=
  mstatus ← interrupts_save_disable;
  ticks ← timer_get g_kernel_ticks;
  _ ← interrupts_restore mstatus;
  mret ticks.
End isr.

(** ** Traps *)

(** The globals of [trap.c], and those of the files its handlers call. *)
Record trap_state := TrapState {
  g_timer_interrupt_seen : N;
  g_preempt_redirect_seen : N;
  g_trap_preempt_resume_pc : N;
  tr_scheduler : scheduler;
  tr_console : console_state;
  tr_touch : touch_state;
  tr_systimer : systimer_state
}.

Definition set_timer_seen (v : N) (g : trap_state) : trap_state :=
  let 'TrapState _ b c s k t y := g in TrapState v b c s k t y.
Definition set_redirect_seen (v : N) (g : trap_state) : trap_state :=
  let 'TrapState a _ c s k t y := g in TrapState a v c s k t y.
Definition set_resume_pc (v : N) (g : trap_state) : trap_state :=
  let 'TrapState a b _ s k t y := g in TrapState a b v s k t y.
Definition set_tr_scheduler (v : scheduler) (g : trap_state) : trap_state :=
  let 'TrapState a b c _ k t y := g in TrapState a b c v k t y.
Definition set_tr_console (v : console_state) (g : trap_state) : trap_state :=
  let 'TrapState a b c s _ t y := g in TrapState a b c s v t y.
Definition set_tr_touch (v : touch_state) (g : trap_state) : trap_state :=
  let 'TrapState a b c s k _ y := g in TrapState a b c s k v y.
Definition set_tr_systimer (v : systimer_state) (g : trap_state) : trap_state :=
  let 'TrapState a b c s k t _ := g in TrapState a b c s k t v.

Inductive trap_outcome := TrapReturns | TrapHalts.

Section traps.
Context {HW : Type} `{!Bus HW, !Rom HW} (CONFIG_SCHEDULER_PREEMPTIVE : bool).
(** The addresses of the vector table and of the assembly trampoline. *)
Context (mtvec_base preempt_return_trampoline : N).
Abbreviation io := (driver HW trap_state).

Definition on_scheduler {A} (m : driver HW scheduler A) : io A := within tr_scheduler set_tr_scheduler m.
Definition on_console {A} (m : driver HW console_state A) : io A := within tr_console set_tr_console m.
Definition on_systimer {A} (m : driver HW systimer_state A) : io A := within tr_systimer set_tr_systimer m.

Definition trap_init : io unit := csr_set MTVEC (u32 (N.lor mtvec_base 1)).

Definition trap_timer_interrupt_seen : io N := g ← get_globals; mret (g_timer_interrupt_seen g).

(** [scheduler_preempt_supported() && ... && process_current_pid() != 0u]. *)
Definition may_redirect (s : scheduler) : bool :=
  scheduler_preempt_supported CONFIG_SCHEDULER_PREEMPTIVE &&
  scheduler_preempt_pending (g_scheduler_preempt_state s) &&
  (preempt_disable_depth (g_scheduler_preempt_state s) =? 0) && negb (process_current_pid s =? 0).

(** The interrupted process continues in the trampoline. *)
Definition redirect_to_trampoline : io unit :=
  g ← get_globals;
  _ ← (if g_preempt_redirect_seen g =? 0 then
         _ ← set_globals (set_redirect_seen 1 g);
         _ ← reg_write RTC_CNTL_STORE5_REG 0xE108;
         mepc ← csr_get MEPC;
         _ ← reg_write RTC_CNTL_STORE6_REG mepc;
         s ← on_scheduler get_globals;
         reg_write RTC_CNTL_STORE7_REG (scheduler_switch_count_read s)
       else mret tt);
  mepc ← csr_get MEPC;
  g ← get_globals;
  _ ← set_globals (set_resume_pc mepc g);
  s ← on_scheduler get_globals;
  _ ← on_scheduler (set_globals (set_preempt (scheduler_preempt_clear_pending (g_scheduler_preempt_state s)) s));
  csr_set MEPC preempt_return_trampoline.

Definition trap_systimer : io unit :=
  software ← reg_read SYSTEM_CPU_INTR_FROM_CPU_0_REG;
  if nz (N.land software SYSTEM_CPU_INTR_FROM_CPU_0_BIT) then
    _ ← reg_write RTC_CNTL_STORE0_REG 0xE117;
    _ ← copy_reg RTC_CNTL_STORE4_REG INTERRUPT_CORE0_CPU_INT_EIP_STATUS_REG;
    _ ← copy_reg RTC_CNTL_STORE6_REG SYSTEM_CPU_INTR_FROM_CPU_0_REG;
    _ ← copy_reg RTC_CNTL_STORE7_REG SYSTIMER_INT_ST_REG;
    _ ← reg_write SYSTEM_CPU_INTR_FROM_CPU_0_REG 0;
    interrupts_ack CPU_SYSTIMER_INTR_NUM
  else
    raw ← reg_read SYSTIMER_INT_RAW_REG;
    ticking ← (if nz (N.land raw SYSTIMER_TARGET0_INT_ST_BIT) then mret true
               else
                 status ← reg_read SYSTIMER_INT_ST_REG;
                 mret (nz (N.land status SYSTIMER_TARGET0_INT_ST_BIT)));
    if ticking : bool then
      g ← get_globals;
      _ ← (if g_timer_interrupt_seen g =? 0 then
             _ ← set_globals (set_timer_seen 1 g);
             _ ← reg_write RTC_CNTL_STORE0_REG 0xE107;
             _ ← copy_reg RTC_CNTL_STORE4_REG INTERRUPT_CORE0_CPU_INT_EIP_STATUS_REG;
             _ ← copy_reg RTC_CNTL_STORE6_REG SYSTIMER_INT_RAW_REG;
             copy_reg RTC_CNTL_STORE7_REG SYSTIMER_INT_ST_REG
           else mret tt);
      _ ← on_scheduler (systimer_tick_isr CONFIG_SCHEDULER_PREEMPTIVE);
      s ← on_scheduler get_globals;
      _ ← (if may_redirect s then redirect_to_trampoline else mret tt);
      interrupts_ack CPU_SYSTIMER_INTR_NUM
    else
      _ ← reg_write RTC_CNTL_STORE0_REG 0xE110;
      _ ← copy_reg RTC_CNTL_STORE4_REG SYSTIMER_INT_RAW_REG;
      _ ← copy_reg RTC_CNTL_STORE6_REG SYSTIMER_INT_ST_REG;
      _ ← copy_reg RTC_CNTL_STORE7_REG INTERRUPT_CORE0_CPU_INT_EIP_STATUS_REG;
      interrupts_ack CPU_SYSTIMER_INTR_NUM.

Definition trap_gpio : io unit :=
  status ← reg_read GPIO_STATUS_REG;
  let pending := N.land status 0x003FFFFF in
  _ ← (if nz pending then
         _ ← reg_write RTC_CNTL_STORE0_REG 0xE130;
         _ ← reg_write RTC_CNTL_STORE4_REG pending;
         _ ← reg_write GPIO_STATUS_W1TC_REG pending;
         within tr_touch set_tr_touch (esp32c3_gpio_interrupt_dispatch g_interrupt_slots call_pin_handler pending)
       else mret tt);
  interrupts_ack CPU_GPIO_INTR_NUM.

Definition trap_interrupt_c (mcause : N) : io trap_outcome :=
  let line := N.ldiff mcause MCAUSE_INTERRUPT_BIT in
  if line =? CPU_SOFTWARE_TEST_INTR_NUM then
    _ ← reg_write RTC_CNTL_STORE0_REG 0xE11C;
    _ ← reg_write SYSTEM_CPU_INTR_FROM_CPU_0_REG 0;
    _ ← interrupts_ack CPU_SOFTWARE_TEST_INTR_NUM;
    _ ← on_console (console_log (Some (cs "INTR")) (Some (cs "software interrupt")));
    mret TrapReturns
  else if line =? CPU_RTC_CORE_INTR_NUM then
    _ ← reg_write RTC_CNTL_STORE0_REG 0xE102;
    _ ← copy_reg RTC_CNTL_STORE4_REG RTC_CNTL_INT_RAW_REG;
    _ ← copy_reg RTC_CNTL_STORE5_REG RTC_CNTL_INT_ST_REG;
    _ ← copy_reg RTC_CNTL_STORE6_REG RTC_CNTL_INT_ENA_REG;
    _ ← copy_reg RTC_CNTL_STORE7_REG INTERRUPT_CORE0_CPU_INT_EIP_STATUS_REG;
    _ ← reg_write RTC_CNTL_INT_CLR_REG 0xFFFFFFFF;
    _ ← interrupts_ack CPU_RTC_CORE_INTR_NUM;
    mret TrapReturns
  else if line =? CPU_SYSTIMER_INTR_NUM then _ ← trap_systimer; mret TrapReturns
  else if line =? CPU_GPIO_INTR_NUM then _ ← trap_gpio; mret TrapReturns
  else
    _ ← reg_write RTC_CNTL_STORE0_REG (N.lor 0xE100 (N.land mcause 0xFF));
    _ ← reg_write RTC_CNTL_STORE5_REG DIAG_TIMER_PATH_BAD;
    _ ← reg_write RTC_CNTL_STORE6_REG DIAGD_UNEXPECTED_INTERRUPT;
    _ ← copy_reg RTC_CNTL_STORE7_REG INTERRUPT_CORE0_CPU_INT_EIP_STATUS_REG;
    _ ← on_console (console_log_hex32 (Some (cs "TRAP")) (Some (cs "unexpected interrupt mcause=")) mcause);
    mret TrapHalts.

Definition trap_exception_c (mcause mepc mtval : N) : io trap_outcome :=
  _ ← reg_write RTC_CNTL_STORE0_REG (N.lor 0xE200 (N.land mcause 0xFF));
  _ ← reg_write RTC_CNTL_STORE5_REG DIAG_TRAP_EXCEPTION;
  _ ← reg_write RTC_CNTL_STORE6_REG (N.lor DIAGD_EXCEPTION_MCAUSE (N.land mcause 0xFF));
  _ ← reg_write RTC_CNTL_STORE7_REG mepc;
  _ ← reg_write RTC_CNTL_STORE2_REG mepc;
  _ ← reg_write RTC_CNTL_STORE3_REG mtval;
  _ ← on_console (console_log_hex32 (Some (cs "TRAP")) (Some (cs "exception mcause=")) mcause);
  _ ← on_console (console_log_hex32 (Some (cs "TRAP")) (Some (cs "exception mepc=")) mepc);
  _ ← on_console (console_log_hex32 (Some (cs "TRAP")) (Some (cs "exception mtval=")) mtval);
  _ ← csr_set MEPC (u32 (mepc + 4));
  mret TrapHalts.

(** [console_log_hex32(tag, label, reg_read(reg))]. *)
Definition log_reg (tag label : cstr) (reg : N) : io unit :=
  value ← reg_read reg; on_console (console_log_hex32 (Some tag) (Some label) value).

Definition systimer_tick_debug_dump : io unit :=
  now ← on_systimer systimer_unit0_read;
  _ ← log_reg (cs "TIMER") (cs "conf=") SYSTIMER_CONF_REG;
  _ ← log_reg (cs "TIMER") (cs "target0_conf=") SYSTIMER_TARGET0_CONF_REG;
  _ ← log_reg (cs "TIMER") (cs "target0_hi=") SYSTIMER_TARGET0_HI_REG;
  _ ← log_reg (cs "TIMER") (cs "target0_lo=") SYSTIMER_TARGET0_LO_REG;
  _ ← log_reg (cs "TIMER") (cs "int_ena=") SYSTIMER_INT_ENA_REG;
  _ ← log_reg (cs "TIMER") (cs "int_raw=") SYSTIMER_INT_RAW_REG;
  _ ← log_reg (cs "TIMER") (cs "int_st=") SYSTIMER_INT_ST_REG;
  _ ← on_console (console_log_hex32 (Some (cs "TIMER")) (Some (cs "now_hi=")) (u32 (N.shiftr now 32)));
  on_console (console_log_hex32 (Some (cs "TIMER")) (Some (cs "now_lo=")) (u32 now)).

(** ** Booting *)

Definition g_boot_dbg_tag : cstr := cs "BOOT".
Definition g_boot_dbg_console : cstr := cs "console_online_dram".
Definition g_boot_dbg_kernel : cstr := cs "jump_kernel_dram".

Definition disable_rtc_wdt : io unit :=
  _ ← reg_write RTC_CNTL_WDTWPROTECT_REG 0x50D83AA1;
  _ ← reg_clear_bits RTC_CNTL_WDTCONFIG0_REG (N.lor RTC_CNTL_WDT_FLASHBOOT_MOD_EN_BIT RTC_CNTL_WDT_EN_BIT);
  reg_write RTC_CNTL_WDTWPROTECT_REG 0.

Definition disable_timg_wdt (timer_group_base : N) : io unit :=
  _ ← reg_write (TIMG_WDTWPROTECT_REG timer_group_base) TIMG_WDT_WKEY_VALUE;
  _ ← reg_write (TIMG_WDTCONFIG0_REG timer_group_base) TIMG_WDT_DISABLE_VALUE;
  reg_write (TIMG_WDTWPROTECT_REG timer_group_base) 0.

Definition boot_trace (marker : N) : io unit := reg_write RTC_CNTL_STORE0_REG marker.

Definition diagnosis (diag_reason : N) : cstr :=
  if diag_reason =? DIAG_NONE then cs "diag=none"
  else if diag_reason =? DIAG_PRE_TIMER_STALL then cs "diag=pre_timer_stall"
  else if diag_reason =? DIAG_TIMER_PATH_BAD then cs "diag=timer_path_bad"
  else if diag_reason =? DIAG_POST_TIMER_STALL then cs "diag=post_timer_stall"
  else if diag_reason =? DIAG_TRAP_EXCEPTION then cs "diag=trap_exception"
  else if diag_reason =? DIAG_SCHED_OR_STACK then cs "diag=sched_or_stack"
  else cs "diag=unknown".

Definition boot_dump_previous_trace : io unit :=
  reset_state ← reg_read RTC_CNTL_RESET_STATE_REG;
  diag_reason ← reg_read RTC_CNTL_STORE5_REG;
  _ ← log_reg (cs "BOOT") (cs "prev store0=") RTC_CNTL_STORE0_REG;
  _ ← log_reg (cs "BOOT") (cs "prev store1=") RTC_CNTL_STORE1_REG;
  _ ← log_reg (cs "BOOT") (cs "prev store2=") RTC_CNTL_STORE2_REG;
  _ ← log_reg (cs "BOOT") (cs "prev store3=") RTC_CNTL_STORE3_REG;
  _ ← log_reg (cs "BOOT") (cs "prev store4=") RTC_CNTL_STORE4_REG;
  _ ← on_console (console_log_hex32 (Some (cs "BOOT")) (Some (cs "prev store5=")) diag_reason);
  _ ← log_reg (cs "BOOT") (cs "prev store6=") RTC_CNTL_STORE6_REG;
  _ ← log_reg (cs "BOOT") (cs "prev store7=") RTC_CNTL_STORE7_REG;
  _ ← on_console (console_log (Some (cs "BOOT")) (Some (diagnosis diag_reason)));
  _ ← on_console (console_log_hex32 (Some (cs "BOOT")) (Some (cs "reset_state=")) reset_state);
  on_console (console_log_u32 (Some (cs "BOOT")) (Some (cs "reset_cause_procpu="))
    (N.land reset_state RTC_CNTL_RESET_CAUSE_PROCPU_MASK)).

Definition boot_clear_trace : io unit :=
  _ ← reg_write RTC_CNTL_STORE0_REG 0;
  _ ← reg_write RTC_CNTL_STORE1_REG 0;
  _ ← reg_write RTC_CNTL_STORE2_REG 0;
  _ ← reg_write RTC_CNTL_STORE3_REG 0;
  _ ← reg_write RTC_CNTL_STORE4_REG 0;
  _ ← reg_write RTC_CNTL_STORE5_REG 0;
  _ ← reg_write RTC_CNTL_STORE6_REG 0;
  reg_write RTC_CNTL_STORE7_REG 0.

Definition panic_halt : io trap_outcome := mret TrapHalts.

(** [kernel_main] is that of [kernel/kernel.c]. *)
Definition boot_main (kernel_main : io unit) : io trap_outcome :=
  _ ← on_console console_init;
  _ ← boot_clear_trace;
  _ ← boot_trace 0xB001;
  _ ← on_console (console_log (Some g_boot_dbg_tag) (Some g_boot_dbg_console));
  _ ← disable_rtc_wdt;
  _ ← disable_timg_wdt TIMG0_BASE;
  _ ← disable_timg_wdt TIMG1_BASE;
  _ ← boot_trace 0xB002;
  _ ← boot_trace 0xB003;
  _ ← trap_init;
  _ ← boot_trace 0xB004;
  _ ← on_systimer systimer_unit0_init;
  _ ← boot_trace 0xB005;
  _ ← on_console (console_log (Some g_boot_dbg_tag) (Some g_boot_dbg_kernel));
  _ ← boot_trace 0xB006;
  _ ← kernel_main;
  _ ← boot_trace 0xB0FF;
  panic_halt.
End traps.
