(* ===== verification/InterruptsProofs.v ===== *)
(** * Interrupts: what reaches the processor, and what a tick does

    The interrupt controller as a device, a machine with one, and the theorems
    about [interrupts_init] and [trap_interrupt_c]. *)

From S2P Require Import SchedulerProofs SchedulerOps SchedulerMachine SchedulerTheorems SchedulerLiveness.
From S2P Require Import Prelude ProcessCore RuntimePolicy ReadyQueue Scheduler Soc Gpio Console PanelGc9a01 TouchCst816s Interrupts UsbSerialJtag.

Local Open Scope N_scope.

(** ** The interrupt controller *)

Record intr_view := IntrView {
  iv_route : N → N;
  iv_enable : N;
  iv_type : N;
  iv_priority : N → N;
  iv_threshold : N
}.

(** The line of a priority register. *)
Definition priority_line (reg : N) : option N :=
  list_find (λ n, INTERRUPT_CPU_INT_PRIO_REG n = reg) (N.of_nat <$> seq 0 32) ≫= λ p, Some p.2.

Definition intr_write (reg value : N) (v : intr_view) : intr_view :=
  let 'IntrView route enable type priority threshold := v in
  if reg =? INTERRUPT_CORE0_CPU_INT_ENABLE_REG then IntrView route value type priority threshold
  else if reg =? INTERRUPT_CORE0_CPU_INT_TYPE_REG then IntrView route enable value priority threshold
  else if reg =? INTERRUPT_CURRENT_CORE_INT_THRESH_REG then IntrView route enable type priority value
  else match priority_line reg with
       | Some line => IntrView route enable type (λ n, if n =? line then value else priority n) threshold
       | None => v
       end.

Definition intr_route (source line : N) (v : intr_view) : intr_view :=
  let 'IntrView route enable type priority threshold := v in
  IntrView (λ s, if s =? source then line else route s) enable type priority threshold.

(** The registers that hold the lines of the sources, one word each. *)
Definition map_register (reg : N) : bool :=
  (INTERRUPT_BASE <=? reg) && (reg <? INTERRUPT_BASE + 4 * PERIPHERAL_INTERRUPT_SOURCE_COUNT).

(** The controller's registers behind the map: the enabled lines, their types
    and priorities, and the threshold; the routine in ROM connects a source to
    a line.  A write into the map changes the routing in a way the contract
    leaves open: the kernel does not write there. *)
Class InterruptController (HW : Type) `{!Bus HW, !Rom HW} := {
  intr : HW → intr_view;
  intr_after_read reg h : intr (bus_read reg h).1 = intr h;
  intr_after_write reg value h : map_register reg = false → intr (bus_write reg value h) = intr_write reg value (intr h);
  intr_enable_value h : (bus_read INTERRUPT_CORE0_CPU_INT_ENABLE_REG h).2 = iv_enable (intr h);
  intr_type_value h : (bus_read INTERRUPT_CORE0_CPU_INT_TYPE_REG h).2 = iv_type (intr h);
  intr_after_rom source line h : intr (rom_intr_matrix_set 0 source line h) = intr_route source line (intr h)
}.

(** The interrupts of a source reach the processor: its line is enabled, and
    its priority is not 0 and not below the threshold. *)
Definition delivered (v : intr_view) (source : N) : Prop :=
  let line := iv_route v source in
  N.testbit (iv_enable v) line = true ∧ 0 < iv_priority v line ∧ iv_threshold v ≤ iv_priority v line.

(** ** A machine *)

Record board := Board { b_intr : intr_view; b_registers : N → N; b_csrs : N → N }.

Definition board_read (reg : N) (b : board) : N :=
  if reg =? INTERRUPT_CORE0_CPU_INT_ENABLE_REG then iv_enable (b_intr b)
  else if reg =? INTERRUPT_CORE0_CPU_INT_TYPE_REG then iv_type (b_intr b)
  else if map_register reg then iv_route (b_intr b) ((reg - INTERRUPT_BASE) / 4)
  else b_registers b reg.

(** A write into the map connects a source to the line in the low five bits. *)
Definition board_intr_write (reg value : N) (v : intr_view) : intr_view :=
  if map_register reg then intr_route ((reg - INTERRUPT_BASE) / 4) (N.land value 31) v
  else intr_write reg value v.

(** Clearing the timer's interrupt clears its status. *)
Definition board_write (reg value : N) (b : board) : board :=
  Board (board_intr_write reg value (b_intr b))
    (λ r, if r =? reg then value
          else if (reg =? SYSTIMER_INT_CLR_REG) && ((r =? SYSTIMER_INT_ST_REG) || (r =? SYSTIMER_INT_RAW_REG))
          then N.ldiff (b_registers b r) value
          else b_registers b r)
    (b_csrs b).

#[export] Instance board_bus : Bus board := {
  bus_read := λ reg b, (b, board_read reg b);
  bus_write := board_write;
  csr_read := λ csr b, (b, b_csrs b csr);
  csr_write := λ csr value b, Board (b_intr b) (b_registers b) (λ c, if decide (c = csr) then value else b_csrs b c);
  bus_nops := λ _ b, b;
  bus_patience := 8
}.
#[export] Instance board_rom : Rom board :=
  λ core source line b, Board (intr_route source line (b_intr b)) (b_registers b) (b_csrs b).
#[export] Program Instance board_controller : InterruptController board := {| intr := b_intr |}.
Next Obligation. done. Qed.
Next Obligation. intros reg value b H. cbn -[board_intr_write]. unfold board_intr_write. by rewrite H. Qed.
Solve All Obligations with done.
#[export] Program Instance board_processor : Processor board := {| csr_value := λ csr b, b_csrs b csr |}.
Solve All Obligations with done.

(** ** Routing *)

Section routing.
Context {HW : Type} `{!Bus HW, !Rom HW, !InterruptController HW} {G : Type}.
Implicit Types (h : HW) (g : G).

Lemma runs_route source line h g (Q : unit → HW → G → Prop) :
  Q tt (rom_intr_matrix_set 0 source line h) g → runs (interrupt_matrix_route source line) h g Q.
Proof. intros HQ. by eexists _, _, _. Qed.

(** Every source is connected to the line that is never enabled. *)
Lemma clear_all_routes h g :
  runs interrupt_matrix_clear_all h g (λ _ h' g', g' = g ∧
    (∀ source, source < 62 → iv_route (intr h') source = CPU_INVALID_INTR_NUM) ∧
    iv_enable (intr h') = iv_enable (intr h) ∧ iv_type (intr h') = iv_type (intr h)).
Proof.
  apply (runs_for (λ index h' g', g' = g ∧ (∀ source, source < index → iv_route (intr h') source = CPU_INVALID_INTR_NUM) ∧
    iv_enable (intr h') = iv_enable (intr h) ∧ iv_type (intr h') = iv_type (intr h))).
  - split_and!; [done|lia|done|done].
  - intros index h1 g1 Hi (-> & Hr & He & Ht). apply runs_route. rewrite intr_after_rom.
    destruct (intr h1) as [route enable type priority threshold]. cbn in *. split_and!; [done| |done|done].
    intros source Hs. destruct (N.eqb_spec source index); [done|]. apply Hr. lia.
  - intros h1 g1 (-> & Hr & He & Ht). split_and!; [done| |done|done]. intros source Hs. by apply Hr.
Qed.

(** Registers outside the controller. *)
Lemma runs_write_plain reg value h g (Q : unit → HW → G → Prop) :
  map_register reg = false → (∀ v, intr_write reg value v = v) →
  (∀ h', intr h' = intr h → Q tt h' g) → runs (reg_write reg value) h g Q.
Proof. intros Hm Hp HQ. apply runs_write, HQ. by rewrite intr_after_write, Hp. Qed.

Lemma runs_write_intr reg value h g (Q : unit → HW → G → Prop) :
  map_register reg = false →
  (∀ h', intr h' = intr_write reg value (intr h) → Q tt h' g) → runs (reg_write reg value) h g Q.
Proof. intros Hm HQ. apply runs_write, HQ. by rewrite intr_after_write. Qed.

Lemma runs_read_intr reg h g (Q : N → HW → G → Prop) :
  (∀ h', intr h' = intr h → Q (bus_read reg h).2 h' g) → runs (reg_read reg) h g Q.
Proof. intros HQ. apply runs_read, HQ. by rewrite intr_after_read. Qed.
End routing.

(** Steps of a driver that only matter to the controller. *)
Ltac routing_step :=
  match goal with
  | |- runs (mbind _ _) _ _ _ => apply runs_bind
  | |- runs (reg_write _ _) _ _ _ =>
      first [apply runs_write_plain; [reflexivity|by intros []|] | apply runs_write_intr; [reflexivity|]]; intros ?h ?Hi
  | |- runs (reg_read _) _ _ _ => apply runs_read_intr; intros ?h ?Hi
  | |- runs (interrupt_matrix_route _ _) _ _ _ => apply runs_route
  end; cbv beta.

Section initialisation.
Context {HW : Type} `{!Bus HW, !Rom HW, !InterruptController HW} {G : Type}.

Lemma dump_keeps config (h : HW) (g : G) :
  runs (interrupt_selfcheck_dump config) h g (λ _ h' g', g' = g ∧ intr h' = intr h).
Proof.
  unfold interrupt_selfcheck_dump, copy_reg, interrupt_enable_read, interrupt_type_read, interrupt_priority_read.
  repeat routing_step. split; [done|]. congruence.
Qed.

Lemma configure_sets (h : HW) (g : G) :
  runs (interrupt_cpu_line_configure g_systimer_irq) h g (λ _ h' g', g' = g ∧ ∃ priority,
    intr h' = IntrView (iv_route (intr h)) (iv_enable (intr h)) (N.ldiff (iv_type (intr h)) (BIT 7)) priority 0 ∧ priority 7 = 1).
Proof.
  unfold interrupt_cpu_line_configure, interrupt_set_priority, interrupt_set_type, reg_clear_bits. cbn [ir_type g_systimer_irq].
  change (INTR_TYPE_LEVEL =? INTR_TYPE_EDGE) with false. cbv iota.
  repeat routing_step. split; [done|].
  repeat match goal with H : intr _ = _ |- _ => rewrite ?intr_type_value in H; revert H end.
  destruct (intr h) as [route enable type priority threshold] eqn:E. intros.
  repeat match goal with H : intr ?h = ?v |- context [intr ?h] => rewrite H end.
  eexists. split; reflexivity.
Qed.

Lemma disconnect_all (h : HW) (g : G) :
  runs interrupt_route_disconnect_all h g (λ _ h' g', g' = g ∧
    ∀ source, source < 62 → iv_route (intr h') source = CPU_INVALID_INTR_NUM).
Proof.
  unfold interrupt_route_disconnect_all, interrupt_disable_mask, reg_clear_bits. repeat routing_step.
  eapply runs_weaken; [apply clear_all_routes|]. intros [] h' g' (-> & Hr & _). done.
Qed.

(** C33: after [interrupts_init] the system timer is the only peripheral
    whose interrupts reach the processor: its source, 37, is connected to line
    7, and every other one of the 62 sources is connected to line 6; line 7 is
    the only enabled line, it is level-triggered, has priority 1, and the
    threshold is 0.  (So the pins' interrupts, source 16, do not arrive on
    line 3, where [trap_interrupt_c] expects them.) *)
Theorem interrupts_init_enables_timer_only (h : HW) (g : G) :
  runs interrupts_init h g (λ _ h' g', g' = g ∧
    (∀ source, source < PERIPHERAL_INTERRUPT_SOURCE_COUNT →
       iv_route (intr h') source = if source =? 37 then 7 else 6) ∧
    (∀ line, N.testbit (iv_enable (intr h')) line = (line =? 7)) ∧
    N.testbit (iv_type (intr h')) 7 = false ∧ iv_priority (intr h') 7 = 1 ∧ iv_threshold (intr h') = 0 ∧
    ∀ source, source < PERIPHERAL_INTERRUPT_SOURCE_COUNT → (delivered (intr h') source ↔ source = 37)).
Proof.
  unfold interrupts_init, interrupt_route_connect. repeat routing_step.
  eapply runs_weaken; [apply disconnect_all|]. intros [] ha g1 (-> & Hr). repeat routing_step.
  eapply runs_weaken; [apply configure_sets|]. intros [] hb g2 (-> & priority & Hv & Hp). repeat routing_step.
  eapply runs_weaken; [apply dump_keeps|]. intros [] hc g3 (-> & Hc). split; [done|].
  rewrite Hc. repeat match goal with H : intr ?h = _ |- context [intr ?h] => rewrite H end.
  rewrite intr_after_rom, Hi0. destruct (intr ha) as [route enable type priority0 threshold]. cbn in Hr.
  unfold intr_write. test_numbers. cbn [intr_route iv_route iv_type].
  unfold delivered. cbn [iv_route iv_enable iv_priority iv_threshold ir_source ir_cpu_interrupt_number g_systimer_irq].
  change ETS_SYSTIMER_TARGET0_INTR_SOURCE with 37. change CPU_SYSTIMER_INTR_NUM with 7.
  change CPU_INVALID_INTR_NUM with 6 in Hr. rewrite Hp. split_and!; [| | |done|done|].
  - intros source Hs. destruct (N.eqb_spec source 37); [done|]. by apply Hr.
  - intros line. change (BIT 7) with (2 ^ 7). rewrite N.pow2_bits_eqb, N.eqb_sym. done.
  - rewrite N.ldiff_spec. apply andb_false_r.
  - intros source Hs. destruct (N.eqb_spec source 37) as [->|Hne]; [by rewrite Hp|].
    rewrite Hr by done. split; [by intros [? _]|done].
Qed.
End initialisation.

(** ** The tick *)

(** The timer's status as the processor reads it: an interrupt that is
    pending shows in the status and in the raw status, and stays until a
    register of the timer is written. *)
Class TickDevice (HW : Type) `{!Bus HW} := {
  tick_pending : HW → Prop;
  tick_status h : tick_pending h → N.testbit (bus_read SYSTIMER_INT_ST_REG h).2 0 = true;
  tick_raw h : tick_pending h → N.testbit (bus_read SYSTIMER_INT_RAW_REG h).2 0 = true;
  tick_after_read reg h : tick_pending h → tick_pending (bus_read reg h).1;
  tick_after_write reg value h :
    (reg <? SYSTIMER_BASE) || (SYSTIMER_BASE + 0x1000 <=? reg) = true →
    tick_pending h → tick_pending (bus_write reg value h);
  tick_after_csr_read csr h : tick_pending h → tick_pending (csr_read csr h).1
}.

#[export] Program Instance board_tick : TickDevice board := {|
  tick_pending b := N.testbit (b_registers b SYSTIMER_INT_ST_REG) 0 = true ∧ N.testbit (b_registers b SYSTIMER_INT_RAW_REG) 0 = true |}.
Next Obligation. by intros b []. Qed.
Next Obligation. by intros b []. Qed.
Next Obligation. done. Qed.
Next Obligation.
  intros reg value b Hr []. cbn -[SYSTIMER_INT_ST_REG SYSTIMER_INT_RAW_REG SYSTIMER_INT_CLR_REG].
  destruct (N.eqb_spec SYSTIMER_INT_ST_REG reg) as [<-|]; [done|]. destruct (N.eqb_spec SYSTIMER_INT_RAW_REG reg) as [<-|]; [done|].
  by destruct (N.eqb_spec reg SYSTIMER_INT_CLR_REG) as [->|].
Qed.
Next Obligation. done. Qed.

Section tick.
Context {HW : Type} `{!Bus HW, !Processor HW}.
Implicit Types (h : HW).

(** The control registers are untouched. *)
Definition calm h h' : Prop := ∀ csr, csr_value csr h' = csr_value csr h.

#[export] Instance calm_refl : Reflexive calm. Proof. by intros h csr. Qed.
#[export] Instance calm_trans : Transitive calm.
Proof. intros a b c H1 H2 csr. by rewrite H2, H1. Qed.

Lemma runs_write_calm {G} reg value h (g : G) (Q : unit → HW → G → Prop) :
  (∀ h', calm h h' → Q tt h' g) → runs (reg_write reg value) h g Q.
Proof. intros HQ. apply runs_write, HQ. intros csr. apply csr_after_bus_write. Qed.

Lemma runs_read_calm {G} reg h (g : G) (Q : N → HW → G → Prop) :
  (∀ h', calm h h' → Q (bus_read reg h).2 h' g) → runs (reg_read reg) h g Q.
Proof. intros HQ. apply runs_read, HQ. intros csr. apply csr_after_bus_read. Qed.

Lemma runs_timer_get {A} (f : timer_state → A) h s (Q : A → HW → scheduler → Prop) :
  Q (f (g_timer s)) h s → runs (timer_get f) h s Q.
Proof. intros HQ. by eexists _, _, _. Qed.

Lemma runs_timer_set f h s (Q : unit → HW → scheduler → Prop) :
  Q tt h (set_timer (f (g_timer s)) s) → runs (timer_set f) h s Q.
Proof. intros HQ. by eexists _, _, _. Qed.

End tick.

(** A step of a driver that leaves the control registers alone. *)
Ltac calm_step :=
  lazymatch goal with
  | |- runs (mbind _ _) _ _ _ => apply runs_bind
  | |- runs (mret _) _ _ _ => apply runs_ret
  | |- runs (reg_write _ _) _ _ _ => apply runs_write_calm; intros ?h ?Hc
  | |- runs (reg_read _) _ _ _ => apply runs_read_calm; intros ?h ?Hc
  | |- runs (copy_reg _ _) _ _ _ => unfold copy_reg
  | |- runs get_globals _ _ _ => apply runs_get_globals
  | |- runs (set_globals _) _ _ _ => apply runs_set_globals
  | |- runs (timer_get _) _ _ _ => apply runs_timer_get
  | |- runs (timer_set _) _ _ _ => apply runs_timer_set
  end; cbv beta.

(** The steps taken so far, from the first to the last. *)
Ltac calm_chain := solve [repeat first [reflexivity | assumption | etrans; [eassumption|]]].

Lemma set_timer_get t s : g_timer (set_timer t s) = t. Proof. by destruct s. Qed.
Lemma set_timer_twice t t' s : set_timer t (set_timer t' s) = set_timer t s. Proof. by destruct s. Qed.
Lemma set_timer_same s : set_timer (g_timer s) s = s. Proof. by destruct s. Qed.

(** [process_tick] requests preemption and leaves the timer. *)
Lemma process_tick_frame PRE n s s' :
  process_tick PRE n s = Some s' →
  g_timer s' = g_timer s ∧
  g_scheduler_preempt_state s' = scheduler_preempt_on_timer_tick PRE (g_scheduler_preempt_state s).
Proof.
  unfold process_tick, scheduler_sync_ready_queue. intros E. apply sync_loop_rq in E as [q ->]. by destruct s.
Qed.

Section isr.
Context {HW : Type} `{!Bus HW, !Processor HW} (PRE : bool).
Implicit Types (h : HW).

Lemma watch_switches_runs n h s :
  runs (watch_switches n) h s (λ _ h' s', calm h h' ∧
    s' = set_timer (if n =? g_last_tick_switch_count (g_timer s)
                    then set_switches_seen (g_last_tick_switch_count (g_timer s)) (u32 (g_stalled_tick_windows (g_timer s) + 1)) (g_timer s)
                    else set_switches_seen n 0 (g_timer s)) s).
Proof.
  unfold watch_switches. do 2 calm_step. case_match; [|by calm_step]. repeat calm_step.
  case_match; repeat calm_step; (split; [|done]); [|done]. calm_chain.
Qed.

Lemma watch_long_run_runs n h s :
  runs (watch_long_run n) h s (λ _ h' s', calm h h' ∧
    s' = set_timer (if g_long_run_tick_window (g_timer s) =? 5000
                    then set_long_run (u32 (g_long_run_milestone_counter (g_timer s) + 1)) 0 (g_timer s)
                    else g_timer s) s).
Proof.
  unfold watch_long_run. do 2 calm_step. case_match.
  - repeat calm_step. split; [calm_chain|]. rewrite !set_timer_get, set_timer_twice.
    by destruct (g_timer s).
  - calm_step. split; [done|]. by rewrite set_timer_same.
Qed.

(** The interrupt handler with its registers does to the scheduler what
    [Scheduler.systimer_tick_isr] does. *)
Lemma isr_is_tick regs h s s' :
  SYSTIMER_INT_ST regs = (bus_read SYSTIMER_INT_ST_REG h).2 →
  Scheduler.systimer_tick_isr PRE regs s = Some s' →
  runs (systimer_tick_isr PRE) h s (λ _ h' s1, calm h h' ∧ s1 = s').
Proof.
  intros Hst E. unfold Scheduler.systimer_tick_isr in E. rewrite Hst in E.
  change Scheduler.SYSTIMER_TARGET0_INT_ST_BIT with SYSTIMER_TARGET0_INT_ST_BIT in E.
  unfold systimer_tick_isr. do 2 calm_step. destruct (nz _).
  2:{ repeat calm_step. injection E as ->. split; [calm_chain|done]. }
  destruct (g_timer s) as [tk log last stalled ms win latched] eqn:Et.
  destruct (process_tick PRE _ _) as [s2|] eqn:Ep; [|done]. cbn [mbind option_bind] in E.
  pose proof (process_tick_frame _ _ _ _ Ep) as [Ht2 _]. rewrite set_timer_get in Ht2.
  repeat calm_step. eapply (runs_lift _ s2); [rewrite set_timer_get, Et; exact Ep|]. repeat calm_step.
  eapply (runs_weaken _ _ _ (λ _ h' s1, calm h h' ∧ s1 = s2)).
  { destruct (_ =? 1); repeat calm_step; (split; [calm_chain|done]). }
  intros [] h2 s1 (Hc2 & ->). apply runs_bind. eapply runs_weaken; [apply watch_switches_runs|].
  intros [] h3 s1 (Hc3 & ->). repeat calm_step. rewrite set_timer_get, Ht2.
  match goal with |- runs _ _ (set_timer ?u _) _ => set (t := u) end.
  eapply (runs_weaken _ _ _ (λ _ h' s1, calm h h' ∧
    s1 = set_timer (if g_kernel_tick_log_counter t =? 1000 then set_tick_log 0 t else t) s2)).
  { destruct (g_kernel_tick_log_counter t =? 1000); repeat calm_step; (split; [calm_chain|]); [|done]. by rewrite set_timer_get, set_timer_twice. }
  intros [] h4 s1 (Hc4 & ->). eapply runs_weaken; [apply watch_long_run_runs|].
  intros [] h5 s1 (Hc5 & ->). split; [calm_chain|]. rewrite set_timer_get, set_timer_twice.
  cbn [count_tick g_last_tick_switch_count g_stalled_tick_windows] in t. unfold t. clear t.
  cbn [count_tick set_switches_seen g_last_tick_switch_count g_stalled_tick_windows] in *.
  repeat case_match; cbn in *; simplify_eq; try done; congruence.
Qed.
End isr.

Section timer_interrupt.
Context {HW : Type} `{!Bus HW, !Rom HW, !Processor HW, !TickDevice HW} (PRE : bool) (mtvec_base trampoline : N).
Implicit Types (h : HW).

(** Accesses that leave a pending tick pending. *)
Definition rests h h' : Prop := calm h h' ∧ (tick_pending h → tick_pending h').

#[export] Instance rests_refl : Reflexive rests. Proof. by intros h. Qed.
#[export] Instance rests_trans : Transitive rests.
Proof. intros a b c [H1 H2] [H3 H4]. split; [by trans b|auto]. Qed.

Lemma runs_copy_rests {G} destination source h (g : G) (Q : unit → HW → G → Prop) :
  (destination <? SYSTIMER_BASE) || (SYSTIMER_BASE + 0x1000 <=? destination) = true →
  (∀ h', rests h h' → Q tt h' g) → runs (copy_reg destination source) h g Q.
Proof.
  intros Hd HQ. unfold copy_reg. apply runs_bind, runs_read, runs_write, HQ. split.
  - intros csr. by rewrite csr_after_bus_write, csr_after_bus_read.
  - intros Hp. apply tick_after_write; [done|]. by apply tick_after_read.
Qed.

Lemma runs_write_rests {G} reg value h (g : G) (Q : unit → HW → G → Prop) :
  (reg <? SYSTIMER_BASE) || (SYSTIMER_BASE + 0x1000 <=? reg) = true →
  (∀ h', rests h h' → Q tt h' g) → runs (reg_write reg value) h g Q.
Proof.
  intros Hd HQ. apply runs_write, HQ. split; [intros csr; apply csr_after_bus_write|]. by apply tick_after_write.
Qed.

Lemma runs_csr_get_calm {G} csr h (g : G) (Q : N → HW → G → Prop) :
  (∀ h', calm h h' → Q (csr_value csr h) h' g) → runs (csr_get csr) h g Q.
Proof.
  intros HQ. apply runs_csr_get. rewrite csr_read_value. apply HQ. intros csr'. apply csr_after_read.
Qed.

(** The interrupted process is sent to the trampoline, which finds the
    address it was interrupted at. *)
Lemma redirect_runs h g :
  runs (redirect_to_trampoline trampoline) h g (λ _ h' g',
    csr_value MEPC h' = trampoline ∧ g_trap_preempt_resume_pc g' = csr_value MEPC h ∧
    (∀ csr, csr ≠ MEPC → csr_value csr h' = csr_value csr h) ∧
    tr_scheduler g' = set_preempt (scheduler_preempt_clear_pending (g_scheduler_preempt_state (tr_scheduler g))) (tr_scheduler g) ∧
    tr_console g' = tr_console g ∧ tr_touch g' = tr_touch g ∧ tr_systimer g' = tr_systimer g).
Proof.
  unfold redirect_to_trampoline. do 2 calm_step. apply runs_bind. destruct g as [seen redirected resume s k t y]. cbn [g_preempt_redirect_seen].
  eapply (runs_weaken _ _ _ (λ _ h' g', calm h h' ∧ ∃ redirected', g' = TrapState seen redirected' resume s k t y)).
  { destruct (redirected =? 0); [|apply runs_ret; split; [done|by eexists]].
    repeat calm_step. apply runs_csr_get_calm. intros h1 Hc1. repeat calm_step. unfold on_scheduler. apply runs_within.
    repeat calm_step. split; [calm_chain|]. by eexists. }
  intros [] h1 g1 (Hc1 & redirected' & ->). apply runs_bind, runs_csr_get_calm. intros h2 Hc2. repeat calm_step. unfold on_scheduler.
  apply runs_within. repeat calm_step. apply runs_within. repeat calm_step. apply runs_csr_set. cbn.
  assert (calm h h2) as Hc by calm_chain. rewrite csr_after_write, decide_True by done.
  split_and!; [done|apply Hc1| |done..]. intros csr Hne. by rewrite csr_after_write, decide_False, Hc.
Qed.

(** The first tick leaves marks in the trace registers. *)
Lemma mark_runs h g :
  runs (if g_timer_interrupt_seen g =? 0 then
          _ ← set_globals (set_timer_seen 1 g);
          _ ← reg_write RTC_CNTL_STORE0_REG 0xE107;
          _ ← copy_reg RTC_CNTL_STORE4_REG INTERRUPT_CORE0_CPU_INT_EIP_STATUS_REG;
          _ ← copy_reg RTC_CNTL_STORE6_REG SYSTIMER_INT_RAW_REG;
          copy_reg RTC_CNTL_STORE7_REG SYSTIMER_INT_ST_REG
        else mret tt) h g (λ _ h' g', rests h h' ∧ ∃ seen, g' = set_timer_seen seen g).
Proof.
  destruct (_ =? 0).
  - repeat first [apply runs_write_rests; [done|intros ?h ?Hr] | apply runs_copy_rests; [done|intros ?h ?Hr] | calm_step].
    split; [|by eexists]. calm_chain.
  - apply runs_ret. split; [done|]. exists (g_timer_interrupt_seen g). by destruct g.
Qed.

Lemma status_bit value : nz (N.land value SYSTIMER_TARGET0_INT_ST_BIT) = N.testbit value 0.
Proof. pose proof (land_bit_zero value 0) as H. rewrite N.shiftr_0_r in H. unfold nz. change SYSTIMER_TARGET0_INT_ST_BIT with 1. rewrite H. apply negb_involutive. Qed.

Lemma isr_status value s :
  N.testbit value 0 = true →
  Scheduler.systimer_tick_isr PRE (Registers 1 value 0) s = Scheduler.systimer_tick_isr PRE ticking s.
Proof.
  intros Hv. unfold Scheduler.systimer_tick_isr. cbn [SYSTIMER_INT_ST]. 
  change Scheduler.SYSTIMER_TARGET0_INT_ST_BIT with SYSTIMER_TARGET0_INT_ST_BIT. by rewrite !status_bit, Hv.
Qed.

(** A tick requests preemption in a preemptive kernel. *)
Lemma isr_requests s s' :
  Scheduler.systimer_tick_isr PRE ticking s = Some s' → scheduler_preempt_supported PRE = true →
  scheduler_preempt_pending (g_scheduler_preempt_state s') = true.
Proof.
  unfold Scheduler.systimer_tick_isr, scheduler_preempt_supported. intros E HP. cbn [ticking SYSTIMER_INT_ST] in E.
  change (nz _) with true in E. cbv iota in E. destruct (g_timer s).
  destruct (process_tick PRE _ _) as [s2|] eqn:Ep; [|done]. cbn [mbind option_bind] in E.
  apply process_tick_frame in Ep as [_ Hp].
  assert (g_scheduler_preempt_state s' = g_scheduler_preempt_state s2) as ->
    by (repeat case_match; simplify_eq; by destruct s2).
  rewrite Hp. unfold scheduler_preempt_on_timer_tick. by rewrite HP.
Qed.

Lemma may_redirect_spec s s' :
  Scheduler.systimer_tick_isr PRE ticking s = Some s' →
  may_redirect PRE s' =
  PRE && (preempt_disable_depth (g_scheduler_preempt_state s') =? 0) && negb (process_current_pid s' =? 0).
Proof.
  intros E. pose proof (isr_requests _ _ E) as Hr. clear E. unfold may_redirect, scheduler_preempt_supported in *.
  destruct PRE; [by rewrite Hr|done].
Qed.

(** C15: a tick that arrives as an interrupt is counted and handed to the
    scheduler exactly as the scheduler's model has it, and the handler
    returns.  In a preemptive kernel, when no critical section is open and a
    process is running, the interrupted process does not go on: the return
    address is the trampoline's, the address it was interrupted at is kept
    for the trampoline, and the request is spent; otherwise it goes on where
    it was. *)
Theorem timer_interrupt_redirects mcause h g :
  N.ldiff mcause MCAUSE_INTERRUPT_BIT = CPU_SYSTIMER_INTR_NUM → sched_inv (tr_scheduler g) → tick_pending h →
  N.land (bus_read SYSTEM_CPU_INTR_FROM_CPU_0_REG h).2 SYSTEM_CPU_INTR_FROM_CPU_0_BIT = 0 →
  ∃ s', Scheduler.systimer_tick_isr PRE ticking (tr_scheduler g) = Some s' ∧ sched_inv s' ∧
    runs (trap_interrupt_c PRE trampoline mcause) h g (λ outcome h' g', outcome = TrapReturns ∧
      tr_console g' = tr_console g ∧ tr_touch g' = tr_touch g ∧
      (∀ csr, csr ≠ MEPC → csr_value csr h' = csr_value csr h) ∧
      if PRE && (preempt_disable_depth (g_scheduler_preempt_state s') =? 0) && negb (process_current_pid s' =? 0)
      then csr_value MEPC h' = trampoline ∧ g_trap_preempt_resume_pc g' = csr_value MEPC h ∧
           tr_scheduler g' = set_preempt (scheduler_preempt_clear_pending (g_scheduler_preempt_state s')) s'
      else csr_value MEPC h' = csr_value MEPC h ∧ g_trap_preempt_resume_pc g' = g_trap_preempt_resume_pc g ∧
           tr_scheduler g' = s').
Proof.
  intros Hm Hi Hp Hs. destruct (tick_isr_ok PRE ticking (tr_scheduler g) Hi) as (s' & E & Hi' & _). exists s'.
  split; [done|]. split; [done|]. unfold trap_interrupt_c. rewrite Hm. test_numbers. cbv iota. apply runs_bind.
  unfold trap_systimer. apply runs_bind, runs_read. rewrite Hs. change (nz 0) with false. cbv iota.
  set (h1 := (bus_read _ h).1). assert (rests h h1) as [Hc1 Hp1] by (split; [intros csr; apply csr_after_bus_read|apply tick_after_read]).
  apply runs_bind, runs_read. rewrite status_bit, tick_raw by auto.
  set (h2 := (bus_read _ h1).1). assert (rests h1 h2) as [Hc2 Hp2] by (split; [intros csr; apply csr_after_bus_read|apply tick_after_read]).
  apply runs_bind, runs_ret. cbv iota. apply runs_bind, runs_get_globals. apply runs_bind.
  eapply runs_weaken; [apply mark_runs|]. intros [] h3 g1 ([Hc3 Hp3] & seen & ->). unfold on_scheduler.
  apply runs_bind, runs_within. destruct g as [seen0 redirected resume s k t y]. cbn in E, Hi |- *.
  eapply runs_weaken; [apply (isr_is_tick PRE (Registers 1 (bus_read SYSTIMER_INT_ST_REG h3).2 0)); [done|]|].
  { rewrite isr_status; [exact E|]. apply tick_status; auto. }
  intros [] h4 s1 (Hc4 & ->). cbn. apply runs_bind, runs_within, runs_get_globals. cbn.
  assert (calm h h4) as Hc by calm_chain.
  rewrite (may_redirect_spec s s') by done. apply runs_bind. destruct (_ && _).
  - eapply runs_weaken; [apply redirect_runs|]. cbn. intros [] h5 g2 (H1 & H2 & H3 & H4 & H5 & H6 & H7).
    unfold interrupts_ack. calm_step. apply runs_ret. split_and!; [done..| | | |done].
    + intros csr Hne. by rewrite Hc0, H3, Hc.
    + by rewrite Hc0.
    + by rewrite H2.
  - apply runs_ret. unfold interrupts_ack. calm_step. apply runs_ret. cbn. split_and!; try done; intros; by rewrite Hc0, Hc.
Qed.
End timer_interrupt.

(** A process runs in a preemptive kernel when the tick comes: it goes on in
    the trampoline. *)
Definition preempted : machine :=
  run false true true demo_base 1 demo_base [spawn_a; ERun quiet].

Lemma preempted_inv : sched_inv (m_scheduler preempted).
Proof.
  assert (machine_ok preempted) as Hok.
  { eapply reachable_ok; [apply demo_stacks_fit|]. by apply run_reachable; vm_compute. }
  unfold machine_ok in Hok. assert (m_mode preempted = Calls) as E by (vm_compute; reflexivity).
  rewrite E in Hok. exact (proj1 (proj1 Hok)).
Qed.

Definition ticking_board : board :=
  Board (IntrView (λ _, 6) 128 0 (λ _, 1) 0) (λ reg, if (reg =? SYSTIMER_INT_ST_REG) || (reg =? SYSTIMER_INT_RAW_REG) then 1 else 0)
    (λ csr, if csr =? MEPC then 0x42001234 else 8).

Definition preempted_state : trap_state :=
  TrapState 0 0 0 (m_scheduler preempted)
    (ConsoleState (replicate 1024 "000"%char) 0 0 0 (UsbState [] 0)) (TouchState [] 0 0) (SystimerState 1 0).

Lemma timer_interrupt_redirects_witness :
  ∃ h' g', trap_interrupt_c true 0x40380000 0x80000007 ticking_board preempted_state = Some (h', g', TrapReturns) ∧
    csr_value MEPC h' = 0x40380000 ∧ g_trap_preempt_resume_pc g' = 0x42001234.
Proof.
  destruct (timer_interrupt_redirects true 0x40380000 0x80000007 ticking_board preempted_state) as
    (s' & E & _ & h' & g' & outcome & Hr & -> & _ & _ & _ & Hif).
  - reflexivity.
  - exact preempted_inv.
  - by vm_compute.
  - by vm_compute.
  - assert (true && (preempt_disable_depth (g_scheduler_preempt_state s') =? 0) && negb (process_current_pid s' =? 0) = true) as Hc
      by (vm_compute in E; injection E as <-; by vm_compute).
    rewrite Hc in Hif. exists h', g'. split; [exact Hr|]. split; [exact (proj1 Hif)|exact (proj1 (proj2 Hif))].
Defined.

Lemma interrupts_init_enables_timer_only_witness :
  ∃ h' g', interrupts_init ticking_board preempted_state = Some (h', g', tt) ∧
    delivered (b_intr h') ETS_SYSTIMER_TARGET0_INTR_SOURCE ∧ ¬ delivered (b_intr h') 16.
Proof.
  destruct (interrupts_init_enables_timer_only ticking_board preempted_state) as (h' & g' & [] & Hr & _ & _ & _ & _ & _ & _ & Hd).
  exists h', g'. split; [exact Hr|]. split; [apply (proj2 (Hd ETS_SYSTIMER_TARGET0_INTR_SOURCE eq_refl)); reflexivity|].
  intros H. apply (proj1 (Hd 16 eq_refl)) in H. vm_compute in H. discriminate H.
Defined.
