(* ===== verification/KernelMain.v ===== *)
(** * The start of the kernel, its management callbacks and its tasks
    ([kernel/kernel.c])

    [kernel_main], the callbacks it gives to the command shell, and the
    functions of its processes.  The state is that of all components on the
    hardware [HW].  A process that gives up the processor comes back after
    others have run: [Others] is what they did.  An endless loop is the
    sequence of its rounds.  In [kernel_main] no interrupt is taken between
    [interrupts_enable] and [scheduler_run]. *)

From S2P Require Import SchedulerProofs SchedulerOps SchedulerCalls SchedulerMachine SchedulerTheorems SchedulerLiveness.
From S2P Require Import PanelSpec SimDevice DisplayDemoProofs KernelServiceProofs.
From S2P Require Import Prelude ProcessCore RuntimePolicy ReadyQueue Kmem KernelObjects KernelObjectsProofs.
From S2P Require Import RuntimeFs RuntimeFsImage RuntimeSyscall RuntimeLoader RuntimeService Scheduler RuntimeManage.
From S2P Require Import KernelSyscalls KernelFsStress KernelService.
From S2P Require Import Soc Uart UsbSerialJtag Console ConsoleProofs TouchCst816s DisplayDemo Interrupts InterruptsProofs.

Local Open Scope N_scope.

Definition TASK_PROGRESS_INTERVAL : N := 0x1000.
Definition RUNTIME_MANAGEMENT_DEMO_PROFILE_OFF : N := 0.
Definition RUNTIME_MANAGEMENT_DEMO_PROFILE_SMOKE : N := 1.
Definition RUNTIME_MANAGEMENT_DEMO_MAILBOX_TARGET : N := 3.

(** Subtraction of 64-bit words. *)
Definition sub64 (a b : N) : N := u64 (a + 18446744073709551616 - b).

(** [preempt_target.c]. *)
Definition scheduler_target_preempt_capable : bool := false.

(** ** State *)

Record runtime_management_demo_state := ManagementDemo {
  md_mailbox : option N;
  md_event : option N;
  md_mailbox_send_count : N;
  md_mailbox_receive_count : N;
  md_spawn_count : N;
  md_demo_profile : N;
  md_demo_runtime_logged : N;
  md_demo_child_wait_done : N;
  md_demo_manual_wake_done : N;
  md_demo_event_signal_done : N;
  md_demo_mailbox_auto_count : N
}.

Definition set_counts (send receive spawn : N) (m : runtime_management_demo_state) : runtime_management_demo_state :=
  let 'ManagementDemo a b _ _ _ f g h i j k := m in ManagementDemo a b send receive spawn f g h i j k.
Definition set_profile (v : N) (m : runtime_management_demo_state) : runtime_management_demo_state :=
  let 'ManagementDemo a b c d e _ g h i j k := m in ManagementDemo a b c d e v g h i j k.
Definition set_runtime_logged (v : N) (m : runtime_management_demo_state) : runtime_management_demo_state :=
  let 'ManagementDemo a b c d e f _ h i j k := m in ManagementDemo a b c d e f v h i j k.
Definition set_child_wait_done (v : N) (m : runtime_management_demo_state) : runtime_management_demo_state :=
  let 'ManagementDemo a b c d e f g _ i j k := m in ManagementDemo a b c d e f g v i j k.
Definition set_manual_wake_done (v : N) (m : runtime_management_demo_state) : runtime_management_demo_state :=
  let 'ManagementDemo a b c d e f g h _ j k := m in ManagementDemo a b c d e f g h v j k.
Definition set_event_signal_done (v : N) (m : runtime_management_demo_state) : runtime_management_demo_state :=
  let 'ManagementDemo a b c d e f g h i _ k := m in ManagementDemo a b c d e f g h i v k.
Definition set_mailbox_auto_count (v : N) (m : runtime_management_demo_state) : runtime_management_demo_state :=
  let 'ManagementDemo a b c d e f g h i j _ := m in ManagementDemo a b c d e f g h i j v.

Definition runtime_management_demo_reset (state : option runtime_management_demo_state)
  : option runtime_management_demo_state :=
  match state with
  | None => None
  | Some m => Some (set_mailbox_auto_count 0 (set_event_signal_done 0 (set_manual_wake_done 0
                (set_child_wait_done 0 (set_runtime_logged 0 m)))))
  end.

(** The process ids that [kernel_main] keeps. *)
Record demo_pids := DemoPids {
  g_blocked_pid : N;
  g_event_waiter_pid : N;
  g_mailbox_receiver_pid : N;
  g_service_pid : N;
  g_fs_stress_pid : N;
  g_second_foreground_rejected : bool
}.

(** The globals of the components, and those of [kernel.c].  The process
    table is that of the scheduler; the heap is in [kn_objects]. *)
Record kernel_state := KernelState {
  kn_trap : trap_state;
  kn_display : demo_state;
  kn_objects : kernel kmem;
  kn_pointers : kernel_objects;
  kn_pids : demo_pids;
  g_runtime_management_state : runtime_management_demo_state;
  g_runtime_management_line_state : runtime_manage_line_state;
  g_runtime_service_state : runtime_service_demo_state;
  g_runtime_service_sessions : list runtime_service_session_entry;
  g_runtime_fs_stress_state : runtime_fs_stress_state
}.

Definition set_trap (v : trap_state) (g : kernel_state) : kernel_state :=
  let 'KernelState _ b c d e f i j k l := g in KernelState v b c d e f i j k l.
Definition set_display (v : demo_state) (g : kernel_state) : kernel_state :=
  let 'KernelState a _ c d e f i j k l := g in KernelState a v c d e f i j k l.
Definition set_objects (v : kernel kmem) (g : kernel_state) : kernel_state :=
  let 'KernelState a b _ d e f i j k l := g in KernelState a b v d e f i j k l.
Definition set_pointers (v : kernel_objects) (g : kernel_state) : kernel_state :=
  let 'KernelState a b c _ e f i j k l := g in KernelState a b c v e f i j k l.
Definition set_pids (v : demo_pids) (g : kernel_state) : kernel_state :=
  let 'KernelState a b c d _ f i j k l := g in KernelState a b c d v f i j k l.
Definition set_management (v : runtime_management_demo_state) (g : kernel_state) : kernel_state :=
  let 'KernelState a b c d e _ i j k l := g in KernelState a b c d e v i j k l.
Definition set_line_state (v : runtime_manage_line_state) (g : kernel_state) : kernel_state :=
  let 'KernelState a b c d e f _ j k l := g in KernelState a b c d e f v j k l.
Definition set_service (v : runtime_service_demo_state) (g : kernel_state) : kernel_state :=
  let 'KernelState a b c d e f i _ k l := g in KernelState a b c d e f i v k l.
Definition set_service_sessions (v : list runtime_service_session_entry) (g : kernel_state) : kernel_state :=
  let 'KernelState a b c d e f i j _ l := g in KernelState a b c d e f i j v l.
Definition set_fs_stress (v : runtime_fs_stress_state) (g : kernel_state) : kernel_state :=
  let 'KernelState a b c d e f i j k _ := g in KernelState a b c d e f i j k v.

Definition kn_scheduler (g : kernel_state) : scheduler := tr_scheduler (kn_trap g).
Definition set_kn_scheduler (s : scheduler) (g : kernel_state) : kernel_state :=
  set_trap (set_tr_scheduler s (kn_trap g)) g.
Definition kn_console (g : kernel_state) : console_state := tr_console (kn_trap g).
Definition set_kn_console (c : console_state) (g : kernel_state) : kernel_state :=
  set_trap (set_tr_console c (kn_trap g)) g.

(** The display demo works on the console and the touch controller of the
    whole system. *)
Definition whole_display (g : kernel_state) : demo_state :=
  set_demo_console (kn_console g) (set_touch_state (tr_touch (kn_trap g)) (kn_display g)).
Definition set_whole_display (d : demo_state) (g : kernel_state) : kernel_state :=
  set_trap (set_tr_touch (dm_touch d) (set_tr_console (dm_console d) (kn_trap g))) (set_display d g).

(** What happens while a process is away from the processor: in a call that
    only gives it up, in a sleep of some ticks, while it waits for a child
    (with the result, and the exit code if it is stored), and while the service answers a
    request. *)
Class Others (HW : Type) := {
  process_yield : driver HW kernel_state unit;
  process_sleep : N → driver HW kernel_state unit;
  process_waitpid : N → driver HW kernel_state (Z * option Z);
  runtime_service_request_sync : N → N → driver HW kernel_state (option N)
}.

Section kernel.
Context {HW : Type} `{!Bus HW, !Rom HW, !Others HW}.
(** Build-time configuration, and the addresses that the linker gives. *)
Context (CONFIG_RUNTIME_SINGLE_FOREGROUND CONFIG_SCHEDULER_PREEMPTIVE CONFIG_SCHEDULER_COOPERATIVE : bool)
        (CONFIG_RUNTIME_ENABLE_FS_STRESS : bool)
        (TEST_DELAY_GLOBAL_INTERRUPTS TEST_DISABLE_INTERRUPT_PIPELINE TEST_SKIP_SYSTIMER_TICK_INIT : bool)
        (layout stacks_base task_bootstrap_first_entry_asm : N) (function_address : string → N).
Abbreviation io := (driver HW kernel_state).

Definition on_kernel_console {A} (m : driver HW console_state A) : io A := within kn_console set_kn_console m.
Definition on_kernel_scheduler {A} (m : driver HW scheduler A) : io A := within kn_scheduler set_kn_scheduler m.
Definition on_display {A} (m : driver HW demo_state A) : io A := within whole_display set_whole_display m.

Definition log (tag message : cstr) : io unit := on_kernel_console (Console.console_log (Some tag) (Some message)).
Definition log_u32 (tag label : cstr) (value : N) : io unit :=
  on_kernel_console (Console.console_log_u32 (Some tag) (Some label) value).

Definition scheduler_get {A} (f : scheduler → A) : io A := g ← get_globals; mret (f (kn_scheduler g)).
Definition scheduler_do {A} (f : scheduler → option (scheduler * A)) : io A :=
  on_kernel_scheduler (s ← get_globals; '(s, a) ← lift (f s); _ ← set_globals s; mret a).

Definition ticks_now : io N := on_kernel_scheduler Interrupts.kernel_ticks_read.

(** An operation on the kernel objects, with the process table of the
    scheduler; processes that it wakes enter the ready queue, as
    [Scheduler.process_wake_channel] has it (a queue that is up to date stays
    as it is). *)
Definition on_objects {A} (f : kernel kmem → option (kernel kmem * A)) : io A :=
  g ← get_globals;
  let s := kn_scheduler g in
  '(k, a) ← lift (f (KernelObjects.set_current (g_current_process_index s)
                       (KernelObjects.set_processes (g_processes s) (kn_objects g))));
  s ← lift (scheduler_sync_ready_queue (Scheduler.set_processes (processes k) s));
  _ ← set_globals (set_objects k (set_kn_scheduler s g));
  mret a.

(** An operation that leaves the objects and the process table alone. *)
Definition objects_get {A} (f : kernel kmem → option A) : io A :=
  g ← get_globals;
  let s := kn_scheduler g in
  lift (f (KernelObjects.set_current (g_current_process_index s)
             (KernelObjects.set_processes (g_processes s) (kn_objects g)))).

(** The rounds of a call that waits. *)
Fixpoint wait_rounds {R} (fuel : nat) (again : kernel kmem → option (kernel kmem * KernelObjects.outcome R))
    (o : KernelObjects.outcome R) : io R :=
  match o, fuel with
  | Returned r, _ => mret r
  | _, O => undefined
  | Waits queue, S fuel' =>
      _ ← process_yield;
      o ← on_objects (λ k, k ← wait_end k queue; again k);
      wait_rounds fuel' again o
  | Spins, S fuel' => o ← on_objects again; wait_rounds fuel' again o
  end.

Definition waiting_call {R} (first again : kernel kmem → option (kernel kmem * KernelObjects.outcome R)) : io R :=
  o ← on_objects first; wait_rounds bus_patience again o.

Definition mailbox_send (mailbox message : N) : io unit :=
  waiting_call (λ k, kernel_mailbox_send k mailbox message) (λ k, kernel_mailbox_send_round k mailbox message).
Definition mailbox_receive (mailbox : N) : io N :=
  waiting_call (λ k, kernel_mailbox_receive k mailbox) (λ k, kernel_mailbox_receive_round k mailbox).
Definition event_wait (event : N) : io unit :=
  waiting_call (λ k, kernel_event_wait k event) (λ k, Some (k, Returned tt)).

(** [process_spawn_with_role]. *)
Definition spawn (name : cstr) (entry : string) (role : N) : io N :=
  scheduler_do (process_spawn_with_role CONFIG_RUNTIME_SINGLE_FOREGROUND stacks_base task_bootstrap_first_entry_asm
                  (Some name) (function_address entry) role).

(** ** The callbacks of the command shell

    [context] tells whether the pointer to [g_runtime_management_state] is
    there. *)

Definition management : io runtime_management_demo_state := g ← get_globals; mret (g_runtime_management_state g).
Definition update_management (f : runtime_management_demo_state → runtime_management_demo_state) : io unit :=
  g ← get_globals; set_globals (set_management (f (g_runtime_management_state g)) g).

Definition runtime_management_snapshot (capacity : N) : io (list process_info * N) :=
  scheduler_get (process_snapshot true capacity).

Definition runtime_management_kmem_stats : io kmem_stats :=
  g ← get_globals;
  let '(heap, stats) := kmem_stats_snapshot (heap (kn_objects g)) true in
  _ ← set_globals (set_objects (set_heap heap (kn_objects g)) g);
  lift stats.

(** The mailbox, unless a pointer on the way is NULL. *)
Definition management_mailbox (context : bool) : io (option N) :=
  m ← management; mret (if context then md_mailbox m else None).

Definition runtime_management_mailbox_has_message (context : bool) : io Z :=
  mailbox ← management_mailbox context;
  match mailbox with
  | None => mret 0%Z
  | Some _ => has ← objects_get (λ k, kernel_mailbox_has_message k mailbox); mret (if has : bool then 1%Z else 0%Z)
  end.

Definition runtime_management_mailbox_waiting_senders (context : bool) : io N :=
  mailbox ← management_mailbox context;
  match mailbox with
  | None => mret 0
  | Some _ => objects_get (λ k, kernel_mailbox_waiting_senders k mailbox)
  end.

Definition runtime_management_mailbox_waiting_receivers (context : bool) : io N :=
  mailbox ← management_mailbox context;
  match mailbox with
  | None => mret 0
  | Some _ => objects_get (λ k, kernel_mailbox_waiting_receivers k mailbox)
  end.

Definition runtime_management_mailbox_send (context : bool) (message : N) : io bool :=
  mailbox ← management_mailbox context;
  match mailbox with
  | None => mret false
  | Some mailbox =>
      _ ← mailbox_send mailbox message;
      _ ← update_management (λ m, set_counts (u32 (md_mailbox_send_count m + 1)) (md_mailbox_receive_count m) (md_spawn_count m) m);
      m ← management;
      _ ← log_u32 (cs "PROC") (cs "mailbox_sent_count=") (md_mailbox_send_count m);
      mret true
  end.

(** [message] is the value stored through the pointer, which is there. *)
Definition runtime_management_mailbox_receive (context : bool) : io (N * bool) :=
  mailbox ← management_mailbox context;
  match mailbox with
  | None => mret (0, false)
  | Some mailbox =>
      message ← mailbox_receive mailbox;
      _ ← update_management (λ m, set_counts (md_mailbox_send_count m) (u32 (md_mailbox_receive_count m + 1)) (md_spawn_count m) m);
      m ← management;
      _ ← log_u32 (cs "PROC") (cs "mailbox_message=") message;
      _ ← log_u32 (cs "PROC") (cs "mailbox_receive_count=") (md_mailbox_receive_count m);
      mret (message, true)
  end.

Definition runtime_management_event_signal (context : bool) : io N :=
  m ← management;
  match if context then md_event m else None with
  | None => mret 0
  | Some event =>
      woke ← on_objects (λ k, kernel_event_signal k (Some event));
      _ ← log_u32 (cs "PROC") (cs "event_signal_woke=") woke;
      mret woke
  end.

Definition runtime_management_process_wake (pid : N) : io bool := scheduler_do (Scheduler.process_wake pid).

(** A process that kills itself does not come back; the interrupt registers
    are only read then. *)
Definition runtime_management_process_kill (pid : N) (exit_code : Z) : io bool :=
  scheduler_do (λ s, '(o, killed) ← process_kill CONFIG_SCHEDULER_PREEMPTIVE scheduler_target_preempt_capable (Registers 0 0 0) pid exit_code s;
                     match o with Continues s => Some (s, killed) | _ => None end).

Definition runtime_management_spawn_process (entry : N) (name : option cstr) (role : N) : io N :=
  pid ← scheduler_do (process_spawn_with_role CONFIG_RUNTIME_SINGLE_FOREGROUND stacks_base
                        task_bootstrap_first_entry_asm name entry role);
  _ ← log_u32 (cs "MGMT") (cs "spawn_pid=") pid;
  mret pid.

Definition catalog : list runtime_process_manifest := g_runtime_process_catalog function_address.

Definition runtime_spawn_process_from_task_key (task_key : option cstr) (role : N) : io N :=
  match task_key with
  | None => mret 0
  | Some _ =>
      match runtime_catalog_find (Some catalog) task_key with
      | None => mret 0
      | Some index =>
          manifest ← lift (aget catalog index);
          runtime_management_spawn_process (mf_entry manifest) (mf_process_name manifest) role
      end
  end.

(** What is stored into the buffer, and the count. *)
Definition runtime_management_spawnable_snapshot (buffer : bool) (capacity : N)
  : io (list runtime_manage_spawnable_info * N) :=
  let '(entries, count) := runtime_catalog_snapshot (Some catalog) true RUNTIME_MANAGE_SPAWNABLE_SNAPSHOT_CAPACITY in
  mret (if buffer then (λ e, SpawnableInfo (ce_task_key e) (ce_process_name e) (ce_default_role e)) <$>
                        take (N.to_nat capacity) entries
        else [], count).

Definition update_pids (f : demo_pids → demo_pids) : io unit :=
  g ← get_globals; set_globals (set_pids (f (kn_pids g)) g).

Definition runtime_management_spawn_named_process (task_name : option cstr) (role : N) : io N :=
  match task_name with
  | None => mret 0
  | Some _ =>
      _ ← update_management (λ m, set_counts (md_mailbox_send_count m) (md_mailbox_receive_count m) (u32 (md_spawn_count m + 1)) m);
      pid ← runtime_spawn_process_from_task_key task_name role;
      if pid =? 0 then mret 0
      else
        index ← lift (runtime_catalog_find (Some catalog) task_name);
        manifest ← lift (aget catalog index);
        _ ← (if mf_entry manifest =? function_address "process_mailbox_receiver" then
               update_pids (λ p, DemoPids (g_blocked_pid p) (g_event_waiter_pid p) pid (g_service_pid p)
                                   (g_fs_stress_pid p) (g_second_foreground_rejected p))
             else if mf_entry manifest =? function_address "process_service_server" then
               update_pids (λ p, DemoPids (g_blocked_pid p) (g_event_waiter_pid p) (g_mailbox_receiver_pid p) pid
                                   (g_fs_stress_pid p) (g_second_foreground_rejected p))
             else mret tt);
        mret pid
  end.

Definition runtime_management_demo_profile (context : bool) : io N :=
  m ← management;
  mret (if negb context then RUNTIME_MANAGE_DEMO_PROFILE_OFF
        else if md_demo_profile m =? RUNTIME_MANAGEMENT_DEMO_PROFILE_SMOKE then RUNTIME_MANAGE_DEMO_PROFILE_SMOKE
        else RUNTIME_MANAGE_DEMO_PROFILE_OFF).

Definition runtime_management_demo_set_profile (context : bool) (profile : N) : io bool :=
  if negb context then mret false
  else if negb (profile =? RUNTIME_MANAGE_DEMO_PROFILE_OFF) && negb (profile =? RUNTIME_MANAGE_DEMO_PROFILE_SMOKE) then
    mret false
  else
    let smoke := profile =? RUNTIME_MANAGE_DEMO_PROFILE_SMOKE in
    _ ← update_management (set_profile (if smoke then RUNTIME_MANAGEMENT_DEMO_PROFILE_SMOKE
                                        else RUNTIME_MANAGEMENT_DEMO_PROFILE_OFF));
    _ ← (if smoke then update_management (λ m, default m (runtime_management_demo_reset (Some m))) else mret tt);
    _ ← log (cs "MGMT") (if smoke then cs "auto_on" else cs "auto_off");
    mret true.

Definition completed_steps (m : runtime_management_demo_state) : N :=
  let step (done : bool) := if done then 1 else 0 in
  step (nz (md_demo_runtime_logged m)) + step (nz (md_demo_child_wait_done m)) +
  step (nz (md_demo_manual_wake_done m)) + step (nz (md_demo_event_signal_done m)) +
  step (RUNTIME_MANAGEMENT_DEMO_MAILBOX_TARGET <=? md_demo_mailbox_auto_count m).

Definition runtime_management_demo_completed_steps (context : bool) : io N :=
  m ← management; mret (if context then completed_steps m else 0).

Definition runtime_management_demo_total_steps (context : bool) : io N :=
  m ← management;
  mret (if negb context || negb (md_demo_profile m =? RUNTIME_MANAGEMENT_DEMO_PROFILE_SMOKE) then 0 else 5).

Definition runtime_management_scheduler_mode_name : cstr := scheduler_mode_name CONFIG_SCHEDULER_COOPERATIVE.
Definition runtime_management_runtime_mode_name : cstr := runtime_policy_mode_name CONFIG_RUNTIME_SINGLE_FOREGROUND.
Definition runtime_management_preempt_status_name : io cstr :=
  scheduler_get (λ s, scheduler_preempt_status_name CONFIG_SCHEDULER_PREEMPTIVE scheduler_target_preempt_capable (g_scheduler_preempt_state s)).

(** The shell's callbacks are computations over the hardware and the
    globals together. *)
Definition as_manage {A} (m : io A) : manage (HW * kernel_state) A := λ '(h, g),
  match m h g with Some (h, g, a) => Some (a, (h, g)) | None => None end.
Definition from_manage {A} (m : manage (HW * kernel_state) A) : io A := λ h g,
  match m (h, g) with Some (a, (h, g)) => Some (h, g, a) | None => None end.

Definition g_runtime_manage_ops : runtime_manage_ops (HW * kernel_state) := {|
  mo_snapshot := Some (λ capacity, as_manage (runtime_management_snapshot capacity));
  mo_spawnable_snapshot := Some (λ capacity, as_manage (runtime_management_spawnable_snapshot true capacity));
  mo_kmem_stats := Some (as_manage runtime_management_kmem_stats);
  mo_mailbox_has_message := Some (as_manage (runtime_management_mailbox_has_message true));
  mo_mailbox_waiting_senders := Some (as_manage (runtime_management_mailbox_waiting_senders true));
  mo_mailbox_waiting_receivers := Some (as_manage (runtime_management_mailbox_waiting_receivers true));
  mo_mailbox_send := Some (λ message, as_manage (runtime_management_mailbox_send true message));
  mo_mailbox_receive := Some (as_manage (runtime_management_mailbox_receive true));
  mo_event_signal := Some (as_manage (runtime_management_event_signal true));
  mo_process_wake := Some (λ pid, as_manage (runtime_management_process_wake pid));
  mo_process_kill := Some (λ pid exit_code, as_manage (runtime_management_process_kill pid exit_code));
  mo_spawn_named_process := Some (λ name role, as_manage (runtime_management_spawn_named_process (Some name) role));
  mo_demo_profile := Some (as_manage (runtime_management_demo_profile true));
  mo_demo_set_profile := Some (λ profile, as_manage (runtime_management_demo_set_profile true profile));
  mo_demo_completed_steps := Some (as_manage (runtime_management_demo_completed_steps true));
  mo_demo_total_steps := Some (as_manage (runtime_management_demo_total_steps true));
  mo_shell_path := None;
  mo_resolve_command_path := None;
  mo_scheduler_mode_name := Some (as_manage (mret runtime_management_scheduler_mode_name));
  mo_runtime_mode_name := Some (as_manage (mret runtime_management_runtime_mode_name));
  mo_preempt_status_name := Some (as_manage runtime_management_preempt_status_name);
  mo_log := Some (λ tag message, as_manage (log tag message));
  mo_log_u32 := Some (λ tag label value, as_manage (log_u32 tag label value))
|}.

Definition execute (command : cstr) : io runtime_manage_status :=
  from_manage (runtime_manage_execute (Some command) (Some g_runtime_manage_ops)).

(** ** The demo profile *)

Definition runtime_management_demo_is_active : io bool :=
  m ← management; mret (md_demo_profile m =? RUNTIME_MANAGEMENT_DEMO_PROFILE_SMOKE).

(** [runtime_service_provider_pid]: the process of the service while it
    lives. *)
Definition service_provider_pid : io N :=
  g ← get_globals;
  let pid := g_service_pid (kn_pids g) in
  if pid =? 0 then mret 0
  else
    let '(snapshot, count) := process_snapshot true 16 (kn_scheduler g) in
    info ← lift (snapshot_find_loop (N.to_nat count) snapshot 0 pid);
    match info with
    | None => mret 0
    | Some info =>
        mret (if bool_decide (pi_state info = PROCESS_STATE_ZOMBIE) ||
                 bool_decide (pi_state info = PROCESS_STATE_UNUSED) then 0 else pid)
    end.

Definition service_demo : io runtime_service_demo_state := g ← get_globals; mret (g_runtime_service_state g).
Definition set_service_demo (responses next_request last_tick : N) : io unit :=
  g ← get_globals;
  let d := g_runtime_service_state g in
  set_globals (set_service (ServiceDemo (sd_request_count d) responses (sd_total_processed d) (sd_last_request d)
                              (sd_last_response d) next_request last_tick) g).

Definition runtime_management_service_round_trip : io unit :=
  d ← service_demo;
  let request := u32 (0x20 + N.land (sd_next_client_request d) 3) in
  _ ← log_u32 (cs "SVC") (cs "client_request=") request;
  provider_pid ← service_provider_pid;
  response ← runtime_service_request_sync provider_pid request;
  match response with
  | None => mret tt
  | Some response =>
      d ← service_demo;
      _ ← set_service_demo (u32 (sd_response_count d + 1)) (sd_next_client_request d) (sd_last_client_tick d);
      _ ← log_u32 (cs "SVC") (cs "client_response=") response;
      d ← service_demo;
      _ ← log_u32 (cs "SVC") (cs "response_count=") (sd_response_count d);
      d ← service_demo;
      set_service_demo (sd_response_count d) (N.land (u32 (sd_next_client_request d + 1)) 3) (sd_last_client_tick d)
  end.

Definition mailbox_send_commands : list cstr := [cs "mailbox send 0x101"; cs "mailbox send 0x102"; cs "mailbox send 0x103"].

(** The steps of [runtime_management_run_demo_profile], each with its
    condition. *)
Definition demo_child : io unit :=
  child_pid ← spawn (cs "ONESHOT") "process_oneshot" RUNTIME_PROCESS_ROLE_SYSTEM;
  _ ← log_u32 (cs "PROC") (cs "child_pid=") child_pid;
  _ ← (if child_pid =? 0 then mret tt
       else
         '(waited_pid, exit_code) ← process_waitpid child_pid;
         _ ← log_u32 (cs "PROC") (cs "waited_pid=") (u32_of_Z waited_pid);
         log_u32 (cs "PROC") (cs "wait_exit=") (u32_of_Z (default 0%Z exit_code)));
  update_management (set_child_wait_done 1).

Definition demo_runtime (loops : N) : io unit :=
  m ← management;
  if (md_demo_runtime_logged m =? 0) && (loops =? 1) then
    status ← execute (cs "runtime");
    if bool_decide (status = RUNTIME_MANAGE_STATUS_OK) then update_management (set_runtime_logged 1) else mret tt
  else mret tt.

(** [kernel_ticks_read()] is only called when the tests before it hold. *)
Definition after_ticks (condition : bool) (ticks : N) (m : io unit) : io unit :=
  if condition then now ← ticks_now; if ticks <=? now then m else mret tt else mret tt.

Definition demo_wake : io unit :=
  g ← get_globals;
  let blocked := g_blocked_pid (kn_pids g) in
  after_ticks ((md_demo_manual_wake_done (g_runtime_management_state g) =? 0) && nz blocked) 32
    (woken ← scheduler_do (Scheduler.process_wake blocked);
     if woken : bool then
       _ ← update_management (set_manual_wake_done 1);
       log_u32 (cs "PROC") (cs "woke_pid=") blocked
     else mret tt).

Definition demo_signal : io unit :=
  g ← get_globals;
  after_ticks ((md_demo_event_signal_done (g_runtime_management_state g) =? 0) &&
               nz (g_event_waiter_pid (kn_pids g))) 48
    (match g_worker_event (kn_pointers g) with
     | None => mret tt
     | Some event =>
         woke ← on_objects (λ k, kernel_event_signal k (Some event));
         if nz woke then
           _ ← update_management (set_event_signal_done 1);
           log_u32 (cs "PROC") (cs "woke_channel_count=") woke
         else mret tt
     end).

Definition demo_mailbox : io unit :=
  g ← get_globals;
  let sent := md_demo_mailbox_auto_count (g_runtime_management_state g) in
  let null := match g_worker_mailbox (kn_pointers g) with Some _ => false | None => true end in
  after_ticks (nz (g_mailbox_receiver_pid (kn_pids g)) && negb null && (sent <? RUNTIME_MANAGEMENT_DEMO_MAILBOX_TARGET))
    (64 + sent * 16)
    (command ← lift (aget mailbox_send_commands sent);
     status ← execute command;
     if bool_decide (status = RUNTIME_MANAGE_STATUS_OK) then
       update_management (λ m, set_mailbox_auto_count (u8 (md_demo_mailbox_auto_count m + 1)) m)
     else mret tt).

Definition demo_service : io unit :=
  g ← get_globals;
  if nz (g_service_pid (kn_pids g)) then
    now ← ticks_now;
    d ← service_demo;
    if 24 <=? sub64 now (sd_last_client_tick d) then
      _ ← runtime_management_service_round_trip;
      now ← ticks_now;
      d ← service_demo;
      set_service_demo (sd_response_count d) (sd_next_client_request d) now
    else mret tt
  else mret tt.

Definition runtime_management_run_demo_profile (loops : N) : io unit :=
  active ← runtime_management_demo_is_active;
  if negb active then mret tt
  else
    m ← management;
    if md_demo_child_wait_done m =? 0 then demo_child
    else
      _ ← demo_runtime loops;
      _ ← demo_wake;
      _ ← demo_signal;
      _ ← demo_mailbox;
      _ ← demo_service;
      if N.land loops 0x3F =? 0 then _ ← execute (cs "ps"); mret tt else mret tt.

(** ** The serial console of the shell *)

(** The echo of a character. *)
Definition echo (ch : ascii) : io unit :=
  let c := code ch in
  if (c =? 8) || (c =? 0x7F) then
    on_kernel_console (console_write (Some [ascii_of_N 8; " "%char; ascii_of_N 8]))
  else if c =? 13 then on_kernel_console (console_write (Some ["010"%char]))
  else if (32 <=? c) && (c <=? 126) then on_kernel_console (console_putc ch)
  else mret tt.

(** [runtime_manage_line_push_char] on the line that the supervisor and the
    mailbox receiver share: other processes may have changed it when a command
    that gives up the processor comes back. *)
Definition line_push_char (ch : ascii) : io (runtime_manage_status * bool) :=
  g ← get_globals;
  let line := g_runtime_management_line_state g in
  if ((code ch =? 13) || (code ch =? 10)) && nz (ls_length line) then
    buffer ← lift (aset (ls_buffer line) (ls_length line) NUL);
    _ ← set_globals (set_line_state (LineState buffer (ls_length line)) g);
    command ← lift (array_string buffer);
    status ← execute command;
    g ← get_globals;
    line ← lift (line_init (g_runtime_management_line_state g));
    _ ← set_globals (set_line_state line g);
    mret (status, true)
  else
    '(line, status, pushed) ← from_manage (push_char line ch (Some g_runtime_manage_ops));
    g ← get_globals;
    _ ← set_globals (set_line_state line g);
    mret (status, pushed).

(** The rounds that are left, of eight. *)
Fixpoint poll_uart_loop (count : nat) : io unit :=
  match count with
  | O => mret tt
  | S count' =>
      ch ← uart0_try_getc true;
      match ch with
      | None => mret tt
      | Some ch =>
          _ ← echo ch;
          '(status, pushed) ← line_push_char ch;
          if negb pushed then poll_uart_loop count'
          else
            _ ← (if negb (bool_decide (status = RUNTIME_MANAGE_STATUS_OK)) &&
                    negb (bool_decide (status = RUNTIME_MANAGE_STATUS_EMPTY))
                 then log (cs "MGMT") (runtime_manage_status_name status) else mret tt);
            _ ← on_kernel_console (console_write (Some (cs "mgmt> ")));
            poll_uart_loop count'
      end
  end.

Definition runtime_management_poll_uart_commands : io unit := poll_uart_loop 8.

(** ** Tasks *)

(** The scheduler's variables on the way, and what the tick does to them. *)
Definition runtime_poll_timer_delivery : io unit :=
  latched ← on_kernel_scheduler (timer_get g_runtime_timer_poll_latched);
  if nz latched then mret tt
  else
    int_raw ← reg_read SYSTIMER_INT_RAW_REG;
    int_st ← reg_read SYSTIMER_INT_ST_REG;
    eip ← reg_read INTERRUPT_CORE0_CPU_INT_EIP_STATUS_REG;
    if (N.land (N.lor int_raw int_st) SYSTIMER_TARGET0_INT_ST_BIT =? 0) &&
       (N.land eip (BIT CPU_SYSTIMER_INTR_NUM) =? 0) then mret tt
    else
      _ ← on_kernel_scheduler (s ← get_globals; set_globals (set_latched 1 s));
      _ ← reg_write RTC_CNTL_STORE0_REG 0xD220;
      _ ← reg_write RTC_CNTL_STORE4_REG eip;
      _ ← reg_write RTC_CNTL_STORE6_REG int_raw;
      _ ← reg_write RTC_CNTL_STORE7_REG int_st;
      _ ← on_kernel_scheduler (Interrupts.systimer_tick_isr CONFIG_SCHEDULER_PREEMPTIVE);
      _ ← interrupts_ack CPU_SYSTIMER_INTR_NUM;
      on_kernel_scheduler (s ← get_globals; set_globals (set_latched 0 s)).

Definition runtime_interrupt_take_window : io unit :=
  if CONFIG_SCHEDULER_PREEMPTIVE then
    _ ← runtime_poll_timer_delivery;
    s ← scheduler_get id;
    if scheduler_preempt_pending (g_scheduler_preempt_state s) &&
       (preempt_disable_depth (g_scheduler_preempt_state s) =? 0) && nz (Scheduler.process_current_pid s)
    then process_yield else mret tt
  else mret tt.

(** The first rounds of an endless loop with a counter that starts at 0; a
    round gets the counter that it has counted up. *)
Fixpoint rounds (count : nat) (counter : N) (round : N → io unit) : io unit :=
  match count with
  | O => mret tt
  | S count' => _ ← round (u32 (counter + 1)); rounds count' (u32 (counter + 1)) round
  end.

(** A round of the tasks that [DEFINE_YIELD_TASK] makes. *)
Definition yield_task_round (task_marker counter : N) : io unit :=
  _ ← (if counter =? 1 then reg_write RTC_CNTL_STORE3_REG (N.lor task_marker 1)
       else if N.land counter (TASK_PROGRESS_INTERVAL - 1) =? 0 then
         reg_write RTC_CNTL_STORE3_REG (N.lor task_marker (N.land counter 0xFFFF))
       else mret tt);
  _ ← runtime_poll_timer_delivery;
  if N.land counter 0x7F =? 0 then process_sleep 1
  else _ ← runtime_interrupt_take_window; process_yield.

Definition task_b (count : nat) : io unit := rounds count 0 (yield_task_round 0xB0000000).
Definition task_c (count : nat) : io unit := rounds count 0 (yield_task_round 0xC0000000).
Definition task_e (count : nat) : io unit := rounds count 0 (yield_task_round 0xE0000000).

(** [interrupts_global_state_read] stored into a register. *)
Definition store_mstatus : io unit :=
  mstatus ← csr_get MSTATUS; reg_write RTC_CNTL_STORE4_REG mstatus.

Definition task_a_preemptive (counter : N) : io unit :=
  _ ← (if counter =? 1 then
         _ ← reg_write RTC_CNTL_STORE3_REG 0xA0000001;
         _ ← reg_write RTC_CNTL_STORE0_REG 0xA201;
         _ ← store_mstatus;
         _ ← reg_write RTC_CNTL_STORE0_REG 0xA202;
         store_mstatus
       else if counter =? 2 then reg_write RTC_CNTL_STORE0_REG 0xA203
       else mret tt);
  _ ← (if counter =? 1 then on_display (runtime_display_demo_init layout) else mret tt);
  _ ← on_display runtime_display_demo_poll;
  _ ← (if N.land counter 0x3FFFFF =? 0 then
         _ ← reg_write RTC_CNTL_STORE0_REG 0xA220;
         _ ← reg_write RTC_CNTL_STORE1_REG counter;
         switches ← scheduler_get scheduler_switch_count_read;
         _ ← reg_write RTC_CNTL_STORE2_REG switches;
         _ ← copy_reg RTC_CNTL_STORE4_REG SYSTIMER_CONF_REG;
         _ ← copy_reg RTC_CNTL_STORE5_REG SYSTIMER_TARGET0_CONF_REG;
         ena ← reg_read SYSTIMER_INT_ENA_REG;
         raw ← reg_read SYSTIMER_INT_RAW_REG;
         st ← reg_read SYSTIMER_INT_ST_REG;
         _ ← reg_write RTC_CNTL_STORE6_REG (N.lor (N.lor ena (u32 (N.shiftl raw 8))) (u32 (N.shiftl st 16)));
         copy_reg RTC_CNTL_STORE7_REG SYSTIMER_UNIT0_VALUE_LO_REG
       else mret tt);
  runtime_interrupt_take_window.

Definition task_a_cooperative (counter : N) : io unit :=
  _ ← (if counter =? 1 then
         _ ← reg_write RTC_CNTL_STORE3_REG 0xA0000001;
         _ ← reg_write RTC_CNTL_STORE0_REG 0xA201;
         _ ← store_mstatus;
         log (cs "FG") (cs "task_a_alive")
       else if N.land counter 0xFFFF =? 0 then
         _ ← reg_write RTC_CNTL_STORE3_REG (N.lor 0xA0000000 (N.land counter 0xFFFF));
         _ ← log_u32 (cs "FG") (cs "yield_count=") counter;
         switches ← scheduler_get scheduler_switch_count_read;
         log_u32 (cs "FG") (cs "switch_count=") switches
       else mret tt);
  _ ← (if counter =? 1 then reg_write RTC_CNTL_STORE0_REG 0xA210 else mret tt);
  _ ← on_display runtime_display_demo_poll;
  _ ← (if counter =? 1 then reg_write RTC_CNTL_STORE0_REG 0xA211 else mret tt);
  _ ← runtime_poll_timer_delivery;
  _ ← (if counter =? 1 then reg_write RTC_CNTL_STORE0_REG 0xA212 else mret tt);
  process_yield.

Definition task_a (count : nat) : io unit :=
  rounds count 0 (if CONFIG_SCHEDULER_PREEMPTIVE then task_a_preemptive else task_a_cooperative).

Definition task_d_preemptive (counter : N) : io unit :=
  now ← ticks_now;
  let tick_value := u32 now in
  _ ← (if counter =? 1 then
         _ ← reg_write RTC_CNTL_STORE0_REG 0xD201;
         _ ← reg_write RTC_CNTL_STORE3_REG 0xD0000001;
         _ ← reg_write RTC_CNTL_STORE5_REG 0xD202;
         _ ← reg_write RTC_CNTL_STORE6_REG tick_value;
         switches ← scheduler_get scheduler_switch_count_read;
         _ ← reg_write RTC_CNTL_STORE7_REG switches;
         log (cs "PREEMPT") (cs "task_d_alive")
       else mret tt);
  _ ← on_display (runtime_display_demo_publish_tick tick_value);
  _ ← (if N.land counter 0x1FF =? 0 then
         _ ← reg_write RTC_CNTL_STORE0_REG 0xD220;
         _ ← reg_write RTC_CNTL_STORE1_REG tick_value;
         switches ← scheduler_get scheduler_switch_count_read;
         _ ← reg_write RTC_CNTL_STORE2_REG switches;
         _ ← log_u32 (cs "PREEMPT") (cs "bg_tick=") tick_value;
         switches ← scheduler_get scheduler_switch_count_read;
         log_u32 (cs "PREEMPT") (cs "bg_switch_count=") switches
       else mret tt);
  process_sleep 1.

Definition task_d_cooperative (counter : N) : io unit :=
  now ← ticks_now;
  let tick_value := u32 now in
  _ ← (if counter =? 1 then
         _ ← reg_write RTC_CNTL_STORE0_REG 0xD201;
         _ ← reg_write RTC_CNTL_STORE3_REG 0xD0000001;
         log (cs "BG") (cs "task_d_alive")
       else if N.land counter 0xFFFF =? 0 then
         _ ← reg_write RTC_CNTL_STORE3_REG (N.lor 0xD0000000 (N.land counter 0xFFFF));
         _ ← log_u32 (cs "BG") (cs "yield_count=") counter;
         switches ← scheduler_get scheduler_switch_count_read;
         log_u32 (cs "BG") (cs "switch_count=") switches
       else mret tt);
  _ ← on_display (runtime_display_demo_publish_tick tick_value);
  _ ← runtime_poll_timer_delivery;
  process_yield.

Definition task_d (count : nat) : io unit :=
  rounds count 0 (if CONFIG_SCHEDULER_PREEMPTIVE then task_d_preemptive else task_d_cooperative).

(** [g_worker_event] and its [kernel_event_wait]; NULL is no event. *)
Definition process_event_waiter (count : nat) : io unit :=
  rounds count 0 (λ wake_count,
    g ← get_globals;
    _ ← match g_worker_event (kn_pointers g) with Some event => event_wait event | None => mret tt end;
    _ ← log_u32 (cs "PROC") (cs "event_wake_count=") wake_count;
    process_yield).

Definition process_mailbox_receiver (count : nat) : io unit :=
  rounds count 0 (λ _,
    _ ← runtime_management_poll_uart_commands;
    _ ← execute (cs "mailbox recv");
    process_yield).

Definition process_oneshot : io unit :=
  for_each 0 4096 (λ counter,
    _ ← (if N.land counter 0x3FF =? 0 then reg_write RTC_CNTL_STORE3_REG (N.lor 0xF0000000 counter) else mret tt);
    process_yield).

Definition process_supervisor (count : nat) : io unit :=
  rounds count 0 (λ loops,
    _ ← runtime_management_poll_uart_commands;
    _ ← runtime_management_run_demo_profile loops;
    process_sleep 10).

(** ** The start *)

Definition kernel_spawn_multiprocess_demo : io unit :=
  _ ← reg_write RTC_CNTL_STORE0_REG 0xC094;
  taska_pid ← spawn (cs "TASKA") "task_a" RUNTIME_PROCESS_ROLE_FOREGROUND_APP;
  _ ← reg_write RTC_CNTL_STORE1_REG taska_pid;
  _ ← update_pids (λ p, DemoPids 0 (g_event_waiter_pid p) (g_mailbox_receiver_pid p) (g_service_pid p)
                          (g_fs_stress_pid p) (g_second_foreground_rejected p));
  _ ← reg_write RTC_CNTL_STORE0_REG 0xC095;
  taskd_pid ← spawn (cs "TASKD") "task_d" RUNTIME_PROCESS_ROLE_BACKGROUND_APP;
  _ ← reg_write RTC_CNTL_STORE2_REG taskd_pid;
  _ ← reg_write RTC_CNTL_STORE0_REG 0xC096;
  update_pids (λ p, DemoPids (g_blocked_pid p) 0 0 0 0 (g_second_foreground_rejected p)).

Definition kernel_spawn_single_foreground_demo : io unit :=
  first_foreground ← spawn (cs "FGAPP") "task_a" RUNTIME_PROCESS_ROLE_FOREGROUND_APP;
  second_foreground ← spawn (cs "FGAPP2") "task_b" RUNTIME_PROCESS_ROLE_FOREGROUND_APP;
  _ ← spawn (cs "BGSYNC") "task_c" RUNTIME_PROCESS_ROLE_BACKGROUND_APP;
  blocked ← spawn (cs "MANUALBG") "task_d" RUNTIME_PROCESS_ROLE_BACKGROUND_APP;
  event_waiter ← spawn (cs "LIVEACT") "process_event_waiter" RUNTIME_PROCESS_ROLE_LIVE_ACTIVITY;
  mailbox_receiver ← spawn (cs "MAILBOXRX") "process_mailbox_receiver" RUNTIME_PROCESS_ROLE_BACKGROUND_APP;
  service ← spawn (cs "SVCSERVER") "process_service_server" RUNTIME_PROCESS_ROLE_SYSTEM;
  fs_stress ← (if CONFIG_RUNTIME_ENABLE_FS_STRESS then spawn (cs "FSSTRESS") "process_fs_stress" RUNTIME_PROCESS_ROLE_SYSTEM
               else mret 0);
  _ ← spawn (cs "SUPERVISOR") "process_supervisor" RUNTIME_PROCESS_ROLE_SYSTEM;
  update_pids (λ _, DemoPids blocked event_waiter mailbox_receiver service fs_stress
                      (nz first_foreground && (second_foreground =? 0))).

(** [kernel_main] does not return: the first process runs, or the processor
    halts. *)
Inductive main_outcome := FirstProcess (index : N) | MainHalts.

(** The counters and tables that [kernel_main] clears. *)
Definition clear_demo_states : io unit :=
  g ← get_globals;
  let m := g_runtime_management_state g in
  let p := kn_pointers g in
  let m := ManagementDemo (g_worker_mailbox p) (g_worker_event p) 0 0 0 RUNTIME_MANAGEMENT_DEMO_PROFILE_SMOKE
             (md_demo_runtime_logged m) (md_demo_child_wait_done m) (md_demo_manual_wake_done m)
             (md_demo_event_signal_done m) (md_demo_mailbox_auto_count m) in
  let f := g_runtime_fs_stress_state g in
  sessions ← lift (runtime_service_session_table_init (Some (g_runtime_service_sessions g)));
  line ← lift (line_init (g_runtime_management_line_state g));
  set_globals
    (set_management (default m (runtime_management_demo_reset (Some m)))
      (set_service (ServiceDemo 0 0 0 0 0 0 0)
        (set_service_sessions sessions
          (set_fs_stress (StressState (ss_system f) (ss_image_buffer f) 0 0 0 0 0 0 0 0 0 0 (g_runtime_fs_stage1_diag f))
            (set_line_state line g))))).

Definition create_kernel_objects : io bool :=
  worker_event ← on_objects kernel_event_create;
  _ ← reg_write RTC_CNTL_STORE0_REG 0xC00C;
  worker_mailbox ← on_objects kernel_mailbox_create;
  _ ← reg_write RTC_CNTL_STORE0_REG 0xC00D;
  request_event ← on_objects kernel_event_create;
  request_mailbox ← on_objects kernel_mailbox_create;
  reply_mailbox ← on_objects kernel_mailbox_create;
  reply_semaphore ← on_objects (λ k, kernel_semaphore_create k 0 1);
  state_mutex ← on_objects kernel_mutex_create;
  _ ← reg_write RTC_CNTL_STORE0_REG 0xC00E;
  g ← get_globals;
  _ ← set_globals (set_pointers (KernelObjectPointers worker_event worker_mailbox request_event request_mailbox
                                   reply_mailbox reply_semaphore state_mutex) g);
  let null (p : option N) := match p with Some _ => false | None => true end in
  mret (negb (null worker_event || null worker_mailbox || null request_event || null request_mailbox ||
              null reply_mailbox || null reply_semaphore || null state_mutex)).

(** [scheduler_run]; the poll in [process_yield] is made with the
    registers. *)
Definition run_scheduler : io main_outcome :=
  _ ← on_kernel_scheduler (s ← get_globals; set_globals (Scheduler.set_current UINT32_MAX s));
  _ ← runtime_poll_timer_delivery;
  g ← get_globals;
  o ← lift (scheduler_run CONFIG_SCHEDULER_PREEMPTIVE scheduler_target_preempt_capable (Registers 0 0 0) (kn_scheduler g));
  match o with
  | Starts s to => _ ← set_globals (set_kn_scheduler s g); mret (FirstProcess to)
  | Halts s _ => _ ← set_globals (set_kn_scheduler s g); mret MainHalts
  | _ => undefined
  end.

(** [if (condition) call], and a mark. *)
Definition mark_after (condition : bool) (call : io unit) (mark : N) : io unit :=
  if condition then _ ← call; reg_write RTC_CNTL_STORE0_REG mark else mret tt.

(** From the objects on. *)
Definition kernel_main_spawns : io main_outcome :=
  _ ← clear_demo_states;
  _ ← reg_write RTC_CNTL_STORE0_REG 0xC00F;
  _ ← log (cs "DISPLAY") (cs "call_init");
  _ ← reg_write RTC_CNTL_STORE0_REG 0xC090;
  _ ← (if negb CONFIG_SCHEDULER_PREEMPTIVE then on_display (runtime_display_demo_init layout) else mret tt);
  _ ← mark_after (negb TEST_DISABLE_INTERRUPT_PIPELINE && negb TEST_DELAY_GLOBAL_INTERRUPTS &&
                  negb CONFIG_SCHEDULER_PREEMPTIVE) interrupts_enable 0xC092;
  _ ← reg_write RTC_CNTL_STORE0_REG 0xC093;
  _ ← (if CONFIG_RUNTIME_SINGLE_FOREGROUND then kernel_spawn_single_foreground_demo else kernel_spawn_multiprocess_demo);
  _ ← reg_write RTC_CNTL_STORE0_REG 0xC097;
  _ ← reg_write RTC_CNTL_STORE0_REG 0xC010;
  g ← get_globals;
  _ ← reg_write RTC_CNTL_STORE1_REG (g_blocked_pid (kn_pids g));
  _ ← reg_write RTC_CNTL_STORE2_REG (g_event_waiter_pid (kn_pids g));
  _ ← reg_write RTC_CNTL_STORE3_REG (g_fs_stress_pid (kn_pids g));
  _ ← reg_write RTC_CNTL_STORE4_REG (process_count (kn_scheduler g));
  _ ← (if negb TEST_DISABLE_INTERRUPT_PIPELINE && TEST_DELAY_GLOBAL_INTERRUPTS then
         log (cs "KERNEL") (cs "interrupts_deferred_dram")
       else mret tt);
  _ ← mark_after (negb TEST_DISABLE_INTERRUPT_PIPELINE && negb TEST_DELAY_GLOBAL_INTERRUPTS &&
                  CONFIG_SCHEDULER_PREEMPTIVE) interrupts_enable 0xC092;
  _ ← reg_write RTC_CNTL_STORE0_REG 0xC098;
  run_scheduler.

(** [csrci mstatus, 8]. *)
Definition interrupts_global_disable : io unit :=
  mstatus ← csr_get MSTATUS; csr_set MSTATUS (N.ldiff mstatus 8).

Definition kernel_main : io main_outcome :=
  _ ← reg_write RTC_CNTL_STORE0_REG 0xC001;
  _ ← interrupts_global_disable;
  _ ← reg_write RTC_CNTL_STORE0_REG 0xC002;
  _ ← on_kernel_scheduler (s ← get_globals; set_globals (set_preempt (scheduler_preempt_init (g_scheduler_preempt_state s)) s));
  _ ← reg_write RTC_CNTL_STORE0_REG 0xC003;
  _ ← log (cs "KERNEL") (cs "kernel_start_dram");
  _ ← reg_write RTC_CNTL_STORE0_REG 0xC004;
  _ ← reg_write RTC_CNTL_STORE0_REG 0xC005;
  _ ← reg_write RTC_CNTL_STORE0_REG 0xC006;
  _ ← reg_write RTC_CNTL_STORE0_REG 0xC007;
  let loader_catalog_ok := runtime_loader_validate_catalog (Some g_runtime_loader_catalog) in
  _ ← reg_write RTC_CNTL_STORE0_REG (if loader_catalog_ok then 0xC071 else 0xC07E);
  if negb loader_catalog_ok then mret MainHalts
  else
    _ ← reg_write RTC_CNTL_STORE0_REG 0xC008;
    _ ← (if TEST_DISABLE_INTERRUPT_PIPELINE then mret tt
         else
           _ ← interrupts_init;
           _ ← reg_write RTC_CNTL_STORE0_REG 0xC009;
           _ ← mark_after (negb TEST_SKIP_SYSTIMER_TICK_INIT) systimer_tick_init 0xC00A;
           if TEST_DELAY_GLOBAL_INTERRUPTS then mret tt
           else _ ← reg_write RTC_CNTL_STORE0_REG 0xC00B; log (cs "KERNEL") (cs "interrupts_deferred_dram"));
    created ← create_kernel_objects;
    if negb created then mret MainHalts else kernel_main_spawns.
End kernel.

(** * Booting *)

(** ** Steps that only concern the hardware *)

Definition quiet_driver {HW G A} (m : driver HW G A) : Prop := ∀ h g, runs m h g (λ _ _ g', g' = g).

Ltac hardware_step :=
  lazymatch goal with
  | |- runs (mbind _ _) _ _ _ => apply runs_bind
  | |- runs (mret _) _ _ _ => apply runs_ret
  | |- runs (reg_write _ _) _ _ _ => apply runs_write
  | |- runs (reg_read _) _ _ _ => apply runs_read
  | |- runs (csr_get _) _ _ _ => apply runs_csr_get
  | |- runs (csr_set _ _) _ _ _ => apply runs_csr_set
  | |- runs get_globals _ _ _ => apply runs_get_globals
  | |- runs (set_globals _) _ _ _ => apply runs_set_globals
  | |- runs (copy_reg _ _) _ _ _ => unfold copy_reg
  | |- runs (reg_set_bits _ _) _ _ _ => unfold reg_set_bits
  | |- runs (reg_clear_bits _ _) _ _ _ => unfold reg_clear_bits
  end; cbv beta;
  lazymatch goal with |- runs _ ?h _ _ => try (generalize h; intros ?hw) | _ => idtac end.

Section quiet.
Context {HW : Type} `{!Bus HW, !Rom HW} {G : Type}.

Lemma clear_all_quiet : quiet_driver (HW := HW) (G := G) interrupt_matrix_clear_all.
Proof.
  intros h g. apply (runs_for (λ _ _ g', g' = g)); [done| |by intros ?? ->].
  intros index h' g' _ ->. by eexists _, _, _.
Qed.

Lemma interrupts_init_quiet : quiet_driver (HW := HW) (G := G) interrupts_init.
Proof.
  intros h g. unfold interrupts_init, interrupt_route_disconnect_all, interrupt_disable_mask.
  repeat hardware_step. eapply runs_weaken; [apply clear_all_quiet|]. intros [] h' g' ->.
  repeat hardware_step. unfold interrupt_route_connect. eexists _, _, _. split; [done|].
  unfold interrupt_cpu_line_configure, interrupt_set_priority, interrupt_set_type. cbn [ir_type g_systimer_irq].
  change (INTR_TYPE_LEVEL =? INTR_TYPE_EDGE) with false. cbv iota.
  unfold interrupt_selfcheck_dump, interrupt_enable_read, interrupt_type_read, interrupt_priority_read.
  repeat hardware_step. done.
Qed.

Lemma systimer_tick_init_quiet : quiet_driver (HW := HW) (G := G) systimer_tick_init.
Proof. intros h g. unfold systimer_tick_init. repeat hardware_step. done. Qed.

Lemma interrupts_enable_quiet : quiet_driver (HW := HW) (G := G) interrupts_enable.
Proof. intros h g. unfold interrupts_enable, trap_mtvec_read, csr_set_bits_mstatus. repeat hardware_step. done. Qed.
End quiet.

(** ** The state on the way *)

(** The static initialisers of the heap and the object tables. *)
Definition initial_objects : kernel kmem := Kernel kmem_reset 1 ∅ ∅ ∅ ∅ ∅ [] UINT32_MAX.

(** The display demo before and after its initialisation. *)
Definition display_ok (initialized : bool) (d : demo_state) : Prop :=
  if initialized then parts_ok d ∧ ∃ front back, demo_ok d front back else demo_fresh d.

Lemma display_ok_console initialized c d : display_ok initialized d → console_ok c → display_ok initialized (set_demo_console c d).
Proof.
  destruct initialized; [intros ([] & front & back & []) Hc|intros [? ? ? ? []] Hc]; [|by constructor].
  split; [done|]. exists front, back. by constructor.
Qed.

(** The console is ready, the display demo initialised or not, and the
    scheduler and the objects are as given. *)
Record boot_state (initialized : bool) (s : scheduler) (k : kernel kmem) (g : kernel_state) : Prop := {
  ba_scheduler : kn_scheduler g = s;
  ba_objects : kn_objects g = k;
  ba_console : console_ok (kn_console g);
  ba_line : ls_buffer (g_runtime_management_line_state g) ≠ [];
  ba_display : display_ok initialized (whole_display g)
}.

Section boot.
Context {HW : Type} `{!Bus HW, !Rom HW, !Others HW, !Processor HW, !UartDevice HW, !UsbDevice HW, !SpiDevice HW}.
Context (SF PRE COOP FSS DELAY NOIRQ NOTICK : bool) (layout base first_entry : N) (function_address : string → N).
Implicit Types (h : HW) (g : kernel_state).

Lemma quiet_runs (m : driver HW kernel_state unit) h g (Q : unit → HW → kernel_state → Prop) :
  quiet_driver m → (∀ h', Q tt h' g) → runs m h g Q.
Proof. intros Hm HQ. eapply runs_weaken; [apply Hm|]. intros [] h' g' ->. apply HQ. Qed.

(** *** Steps before and after the initialisation of the display *)

Section steps.
Context {initialized : bool}.
Abbreviation boot_at := (boot_state initialized).

Lemma runs_log s k tag message h g (Q : unit → HW → kernel_state → Prop) :
  boot_at s k g →
  (∀ h' g', boot_at s k g' → kn_pids g' = kn_pids g → kn_pointers g' = kn_pointers g → Q tt h' g') →
  runs (log tag message) h g Q.
Proof.
  intros [H1 H2 H3 H4 H5] HQ. apply runs_within. eapply runs_weaken; [by apply console_log_returns|].
  intros [] h' c' Hc. pose proof (display_ok_console _ c' _ H5 Hc). destruct g as [[] ? ? ? ? ? ? ? ? ?].
  apply HQ; [|done..]. by split.
Qed.

Lemma runs_if {A} (b : bool) (m m' : driver HW kernel_state A) h g Q :
  (b = true → runs m h g Q) → (b = false → runs m' h g Q) → runs (if b then m else m') h g Q.
Proof. destruct b; auto. Qed.

(** *** Objects *)

(** Creating an object needs memory, and leaves the process table. *)
Lemma runs_create {A} (f : kernel kmem → option (kernel kmem * A)) k k' a h g (Q : A → HW → kernel_state → Prop) :
  boot_at initial_scheduler k g →
  f (KernelObjects.set_current UINT32_MAX (KernelObjects.set_processes (g_processes initial_scheduler) k)) = Some (k', a) →
  processes k' = g_processes initial_scheduler →
  (∀ h' g', boot_at initial_scheduler k' g' → kn_pids g' = kn_pids g → Q a h' g') →
  runs (on_objects f) h g Q.
Proof.
  intros [H1 H2 H3 H4 H5] Hf Hp HQ. unfold on_objects. apply runs_bind, runs_get_globals. rewrite H1, H2.
  change (g_current_process_index initial_scheduler) with UINT32_MAX. apply runs_bind. eapply runs_lift; [exact Hf|].
  cbv iota beta. apply runs_bind. eapply (runs_lift _ initial_scheduler).
  { rewrite Hp. by vm_compute. }
  apply runs_bind, runs_set_globals, runs_ret. destruct g as [[] ? ? ? ? ? ? ? ? ?]. apply HQ; by split.
Qed.

Definition object_table : kernel kmem :=
  KernelObjects.set_current UINT32_MAX (KernelObjects.set_processes (g_processes initial_scheduler) initial_objects).

Lemma create_runs h g (Q : bool → HW → kernel_state → Prop) :
  boot_at initial_scheduler initial_objects g →
  (∀ k p h' g', create_objects object_table = Some (k, p) → boot_at initial_scheduler k g' → kn_pointers g' = p → Q true h' g') →
  runs create_kernel_objects h g Q.
Proof.
  intros Hb HQ. unfold create_kernel_objects.
  repeat first [hardware_step | eapply runs_create; [eassumption|vm_compute; reflexivity|reflexivity|clear Hb; intros ? ? Hb _]].
  cbn [negb orb]. eapply HQ; [vm_compute; reflexivity| |match goal with |- kn_pointers (set_pointers _ ?g) = _ => by destruct g end].
  destruct Hb as [H1 H2 H3 H4 H5]. match goal with |- boot_at _ _ (set_pointers _ ?g) => destruct g end. by split.
Qed.

(** *** Processes *)

(** The scheduler is in a state that calls lead to. *)
Definition booting (s : scheduler) : Prop :=
  reachable SF PRE false base first_entry (Machine Calls s) ∧ g_current_process_index s = UINT32_MAX.

Lemma booting_initial : booting initial_scheduler.
Proof. split; [constructor|reflexivity]. Qed.

(** A spawn: it is refused, or a new READY process has the first free slot. *)
Lemma runs_spawn s k name entry role h g (Q : N → HW → kernel_state → Prop) :
  stacks_fit base → booting s → boot_at s k g →
  (∀ pid s' h' g', booting s' → boot_at s' k g' → kn_pids g' = kn_pids g → kn_pointers g' = kn_pointers g →
     let i := process_core_find_free_slot (g_processes s) in
     (pid = 0 ∧ s' = s ∧ (function_address entry = 0 ∨ i = UINT32_MAX ∨ g_next_pid s = 0 ∨
        runtime_policy_can_spawn SF (g_processes s) role = false)) ∨
     (pid ≠ 0 ∧ runtime_policy_can_spawn SF (g_processes s) role = true ∧ i < 10 ∧ synced s' ∧
      g_processes s' = <[N.to_nat i := spawned pid (Scheduler.process_current_pid s) (Some name) role]> (g_processes s)) →
     Q pid h' g') →
  runs (spawn SF base first_entry function_address name entry role) h g Q.
Proof.
  intros Hfit [Hr Hcur] [H1 H2 H3 H4 H5] HQ.
  destruct (reachable_ok _ _ _ _ _ _ Hfit Hr) as [Hm _]. cbn in Hm.
  destruct (spawn_ok SF base first_entry (Some name) (function_address entry) role s Hm Hfit) as (s' & pid & E & Hm' & Hc & Hcase).
  unfold spawn, scheduler_do, on_kernel_scheduler. apply runs_within. rewrite H1. apply runs_bind, runs_get_globals, runs_bind.
  eapply runs_lift; [exact E|]. cbv iota beta. apply runs_bind, runs_set_globals, runs_ret.
  apply (HQ pid s').
  - split; [|congruence]. eapply reachable_step; [exact Hr|].
    apply (step_call _ _ _ _ _ (Registers 0 0 0) (CSpawn (Some name) (function_address entry) role) _ (Continues s')); [|constructor].
    cbn [perform]. by rewrite E.
  - destruct g as [[] ? ? ? ? ? ? ? ? ?]. by split.
  - by destruct g.
  - by destruct g.
  - destruct Hcase as [(-> & -> & Hw)|(_ & -> & Hp & Hi & _ & Hpol & Hs & Hpr & _)]; [left|right]; by split_and!.
Qed.

(** *** The first process *)

Lemma first_process_runs regs s :
  stacks_fit base → booting s → synced s → (∃ i, state_of s i = PROCESS_STATE_READY) →
  ∃ i s', scheduler_run PRE false regs s = Some (Starts s' i) ∧ state_of s' i = PROCESS_STATE_RUNNING.
Proof.
  intros Hfit [Hr Hcur] Hsync [j Hj]. destruct (reachable_ok _ _ _ _ _ _ Hfit Hr) as [Hm _]. cbn in Hm.
  destruct (poll_ok PRE regs s (proj1 Hm)) as (s1 & E1 & Hi1 & Ht & Hs1). pose proof Ht as (_ & Hcur1 & Hst).
  assert (scheduler_run PRE false regs s = o ← scheduler_start_first_process (scheduler_pick_next_ready s1) s1;
    Some (match o with Continues s => Halts s YIELD_RETURNED | _ => o end)) as ->.
  { unfold scheduler_run, Scheduler.process_yield. assert (Scheduler.set_current UINT32_MAX s = s) as -> by (rewrite <-Hcur; by destruct s).
    rewrite Hcur. change (UINT32_MAX =? UINT32_MAX) with true. cbv iota. by rewrite E1. }
  destruct (start_first_ok s1) as (o & Eo & Ho); [by eapply machine_inv_tick|congruence|]. rewrite Eo. cbn [mbind option_bind].
  destruct (pick_cases s1 Hi1) as [Hp|[Hlt _]].
  { exfalso. destruct (synced_pick s1 (Hs1 Hsync)) as [[_ Hn]|[Hne _]]; [|done].
    apply (Hn j). by apply Hst. }
  unfold scheduler_start_first_process in Eo. rewrite lt_10_processes in Eo by done.
  repeat (case_match; simplify_option_eq; try (by destruct Ho as [?|(_ & ? & _)])).
  destruct Ho as (_ & _ & _ & _ & _ & Hrun). eexists _, _. by split.
Qed.

Definition no_status : timer_registers := Registers 0 0 0.

(** The run of a scheduler that polls nothing, when the poll is made first. *)
Lemma run_polled regs s s1 :
  g_current_process_index s = UINT32_MAX → Scheduler.runtime_poll_timer_delivery PRE regs s = Some s1 →
  g_current_process_index s1 = UINT32_MAX →
  scheduler_run PRE false no_status s1 = scheduler_run PRE false regs s.
Proof.
  intros Hc E Hc1. unfold scheduler_run, Scheduler.process_yield.
  assert (Scheduler.set_current UINT32_MAX s = s) as -> by (rewrite <-Hc; by destruct s).
  assert (Scheduler.set_current UINT32_MAX s1 = s1) as -> by (rewrite <-Hc1; by destruct s1).
  rewrite Hc, Hc1, E. change (UINT32_MAX =? UINT32_MAX) with true. cbv iota.
  assert (Scheduler.runtime_poll_timer_delivery PRE no_status s1 = Some s1) as ->; [|done].
  unfold Scheduler.runtime_poll_timer_delivery. by destruct (nz _).
Qed.

Lemma runs_scheduler_do {A} (m : driver HW scheduler A) h g (Q : A → HW → kernel_state → Prop) :
  runs m h (kn_scheduler g) (λ a h' s, Q a h' (set_kn_scheduler s g)) → runs (on_kernel_scheduler m) h g Q.
Proof. apply runs_within. Qed.

Lemma kn_scheduler_set s g : kn_scheduler (set_kn_scheduler s g) = s.
Proof. by destruct g as [[] ? ? ? ? ? ? ? ? ?]. Qed.
Lemma set_kn_scheduler_twice s s' g : set_kn_scheduler s (set_kn_scheduler s' g) = set_kn_scheduler s g.
Proof. by destruct g as [[] ? ? ? ? ? ? ? ? ?]. Qed.
Lemma set_kn_scheduler_same g : set_kn_scheduler (kn_scheduler g) g = g.
Proof. by destruct g as [[] ? ? ? ? ? ? ? ? ?]. Qed.

(** The poll with the registers does what [Scheduler.v] has, for some values
    of the registers. *)
Lemma poll_runs h g :
  sched_inv (kn_scheduler g) →
  runs (runtime_poll_timer_delivery PRE) h g (λ _ _ g', ∃ regs s1,
    Scheduler.runtime_poll_timer_delivery PRE regs (kn_scheduler g) = Some s1 ∧ g' = set_kn_scheduler s1 g).
Proof.
  intros Hi. unfold runtime_poll_timer_delivery. apply runs_bind, runs_scheduler_do, runs_timer_get.
  rewrite set_kn_scheduler_same. destruct (nz _) eqn:Hl.
  { apply runs_ret. exists no_status, (kn_scheduler g). rewrite set_kn_scheduler_same. split; [|done].
    unfold Scheduler.runtime_poll_timer_delivery. by rewrite Hl. }
  do 3 (apply runs_bind, runs_read). set (raw := (bus_read SYSTIMER_INT_RAW_REG h).2). cbv beta.
  destruct (_ && _) eqn:Hquiet.
  { apply runs_ret. exists no_status, (kn_scheduler g). rewrite set_kn_scheduler_same. split; [|done].
    unfold Scheduler.runtime_poll_timer_delivery. by rewrite Hl. }
  apply runs_bind, runs_scheduler_do. repeat hardware_step. apply runs_scheduler_do. rewrite kn_scheduler_set.
  set (latched := set_latched 1 (kn_scheduler g)).
  match goal with |- runs _ ?x _ _ => set (regs := Registers 1 (bus_read SYSTIMER_INT_ST_REG x).2 0) end.
  destruct (tick_isr_ok PRE regs latched) as (s2 & E2 & _).
  { eapply same_core_inv; [apply (proj1 (set_latched_core 1 (kn_scheduler g)))|done]. }
  eapply runs_weaken; [by apply (isr_is_tick PRE regs)|]. intros [] ? s3 (_ & ->). rewrite set_kn_scheduler_twice.
  unfold interrupts_ack. repeat hardware_step. apply runs_scheduler_do. rewrite kn_scheduler_set. repeat hardware_step.
  rewrite set_kn_scheduler_twice. exists regs, (set_latched 0 s2). split; [|done].
  unfold Scheduler.runtime_poll_timer_delivery. rewrite Hl. fold latched. rewrite E2.
  rewrite (proj2 (N.eqb_neq _ _)); [reflexivity|].
  intros Hq. apply (f_equal (λ x, N.testbit x 0)) in Hq. rewrite N.land_spec, N.lor_spec in Hq. done.
Qed.

Lemma run_scheduler_runs s k h g :
  stacks_fit base → booting s → boot_at s k g → synced s → (∃ i, state_of s i = PROCESS_STATE_READY) →
  runs (run_scheduler PRE) h g (λ o _ g', ∃ i, o = FirstProcess i ∧
    state_of (kn_scheduler g') i = PROCESS_STATE_RUNNING ∧
    reachable SF PRE false base first_entry (Machine Calls (kn_scheduler g')) ∧
    kn_objects g' = k ∧ kn_pointers g' = kn_pointers g ∧ kn_pids g' = kn_pids g ∧ display_ok initialized (whole_display g')).
Proof.
  intros Hfit Hb [<- H2 H3 H4 H5] Hsync Hready. pose proof Hb as [Hr Hcur]. set (s := kn_scheduler g) in *.
  destruct (reachable_ok _ _ _ _ _ _ Hfit Hr) as [Hm _]. cbn in Hm.
  unfold run_scheduler. apply runs_bind, runs_scheduler_do. repeat hardware_step. fold s.
  assert (Scheduler.set_current UINT32_MAX s = s) as -> by (rewrite <-Hcur; by destruct s). unfold s at 1. rewrite set_kn_scheduler_same.
  eapply runs_weaken; [apply poll_runs; apply Hm|]. intros [] ? g1 (regs & s1 & E & ->). repeat hardware_step. rewrite kn_scheduler_set.
  destruct (poll_ok PRE regs s (proj1 Hm)) as (s1' & E1 & _ & (_ & Hcur1 & _) & _). fold s in E. rewrite E in E1. injection E1 as <-.
  change (Registers 0 0 0) with no_status. unfold scheduler_target_preempt_capable. rewrite (run_polled regs s s1) by (done || congruence).
  destruct (first_process_runs regs s Hfit Hb Hsync Hready) as (i & s' & Erun & Hst).
  rewrite Erun. apply (runs_lift _ (Starts s' i)); [done|]. repeat hardware_step. exists i.
  rewrite !kn_scheduler_set. split; [done|]. split; [done|]. split.
  - eapply reachable_step; [exact Hr|]. eapply step_run; [exact Hcur|exact Erun|constructor].
  - by destruct g as [[] ? ? ? ? ? ? ? ? ?].
Qed.

Lemma clear_runs s k h g (Q : unit → HW → kernel_state → Prop) :
  boot_at s k g →
  (∀ h' g', boot_at s k g' → kn_pids g' = kn_pids g → kn_pointers g' = kn_pointers g → Q tt h' g') →
  runs clear_demo_states h g Q.
Proof.
  intros [H1 H2 H3 H4 H5] HQ. unfold clear_demo_states. repeat hardware_step. eapply runs_lift; [done|].
  apply runs_bind. destruct (ls_buffer (g_runtime_management_line_state g)) as [|c buffer] eqn:Eb; [done|].
  eapply runs_lift; [unfold line_init; rewrite Eb; reflexivity|]. repeat hardware_step.
  destruct g. apply HQ; by split.
Qed.

(** A process is READY, and the queue is up to date. *)
Definition one_ready (s : scheduler) : Prop := booting s ∧ synced s ∧ state_of s 0 = PROCESS_STATE_READY.

Lemma ready_after_insert l i pid parent name role s s' :
  g_processes s = l → g_processes s' = <[N.to_nat i := spawned pid parent name role]> l →
  i < N.of_nat (length l) → i = 0 ∨ state_of s 0 = PROCESS_STATE_READY → state_of s' 0 = PROCESS_STATE_READY.
Proof.
  intros Hl Hl' Hi Hor. unfold state_of in *. rewrite Hl in Hor. rewrite Hl'. rewrite aget_lookup in *. destruct Hor as [->|H0].
  - by rewrite list_lookup_insert_eq by lia.
  - destruct (decide (i = 0)) as [->|]; [by rewrite list_lookup_insert_eq by lia|].
    by rewrite list_lookup_insert_ne by lia.
Qed.

Lemma runs_more s k name entry role h g (Q : N → HW → kernel_state → Prop) :
  stacks_fit base → one_ready s → boot_at s k g →
  (∀ pid s' h' g', one_ready s' → boot_at s' k g' → kn_pids g' = kn_pids g → kn_pointers g' = kn_pointers g →
     (runtime_policy_can_spawn SF (g_processes s) role = false → pid = 0) → Q pid h' g') →
  runs (spawn SF base first_entry function_address name entry role) h g Q.
Proof.
  intros Hfit (Hb & Hs & Hready) Hat HQ. eapply runs_spawn; [done..|].
  intros pid s' h' g' Hb' Hat' Hpids Hptr i [(-> & -> & _)|(Hpid & Hpol & Hi & Hs' & Hp)].
  - by apply (HQ 0 s).
  - apply (HQ pid s'); [|done..|congruence]. split; [done|]. split; [done|].
    apply (ready_after_insert (g_processes s) i pid (Scheduler.process_current_pid s) (Some name) role s s'); [reflexivity|exact Hp| |by right].
    destruct (reachable_ok _ _ _ _ _ _ Hfit (proj1 Hb)) as [[Hm _] _]. destruct (inv_tables _ (proj1 Hm)) as [Hlen _].
    cbn in Hlen. rewrite Hlen. exact Hi.
Qed.

(** The first process, in the first slot. *)
Lemma runs_first k name entry role h g (Q : N → HW → kernel_state → Prop) :
  stacks_fit base → function_address entry ≠ 0 → boot_at initial_scheduler k g →
  (∀ pid s' h' g', pid ≠ 0 → one_ready s' → boot_at s' k g' → kn_pids g' = kn_pids g → kn_pointers g' = kn_pointers g →
     g_processes s' = <[0%nat := spawned pid 0 (Some name) role]> (g_processes initial_scheduler) → Q pid h' g') →
  runs (spawn SF base first_entry function_address name entry role) h g Q.
Proof.
  intros Hfit He Hat HQ. eapply runs_spawn; [done|apply booting_initial|exact Hat|].
  intros pid s' h' g' Hb' Hat' Hpids Hptr i [(-> & _ & Hw)|(Hpid & _ & Hi & Hs' & Hp)].
  - exfalso. destruct Hw as [?|[?|[?|Hw]]]; [done..|]. revert Hw. unfold runtime_policy_can_spawn. destruct SF; [|done].
    by destruct (negb (role =? _)).
  - apply (HQ pid s'); [done| |done..]. split; [done|]. split; [done|].
    by apply (ready_after_insert (g_processes initial_scheduler) i pid 0 (Some name) role initial_scheduler s'); [|exact Hp| |left].
Qed.

(** *** The two configurations *)

Lemma runs_update_pids s k f h g (Q : unit → HW → kernel_state → Prop) :
  boot_at s k g →
  (∀ g', boot_at s k g' → kn_pids g' = f (kn_pids g) → kn_pointers g' = kn_pointers g → Q tt h g') →
  runs (update_pids f) h g Q.
Proof.
  intros [H1 H2 H3 H4 H5] HQ. unfold update_pids. apply runs_bind, runs_get_globals, runs_set_globals.
  destruct g. apply HQ; by split.
Qed.

(** What the rest of [kernel_main] needs. *)
Definition processes_spawned (k : kernel kmem) (g g' : kernel_state) : Prop :=
  ∃ s, one_ready s ∧ boot_at s k g' ∧ kn_pointers g' = kn_pointers g ∧
    (SF = true → g_second_foreground_rejected (kn_pids g') = true).

Lemma multiprocess_runs k h g :
  SF = false → stacks_fit base → function_address "task_a" ≠ 0 → boot_at initial_scheduler k g →
  runs (kernel_spawn_multiprocess_demo SF base first_entry function_address) h g (λ _ _ g', processes_spawned k g g').
Proof.
  intros HSF Hfit Ha Hat. unfold kernel_spawn_multiprocess_demo. repeat hardware_step.
  eapply runs_first; [done..|]. intros p1 s1 h1 g1 _ Hs1 Hat1 _ Hp1 _. repeat hardware_step.
  eapply runs_update_pids; [exact Hat1|]. intros g2 Hat2 _ Hp2. repeat hardware_step.
  eapply runs_more; [done|exact Hs1|exact Hat2|]. intros p3 s3 h3 g3 Hs3 Hat3 _ Hp3 _. repeat hardware_step.
  eapply runs_update_pids; [exact Hat3|]. intros g4 Hat4 _ Hp4.
  exists s3. split_and!; [done|done|congruence|by rewrite HSF].
Qed.

(** The second foreground application is refused. *)
Lemma second_refused pid name s :
  SF = true →
  g_processes s = <[0%nat := spawned pid 0 name RUNTIME_PROCESS_ROLE_FOREGROUND_APP]> (g_processes initial_scheduler) →
  runtime_policy_can_spawn SF (g_processes s) RUNTIME_PROCESS_ROLE_FOREGROUND_APP = false.
Proof. intros -> ->. reflexivity. Qed.

Ltac spawn_more :=
  lazymatch goal with
  | Hs : one_ready ?s, Hat : boot_at ?s ?k ?g |- runs (spawn _ _ _ _ _ _ _) _ ?g _ =>
      eapply runs_more; [assumption|exact Hs|exact Hat|]; clear Hs Hat;
      let p := fresh "p" in let s' := fresh "s" in let h' := fresh "h" in let g' := fresh "g" in
      let Hs := fresh "Hs" in let Hat := fresh "Hat" in let Hp := fresh "Hp" in let Hq := fresh "Hq" in let Hr := fresh "Hr" in
      intros p s' h' g' Hs Hat Hp Hq Hr
  end.

Lemma single_foreground_runs k h g :
  SF = true → stacks_fit base → function_address "task_a" ≠ 0 → boot_at initial_scheduler k g →
  runs (kernel_spawn_single_foreground_demo SF FSS base first_entry function_address) h g (λ _ _ g', processes_spawned k g g').
Proof.
  intros HSF Hfit Ha Hat. unfold kernel_spawn_single_foreground_demo. apply runs_bind.
  eapply runs_first; [done..|]. clear Hat. intros pa sa ha ga Hpid Hs Hat _ Hpa Hl.
  apply runs_bind. spawn_more. specialize (Hr (second_refused _ _ _ HSF Hl)) as ->.
  do 5 (apply runs_bind; spawn_more). apply runs_bind.
  eapply (runs_weaken _ _ _ (λ _ _ g', ∃ s, one_ready s ∧ boot_at s k g' ∧ kn_pointers g' = kn_pointers g)).
  { destruct FSS; [spawn_more|apply runs_ret]; eexists; split_and!; [done|done|congruence|done|done|congruence]. }
  intros pf hf gf (s' & Hs' & Hat' & Hpf). apply runs_bind.
  eapply runs_more; [assumption|exact Hs'|exact Hat'|]. intros pu su hu gu Hsu Hatu _ Hpu _.
  eapply runs_update_pids; [exact Hatu|]. intros gv Hatv Hpids Hpv.
  exists su. split_and!; [done|done|congruence|]. intros _. rewrite Hpids. cbn [g_second_foreground_rejected].
  rewrite (proj2 (nz_true pa)) by done. done.
Qed.

Lemma mark_after_quiet condition call mark :
  quiet_driver call → quiet_driver (mark_after (HW := HW) condition call mark).
Proof.
  intros Hc h g. unfold mark_after. destruct condition; [|by apply runs_ret]. apply runs_bind.
  eapply runs_weaken; [apply Hc|]. intros [] h' g' ->. by apply runs_write.
Qed.

(** The deferred-interrupts message is all that depends on the test flags. *)
Lemma runs_log_if condition s k tag message h g (Q : unit → HW → kernel_state → Prop) :
  boot_at s k g →
  (∀ h' g', boot_at s k g' → kn_pids g' = kn_pids g → kn_pointers g' = kn_pointers g → Q tt h' g') →
  runs (if condition : bool then log tag message else mret tt) h g Q.
Proof. intros Hb HQ. destruct condition; [by eapply runs_log|by apply runs_ret, HQ]. Qed.

End steps.

(** The display demo is initialised. *)
Lemma display_runs s k h g (Q : unit → HW → kernel_state → Prop) :
  boot_state false s k g →
  (∀ h' g', boot_state true s k g' → kn_pids g' = kn_pids g → kn_pointers g' = kn_pointers g → Q tt h' g') →
  runs (on_display (runtime_display_demo_init layout)) h g Q.
Proof.
  intros [H1 H2 H3 H4 H5] HQ. apply runs_within. eapply runs_weaken; [by apply display_init_returns|].
  intros [] h' d (Hparts & front & back & Hd). destruct g as [[] ? ? ? ? ? ? ? ? ?]. apply HQ; [|reflexivity..].
  constructor; [exact H1|exact H2|exact (proj1 Hparts)|exact H4|]. split; [exact Hparts|]. exists front, back.
  destruct Hd. by constructor.
Qed.

(** What [kernel_main] has done when the first process runs. *)
Definition booted_state (o : main_outcome) (g' : kernel_state) : Prop :=
  ∃ first objects pointers, o = FirstProcess first ∧ state_of (kn_scheduler g') first = PROCESS_STATE_RUNNING ∧
    reachable SF PRE false base first_entry (Machine Calls (kn_scheduler g')) ∧
    create_objects object_table = Some (objects, pointers) ∧ kn_objects g' = objects ∧ kn_pointers g' = pointers ∧
    (SF = true → g_second_foreground_rejected (kn_pids g') = true) ∧
    (PRE = false → ∃ front back, demo_ok (whole_display g') front back).

Lemma spawns_run k p h g :
  stacks_fit base → function_address "task_a" ≠ 0 →
  create_objects object_table = Some (k, p) → boot_state false initial_scheduler k g → kn_pointers g = p →
  runs (kernel_main_spawns SF PRE FSS DELAY NOIRQ layout base first_entry function_address) h g (λ o _ g', booted_state o g').
Proof.
  intros Hfit Ha Hk Hat Hp. unfold kernel_main_spawns. apply runs_bind.
  eapply clear_runs; [exact Hat|]. intros h1 g1 Hat1 _ Hp1. repeat hardware_step.
  eapply runs_log; [exact Hat1|]. intros h2 g2 Hat2 _ Hp2. repeat hardware_step.
  eapply (runs_weaken _ _ _ (λ _ _ g', boot_state (negb PRE) initial_scheduler k g' ∧ kn_pointers g' = kn_pointers g2)).
  { destruct PRE; [apply runs_ret; exact (conj Hat2 eq_refl)|].
    eapply display_runs; [exact Hat2|]. intros h' g' H1 _ H2. exact (conj H1 H2). }
  intros [] h3 g3 (Hat3 & Hp3). repeat hardware_step. apply quiet_runs; [apply mark_after_quiet, interrupts_enable_quiet|].
  intros h4. repeat hardware_step.
  eapply (runs_weaken _ _ _ (λ _ _ g', processes_spawned (initialized := negb PRE) k g3 g')).
  { apply runs_if; intros HSF; [apply single_foreground_runs|apply multiprocess_runs]; assumption. }
  intros [] h5 g5 (s & Hs & Hat5 & Hp5 & Hrej). repeat hardware_step.
  eapply runs_log_if; [exact Hat5|]. intros h6 g6 Hat6 Hq6 Hp6. repeat hardware_step.
  apply quiet_runs; [apply mark_after_quiet, interrupts_enable_quiet|]. intros h7. repeat hardware_step.
  destruct Hs as (Hb & Hsync & Hready).
  eapply runs_weaken; [eapply run_scheduler_runs; [exact Hfit|exact Hb|exact Hat6|exact Hsync|by exists 0]|].
  intros o h8 g8 (i & -> & Hrun & Hr & Ho & Hp8 & Hq8 & Hd8).
  exists i, k, p. repeat (split; [first [reflexivity|assumption|idtac]|]).
  - by rewrite Hp8, Hp6, Hp5, Hp3, Hp2, Hp1.
  - rewrite Hq8, Hq6. exact Hrej.
  - intros HPRE. rewrite HPRE in Hd8. exact (proj2 Hd8).
Qed.

End boot.

(** ** On the simulated machine *)

#[export] Instance sim_rom : Rom sim := λ _ _ _ m, m.
(** Nobody else does anything. *)
#[export] Instance sim_others : Others sim := {|
  process_yield := mret tt;
  process_sleep := λ _, mret tt;
  process_waitpid := λ _, mret ((-1)%Z, None);
  runtime_service_request_sync := λ _ _, mret None
|}.

Definition sim_console : console_state := ConsoleState (replicate 1024 "000"%char) 0 0 0 (UsbState (replicate 64 0) 0).

(** A state from which the kernel starts. *)
Definition initial_state : kernel_state :=
  KernelState
    (TrapState 0 0 0 initial_scheduler sim_console (TouchState (replicate 22 (Gpio.Slot None 0)) 0 0) (SystimerState 0 0))
    (set_flags 0 0 0 demo_start) initial_objects no_objects (DemoPids 0 0 0 0 0 false) (ManagementDemo None None 0 0 0 0 0 0 0 0 0)
    (LineState (replicate 64 NUL) 0) zero_demo (replicate 8 (SessionEntry 0 0 0 0 0))
    (StressState (System None None) [] 0 0 0%Z 0 0 0 0 0 0 0 (0, 0, 0)).

